(* ===== verification/_CoqProject ===== *)
-Q . S2P
Prelude.v
Bitops.v
Prefix.v
Tlv.v
DnsUtil.v
DncpNotify.v
DncpIndex.v
DncpState.v
Dncp.v
DncpFacts.v
DncpProto.v
DncpTimeout.v
DncpPrune.v
DncpInv.v
DncpSteps.v
DncpProps.v
DncpExample.v
Btrie.v
BtrieBits.v
BtrieWf.v
BtrieAdd.v
BtrieIns.v
BtrieTrie.v
BtrieIter.v
BtrieWalk.v
BtrieFree.v
BtrieAvail.v
BtrieEach.v
BtrieFirst.v
BtrieProps.v
PaTrie.v
PaCore.v
PaFacts.v
PaInv.v
PaPublish.v
PaCheck.v
PaRoutine.v
PaPairs.v
PaAdvertise.v
PaSettings.v
PaSteps.v
PaRules.v
PaPick.v
PaOverride.v
PaRandom.v
PaHamming.v
PaForms.v
PaRulesOk.v
PaExample.v
PaProps.v
PaStore.v
PaStoreInv.v
PaStoreCache.v
PaStoreLinks.v
PaStoreText.v
PaStoreFile.v
PaStoreOps.v
PaStoreProps.v
Hncp.v
HncpLink.v
HncpElect.v
HncpLinkProps.v
HncpRouting.v
HncpBfs.v
HncpRoutingProps.v
DncpTrust.v
DncpTrustFacts.v
DncpTrustInv.v
DncpTrustOps.v
DncpTrustFile.v
DncpTrustProps.v
HncpPa.v
HncpPaEc.v
HncpPaInv.v
HncpPaEnable.v
HncpPaLocal.v
HncpPaHeap.v
HncpPaOps.v
HncpPaRound.v
HncpPaProps.v
