(* ===== verification/Prelude.v ===== *)
(** * Verification of hnetd

    hnetd is an implementation of the Home Networking Control Protocol.  Its
    routers flood the TLVs each of them publishes (DNCP), so that every router
    knows the data of all the others, and then decide locally, from that shared
    state, which prefixes to use on which link.  This library models the parts
    that decide something as functions on explicit state and proves what they
    promise.

    ** Conventions

    A C integer is a [Z]; its wrap-around ([u8], [u16], [u32], [u64], ...) is
    written where the source relies on it.  A byte buffer is a [list Z].  Reads
    and writes are partial: [None] is an access out of bounds or through [NULL],
    a division by zero, or another behaviour C leaves undefined, so a theorem
    that concludes [Some] also says that the code stays in bounds.  Memory
    allocation succeeds, but for that of [PaStore] and of the interfaces and
    prefixes of [HncpPa], where a parameter says when it fails.  The intrusive containers of libubox are lists in the
    order of their comparison function.  Code outside of the repository
    ([inet_ntop], [qsort], the hash, the clock, [random], callbacks of clients)
    is a parameter, with what is relied on as a class whose instances are in the
    same file or in [DncpExample].

    ** Parts

    - [Prelude]: machine integers, buffers, bits of a buffer, tactics.
    - [Bitops] models [src/bitops.c]: copies and comparisons of bit strings at any
      bit offset, Hamming distance and the closest value below a bound, and
      hexadecimal text.
    - [Prefix] models [src/prefix.c] and [src/prefix_utils.h]: containment is
      inclusion of address sets, [prefix_cmp] is an order, text round trips.
    - [Tlv] models [src/tlv.c] and [src/tlv.h]: the loop over an arbitrary block is
      safe, what is built is read back, comparison is an order, sorting sorts.
    - [DnsUtil] models [src/dns_util.h].
    - [DncpNotify] models the difference of two blocks of TLVs in
      [src/dncp_notify.c]; [DncpIndex] the index of TLVs by type in [src/dncp.c].
    - [DncpState] has the structures of [src/dncp_i.h] and [src/dncp.h] as records,
      with a log of what the protocol sends, schedules and tells its subscribers.
      [Dncp] models [src/dncp.c] and the rest of [src/dncp_notify.c], [DncpProto]
      [src/dncp_proto.c], [DncpTimeout] [src/dncp_timeout.c].
    - [DncpFacts] collects what the operations leave alone; [DncpPrune] shows that
      pruning computes reachability in the graph of bidirectional links;
      [DncpInv] and [DncpSteps] prove the invariant of all reachable states by
      induction on the steps of the daemon; [DncpProps] has the behaviour of
      single operations; [DncpExample] runs a small network, which provides the
      witnesses, and shows the cases where the code departs from its intent.
    - [Btrie] models [src/btrie.c] and the loops of [src/btrie.h]: nodes are values
      and a pointer to one is a location, the node with the frames of its
      ancestors.  [BtrieBits], [BtrieWf], [BtrieAdd], [BtrieIns] and [BtrieTrie]
      prove insertion and removal against the list of entries; [BtrieIter] and
      [BtrieWalk] the walks from a key; [BtrieFree], [BtrieAvail], [BtrieEach] and
      [BtrieFirst] the loop over available keys; [BtrieProps] has the theorems.
    - [PaTrie] is what the prefix assignment uses of the trie as a class with its
      laws, of which the binary trie is an instance.  [PaCore] models
      [src/pa_core.c]: the records of a core, with pairs of links and delegated
      prefixes, timers and a log of callbacks, and one function for each operation.
      [PaFacts] and [PaInv] have the invariant of a core and what the states of a
      pair do to it; [PaPublish], [PaCheck] and [PaRoutine] the parts of the routine;
      [PaPairs], [PaAdvertise] and [PaSettings] the other operations; [PaSteps] puts
      them together in a step relation and proves by induction that every state
      reached is safe.
    - [PaRules] models [src/pa_rules.c] and [src/pa_filters.c].  [PaPick] shows that
      what is counted, chosen as subset and picked are the prefixes of the desired
      length inside the available ones; [PaOverride] what may be
      overridden; [PaRandom] and [PaHamming] that the random and the hamming rule
      publish free prefixes, the random rule also such as it may override; [PaForms] and [PaRulesOk] that the rules satisfy the class that the
      theorems on the core assume.  [PaExample] runs a core with an adopt and a
      random rule; [PaProps] has the theorems and shows flaws.
    - [PaStore] models [src/pa_store.c]: the heap of links and prefixes, the file with
      its timers and the rule that proposes cached prefixes.  [PaStoreInv] relates the
      two lists that hold each prefix to one sequence, [PaStoreCache] caches and drops,
      [PaStoreLinks] adds and removes links, [PaStoreText] and [PaStoreFile] write and
      read the file, [PaStoreOps] puts the operations together; [PaStoreProps] shows that
      they implement a list of recent prefixes, and what is lost.
    - [Hncp] has the TLVs of [src/hncp_proto.h] and [src/hncp_i.h].  [HncpLink] models
      [src/hncp_link.c]; [HncpElect] shows what its loops compute, [HncpLinkProps] that
      exactly one router of a link is elected for a role and that the calculation
      reports the mutual neighbours.
    - [HncpRouting] models [src/hncp_routing.c]: the walk in the forked process is a
      function from the DNCP state to the script calls, the rest a state machine with
      a log of processes.  [HncpBfs] has the invariant of the walk; in
      [HncpRoutingProps] the next hops are those of shortest paths.
    - [DncpTrust] models [src/dncp_trust.c]: the tree of verdicts as the bytes of its
      records in order, with the DNCP state, the file and the timer.  [DncpTrustFacts]
      has records, tree and the verdicts of other nodes, [DncpTrustInv] the invariant
      and publishing, [DncpTrustOps] and [DncpTrustFile] the operations,
      [DncpTrustProps] the theorems and examples of requests that get lost.
    - [HncpPa] models the delegated prefixes of [src/hncp_pa.c]: where they come from,
      which are enabled, the local IPv4 and ULA prefix with their timers and the
      external connections that are published.  [HncpPaEc] has what is published,
      [HncpPaInv] the invariant, [HncpPaEnable] the choice of the enabled ones,
      [HncpPaLocal] the timers, [HncpPaHeap] the prefixes that are created and freed;
      [HncpPaOps] shows that every operation succeeds and keeps the invariant, or is one
      of three faults,
      [HncpPaRound] that a published TLV parses.
      In [HncpPaProps] the calls of the core agree with the enabled prefixes, of
      which none contains another but for the generated ones, a local ULA prefix
      exists only without one of other nodes, and receivers read what was announced.
      Memory for DHCP options and for the object itself is always found.

    ** What the theorems assume

    - Subscribers of DNCP ([Passive] in [DncpFacts]) change local TLVs through the
      functions for that, and nothing else; those beside [HncpPa] leave its external
      connections alone, those beside [DncpTrust] its verdicts.
    - The daemon does not sleep until its own data has expired without being renewed
      ([in_time] in [DncpSteps]).  Then its own node is dropped ([DncpExample]).
    - Pruning and routing read TLVs through the index of each node, which relies on
      their order by type ([data_ordered] in [DncpPrune]); received data is not checked
      for it, and TLVs out of order are missed ([DncpExample]).  The theorems on trust
      are about the verdicts that the index finds, and say that these are all verdicts
      where the data is ordered.
    - Callers of [PaStore] and [HncpPa] respect [allowed] and [hpa_allowed]; what has no
      defined result all the same is [faults] and [hpa_faults], and the theorems say
      exactly when.  For the core of the prefix assignment this is [pa_undefined], for
      its rules the last argument of [answers], and [random_undefined].

    ** Bounds and fuel

    Loops that are not structural take fuel: the length of the block for loops
    over TLVs (each round passes at least a header), the number of nodes plus one
    for the flood fill of [_prune_rec] (each call that goes on marks a node), 64
    for the loop of [_bytes_to_exp] (its variable doubles), two for [_push_tlv]
    (a reply that starts pushes one endpoint TLV first), three rounds for each
    node for the walks of the trie and 200 for its walk over available keys (a
    node covers at most 32 bits), the number of nodes for the routing walk (each is
    queued once) and of records for the removal of neutral verdicts.  The theorems
    show that this is enough where they conclude [Some], or that the code does not
    end.

    ** Not modelled

    Sockets, DTLS and certificates, netlink and ubus, external scripts, the
    command line and the dump of the state are calls into the operating
    system or into other libraries. Of the glue between HNCP and prefix
    assignment, assigned prefixes and addresses of other nodes, adjacencies,
    leases, the configuration of interfaces and the callbacks of rules and
    of the core are left out. The prefix delegation server, service
    discovery, multicast, tunnels, wireless and interface handling are not
    translated. Of the DNCP core, the creation and destruction of the object
    and the printing of values for the log are left out; of prefix
    assignment, the attachment of a core to a parent; of HNCP, the creation
    of the profile. *)
From stdpp Require Export base list numbers option strings gmap sorting.
From Stdlib Require Export ZArith Lia ZifyNat.

#[global] Open Scope Z_scope.

#[global] Arguments Nat.div : simpl never.
#[global] Arguments Nat.modulo : simpl never.
#[global] Arguments Nat.sub : simpl nomatch.
#[global] Arguments Z.of_nat : simpl never.
#[global] Arguments Z.mul : simpl never.
#[global] Arguments Nat.mul : simpl never.

(** ** Machine integers

    A C integer is a [Z]; the wrap-around of its width is written where the
    source relies on it. *)

Definition u8 (z : Z) : Z := z mod 2 ^ 8.
Definition u16 (z : Z) : Z := z mod 2 ^ 16.
Definition u32 (z : Z) : Z := z mod 2 ^ 32.
Definition u64 (z : Z) : Z := z mod 2 ^ 64.
Definition i8 (z : Z) : Z := (z + 2 ^ 7) mod 2 ^ 8 - 2 ^ 7.
Definition i32 (z : Z) : Z := (z + 2 ^ 31) mod 2 ^ 32 - 2 ^ 31.

Definition byte_ok (b : Z) : Prop := 0 <= b < 256.
Definition bytes_ok (l : list Z) : Prop := Forall byte_ok l.

#[global] Instance byte_ok_dec b : Decision (byte_ok b).
Proof. unfold byte_ok. apply _. Defined.
#[global] Instance bytes_ok_dec l : Decision (bytes_ok l).
Proof. unfold bytes_ok. apply _. Defined.

(** C truth value of a flag. *)
Definition b2z (b : bool) : Z := if b then 1 else 0.

(** ** Memory

    A buffer is a [list Z] of bytes.  Reads and writes are partial: [None] is
    an access outside the buffer, which C leaves undefined. *)

Definition rd (buf : list Z) (i : nat) : option Z := buf !! i.

Definition wr (buf : list Z) (i : nat) (v : Z) : option (list Z) :=
  if decide (i < length buf)%nat then Some (<[i := v]> buf) else None.

(** Assignment to an element of an array of any type. *)
Definition set_at {A} (l : list A) (i : nat) (v : A) : option (list A) :=
  if decide (i < length l)%nat then Some (<[i := v]> l) else None.

(** [n] bytes of [buf] from offset [i]. *)
Definition rdn (buf : list Z) (i n : nat) : option (list Z) :=
  if decide (i + n <= length buf)%nat then Some (take n (drop i buf)) else None.

(** [memcpy(buf + i, src, length src)]. *)
Definition wrn (buf : list Z) (i : nat) (src : list Z) : option (list Z) :=
  if decide (i + length src <= length buf)%nat
  then Some (take i buf ++ src ++ drop (i + length src) buf) else None.

(** [memcmp]: the difference of the first bytes that differ, 0 when the common
    part is equal. *)
Fixpoint memcmp (a b : list Z) : Z :=
  match a, b with
  | x :: a', y :: b' => if decide (x = y) then memcmp a' b' else x - y
  | _, _ => 0
  end.

(** ** Tactics *)

(** Decompose a successful computation of the option monad. *)
Ltac inv_opt :=
  repeat match goal with
  | H : (_ ≫= _) = Some _ |- _ => apply bind_Some in H as (? & ? & ?)
  | H : Some _ = Some _ |- _ => apply (inj Some) in H
  | H : None = Some _ |- _ => discriminate H
  | H : (if decide ?P then _ else _) = Some _ |- _ => destruct (decide P); [|discriminate H]
  end; subst.

Ltac case_dec := repeat case_decide.

(** A closed decidable fact, by evaluation. *)
Ltac decided := match goal with |- ?P => refine (bool_decide_unpack P _) end; vm_compute; exact I.

(** Arithmetic on the lengths of lists built by slicing. *)
Ltac len_solve :=
  repeat (rewrite ?length_app, ?length_take, ?length_drop, ?length_insert, ?length_replicate;
          cbn [length]); lia.

(** ** Bits of a buffer

    Bit [i] of a buffer, most significant bit of byte 0 first: the numbering of
    prefixes and of [bitops.h]. *)
Definition bit (buf : list Z) (i : nat) : bool :=
  match buf !! (i / 8)%nat with
  | Some b => Z.testbit b (Z.of_nat (7 - i mod 8))
  | None => false
  end.

Lemma rd_wr buf i v buf' : wr buf i v = Some buf' -> buf' = <[i := v]> buf /\ (i < length buf)%nat.
Proof. unfold wr. intros. inv_opt. done. Qed.

Lemma wr_Some buf i v : (i < length buf)%nat -> wr buf i v = Some (<[i := v]> buf).
Proof. intros. unfold wr. by rewrite decide_True. Qed.

Lemma set_at_Some {A} (l : list A) i v : (i < length l)%nat -> set_at l i v = Some (<[i := v]> l).
Proof. intros. unfold set_at. by rewrite decide_True. Qed.

Lemma rdn_Some buf i n : (i + n <= length buf)%nat -> rdn buf i n = Some (take n (drop i buf)).
Proof. intros. unfold rdn. by rewrite decide_True. Qed.

Lemma wrn_Some buf i src :
  (i + length src <= length buf)%nat ->
  wrn buf i src = Some (take i buf ++ src ++ drop (i + length src) buf).
Proof. intros. unfold wrn. by rewrite decide_True. Qed.

Lemma rdn_app a b c n : n = length b -> rdn (a ++ b ++ c) (length a) n = Some b.
Proof.
  intros ->. rewrite rdn_Some by (rewrite !length_app; lia).
  by rewrite drop_app_length, take_app_length.
Qed.

Lemma wrn_app a b b' c :
  length b = length b' -> wrn (a ++ b ++ c) (length a) b' = Some (a ++ b' ++ c).
Proof.
  intros Hl. rewrite wrn_Some by (rewrite !length_app; lia).
  rewrite take_app_length, <- drop_drop, drop_app_length, <- Hl, drop_app_length. done.
Qed.

(** A block splits at any offset it covers. *)
Lemma split_at {A} (l : list A) n : (n <= length l)%nat -> exists a b, l = a ++ b /\ length a = n.
Proof. intros. exists (take n l), (drop n l). rewrite take_drop, length_take. split; [done|lia]. Qed.

Lemma filter_ext_in {A} (P Q : A -> Prop) `{forall x, Decision (P x), forall x, Decision (Q x)} (l : list A) :
  (forall x, x ∈ l -> P x <-> Q x) -> filter P l = filter Q l.
Proof.
  intros HPQ. induction l as [|x l IH]; [done|].
  assert (P x <-> Q x) as Hx by (apply HPQ; left).
  specialize (IH ltac:(intros; apply HPQ; by right)).
  destruct (decide (P x)).
  - rewrite !filter_cons_True by tauto. by f_equal.
  - by rewrite !filter_cons_False by tauto.
Qed.

Lemma filter_all {A} (P : A -> Prop) `{forall x, Decision (P x)} (l : list A) :
  (forall x, x ∈ l -> P x) -> filter P l = l.
Proof.
  intros HP. induction l as [|x l IH]; [done|].
  rewrite filter_cons_True by (apply HP; left). f_equal. apply IH. intros; apply HP; by right.
Qed.

Lemma filter_none {A} (P : A -> Prop) `{forall x, Decision (P x)} (l : list A) :
  (forall x, x ∈ l -> ~ P x) -> filter P l = [].
Proof.
  intros HP. induction l as [|x l IH]; [done|].
  rewrite filter_cons_False by (apply HP; left). apply IH. intros; apply HP; by right.
Qed.

Lemma NoDup_fmap_filter {A B} (f : A -> B) (P : A -> Prop) `{forall x, Decision (P x)} (l : list A) :
  NoDup (f <$> l) -> NoDup (f <$> filter P l).
Proof.
  induction l as [|x l IH]; [done|]. cbn [fmap list_fmap]. intros [Hx Hl]%NoDup_cons. rewrite filter_cons.
  case_decide; [|by apply IH]. cbn [fmap list_fmap]. apply NoDup_cons. split; [|by apply IH].
  intros (y & Hy & Hin)%list_elem_of_fmap. apply Hx. apply list_elem_of_filter in Hin as [_ Hin]. apply list_elem_of_fmap. by exists y.
Qed.

Lemma byte_testbit_high b i : byte_ok b -> 8 <= i -> Z.testbit b i = false.
Proof.
  intros Hb Hi. destruct (decide (b = 0)) as [->|]; [apply Z.testbit_0_l|].
  apply Z.bits_above_log2; unfold byte_ok in *; [lia|].
  assert (Z.log2 b < 8); [|lia]. apply Z.log2_lt_pow2; lia.
Qed.

(** Bytes with the same eight bits are equal. *)
Lemma byte_bits_inj a b :
  byte_ok a -> byte_ok b ->
  (forall i, (i < 8)%nat -> Z.testbit a (Z.of_nat i) = Z.testbit b (Z.of_nat i)) -> a = b.
Proof.
  intros Ha Hb H. apply Z.bits_inj'. intros i Hi.
  destruct (decide (i < 8)).
  - rewrite <- (Z2Nat.id i) by done. apply H. lia.
  - rewrite !byte_testbit_high by (done || lia). done.
Qed.

Lemma byte_ok_bits b :
  0 <= b -> (forall i, 8 <= i -> Z.testbit b i = false) -> byte_ok b.
Proof.
  intros H0 H. split; [done|]. destruct (decide (b < 256)); [done|].
  assert (8 <= Z.log2 b) by (apply Z.log2_le_pow2; lia).
  pose proof (Z.bit_log2 b ltac:(lia)) as Hb. by rewrite H in Hb.
Qed.

Lemma u8_ok z : byte_ok (u8 z).
Proof. apply Z.mod_pos_bound. done. Qed.

Lemma u8_testbit z i : 0 <= i < 8 -> Z.testbit (u8 z) i = Z.testbit z i.
Proof. intros. unfold u8. apply Z.mod_pow2_bits_low. lia. Qed.

Lemma u8_id z : byte_ok z -> u8 z = z.
Proof. intros. by apply Z.mod_small. Qed.

Lemma bytes_ok_lookup l i b : bytes_ok l -> l !! i = Some b -> byte_ok b.
Proof. intros H. by apply Forall_lookup_1. Qed.

Create HintDb hnetd.
#[export] Hint Resolve u8_ok bytes_ok_lookup : hnetd.
