(* ===== verification/Bitops.v ===== *)
(** Bit-level memory operations: the model of [src/bitops.c]. *)
From S2P Require Import Prelude.

(** [bbytecpy_masks]. *)
Definition bbytecpy_masks : list Z :=
  [0x00; 0x80; 0xc0; 0xe0; 0xf0; 0xf8; 0xfc; 0xfe; 0xff].

(** One byte: [*dst = ( *dst & ~mask) | ( *src & mask)]. *)
Definition bbytecpy (dst : list Z) (doff : nat) (src : list Z) (soff : nat)
    (frombit nbits : nat) : option (list Z) :=
  m ← bbytecpy_masks !! nbits;
  let mask := Z.shiftr m (Z.of_nat frombit) in
  s ← rd src soff;
  let v := Z.land s mask in
  d ← rd dst doff;
  wr dst doff (u8 (Z.lor (Z.land d (Z.lnot mask)) v)).

Definition bmemcpy (dst : list Z) (doff : nat) (src : list Z) (soff : nat)
    (frombit nbits : nat) : option (list Z) :=
  let tobit := (frombit + nbits)%nat in
  let frombyte := (frombit / 8)%nat in
  let tobyte := (tobit / 8)%nat in
  let nbyte := (tobyte - frombyte)%nat in
  let frombitrem := (frombit mod 8)%nat in
  let tobitrem := (tobit mod 8)%nat in
  let doff := (doff + frombyte)%nat in
  let soff := (soff + frombyte)%nat in
  if decide (nbyte = 0)%nat then bbytecpy dst doff src soff frombitrem nbits
  else
    '(dst, doff, soff, nbyte) ←
      (if decide (frombitrem ≠ 0)%nat then
         dst ← bbytecpy dst doff src soff frombitrem (8 - frombitrem);
         Some (dst, doff + 1, soff + 1, nbyte - 1)%nat
       else Some (dst, doff, soff, nbyte));
    s ← rdn src soff nbyte;
    dst ← wrn dst doff s;
    if decide (tobitrem ≠ 0)%nat
    then bbytecpy dst (doff + nbyte) src (soff + nbyte) 0 tobitrem
    else Some dst.

(** The [while(nbits)] loop of [bmemcpy_shift]; every round copies at least one
    bit, so [nbits] rounds are enough. *)
Fixpoint bmemcpy_shift_loop (fuel : nat) (dst : list Z) (doff dst_start : nat)
    (src : list Z) (soff src_start nbits : nat) : option (list Z) :=
  if decide (nbits = 0)%nat then Some dst
  else match fuel with
  | O => None
  | S fuel =>
    interm ← rd src soff;
    if decide (dst_start < src_start)%nat then
      let interm := u8 (Z.shiftl interm (Z.of_nat (src_start - dst_start))) in
      let n := Nat.min (8 - src_start) nbits in
      dst ← bbytecpy dst doff [interm] 0 dst_start n;
      bmemcpy_shift_loop fuel dst doff (dst_start + n) src (soff + 1) 0 (nbits - n)
    else
      let interm := Z.shiftr interm (Z.of_nat (dst_start - src_start)) in
      let n := Nat.min (8 - dst_start) nbits in
      dst ← bbytecpy dst doff [interm] 0 dst_start n;
      bmemcpy_shift_loop fuel dst (doff + 1) 0 src soff (src_start + n) (nbits - n)
  end.

Definition bmemcpy_shift (dst : list Z) (dst_start : nat) (src : list Z)
    (src_start nbits : nat) : option (list Z) :=
  let doff := (dst_start / 8)%nat in
  let dst_start := (dst_start mod 8)%nat in
  let soff := (src_start / 8)%nat in
  let src_start := (src_start mod 8)%nat in
  if decide (dst_start = src_start) then bmemcpy dst doff src soff dst_start nbits
  else bmemcpy_shift_loop nbits dst doff dst_start src soff src_start nbits.

Definition bmemcmp (m1 : list Z) (off1 : nat) (m2 : list Z) (off2 : nat)
    (bitlen : nat) : option Z :=
  let bytes := (bitlen / 8)%nat in
  a ← rdn m1 off1 bytes;
  b ← rdn m2 off2 bytes;
  let r := memcmp a b in
  if decide (r ≠ 0) then Some r
  else
    let rembit := (bitlen mod 8)%nat in
    if decide (rembit = 0)%nat then Some 0
    else
      p1 ← rd m1 (off1 + bytes);
      p2 ← rd m2 (off2 + bytes);
      let mask := u8 (Z.shiftl 0xff (Z.of_nat (8 - rembit))) in
      Some (Z.land p1 mask - Z.land p2 mask).

Definition bmemcmp_s (m1 m2 : list Z) (start nbits : nat) : option Z :=
  if decide (nbits = 0)%nat then Some 0
  else
    let md := (start mod 8)%nat in
    let first := (start / 8)%nat in
    let last := ((start + nbits) / 8)%nat in
    if decide (first = last) then
      let mask := Z.shiftr 0xff (Z.of_nat md) in
      let mask := Z.shiftr mask (Z.of_nat (8 - nbits - md)) in
      let mask := u8 (Z.shiftl mask (Z.of_nat (8 - nbits - md))) in
      a ← rd m1 first;
      b ← rd m2 first;
      Some (Z.land a mask - Z.land b mask)
    else if decide (md ≠ 0)%nat then
      let mask := Z.shiftr 0xff (Z.of_nat md) in
      a ← rd m1 first;
      b ← rd m2 first;
      let b1 := Z.land a mask in
      let b2 := Z.land b mask in
      if decide (b1 - b2 ≠ 0) then Some (b1 - b2)
      else
        let nbits := (nbits - (8 - md))%nat in
        if decide (nbits ≠ 0)%nat
        then bmemcmp m1 (first + 1) m2 (first + 1) nbits else Some 0
    else bmemcmp m1 first m2 first nbits.

(** ** Hamming distance *)

(** A 64-bit load from a byte buffer, on a host of either byte order, and
    libubox's [be64_to_cpu]. *)
Fixpoint le_word (bs : list Z) : Z :=
  match bs with [] => 0 | b :: bs => b + 256 * le_word bs end.

Definition be_word (bs : list Z) : Z := le_word (reverse bs).

Fixpoint le_bytes (n : nat) (x : Z) : list Z :=
  match n with O => [] | S n => x mod 256 :: le_bytes n (x / 256) end.

Definition bswap64 (x : Z) : Z := be_word (le_bytes 8 x).

Definition load64 (big_endian : bool) (buf : list Z) (i : nat) : option Z :=
  bs ← rdn buf (8 * i) 8;
  Some (if big_endian then be_word bs else le_word bs).

Definition be64_to_cpu (big_endian : bool) (x : Z) : Z :=
  if big_endian then x else bswap64 x.

Definition m1 : Z := 0x5555555555555555.
Definition m2 : Z := 0x3333333333333333.
Definition m4 : Z := 0x0f0f0f0f0f0f0f0f.
Definition hff : Z := 0xffffffffffffffff.
Definition h01 : Z := 0x0101010101010101.

Definition popcount_3 (x : Z) : Z :=
  let x := u64 (x - Z.land (Z.shiftr x 1) m1) in
  let x := u64 (Z.land x m2 + Z.land (Z.shiftr x 2) m2) in
  let x := Z.land (u64 (x + Z.shiftr x 4)) m4 in
  Z.shiftr (u64 (x * h01)) 56.

(** [for(i = 0; i < n; i++) dst += popcount_3(m1[i] ^ m2[i])]. *)
Fixpoint hamming_words (be : bool) (a b : list Z) (i n : nat) (dst : Z) : option Z :=
  match n with
  | O => Some dst
  | S n =>
    x ← load64 be a i;
    y ← load64 be b i;
    hamming_words be a b (i + 1) n (dst + popcount_3 (Z.lxor x y))
  end.

Definition hamming_distance_64 (be : bool) (a b : list Z) (nbits : nat) : option Z :=
  let n := (nbits / 64)%nat in
  let rem := (nbits mod 64)%nat in
  dst ← hamming_words be a b 0 n 0;
  if decide (rem ≠ 0)%nat then
    x ← load64 be a n;
    y ← load64 be b n;
    Some (dst + popcount_3 (Z.land (be64_to_cpu be (Z.lxor x y))
                                   (u64 (Z.shiftl hff (Z.of_nat (64 - rem))))))
  else Some dst.

(** [buf[n/8] & (0x80 >> (n%8))], as a truth value. *)
Definition getbit (buf : list Z) (n : nat) : option bool :=
  b ← rd buf (n / 8);
  Some (bool_decide (Z.land b (Z.shiftr 0x80 (Z.of_nat (n mod 8))) ≠ 0)).

(** The [while] loop of [hamming_minimize] over the leading zeros of [max]:
    from bit [n], [k] bits before [end]; the new [n] and [ret]. *)
Fixpoint hamming_minimize_loop (max target : list Z) (n k : nat) (ret : Z)
  : option (nat * Z) :=
  match k with
  | O => Some (n, ret)
  | S k =>
    mb ← getbit max n;
    if (mb : bool) then Some (n, ret)
    else
      tb ← getbit target n;
      hamming_minimize_loop max target (n + 1) k (if (tb : bool) then ret + 1 else ret)
  end.

Definition hamming_minimize (max target dst : list Z) (start_len nbits : nat)
  : option (list Z * Z) :=
  let e := (start_len + nbits)%nat in
  '(n, ret) ← hamming_minimize_loop max target start_len nbits 0;
  dst ← bmemcpy dst 0 max 0 start_len (n - start_len);
  let nbits := (e - n)%nat in
  if decide (nbits ≠ 0)%nat then
    dst ← bmemcpy dst 0 target 0 n nbits;
    c ← bmemcmp_s max target n nbits;
    if decide (c < 0) then
      d ← rd dst (n / 8);
      dst ← wr dst (n / 8) (Z.land d (Z.lnot (Z.shiftr 0x80 (Z.of_nat (n mod 8)))));
      Some (dst, ret + 1)
    else Some (dst, ret)
  else Some (dst, ret).

(** ** Hexadecimal text *)

Definition hexdigits : list Z :=
  [48; 49; 50; 51; 52; 53; 54; 55; 56; 57; 97; 98; 99; 100; 101; 102].

Definition hexvals : list Z :=
  [-1; -1; -1; -1; -1; -1; -1; -1; -1; -2; -2; -1; -1; -2; -1; -1;
   -1; -1; -1; -1; -1; -1; -1; -1; -1; -1; -1; -1; -1; -1; -1; -1;
   -2; -1; -1; -1; -1; -1; -1; -1; -1; -1; -1; -1; -1; -1; -1; -1;
    0;  1;  2;  3;  4;  5;  6;  7;  8;  9; -1; -1; -1; -1; -1; -1;
   -1; 10; 11; 12; 13; 14; 15; -1; -1; -1; -1; -1; -1; -1; -1; -1;
   -1; -1; -1; -1; -1; -1; -1; -1; -1; -1; -1; -1; -1; -1; -1; -1;
   -1; 10; 11; 12; 13; 14; 15; -1; -1; -1; -1; -1; -1; -1; -1; -1;
   -1; -1; -1; -1; -1; -1; -1; -1; -1; -1; -1; -1; -1; -1; -1; -1].

(** [while (((int8_t)*src) < 0 || ( *src && hexvals[(uint8_t)*src] < 0)) src++].
    The string ends at its NUL, so the loop is structural in the text left. *)
Fixpoint skip_nonhex (src : list Z) : option (list Z) :=
  match src with
  | [] => None
  | c :: src' =>
    if decide (i8 c < 0) then skip_nonhex src'
    else if decide (c ≠ 0) then
      v ← hexvals !! Z.to_nat c;
      if decide (v < 0) then skip_nonhex src' else Some src
    else Some src
  end.

(** One [int8_t] character to its value: [x < 0 || (x = hexvals[x]) < 0] fails. *)
Definition hexval (c : Z) : option (option Z) :=
  let x := i8 c in
  if decide (x < 0) then Some None
  else v ← hexvals !! Z.to_nat x;
       Some (if decide (v < 0) then None else Some v).

(** The loop of [unhexlify]: [c] bytes are written, [k = len - c] are left.
    The outer [option] is an access outside a buffer; [inl] is [return -1]
    with the bytes written so far. *)
Fixpoint unhexlify_loop (k : nat) (dst : list Z) (c : nat) (src : list Z)
  : option (Z * list Z) :=
  match k with
  | O => Some (Z.of_nat c, dst)
  | S k =>
    a ← rd src 0;
    if decide (a = 0) then Some (Z.of_nat c, dst)
    else
      b ← rd src 1;
      if decide (b = 0) then Some (Z.of_nat c, dst)
      else
        x ← hexval a;
        match x with
        | None => Some (-1, dst)
        | Some x =>
          y ← hexval b;
          match y with
          | None => Some (-1, dst)
          | Some y =>
            dst ← wr dst c (Z.lor (Z.shiftl x 4) y);
            src ← skip_nonhex (drop 2 src);
            unhexlify_loop k dst (c + 1) src
          end
        end
  end.

(** [src] is the text with its terminating NUL. *)
Definition unhexlify (dst : list Z) (len : nat) (src : list Z) : option (Z * list Z) :=
  unhexlify_loop len dst 0 src.

(** The loop of [hexlify], from input byte [i], [k = len - i] bytes left. *)
Fixpoint hexlify_loop (dst : list Z) (doff : nat) (src : list Z) (i k : nat)
  : option (list Z * nat) :=
  match k with
  | O => Some (dst, doff)
  | S k =>
    b ← rd src i;
    h ← hexdigits !! Z.to_nat (Z.shiftr b 4);
    dst ← wr dst doff h;
    l ← hexdigits !! Z.to_nat (Z.land b 0x0f);
    dst ← wr dst (doff + 1) l;
    hexlify_loop dst (doff + 2) src (i + 1) k
  end.

Definition hexlify (dst : list Z) (src : list Z) (len : nat) : option (list Z) :=
  '(dst, doff) ← hexlify_loop dst 0 src 0 len;
  wr dst doff 0.

Example hexlify_ex : hexlify (replicate 5 7) [0x1f; 0xa0] 2 = Some [49; 102; 97; 48; 0].
Proof. reflexivity. Qed.
Example unhexlify_ex : unhexlify [9; 9; 9] 3 [49; 102; 58; 97; 48; 0] = Some (2, [0x1f; 0xa0; 9]).
Proof. reflexivity. Qed.
Example popcount_ex : popcount_3 0xf0f0f0f0f0f0f0f1 = 33.
Proof. reflexivity. Qed.
Example bmemcpy_ex : bmemcpy [0xff; 0xff; 0xff] 0 [0; 0; 0] 0 4 12 = Some [0xf0; 0; 0xff].
Proof. reflexivity. Qed.
Example bmemcpy_shift_ex : bmemcpy_shift [0xff; 0xff; 0xff] 3 [0x55; 0x55] 1 11 = Some [0xf5; 0x57; 0xff].
Proof. vm_compute. reflexivity. Qed.
Example hamming_minimize_ex : hamming_minimize [0x2f] [0x7a] [0] 0 8 = Some ([0x1a], 2).
Proof. vm_compute. reflexivity. Qed.

(** ** The copy routines move bits *)

(** [dst'] is [dst] with the [n] bits from [dpos] replaced by those of [src]
    from [spos]; size and byte range are kept. *)
Definition copied (dst dst' src : list Z) (dpos spos n : nat) : Prop :=
  length dst' = length dst /\ bytes_ok dst' /\
  forall i, bit dst' i = if decide (dpos <= i < dpos + n)%nat
                         then bit src (spos + (i - dpos)) else bit dst i.

Lemma copied_refl dst src dpos spos : bytes_ok dst -> copied dst dst src dpos spos 0.
Proof. intros. split; [done|]. split; [done|]. intros i. case_decide; [lia|done]. Qed.

(** Two copies in a row make one, when the second starts where the first ended. *)
Lemma copied_chain dst d1 d2 src dpos spos dpos2 spos2 k n :
  copied dst d1 src dpos spos k ->
  copied d1 d2 src dpos2 spos2 (n - k) ->
  (k <= n)%nat -> ((k < n)%nat -> dpos2 = dpos + k /\ spos2 = spos + k)%nat ->
  copied dst d2 src dpos spos n.
Proof.
  intros (Hl1 & _ & H1) (Hl2 & Hok & H2) Hk Hpos. split; [congruence|]. split; [done|].
  intros i. rewrite H2, H1.
  destruct (decide (k < n)%nat) as [Hlt|]; [destruct (Hpos Hlt) as [-> ->]|];
    repeat case_decide; try lia; f_equal; lia.
Qed.

Lemma bit_insert buf j v i :
  (j < length buf)%nat ->
  bit (<[j := v]> buf) i =
  if decide (i / 8 = j)%nat then Z.testbit v (Z.of_nat (7 - i mod 8)) else bit buf i.
Proof.
  intros Hj. unfold bit. case_decide as E.
  - subst. by rewrite list_lookup_insert_eq.
  - by rewrite list_lookup_insert_ne.
Qed.

Lemma mask_testbit f n j :
  (f + n <= 8)%nat -> (j < 8)%nat ->
  (m ← bbytecpy_masks !! n; Some (Z.testbit (Z.shiftr m (Z.of_nat f)) (Z.of_nat (7 - j))))
  = Some (bool_decide (f <= j < f + n)%nat).
Proof.
  intros. assert (n <= 8 /\ f <= 8)%nat as [Hn Hf] by lia.
  do 9 (destruct n as [|n]; [
    do 9 (destruct f as [|f]; [do 8 (destruct j as [|j]; [reflexivity|]); lia|]); lia|]). lia.
Qed.

Lemma bbytecpy_copied dst doff src soff f n :
  bytes_ok dst -> bytes_ok src -> (f + n <= 8)%nat ->
  (doff < length dst)%nat -> (soff < length src)%nat ->
  exists dst', bbytecpy dst doff src soff f n = Some dst' /\
    copied dst dst' src (8 * doff + f) (8 * soff + f) n.
Proof.
  intros Hd Hs Hfn Hdo Hso.
  destruct (lookup_lt_is_Some_2 _ _ Hdo) as [d Ed].
  destruct (lookup_lt_is_Some_2 _ _ Hso) as [s Es].
  destruct (bbytecpy_masks !! n) as [m|] eqn:Em.
  2:{ apply lookup_ge_None in Em. simpl in Em. lia. }
  unfold bbytecpy, rd. rewrite Em. simpl. rewrite Es, Ed. simpl.
  rewrite wr_Some by done. eexists. split; [done|]. split; [by rewrite length_insert|].
  split. { apply Forall_insert; [done|]. apply u8_ok. }
  intros i. rewrite bit_insert by done. case_decide as Ei.
  - pose proof (mask_testbit f n (i mod 8)) as Hm. rewrite Em in Hm. simpl in Hm.
    specialize (Hm Hfn ltac:(lia)). apply (inj Some) in Hm.
    rewrite u8_testbit, Z.lor_spec, !Z.land_spec, Z.lnot_spec, Hm by lia.
    unfold bit. rewrite Ei, Ed. case_bool_decide; cbn [negb].
    + rewrite decide_True by lia.
      replace ((8 * soff + f + (i - (8 * doff + f))) / 8)%nat with soff by lia.
      rewrite Es, andb_false_r, andb_true_r, orb_false_l. do 2 f_equal. lia.
    + rewrite decide_False by lia. by rewrite andb_false_r, andb_true_r, orb_false_r.
  - case_decide; [lia|done].
Qed.

Lemma bytes_ok_wrn dst doff s : bytes_ok dst -> bytes_ok s ->
  bytes_ok (take doff dst ++ s ++ drop (doff + length s) dst).
Proof.
  intros. apply Forall_app_2; [by apply Forall_take|].
  apply Forall_app_2; [done|]. by apply Forall_drop.
Qed.

Lemma memcpy_copied dst doff src soff nb :
  bytes_ok dst -> bytes_ok src ->
  (doff + nb <= length dst)%nat -> (soff + nb <= length src)%nat ->
  exists dst', (s ← rdn src soff nb; wrn dst doff s) = Some dst' /\
    copied dst dst' src (8 * doff) (8 * soff) (8 * nb).
Proof.
  intros Hd Hs Hdl Hsl. rewrite rdn_Some by done. simpl.
  assert (length (take nb (drop soff src)) = nb) as Hlen by (rewrite length_take, length_drop; lia).
  rewrite wrn_Some by lia. eexists. split; [done|]. split.
  { rewrite !length_app, length_take, length_drop. lia. }
  split. { apply bytes_ok_wrn; [done|]. by apply Forall_take, Forall_drop. }
  intros i. unfold bit. rewrite Hlen.
  destruct (decide (i / 8 < doff)%nat).
  { rewrite lookup_app_l by (rewrite length_take; lia). rewrite lookup_take_lt by lia.
    rewrite decide_False by lia. done. }
  rewrite lookup_app_r by (rewrite length_take; lia).
  rewrite length_take, Nat.min_l by lia.
  destruct (decide (i / 8 < doff + nb)%nat).
  - rewrite lookup_app_l by lia. rewrite lookup_take_lt by lia. rewrite lookup_drop.
    rewrite decide_True by lia.
    replace ((8 * soff + (i - 8 * doff)) / 8)%nat with (soff + (i / 8 - doff))%nat by lia.
    by replace ((8 * soff + (i - 8 * doff)) mod 8)%nat with (i mod 8)%nat by lia.
  - rewrite lookup_app_r, Hlen by lia. rewrite lookup_drop, decide_False by lia.
    by replace (doff + nb + (i / 8 - doff - nb))%nat with (i / 8)%nat by lia.
Qed.

Lemma copied_weaken dst dst' src dpos spos n dpos' spos' n' :
  dpos = dpos' -> spos = spos' -> n = n' ->
  copied dst dst' src dpos spos n -> copied dst dst' src dpos' spos' n'.
Proof. by intros -> -> ->. Qed.

(** The unaligned head of [bmemcpy]: after it both pointers are byte aligned. *)
Lemma bmemcpy_head dst doff src soff f n :
  bytes_ok dst -> bytes_ok src -> (f / 8 < (f + n) / 8)%nat ->
  (8 * doff + f + n <= 8 * length dst)%nat -> (8 * soff + f + n <= 8 * length src)%nat ->
  exists d1 k, (if decide ((f mod 8)%nat ≠ 0%nat)
     then dst ← bbytecpy dst (doff + f / 8) src (soff + f / 8) (f mod 8) (8 - f mod 8);
          Some (dst, doff + f / 8 + 1, soff + f / 8 + 1, (f + n) / 8 - f / 8 - 1)%nat
     else Some (dst, doff + f / 8, soff + f / 8, (f + n) / 8 - f / 8)%nat)
     = Some (d1, doff + (f + k) / 8, soff + (f + k) / 8, (f + n) / 8 - (f + k) / 8)%nat /\
     ((f + k) mod 8 = 0 /\ k <= n)%nat /\ copied dst d1 src (8 * doff + f) (8 * soff + f) k.
Proof.
  intros Hd Hs Hb Hdl Hsl. case_decide as Ef.
  - destruct (bbytecpy_copied dst (doff + f / 8) src (soff + f / 8) (f mod 8) (8 - f mod 8))
      as (d' & -> & Hc); [done|done|lia..|].
    exists d', (8 - f mod 8)%nat. split; [simpl; f_equal; rewrite !pair_eq; repeat split; lia|].
    split; [lia|]. eapply copied_weaken, Hc; lia.
  - exists dst, 0%nat. split; [f_equal; rewrite !pair_eq; repeat split; lia|].
    split; [lia|]. by apply copied_refl.
Qed.

(** C1 *)
Lemma bmemcpy_copied dst doff src soff f n :
  bytes_ok dst -> bytes_ok src ->
  (8 * doff + f + Nat.max 1 n <= 8 * length dst)%nat ->
  (8 * soff + f + Nat.max 1 n <= 8 * length src)%nat ->
  exists dst', bmemcpy dst doff src soff f n = Some dst' /\
    copied dst dst' src (8 * doff + f) (8 * soff + f) n.
Proof.
  intros Hd Hs Hdl Hsl. unfold bmemcpy. case_decide as E0.
  { destruct (bbytecpy_copied dst (doff + f / 8) src (soff + f / 8) (f mod 8) n)
      as (d' & -> & Hc); [done|done|lia..|].
    eexists; split; [done|]. eapply copied_weaken, Hc; lia. }
  destruct (bmemcpy_head dst doff src soff f n) as (d1 & k & -> & [Hk Hkn] & Hc1);
    [done|done|lia..|]. cbn [mbind option_bind].
  pose proof (proj1 Hc1) as Hl1.
  destruct (memcpy_copied d1 (doff + (f + k) / 8) src (soff + (f + k) / 8)
              ((f + n) / 8 - (f + k) / 8)) as (d2 & E2 & Hc2); [apply Hc1|done|lia..|].
  apply bind_Some in E2 as (s & -> & E2). cbn [mbind option_bind]. rewrite E2.
  cbn [mbind option_bind]. pose proof (proj1 Hc2) as Hl2.
  assert (Hc12 : copied dst d2 src (8 * doff + f) (8 * soff + f) (8 * ((f + n) / 8) - f)).
  { eapply copied_chain; [apply Hc1|eapply copied_weaken, Hc2; [reflexivity..|lia]|lia..]. }
  case_decide as Et; [|eexists; split; [done|]; eapply copied_weaken, Hc12; lia].
  destruct (bbytecpy_copied d2 (doff + (f + k) / 8 + ((f + n) / 8 - (f + k) / 8)) src
    (soff + (f + k) / 8 + ((f + n) / 8 - (f + k) / 8)) 0 ((f + n) mod 8)) as (d3 & -> & Hc3);
    [apply Hc2|done|lia..|].
  eexists; split; [done|].
  eapply copied_chain; [apply Hc12|eapply copied_weaken, Hc3; [reflexivity..|lia]|lia..].
Qed.

Lemma copied_src dst dst' src src' dpos spos spos' n :
  (forall j, (j < n)%nat -> bit src (spos + j) = bit src' (spos' + j)) ->
  copied dst dst' src dpos spos n -> copied dst dst' src' dpos spos' n.
Proof.
  intros Hj (Hl & Hok & H). split; [done|]. split; [done|]. intros i. rewrite H.
  case_decide; [|done]. apply Hj. lia.
Qed.

(** The byte shifted into place holds the source bits at the destination's
    position. *)
Lemma bit_shiftl src soff b s d j :
  src !! soff = Some b -> byte_ok b -> (d < s)%nat -> (s + j < 8)%nat ->
  bit [u8 (Z.shiftl b (Z.of_nat (s - d)))] (d + j) = bit src (8 * soff + s + j).
Proof.
  intros Eb Hb Hsd Hj. unfold bit.
  replace ((d + j) / 8)%nat with 0%nat by lia.
  replace ((8 * soff + s + j) / 8)%nat with soff by lia. rewrite Eb. cbn [lookup list_lookup].
  rewrite u8_testbit, Z.shiftl_spec by lia. f_equal. lia.
Qed.

Lemma bit_shiftr src soff b s d j :
  src !! soff = Some b -> byte_ok b -> (s <= d)%nat -> (d + j < 8)%nat ->
  bit [Z.shiftr b (Z.of_nat (d - s))] (d + j) = bit src (8 * soff + s + j).
Proof.
  intros Eb Hb Hsd Hj. unfold bit.
  replace ((d + j) / 8)%nat with 0%nat by lia.
  replace ((8 * soff + s + j) / 8)%nat with soff by lia. rewrite Eb. cbn [lookup list_lookup].
  rewrite Z.shiftr_spec by lia. f_equal. lia.
Qed.

Lemma byte_shiftr_ok b k : byte_ok b -> 0 <= k -> byte_ok (Z.shiftr b k).
Proof.
  intros Hb Hk. apply byte_ok_bits; [apply Z.shiftr_nonneg, Hb|].
  intros i Hi. rewrite Z.shiftr_spec by lia. apply byte_testbit_high; [done|lia].
Qed.

Lemma bmemcpy_shift_loop_copied fuel dst doff ds src soff ss n :
  bytes_ok dst -> bytes_ok src -> (n <= fuel)%nat ->
  (ds < 8)%nat -> (ss < 8)%nat -> ds ≠ ss ->
  (8 * doff + ds + n <= 8 * length dst)%nat ->
  (8 * soff + ss + n <= 8 * length src)%nat ->
  exists dst', bmemcpy_shift_loop fuel dst doff ds src soff ss n = Some dst' /\
    copied dst dst' src (8 * doff + ds) (8 * soff + ss) n.
Proof.
  revert dst doff ds soff ss n. induction fuel as [|fuel IH];
    intros dst doff ds soff ss n Hd Hs Hn Hds Hss Hne Hdl Hsl; cbn [bmemcpy_shift_loop].
  { assert (n = 0)%nat as -> by lia. eexists; split; [done|]. by apply copied_refl. }
  case_decide as E0. { subst. eexists; split; [done|]. by apply copied_refl. }
  destruct (lookup_lt_is_Some_2 src soff) as [b Eb]; [lia|].
  assert (byte_ok b) as Hb by eauto with hnetd.
  unfold rd at 1. rewrite Eb. cbn [mbind option_bind]. case_decide as Ed.
  - destruct (bbytecpy_copied dst doff [u8 (Z.shiftl b (Z.of_nat (ss - ds)))] 0 ds
                (Nat.min (8 - ss) n)) as (d1 & -> & Hc1);
      [done|repeat constructor; apply u8_ok|lia..|simpl; lia|].
    eapply (copied_src _ _ _ src _ _ (8 * soff + ss)) in Hc1.
    2:{ intros j Hj. by apply bit_shiftl; [..|lia]. }
    cbn [mbind option_bind].
    destruct (IH d1 doff (ds + Nat.min (8 - ss) n)%nat (soff + 1)%nat 0%nat
                (n - Nat.min (8 - ss) n)%nat) as (d2 & -> & Hc2);
      [apply Hc1|done|lia..|destruct Hc1 as [-> _]; lia|lia|].
    eexists; split; [done|]. eapply copied_chain; [done|done|lia..].
  - destruct (bbytecpy_copied dst doff [Z.shiftr b (Z.of_nat (ds - ss))] 0 ds
                (Nat.min (8 - ds) n)) as (d1 & -> & Hc1);
      [done|apply Forall_singleton, byte_shiftr_ok; [done|lia]|lia..|simpl; lia|].
    eapply (copied_src _ _ _ src _ _ (8 * soff + ss)) in Hc1.
    2:{ intros j Hj. by apply bit_shiftr; [..|lia|lia]. }
    cbn [mbind option_bind].
    destruct (IH d1 (doff + 1)%nat 0%nat soff (ss + Nat.min (8 - ds) n)%nat
                (n - Nat.min (8 - ds) n)%nat) as (d2 & -> & Hc2);
      [apply Hc1|done|lia..|destruct Hc1 as [-> _]; lia|lia|].
    eexists; split; [done|]. eapply copied_chain; [done|done|lia..].
Qed.

Lemma bmemcpy_shift_ok dst dst_start src src_start n :
  bytes_ok dst -> bytes_ok src ->
  (dst_start + Nat.max 1 n <= 8 * length dst)%nat ->
  (src_start + Nat.max 1 n <= 8 * length src)%nat ->
  exists dst', bmemcpy_shift dst dst_start src src_start n = Some dst' /\
    copied dst dst' src dst_start src_start n.
Proof.
  intros Hd Hs Hdl Hsl. unfold bmemcpy_shift. case_decide as E.
  - destruct (bmemcpy_copied dst (dst_start / 8) src (src_start / 8) (dst_start mod 8) n)
      as (d & -> & Hc); [done|done|lia..|].
    eexists; split; [done|]. eapply copied_weaken, Hc; lia.
  - destruct (bmemcpy_shift_loop_copied n dst (dst_start / 8) (dst_start mod 8) src
                (src_start / 8) (src_start mod 8) n) as (d & -> & Hc); [done|done|lia..|].
    eexists; split; [done|]. eapply copied_weaken, Hc; lia.
Qed.

(** bmemcpy_shift copies exactly n bits from any bit offset of the source to any bit offset of
    the destination and leaves all other bits alone, without leaving the buffers. *)
Lemma bmemcpy_shift_copied dst dst_start src src_start n :
  bytes_ok dst -> bytes_ok src ->
  (dst_start + Nat.max 1 n <= 8 * length dst)%nat ->
  (src_start + Nat.max 1 n <= 8 * length src)%nat ->
  exists dst', bmemcpy_shift dst dst_start src src_start n = Some dst' /\
    copied dst dst' src dst_start src_start n.
Proof. apply bmemcpy_shift_ok. Qed.

(** ** The comparisons are lexicographic on bits *)

Lemma byte_forall (P : Z -> bool) b :
  forallb P (Z.of_nat <$> seq 0 256) = true -> byte_ok b -> P b = true.
Proof.
  intros H Hb. rewrite forallb_forall in H. apply H.
  apply list_elem_of_In, list_elem_of_fmap. unfold byte_ok in Hb.
  exists (Z.to_nat b). split; [lia|]. apply elem_of_seq. lia.
Qed.

(** [n] bits of [buf] from bit [start]. *)
Definition bits (buf : list Z) (start n : nat) : list bool := bit buf <$> seq start n.

(** The order of two bit strings, decided by the first bit that differs. *)
Fixpoint bits_cmp (l1 l2 : list bool) : comparison :=
  match l1, l2 with
  | x :: l1, y :: l2 => if Bool.eqb x y then bits_cmp l1 l2 else if x then Gt else Lt
  | _, _ => Eq
  end.

Fixpoint bval (l : list bool) : Z :=
  match l with [] => 0 | b :: l => b2z b * 2 ^ Z.of_nat (length l) + bval l end.

Lemma bval_bound l : 0 <= bval l < 2 ^ Z.of_nat (length l).
Proof.
  induction l as [|b l IH]; [simpl; lia|]. cbn [bval length].
  rewrite Nat2Z.inj_succ, Z.pow_succ_r by lia. destruct b; cbn [b2z]; lia.
Qed.

Lemma bits_cmp_bval l1 l2 :
  length l1 = length l2 -> bits_cmp l1 l2 = Z.compare (bval l1) (bval l2).
Proof.
  revert l2; induction l1 as [|x l1 IH]; intros [|y l2] Hl; try done.
  injection Hl as Hl. cbn [bits_cmp bval]. rewrite IH, Hl by done.
  pose proof (bval_bound l1). pose proof (bval_bound l2). rewrite Hl in *.
  destruct x, y; cbn [Bool.eqb b2z];
    destruct (Z.compare_spec (bval l1) (bval l2)); symmetry;
    first [apply Z.compare_eq_iff; lia | apply Z.compare_lt_iff; lia | apply Z.compare_gt_iff; lia].
Qed.

Lemma bits_cmp_app l1 r1 l2 r2 :
  length l1 = length l2 ->
  bits_cmp (l1 ++ r1) (l2 ++ r2) =
  match bits_cmp l1 l2 with Eq => bits_cmp r1 r2 | c => c end.
Proof.
  revert l2; induction l1 as [|x l1 IH]; intros [|y l2] Hl; try done.
  injection Hl as Hl. simpl. rewrite IH by done. by destruct x, y.
Qed.

Lemma bits_cmp_Eq l1 l2 : length l1 = length l2 -> bits_cmp l1 l2 = Eq <-> l1 = l2.
Proof.
  revert l2; induction l1 as [|x l1 IH]; intros [|y l2] Hl; try done.
  injection Hl as Hl. simpl. specialize (IH l2 Hl).
  destruct x, y; simpl; rewrite ?IH; split; congruence.
Qed.

Lemma length_bits buf s n : length (bits buf s n) = n.
Proof. unfold bits. by rewrite length_fmap, length_seq. Qed.

Lemma bits_app buf s n m : bits buf s (n + m) = bits buf s n ++ bits buf (s + n) m.
Proof. unfold bits. by rewrite seq_app, fmap_app. Qed.

Lemma bits_ext buf buf' s s' n :
  (forall j, (j < n)%nat -> bit buf (s + j) = bit buf' (s' + j)) ->
  bits buf s n = bits buf' s' n.
Proof.
  revert s s'. induction n as [|n IH]; intros s s' H; [done|].
  unfold bits in *. cbn [seq fmap list_fmap]. f_equal.
  - specialize (H 0%nat). rewrite !Nat.add_0_r in H. apply H. lia.
  - apply IH. intros j Hj. rewrite !Nat.add_succ_l, <- !Nat.add_succ_r. apply H. lia.
Qed.

(** A masked byte is the value of the bits the mask keeps. *)
Lemma masked_byte_val f n m a :
  (f + n <= 8)%nat -> bbytecpy_masks !! n = Some m -> byte_ok a ->
  Z.land a (Z.shiftr m (Z.of_nat f)) = bval (bits [a] f n) * 2 ^ Z.of_nat (8 - f - n).
Proof.
  intros Hfn Em Ha.
  apply Z.eqb_eq. apply (byte_forall (fun a => Z.eqb (Z.land a (Z.shiftr m (Z.of_nat f)))
    (bval (bits [a] f n) * 2 ^ Z.of_nat (8 - f - n))) a); [|done].
  assert (n <= 8 /\ f <= 8)%nat as [Hn Hf] by lia.
  do 9 (destruct n as [|n]; [injection Em as <-;
    do 9 (destruct f as [|f]; [try lia; vm_compute; reflexivity|]); lia|]). lia.
Qed.

Lemma bits_byte buf o f n b :
  buf !! o = Some b -> (f + n <= 8)%nat -> bits buf (8 * o + f) n = bits [b] f n.
Proof.
  intros E Hfn. apply bits_ext. intros j Hj. unfold bit.
  replace ((8 * o + f + j) / 8)%nat with o by lia. rewrite E.
  replace ((f + j) / 8)%nat with 0%nat by lia. cbn [lookup list_lookup].
  do 2 f_equal. lia.
Qed.

(** Bits [f .. f+n) of two bytes, compared by their masked values. *)
Lemma masked_cmp buf1 o1 a buf2 o2 b f n m :
  buf1 !! o1 = Some a -> buf2 !! o2 = Some b -> byte_ok a -> byte_ok b ->
  (f + n <= 8)%nat -> bbytecpy_masks !! n = Some m ->
  let mask := Z.shiftr m (Z.of_nat f) in
  Z.compare (Z.land a mask - Z.land b mask) 0 =
  bits_cmp (bits buf1 (8 * o1 + f) n) (bits buf2 (8 * o2 + f) n).
Proof.
  intros Ea Eb Ha Hb Hfn Em mask. subst mask.
  rewrite (bits_byte _ _ _ _ _ Ea), (bits_byte _ _ _ _ _ Eb) by done.
  rewrite bits_cmp_bval by (by rewrite !length_bits).
  rewrite !(masked_byte_val f n) by done.
  assert (0 < 2 ^ Z.of_nat (8 - f - n)) by (apply Z.pow_pos_nonneg; lia).
  rewrite <- Z.mul_sub_distr_r.
  destruct (Z.compare_spec (bval (bits [a] f n)) (bval (bits [b] f n))).
  - apply Z.compare_eq_iff. nia.
  - apply Z.compare_lt_iff. nia.
  - apply Z.compare_gt_iff. nia.
Qed.

Lemma bits_cons x a n : bits (x :: a) 0 (8 + n) = bits [x] 0 8 ++ bits a 0 n.
Proof.
  rewrite bits_app. apply f_equal2.
  - apply (bits_byte (x :: a) 0 0 8 x); [done|lia].
  - apply bits_ext. intros j Hj. unfold bit.
    replace ((0 + 8 + j) / 8)%nat with (S (j / 8)) by lia.
    replace ((0 + 8 + j) mod 8)%nat with ((0 + j) mod 8)%nat by lia. done.
Qed.

Lemma memcmp_bits a b :
  bytes_ok a -> bytes_ok b -> length a = length b ->
  Z.compare (memcmp a b) 0 = bits_cmp (bits a 0 (8 * length a)) (bits b 0 (8 * length a)).
Proof.
  revert b; induction a as [|x a IH]; intros [|y b] Ha Hb Hl; try done.
  injection Hl as Hl. apply Forall_cons in Ha as [Hx Ha]. apply Forall_cons in Hb as [Hy Hb].
  cbn [length memcmp]. replace (8 * S (length a))%nat with (8 + 8 * length a)%nat by lia.
  rewrite !bits_cons, bits_cmp_app by (by rewrite !length_bits).
  pose proof (masked_cmp [x] 0 x [y] 0 y 0 8 255 eq_refl eq_refl Hx Hy ltac:(lia) eq_refl) as Hm.
  cbv zeta in Hm. change (8 * 0 + 0)%nat with 0%nat in Hm. rewrite <- Hm. clear Hm.
  change (Z.shiftr 255 (Z.of_nat 0)) with (Z.ones 8).
  rewrite !Z.land_ones, !Z.mod_small by (done || lia).
  case_decide as E.
  - subst. rewrite Z.sub_diag. simpl. by apply IH.
  - destruct (Z.compare_spec (x - y) 0); [lia|done..].
Qed.

Lemma bits_rdn m o n : (o + n <= length m)%nat ->
  bits (take n (drop o m)) 0 (8 * n) = bits m (8 * o) (8 * n).
Proof.
  intros Hl. apply bits_ext. intros j Hj. unfold bit.
  rewrite lookup_take_lt by lia. rewrite lookup_drop.
  replace ((8 * o + j) / 8)%nat with (o + (0 + j) / 8)%nat by lia.
  by replace ((8 * o + j) mod 8)%nat with ((0 + j) mod 8)%nat by lia.
Qed.

(** The sign of [bmemcmp] is the lexicographic order of the first [n] bits. *)
Lemma bmemcmp_bits a o1 b o2 n :
  bytes_ok a -> bytes_ok b ->
  (8 * o1 + n <= 8 * length a)%nat -> (8 * o2 + n <= 8 * length b)%nat ->
  exists r, bmemcmp a o1 b o2 n = Some r /\
    Z.compare r 0 = bits_cmp (bits a (8 * o1) n) (bits b (8 * o2) n).
Proof.
  intros Ha Hb Hla Hlb. unfold bmemcmp. rewrite !rdn_Some by lia. cbn [mbind option_bind].
  assert (Hsplit : bits_cmp (bits a (8 * o1) n) (bits b (8 * o2) n) =
    match Z.compare (memcmp (take (n / 8) (drop o1 a)) (take (n / 8) (drop o2 b))) 0 with
    | Eq => bits_cmp (bits a (8 * (o1 + n / 8) + 0) (n mod 8)) (bits b (8 * (o2 + n / 8) + 0) (n mod 8))
    | c => c end).
  { replace n with (8 * (n / 8) + n mod 8)%nat at 1 2 by lia.
    rewrite !bits_app, bits_cmp_app by (by rewrite !length_bits).
    rewrite memcmp_bits by (try (by apply Forall_take, Forall_drop);
      rewrite ?length_take, ?length_drop; lia).
    rewrite length_take, length_drop, Nat.min_l, !bits_rdn by lia.
    rewrite !Nat.add_0_r, !Nat.mul_add_distr_l. done. }
  rewrite Hsplit. case_decide as E0.
  { eexists; split; [done|]. by destruct (Z.compare_spec
      (memcmp (take (n / 8) (drop o1 a)) (take (n / 8) (drop o2 b))) 0). }
  rewrite E0. case_decide as E1.
  { eexists; split; [done|]. by rewrite E1. }
  destruct (lookup_lt_is_Some_2 a (o1 + n / 8)) as [x Ex]; [lia|].
  destruct (lookup_lt_is_Some_2 b (o2 + n / 8)) as [y Ey]; [lia|].
  unfold rd. rewrite Ex, Ey. eexists; split; [done|].
  destruct (bbytecpy_masks !! (n mod 8)%nat) as [m|] eqn:Em.
  2:{ apply lookup_ge_None in Em. simpl in Em. lia. }
  rewrite <- (masked_cmp a _ x b _ y 0 (n mod 8) m) by (done || lia || eauto with hnetd).
  assert (u8 (Z.shiftl 255 (Z.of_nat (8 - n mod 8))) = Z.shiftr m (Z.of_nat 0)) as ->; [|done].
  assert (n mod 8 < 8)%nat as Hr by lia. revert Em Hr. generalize (n mod 8)%nat as k.
  intros k Em Hr. do 8 (destruct k as [|k]; [injection Em as <-; reflexivity|]). lia.
Qed.

Lemma masks_shift k : (k <= 8)%nat ->
  bbytecpy_masks !! k = Some (u8 (Z.shiftl 255 (Z.of_nat (8 - k)))).
Proof. intros. do 9 (destruct k as [|k]; [reflexivity|]). lia. Qed.

Lemma mask_head md : (md < 8)%nat ->
  Z.shiftr 255 (Z.of_nat md) =
  Z.shiftr (u8 (Z.shiftl 255 (Z.of_nat (8 - (8 - md))))) (Z.of_nat md).
Proof. intros. do 8 (destruct md as [|md]; [reflexivity|]). lia. Qed.

Lemma mask_inside md n : (md + n < 8)%nat ->
  u8 (Z.shiftl (Z.shiftr (Z.shiftr 255 (Z.of_nat md)) (Z.of_nat (8 - n - md)))
        (Z.of_nat (8 - n - md))) =
  Z.shiftr (u8 (Z.shiftl 255 (Z.of_nat (8 - n)))) (Z.of_nat md).
Proof.
  intros. do 8 (destruct n as [|n];
    [do 8 (destruct md as [|md]; [reflexivity || lia|]); lia|]). lia.
Qed.

(** The sign of [bmemcmp_s] is the lexicographic order of the [n] bits from
    [start]. *)
Lemma bmemcmp_s_bits a b start n :
  bytes_ok a -> bytes_ok b ->
  (start + n <= 8 * length a)%nat -> (start + n <= 8 * length b)%nat ->
  exists r, bmemcmp_s a b start n = Some r /\
    Z.compare r 0 = bits_cmp (bits a start n) (bits b start n).
Proof.
  intros Ha Hb Hla Hlb. unfold bmemcmp_s. case_decide as E0; [subst; by eexists|].
  destruct (lookup_lt_is_Some_2 a (start / 8)) as [x Ex]; [lia|].
  destruct (lookup_lt_is_Some_2 b (start / 8)) as [y Ey]; [lia|].
  unfold rd. rewrite Ex, Ey.
  assert (Hst : start = (8 * (start / 8) + start mod 8)%nat) by lia.
  case_decide as E1.
  { eexists; split; [done|]. rewrite mask_inside by lia.
    rewrite (masked_cmp a (start / 8) x b (start / 8) y (start mod 8) n)
      by (eauto using masks_shift with hnetd || lia || (apply masks_shift; lia)).
    by rewrite <- Hst. }
  case_decide as E2.
  2:{ destruct (bmemcmp_bits a (start / 8) b (start / 8) n) as (r & -> & Hr); [done|done|lia..|].
      eexists; split; [done|]. by replace (8 * (start / 8))%nat with start in Hr by lia. }
  set (k := (8 - start mod 8)%nat).
  assert (Hsplit : bits_cmp (bits a start n) (bits b start n) =
    match Z.compare (Z.land x (Z.shiftr 255 (Z.of_nat (start mod 8))) -
                     Z.land y (Z.shiftr 255 (Z.of_nat (start mod 8)))) 0 with
    | Eq => bits_cmp (bits a (8 * (start / 8 + 1)) (n - k)) (bits b (8 * (start / 8 + 1)) (n - k))
    | c => c end).
  { rewrite mask_head by lia.
    rewrite (masked_cmp a (start / 8) x b (start / 8) y (start mod 8) k)
      by (eauto with hnetd || lia || (apply masks_shift; lia)).
    rewrite <- Hst. replace n with (k + (n - k))%nat at 1 2 by lia.
    rewrite !bits_app, bits_cmp_app by (by rewrite !length_bits).
    by replace (start + k)%nat with (8 * (start / 8 + 1))%nat by lia. }
  rewrite Hsplit. cbn [mbind option_bind]. case_decide as E3.
  { eexists; split; [done|]. by destruct (Z.compare_spec
      (Z.land x (Z.shiftr 255 (Z.of_nat (start mod 8))) -
       Z.land y (Z.shiftr 255 (Z.of_nat (start mod 8)))) 0). }
  rewrite E3. case_decide as E4; cbn [Z.compare].
  - apply bmemcmp_bits; done || lia.
  - eexists; split; [done|]. by rewrite E4.
Qed.

(** ** Population count and Hamming distance *)

Definition count_true (l : list bool) : Z := foldr (fun b n => b2z b + n) 0 l.

Lemma word_testbit b y i : byte_ok b -> 0 <= i ->
  Z.testbit (b + 256 * y) i = if decide (i < 8) then Z.testbit b i else Z.testbit y (i - 8).
Proof.
  unfold byte_ok. intros Hb Hi. case_decide.
  - rewrite <- (Z.mod_pow2_bits_low (b + 256 * y) 8) by lia.
    by replace ((b + 256 * y) mod 2 ^ 8) with b by lia.
  - replace y with ((b + 256 * y) / 2 ^ 8) at 2 by lia.
    rewrite Z.div_pow2_bits by lia. f_equal. lia.
Qed.

Lemma byte_land_ok a b : byte_ok a -> byte_ok b -> byte_ok (Z.land a b).
Proof.
  intros. apply byte_ok_bits; [apply Z.land_nonneg; unfold byte_ok in *; lia|].
  intros. rewrite Z.land_spec, byte_testbit_high; done.
Qed.

Lemma byte_lxor_ok a b : byte_ok a -> byte_ok b -> byte_ok (Z.lxor a b).
Proof.
  intros. apply byte_ok_bits; [apply Z.lxor_nonneg; unfold byte_ok in *; lia|].
  intros. by rewrite Z.lxor_spec, !byte_testbit_high.
Qed.

Lemma land_word b y m M : byte_ok b -> byte_ok m ->
  Z.land (b + 256 * y) (m + 256 * M) = Z.land b m + 256 * Z.land y M.
Proof.
  intros. apply Z.bits_inj'. intros i Hi. rewrite Z.land_spec, !word_testbit
    by auto using byte_land_ok. case_decide; by rewrite Z.land_spec.
Qed.

Lemma lxor_word b y c z : byte_ok b -> byte_ok c ->
  Z.lxor (b + 256 * y) (c + 256 * z) = Z.lxor b c + 256 * Z.lxor y z.
Proof.
  intros. apply Z.bits_inj'. intros i Hi. rewrite Z.lxor_spec, !word_testbit
    by auto using byte_lxor_ok. case_decide; by rewrite Z.lxor_spec.
Qed.

Lemma le_word_bound bs : bytes_ok bs -> 0 <= le_word bs < 256 ^ Z.of_nat (length bs).
Proof.
  induction 1 as [|b bs Hb H IH]; [simpl; lia|]. cbn [le_word length].
  rewrite Nat2Z.inj_succ, Z.pow_succ_r by lia. unfold byte_ok in Hb. lia.
Qed.

Lemma le_bytes_word bs : bytes_ok bs -> le_bytes (length bs) (le_word bs) = bs.
Proof.
  induction 1 as [|b bs Hb H IH]; [done|]. cbn [le_word length le_bytes]. unfold byte_ok in Hb.
  replace ((b + 256 * le_word bs) / 256) with (le_word bs) by lia.
  replace ((b + 256 * le_word bs) mod 256) with b by lia. by rewrite IH.
Qed.

Lemma u64_word bs : bytes_ok bs -> length bs = 8%nat -> u64 (le_word bs) = le_word bs.
Proof. intros H Hl. pose proof (le_word_bound bs H). rewrite Hl in *. by apply Z.mod_small. Qed.

(** [popcount_3] works byte by byte: each of its first three lines maps the
    bytes of the word. *)
Definition pop1 (b : Z) : Z := b - Z.land (Z.shiftr b 1) 0x55.
Definition pop2 (b : Z) : Z := Z.land b 0x33 + Z.land (Z.shiftr b 2) 0x33.
Definition pop4 (b : Z) : Z := Z.land (b + Z.shiftr b 4) 0x0f.

Lemma shiftr_word b y k : byte_ok b -> 0 <= k < 8 ->
  Z.shiftr (b + 256 * y) k = (Z.shiftr b k + 2 ^ (8 - k) * (y mod 2 ^ k)) + 256 * Z.shiftr y k.
Proof.
  unfold byte_ok. intros Hb Hk.
  rewrite !Z.shiftr_div_pow2 by lia.
  assert (256 = 2 ^ (8 - k) * 2 ^ k) as E by (rewrite <- Z.pow_add_r by lia; by replace (8 - k + k) with 8 by lia).
  replace (b + 256 * y) with (b + (2 ^ (8 - k) * y) * 2 ^ k) by (rewrite E; lia).
  rewrite Z.div_add by lia. rewrite E.
  rewrite (Z.div_mod y (2 ^ k)) at 1 by lia. lia.
Qed.

Lemma byte_mask_high a h k m : byte_ok a -> 0 <= k < 8 -> 0 <= h < 2 ^ k -> a < 2 ^ (8 - k) ->
  0 <= m < 2 ^ (8 - k) -> Z.land (a + 2 ^ (8 - k) * h) m = Z.land a m.
Proof.
  unfold byte_ok. intros Ha Hk Hh Ha' Hm.
  assert (forall x, Z.land x m = Z.land (x mod 2 ^ (8 - k)) m) as E.
  { intros x. rewrite <- Z.land_ones by lia. rewrite <- Z.land_assoc. f_equal.
    rewrite Z.land_comm, Z.land_ones, Z.mod_small by lia. done. }
  rewrite E, (E a). f_equal. rewrite Z.mul_comm, Z.mod_add; lia.
Qed.

Lemma shiftr_mask_word b y k m M : byte_ok b -> 0 <= k < 8 -> 0 <= m < 2 ^ (8 - k) ->
  Z.land (Z.shiftr (b + 256 * y) k) (m + 256 * M) =
  Z.land (Z.shiftr b k) m + 256 * Z.land (Z.shiftr y k) M.
Proof.
  intros Hb Hk Hm. rewrite (shiftr_word b y k Hb Hk).
  assert (0 <= y mod 2 ^ k < 2 ^ k) by (apply Z.mod_pos_bound; lia).
  assert (256 = 2 ^ (8 - k) * 2 ^ k) as E by (rewrite <- Z.pow_add_r by lia; by replace (8 - k + k) with 8 by lia).
  assert (0 <= Z.shiftr b k < 2 ^ (8 - k)) as Hs.
  { unfold byte_ok in Hb. rewrite Z.shiftr_div_pow2 by lia. split; [apply Z.div_pos; lia|].
    apply Z.div_lt_upper_bound; [lia|]. lia. }
  assert (0 < 2 ^ (8 - k) /\ 0 < 2 ^ k) by lia.
  rewrite land_word by (unfold byte_ok; nia).
  rewrite byte_mask_high; unfold byte_ok; try lia; nia.
Qed.

Lemma pop_bytes_ok (b : Z) : byte_ok b ->
  byte_ok (pop1 b) /\ (byte_ok (pop2 (pop1 b)) /\ pop2 (pop1 b) mod 16 <= 4 /\ pop2 (pop1 b) / 16 <= 4) /\
  0 <= pop4 (pop2 (pop1 b)) <= 8 /\ pop4 (pop2 (pop1 b)) = count_true (bits [b] 0 8).
Proof.
  intros Hb. eapply bool_decide_eq_true_1.
  apply (byte_forall (fun b => bool_decide (byte_ok (pop1 b) /\
    (byte_ok (pop2 (pop1 b)) /\ pop2 (pop1 b) mod 16 <= 4 /\ pop2 (pop1 b) / 16 <= 4) /\
    0 <= pop4 (pop2 (pop1 b)) <= 8 /\ pop4 (pop2 (pop1 b)) = count_true (bits [b] 0 8))) b);
    [vm_compute; reflexivity|done].
Qed.

Lemma pop1_word bs : bytes_ok bs ->
  le_word bs - Z.land (Z.shiftr (le_word bs) 1) (le_word (replicate (length bs) 0x55)) =
  le_word (pop1 <$> bs).
Proof.
  induction 1 as [|b bs Hb H IH]; [done|]. cbn [le_word length replicate fmap list_fmap].
  rewrite shiftr_mask_word by (done || lia). unfold pop1 at 1. rewrite <- IH. lia.
Qed.

Lemma pop2_word bs : bytes_ok bs ->
  Z.land (le_word bs) (le_word (replicate (length bs) 0x33)) +
  Z.land (Z.shiftr (le_word bs) 2) (le_word (replicate (length bs) 0x33)) = le_word (pop2 <$> bs).
Proof.
  induction 1 as [|b bs Hb H IH]; [done|]. cbn [le_word length replicate fmap list_fmap].
  rewrite shiftr_mask_word, land_word by (done || lia). unfold pop2 at 1. rewrite <- IH. lia.
Qed.

Lemma pop4_word bs : Forall (fun b => byte_ok b /\ b mod 16 <= 4 /\ b / 16 <= 4) bs ->
  Z.land (le_word bs + Z.shiftr (le_word bs) 4) (le_word (replicate (length bs) 0x0f)) =
  le_word (pop4 <$> bs).
Proof.
  induction 1 as [|b bs (Hb & Hb1 & Hb2) H IH]; [done|].
  cbn [le_word length replicate fmap list_fmap]. rewrite shiftr_word by (done || lia).
  assert (0 <= le_word bs mod 16 <= 4) as Hh.
  { destruct H as [|c cs (Hc & Hc1 & _) _]; cbn [le_word]; [done|]. lia. }
  change (2 ^ 4) with 16. change (2 ^ (8 - 4)) with 16. unfold byte_ok in Hb.
  pose proof (Z.shiftr_div_pow2 b 4 ltac:(lia)) as Es. change (2 ^ 4) with 16 in Es.
  replace (b + 256 * le_word bs + (Z.shiftr b 4 + 16 * (le_word bs mod 16) + 256 * Z.shiftr (le_word bs) 4))
    with ((b + Z.shiftr b 4 + 16 * (le_word bs mod 16)) + 256 * (le_word bs + Z.shiftr (le_word bs) 4)) by lia.
  rewrite land_word by (unfold byte_ok; lia). rewrite IH. f_equal. unfold pop4.
  change 0xf with (Z.ones 4). rewrite !Z.land_ones by lia. change (2 ^ 4) with 16.
  rewrite (Z.mul_comm 16), Z.mod_add by lia. done.
Qed.

Lemma shift_sum low sum hi : 0 <= low < 2 ^ 56 -> 0 <= sum < 256 ->
  Z.shiftr (u64 (low + 2 ^ 56 * sum + 2 ^ 64 * hi)) 56 = sum.
Proof. intros. rewrite Z.shiftr_div_pow2 by lia. unfold u64. lia. Qed.

(** The byte sum the final multiplication computes. *)
Lemma h01_sum bs : Forall (fun b => 0 <= b <= 8) bs -> length bs = 8%nat ->
  Z.shiftr (u64 (le_word bs * h01)) 56 = foldr Z.add 0 bs.
Proof.
  intros H Hl. destruct bs as [|a [|b [|c [|d [|e [|f [|g [|h [|]]]]]]]]]; try done.
  repeat match goal with H : Forall _ (_ :: _) |- _ => apply Forall_cons in H as [? H] end.
  cbn [le_word foldr].
  replace (_ * h01) with
    ((a + 256 * ((a + b) + 256 * ((a + b + c) + 256 * ((a + b + c + d) + 256 *
       ((a + b + c + d + e) + 256 * ((a + b + c + d + e + f) + 256 * (a + b + c + d + e + f + g)))))))
     + 2 ^ 56 * (a + (b + (c + (d + (e + (f + (g + (h + 0))))))))
     + 2 ^ 64 * ((b + c + d + e + f + g + h) + 256 * ((c + d + e + f + g + h) + 256 *
       ((d + e + f + g + h) + 256 * ((e + f + g + h) + 256 * ((f + g + h) + 256 *
       ((g + h) + 256 * h)))))))
    by (unfold h01; change (2 ^ 56) with 72057594037927936;
        change (2 ^ 64) with 18446744073709551616; ring).
  apply shift_sum; lia.
Qed.

Lemma u64_land z m : 0 <= m < 2 ^ 64 -> Z.land (u64 z) m = Z.land z m.
Proof.
  intros Hm. unfold u64. rewrite <- Z.land_ones, <- Z.land_assoc by lia. f_equal.
  by rewrite Z.land_comm, Z.land_ones, Z.mod_small by lia.
Qed.

Lemma popcount_3_word bs : bytes_ok bs -> length bs = 8%nat ->
  popcount_3 (le_word bs) = foldr Z.add 0 ((fun b => count_true (bits [b] 0 8)) <$> bs).
Proof.
  intros H Hl.
  assert (bytes_ok (pop1 <$> bs)) as H1.
  { apply Forall_fmap, (Forall_impl _ _ _ H). intros b Hb. apply (pop_bytes_ok b Hb). }
  assert (Forall (fun b => byte_ok b /\ b mod 16 <= 4 /\ b / 16 <= 4) (pop2 <$> (pop1 <$> bs))) as H2.
  { apply Forall_fmap, Forall_fmap, (Forall_impl _ _ _ H). intros b Hb. apply (pop_bytes_ok b Hb). }
  unfold popcount_3.
  replace (u64 (le_word bs - Z.land (Z.shiftr (le_word bs) 1) m1)) with (le_word (pop1 <$> bs)).
  2:{ rewrite <- (u64_word (pop1 <$> bs)), <- pop1_word by (rewrite ?length_fmap; done). by rewrite Hl. }
  replace (u64 (Z.land (le_word (pop1 <$> bs)) m2 + Z.land (Z.shiftr (le_word (pop1 <$> bs)) 2) m2))
    with (le_word (pop2 <$> (pop1 <$> bs))).
  2:{ rewrite <- (u64_word (pop2 <$> (pop1 <$> bs))), <- pop2_word
        by (rewrite ?length_fmap; first [done|apply (Forall_impl _ _ _ H2); tauto]). by rewrite length_fmap, Hl. }
  rewrite u64_land by done.
  replace m4 with (le_word (replicate (length (pop2 <$> (pop1 <$> bs))) 0x0f))
    by (by rewrite !length_fmap, Hl).
  rewrite pop4_word by done.
  rewrite h01_sum; [|apply Forall_fmap, Forall_fmap, Forall_fmap, (Forall_impl _ _ _ H);
    intros b Hb; apply (pop_bytes_ok b Hb)|by rewrite !length_fmap].
  f_equal. rewrite <- !list_fmap_compose. apply list_fmap_ext. intros i b Eb.
  apply (pop_bytes_ok b). eauto with hnetd.
Qed.

Lemma le_word_app l1 l2 : le_word (l1 ++ l2) = le_word l1 + 256 ^ Z.of_nat (length l1) * le_word l2.
Proof.
  induction l1 as [|b l1 IH]; [simpl; lia|]. cbn [app le_word length].
  rewrite IH, Nat2Z.inj_succ, Z.pow_succ_r by lia. lia.
Qed.

Lemma le_word_lxor l1 l2 : bytes_ok l1 -> bytes_ok l2 -> length l1 = length l2 ->
  Z.lxor (le_word l1) (le_word l2) = le_word (zip_with Z.lxor l1 l2).
Proof.
  intros H1; revert l2; induction H1 as [|b l1 Hb H1 IH]; intros [|c l2] H2 Hl; try done.
  apply Forall_cons in H2 as [Hc H2]. injection Hl as Hl. cbn [le_word zip_with].
  by rewrite lxor_word, IH.
Qed.

Lemma le_word_land l1 l2 : bytes_ok l1 -> bytes_ok l2 -> length l1 = length l2 ->
  Z.land (le_word l1) (le_word l2) = le_word (zip_with Z.land l1 l2).
Proof.
  intros H1; revert l2; induction H1 as [|b l1 Hb H1 IH]; intros [|c l2] H2 Hl; try done.
  apply Forall_cons in H2 as [Hc H2]. injection Hl as Hl. cbn [le_word zip_with].
  by rewrite land_word, IH.
Qed.

Lemma bytes_ok_zip_with f l1 l2 :
  (forall a b, byte_ok a -> byte_ok b -> byte_ok (f a b)) ->
  bytes_ok l1 -> bytes_ok l2 -> bytes_ok (zip_with f l1 l2).
Proof.
  intros Hf H1; revert l2; induction H1; intros l2 H2; destruct H2; constructor; auto.
  by apply IHForall.
Qed.

Lemma zip_with_reverse {A B C} (f : A -> B -> C) l1 l2 : length l1 = length l2 ->
  zip_with f (reverse l1) (reverse l2) = reverse (zip_with f l1 l2).
Proof.
  revert l2; induction l1 as [|x l1 IH]; intros [|y l2] Hl; try done. injection Hl as Hl.
  cbn [zip_with]. rewrite !reverse_cons, zip_with_app by (by rewrite !length_reverse).
  by rewrite IH.
Qed.

(** Number of positions among [n] from [s] where two buffers differ. *)
Definition hamming (a b : list Z) (s n : nat) : Z :=
  count_true (zip_with xorb (bits a s n) (bits b s n)).

Lemma count_true_app l1 l2 : count_true (l1 ++ l2) = count_true l1 + count_true l2.
Proof. induction l1; simpl; [done|]. rewrite IHl1. lia. Qed.

Lemma count_true_nonneg l : 0 <= count_true l.
Proof. induction l as [|[] l]; simpl; lia. Qed.

Lemma hamming_app a b s n m : hamming a b s (n + m) = hamming a b s n + hamming a b (s + n) m.
Proof.
  unfold hamming. rewrite !bits_app, zip_with_app by (by rewrite !length_bits).
  apply count_true_app.
Qed.

Lemma bits_lookup a s n i : (i < n)%nat -> bits a s n !! i = Some (bit a (s + i)).
Proof. intros. unfold bits. rewrite list_lookup_fmap, lookup_seq_lt by done. done. Qed.

Lemma bits_zip_with (g : bool -> bool -> bool) (f : Z -> Z -> Z) l1 l2 n :
  (forall x y i, 0 <= i < 8 -> Z.testbit (f x y) i = g (Z.testbit x i) (Z.testbit y i)) ->
  length l1 = length l2 -> (n <= 8 * length l1)%nat ->
  bits (zip_with f l1 l2) 0 n = zip_with g (bits l1 0 n) (bits l2 0 n).
Proof.
  intros Hf Hl Hn. apply list_eq. intros i.
  destruct (decide (i < n)%nat).
  2:{ rewrite !lookup_ge_None_2; [done|rewrite length_zip_with, !length_bits; lia|
        rewrite length_bits; lia]. }
  rewrite lookup_zip_with, !bits_lookup by done. cbn. f_equal. unfold bit.
  rewrite lookup_zip_with.
  destruct (lookup_lt_is_Some_2 l1 (i / 8)) as [x ->]; [lia|].
  destruct (lookup_lt_is_Some_2 l2 (i / 8)) as [y ->]; [lia|]. cbn. apply Hf. lia.
Qed.

Lemma sum_bits l : foldr Z.add 0 ((fun b => count_true (bits [b] 0 8)) <$> l) =
  count_true (bits l 0 (8 * length l)).
Proof.
  induction l as [|b l IH]; [done|]. cbn [fmap list_fmap foldr length]. rewrite IH.
  replace (8 * S (length l))%nat with (8 + 8 * length l)%nat by lia.
  by rewrite bits_cons, count_true_app.
Qed.

Lemma sum_reverse (l : list Z) : foldr Z.add 0 (reverse l) = foldr Z.add 0 l.
Proof. apply (foldr_permutation_proper eq Z.add 0); [intros; lia|]. apply reverse_Permutation. Qed.

Lemma popcount_3_be bs : bytes_ok bs -> length bs = 8%nat ->
  popcount_3 (be_word bs) = count_true (bits bs 0 64).
Proof.
  intros H Hl. unfold be_word. rewrite popcount_3_word by (rewrite ?length_reverse; first [by apply Forall_reverse|done]).
  rewrite fmap_reverse, sum_reverse, sum_bits, Hl. done.
Qed.

Lemma popcount_3_le bs : bytes_ok bs -> length bs = 8%nat ->
  popcount_3 (le_word bs) = count_true (bits bs 0 64).
Proof. intros H Hl. by rewrite popcount_3_word, sum_bits, Hl. Qed.

Lemma load64_Some be a i : bytes_ok a -> (8 * i + 8 <= length a)%nat ->
  load64 be a i = Some ((if be then be_word else le_word) (take 8 (drop (8 * i) a))) /\
  bytes_ok (take 8 (drop (8 * i) a)) /\ length (take 8 (drop (8 * i) a)) = 8%nat.
Proof.
  intros H Hl. unfold load64. rewrite rdn_Some by done. split; [by destruct be|].
  split; [by apply Forall_take, Forall_drop|]. rewrite length_take, length_drop. lia.
Qed.

Lemma lxor_loads be l1 l2 : bytes_ok l1 -> bytes_ok l2 -> length l1 = length l2 ->
  let ld := if be : bool then be_word else le_word in
  Z.lxor (ld l1) (ld l2) = ld (zip_with Z.lxor l1 l2).
Proof.
  intros H1 H2 Hl. destruct be; cbv zeta; [|by apply le_word_lxor]. unfold be_word.
  rewrite le_word_lxor by (rewrite ?length_reverse; first [by apply Forall_reverse|done]).
  by rewrite zip_with_reverse.
Qed.

Lemma hamming_words_spec be a b i n d :
  bytes_ok a -> bytes_ok b -> (8 * (i + n) <= length a)%nat -> (8 * (i + n) <= length b)%nat ->
  hamming_words be a b i n d = Some (d + hamming a b (64 * i) (64 * n)).
Proof.
  intros Ha Hb. revert i d. induction n as [|n IH]; intros i d Hla Hlb; cbn [hamming_words].
  { f_equal. unfold hamming. simpl. lia. }
  destruct (load64_Some be a i) as (-> & Ha8 & Hla8); [done|lia|].
  destruct (load64_Some be b i) as (-> & Hb8 & Hlb8); [done|lia|]. cbn [mbind option_bind].
  rewrite IH by lia. f_equal. rewrite lxor_loads by (done || congruence).
  replace (64 * S n)%nat with (64 + 64 * n)%nat by lia. rewrite hamming_app.
  replace (64 * (i + 1))%nat with (64 * i + 64)%nat by lia.
  assert (popcount_3 ((if be then be_word else le_word)
    (zip_with Z.lxor (take 8 (drop (8 * i) a)) (take 8 (drop (8 * i) b)))) = hamming a b (64 * i) 64) as ->; [|lia].
  assert (bytes_ok (zip_with Z.lxor (take 8 (drop (8 * i) a)) (take 8 (drop (8 * i) b))))
    by (apply bytes_ok_zip_with; auto using byte_lxor_ok).
  assert (length (zip_with Z.lxor (take 8 (drop (8 * i) a)) (take 8 (drop (8 * i) b))) = 8%nat)
    by (rewrite length_zip_with; lia).
  trans (count_true (bits (zip_with Z.lxor (take 8 (drop (8 * i) a)) (take 8 (drop (8 * i) b))) 0 64)).
  { destruct be; [by apply popcount_3_be|by apply popcount_3_le]. }
  rewrite (bits_zip_with xorb) by (intros; rewrite ?Z.lxor_spec; done || lia).
  unfold hamming. change 64%nat with (8 * 8)%nat at 1 2. rewrite !bits_rdn by lia.
  by replace (8 * (8 * i))%nat with (64 * i)%nat by lia.
Qed.

Lemma le_word_bytes n x : 0 <= x < 256 ^ Z.of_nat n -> le_word (le_bytes n x) = x.
Proof.
  revert x. induction n as [|n IH]; intros x Hx; [simpl in *; lia|]. cbn [le_bytes le_word].
  rewrite Nat2Z.inj_succ, Z.pow_succ_r in Hx by lia. rewrite IH by lia. lia.
Qed.

Lemma le_bytes_ok n x : bytes_ok (le_bytes n x) /\ length (le_bytes n x) = n.
Proof.
  revert x; induction n as [|n IH]; intros x; cbn [le_bytes length]; [by split; [constructor|]|].
  destruct (IH (x / 256)) as [H Hl]. split; [|by rewrite Hl].
  constructor; [|done]. apply Z.mod_pos_bound. done.
Qed.

(** The bytes of the mask [hff << (64 - rem)], most significant first. *)
Definition tail_mask (rem : nat) : list Z :=
  reverse (le_bytes 8 (u64 (Z.shiftl hff (Z.of_nat (64 - rem))))).

Lemma tail_mask_bit rem j : (rem < 64)%nat -> (j < 64)%nat ->
  bit (tail_mask rem) j = bool_decide (j < rem)%nat.
Proof.
  intros Hr Hj.
  assert (forallb (fun r => forallb (fun j => Bool.eqb (bit (tail_mask r) j) (bool_decide (j < r)%nat))
            (seq 0 64)) (seq 0 64) = true) as H by (vm_compute; reflexivity).
  rewrite forallb_forall in H. specialize (H rem ltac:(apply in_seq; lia)). cbv beta in H.
  rewrite forallb_forall in H. specialize (H j ltac:(apply in_seq; lia)).
  by apply eqb_prop in H.
Qed.

Lemma tail_mask_word rem : be_word (tail_mask rem) = u64 (Z.shiftl hff (Z.of_nat (64 - rem))).
Proof.
  unfold be_word, tail_mask. rewrite reverse_involutive. apply le_word_bytes.
  unfold u64. apply Z.mod_pos_bound. done.
Qed.

Lemma popcount_tail l rem : bytes_ok l -> length l = 8%nat -> (rem < 64)%nat ->
  popcount_3 (Z.land (be_word l) (u64 (Z.shiftl hff (Z.of_nat (64 - rem))))) =
  count_true (bits l 0 rem).
Proof.
  intros H Hl Hr. rewrite <- tail_mask_word.
  assert (bytes_ok (tail_mask rem) /\ length (tail_mask rem) = 8%nat) as [Hm Hlm].
  { unfold tail_mask. rewrite length_reverse. split; [apply Forall_reverse|]; apply le_bytes_ok. }
  unfold be_word at 1 2. rewrite le_word_land by (rewrite ?length_reverse; first [by apply Forall_reverse|congruence]).
  rewrite zip_with_reverse by congruence. fold (be_word (zip_with Z.land l (tail_mask rem))).
  rewrite popcount_3_be by (first [apply bytes_ok_zip_with; auto using byte_land_ok|
    rewrite length_zip_with; lia]).
  replace 64%nat with (rem + (64 - rem))%nat at 1 by lia.
  rewrite bits_app, count_true_app.
  assert (forall j, (j < 64)%nat -> bit (zip_with Z.land l (tail_mask rem)) j = bit l j && bool_decide (j < rem)%nat) as Hb.
  { intros j Hj. rewrite <- tail_mask_bit by done. unfold bit. rewrite lookup_zip_with.
    destruct (lookup_lt_is_Some_2 l (j / 8)) as [x ->]; [lia|].
    destruct (lookup_lt_is_Some_2 (tail_mask rem) (j / 8)) as [y ->]; [lia|]. cbn. apply Z.land_spec. }
  rewrite (bits_ext _ l _ 0) by (intros j Hj; rewrite Hb, bool_decide_true, andb_true_r by lia; done).
  assert (bits (zip_with Z.land l (tail_mask rem)) (0 + rem) (64 - rem) = replicate (64 - rem) false) as ->.
  { apply list_eq. intros i. destruct (decide (i < 64 - rem)%nat).
    - rewrite bits_lookup, lookup_replicate_2, Hb, bool_decide_false, andb_false_r by lia. done.
    - rewrite !lookup_ge_None_2; rewrite ?length_bits, ?length_replicate; done || lia. }
  assert (forall k, count_true (replicate k false) = 0) as -> by (induction k; done). lia.
Qed.

Lemma hamming_distance_64_ok be a b n :
  bytes_ok a -> bytes_ok b ->
  (64 * ((n + 63) / 64) <= 8 * length a)%nat -> (64 * ((n + 63) / 64) <= 8 * length b)%nat ->
  hamming_distance_64 be a b n = Some (hamming a b 0 n).
Proof.
  intros Ha Hb Hla Hlb. unfold hamming_distance_64.
  rewrite hamming_words_spec by (done || lia). cbn [mbind option_bind].
  assert (hamming a b 0 n = hamming a b 0 (64 * (n / 64)) + hamming a b (0 + 64 * (n / 64)) (n mod 64))
    as -> by (rewrite <- hamming_app; f_equal; lia).
  change (64 * 0)%nat with 0%nat. case_decide as E.
  2:{ f_equal. rewrite E. unfold hamming at 3. simpl. lia. }
  destruct (load64_Some be a (n / 64)) as (-> & Ha8 & Hla8); [done|lia|].
  destruct (load64_Some be b (n / 64)) as (-> & Hb8 & Hlb8); [done|lia|]. cbn [mbind option_bind].
  f_equal. rewrite lxor_loads by (done || congruence).
  set (x := take 8 (drop (8 * (n / 64)) a)) in *. set (y := take 8 (drop (8 * (n / 64)) b)) in *.
  assert (bytes_ok (zip_with Z.lxor x y)) as Hz by (apply bytes_ok_zip_with; auto using byte_lxor_ok).
  assert (length (zip_with Z.lxor x y) = 8%nat) as Hlz by (rewrite length_zip_with; lia).
  replace (be64_to_cpu be _) with (be_word (zip_with Z.lxor x y)).
  2:{ unfold be64_to_cpu, bswap64. destruct be; [done|].
      by rewrite <- Hlz, le_bytes_word. }
  rewrite popcount_tail by (done || lia).
  rewrite (bits_zip_with xorb) by (intros; rewrite ?Z.lxor_spec; done || lia).
  rewrite Z.add_0_l. f_equal. unfold hamming. f_equal. f_equal; apply bits_ext; intros j Hj; unfold bit, x, y;
    rewrite lookup_take_lt, lookup_drop by lia;
    replace (8 * (n / 64) + (0 + j) / 8)%nat with ((0 + 64 * (n / 64) + j) / 8)%nat by lia;
    by replace ((0 + j) mod 8)%nat with ((0 + 64 * (n / 64) + j) mod 8)%nat by lia.
Qed.

(** The word-wise population count is the number of differing bits among the first n, on hosts
    of either byte order. *)
Lemma hamming_distance_64_spec be a b n :
  bytes_ok a -> bytes_ok b ->
  (64 * ((n + 63) / 64) <= 8 * length a)%nat -> (64 * ((n + 63) / 64) <= 8 * length b)%nat ->
  hamming_distance_64 be a b n = Some (hamming a b 0 n).
Proof. apply hamming_distance_64_ok. Qed.

(** ** [hamming_minimize] finds the closest value below a bound *)

Definition ham (l1 l2 : list bool) : Z := count_true (zip_with xorb l1 l2).

Lemma ham_app l1 l2 r1 r2 : length l1 = length l2 ->
  ham (l1 ++ r1) (l2 ++ r2) = ham l1 l2 + ham r1 r2.
Proof. intros. unfold ham. by rewrite zip_with_app, count_true_app. Qed.

Lemma ham_refl l : ham l l = 0.
Proof. induction l as [|[] l IH]; simpl; [done|by rewrite <- IH..]. Qed.

Lemma ham_pos l1 l2 : length l1 = length l2 -> l1 ≠ l2 -> 1 <= ham l1 l2.
Proof.
  revert l2; induction l1 as [|x l1 IH]; intros [|y l2] Hl Hne; try done.
  injection Hl as Hl. unfold ham in *. simpl.
  pose proof (count_true_nonneg (zip_with xorb l1 l2)).
  destruct x, y; simpl; try lia; (rewrite Z.add_0_l; apply IH; [done|congruence]).
Qed.

Lemma bits_cmp_refl l : bits_cmp l l = Eq.
Proof. by apply bits_cmp_Eq. Qed.

(** A value at most [0...0 m] starts with the same zeros. *)
Lemma bits_le_zeros k v m :
  length v = (k + length m)%nat -> bits_cmp v (replicate k false ++ m) ≠ Gt ->
  exists v2, v = replicate k false ++ v2 /\ length v2 = length m /\ bits_cmp v2 m ≠ Gt.
Proof.
  revert v; induction k as [|k IH]; intros v Hl Hc; [by exists v|].
  destruct v as [|b v]; [done|]. injection Hl as Hl. simpl in Hc.
  destruct b; simpl in Hc; [done|]. destruct (IH v Hl Hc) as (v2 & -> & H2). by exists v2.
Qed.

Lemma getbit_Some buf n : (n < 8 * length buf)%nat -> getbit buf n = Some (bit buf n).
Proof.
  intros Hn. unfold getbit, bit, rd.
  destruct (lookup_lt_is_Some_2 buf (n / 8)) as [b Eb]; [lia|]. rewrite Eb. cbn. f_equal.
  assert (Z.shiftr 128 (Z.of_nat (n mod 8)) = 2 ^ Z.of_nat (7 - n mod 8)) as ->.
  { assert (n mod 8 < 8)%nat as H by lia. revert H. generalize (n mod 8)%nat as k. intros k Hk.
    do 8 (destruct k as [|k]; [reflexivity|]). lia. }
  rewrite <- (Z.mul_1_l (2 ^ _)), <- Z.shiftl_mul_pow2 by lia.
  set (k := Z.of_nat (7 - n mod 8)).
  destruct (Z.testbit b k) eqn:Et.
  - apply bool_decide_true. intros E0. apply (f_equal (fun z => Z.testbit z k)) in E0.
    rewrite Z.land_spec, Et, Z.shiftl_spec, Z.sub_diag, Z.testbit_0_l in E0 by lia. done.
  - apply bool_decide_false. intros E0. apply E0. apply Z.bits_inj'. intros i Hi.
    rewrite Z.land_spec, Z.testbit_0_l, Z.shiftl_spec by lia.
    destruct (decide (i = k)) as [->|]; [by rewrite Et|].
    rewrite andb_comm. destruct (Z.testbit 1 (i - k)) eqn:E1; [|done].
    change 1 with (2 ^ 0) in E1. rewrite Z.pow2_bits_false in E1 by lia. done.
Qed.

Lemma bits_S buf s n : bits buf s (S n) = bit buf s :: bits buf (s + 1) n.
Proof. unfold bits. cbn [seq fmap list_fmap]. by rewrite Nat.add_1_r. Qed.

(** The loop stops at the first set bit of [max], or at the end, having counted
    the bits of [target] it must clear. *)
Lemma hamming_minimize_loop_spec max target s k ret :
  (s + k <= 8 * length max)%nat -> (s + k <= 8 * length target)%nat ->
  exists j, (j <= k)%nat /\
    hamming_minimize_loop max target s k ret = Some ((s + j)%nat, ret + count_true (bits target s j)) /\
    bits max s j = replicate j false /\ (j = k \/ bit max (s + j) = true).
Proof.
  revert s ret; induction k as [|k IH]; intros s ret Hm Ht; cbn [hamming_minimize_loop].
  { exists 0%nat. split; [lia|]. change (count_true (bits target s 0)) with 0. rewrite Nat.add_0_r, Z.add_0_r. split; [done|]. split; [done|]. by left. }
  rewrite (getbit_Some max) by lia. cbn [mbind option_bind]. destruct (bit max s) eqn:Em.
  { exists 0%nat. split; [lia|]. change (count_true (bits target s 0)) with 0. rewrite Nat.add_0_r, Z.add_0_r. split; [done|]. split; [done|]. by right. }
  rewrite (getbit_Some target) by lia. cbn [mbind option_bind].
  destruct (IH (s + 1)%nat (if bit target s then ret + 1 else ret)) as (j & Hj & -> & Hz & Hend); [lia..|].
  exists (S j). split; [lia|]. rewrite !bits_S, Em, Hz. split.
  - f_equal. f_equal; [lia|]. cbn [count_true foldr]. unfold count_true. destruct (bit target s); simpl; lia.
  - split; [done|]. destruct Hend as [->|Hend]; [by left|right].
    by replace (s + S j)%nat with (s + 1 + j)%nat by lia.
Qed.

Lemma ham_zeros k l : length l = k -> ham (replicate k false) l = count_true l.
Proof. revert l; induction k as [|k IH]; intros [|b l] Hl; try done. injection Hl as Hl.
  unfold ham in *. simpl. rewrite IH by done. by destruct b. Qed.

(** The bit strings of the result: the zeros [max] starts with, then [target]'s
    bits, the first one cleared when they exceed [max]. *)
Lemma closest_below k (M2 T1 T2 : list bool) :
  length T1 = k -> length M2 = length T2 ->
  (M2 = [] \/ exists M3, M2 = true :: M3) ->
  let D2 := match bits_cmp M2 T2 with Lt => false :: tail T2 | _ => T2 end in
  let D := replicate k false ++ D2 in
  let r := count_true T1 + match bits_cmp M2 T2 with Lt => 1 | _ => 0 end in
  bits_cmp D (replicate k false ++ M2) ≠ Gt /\ ham D (T1 ++ T2) = r /\
  (forall V, length V = (k + length M2)%nat -> bits_cmp V (replicate k false ++ M2) ≠ Gt ->
             r <= ham V (T1 ++ T2)).
Proof.
  intros Hk HM Hhd D2 D r.
  assert (Hcmp : forall X, length X = length M2 ->
    bits_cmp (replicate k false ++ X) (replicate k false ++ M2) = bits_cmp X M2).
  { intros X HX. by rewrite bits_cmp_app, bits_cmp_refl. }
  assert (Hham : forall X, ham (replicate k false ++ X) (T1 ++ T2) = count_true T1 + ham X T2).
  { intros X. by rewrite ham_app, ham_zeros by (by rewrite ?length_replicate). }
  assert (HD2 : length D2 = length M2 /\ bits_cmp D2 M2 ≠ Gt /\
    ham D2 T2 = match bits_cmp M2 T2 with Lt => 1 | _ => 0 end).
  { subst D2. destruct Hhd as [->|[M3 ->]]; [by destruct T2|].
    destruct T2 as [|t T2]; [done|]. destruct (bits_cmp (true :: M3) (t :: T2)) eqn:Ec.
    - apply bits_cmp_Eq in Ec as <-; [|done]. by rewrite bits_cmp_refl, ham_refl.
    - destruct t; [|done]. split; [done|]. split; [done|]. unfold ham. simpl.
      pose proof (ham_refl T2). unfold ham in *. lia.
    - split; [done|]. rewrite ham_refl. split; [|done]. rewrite bits_cmp_bval in * by done.
      apply Z.compare_gt_iff in Ec. intros E. apply Z.compare_gt_iff in E. lia. }
  destruct HD2 as (HlD & HcD & HhD). split; [|split].
  - unfold D. by rewrite Hcmp.
  - unfold D, r. by rewrite Hham, HhD.
  - intros V HV HcV. destruct (bits_le_zeros k V M2 HV HcV) as (V2 & -> & HV2 & HcV2).
    rewrite Hham. unfold r. pose proof (count_true_nonneg (zip_with xorb V2 T2)).
    destruct (bits_cmp M2 T2) eqn:Ec; unfold ham in *; try lia.
    assert (1 <= ham V2 T2); [|unfold ham in *; lia].
    apply ham_pos; [congruence|]. intros ->. apply HcV2.
    rewrite bits_cmp_bval in Ec |- * by congruence.
    apply Z.compare_lt_iff in Ec. by apply Z.compare_gt_iff.
Qed.

Lemma copied_bits dst dst' src dpos spos n :
  copied dst dst' src dpos spos n -> bits dst' dpos n = bits src spos n.
Proof.
  intros (_ & _ & H). apply bits_ext. intros j Hj. rewrite H, decide_True by lia.
  f_equal. lia.
Qed.

Lemma copied_bits_outside dst dst' src dpos spos n s m :
  copied dst dst' src dpos spos n -> (s + m <= dpos \/ dpos + n <= s)%nat ->
  bits dst' s m = bits dst s m.
Proof.
  intros (_ & _ & H) Hout. apply bits_ext. intros j Hj. by rewrite H, decide_False by lia.
Qed.

(** [dst[n/8] & ~(0x80 >> (n%8))] clears bit [n] and nothing else. *)
Lemma clear_bit dst n :
  bytes_ok dst -> (n < 8 * length dst)%nat ->
  exists dst', (d ← rd dst (n / 8);
     wr dst (n / 8) (Z.land d (Z.lnot (Z.shiftr 0x80 (Z.of_nat (n mod 8)))))) = Some dst' /\
    length dst' = length dst /\ bytes_ok dst' /\
    forall i, bit dst' i = if decide (i = n) then false else bit dst i.
Proof.
  intros Hd Hn. destruct (lookup_lt_is_Some_2 dst (n / 8)) as [d Ed]; [lia|].
  unfold rd. rewrite Ed. cbn. rewrite wr_Some by lia. eexists; split; [done|].
  split; [by rewrite length_insert|].
  assert (byte_ok d) as Hbd by eauto with hnetd. split.
  { apply Forall_insert; [done|]. apply byte_ok_bits.
    - apply Z.land_nonneg. left. apply Hbd.
    - intros i Hi. by rewrite Z.land_spec, byte_testbit_high. }
  intros i. rewrite bit_insert by lia. case_decide as Ei; [|by rewrite decide_False by lia].
  rewrite Z.land_spec, Z.lnot_spec by lia. unfold bit. rewrite Ei, Ed.
  assert (Z.testbit (Z.shiftr 128 (Z.of_nat (n mod 8))) (Z.of_nat (7 - i mod 8)) =
          bool_decide (n mod 8 = i mod 8)%nat) as ->.
  { assert (n mod 8 < 8 /\ i mod 8 < 8)%nat as [H1 H2] by lia. revert H1 H2.
    generalize (n mod 8)%nat (i mod 8)%nat. intros a b Ha Hb.
    do 8 (destruct a as [|a]; [do 8 (destruct b as [|b]; [reflexivity|]); lia|]). lia. }
  case_bool_decide; cbn [negb]; case_decide; try lia; by rewrite ?andb_false_r, ?andb_true_r.
Qed.

(** The part of [hamming_minimize] after the loop has found [k] leading zeros. *)
Lemma hamming_minimize_tail max target dst s n k :
  bytes_ok max -> bytes_ok target -> bytes_ok dst -> (k <= n)%nat ->
  (s + n <= 8 * length max)%nat -> (s + n <= 8 * length target)%nat ->
  (s + n <= 8 * length dst)%nat -> forall ret,
  let c := bits_cmp (bits max (s + k) (n - k)) (bits target (s + k) (n - k)) in
  exists dst', (if decide (s + n - (s + k) ≠ 0)%nat then
      dst ← bmemcpy dst 0 target 0 (s + k) (s + n - (s + k));
      c ← bmemcmp_s max target (s + k) (s + n - (s + k));
      if decide (c < 0) then
        d ← rd dst ((s + k) / 8);
        dst ← wr dst ((s + k) / 8) (Z.land d (Z.lnot (Z.shiftr 0x80 (Z.of_nat ((s + k) mod 8)))));
        Some (dst, ret + 1)
      else Some (dst, ret)
    else Some (dst, ret)) = Some (dst', ret + match c with Lt => 1 | _ => 0 end) /\
    length dst' = length dst /\ bytes_ok dst' /\
    (forall i, (i < s + k \/ s + n <= i)%nat -> bit dst' i = bit dst i) /\
    bits dst' (s + k) (n - k) =
      match c with Lt => false :: tail (bits target (s + k) (n - k)) | _ => bits target (s + k) (n - k) end.
Proof.
  intros Hm Ht Hd Hk Hlm Hlt Hld ret c. replace (s + n - (s + k))%nat with (n - k)%nat by lia.
  case_decide as E0.
  2: { exists dst. subst c. rewrite E0. cbn. rewrite Z.add_0_r. done. }
  destruct (bmemcpy_copied dst 0 target 0 (s + k) (n - k)) as (d1 & -> & Hc); [done|done|lia..|].
  rewrite Nat.mul_0_r, !Nat.add_0_l in Hc. pose proof (copied_bits _ _ _ _ _ _ Hc) as Hb.
  destruct Hc as (Hl1 & Hok1 & Hc). cbn [mbind option_bind].
  destruct (bmemcmp_s_bits max target (s + k) (n - k)) as (r & -> & Hr); [done|done|lia|lia|].
  cbn [mbind option_bind]. fold c in Hr. case_decide as Er.
  - assert (c = Lt) as Ec by (by rewrite <- Hr; apply Z.compare_lt_iff).
    destruct (clear_bit d1 (s + k)) as (d2 & E2 & Hl2 & Hok2 & Hb2); [done|lia|].
    destruct (rd d1 ((s + k) / 8)) as [d|]; [|done]. cbn [mbind option_bind] in *. rewrite E2. cbn.
    exists d2. rewrite Ec. split; [done|]. split; [lia|]. split; [done|]. split.
    + intros i Hi. rewrite Hb2, Hc, !decide_False by lia. done.
    + destruct (n - k)%nat as [|m] eqn:Em; [lia|]. rewrite !bits_S in Hb |- *. cbn [tail].
      injection Hb as _ Hb. rewrite Hb2, decide_True by done. f_equal. rewrite <- Hb.
      apply bits_ext. intros j Hj. by rewrite Hb2, decide_False by lia.
  - assert (c ≠ Lt) as Ec by (rewrite <- Hr; by intros E).
    exists d1. destruct c; [rewrite Z.add_0_r|done|rewrite Z.add_0_r]; (split; [done|]);
      (split; [done|]); (split; [done|]); (split; [|done]); intros i Hi; by rewrite Hc, decide_False by lia.
Qed.

Lemma hamming_minimize_ok max target dst s n :
  bytes_ok max -> bytes_ok target -> bytes_ok dst ->
  (s + Nat.max 1 n <= 8 * length max)%nat -> (s + Nat.max 1 n <= 8 * length target)%nat ->
  (s + Nat.max 1 n <= 8 * length dst)%nat ->
  exists dst' r, hamming_minimize max target dst s n = Some (dst', r) /\
    length dst' = length dst /\ bytes_ok dst' /\
    (forall i, (i < s \/ s + n <= i)%nat -> bit dst' i = bit dst i) /\
    bits_cmp (bits dst' s n) (bits max s n) ≠ Gt /\
    r = hamming dst' target s n /\
    forall v, bits_cmp (bits v s n) (bits max s n) ≠ Gt -> r <= hamming v target s n.
Proof.
  intros Hm Ht Hd Hlm Hlt Hld. unfold hamming_minimize.
  destruct (hamming_minimize_loop_spec max target s n 0) as (k & Hkn & -> & Hz & Hend); [lia..|].
  cbn [mbind option_bind]. replace (s + k - s)%nat with k by lia.
  destruct (bmemcpy_copied dst 0 max 0 s k) as (d1 & -> & Hc1); [done|done|lia..|].
  rewrite Nat.mul_0_r, !Nat.add_0_l in Hc1. pose proof (copied_bits _ _ _ _ _ _ Hc1) as Hb1.
  destruct Hc1 as (Hl1 & Hok1 & Hc1). cbn [mbind option_bind].
  destruct (hamming_minimize_tail max target d1 s n k Hm Ht Hok1 Hkn ltac:(lia) ltac:(lia)
    ltac:(lia) (0 + count_true (bits target s k))) as (d2 & E2 & Hl2 & Hok2 & Ho2 & Hb2).
  cbv zeta. rewrite E2.
  assert (Hsplit : forall buf, bits buf s n = bits buf s k ++ bits buf (s + k) (n - k)).
  { intros buf. rewrite <- bits_app. f_equal. lia. }
  assert (Hb2' : bits d2 s k = replicate k false).
  { rewrite <- Hz, <- Hb1. apply bits_ext. intros j Hj. apply Ho2. lia. }
  destruct (closest_below k (bits max (s + k) (n - k)) (bits target s k) (bits target (s + k) (n - k)))
    as (C1 & C2 & C3); [by rewrite length_bits|by rewrite !length_bits| |].
  { destruct Hend as [->|Hb]; [left; by rewrite Nat.sub_diag|].
    destruct (n - k)%nat eqn:E; [by left|right]. rewrite bits_S, Hb. eauto. }
  rewrite <- Hb2, <- Hb2', <- !Hsplit in C2. rewrite <- Hb2, <- Hb2' in C1 at 1.
  rewrite <- Hz, <- !Hsplit in C1. rewrite <- Hz, <- !Hsplit, length_bits in C3.
  do 2 eexists. split; [done|]. split; [lia|]. split; [done|]. split.
  { intros i Hi. rewrite Ho2, Hc1 by lia. by rewrite decide_False by lia. }
  split; [done|]. split; [by rewrite Z.add_0_l, <- C2|].
  intros v Hv. rewrite Z.add_0_l. apply C3; [rewrite length_bits; lia|done].
Qed.

(** hamming_minimize writes into the n bits from start a value not above max that is as close to
    the target in Hamming distance as any such value, returns that distance, and changes no
    other bit. *)
Lemma hamming_minimize_closest max target dst s n :
  bytes_ok max -> bytes_ok target -> bytes_ok dst ->
  (s + Nat.max 1 n <= 8 * length max)%nat -> (s + Nat.max 1 n <= 8 * length target)%nat ->
  (s + Nat.max 1 n <= 8 * length dst)%nat ->
  exists dst' r, hamming_minimize max target dst s n = Some (dst', r) /\
    length dst' = length dst /\
    (forall i, (i < s \/ s + n <= i)%nat -> bit dst' i = bit dst i) /\
    bits_cmp (bits dst' s n) (bits max s n) ≠ Gt /\
    r = hamming dst' target s n /\
    forall v, bits_cmp (bits v s n) (bits max s n) ≠ Gt -> r <= hamming v target s n.
Proof.
  intros Hm Ht Hd Hlm Hlt Hld. destruct (hamming_minimize_ok max target dst s n Hm Ht Hd Hlm Hlt Hld) as (dst' & r & H1 & H2 & _ & H3).
  by exists dst', r.
Qed.

(** ** Hexadecimal text is read back *)

Definition hexpair (b : Z) : list Z :=
  [nth (Z.to_nat (Z.shiftr b 4)) hexdigits 0; nth (Z.to_nat (Z.land b 0x0f)) hexdigits 0].

#[global] Arguments hexpair : simpl never.

Definition hextext (src : list Z) : list Z := flat_map hexpair src.

(** A digit [d] of value [v]: the reader takes it and does not skip it. *)
Definition digit_of (d v : Z) : bool :=
  bool_decide (hexdigits !! Z.to_nat v = Some d) && bool_decide (hexval d = Some (Some v)) &&
  bool_decide (d ≠ 0) && bool_decide (skip_nonhex [d] = Some [d]).

Lemma digit_of_skip d v t : digit_of d v = true -> skip_nonhex (d :: t) = Some (d :: t).
Proof.
  unfold digit_of. rewrite !andb_true_iff, !bool_decide_eq_true. intros [[_ Hd] H]. cbn in *.
  case_decide; [done|]. rewrite decide_True in * by done.
  destruct (hexvals !! Z.to_nat d); [|done]. cbn in *. by case_decide.
Qed.

Lemma hexpair_decodes b : byte_ok b ->
  exists h l x y, hexpair b = [h; l] /\ x = Z.shiftr b 4 /\ y = Z.land b 15 /\
    digit_of h x = true /\ digit_of l y = true /\ Z.lor (Z.shiftl x 4) y = b.
Proof.
  intros Hb. do 2 eexists. exists (Z.shiftr b 4), (Z.land b 15). do 3 (split; [done|]).
  pose proof (byte_forall (fun b =>
    digit_of (nth (Z.to_nat (Z.shiftr b 4)) hexdigits 0) (Z.shiftr b 4) &&
    digit_of (nth (Z.to_nat (Z.land b 15)) hexdigits 0) (Z.land b 15) &&
    (Z.lor (Z.shiftl (Z.shiftr b 4) 4) (Z.land b 15) =? b)) b
    ltac:(vm_compute; reflexivity) Hb) as H. cbv beta in H.
  rewrite !andb_true_iff, Z.eqb_eq in H. tauto.
Qed.

Lemma length_hextext src : length (hextext src) = (2 * length src)%nat.
Proof. induction src as [|b src IH]; [done|]. unfold hextext in *. cbn [flat_map]. rewrite length_app, IH. unfold hexpair. simpl. lia. Qed.

Lemma hexlify_loop_text src0 src pre dst :
  bytes_ok src -> (2 * length src <= length dst)%nat ->
  hexlify_loop (pre ++ dst) (length pre) (src0 ++ src) (length src0) (length src) =
  Some (pre ++ hextext src ++ drop (2 * length src) dst, length pre + 2 * length src)%nat.
Proof.
  revert src0 pre dst; induction src as [|b src IH]; intros src0 pre dst Hs Hl.
  { by rewrite Nat.add_0_r. }
  apply Forall_cons in Hs as [Hb Hs]. destruct dst as [|d0 [|d1 dst]]; simpl in Hl; try lia.
  destruct (hexpair_decodes b Hb) as (h & l & x & y & Ep & -> & -> & H1 & H2 & _).
  unfold digit_of in H1, H2. rewrite !andb_true_iff, !bool_decide_eq_true in H1, H2.
  cbn [length hexlify_loop]. unfold rd. rewrite list_lookup_middle by done. cbn [mbind option_bind].
  destruct H1 as [[[-> _] _] _]. cbn [mbind option_bind]. rewrite wr_Some by (rewrite length_app; simpl; lia).
  cbn [mbind option_bind]. destruct H2 as [[[-> _] _] _]. cbn [mbind option_bind].
  rewrite wr_Some by (rewrite length_insert, length_app; simpl; lia). cbn [mbind option_bind].
  replace (<[(length pre + 1)%nat := l]> (<[length pre := h]> (pre ++ d0 :: d1 :: dst)))
    with ((pre ++ [h; l]) ++ dst).
  2: { rewrite <- (Nat.add_0_r (length pre)) at 2. rewrite !insert_app_r. by rewrite <- app_assoc. }
  replace (length pre + 2)%nat with (length (pre ++ [h; l])) by (rewrite length_app; done).
  replace (length src0 + 1)%nat with (length (src0 ++ [b])) by (rewrite length_app; done).
  replace (src0 ++ b :: src) with ((src0 ++ [b]) ++ src) by (by rewrite <- app_assoc).
  rewrite IH by (done || lia). unfold hextext. cbn [flat_map]. rewrite Ep, <- !app_assoc, length_app. f_equal. f_equal; [|simpl; lia].
  by replace (2 * S (length src))%nat with (S (S (2 * length src))) by lia.
Qed.

Lemma unhexlify_loop_text src pre dst rest :
  bytes_ok src -> (length src <= length dst)%nat ->
  unhexlify_loop (length src) (pre ++ dst) (length pre) (hextext src ++ 0 :: rest) =
  Some (Z.of_nat (length pre + length src), pre ++ src ++ drop (length src) dst).
Proof.
  revert pre dst; induction src as [|b src IH]; intros pre dst Hs Hl.
  { by rewrite Nat.add_0_r. }
  apply Forall_cons in Hs as [Hb Hs]. destruct dst as [|d0 dst]; simpl in Hl; try lia.
  destruct (hexpair_decodes b Hb) as (h & l & x & y & Ep & _ & _ & H1 & H2 & Eb).
  unfold digit_of in H1, H2. rewrite !andb_true_iff, !bool_decide_eq_true in H1, H2.
  destruct H1 as [[[_ Hh] Hh0] _], H2 as [[[_ Hv] Hv0] _].
  cbn [length unhexlify_loop hextext flat_map]. rewrite Ep. cbn [app rd lookup list_lookup mbind option_bind].
  rewrite !decide_False, Hh by done. cbn [mbind option_bind]. rewrite Hv. cbn [mbind option_bind].
  rewrite wr_Some, Eb by (rewrite length_app; simpl; lia). cbn [mbind option_bind drop].
  assert (skip_nonhex (hextext src ++ 0 :: rest) = Some (hextext src ++ 0 :: rest)) as E.
  { destruct src as [|b' src]; [done|]. apply Forall_cons in Hs as [Hb' _].
    destruct (hexpair_decodes b' Hb') as (h' & l' & ? & ? & Ep' & _ & _ & H1' & _).
    unfold hextext. cbn [flat_map]. rewrite Ep'. by apply (digit_of_skip _ _ _ H1'). }
  unfold hextext in E, IH |- *. rewrite drop_0, E. cbn [mbind option_bind].
  replace (<[length pre := b]> (pre ++ d0 :: dst)) with ((pre ++ [b]) ++ dst).
  2: { rewrite <- (Nat.add_0_r (length pre)) at 1. rewrite insert_app_r. by rewrite <- app_assoc. }
  replace (length pre + 1)%nat with (length (pre ++ [b])) by (rewrite length_app; done).
  rewrite IH by (done || lia). simpl. rewrite <- !app_assoc, length_app. do 2 f_equal. simpl. lia.
Qed.

(** Text written by hexlify is terminated and is read back by unhexlify as the same bytes. *)
Theorem hexlify_unhexlify src dst dst2 :
  bytes_ok src -> (2 * length src < length dst)%nat -> (length src <= length dst2)%nat ->
  exists t, hexlify dst src (length src) = Some t /\
    length t = length dst /\ t !! (2 * length src)%nat = Some 0 /\
    unhexlify dst2 (length src) t = Some (Z.of_nat (length src), src ++ drop (length src) dst2).
Proof.
  intros Hs Hd Hd2. unfold hexlify.
  pose proof (hexlify_loop_text [] src [] dst Hs ltac:(lia)) as E.
  cbn [app length] in E. rewrite E. clear E. cbn [mbind option_bind].
  rewrite Nat.add_0_l, wr_Some by (rewrite length_app, length_hextext, length_drop; lia).
  eexists; split; [done|].
  rewrite length_insert, length_app, length_hextext, length_drop. split; [lia|].
  split; [apply list_lookup_insert_eq; rewrite length_app, length_hextext, length_drop; lia|].
  destruct (drop (2 * length src) dst) as [|c rest] eqn:E.
  { apply (f_equal length) in E. rewrite length_drop in E. simpl in E. lia. }
  rewrite <- (length_hextext src), <- (Nat.add_0_r (length (hextext src))), insert_app_r.
  exact (unhexlify_loop_text src [] dst2 rest Hs Hd2).
Qed.

Lemma bmemcpy_shift_copied_witness :
  exists dst', bmemcpy_shift [255; 0; 255] 5 [18; 52; 86] 2 13 = Some dst' /\
    copied [255; 0; 255] dst' [18; 52; 86] 5 2 13.
Proof. apply (bmemcpy_shift_copied [255; 0; 255] 5 [18; 52; 86] 2 13); decided. Defined.

Lemma hamming_distance_64_spec_witness :
  hamming_distance_64 true [255; 0; 1; 2; 3; 4; 5; 6] [254; 0; 1; 2; 3; 4; 5; 7] 63 =
    Some (hamming [255; 0; 1; 2; 3; 4; 5; 6] [254; 0; 1; 2; 3; 4; 5; 7] 0 63).
Proof.
  apply (hamming_distance_64_spec true [255; 0; 1; 2; 3; 4; 5; 6] [254; 0; 1; 2; 3; 4; 5; 7] 63); decided.
Defined.

Lemma hamming_minimize_closest_witness :
  exists dst' r, hamming_minimize [90] [127] [0] 1 6 = Some (dst', r) /\
    length dst' = 1%nat /\
    (forall i, (i < 1 \/ 7 <= i)%nat -> bit dst' i = bit [0] i) /\
    bits_cmp (bits dst' 1 6) (bits [90] 1 6) ≠ Gt /\
    r = hamming dst' [127] 1 6 /\
    forall v, bits_cmp (bits v 1 6) (bits [90] 1 6) ≠ Gt -> r <= hamming v [127] 1 6.
Proof. apply (hamming_minimize_closest [90] [127] [0] 1 6); decided. Defined.

Lemma hexlify_unhexlify_witness :
  exists t, hexlify (replicate 8 7) [10; 255; 0] 3 = Some t /\
    length t = 8%nat /\ t !! 6%nat = Some 0 /\
    unhexlify [1; 1; 1; 1] 3 t = Some (3, [10; 255; 0; 1]).
Proof. apply (hexlify_unhexlify [10; 255; 0] (replicate 8 7) [1; 1; 1; 1]); decided. Defined.
