(* ===== verification/Prefix.v ===== *)
(** Prefixes: the model of [src/prefix.c], [src/prefix.h], [src/prefix_utils.h]
    and [src/prefix_utils.c].

    A prefix is the 16 bytes of an IPv6 address and a length in bits; IPv4 lives
    in the v4-mapped range.  [inet_ntop] and [inet_pton] are functions of the C
    library: parameters here, with what is used of them in the class [InetText]. *)
From S2P Require Import Prelude Bitops.

(** [struct prefix]. *)
Record prefix := mk_prefix { pfx : list Z; plen : nat }.

#[global] Instance prefix_eq_dec : EqDecision prefix.
Proof. solve_decision. Defined.

Definition prefix_wf (p : prefix) : Prop :=
  length (pfx p) = 16%nat /\ bytes_ok (pfx p) /\ (plen p <= 128)%nat.

#[global] Instance prefix_wf_dec p : Decision (prefix_wf p).
Proof. unfold prefix_wf. apply _. Defined.

(** The bits that matter: "all bits following the plen first are ignored". *)
Definition pbits (p : prefix) : list bool := bits (pfx p) 0 (plen p).

Definition ipv4_in_ipv6_prefix : prefix :=
  mk_prefix ([0; 0; 0; 0; 0; 0; 0; 0; 0; 0; 0xff; 0xff] ++ replicate 4 0) 96.
Definition ipv6_ula_prefix : prefix := mk_prefix (0xfd :: replicate 15 0) 8.
Definition ipv6_ll_prefix : prefix := mk_prefix (0xfe :: 0x80 :: replicate 14 0) 10.
Definition ipv6_global_prefix : prefix := mk_prefix (0x20 :: replicate 15 0) 3.

Definition prefix_contains (p1 p2 : prefix) : option bool :=
  if decide (plen p1 <= plen p2)%nat then
    r ← bmemcmp (pfx p1) 0 (pfx p2) 0 (plen p1);
    Some (bool_decide (r = 0))
  else Some false.

Definition prefix_is_ipv4 (p : prefix) : option bool := prefix_contains ipv4_in_ipv6_prefix p.
Definition prefix_is_ipv6_ula (p : prefix) : option bool := prefix_contains ipv6_ula_prefix p.
Definition prefix_is_ll (p : prefix) : option bool := prefix_contains ipv6_ll_prefix p.
Definition prefix_is_global (p : prefix) : option bool := prefix_contains ipv6_global_prefix p.

Definition prefix_cmp (p1 p2 : prefix) : option Z :=
  let i := Z.of_nat (plen p2) - Z.of_nat (plen p1) in
  if decide (i ≠ 0) then Some i
  else bmemcmp (pfx p1) 0 (pfx p2) 0 (plen p1).

(** [prefix_af_length]. *)
Definition prefix_af_length (p : prefix) : option Z :=
  v4 ← prefix_is_ipv4 p;
  Some (if (v4 : bool) then Z.of_nat (plen p) - 96 else Z.of_nat (plen p)).

(** ** Text form *)

Inductive af := AF_INET | AF_INET6.

#[global] Instance af_eq_dec : EqDecision af.
Proof. solve_decision. Defined.

(** [IN6_IS_ADDR_V4MAPPED]: ten zero bytes, then [0xffff]. *)
Definition v4mapped (addr : list Z) : bool :=
  bool_decide (take 12 addr = [0; 0; 0; 0; 0; 0; 0; 0; 0; 0; 0xff; 0xff]).

Definition INET6_ADDRSTRLEN : nat := 46.
Definition chr_slash : Z := 47.
Definition chr_0 : Z := 48.

(** Decimal digits of a number, most significant first ([sprintf("%d")]). *)
Fixpoint print_dec_aux (fuel : nat) (n : Z) (acc : list Z) : list Z :=
  match fuel with
  | O => acc
  | S fuel =>
    let acc := (chr_0 + n mod 10) :: acc in
    if decide (n / 10 = 0) then acc else print_dec_aux fuel (n / 10) acc
  end.

(** Enough fuel for the ten digits of an [int]. *)
Definition print_dec (n : Z) : list Z := print_dec_aux 10 n [].

(** [atoi] on a text of digits. *)
Definition atoi (s : list Z) : Z := foldl (fun n c => 10 * n + (c - chr_0)) 0 s.

Definition is_digit (c : Z) : bool := bool_decide (chr_0 <= c <= 57).

Section text.
(** The text of a binary address, and the address of a text. *)
Variable inet_text : af -> list Z -> list Z.
Variable inet_pton : af -> list Z -> option (list Z).

(** [inet_ntop(f, src, dst, size)]: writes the text and its NUL when they fit
    in [size] bytes, fails otherwise ([None] inside). *)
Definition inet_ntop (f : af) (src dst : list Z) (size : nat) : option (option (list Z)) :=
  let t := inet_text f src in
  if decide (length t < size)%nat then d ← wrn dst 0 (t ++ [0]); Some (Some d)
  else Some None.

Definition addr_ntop (dst : list Z) (bufflen : nat) (addr : list Z) : option (option (list Z)) :=
  if v4mapped addr then inet_ntop AF_INET (drop 12 addr) dst bufflen
  else inet_ntop AF_INET6 addr dst bufflen.

(** [strlen] of the string at the start of a buffer. *)
Definition strlen (s : list Z) : option nat := fst <$> list_find (fun c => c = 0) s.

Definition prefix_ntop (dst : list Z) (bufflen : nat) (addr : list Z) (plen : nat)
  : option (option (list Z)) :=
  if decide (bufflen < 4)%nat then Some None
  else
    r ← addr_ntop dst (bufflen - 4) addr;
    match r with
    | None => Some None
    | Some dst =>
      str ← strlen dst;
      let shown := if bool_decide (96 <= plen)%nat && v4mapped addr
                   then (plen - 96)%nat else plen in
      dst ← wrn dst str (chr_slash :: print_dec (Z.of_nat shown) ++ [0]);
      Some (Some dst)
    end.

Definition prefix_ntopc (dst : list Z) (bufflen : nat) (addr : list Z) (plen : nat)
  : option (option (list Z)) :=
  let p := replicate 16 0 in
  let bytes := (plen / 8)%nat in
  a ← rdn addr 0 bytes;
  p ← wrn p 0 a;
  let rembit := (plen mod 8)%nat in
  p ← (if decide (rembit ≠ 0)%nat then
         b ← rd addr bytes;
         wr p bytes (u8 (Z.land (Z.shiftl 0xff (Z.of_nat (8 - rembit))) b))
       else Some p);
  prefix_ntop dst bufflen p plen.

(** [src] is the text without its NUL.  The result is the return value with
    the final [*addr] and [*plen], which the failing paths may have changed. *)
Definition prefix_pton (src addr : list Z) (plen : Z) : option (Z * list Z * Z) :=
  let slash := fst <$> list_find (fun c => c = chr_slash) src in
  let digits := match slash with Some i => drop (i + 1) src | None => [] end in
  if bool_decide (is_Some slash) &&
     (bool_decide (length digits = 0)%nat || bool_decide (3 < length digits)%nat ||
      negb (forallb is_digit digits))
  then Some (0, addr, plen)
  else
    let parsed_len := match slash with Some _ => u8 (atoi digits) | None => 128 end in
    let addrlen := match slash with Some i => i | None => length src end in
    if decide (INET6_ADDRSTRLEN <= addrlen)%nat then Some (0, addr, plen)
    else
      let buf := take addrlen src in
      let plen := match slash with Some _ => plen | None => 128 end in
      match inet_pton AF_INET6 buf with
      | Some a =>
        addr ← wrn addr 0 a;
        match slash with
        | Some _ => if decide (128 < parsed_len) then Some (0, addr, plen)
                    else Some (1, addr, parsed_len)
        | None => Some (1, addr, plen)
        end
      | None =>
        match inet_pton AF_INET buf with
        | Some a =>
          addr ← wrn addr 12 a;
          let finish plen :=
            addr ← wrn addr 0 (replicate 10 0);
            addr ← wr addr 10 0xff;
            addr ← wr addr 11 0xff;
            Some (1, addr, plen) in
          match slash with
          | Some _ => if decide (32 < parsed_len) then Some (0, addr, plen)
                      else finish (u8 (parsed_len + 96))
          | None => finish plen
          end
        | None => Some (0, addr, plen)
        end
      end.
End text.

Definition inet_addr (f : af) (a : list Z) : Prop :=
  bytes_ok a /\ length a = match f with AF_INET => 4%nat | AF_INET6 => 16%nat end.

(** What the code relies on of the C library's address text: it has neither NUL
    nor slash, fits [INET6_ADDRSTRLEN], and is read back in its family only. *)
Class InetText (inet_text : af -> list Z -> list Z) (inet_pton : af -> list Z -> option (list Z)) := {
  text_chars f a : inet_addr f a -> Forall (fun c => c ≠ 0 /\ c ≠ chr_slash) (inet_text f a);
  text_len f a : inet_addr f a -> (length (inet_text f a) < INET6_ADDRSTRLEN)%nat;
  pton_text f a : inet_addr f a -> inet_pton f (inet_text f a) = Some a;
  pton6_dotted a : inet_addr AF_INET a -> inet_pton AF_INET6 (inet_text AF_INET a) = None
}.

(** ** Containment and order *)

Lemma length_pbits p : length (pbits p) = plen p.
Proof. apply length_bits. Qed.

Lemma pbits_bit p i : (i < plen p)%nat -> pbits p !! i = Some (bit (pfx p) i).
Proof. intros Hi. unfold pbits, bits. rewrite list_lookup_fmap, lookup_seq_lt by done. done. Qed.

Lemma bits_take buf s n m : (n <= m)%nat -> bits buf s n = take n (bits buf s m).
Proof.
  intros Hn. replace m with (n + (m - n))%nat by lia. rewrite bits_app.
  by rewrite take_app_length' by (by rewrite length_bits).
Qed.

Lemma prefix_contains_spec p1 p2 :
  prefix_wf p1 -> prefix_wf p2 ->
  prefix_contains p1 p2 = Some (bool_decide (pbits p1 `prefix_of` pbits p2)).
Proof.
  intros (H1 & Hb1 & Hl1) (H2 & Hb2 & Hl2). unfold prefix_contains. case_decide as Hl.
  2: { rewrite bool_decide_false; [done|]. intros Hp%prefix_length.
       rewrite !length_pbits in Hp. lia. }
  destruct (bmemcmp_bits (pfx p1) 0 (pfx p2) 0 (plen p1)) as (r & -> & Hr); [done|done|lia..|].
  cbn [mbind option_bind]. f_equal. apply bool_decide_ext.
  transitivity (pbits p1 = bits (pfx p2) 0 (plen p1)).
  - rewrite <- Z.compare_eq_iff, Hr, Nat.mul_0_r. unfold pbits. by rewrite bits_cmp_Eq by (by rewrite !length_bits).
  - rewrite (bits_take _ _ _ (plen p2)) by done. fold (pbits p2). split.
    + intros ->. apply prefix_take.
    + intros [k ->]. by rewrite take_app_length' by (by rewrite length_pbits).
Qed.

(** The addresses a prefix stands for. *)
Definition in_prefix (a : list Z) (p : prefix) : Prop :=
  length a = 16%nat /\ bytes_ok a /\ bits a 0 (plen p) = pbits p.

Lemma flip_bit a n :
  bytes_ok a -> (n < 8 * length a)%nat ->
  exists a', length a' = length a /\ bytes_ok a' /\
    forall i, bit a' i = xorb (bit a i) (bool_decide (i = n)).
Proof.
  intros Ha Hn. destruct (lookup_lt_is_Some_2 a (n / 8)) as [b Eb]; [lia|].
  assert (byte_ok b) as Hb by eauto with hnetd.
  exists (<[(n / 8)%nat := Z.lxor b (2 ^ Z.of_nat (7 - n mod 8))]> a).
  split; [apply length_insert|]. split.
  { apply Forall_insert; [done|]. apply byte_ok_bits.
    - apply Z.lxor_nonneg. unfold byte_ok in Hb. lia.
    - intros i Hi. rewrite Z.lxor_spec, byte_testbit_high, Z.pow2_bits_false by (done || lia). done. }
  intros i. rewrite bit_insert by lia. case_decide as E.
  - rewrite Z.lxor_spec, Z.pow2_bits_eqb by lia. unfold bit. rewrite E, Eb. f_equal.
    case_bool_decide; [apply Z.eqb_eq; lia|apply Z.eqb_neq; lia].
  - rewrite bool_decide_false by congruence. by rewrite xorb_false_r.
Qed.

(** prefix_contains holds exactly when every address of the second prefix is an address of the
    first. *)
Theorem prefix_contains_subset p1 p2 :
  prefix_wf p1 -> prefix_wf p2 ->
  exists b, prefix_contains p1 p2 = Some b /\
    (b = true <-> forall a, in_prefix a p2 -> in_prefix a p1).
Proof.
  intros Hw1 Hw2. rewrite prefix_contains_spec by done. eexists; split; [done|].
  destruct Hw1 as (H1 & Hb1 & Hl1), Hw2 as (H2 & Hb2 & Hl2).
  rewrite bool_decide_eq_true. split.
  - intros Hp a (Ha & Hba & Hbits). split; [done|]. split; [done|].
    pose proof (prefix_length _ _ Hp) as Hl. rewrite !length_pbits in Hl.
    rewrite (bits_take _ _ _ (plen p2)), Hbits by done. destruct Hp as [k ->].
    by rewrite take_app_length' by (by rewrite length_pbits).
  - intros Hsub. destruct (decide (plen p1 <= plen p2)%nat) as [Hl|Hl].
    + destruct (Hsub (pfx p2)) as (_ & _ & <-); [done|].
      rewrite (bits_take _ _ _ (plen p2)) by done. apply prefix_take.
    + destruct (flip_bit (pfx p2) (plen p2)) as (a & Ha & Hba & Hbit); [done|lia|].
      assert (bits a 0 (plen p2) = pbits p2) as E.
      { apply bits_ext. intros j Hj. rewrite Hbit, bool_decide_false, xorb_false_r by lia. done. }
      destruct (Hsub a) as (_ & _ & E1); [split; [congruence|done]|].
      destruct (Hsub (pfx p2)) as (_ & _ & E2); [done|].
      rewrite <- E1 in E2. apply (f_equal (.!! plen p2)) in E2. unfold bits in E2.
      rewrite !list_lookup_fmap, !lookup_seq_lt in E2 by lia. injection E2 as E2.
      rewrite Hbit, bool_decide_true in E2 by done. revert E2. by destruct (bit (pfx p2) _).
Qed.

(** The order of [prefix_cmp]: longer prefixes first, then by bits. *)
Definition prefix_ord (p1 p2 : prefix) : comparison :=
  match Nat.compare (plen p2) (plen p1) with
  | Eq => bits_cmp (pbits p1) (pbits p2)
  | c => c
  end.

Lemma prefix_cmp_ord p1 p2 :
  prefix_wf p1 -> prefix_wf p2 ->
  exists r, prefix_cmp p1 p2 = Some r /\ Z.compare r 0 = prefix_ord p1 p2.
Proof.
  intros (H1 & Hb1 & Hl1) (H2 & Hb2 & Hl2). unfold prefix_cmp, prefix_ord. case_decide as Hl.
  - eexists; split; [done|]. destruct (Nat.compare_spec (plen p2) (plen p1)); [lia|..].
    + apply Z.compare_lt_iff. lia.
    + apply Z.compare_gt_iff. lia.
  - assert (plen p2 = plen p1) as E by lia.
    destruct (bmemcmp_bits (pfx p1) 0 (pfx p2) 0 (plen p1)) as (r & -> & Hr); [done|done|lia..|].
    exists r. split; [done|]. rewrite E, Nat.compare_refl, Hr. unfold pbits. by rewrite E.
Qed.

(** A number that decides [prefix_ord]. *)
Definition prefix_rank (p : prefix) : Z :=
  Z.of_nat (128 - plen p) * 2 ^ 128 + bval (pbits p).

Lemma bval_lt_128 p : (plen p <= 128)%nat -> 0 <= bval (pbits p) < 2 ^ 128.
Proof.
  intros Hl. pose proof (bval_bound (pbits p)) as H. rewrite length_pbits in H.
  pose proof (Z.pow_le_mono_r 2 (Z.of_nat (plen p)) 128 ltac:(lia) ltac:(lia)). lia.
Qed.

Lemma prefix_ord_rank p1 p2 :
  (plen p1 <= 128)%nat -> (plen p2 <= 128)%nat ->
  prefix_ord p1 p2 = Z.compare (prefix_rank p1) (prefix_rank p2).
Proof.
  intros H1 H2. pose proof (bval_lt_128 p1 H1). pose proof (bval_lt_128 p2 H2).
  unfold prefix_ord, prefix_rank. destruct (Nat.compare_spec (plen p2) (plen p1)) as [E|Hlt|Hlt].
  - rewrite bits_cmp_bval by (by rewrite !length_pbits). rewrite E. by rewrite Z.add_compare_mono_l.
  - symmetry. apply Z.compare_lt_iff. nia.
  - symmetry. apply Z.compare_gt_iff. nia.
Qed.

Lemma prefix_rank_inj p1 p2 :
  (plen p1 <= 128)%nat -> (plen p2 <= 128)%nat ->
  prefix_rank p1 = prefix_rank p2 <-> pbits p1 = pbits p2.
Proof.
  intros H1 H2. rewrite <- Z.compare_eq_iff, <- prefix_ord_rank by done. unfold prefix_ord.
  destruct (Nat.compare_spec (plen p2) (plen p1)) as [E|Hlt|Hlt].
  - by rewrite bits_cmp_Eq by (by rewrite !length_pbits).
  - split; [done|]. intros E. apply (f_equal length) in E. rewrite !length_pbits in E. lia.
  - split; [done|]. intros E. apply (f_equal length) in E. rewrite !length_pbits in E. lia.
Qed.

(** prefix_cmp orders prefixes by decreasing length and then by their bits: its sign is that of
    the comparison of ranks, swapping the arguments negates the sign, and it is 0 exactly
    when each prefix contains the other. *)
Theorem prefix_cmp_order p1 p2 :
  prefix_wf p1 -> prefix_wf p2 ->
  exists r r', prefix_cmp p1 p2 = Some r /\ prefix_cmp p2 p1 = Some r' /\
    Z.compare r 0 = Z.compare (prefix_rank p1) (prefix_rank p2) /\
    Z.sgn r' = - Z.sgn r /\
    (r = 0 <-> prefix_contains p1 p2 = Some true /\ prefix_contains p2 p1 = Some true).
Proof.
  intros Hw1 Hw2. destruct (prefix_cmp_ord p1 p2 Hw1 Hw2) as (r & E & Hr).
  destruct (prefix_cmp_ord p2 p1 Hw2 Hw1) as (r' & E' & Hr').
  exists r, r'. rewrite !prefix_contains_spec by done.
  destruct Hw1 as (_ & _ & Hl1), Hw2 as (_ & _ & Hl2).
  rewrite !prefix_ord_rank in * by done. do 4 (split; [try done|]).
  - rewrite (Z.compare_antisym (prefix_rank p1)), <- Hr in Hr'. destruct r, r'; done.
  - rewrite <- Z.compare_eq_iff, Hr, Z.compare_eq_iff, prefix_rank_inj by done. split.
    + intros ->. by rewrite bool_decide_true.
    + intros [H1 H2]. apply (inj Some), bool_decide_eq_true in H1, H2. by apply (anti_symm list.prefix).
Qed.

(** ** Text round trip *)

Lemma print_dec_digits n :
  byte_ok n -> (1 <= length (print_dec n) <= 3)%nat /\ forallb is_digit (print_dec n) = true /\
  atoi (print_dec n) = n /\ Forall (fun c => c ≠ 0) (print_dec n).
Proof.
  intros Hn. pose proof (byte_forall (fun n => (Nat.leb 1 (length (print_dec n)) &&
    Nat.leb (length (print_dec n)) 3) && forallb is_digit (print_dec n) && (atoi (print_dec n) =? n) &&
    forallb (fun c => negb (c =? 0)) (print_dec n)) n ltac:(vm_compute; reflexivity) Hn) as H.
  cbv beta in H. rewrite !andb_true_iff, !Nat.leb_le, Z.eqb_eq in H.
  destruct H as [[[H1 H2] H3] H4]. do 3 (split; [done|]). rewrite forallb_forall in H4.
  apply Forall_forall. intros c Hc%list_elem_of_In%H4. apply negb_true_iff in Hc. lia.
Qed.

Lemma list_find_app_first (P : Z -> Prop) `{forall c, Decision (P c)} l c r :
  Forall (fun x => ~ P x) l -> P c -> list_find P (l ++ c :: r) = Some (length l, c).
Proof.
  intros Hl Hc. apply list_find_Some. split; [by rewrite list_lookup_middle|].
  split; [done|]. intros j y Hj Hlt. rewrite lookup_app_l in Hj by done.
  by eapply Forall_lookup_1 in Hl.
Qed.

Lemma strlen_app l r : Forall (fun c => c ≠ 0) l -> strlen (l ++ 0 :: r) = Some (length l).
Proof. intros Hl. unfold strlen. by rewrite (list_find_app_first (fun c => c = 0)). Qed.

Section text_laws.
Context {inet_text inet_pton} `{!InetText inet_text inet_pton}.
Implicit Types (addr dst : list Z).

Definition addr_text addr : list Z :=
  if v4mapped addr then inet_text AF_INET (drop 12 addr) else inet_text AF_INET6 addr.

Lemma inet_addr_v4 addr : inet_addr AF_INET6 addr -> inet_addr AF_INET (drop 12 addr).
Proof.
  intros [Hb Hl]. split; [by apply Forall_drop|]. rewrite length_drop. simpl in *. lia.
Qed.

Lemma addr_text_chars addr :
  inet_addr AF_INET6 addr -> Forall (fun c => c ≠ 0 /\ c ≠ chr_slash) (addr_text addr).
Proof. unfold addr_text. intros H. case_match; eapply text_chars; auto using inet_addr_v4. Qed.

Lemma addr_text_len addr :
  inet_addr AF_INET6 addr -> (length (addr_text addr) < INET6_ADDRSTRLEN)%nat.
Proof. unfold addr_text. intros H. case_match; eapply text_len; auto using inet_addr_v4. Qed.

(** The length shown after the slash. *)
Definition shown_len addr (l : nat) : Z :=
  Z.of_nat (if bool_decide (96 <= l)%nat && v4mapped addr then l - 96 else l).

(** [prefix_ntop] writes within [bufflen] and terminates the text. *)
Lemma prefix_ntop_text dst bufflen addr l :
  inet_addr AF_INET6 addr -> (bufflen <= length dst)%nat -> (l <= 128)%nat ->
  (length (addr_text addr) + 5 <= bufflen)%nat ->
  exists rest, prefix_ntop inet_text dst bufflen addr l =
    Some (Some (addr_text addr ++ chr_slash :: print_dec (shown_len addr l) ++ 0 :: rest)) /\
    length (addr_text addr ++ chr_slash :: print_dec (shown_len addr l) ++ 0 :: rest) = length dst.
Proof.
  intros Ha Hd Hl Hfit. unfold prefix_ntop. rewrite decide_False by lia.
  assert (addr_ntop inet_text dst (bufflen - 4) addr =
    d ← wrn dst 0 (addr_text addr ++ [0]); Some (Some d)) as ->.
  { unfold addr_ntop, addr_text, inet_ntop in *. case_match; by rewrite decide_True by lia. }
  rewrite wrn_Some by (rewrite length_app; simpl; lia). cbn [mbind option_bind].
  rewrite take_0, app_nil_l, <- app_assoc. cbn [app].
  pose proof (addr_text_chars addr Ha) as Hc. rewrite strlen_app.
  2: { eapply Forall_impl; [exact Hc|]. by intros c [? _]. }
  cbn [mbind option_bind].
  fold (shown_len addr l). destruct (print_dec_digits (shown_len addr l)) as (Hp & _).
  { unfold byte_ok, shown_len. case_match; lia. }
  rewrite wrn_Some.
  2: { rewrite !length_app. cbn [length]. rewrite length_drop, !length_app. cbn [length]. lia. }
  cbn [mbind option_bind]. rewrite take_app_length.
  eexists. split.
  - do 2 f_equal. cbn [app]. rewrite <- app_assoc. cbn [app]. done.
  - repeat (rewrite ?length_app, ?length_drop; cbn [length]). lia.
Qed.

Lemma prefix_pton_text addr addr0 l plen0 :
  inet_addr AF_INET6 addr -> length addr0 = 16%nat -> (l <= 128)%nat ->
  (v4mapped addr = true -> (96 <= l)%nat) ->
  prefix_pton inet_pton (addr_text addr ++ chr_slash :: print_dec (shown_len addr l)) addr0 plen0 =
  Some (1, addr, Z.of_nat l).
Proof.
  intros Ha Ha0 Hl H4. unfold prefix_pton. pose proof (addr_text_chars addr Ha) as Hc.
  rewrite (list_find_app_first (fun c => c = chr_slash)); [|eapply Forall_impl; [exact Hc|by intros c [_ ?]]|done].
  cbn [fmap option_fmap option_map fst]. 
  destruct (print_dec_digits (shown_len addr l)) as (Hp & Hdig & Hat & _).
  { unfold byte_ok, shown_len. case_match; lia. }
  replace (drop (length (addr_text addr) + 1) (addr_text addr ++ chr_slash :: print_dec (shown_len addr l)))
    with (print_dec (shown_len addr l)) by (by rewrite <- drop_drop, drop_app_length).
  rewrite Hdig, !(bool_decide_false (length _ = _)), (bool_decide_false (3 < _)%nat) by lia.
  rewrite andb_false_r, decide_False by (pose proof (addr_text_len addr Ha); lia).
  rewrite take_app_length, Hat. unfold shown_len, addr_text in *.
  destruct (v4mapped addr) eqn:E.
  - specialize (H4 eq_refl). rewrite bool_decide_true by done. cbn [andb].
    rewrite pton6_dotted, pton_text by (by apply inet_addr_v4).
    unfold v4mapped in E. apply bool_decide_eq_true in E.
    pose proof (take_drop 12 addr) as Ea. destruct Ha as [_ Ha]. simpl in Ha. rewrite E in Ea.
    assert (exists a b c d, drop 12 addr = [a; b; c; d]) as (x0 & x1 & x2 & x3 & Ed).
    { assert (length (drop 12 addr) = 4%nat) as Hd by (rewrite length_drop; lia).
      destruct (drop 12 addr) as [|x0 [|x1 [|x2 [|x3 [|]]]]]; try done. eauto. }
    rewrite Ed in Ea |- *. rewrite <- Ea.
    rewrite u8_id by (unfold byte_ok; lia).
    do 16 (destruct addr0 as [|? addr0]; [done|]). destruct addr0; [|done].
    rewrite wrn_Some by (simpl; lia). cbn [mbind option_bind]. rewrite decide_False by lia. cbn. rewrite u8_id by (unfold byte_ok; lia).
    replace (Z.of_nat (l - 96) + 96) with (Z.of_nat l) by lia. done.
  - rewrite andb_false_r, pton_text by done. destruct Ha as [_ Ha]. simpl in Ha. rewrite wrn_Some by lia. cbn [mbind option_bind].
    rewrite u8_id by (unfold byte_ok; lia). rewrite decide_False by lia.
    do 3 f_equal. cbn. rewrite drop_ge by lia. by rewrite app_nil_r.
Qed.

Lemma prefix_text_nonzero addr l :
  inet_addr AF_INET6 addr -> (l <= 128)%nat ->
  Forall (fun c => c ≠ 0) (addr_text addr ++ chr_slash :: print_dec (shown_len addr l)).
Proof.
  intros Ha Hl. apply Forall_app. split.
  - eapply Forall_impl; [apply (addr_text_chars addr Ha)|by intros c [? _]].
  - constructor; [done|]. apply print_dec_digits. unfold byte_ok, shown_len. case_match; lia.
Qed.

(** Text written by prefix_ntop is read back by prefix_pton as the same address and length, for
    IPv6 prefixes and for IPv4-mapped ones of at least 96 bits, for every inet_ntop and
    inet_pton that invert each other. *)
Theorem prefix_ntop_pton dst bufflen addr addr0 (l : nat) plen0 :
  inet_addr AF_INET6 addr -> (l <= 128)%nat -> (v4mapped addr = true -> (96 <= l)%nat) ->
  (INET6_ADDRSTRLEN + 4 <= bufflen <= length dst)%nat -> length addr0 = 16%nat ->
  exists dst' n, prefix_ntop inet_text dst bufflen addr l = Some (Some dst') /\
    length dst' = length dst /\ strlen dst' = Some n /\
    prefix_pton inet_pton (take n dst') addr0 plen0 = Some (1, addr, Z.of_nat l).
Proof.
  intros Ha Hl H4 Hbuf Ha0. pose proof (addr_text_len addr Ha).
  destruct (prefix_ntop_text dst bufflen addr l) as (rest & E & Hlen); [done|lia..|].
  do 2 eexists. split; [exact E|]. split; [exact Hlen|].
  assert (addr_text addr ++ chr_slash :: print_dec (shown_len addr l) ++ 0 :: rest =
    (addr_text addr ++ chr_slash :: print_dec (shown_len addr l)) ++ 0 :: rest) as ->
    by (by rewrite <- app_assoc).
  rewrite strlen_app, take_app_length by apply (prefix_text_nonzero addr l Ha Hl).
  split; [done|]. by apply prefix_pton_text.
Qed.
End text_laws.

(** Address texts that satisfy the laws: a family mark, then hexadecimal. *)
Definition hex_text (f : af) (a : list Z) : list Z :=
  match f with AF_INET => 46 | AF_INET6 => 58 end :: hextext a.

Definition hex_pton (f : af) (t : list Z) : option (list Z) :=
  let n := match f with AF_INET => 4%nat | AF_INET6 => 16%nat end in
  match t with
  | m :: t =>
    if decide (m = match f with AF_INET => 46 | AF_INET6 => 58 end) then
      '(r, a) ← unhexlify (replicate n 0) n (t ++ [0]);
      if decide (r = Z.of_nat n) then Some a else None
    else None
  | [] => None
  end.


#[global] Instance hex_inet_text : InetText hex_text hex_pton.
Proof.
  split.
  - intros f a [Hb _]. constructor; [by destruct f|]. induction Hb as [|b a Hb _ IH]; [constructor|].
    unfold hextext. cbn [flat_map]. apply Forall_app. split; [|exact IH].
    pose proof (byte_forall (fun b => forallb (fun c => negb (c =? 0) && negb (c =? chr_slash)) (hexpair b)) b
      ltac:(vm_compute; reflexivity) Hb) as H. rewrite forallb_forall in H. apply Forall_forall.
    intros c Hc%list_elem_of_In%H. rewrite andb_true_iff, !negb_true_iff in Hc. lia.
  - intros f a [_ Hl]. cbn [hex_text length]. rewrite length_hextext. destruct f; rewrite Hl; vm_compute; lia.
  - intros f a [Hb Hl]. unfold hex_pton, hex_text. rewrite decide_True by done. unfold unhexlify.
    pose proof (unhexlify_loop_text a [] (replicate (length a) 0) [] Hb) as E.
    rewrite length_replicate in E. specialize (E ltac:(lia)). rewrite Hl in E.
    cbn [app length] in E. rewrite E. cbn [mbind option_bind Nat.add].
    rewrite decide_True by done. rewrite drop_ge by (by rewrite length_replicate). by rewrite app_nil_r.
  - done.
Qed.

(** prefix_pton accepts the text ::/300 and reads the length as 44. *)
Theorem prefix_pton_length_wraps inet_pton a addr0 plen0 :
  inet_pton AF_INET6 [58; 58] = Some a -> length a = length addr0 ->
  prefix_pton inet_pton [58; 58; 47; 51; 48; 48] addr0 plen0 = Some (1, a, 44).
Proof.
  intros Ha Hl. unfold prefix_pton. simpl. rewrite Ha. cbn. rewrite wrn_Some by lia. cbn.
  rewrite drop_ge by lia. by rewrite app_nil_r.
Qed.

(** prefix_ntopc prints the prefix whose address keeps the first plen bits and has zeros after
    them. *)
Lemma ntopc_address addr l :
  length addr = 16%nat -> bytes_ok addr -> (l <= 128)%nat ->
  exists p, (forall inet_text dst bufflen,
      prefix_ntopc inet_text dst bufflen addr l = prefix_ntop inet_text dst bufflen p l) /\
    length p = 16%nat /\ bytes_ok p /\
    forall i, bit p i = if decide (i < l)%nat then bit addr i else false.
Proof.
  intros Ha Hb Hl. unfold prefix_ntopc. rewrite rdn_Some by lia. cbn [mbind option_bind].
  rewrite drop_0, wrn_Some, length_take by (rewrite length_take, length_replicate; lia).
  cbn [mbind option_bind]. rewrite take_0, app_nil_l, drop_replicate.
  set (p := take (l / 8) addr ++ replicate (16 - (0 + (l / 8) `min` length addr)) 0).
  assert (Hp : length p = 16%nat) by (unfold p; rewrite length_app, length_take, length_replicate; lia).
  assert (Hbp : bytes_ok p).
  { apply Forall_app. split; [by apply Forall_take|]. by apply Forall_replicate. }
  assert (Hbit : forall i, bit p i = if decide (i < 8 * (l / 8))%nat then bit addr i else false).
  { intros i. unfold bit, p. case_decide.
    - by rewrite lookup_app_l, lookup_take_lt by (rewrite ?length_take; lia).
    - rewrite lookup_app_r, length_take by (rewrite length_take; lia).
      destruct (replicate _ _ !! _) eqn:E; [|done]. apply lookup_replicate in E as [-> _].
      apply Z.testbit_0_l. }
  case_decide as Er; [|exists p; split; [done|]; do 2 (split; [done|]); intros i; rewrite Hbit; case_dec; lia || done].
  destruct (lookup_lt_is_Some_2 addr (l / 8)) as [b Eb]; [lia|]. unfold rd. rewrite Eb. cbn [mbind option_bind].
  rewrite wr_Some by lia. cbn [mbind option_bind]. eexists; split; [done|].
  split; [by rewrite length_insert|]. split; [apply Forall_insert; [done|apply u8_ok]|].
  intros i. rewrite bit_insert by lia. case_decide as Ei.
  - rewrite u8_testbit, Z.land_spec by lia. unfold bit. rewrite Ei, Eb.
    assert (Z.testbit (Z.shiftl 255 (Z.of_nat (8 - l mod 8))) (Z.of_nat (7 - i mod 8)) =
            bool_decide (i < l)%nat) as ->; [|by case_bool_decide; case_decide].
    rewrite (bool_decide_ext _ (i mod 8 < l mod 8)%nat) by lia.
    assert (i mod 8 < 8 /\ l mod 8 < 8)%nat as [Hi Hl8] by lia. revert Hi Hl8.
    generalize (i mod 8)%nat (l mod 8)%nat. intros x y Hx Hy.
    do 8 (destruct x as [|x]; [do 8 (destruct y as [|y]; [reflexivity|]); lia|]). lia.
  - rewrite Hbit. case_dec; lia || done.
Qed.

Lemma prefix_contains_subset_witness :
  exists b, prefix_contains ipv6_ula_prefix ipv6_ll_prefix = Some b /\
    (b = true <-> forall a, in_prefix a ipv6_ll_prefix -> in_prefix a ipv6_ula_prefix).
Proof. apply (prefix_contains_subset ipv6_ula_prefix ipv6_ll_prefix); decided. Defined.

Lemma prefix_cmp_order_witness :
  exists r r', prefix_cmp ipv6_ula_prefix ipv6_ll_prefix = Some r /\
    prefix_cmp ipv6_ll_prefix ipv6_ula_prefix = Some r' /\
    Z.compare r 0 = Z.compare (prefix_rank ipv6_ula_prefix) (prefix_rank ipv6_ll_prefix) /\
    Z.sgn r' = - Z.sgn r /\
    (r = 0 <-> prefix_contains ipv6_ula_prefix ipv6_ll_prefix = Some true /\
               prefix_contains ipv6_ll_prefix ipv6_ula_prefix = Some true).
Proof. apply (prefix_cmp_order ipv6_ula_prefix ipv6_ll_prefix); decided. Defined.

Lemma prefix_ntop_pton_witness :
  exists dst' n,
    prefix_ntop hex_text (replicate 50 0) 50 (pfx ipv4_in_ipv6_prefix) 104 = Some (Some dst') /\
    length dst' = 50%nat /\ strlen dst' = Some n /\
    prefix_pton hex_pton (take n dst') (replicate 16 1) 7 = Some (1, pfx ipv4_in_ipv6_prefix, 104).
Proof.
  apply (prefix_ntop_pton (replicate 50 0) 50 (pfx ipv4_in_ipv6_prefix) (replicate 16 1) 104 7);
    [split; decided|decided|intros _; decided|decided|decided].
Defined.

Lemma prefix_pton_length_wraps_witness :
  prefix_pton (fun _ _ => Some (replicate 16 0)) [58; 58; 47; 51; 48; 48] (replicate 16 1) 7 =
    Some (1, replicate 16 0, 44).
Proof.
  apply (prefix_pton_length_wraps (fun _ _ => Some (replicate 16 0)) (replicate 16 0) (replicate 16 1) 7);
    reflexivity.
Defined.

Lemma ntopc_address_witness :
  exists p, (forall inet_text dst bufflen,
      prefix_ntopc inet_text dst bufflen (replicate 16 255) 61 = prefix_ntop inet_text dst bufflen p 61) /\
    length p = 16%nat /\ bytes_ok p /\
    forall i, bit p i = if decide (i < 61)%nat then bit (replicate 16 255) i else false.
Proof. apply (ntopc_address (replicate 16 255) 61); decided. Defined.
