(* ===== verification/Tlv.v ===== *)
(** TLVs: the model of [src/tlv.c] and [src/tlv.h].

    A [struct tlv_attr *] is an offset into the memory block that holds it: four
    bytes of big-endian id and payload length, the payload, and zero bytes up to
    the next multiple of four.  A [struct tlv_buf] owns one block, grown in
    steps of 256 bytes; allocation is assumed to succeed. *)
From S2P Require Import Prelude.
From Stdlib Require Zbitwise.

Definition TLV_ATTR_ID_MASK : Z := 0xffff0000.
Definition TLV_ATTR_ID_SHIFT : Z := 16.
Definition TLV_ATTR_LEN_MASK : Z := 0x0000ffff.

(** Big-endian 32-bit field of a block. *)
Definition be32 (v : Z) : list Z := [v / 2 ^ 24 mod 256; v / 2 ^ 16 mod 256; v / 2 ^ 8 mod 256; v mod 256].

Definition of_be32 (l : list Z) : Z := foldl (fun n b => 256 * n + b) 0 l.

Definition rd32 (mem : list Z) (off : nat) : option Z := of_be32 <$> rdn mem off 4.
Definition wr32 (mem : list Z) (off : nat) (v : Z) : option (list Z) := wrn mem off (be32 v).

Definition tlv_id (mem : list Z) (attr : nat) : option Z :=
  id_len ← rd32 mem attr;
  Some (Z.shiftr (Z.land id_len TLV_ATTR_ID_MASK) TLV_ATTR_ID_SHIFT).

Definition tlv_len (mem : list Z) (attr : nat) : option nat :=
  id_len ← rd32 mem attr;
  Some (Z.to_nat (Z.land id_len TLV_ATTR_LEN_MASK)).

Definition tlv_raw_len (mem : list Z) (attr : nat) : option nat :=
  l ← tlv_len mem attr; Some (l + 4)%nat.

(** [(len + TLV_ATTR_ALIGN - 1) & ~(TLV_ATTR_ALIGN - 1)]. *)
Definition align4 (len : nat) : nat := Z.to_nat (Z.land (Z.of_nat len + 4 - 1) (Z.lnot (4 - 1))).

Definition tlv_pad_len (mem : list Z) (attr : nat) : option nat :=
  l ← tlv_raw_len mem attr; Some (align4 l).

Definition tlv_next (mem : list Z) (attr : nat) : option nat :=
  l ← tlv_pad_len mem attr; Some (attr + l)%nat.

(** The payload: [tlv_len] bytes at [tlv_data]. *)
Definition tlv_payload (mem : list Z) (attr : nat) : option (list Z) :=
  l ← tlv_len mem attr; rdn mem (attr + 4) l.

(** [tlv_for_each_in_buf(pos, buf, len)]: the positions the loop visits, as
    offsets from [buf]. *)
Fixpoint tlv_iter (fuel : nat) (mem : list Z) (buf len pos : nat) : option (list nat) :=
  match fuel with
  | O => None
  | S fuel =>
    if decide (pos + 4 <= buf + len)%nat then
      raw ← tlv_raw_len mem pos;
      if decide (4 <= raw)%nat then
        if decide (pos + raw <= buf + len)%nat then
          next ← tlv_next mem pos;
          rest ← tlv_iter fuel mem buf len next;
          Some (pos :: rest)
        else Some []
      else Some []
    else Some []
  end.

(** Each step moves at least four bytes, so [len + 1] rounds are enough. *)
Definition tlv_for_each_in_buf (mem : list Z) (buf len : nat) : option (list nat) :=
  tlv_iter (len + 1) mem buf len buf.

Definition tlv_for_each_attr (mem : list Z) (attr : nat) : option (list nat) :=
  l ← tlv_len mem attr; tlv_for_each_in_buf mem (attr + 4) l.

(** The word [tlv_init] and [tlv_set_raw_len] store: [len] counts the header. *)
Definition id_len_word (id : Z) (len : nat) : Z :=
  Z.lor (Z.land (u32 (Z.of_nat len - 4)) TLV_ATTR_LEN_MASK)
        (Z.land (u32 (Z.shiftl id TLV_ATTR_ID_SHIFT)) TLV_ATTR_ID_MASK).

Definition tlv_init (mem : list Z) (attr : nat) (id : Z) (len : nat) : option (list Z) :=
  wr32 mem attr (id_len_word id len).

Definition tlv_set_raw_len (mem : list Z) (attr : nat) (len : nat) : option (list Z) :=
  id ← tlv_id mem attr;
  wr32 mem attr (id_len_word id len).

Definition tlv_fill_pad (mem : list Z) (attr : nat) : option (list Z) :=
  len ← tlv_pad_len mem attr;
  raw ← tlv_raw_len mem attr;
  let delta := (len - raw)%nat in
  if decide (0 < delta)%nat then wrn mem (attr + len - delta) (replicate delta 0)
  else Some mem.

(** ** Buffers *)

(** [struct tlv_buf]: [head] as an offset; [buflen] is the size of [mem]. *)
Record tlv_buf := mk_tlv_buf { head : nat; mem : list Z }.

Definition buflen (b : tlv_buf) : nat := length (mem b).

Definition tlv_buffer_grow (m : list Z) (minlen : nat) : list Z :=
  let delta := ((minlen / 256 + 1) * 256)%nat in
  m ++ replicate delta 0.

(** Offsets survive [realloc], so [head] is unchanged. *)
Definition tlv_buf_grow (b : tlv_buf) (required : nat) : tlv_buf :=
  mk_tlv_buf (head b) (tlv_buffer_grow (mem b) required).

Definition tlv_add (b : tlv_buf) (pos : nat) (id : Z) (payload : nat) : option (tlv_buf * nat) :=
  let required := Z.of_nat (pos + 4 + payload) - Z.of_nat (buflen b) in
  let b := if decide (0 < required) then tlv_buf_grow b (Z.to_nat required) else b in
  m ← tlv_init (mem b) pos id (payload + 4);
  m ← tlv_fill_pad m pos;
  Some (mk_tlv_buf (head b) m, pos).

Definition tlv_buf_init (b : tlv_buf) (id : Z) : option tlv_buf :=
  '(b, _) ← tlv_add (mk_tlv_buf 0 (mem b)) 0 id 0;
  Some b.

Definition tlv_buf_free (b : tlv_buf) : tlv_buf := mk_tlv_buf (head b) [].

Definition tlv_new (b : tlv_buf) (id : Z) (payload : nat) : option (tlv_buf * nat) :=
  next ← tlv_next (mem b) (head b);
  '(b, attr) ← tlv_add b next id payload;
  l ← tlv_pad_len (mem b) (head b);
  l' ← tlv_pad_len (mem b) attr;
  m ← tlv_set_raw_len (mem b) (head b) (l + l');
  Some (mk_tlv_buf (head b) m, attr).

(** [None] in the result is the [NULL] of a too short [len]. *)
Definition tlv_put_raw (b : tlv_buf) (ptr : list Z) : option (tlv_buf * option nat) :=
  let len := length ptr in
  if decide (len < 4)%nat then Some (b, None)
  else
    next ← tlv_next (mem b) (head b);
    '(b, attr) ← tlv_add b next 0 (len - 4);
    l ← tlv_pad_len (mem b) (head b);
    m ← tlv_set_raw_len (mem b) (head b) (l + len);
    m ← wrn m attr ptr;
    Some (mk_tlv_buf (head b) m, Some attr).

(** [ptr] is [None] for a [NULL] pointer: the payload is left as it is. *)
Definition tlv_put (b : tlv_buf) (id : Z) (ptr : option (list Z)) (len : nat)
  : option (tlv_buf * nat) :=
  '(b, attr) ← tlv_new b id len;
  match ptr with
  | Some p =>
    p ← rdn p 0 len;
    m ← wrn (mem b) (attr + 4) p;
    Some (mk_tlv_buf (head b) m, attr)
  | None => Some (b, attr)
  end.

(** The cookie is the offset of the outer attribute. *)
Definition tlv_nest_start (b : tlv_buf) (id : Z) (len : nat) : option (tlv_buf * nat) :=
  let offset := head b in
  next ← tlv_next (mem b) (head b);
  '(b, attr) ← tlv_add b next id len;
  Some (mk_tlv_buf attr (mem b), offset).

Definition tlv_nest_end (b : tlv_buf) (cookie : nat) : option tlv_buf :=
  let attr := cookie in
  l ← tlv_pad_len (mem b) attr;
  l' ← tlv_raw_len (mem b) (head b);
  m ← tlv_set_raw_len (mem b) attr (l + l');
  Some (mk_tlv_buf attr m).

(** ** Comparison and sorting *)

(** A possibly [NULL] attribute in some block. *)
Definition tlv_attr_equal (a1 a2 : option (list Z * nat)) : option bool :=
  match a1, a2 with
  | None, None => Some true
  | Some (m1, p1), Some (m2, p2) =>
    l1 ← tlv_pad_len m1 p1;
    l2 ← tlv_pad_len m2 p2;
    if decide (l1 ≠ l2) then Some false
    else
      x ← rdn m1 p1 l1;
      y ← rdn m2 p2 l1;
      Some (bool_decide (memcmp x y = 0))
  | _, _ => Some false
  end.

Definition tlv_attr_cmp (a1 a2 : option (list Z * nat)) : option Z :=
  match a1, a2 with
  | None, None => Some 0
  | None, Some _ => Some (-1)
  | Some _, None => Some 1
  | Some (m1, p1), Some (m2, p2) =>
    h1 ← rdn m1 p1 4;
    h2 ← rdn m2 p2 4;
    let r := memcmp h1 h2 in
    if decide (r ≠ 0) then Some r
    else
      l ← tlv_raw_len m1 p1;
      x ← rdn m1 p1 l;
      y ← rdn m2 p2 l;
      Some (memcmp x y)
  end.

Definition tlv_memdup (m : list Z) (attr : nat) : option (list Z) :=
  size ← tlv_pad_len m attr; rdn m attr size.

(** The copy loop at the end of [tlv_sort]. *)
Fixpoint tlv_copy_sorted (m : list Z) (al : list nat) (tmp : list Z) (t : nat)
  : option (list Z * nat) :=
  match al with
  | [] => Some (tmp, t)
  | a :: al =>
    l ← tlv_pad_len m a;
    x ← rdn m a l;
    tmp ← wrn tmp t x;
    tlv_copy_sorted m al tmp (t + l)
  end.

Section sort.
(** [qsort] of the C library, on the attributes of a block. *)
Variable qsort : list Z -> list nat -> list nat.

(** [data] is the whole block, [len] its size. *)
Definition tlv_sort (data : list Z) : option (bool * list Z) :=
  let len := length data in
  let tmp := replicate len 0 in
  al ← tlv_for_each_in_buf data 0 len;
  if decide (length al <= 1)%nat then Some (true, data)
  else
    '(tmp, t) ← tlv_copy_sorted data (qsort data al) tmp 0;
    if decide (t ≠ len) then Some (false, data) else Some (true, tmp).
End sort.

(** ** The wire form of an attribute *)

Definition hdr (id : Z) (n : nat) : list Z := be32 (id * 65536 + Z.of_nat n).

(** Zero bytes after a payload of [n] bytes. *)
Definition padn (n : nat) : nat := (4 - n mod 4) mod 4.

Definition padding (n : nat) : list Z := replicate (padn n) 0.

Definition enc_attr (id : Z) (p : list Z) : list Z := hdr id (length p) ++ p ++ padding (length p).

Definition attr_ok (id : Z) (n : nat) : Prop := 0 <= id < 65536 /\ Z.of_nat n < 65536.

Lemma align4_padn n : align4 (n + 4) = (n + 4 + padn n)%nat.
Proof.
  unfold align4, padn. change (Z.lnot (4 - 1)) with (Z.lnot (Z.ones 2)).
  rewrite <- Z.ldiff_land, Z.ldiff_ones_r, Z.shiftr_div_pow2, Z.shiftl_mul_pow2 by lia.
  change (2 ^ 2) with 4. lia.
Qed.

Lemma padn_aligned n : ((n + padn n) mod 4 = 0)%nat.
Proof. unfold padn. lia. Qed.

Lemma length_be32 v : length (be32 v) = 4%nat.
Proof. done. Qed.

Lemma length_hdr id n : length (hdr id n) = 4%nat.
Proof. done. Qed.

Lemma length_padding n : length (padding n) = padn n.
Proof. apply length_replicate. Qed.

Lemma length_enc_attr id p : length (enc_attr id p) = (length p + 4 + padn (length p))%nat.
Proof. unfold enc_attr. rewrite !length_app, length_hdr, length_padding. lia. Qed.

Lemma be32_bytes v : bytes_ok (be32 v).
Proof. unfold bytes_ok, be32, byte_ok. repeat constructor; lia. Qed.

Lemma of_be32_be32 v : 0 <= v < 2 ^ 32 -> of_be32 (be32 v) = v.
Proof. intros Hv. unfold of_be32, be32. cbn [foldl]. lia. Qed.

Lemma be32_of_be32 l : bytes_ok l -> length l = 4%nat -> be32 (of_be32 l) = l.
Proof.
  intros Hb Hl. destruct l as [|a [|b [|c [|d [|]]]]]; try done.
  unfold bytes_ok in Hb. rewrite !Forall_cons in Hb. unfold byte_ok in Hb.
  unfold of_be32, be32. cbn [foldl]. repeat f_equal; lia.
Qed.

Lemma word_hdr id n v : 0 <= id < 65536 -> Z.of_nat n < 65536 -> v = id * 65536 + Z.of_nat n ->
  Z.shiftr (Z.land v TLV_ATTR_ID_MASK) TLV_ATTR_ID_SHIFT = id /\
  Z.land v TLV_ATTR_LEN_MASK = Z.of_nat n.
Proof.
  intros Hid Hn ->. unfold TLV_ATTR_ID_MASK, TLV_ATTR_ID_SHIFT, TLV_ATTR_LEN_MASK. split.
  - rewrite Z.shiftr_land. change (Z.shiftr 4294901760 16) with (Z.ones 16).
    rewrite Z.land_ones, Z.shiftr_div_pow2 by lia. lia.
  - change 65535 with (Z.ones 16). rewrite Z.land_ones by lia. lia.
Qed.

Lemma lor_shiftl_low a b n :
  0 <= n -> 0 <= a < 2 ^ n -> Z.lor a (Z.shiftl b n) = b * 2 ^ n + a.
Proof.
  intros Hn Ha. assert (Z.land a (Z.shiftl b n) = 0) as E.
  { rewrite <- (Z.mod_small a (2 ^ n)), <- Z.land_ones, <- Z.land_assoc by lia.
    rewrite (Z.land_comm (Z.ones n)), Z.land_ones, Z.shiftl_mul_pow2, Z.mod_mul, Z.land_0_r by lia. done. }
  pose proof (Zbitwise.Z.add_lor_land a (Z.shiftl b n)) as H. rewrite E in H.
  rewrite Z.shiftl_mul_pow2 in * by lia. lia.
Qed.

Lemma id_len_word_spec id len :
  attr_ok id (len - 4) -> (4 <= len)%nat ->
  id_len_word id len = id * 65536 + Z.of_nat (len - 4).
Proof.
  intros [Hid Hn] Hl. unfold id_len_word, u32, TLV_ATTR_ID_MASK, TLV_ATTR_ID_SHIFT, TLV_ATTR_LEN_MASK.
  rewrite (Z.mod_small (Z.shiftl id 16)) by (rewrite Z.shiftl_mul_pow2; lia).
  change 65535 with (Z.ones 16). change 4294901760 with (Z.shiftl (Z.ones 16) 16).
  rewrite <- Z.shiftl_land, !Z.land_ones by lia. rewrite (Z.mod_small id), lor_shiftl_low; lia.
Qed.

(** ** Reading an attribute in place *)

Section at_attr.
Context (pre rest : list Z) (id : Z) (n : nat) (Hok : attr_ok id n).
Notation m := (pre ++ hdr id n ++ rest).

Lemma rd32_hdr : rd32 m (length pre) = Some (id * 65536 + Z.of_nat n).
Proof using Hok.
  unfold rd32. rewrite rdn_app by done. cbn. f_equal. apply of_be32_be32. unfold attr_ok in Hok. lia.
Qed.

Lemma tlv_id_hdr : tlv_id m (length pre) = Some id.
Proof using Hok.
  unfold tlv_id. rewrite rd32_hdr. cbn. f_equal. destruct Hok.
  by apply (word_hdr id n).
Qed.

Lemma tlv_len_hdr : tlv_len m (length pre) = Some n.
Proof using Hok.
  unfold tlv_len. rewrite rd32_hdr. cbn. f_equal. destruct Hok.
  destruct (word_hdr id n (id * 65536 + Z.of_nat n)) as [_ ->]; [done..|]. lia.
Qed.

Lemma tlv_raw_len_hdr : tlv_raw_len m (length pre) = Some (n + 4)%nat.
Proof using Hok. unfold tlv_raw_len. by rewrite tlv_len_hdr. Qed.

Lemma tlv_pad_len_hdr : tlv_pad_len m (length pre) = Some (n + 4 + padn n)%nat.
Proof using Hok. unfold tlv_pad_len. rewrite tlv_raw_len_hdr. cbn. by rewrite align4_padn. Qed.

Lemma tlv_next_hdr : tlv_next m (length pre) = Some (length pre + (n + 4 + padn n))%nat.
Proof using Hok. unfold tlv_next. by rewrite tlv_pad_len_hdr. Qed.

Lemma tlv_set_raw_len_hdr n' :
  attr_ok id n' -> tlv_set_raw_len m (length pre) (n' + 4) = Some (pre ++ hdr id n' ++ rest).
Proof using Hok.
  intros Hok'. unfold tlv_set_raw_len. rewrite tlv_id_hdr. cbn [mbind option_bind].
  unfold wr32. rewrite wrn_app by done. rewrite id_len_word_spec by (rewrite ?Nat.add_sub; done || lia).
  by rewrite Nat.add_sub.
Qed.
End at_attr.

(** ** Iteration *)

(** The id and payload of an attribute. *)
Definition tlv_read (m : list Z) (p : nat) : option (Z * list Z) :=
  id ← tlv_id m p; d ← tlv_payload m p; Some (id, d).

(** What a loop over a block sees. *)
Definition tlv_list (m : list Z) (buf len : nat) : option (list (Z * list Z)) :=
  ps ← tlv_for_each_in_buf m buf len; mapM (tlv_read m) ps.

Definition enc (ts : list (Z * list Z)) : list Z := flat_map (fun t => enc_attr t.1 t.2) ts.

Definition tlvs_ok (ts : list (Z * list Z)) : Prop := Forall (fun t => attr_ok t.1 (length t.2)) ts.

Lemma rd32_Some m p : (p + 4 <= length m)%nat -> exists v, rd32 m p = Some v.
Proof. intros. unfold rd32. rewrite rdn_Some by done. by eexists. Qed.

Lemma tlv_raw_len_Some m p :
  (p + 4 <= length m)%nat -> exists n, tlv_len m p = Some n /\ tlv_raw_len m p = Some (n + 4)%nat /\
    tlv_next m p = Some (p + (n + 4 + padn n))%nat.
Proof.
  intros Hp. destruct (rd32_Some m p Hp) as [v E]. unfold tlv_next, tlv_pad_len, tlv_raw_len, tlv_len.
  rewrite E. cbn. eexists; split; [done|]. split; [done|]. by rewrite align4_padn.
Qed.

(** A position the loop may visit: header and payload are inside the block. *)
Definition inside (m : list Z) (buf len p : nat) : Prop :=
  (buf <= p)%nat /\ exists id d, tlv_read m p = Some (id, d) /\ (p + 4 + length d <= buf + len)%nat.

Lemma tlv_iter_inside fuel m buf len pos :
  (buf + len <= length m)%nat -> (buf <= pos)%nat -> (buf + len < pos + fuel)%nat -> (0 < fuel)%nat ->
  exists ps, tlv_iter fuel m buf len pos = Some ps /\ Forall (inside m buf len) ps /\
    Sorted (fun p q => p + 4 <= q)%nat ps /\
    match ps with [] => True | p :: _ => p = pos end.
Proof.
  revert pos; induction fuel as [|fuel IH]; intros pos Hm Hpos Hf H0; [lia|]. cbn [tlv_iter].
  case_decide as H4; [|by exists []].
  destruct (tlv_raw_len_Some m pos) as (n & En & Er & Enext); [lia|].
  rewrite Er. cbn [mbind option_bind]. rewrite decide_True by lia.
  case_decide as Hin; [|by exists []]. rewrite Enext. cbn [mbind option_bind].
  destruct (IH (pos + (n + 4 + padn n))%nat) as (ps & -> & Hall & Hsort & Hhd); [lia..|].
  cbn [mbind option_bind]. exists (pos :: ps). split; [done|]. split; [|split; [|done]].
  - constructor; [|done]. split; [done|].
    destruct (rd32_Some m pos) as [v Ev]; [lia|].
    unfold tlv_read, tlv_id, tlv_payload. rewrite En, Ev. cbn [mbind option_bind].
    rewrite rdn_Some by lia. cbn [mbind option_bind]. do 2 eexists. split; [done|].
    rewrite length_take, length_drop. lia.
  - constructor; [done|]. destruct ps as [|q ps]; constructor. subst. lia.
Qed.

(** Walking the TLVs of a buffer never leaves it. *)
Lemma tlv_list_total m buf len : (buf + len <= length m)%nat -> is_Some (tlv_list m buf len).
Proof.
  intros Hl. unfold tlv_list, tlv_for_each_in_buf.
  destruct (tlv_iter_inside (len + 1) m buf len buf) as (ps & -> & Hall & _); [lia..|]. cbn [mbind option_bind].
  apply mapM_is_Some_2. eapply Forall_impl; [exact Hall|]. intros p (_ & id & d & Hr & _). eexists; exact Hr.
Qed.

(** C28: The loop over an arbitrary buffer never reads outside of it, ends, and visits
    increasing positions whose header and payload lie within the buffer. *)
Theorem tlv_for_each_in_buf_safe m buf len :
  (buf + len <= length m)%nat ->
  exists ps, tlv_for_each_in_buf m buf len = Some ps /\
    Sorted (fun p q => p + 4 <= q)%nat ps /\
    Forall (fun p => (buf <= p)%nat /\ exists id d, tlv_read m p = Some (id, d) /\
                     (p + 4 + length d <= buf + len)%nat) ps.
Proof.
  intros Hm. destruct (tlv_iter_inside (len + 1) m buf len buf) as (ps & E & H1 & H2 & _); [lia..|].
  by exists ps.
Qed.

Lemma enc_cons id d ts : enc ((id, d) :: ts) = enc_attr id d ++ enc ts.
Proof. done. Qed.

Lemma tlv_read_enc pre id d rest :
  attr_ok id (length d) -> tlv_read (pre ++ hdr id (length d) ++ d ++ rest) (length pre) = Some (id, d).
Proof.
  intros Hok. unfold tlv_read, tlv_payload. rewrite tlv_id_hdr, tlv_len_hdr by done.
  cbn [mbind option_bind]. 
  replace (length pre + 4)%nat with (length (pre ++ hdr id (length d))) by (by rewrite length_app).
  rewrite app_assoc, rdn_app by done. done.
Qed.

(** [t] is at offset [p] of [m]. *)
Definition at_pos (m : list Z) (p : nat) (t : Z * list Z) : Prop :=
  attr_ok t.1 (length t.2) /\ exists pre rest, m = pre ++ enc_attr t.1 t.2 ++ rest /\ length pre = p.

Lemma enc_attr_app id p rest :
  enc_attr id p ++ rest = hdr id (length p) ++ p ++ padding (length p) ++ rest.
Proof. unfold enc_attr. by rewrite <- !app_assoc. Qed.

Lemma at_pos_read m p t : at_pos m p t -> tlv_read m p = Some t.
Proof.
  destruct t as [id d]. intros (Hok & pre & rest & -> & <-). cbn [fst snd] in *.
  rewrite enc_attr_app. by apply tlv_read_enc.
Qed.

Lemma at_pos_lens m p t :
  at_pos m p t -> tlv_raw_len m p = Some (length t.2 + 4)%nat /\
    tlv_pad_len m p = Some (length (enc_attr t.1 t.2)) /\
    tlv_next m p = Some (p + length (enc_attr t.1 t.2))%nat /\
    rdn m p (length (enc_attr t.1 t.2)) = Some (enc_attr t.1 t.2) /\
    (p + length (enc_attr t.1 t.2) <= length m)%nat.
Proof.
  destruct t as [id d]. intros (Hok & pre & rest & -> & <-). cbn [fst snd] in *.
  rewrite rdn_app by done. rewrite length_enc_attr, !length_app, length_enc_attr, enc_attr_app.
  rewrite tlv_raw_len_hdr, tlv_pad_len_hdr, tlv_next_hdr by done. repeat split; lia.
Qed.

(** The offsets of consecutive attributes. *)
Fixpoint offsets (p : nat) (ts : list (Z * list Z)) : list nat :=
  match ts with
  | [] => []
  | t :: ts => p :: offsets (p + length (enc_attr t.1 t.2)) ts
  end.

Lemma offsets_at_pos ts pre post :
  tlvs_ok ts -> Forall2 (at_pos (pre ++ enc ts ++ post)) (offsets (length pre) ts) ts.
Proof.
  revert pre; induction ts as [|[id d] ts IH]; intros pre Hok; [constructor|].
  apply Forall_cons in Hok as [Hd Hok]. rewrite enc_cons, <- app_assoc. constructor.
  - split; [done|]. by exists pre, (enc ts ++ post).
  - rewrite (app_assoc pre), <- length_app. by apply IH.
Qed.

Lemma tlv_iter_enc ts buf pre post fuel :
  tlvs_ok ts -> (length (enc ts) < fuel)%nat -> (buf <= length pre)%nat ->
  tlv_iter fuel (pre ++ enc ts ++ post) buf (length pre + length (enc ts) - buf) (length pre) =
  Some (offsets (length pre) ts).
Proof.
  revert pre fuel; induction ts as [|[id d] ts IH]; intros pre fuel Hok Hf Hpre;
    (destruct fuel as [|fuel]; [lia|]).
  { cbn [tlv_iter]. by rewrite decide_False by (simpl; lia). }
  pose proof (offsets_at_pos _ pre post Hok) as Hat. cbn [offsets] in Hat.
  apply Forall2_cons in Hat as [Hd _].
  apply Forall_cons in Hok as [_ Hok].
  destruct (at_pos_lens _ _ _ Hd) as (Er & _ & En & _ & _). cbn [fst snd] in Er, En.
  rewrite enc_cons in *. rewrite length_app in Hf |- *. rewrite length_enc_attr in *.
  specialize (IH (pre ++ enc_attr id d) fuel Hok ltac:(lia) ltac:(len_solve)).
  rewrite <- !app_assoc in *. rewrite length_app, length_enc_attr in IH.
  cbn [tlv_iter offsets fst snd]. rewrite decide_True by lia.
  rewrite Er, En. cbn [mbind option_bind]. rewrite !decide_True by lia.
  replace (length pre + (length d + 4 + padn (length d) + length (enc ts)) - buf)%nat
    with (length pre + (length d + 4 + padn (length d)) + length (enc ts) - buf)%nat by lia.
  rewrite IH. cbn [mbind option_bind]. by rewrite length_enc_attr.
Qed.

Lemma tlv_for_each_offsets pre ts post :
  tlvs_ok ts -> tlv_for_each_in_buf (pre ++ enc ts ++ post) (length pre) (length (enc ts)) =
    Some (offsets (length pre) ts).
Proof.
  intros Hok. unfold tlv_for_each_in_buf.
  pose proof (tlv_iter_enc ts (length pre) pre post (length (enc ts) + 1) Hok ltac:(lia) ltac:(lia)) as E.
  by rewrite Nat.add_sub_swap, Nat.sub_diag, Nat.add_0_l in E by lia.
Qed.

Lemma tlv_for_each_enc pre ts post :
  tlvs_ok ts -> exists ps,
    tlv_for_each_in_buf (pre ++ enc ts ++ post) (length pre) (length (enc ts)) = Some ps /\
    Forall2 (at_pos (pre ++ enc ts ++ post)) ps ts.
Proof. intros Hok. rewrite tlv_for_each_offsets by done. eauto using offsets_at_pos. Qed.

Lemma tlv_list_enc_at pre ts post :
  tlvs_ok ts -> tlv_list (pre ++ enc ts ++ post) (length pre) (length (enc ts)) = Some ts.
Proof.
  intros Hok. unfold tlv_list. destruct (tlv_for_each_enc pre ts post Hok) as (ps & -> & Hps).
  cbn [mbind option_bind]. apply mapM_Some_2. eapply Forall2_impl; [done|]. apply at_pos_read.
Qed.

(** ** Building *)

(** The open attribute at [head]: [pre] is what precedes it, [p] its payload so
    far.  The block is a multiple of 256 bytes, which is why [tlv_add] may
    forget the padding when it computes what is missing. *)
Definition holds (b : tlv_buf) (pre : list Z) (id : Z) (p : list Z) : Prop :=
  attr_ok id (length p) /\ head b = length pre /\ (length pre mod 4 = 0)%nat /\
  (length (mem b) mod 256 = 0)%nat /\ exists rest, mem b = pre ++ enc_attr id p ++ rest.

(** The payload of an open attribute after one more has been put in it. *)
Definition put_in (p : list Z) (id : Z) (d : list Z) : list Z :=
  p ++ padding (length p) ++ enc_attr id d.

Lemma padding_aligned n : (n mod 4 = 0)%nat -> padding n = [].
Proof. intros Hn. unfold padding, padn. by replace ((4 - n mod 4) mod 4)%nat with 0%nat by lia. Qed.

Lemma length_put_in p id d :
  length (put_in p id d) = (length p + padn (length p) + (length d + 4 + padn (length d)))%nat.
Proof. unfold put_in. rewrite !length_app, length_padding, length_enc_attr. lia. Qed.

Lemma put_in_aligned p id d : (length (put_in p id d) mod 4 = 0)%nat.
Proof. rewrite length_put_in. unfold padn. lia. Qed.

Lemma grown_block (m : list Z) (need : nat) :
  (length m mod 256 = 0)%nat ->
  let r := Z.of_nat need - Z.of_nat (length m) in
  exists ext, (if decide (0 < r) then tlv_buffer_grow m (Z.to_nat r) else m) = m ++ ext /\
    (length (m ++ ext) mod 256 = 0)%nat /\ (need + padn need <= length (m ++ ext))%nat.
Proof.
  intros Hm r. unfold padn. case_decide.
  - eexists; split; [done|]. rewrite length_app, length_replicate. lia.
  - exists []. rewrite app_nil_r. split; [done|]. lia.
Qed.

Lemma tlv_add_spec b pre rest id n :
  mem b = pre ++ rest -> (length pre mod 4 = 0)%nat -> (length (mem b) mod 256 = 0)%nat ->
  attr_ok id n ->
  exists d rest', tlv_add b (length pre) id n =
      Some (mk_tlv_buf (head b) (pre ++ hdr id n ++ d ++ padding n ++ rest'), length pre) /\
    length d = n /\ (length (pre ++ hdr id n ++ d ++ padding n ++ rest') mod 256 = 0)%nat.
Proof.
  intros Em Hp Hm Hok. unfold tlv_add, buflen.
  destruct (grown_block (mem b) (length pre + 4 + n) Hm) as (ext & Eg & Hg & Hroom).
  rewrite Em in *. rewrite <- app_assoc in Hg, Hroom, Eg. rewrite length_app in Hroom.
  destruct (split_at (rest ++ ext) 4) as (h & r1 & E1 & Hh); [lia|].
  destruct (split_at r1 n) as (d & r2 & -> & Hd).
  { apply (f_equal length) in E1. rewrite !length_app in *. lia. }
  destruct (split_at r2 (padn n)) as (z & r3 & -> & Hz).
  { apply (f_equal length) in E1. rewrite !length_app in *. unfold padn in *. lia. }
  exists d, r3. rewrite E1 in *.
  match goal with |- context [tlv_init (mem ?g)] =>
    assert (g = mk_tlv_buf (head b) (pre ++ h ++ d ++ z ++ r3)) as -> end.
  { rewrite <- Eg. case_decide; [by unfold tlv_buf_grow; rewrite Em|]. destruct b; simpl in *; congruence. }
  clear Eg. cbn [mem head]. unfold tlv_init, wr32. rewrite wrn_app by done. cbn [mbind option_bind].
  rewrite id_len_word_spec, Nat.add_sub by (rewrite ?Nat.add_sub; done || lia). fold (hdr id n).
  unfold tlv_fill_pad. rewrite tlv_pad_len_hdr, tlv_raw_len_hdr by done. cbn [mbind option_bind].
  replace (n + 4 + padn n - (n + 4))%nat with (padn n) by lia.
  split; [|split; [done|]].
  - case_decide as E0.
    + replace (length pre + (n + 4 + padn n) - padn n)%nat with (length (pre ++ hdr id n ++ d))
        by (rewrite !length_app, length_hdr; lia).
      replace (pre ++ hdr id n ++ d ++ z ++ r3) with ((pre ++ hdr id n ++ d) ++ z ++ r3)
        by (by rewrite <- !app_assoc).
      rewrite wrn_app by (by rewrite length_replicate). cbn. by rewrite <- !app_assoc.
    + assert (padn n = 0)%nat as E by lia. unfold padding. rewrite E in *. by destruct z.
  - rewrite !length_app in *. rewrite length_padding, length_hdr. lia.
Qed.

(** Putting [d] into the open attribute, one step before its payload is known. *)
Lemma tlv_new_at b pre id p id' n :
  holds b pre id p -> attr_ok id' n ->
  Z.of_nat (length p + padn (length p) + (n + 4 + padn n)) < 65536 ->
  exists d rest', tlv_new b id' n =
      Some (mk_tlv_buf (head b) (pre ++ enc_attr id (put_in p id' d) ++ rest'),
            length (pre ++ enc_attr id p)) /\
    length d = n /\ (length (pre ++ enc_attr id (put_in p id' d) ++ rest') mod 256 = 0)%nat.
Proof.
  intros (Hok & Hh & Hp & Hm & rest & Em) Hok' Hfit. unfold tlv_new.
  assert (Hok2 := Hok). destruct Hok2 as [Hid _].
  rewrite Hh, Em, enc_attr_app, tlv_next_hdr by done. cbn [mbind option_bind].
  replace (length pre + (length p + 4 + padn (length p)))%nat with (length (pre ++ enc_attr id p))
    by (rewrite length_app, length_enc_attr; lia).
  destruct (tlv_add_spec b (pre ++ enc_attr id p) rest id' n) as (d & rest' & -> & Hd & Hlen);
    [by rewrite <- app_assoc| |done|done|].
  { rewrite length_app, length_enc_attr. unfold padn. lia. }
  cbn [mbind option_bind mem head].
  replace ((pre ++ enc_attr id p) ++ hdr id' n ++ d ++ padding n ++ rest')
    with (pre ++ hdr id (length p) ++ p ++ padding (length p) ++ enc_attr id' d ++ rest') in *.
  2: { rewrite (enc_attr_app id'), <- app_assoc, enc_attr_app, Hd. done. }
  rewrite Hh, tlv_pad_len_hdr by done. cbn [mbind option_bind].
  assert (pre ++ hdr id (length p) ++ p ++ padding (length p) ++ enc_attr id' d ++ rest' =
    (pre ++ enc_attr id p) ++ hdr id' n ++ d ++ padding n ++ rest') as E2.
  { rewrite (enc_attr_app id'), <- app_assoc, enc_attr_app, Hd. done. }
  assert (tlv_pad_len (pre ++ hdr id (length p) ++ p ++ padding (length p) ++ enc_attr id' d ++ rest')
    (length (pre ++ enc_attr id p)) = Some (n + 4 + padn n)%nat) as -> by (rewrite E2; by apply tlv_pad_len_hdr).
  cbn [mbind option_bind].
  replace (length p + 4 + padn (length p) + (n + 4 + padn n))%nat with (length (put_in p id' d) + 4)%nat
    by (rewrite length_put_in, Hd; lia).
  rewrite tlv_set_raw_len_hdr by (done || (split; [done|]; rewrite length_put_in, Hd; lia)).
  cbn [mbind option_bind]. exists d, rest'.
  assert (pre ++ hdr id (length (put_in p id' d)) ++ p ++ padding (length p) ++ enc_attr id' d ++ rest' =
    pre ++ enc_attr id (put_in p id' d) ++ rest') as ->.
  { rewrite (enc_attr_app id (put_in _ _ _)), (padding_aligned (length (put_in p id' d))) by apply put_in_aligned.
    unfold put_in. by rewrite <- !app_assoc. }
  split; [done|]. split; [done|]. rewrite ?length_app, ?length_enc_attr, ?length_put_in, ?length_padding, ?length_hdr in *.
  unfold padn in *. lia.
Qed.

(** The memory of an open attribute once its payload is copied. *)
Lemma holds_payload b pre id p id' d d' rest :
  holds b pre id p -> Z.of_nat (length (put_in p id' d')) < 65536 -> length d = length d' ->
  (length (pre ++ enc_attr id (put_in p id' d) ++ rest) mod 256 = 0)%nat ->
  wrn (pre ++ enc_attr id (put_in p id' d) ++ rest) (length (pre ++ enc_attr id p) + 4) d' =
    Some (pre ++ enc_attr id (put_in p id' d') ++ rest) /\
  holds (mk_tlv_buf (head b) (pre ++ enc_attr id (put_in p id' d') ++ rest)) pre id (put_in p id' d').
Proof.
  intros (Hok & Hh & Hp & Hm & _) Hfit Hd Hlen.
  assert (Hsplit : forall x, length x = length d ->
    pre ++ enc_attr id (put_in p id' x) ++ rest =
    (pre ++ hdr id (length (put_in p id' d)) ++ p ++ padding (length p) ++ hdr id' (length d)) ++
      x ++ padding (length d) ++ rest).
  { intros x Hx. rewrite (enc_attr_app id (put_in p id' x)), (padding_aligned (length (put_in p id' x)))
      by apply put_in_aligned.
    rewrite !length_put_in, Hx. unfold put_in, enc_attr. rewrite <- !app_assoc, Hx. done. }
  split.
  - rewrite (Hsplit d), (Hsplit d') by done.
    replace (length (pre ++ enc_attr id p) + 4)%nat with (length (pre ++ hdr id (length (put_in p id' d)) ++
      p ++ padding (length p) ++ hdr id' (length d))); [by apply wrn_app|].
    rewrite !length_app, !length_hdr, length_enc_attr, length_padding. lia.
  - destruct Hok as [Hid _]. split; [split; [done|lia]|]. cbn [head mem]. do 2 (split; [done|]). split; [|by eexists].
    by rewrite !length_app, !length_enc_attr, !length_put_in, Hd in *.
Qed.

Lemma tlv_put_holds b pre id p id' d :
  holds b pre id p -> 0 <= id' < 65536 -> Z.of_nat (length (put_in p id' d)) < 65536 ->
  exists b' attr, tlv_put b id' (Some d) (length d) = Some (b', attr) /\
    holds b' pre id (put_in p id' d) /\ tlv_read (mem b') attr = Some (id', d).
Proof.
  intros Hb Hid Hfit. unfold tlv_put. pose proof Hfit as Hfit'. rewrite length_put_in in Hfit'.
  destruct (tlv_new_at b pre id p id' (length d)) as (x & rest & -> & Hx & Hlen); [done|split; [done|lia]|lia|].
  cbn [mbind option_bind mem head]. rewrite rdn_Some by lia. cbn [mbind option_bind].
  rewrite drop_0, take_ge by done.
  destruct (holds_payload b pre id p id' x d rest) as [-> Hb']; [done|done|done|done|].
  cbn [mbind option_bind]. do 2 eexists. split; [done|]. split; [done|]. cbn [mem].
  assert (pre ++ enc_attr id (put_in p id' d) ++ rest =
    (pre ++ hdr id (length (put_in p id' d)) ++ p ++ padding (length p)) ++
    hdr id' (length d) ++ d ++ padding (length d) ++ rest) as ->.
  { rewrite (enc_attr_app id (put_in p id' d)), (padding_aligned (length (put_in p id' d))) by apply put_in_aligned.
    unfold put_in, enc_attr. by rewrite <- !app_assoc. }
  replace (length (pre ++ enc_attr id p)) with
    (length (pre ++ hdr id (length (put_in p id' d)) ++ p ++ padding (length p))).
  - apply tlv_read_enc. split; [done|lia].
  - rewrite !length_app, length_hdr, length_enc_attr, length_padding. lia.
Qed.

(** A loop of [tlv_put]. *)
Fixpoint tlv_puts (b : tlv_buf) (ts : list (Z * list Z)) : option tlv_buf :=
  match ts with
  | [] => Some b
  | (id, d) :: ts => '(b, _) ← tlv_put b id (Some d) (length d); tlv_puts b ts
  end.

Lemma enc_app ts us : enc (ts ++ us) = enc ts ++ enc us.
Proof. unfold enc. by rewrite flat_map_app. Qed.

Lemma enc_aligned ts : (length (enc ts) mod 4 = 0)%nat.
Proof.
  induction ts as [|[id d] ts IH]; [done|]. rewrite enc_cons, length_app, length_enc_attr.
  unfold padn. lia.
Qed.

Lemma put_in_enc ts id d : put_in (enc ts) id d = enc (ts ++ [(id, d)]).
Proof.
  unfold put_in. rewrite enc_app, padding_aligned by apply enc_aligned.
  unfold enc at 3. simpl. by rewrite app_nil_r.
Qed.

Lemma put_in_app_enc q ts id d : (length q mod 4 = 0)%nat ->
  put_in (q ++ enc ts) id d = q ++ enc (ts ++ [(id, d)]).
Proof.
  intros Hq. pose proof (enc_aligned ts). unfold put_in.
  rewrite enc_app, padding_aligned by (rewrite length_app; lia).
  unfold enc at 3. simpl. by rewrite app_nil_r, <- app_assoc.
Qed.

Lemma tlv_buf_init_holds b id :
  (buflen b mod 256 = 0)%nat -> 0 <= id < 65536 ->
  exists b', tlv_buf_init b id = Some b' /\ holds b' [] id [].
Proof.
  intros Hb Hid. unfold tlv_buf_init.
  destruct (tlv_add_spec (mk_tlv_buf 0 (mem b)) [] (mem b) id 0) as (d & rest & E & Hd & Hl);
    [done|done|done|split; [done|lia]|].
  cbn [length] in E. rewrite E. cbn [mbind option_bind]. eexists; split; [done|].
  split; [split; [done|cbn; lia]|]. do 2 (split; [done|]). split; [done|].
  exists rest. destruct d; [|done]. done.
Qed.

Lemma tlv_puts_holds b pre id q us ts :
  holds b pre id (q ++ enc us) -> (length q mod 4 = 0)%nat -> tlvs_ok ts ->
  Z.of_nat (length (q ++ enc (us ++ ts))) < 65536 ->
  exists b', tlv_puts b ts = Some b' /\ holds b' pre id (q ++ enc (us ++ ts)).
Proof.
  revert b us; induction ts as [|[id' d] ts IH]; intros b us Hb Hq Hok Hfit.
  { exists b. by rewrite app_nil_r. }
  apply Forall_cons in Hok as [[Hid _] Hok]. cbn [tlv_puts].
  replace (us ++ (id', d) :: ts) with ((us ++ [(id', d)]) ++ ts) in * by (by rewrite <- app_assoc).
  pose proof Hfit as Hfit'. rewrite length_app, enc_app, length_app in Hfit'.
  destruct (tlv_put_holds b pre id (q ++ enc us) id' d) as (b' & a & -> & Hb' & _); [done|done| |].
  { rewrite put_in_app_enc, length_app by done. lia. }
  cbn [mbind option_bind]. apply IH; [|done..]. by rewrite <- put_in_app_enc.
Qed.

(** C27: TLVs put into a fresh buffer one after the other, through every reallocation, are read
    back by the loop over the buffer unchanged and in order. *)
Theorem tlv_build_read b id ts :
  (buflen b mod 256 = 0)%nat -> 0 <= id < 65536 -> tlvs_ok ts -> Z.of_nat (length (enc ts)) < 65536 ->
  exists b0 b1 n, tlv_buf_init b id = Some b0 /\ tlv_puts b0 ts = Some b1 /\
    tlv_id (mem b1) (head b1) = Some id /\ tlv_len (mem b1) (head b1) = Some n /\
    tlv_list (mem b1) (head b1 + 4) n = Some ts.
Proof.
  intros Hb Hid Hok Hfit. destruct (tlv_buf_init_holds b id Hb Hid) as (b0 & E0 & H0).
  destruct (tlv_puts_holds b0 [] id [] [] ts) as (b1 & E1 & (Hok1 & Hh & _ & _ & rest & Em)); [done..|].
  cbn [app] in Hok1, Em. exists b0, b1, (length (enc ts)). do 2 (split; [done|]).
  rewrite Hh, Em, (enc_attr_app id). cbn [app length].
  split; [by apply (tlv_id_hdr [])|]. split; [by apply (tlv_len_hdr [])|].
  apply (tlv_list_enc_at (hdr id (length (enc ts)))). done.
Qed.

(** ** Nesting *)

Lemma tlv_nest_start_holds b pre id p id' n :
  holds b pre id p -> attr_ok id' n ->
  exists b' d, tlv_nest_start b id' n = Some (b', length pre) /\ length d = n /\
    holds b' (pre ++ enc_attr id p) id' d.
Proof.
  intros (Hok & Hh & Hp & Hm & rest & Em) Hok'. unfold tlv_nest_start.
  rewrite Hh, Em, enc_attr_app, tlv_next_hdr by done. cbn [mbind option_bind].
  replace (length pre + (length p + 4 + padn (length p)))%nat with (length (pre ++ enc_attr id p))
    by (rewrite length_app, length_enc_attr; lia).
  assert (Ha : (length (pre ++ enc_attr id p) mod 4 = 0)%nat).
  { rewrite length_app, length_enc_attr. unfold padn. lia. }
  destruct (tlv_add_spec b (pre ++ enc_attr id p) rest id' n) as (d & rest' & -> & Hd & Hlen);
    [by rewrite <- app_assoc|done..|].
  cbn [mbind option_bind]. do 2 eexists. split; [done|]. split; [exact Hd|]. subst n.
  split; [done|]. cbn [head mem]. do 3 (split; [done|]). exists rest'. by rewrite enc_attr_app.
Qed.

Lemma tlv_nest_end_holds b pre id p id' q :
  holds b (pre ++ enc_attr id p) id' q -> attr_ok id (length p) -> (length pre mod 4 = 0)%nat ->
  Z.of_nat (length (put_in p id' q)) < 65536 -> (length q mod 4 = 0)%nat ->
  exists b', tlv_nest_end b (length pre) = Some b' /\ holds b' pre id (put_in p id' q).
Proof.
  intros (Hok' & Hh & Hp' & Hm & rest & Em) Hok Hp Hfit Hq. unfold tlv_nest_end.
  assert (tlv_raw_len (mem b) (head b) = Some (length q + 4)%nat) as ->.
  { rewrite Hh, Em, (enc_attr_app id'). by apply tlv_raw_len_hdr. }
  assert (mem b = pre ++ hdr id (length p) ++ p ++ padding (length p) ++ enc_attr id' q ++ rest) as E.
  { by rewrite Em, <- app_assoc, (enc_attr_app id p). }
  rewrite E, tlv_pad_len_hdr by done. cbn [mbind option_bind].
  replace (length p + 4 + padn (length p) + (length q + 4))%nat with (length (put_in p id' q) + 4)%nat.
  2: { rewrite length_put_in. unfold padn. lia. }
  destruct Hok as [Hid Hpl]. rewrite tlv_set_raw_len_hdr by done. cbn [mbind option_bind].
  assert (E2 : pre ++ hdr id (length (put_in p id' q)) ++ p ++ padding (length p) ++ enc_attr id' q ++ rest =
    pre ++ enc_attr id (put_in p id' q) ++ rest).
  { rewrite (enc_attr_app id (put_in p id' q)), (padding_aligned (length (put_in p id' q)))
      by apply put_in_aligned. unfold put_in. by rewrite <- !app_assoc. }
  eexists; split; [done|]. split; [done|]. cbn [head mem]. do 2 (split; [done|]).
  rewrite E2. split; [|by eexists]. rewrite <- E2. rewrite E in Hm.
  rewrite !length_app, !length_hdr in *. lia.
Qed.

(** Opening a nested TLV, putting TLVs into it and closing it appends exactly one TLV, whose
    payload is their encoding, to the open container. *)
Theorem tlv_nest_appends b pre id p id' ts :
  holds b pre id p -> 0 <= id' < 65536 -> tlvs_ok ts ->
  Z.of_nat (length (put_in p id' (enc ts))) < 65536 ->
  exists b1 c b2 b3, tlv_nest_start b id' 0 = Some (b1, c) /\ tlv_puts b1 ts = Some b2 /\
    tlv_nest_end b2 c = Some b3 /\ holds b3 pre id (put_in p id' (enc ts)).
Proof.
  intros Hb Hid Hok Hfit. pose proof Hfit as Hfit'. rewrite length_put_in in Hfit'.
  destruct (tlv_nest_start_holds b pre id p id' 0) as (b1 & d & E1 & Hd & H1); [done|split; [done|lia]|].
  destruct d; [|done].
  destruct (tlv_puts_holds b1 (pre ++ enc_attr id p) id' [] [] ts) as (b2 & E2 & H2); [done|done|done|simpl; lia|].
  destruct Hb as (Hokp & _ & Hp & _).
  destruct (tlv_nest_end_holds b2 pre id p id' (enc ts)) as (b3 & E3 & H3); [done..|apply enc_aligned|].
  by exists b1, (length pre), b2, b3.
Qed.

(** ** Sorting *)

(** The bytes that decide the order: header and payload, no padding. *)
Definition raw (t : Z * list Z) : list Z := hdr t.1 (length t.2) ++ t.2.

Definition tlv_cmp (t1 t2 : Z * list Z) : Z := memcmp (raw t1) (raw t2).

(** What [qsort] promises: the same elements, in the order of the comparison. *)
Class QSort (qsort : list Z -> list nat -> list nat) := {
  qsort_perm m al : qsort m al ≡ₚ al;
  qsort_sorted m al ts : Forall2 (at_pos m) al ts ->
    Sorted (fun p q => exists r, tlv_attr_cmp (Some (m, p)) (Some (m, q)) = Some r /\ r <= 0) (qsort m al)
}.

Lemma memcmp_app a a' b b' :
  length a = length b -> memcmp (a ++ a') (b ++ b') = (if decide (memcmp a b = 0) then memcmp a' b' else memcmp a b).
Proof.
  revert b; induction a as [|x a IH]; intros [|y b] Hl; try done. injection Hl as Hl.
  cbn [app memcmp]. case_decide; [by apply IH|]. by rewrite decide_False by lia.
Qed.

Lemma memcmp_0 a b : length a = length b -> memcmp a b = 0 <-> a = b.
Proof.
  revert b; induction a as [|x a IH]; intros [|y b] Hl; try done. injection Hl as Hl.
  cbn [memcmp]. case_decide as E; [subst; rewrite IH by done; split; congruence|].
  split; [lia|congruence].
Qed.

Lemma hdr_inj id n id' n' :
  attr_ok id n -> attr_ok id' n' -> hdr id n = hdr id' n' -> id = id' /\ n = n'.
Proof.
  intros [H1 H2] [H3 H4] E. apply (f_equal of_be32) in E. unfold hdr in E.
  rewrite !of_be32_be32 in E by lia. lia.
Qed.

Lemma length_raw t : length (raw t) = (length t.2 + 4)%nat.
Proof. unfold raw. rewrite length_app, length_hdr. lia. Qed.

(** [tlv_attr_cmp] on two attributes in place. *)
Lemma tlv_attr_cmp_at m1 p1 t1 m2 p2 t2 :
  at_pos m1 p1 t1 -> at_pos m2 p2 t2 ->
  tlv_attr_cmp (Some (m1, p1)) (Some (m2, p2)) = Some (tlv_cmp t1 t2).
Proof.
  intros H1 H2. unfold tlv_attr_cmp. destruct (at_pos_lens _ _ _ H1) as (Er & _).
  destruct H1 as (Hok1 & a1 & b1 & -> & <-), H2 as (Hok2 & a2 & b2 & -> & <-).
  destruct t1 as [i1 d1], t2 as [i2 d2]. cbn [fst snd] in *. rewrite !enc_attr_app in *.
  rewrite !rdn_app by done. cbn [mbind option_bind]. unfold tlv_cmp, raw. cbn [fst snd].
  rewrite memcmp_app by done. case_decide as E.
  { by rewrite decide_False. }
  rewrite decide_True by (destruct (decide (memcmp (hdr i1 (length d1)) (hdr i2 (length d2)) = 0)); done).
  rewrite Er. cbn [mbind option_bind].
  assert (memcmp (hdr i1 (length d1)) (hdr i2 (length d2)) = 0) as E0 by (by destruct (decide (memcmp (hdr i1 (length d1)) (hdr i2 (length d2)) = 0))).
  apply memcmp_0 in E0; [|done]. apply hdr_inj in E0 as [-> El]; [|done..].
  rewrite !(app_assoc (hdr _ _)), !rdn_app by (rewrite length_app, length_hdr; lia). cbn [mbind option_bind].
  rewrite memcmp_app by (by rewrite El). by rewrite decide_True by (by rewrite El; apply memcmp_0).
Qed.

Lemma memcmp_antisym a b : memcmp b a = - memcmp a b.
Proof.
  revert b; induction a as [|x a IH]; intros [|y b]; try done. cbn [memcmp].
  repeat case_decide; subst; try done. lia.
Qed.

Lemma memcmp_trans a b c :
  length a = length b -> length b = length c -> memcmp a b <= 0 -> memcmp b c <= 0 ->
  memcmp a c <= 0 /\ (memcmp a c = 0 -> memcmp a b = 0 /\ memcmp b c = 0).
Proof.
  revert b c; induction a as [|x a IH]; intros [|y b] [|z c] Hab Hbc; try done.
  injection Hab as Hab. injection Hbc as Hbc. cbn [memcmp].
  destruct (decide (x = y)), (decide (y = z)), (decide (x = z)); subst; try lia; try done. by apply IH.
Qed.

Lemma tlv_cmp_split t1 t2 :
  tlv_cmp t1 t2 = let r := memcmp (hdr t1.1 (length t1.2)) (hdr t2.1 (length t2.2)) in
    if decide (r = 0) then memcmp t1.2 t2.2 else r.
Proof. unfold tlv_cmp, raw. by rewrite memcmp_app. Qed.

Definition tlv_ok (t : Z * list Z) : Prop := attr_ok t.1 (length t.2).

Lemma tlv_hdr_eq t1 t2 : tlv_ok t1 -> tlv_ok t2 ->
  memcmp (hdr t1.1 (length t1.2)) (hdr t2.1 (length t2.2)) = 0 -> t1.1 = t2.1 /\ length t1.2 = length t2.2.
Proof. intros H1 H2 E. apply memcmp_0 in E; [|done]. by apply hdr_inj in E. Qed.

Lemma tlv_cmp_0 t1 t2 : tlv_ok t1 -> tlv_ok t2 -> tlv_cmp t1 t2 = 0 <-> t1 = t2.
Proof.
  intros H1 H2. rewrite tlv_cmp_split. cbv zeta. case_decide as E.
  - destruct (tlv_hdr_eq t1 t2 H1 H2 E) as [E1 El]. rewrite memcmp_0 by done.
    destruct t1, t2; simpl in *; split; congruence.
  - split; [done|]. intros ->. exfalso. apply E. by apply memcmp_0.
Qed.

Lemma tlv_cmp_trans t1 t2 t3 : tlv_ok t1 -> tlv_ok t2 -> tlv_ok t3 ->
  tlv_cmp t1 t2 <= 0 -> tlv_cmp t2 t3 <= 0 -> tlv_cmp t1 t3 <= 0.
Proof.
  intros H1 H2 H3. rewrite !tlv_cmp_split. cbv zeta.
  set (h12 := memcmp (hdr t1.1 (length t1.2)) (hdr t2.1 (length t2.2))).
  set (h23 := memcmp (hdr t2.1 (length t2.2)) (hdr t3.1 (length t3.2))).
  set (h13 := memcmp (hdr t1.1 (length t1.2)) (hdr t3.1 (length t3.2))).
  intros C12 C23.
  assert (h12 <= 0) by (destruct (decide (h12 = 0)); lia).
  assert (h23 <= 0) by (destruct (decide (h23 = 0)); lia).
  destruct (memcmp_trans (hdr t1.1 (length t1.2)) (hdr t2.1 (length t2.2)) (hdr t3.1 (length t3.2)))
    as [Hle Heq]; [done..|]. fold h12 h23 h13 in Hle, Heq.
  destruct (decide (h13 = 0)) as [E|E]; [|done]. destruct (Heq E) as [E12 E23].
  rewrite decide_True in C12 by done. rewrite decide_True in C23 by done.
  apply tlv_hdr_eq in E12 as [_ E12], E23 as [_ E23]; [|done..].
  by apply (memcmp_trans t1.2 t2.2 t3.2).
Qed.

(** tlv_attr_cmp is a total order on TLVs: it is 0 exactly for equal TLVs, antisymmetric and
    transitive. *)
Theorem tlv_attr_cmp_order m1 p1 t1 m2 p2 t2 m3 p3 t3 :
  at_pos m1 p1 t1 -> at_pos m2 p2 t2 -> at_pos m3 p3 t3 ->
  exists r12 r21 r23 r13,
    tlv_attr_cmp (Some (m1, p1)) (Some (m2, p2)) = Some r12 /\
    tlv_attr_cmp (Some (m2, p2)) (Some (m1, p1)) = Some r21 /\
    tlv_attr_cmp (Some (m2, p2)) (Some (m3, p3)) = Some r23 /\
    tlv_attr_cmp (Some (m1, p1)) (Some (m3, p3)) = Some r13 /\
    (r12 = 0 <-> t1 = t2) /\ r21 = - r12 /\ (r12 <= 0 -> r23 <= 0 -> r13 <= 0).
Proof.
  intros H1 H2 H3. rewrite (tlv_attr_cmp_at m1 p1 t1 m2 p2 t2), (tlv_attr_cmp_at m2 p2 t2 m1 p1 t1),
    (tlv_attr_cmp_at m2 p2 t2 m3 p3 t3), (tlv_attr_cmp_at m1 p1 t1 m3 p3 t3) by done.
  destruct H1 as [H1 _], H2 as [H2 _], H3 as [H3 _]. do 4 eexists. do 4 (split; [done|]).
  split; [by apply tlv_cmp_0|]. split; [apply memcmp_antisym|]. by apply tlv_cmp_trans.
Qed.

(** ** [tlv_sort] *)

(** The attribute at an offset, as a total function. *)
Definition attr_at (m : list Z) (p : nat) : Z * list Z := default (0, []) (tlv_read m p).

Lemma attr_at_pos m p t : at_pos m p t -> attr_at m p = t.
Proof. intros H. unfold attr_at. by rewrite (at_pos_read _ _ _ H). Qed.

Lemma attr_at_fmap m ps ts : Forall2 (at_pos m) ps ts -> attr_at m <$> ps = ts.
Proof. induction 1 as [|p t ps ts Hp _ IH]; [done|]. cbn. f_equal; [by apply attr_at_pos|done]. Qed.

Lemma tlv_copy_sorted_spec m al pre tmp :
  Forall (fun p => at_pos m p (attr_at m p)) al ->
  (length (enc (attr_at m <$> al)) <= length tmp)%nat ->
  tlv_copy_sorted m al (pre ++ tmp) (length pre) =
    Some (pre ++ enc (attr_at m <$> al) ++ drop (length (enc (attr_at m <$> al))) tmp,
          length pre + length (enc (attr_at m <$> al)))%nat.
Proof.
  revert pre tmp; induction al as [|p al IH]; intros pre tmp Hal Hl.
  { cbn. by rewrite Nat.add_0_r. }
  apply Forall_cons in Hal as [Hp Hal]. cbn [fmap list_fmap] in *.
  destruct (attr_at m p) as [id d] eqn:Et. rewrite enc_cons, length_app in *.
  destruct (at_pos_lens _ _ _ Hp) as (_ & Epad & _ & Erd & _). cbn [fst snd] in *.
  cbn [tlv_copy_sorted]. rewrite Epad. cbn [mbind option_bind]. rewrite Erd. cbn [mbind option_bind].
  destruct (split_at tmp (length (enc_attr id d))) as (x & y & -> & Hx); [lia|].
  rewrite wrn_app by done. cbn [mbind option_bind].
  rewrite <- length_app, (app_assoc pre), IH; [|done|rewrite length_app in Hl; lia].
  rewrite <- drop_drop, <- Hx, drop_app_length, length_app, <- !app_assoc. do 2 f_equal. lia.
Qed.

Lemma enc_perm_length ts us : ts ≡ₚ us -> length (enc ts) = length (enc us).
Proof.
  induction 1 as [|[i d] ? ? ? IH|[i d] [j e]|]; rewrite ?enc_cons, ?length_app in *; lia.
Qed.

Lemma sorted_fmap {A B} (f : A -> B) (R : relation A) (S : relation B) l :
  (forall x y, x ∈ l -> y ∈ l -> R x y -> S (f x) (f y)) -> Sorted R l -> Sorted S (f <$> l).
Proof.
  intros H Hs. induction Hs as [|x l Hs IH Hx]; [constructor|]. cbn. constructor.
  - apply IH. intros; apply H; try done; by right.
  - destruct Hx as [|y l Hxy]; constructor. apply H; [left|right; left|done].
Qed.

Lemma tlv_sort_spec `{!QSort qsort} ts :
  tlvs_ok ts ->
  exists ts', tlv_sort qsort (enc ts) = Some (true, enc ts') /\ ts' ≡ₚ ts /\
    Sorted (fun t1 t2 => tlv_cmp t1 t2 <= 0) ts'.
Proof.
  intros Hok. destruct (tlv_for_each_enc [] ts [] Hok) as (ps & E & Hps).
  cbn [app length] in E, Hps. rewrite app_nil_r in E, Hps. unfold tlv_sort. rewrite E.
  cbn [mbind option_bind]. pose proof (attr_at_fmap _ _ _ Hps) as Ets.
  pose proof (Forall2_length _ _ _ Hps) as Hlen.
  case_decide as E1.
  { exists ts. split; [done|]. split; [done|]. rewrite Hlen in E1.
    destruct ts as [|t [|]]; [constructor|repeat constructor|simpl in E1; lia]. }
  pose proof (qsort_perm (enc ts) ps) as Hperm.
  assert (Hall : forall p, p ∈ ps -> at_pos (enc ts) p (attr_at (enc ts) p)).
  { intros p Hp. apply list_elem_of_lookup in Hp as [i Hi].
    destruct (Forall2_lookup_l _ _ _ _ _ Hps Hi) as (t & _ & Ht). by rewrite (attr_at_pos _ _ _ Ht). }
  set (al := qsort (enc ts) ps) in *.
  assert (Hp : attr_at (enc ts) <$> al ≡ₚ ts) by (by rewrite Hperm, Ets).
  pose proof (enc_perm_length _ _ Hp) as Hl.
  pose proof (tlv_copy_sorted_spec (enc ts) al [] (replicate (length (enc ts)) 0)) as Hc.
  cbn [app length Nat.add] in Hc. rewrite Hc, Hl; clear Hc.
  2: { apply Forall_forall. intros p Hin. apply Hall. by rewrite <- Hperm. }
  2: { rewrite length_replicate. lia. }
  cbn [mbind option_bind]. rewrite decide_False by naive_solver.
  exists (attr_at (enc ts) <$> al). split; [|split; [done|]].
  - do 2 f_equal. rewrite drop_ge, app_nil_r by (by rewrite length_replicate). done.
  - eapply sorted_fmap; [|by eapply qsort_sorted].
    intros p q Hpin Hqin (r & Er & Hr). cbn beta.
    rewrite (tlv_attr_cmp_at _ _ (attr_at (enc ts) p) _ _ (attr_at (enc ts) q)) in Er
      by (apply Hall; by rewrite <- Hperm). congruence.
Qed.

(** A [qsort] that keeps the promise. *)
Definition cmp_le (m : list Z) (p q : nat) : Prop :=
  default 0 (tlv_attr_cmp (Some (m, p)) (Some (m, q))) <= 0.

#[global] Instance cmp_le_dec m p q : Decision (cmp_le m p q).
Proof. unfold cmp_le. apply _. Defined.

Definition qsort_merge (m : list Z) (al : list nat) : list nat := merge_sort (cmp_le m) al.

Lemma cmp_le_total m : Total (cmp_le m).
Proof.
  intros p q. unfold cmp_le, tlv_attr_cmp.
  destruct (rdn m p 4) as [h1|] eqn:E1; [|left; done].
  destruct (rdn m q 4) as [h2|] eqn:E2; [|left; done]. cbn [mbind option_bind].
  rewrite (memcmp_antisym h1 h2). destruct (decide (memcmp h1 h2 = 0)) as [E|E].
  - rewrite !decide_False by lia.
    assert (h1 = h2) as <-.
    { apply memcmp_0; [|done]. unfold rdn in E1, E2. inv_opt. rewrite !length_take, !length_drop. lia. }
    unfold tlv_raw_len, tlv_len, rd32. rewrite E1, E2. cbn.
    generalize (Z.to_nat (Z.land (of_be32 h1) TLV_ATTR_LEN_MASK) + 4)%nat as l. intros l.
    destruct (rdn m p l) as [x|]; cbn; [|left; done]. destruct (rdn m q l) as [y|]; cbn; [|left; done].
    rewrite (memcmp_antisym x y). lia.
  - rewrite !decide_True by lia. cbn. lia.
Qed.

#[global] Instance qsort_merge_ok : QSort qsort_merge.
Proof.
  split; unfold qsort_merge.
  - intros m al. apply merge_sort_Permutation.
  - intros m al ts Hall. pose proof (cmp_le_total m).
    pose proof (Sorted_merge_sort (cmp_le m) al) as Hs.
    assert (Hin : forall p, p ∈ merge_sort (cmp_le m) al -> exists t, at_pos m p t).
    { intros p Hp. rewrite merge_sort_Permutation in Hp. apply list_elem_of_lookup in Hp as [i Hi].
      destruct (Forall2_lookup_l _ _ _ _ _ Hall Hi) as (t & _ & Ht). by exists t. }
    rewrite <- (list_fmap_id (merge_sort _ al)). eapply sorted_fmap; [|exact Hs].
    intros p q (t & Ht)%Hin (u & Hu)%Hin Hle. unfold cmp_le in Hle.
    rewrite (tlv_attr_cmp_at _ _ _ _ _ _ Ht Hu) in Hle.
    eexists. split; [by apply tlv_attr_cmp_at|exact Hle].
Qed.

(** A block whose last TLV is not padded makes tlv_sort write past the end of its copy. *)
Theorem tlv_sort_unpadded_overflow qsort :
  (forall m al, qsort m al ≡ₚ al) ->
  tlv_sort qsort ([0; 1; 0; 1; 7; 0; 0; 0] ++ [0; 1; 0; 1; 7]) = None.
Proof.
  intros Hq. unfold tlv_sort. cbn [app length].
  assert (tlv_for_each_in_buf [0; 1; 0; 1; 7; 0; 0; 0; 0; 1; 0; 1; 7] 0 13 = Some [0; 8]%nat) as -> by done.
  cbn [mbind option_bind length]. rewrite decide_False by lia.
  pose proof (Hq [0; 1; 0; 1; 7; 0; 0; 0; 0; 1; 0; 1; 7] [0; 8]%nat) as H. symmetry in H.
  apply Permutation_length_2_inv in H as [-> | ->]; done.
Qed.

(** ** Raw attributes and node data *)

(** [tlv_put_raw] appends the bytes as they are, after the padding. *)
Lemma tlv_put_raw_holds b pre id p r :
  holds b pre id p -> (4 <= length r)%nat -> Z.of_nat (length (p ++ padding (length p) ++ r)) < 65536 ->
  exists b', tlv_put_raw b r = Some (b', Some (length (pre ++ enc_attr id p))) /\
    holds b' pre id (p ++ padding (length p) ++ r).
Proof.
  intros (Hok & Hh & Hp & Hm & rest & Em) Hr Hfit. assert (Hok2 := Hok). destruct Hok2 as [Hid _].
  assert (Hfit' := Hfit). rewrite !length_app, length_padding in Hfit'.
  unfold tlv_put_raw. rewrite decide_False by lia.
  rewrite Hh, Em, enc_attr_app, tlv_next_hdr by done. cbn [mbind option_bind].
  replace (length pre + (length p + 4 + padn (length p)))%nat with (length (pre ++ enc_attr id p))
    by (rewrite length_app, length_enc_attr; lia).
  destruct (tlv_add_spec b (pre ++ enc_attr id p) rest 0 (length r - 4)) as (d & rest' & -> & Hd & Hlen);
    [by rewrite <- app_assoc| |done|split; lia|].
  { rewrite length_app, length_enc_attr. unfold padn. lia. }
  cbn [mbind option_bind mem head]. rewrite <- !app_assoc, (enc_attr_app id p).
  rewrite Hh, tlv_pad_len_hdr by done. cbn [mbind option_bind].
  replace (length p + 4 + padn (length p) + length r)%nat with (length (p ++ padding (length p) ++ r) + 4)%nat
    by (rewrite !length_app, length_padding; lia).
  rewrite tlv_set_raw_len_hdr by (done || (split; [done|]; lia)). cbn [mbind option_bind].
  set (q := p ++ padding (length p) ++ r) in *.
  replace (pre ++ hdr id (length q) ++ p ++ padding (length p) ++ hdr 0 (length r - 4) ++ d ++
      padding (length r - 4) ++ rest')
    with ((pre ++ hdr id (length q) ++ p ++ padding (length p)) ++ (hdr 0 (length r - 4) ++ d) ++
      padding (length r - 4) ++ rest') by (by rewrite <- !app_assoc).
  replace (length (pre ++ enc_attr id p)) with (length (pre ++ hdr id (length q) ++ p ++ padding (length p)))
    by (rewrite !length_app, !length_hdr, length_enc_attr, length_padding; lia).
  rewrite wrn_app by (rewrite length_app, length_hdr; lia). cbn [mbind option_bind]. eexists; split; [done|].
  assert (padding (length r - 4) = padding (length q)) as Epad.
  { unfold padding. f_equal. unfold q. rewrite !length_app, length_padding. unfold padn. lia. }
  assert (E : (pre ++ hdr id (length q) ++ p ++ padding (length p)) ++ r ++ padding (length r - 4) ++ rest' =
    pre ++ enc_attr id q ++ rest').
  { rewrite Epad. unfold enc_attr, q. by rewrite <- !app_assoc. }
  split; [split; [done|lia]|]. cbn [head mem]. do 2 (split; [done|]). rewrite E. split; [|by eexists].
  rewrite <- E. rewrite !length_app, !length_hdr in *. rewrite length_enc_attr, !length_padding in *. unfold padn in *. lia.
Qed.

(** The end of an attribute that is already padded. *)
Lemma tlv_fill_pad_padded pre id p rest :
  attr_ok id (length p) ->
  tlv_fill_pad (pre ++ enc_attr id p ++ rest) (length pre) = Some (pre ++ enc_attr id p ++ rest).
Proof.
  intros Hok. unfold tlv_fill_pad. rewrite enc_attr_app, tlv_pad_len_hdr, tlv_raw_len_hdr by done.
  cbn [mbind option_bind]. case_decide; [|done].
  replace (length p + 4 + padn (length p) - (length p + 4))%nat with (padn (length p)) by lia.
  replace (length pre + (length p + 4 + padn (length p)) - padn (length p))%nat
    with (length (pre ++ hdr id (length p) ++ p)) by (rewrite !length_app, length_hdr; lia).
  replace (pre ++ hdr id (length p) ++ p ++ padding (length p) ++ rest)
    with ((pre ++ hdr id (length p) ++ p) ++ padding (length p) ++ rest) by (by rewrite <- !app_assoc).
  by rewrite wrn_app by (by rewrite length_padding, length_replicate).
Qed.

Lemma holds_tlv_payload b pre id p : holds b pre id p ->
  tlv_payload (mem b) (head b) = Some p /\ tlv_fill_pad (mem b) (head b) = Some (mem b).
Proof.
  intros (Hok & Hh & _ & _ & rest & Em). rewrite Hh, Em. split; [|by apply tlv_fill_pad_padded].
  unfold tlv_payload. rewrite enc_attr_app, tlv_len_hdr by done. cbn [mbind option_bind].
  rewrite (app_assoc pre). replace (length pre + 4)%nat with (length (pre ++ hdr id (length p)))
    by (rewrite length_app, length_hdr; lia).
  by apply rdn_app.
Qed.

Lemma tlv_for_each_in_buf_safe_witness :
  exists ps, tlv_for_each_in_buf [0; 1; 0; 1; 7; 0; 0; 0; 0; 2; 0; 9; 1] 0 13 = Some ps /\
    Sorted (fun p q => p + 4 <= q)%nat ps /\
    Forall (fun p => (0 <= p)%nat /\ exists id d,
      tlv_read [0; 1; 0; 1; 7; 0; 0; 0; 0; 2; 0; 9; 1] p = Some (id, d) /\ (p + 4 + length d <= 0 + 13)%nat) ps.
Proof.
  apply (tlv_for_each_in_buf_safe [0; 1; 0; 1; 7; 0; 0; 0; 0; 2; 0; 9; 1] 0 13). decided.
Defined.

Lemma tlv_build_read_witness :
  exists b0 b1 n, tlv_buf_init (mk_tlv_buf 0 []) 5 = Some b0 /\ tlv_puts b0 [(1, [7]); (9, [])] = Some b1 /\
    tlv_id (mem b1) (head b1) = Some 5 /\ tlv_len (mem b1) (head b1) = Some n /\
    tlv_list (mem b1) (head b1 + 4) n = Some [(1, [7]); (9, [])].
Proof. apply (tlv_build_read (mk_tlv_buf 0 []) 5 [(1, [7]); (9, [])]); decided. Defined.

Lemma tlv_nest_appends_witness :
  exists b1 c b2 b3, tlv_nest_start (mk_tlv_buf 0 (enc_attr 5 [3] ++ replicate 248 0)) 6 0 = Some (b1, c) /\
    tlv_puts b1 [(1, [7])] = Some b2 /\ tlv_nest_end b2 c = Some b3 /\
    holds b3 [] 5 (put_in [3] 6 (enc [(1, [7])])).
Proof.
  apply (tlv_nest_appends (mk_tlv_buf 0 (enc_attr 5 [3] ++ replicate 248 0)) [] 5 [3] 6 [(1, [7])]);
    [|decided..].
  split_and!; [decided|decided|decided|decided|]. exists (replicate 248 0). reflexivity.
Defined.

Lemma tlv_attr_cmp_order_witness :
  exists r12 r21 r23 r13,
    tlv_attr_cmp (Some (enc [(1, [7])], 0%nat)) (Some (enc [(1, [8])], 0%nat)) = Some r12 /\
    tlv_attr_cmp (Some (enc [(1, [8])], 0%nat)) (Some (enc [(1, [7])], 0%nat)) = Some r21 /\
    tlv_attr_cmp (Some (enc [(1, [8])], 0%nat)) (Some (enc [(2, [])], 0%nat)) = Some r23 /\
    tlv_attr_cmp (Some (enc [(1, [7])], 0%nat)) (Some (enc [(2, [])], 0%nat)) = Some r13 /\
    (r12 = 0 <-> (1, [7]) = (1, [8])) /\ r21 = - r12 /\ (r12 <= 0 -> r23 <= 0 -> r13 <= 0).
Proof.
  apply (tlv_attr_cmp_order (enc [(1, [7])]) 0 (1, [7]) (enc [(1, [8])]) 0 (1, [8])
           (enc [(2, [])]) 0 (2, [])); (split; [decided|exists [], []; done]).
Defined.

Lemma tlv_sort_unpadded_overflow_witness :
  tlv_sort qsort_merge ([0; 1; 0; 1; 7; 0; 0; 0] ++ [0; 1; 0; 1; 7]) = None.
Proof. apply (tlv_sort_unpadded_overflow qsort_merge). intros m al. apply merge_sort_Permutation. Defined.
