(* ===== verification/DnsUtil.v ===== *)
(** DNS label lists and their escaped text: the model of [src/dns_util.h].

    A label list is a sequence of length-prefixed labels closed by an empty one.
    Output goes to a caller's buffer; a write outside it is [None], a too small
    buffer the source detects is [DNS_RESULT_OOB]. *)
From S2P Require Import Prelude.

Definition DNS_MAX_ESCAPED_LEN : nat := 1009.
Definition DNS_RESULT_OOB : Z := -1.
Definition DNS_RESULT_ERROR : Z := -2.

Definition chr_dot : Z := 46.
Definition chr_backslash : Z := 92.

Definition isdigit (c : Z) : bool := bool_decide (48 <= c <= 57).

(** [isprint] in the C locale. *)
Definition isprint (c : Z) : bool := bool_decide (32 <= c <= 126).

(** An output buffer: its memory, the write position and the room left. *)
Record out := mk_out { obuf : list Z; opos : nat; oleft : Z }.

(** [DNS_PUSH_LABEL]; [inl] is the early return: the result and the buffer. *)
Definition push_label (o : out) (l : list Z) : option (Z * list Z + out) :=
  let left := oleft o - (Z.of_nat (length l) + 1) in
  if decide (left < 0) then Some (inl (DNS_RESULT_OOB, obuf o))
  else
    b ← wr (obuf o) (opos o) (u8 (Z.of_nat (length l)));
    b ← wrn b (opos o + 1) l;
    Some (inr (mk_out b (opos o + 1 + length l) left)).

(** [if (c) ... *(l++) = c]; [None] is the early return of [DNS_RESULT_ERROR]. *)
Definition label_add (label : list Z) (c : Z) : option (list Z) :=
  if decide (c = 0) then Some label
  else if decide (length label = DNS_MAX_ESCAPED_LEN) then None
  else Some (label ++ [u8 c]).

(** [atoi] of three digits, stored in a [char]. *)
Definition atoi3 (a b c : Z) : Z := i8 (100 * (a - 48) + 10 * (b - 48) + (c - 48)).

(** The end of [escaped2ll], after the [while] loop. *)
Definition escaped2ll_end (o : out) (label : list Z) (last_size : Z) : option (Z * list Z) :=
  r ← (if decide (label ≠ []) then
         r ← push_label o label;
         Some (match r with inl e => inl e | inr o => inr (o, Z.of_nat (length label)) end)
       else Some (inr (o, last_size)));
  match r with
  | inl e => Some e
  | inr (o, last_size) =>
    if decide (last_size ≠ 0) then
      r ← push_label o [];
      Some (match r with inl e => e | inr o => (Z.of_nat (opos o), obuf o) end)
    else Some (Z.of_nat (opos o), obuf o)
  end.

(** The loop of [escaped2ll]: [escaped] is the text left, with its NUL. *)
Fixpoint escaped2ll_loop (escaped : list Z) (o : out) (label : list Z) (last_size : Z)
  : option (Z * list Z) :=
  match escaped with
  | [] => None
  | c :: escaped =>
    let add c escaped_loop :=
      match label_add label c with
      | None => Some (DNS_RESULT_ERROR, obuf o)
      | Some label => escaped_loop label
      end in
    if decide (c = 0) then escaped2ll_end o label last_size
    else if decide (c = chr_dot) then
      r ← push_label o label;
      match r with
      | inl e => Some e
      | inr o => escaped2ll_loop escaped o [] (Z.of_nat (length label))
      end
    else if decide (c = chr_backslash) then
      match escaped with
      | [] => None
      | c :: escaped =>
        if decide (c = chr_dot \/ c = chr_backslash) then
          add c (fun label => escaped2ll_loop escaped o label last_size)
        else if isdigit c then
          match escaped with
          | [] => None
          | c2 :: escaped =>
            if isdigit c2 then
              match escaped with
              | [] => None
              | c3 :: escaped =>
                if isdigit c3 then
                  add (atoi3 c c2 c3) (fun label => escaped2ll_loop escaped o label last_size)
                else Some (DNS_RESULT_ERROR, obuf o)
              end
            else Some (DNS_RESULT_ERROR, obuf o)
          end
        else Some (DNS_RESULT_ERROR, obuf o)
      end
    else add c (fun label => escaped2ll_loop escaped o label last_size)
  end.

Definition escaped2ll (escaped ll : list Z) (ll_left : Z) : option (Z * list Z) :=
  if decide (ll_left <= 0) then Some (DNS_RESULT_OOB, ll)
  else escaped2ll_loop escaped (mk_out ll 0 ll_left) [] (-1).

(** [PUSH_CHAR]. *)
Definition push_char (o : out) (c : Z) : option (Z * list Z + out) :=
  if decide (oleft o = 0) then Some (inl (DNS_RESULT_OOB, obuf o))
  else
    b ← wr (obuf o) (opos o) c;
    Some (inr (mk_out b (opos o + 1) (oleft o - 1))).

(** [sprintf(buf, "\\%03d", d)] of a byte. *)
Definition print_escape (d : Z) : list Z :=
  [chr_backslash; 48 + d / 100; 48 + d / 10 mod 10; 48 + d mod 10].

(** One round of the loop of [l2escaped]. *)
Definition escape_byte (o : out) (d : Z) : option (Z * list Z + out) :=
  if decide (d = chr_backslash \/ d = chr_dot) then
    r ← push_char o chr_backslash;
    match r with inl e => Some (inl e) | inr o => push_char o d end
  else if isprint d then push_char o d
  else
    let left := oleft o - 4 in
    if decide (left < 0) then Some (inl (DNS_RESULT_OOB, obuf o))
    else
      b ← wrn (obuf o) (opos o) (print_escape d);
      Some (inr (mk_out b (opos o + 4) left)).

(** [l2escaped] on the bytes of the label, as the output state. *)
Fixpoint l2escaped (l : list Z) (o : out) : option (Z * list Z + out) :=
  match l with
  | [] => Some (inr o)
  | d :: l =>
    r ← escape_byte o d;
    match r with inl e => Some (inl e) | inr o => l2escaped l o end
  end.

(** The loop of [ll2escaped]: [ll_left] bytes of [ll] are left from [pos].
    Every round consumes a byte of [ll_left], the fuel. *)
Fixpoint ll2escaped_loop (fuel : nat) (ll : list Z) (pos ll_left : nat) (o : out)
  : option (Z * list Z) :=
  match fuel with
  | O => None
  | S fuel =>
    if decide (ll_left = 0)%nat then Some (DNS_RESULT_ERROR, obuf o)
    else
      let ll_left := (ll_left - 1)%nat in
      c ← rd ll pos;
      let pos := (pos + 1)%nat in
      if decide (c ≠ 0) then
        let n := Z.to_nat c in
        if decide (ll_left < n)%nat then Some (DNS_RESULT_ERROR, obuf o)
        else
          l ← rdn ll pos n;
          r ← l2escaped l o;
          match r with
          | inl e => Some e
          | inr o =>
            r ← push_char o chr_dot;
            match r with
            | inl e => Some e
            | inr o => ll2escaped_loop fuel ll (pos + n) (ll_left - n) o
            end
          end
      else
        r ← push_char o 0;
        Some (match r with inl e => e | inr o => (Z.of_nat pos, obuf o) end)
  end.

Definition ll2escaped (ll : list Z) (ll_left : nat) (escaped : list Z) (escaped_left : Z)
  : option (Z * list Z) :=
  if decide (escaped_left <= 0) then Some (DNS_RESULT_OOB, escaped)
  else ll2escaped_loop (ll_left + 1) ll 0 ll_left (mk_out escaped 0 escaped_left).

(** ** Writes stay inside the buffer *)

(** Room for [oleft] more bytes in a buffer of [n]; [tot] is the room given. *)
Definition out_ok (n : nat) (tot : Z) (o : out) : Prop :=
  length (obuf o) = n /\ 0 <= oleft o /\ Z.of_nat (opos o) + oleft o = tot /\ tot <= Z.of_nat n.

(** A step that stays in bounds: it goes on, or returns an error. *)
Definition step_ok (n : nat) (tot : Z) (r : option (Z * list Z + out)) : Prop :=
  match r with
  | Some (inl (e, b)) => e < 0 /\ length b = n
  | Some (inr o) => out_ok n tot o
  | None => False
  end.

(** A result that stays in bounds: an error, or the bytes used out of [tot]. *)
Definition result_ok (n : nat) (tot : Z) (r : option (Z * list Z)) : Prop :=
  match r with Some (e, b) => length b = n /\ (e < 0 \/ e <= tot) | None => False end.

Lemma length_wrn b i src b' : wrn b i src = Some b' -> length b' = length b.
Proof. unfold wrn. intros. inv_opt. rewrite !length_app, length_take, length_drop. lia. Qed.

Lemma step_ok_bind n tot r (f : out -> option (Z * list Z + out)) :
  step_ok n tot r -> (forall o, out_ok n tot o -> step_ok n tot (f o)) ->
  step_ok n tot (r ≫= fun r => match r with inl e => Some (inl e) | inr o => f o end).
Proof. destruct r as [[[]|]|]; simpl; auto. Qed.

Lemma result_ok_bind n tot tot' r (f : out -> option (Z * list Z)) :
  step_ok n tot r -> (forall o, out_ok n tot o -> result_ok n tot' (f o)) ->
  result_ok n tot' (r ≫= fun r => match r with inl e => Some e | inr o => f o end).
Proof. destruct r as [[[]|]|]; simpl; auto. intros []. auto. Qed.

Lemma push_label_ok n tot o l : out_ok n tot o -> step_ok n tot (push_label o l).
Proof.
  intros (Hl & H0 & Ht & Hn). unfold push_label. case_decide; [done|].
  rewrite wr_Some by lia. cbn [mbind option_bind].
  rewrite wrn_Some by (rewrite length_insert; lia). cbn. repeat split; cbn; try lia.
  len_solve.
Qed.

Lemma push_char_ok n tot o c : out_ok n tot o -> step_ok n tot (push_char o c).
Proof.
  intros (Hl & H0 & Ht & Hn). unfold push_char. case_decide; [done|].
  rewrite wr_Some by lia. cbn. repeat split; cbn; try lia. by rewrite length_insert.
Qed.

Lemma escape_byte_ok n tot o d : out_ok n tot o -> step_ok n tot (escape_byte o d).
Proof.
  intros Ho. unfold escape_byte. case_decide.
  { apply step_ok_bind; eauto using push_char_ok. }
  destruct (isprint d); [by apply push_char_ok|].
  destruct Ho as (Hl & H0 & Ht & Hn). case_decide; [done|].
  rewrite wrn_Some by (simpl; lia). cbn. repeat split; cbn; try lia.
  unfold print_escape. len_solve.
Qed.

Lemma l2escaped_ok n tot l o : out_ok n tot o -> step_ok n tot (l2escaped l o).
Proof.
  revert o; induction l as [|d l IH]; intros o Ho; [done|]. simpl.
  apply step_ok_bind; auto using escape_byte_ok.
Qed.

Lemma escaped2ll_end_ok n tot o label ls : out_ok n tot o -> result_ok n tot (escaped2ll_end o label ls).
Proof.
  intros Ho. unfold escaped2ll_end.
  assert (Hlast : forall o' s, out_ok n tot o' -> result_ok n tot
    (if decide (s ≠ 0) then
      r ← push_label o' []; Some (match r with inl e => e | inr o => (Z.of_nat (opos o), obuf o) end)
     else Some (Z.of_nat (opos o'), obuf o'))).
  { intros o' s Ho'. case_decide; [|destruct Ho' as (? & ? & ? & ?); split; [done|right; lia]].
    pose proof (push_label_ok n tot o' [] Ho') as Hp. destruct (push_label o' []) as [[[]|]|]; cbn in *.
    - destruct Hp. split; [done|by left].
    - destruct Hp as (? & ? & ? & ?). split; [done|right; lia].
    - done. }
  destruct (decide (label ≠ [])) as [_|_]; [|by apply (Hlast o ls)].
  pose proof (push_label_ok n tot o label Ho) as Hp.
  destruct (push_label o label) as [[[e b]|o']|]; cbn in *; [|by apply Hlast|done].
  destruct Hp. split; [done|by left].
Qed.

Lemma escaped2ll_loop_ok n tot escaped o label ls :
  0 ∈ escaped -> out_ok n tot o -> result_ok n tot (escaped2ll_loop escaped o label ls).
Proof.
  remember (length escaped) as k eqn:Hk. assert (length escaped <= k)%nat as Hle by lia. clear Hk.
  revert escaped Hle o label ls; induction k as [|k IH]; intros escaped Hle o label ls H0 Ho.
  { destruct escaped; [by apply elem_of_nil in H0|simpl in Hle; lia]. }
  assert (Herr : result_ok n tot (Some (DNS_RESULT_ERROR, obuf o))).
  { destruct Ho as (? & ? & ? & ?). split; [done|by left]. }
  assert (Hadd : forall label c esc, (length esc <= k)%nat -> 0 ∈ esc -> result_ok n tot
    (match label_add label c with
     | None => Some (DNS_RESULT_ERROR, obuf o) | Some label => escaped2ll_loop esc o label ls end)).
  { intros l c esc Hl He. destruct (label_add l c); [by apply IH|done]. }
  destruct escaped as [|c esc]; [by apply elem_of_nil in H0|]. cbn [length] in Hle.
  apply elem_of_cons in H0. cbn [escaped2ll_loop].
  case_decide as Ec; [by apply escaped2ll_end_ok|]. destruct H0 as [|H0]; [done|].
  case_decide; [eapply result_ok_bind; [by apply push_label_ok|intros; apply IH; [lia|done..]]|].
  case_decide; [|by apply Hadd; [lia|]].
  destruct esc as [|c1 esc]; [by apply elem_of_nil in H0|]. cbn [length] in Hle.
  apply elem_of_cons in H0. case_decide as E1.
  { destruct H0 as [<-|H0]; [destruct E1; done|]. by apply Hadd; [lia|]. }
  assert (Hdig : forall c, isdigit c = true -> 0 = c -> False) by (intros c' Hc <-; done).
  destruct (isdigit c1) eqn:D1; [|done]. destruct H0 as [H0|H0]; [exfalso; eauto|].
  destruct esc as [|c2 esc]; [by apply elem_of_nil in H0|]. cbn [length] in Hle.
  apply elem_of_cons in H0. destruct (isdigit c2) eqn:D2; [|done]. destruct H0 as [H0|H0]; [exfalso; eauto|].
  destruct esc as [|c3 esc]; [by apply elem_of_nil in H0|]. cbn [length] in Hle.
  apply elem_of_cons in H0. destruct (isdigit c3) eqn:D3; [|done]. destruct H0 as [H0|H0]; [exfalso; eauto|].
  by apply Hadd; [lia|].
Qed.

Lemma ll2escaped_loop_ok n tot fuel ll pos left o :
  bytes_ok ll -> (pos + left <= length ll)%nat -> (left < fuel)%nat -> out_ok n tot o ->
  result_ok n (Z.of_nat (pos + left)) (ll2escaped_loop fuel ll pos left o).
Proof.
  intros Hll. revert pos left o; induction fuel as [|fuel IH]; intros pos left o Hp Hf Ho; [lia|].
  cbn [ll2escaped_loop].
  assert (Herr : result_ok n (Z.of_nat (pos + left)) (Some (DNS_RESULT_ERROR, obuf o))).
  { destruct Ho as (? & ? & ? & ?). split; [done|by left]. }
  case_decide as E0; [done|].
  destruct (lookup_lt_is_Some_2 ll pos) as [c Ec]; [lia|]. unfold rd. rewrite Ec. cbn [mbind option_bind].
  assert (byte_ok c) as Hc by eauto with hnetd. unfold byte_ok in Hc.
  case_decide as Ez.
  - case_decide as En; [done|]. rewrite rdn_Some by lia. cbn [mbind option_bind].
    eapply result_ok_bind; [by apply l2escaped_ok|]. intros o1 Ho1.
    eapply result_ok_bind; [by apply push_char_ok|]. intros o2 Ho2.
    replace (pos + left)%nat with (pos + 1 + Z.to_nat c + (left - 1 - Z.to_nat c))%nat by lia.
    apply IH; [lia..|done].
  - pose proof (push_char_ok n tot o 0 Ho) as Hpc.
    destruct (push_char o 0) as [[[e b]|o1]|]; cbn [mbind option_bind]; [| |done].
    + destruct Hpc. split; [done|by left].
    + destruct Hpc as (? & ? & ? & ?). split; [done|right; lia].
Qed.

(** C29: Both conversions of DNS names end, stay within their buffers on every input, and return
    an error or at most the size of the buffer. *)
Theorem dns_conversions_in_bounds :
  (forall escaped ll left, 0 ∈ escaped -> left <= Z.of_nat (length ll) ->
     exists r b, escaped2ll escaped ll left = Some (r, b) /\ length b = length ll /\
       (r < 0 \/ r <= left)) /\
  (forall ll (left : nat) escaped eleft, bytes_ok ll -> (left <= length ll)%nat ->
     eleft <= Z.of_nat (length escaped) ->
     exists r b, ll2escaped ll left escaped eleft = Some (r, b) /\ length b = length escaped /\
       (r < 0 \/ r <= Z.of_nat left)).
Proof.
  split.
  - intros escaped ll left H0 Hl. unfold escaped2ll. case_decide.
    { do 2 eexists. split; [done|]. split; [done|by left]. }
    pose proof (escaped2ll_loop_ok (length ll) left escaped (mk_out ll 0 left) [] (-1) H0) as Hres.
    destruct (escaped2ll_loop _ _ _ _) as [[r b]|]; [|destruct Hres; repeat split; simpl; lia].
    exists r, b. split; [done|]. apply Hres. repeat split; simpl; lia.
  - intros ll left escaped eleft Hb Hl He. unfold ll2escaped. case_decide.
    { do 2 eexists. split; [done|]. split; [done|by left]. }
    pose proof (ll2escaped_loop_ok (length escaped) eleft (left + 1) ll 0 left (mk_out escaped 0 eleft) Hb) as Hres.
    destruct (ll2escaped_loop _ _ _ _ _) as [[r b]|]; [|destruct Hres; simpl; try lia; repeat split; simpl; lia].
    exists r, b. split; [done|]. apply Hres; [lia..|]. repeat split; simpl; lia.
Qed.

(** ** Round trip *)

Definition esc_byte (d : Z) : list Z :=
  if decide (d = chr_backslash \/ d = chr_dot) then [chr_backslash; d]
  else if isprint d then [d] else print_escape d.

Definition esc_label (l : list Z) : list Z := flat_map esc_byte l.

(** Every label is followed by a dot. *)
Definition esc_text (labels : list (list Z)) : list Z := flat_map (fun l => esc_label l ++ [chr_dot]) labels.

Definition label_list (labels : list (list Z)) : list Z :=
  flat_map (fun l => Z.of_nat (length l) :: l) labels ++ [0].

(** Labels the text form can carry: not empty, at most 255 bytes, no NUL byte. *)
Definition labels_ok (labels : list (list Z)) : Prop :=
  Forall (fun l => (1 <= length l <= 255)%nat /\ Forall (fun d => 0 < d < 256) l) labels.

(** [done] has been written and [left] bytes may follow. *)
Definition out_at (n : nat) (o : out) (written : list Z) (left : Z) : Prop :=
  length (obuf o) = n /\ opos o = length written /\ oleft o = left /\
  exists rest, obuf o = written ++ rest /\ left <= Z.of_nat (length rest).

Lemma wrn_at n o w left s :
  out_at n o w left -> Z.of_nat (length s) <= left ->
  exists b, wrn (obuf o) (opos o) s = Some b /\
    out_at n (mk_out b (opos o + length s) (oleft o - Z.of_nat (length s))) (w ++ s) (left - Z.of_nat (length s)).
Proof.
  intros (Hn & Hp & Hl & rest & Eb & Hr) Hs. rewrite Eb, Hp, wrn_Some by len_solve.
  rewrite Eb in Hn. rewrite length_app in Hn. eexists; split; [done|].
  split; cbn [obuf opos oleft]; [len_solve|]. split; [len_solve|]. split; [lia|].
  rewrite take_app_length, <- drop_drop, drop_app_length. exists (drop (length s) rest).
  rewrite app_assoc. split; [done|]. len_solve.
Qed.

Lemma wr_at n o w left c :
  out_at n o w left -> 1 <= left ->
  exists b, wr (obuf o) (opos o) c = Some b /\ out_at n (mk_out b (opos o + 1) (oleft o - 1)) (w ++ [c]) (left - 1).
Proof.
  intros Ho Hs. destruct (wrn_at n o w left [c] Ho) as (b & E & Hb); [simpl; lia|].
  exists b. split; [|exact Hb]. destruct Ho as (Hn & Hp & Hl & rest & Eb & Hr).
  rewrite wr_Some by (rewrite Hp, Eb; len_solve). rewrite <- E, Eb, Hp, wrn_Some by len_solve.
  f_equal. destruct rest as [|x rest]; [simpl in Hr; lia|].
  rewrite take_app_length, <- drop_drop, drop_app_length.
  rewrite <- (Nat.add_0_r (length w)), insert_app_r. done.
Qed.

Lemma push_char_at n o w left c :
  out_at n o w left -> 1 <= left ->
  exists o', push_char o c = Some (inr o') /\ out_at n o' (w ++ [c]) (left - 1).
Proof.
  intros Ho Hl. unfold push_char. destruct (wr_at n o w left c Ho Hl) as (b & E & Hb).
  rewrite decide_False by (destruct Ho as (_ & _ & ? & _); lia). rewrite E. cbn. by eexists.
Qed.

Lemma escape_byte_at n o w left d :
  out_at n o w left -> Z.of_nat (length (esc_byte d)) <= left ->
  exists o', escape_byte o d = Some (inr o') /\
    out_at n o' (w ++ esc_byte d) (left - Z.of_nat (length (esc_byte d))).
Proof.
  intros Ho. unfold escape_byte, esc_byte. case_decide; [|destruct (isprint d)]; intros Hl.
  - simpl in Hl. destruct (push_char_at n o w left chr_backslash Ho) as (o1 & -> & H1); [lia|]. cbn [mbind option_bind].
    destruct (push_char_at n o1 _ _ d H1) as (o2 & -> & H2); [lia|]. exists o2. split; [done|].
    rewrite <- app_assoc in H2. cbn [length]. by replace (left - 1 - 1) with (left - Z.of_nat 2) in H2 by lia.
  - simpl in Hl. by apply push_char_at.
  - rewrite decide_False by (destruct Ho as (_ & _ & ? & _); simpl in Hl; lia).
    destruct (wrn_at n o w left (print_escape d) Ho Hl) as (b & -> & Hb). cbn [mbind option_bind]. by eexists.
Qed.

Lemma l2escaped_at n l o w left :
  out_at n o w left -> Z.of_nat (length (esc_label l)) <= left ->
  exists o', l2escaped l o = Some (inr o') /\
    out_at n o' (w ++ esc_label l) (left - Z.of_nat (length (esc_label l))).
Proof.
  revert o w left; induction l as [|d l IH]; intros o w left Ho Hl.
  { exists o. split; [done|]. rewrite app_nil_r. by rewrite Z.sub_0_r. }
  unfold esc_label in Hl |- *. cbn [flat_map l2escaped] in *. rewrite length_app in *.
  destruct (escape_byte_at n o w left d Ho) as (o1 & -> & H1); [lia|]. cbn [mbind option_bind].
  destruct (IH o1 _ _ H1) as (o2 & -> & H2); [unfold esc_label; lia|]. exists o2. split; [done|].
  rewrite <- app_assoc in H2. by replace (left - Z.of_nat (length (esc_byte d)) - Z.of_nat (length (esc_label l)))
    with (left - Z.of_nat (length (esc_byte d) + length (flat_map esc_byte l))) in H2 by (unfold esc_label; lia).
Qed.

Lemma length_label_list_cons l labels :
  length (label_list (l :: labels)) = (1 + length l + length (label_list labels))%nat.
Proof. unfold label_list. cbn [flat_map]. len_solve. Qed.

Lemma ll2escaped_loop_at n labels pre fuel o w left :
  labels_ok labels -> out_at n o w left -> (length (label_list labels) < fuel)%nat ->
  Z.of_nat (length (esc_text labels)) < left ->
  exists rest, ll2escaped_loop fuel (pre ++ label_list labels) (length pre) (length (label_list labels)) o =
    Some (Z.of_nat (length pre + length (label_list labels)), w ++ esc_text labels ++ 0 :: rest) /\
    length (w ++ esc_text labels ++ 0 :: rest) = n.
Proof.
  revert pre fuel o w left; induction labels as [|l labels IH]; intros pre fuel o w left Hok Ho Hf Hleft;
    (destruct fuel as [|fuel]; [lia|]); cbn [ll2escaped_loop].
  - unfold label_list. cbn [flat_map app length]. rewrite decide_False by lia.
    unfold rd. rewrite list_lookup_middle by done. cbn [mbind option_bind]. rewrite decide_False by naive_solver.
    simpl in Hleft.
    unfold push_char. destruct (wr_at n o w left 0 Ho) as (b & E & (Hn & _ & _ & rest & Eb & Hr)); [lia|].
    rewrite decide_False by (destruct Ho as (_ & _ & ? & _); lia).
    rewrite E. cbn [mbind option_bind opos obuf] in *. exists rest. subst b.
    rewrite <- app_assoc in Hn |- *. done.
  - apply Forall_cons in Hok as [[Hl Hd] Hok]. rewrite length_label_list_cons in *.
    assert (Ell : label_list (l :: labels) = Z.of_nat (length l) :: l ++ label_list labels).
    { unfold label_list. cbn [flat_map]. by rewrite <- app_assoc. }
    assert (Etx : esc_text (l :: labels) = esc_label l ++ [chr_dot] ++ esc_text labels).
    { unfold esc_text. cbn [flat_map]. by rewrite <- app_assoc. }
    rewrite Ell, Etx in *. rewrite !length_app in Hleft. cbn [length] in Hleft.
    rewrite decide_False by lia. unfold rd. rewrite list_lookup_middle by done. cbn [mbind option_bind].
    rewrite decide_True, Nat2Z.id, decide_False by lia.
    replace (pre ++ Z.of_nat (length l) :: l ++ label_list labels)
      with ((pre ++ [Z.of_nat (length l)]) ++ l ++ label_list labels) by (by rewrite <- app_assoc).
    replace (length pre + 1)%nat with (length (pre ++ [Z.of_nat (length l)])) by len_solve.
    rewrite rdn_app by done. cbn [mbind option_bind].
    destruct (l2escaped_at n l o w left Ho) as (o1 & -> & H1); [lia|]. cbn [mbind option_bind].
    destruct (push_char_at n o1 _ _ chr_dot H1) as (o2 & -> & H2); [lia|]. cbn [mbind option_bind].
    replace (1 + length l + length (label_list labels) - 1 - length l)%nat with (length (label_list labels)) by lia.
    rewrite <- length_app, (app_assoc _ l).
    destruct (IH ((pre ++ [Z.of_nat (length l)]) ++ l) fuel o2 _ _ Hok H2) as (rest & E & Hlen); [lia..|].
    rewrite E. exists rest. rewrite <- !app_assoc in *. cbn [app] in *. split.
    + do 3 f_equal. len_solve.
    + done.
Qed.

(** Reading the text of one byte adds it to the label. *)
Lemma read_esc_byte d tail o label ls :
  0 < d < 256 -> (length label < DNS_MAX_ESCAPED_LEN)%nat ->
  escaped2ll_loop (esc_byte d ++ tail) o label ls = escaped2ll_loop tail o (label ++ [d]) ls.
Proof.
  intros Hd Hl. assert (Hu : u8 d = d) by (apply u8_id; unfold byte_ok; lia).
  unfold esc_byte. case_decide as E.
  { cbn [app escaped2ll_loop].
    rewrite (decide_False (P := chr_backslash = 0)), (decide_False (P := chr_backslash = chr_dot)),
      (decide_True (P := chr_backslash = chr_backslash)) by done.
    rewrite decide_True by tauto. unfold label_add. rewrite !decide_False by lia. by rewrite Hu. }
  destruct (isprint d) eqn:Ep.
  - cbn [app escaped2ll_loop]. rewrite decide_False by lia. rewrite !decide_False by tauto.
    unfold label_add. rewrite !decide_False by lia. by rewrite Hu.
  - unfold print_escape. cbn [app escaped2ll_loop].
    rewrite (decide_False (P := chr_backslash = 0)), (decide_False (P := chr_backslash = chr_dot)),
      (decide_True (P := chr_backslash = chr_backslash)) by done.
    assert (Hdig : forall x, 0 <= x < 10 -> isdigit (48 + x) = true)
      by (intros x Hx; apply bool_decide_eq_true; lia).
    rewrite decide_False by (unfold chr_dot, chr_backslash; lia).
    rewrite !Hdig by lia.
    assert (Ha : atoi3 (48 + d / 100) (48 + d / 10 mod 10) (48 + d mod 10) = i8 d).
    { unfold atoi3. f_equal. lia. }
    rewrite Ha. unfold label_add. rewrite !decide_False by (unfold i8; lia).
    replace (u8 (i8 d)) with d; [done|]. unfold u8, i8. lia.
Qed.

Lemma read_esc_label l tail o label ls :
  Forall (fun d => 0 < d < 256) l -> (length label + length l <= DNS_MAX_ESCAPED_LEN)%nat ->
  escaped2ll_loop (esc_label l ++ tail) o label ls = escaped2ll_loop tail o (label ++ l) ls.
Proof.
  intros Hl. revert label; induction Hl as [|d l Hd _ IH]; intros label Hlen; [by rewrite app_nil_r|].
  unfold esc_label in *. cbn [flat_map length] in *. rewrite <- app_assoc, read_esc_byte by (done || lia).
  rewrite IH by (rewrite length_app; simpl; lia). by rewrite <- app_assoc.
Qed.

Lemma push_label_at n o w left l :
  out_at n o w left -> (length l <= 255)%nat -> Z.of_nat (length l) < left ->
  exists o', push_label o l = Some (inr o') /\
    out_at n o' (w ++ Z.of_nat (length l) :: l) (left - (1 + Z.of_nat (length l))).
Proof.
  intros Ho Hl Hs. unfold push_label. rewrite decide_False by (destruct Ho as (_ & _ & ? & _); lia).
  rewrite u8_id by (unfold byte_ok; lia).
  destruct (wr_at n o w left (Z.of_nat (length l)) Ho) as (b & -> & Hb); [lia|]. cbn [mbind option_bind].
  destruct (wrn_at n _ _ _ l Hb) as (b' & Eb' & Hb'); [lia|]. cbn [opos oleft obuf] in *.
  rewrite Eb'. cbn [mbind option_bind]. eexists; split; [done|]. rewrite <- app_assoc in Hb'.
  replace (oleft o - (Z.of_nat (length l) + 1)) with (oleft o - 1 - Z.of_nat (length l)) by lia.
  by replace (left - (1 + Z.of_nat (length l))) with (left - 1 - Z.of_nat (length l)) by lia.
Qed.

Lemma escaped2ll_loop_at n labels tail o w left ls :
  labels_ok labels -> out_at n o w left -> Z.of_nat (length (label_list labels)) <= left -> ls ≠ 0 ->
  exists rest, escaped2ll_loop (esc_text labels ++ 0 :: tail) o [] ls =
    Some (Z.of_nat (length w + length (label_list labels)), w ++ label_list labels ++ rest) /\
    length (w ++ label_list labels ++ rest) = n.
Proof.
  revert o w left ls; induction labels as [|l labels IH]; intros o w left ls Hok Ho Hleft Hls.
  { simpl in Hleft. cbn [esc_text flat_map app escaped2ll_loop]. rewrite decide_True by done.
    unfold escaped2ll_end. rewrite decide_False by tauto. cbn [mbind option_bind]. rewrite decide_True by done.
    destruct (push_label_at n o w left [] Ho) as (o' & -> & (Hn & Hp & _ & rest & Eb & _)); [simpl; lia..|].
    cbn in *. exists rest. rewrite Hp, Eb in *. rewrite <- app_assoc in *. cbn [app] in *.
    split; [|done]. do 3 f_equal. len_solve. }
  apply Forall_cons in Hok as [[Hl Hd] Hok]. rewrite length_label_list_cons in *.
  unfold esc_text. cbn [flat_map]. fold (esc_text labels). rewrite <- !app_assoc.
  rewrite read_esc_label by (done || (simpl; unfold DNS_MAX_ESCAPED_LEN; lia)). cbn [app].
  cbn [escaped2ll_loop]. rewrite (decide_False (P := chr_dot = 0)), decide_True by done.
  destruct (push_label_at n o w left l Ho) as (o1 & -> & H1); [lia..|]. cbn [mbind option_bind].
  destruct (IH o1 _ _ (Z.of_nat (length l)) Hok H1) as (rest & -> & Hlen); [lia..|].
  exists rest. unfold label_list in *. cbn [flat_map]. rewrite <- !app_assoc in *. cbn [app] in *.
  rewrite <- ?app_assoc in *. split; [|done]. do 3 f_equal. len_solve.
Qed.

(** A label list whose labels are not empty and contain no NUL byte survives the conversion to
    escaped text and back. *)
Theorem ll2escaped_escaped2ll labels escaped ll2 :
  labels_ok labels -> (length (esc_text labels) < length escaped)%nat ->
  (length (label_list labels) <= length ll2)%nat ->
  let ll := label_list labels in
  exists text ll', ll2escaped ll (length ll) escaped (Z.of_nat (length escaped)) =
      Some (Z.of_nat (length ll), text) /\ length text = length escaped /\
    escaped2ll text ll2 (Z.of_nat (length ll2)) = Some (Z.of_nat (length ll), ll') /\
    take (length ll) ll' = ll.
Proof.
  intros Hok He Hl ll. assert (Hpos : (1 <= length ll)%nat) by (unfold ll, label_list; len_solve).
  unfold ll2escaped, escaped2ll. rewrite !decide_False by lia.
  destruct (ll2escaped_loop_at (length escaped) labels [] (length ll + 1) (mk_out escaped 0 (Z.of_nat (length escaped)))
    [] (Z.of_nat (length escaped))) as (rest & E & Hn); [done| |unfold ll; lia|lia|].
  { repeat split; simpl. by exists escaped. }
  cbn [app length Nat.add] in E. exists (esc_text labels ++ 0 :: rest).
  destruct (escaped2ll_loop_at (length ll2) labels rest (mk_out ll2 0 (Z.of_nat (length ll2)))
    [] (Z.of_nat (length ll2)) (-1)) as (rest2 & E2 & Hn2); [done| |lia|done|].
  { repeat split; simpl. by exists ll2. }
  exists (ll ++ rest2). split; [exact E|]. split; [exact Hn|]. split; [|by rewrite take_app_length].
  rewrite decide_False by (unfold ll in *; lia). exact E2.
Qed.

(** A NUL byte in a label is written as an escape that the way back drops, so the label list
    changes. *)
Theorem escaped2ll_drops_nul :
  exists text, ll2escaped [2; 97; 0; 0] 4 (replicate 16 7) 16 = Some (4, text) /\
    escaped2ll text (replicate 4 7) 4 = Some (3, [1; 97; 0; 7]).
Proof. eexists. split; vm_compute; reflexivity. Qed.

Lemma dns_conversions_in_bounds_witness :
  (exists r b, escaped2ll [97; 46; 0] [9; 9; 9] 3 = Some (r, b) /\ length b = 3%nat /\ (r < 0 \/ r <= 3)) /\
  (exists r b, ll2escaped [1; 97; 0] 3 [9; 9; 9] 3 = Some (r, b) /\ length b = 3%nat /\ (r < 0 \/ r <= 3)).
Proof.
  split.
  - apply (proj1 dns_conversions_in_bounds [97; 46; 0] [9; 9; 9] 3); decided.
  - apply (proj2 dns_conversions_in_bounds [1; 97; 0] 3%nat [9; 9; 9] 3); decided.
Defined.

Lemma ll2escaped_escaped2ll_witness :
  let ll := label_list [[97; 46]; [98]] in
  exists text ll', ll2escaped ll (length ll) (replicate 16 9) 16 = Some (Z.of_nat (length ll), text) /\
    length text = 16%nat /\
    escaped2ll text (replicate 9 9) 9 = Some (Z.of_nat (length ll), ll') /\ take (length ll) ll' = ll.
Proof. apply (ll2escaped_escaped2ll [[97; 46]; [98]] (replicate 16 9) (replicate 9 9)); decided. Defined.
