(* ===== verification/DncpNotify.v ===== *)
(** Change notifications: the model of the TLV difference of
    [src/dncp_notify.c].

    Node data is a block of TLVs.  When it changes, every subscriber is told
    first which TLVs went away and then which are new, by walking both blocks in
    parallel.  This file holds the two walks; the loop over the subscribers is
    with the state of the protocol. *)
From S2P Require Import Prelude Tlv.

Definition attr : Type := Z * list Z.

#[global] Instance attr_eq_dec : EqDecision attr.
Proof. solve_decision. Defined.

(** [ENSURE_VALID(p, end)]: whether a whole padded TLV is left at [p]. *)
Definition ensure_valid (b : list Z) (p : nat) : option bool :=
  if decide (length b < p + 4)%nat then Some false
  else
    l ← tlv_pad_len b p;
    Some (bool_decide (p + l <= length b)%nat).

(** [while (p) { ENSURE_VALID(p, end); ...; p = tlv_next(p); }]: the TLVs seen.
    Each round moves at least four bytes. *)
Fixpoint drain (fuel : nat) (b : list Z) (p : nat) : option (list attr) :=
  match fuel with
  | O => None
  | S fuel =>
    v ← ensure_valid b p;
    if (v : bool) then
      t ← tlv_read b p;
      p ← tlv_next b p;
      r ← drain fuel b p;
      Some (t :: r)
    else Some []
  end.

(** First pass: the TLVs of the old block that the new one lacks. *)
Fixpoint removed_walk (fuel : nat) (ob nb : list Z) (op np : nat) : option (list attr) :=
  match fuel with
  | O => None
  | S fuel =>
    v ← ensure_valid ob op;
    if negb v then Some []
    else
      w ← ensure_valid nb np;
      if negb w then drain (S fuel) ob op
      else
        r ← tlv_attr_cmp (Some (ob, op)) (Some (nb, np));
        if decide (r = 0) then
          op ← tlv_next ob op;
          np ← tlv_next nb np;
          removed_walk fuel ob nb op np
        else if decide (r < 0) then
          t ← tlv_read ob op;
          op ← tlv_next ob op;
          rest ← removed_walk fuel ob nb op np;
          Some (t :: rest)
        else
          np ← tlv_next nb np;
          removed_walk fuel ob nb op np
  end.

(** Second pass: the TLVs of the new block that the old one lacks. *)
Fixpoint added_walk (fuel : nat) (ob nb : list Z) (op np : nat) : option (list attr) :=
  match fuel with
  | O => None
  | S fuel =>
    v ← ensure_valid ob op;
    if negb v then drain (S fuel) nb np
    else
      w ← ensure_valid nb np;
      if negb w then Some []
      else
        r ← tlv_attr_cmp (Some (ob, op)) (Some (nb, np));
        if decide (r = 0) then
          op ← tlv_next ob op;
          np ← tlv_next nb np;
          added_walk fuel ob nb op np
        else if decide (r < 0) then
          op ← tlv_next ob op;
          added_walk fuel ob nb op np
        else
          t ← tlv_read nb np;
          np ← tlv_next nb np;
          rest ← added_walk fuel ob nb op np;
          Some (t :: rest)
  end.

(** Rounds that are enough for blocks of these sizes. *)
Definition walk_fuel (ob nb : list Z) : nat := length ob + length nb + 1.

(** What one subscriber is told to remove; [None] is a [NULL] container. *)
Definition tlvs_removed (a_old a_new : option (list Z)) : option (list attr) :=
  match a_old, a_new with
  | Some ob, Some nb => removed_walk (walk_fuel ob nb) ob nb 0 0
  | Some ob, None => drain (walk_fuel ob []) ob 0
  | None, _ => Some []
  end.

Definition tlvs_added (a_old a_new : option (list Z)) : option (list attr) :=
  match a_old, a_new with
  | Some ob, Some nb => added_walk (walk_fuel ob nb) ob nb 0 0
  | None, Some nb => drain (walk_fuel [] nb) nb 0
  | _, None => Some []
  end.

(** ** The walks on well-formed blocks *)

(** The difference of two sorted lists, as the walks compute it. *)
Fixpoint merge_removed (os : list attr) : list attr -> list attr :=
  fix go (ns : list attr) : list attr :=
    match os, ns with
    | [], _ => []
    | _, [] => os
    | o :: os', n :: ns' =>
      if decide (tlv_cmp o n = 0) then merge_removed os' ns'
      else if decide (tlv_cmp o n < 0) then o :: merge_removed os' ns
      else go ns'
    end.

Fixpoint merge_added (os : list attr) : list attr -> list attr :=
  fix go (ns : list attr) : list attr :=
    match os, ns with
    | [], _ => ns
    | _, [] => []
    | o :: os', n :: ns' =>
      if decide (tlv_cmp o n = 0) then merge_added os' ns'
      else if decide (tlv_cmp o n < 0) then merge_added os' ns
      else n :: go ns'
    end.

Lemma ensure_valid_end pre : ensure_valid pre (length pre) = Some false.
Proof. unfold ensure_valid. by rewrite decide_True by lia. Qed.

Lemma ensure_valid_at b p t : at_pos b p t -> ensure_valid b p = Some true.
Proof.
  intros H. destruct (at_pos_lens _ _ _ H) as (_ & E & _ & _ & Hlen). unfold ensure_valid.
  rewrite length_enc_attr in *. rewrite decide_False by lia. rewrite E. cbn.
  by rewrite bool_decide_true by lia.
Qed.

(** The suffix [ts] of a block starts at offset [p]. *)
Definition suffix_at (b : list Z) (p : nat) (ts : list attr) : Prop :=
  exists pre, b = pre ++ enc ts /\ length pre = p /\ tlvs_ok ts.

Lemma suffix_at_nil b p : suffix_at b p [] -> ensure_valid b p = Some false.
Proof. intros (pre & -> & <- & _). rewrite app_nil_r. apply ensure_valid_end. Qed.

Lemma suffix_at_cons b p t ts :
  suffix_at b p (t :: ts) ->
  at_pos b p t /\ suffix_at b (p + length (enc_attr t.1 t.2)) ts /\
  ensure_valid b p = Some true /\ tlv_read b p = Some t /\
  tlv_next b p = Some (p + length (enc_attr t.1 t.2))%nat.
Proof.
  destruct t as [id d]. intros (pre & -> & <- & Hok). apply Forall_cons in Hok as [Hd Hok].
  assert (at_pos (pre ++ enc ((id, d) :: ts)) (length pre) (id, d)) as Hat.
  { split; [done|]. by exists pre, (enc ts). }
  split; [done|]. split.
  { exists (pre ++ enc_attr id d). rewrite <- app_assoc, length_app. done. }
  split; [by eapply ensure_valid_at|]. split; [by apply at_pos_read|]. by apply at_pos_lens in Hat as (_ & _ & ? & _).
Qed.

Lemma length_enc_attr_pos id d : (4 <= length (enc_attr id d))%nat.
Proof. rewrite length_enc_attr. lia. Qed.

Lemma length_enc_cons t ts : length (enc (t :: ts)) = (length (enc_attr t.1 t.2) + length (enc ts))%nat.
Proof. destruct t. by rewrite enc_cons, length_app. Qed.

Lemma drain_spec fuel b p ts :
  suffix_at b p ts -> (length (enc ts) < fuel)%nat -> drain fuel b p = Some ts.
Proof.
  revert p ts; induction fuel as [|fuel IH]; intros p ts Hs Hf; [lia|]. cbn [drain].
  destruct ts as [|t ts]; [by rewrite (suffix_at_nil _ _ Hs)|].
  destruct (suffix_at_cons _ _ _ _ Hs) as (_ & Hs' & -> & -> & ->). cbn [mbind option_bind].
  rewrite length_enc_cons in Hf. pose proof (length_enc_attr_pos t.1 t.2).
  rewrite (IH _ ts Hs') by lia. done.
Qed.

Lemma removed_walk_spec fuel ob nb op np os ns :
  suffix_at ob op os -> suffix_at nb np ns -> (length (enc os) + length (enc ns) < fuel)%nat ->
  removed_walk fuel ob nb op np = Some (merge_removed os ns).
Proof.
  revert op np os ns; induction fuel as [|fuel IH]; intros op np os ns Ho Hn Hf; [lia|].
  cbn [removed_walk]. destruct os as [|o os].
  { rewrite (suffix_at_nil _ _ Ho). by destruct ns. }
  destruct (suffix_at_cons _ _ _ _ Ho) as (Hao & Ho' & -> & Ero & Eno). cbn [mbind option_bind negb].
  destruct ns as [|n ns].
  { rewrite (suffix_at_nil _ _ Hn). cbn [mbind option_bind negb].
    rewrite (drain_spec _ _ _ (o :: os) Ho) by lia. done. }
  destruct (suffix_at_cons _ _ _ _ Hn) as (Han & Hn' & -> & Ern & Enn). cbn [mbind option_bind negb].
  rewrite (tlv_attr_cmp_at _ _ _ _ _ _ Hao Han). cbn [mbind option_bind merge_removed].
  rewrite !length_enc_cons in Hf.
  pose proof (length_enc_attr_pos o.1 o.2). pose proof (length_enc_attr_pos n.1 n.2).
  rewrite Eno, Ero, Enn. case_decide; [|case_decide]; cbn [mbind option_bind].
  - apply IH; [done..|lia].
  - erewrite IH; [done|done|exact Hn|rewrite length_enc_cons; lia].
  - apply (IH _ _ (o :: os)); [done..|rewrite length_enc_cons; lia].
Qed.

Lemma added_walk_spec fuel ob nb op np os ns :
  suffix_at ob op os -> suffix_at nb np ns -> (length (enc os) + length (enc ns) < fuel)%nat ->
  added_walk fuel ob nb op np = Some (merge_added os ns).
Proof.
  revert op np os ns; induction fuel as [|fuel IH]; intros op np os ns Ho Hn Hf; [lia|].
  cbn [added_walk]. destruct os as [|o os].
  { rewrite (suffix_at_nil _ _ Ho). cbn [mbind option_bind negb].
    rewrite (drain_spec _ _ _ ns Hn) by lia. by destruct ns. }
  destruct (suffix_at_cons _ _ _ _ Ho) as (Hao & Ho' & -> & Ero & Eno). cbn [mbind option_bind negb].
  destruct ns as [|n ns].
  { by rewrite (suffix_at_nil _ _ Hn). }
  destruct (suffix_at_cons _ _ _ _ Hn) as (Han & Hn' & -> & Ern & Enn). cbn [mbind option_bind negb].
  rewrite (tlv_attr_cmp_at _ _ _ _ _ _ Hao Han). cbn [mbind option_bind merge_added].
  rewrite !length_enc_cons in Hf.
  pose proof (length_enc_attr_pos o.1 o.2). pose proof (length_enc_attr_pos n.1 n.2).
  rewrite Eno, Ern, Enn. case_decide; [|case_decide]; cbn [mbind option_bind].
  - apply IH; [done..|lia].
  - apply IH; [done..|rewrite length_enc_cons; lia].
  - erewrite (IH _ _ (o :: os)); [done|done..|rewrite length_enc_cons; lia].
Qed.

(** ** The differences of sorted data *)

Definition tlv_lt (t u : attr) : Prop := tlv_cmp t u < 0.

(** Node data as it is published: sorted by [tlv_attr_cmp], without duplicates. *)
Definition tlvs_sorted (ts : list attr) : Prop := tlvs_ok ts /\ StronglySorted tlv_lt ts.

Lemma tlv_lt_trans t u v : tlv_ok t -> tlv_ok u -> tlv_ok v -> tlv_lt t u -> tlv_lt u v -> tlv_lt t v.
Proof.
  unfold tlv_lt. intros Ht Hu Hv H1 H2.
  pose proof (tlv_cmp_trans t u v Ht Hu Hv ltac:(lia) ltac:(lia)) as H.
  destruct (decide (tlv_cmp t v = 0)) as [E|]; [|lia].
  apply tlv_cmp_0 in E as ->; [|done..]. unfold tlv_cmp in *. rewrite (memcmp_antisym (raw u)) in H1. lia.
Qed.

Lemma tlvs_sorted_cons t ts :
  tlvs_sorted (t :: ts) <-> tlv_ok t /\ tlvs_sorted ts /\ Forall (tlv_lt t) ts.
Proof.
  unfold tlvs_sorted, tlvs_ok. rewrite Forall_cons. split.
  - intros [[H1 H2] H3]. by apply StronglySorted_inv in H3 as [H3 H4].
  - intros (H1 & [H2 H3] & H4). split; [done|]. by constructor.
Qed.

(** A TLV below the head of a sorted list is not in it. *)
Lemma below_head_notin t u us :
  tlv_ok t -> tlvs_sorted (u :: us) -> tlv_lt t u -> t ∉ u :: us.
Proof.
  intros Ht (Hu & [Hok _] & Hlt)%tlvs_sorted_cons Htu.
  assert (Forall (tlv_lt t) (u :: us)) as H.
  { constructor; [done|]. unfold tlvs_ok in Hok. rewrite !Forall_forall in *. intros v Hv.
    apply (tlv_lt_trans t u v); [done|done|by apply Hok|done|by apply Hlt]. }
  intros Hin. rewrite Forall_forall in H. specialize (H t Hin). unfold tlv_lt in H.
  by rewrite (proj2 (tlv_cmp_0 t t Ht Ht) eq_refl) in H.
Qed.

Lemma filter_notin_cons (x : attr) (us ts : list attr) :
  x ∉ ts -> filter (fun t => t ∉ x :: us) ts = filter (fun t => t ∉ us) ts.
Proof.
  intros Hx. apply filter_ext_in. intros t Ht. rewrite not_elem_of_cons. split; [tauto|].
  intros H. split; [|done]. by intros ->.
Qed.

Lemma merge_removed_filter os ns :
  tlvs_sorted os -> tlvs_sorted ns -> merge_removed os ns = filter (fun t => t ∉ ns) os.
Proof.
  revert ns; induction os as [|o os IHo]; intros ns Ho; [by destruct ns|].
  induction ns as [|n ns IHn]; intros Hn.
  { cbn [merge_removed]. symmetry. apply filter_all. intros; apply not_elem_of_nil. }
  pose proof Ho as (Hoo & Hos & Hlo)%tlvs_sorted_cons. pose proof Hn as (Hnn & Hns & Hln)%tlvs_sorted_cons.
  cbn [merge_removed]. case_decide as E0; [|case_decide as E1].
  - apply tlv_cmp_0 in E0 as ->; [|done..]. rewrite filter_cons_False by (intros H; apply H; left).
    rewrite IHo by done. rewrite filter_notin_cons; [done|]. intros Hin.
    rewrite Forall_forall in Hlo. specialize (Hlo n Hin). unfold tlv_lt in Hlo.
    rewrite (proj2 (tlv_cmp_0 n n Hnn Hnn) eq_refl) in Hlo. lia.
  - rewrite filter_cons_True by (by apply below_head_notin). by rewrite IHo.
  - specialize (IHn Hns). etransitivity; [exact IHn|]. symmetry. apply filter_notin_cons.
    apply below_head_notin; [done..|]. unfold tlv_lt, tlv_cmp in *. rewrite memcmp_antisym. lia.
Qed.

Lemma merge_added_filter os ns :
  tlvs_sorted os -> tlvs_sorted ns -> merge_added os ns = filter (fun t => t ∉ os) ns.
Proof.
  revert ns; induction os as [|o os IHo]; intros ns Ho.
  { intros _. destruct ns; cbn [merge_added]; symmetry; apply filter_all; intros; apply not_elem_of_nil. }
  induction ns as [|n ns IHn]; intros Hn; [done|].
  pose proof Ho as (Hoo & Hos & Hlo)%tlvs_sorted_cons. pose proof Hn as (Hnn & Hns & Hln)%tlvs_sorted_cons.
  cbn [merge_added]. case_decide as E0; [|case_decide as E1].
  - apply tlv_cmp_0 in E0 as ->; [|done..]. rewrite filter_cons_False by (intros H; apply H; left).
    rewrite IHo by done. rewrite filter_notin_cons; [done|]. intros Hin.
    rewrite Forall_forall in Hln. specialize (Hln n Hin). unfold tlv_lt in Hln.
    rewrite (proj2 (tlv_cmp_0 n n Hnn Hnn) eq_refl) in Hln. lia.
  - rewrite IHo by done. symmetry. apply filter_notin_cons. by apply below_head_notin.
  - specialize (IHn Hns). rewrite filter_cons_True.
    + f_equal. exact IHn.
    + apply below_head_notin; [done..|]. unfold tlv_lt, tlv_cmp in *. rewrite memcmp_antisym. lia.
Qed.

Lemma suffix_at_enc ts : tlvs_ok ts -> suffix_at (enc ts) 0 ts.
Proof. intros H. by exists []. Qed.

(** A sorted block, or no block at all. *)
Definition data_of (a : option (list Z)) (ts : list attr) : Prop :=
  tlvs_sorted ts /\ match a with Some b => b = enc ts | None => ts = [] end.

Lemma tlvs_diff a_old a_new os ns :
  data_of a_old os -> data_of a_new ns ->
  tlvs_removed a_old a_new = Some (filter (fun t => t ∉ ns) os) /\
  tlvs_added a_old a_new = Some (filter (fun t => t ∉ os) ns).
Proof.
  intros [Hos Ho] [Hns Hn].
  assert (Hall : forall ts : list attr, filter (fun t => t ∉ @nil attr) ts = ts).
  { intros ts. apply filter_all. intros; apply not_elem_of_nil. }
  destruct a_old as [ob|], a_new as [nb|]; subst; cbn [tlvs_removed tlvs_added]; unfold walk_fuel; rewrite ?Hall.
  - rewrite (removed_walk_spec _ _ _ _ _ os ns), (added_walk_spec _ _ _ _ _ os ns)
      by first [apply suffix_at_enc; by (apply Hos || apply Hns)|lia].
    by rewrite merge_removed_filter, merge_added_filter.
  - rewrite (drain_spec _ _ _ os) by first [apply suffix_at_enc; apply Hos|lia]. done.
  - rewrite (drain_spec _ _ _ ns) by first [apply suffix_at_enc; apply Hns|simpl; lia]. done.
  - done.
Qed.

(** ** The walks on arbitrary blocks *)

(** Where [ENSURE_VALID] succeeds a whole TLV can be read. *)
Lemma ensure_valid_cases b p :
  ensure_valid b p = Some false \/
  (ensure_valid b p = Some true /\ exists t n, tlv_read b p = Some t /\ tlv_len b p = Some n /\
     tlv_next b p = Some (p + (n + 4 + padn n))%nat /\ (p + (n + 4 + padn n) <= length b)%nat).
Proof.
  unfold ensure_valid. case_decide as E4; [by left|].
  destruct (tlv_raw_len_Some b p) as (n & En & Er & Enext); [lia|].
  unfold tlv_pad_len. rewrite Er. cbn. rewrite align4_padn. case_bool_decide as Ele; [right|by left].
  split; [done|]. unfold tlv_read, tlv_payload, tlv_id. rewrite En.
  destruct (rd32_Some b p) as [v Ev]; [lia|]. rewrite Ev. cbn. rewrite rdn_Some by lia. cbn.
  do 2 eexists. done.
Qed.

Lemma tlv_len_header m p m' p' : rdn m p 4 = rdn m' p' 4 -> tlv_len m p = tlv_len m' p'.
Proof. intros E. unfold tlv_len, rd32. by rewrite E. Qed.

Lemma tlv_attr_cmp_total ob op nb np :
  ensure_valid ob op = Some true -> ensure_valid nb np = Some true ->
  exists r, tlv_attr_cmp (Some (ob, op)) (Some (nb, np)) = Some r.
Proof.
  intros Ho Hn. destruct (ensure_valid_cases ob op) as [|(_ & _ & n & _ & En & _ & Hle)]; [congruence|].
  destruct (ensure_valid_cases nb np) as [|(_ & _ & n' & _ & En' & _ & Hle')]; [congruence|].
  unfold tlv_attr_cmp. rewrite (rdn_Some ob op 4), (rdn_Some nb np 4) by lia. cbn [mbind option_bind].
  case_decide as E; [by eexists|]. unfold tlv_raw_len. rewrite En. cbn [mbind option_bind].
  assert (n' = n) as ->.
  { apply memcmp_0 in E; [|len_solve].
    assert (tlv_len ob op = tlv_len nb np); [|congruence].
    apply tlv_len_header. rewrite !rdn_Some by lia. by f_equal. }
  rewrite !rdn_Some by lia. by eexists.
Qed.

Lemma drain_total fuel b p : (length b < p + fuel)%nat -> (0 < fuel)%nat -> is_Some (drain fuel b p).
Proof.
  revert p; induction fuel as [|fuel IH]; intros p Hf H0; [lia|]. cbn [drain].
  destruct (ensure_valid_cases b p) as [->|(-> & t & n & -> & _ & -> & Hle)]; [by eexists|]. cbn [mbind option_bind].
  destruct (IH (p + (n + 4 + padn n))%nat) as [r ->]; [lia..|]. by eexists.
Qed.


Lemma removed_walk_total fuel ob nb op np :
  (op <= length ob)%nat -> (np <= length nb)%nat ->
  (length ob + length nb < op + np + fuel)%nat -> is_Some (removed_walk fuel ob nb op np).
Proof.
  revert op np; induction fuel as [|fuel IH]; intros op np Ho Hn Hf; [lia|]. cbn [removed_walk].
  destruct (ensure_valid_cases ob op) as [->|(Evo & t & n & Et & _ & Eno & Hle)]; [by eexists|].
  rewrite Evo. cbn [mbind option_bind negb].
  destruct (ensure_valid_cases nb np) as [->|(Evn & t' & n' & _ & _ & Enn & Hle')]; cbn [mbind option_bind negb].
  { apply drain_total; lia. }
  rewrite Evn. cbn [mbind option_bind negb]. destruct (tlv_attr_cmp_total _ _ _ _ Evo Evn) as [r ->].
  cbn [mbind option_bind]. rewrite Eno, Enn, Et. cbn [mbind option_bind].
  repeat case_decide; cbn [mbind option_bind]; [apply IH; lia| |apply IH; lia].
  destruct (IH (op + (n + 4 + padn n))%nat np) as [x ->]; [lia..|]. by eexists.
Qed.

Lemma added_walk_total fuel ob nb op np :
  (op <= length ob)%nat -> (np <= length nb)%nat ->
  (length ob + length nb < op + np + fuel)%nat -> is_Some (added_walk fuel ob nb op np).
Proof.
  revert op np; induction fuel as [|fuel IH]; intros op np Ho Hn Hf; [lia|]. cbn [added_walk].
  destruct (ensure_valid_cases ob op) as [->|(Evo & t & n & _ & _ & Eno & Hle)]; cbn [mbind option_bind negb].
  { apply drain_total; lia. }
  rewrite Evo. cbn [mbind option_bind negb].
  destruct (ensure_valid_cases nb np) as [->|(Evn & t' & n' & Et & _ & Enn & Hle')]; cbn [mbind option_bind negb].
  { by eexists. }
  rewrite Evn. cbn [mbind option_bind negb]. destruct (tlv_attr_cmp_total _ _ _ _ Evo Evn) as [r ->].
  cbn [mbind option_bind]. rewrite Eno, Enn, Et. cbn [mbind option_bind].
  repeat case_decide; cbn [mbind option_bind]; [apply IH; lia|apply IH; lia|].
  destruct (IH op (np + (n' + 4 + padn n'))%nat) as [x ->]; [lia..|]. by eexists.
Qed.

(** Whatever the data, the walks end and read inside the blocks. *)
Lemma tlvs_diff_total a_old a_new :
  is_Some (tlvs_removed a_old a_new) /\ is_Some (tlvs_added a_old a_new).
Proof.
  destruct a_old as [ob|], a_new as [nb|]; cbn [tlvs_removed tlvs_added]; unfold walk_fuel; split;
    first [by eexists|apply removed_walk_total; lia|apply added_walk_total; lia|apply drain_total; simpl; lia].
Qed.
