(* ===== verification/DncpIndex.v ===== *)
(** The per-node TLV index of [src/dncp.c]: [dncp_add_tlv_index],
    [dncp_node_recalculate_index], [dncp_node_get_tlv_with_type] and the loop
    [dncp_node_for_each_tlv_with_t_v] of [src/dncp.h].

    Types get index numbers on first use.  A node caches, for each number, the
    offsets of the first TLV of the type and of the one after the last. *)
From S2P Require Import Prelude Tlv DncpNotify.

(** [tlv_type_to_index] (its length is [tlv_type_to_index_length]) and
    [num_tlv_indexes]. *)
Record tindex := mk_tindex { type_to_index : list nat; num_indexes : nat }.

Definition tindex_empty : tindex := mk_tindex [] 0.

Definition dncp_add_tlv_index (ix : tindex) (type : nat) : tindex :=
  let grown := if decide (type < length (type_to_index ix))%nat then type_to_index ix
               else type_to_index ix ++ replicate (type + 1 - length (type_to_index ix)) 0%nat in
  if decide ((type < length (type_to_index ix))%nat /\ default 0%nat (type_to_index ix !! type) ≠ 0%nat) then ix
  else mk_tindex (<[type := (num_indexes ix + 1)%nat]> grown) (num_indexes ix + 1).

(** The loop of [dncp_node_recalculate_index] over the positions [ps] of the
    container [c]; [type] is the type of the run, [idx] its number or 0. *)
Fixpoint recalculate_loop (ix : tindex) (c : list Z) (ps : list nat) (type : Z) (idx : nat)
    (arr : list (option nat)) : option (list (option nat)) :=
  match ps with
  | [] => Some arr
  | a :: ps =>
    id ← tlv_id c a;
    next ← tlv_next c a;
    if decide (id ≠ type) then
      if decide (Z.of_nat (length (type_to_index ix)) <= id) then Some arr
      else
        idx ← type_to_index ix !! Z.to_nat id;
        if decide (idx = 0)%nat then recalculate_loop ix c ps id idx arr
        else
          arr ← set_at arr (2 * idx - 2) (Some a);
          arr ← set_at arr (2 * idx - 1) (Some next);
          recalculate_loop ix c ps id idx arr
    else if decide (idx ≠ 0)%nat then
      arr ← set_at arr (2 * idx - 1) (Some next);
      recalculate_loop ix c ps type idx arr
    else recalculate_loop ix c ps type idx arr
  end.

(** [tlv_index]: first the pairs for the container, then those for the valid
    container, which is the same block or nothing. *)
Definition dncp_node_recalculate_index (ix : tindex) (c : list Z) (valid : bool)
  : option (list (option nat)) :=
  let half := (2 * num_indexes ix)%nat in
  ps ← tlv_for_each_in_buf c 0 (length c);
  arr ← recalculate_loop ix c ps (-1) 0 (replicate (2 * half) None);
  Some (if valid then take half arr ++ take half arr else arr).

(** The cache of a node: [tlv_index] and [tlv_index_dirty]. *)
Record tcache := mk_tcache { tlv_index : option (list (option nat)); tlv_index_dirty : bool }.

(** [dncp_node_get_tlv_with_type]; registering a type drops the caches of all
    nodes, of which this is one. *)
Definition dncp_node_get_tlv_with_type (ix : tindex) (k : tcache) (c : list Z) (valid_c : bool)
    (type : nat) (first valid : bool) : option (tindex * tcache * option nat) :=
  let registered := bool_decide (type < length (type_to_index ix))%nat &&
                    bool_decide (default 0%nat (type_to_index ix !! type) ≠ 0%nat) in
  let ix' := if registered then ix else dncp_add_tlv_index ix type in
  let k := if registered then k else mk_tcache None true in
  arr ← (if tlv_index_dirty k then dncp_node_recalculate_index ix' c valid_c else tlv_index k);
  idx ← type_to_index ix' !! type;
  let index := (idx - 1 + if (valid : bool) then num_indexes ix' else 0)%nat in
  r ← arr !! (index * 2 + if (first : bool) then 0 else 1)%nat;
  Some (ix', mk_tcache (Some arr) false, r).

(** The loop [for (a = first; a && a != last; a = tlv_next(a))]: the TLVs seen. *)
Fixpoint range_walk (fuel : nat) (c : list Z) (a last : nat) : option (list attr) :=
  if decide (a = last) then Some []
  else match fuel with
  | O => None
  | S fuel =>
    t ← tlv_read c a;
    next ← tlv_next c a;
    rest ← range_walk fuel c next last;
    Some (t :: rest)
  end.

(** [dncp_node_for_each_tlv_with_t_v(n, a, type, valid)]. *)
Definition dncp_node_for_each_tlv_with_t_v (ix : tindex) (k : tcache) (c : list Z) (valid_c : bool)
    (type : nat) (valid : bool) : option (tindex * tcache * list attr) :=
  '(ix, k, a) ← dncp_node_get_tlv_with_type ix k c valid_c type true valid;
  match a with
  | None => Some (ix, k, [])
  | Some a =>
    '(ix, k, l) ← dncp_node_get_tlv_with_type ix k c valid_c type false valid;
    last ← l;
    ts ← range_walk (length c + 1) c a last;
    Some (ix, k, ts)
  end.

(** ** The index finds the TLVs of a type *)

Definition tindex_wf (ix : tindex) : Prop :=
  (forall T i, type_to_index ix !! T = Some i -> (i <= num_indexes ix)%nat) /\
  (forall T T' i, type_to_index ix !! T = Some i -> type_to_index ix !! T' = Some i -> i ≠ 0%nat -> T = T').

Definition registered (ix : tindex) (T : nat) : Prop :=
  exists i, type_to_index ix !! T = Some i /\ i ≠ 0%nat.

Definition of_type (T : Z) (ts : list attr) : list attr := filter (fun t => t.1 = T) ts.
Definition below (T : Z) (ts : list attr) : list attr := filter (fun t => t.1 < T) ts.
Definition above (T : Z) (ts : list attr) : list attr := filter (fun t => T < t.1) ts.

Definition by_type (ts : list attr) : Prop := StronglySorted (fun t u => t.1 <= u.1) ts.

Lemma tindex_empty_wf : tindex_wf tindex_empty.
Proof. split; cbn; intros *; by rewrite lookup_nil. Qed.

Lemma dncp_add_tlv_index_wf ix T :
  tindex_wf ix -> tindex_wf (dncp_add_tlv_index ix T) /\ registered (dncp_add_tlv_index ix T) T.
Proof.
  intros [Hle Hinj]. unfold dncp_add_tlv_index. case_decide as E.
  { split; [done|]. destruct E as [Hlt Hne]. destruct (type_to_index ix !! T) eqn:El; [|done]. by eexists. }
  set (g := if decide (T < length (type_to_index ix))%nat then _ else _).
  assert (Hg : (T < length g)%nat) by (unfold g; case_decide; [done|len_solve]).
  assert (Hlook : forall T' i, g !! T' = Some i -> i ≠ 0%nat -> type_to_index ix !! T' = Some i).
  { intros T' i Hi Hne. unfold g in Hi. case_decide; [done|].
    apply lookup_app_Some in Hi as [|[_ [Hi _]%lookup_replicate]]; done. }
  assert (Hbound : forall T' i, g !! T' = Some i -> (i <= num_indexes ix)%nat).
  { intros T' i Hi. destruct (decide (i = 0)%nat); [lia|]. eauto. }
  split; [|exists (num_indexes ix + 1)%nat; cbn; rewrite list_lookup_insert_eq by done; split; [done|lia]].
  split; cbn.
  - intros T' i Hi. apply list_lookup_insert_Some in Hi as [(-> & <- & _)|[_ Hi]]; [lia|].
    apply Hbound in Hi. lia.
  - intros T1 T2 i H1 H2 Hne. apply list_lookup_insert_Some in H1 as [(-> & <- & _)|[_ H1]],
      H2 as [(E2 & Ei & _)|[_ H2]]; subst; try done.
    + apply Hbound in H2. lia.
    + apply Hbound in H1. lia.
    + eauto.
Qed.

Lemma by_type_cons t ts : by_type (t :: ts) <-> by_type ts /\ Forall (fun u => t.1 <= u.1) ts.
Proof.
  split; [by intros [? ?]%StronglySorted_inv|]. intros []. by constructor.
Qed.

Lemma below_cons T t ts : below T (t :: ts) = if decide (t.1 < T) then t :: below T ts else below T ts.
Proof. reflexivity. Qed.
Lemma of_type_cons T t ts : of_type T (t :: ts) = if decide (t.1 = T) then t :: of_type T ts else of_type T ts.
Proof. reflexivity. Qed.
Lemma above_cons T t ts : above T (t :: ts) = if decide (T < t.1) then t :: above T ts else above T ts.
Proof. reflexivity. Qed.

Lemma by_type_split T ts : by_type ts -> ts = below T ts ++ of_type T ts ++ above T ts.
Proof.
  induction ts as [|t ts IH]; intros Hs; [done|]. apply by_type_cons in Hs as [Hs Ht].
  specialize (IH Hs). rewrite Forall_forall in Ht. rewrite below_cons, of_type_cons, above_cons.
  destruct (decide (t.1 < T)).
  - rewrite !decide_False by lia. cbn [app]. by f_equal.
  - assert (below T ts = []) as E1 by (apply filter_none; intros x Hx; specialize (Ht x Hx); lia).
    rewrite E1 in *. cbn [app] in *. destruct (decide (t.1 = T)).
    + rewrite decide_False by lia. cbn [app]. by f_equal.
    + assert (of_type T ts = []) as E2 by (apply filter_none; intros x Hx; specialize (Ht x Hx); lia).
      rewrite E2 in *. rewrite decide_True by lia. cbn [app] in *. by f_equal.
Qed.

(** The pair the index holds for a type once the TLVs [seen] are processed. *)
Definition entry (T : Z) (seen : list attr) : option nat * option nat :=
  if decide (of_type T seen = []) then (None, None)
  else (Some (length (enc (below T seen))),
        Some (length (enc (below T seen)) + length (enc (of_type T seen)))%nat).

Definition index_inv (ix : tindex) (arr : list (option nat)) (seen : list attr) : Prop :=
  length arr = (4 * num_indexes ix)%nat /\
  (forall T i, type_to_index ix !! T = Some i -> i ≠ 0%nat ->
     arr !! (2 * i - 2)%nat = Some (entry (Z.of_nat T) seen).1 /\
     arr !! (2 * i - 1)%nat = Some (entry (Z.of_nat T) seen).2) /\
  (forall j, (2 * num_indexes ix <= j < 4 * num_indexes ix)%nat -> arr !! j = Some None).

Lemma of_type_snoc T seen t :
  of_type T (seen ++ [t]) = of_type T seen ++ (if decide (t.1 = T) then [t] else []).
Proof. unfold of_type. by rewrite filter_app. Qed.

Lemma below_snoc T seen t :
  below T (seen ++ [t]) = below T seen ++ (if decide (t.1 < T) then [t] else []).
Proof. unfold below. by rewrite filter_app. Qed.

(** A TLV of another type leaves the entry of a type alone. *)
Lemma entry_other T seen t :
  Forall (fun u => u.1 <= t.1) seen -> t.1 ≠ T -> entry T (seen ++ [t]) = entry T seen.
Proof.
  intros Hs Hne. unfold entry. rewrite of_type_snoc, below_snoc, (decide_False (P := t.1 = T)), app_nil_r by done.
  case_decide as E; [done|]. rewrite decide_False, app_nil_r; [done|]. intros Hlt.
  apply E. apply filter_none. rewrite Forall_forall in Hs. intros x Hx. specialize (Hs x Hx). lia.
Qed.

(** A TLV of the type itself ends its run. *)
Lemma entry_same T seen t :
  by_type seen -> Forall (fun u => u.1 <= t.1) seen -> t.1 = T ->
  entry T (seen ++ [t]) =
    (if decide (of_type T seen = []) then Some (length (enc seen)) else (entry T seen).1,
     Some (length (enc seen) + length (enc_attr t.1 t.2))%nat).
Proof.
  intros Hb Hs HT. rewrite Forall_forall in Hs. unfold entry. rewrite of_type_snoc, below_snoc.
  rewrite (decide_True (P := t.1 = T)), (decide_False (P := t.1 < T)), app_nil_r by lia.
  rewrite (decide_False (P := of_type T seen ++ [t] = [])) by (by intros [_ ?]%app_nil).
  assert (Hlen : (length (enc (below T seen)) + length (enc (of_type T seen)) = length (enc seen))%nat).
  { rewrite (by_type_split T seen Hb) at 3. rewrite !enc_app, !length_app.
    replace (above T seen) with (@nil attr); [simpl; lia|].
    symmetry. apply filter_none. intros x Hx. specialize (Hs x Hx). lia. }
  rewrite enc_app, length_app, (length_enc_cons t). change (length (enc [])) with 0%nat.
  case_decide as E; [rewrite E in *; change (length (enc [])) with 0%nat in *|]; cbn [fst snd];
    rewrite ?Nat.add_assoc, ?Hlen, ?Nat.add_0_r; [|done]. rewrite Nat.add_0_r in Hlen. by rewrite Hlen.
Qed.

Lemma by_type_snoc seen t : by_type (seen ++ [t]) -> by_type seen /\ Forall (fun u => u.1 <= t.1) seen.
Proof.
  induction seen as [|s seen IH]; [by repeat constructor|]. cbn [app]. rewrite !by_type_cons.
  intros [Hs Hf]. apply Forall_app in Hf as [Hf Ht]. destruct (IH Hs) as [H1 H2]. split; [done|].
  constructor; [by inversion Ht|done].
Qed.

Lemma index_inv_other ix arr seen t :
  index_inv ix arr seen -> Forall (fun u => u.1 <= t.1) seen ->
  (forall T, registered ix T -> t.1 ≠ Z.of_nat T) -> index_inv ix arr (seen ++ [t]).
Proof.
  intros (Hl & He & Hn) Hs Ht. split; [done|]. split; [|done]. intros T i Hi Hne.
  rewrite entry_other by (done || apply Ht; by exists i). by apply He.
Qed.

Lemma index_inv_same ix arr seen t T i a :
  tindex_wf ix -> index_inv ix arr seen -> by_type seen -> Forall (fun u => u.1 <= t.1) seen ->
  t.1 = Z.of_nat T -> type_to_index ix !! T = Some i -> i ≠ 0%nat ->
  a = (if decide (of_type (Z.of_nat T) seen = []) then Some (length (enc seen)) else (entry (Z.of_nat T) seen).1) ->
  exists arr1 arr2, set_at arr (2 * i - 2) a = Some arr1 /\
    set_at arr1 (2 * i - 1) (Some (length (enc seen) + length (enc_attr t.1 t.2))%nat) = Some arr2 /\
    index_inv ix arr2 (seen ++ [t]).
Proof.
  intros [Hle Hinj] (Hl & He & Hn) Hb Hs HT Hi Hne Ha. pose proof (Hle T i Hi).
  rewrite set_at_Some by lia. do 2 eexists. split; [done|]. rewrite set_at_Some by len_solve. split; [done|].
  split; [by rewrite !length_insert|]. split.
  - intros T' i' Hi' Hne'. destruct (decide (T' = T)) as [->|HTT].
    + replace i' with i by congruence. rewrite entry_same by done. rewrite <- Ha. cbn [fst snd].
      rewrite list_lookup_insert_ne, list_lookup_insert_eq, list_lookup_insert_eq by (rewrite ?length_insert; lia). done.
    + rewrite entry_other by (done || lia).
      assert (i' ≠ i) by (intros ->; apply HTT; eauto). rewrite !list_lookup_insert_ne by lia. by apply He.
  - intros j Hj. rewrite !list_lookup_insert_ne by lia. by apply Hn.
Qed.

Lemma registered_lt ix T : registered ix T -> (T < length (type_to_index ix))%nat.
Proof. intros (i & Hi & _). by eapply lookup_lt_Some. Qed.

Lemma snoc_app {A} (l : list A) x r : l ++ x :: r = (l ++ [x]) ++ r.
Proof. by rewrite <- app_assoc. Qed.

Lemma by_type_app l r : by_type (l ++ r) -> by_type l /\ by_type r.
Proof.
  induction l as [|x l IH]; cbn [app]; [by repeat constructor|]. rewrite !by_type_cons.
  intros [Hs [Hf _]%Forall_app]. destruct (IH Hs). done.
Qed.

Lemma index_inv_break ix arr seen rest :
  by_type (seen ++ rest) -> index_inv ix arr seen ->
  Forall (fun t => Z.of_nat (length (type_to_index ix)) <= t.1) rest -> index_inv ix arr (seen ++ rest).
Proof.
  revert seen; induction rest as [|t rest IH]; intros seen Hb Hinv Hr; [by rewrite app_nil_r|].
  apply Forall_cons in Hr as [Ht Hr]. rewrite snoc_app in Hb |- *. apply IH; [done| |done].
  apply by_type_app in Hb as [[_ Hs]%by_type_snoc _]. apply index_inv_other; [done..|].
  intros T HT%registered_lt. lia.
Qed.

(** The run the loop is in: none yet, or that of the last TLV. *)
Definition run_of (ix : tindex) (seen : list attr) (type : Z) (idx : nat) : Prop :=
  (seen = [] /\ type = -1 /\ idx = 0%nat) \/
  (exists s t, seen = s ++ [t] /\ type = t.1 /\ type_to_index ix !! Z.to_nat type = Some idx).

Lemma run_of_snoc ix seen t : forall idx, type_to_index ix !! Z.to_nat t.1 = Some idx ->
  run_of ix (seen ++ [t]) t.1 idx.
Proof. intros. right. by exists seen, t. Qed.

Lemma of_type_run seen t type :
  by_type (seen ++ [t]) -> Forall (fun u => 0 <= u.1) (seen ++ [t]) ->
  forall ix idx, run_of ix seen type idx ->
  (t.1 ≠ type -> of_type t.1 seen = []) /\ (t.1 = type -> of_type t.1 seen ≠ []).
Proof.
  intros Hb Hpos ix idx Hrun. destruct Hrun as [(-> & -> & _)|(s & u & -> & -> & _)].
  { split; [done|]. intros E. apply Forall_app in Hpos as [_ Hpos]. inversion Hpos; subst. lia. }
  apply by_type_snoc in Hb as [Hb Hle]. apply Forall_app in Hle as [_ Hle]. inversion Hle; subst.
  apply by_type_snoc in Hb as [_ Hs]. split.
  - intros Hne. apply filter_none. intros x [Hx|Hx]%elem_of_app.
    + rewrite Forall_forall in Hs. specialize (Hs x Hx). lia.
    + apply list_elem_of_singleton in Hx as ->. lia.
  - intros E H. assert (u ∈ of_type t.1 (s ++ [u])) as Hin.
    { apply list_elem_of_filter. split; [done|]. apply elem_of_app. right. by left. }
    rewrite H in Hin. by apply elem_of_nil in Hin.
Qed.

(** What the loop reads at the first TLV it has not seen. *)
Lemma read_next (seen rest : list attr) (t : attr) :
  tlvs_ok (seen ++ t :: rest) ->
  tlv_id (enc (seen ++ t :: rest)) (length (enc seen)) = Some t.1 /\
  tlv_next (enc (seen ++ t :: rest)) (length (enc seen)) = Some (length (enc (seen ++ [t]))) /\
  (length (enc seen) + length (enc_attr t.1 t.2) = length (enc (seen ++ [t])))%nat /\
  Forall (fun u => 0 <= u.1) (seen ++ [t]) /\ 0 <= t.1.
Proof.
  intros Hok. assert (Hat : at_pos (enc (seen ++ t :: rest)) (length (enc seen)) t).
  { apply Forall_app in Hok as [_ Hok]. inversion Hok as [|? ? Ht _]; subst. split; [done|].
    exists (enc seen), (enc rest). rewrite enc_app. by destruct t. }
  pose proof (at_pos_read _ _ _ Hat) as Hrd. apply at_pos_lens in Hat as (_ & _ & -> & _).
  assert (Hoff : (length (enc seen) + length (enc_attr t.1 t.2) = length (enc (seen ++ [t])))%nat).
  { rewrite enc_app, length_app, length_enc_cons. simpl. lia. }
  assert (Hpos : Forall (fun u => 0 <= u.1) (seen ++ [t])).
  { rewrite snoc_app in Hok. apply Forall_app in Hok as [Hok _]. eapply Forall_impl; [exact Hok|].
    by intros u [[? _] _]. }
  rewrite Hoff. unfold tlv_read in Hrd. destruct (tlv_id _ _) as [id|]; [|done].
  cbn [mbind option_bind] in Hrd. destruct (tlv_payload _ _); [|done]. injection Hrd as <-.
  repeat split; try done. apply Forall_app in Hpos as [_ Hpos]. by inversion Hpos.
Qed.

Lemma recalculate_loop_inv ix rest seen arr type idx :
  tindex_wf ix -> by_type (seen ++ rest) -> tlvs_ok (seen ++ rest) ->
  index_inv ix arr seen -> run_of ix seen type idx ->
  exists arr', recalculate_loop ix (enc (seen ++ rest)) (offsets (length (enc seen)) rest) type idx arr = Some arr' /\
    index_inv ix arr' (seen ++ rest).
Proof.
  intros Hwf. revert seen arr type idx.
  induction rest as [|t rest IH]; intros seen arr type idx Hb Hok Hinv Hrun.
  { exists arr. by rewrite app_nil_r. }
  destruct (read_next seen rest t Hok) as (Eid & En & Hoff & Hpos & Ht0).
  cbn [offsets recalculate_loop]. rewrite Eid, En. cbn [mbind option_bind]. clear Eid En.
  rewrite snoc_app in Hb, Hok |- *.
  pose proof Hb as [[Hbs Hs]%by_type_snoc _]%by_type_app.
  pose proof Hb as [Hb1 _]%by_type_app.
  destruct (of_type_run seen t type Hb1 Hpos ix idx Hrun) as [Hnew Hold].
  rewrite Hoff. specialize (IH (seen ++ [t])).
  case_decide as Etype.
  - case_decide as Ebrk.
    + exists arr. split; [done|]. apply index_inv_break; [done| |].
      * apply index_inv_other; [done..|]. intros T HT%registered_lt. lia.
      * rewrite <- snoc_app in Hb. apply by_type_app in Hb as [_ [_ Hr]%by_type_cons].
        eapply Forall_impl; [exact Hr|]. cbn. lia.
    + destruct (lookup_lt_is_Some_2 (type_to_index ix) (Z.to_nat t.1)) as [i Hi]; [lia|].
      rewrite Hi. cbn [mbind option_bind]. case_decide as Ei.
      * apply IH; [done..| |by apply run_of_snoc]. apply index_inv_other; [done..|].
        intros T (i' & Hi' & Hne) E. rewrite E, Nat2Z.id in Hi. congruence.
      * destruct (index_inv_same ix arr seen t (Z.to_nat t.1) i (Some (length (enc seen))))
          as (a1 & a2 & E1 & E2 & Hinv2); [done|done|done|done|lia|done|done| |].
        { rewrite Z2Nat.id by done. by rewrite decide_True by auto. }
        rewrite E1. cbn [mbind option_bind]. rewrite <- Hoff, E2. cbn [mbind option_bind]. rewrite Hoff.
        apply IH; [done..|by apply run_of_snoc].
  - rewrite <- Etype in *. clear Etype type. specialize (Hold eq_refl).
    destruct Hrun as [(-> & E & _)|(s & u & -> & Etu & Hi)]; [lia|].
    case_decide as Ei.
    + destruct (index_inv_same ix arr (s ++ [u]) t (Z.to_nat t.1) idx (entry t.1 (s ++ [u])).1)
        as (a1 & a2 & E1 & E2 & Hinv2); [done|done|done|done|lia|done|done| |].
      { rewrite Z2Nat.id by done. by rewrite decide_False by auto. }
      assert (a1 = arr) as ->.
      { destruct Hinv as (_ & He & _). destruct (He _ _ Hi Ei) as [He1 _]. rewrite Z2Nat.id in He1 by done.
        unfold set_at in E1. case_decide; [|done]. injection E1 as <-. by apply list_insert_id. }
      rewrite <- Hoff, E2. cbn [mbind option_bind]. rewrite Hoff. apply IH; [done..|by apply run_of_snoc].
    + apply IH; [done..| |by apply run_of_snoc]. apply index_inv_other; [done..|].
      intros T (i' & Hi' & Hne) E. rewrite E, Nat2Z.id in Hi. congruence.
Qed.

(** ** Lookups *)

(** A cache that is not dirty holds what a recalculation would give. *)
Definition cache_ok (ix : tindex) (k : tcache) (c : list Z) (valid : bool) : Prop :=
  tlv_index_dirty k = false -> tlv_index k = dncp_node_recalculate_index ix c valid.

(** The pair of a lookup: offsets of the TLVs of type [T] if the requested view
    (the container, or the valid container) exists. *)
Definition view_entry (valid_c valid : bool) (T : nat) (ts : list attr) : option nat * option nat :=
  if negb valid || valid_c then entry (Z.of_nat T) ts else (None, None).

Lemma recalculate_view ix ts valid_c :
  tindex_wf ix -> by_type ts -> tlvs_ok ts ->
  exists arr, dncp_node_recalculate_index ix (enc ts) valid_c = Some arr /\
    forall T i (valid : bool), type_to_index ix !! T = Some i -> i ≠ 0%nat ->
      let index := (i - 1 + if valid then num_indexes ix else 0)%nat in
      arr !! (index * 2 + 0)%nat = Some (view_entry valid_c valid T ts).1 /\
      arr !! (index * 2 + 1)%nat = Some (view_entry valid_c valid T ts).2.
Proof.
  intros Hwf Hb Hok. unfold dncp_node_recalculate_index.
  pose proof (tlv_for_each_offsets [] ts [] Hok) as E. cbn [app length] in E. rewrite app_nil_r in E.
  rewrite E. cbn [mbind option_bind].
  destruct (recalculate_loop_inv ix ts [] (replicate (2 * (2 * num_indexes ix)) None) (-1) 0)
    as (arr & Ea & (Hl & He & Hn)); [done|done|done| |by left|].
  { split; [len_solve|]. split.
    - intros T i Hi Hne. pose proof (proj1 Hwf T i Hi). rewrite !lookup_replicate_2 by lia. done.
    - intros j Hj. apply lookup_replicate_2. lia. }
  change (enc ([] ++ ts)) with (enc ts) in Ea. change (length (enc [])) with 0%nat in Ea.
  rewrite Ea. cbn [mbind option_bind app] in *. eexists; split; [done|]. intros T i valid Hi Hne. cbv zeta.
  pose proof (proj1 Hwf T i Hi). destruct (He T i Hi Hne) as [He1 He2]. unfold view_entry.
  destruct valid, valid_c; cbn [negb orb].
  - rewrite !lookup_app_r, !lookup_take_lt by (rewrite length_take; lia). rewrite length_take, Hl.
    rewrite <- He1, <- He2. split; f_equal; lia.
  - rewrite !Hn by lia. done.
  - rewrite !lookup_app_l, !lookup_take_lt by (rewrite ?length_take; lia). rewrite <- He1, <- He2. split; f_equal; lia.
  - rewrite <- He1, <- He2. split; f_equal; lia.
Qed.

Lemma get_tlv_with_type_view ix k ts valid_c T first valid :
  tindex_wf ix -> by_type ts -> tlvs_ok ts -> cache_ok ix k (enc ts) valid_c ->
  exists ix' k', dncp_node_get_tlv_with_type ix k (enc ts) valid_c T first valid =
      Some (ix', k', if first then (view_entry valid_c valid T ts).1 else (view_entry valid_c valid T ts).2) /\
    tindex_wf ix' /\ cache_ok ix' k' (enc ts) valid_c.
Proof.
  intros Hwf Hb Hok Hk. unfold dncp_node_get_tlv_with_type.
  set (reg := bool_decide _ && bool_decide _).
  set (ix' := if reg then ix else dncp_add_tlv_index ix T). set (k0 := if reg then k else mk_tcache None true).
  assert (Hwf' : tindex_wf ix') by (unfold ix'; destruct reg; [done|by apply dncp_add_tlv_index_wf]).
  assert (Hreg : registered ix' T).
  { unfold ix'. destruct reg eqn:E; [|by apply dncp_add_tlv_index_wf].
    apply andb_true_iff in E as [_ E]. apply bool_decide_eq_true in E.
    destruct (type_to_index ix !! T) eqn:Ei; [|done]. by eexists. }
  assert (Hk0 : cache_ok ix' k0 (enc ts) valid_c) by (unfold ix', k0; destruct reg; done).
  destruct (recalculate_view ix' ts valid_c Hwf' Hb Hok) as (arr & Earr & Hview).
  assert ((if tlv_index_dirty k0 then dncp_node_recalculate_index ix' (enc ts) valid_c else tlv_index k0) = Some arr) as ->.
  { destruct (tlv_index_dirty k0) eqn:Ed; [done|]. by rewrite (Hk0 Ed). }
  cbn [mbind option_bind]. destruct Hreg as (i & Hi & Hne). rewrite Hi. cbn [mbind option_bind].
  destruct (Hview T i valid Hi Hne) as [H1 H2]. clearbody k0 reg.
  exists ix', (mk_tcache (Some arr) false). split; [|split; [done|intros _; by rewrite Earr]].
  destruct first; [rewrite H1|rewrite H2]; done.
Qed.

Lemma range_walk_enc fuel pre ts post :
  tlvs_ok ts -> (length (enc ts) < fuel)%nat ->
  range_walk fuel (pre ++ enc ts ++ post) (length pre) (length pre + length (enc ts)) = Some ts.
Proof.
  revert pre fuel; induction ts as [|t ts IH]; intros pre fuel Hok Hf.
  { destruct fuel; cbn [range_walk]; by rewrite decide_True by (simpl; lia). }
  destruct fuel as [|fuel]; [lia|]. pose proof (offsets_at_pos _ pre post Hok) as Hat. cbn [offsets] in Hat.
  apply Forall2_cons in Hat as [Ht _]. cbn [range_walk]. rewrite length_enc_cons in *.
  pose proof (length_enc_attr_pos t.1 t.2). rewrite decide_False by lia.
  rewrite (at_pos_read _ _ _ Ht). apply at_pos_lens in Ht as (_ & _ & -> & _). cbn [mbind option_bind].
  apply Forall_cons in Hok as [_ Hok]. specialize (IH (pre ++ enc_attr t.1 t.2) fuel Hok ltac:(lia)).
  rewrite length_app, <- app_assoc in IH. destruct t as [id d]. rewrite enc_cons, <- app_assoc. cbn [fst snd] in *.
  rewrite Nat.add_assoc. by rewrite IH.
Qed.

Lemma for_each_tlv_enc ix k ts valid_c T valid :
  tindex_wf ix -> cache_ok ix k (enc ts) valid_c -> by_type ts -> tlvs_ok ts ->
  exists ix' k', dncp_node_for_each_tlv_with_t_v ix k (enc ts) valid_c T valid =
      Some (ix', k', if negb valid || valid_c then filter (fun t => t.1 = Z.of_nat T) ts else []) /\
    tindex_wf ix' /\ cache_ok ix' k' (enc ts) valid_c.
Proof.
  intros Hwf Hk Hb Hok. unfold dncp_node_for_each_tlv_with_t_v.
  destruct (get_tlv_with_type_view ix k ts valid_c T true valid) as (ix1 & k1 & -> & Hwf1 & Hk1); [done..|].
  cbn [mbind option_bind]. unfold view_entry at 1.
  destruct (negb valid || valid_c) eqn:Ev; [|cbn [fst]; by exists ix1, k1].
  unfold entry at 1. case_decide as E0; cbn [fst].
  { exists ix1, k1. split; [|done]. do 2 f_equal. exact (eq_sym E0). }
  destruct (get_tlv_with_type_view ix1 k1 ts valid_c T false valid) as (ix2 & k2 & -> & Hwf2 & Hk2); [done..|].
  cbn [mbind option_bind]. unfold view_entry. rewrite Ev. unfold entry. rewrite decide_False by done. cbn [snd mbind option_bind].
  pose proof (by_type_split (Z.of_nat T) ts Hb) as Es.
  assert (Hokt : tlvs_ok (of_type (Z.of_nat T) ts)) 
    by (apply Forall_forall; intros t Ht%list_elem_of_filter; by eapply Forall_forall in Hok as ?; [|apply Ht]).
  pose proof (range_walk_enc (length (enc ts) + 1) (enc (below (Z.of_nat T) ts)) (of_type (Z.of_nat T) ts)
    (enc (above (Z.of_nat T) ts)) Hokt) as Ew.
  replace (enc (below (Z.of_nat T) ts) ++ enc (of_type (Z.of_nat T) ts) ++ enc (above (Z.of_nat T) ts))
    with (enc ts) in Ew by (rewrite Es at 1; by rewrite !enc_app).
  rewrite Ew.
  - cbn [mbind option_bind]. by exists ix2, k2.
  - rewrite Es at 2. rewrite !enc_app, !length_app. lia.
Qed.

(** ** Data in any order *)

(** The TLVs at the positions [ps] of [c], which follow each other from [p] to [e]. *)
Fixpoint chain (c : list Z) (p : nat) (ps : list nat) (e : nat) : Prop :=
  match ps with
  | [] => p = e
  | q :: ps => q = p /\ is_Some (tlv_read c p) /\ exists next, tlv_next c p = Some next /\ (p < next)%nat /\ (p < length c)%nat /\ chain c next ps e
  end.

Lemma tlv_iter_chain fuel c pos ps : tlv_iter fuel c 0 (length c) pos = Some ps -> exists e, chain c pos ps e.
Proof.
  revert pos ps; induction fuel as [|fuel IH]; intros pos ps; [done|]. cbn [tlv_iter].
  case_decide as H4; [|intros [= <-]; by exists pos].
  destruct (tlv_raw_len_Some c pos) as (n & En & Er & Enext); [lia|]. rewrite Er. cbn [mbind option_bind]. rewrite decide_True by lia.
  case_decide as Hin; [|intros [= <-]; by exists pos]. rewrite Enext. cbn [mbind option_bind].
  intros (rest & Hr & [= <-])%bind_Some. destruct (IH _ _ Hr) as [e He]. exists e. cbn [chain]. split; [done|]. split.
  - destruct (rd32_Some c pos) as [v Ev]; [lia|]. unfold tlv_read, tlv_id, tlv_payload. rewrite En, Ev. cbn [mbind option_bind].
    rewrite rdn_Some by lia. by eexists.
  - eexists. split; [done|]. split_and!; [lia|lia|done].
Qed.

Lemma chain_le c p ps e : chain c p ps e -> (p <= e)%nat.
Proof. revert p; induction ps as [|q ps IH]; intros p; cbn [chain]; [lia|]. intros (_ & _ & n & _ & Hn & _ & Hc). specialize (IH n Hc). lia. Qed.

Lemma chain_snoc c p ps e next : chain c p ps e -> is_Some (tlv_read c e) -> tlv_next c e = Some next -> (e < next)%nat -> (e < length c)%nat -> chain c p (ps ++ [e]) next.
Proof.
  revert p; induction ps as [|q ps IH]; intros p; cbn [chain app].
  - intros -> Hr Hn Hlt Hl. split; [done|]. split; [done|]. by exists next.
  - intros (-> & Hp & n & En & Hlt & Hl & Hc) Hr Hn Hlt' Hl'. split; [done|]. split; [done|]. exists n. auto.
Qed.

Lemma range_walk_chain c ps e : forall fuel p, chain c p ps e -> (length c < p + fuel)%nat -> is_Some (range_walk fuel c p e).
Proof.
  induction ps as [|q ps IH]; intros fuel p; cbn [chain].
  - intros -> _. destruct fuel; cbn [range_walk]; rewrite decide_True by done; by eexists.
  - intros (-> & [t Ht] & n & En & Hlt & Hl & Hc) Hf. destruct fuel as [|fuel]; [lia|]. cbn [range_walk]. case_decide; [by eexists|].
    rewrite Ht, En. cbn [mbind option_bind]. destruct (IH fuel n Hc) as [ts ->]; [lia|]. by eexists.
Qed.

(** The pair [j] of the index is empty, or bounds a run of TLVs. *)
Definition pair_ok (c : list Z) (arr : list (option nat)) (j : nat) : Prop :=
  (arr !! (2 * j)%nat = Some None /\ arr !! (2 * j + 1)%nat = Some None) \/
  exists a ps b, arr !! (2 * j)%nat = Some (Some a) /\ arr !! (2 * j + 1)%nat = Some (Some b) /\ chain c a ps b.

Definition pairs_ok (ix : tindex) (c : list Z) (arr : list (option nat)) : Prop :=
  length arr = (4 * num_indexes ix)%nat /\ forall j, (j < 2 * num_indexes ix)%nat -> pair_ok c arr j.

(** The pair [i] becomes the run from [a] to [next]. *)
Lemma pairs_ok_set ix c arr i a ps next : pairs_ok ix c arr -> (0 < i <= num_indexes ix)%nat -> chain c a ps next ->
  pairs_ok ix c (<[(2 * i - 1)%nat := Some next]> (<[(2 * i - 2)%nat := Some a]> arr)).
Proof.
  intros [Hl Hp] Hi Hc. split; [by rewrite !length_insert|]. intros j Hj. destruct (decide (j = i - 1)%nat) as [->|Hne].
  - right. exists a, ps, next. rewrite list_lookup_insert_ne by lia. replace (2 * (i - 1))%nat with (2 * i - 2)%nat by lia.
    replace (2 * i - 2 + 1)%nat with (2 * i - 1)%nat by lia. rewrite !list_lookup_insert_eq by (rewrite ?length_insert; lia). done.
  - unfold pair_ok. rewrite !list_lookup_insert_ne by lia. by apply Hp.
Qed.

(** The run the loop is in ends at the position [p]. *)
Definition run_at (ix : tindex) (c : list Z) (arr : list (option nat)) (idx p : nat) : Prop :=
  idx ≠ 0%nat -> (idx <= num_indexes ix)%nat /\ exists a ps, arr !! (2 * idx - 2)%nat = Some (Some a) /\ chain c a ps p.

Lemma recalculate_loop_total ix c : tindex_wf ix -> forall ps p e type idx arr, chain c p ps e -> pairs_ok ix c arr -> run_at ix c arr idx p ->
  exists arr', recalculate_loop ix c ps type idx arr = Some arr' /\ pairs_ok ix c arr'.
Proof.
  intros Hwf ps. induction ps as [|q ps IH]; intros p e type idx arr; cbn [chain recalculate_loop]; [by exists arr|].
  intros (-> & Hrd & next & En & Hlt & Hlen & Hc) Harr Hrun.
  destruct (rd32_Some c p) as [v Ev].
  { destruct Hrd as [t Ht]. unfold tlv_read, tlv_id, rd32, rdn in Ht. by case_decide. }
  assert (Eid : tlv_id c p = Some (Z.shiftr (Z.land v TLV_ATTR_ID_MASK) TLV_ATTR_ID_SHIFT)) by (unfold tlv_id; by rewrite Ev).
  rewrite Eid, En. set (id := Z.shiftr _ _). assert (Hid : 0 <= id) by (apply Z.shiftr_nonneg, Z.land_nonneg; right; unfold TLV_ATTR_ID_MASK; lia).
  cbn [mbind option_bind]. case_decide as Et.
  - case_decide as Eb; [by exists arr|]. destruct (lookup_lt_is_Some_2 (type_to_index ix) (Z.to_nat id)) as [i Hi]; [lia|]. rewrite Hi. cbn [mbind option_bind].
    case_decide as Ei; [apply (IH next e); [done|done|by intros ?]|]. pose proof (proj1 Hwf _ _ Hi) as Hle. destruct Harr as [Hl Hp].
    rewrite set_at_Some by lia. cbn [mbind option_bind]. rewrite set_at_Some by (rewrite length_insert; lia). cbn [mbind option_bind].
    assert (Hone : chain c p [p] next) by (split; [done|split; [done|by exists next]]).
    apply (IH next e); [done|apply (pairs_ok_set ix c arr i p [p]); [by split|lia|done]|]. intros _. split; [done|]. exists p, [p].
    rewrite list_lookup_insert_ne, list_lookup_insert_eq by lia. done.
  - case_decide as Ei; [|apply (IH next e); [done|done|by intros ?]]. destruct (Hrun Ei) as (Hle & a & rs & Ha & Hrs). pose proof Harr as [Hl _].
    rewrite set_at_Some by lia. cbn [mbind option_bind]. pose proof (chain_snoc _ _ _ _ _ Hrs Hrd En Hlt Hlen) as Hrs'.
    assert (E : <[(2 * idx - 1)%nat:=Some next]> arr = <[(2 * idx - 1)%nat:=Some next]> (<[(2 * idx - 2)%nat:=Some a]> arr)) by (f_equal; symmetry; by apply list_insert_id).
    apply (IH next e); [done|rewrite E; apply (pairs_ok_set _ _ _ _ _ (rs ++ [p])); [done|lia|done]|].
    intros _. split; [done|]. exists a, (rs ++ [p]). rewrite list_lookup_insert_ne by lia. done.
Qed.

Lemma recalculate_total ix c valid_c : tindex_wf ix -> exists arr, dncp_node_recalculate_index ix c valid_c = Some arr /\ pairs_ok ix c arr.
Proof.
  intros Hwf. unfold dncp_node_recalculate_index, tlv_for_each_in_buf.
  destruct (tlv_iter_inside (length c + 1) c 0 (length c) 0) as (ps & E & _); [lia..|]. rewrite E. cbn [mbind option_bind].
  destruct (tlv_iter_chain _ _ _ _ E) as [e He].
  destruct (recalculate_loop_total ix c Hwf ps 0 e (-1) 0 (replicate (2 * (2 * num_indexes ix)) None)) as (arr & -> & Hl & Hp); [done| |done|].
  { split; [len_solve|]. intros j Hj. left. rewrite !lookup_replicate_2 by lia. done. }
  cbn [mbind option_bind]. eexists. split; [done|]. destruct valid_c; [|done]. split; [rewrite length_app, !length_take; lia|].
  assert (Hlow : forall k, (k < 2 * num_indexes ix)%nat -> take (2 * num_indexes ix) arr !! k = arr !! k) by (intros; by apply lookup_take_lt).
  intros j Hj. destruct (decide (j < num_indexes ix)%nat) as [Hj'|Hj'].
  - specialize (Hp j ltac:(lia)). unfold pair_ok in *. rewrite !lookup_app_l, !Hlow by (rewrite ?length_take; lia). done.
  - specialize (Hp (j - num_indexes ix)%nat ltac:(lia)). unfold pair_ok in *. rewrite !lookup_app_r by (rewrite length_take; lia). rewrite length_take, Hl.
    rewrite !Hlow by lia. replace (2 * j - _)%nat with (2 * (j - num_indexes ix))%nat by lia.
    replace (2 * j + 1 - _)%nat with (2 * (j - num_indexes ix) + 1)%nat by lia. done.
Qed.

(** Registering a type again changes nothing. *)
Lemma add_tlv_index_registered ix T : registered ix T -> dncp_add_tlv_index ix T = ix.
Proof.
  intros (i & Hi & Hne). unfold dncp_add_tlv_index. rewrite (decide_True (P := _ /\ _)); [done|]. split; [by eapply lookup_lt_Some|]. by rewrite Hi.
Qed.

Lemma get_tlv_with_type_any ix k c valid_c T first valid : tindex_wf ix -> k = mk_tcache None true \/ (registered ix T /\ k = mk_tcache (dncp_node_recalculate_index ix c valid_c) false) ->
  let ix' := dncp_add_tlv_index ix T in
  exists arr j, dncp_node_recalculate_index ix' c valid_c = Some arr /\ pair_ok c arr j /\ exists r, arr !! (2 * j + if (first : bool) then 0 else 1)%nat = Some r /\
    dncp_node_get_tlv_with_type ix k c valid_c T first valid = Some (ix', mk_tcache (Some arr) false, r) /\
    j = (default 0 (type_to_index ix' !! T) - 1 + if (valid : bool) then num_indexes ix' else 0)%nat.
Proof.
  intros Hwf Hk ix'. destruct (dncp_add_tlv_index_wf ix T Hwf) as [Hwf' (i & Hi & Hne)]. fold ix' in Hwf', Hi. pose proof (proj1 Hwf' T i Hi) as Hle.
  destruct (recalculate_total ix' c valid_c Hwf') as (arr & Earr & Hl & Hp).
  set (j := (i - 1 + if valid then num_indexes ix' else 0)%nat). assert (Hj : (j < 2 * num_indexes ix')%nat) by (unfold j; destruct valid; lia).
  exists arr, j. split; [done|]. split; [by apply Hp|]. destruct (lookup_lt_is_Some_2 arr (2 * j + if first then 0 else 1)%nat) as [r Hr]; [destruct first; lia|].
  exists r. split; [done|]. split; [|by rewrite Hi]. unfold dncp_node_get_tlv_with_type.
  set (reg := bool_decide _ && bool_decide _). assert (Ereg : reg = true <-> registered ix T).
  { unfold reg. rewrite andb_true_iff, !bool_decide_eq_true. split.
    - intros [_ Hd]. destruct (type_to_index ix !! T) eqn:E; [|done]. by eexists.
    - intros HT. split; [by apply registered_lt|]. destruct HT as (i' & -> & ?). done. }
  assert (Eix : (if reg then ix else dncp_add_tlv_index ix T) = ix').
  { destruct reg; [|done]. unfold ix'. rewrite add_tlv_index_registered; [done|]. by apply Ereg. }
  rewrite Eix. replace (if tlv_index_dirty _ then _ else _) with (Some arr).
  - cbn [mbind option_bind]. rewrite Hi. cbn [mbind option_bind]. fold j. replace (j * 2)%nat with (2 * j)%nat by lia. by rewrite Hr.
  - destruct Hk as [->|[HT ->]]; [by destruct reg; cbn [tlv_index_dirty]|]. rewrite (proj2 Ereg HT). cbn [tlv_index_dirty tlv_index].
    unfold ix' in Earr. rewrite add_tlv_index_registered in Earr by done. done.
Qed.

(** The loop over the TLVs of a type has a result for any data. *)
Lemma for_each_tlv_any ix c valid_c T valid : tindex_wf ix -> exists k' ts,
  dncp_node_for_each_tlv_with_t_v ix (mk_tcache None true) c valid_c T valid = Some (dncp_add_tlv_index ix T, k', ts).
Proof.
  intros Hwf. unfold dncp_node_for_each_tlv_with_t_v. destruct (dncp_add_tlv_index_wf ix T Hwf) as [Hwf' Hreg].
  destruct (get_tlv_with_type_any ix (mk_tcache None true) c valid_c T true valid Hwf) as (arr & j & Earr & Hp & r & Hr & -> & Ej); [by left|]. cbn [mbind option_bind].
  destruct r as [a|]; [|by eexists _, _]. set (ix' := dncp_add_tlv_index ix T) in *.
  destruct (get_tlv_with_type_any ix' (mk_tcache (Some arr) false) c valid_c T false valid Hwf') as (arr' & j' & Earr' & _ & r' & Hr' & -> & Ej'); [right; by rewrite Earr|].
  cbn [mbind option_bind]. rewrite (add_tlv_index_registered ix' T Hreg) in *. assert (arr' = arr) as -> by congruence. assert (j' = j) as -> by congruence.
  rewrite Nat.add_0_r in Hr. destruct Hp as [[Hp _]|(a' & ps & b & Ha & Hb & Hc)]; [congruence|]. assert (r' = Some b) as -> by congruence. assert (a' = a) as -> by congruence.
  cbn [mbind option_bind]. destruct (range_walk_chain c ps b (length c + 1) a Hc) as [ts ->]; [lia|]. by eexists _, _.
Qed.

(** A loop that finds the cache dirty registers the type first, so it does not matter whether
    it was registered before. *)
Lemma for_each_tlv_registered ix c valid_c T valid : tindex_wf ix ->
  dncp_node_for_each_tlv_with_t_v (dncp_add_tlv_index ix T) (mk_tcache None true) c valid_c T valid =
  dncp_node_for_each_tlv_with_t_v ix (mk_tcache None true) c valid_c T valid.
Proof.
  intros Hwf. destruct (dncp_add_tlv_index_wf ix T Hwf) as [Hwf' Hreg]. unfold dncp_node_for_each_tlv_with_t_v.
  destruct (get_tlv_with_type_any ix (mk_tcache None true) c valid_c T true valid Hwf) as (arr & j & Earr & _ & r & Hr & -> & Ej); [by left|].
  destruct (get_tlv_with_type_any (dncp_add_tlv_index ix T) (mk_tcache None true) c valid_c T true valid Hwf') as (arr' & j' & Earr' & _ & r' & Hr' & -> & Ej'); [by left|].
  rewrite (add_tlv_index_registered _ T Hreg) in *. assert (arr' = arr) as -> by congruence. assert (j' = j) as -> by congruence.
  by assert (r' = r) as -> by congruence.
Qed.

(** C26: On node data ordered by type, the loop over the TLVs of a type through the cached
    per-node index visits exactly the TLVs of that type in order (none when only valid data
    is asked for and the data is not valid), whether the cache was valid or dirty, and keeps
    the index and the cache consistent. *)
Theorem for_each_tlv_with_type ix k ts valid_c T valid :
  tindex_wf ix -> cache_ok ix k (enc ts) valid_c -> by_type ts -> tlvs_ok ts ->
  exists ix' k', dncp_node_for_each_tlv_with_t_v ix k (enc ts) valid_c T valid =
      Some (ix', k', if negb valid || valid_c then filter (fun t => t.1 = Z.of_nat T) ts else []) /\
    tindex_wf ix' /\ cache_ok ix' k' (enc ts) valid_c.
Proof. apply for_each_tlv_enc. Qed.
