(* ===== verification/DncpState.v ===== *)
(** The state of the protocol: the model of the structures of [src/dncp_i.h] and
    of [src/dncp.h].

    The containers of libubox ([vlist], [list]) are represented by what they hold:
    a [vlist] is a list without duplicates in the order of its comparison
    function, a [list] is a list.  Memory is managed implicitly.  A time is an
    [hnetd_time_t] in milliseconds, with 0 for "not set". *)
From S2P Require Import Prelude Bitops Tlv DncpNotify DncpIndex.

Definition node_id : Type := list Z.
Definition hash_t : Type := list Z.

(** A [struct sockaddr_in6], which the protocol only stores and compares. *)
Definition sockaddr : Type := list Z.

(** [struct dncp_trickle_struct]. *)
Record trickle := mk_trickle {
  tr_i : Z;
  send_time : Z;
  interval_end_time : Z;
  tr_c : Z;
  last_sent : Z;
  num_sent : Z;
  num_skipped : Z
}.

Definition set_tr_i (v : Z) (x : trickle) : trickle := mk_trickle v (send_time x) (interval_end_time x) (tr_c x) (last_sent x) (num_sent x) (num_skipped x).
Definition set_send_time (v : Z) (x : trickle) : trickle := mk_trickle (tr_i x) v (interval_end_time x) (tr_c x) (last_sent x) (num_sent x) (num_skipped x).
Definition set_interval_end_time (v : Z) (x : trickle) : trickle := mk_trickle (tr_i x) (send_time x) v (tr_c x) (last_sent x) (num_sent x) (num_skipped x).
Definition set_tr_c (v : Z) (x : trickle) : trickle := mk_trickle (tr_i x) (send_time x) (interval_end_time x) v (last_sent x) (num_sent x) (num_skipped x).
Definition set_last_sent (v : Z) (x : trickle) : trickle := mk_trickle (tr_i x) (send_time x) (interval_end_time x) (tr_c x) v (num_sent x) (num_skipped x).
Definition set_num_sent (v : Z) (x : trickle) : trickle := mk_trickle (tr_i x) (send_time x) (interval_end_time x) (tr_c x) (last_sent x) v (num_skipped x).
Definition set_num_skipped (v : Z) (x : trickle) : trickle := mk_trickle (tr_i x) (send_time x) (interval_end_time x) (tr_c x) (last_sent x) (num_sent x) v.

Definition trickle_zero : trickle := mk_trickle 0 0 0 0 0 0 0.

(** [struct dncp_peer_struct]. *)
Record peer := mk_peer {
  last_sa6 : sockaddr;
  last_contact : Z;
  peer_trickle : trickle
}.

Definition set_last_sa6 (v : sockaddr) (x : peer) : peer := mk_peer v (last_contact x) (peer_trickle x).
Definition set_last_contact (v : Z) (x : peer) : peer := mk_peer (last_sa6 x) v (peer_trickle x).
Definition set_peer_trickle (v : trickle) (x : peer) : peer := mk_peer (last_sa6 x) (last_contact x) v.

Definition peer_zero : peer := mk_peer [] 0 trickle_zero.

(** [struct dncp_tlv_struct]: a local TLV and its extra bytes. *)
Record ltlv := mk_ltlv {
  tlv : attr;
  extra : option peer  (** the extra bytes: those of a peer, or none *)
}.

Definition set_tlv (v : attr) (x : ltlv) : ltlv := mk_ltlv v (extra x).
Definition set_extra (v : option peer) (x : ltlv) : ltlv := mk_ltlv (tlv x) v.

(** [struct dncp_ep_struct]; the DNS name is not used by the protocol. *)
Record ep_conf := mk_ep_conf {
  ifname : list Z;
  trickle_imin : Z;
  trickle_imax : Z;
  trickle_k : Z;
  keepalive_interval : Z;
  maximum_multicast_size : Z;
  maximum_unicast_size : Z;
  accept_node_data_updates_via_multicast : bool;
  accept_insecure_nonlocal_traffic : bool;
  accept_secure_nonlocal_traffic : bool;
  unicast_only : bool;
  unicast_is_reliable_stream : bool
}.

Definition set_ifname (v : list Z) (x : ep_conf) : ep_conf := mk_ep_conf v (trickle_imin x) (trickle_imax x) (trickle_k x) (keepalive_interval x) (maximum_multicast_size x) (maximum_unicast_size x) (accept_node_data_updates_via_multicast x) (accept_insecure_nonlocal_traffic x) (accept_secure_nonlocal_traffic x) (unicast_only x) (unicast_is_reliable_stream x).
Definition set_trickle_imin (v : Z) (x : ep_conf) : ep_conf := mk_ep_conf (ifname x) v (trickle_imax x) (trickle_k x) (keepalive_interval x) (maximum_multicast_size x) (maximum_unicast_size x) (accept_node_data_updates_via_multicast x) (accept_insecure_nonlocal_traffic x) (accept_secure_nonlocal_traffic x) (unicast_only x) (unicast_is_reliable_stream x).
Definition set_trickle_imax (v : Z) (x : ep_conf) : ep_conf := mk_ep_conf (ifname x) (trickle_imin x) v (trickle_k x) (keepalive_interval x) (maximum_multicast_size x) (maximum_unicast_size x) (accept_node_data_updates_via_multicast x) (accept_insecure_nonlocal_traffic x) (accept_secure_nonlocal_traffic x) (unicast_only x) (unicast_is_reliable_stream x).
Definition set_trickle_k (v : Z) (x : ep_conf) : ep_conf := mk_ep_conf (ifname x) (trickle_imin x) (trickle_imax x) v (keepalive_interval x) (maximum_multicast_size x) (maximum_unicast_size x) (accept_node_data_updates_via_multicast x) (accept_insecure_nonlocal_traffic x) (accept_secure_nonlocal_traffic x) (unicast_only x) (unicast_is_reliable_stream x).
Definition set_keepalive_interval (v : Z) (x : ep_conf) : ep_conf := mk_ep_conf (ifname x) (trickle_imin x) (trickle_imax x) (trickle_k x) v (maximum_multicast_size x) (maximum_unicast_size x) (accept_node_data_updates_via_multicast x) (accept_insecure_nonlocal_traffic x) (accept_secure_nonlocal_traffic x) (unicast_only x) (unicast_is_reliable_stream x).
Definition set_maximum_multicast_size (v : Z) (x : ep_conf) : ep_conf := mk_ep_conf (ifname x) (trickle_imin x) (trickle_imax x) (trickle_k x) (keepalive_interval x) v (maximum_unicast_size x) (accept_node_data_updates_via_multicast x) (accept_insecure_nonlocal_traffic x) (accept_secure_nonlocal_traffic x) (unicast_only x) (unicast_is_reliable_stream x).
Definition set_maximum_unicast_size (v : Z) (x : ep_conf) : ep_conf := mk_ep_conf (ifname x) (trickle_imin x) (trickle_imax x) (trickle_k x) (keepalive_interval x) (maximum_multicast_size x) v (accept_node_data_updates_via_multicast x) (accept_insecure_nonlocal_traffic x) (accept_secure_nonlocal_traffic x) (unicast_only x) (unicast_is_reliable_stream x).
Definition set_accept_node_data_updates_via_multicast (v : bool) (x : ep_conf) : ep_conf := mk_ep_conf (ifname x) (trickle_imin x) (trickle_imax x) (trickle_k x) (keepalive_interval x) (maximum_multicast_size x) (maximum_unicast_size x) v (accept_insecure_nonlocal_traffic x) (accept_secure_nonlocal_traffic x) (unicast_only x) (unicast_is_reliable_stream x).
Definition set_accept_insecure_nonlocal_traffic (v : bool) (x : ep_conf) : ep_conf := mk_ep_conf (ifname x) (trickle_imin x) (trickle_imax x) (trickle_k x) (keepalive_interval x) (maximum_multicast_size x) (maximum_unicast_size x) (accept_node_data_updates_via_multicast x) v (accept_secure_nonlocal_traffic x) (unicast_only x) (unicast_is_reliable_stream x).
Definition set_accept_secure_nonlocal_traffic (v : bool) (x : ep_conf) : ep_conf := mk_ep_conf (ifname x) (trickle_imin x) (trickle_imax x) (trickle_k x) (keepalive_interval x) (maximum_multicast_size x) (maximum_unicast_size x) (accept_node_data_updates_via_multicast x) (accept_insecure_nonlocal_traffic x) v (unicast_only x) (unicast_is_reliable_stream x).
Definition set_unicast_only (v : bool) (x : ep_conf) : ep_conf := mk_ep_conf (ifname x) (trickle_imin x) (trickle_imax x) (trickle_k x) (keepalive_interval x) (maximum_multicast_size x) (maximum_unicast_size x) (accept_node_data_updates_via_multicast x) (accept_insecure_nonlocal_traffic x) (accept_secure_nonlocal_traffic x) v (unicast_is_reliable_stream x).
Definition set_unicast_is_reliable_stream (v : bool) (x : ep_conf) : ep_conf := mk_ep_conf (ifname x) (trickle_imin x) (trickle_imax x) (trickle_k x) (keepalive_interval x) (maximum_multicast_size x) (maximum_unicast_size x) (accept_node_data_updates_via_multicast x) (accept_insecure_nonlocal_traffic x) (accept_secure_nonlocal_traffic x) (unicast_only x) v.

(** [struct dncp_reply_struct]; the endpoint is the one that holds it. *)
Record reply := mk_reply {
  rbuf : option tlv_buf;  (** [buf]; [None] when [buf.head] is [NULL] *)
  has_src : bool;
  rsrc : sockaddr;
  rdst : sockaddr
}.

Definition set_rbuf (v : option tlv_buf) (x : reply) : reply := mk_reply v (has_src x) (rsrc x) (rdst x).
Definition set_has_src (v : bool) (x : reply) : reply := mk_reply (rbuf x) v (rsrc x) (rdst x).
Definition set_rsrc (v : sockaddr) (x : reply) : reply := mk_reply (rbuf x) (has_src x) v (rdst x).
Definition set_rdst (v : sockaddr) (x : reply) : reply := mk_reply (rbuf x) (has_src x) (rsrc x) v.

(** [struct dncp_ep_i_struct]. *)
Record ep := mk_ep {
  enabled : bool;
  conf : ep_conf;
  ep_id : Z;
  published_keepalive_interval : Z;
  last_req_network_state : Z;
  send_reply_at : Z;
  ep_reply : reply;
  ep_trickle : trickle
}.

Definition set_enabled (v : bool) (x : ep) : ep := mk_ep v (conf x) (ep_id x) (published_keepalive_interval x) (last_req_network_state x) (send_reply_at x) (ep_reply x) (ep_trickle x).
Definition set_conf (v : ep_conf) (x : ep) : ep := mk_ep (enabled x) v (ep_id x) (published_keepalive_interval x) (last_req_network_state x) (send_reply_at x) (ep_reply x) (ep_trickle x).
Definition set_ep_id (v : Z) (x : ep) : ep := mk_ep (enabled x) (conf x) v (published_keepalive_interval x) (last_req_network_state x) (send_reply_at x) (ep_reply x) (ep_trickle x).
Definition set_published_keepalive_interval (v : Z) (x : ep) : ep := mk_ep (enabled x) (conf x) (ep_id x) v (last_req_network_state x) (send_reply_at x) (ep_reply x) (ep_trickle x).
Definition set_last_req_network_state (v : Z) (x : ep) : ep := mk_ep (enabled x) (conf x) (ep_id x) (published_keepalive_interval x) v (send_reply_at x) (ep_reply x) (ep_trickle x).
Definition set_send_reply_at (v : Z) (x : ep) : ep := mk_ep (enabled x) (conf x) (ep_id x) (published_keepalive_interval x) (last_req_network_state x) v (ep_reply x) (ep_trickle x).
Definition set_ep_reply (v : reply) (x : ep) : ep := mk_ep (enabled x) (conf x) (ep_id x) (published_keepalive_interval x) (last_req_network_state x) (send_reply_at x) v (ep_trickle x).
Definition set_ep_trickle (v : trickle) (x : ep) : ep := mk_ep (enabled x) (conf x) (ep_id x) (published_keepalive_interval x) (last_req_network_state x) (send_reply_at x) (ep_reply x) v.

(** [struct dncp_node_struct]; the TLV index is in [DncpIndex]. *)
Record node := mk_node {
  nid : node_id;
  version : Z;  (** of its [vlist_node] *)
  update_number : Z;
  last_reachable_prune : Z;
  node_data_hash : hash_t;
  node_data_hash_dirty : bool;
  origination_time : Z;
  expiration_time : Z;
  tlv_container : option (list Z);  (** the payload of the container *)
  tlv_valid : bool  (** [tlv_container_valid] is the container *)
}.

Definition set_nid (v : node_id) (x : node) : node := mk_node v (version x) (update_number x) (last_reachable_prune x) (node_data_hash x) (node_data_hash_dirty x) (origination_time x) (expiration_time x) (tlv_container x) (tlv_valid x).
Definition set_version (v : Z) (x : node) : node := mk_node (nid x) v (update_number x) (last_reachable_prune x) (node_data_hash x) (node_data_hash_dirty x) (origination_time x) (expiration_time x) (tlv_container x) (tlv_valid x).
Definition set_update_number (v : Z) (x : node) : node := mk_node (nid x) (version x) v (last_reachable_prune x) (node_data_hash x) (node_data_hash_dirty x) (origination_time x) (expiration_time x) (tlv_container x) (tlv_valid x).
Definition set_last_reachable_prune (v : Z) (x : node) : node := mk_node (nid x) (version x) (update_number x) v (node_data_hash x) (node_data_hash_dirty x) (origination_time x) (expiration_time x) (tlv_container x) (tlv_valid x).
Definition set_node_data_hash (v : hash_t) (x : node) : node := mk_node (nid x) (version x) (update_number x) (last_reachable_prune x) v (node_data_hash_dirty x) (origination_time x) (expiration_time x) (tlv_container x) (tlv_valid x).
Definition set_node_data_hash_dirty (v : bool) (x : node) : node := mk_node (nid x) (version x) (update_number x) (last_reachable_prune x) (node_data_hash x) v (origination_time x) (expiration_time x) (tlv_container x) (tlv_valid x).
Definition set_origination_time (v : Z) (x : node) : node := mk_node (nid x) (version x) (update_number x) (last_reachable_prune x) (node_data_hash x) (node_data_hash_dirty x) v (expiration_time x) (tlv_container x) (tlv_valid x).
Definition set_expiration_time (v : Z) (x : node) : node := mk_node (nid x) (version x) (update_number x) (last_reachable_prune x) (node_data_hash x) (node_data_hash_dirty x) (origination_time x) v (tlv_container x) (tlv_valid x).
Definition set_tlv_container (v : option (list Z)) (x : node) : node := mk_node (nid x) (version x) (update_number x) (last_reachable_prune x) (node_data_hash x) (node_data_hash_dirty x) (origination_time x) (expiration_time x) v (tlv_valid x).
Definition set_tlv_valid (v : bool) (x : node) : node := mk_node (nid x) (version x) (update_number x) (last_reachable_prune x) (node_data_hash x) (node_data_hash_dirty x) (origination_time x) (expiration_time x) (tlv_container x) v.

Definition tlv_container_valid (n : node) : option (list Z) :=
  if tlv_valid n then tlv_container n else None.

(** The subscriber callbacks. *)
Inductive callback :=
  DNCP_CALLBACK_LOCAL_TLV | DNCP_CALLBACK_REPUBLISH | DNCP_CALLBACK_TLV
| DNCP_CALLBACK_NODE | DNCP_CALLBACK_EP | DNCP_CALLBACK_SOCKET_MSG.

#[global] Instance callback_eq_dec : EqDecision callback.
Proof. solve_decision. Defined.

(** [struct dncp_subscriber_struct]: which of the callbacks are set. *)
Record subscriber := mk_subscriber { sub_id : nat; sub_cbs : list callback }.

(** What the protocol does to the outside: calls of a subscriber, and of the
    functions [schedule_timeout] and [send] of its environment. *)
Inductive event :=
| LocalTlvChange (s : nat) (t : attr) (add : bool)
| RepublishTlvs (s : nat)
| TlvChange (s : nat) (n : node_id) (t : attr) (add : bool)
| NodeChange (s : nat) (n : node_id) (add : bool)
| EpChange (s : nat) (e : Z) (add : bool)
| MsgReceived (s : nat) (e : Z) (src : sockaddr) (dst : option sockaddr) (flags : Z) (msg : list Z)
| ScheduleTimeout (msecs : Z)
| Send (e : Z) (src dst : option sockaddr) (payload : list Z).

(** [struct dncp_struct], with the clock, the random numbers and the events. *)
Record dncp := mk_dncp {
  disable_prune : bool;
  now : Z;  (** the cached time, 0 outside of a timeout *)
  clock : Z;  (** what [get_time] returns *)
  randoms : nat;  (** how many values [random] has given *)
  nodes : list node;  (** in the order of [compare_nodes] *)
  nodes_version : Z;
  tlvs : list ltlv;  (** in the order of [compare_tlvs] *)
  eps : list ep;  (** in the order of [compare_eps] *)
  tlvs_dirty : bool;
  republish_tlvs : bool;
  collided : bool;
  graph_dirty : bool;
  last_prune : Z;
  next_prune : Z;
  network_hash_dirty : bool;
  immediate_scheduled : bool;
  own_node : option node_id;
  network_hash : hash_t;
  first_free_ep_id : Z;
  subscribers : list subscriber;  (** the most recent first *)
  tix : tindex;
  num_neighbor_dropped : Z;
  log : list event  (** what happened, the latest last *)
}.

Definition set_disable_prune (v : bool) (x : dncp) : dncp := mk_dncp v (now x) (clock x) (randoms x) (nodes x) (nodes_version x) (tlvs x) (eps x) (tlvs_dirty x) (republish_tlvs x) (collided x) (graph_dirty x) (last_prune x) (next_prune x) (network_hash_dirty x) (immediate_scheduled x) (own_node x) (network_hash x) (first_free_ep_id x) (subscribers x) (tix x) (num_neighbor_dropped x) (log x).
Definition set_now (v : Z) (x : dncp) : dncp := mk_dncp (disable_prune x) v (clock x) (randoms x) (nodes x) (nodes_version x) (tlvs x) (eps x) (tlvs_dirty x) (republish_tlvs x) (collided x) (graph_dirty x) (last_prune x) (next_prune x) (network_hash_dirty x) (immediate_scheduled x) (own_node x) (network_hash x) (first_free_ep_id x) (subscribers x) (tix x) (num_neighbor_dropped x) (log x).
Definition set_clock (v : Z) (x : dncp) : dncp := mk_dncp (disable_prune x) (now x) v (randoms x) (nodes x) (nodes_version x) (tlvs x) (eps x) (tlvs_dirty x) (republish_tlvs x) (collided x) (graph_dirty x) (last_prune x) (next_prune x) (network_hash_dirty x) (immediate_scheduled x) (own_node x) (network_hash x) (first_free_ep_id x) (subscribers x) (tix x) (num_neighbor_dropped x) (log x).
Definition set_randoms (v : nat) (x : dncp) : dncp := mk_dncp (disable_prune x) (now x) (clock x) v (nodes x) (nodes_version x) (tlvs x) (eps x) (tlvs_dirty x) (republish_tlvs x) (collided x) (graph_dirty x) (last_prune x) (next_prune x) (network_hash_dirty x) (immediate_scheduled x) (own_node x) (network_hash x) (first_free_ep_id x) (subscribers x) (tix x) (num_neighbor_dropped x) (log x).
Definition set_nodes (v : list node) (x : dncp) : dncp := mk_dncp (disable_prune x) (now x) (clock x) (randoms x) v (nodes_version x) (tlvs x) (eps x) (tlvs_dirty x) (republish_tlvs x) (collided x) (graph_dirty x) (last_prune x) (next_prune x) (network_hash_dirty x) (immediate_scheduled x) (own_node x) (network_hash x) (first_free_ep_id x) (subscribers x) (tix x) (num_neighbor_dropped x) (log x).
Definition set_nodes_version (v : Z) (x : dncp) : dncp := mk_dncp (disable_prune x) (now x) (clock x) (randoms x) (nodes x) v (tlvs x) (eps x) (tlvs_dirty x) (republish_tlvs x) (collided x) (graph_dirty x) (last_prune x) (next_prune x) (network_hash_dirty x) (immediate_scheduled x) (own_node x) (network_hash x) (first_free_ep_id x) (subscribers x) (tix x) (num_neighbor_dropped x) (log x).
Definition set_tlvs (v : list ltlv) (x : dncp) : dncp := mk_dncp (disable_prune x) (now x) (clock x) (randoms x) (nodes x) (nodes_version x) v (eps x) (tlvs_dirty x) (republish_tlvs x) (collided x) (graph_dirty x) (last_prune x) (next_prune x) (network_hash_dirty x) (immediate_scheduled x) (own_node x) (network_hash x) (first_free_ep_id x) (subscribers x) (tix x) (num_neighbor_dropped x) (log x).
Definition set_eps (v : list ep) (x : dncp) : dncp := mk_dncp (disable_prune x) (now x) (clock x) (randoms x) (nodes x) (nodes_version x) (tlvs x) v (tlvs_dirty x) (republish_tlvs x) (collided x) (graph_dirty x) (last_prune x) (next_prune x) (network_hash_dirty x) (immediate_scheduled x) (own_node x) (network_hash x) (first_free_ep_id x) (subscribers x) (tix x) (num_neighbor_dropped x) (log x).
Definition set_tlvs_dirty (v : bool) (x : dncp) : dncp := mk_dncp (disable_prune x) (now x) (clock x) (randoms x) (nodes x) (nodes_version x) (tlvs x) (eps x) v (republish_tlvs x) (collided x) (graph_dirty x) (last_prune x) (next_prune x) (network_hash_dirty x) (immediate_scheduled x) (own_node x) (network_hash x) (first_free_ep_id x) (subscribers x) (tix x) (num_neighbor_dropped x) (log x).
Definition set_republish_tlvs (v : bool) (x : dncp) : dncp := mk_dncp (disable_prune x) (now x) (clock x) (randoms x) (nodes x) (nodes_version x) (tlvs x) (eps x) (tlvs_dirty x) v (collided x) (graph_dirty x) (last_prune x) (next_prune x) (network_hash_dirty x) (immediate_scheduled x) (own_node x) (network_hash x) (first_free_ep_id x) (subscribers x) (tix x) (num_neighbor_dropped x) (log x).
Definition set_collided (v : bool) (x : dncp) : dncp := mk_dncp (disable_prune x) (now x) (clock x) (randoms x) (nodes x) (nodes_version x) (tlvs x) (eps x) (tlvs_dirty x) (republish_tlvs x) v (graph_dirty x) (last_prune x) (next_prune x) (network_hash_dirty x) (immediate_scheduled x) (own_node x) (network_hash x) (first_free_ep_id x) (subscribers x) (tix x) (num_neighbor_dropped x) (log x).
Definition set_graph_dirty (v : bool) (x : dncp) : dncp := mk_dncp (disable_prune x) (now x) (clock x) (randoms x) (nodes x) (nodes_version x) (tlvs x) (eps x) (tlvs_dirty x) (republish_tlvs x) (collided x) v (last_prune x) (next_prune x) (network_hash_dirty x) (immediate_scheduled x) (own_node x) (network_hash x) (first_free_ep_id x) (subscribers x) (tix x) (num_neighbor_dropped x) (log x).
Definition set_last_prune (v : Z) (x : dncp) : dncp := mk_dncp (disable_prune x) (now x) (clock x) (randoms x) (nodes x) (nodes_version x) (tlvs x) (eps x) (tlvs_dirty x) (republish_tlvs x) (collided x) (graph_dirty x) v (next_prune x) (network_hash_dirty x) (immediate_scheduled x) (own_node x) (network_hash x) (first_free_ep_id x) (subscribers x) (tix x) (num_neighbor_dropped x) (log x).
Definition set_next_prune (v : Z) (x : dncp) : dncp := mk_dncp (disable_prune x) (now x) (clock x) (randoms x) (nodes x) (nodes_version x) (tlvs x) (eps x) (tlvs_dirty x) (republish_tlvs x) (collided x) (graph_dirty x) (last_prune x) v (network_hash_dirty x) (immediate_scheduled x) (own_node x) (network_hash x) (first_free_ep_id x) (subscribers x) (tix x) (num_neighbor_dropped x) (log x).
Definition set_network_hash_dirty (v : bool) (x : dncp) : dncp := mk_dncp (disable_prune x) (now x) (clock x) (randoms x) (nodes x) (nodes_version x) (tlvs x) (eps x) (tlvs_dirty x) (republish_tlvs x) (collided x) (graph_dirty x) (last_prune x) (next_prune x) v (immediate_scheduled x) (own_node x) (network_hash x) (first_free_ep_id x) (subscribers x) (tix x) (num_neighbor_dropped x) (log x).
Definition set_immediate_scheduled (v : bool) (x : dncp) : dncp := mk_dncp (disable_prune x) (now x) (clock x) (randoms x) (nodes x) (nodes_version x) (tlvs x) (eps x) (tlvs_dirty x) (republish_tlvs x) (collided x) (graph_dirty x) (last_prune x) (next_prune x) (network_hash_dirty x) v (own_node x) (network_hash x) (first_free_ep_id x) (subscribers x) (tix x) (num_neighbor_dropped x) (log x).
Definition set_own_node (v : option node_id) (x : dncp) : dncp := mk_dncp (disable_prune x) (now x) (clock x) (randoms x) (nodes x) (nodes_version x) (tlvs x) (eps x) (tlvs_dirty x) (republish_tlvs x) (collided x) (graph_dirty x) (last_prune x) (next_prune x) (network_hash_dirty x) (immediate_scheduled x) v (network_hash x) (first_free_ep_id x) (subscribers x) (tix x) (num_neighbor_dropped x) (log x).
Definition set_network_hash (v : hash_t) (x : dncp) : dncp := mk_dncp (disable_prune x) (now x) (clock x) (randoms x) (nodes x) (nodes_version x) (tlvs x) (eps x) (tlvs_dirty x) (republish_tlvs x) (collided x) (graph_dirty x) (last_prune x) (next_prune x) (network_hash_dirty x) (immediate_scheduled x) (own_node x) v (first_free_ep_id x) (subscribers x) (tix x) (num_neighbor_dropped x) (log x).
Definition set_first_free_ep_id (v : Z) (x : dncp) : dncp := mk_dncp (disable_prune x) (now x) (clock x) (randoms x) (nodes x) (nodes_version x) (tlvs x) (eps x) (tlvs_dirty x) (republish_tlvs x) (collided x) (graph_dirty x) (last_prune x) (next_prune x) (network_hash_dirty x) (immediate_scheduled x) (own_node x) (network_hash x) v (subscribers x) (tix x) (num_neighbor_dropped x) (log x).
Definition set_subscribers (v : list subscriber) (x : dncp) : dncp := mk_dncp (disable_prune x) (now x) (clock x) (randoms x) (nodes x) (nodes_version x) (tlvs x) (eps x) (tlvs_dirty x) (republish_tlvs x) (collided x) (graph_dirty x) (last_prune x) (next_prune x) (network_hash_dirty x) (immediate_scheduled x) (own_node x) (network_hash x) (first_free_ep_id x) v (tix x) (num_neighbor_dropped x) (log x).
Definition set_tix (v : tindex) (x : dncp) : dncp := mk_dncp (disable_prune x) (now x) (clock x) (randoms x) (nodes x) (nodes_version x) (tlvs x) (eps x) (tlvs_dirty x) (republish_tlvs x) (collided x) (graph_dirty x) (last_prune x) (next_prune x) (network_hash_dirty x) (immediate_scheduled x) (own_node x) (network_hash x) (first_free_ep_id x) (subscribers x) v (num_neighbor_dropped x) (log x).
Definition set_num_neighbor_dropped (v : Z) (x : dncp) : dncp := mk_dncp (disable_prune x) (now x) (clock x) (randoms x) (nodes x) (nodes_version x) (tlvs x) (eps x) (tlvs_dirty x) (republish_tlvs x) (collided x) (graph_dirty x) (last_prune x) (next_prune x) (network_hash_dirty x) (immediate_scheduled x) (own_node x) (network_hash x) (first_free_ep_id x) (subscribers x) (tix x) v (log x).
Definition set_log (v : list event) (x : dncp) : dncp := mk_dncp (disable_prune x) (now x) (clock x) (randoms x) (nodes x) (nodes_version x) (tlvs x) (eps x) (tlvs_dirty x) (republish_tlvs x) (collided x) (graph_dirty x) (last_prune x) (next_prune x) (network_hash_dirty x) (immediate_scheduled x) (own_node x) (network_hash x) (first_free_ep_id x) (subscribers x) (tix x) (num_neighbor_dropped x) v.

(** The part of [struct dncp_ext_struct] that does not change, the random numbers
    and the representation of integers in memory. *)
Class DncpExt := {
  big_endian : bool;
  node_id_length : nat;
  hash_length : nat;
  per_ep : ep_conf;
  keepalive_multiplier_percent : Z;
  grace_interval : Z;
  minimum_prune_interval : Z;
  ext_hash : list Z -> hash_t;
  validate_node_data : node_id -> list Z -> bool;
  random : nat -> Z
}.

(** The code the protocol calls back: subscribers, and the profile when node
    identifiers collide. *)
Class DncpCallbacks := {
  call_subscriber : event -> dncp -> dncp;
  handle_collision : dncp -> dncp * bool
}.
