(* ===== verification/Dncp.v ===== *)
(** The core of the protocol: the model of [src/dncp.c], of the notifications of
    [src/dncp_notify.c] and of the Trickle reset of [src/dncp_timeout.c].

    Operations pass the state explicitly.  [None] stands for an access outside
    of memory or through a [NULL] pointer, or a division by zero.  Callbacks of
    subscribers are logged and then run on the state. *)
From S2P Require Import Prelude Bitops Tlv DncpNotify DncpIndex DncpState.

Section dncp.
Context `{!DncpExt, !DncpCallbacks}.

(** A [uint32_t] as the bytes the processor stores. *)
Definition host32 (v : Z) : list Z := if big_endian then be32 v else reverse (be32 v).
Definition of_host32 (l : list Z) : Z := of_be32 (if big_endian then l else reverse l).

Definition DNCP_T_PEER : nat := 8.
Definition DNCP_T_KEEPALIVE_INTERVAL : nat := 9.

Definition emit (e : event) (o : dncp) : dncp := set_log (log o ++ [e]) o.
Definition call (e : event) (o : dncp) : dncp := call_subscriber e (emit e o).

Definition dncp_time (o : dncp) : Z := if decide (now o = 0) then clock o else now o.

Definition dncp_schedule (o : dncp) : dncp :=
  if immediate_scheduled o then o
  else set_immediate_scheduled true (emit (ScheduleTimeout 0) o).

(** ** Notifications *)

(** The subscribers of a list [subscribers[cb]]. *)
Definition subs_of (cb : callback) (o : dncp) : list nat :=
  sub_id <$> filter (fun s => cb ∈ sub_cbs s) (subscribers o).

(** Call each subscriber of [cb] with the events made for it. *)
Definition notify_each (cb : callback) (evs : nat -> list event) (o : dncp) : dncp :=
  foldl (fun o s => foldl (fun o e => call e o) o (evs s)) o (subs_of cb o).

(** The bytes from [tlv_data] of a container to its padded end. *)
Definition blob (c : list Z) : list Z := c ++ padding (length c).

Definition dncp_notify_subscribers_tlvs_changed (ni : node_id) (a_old a_new : option (list Z)) (o : dncp)
  : option dncp :=
  removed ← tlvs_removed (blob <$> a_old) (blob <$> a_new);
  added ← tlvs_added (blob <$> a_old) (blob <$> a_new);
  let o := notify_each DNCP_CALLBACK_TLV (fun s => (fun t => TlvChange s ni t false) <$> removed) o in
  Some (notify_each DNCP_CALLBACK_TLV (fun s => (fun t => TlvChange s ni t true) <$> added) o).

Definition dncp_notify_subscribers_local_tlv_changed (t : attr) (add : bool) (o : dncp) : dncp :=
  notify_each DNCP_CALLBACK_LOCAL_TLV (fun s => [LocalTlvChange s t add]) o.

Definition dncp_notify_subscribers_node_changed (ni : node_id) (add : bool) (o : dncp) : dncp :=
  notify_each DNCP_CALLBACK_NODE (fun s => [NodeChange s ni add]) o.

Definition dncp_notify_subscribers_about_to_republish_tlvs (o : dncp) : dncp :=
  notify_each DNCP_CALLBACK_REPUBLISH (fun s => [RepublishTlvs s]) o.

Definition dncp_notify_subscribers_ep_changed (e : Z) (add : bool) (o : dncp) : dncp :=
  notify_each DNCP_CALLBACK_EP (fun s => [EpChange s e add]) o.

(** ** Nodes *)

Definition find_node (o : dncp) (ni : node_id) : option node :=
  snd <$> list_find (fun n => nid n = ni) (nodes o).

(** Write a node back where it is in the tree; nothing for one that was removed. *)
Definition put_node (n : node) (o : dncp) : dncp :=
  set_nodes ((fun m => if decide (nid m = nid n) then n else m) <$> nodes o) o.

Definition reachable (o : dncp) (n : node) : bool := bool_decide (last_reachable_prune n = last_prune o).

(** [dncp_for_each_node]: [dncp_get_first_node], then [dncp_node_get_next]. *)
Definition reachable_nodes (o : dncp) : list node := filter (fun n => reachable o n = true) (nodes o).

Definition dncp_node_is_self (o : dncp) (ni : node_id) : bool := bool_decide (own_node o = Some ni).

(** [a] is the payload of the new container.  A container with the same content
    as the current one is released for it, so pointers differ when contents do. *)
Definition dncp_node_set (o : dncp) (n : node) (upd t : Z) (a : option (list Z)) : option (dncp * node) :=
  let same := match a with None => true | Some c => bool_decide (tlv_container n = Some c) end in
  if bool_decide (upd = update_number n) && same then Some (o, n)
  else
    let a_valid := match a with
      | Some c => if decide (tlv_container n = Some c) then tlv_valid n else validate_node_data (nid n) c
      | None => false
      end in
    let n := set_update_number upd n in
    let n := if decide (t ≠ 0) then
               set_expiration_time (t + (2 ^ 32 - 2 ^ 15)) (set_origination_time t n) else n in
    let o := put_node n o in
    '(o, n) ← (if decide (tlv_container n ≠ a) then
        o ← (if reachable o n then
               dncp_notify_subscribers_tlvs_changed (nid n) (tlv_container_valid n)
                 (if a_valid then a else None) o
             else Some o);
        let n := set_node_data_hash_dirty true (set_tlv_valid a_valid (set_tlv_container a n)) in
        Some (set_graph_dirty true (put_node n o), n)
      else Some (o, n));
    Some (dncp_schedule (set_network_hash_dirty true o), n).

(** The end of [update_node]. *)
Definition nodes_changed (o : dncp) : dncp :=
  dncp_schedule (set_graph_dirty true (set_network_hash_dirty true o)).

(** [vlist_delete] of a node, with [update_node]. *)
Definition delete_node (o : dncp) (n : node) : option dncp :=
  let o := set_nodes (filter (fun m => nid m ≠ nid n) (nodes o)) o in
  '(o, _) ← dncp_node_set o n 0 0 None;
  Some (nodes_changed o).

Fixpoint insert_node (n : node) (l : list node) : list node :=
  match l with
  | [] => [n]
  | m :: l => if decide (memcmp (nid n) (nid m) < 0) then n :: m :: l else m :: insert_node n l
  end.

(** A new node as [dncp_find_node_by_node_id] and [update_node] leave it: not
    reachable. *)
Definition new_node (o : dncp) (ni : node_id) : node :=
  mk_node ni (nodes_version o) 0 (last_prune o - 1) (replicate hash_length 0) true 0 0 None false.

Definition dncp_find_node_by_node_id (o : dncp) (ni : node_id) (create : bool) : dncp * option node :=
  match find_node o ni with
  | Some n => (o, Some n)
  | None =>
    if create then
      let n := new_node o ni in
      (nodes_changed (set_nodes (insert_node n (nodes o)) o), Some n)
    else (o, None)
  end.

Definition dncp_set_own_node_id (o : dncp) (nibuf : node_id) : option dncp :=
  o ← match own_node o with
      | Some own => n ← find_node o own; o ← delete_node o n; Some (set_own_node None o)
      | None => Some o
      end;
  let '(o, n) := dncp_find_node_by_node_id o nibuf true in
  n ← n;
  let o := set_tlvs_dirty true (set_own_node (Some nibuf) o) in
  Some (dncp_schedule (put_node (set_last_reachable_prune (last_prune o) n) o)).

(** [memset(o, 0, sizeof( *o))]. *)
Definition dncp_zero (clk : Z) : dncp :=
  mk_dncp false 0 clk 0 [] 0 [] [] false false false false 0 0 false false None
    (replicate hash_length 0) 0 [] tindex_empty 0 [].

Definition dncp_init (clk : Z) (id : list Z) : option dncp :=
  let ni := take node_id_length (ext_hash id ++ replicate 32 0) in
  dncp_set_own_node_id (set_last_prune 1 (set_first_free_ep_id 1 (dncp_zero clk))) ni.

(** ** Local TLVs *)

Fixpoint insert_tlv (t : ltlv) (l : list ltlv) : list ltlv :=
  match l with
  | [] => [t]
  | u :: l => if decide (tlv_cmp (tlv t) (tlv u) < 0) then t :: u :: l else u :: insert_tlv t l
  end.

Definition without_tlv (t : attr) (l : list ltlv) : list ltlv := filter (fun u => tlv u ≠ t) l.

Definition find_tlv (o : dncp) (t : attr) : option ltlv :=
  snd <$> list_find (fun u => tlv u = t) (tlvs o).

Definition dncp_find_tlv (o : dncp) (type : nat) (data : list Z) : option ltlv :=
  find_tlv o (Z.of_nat type, data).

(** The end of [update_tlv]. *)
Definition tlvs_changed (o : dncp) : dncp := dncp_schedule (set_tlvs_dirty true o).

Definition dncp_add_tlv (o : dncp) (type : nat) (data : list Z) (x : option peer) : dncp :=
  let t := mk_ltlv (Z.of_nat type, data) x in
  let old := dncp_find_tlv o type data in
  let o := set_tlvs (insert_tlv t (without_tlv (tlv t) (tlvs o))) o in
  let o := match old with
           | Some u => dncp_notify_subscribers_local_tlv_changed (tlv u) false o
           | None => o
           end in
  tlvs_changed (dncp_notify_subscribers_local_tlv_changed (tlv t) true o).

Definition dncp_remove_tlv (o : dncp) (t : option ltlv) : dncp :=
  match t with
  | None => o
  | Some u =>
    let o := set_tlvs (without_tlv (tlv u) (tlvs o)) o in
    tlvs_changed (dncp_notify_subscribers_local_tlv_changed (tlv u) false o)
  end.

Definition dncp_remove_tlv_matching (o : dncp) (type : nat) (data : list Z) : dncp :=
  dncp_remove_tlv o (dncp_find_tlv o type data).

Definition dncp_remove_tlvs_by_type (o : dncp) (type : nat) : dncp * nat :=
  foldl (fun '(o, c) u => (dncp_remove_tlv o (Some u), (c + 1)%nat)) (o, 0%nat)
    (filter (fun u => (tlv u).1 = Z.of_nat type) (tlvs o)).

(** Write back the extra bytes of a local TLV. *)
Definition put_extra (t : attr) (x : peer) (o : dncp) : dncp :=
  set_tlvs ((fun u => if decide (tlv u = t) then set_extra (Some x) u else u) <$> tlvs o) o.

(** ** Endpoints *)

Definition strcmp (a b : list Z) : Z := memcmp (a ++ [0]) (b ++ [0]).

Fixpoint insert_ep (e : ep) (l : list ep) : list ep :=
  match l with
  | [] => [e]
  | f :: l => if decide (strcmp (ifname (conf e)) (ifname (conf f)) < 0) then e :: f :: l
              else f :: insert_ep e l
  end.

Definition new_ep (o : dncp) (name : list Z) : ep :=
  mk_ep false (set_ifname name per_ep) (first_free_ep_id o) (keepalive_interval per_ep) 0 0
    (mk_reply None false [] []) trickle_zero.

(** Endpoints are named by their identifier. *)
Definition dncp_find_ep_by_name (o : dncp) (name : list Z) : dncp * option Z :=
  if decide (name = []) then (o, None)
  else
    match list_find (fun e => ifname (conf e) = name) (eps o) with
    | Some (_, e) => (o, Some (ep_id e))
    | None =>
      let e := new_ep o name in
      (dncp_schedule (set_eps (insert_ep e (eps o)) (set_first_free_ep_id (first_free_ep_id o + 1) o)),
       Some (ep_id e))
    end.

Definition dncp_find_ep_by_id (o : dncp) (id : Z) : option ep :=
  snd <$> list_find (fun e => ep_id e = id) (eps o).

Definition put_ep (e : ep) (o : dncp) : dncp :=
  set_eps ((fun f => if decide (ep_id f = ep_id e) then e else f) <$> eps o) o.

(** ** Peer TLVs *)

(** [dncp_t_peer] with the node identifier before it. *)
Record t_peer := mk_t_peer { pe_nid : node_id; pe_peer_ep_id : Z; pe_ep_id : Z }.

Definition t_peer_data (p : t_peer) : list Z := pe_nid p ++ host32 (pe_peer_ep_id p) ++ host32 (pe_ep_id p).

Definition dncp_tlv_peer (a : attr) : option t_peer :=
  if decide (a.1 = Z.of_nat DNCP_T_PEER /\ length a.2 = (node_id_length + 8)%nat) then
    Some (mk_t_peer (take node_id_length a.2)
                    (of_host32 (take 4 (drop node_id_length a.2)))
                    (of_host32 (take 4 (drop (node_id_length + 4) a.2))))
  else None.

(** [dncp_node_for_each_tlv_with_t_v(n, a, type, false)].  The per-node cache
    only saves recalculation, so each loop starts with a dirty one. *)
Definition node_tlvs_of_type (o : dncp) (n : node) (type : nat) : option (dncp * list attr) :=
  '(ix, _, ts) ← dncp_node_for_each_tlv_with_t_v (tix o) (mk_tcache None true)
     (default [] (tlv_container n)) (tlv_valid n) type false;
  Some (set_tix ix o, ts).

(** The peers a node announces. *)
Definition node_peers (o : dncp) (n : node) : option (dncp * list t_peer) :=
  '(o, ts) ← node_tlvs_of_type o n DNCP_T_PEER;
  Some (o, omap dncp_tlv_peer (ts : list attr)).

(** [dncp_node_find_neigh_bidir]: the node a peer TLV of [n] names, if that
    node announces the same link back. *)
Definition dncp_node_find_neigh_bidir (o : dncp) (n : node) (ne : t_peer) : option (dncp * option node) :=
  match find_node o (pe_nid ne) with
  | None => Some (o, None)
  | Some n2 =>
    '(o, peers) ← node_peers o n2;
    Some (o, if existsb (fun ne2 => bool_decide (pe_ep_id ne = pe_peer_ep_id ne2 /\
                                    pe_peer_ep_id ne = pe_ep_id ne2 /\ pe_nid ne2 = nid n)) peers
             then Some n2 else None)
  end.

Definition dncp_ep_has_highest_id (o : dncp) (e : ep) : option (dncp * bool) :=
  own ← own_node o;
  n ← find_node o own;
  '(o, peers) ← node_peers o n;
  Some (o, forallb (fun nh => negb (bool_decide (pe_ep_id nh = ep_id e /\ 0 < memcmp (pe_nid nh) own))) peers).

(** ** Trickle *)

(** [random() % m]. *)
Definition random_mod (o : dncp) (m : Z) : option (dncp * Z) :=
  if decide (m = 0) then None
  else Some (set_randoms (randoms o + 1)%nat o, Z.rem (random (randoms o)) m).

(** A [dncp_trickle] pointer: the state of an endpoint, or that of a peer in the
    extra bytes of its local TLV. *)
Inductive tref := TrEp (id : Z) | TrPeer (key : attr).

Definition get_trickle (o : dncp) (r : tref) : option trickle :=
  match r with
  | TrEp id => ep_trickle <$> dncp_find_ep_by_id o id
  | TrPeer key => u ← find_tlv o key; peer_trickle <$> extra u
  end.

Definition upd_trickle (o : dncp) (r : tref) (f : trickle -> trickle) : option dncp :=
  match r with
  | TrEp id => e ← dncp_find_ep_by_id o id; Some (put_ep (set_ep_trickle (f (ep_trickle e)) e) o)
  | TrPeer key => u ← find_tlv o key; x ← extra u;
                  Some (put_extra key (set_peer_trickle (f (peer_trickle x)) x) o)
  end.

(** [e] is the endpoint whose configuration applies. *)
Definition trickle_set_i (o : dncp) (t : tref) (e : ep) (i : Z) : option dncp :=
  let n := dncp_time o in
  let imin := trickle_imin (conf e) in
  let imax := trickle_imax (conf e) in
  let i := if decide (i < imin) then imin else if decide (imax < i) then imax else i in
  '(o, r) ← random_mod o (Z.quot i 2);
  upd_trickle o t (fun t =>
    set_tr_c 0 (set_interval_end_time (n + i) (set_send_time (n + Z.quot i 2 + r) (set_tr_i i t)))).

(** The first loop of [dncp_trickle_reset]. *)
Fixpoint reset_eps (o : dncp) (ids : list Z) : option dncp :=
  match ids with
  | [] => Some o
  | id :: ids =>
    e ← dncp_find_ep_by_id o id;
    o ← trickle_set_i o (TrEp id) e (trickle_imin (conf e));
    reset_eps o ids
  end.

(** The second loop, over the local peer TLVs. *)
Fixpoint reset_peers (o : dncp) (ts : list ltlv) : option dncp :=
  match ts with
  | [] => Some o
  | u :: ts =>
    match dncp_tlv_peer (tlv u) with
    | None => reset_peers o ts
    | Some ne =>
      e ← dncp_find_ep_by_id o (pe_ep_id ne);
      o ← trickle_set_i o (TrPeer (tlv u)) e (trickle_imin (conf e));
      reset_peers o ts
    end
  end.

Definition dncp_trickle_reset (o : dncp) : option dncp :=
  o ← reset_eps o (ep_id <$> eps o);
  reset_peers o (tlvs o).

(** ** Hashes *)

Definition dncp_calculate_node_data_hash (n : node) : node :=
  if node_data_hash_dirty n then
    set_node_data_hash (ext_hash (default [] (tlv_container n))) (set_node_data_hash_dirty false n)
  else n.

(** What the network hash covers: update number and data hash of the reachable
    nodes, in order. *)
Definition network_state (ns : list node) : list Z :=
  flat_map (fun n => be32 (update_number n) ++ node_data_hash n) ns.

Definition dncp_calculate_network_hash (o : dncp) : option dncp :=
  if network_hash_dirty o then
    let old_hash := network_hash o in
    let o := set_nodes ((fun n => if reachable o n then dncp_calculate_node_data_hash n else n) <$> nodes o) o in
    let o := set_network_hash (ext_hash (network_state (reachable_nodes o))) o in
    o ← (if decide (old_hash ≠ network_hash o) then dncp_trickle_reset o else Some o);
    Some (set_network_hash_dirty false o)
  else Some o.

(** ** Publishing *)

(** The loop of [_produce_new_tlvs]: the local TLVs, raw and padded. *)
Fixpoint put_all_raw (tb : tlv_buf) (ts : list attr) : option tlv_buf :=
  match ts with
  | [] => Some tb
  | t :: ts =>
    '(tb, a) ← tlv_put_raw tb (enc_attr t.1 t.2);
    a ← a;
    m ← tlv_fill_pad (mem tb) a;
    put_all_raw (mk_tlv_buf (head tb) m) ts
  end.

Definition _produce_new_tlvs (o : dncp) (n : node) : option (dncp * option (list Z)) :=
  if tlvs_dirty o then
    tb ← tlv_buf_init (mk_tlv_buf 0 []) 0;
    tb ← put_all_raw tb (tlv <$> tlvs o);
    m ← tlv_fill_pad (mem tb) (head tb);
    c ← tlv_payload m (head tb);
    let o := set_tlvs_dirty false o in
    Some (o, if decide (tlv_container n = Some c) then None else Some c)
  else Some (o, None).

Definition dncp_self_flush (o : dncp) : option dncp :=
  own ← own_node o;
  n ← find_node o own;
  '(o, a) ← _produce_new_tlvs o n;
  if bool_decide (a = None) && negb (republish_tlvs o) then Some o
  else
    let o := dncp_notify_subscribers_about_to_republish_tlvs o in
    let o := set_republish_tlvs false o in
    n ← find_node o own;
    '(o, a2) ← _produce_new_tlvs o n;
    let a := match a2 with Some c => Some c | None => a end in
    '(o, _) ← dncp_node_set o n (u32 (update_number n + 1)) (dncp_time o)
                (match a with Some c => Some c | None => tlv_container n end);
    Some o.

(** ** Subscribing *)

(** [dncp_node_for_each_tlv]: the TLVs of the valid container. *)
Definition dncp_node_tlvs (n : node) : option (list attr) :=
  match tlv_container_valid n with
  | Some c => tlv_list c 0 (length c)
  | None => Some []
  end.

(** The events for the present nodes; [up] is the order when they appear. *)
Fixpoint node_events (s : subscriber) (ns : list node) (up : bool) : option (list event) :=
  match ns with
  | [] => Some []
  | n :: ns =>
    ts ← dncp_node_tlvs n;
    rest ← node_events s ns up;
    let ev_n := if decide (DNCP_CALLBACK_NODE ∈ sub_cbs s) then [NodeChange (sub_id s) (nid n) up] else [] in
    let ev_t := if decide (DNCP_CALLBACK_TLV ∈ sub_cbs s)
                then (fun t => TlvChange (sub_id s) (nid n) t up) <$> ts else [] in
    Some ((if up then ev_n ++ ev_t else ev_t ++ ev_n) ++ rest)
  end.

Definition local_tlv_events (s : subscriber) (ts : list ltlv) (up : bool) : list event :=
  if decide (DNCP_CALLBACK_LOCAL_TLV ∈ sub_cbs s)
  then (fun u => LocalTlvChange (sub_id s) (tlv u) up) <$> ts else [].

Definition call_all (es : list event) (o : dncp) : dncp := foldl (fun o e => call e o) o es.

Definition dncp_subscribe (o : dncp) (s : subscriber) : option dncp :=
  let o := set_subscribers (s :: subscribers o) o in
  let o := call_all (local_tlv_events s (tlvs o) true) o in
  es ← node_events s (reachable_nodes o) true;
  Some (call_all es o).

Definition dncp_unsubscribe (o : dncp) (s : subscriber) : option dncp :=
  let o := call_all (local_tlv_events s (tlvs o) false) o in
  es ← node_events s (reachable_nodes o) false;
  let o := call_all es o in
  Some (set_subscribers (filter (fun s' => sub_id s' ≠ sub_id s) (subscribers o)) o).

End dncp.
