(* ===== verification/DncpFacts.v ===== *)
(** What the operations of [Dncp] keep and change: frames for callbacks, the
    notifications a change of data gives, and the effect of [dncp_node_set] and
    [dncp_self_flush] on the published data. *)
From S2P Require Import Prelude Bitops Tlv DncpNotify DncpIndex DncpState Dncp.

(** The state without what a subscriber may change from its callback: the local
    TLVs with their dirty flag, the pending timeout, the TLV index, the log. *)
Definition erase (o : dncp) : dncp :=
  set_tlvs [] (set_tlvs_dirty false (set_immediate_scheduled false (set_tix tindex_empty (set_log [] o)))).

(** Events other than those of the local TLV interface. *)
Definition visible (e : event) : bool :=
  match e with LocalTlvChange _ _ _ | ScheduleTimeout _ => false | _ => true end.

Definition vlog (o : dncp) : list event := filter (fun e => visible e = true) (log o).

(** Local TLVs are sorted without duplicates. *)
Definition tlvs_wf (o : dncp) : Prop := tlvs_sorted (tlv <$> tlvs o) /\ tindex_wf (tix o).

(** They are small enough for the length field of one container. *)
Definition small (o : dncp) : Prop := Z.of_nat (length (enc (tlv <$> tlvs o))) < 65536.

(** The container [c] holds the local TLVs, unless they are marked dirty. *)
Definition pub (c : option (list Z)) (o : dncp) : Prop :=
  tlvs_dirty o = false -> small o -> c = Some (enc (tlv <$> tlvs o)).

(** Subscribers that use the interface for local TLVs only, as often and at whatever
    event they want: a change of the TLVs marks them dirty. *)
Class Passive `{!DncpExt, !DncpCallbacks} := {
  cb_erase e o : erase (call_subscriber e o) = erase o;
  cb_vlog e o : vlog (call_subscriber e o) = vlog o;
  cb_tlvs e o : tlvs_wf o -> tlvs_wf (call_subscriber e o);
  cb_pub e o c : pub c o -> pub c (call_subscriber e o)
}.

Section facts.
Context `{!DncpExt, !DncpCallbacks}.

Lemma dncp_node_tlvs_total n : is_Some (dncp_node_tlvs n).
Proof.
  unfold dncp_node_tlvs. destruct (tlv_container_valid n) as [c|]; [|by eexists]. by apply tlv_list_total.
Qed.

(** A field the callbacks do not change is one of the erased state. *)
Lemma erase_field {A} (f : dncp -> A) o o' :
  (forall o, f (erase o) = f o) -> erase o' = erase o -> f o' = f o.
Proof. intros Hf E. by rewrite <- (Hf o'), E, Hf. Qed.

Lemma erase_nodes o o' : erase o' = erase o -> nodes o' = nodes o.
Proof. by apply erase_field. Qed.
Lemma erase_last_prune o o' : erase o' = erase o -> last_prune o' = last_prune o.
Proof. by apply erase_field. Qed.
Lemma erase_subscribers o o' : erase o' = erase o -> subscribers o' = subscribers o.
Proof. by apply erase_field. Qed.

Lemma erase_emit e o : erase (emit e o) = erase o.
Proof. done. Qed.

Lemma erase_schedule o : erase (dncp_schedule o) = erase o.
Proof. unfold dncp_schedule. by destruct (immediate_scheduled o). Qed.

Lemma vlog_emit e o : vlog (emit e o) = vlog o ++ (if visible e then [e] else []).
Proof.
  unfold vlog, emit. cbn. rewrite filter_app. f_equal. cbn.
  destruct (visible e); [by rewrite decide_True|by rewrite decide_False].
Qed.

Lemma vlog_schedule o : vlog (dncp_schedule o) = vlog o.
Proof.
  unfold dncp_schedule. destruct (immediate_scheduled o); [done|].
  change (vlog (emit (ScheduleTimeout 0) o) = vlog o). rewrite vlog_emit. apply app_nil_r.
Qed.

Lemma tlvs_wf_ext o o' : tlvs o' = tlvs o -> tix o' = tix o -> tlvs_wf o -> tlvs_wf o'.
Proof. unfold tlvs_wf. by intros -> ->. Qed.

Lemma tlvs_wf_schedule o : tlvs_wf o -> tlvs_wf (dncp_schedule o).
Proof. unfold dncp_schedule. destruct (immediate_scheduled o); [done|]. by apply tlvs_wf_ext. Qed.

Section passive.
Context `{!Passive}.

Lemma erase_call e o : erase (call e o) = erase o.
Proof. unfold call. rewrite cb_erase. apply erase_emit. Qed.

Lemma vlog_call e o : vlog (call e o) = vlog o ++ (if visible e then [e] else []).
Proof. unfold call. rewrite cb_vlog. apply vlog_emit. Qed.

Lemma tlvs_wf_call e o : tlvs_wf o -> tlvs_wf (call e o).
Proof. intros. apply cb_tlvs. by eapply tlvs_wf_ext. Qed.

(** A property of the state that every callback keeps. *)
Lemma call_all_ind (P : dncp -> Prop) es o :
  (forall e o, P o -> P (call e o)) -> P o -> P (call_all es o).
Proof. intros HP. revert o; induction es as [|e es IH]; intros o Ho; [done|]. apply IH. by apply HP. Qed.

Lemma notify_each_call_all cb evs o : notify_each cb evs o = call_all (flat_map evs (subs_of cb o)) o.
Proof.
  unfold notify_each, call_all. generalize (subs_of cb o) as ss. intros ss.
  revert o; induction ss as [|s ss IH]; intros o; [done|]. cbn [foldl flat_map]. by rewrite foldl_app, IH.
Qed.

Lemma erase_notify_each cb evs o : erase (notify_each cb evs o) = erase o.
Proof.
  rewrite notify_each_call_all. apply (call_all_ind (fun o' => erase o' = erase o)); [|done].
  intros e o' <-. apply erase_call.
Qed.

Lemma vlog_call_all es o : vlog (call_all es o) = vlog o ++ filter (fun e => visible e = true) es.
Proof.
  revert o; induction es as [|e es IH]; intros o; [by rewrite app_nil_r|].
  change (call_all (e :: es) o) with (call_all es (call e o)). rewrite IH, vlog_call, filter_cons, <- app_assoc.
  f_equal. destruct (visible e); [by rewrite decide_True|by rewrite decide_False].
Qed.

Lemma vlog_notify_each cb evs o :
  vlog (notify_each cb evs o) = vlog o ++ filter (fun e => visible e = true) (flat_map evs (subs_of cb o)).
Proof. by rewrite notify_each_call_all, vlog_call_all. Qed.

Lemma tlvs_wf_notify_each cb evs o : tlvs_wf o -> tlvs_wf (notify_each cb evs o).
Proof. rewrite notify_each_call_all. apply call_all_ind. apply tlvs_wf_call. Qed.
End passive.
End facts.

Section notify.
Context `{!DncpExt, !DncpCallbacks, !Passive}.

(** The events of a change of data, for each subscriber in turn. *)
Definition tlv_events (ni : node_id) (ts : list attr) (add : bool) (ss : list nat) : list event :=
  flat_map (fun s => (fun t => TlvChange s ni t add) <$> ts) ss.

Lemma tlv_events_visible ni ts add ss :
  filter (fun e => visible e = true) (tlv_events ni ts add ss) = tlv_events ni ts add ss.
Proof.
  apply filter_all. intros e He. unfold tlv_events in He. apply list_elem_of_In, in_flat_map in He as (s & _ & He).
  apply list_elem_of_In, list_elem_of_fmap in He as (t & -> & _). done.
Qed.

(** The notification always ends; it changes nothing the callbacks may not change. *)
Lemma notify_tlvs_changed ni a_old a_new o :
  exists o' removed added, dncp_notify_subscribers_tlvs_changed ni a_old a_new o = Some o' /\
    tlvs_removed (blob <$> a_old) (blob <$> a_new) = Some removed /\
    tlvs_added (blob <$> a_old) (blob <$> a_new) = Some added /\
    erase o' = erase o /\
    vlog o' = vlog o ++ tlv_events ni removed false (subs_of DNCP_CALLBACK_TLV o) ++
                        tlv_events ni added true (subs_of DNCP_CALLBACK_TLV o) /\
    (tlvs_wf o -> tlvs_wf o').
Proof.
  unfold dncp_notify_subscribers_tlvs_changed.
  destruct (tlvs_diff_total (blob <$> a_old) (blob <$> a_new)) as [[removed ->] [added ->]].
  cbn [mbind option_bind]. do 3 eexists. split; [done|]. split; [done|]. split; [done|].
  split; [by rewrite !erase_notify_each|]. split; [|intros; by do 2 apply tlvs_wf_notify_each].
  rewrite !vlog_notify_each, <- app_assoc.
  assert (subs_of DNCP_CALLBACK_TLV (notify_each DNCP_CALLBACK_TLV
    (fun s => (fun t => TlvChange s ni t false) <$> removed) o) = subs_of DNCP_CALLBACK_TLV o) as ->.
  { unfold subs_of. by rewrite (erase_subscribers o) by apply erase_notify_each. }
  do 2 f_equal; apply tlv_events_visible.
Qed.

Lemma blob_aligned c : (length c mod 4 = 0)%nat -> blob c = c.
Proof. intros Hc. unfold blob. by rewrite padding_aligned, app_nil_r. Qed.

Lemma blob_data_of a ts : data_of a ts -> blob <$> a = a.
Proof. intros [_ Ha]. destruct a; [|done]. cbn. subst. by rewrite blob_aligned by apply enc_aligned. Qed.

(** C25: For sorted node data, the parallel walks over the old and the new block notify every
    subscriber of exactly the set difference: first, subscriber by subscriber, the TLVs that
    went away, then those that are new. *)
Theorem tlvs_changed_difference ni a_old a_new os ns o :
  data_of a_old os -> data_of a_new ns ->
  exists o', dncp_notify_subscribers_tlvs_changed ni a_old a_new o = Some o' /\
    nodes o' = nodes o /\
    vlog o' = vlog o ++
      flat_map (fun s => (fun t => TlvChange s ni t false) <$> filter (fun t => t ∉ ns) os)
        (subs_of DNCP_CALLBACK_TLV o) ++
      flat_map (fun s => (fun t => TlvChange s ni t true) <$> filter (fun t => t ∉ os) ns)
        (subs_of DNCP_CALLBACK_TLV o).
Proof.
  intros Ho Hn. destruct (notify_tlvs_changed ni a_old a_new o) as (o' & removed & added & E & Er & Ea & Hf & Hl & _).
  rewrite (blob_data_of _ _ Ho), (blob_data_of _ _ Hn) in Er, Ea.
  destruct (tlvs_diff _ _ _ _ Ho Hn) as [Er' Ea']. rewrite Er in Er'. rewrite Ea in Ea'.
  injection Er' as ->. injection Ea' as ->. exists o'. split; [done|]. split; [by apply erase_nodes|done].
Qed.
End notify.
