(* ===== verification/DncpProto.v ===== *)
(** Messages of the protocol: the model of [src/dncp_proto.c] and of the wire
    structures of [src/dncp_proto.h].

    A reply under construction is a TLV buffer whose container id, when not 0,
    is the exponent of the size it may reach on the wire; it is sent and started
    again when the next TLV would pass that size. *)
From S2P Require Import Prelude Bitops Tlv DncpNotify DncpIndex DncpState Dncp.

Definition DNCP_T_REQ_NET_STATE : Z := 1.
Definition DNCP_T_REQ_NODE_STATE : Z := 2.
Definition DNCP_T_NODE_ENDPOINT : Z := 3.
Definition DNCP_T_NET_STATE : Z := 4.
Definition DNCP_T_NODE_STATE : Z := 5.

(** [while (bytes > v) { v <<= 1; i += 1; }] on a [size_t]: a size above [2 ^ 63]
    makes [v] 0 and the loop endless. *)
Fixpoint bytes_to_exp_loop (fuel : nat) (bytes v i : Z) : option Z :=
  match fuel with
  | O => None
  | S fuel => if decide (v < bytes) then bytes_to_exp_loop fuel bytes (u64 (2 * v)) (i + 1) else Some i
  end.

(** After 64 rounds [v] has passed every size that ends the loop. *)
Definition _bytes_to_exp (bytes : Z) : option Z := bytes_to_exp_loop 64 bytes 1 (-1).

(** [dncp_update_number_gt(a, b)]. *)
Definition dncp_update_number_gt (a b : Z) : bool :=
  bool_decide (Z.land (u32 (u32 a - u32 b)) (2 ^ 31) ≠ 0).

Section proto.
Context `{!DncpExt, !DncpCallbacks}.

(** ** Sending *)

Definition dncp_ep_i_send_buf (o : dncp) (e : ep) (src dst : option sockaddr) (tb : tlv_buf) : option dncp :=
  p ← tlv_payload (mem tb) (head tb);
  Some (emit (Send (ep_id e) src dst p) o).

Definition dncp_reply_send (o : dncp) (e : ep) (rp : reply) : option dncp :=
  tb ← rbuf rp;
  dncp_ep_i_send_buf o e (if has_src rp then Some (rsrc rp) else None) (Some (rdst rp)) tb.

(** The overflow check of [_push_tlv].  [1 << ot] is undefined from 31 on. *)
Definition push_overflows (tb : tlv_buf) (len : nat) : option bool :=
  ot ← tlv_id (mem tb) (head tb);
  if decide (ot = 0) then Some false
  else if decide (31 <= ot) then None
  else
    l ← tlv_len (mem tb) (head tb);
    Some (bool_decide (2 ^ ot < Z.of_nat (l + len + 4))).

(** Write the payload of a TLV just pushed. *)
Definition fill (rp : reply) (a : nat) (data : list Z) : option reply :=
  tb ← rbuf rp;
  m ← wrn (mem tb) (a + 4) data;
  Some (set_rbuf (Some (mk_tlv_buf (head tb) m)) rp).

(** The payload of an endpoint TLV. *)
Definition ep_id_data (o : dncp) (e : ep) : option (list Z) :=
  own ← own_node o;
  Some (own ++ host32 (ep_id e)).

(** [_push_tlv], with [_push_ep_id_tlv] for a reply that starts.  A reply that
    starts pushes its endpoint TLV first; a size so small that this overflows
    again makes the C code recurse without end. *)
Fixpoint _push_tlv (fuel : nat) (o : dncp) (e : ep) (rp : reply) (t : Z) (len : nat)
  : option (dncp * reply * nat) :=
  match fuel with
  | O => None
  | S fuel =>
    '(o, rp) ← match rbuf rp with
      | Some tb =>
        over ← push_overflows tb len;
        if (over : bool) then o ← dncp_reply_send o e rp; Some (o, set_rbuf None rp)
        else Some (o, rp)
      | None => Some (o, rp)
      end;
    '(o, rp) ← match rbuf rp with
      | Some _ => Some (o, rp)
      | None =>
        ot ← _bytes_to_exp (u64 (maximum_unicast_size (conf e)));
        tb ← tlv_buf_init (mk_tlv_buf 0 []) ot;
        let rp := set_rbuf (Some tb) rp in
        if unicast_is_reliable_stream (conf e) then Some (o, rp)
        else
          d ← ep_id_data o e;
          '(o, rp, a) ← _push_tlv fuel o e rp DNCP_T_NODE_ENDPOINT (node_id_length + 4);
          rp ← fill rp a d;
          Some (o, rp)
      end;
    tb ← rbuf rp;
    '(tb, a) ← tlv_new tb t len;
    Some (o, set_rbuf (Some tb) rp, a)
  end.

(** Two nested calls are enough when the endpoint TLV fits an empty reply. *)
Definition push_tlv : dncp -> ep -> reply -> Z -> nat -> option (dncp * reply * nat) := _push_tlv 2.

(** The search of [_maybe_pop_tlv] among the TLVs before [last]. *)
Fixpoint same_before (m : list Z) (ps : list nat) (last : nat) : option bool :=
  match ps with
  | [] => Some false
  | a :: ps =>
    if decide (a = last) then Some false
    else
      r ← tlv_attr_cmp (Some (m, a)) (Some (m, last));
      if decide (r = 0) then Some true else same_before m ps last
  end.

Definition _maybe_pop_tlv (rp : reply) (last : nat) : option reply :=
  tb ← rbuf rp;
  ps ← tlv_for_each_attr (mem tb) (head tb);
  dup ← same_before (mem tb) ps last;
  if (dup : bool) then
    r ← tlv_raw_len (mem tb) (head tb);
    rl ← tlv_raw_len (mem tb) last;
    m ← tlv_set_raw_len (mem tb) (head tb) (r - rl);
    Some (set_rbuf (Some (mk_tlv_buf (head tb) m)) rp)
  else Some rp.

(** The payload of a node state TLV. *)
Definition node_state_data (o : dncp) (n : node) (incl_data : bool) : list Z :=
  nid n ++ be32 (update_number n) ++ be32 (u32 (dncp_time o - origination_time n)) ++ node_data_hash n ++
  (if incl_data then default [] (tlv_container n) else []).

Definition _push_node_state_tlv (o : dncp) (e : ep) (rp : reply) (n : node) (incl_data : bool)
  : option (dncp * reply) :=
  let d := node_state_data o n incl_data in
  '(o, rp, a) ← push_tlv o e rp DNCP_T_NODE_STATE (length d);
  rp ← fill rp a d;
  rp ← _maybe_pop_tlv rp a;
  Some (o, rp).

Definition _push_network_state_tlv (o : dncp) (e : ep) (rp : reply) : option (dncp * reply) :=
  '(o, rp, a) ← push_tlv o e rp DNCP_T_NET_STATE hash_length;
  o ← dncp_calculate_network_hash o;
  rp ← fill rp a (network_hash o);
  rp ← _maybe_pop_tlv rp a;
  Some (o, rp).

(** [_push_ep_id_tlv] of a message that is not a reply. *)
Definition _push_ep_id_tlv (o : dncp) (e : ep) (rp : reply) (dst : option sockaddr) (always_ep_id : bool)
  : option (dncp * reply) :=
  if unicast_is_reliable_stream (conf e) && bool_decide (is_Some dst) && negb always_ep_id then Some (o, rp)
  else
    d ← ep_id_data o e;
    '(o, rp, a) ← push_tlv o e rp DNCP_T_NODE_ENDPOINT (node_id_length + 4);
    rp ← fill rp a d;
    Some (o, rp).

Fixpoint push_node_states (o : dncp) (e : ep) (rp : reply) (ns : list node) : option (dncp * reply) :=
  match ns with
  | [] => Some (o, rp)
  | n :: ns =>
    '(o, rp) ← _push_node_state_tlv o e rp n false;
    push_node_states o e rp ns
  end.

(** [maximum_size] is 0 for no limit. *)
Definition _push_network_state (o : dncp) (e : ep) (rp : reply) (maximum_size : Z) : option (dncp * reply) :=
  '(o, rp) ← _push_network_state_tlv o e rp;
  if negb (graph_dirty o) || bool_decide (maximum_size = 0) then
    let ns_len := Z.of_nat (8 + node_id_length + hash_length) in
    let nn := if decide (maximum_size ≠ 0) then Z.of_nat (length (reachable_nodes o)) else 0 in
    tb ← rbuf rp;
    l ← tlv_len (mem tb) (head tb);
    if bool_decide (maximum_size = 0) || bool_decide (Z.of_nat l + nn * (4 + ns_len) <= maximum_size) then
      push_node_states o e rp (reachable_nodes o)
    else Some (o, rp)
  else Some (o, rp).

Definition _push_req_node_data_tlv (o : dncp) (e : ep) (rp : reply) (ni : node_id) : option (dncp * reply) :=
  '(o, rp, a) ← push_tlv o e rp DNCP_T_REQ_NODE_STATE node_id_length;
  rp ← fill rp a ni;
  rp ← _maybe_pop_tlv rp a;
  Some (o, rp).

(** The buffer is local: container id 0, no limit. *)
Definition dncp_ep_i_send_network_state (o : dncp) (e : ep) (src dst : option sockaddr)
    (maximum_size : Z) (always_ep_id : bool) : option dncp :=
  tb ← tlv_buf_init (mk_tlv_buf 0 []) 0;
  '(o, rp) ← _push_ep_id_tlv o e (mk_reply (Some tb) false [] []) dst always_ep_id;
  '(o, rp) ← _push_network_state o e rp maximum_size;
  tb ← rbuf rp;
  dncp_ep_i_send_buf o e src dst tb.

(** ** Receiving *)

(** [_find_local_tlv_by_remote]. *)
Definition _find_local_tlv_by_remote (o : dncp) (remote : sockaddr) : option ltlv :=
  snd <$> list_find (fun u => is_Some (dncp_tlv_peer (tlv u)) /\ last_sa6 <$> extra u = Some remote) (tlvs o).

(** [_heard]: the local peer TLV for a remote endpoint, added on the first
    unicast contact.  The peer is named by its TLV. *)
Definition _heard (o : dncp) (e : ep) (ni : node_id) (remote_ep : Z) (src : sockaddr) (multicast : bool)
  : option (dncp * option attr) :=
  let np := t_peer_data (mk_t_peer ni remote_ep (ep_id e)) in
  let key := (Z.of_nat DNCP_T_PEER, np) in
  match dncp_find_tlv o DNCP_T_PEER np with
  | None =>
    if multicast then Some (o, None)
    else
      let o := dncp_add_tlv o DNCP_T_PEER np (Some peer_zero) in
      Some (put_extra key (mk_peer src (dncp_time o) trickle_zero) o, Some key)
  | Some u =>
    if multicast then Some (o, Some key)
    else
      x ← extra u;
      Some (put_extra key (set_last_sa6 src x) o, Some key)
  end.

(** Update the peer a message came from, if it is known. *)
Definition on_peer (f : peer -> peer) (ne : option attr) (o : dncp) : option dncp :=
  match ne with
  | None => Some o
  | Some key =>
    u ← find_tlv o key;
    x ← extra u;
    Some (put_extra key (f x) o)
  end.

(** The local variables of [handle_message]. *)
Record hm := mk_hm {
  hm_o : dncp; hm_seen_lid : bool; hm_ne : option attr; hm_is_local : bool;
  hm_request : bool;  (** [should_request_network_state] *)
  hm_updated : bool;  (** [updated_or_requested_state] *)
  hm_reply : reply }.

(** How a TLV leaves the [switch]: on to the next, or out of the function. *)
Inductive hm_res := Next (h : hm) | Return (o : dncp).

Definition with_o (h : hm) (o : dncp) : hm :=
  mk_hm o (hm_seen_lid h) (hm_ne h) (hm_is_local h) (hm_request h) (hm_updated h) (hm_reply h).
Definition with_reply (h : hm) (o : dncp) (rp : reply) : hm :=
  mk_hm o (hm_seen_lid h) (hm_ne h) (hm_is_local h) (hm_request h) (hm_updated h) rp.

(** [case DNCP_T_NODE_ENDPOINT]. *)
Definition handle_node_endpoint (e : ep) (src : sockaddr) (multicast : bool) (h : hm) (d : list Z)
  : option hm_res :=
  let o := hm_o h in
  if hm_seen_lid h then Some (Next h)
  else if decide (length d ≠ node_id_length + 4)%nat then Some (Return o)
  else
    let ni := take node_id_length d in
    let remote_ep := of_host32 (drop node_id_length d) in
    own ← own_node o;
    if decide (ni = own) then
      Some (Next (mk_hm o true (hm_ne h) true (hm_request h) (hm_updated h) (hm_reply h)))
    else
      '(o, ne) ← _heard o e ni remote_ep src multicast;
      o ← (if multicast then Some o else on_peer (set_last_contact (dncp_time o)) ne o);
      let request := hm_request h || (bool_decide (ne = None) && multicast) in
      Some (Next (mk_hm o true ne false request (hm_updated h) (hm_reply h))).

(** [case DNCP_T_REQ_NET_STATE]. *)
Definition handle_req_net_state (e : ep) (multicast : bool) (h : hm) : option hm_res :=
  if multicast then Some (Next h)
  else '(o, rp) ← _push_network_state (hm_o h) e (hm_reply h) 0; Some (Next (with_reply h o rp)).

(** [case DNCP_T_REQ_NODE_STATE]. *)
Definition handle_req_node_state (e : ep) (multicast : bool) (h : hm) (d : list Z) : option hm_res :=
  let o := hm_o h in
  if multicast then Some (Next h)
  else if decide (length d ≠ node_id_length) then Some (Next h)
  else
    match find_node o d with
    | None => Some (Next h)
    | Some n =>
      if dncp_node_is_self o d then
        o ← dncp_self_flush o;
        n ← find_node o d;
        '(o, rp) ← _push_node_state_tlv o e (hm_reply h) n true;
        Some (Next (with_reply h o rp))
      else if graph_dirty o then Some (Next h)
      else if negb (reachable o n) then Some (Next h)
      else
        '(o, rp) ← _push_node_state_tlv o e (hm_reply h) n true;
        Some (Next (with_reply h o rp))
    end.

(** [case DNCP_T_NET_STATE]. *)
Definition handle_net_state (e : ep) (h : hm) (d : list Z) : option hm_res :=
  let o := hm_o h in
  if decide (length d ≠ hash_length) then Some (Next h)
  else if decide (d = network_hash o) then
    l ← dncp_find_ep_by_id o (ep_id e);
    let o := put_ep (set_ep_trickle (set_tr_c (tr_c (ep_trickle l) + 1) (ep_trickle l)) l) o in
    o ← on_peer (fun x => set_last_contact (dncp_time o)
                   (set_peer_trickle (set_tr_c (tr_c (peer_trickle x) + 1) (peer_trickle x)) x)) (hm_ne h) o;
    Some (Next (with_o h o))
  else
    l ← dncp_find_ep_by_id o (ep_id e);
    let request := hm_request h ||
      bool_decide (trickle_imin (conf l) <= dncp_time o - last_req_network_state l) in
    Some (Next (mk_hm o (hm_seen_lid h) (hm_ne h) (hm_is_local h) request (hm_updated h) (hm_reply h))).

(** The container [tlv_put_raw] makes of received node data; [None] inside when
    there is less than a TLV header. *)
Definition received_container (nd : list Z) : option (option (list Z)) :=
  tb ← tlv_buf_init (mk_tlv_buf 0 []) 0;
  '(tb, a) ← tlv_put_raw tb nd;
  match a with
  | None => Some None
  | Some _ => c ← tlv_payload (mem tb) (head tb); Some (Some c)
  end.

(** Received data that names our own node. *)
Definition own_data_received (o : dncp) (n : node) (new_update_number : Z) : dncp :=
  let '(o, ignore) := if collided o then handle_collision o else (o, false) in
  if ignore then o
  else
    let n := set_update_number (u32 (new_update_number + 1000 - 1)) n in
    dncp_schedule (set_republish_tlvs true (put_node n (set_collided true o))).

(** [case DNCP_T_NODE_STATE]. *)
Definition handle_node_state (e : ep) (multicast : bool) (h : hm) (d : list Z) : option hm_res :=
  let o := hm_o h in
  let ns_len := (8 + node_id_length + hash_length)%nat in
  if decide (length d < ns_len)%nat then Some (Next h)
  else
    let ni := take node_id_length d in
    let new_update_number := u32 (of_be32 (take 4 (drop node_id_length d))) in
    let ms := of_be32 (take 4 (drop (node_id_length + 4) d)) in
    let hsh := take hash_length (drop (node_id_length + 8) d) in
    let n := find_node o ni in
    let interesting := match n with
      | None => true
      | Some n => dncp_update_number_gt (update_number n) new_update_number ||
                  (bool_decide (new_update_number = update_number n) && bool_decide (node_data_hash n ≠ hsh))
      end in
    if negb interesting then Some (Next h)
    else
      let nd := if multicast && negb (accept_node_data_updates_via_multicast (conf e)) then []
                else drop ns_len d in
      if decide (nd = []) then
        '(o, rp) ← _push_req_node_data_tlv o e (hm_reply h) ni;
        Some (Next (mk_hm o (hm_seen_lid h) (hm_ne h) (hm_is_local h) (hm_request h) true rp))
      else if decide (ext_hash nd ≠ hsh) then Some (Next h)
      else
        let '(o, n) := dncp_find_node_by_node_id o ni true in
        n ← n;
        if dncp_node_is_self o ni then Some (Return (own_data_received o n new_update_number))
        else
          c ← received_container nd;
          o ← match c with
              | Some c =>
                '(o, n) ← dncp_node_set o n new_update_number (dncp_time o - ms) (Some c);
                Some (put_node (set_node_data_hash_dirty false (set_node_data_hash hsh n)) o)
              | None => Some o
              end;
          Some (Next (mk_hm o (hm_seen_lid h) (hm_ne h) (hm_is_local h) (hm_request h) true (hm_reply h))).

(** One round of the loop over the TLVs of a message. *)
Definition handle_tlv (e : ep) (src : sockaddr) (multicast : bool) (h : hm) (t : attr) : option hm_res :=
  let '(id, d) := t in
  if decide (id = DNCP_T_NODE_ENDPOINT) then handle_node_endpoint e src multicast h d
  else if decide (id = DNCP_T_REQ_NET_STATE) then handle_req_net_state e multicast h
  else if decide (id = DNCP_T_REQ_NODE_STATE) then handle_req_node_state e multicast h d
  else if decide (id = DNCP_T_NET_STATE) then handle_net_state e h d
  else if decide (id = DNCP_T_NODE_STATE) then handle_node_state e multicast h d
  else Some (Next h).

Fixpoint handle_tlvs (e : ep) (src : sockaddr) (multicast : bool) (h : hm) (ts : list attr) : option hm_res :=
  match ts with
  | [] => Some (Next h)
  | t :: ts =>
    r ← handle_tlv e src multicast h t;
    match r with
    | Next h => handle_tlvs e src multicast h ts
    | Return o => Some (Return o)
    end
  end.

(** The end of [handle_message]: send the reply, or keep it for later. *)
Definition finish_message (e : ep) (multicast : bool) (h : hm) : option dncp :=
  let o := hm_o h in
  '(o, rp) ← (if hm_request h && negb (hm_updated h) && negb (hm_is_local h) then
      '(o, rp) ← _push_network_state_tlv o e (hm_reply h);
      '(o, rp, _) ← push_tlv o e rp DNCP_T_REQ_NET_STATE 0;
      l ← dncp_find_ep_by_id o (ep_id e);
      Some (put_ep (set_last_req_network_state (dncp_time o) l) o, rp)
    else Some (o, hm_reply h));
  match rbuf rp with
  | None => Some o
  | Some _ =>
    if multicast then
      '(o, r) ← random_mod o (Z.quot (trickle_imin (conf e)) 2);
      let t := dncp_time o + r in
      l ← dncp_find_ep_by_id o (ep_id e);
      if decide (send_reply_at l = 0 \/ t < send_reply_at l) then
        Some (dncp_schedule (put_ep (set_ep_reply rp (set_send_reply_at t l)) o))
      else Some o
    else dncp_reply_send o e rp
  end.

(** [dst] is [None] for multicast; [msg] the bytes received. *)
Definition handle_message (o : dncp) (e : ep) (src : sockaddr) (dst : option sockaddr) (msg : list Z)
  : option dncp :=
  let multicast := bool_decide (dst = None) in
  let rp := mk_reply None (negb multicast) (default [] dst) src in
  '(o, ne) ← (if negb multicast && unicast_is_reliable_stream (conf e) then
      match _find_local_tlv_by_remote o src with
      | Some u =>
        match dncp_tlv_peer (tlv u) with
        | Some p => _heard o e (pe_nid p) (pe_peer_ep_id p) src multicast
        | None => Some (o, None)
        end
      | None => Some (o, None)
      end
    else Some (o, None));
  ts ← tlv_list msg 0 (length msg);
  r ← handle_tlvs e src multicast (mk_hm o false ne false false false rp) ts;
  match r with
  | Return o => Some o
  | Next h => finish_message e multicast h
  end.

(** ** The entry points of the network *)

Definition DNCP_RECV_FLAG_SRC_LINKLOCAL : nat := 0.
Definition DNCP_RECV_FLAG_DST_LINKLOCAL : nat := 1.
Definition DNCP_RECV_FLAG_SECURE : nat := 2.
Definition DNCP_RECV_FLAG_SECURE_TRIED : nat := 3.

Definition flag (flags : Z) (bit : nat) : bool := Z.testbit flags (Z.of_nat bit).

(** What [recv] delivers. *)
Record packet := mk_packet {
  pk_ep : Z; pk_src : sockaddr; pk_dst : option sockaddr; pk_flags : Z; pk_data : list Z }.

(** The checks of [dncp_ext_readable] before a packet is handled. *)
Definition packet_accepted (e : ep) (p : packet) : bool :=
  let fl := flag (pk_flags p) in
  let unicast := bool_decide (is_Some (pk_dst p)) in
  enabled e &&
  negb (unicast && xorb (negb (fl DNCP_RECV_FLAG_SRC_LINKLOCAL)) (negb (fl DNCP_RECV_FLAG_DST_LINKLOCAL))) &&
  (fl DNCP_RECV_FLAG_SRC_LINKLOCAL ||
   (if fl DNCP_RECV_FLAG_SECURE then accept_secure_nonlocal_traffic (conf e)
    else accept_insecure_nonlocal_traffic (conf e))) &&
  negb (unicast && negb (fl DNCP_RECV_FLAG_SECURE) && fl DNCP_RECV_FLAG_SECURE_TRIED).

(** The length field of the message container has 16 bits. *)
Definition message_of (data : list Z) : list Z := take (Z.to_nat (Z.of_nat (length data) mod 65536)) data.

Fixpoint dncp_ext_readable (o : dncp) (ps : list packet) : option dncp :=
  match ps with
  | [] => Some o
  | p :: ps =>
    let msg := message_of (pk_data p) in
    let o := notify_each DNCP_CALLBACK_SOCKET_MSG
               (fun s => [MsgReceived s (pk_ep p) (pk_src p) (pk_dst p) (pk_flags p) msg]) o in
    e ← dncp_find_ep_by_id o (pk_ep p);
    if packet_accepted e p then
      o ← handle_message o e (pk_src p) (pk_dst p) msg;
      dncp_ext_readable o ps
    else dncp_ext_readable o ps
  end.

Definition dncp_ext_ep_peer_state (o : dncp) (e : ep) (local remote : sockaddr) (connected : bool)
  : option dncp :=
  if connected then dncp_ep_i_send_network_state o e (Some local) (Some remote) 0 true
  else
    let o := match _find_local_tlv_by_remote o remote with
      | Some u => match extra u with
                  | Some x => put_extra (tlv u) (set_last_contact 0 x) o
                  | None => o
                  end
      | None => o
      end in
    Some (dncp_schedule o).
End proto.
