(* ===== verification/DncpTimeout.v ===== *)
(** Time: the model of [src/dncp_timeout.c], Trickle, keep-alives, pruning and
    the timeout handler. *)
From S2P Require Import Prelude Bitops Tlv DncpNotify DncpIndex DncpState Dncp DncpProto.

(** [TMIN]: the earlier of two times, where 0 is no time. *)
Definition TMIN (x y : Z) : Z :=
  if decide (x = 0) then y else if decide (y = 0) then x else if decide (x < y) then x else y.

Section timeout.
Context `{!DncpExt, !DncpCallbacks}.

(** The payload of a keep-alive interval TLV. *)
Definition keepalive_data (id value : Z) : list Z := host32 id ++ be32 value.

Definition ep_i_set_keepalive_interval (o : dncp) (e : ep) (value : Z) : dncp :=
  if decide (published_keepalive_interval e = value) then o
  else
    let o := if decide (published_keepalive_interval e ≠ keepalive_interval per_ep) then
               dncp_remove_tlv_matching o DNCP_T_KEEPALIVE_INTERVAL
                 (keepalive_data (ep_id e) (published_keepalive_interval e))
             else o in
    let o := if decide (value ≠ keepalive_interval per_ep) then
               dncp_add_tlv o DNCP_T_KEEPALIVE_INTERVAL (keepalive_data (ep_id e) value) None
             else o in
    put_ep (set_published_keepalive_interval value e) o.

(** ** Trickle *)

Definition trickle_upgrade (o : dncp) (t : tref) (e : ep) : option dncp :=
  tr ← get_trickle o t;
  trickle_set_i o t e (tr_i tr * 2).

(** [dst] is the address of a peer, or [None] for multicast on the endpoint. *)
Definition trickle_send_nocheck (o : dncp) (t : tref) (e : ep) (dst : option sockaddr) : option dncp :=
  o ← upd_trickle o t (fun t => set_last_sent (dncp_time o) (set_num_sent (num_sent t + 1) t));
  tr ← get_trickle o t;
  let maximum_size := if decide (is_Some dst) then 0 else maximum_multicast_size (conf e) in
  let maximum_size := if decide (tr_i tr ≠ trickle_imin (conf e))
                      then Z.of_nat (4 + 4 + node_id_length + 4 + hash_length) else maximum_size in
  dncp_ep_i_send_network_state o e None dst maximum_size false.

Definition trickle_send (o : dncp) (t : tref) (e : ep) (dst : option sockaddr) : option dncp :=
  tr ← get_trickle o t;
  o ← (if bool_decide (tr_c tr < trickle_k (conf e)) &&
          (negb (unicast_is_reliable_stream (conf e)) || bool_decide (tr_i tr = trickle_imin (conf e)))
       then trickle_send_nocheck o t e dst
       else upd_trickle o t (fun t => set_num_skipped (num_skipped t + 1) t));
  upd_trickle o t (set_send_time 0).

(** The keep-alive part of [handle_trickle_and_ka]. *)
Definition handle_keepalive (o : dncp) (t : tref) (e : ep) (dst : option sockaddr) : option (dncp * Z) :=
  let ka := published_keepalive_interval e in
  tr ← get_trickle o t;
  if decide (ka = 0) then Some (o, 0)
  else if decide (last_sent tr + ka <= dncp_time o) then
    o ← trickle_send_nocheck o t e dst;
    tr ← get_trickle o t;
    o ← trickle_set_i o t e (tr_i tr);
    tr ← get_trickle o t;
    Some (o, TMIN 0 (last_sent tr + ka))
  else Some (o, TMIN 0 (last_sent tr + ka)).

(** Do what is due; the result is the time of the next event. *)
Definition handle_trickle_and_ka (o : dncp) (t : tref) (e : ep) (dst : option sockaddr)
  : option (dncp * Z) :=
  let n := dncp_time o in
  '(o, next) ← handle_keepalive o t e dst;
  tr ← get_trickle o t;
  o ← (if decide (interval_end_time tr <= n) then trickle_upgrade o t e
       else if decide (send_time tr ≠ 0 /\ send_time tr <= n) then trickle_send o t e dst
       else Some o);
  tr ← get_trickle o t;
  Some (o, TMIN (TMIN next (interval_end_time tr)) (send_time tr)).

(** ** Pruning *)

Definition _node_set_reachable (o : dncp) (n : node) (value : bool) : option dncp :=
  let is_reachable := reachable o n in
  o ← (if bool_decide (is_reachable ≠ value) then
      let o := set_network_hash_dirty true o in
      o ← (if value then Some o
           else dncp_notify_subscribers_tlvs_changed (nid n) (tlv_container_valid n) None o);
      let o := dncp_notify_subscribers_node_changed (nid n) value o in
      if value then dncp_notify_subscribers_tlvs_changed (nid n) None (tlv_container_valid n) o
      else Some o
    else Some o);
  if value then
    n ← find_node o (nid n);
    Some (put_node (set_last_reachable_prune (dncp_time o) n) o)
  else Some o.

(** [vlist_add] of a node that is in the tree: it gets the current version. *)
Definition refresh_node (o : dncp) (n : node) : dncp := put_node (set_version (nodes_version o) n) o.

(** [_prune_rec] from the node [ni]; every call that goes on marks a node, so
    one more round than there are nodes is enough. *)
Fixpoint _prune_rec (fuel : nat) (o : dncp) (ni : node_id) : option dncp :=
  match fuel with
  | O => None
  | S fuel =>
    match find_node o ni with
    | None => Some o
    | Some n =>
      if decide (version n = nodes_version o) then Some o
      else if decide (expiration_time n <= dncp_time o) then Some o
      else
        let o := refresh_node o n in
        n ← find_node o ni;
        o ← _node_set_reachable o n true;
        n ← find_node o ni;
        '(o, peers) ← node_peers o n;
        foldl (fun (r : option dncp) ne =>
          o ← r;
          n ← find_node o ni;
          '(o, n2) ← dncp_node_find_neigh_bidir o n ne;
          match n2 with
          | None => Some o
          | Some n2 => _prune_rec fuel o (nid n2)
          end) (Some o) peers
    end
  end.

(** The loop of [dncp_prune] over the nodes that were not reached: they are kept
    for a while, and [next_time] says until when nothing changes. *)
Fixpoint prune_keep (o : dncp) (ids : list node_id) (grace_after next_time : Z) : option (dncp * Z) :=
  match ids with
  | [] => Some (o, next_time)
  | ni :: ids =>
    n ← find_node o ni;
    if decide (version n = nodes_version o) then
      prune_keep o ids grace_after (TMIN next_time (expiration_time n))
    else if decide (last_reachable_prune n < grace_after) then prune_keep o ids grace_after next_time
    else
      let next_time := TMIN next_time (last_reachable_prune n + grace_interval + 1) in
      let o := refresh_node o n in
      n ← find_node o ni;
      o ← _node_set_reachable o n false;
      prune_keep o ids grace_after next_time
  end.

(** [vlist_flush]: delete the nodes that do not have the current version. *)
Fixpoint flush_nodes (o : dncp) (ids : list node_id) : option dncp :=
  match ids with
  | [] => Some o
  | ni :: ids =>
    n ← find_node o ni;
    if decide (version n = nodes_version o) then flush_nodes o ids
    else o ← delete_node o n; flush_nodes o ids
  end.

Definition dncp_prune (o : dncp) : option dncp :=
  let n := dncp_time o in
  let grace_after := n - grace_interval in
  if decide (n = last_prune o) then None
  else
    let o := set_nodes_version (nodes_version o + 1) o in
    own ← own_node o;
    o ← _prune_rec (length (nodes o) + 1) o own;
    '(o, next_time) ← prune_keep o (nid <$> nodes o) grace_after 0;
    let o := set_next_prune next_time o in
    o ← flush_nodes o (nid <$> nodes o);
    Some (set_last_prune n o).

(** ** The timeout *)

(** [_neighbor_interval]: the keep-alive interval a peer announces for its
    endpoint; a TLV for all endpoints (id 0) does not end the search. *)
Fixpoint neighbor_interval_loop (ts : list attr) (peer_ep_id value : Z) : Z :=
  match ts with
  | [] => value
  | (_, d) :: ts =>
    if decide (length d ≠ 8%nat) then neighbor_interval_loop ts peer_ep_id value
    else
      let id := of_host32 (take 4 d) in
      if decide (id ≠ 0 /\ id ≠ peer_ep_id) then neighbor_interval_loop ts peer_ep_id value
      else
        let value := u32 (of_be32 (drop 4 d) * 1000 / 1000) in
        if decide (id ≠ 0) then value else neighbor_interval_loop ts peer_ep_id value
  end.

Definition _neighbor_interval (o : dncp) (ne : t_peer) : option (dncp * Z) :=
  match find_node o (pe_nid ne) with
  | None => Some (o, keepalive_interval per_ep)
  | Some n =>
    '(o, ts) ← node_tlvs_of_type o n DNCP_T_KEEPALIVE_INTERVAL;
    Some (o, neighbor_interval_loop ts (pe_peer_ep_id ne) (keepalive_interval per_ep))
  end.

(** The handling of one enabled endpoint in [dncp_ext_timeout]. *)
Definition timeout_ep (o : dncp) (id next : Z) : option (dncp * Z) :=
  l ← dncp_find_ep_by_id o id;
  let n := dncp_time o in
  if negb (enabled l) then Some (o, next)
  else
    '(o, next) ← (if decide (send_reply_at l ≠ 0) then
        if decide (send_reply_at l <= n) then
          o ← dncp_reply_send o l (ep_reply l);
          Some (put_ep (set_send_reply_at 0 l) o, next)
        else Some (o, TMIN next (send_reply_at l))
      else Some (o, next));
    l ← dncp_find_ep_by_id o id;
    let o := ep_i_set_keepalive_interval o l (keepalive_interval (conf l)) in
    l ← dncp_find_ep_by_id o id;
    if unicast_only (conf l) then Some (o, next)
    else
      '(o, next_time) ← handle_trickle_and_ka o (TrEp id) l None;
      Some (o, TMIN next next_time).

Fixpoint timeout_eps (o : dncp) (ids : list Z) (next : Z) : option (dncp * Z) :=
  match ids with
  | [] => Some (o, next)
  | id :: ids => '(o, next) ← timeout_ep o id next; timeout_eps o ids next
  end.

(** The handling of one local peer TLV. *)
Definition timeout_peer (o : dncp) (u : ltlv) (ne : t_peer) (next : Z) : option (dncp * Z) :=
  let n := dncp_time o in
  l ← dncp_find_ep_by_id o (pe_ep_id ne);
  x ← extra u;
  '(o, interval) ← _neighbor_interval o ne;
  '(o, next) ← (if unicast_only (conf l) then
      '(o, next_time) ← handle_trickle_and_ka o (TrPeer (tlv u)) l (Some (last_sa6 x));
      Some (o, TMIN next next_time)
    else Some (o, next));
  if bool_decide (interval = 0) && unicast_is_reliable_stream (conf l) then Some (o, next)
  else
    let next_time := last_contact x + interval * keepalive_multiplier_percent / 100 in
    if decide (n < next_time) then Some (o, TMIN next next_time)
    else
      let o := dncp_remove_tlv o (Some u) in
      Some (set_num_neighbor_dropped (num_neighbor_dropped o + 1) o, next).

(** The loop over the local TLVs, by their keys. *)
Fixpoint timeout_peers (o : dncp) (keys : list attr) (next : Z) : option (dncp * Z) :=
  match keys with
  | [] => Some (o, next)
  | k :: keys =>
    match find_tlv o k with
    | None => timeout_peers o keys next
    | Some u =>
      match dncp_tlv_peer k with
      | None => timeout_peers o keys next
      | Some ne => '(o, next) ← timeout_peer o u ne next; timeout_peers o keys next
      end
    end
  end.

(** When our own data has to be published again. *)
Definition roll_over (o : dncp) (next : Z) : option (dncp * Z) :=
  if tlvs_dirty o || republish_tlvs o then Some (o, next)
  else
    own ← own_node o;
    n ← find_node o own;
    let next_time := origination_time n + 2 ^ 32 - 2 ^ 16 in
    if decide (next_time <= now o) then Some (set_republish_tlvs true o, next)
    else Some (o, TMIN next next_time).

Definition maybe_prune (o : dncp) (next : Z) : option (dncp * Z) :=
  if disable_prune o then Some (o, next)
  else
    let o := if graph_dirty o then set_next_prune (minimum_prune_interval + last_prune o) o else o in
    o ← (if bool_decide (next_prune o ≠ 0) && bool_decide (next_prune o <= now o)
         then dncp_prune (set_graph_dirty false o) else Some o);
    Some (o, TMIN next (next_prune o)).

(** [SET_NEXT] is [TMIN] at the log levels of a release. *)
Definition dncp_ext_timeout (o : dncp) : option dncp :=
  let o := set_immediate_scheduled true (set_now (clock o) o) in
  '(o, next) ← roll_over o 0;
  o ← dncp_self_flush o;
  '(o, next) ← maybe_prune o next;
  let o := set_immediate_scheduled false o in
  o ← dncp_calculate_network_hash o;
  '(o, next) ← timeout_eps o (ep_id <$> eps o) next;
  '(o, next) ← timeout_peers o (tlv <$> tlvs o) next;
  let o := if bool_decide (next ≠ 0) && negb (immediate_scheduled o) then
             let delta := next - clock o in
             let delta := if decide (delta < 0) then 0 else if decide (2 ^ 16 < delta) then 2 ^ 16 else delta in
             emit (ScheduleTimeout delta) o
           else o in
  Some (set_now 0 o).

(** The loop of [dncp_ext_ep_ready] over the peers of an endpoint that goes. *)
Definition remove_peers_of (o : dncp) (id : Z) : dncp :=
  foldl (fun o u => match dncp_tlv_peer (tlv u) with
                    | Some ne => if decide (pe_ep_id ne = id) then dncp_remove_tlv o (Some u) else o
                    | None => o
                    end) o (tlvs o).

Definition dncp_ext_ep_ready (o : dncp) (id : Z) (on : bool) : option dncp :=
  l ← dncp_find_ep_by_id o id;
  if Bool.eqb (enabled l) on then Some o
  else
    let l := set_enabled on l in
    o ← (if on then
        o ← trickle_set_i (put_ep l o) (TrEp id) l (trickle_imin (conf l));
        o ← upd_trickle o (TrEp id) (set_last_sent (dncp_time o));
        Some (dncp_schedule o)
      else
        let o := remove_peers_of (put_ep l o) id in
        l ← dncp_find_ep_by_id o id;
        Some (ep_i_set_keepalive_interval o l (keepalive_interval per_ep)));
    Some (dncp_notify_subscribers_ep_changed id on o).

End timeout.
