(* ===== verification/DncpPrune.v ===== *)
(** Pruning: [dncp_prune] of [src/dncp_timeout.c] keeps exactly the nodes that
    bidirectional links of nodes that have not expired join to our own node, keeps
    the others for the grace interval, and what it tells the subscribers. *)
From S2P Require Import Prelude Bitops Tlv DncpNotify DncpIndex DncpState Dncp DncpFacts DncpProto DncpTimeout.

(** ** Nodes of a list *)

Definition get_node (ns : list node) (ni : node_id) : option node :=
  snd <$> list_find (fun n => nid n = ni) ns.

(** What [put_node] does to the list. *)
Definition put (n : node) (ns : list node) : list node :=
  (fun m => if decide (nid m = nid n) then n else m) <$> ns.

Lemma get_node_cons m ns ni : get_node (m :: ns) ni = if decide (nid m = ni) then Some m else get_node ns ni.
Proof.
  unfold get_node. cbn [list_find]. case_decide; [done|].
  by destruct (list_find (fun n => nid n = ni) ns) as [[]|].
Qed.

Lemma get_node_Some ns ni n : get_node ns ni = Some n -> n ∈ ns /\ nid n = ni.
Proof.
  induction ns as [|m ns IH]; [done|]. rewrite get_node_cons. case_decide.
  - intros [= ->]. split; [by left|done].
  - intros [? ?]%IH. split; [by right|done].
Qed.

Lemma get_node_elem ns n : NoDup (nid <$> ns) -> n ∈ ns -> get_node ns (nid n) = Some n.
Proof.
  induction ns as [|m ns IH]; [by intros _ ?%elem_of_nil|]. rewrite fmap_cons, get_node_cons.
  intros [Hm Hns]%NoDup_cons [->|Hn]%elem_of_cons; [by rewrite decide_True|].
  rewrite decide_False; [by apply IH|]. intros E. apply Hm. rewrite E. by apply list_elem_of_fmap_2.
Qed.

Lemma get_node_fmap f ns ni : (forall n, nid (f n) = nid n) -> get_node (f <$> ns) ni = f <$> get_node ns ni.
Proof.
  intros Hf. induction ns as [|m ns IH]; [done|]. rewrite fmap_cons, !get_node_cons, Hf.
  by case_decide.
Qed.

Lemma get_put n ns m : get_node ns (nid n) = Some m -> get_node (put n ns) (nid n) = Some n.
Proof.
  intros E. unfold put. rewrite get_node_fmap; [|intros x; by case_decide].
  rewrite E. cbn. apply get_node_Some in E as [_ E]. by rewrite decide_True.
Qed.

Lemma put_put n m ns : nid m = nid n -> put n (put m ns) = put n ns.
Proof.
  intros E. unfold put. rewrite <- list_fmap_compose. apply list_fmap_ext. intros i x _. cbn.
  rewrite E. repeat case_decide; congruence.
Qed.

Lemma nid_put n ns : nid <$> put n ns = nid <$> ns.
Proof.
  unfold put. rewrite <- list_fmap_compose. apply list_fmap_ext. intros i x _. cbn. by case_decide.
Qed.

Lemma elem_unique ns n m : NoDup (nid <$> ns) -> n ∈ ns -> m ∈ ns -> nid n = nid m -> n = m.
Proof.
  intros Hnd Hn Hm E. apply (get_node_elem _ _ Hnd) in Hn, Hm. rewrite E in Hn. congruence.
Qed.

(** ** Links *)

Section prune.
Context `{!DncpExt, !DncpCallbacks, !Passive}.

(** The peers a node announces are [ps], whatever the state of the index. *)
Definition announces (n : node) (ps : list t_peer) : Prop :=
  forall o, tlvs_wf o -> exists ix, node_peers o n = Some (set_tix ix o, ps) /\ tindex_wf ix.

Lemma sorted_announces n ts :
  default [] (tlv_container n) = enc ts -> by_type ts -> tlvs_ok ts ->
  announces n (omap dncp_tlv_peer (filter (fun t => t.1 = Z.of_nat DNCP_T_PEER) ts)).
Proof.
  intros Hc Hb Hok o [_ Hix]. unfold node_peers, node_tlvs_of_type. rewrite Hc.
  destruct (for_each_tlv_enc (tix o) (mk_tcache None true) ts (tlv_valid n) DNCP_T_PEER false)
    as (ix' & k' & -> & Hwf & _); [done..|]. cbn [mbind option_bind negb orb]. by exists ix'.
Qed.

Lemma announces_ext n m ps :
  tlv_container m = tlv_container n -> tlv_valid m = tlv_valid n -> announces n ps -> announces m ps.
Proof. unfold announces, node_peers, node_tlvs_of_type. by intros -> ->. Qed.

(** What [dncp_tlv_peer] entries join two nodes: each names the other, and the
    endpoints agree. *)
Definition matches (n : node) (ne ne2 : t_peer) : Prop :=
  pe_ep_id ne = pe_peer_ep_id ne2 /\ pe_peer_ep_id ne = pe_ep_id ne2 /\ pe_nid ne2 = nid n.

End prune.

(** ** The state while pruning *)

(** What neither callbacks nor the steps of pruning change. *)
Definition frame (o : dncp) : dncp :=
  set_nodes [] (set_network_hash_dirty false (set_graph_dirty false (erase o))).

Lemma frame_field {A} (f : dncp -> A) o o' :
  (forall o, f (frame o) = f o) -> frame o' = frame o -> f o' = f o.
Proof. intros Hf E. by rewrite <- (Hf o'), E, Hf. Qed.

Lemma frame_erase o o' : erase o' = erase o -> frame o' = frame o.
Proof. unfold frame. by intros ->. Qed.

Lemma frame_schedule o : frame (dncp_schedule o) = frame o.
Proof. apply frame_erase, erase_schedule. Qed.

(** The TLVs a subscriber sees go when data [a] gives way to [b], and come. *)
Definition gone (a b : option (list Z)) : list attr := default [] (tlvs_removed (blob <$> a) (blob <$> b)).
Definition come (a b : option (list Z)) : list attr := default [] (tlvs_added (blob <$> a) (blob <$> b)).

Lemma gone_None b : gone None b = [].
Proof. by destruct b. Qed.
Lemma come_None a : come a None = [].
Proof. by destruct a. Qed.

Section steps.
Context `{!DncpExt, !DncpCallbacks, !Passive}.
Context (o0 : dncp).

Definition tlv_subs : list nat := subs_of DNCP_CALLBACK_TLV o0.
Definition node_subs : list nat := subs_of DNCP_CALLBACK_NODE o0.

(** A state on the way: the nodes are [ns] and the events so far [es]. *)
Definition pruning (o : dncp) (ns : list node) (es : list event) : Prop :=
  frame o = frame o0 /\ nodes o = ns /\ vlog o = vlog o0 ++ es /\ tlvs_wf o.

Lemma pruning_subs cb o ns es : pruning o ns es -> subs_of cb o = subs_of cb o0.
Proof. intros (Hf & _). unfold subs_of. by rewrite (frame_field subscribers o0 o). Qed.

Lemma pruning_last_prune o ns es : pruning o ns es -> last_prune o = last_prune o0.
Proof. intros (Hf & _). by apply (frame_field last_prune). Qed.
Lemma pruning_version o ns es : pruning o ns es -> nodes_version o = nodes_version o0.
Proof. intros (Hf & _). by apply (frame_field nodes_version). Qed.
Lemma pruning_time o ns es : pruning o ns es -> dncp_time o = dncp_time o0.
Proof. intros (Hf & _). by apply (frame_field dncp_time). Qed.
Lemma pruning_find o ns es ni : pruning o ns es -> find_node o ni = get_node ns ni.
Proof. intros (_ & <- & _). done. Qed.

Lemma pruning_ext o o' ns es :
  frame o' = frame o -> nodes o' = nodes o -> log o' = log o -> tlvs o' = tlvs o -> tix o' = tix o ->
  pruning o ns es -> pruning o' ns es.
Proof.
  intros Hf Hn Hl Ht Hx (Hf' & Hn' & Hl' & Hw). split; [congruence|]. split; [congruence|].
  split; [unfold vlog in *; congruence|]. by eapply tlvs_wf_ext.
Qed.

Lemma pruning_schedule o ns es : pruning o ns es -> pruning (dncp_schedule o) ns es.
Proof.
  intros (Hf & Hn & Hl & Hw). split; [by rewrite frame_schedule|].
  split; [|split; [by rewrite vlog_schedule|by apply tlvs_wf_schedule]].
  by rewrite (erase_nodes o) by apply erase_schedule.
Qed.

Lemma pruning_tix ix o ns es : tindex_wf ix -> pruning o ns es -> pruning (set_tix ix o) ns es.
Proof. intros Hix (Hf & Hn & Hl & Hs & _). by do 4 (split; [done|]). Qed.

Lemma pruning_put n o ns es : pruning o ns es -> pruning (put_node n o) (put n ns) es.
Proof. intros (Hf & <- & Hl & Hw). by do 3 (split; [done|]). Qed.

Lemma pruning_tlvs ni a b o ns es : pruning o ns es ->
  exists o', dncp_notify_subscribers_tlvs_changed ni a b o = Some o' /\
    pruning o' ns (es ++ tlv_events ni (gone a b) false tlv_subs ++ tlv_events ni (come a b) true tlv_subs).
Proof.
  intros Hp. destruct (notify_tlvs_changed ni a b o) as (o' & r & d & E & Er & Ed & Hf' & Hl' & Hw').
  rewrite (pruning_subs _ _ _ _ Hp) in Hl'. destruct Hp as (Hf & Hn & Hl & Hw).
  exists o'. split; [done|]. unfold gone, come, tlv_subs. rewrite Er, Ed. cbn [default].
  split; [by rewrite (frame_erase o)|]. split; [by rewrite (erase_nodes o)|]. split; [|by apply Hw'].
  by rewrite Hl', Hl, <- app_assoc.
Qed.

Definition node_change (ni : node_id) (add : bool) : list event :=
  (fun s => NodeChange s ni add) <$> node_subs.

Lemma pruning_node ni add o ns es : pruning o ns es ->
  pruning (dncp_notify_subscribers_node_changed ni add o) ns (es ++ node_change ni add).
Proof.
  intros Hp. pose proof (pruning_subs DNCP_CALLBACK_NODE _ _ _ Hp) as Hs. destruct Hp as (Hf & Hn & Hl & Hw).
  unfold dncp_notify_subscribers_node_changed. split; [by rewrite (frame_erase o) by apply erase_notify_each|].
  split; [by rewrite (erase_nodes o) by apply erase_notify_each|]. split; [|by apply tlvs_wf_notify_each].
  rewrite vlog_notify_each, Hl, <- app_assoc, Hs. do 2 f_equal. unfold node_change.
  change (subs_of DNCP_CALLBACK_NODE o0) with node_subs. induction node_subs as [|s l IH]; [done|].
  cbn [flat_map]. by rewrite filter_app, IH.
Qed.

(** What the subscribers are told of a node that becomes reachable, of one that
    is no longer reachable. *)
Definition arrival (n : node) : list event :=
  if decide (last_reachable_prune n = last_prune o0) then []
  else node_change (nid n) true ++ tlv_events (nid n) (come None (tlv_container_valid n)) true tlv_subs.

Definition departure (n : node) : list event :=
  if decide (last_reachable_prune n = last_prune o0) then
    tlv_events (nid n) (gone (tlv_container_valid n) None) false tlv_subs ++ node_change (nid n) false
  else [].

Lemma tlv_events_nil ni add ss : tlv_events ni [] add ss = [].
Proof. unfold tlv_events. by induction ss. Qed.

Lemma pruning_reachable o ns es n : pruning o ns es ->
  reachable o n = bool_decide (last_reachable_prune n = last_prune o0).
Proof. intros Hp. unfold reachable. by rewrite (pruning_last_prune _ _ _ Hp). Qed.

Lemma node_set_reachable_true o ns es n : pruning o ns es -> get_node ns (nid n) = Some n ->
  exists o', _node_set_reachable o n true = Some o' /\
    pruning o' (put (set_last_reachable_prune (dncp_time o0) n) ns) (es ++ arrival n).
Proof.
  intros Hp Hn. unfold _node_set_reachable, arrival. rewrite (pruning_reachable _ _ _ _ Hp).
  case_decide as E; [rewrite (bool_decide_true (last_reachable_prune n = _)) by done|
                     rewrite (bool_decide_false (last_reachable_prune n = _)) by done].
  - rewrite bool_decide_false by auto. cbn [mbind option_bind].
    rewrite (pruning_find _ _ _ _ Hp), Hn. cbn [mbind option_bind]. eexists; split; [done|].
    rewrite (pruning_time _ _ _ Hp), app_nil_r. by apply pruning_put.
  - rewrite bool_decide_true by done. cbn [mbind option_bind].
    assert (Hp1 : pruning (set_network_hash_dirty true o) ns es) by (by eapply pruning_ext; [..|exact Hp]).
    apply (pruning_node (nid n) true) in Hp1.
    destruct (pruning_tlvs (nid n) None (tlv_container_valid n) _ _ _ Hp1) as (o' & -> & Hp').
    rewrite gone_None, tlv_events_nil in Hp'. cbn [app mbind option_bind] in *.
    rewrite (pruning_find _ _ _ _ Hp'), Hn. cbn [mbind option_bind]. eexists; split; [done|].
    rewrite (pruning_time _ _ _ Hp'), app_assoc. by apply pruning_put.
Qed.

Lemma node_set_reachable_false o ns es n : pruning o ns es ->
  exists o', _node_set_reachable o n false = Some o' /\ pruning o' ns (es ++ departure n).
Proof.
  intros Hp. unfold _node_set_reachable, departure. rewrite (pruning_reachable _ _ _ _ Hp).
  case_decide as E; [rewrite (bool_decide_true (last_reachable_prune n = _)) by done|
                     rewrite (bool_decide_false (last_reachable_prune n = _)) by done].
  - rewrite bool_decide_true by done. cbn [mbind option_bind].
    assert (Hp1 : pruning (set_network_hash_dirty true o) ns es) by (by eapply pruning_ext; [..|exact Hp]).
    destruct (pruning_tlvs (nid n) (tlv_container_valid n) None _ _ _ Hp1) as (o' & -> & Hp').
    rewrite come_None, tlv_events_nil, app_nil_r in Hp'. cbn [app mbind option_bind] in *.
    eexists; split; [done|]. rewrite app_assoc. by apply pruning_node.
  - rewrite bool_decide_false by auto. cbn [mbind option_bind]. exists o. by rewrite app_nil_r.
Qed.
End steps.

(** ** The flood fill *)

Lemma length_filter_mono {A} (P Q : A -> Prop) `{forall x, Decision (P x), forall x, Decision (Q x)} (l : list A) :
  (forall x, P x -> Q x) -> (length (filter P l) <= length (filter Q l))%nat.
Proof.
  intros HPQ. induction l as [|x l IH]; [done|]. rewrite !filter_cons.
  destruct (decide (P x)), (decide (Q x)); cbn [length]; try lia. exfalso. auto.
Qed.

Section flood.
Context `{!DncpExt, !DncpCallbacks, !Passive}.
Context (o0 : dncp) (pf : node -> list t_peer).

#[local] Notation ns0 := (nodes o0).

Hypothesis ids_NoDup : NoDup (nid <$> ns0).
Hypothesis old_version : forall n, n ∈ ns0 -> version n ≠ nodes_version o0.
Hypothesis pf_announces : forall n, n ∈ ns0 -> announces n (pf n).

(** A node that has been reached. *)
Definition marked (n : node) : node :=
  set_last_reachable_prune (dncp_time o0) (set_version (nodes_version o0) n).

Definition mark (R : list node_id) (n : node) : node := if decide (nid n ∈ R) then marked n else n.

Definition live (n : node) : Prop := dncp_time o0 < expiration_time n.

(** The node that the peer TLV [ne] of [n] leads to. *)
Definition via (n : node) (ne : t_peer) : option node :=
  m ← get_node ns0 (pe_nid ne);
  if existsb (fun ne2 => bool_decide (matches n ne ne2)) (pf m) then Some m else None.

(** A link that pruning follows. *)
Definition edge (x y : node_id) : Prop :=
  exists n m ne, get_node ns0 x = Some n /\ ne ∈ pf n /\ via n ne = Some m /\ nid m = y /\ live m.

Definition joined (x y : node_id) : Prop :=
  (exists n, get_node ns0 x = Some n /\ live n) /\ rtc edge x y.

Definition arrivals (R : list node_id) : list event :=
  flat_map (fun x => match get_node ns0 x with Some n => arrival o0 n | None => [] end) R.

Definition unvisited (R : list node_id) : nat := length (filter (fun n => nid n ∉ R) ns0).

Definition reached (o : dncp) (R : list node_id) : Prop := pruning o0 o ((mark R) <$> ns0) (arrivals R).

(** The nodes of [R'] were new after [R], and all their links lead to nodes
    that have been reached. *)
Definition explored (R R' : list node_id) : Prop :=
  NoDup R' /\ (forall x, x ∈ R' -> (x ∉ R) /\ x ∈ (nid <$> ns0)) /\
  (forall x y, x ∈ R' -> edge x y -> y ∈ R ++ R').

Lemma nid_mark R n : nid (mark R n) = nid n.
Proof. unfold mark. by case_decide. Qed.

Lemma reached_find o R ni : reached o R -> find_node o ni = mark R <$> get_node ns0 ni.
Proof. intros Hp. rewrite (pruning_find _ _ _ _ _ Hp). apply get_node_fmap, nid_mark. Qed.

Lemma reached_tix ix o R : tindex_wf ix -> reached o R -> reached (set_tix ix o) R.
Proof. intros Hix Hp. exact (pruning_tix o0 ix o _ _ Hix Hp). Qed.

Lemma mark_announces R n : n ∈ ns0 -> announces (mark R n) (pf n).
Proof.
  intros Hn. eapply announces_ext; [| |by apply pf_announces]; unfold mark; by case_decide.
Qed.

Lemma reached_version o R n : reached o R -> n ∈ ns0 -> version (mark R n) = nodes_version o <-> nid n ∈ R.
Proof.
  intros Hp Hn. rewrite (pruning_version _ _ _ _ Hp). unfold mark. case_decide; [done|].
  split; [|done]. by intros ?%old_version.
Qed.

Lemma explored_nil R : explored R [].
Proof. split; [constructor|]. by split; intros * ?%elem_of_nil. Qed.

Lemma explored_app R R1 R2 : explored R R1 -> explored (R ++ R1) R2 -> explored R (R1 ++ R2).
Proof.
  intros (Hd1 & Hn1 & Hc1) (Hd2 & Hn2 & Hc2). split; [|split].
  - apply NoDup_app. split; [done|]. split; [|done]. intros x Hx1 [Hx2 _]%Hn2. apply Hx2, elem_of_app. by right.
  - intros x [?%Hn1|[Hx ?]%Hn2]%elem_of_app; [done|]. by apply not_elem_of_app in Hx as [? _].
  - intros x y [Hx|Hx]%elem_of_app Hxy; rewrite app_assoc; [|by eapply Hc2].
    apply elem_of_app. left. by eapply Hc1.
Qed.

Lemma unvisited_mono R R' : (unvisited (R ++ R') <= unvisited R)%nat.
Proof. apply length_filter_mono. intros n. by rewrite not_elem_of_app; intros []. Qed.

Lemma unvisited_visit R n : n ∈ ns0 -> nid n ∉ R -> (unvisited (R ++ [nid n]) < unvisited R)%nat.
Proof.
  intros Hn Hnew. apply list_elem_of_split in Hn as (l1 & l2 & E). unfold unvisited. rewrite E.
  rewrite !filter_app, !length_app, !filter_cons.
  rewrite (decide_True (P := nid n ∉ R)) by done.
  rewrite (decide_False (P := nid n ∉ R ++ [nid n])) by (intros []; apply elem_of_app; right; by left).
  cbn [length].
  assert (forall l, length (filter (fun m => nid m ∉ R ++ [nid n]) l) <= length (filter (fun m => nid m ∉ R) l))%nat as Hm.
  { intros l. apply length_filter_mono. intros m. by rewrite not_elem_of_app; intros []. }
  pose proof (Hm l1). pose proof (Hm l2). lia.
Qed.

(** [dncp_node_find_neigh_bidir] finds the node a peer TLV leads to. *)
Lemma find_neigh_via o R n ne : reached o R -> n ∈ ns0 ->
  exists o', dncp_node_find_neigh_bidir o (mark R n) ne = Some (o', mark R <$> via n ne) /\ reached o' R.
Proof.
  intros Hp Hn. unfold dncp_node_find_neigh_bidir, via. rewrite (reached_find _ _ _ Hp).
  destruct (get_node ns0 (pe_nid ne)) as [m|] eqn:Em; cbn [fmap option_fmap option_map mbind option_bind]; [|by eauto].
  apply get_node_Some in Em as [Hm _]. destruct (mark_announces R m Hm o) as (ix & -> & Hix); [apply Hp|].
  cbn [mbind option_bind]. unfold matches. rewrite nid_mark. exists (set_tix ix o). split; [|exact (reached_tix ix o R Hix Hp)].
  by destruct (existsb _ _).
Qed.

(** Reaching a node: it gets the current version and time, and its arrival is
    told. *)
Lemma visit o R n : reached o R -> n ∈ ns0 -> nid n ∉ R ->
  exists o', _node_set_reachable (refresh_node o (mark R n)) (set_version (nodes_version o0) n) true = Some o' /\
    reached o' (R ++ [nid n]).
Proof.
  intros Hp Hn Hnew. assert (mark R n = n) as -> by (unfold mark; by rewrite decide_False).
  assert (Hget : get_node (mark R <$> ns0) (nid n) = Some n).
  { rewrite get_node_fmap by apply nid_mark. rewrite (get_node_elem _ _ ids_NoDup Hn). cbn.
    unfold mark. by rewrite decide_False. }
  unfold refresh_node. rewrite (pruning_version _ _ _ _ Hp).
  pose proof (pruning_put o0 (set_version (nodes_version o0) n) _ _ _ Hp) as Hp1.
  destruct (node_set_reachable_true o0 _ _ _ (set_version (nodes_version o0) n) Hp1) as (o' & E & Hp').
  { by eapply get_put. }
  exists o'. split; [exact E|]. rewrite put_put in Hp' by done.
  unfold reached, arrivals. rewrite flat_map_app. cbn [flat_map]. rewrite (get_node_elem _ _ ids_NoDup Hn), app_nil_r.
  eapply pruning_ext; [..|]; try done. replace (mark (R ++ [nid n]) <$> ns0)
    with (put (set_last_reachable_prune (dncp_time o0) (set_version (nodes_version o0) n)) (mark R <$> ns0)).
  { exact Hp'. }
  unfold put. rewrite <- list_fmap_compose. apply list_fmap_ext. intros i m Hm%list_elem_of_lookup_2. cbn.
  rewrite nid_mark. unfold mark. case_decide as E1.
  - rewrite (elem_unique _ m n ids_NoDup Hm Hn E1). rewrite decide_True; [done|]. apply elem_of_app. right. by left.
  - destruct (decide (nid m ∈ R)); [rewrite decide_True; [done|]; apply elem_of_app; by left|].
    rewrite decide_False; [done|]. rewrite elem_of_app, list_elem_of_singleton. tauto.
Qed.

Lemma via_elem n ne m : via n ne = Some m -> m ∈ ns0.
Proof.
  unfold via. intros E. destruct (get_node ns0 (pe_nid ne)) as [m0|] eqn:Em0; [|done]. cbn [mbind option_bind] in E.
  destruct (existsb _ _); [|done]. injection E as ->. by apply get_node_Some in Em0 as [? _].
Qed.

(** What one call of [_prune_rec] from [ni] does after [R] has been reached. *)
Definition explores (R : list node_id) (ni : node_id) (r : option dncp) : Prop :=
  exists R' o', r = Some o' /\ reached o' (R ++ R') /\ explored R R' /\
    (forall x, x ∈ R' -> joined ni x) /\
    (forall n, get_node ns0 ni = Some n -> live n -> ni ∈ R ++ R').

(** The loop over the peer TLVs [ps] of [n]. *)
Lemma flood_peers fuel n ps R o :
  (forall R o ni, reached o R -> (unvisited R < fuel)%nat -> explores R ni (_prune_rec fuel o ni)) ->
  n ∈ ns0 -> live n -> ps ⊆ pf n -> reached o R -> (unvisited R < fuel)%nat ->
  exists R' o', foldl (fun (r : option dncp) ne =>
      o ← r;
      n ← find_node o (nid n);
      '(o, n2) ← dncp_node_find_neigh_bidir o n ne;
      match n2 with
      | None => Some o
      | Some n2 => _prune_rec fuel o (nid n2)
      end) (Some o) ps = Some o' /\ reached o' (R ++ R') /\ explored R R' /\
    (forall x, x ∈ R' -> rtc edge (nid n) x) /\
    (forall ne m, ne ∈ ps -> via n ne = Some m -> live m -> nid m ∈ R ++ R').
Proof.
  intros IH Hn Hlive. revert R o. induction ps as [|ne ps IHps]; intros R o Hps Hp Hf.
  { exists [], o. rewrite app_nil_r. do 2 (split; [done|]). split; [apply explored_nil|].
    split; intros * ?%elem_of_nil; done. }
  assert (Hps' : ps ⊆ pf n) by (intros x Hx; apply Hps; by right).
  cbn [foldl mbind option_bind]. rewrite (reached_find _ _ _ Hp), (get_node_elem _ _ ids_NoDup Hn).
  cbn [fmap option_fmap option_map mbind option_bind].
  destruct (find_neigh_via o R n ne Hp Hn) as (o1 & -> & Hp1). cbn [mbind option_bind].
  destruct (via n ne) as [m|] eqn:Evia; cbn [fmap option_fmap option_map].
  2: { destruct (IHps R o1) as (R' & o' & E & Hr & Hx & Hj & Hc); [done..|].
       exists R', o'. do 4 (split; [done|]). intros ne' m [->|Hin]%elem_of_cons Em; [congruence|by apply (Hc ne')]. }
  rewrite nid_mark. destruct (IH R o1 (nid m) Hp1 Hf) as (R1 & o2 & -> & Hp2 & Hx1 & Hj1 & Hc1).
  destruct (IHps (R ++ R1) o2) as (R' & o' & E & Hr & Hx & Hj & Hc);
    [done|done|pose proof (unvisited_mono R R1); lia|].
  exists (R1 ++ R'), o'. split; [exact E|]. rewrite app_assoc. split; [done|]. split; [by apply explored_app|].
  split.
  - intros x [[(m' & Em & Hm) Hx']%Hj1|]%elem_of_app; [|by apply Hj].
    apply rtc_l with (nid m); [|done]. exists n, m, ne. rewrite (get_node_elem _ _ ids_NoDup Hn).
    split; [done|]. split; [apply Hps; by left|]. do 2 (split; [done|]).
    rewrite (get_node_elem _ _ ids_NoDup (via_elem _ _ _ Evia)) in Em. by injection Em as ->.
  - intros ne' m' [->|Hin]%elem_of_cons Em Hm; [|by apply (Hc ne')]. rewrite Evia in Em. injection Em as ->.
    apply elem_of_app. left. apply (Hc1 m'); [|done]. apply get_node_elem; [done|]. by eapply via_elem.
Qed.

(** [_prune_rec] reaches every node its links lead to, and no other. *)
Lemma prune_rec_explores fuel R o ni :
  reached o R -> (unvisited R < fuel)%nat -> explores R ni (_prune_rec fuel o ni).
Proof.
  revert R o ni. induction fuel as [|fuel IH]; intros R o ni Hp Hf; [lia|]. cbn [_prune_rec].
  rewrite (reached_find _ _ _ Hp). destruct (get_node ns0 ni) as [n|] eqn:En; cbn [fmap option_fmap option_map].
  2: { exists [], o. rewrite app_nil_r. do 2 (split; [done|]). split; [apply explored_nil|].
       split; [by intros * ?%elem_of_nil|]. congruence. }
  apply get_node_Some in En as Hn. destruct Hn as [Hn <-].
  assert (Hstop : (live n -> nid n ∈ R) -> explores R (nid n) (Some o)).
  { intros Hin. exists [], o. rewrite app_nil_r. do 2 (split; [done|]). split; [apply explored_nil|].
    split; [by intros * ?%elem_of_nil|]. intros n' En'. rewrite En in En'. by injection En' as ->. }
  case_decide as Ev.
  { apply Hstop. intros _. by apply (reached_version o R n). }
  assert (Hnew : nid n ∉ R) by (intros Hin; apply Ev; by apply (reached_version o R n)).
  rewrite (pruning_time _ _ _ _ Hp). case_decide as Ex.
  { apply Hstop. unfold live, mark in *. rewrite decide_False in Ex by done. lia. }
  assert (Hlive : live n) by (unfold live, mark in *; rewrite decide_False in Ex by done; lia).
  clear Ex Hstop.
  assert (Hfind : find_node (refresh_node o (mark R n)) (nid n) = Some (set_version (nodes_version o0) n)).
  { unfold refresh_node. rewrite (pruning_version _ _ _ _ Hp).
    assert (mark R n = n) as -> by (unfold mark; by rewrite decide_False).
    rewrite (pruning_find _ _ _ _ _ (pruning_put _ _ _ _ _ Hp)).
    apply (get_put (set_version (nodes_version o0) n) _ (mark R n)). cbn.
    rewrite get_node_fmap by apply nid_mark. by rewrite En. }
  rewrite Hfind. cbn [mbind option_bind].
  destruct (visit o R n Hp Hn Hnew) as (o1 & -> & Hp1). cbn [mbind option_bind].
  rewrite (reached_find _ _ _ Hp1), En. cbn [fmap option_fmap option_map mbind option_bind].
  destruct (mark_announces (R ++ [nid n]) n Hn o1) as (ix & -> & Hix); [apply Hp1|]. cbn [mbind option_bind].
  pose proof (unvisited_visit R n Hn Hnew).
  destruct (flood_peers fuel n (pf n) (R ++ [nid n]) (set_tix ix o1)) as (R' & o' & -> & Hr & (Hd & Hf' & Hc') & Hj & Hc);
    [exact IH|exact Hn|exact Hlive|done|exact (reached_tix ix o1 _ Hix Hp1)|lia|].
  exists (nid n :: R'), o'. split; [done|]. rewrite snoc_app. split; [done|].
  assert (Hself : nid n ∈ (R ++ [nid n]) ++ R') by (rewrite !elem_of_app; left; right; by left).
  split; [split; [|split]|split; [|by intros]].
  - constructor; [|done]. intros [Hx _]%Hf'. apply Hx, elem_of_app. right. by left.
  - intros x [->|[Hx ?]%Hf']%elem_of_cons; [by split; [|apply list_elem_of_fmap_2]|].
    by apply not_elem_of_app in Hx as [? _].
  - intros x y [->|Hx]%elem_of_cons Hxy; rewrite snoc_app; [|by apply (Hc' x)].
    destruct Hxy as (n' & m & ne & En' & Hne & Hvia & <- & Hm). rewrite En in En'. injection En' as <-.
    by apply (Hc ne).
  - intros x [->|Hx]%elem_of_cons; (split; [by exists n|]); [done|by apply Hj].
Qed.
End flood.

(** ** Keeping and flushing *)

Section keep.
Context `{!DncpExt, !DncpCallbacks, !Passive}.
Context (o0 : dncp).

#[local] Notation v := (nodes_version o0).

(** Since when an unreachable node has to have been reachable to be kept. *)
Definition grace_after : Z := dncp_time o0 - grace_interval.

(** An unreachable node that is kept gets the current version. *)
Definition spared (n : node) : Prop := version n ≠ v /\ grace_after <= last_reachable_prune n.

#[global] Instance spared_dec n : Decision (spared n).
Proof. unfold spared. apply _. Defined.

Definition spare (n : node) : node := if decide (spared n) then set_version v n else n.

Definition departures (ns : list node) : list event :=
  flat_map (fun n => if decide (spared n) then departure o0 n else []) ns.

(** When pruning has to happen again because of a node. *)
Definition prune_time (n : node) : Z :=
  if decide (version n = v) then expiration_time n
  else if decide (spared n) then last_reachable_prune n + grace_interval + 1 else 0.

Lemma nid_spare n : nid (spare n) = nid n.
Proof. unfold spare. by case_decide. Qed.

Lemma get_node_app pre n rest : NoDup (nid <$> pre ++ n :: rest) -> get_node (pre ++ n :: rest) (nid n) = Some n.
Proof. intros Hnd. apply get_node_elem; [done|]. apply elem_of_app. right. by left. Qed.

Lemma put_notin n (ns : list node) : nid n ∉ nid <$> ns -> put n ns = ns.
Proof.
  intros Hn. rewrite <- (list_fmap_id ns) at 2. apply list_fmap_ext. intros i x Hx%list_elem_of_lookup_2. cbn.
  case_decide as Ex; [|done]. destruct Hn. rewrite <- Ex. by apply list_elem_of_fmap_2.
Qed.

Lemma put_app pre n n' rest : NoDup (nid <$> pre ++ n :: rest) -> nid n' = nid n ->
  put n' (pre ++ n :: rest) = pre ++ n' :: rest.
Proof.
  intros Hnd E. rewrite fmap_app, fmap_cons in Hnd. apply NoDup_app in Hnd as (_ & Hpre & [Hrest _]%NoDup_cons).
  assert (put n' (pre ++ n :: rest) = put n' pre ++ (if decide (nid n = nid n') then n' else n) :: put n' rest) as ->
    by (unfold put; by rewrite fmap_app, fmap_cons).
  rewrite decide_True, !put_notin by (rewrite ?E; done || intros Hin; apply (Hpre _ Hin); by left). done.
Qed.

Lemma TMIN_0 x : TMIN x 0 = x.
Proof. unfold TMIN. repeat case_decide; lia. Qed.

Lemma prune_keep_spec rest pre o es next :
  pruning o0 o (pre ++ rest) es -> NoDup (nid <$> pre ++ rest) ->
  exists o', prune_keep o (nid <$> rest) grace_after next = Some (o', foldl TMIN next (prune_time <$> rest)) /\
    pruning o0 o' (pre ++ (spare <$> rest)) (es ++ departures rest).
Proof.
  revert pre o es next. induction rest as [|n rest IH]; intros pre o es next Hp Hnd.
  { exists o. split; [done|]. change (pruning o0 o (pre ++ []) (es ++ [])). by rewrite (app_nil_r es). }
  rewrite fmap_cons. cbn [prune_keep]. rewrite (pruning_find _ _ _ _ _ Hp), get_node_app by done.
  cbn [mbind option_bind]. rewrite (pruning_version _ _ _ _ Hp).
  assert (Hgo : forall o' n' es' next', pruning o0 o' (pre ++ n' :: rest) (es ++ es') -> nid n' = nid n ->
    spare n = n' -> (if decide (spared n) then departure o0 n else []) = es' -> TMIN next (prune_time n) = next' ->
    exists o'', prune_keep o' (nid <$> rest) grace_after next' =
        Some (o'', foldl TMIN next (prune_time <$> n :: rest)) /\
      pruning o0 o'' (pre ++ (spare <$> n :: rest)) (es ++ departures (n :: rest))).
  { intros o' n' es' next' Hp' En Esp Eev <-. destruct (IH (pre ++ [n']) o' (es ++ es') (TMIN next (prune_time n))) as (o'' & E & Hp'').
    - by rewrite <- app_assoc.
    - rewrite <- app_assoc. rewrite fmap_app in *. cbn [app] in *. by rewrite fmap_cons, En in *.
    - exists o''. split; [done|]. rewrite fmap_cons, Esp. rewrite <- !app_assoc in Hp''.
      unfold departures. cbn [flat_map]. rewrite Eev. exact Hp''. }
  destruct (decide (version n = v)) as [Ev|Ev].
  { assert (~ spared n) by (by intros [? _]).
    apply (Hgo o n []); unfold spare, prune_time; rewrite ?(decide_False (P := spared n)), ?decide_True by done; try done.
    by rewrite app_nil_r. }
  destruct (decide (last_reachable_prune n < grace_after)) as [Eg|Eg].
  { assert (~ spared n) by (intros [_ ?]; lia).
    apply (Hgo o n []); unfold spare, prune_time; rewrite ?(decide_False (P := spared n)), ?decide_False by done; try done.
    - by rewrite app_nil_r.
    - apply TMIN_0. }
  assert (Hs : spared n) by (unfold spared; split; [done|lia]).
  unfold refresh_node. rewrite (pruning_version _ _ _ _ Hp).
  apply (pruning_put _ (set_version v n)) in Hp. rewrite put_app in Hp by done.
  rewrite (pruning_find _ _ _ _ _ Hp). change (nid n) with (nid (set_version v n)) at 1.
  rewrite get_node_app by (rewrite fmap_app, fmap_cons in *; done). cbn [mbind option_bind].
  destruct (node_set_reachable_false _ _ _ _ (set_version v n) Hp) as (o1 & -> & Hp1). cbn [mbind option_bind].
  apply (Hgo o1 (set_version v n) (departure o0 n)); unfold spare, prune_time;
    rewrite ?(decide_True (P := spared n)), ?(decide_False (P := version n = v)) by done; done.
Qed.

(** What the subscribers are told of a node that is deleted. *)
Definition loss (n : node) : list event :=
  if decide (update_number n ≠ 0 /\ last_reachable_prune n = last_prune o0) then
    tlv_events (nid n) (gone (tlv_container_valid n) None) false (tlv_subs o0)
  else [].

Lemma filter_ids_notin n (ns : list node) : nid n ∉ nid <$> filter (fun m => nid m ≠ nid n) ns.
Proof. intros (m & E & [Hm _]%list_elem_of_filter)%list_elem_of_fmap. done. Qed.

Lemma delete_node_spec o ns es n : pruning o0 o ns es ->
  exists o', delete_node o n = Some o' /\
    pruning o0 o' (filter (fun m => nid m ≠ nid n) ns) (es ++ loss n).
Proof.
  intros Hp. unfold delete_node. pose proof Hp as (Hf & Hns & Hl & Hw). rewrite Hns.
  set (ns' := filter _ ns). assert (Hput : forall m, nid m = nid n -> put m ns' = ns').
  { intros m Em. apply put_notin. rewrite Em. apply filter_ids_notin. }
  assert (Hp1 : pruning o0 (set_nodes ns' o) ns' es) by (by do 3 (split; [done|])). clearbody ns'.
  assert (Hdone : forall o' es', pruning o0 o' ns' es' -> pruning o0 (nodes_changed o') ns' es').
  { intros o' es' Hp'. apply pruning_schedule. by eapply pruning_ext; [..|exact Hp']. }
  unfold dncp_node_set. rewrite andb_true_r. unfold loss. case_bool_decide as E0.
  { cbn [mbind option_bind]. eexists; split; [done|]. rewrite decide_False, app_nil_r by (by intros [? _]).
    by apply Hdone. }
  rewrite (decide_False (P := 0 ≠ 0)) by lia. cbn [reachable tlv_container set_update_number nid].
  apply (pruning_put _ (set_update_number 0 n)) in Hp1. rewrite Hput in Hp1 by done.
  case_decide as Ec.
  2: { cbn [mbind option_bind]. eexists; split; [done|].
       assert (gone (tlv_container_valid n) None = []) as ->.
       { unfold tlv_container_valid. cbn in Ec. destruct (tlv_container n); [done|].
         destruct (tlv_valid n); apply gone_None. }
       rewrite tlv_events_nil. replace (if decide _ then [] else []) with (@nil event) by (by case_decide).
       rewrite app_nil_r. by apply Hdone, pruning_schedule. }
  rewrite (pruning_reachable _ _ _ _ _ Hp1). cbn [last_reachable_prune set_update_number].
  assert (Hend : forall o' n' es', nid n' = nid n -> pruning o0 o' ns' es' ->
    pruning o0 (nodes_changed (dncp_schedule (set_network_hash_dirty true (set_graph_dirty true (put_node n' o'))))) ns' es').
  { intros o' n' es' En' Hp'. apply Hdone, pruning_schedule. apply (pruning_put _ n') in Hp'.
    rewrite Hput in Hp' by done. by eapply pruning_ext; [..|exact Hp']. }
  case_bool_decide as Er.
  - destruct (pruning_tlvs _ (nid n) (tlv_container_valid (set_update_number 0 n)) None _ _ _ Hp1)
      as (o' & -> & Hp').
    cbn [mbind option_bind]. eexists; split; [done|]. rewrite decide_True by done.
    rewrite come_None, tlv_events_nil, app_nil_r in Hp'. by apply Hend.
  - cbn [mbind option_bind]. eexists; split; [done|]. rewrite decide_False, app_nil_r by (by intros [_ ?]).
    by apply Hend.
Qed.

Definition losses (ns : list node) : list event :=
  flat_map (fun n => if decide (version n = v) then [] else loss n) ns.

Lemma filter_other n (l : list node) : nid n ∉ nid <$> l -> filter (fun m => nid m ≠ nid n) l = l.
Proof.
  intros Hl. apply filter_all. intros x Hx E. apply Hl. rewrite <- E. by apply list_elem_of_fmap_2.
Qed.

Lemma flush_nodes_spec rest pre o es :
  pruning o0 o (pre ++ rest) es -> NoDup (nid <$> pre ++ rest) ->
  exists o', flush_nodes o (nid <$> rest) = Some o' /\
    pruning o0 o' (pre ++ filter (fun n => version n = v) rest) (es ++ losses rest).
Proof.
  revert pre o es. induction rest as [|n rest IH]; intros pre o es Hp Hnd.
  { exists o. split; [done|]. change (pruning o0 o (pre ++ []) (es ++ [])). by rewrite (app_nil_r es). }
  rewrite fmap_cons. cbn [flush_nodes]. rewrite (pruning_find _ _ _ _ _ Hp), get_node_app by done.
  cbn [mbind option_bind]. rewrite (pruning_version _ _ _ _ Hp). rewrite filter_cons.
  unfold losses. cbn [flat_map]. fold (losses rest). case_decide as Ev.
  - destruct (IH (pre ++ [n]) o es) as (o' & E & Hp'); [by rewrite <- app_assoc..|].
    exists o'. split; [done|]. by rewrite <- app_assoc in Hp'.
  - destruct (delete_node_spec o _ es n Hp) as (o1 & -> & Hp1). cbn [mbind option_bind].
    rewrite fmap_app, fmap_cons in Hnd. apply NoDup_app in Hnd as (Hpre & Hdis & [Hn Hrest]%NoDup_cons).
    rewrite filter_app, filter_cons, decide_False, !filter_other in Hp1; [|done|..|by intros []].
    2: { intros Hin. apply (Hdis _ Hin). by left. }
    destruct (IH pre o1 (es ++ loss n) Hp1) as (o' & E & Hp').
    { rewrite fmap_app. apply NoDup_app. split; [done|]. split; [|done]. intros x Hx Hx'. apply (Hdis x Hx). by right. }
    exists o'. split; [done|]. by rewrite app_assoc.
Qed.
End keep.

(** ** Pruning *)

Lemma nid_fmap (f : node -> node) (ns : list node) : (forall n, nid (f n) = nid n) -> nid <$> (f <$> ns) = nid <$> ns.
Proof. intros Hf. rewrite <- list_fmap_compose. apply list_fmap_ext. intros i n _. apply Hf. Qed.

Section whole.
Context `{!DncpExt, !DncpCallbacks, !Passive}.

(** The states [dncp_prune] runs in: identifiers differ, no node is of a later
    generation than the tree, the data of nodes gives the peers [pf], and time has
    moved since the last pruning. *)
Record prunable (o : dncp) (pf : node -> list t_peer) : Prop := {
  pr_ids : NoDup (nid <$> nodes o);
  pr_version n : n ∈ nodes o -> version n <= nodes_version o;
  pr_peers n : n ∈ nodes o -> announces n (pf n);
  pr_reachable n : n ∈ nodes o -> last_reachable_prune n <= last_prune o;
  pr_time : last_prune o < dncp_time o;
  pr_tlvs : tlvs_wf o
}.

Context (o : dncp) (pf : node -> list t_peer).

(** The next generation. *)
#[local] Notation o1 := (set_nodes_version (nodes_version o + 1) o).

(** What is left of the nodes when [R] has been reached. *)
Definition kept (R : list node_id) (n : node) : Prop :=
  nid n ∈ R \/ dncp_time o - grace_interval <= last_reachable_prune n.

#[global] Instance kept_dec R n : Decision (kept R n).
Proof. unfold kept. apply _. Defined.

Definition refreshed (R : list node_id) (n : node) : node :=
  set_version (nodes_version o + 1)
    (if decide (nid n ∈ R) then set_last_reachable_prune (dncp_time o) n else n).

(** What the subscribers are told of a node that has not been reached. *)
Definition farewell (R : list node_id) (n : node) : list event :=
  if decide (nid n ∈ R) then []
  else if decide (dncp_time o - grace_interval <= last_reachable_prune n) then departure o n
  else [].
Definition dropped (R : list node_id) (n : node) : list event :=
  if decide (kept R n) then [] else loss o n.

Lemma flat_map_ext_in {A B} (f g : A -> list B) l :
  (forall x, x ∈ l -> f x = g x) -> flat_map f l = flat_map g l.
Proof.
  intros Hfg. induction l as [|x l IH]; [done|]. cbn [flat_map]. rewrite Hfg by left. f_equal.
  apply IH. intros; apply Hfg; by right.
Qed.

Lemma flat_map_fmap {A B C} (f : A -> B) (g : B -> list C) l : flat_map g (f <$> l) = flat_map (fun x => g (f x)) l.
Proof. induction l as [|x l IH]; [done|]. rewrite fmap_cons. cbn [flat_map]. by rewrite IH. Qed.

Lemma spare_mark R n : version n <= nodes_version o ->
  spare o1 (mark o1 R n) = if decide (kept R n) then refreshed R n else n.
Proof.
  intros Hv. unfold spare, mark, kept, refreshed, spared, grace_after.
  destruct (decide (nid n ∈ R)) as [Hin|Hin].
  - rewrite decide_False by (by intros []). by rewrite decide_True by by left.
  - destruct (decide (dncp_time o - grace_interval <= last_reachable_prune n)).
    + rewrite !decide_True; [done|by right|]. cbn. split; [lia|done].
    + rewrite !decide_False; [done|tauto|]. by intros [].
Qed.

Lemma spare_mark_version R n : version n <= nodes_version o ->
  version (spare o1 (mark o1 R n)) = nodes_version o + 1 <-> kept R n.
Proof.
  intros Hv. rewrite spare_mark by done. case_decide; [done|]. split; [lia|done].
Qed.

Lemma reached_end R : prunable o pf ->
  filter (fun n => version n = nodes_version o + 1) (spare o1 <$> (mark o1 R <$> nodes o)) =
    refreshed R <$> filter (kept R) (nodes o) /\
  departures o1 (mark o1 R <$> nodes o) = flat_map (farewell R) (nodes o) /\
  losses o1 (spare o1 <$> (mark o1 R <$> nodes o)) = flat_map (dropped R) (nodes o).
Proof.
  intros Hpr. pose proof (pr_version _ _ Hpr) as Hv. unfold departures, losses. rewrite !flat_map_fmap.
  split; [|split].
  - clear Hpr. induction (nodes o) as [|n l IH]; [done|]. rewrite !fmap_cons, !filter_cons.
    specialize (IH ltac:(intros; apply Hv; by right)). specialize (Hv n ltac:(by left)).
    rewrite (decide_ext _ (kept R n)) by by apply spare_mark_version.
    rewrite spare_mark by done. destruct (decide (kept R n)); [|done]. rewrite fmap_cons. by f_equal.
  - apply flat_map_ext_in. intros n Hn%Hv. unfold farewell, mark, spared, grace_after.
    destruct (decide (nid n ∈ R)) as [Hin|Hin]; [rewrite decide_False by (by intros []); done|].
    apply decide_ext. cbn. split; [by intros []|]. split; [lia|done].
  - apply flat_map_ext_in. intros n Hn%Hv. unfold dropped.
    rewrite (decide_ext _ (kept R n)) by by apply spare_mark_version.
    rewrite spare_mark by done. destruct (decide (kept R n)); done.
Qed.

(** The nodes reached are those joined to our own one. *)
Lemma explored_joined own R : prunable o pf -> explored o1 pf [] R ->
  (forall x, x ∈ R -> joined o1 pf own x) ->
  (forall n, get_node (nodes o) own = Some n -> live o1 n -> own ∈ R) ->
  forall x, x ∈ R <-> joined o pf own x.
Proof.
  intros Hpr (_ & _ & Hc) Hj Hown x. split; [apply Hj|]. intros [(n & En & Hl) Hx].
  specialize (Hown n En Hl). clear En Hl n Hj. induction Hx as [x|x y z Hxy _ IH]; [done|].
  apply IH. by apply (Hc x).
Qed.

Lemma dncp_prune_spec own : prunable o pf -> own_node o = Some own ->
  exists R o', dncp_prune o = Some o' /\
    NoDup R /\ (forall x, x ∈ R -> x ∈ nid <$> nodes o) /\
    (forall x, x ∈ R <-> joined o pf own x) /\
    nodes o' = refreshed R <$> filter (kept R) (nodes o) /\
    vlog o' = vlog o ++ arrivals o R ++ flat_map (farewell R) (nodes o) ++ flat_map (dropped R) (nodes o) /\
    next_prune o' = foldl TMIN 0 (prune_time o1 <$> (mark o1 R <$> nodes o)) /\
    last_prune o' = dncp_time o /\ tlvs_wf o' /\
    frame o' = frame (set_last_prune (dncp_time o) (set_next_prune (next_prune o') o1)).
Proof.
  intros Hpr Hown. unfold dncp_prune. rewrite decide_False by (pose proof (pr_time _ _ Hpr); lia).
  change (own_node o1) with (own_node o). rewrite Hown. cbn [mbind option_bind].
  destruct (prune_rec_explores o1 pf (pr_ids _ _ Hpr) ltac:(intros n Hn%(pr_version _ _ Hpr); cbn; lia) (pr_peers _ _ Hpr)
    (length (nodes o1) + 1) [] o1 own) as (R & o2 & -> & Hp & Hx & Hj & Hc).
  { split; [done|]. split; [|split; [by rewrite app_nil_r|apply Hpr]]. unfold mark.
    rewrite <- (list_fmap_id (nodes o1)) at 1. apply list_fmap_ext. intros i n _. by rewrite decide_False by apply not_elem_of_nil. }
  { unfold unvisited. pose proof (length_filter (fun n => nid n ∉ []) (nodes o1)). lia. }
  cbn [mbind option_bind app] in *. destruct (reached_end R Hpr) as (En & Ed & El).
  assert (Hids : NoDup (nid <$> (mark o1 R <$> nodes o))).
  { rewrite nid_fmap by apply nid_mark. apply Hpr. }
  destruct (prune_keep_spec o1 (mark o1 R <$> nodes o) [] o2 (arrivals o1 R) 0 Hp Hids) as (o3 & E3 & Hp3).
  change (grace_after o1) with (dncp_time o - grace_interval) in E3.
  replace (nodes o2) with (mark o1 R <$> nodes o) by (symmetry; apply Hp).
  rewrite E3. cbn [mbind option_bind app] in *. set (nt := foldl TMIN 0 _). clear E3.
  assert (Hp4 : pruning (set_next_prune nt o1) (set_next_prune nt o3) (spare o1 <$> (mark o1 R <$> nodes o))
    (arrivals o1 R ++ departures o1 (mark o1 R <$> nodes o))).
  { destruct Hp3 as (Hf & Hn & Hl & Hw). split; [|split; [done|split; [done|exact Hw]]].
    exact (f_equal (set_next_prune nt) Hf). }
  destruct (flush_nodes_spec (set_next_prune nt o1) (spare o1 <$> (mark o1 R <$> nodes o)) [] _ _ Hp4) as (o5 & E5 & Hp5).
  { cbn [app]. by rewrite nid_fmap by apply nid_spare. }
  replace (nodes (set_next_prune nt o3)) with (spare o1 <$> (mark o1 R <$> nodes o)) by (symmetry; apply Hp4).
  rewrite E5. cbn [mbind option_bind app] in *. clear E5. exists R, (set_last_prune (dncp_time o) o5).
  destruct Hp5 as (Hf & Hn & Hl & Hw). split; [done|]. split; [apply Hx|]. split; [intros x Hxx; by apply Hx|].
  split; [by apply explored_joined|]. split; [by etransitivity; [exact Hn|exact En]|].
  split; [|split; [by apply (frame_field next_prune) in Hf|split; [done|split; [exact Hw|]]]].
  - etransitivity; [exact Hl|]. rewrite Ed, <- app_assoc. do 3 f_equal. exact El.
  - replace (next_prune (set_last_prune (dncp_time o) o5)) with nt by (by apply (frame_field next_prune) in Hf).
    exact (f_equal (set_last_prune (dncp_time o)) Hf).
Qed.
End whole.

(** ** What pruning guarantees *)

Section theorems.
Context `{!DncpExt, !DncpCallbacks, !Passive}.

(** The peer TLVs among the TLVs of a node. *)
Definition peers_in (td : node -> list attr) (n : node) : list t_peer :=
  omap dncp_tlv_peer (filter (fun t => t.1 = Z.of_nat DNCP_T_PEER) (td n)).

(** A state in which pruning may run. *)
Record prune_ready (o : dncp) : Prop := {
  rd_ids : NoDup (nid <$> nodes o);
  rd_version n : n ∈ nodes o -> version n <= nodes_version o;
  rd_reachable n : n ∈ nodes o -> last_reachable_prune n <= last_prune o;
  rd_time : last_prune o < dncp_time o;
  rd_tlvs : tlvs_wf o
}.

(** The data of every node is that of the TLVs [td], in the order of their types.  The index
    of a node relies on that order, and misses TLVs without it; received data is not checked
    for it. *)
Definition data_ordered (o : dncp) (td : node -> list attr) : Prop :=
  forall n, n ∈ nodes o -> default [] (tlv_container n) = enc (td n) /\ by_type (td n) /\ tlvs_ok (td n).

Lemma prune_ready_prunable o td : prune_ready o -> data_ordered o td -> prunable o (peers_in td).
Proof.
  intros Hr Hd. split; try apply Hr. intros n (Hc & Hb & Hok)%Hd. by apply sorted_announces.
Qed.

Lemma refreshed_reachable o R n : last_reachable_prune n < dncp_time o ->
  last_reachable_prune (refreshed o R n) = dncp_time o <-> nid n ∈ R.
Proof. intros Hn. unfold refreshed. case_decide; cbn; [done|]. split; [lia|done]. Qed.

Lemma nid_refreshed o R n : nid (refreshed o R n) = nid n.
Proof. unfold refreshed. by case_decide. Qed.

(** C11: Pruning ends, and afterwards the reachable nodes are exactly those joined to the own
    node by a path of bidirectional links between nodes that have not expired; any other
    node stays in the tree exactly when it was reachable within the grace interval. The data
    of every node is assumed to be TLVs in the order of their types: the per-node index,
    through which pruning reads the peers, misses TLVs otherwise
    (DncpExample.unordered_data_hides_link), and received data is not checked for it. *)
Theorem prune_keeps_joined o own td : prune_ready o -> data_ordered o td -> own_node o = Some own ->
  exists o', dncp_prune o = Some o' /\
    (forall x, (exists n, find_node o' x = Some n /\ reachable o' n = true) <-> joined o (peers_in td) own x) /\
    (forall n, n ∈ nodes o ->
       is_Some (find_node o' (nid n)) <->
       joined o (peers_in td) own (nid n) \/ dncp_time o - grace_interval <= last_reachable_prune n).
Proof.
  intros Hr Hord Hown. pose proof (prune_ready_prunable _ _ Hr Hord) as Hpr.
  destruct (dncp_prune_spec o _ own Hpr Hown) as (R & o' & E & _ & Hin & HR & Hn & _ & _ & Hlp & _).
  assert (Hfind : forall x, find_node o' x = refreshed o R <$> get_node (filter (kept o R) (nodes o)) x).
  { intros x. change (find_node o' x) with (get_node (nodes o') x). rewrite Hn. apply get_node_fmap, nid_refreshed. }
  assert (Hnd : NoDup (nid <$> filter (kept o R) (nodes o))).
  { eapply sublist_NoDup; [apply Hr|]. apply fmap_sublist, sublist_filter. }
  assert (Hold : forall n, n ∈ nodes o -> last_reachable_prune n < dncp_time o).
  { intros n Hn'%(rd_reachable _ Hr). pose proof (rd_time _ Hr). lia. }
  exists o'. split; [done|]. split.
  - intros x. rewrite <- HR, Hfind. unfold reachable. rewrite Hlp. split.
    + intros (n & (m & Em & ->)%fmap_Some & Hre%bool_decide_eq_true).
      apply get_node_Some in Em as [[_ Hm]%list_elem_of_filter <-]. apply refreshed_reachable in Hre; auto.
    + intros Hx. pose proof (Hin x Hx) as (n & -> & Hn')%list_elem_of_fmap. exists (refreshed o R n).
      rewrite get_node_elem; [|done|apply list_elem_of_filter; split; [by left|done]]. split; [done|].
      apply bool_decide_eq_true, refreshed_reachable; auto.
  - intros n Hn'. rewrite <- HR, Hfind. fold (kept o R n). split.
    + intros [? (m & Em & _)%fmap_Some]. apply get_node_Some in Em as [[Hk Hm]%list_elem_of_filter E'].
      by rewrite <- (elem_unique _ _ _ (rd_ids _ Hr) Hm Hn' E').
    + intros Hk. rewrite get_node_elem; [by eexists|done|]. by apply list_elem_of_filter.
Qed.

Lemma elem_node_change o s x b ni b' :
  NodeChange s x b ∈ node_change o ni b' <-> s ∈ subs_of DNCP_CALLBACK_NODE o /\ x = ni /\ b = b'.
Proof.
  unfold node_change. rewrite list_elem_of_fmap. split.
  - intros (s' & [= -> -> ->] & Hs). done.
  - intros (Hs & -> & ->). by exists s.
Qed.

Lemma elem_flat_map {A B} (f : A -> list B) l y : y ∈ flat_map f l <-> exists x, x ∈ l /\ y ∈ f x.
Proof. rewrite list_elem_of_In, in_flat_map. by setoid_rewrite list_elem_of_In. Qed.

Lemma elem_tlv_events s x b ni ts add ss : NodeChange s x b ∉ tlv_events ni ts add ss.
Proof. unfold tlv_events. by intros (s' & _ & (t & E & _)%list_elem_of_fmap)%elem_flat_map. Qed.

(** The node changes among the events for a node. *)
Lemma elem_arrival o s x b n : NodeChange s x b ∈ arrival o n <->
  s ∈ subs_of DNCP_CALLBACK_NODE o /\ x = nid n /\ b = true /\ reachable o n = false.
Proof.
  unfold arrival, reachable. case_decide as E.
  - rewrite bool_decide_true by done. split; [by intros ?%elem_of_nil|by intros (_ & _ & _ & ?)].
  - rewrite bool_decide_false by done. rewrite elem_of_app, elem_node_change.
    pose proof (elem_tlv_events s x b). naive_solver.
Qed.

Lemma elem_departure o s x b n : NodeChange s x b ∈ departure o n <->
  s ∈ subs_of DNCP_CALLBACK_NODE o /\ x = nid n /\ b = false /\ reachable o n = true.
Proof.
  unfold departure, reachable. case_decide as E.
  - rewrite bool_decide_true by done. rewrite elem_of_app, elem_node_change.
    pose proof (elem_tlv_events s x b). naive_solver.
  - rewrite bool_decide_false by done. split; [by intros ?%elem_of_nil|by intros (_ & _ & _ & ?)].
Qed.

Lemma elem_loss o s x b n : NodeChange s x b ∉ loss o n.
Proof. unfold loss. case_decide; [apply elem_tlv_events|apply not_elem_of_nil]. Qed.


(** A reachable node that is no longer joined and whose last pruning is older than the grace
    interval is removed by pruning without any node notification. *)
Theorem prune_flush_silent o own td n : prune_ready o -> data_ordered o td -> own_node o = Some own ->
  n ∈ nodes o -> reachable o n = true -> ~ joined o (peers_in td) own (nid n) ->
  last_prune o < dncp_time o - grace_interval ->
  exists o' es, dncp_prune o = Some o' /\ find_node o' (nid n) = None /\ vlog o' = vlog o ++ es /\
    forall s add, NodeChange s (nid n) add ∉ es.
Proof.
  intros Hr Hord Hown Hn Hre Hx Hg. pose proof (prune_ready_prunable _ _ Hr Hord) as Hpr.
  destruct (dncp_prune_spec o _ own Hpr Hown) as (R & o' & E & _ & Hin & HR & Hns & Hl & _).
  unfold reachable in Hre. apply bool_decide_eq_true in Hre. rewrite <- HR in Hx.
  assert (Hk : ~ kept o R n) by (intros [?|?]; [done|lia]).
  do 2 eexists. split; [done|]. split; [|split; [done|]].
  - destruct (find_node o' (nid n)) as [m|] eqn:Em; [|done]. exfalso.
    apply (get_node_Some (nodes o')) in Em as [Hm Em].
    rewrite Hns in Hm. apply list_elem_of_fmap in Hm as (m' & -> & [Hk' Hm']%list_elem_of_filter).
    rewrite nid_refreshed in Em. by rewrite (elem_unique _ _ _ (rd_ids _ Hr) Hm' Hn Em) in Hk'.
  - intros s add. rewrite !elem_of_app. unfold arrivals. rewrite !elem_flat_map.
    intros [(y & Hy & Ha)|[(m & Hm & Hd)|(m & Hm & Hd)]].
    + destruct (get_node (nodes o) y) as [m|] eqn:En; [|by apply elem_of_nil in Ha].
      apply elem_arrival in Ha as (Hs & E1 & -> & Hre'). apply get_node_Some in En as [_ <-]. by rewrite E1 in Hx.
    + unfold farewell in Hd. destruct (decide (nid m ∈ R)); [by apply elem_of_nil in Hd|].
      case_decide as Eg; [|by apply elem_of_nil in Hd]. apply elem_departure in Hd as (Hs & E1 & -> & _).
      rewrite (elem_unique _ _ _ (rd_ids _ Hr) Hn Hm E1) in Hk. apply Hk. by right.
    + unfold dropped in Hd. case_decide; [by apply elem_of_nil in Hd|by apply elem_loss in Hd].
Qed.
End theorems.
