(* ===== verification/DncpInv.v ===== *)
(** The invariant of the protocol state: nodes are in order, our own node is
    among them and reachable, and hashes that are not marked dirty are up to date;
    and what flushing the local TLVs publishes. *)
From S2P Require Import Prelude Bitops Tlv DncpNotify DncpIndex DncpState Dncp DncpFacts DncpProto DncpTimeout DncpPrune.

(** ** The invariant *)

Definition node_lt (m n : node) : Prop := memcmp (nid m) (nid n) < 0.

Section inv.
Context `{!DncpExt, !DncpCallbacks}.

(** A data hash that is not dirty is that of the data. *)
Definition hash_ok (n : node) : Prop :=
  node_data_hash_dirty n = false -> node_data_hash n = ext_hash (default [] (tlv_container n)).

(** The tree of nodes; none was reachable after [b]. *)
Record tree_ok (ver b : Z) (ns : list node) : Prop := {
  tr_sorted : StronglySorted node_lt ns;
  tr_len n : n ∈ ns -> length (nid n) = node_id_length;
  tr_version n : n ∈ ns -> version n <= ver;
  tr_reachable n : n ∈ ns -> last_reachable_prune n <= b;
  tr_hash n : n ∈ ns -> hash_ok n;
  tr_update n : n ∈ ns -> 0 <= update_number n < 2 ^ 32
}.

Definition own_ok (o : dncp) : Prop :=
  exists n, own_node o = Some (nid n) /\ n ∈ nodes o /\ last_reachable_prune n = last_prune o.

(** The network hash, when not dirty, covers the reachable nodes.  When our data
    is to be published again, our update number is on the move. *)
Definition net_ok (o : dncp) : Prop :=
  network_hash_dirty o = false -> republish_tlvs o = false ->
  network_hash o = ext_hash (network_state (reachable_nodes o)) /\
  forall n, n ∈ reachable_nodes o -> node_data_hash_dirty n = false.

Definition time_ok (o : dncp) : Prop := (0 < clock o /\ last_prune o <= clock o) /\ (now o = 0 \/ now o = clock o).

Record inv (o : dncp) : Prop := {
  inv_tree : tree_ok (nodes_version o) (last_prune o) (nodes o);
  inv_own : own_ok o;
  inv_net : net_ok o;
  inv_tlvs : tlvs_wf o;
  inv_time : time_ok o
}.

Lemma time_ok_clock o : time_ok o -> dncp_time o = clock o.
Proof. intros [_ [E|E]]; unfold dncp_time; rewrite E; [done|]. by case_decide. Qed.

Lemma node_lt_NoDup ns : StronglySorted node_lt ns -> NoDup (nid <$> ns).
Proof.
  induction 1 as [|n ns _ IH Hn]; [constructor|]. rewrite fmap_cons. constructor; [|done].
  intros (m & E & Hm)%list_elem_of_fmap. rewrite Forall_forall in Hn. specialize (Hn m Hm).
  unfold node_lt in Hn. rewrite E, (proj2 (memcmp_0 _ _ eq_refl)) in Hn by done. lia.
Qed.

Lemma tree_NoDup ver b ns : tree_ok ver b ns -> NoDup (nid <$> ns).
Proof. intros Ht. apply node_lt_NoDup, Ht. Qed.

(** Mapping nodes without changing their identifiers keeps the order. *)
Lemma sorted_fmap_nid (f : node -> node) ns :
  (forall n, n ∈ ns -> nid (f n) = nid n) -> StronglySorted node_lt ns -> StronglySorted node_lt (f <$> ns).
Proof.
  induction ns as [|n ns IH]; intros Hf Hs; [constructor|]. apply StronglySorted_inv in Hs as [Hs Hn].
  rewrite fmap_cons. constructor; [apply IH; [|done]; intros; apply Hf; by right|].
  rewrite Forall_forall in *. intros m (x & -> & Hx)%list_elem_of_fmap. unfold node_lt.
  rewrite !Hf by (by left || by right). by apply Hn.
Qed.

Lemma tree_ok_fmap ver b ver' b' (f : node -> node) ns :
  tree_ok ver b ns ->
  (forall n, n ∈ ns -> nid (f n) = nid n /\ version (f n) <= ver' /\ last_reachable_prune (f n) <= b' /\
     hash_ok (f n) /\ 0 <= update_number (f n) < 2 ^ 32) ->
  tree_ok ver' b' (f <$> ns).
Proof.
  intros Ht Hf. split.
  - apply sorted_fmap_nid; [by intros n [? _]%Hf|apply Ht].
  - intros m (n & -> & Hn)%list_elem_of_fmap. destruct (Hf n Hn) as [-> _]. by apply Ht.
  - intros m (n & -> & Hn)%list_elem_of_fmap. apply (Hf n Hn).
  - intros m (n & -> & Hn)%list_elem_of_fmap. apply (Hf n Hn).
  - intros m (n & -> & Hn)%list_elem_of_fmap. apply (Hf n Hn).
  - intros m (n & -> & Hn)%list_elem_of_fmap. apply (Hf n Hn).
Qed.

Lemma tree_ok_put ver b ns n :
  tree_ok ver b ns -> version n <= ver -> last_reachable_prune n <= b -> hash_ok n ->
  0 <= update_number n < 2 ^ 32 -> tree_ok ver b (put n ns).
Proof.
  intros Ht Hv Hr Hh Hu. eapply tree_ok_fmap; [done|]. intros m Hm. case_decide as E; [by rewrite E|].
  split; [done|]. split; [by apply Ht|]. split; [by apply Ht|]. split; by apply Ht.
Qed.

Lemma tree_ok_filter ver b ns (P : node -> Prop) `{forall n, Decision (P n)} :
  tree_ok ver b ns -> tree_ok ver b (filter P ns).
Proof.
  intros Ht. split; try (intros n [_ Hn]%list_elem_of_filter; by apply Ht).
  pose proof (tr_sorted _ _ _ Ht) as Hs. clear Ht. induction Hs as [|n l Hs IH Hn]; [constructor|].
  rewrite filter_cons. case_decide; [|done]. constructor; [done|]. rewrite Forall_forall in *.
  intros m [_ Hm]%list_elem_of_filter. by apply Hn.
Qed.

Lemma tree_ok_mono ver b ver' b' ns : tree_ok ver b ns -> ver <= ver' -> b <= b' -> tree_ok ver' b' ns.
Proof.
  intros Ht Hv Hb. split; try apply Ht; intros n Hn.
  - pose proof (tr_version _ _ _ Ht n Hn). lia.
  - pose proof (tr_reachable _ _ _ Ht n Hn). lia.
Qed.
End inv.

(** ** Steps that leave the published state alone *)

(** The part of the state that only the operations on nodes change. *)
Definition base (o : dncp) : dncp :=
  set_eps [] (set_randoms 0%nat (set_next_prune 0 (set_first_free_ep_id 0 (set_subscribers []
    (set_num_neighbor_dropped 0 (set_collided false (frame o))))))).

(** Callbacks may have run, and nodes may have changed. *)
Definition quiet (o o' : dncp) : Prop :=
  base o' = base o /\ (tlvs_wf o -> tlvs_wf o') /\ (forall c, pub c o -> pub c o').

(** Nodes did not change either. *)
Definition calm (o o' : dncp) : Prop :=
  quiet o o' /\ nodes o' = nodes o /\ network_hash_dirty o' = network_hash_dirty o.

#[global] Instance quiet_preorder : PreOrder quiet.
Proof.
  split.
  - by intros o.
  - intros o1 o2 o3 (B1 & T1 & P1) (B2 & T2 & P2). split; [congruence|]. auto.
Qed.

#[global] Instance calm_preorder : PreOrder calm.
Proof.
  split.
  - by intros o.
  - intros o1 o2 o3 (Q1 & N1 & D1) (Q2 & N2 & D2). split; [by etrans|]. split; congruence.
Qed.

Lemma calm_quiet o o' : calm o o' -> quiet o o'.
Proof. by intros []. Qed.

Lemma calm_clock o o' : calm o o' -> clock o' = clock o.
Proof. intros ((Hb & _) & _). exact (f_equal clock Hb). Qed.

Lemma base_field {A} (f : dncp -> A) o o' :
  (forall o, f (base o) = f o) -> base o' = base o -> f o' = f o.
Proof. intros Hf E. by rewrite <- (Hf o'), E, Hf. Qed.

Lemma base_erase o o' : erase o' = erase o -> base o' = base o.
Proof. intros E. unfold base. by rewrite (frame_erase o o'). Qed.

(** A change of other fields. *)
Lemma quiet_fields o o' : base o' = base o -> tlv <$> tlvs o' = tlv <$> tlvs o -> tix o' = tix o ->
  tlvs_dirty o' = tlvs_dirty o -> quiet o o'.
Proof. intros Hb Ht Hx Hd. unfold quiet, tlvs_wf, pub, small. by rewrite Hb, Ht, Hx, Hd. Qed.

Lemma calm_fields o o' : base o' = base o -> tlv <$> tlvs o' = tlv <$> tlvs o -> tix o' = tix o ->
  tlvs_dirty o' = tlvs_dirty o -> nodes o' = nodes o -> network_hash_dirty o' = network_hash_dirty o -> calm o o'.
Proof. intros. split; [by apply quiet_fields|done]. Qed.

Create HintDb calm.
#[export] Hint Resolve calm_quiet : calm.

Section quiet.
Context `{!DncpExt, !DncpCallbacks}.

Lemma quiet_own o o' : quiet o o' -> own_node o' = own_node o.
Proof. intros [Hb _]. by apply (base_field own_node). Qed.
Lemma quiet_last_prune o o' : quiet o o' -> last_prune o' = last_prune o.
Proof. intros [Hb _]. by apply (base_field last_prune). Qed.
Lemma quiet_version o o' : quiet o o' -> nodes_version o' = nodes_version o.
Proof. intros [Hb _]. by apply (base_field nodes_version). Qed.
Lemma quiet_time o o' : quiet o o' -> dncp_time o' = dncp_time o.
Proof. intros [Hb _]. by apply (base_field dncp_time). Qed.
Lemma quiet_time_ok o o' : quiet o o' -> time_ok o -> time_ok o'.
Proof.
  intros [Hb _]. unfold time_ok.
  by rewrite (base_field last_prune o o'), (base_field clock o o'), (base_field now o o').
Qed.

Lemma calm_find o o' ni : calm o o' -> find_node o' ni = find_node o ni.
Proof. intros (_ & Hn & _). unfold find_node. by rewrite Hn. Qed.

Lemma calm_reachable_nodes o o' : calm o o' -> reachable_nodes o' = reachable_nodes o.
Proof.
  intros (Hq & Hn & _). unfold reachable_nodes, reachable. by rewrite Hn, (quiet_last_prune _ _ Hq).
Qed.

Lemma inv_calm o o' : calm o o' -> inv o -> inv o'.
Proof.
  intros Hc Hi. pose proof Hc as (Hq & Hn & Hd). split.
  - rewrite (quiet_version _ _ Hq), (quiet_last_prune _ _ Hq), Hn. apply Hi.
  - unfold own_ok. rewrite (quiet_own _ _ Hq), (quiet_last_prune _ _ Hq), Hn. apply Hi.
  - unfold net_ok. rewrite Hd, (calm_reachable_nodes _ _ Hc). destruct Hq as [Hb _].
    rewrite (base_field republish_tlvs o o'), (base_field network_hash o o') by done. apply Hi.
  - apply Hq, Hi.
  - eapply quiet_time_ok, Hi. done.
Qed.

Lemma calm_emit e o : calm o (emit e o).
Proof. by apply calm_fields. Qed.
Lemma calm_schedule o : calm o (dncp_schedule o).
Proof. unfold dncp_schedule. destruct (immediate_scheduled o); [done|]. by apply calm_fields. Qed.
Lemma calm_put_ep e o : calm o (put_ep e o).
Proof. by apply calm_fields. Qed.
Lemma calm_put_extra t x o : calm o (put_extra t x o).
Proof.
  apply calm_fields; try done. cbn. rewrite <- list_fmap_compose. apply list_fmap_ext. intros i u _. cbn. by case_decide.
Qed.
Lemma calm_tix ix o : tindex_wf ix -> calm o (set_tix ix o).
Proof. intros Hix. split; [|done]. split; [done|]. split; [by intros [? _]|done]. Qed.

Lemma calm_random_mod o m o' r : random_mod o m = Some (o', r) -> calm o o'.
Proof. unfold random_mod. case_decide; [done|]. intros [= <- <-]. by apply calm_fields. Qed.

Lemma calm_upd_trickle o r f o' : upd_trickle o r f = Some o' -> calm o o'.
Proof.
  unfold upd_trickle. destruct r; intros E; inv_opt; [apply calm_put_ep|apply calm_put_extra].
Qed.

Lemma calm_trickle_set_i o t e i o' : trickle_set_i o t e i = Some o' -> calm o o'.
Proof.
  unfold trickle_set_i. intros ((o1 & r) & E1 & E2)%bind_Some. apply calm_random_mod in E1.
  apply calm_upd_trickle in E2. by etrans.
Qed.

Lemma calm_reset_eps ids o o' : reset_eps o ids = Some o' -> calm o o'.
Proof.
  revert o. induction ids as [|id ids IH]; intros o; cbn [reset_eps]; [by intros [= <-]|].
  intros (e & _ & (o2 & E2 & E3)%bind_Some)%bind_Some. apply calm_trickle_set_i in E2. etrans; [done|]. by apply IH.
Qed.

Lemma calm_reset_peers ts o o' : reset_peers o ts = Some o' -> calm o o'.
Proof.
  revert o. induction ts as [|u ts IH]; intros o; cbn [reset_peers]; [by intros [= <-]|].
  destruct (dncp_tlv_peer (tlv u)); [|apply IH].
  intros (e & _ & (o2 & E2 & E3)%bind_Some)%bind_Some. apply calm_trickle_set_i in E2. etrans; [done|]. by apply IH.
Qed.

Lemma calm_trickle_reset o o' : dncp_trickle_reset o = Some o' -> calm o o'.
Proof.
  unfold dncp_trickle_reset. intros (o1 & E1 & E2)%bind_Some.
  etrans; [by eapply calm_reset_eps|by eapply calm_reset_peers].
Qed.

(** ** Resetting Trickle returns *)

(** No interval is cut to less than two milliseconds, and the local peer TLVs are those of
    endpoints, with a peer. *)
Definition trickle_fine (o : dncp) : Prop :=
  (forall e, e ∈ eps o -> Z.quot (Z.min (trickle_imin (conf e)) (trickle_imax (conf e))) 2 ≠ 0) /\
  forall u ne, u ∈ tlvs o -> dncp_tlv_peer (tlv u) = Some ne -> pe_ep_id ne ∈ ep_id <$> eps o /\ is_Some (extra u).

Definition peer_view (u : ltlv) : attr * bool := (tlv u, bool_decide (is_Some (extra u))).

(** Only the state of Trickle changes. *)
Definition only_trickle (o o' : dncp) : Prop :=
  (forall e', e' ∈ eps o' -> exists e, e ∈ eps o /\ conf e' = conf e) /\ ep_id <$> eps o' = ep_id <$> eps o /\ peer_view <$> tlvs o' = peer_view <$> tlvs o.

Lemma only_trickle_fine o o' : only_trickle o o' -> trickle_fine o -> trickle_fine o'.
Proof.
  intros (He & Hi & Hv) [H1 H2]. split; [intros e' (e & Hin & ->)%He; by apply H1|]. intros u ne Hu Hp. rewrite Hi.
  assert (Hin : peer_view u ∈ peer_view <$> tlvs o) by (rewrite <- Hv; apply list_elem_of_fmap; by exists u).
  apply list_elem_of_fmap in Hin as (w & Ew & Hw). injection Ew as E1 E2. rewrite E1 in Hp. destruct (H2 w ne Hw Hp) as [? Hx]. split; [done|].
  apply (proj1 (bool_decide_eq_true (is_Some (extra u)))). rewrite E2. by apply bool_decide_eq_true.
Qed.

Lemma find_ep_in o id : id ∈ ep_id <$> eps o -> exists e, dncp_find_ep_by_id o id = Some e /\ e ∈ eps o /\ ep_id e = id.
Proof.
  intros (e & -> & He)%list_elem_of_fmap. unfold dncp_find_ep_by_id. destruct (list_find (fun f => ep_id f = ep_id e) (eps o)) as [[i f]|] eqn:Ef.
  - apply list_find_Some in Ef as (Hl & Hid & _). exists f. split; [done|]. split; [by eapply list_elem_of_lookup_2|done].
  - apply list_find_None in Ef. rewrite Forall_forall in Ef. by destruct (Ef e He).
Qed.

Definition tref_ok (o : dncp) (r : tref) : Prop :=
  match r with TrEp id => id ∈ ep_id <$> eps o | TrPeer key => (exists u, u ∈ tlvs o /\ tlv u = key) /\ forall u, u ∈ tlvs o -> tlv u = key -> is_Some (extra u) end.

Lemma upd_trickle_total o r f : tref_ok o r -> exists o', upd_trickle o r f = Some o' /\ only_trickle o o'.
Proof.
  destruct r as [id|key]; cbn [tref_ok upd_trickle].
  - intros (e & -> & He & Hid)%find_ep_in. cbn [mbind option_bind]. eexists. split; [done|]. split; [|split; [|done]]; cbn.
    + intros e' (g & -> & Hg)%list_elem_of_fmap. case_decide; [by exists e|by exists g].
    + rewrite <- list_fmap_compose. apply list_fmap_ext. intros i g _. cbn. by case_decide.
  - intros [(u & Hu & <-) Hx]. unfold find_tlv. destruct (list_find (fun w => tlv w = tlv u) (tlvs o)) as [[i w]|] eqn:Ef.
    2:{ apply list_find_None in Ef. rewrite Forall_forall in Ef. by destruct (Ef u Hu). }
    apply list_find_Some in Ef as (Hl & Ew & _). cbn [fmap option_fmap option_map snd mbind option_bind].
    destruct (Hx w) as [x Ex]; [by eapply list_elem_of_lookup_2|done|]. rewrite Ex. cbn [mbind option_bind]. eexists. split; [done|]. split; [by intros e' ?; exists e'|]. split; [done|].
    cbn. rewrite <- list_fmap_compose. apply list_fmap_ext. intros j g Hg. cbn. case_decide as Eg; [|done]. unfold peer_view. cbn.
    destruct (Hx g) as [y Ey]; [by eapply list_elem_of_lookup_2|done|]. by rewrite Ey.
Qed.

Lemma trickle_reset_total_one o r e : trickle_fine o -> e ∈ eps o -> tref_ok o r ->
  exists o', trickle_set_i o r e (trickle_imin (conf e)) = Some o' /\ only_trickle o o'.
Proof.
  intros [H1 _] He Hr. unfold trickle_set_i, random_mod. cbv zeta. rewrite decide_False by lia. specialize (H1 e He).
  assert (Hm : (if decide (trickle_imax (conf e) < trickle_imin (conf e)) then trickle_imax (conf e) else trickle_imin (conf e)) = Z.min (trickle_imin (conf e)) (trickle_imax (conf e)))
    by (case_decide; lia). rewrite Hm, decide_False by done. cbn [mbind option_bind].
  by apply (upd_trickle_total (set_randoms (randoms o + 1)%nat o)).
Qed.

Lemma only_trickle_trans o1 o2 o3 : only_trickle o1 o2 -> only_trickle o2 o3 -> only_trickle o1 o3.
Proof.
  intros (A1 & A2 & A3) (B1 & B2 & B3). split; [|split; congruence]. intros e (e2 & He & ->)%B1. by apply A1.
Qed.

Lemma reset_eps_total ids o : trickle_fine o -> (forall id, id ∈ ids -> id ∈ ep_id <$> eps o) -> exists o', reset_eps o ids = Some o' /\ only_trickle o o'.
Proof.
  revert o; induction ids as [|id ids IH]; intros o Hf Hin; cbn [reset_eps]; [exists o; split; [done|]; split; [by intros e ?; exists e|done]|].
  pose proof (Hin id ltac:(by left)) as Hid. destruct (find_ep_in o id Hid) as (e & -> & He & _). cbn [mbind option_bind].
  destruct (trickle_reset_total_one o (TrEp id) e Hf He Hid) as (o1 & -> & Ho1). cbn [mbind option_bind].
  destruct (IH o1) as (o2 & -> & Ho2); [by eapply only_trickle_fine|intros i Hi; rewrite (proj1 (proj2 Ho1)); apply Hin; by right|].
  exists o2. split; [done|]. by eapply only_trickle_trans.
Qed.

Lemma reset_peers_total ts o : trickle_fine o -> (forall u, u ∈ ts -> peer_view u ∈ peer_view <$> tlvs o) -> is_Some (reset_peers o ts).
Proof.
  revert o; induction ts as [|u ts IH]; intros o Hf Hin; cbn [reset_peers]; [by eexists|].
  assert (Htl : forall w, w ∈ ts -> peer_view w ∈ peer_view <$> tlvs o) by (intros w Hw; apply Hin; by right).
  destruct (dncp_tlv_peer (tlv u)) as [ne|] eqn:Ep; [|by apply IH]. pose proof (Hin u ltac:(by left)) as (w & Ew & Hw)%list_elem_of_fmap. injection Ew as Ew _.
  pose proof Hf as [_ H2]. destruct (H2 w ne Hw) as [Hid _]; [by rewrite <- Ew|]. destruct (find_ep_in o _ Hid) as (e & -> & He & _). cbn [mbind option_bind].
  destruct (trickle_reset_total_one o (TrPeer (tlv u)) e Hf He) as (o1 & -> & Ho1).
  { split; [by exists w|]. intros z Hz Ez. apply (H2 z ne Hz). by rewrite Ez. }
  cbn [mbind option_bind]. apply IH; [by eapply only_trickle_fine|]. destruct Ho1 as (_ & _ & ->). exact Htl.
Qed.

Lemma calculate_network_hash_total o : trickle_fine o -> is_Some (dncp_calculate_network_hash o).
Proof.
  intros Hf. unfold dncp_calculate_network_hash. destruct (network_hash_dirty o); [|by eexists]. cbv zeta. case_decide; [|by eexists].
  set (o1 := set_network_hash _ _). assert (Hf1 : trickle_fine o1) by exact Hf. unfold dncp_trickle_reset.
  destruct (reset_eps_total (ep_id <$> eps o1) o1 Hf1) as (o2 & -> & Ho2); [done|]. cbn [mbind option_bind].
  destruct (reset_peers_total (tlvs o2) o2) as [o3 ->]; [by eapply only_trickle_fine|intros u Hu; apply list_elem_of_fmap; by exists u|]. by eexists.
Qed.

Section passive.
Context `{!Passive}.

Lemma calm_call e o : calm o (call e o).
Proof.
  unfold call. trans (emit e o); [apply calm_emit|]. generalize (emit e o). intros o1.
  pose proof (cb_erase e o1) as E. split; [|split; [by apply erase_nodes|by apply (erase_field network_hash_dirty)]].
  split; [by apply base_erase|]. split; [apply cb_tlvs|apply cb_pub].
Qed.

Lemma calm_call_all es o : calm o (call_all es o).
Proof.
  revert o. induction es as [|e es IH]; intros o; [done|]. etrans; [apply (calm_call e)|apply IH].
Qed.

Lemma calm_notify_each cb evs o : calm o (notify_each cb evs o).
Proof. rewrite notify_each_call_all. apply calm_call_all. Qed.

Lemma calm_tlvs_changed ni a b o o' : dncp_notify_subscribers_tlvs_changed ni a b o = Some o' -> calm o o'.
Proof.
  unfold dncp_notify_subscribers_tlvs_changed. intros (r & _ & (d & _ & [= <-])%bind_Some)%bind_Some.
  etrans; apply calm_notify_each.
Qed.
End passive.

Lemma quiet_put_node n o : quiet o (put_node n o).
Proof. by apply quiet_fields. Qed.
Lemma quiet_set_nodes ns o : quiet o (set_nodes ns o).
Proof. by apply quiet_fields. Qed.
Lemma quiet_graph_dirty b o : quiet o (set_graph_dirty b o).
Proof. by apply quiet_fields. Qed.
Lemma quiet_network_hash_dirty b o : quiet o (set_network_hash_dirty b o).
Proof. by apply quiet_fields. Qed.
Lemma calm_graph_dirty b o : calm o (set_graph_dirty b o).
Proof. by apply calm_fields. Qed.
End quiet.

#[export] Hint Resolve calm_emit calm_schedule calm_put_ep calm_put_extra calm_tix calm_random_mod
  calm_upd_trickle calm_trickle_set_i calm_trickle_reset calm_call calm_call_all calm_notify_each
  calm_tlvs_changed calm_graph_dirty quiet_put_node quiet_set_nodes quiet_graph_dirty
  quiet_network_hash_dirty : calm.

(** ** Operations on nodes *)

Section nodes.
Context `{!DncpExt, !DncpCallbacks, !Passive}.

(** [dncp_node_set] either finds nothing to change, or writes the node and marks
    the network hash dirty. *)
Lemma node_set_spec o n upd t a :
  exists o' n', dncp_node_set o n upd t a = Some (o', n') /\ quiet o o' /\
    nid n' = nid n /\ version n' = version n /\ last_reachable_prune n' = last_reachable_prune n /\
    update_number n' = upd /\ (hash_ok n -> hash_ok n') /\
    ((o' = o /\ n' = n /\ (a = None \/ tlv_container n = a)) \/
     (network_hash_dirty o' = true /\ nodes o' = put n' (nodes o) /\ tlv_container n' = a)) /\
    (upd ≠ update_number n -> t ≠ 0 -> expiration_time n' = t + (2 ^ 32 - 2 ^ 15)).
Proof.
  unfold dncp_node_set. set (same := match a with None => true | Some c => _ end).
  destruct (bool_decide (upd = update_number n) && same) eqn:Es.
  { exists o, n. split; [done|]. split; [done|]. do 3 (split; [done|]). apply andb_true_iff in Es as [Eu%bool_decide_eq_true Es].
    do 2 (split; [done|]). split; [|done]. left. do 2 (split; [done|]). subst same. destruct a as [c|]; [right|by left].
    by apply bool_decide_eq_true in Es. }
  clear Es same. cbv zeta. set (a_valid := match a with Some c => _ | None => false end).
  set (n1 := if decide (t ≠ 0) then _ else _).
  assert (Hn1 : nid n1 = nid n /\ version n1 = version n /\ last_reachable_prune n1 = last_reachable_prune n /\
    update_number n1 = upd /\ tlv_container n1 = tlv_container n /\ (hash_ok n -> hash_ok n1) /\
    (t ≠ 0 -> expiration_time n1 = t + (2 ^ 32 - 2 ^ 15)))
    by (subst n1; case_decide; done).
  clearbody n1 a_valid. destruct Hn1 as (E1 & E2 & E3 & E4 & E5 & E6 & E7).
  case_decide as Ec.
  - assert (exists o2, (if reachable (put_node n1 o) n1 then
        dncp_notify_subscribers_tlvs_changed (nid n1) (tlv_container_valid n1) (if a_valid then a else None) (put_node n1 o)
        else Some (put_node n1 o)) = Some o2 /\ calm (put_node n1 o) o2) as (o2 & -> & Hc).
    { destruct (reachable _ _); [|by eexists].
      destruct (notify_tlvs_changed (nid n1) (tlv_container_valid n1) (if a_valid then a else None) (put_node n1 o))
        as (o2 & _ & _ & E & _). exists o2. split; [done|]. by eapply calm_tlvs_changed. }
    cbn [mbind option_bind]. do 2 eexists. split; [done|].
    split; [|do 4 (split; [done|]); split; [by intros _ ?|split; [right; split; [|split; [|done]]|by intros _ ?%E7]]].
    + trans (put_node n1 o); [apply quiet_put_node|]. trans o2; [by apply calm_quiet|].
      etrans; [|apply calm_quiet, calm_schedule]. etrans; [|apply quiet_network_hash_dirty].
      etrans; [|apply quiet_graph_dirty]. apply quiet_put_node.
    + by rewrite (proj2 (proj2 (calm_schedule _))).
    + rewrite (proj1 (proj2 (calm_schedule _))).
      trans (put (set_node_data_hash_dirty true (set_tlv_valid a_valid (set_tlv_container a n1))) (nodes o2)); [done|].
      rewrite (proj1 (proj2 Hc)). by apply (put_put _ n1).
  - cbn [mbind option_bind]. do 2 eexists. split; [done|].
    split; [|do 4 (split; [done|]); split; [done|split; [right; split; [|split; [|done]]|by intros _ ?%E7]]].
    + etrans; [|apply calm_quiet, calm_schedule]. etrans; [|apply quiet_network_hash_dirty]. apply quiet_put_node.
    + by rewrite (proj2 (proj2 (calm_schedule _))).
    + by rewrite (proj1 (proj2 (calm_schedule _))).
Qed.

Lemma quiet_nodes_changed o : quiet o (nodes_changed o) /\ nodes (nodes_changed o) = nodes o /\
  network_hash_dirty (nodes_changed o) = true.
Proof.
  unfold nodes_changed. pose proof (calm_schedule (set_graph_dirty true (set_network_hash_dirty true o))) as (Hq & Hn & Hd).
  split; [|done]. etrans; [|exact Hq]. by apply quiet_fields.
Qed.

Lemma delete_node_quiet o n : exists o', delete_node o n = Some o' /\ quiet o o' /\
  nodes o' = filter (fun m => nid m ≠ nid n) (nodes o) /\ network_hash_dirty o' = true.
Proof.
  unfold delete_node. destruct (node_set_spec (set_nodes (filter (fun m => nid m ≠ nid n) (nodes o)) o) n 0 0 None)
    as (o1 & n1 & -> & Hq & En & _ & _ & _ & _ & Hcase & _). cbn [mbind option_bind].
  destruct (quiet_nodes_changed o1) as (Hq1 & Hn1 & Hd1). eexists; split; [done|].
  split; [|split; [|done]].
  - etrans; [|exact Hq1]. etrans; [|exact Hq]. apply quiet_set_nodes.
  - rewrite Hn1. destruct Hcase as [(-> & _)|(_ & -> & _)]; [done|]. cbn. apply put_notin. rewrite En. apply filter_ids_notin.
Qed.

Lemma insert_node_elem n ns m : m ∈ insert_node n ns <-> m = n \/ m ∈ ns.
Proof.
  induction ns as [|x ns IH]; cbn [insert_node]; [rewrite list_elem_of_singleton, elem_of_nil; tauto|].
  case_decide; rewrite !elem_of_cons, ?IH; tauto.
Qed.

Lemma node_lt_total m n : length (nid m) = length (nid n) -> nid m ≠ nid n -> ~ node_lt m n -> node_lt n m.
Proof.
  unfold node_lt. intros Hl Hne Hm. rewrite memcmp_antisym. 
  assert (memcmp (nid m) (nid n) ≠ 0) by (by rewrite memcmp_0). lia.
Qed.

Lemma node_lt_trans n x m : length (nid n) = length (nid x) -> length (nid x) = length (nid m) ->
  node_lt n x -> node_lt x m -> node_lt n m.
Proof.
  unfold node_lt. intros H1' H2' H3' H4'. destruct (memcmp_trans (nid n) (nid x) (nid m)) as [Hle Heq]; [done|done|lia|lia|].
  destruct (decide (memcmp (nid n) (nid m) = 0)) as [E0|]; [apply Heq in E0|]; lia.
Qed.

Lemma insert_node_ok ver b n ns : tree_ok ver b ns -> get_node ns (nid n) = None ->
  length (nid n) = node_id_length -> version n <= ver -> last_reachable_prune n <= b -> hash_ok n ->
  0 <= update_number n < 2 ^ 32 -> tree_ok ver b (insert_node n ns).
Proof.
  intros Ht Hnew Hl Hv Hr Hh Hu. split; try (intros m [->|Hm]%insert_node_elem; [done|by apply Ht]).
  pose proof (tr_sorted _ _ _ Ht) as Hs. pose proof (tr_len _ _ _ Ht) as Hlen. clear Ht.
  induction Hs as [|x ns Hs IH Hx]; [repeat constructor|]. rewrite get_node_cons in Hnew. cbn [insert_node].
  destruct (decide (nid x = nid n)) as [|Hne]; [done|]. case_decide as E.
  - constructor; [by constructor|]. constructor; [done|]. rewrite Forall_forall in *. intros m Hm.
    specialize (Hx m Hm). apply (node_lt_trans n x m); [| |done|done].
    + rewrite Hl. symmetry. apply Hlen. by left.
    + rewrite !Hlen; [done|by right|by left].
  - constructor; [apply IH; [done|intros; apply Hlen; by right]|]. rewrite Forall_forall in *.
    intros m [->|Hm]%insert_node_elem; [|by apply Hx]. apply node_lt_total; [|done|done].
    rewrite Hl. symmetry. apply Hlen. by left.
Qed.
End nodes.

(** ** The invariant and the nodes *)

Section keeps.
Context `{!DncpExt, !DncpCallbacks, !Passive}.

Lemma inv_NoDup o : inv o -> NoDup (nid <$> nodes o).
Proof. intros Hi. eapply tree_NoDup, Hi. Qed.

(** After a change of nodes that marks the network hash dirty. *)
Lemma inv_dirty o o' : inv o -> quiet o o' -> network_hash_dirty o' = true ->
  tree_ok (nodes_version o) (last_prune o) (nodes o') -> own_ok o' -> inv o'.
Proof.
  intros Hi Hq Hd Ht Ho. split; try done.
  - by rewrite (quiet_version _ _ Hq), (quiet_last_prune _ _ Hq).
  - unfold net_ok. by rewrite Hd.
  - apply Hq, Hi.
  - eapply quiet_time_ok, Hi. done.
Qed.

Lemma get_insert n ns ni : get_node ns (nid n) = None ->
  get_node (insert_node n ns) ni = if decide (ni = nid n) then Some n else get_node ns ni.
Proof.
  induction ns as [|m ns IH]; cbn [insert_node]; intros Hnew.
  { rewrite get_node_cons. by repeat case_decide. }
  rewrite get_node_cons in Hnew. destruct (decide (nid m = nid n)); [done|].
  specialize (IH Hnew). destruct (decide (memcmp (nid n) (nid m) < 0)); rewrite !get_node_cons, ?IH;
    repeat case_decide; congruence.
Qed.

Lemma inv_create o ni o' n : inv o -> length ni = node_id_length ->
  dncp_find_node_by_node_id o ni true = (o', n) ->
  exists n', n = Some n' /\ inv o' /\ find_node o' ni = Some n' /\ nid n' = ni /\ quiet o o'.
Proof.
  intros Hi Hl. unfold dncp_find_node_by_node_id. destruct (find_node o ni) as [m|] eqn:Em.
  { intros [= <- <-]. exists m. do 2 (split; [done|]). split; [done|].
    apply (get_node_Some (nodes o)) in Em as [_ Em]. done. }
  intros [= <- <-]. exists (new_node o ni). split; [done|].
  destruct (quiet_nodes_changed (set_nodes (insert_node (new_node o ni) (nodes o)) o)) as (Hq & Hn & Hd).
  cbn [nodes set_nodes] in Hn.
  assert (Hget : forall x, get_node (insert_node (new_node o ni) (nodes o)) x =
    if decide (x = ni) then Some (new_node o ni) else get_node (nodes o) x) by (intros; by apply get_insert).
  assert (Hq' : quiet o (nodes_changed (set_nodes (insert_node (new_node o ni) (nodes o)) o))).
  { etrans; [|exact Hq]. apply quiet_set_nodes. }
  split; [|split; [|done]].
  - apply (inv_dirty o); [done|done|done| |].
    + rewrite Hn. apply insert_node_ok; [apply Hi|done|done|done|cbn; lia|done|cbn; lia].
    + destruct (inv_own _ Hi) as (m & Ho & Hin & Hl'). exists m. rewrite (quiet_own _ _ Hq'), (quiet_last_prune _ _ Hq'), Hn.
      split; [done|]. split; [|done]. apply insert_node_elem. by right.
  - unfold find_node. rewrite Hn. change (get_node (insert_node (new_node o ni) (nodes o)) ni = Some (new_node o ni)).
    rewrite Hget. by rewrite decide_True.
Qed.

Lemma own_ok_put o o' n m : own_ok o -> own_node o' = own_node o -> last_prune o' = last_prune o ->
  nodes o' = put n (nodes o) -> NoDup (nid <$> nodes o) -> m ∈ nodes o -> nid n = nid m ->
  last_reachable_prune n = last_reachable_prune m -> own_ok o'.
Proof.
  intros (x & Ho & Hin & Hl) Eo El En Hnd Hm Enm Elr. exists (if decide (nid x = nid n) then n else x). rewrite Eo, El, En.
  split; [by case_decide as E; rewrite ?Ho, ?E|]. split; [apply list_elem_of_fmap; by exists x|].
  case_decide as E; [|done]. rewrite Elr. rewrite <- (elem_unique _ _ _ Hnd Hin Hm); [done|congruence].
Qed.

Lemma get_put_ne n ns x : x ≠ nid n -> get_node (put n ns) x = get_node ns x.
Proof.
  intros Hx. induction ns as [|m ns IH]; [done|]. unfold put in *. rewrite fmap_cons, !get_node_cons, IH.
  repeat case_decide; congruence.
Qed.

(** Setting the data of another node. *)
Lemma inv_node_set o n upd t a o' n' : inv o -> 0 <= upd < 2 ^ 32 -> find_node o (nid n) = Some n -> own_node o ≠ Some (nid n) ->
  dncp_node_set o n upd t a = Some (o', n') ->
  inv o' /\ find_node o' (nid n) = Some n' /\ quiet o o' /\ nid n' = nid n /\ update_number n' = upd /\
  (n' = n /\ o' = o \/ network_hash_dirty o' = true) /\ (a ≠ None -> tlv_container n' = a).
Proof.
  intros Hi Hu Hf Hown E. destruct (node_set_spec o n upd t a) as (o1 & n1 & E1 & Hq & En & Ev & Er & Eu & Hh & Hcase & _).
  rewrite E in E1. injection E1 as <- <-. pose proof (get_node_Some _ _ _ Hf) as [Hin _].
  destruct Hcase as [(-> & -> & Ha)|(Hd & Hns & Ha)].
  { do 5 (split; [done|]). split; [by left|]. intros. by destruct Ha. }
  split; [|split; [|do 3 (split; [done|]); split; [by right|done]]].
  - apply (inv_dirty o); [done|done|done| |].
    + rewrite Hns. apply tree_ok_put; [apply Hi|..].
      * rewrite Ev. by eapply tr_version, Hin; apply Hi.
      * rewrite Er. by eapply tr_reachable, Hin; apply Hi.
      * apply Hh. by eapply tr_hash, Hin; apply Hi.
      * by rewrite Eu.
    + eapply (own_ok_put o o' n' n); [apply Hi|by apply quiet_own|by apply quiet_last_prune|done|by apply inv_NoDup|done..].
  - unfold find_node. rewrite Hns. rewrite <- En. eapply get_put. rewrite En. exact Hf.
Qed.

Lemma filter_put (P : node -> Prop) `{forall n, Decision (P n)} n ns :
  (forall m, m ∈ ns -> nid m = nid n -> ~ P m) -> ~ P n -> filter P (put n ns) = filter P ns.
Proof.
  intros Hm Hn. unfold put. induction ns as [|x ns IH]; [done|]. rewrite fmap_cons, !filter_cons.
  rewrite IH by (intros; apply Hm; [by right|done]). destruct (decide (nid x = nid n)) as [E|E]; [|done].
  rewrite (decide_False (P := P n)) by done. rewrite decide_False; [done|]. apply Hm; [by left|done].
Qed.

Lemma put_same n ns : NoDup (nid <$> ns) -> n ∈ ns -> put n ns = ns.
Proof.
  intros Hnd Hn. rewrite <- (list_fmap_id ns) at 2. apply list_fmap_ext. intros i x Hx%list_elem_of_lookup_2. cbn.
  case_decide as E; [|done]. symmetry. by apply (elem_unique ns).
Qed.

(** The reachable nodes when a node is written that is not reachable. *)
Lemma reachable_nodes_put o n n' : inv o -> find_node o (nid n) = Some n -> nid n' = nid n ->
  reachable o n = false -> last_reachable_prune n' = last_reachable_prune n ->
  reachable_nodes (put_node n' o) = reachable_nodes o.
Proof.
  intros Hi Hf En Hr El. pose proof (get_node_Some _ _ _ Hf) as [Hin _].
  apply (filter_put (fun n => reachable o n = true)).
  - intros m Hm E. rewrite En in E. rewrite (elem_unique _ _ _ (inv_NoDup _ Hi) Hm Hin E). congruence.
  - unfold reachable in *. rewrite El. congruence.
Qed.

(** A data hash that was received with the data. *)
Lemma inv_put_hash o n h : inv o -> find_node o (nid n) = Some n ->
  h = ext_hash (default [] (tlv_container n)) ->
  inv (put_node (set_node_data_hash_dirty false (set_node_data_hash h n)) o).
Proof.
  intros Hi Hf ->. pose proof (get_node_Some _ _ _ Hf) as [Hin _].
  set (n' := set_node_data_hash_dirty _ _). assert (Hq : quiet o (put_node n' o)) by apply quiet_put_node. split.
  - apply tree_ok_put; [apply Hi|by eapply (tr_version _ _ _ (inv_tree _ Hi) n)|
      by eapply (tr_reachable _ _ _ (inv_tree _ Hi) n)|done|
      by eapply (tr_update _ _ _ (inv_tree _ Hi) n)].
  - by eapply (own_ok_put o _ n' n); [apply Hi|done|done|done|apply inv_NoDup|..].
  - intros Hd Hr. destruct (inv_net _ Hi Hd Hr) as [Hnet Hcl].
    assert (reachable_nodes (put_node n' o) = reachable_nodes o) as ->; [|done].
    destruct (reachable o n) eqn:Ere; [|by apply (reachable_nodes_put o n)].
    assert (n' = n) as ->.
    { specialize (Hcl n ltac:(by apply list_elem_of_filter)).
      pose proof (tr_hash _ _ _ (inv_tree _ Hi) n Hin Hcl) as Eh. unfold n'. destruct n; cbn in *. by subst. }
    change (filter (fun m => reachable o m = true) (put n (nodes o)) = reachable_nodes o).
    by rewrite put_same by (done || by apply inv_NoDup).
  - apply Hq, Hi.
  - eapply quiet_time_ok, Hi. done.
Qed.
End keeps.

(** ** Local TLVs *)

Section local.
Context `{!DncpExt, !DncpCallbacks, !Passive}.

Lemma insert_tlv_elem t l u : u ∈ insert_tlv t l <-> u = t \/ u ∈ l.
Proof.
  induction l as [|x l IH]; cbn [insert_tlv]; [rewrite list_elem_of_singleton, elem_of_nil; tauto|].
  case_decide; rewrite !elem_of_cons, ?IH; tauto.
Qed.

Lemma fmap_insert_tlv_elem t l a : a ∈ tlv <$> insert_tlv t l <-> a = tlv t \/ a ∈ tlv <$> l.
Proof.
  rewrite !list_elem_of_fmap. setoid_rewrite insert_tlv_elem. split.
  - intros (u & -> & [->|Hu]); [by left|right; by exists u].
  - intros [->|(u & -> & Hu)]; [by exists t; auto|by exists u; auto].
Qed.

Lemma insert_tlv_sorted t l : tlv_ok (tlv t) -> tlvs_sorted (tlv <$> l) -> tlv t ∉ tlv <$> l ->
  tlvs_sorted (tlv <$> insert_tlv t l).
Proof.
  intros Ht. induction l as [|x l IH]; intros Hs Hnew.
  { split; [by apply Forall_singleton|]. constructor; constructor. }
  rewrite fmap_cons in Hs, Hnew. apply not_elem_of_cons in Hnew as [Hne Hnew].
  pose proof Hs as Hsx. apply tlvs_sorted_cons in Hsx as (Hx & Hsl & Hlt). cbn [insert_tlv]. case_decide as E.
  - rewrite !fmap_cons. apply tlvs_sorted_cons. split; [done|]. split; [done|]. constructor; [done|].
    rewrite Forall_forall in *. intros u Hu. eapply tlv_lt_trans; [done|exact Hx| |exact E|by apply Hlt].
    destruct Hsl as [Hok _]. unfold tlvs_ok in Hok. rewrite Forall_forall in Hok. by apply Hok.
  - rewrite fmap_cons. apply tlvs_sorted_cons. split; [done|]. split; [by apply IH|]. rewrite Forall_forall in *.
    intros u [->|Hu]%fmap_insert_tlv_elem; [|by apply Hlt]. unfold tlv_lt, tlv_cmp in *.
    rewrite memcmp_antisym. assert (tlv_cmp (tlv t) (tlv x) ≠ 0) by (by rewrite tlv_cmp_0). unfold tlv_cmp in *. lia.
Qed.

Lemma tlvs_sorted_filter (P : ltlv -> Prop) `{forall u, Decision (P u)} l :
  tlvs_sorted (tlv <$> l) -> tlvs_sorted (tlv <$> filter P l).
Proof.
  induction l as [|x l IH]; [done|]. rewrite fmap_cons. intros (Hx & Hs & Hlt)%tlvs_sorted_cons.
  rewrite filter_cons. case_decide; [|by apply IH]. rewrite fmap_cons. apply tlvs_sorted_cons.
  split; [done|]. split; [by apply IH|]. rewrite Forall_forall in *.
  intros u (y & -> & [_ Hy]%list_elem_of_filter)%list_elem_of_fmap. by apply Hlt, list_elem_of_fmap_2.
Qed.

(** A change of the local TLVs that ends in [update_tlv]. *)
Lemma calm_tlvs o l o2 : (tlvs_sorted (tlv <$> tlvs o) -> tlvs_sorted (tlv <$> l)) ->
  calm (set_tlvs l o) o2 -> calm o (tlvs_changed o2).
Proof.
  intros Hl ((Hb & Ht & _) & Hn & Hd). unfold tlvs_changed.
  assert (Hc : calm (set_tlvs_dirty true o2) (dncp_schedule (set_tlvs_dirty true o2))) by apply calm_schedule.
  destruct Hc as ((Hb' & Ht' & Hp') & Hn' & Hd'). 
  split; [|split; [exact (eq_trans Hn' Hn)|exact (eq_trans Hd' Hd)]]. split; [exact (eq_trans Hb' Hb)|]. split; [|intros c _; apply Hp'; by intros].
  intros [Hs Hx]. apply Ht'. destruct Ht as [Hs2 Hx2]; [split; [by apply Hl|done]|]. by split.
Qed.

Lemma calm_add_tlv o type data x : tlv_ok (Z.of_nat type, data) -> calm o (dncp_add_tlv o type data x).
Proof.
  intros Hok. unfold dncp_add_tlv. eapply calm_tlvs.
  2: { etrans; [|apply calm_notify_each]. destruct (dncp_find_tlv _ _ _); [apply calm_notify_each|done]. }
  intros Hs. apply insert_tlv_sorted; [done|by apply tlvs_sorted_filter|].
  cbn [tlv]. intros (u & E & [Hu _]%list_elem_of_filter)%list_elem_of_fmap. by rewrite E in Hu.
Qed.

Lemma calm_remove_tlv o t : calm o (dncp_remove_tlv o t).
Proof.
  destruct t as [u|]; [|done]. cbn [dncp_remove_tlv]. eapply calm_tlvs; [|apply calm_notify_each].
  apply tlvs_sorted_filter.
Qed.

Lemma calm_remove_tlv_matching o type data : calm o (dncp_remove_tlv_matching o type data).
Proof. apply calm_remove_tlv. Qed.

Lemma calm_remove_tlvs_by_type o type : calm o (dncp_remove_tlvs_by_type o type).1.
Proof.
  unfold dncp_remove_tlvs_by_type.
  assert (H' : forall us o c, calm o (foldl (fun '(o, c) u => (dncp_remove_tlv o (Some u), (c + 1)%nat)) (o, c) us).1).
  { induction us as [|u us IH]; intros o' c; [done|]. cbn [foldl]. etrans; [apply calm_remove_tlv|apply IH]. }
  apply H'.
Qed.
End local.

#[export] Hint Resolve calm_add_tlv calm_remove_tlv calm_remove_tlv_matching calm_remove_tlvs_by_type : calm.

(** ** Hashes *)

Section hashes.
Context `{!DncpExt, !DncpCallbacks, !Passive}.

(** The state once the data hashes of reachable nodes are up to date. *)
Definition rehash (o : dncp) (n : node) : node := if reachable o n then dncp_calculate_node_data_hash n else n.

Lemma rehash_fields o n : nid (rehash o n) = nid n /\ version (rehash o n) = version n /\
  last_reachable_prune (rehash o n) = last_reachable_prune n /\ tlv_container (rehash o n) = tlv_container n /\
  update_number (rehash o n) = update_number n.
Proof. unfold rehash, dncp_calculate_node_data_hash. by destruct (reachable o n), (node_data_hash_dirty n). Qed.

Lemma rehash_ok o n : hash_ok n -> hash_ok (rehash o n) /\
  (reachable o n = true -> node_data_hash_dirty (rehash o n) = false).
Proof.
  unfold rehash, dncp_calculate_node_data_hash. destruct (reachable o n); [|done].
  destruct (node_data_hash_dirty n) eqn:E; by split.
Qed.

(** What [dncp_calculate_network_hash] does to a state whose hash is dirty. *)
Lemma calculate_network_hash_spec o o' : dncp_calculate_network_hash o = Some o' -> network_hash_dirty o = true ->
  nodes o' = rehash o <$> nodes o /\ network_hash_dirty o' = false /\ last_prune o' = last_prune o /\
  network_hash o' = ext_hash (network_state (reachable_nodes o')) /\
  calm (set_network_hash_dirty false (set_network_hash (network_hash o') (set_nodes (nodes o') o))) o'.
Proof.
  unfold dncp_calculate_network_hash. intros E Hd. rewrite Hd in E. cbv zeta in E.
  set (o1 := set_nodes _ o) in E. set (o2 := set_network_hash _ o1) in E.
  apply bind_Some in E as (o3 & E & [= <-]).
  assert (Hc : calm o2 o3) by (case_decide; [by apply calm_trickle_reset|injection E as <-; done]).
  pose proof Hc as ((Hb & Ht & Hp) & Hn & _).
  assert (Hh : network_hash o3 = network_hash o2) by (by apply (base_field network_hash)).
  assert (Hl : last_prune o3 = last_prune o) by (by apply (base_field last_prune o2 o3)).
  split; [exact Hn|]. split; [done|]. split; [exact Hl|]. split.
  - change (network_hash o3 = ext_hash (network_state (reachable_nodes o3))). rewrite (calm_reachable_nodes _ _ Hc). exact Hh.
  - cbn [nodes network_hash set_network_hash_dirty]. rewrite Hn, Hh. split; [|done]. split; [|split; [exact Ht|exact Hp]].
    exact Hb.
Qed.

Lemma inv_calculate_network_hash o o' : inv o -> dncp_calculate_network_hash o = Some o' ->
  inv o' /\ network_hash_dirty o' = false.
Proof.
  intros Hi E. destruct (network_hash_dirty o) eqn:Hd.
  2: { unfold dncp_calculate_network_hash in E. rewrite Hd in E. by injection E as <-. }
  destruct (calculate_network_hash_spec o o' E Hd) as (Hn & Hd' & Hl & Hh & ((Hb & Ht & Hp) & _)).
  assert (Hbf : forall A (f : dncp -> A), (forall o, f (base o) = f o) ->
    f o' = f (set_network_hash_dirty false (set_network_hash (network_hash o') (set_nodes (nodes o') o))))
    by (intros; by apply base_field).
  split; [|done]. split.
  - rewrite (Hbf _ nodes_version), Hl, Hn by done. eapply tree_ok_fmap; [apply Hi|]. intros n Hin.
    destruct (rehash_fields o n) as (-> & -> & -> & _ & ->). pose proof (inv_tree _ Hi) as Htr.
    split; [done|]. split; [by eapply tr_version|]. split; [by eapply tr_reachable|].
    split; [apply rehash_ok; by eapply tr_hash|by eapply tr_update].
  - destruct (inv_own _ Hi) as (n & Ho & Hin & Hln). exists (rehash o n). destruct (rehash_fields o n) as (-> & _ & -> & _).
    rewrite (Hbf _ own_node), Hl, Hn by done. split; [done|]. split; [by apply list_elem_of_fmap_2|done].
  - intros _ _. split; [done|]. unfold reachable_nodes, reachable. rewrite Hn, Hl.
    intros m [Hr%bool_decide_eq_true (n & -> & Hin)%list_elem_of_fmap]%list_elem_of_filter.
    destruct (rehash_fields o n) as (_ & _ & Er & _). rewrite Er in Hr. apply rehash_ok.
    + by eapply (tr_hash _ _ _ (inv_tree _ Hi)).
    + by apply bool_decide_eq_true.
  - apply Ht. apply Hi.
  - unfold time_ok. rewrite (Hbf _ now), (Hbf _ clock), Hl by done. apply Hi.
Qed.
End hashes.

(** ** Publishing *)

#[global] Instance small_dec o : Decision (small o).
Proof. unfold small. apply _. Defined.

Section publish.
Context `{!DncpExt, !DncpCallbacks, !Passive}.

Lemma put_all_raw_holds ts us tb id :
  holds tb [] id (enc us) -> tlvs_ok ts -> Z.of_nat (length (enc (us ++ ts))) < 65536 ->
  exists tb', put_all_raw tb ts = Some tb' /\ holds tb' [] id (enc (us ++ ts)).
Proof.
  revert us tb. induction ts as [|t ts IH]; intros us tb Hb Hok Hfit.
  { exists tb. by rewrite app_nil_r. }
  apply Forall_cons in Hok as [Ht Hok]. rewrite snoc_app in Hfit |- *.
  assert (Eput : enc us ++ padding (length (enc us)) ++ enc_attr t.1 t.2 = enc (us ++ [t])).
  { rewrite padding_aligned by apply enc_aligned. rewrite enc_app. f_equal. cbn. by rewrite app_nil_r. }
  destruct (tlv_put_raw_holds tb [] id (enc us) (enc_attr t.1 t.2) Hb) as (tb1 & E1 & Hb1).
  { rewrite length_enc_attr. lia. }
  { rewrite Eput. rewrite enc_app, length_app in Hfit. lia. }
  rewrite Eput in Hb1. cbn [put_all_raw]. rewrite E1. cbn [mbind option_bind app].
  assert (tlv_fill_pad (mem tb1) (length (enc_attr id (enc us))) = Some (mem tb1)) as ->.
  { destruct Hb1 as (_ & _ & _ & _ & rest & Em). rewrite Em. cbn [app].
    replace (enc_attr id (enc (us ++ [t])) ++ rest)
      with ((hdr id (length (enc (us ++ [t]))) ++ enc us) ++ enc_attr t.1 t.2 ++ rest).
    - replace (length (enc_attr id (enc us))) with (length (hdr id (length (enc (us ++ [t]))) ++ enc us)).
      + by apply tlv_fill_pad_padded.
      + rewrite length_app, length_hdr, length_enc_attr. pose proof (enc_aligned us). unfold padn. lia.
    - rewrite (enc_attr_app id (enc (us ++ [t]))), (padding_aligned (length (enc (us ++ [t])))) by apply enc_aligned.
      rewrite <- Eput, padding_aligned by apply enc_aligned. by rewrite <- !app_assoc. }
  cbn [mbind option_bind]. apply IH; [|done|done].
  by destruct Hb1 as (? & ? & ? & ? & ?).
Qed.

(** [_produce_new_tlvs] encodes the local TLVs. *)
Lemma produce_new_tlvs_dirty o n : tlvs_dirty o = true -> tlvs_wf o -> small o ->
  _produce_new_tlvs o n = Some (set_tlvs_dirty false o,
    if decide (tlv_container n = Some (enc (tlv <$> tlvs o))) then None else Some (enc (tlv <$> tlvs o))).
Proof.
  intros Hd [[Hok _] _] Hs. unfold _produce_new_tlvs. rewrite Hd.
  destruct (tlv_buf_init_holds (mk_tlv_buf 0 []) 0) as (b0 & -> & H0'); [done|done|]. cbn [mbind option_bind].
  destruct (put_all_raw_holds (tlv <$> tlvs o) [] b0 0) as (b1 & -> & Hb1); [done|done|done|]. cbn [mbind option_bind app] in *.
  destruct (holds_tlv_payload _ _ _ _ Hb1) as [Ep Ef]. rewrite Ef. cbn [mbind option_bind]. rewrite Ep. done.
Qed.

(** Whatever the local TLVs are, a call changes nothing but their flag. *)
Lemma produce_new_tlvs_state o n o1 a : _produce_new_tlvs o n = Some (o1, a) -> o1 = set_tlvs_dirty false o.
Proof.
  unfold _produce_new_tlvs. destruct (tlvs_dirty o) eqn:Hd.
  - intros (? & _ & (? & _ & (? & _ & (? & _ & [= <- _])%bind_Some)%bind_Some)%bind_Some)%bind_Some. done.
  - intros [= <- _]. by destruct o; cbn in *; subst.
Qed.

(** What there is to publish: the encoding of changed local TLVs, if it is new. *)
Definition fresh_tlvs (o : dncp) (n : node) : option (list Z) :=
  if decide (tlvs_dirty o = true /\ tlv_container n ≠ Some (enc (tlv <$> tlvs o))) then Some (enc (tlv <$> tlvs o)) else None.

Lemma produce_new_tlvs_news o n : tlvs_wf o -> small o -> _produce_new_tlvs o n = Some (set_tlvs_dirty false o, fresh_tlvs o n).
Proof.
  intros Hw Hs. unfold fresh_tlvs. destruct (tlvs_dirty o) eqn:Hd.
  - rewrite (produce_new_tlvs_dirty o n Hd Hw Hs). do 2 f_equal. repeat case_decide; naive_solver.
  - unfold _produce_new_tlvs. rewrite Hd, decide_False by naive_solver. by destruct o; cbn in *; subst.
Qed.

Lemma inv_tlvs_dirty b o : inv o -> inv (set_tlvs_dirty b o).
Proof. intros []. by split. Qed.

(** Writing our own node with the next update number. *)
Lemma inv_published o o4 n t a o5 n5 : inv o -> own_node o = Some (nid n) -> get_node (nodes o) (nid n) = Some n ->
  base o4 = base (set_republish_tlvs false o) -> tlvs_wf o4 -> nodes o4 = nodes o -> t ≠ 0 ->
  dncp_node_set o4 n (u32 (update_number n + 1)) t a = Some (o5, n5) ->
  inv o5 /\ find_node o5 (nid n) = Some n5 /\ tlv_container n5 = a /\ expiration_time n5 = t + (2 ^ 32 - 2 ^ 15) /\
  update_number n5 = u32 (update_number n + 1) /\ republish_tlvs o5 = false /\ own_node o5 = own_node o /\ quiet o4 o5.
Proof.
  intros Hi Ho Hf Hb Hw Hn Ht0 E. pose proof (inv_tree _ Hi) as Ht. pose proof (get_node_Some _ _ _ Hf) as [Hin _].
  pose proof (tr_update _ _ _ Ht n Hin) as Hu.
  destruct (node_set_spec o4 n (u32 (update_number n + 1)) t a) as (o1 & n1 & E1 & Hq & En & Ev & Er & Eu & Hh & Hcase & Hx).
  rewrite E in E1. injection E1 as <- <-. destruct Hcase as [(_ & -> & _)|(Hd & Hns & Ha)].
  { unfold u32 in Eu. lia. }
  assert (Hbf : forall A (f : dncp -> A), (forall o, f (base o) = f o) -> f o5 = f (set_republish_tlvs false o)).
  { intros A f Hfb. apply base_field; [done|]. destruct Hq as [Hq _]. congruence. }
  pose proof (Hbf _ own_node ltac:(done)) as Ho5. change (own_node (set_republish_tlvs false o)) with (own_node o) in Ho5.
  assert (Hf5 : find_node o5 (nid n) = Some n5).
  { change (get_node (nodes o5) (nid n) = Some n5). rewrite Hns, Hn, <- En. eapply get_put. rewrite En. exact Hf. }
  split; [|do 2 (split; [done|]); split; [apply Hx; [unfold u32 in *; lia|done]|split; [done|split; [exact (Hbf _ republish_tlvs ltac:(done))|done]]]].
  split.
  - rewrite (Hbf _ nodes_version), (Hbf _ last_prune), Hns, Hn by done. cbn. apply tree_ok_put; [done|..].
    + rewrite Ev. by eapply tr_version.
    + rewrite Er. by eapply tr_reachable.
    + apply Hh. by eapply tr_hash.
    + rewrite Eu. apply Z.mod_pos_bound. lia.
  - eapply (own_ok_put o o5 n5 n); [apply Hi|done|exact (Hbf _ last_prune ltac:(done))|by rewrite Hns, Hn|by apply inv_NoDup|done..].
  - intros ?. congruence.
  - by apply Hq.
  - unfold time_ok. rewrite (Hbf _ last_prune), (Hbf _ clock), (Hbf _ now) by done. apply Hi.
Qed.

Lemma inv_own_node o : inv o -> exists n, own_node o = Some (nid n) /\ find_node o (nid n) = Some n.
Proof.
  intros Hi. destruct (inv_own _ Hi) as (n & Ho & Hin & _). exists n. split; [done|].
  by apply (get_node_elem (nodes o)), Hin; apply inv_NoDup.
Qed.

(** The state once the subscribers were told, and what is then published. *)
Definition tlvs_told (o : dncp) : dncp := dncp_notify_subscribers_about_to_republish_tlvs (set_tlvs_dirty false o).
Definition flushed (n : node) (a a2 : option (list Z)) : option (list Z) :=
  match (match a2 with Some c => Some c | None => a end) with Some c => Some c | None => tlv_container n end.

(** The two ways through [dncp_self_flush]. *)
Lemma self_flush_cases o o' n : inv o -> own_node o = Some (nid n) -> find_node o (nid n) = Some n ->
  dncp_self_flush o = Some o' ->
  exists a, _produce_new_tlvs o n = Some (set_tlvs_dirty false o, a) /\
    ((a = None /\ republish_tlvs o = false /\ o' = set_tlvs_dirty false o) \/
     ((a ≠ None \/ republish_tlvs o = true) /\
      exists a2 o4 n', _produce_new_tlvs (set_republish_tlvs false (tlvs_told o)) n = Some (o4, a2) /\
        inv o' /\ find_node o' (nid n) = Some n' /\ tlv_container n' = flushed n a a2 /\
        clock o < expiration_time n' /\ update_number n' = u32 (update_number n + 1) /\
        republish_tlvs o' = false /\ own_node o' = own_node o /\ quiet o4 o')).
Proof.
  intros Hi Ho Hf. pose proof (proj1 (proj1 (inv_time _ Hi))) as Hc. unfold dncp_self_flush. rewrite Ho. cbn [mbind option_bind]. rewrite Hf. cbn [mbind option_bind].
  change (find_node o (nid n)) with (get_node (nodes o) (nid n)) in Hf.
  intros ([o1 a] & E1 & E)%bind_Some. pose proof (produce_new_tlvs_state _ _ _ _ E1) as ->. exists a. split; [done|].
  change (republish_tlvs (set_tlvs_dirty false o)) with (republish_tlvs o) in E.
  destruct (bool_decide (a = None) && negb (republish_tlvs o)) eqn:Eskip.
  { injection E as <-. apply andb_true_iff in Eskip as [->%bool_decide_eq_true Er%negb_true_iff]. by left. }
  right. split.
  { apply andb_false_iff in Eskip as [?%bool_decide_eq_false|?%negb_false_iff]; [by left|by right]. }
  cbv zeta in E. change (dncp_notify_subscribers_about_to_republish_tlvs (set_tlvs_dirty false o)) with (tlvs_told o) in E.
  pose proof (calm_notify_each DNCP_CALLBACK_REPUBLISH (fun s => [RepublishTlvs s]) (set_tlvs_dirty false o)) as ((Hb & Ht & _) & Hn & _).
  change (notify_each _ _ (set_tlvs_dirty false o)) with (tlvs_told o) in Hb, Ht, Hn.
  assert (find_node (set_republish_tlvs false (tlvs_told o)) (nid n) = Some n) as En2
    by (exact (eq_trans (f_equal (fun ns => get_node ns (nid n)) Hn) Hf)).
  rewrite En2 in E. cbn [mbind option_bind] in E. apply bind_Some in E as ([o4 a2] & E4 & E).
  pose proof (produce_new_tlvs_state _ _ _ _ E4) as E4'. apply bind_Some in E as ([o5 n5] & E5 & [= <-]).
  assert (Hb4 : base o4 = base (set_republish_tlvs false o)) by (rewrite E4'; exact (f_equal (set_republish_tlvs false) Hb)).
  assert (Et : dncp_time o4 = clock o).
  { rewrite (base_field dncp_time _ _ ltac:(done) Hb4). exact (time_ok_clock _ (inv_time _ Hi)). }
  destruct (inv_published o o4 n (dncp_time o4) (flushed n a a2) o5 n5) as (Hi5 & Hf5 & Hc5 & Hx5 & Hu5 & Hr5 & Ho5 & Hq5); try done.
  - rewrite E4'. exact (Ht (inv_tlvs _ Hi)).
  - rewrite E4'. exact Hn.
  - lia.
  - exists a2, o4, n5. rewrite Hx5, Et. split_and!; try done; [lia|congruence].
Qed.

Lemma inv_self_flush o o' : inv o -> dncp_self_flush o = Some o' -> inv o'.
Proof.
  intros Hi E. destruct (inv_own_node _ Hi) as (n & Ho & Hf).
  destruct (self_flush_cases o o' n Hi Ho Hf E) as (a & _ & [(_ & _ & ->)|(_ & a2 & o4 & n' & _ & Hi' & _)]); [by apply inv_tlvs_dirty|done].
Qed.

Lemma self_flush_total o : inv o -> small o -> small (tlvs_told o) -> exists o', dncp_self_flush o = Some o'.
Proof.
  intros Hi Hs Hs2. destruct (inv_own_node _ Hi) as (n & Ho & Hf). unfold dncp_self_flush. rewrite Ho. cbn [mbind option_bind].
  rewrite Hf. cbn [mbind option_bind]. rewrite (produce_new_tlvs_news o n (inv_tlvs _ Hi) Hs). cbn [mbind option_bind].
  destruct (_ && _); [by eexists|]. cbv zeta.
  pose proof (calm_notify_each DNCP_CALLBACK_REPUBLISH (fun s => [RepublishTlvs s]) (set_tlvs_dirty false o)) as ((_ & Ht & _) & Hn & _).
  change (dncp_notify_subscribers_about_to_republish_tlvs (set_tlvs_dirty false o)) with (tlvs_told o).
  change (notify_each _ _ (set_tlvs_dirty false o)) with (tlvs_told o) in Ht, Hn.
  assert (find_node (set_republish_tlvs false (tlvs_told o)) (nid n) = Some n) as ->
    by (exact (eq_trans (f_equal (fun ns => get_node ns (nid n)) Hn) Hf)).
  cbn [mbind option_bind]. rewrite (produce_new_tlvs_news (set_republish_tlvs false (tlvs_told o)) n); [|exact (Ht (inv_tlvs _ Hi))|exact Hs2].
  cbn [mbind option_bind]. edestruct node_set_spec as (o5 & n5 & -> & _). cbn. by eexists.
Qed.

(** Where what is published comes from: from the TLVs as the subscribers left them, unless
    they were taken back to what is published already. *)
Lemma flushed_news o n : pub (tlv_container n) o -> small o -> small (tlvs_told o) ->
  flushed n (fresh_tlvs o n) (fresh_tlvs (set_republish_tlvs false (tlvs_told o)) n) = Some (enc (tlv <$> tlvs (tlvs_told o))) \/
  (tlv_container n = Some (enc (tlv <$> tlvs (tlvs_told o))) /\ tlv_container n ≠ Some (enc (tlv <$> tlvs o)) /\
   flushed n (fresh_tlvs o n) (fresh_tlvs (set_republish_tlvs false (tlvs_told o)) n) = Some (enc (tlv <$> tlvs o))).
Proof.
  intros Hp Hs Hs2. unfold flushed, fresh_tlvs. cbn [tlvs_dirty tlvs set_republish_tlvs].
  pose proof (calm_notify_each DNCP_CALLBACK_REPUBLISH (fun s => [RepublishTlvs s]) (set_tlvs_dirty false o)) as ((_ & _ & Hc) & _).
  change (notify_each _ _ (set_tlvs_dirty false o)) with (tlvs_told o) in Hc.
  specialize (Hc (Some (enc (tlv <$> tlvs o))) ltac:(by intros _ _)). unfold pub in Hc, Hp.
  destruct (tlvs_dirty (tlvs_told o)).
  - case_decide as E2; [by left|]. assert (tlv_container n = Some (enc (tlv <$> tlvs (tlvs_told o)))) as Ec by (apply dec_stable; naive_solver).
    case_decide as E1; [right; naive_solver|by left].
  - rewrite decide_False by naive_solver. rewrite <- Hc by done. case_decide as E1; [by left|left].
    destruct (tlvs_dirty o); [apply dec_stable; naive_solver|by apply Hp].
Qed.

(** C23: dncp_self_flush on a consistent state whose local TLVs, before and after the republish
    callbacks, fit a container returns and clears the republish flag. If nothing was to be
    republished and the own node already holds the encoding of the local TLVs, only the
    dirty flag changes. Otherwise its update number grows by one modulo 2^32, and it then
    holds the encoding of the local TLVs as the callbacks left them, unless these are back
    at what was published before while the TLVs were different when the flush began; then it
    holds the encoding of those. *)
Theorem self_flush_publishes o n : inv o -> own_node o = Some (nid n) -> find_node o (nid n) = Some n ->
  pub (tlv_container n) o -> small o -> small (tlvs_told o) ->
  exists o' n', dncp_self_flush o = Some o' /\ find_node o' (nid n) = Some n' /\ republish_tlvs o' = false /\
    ((republish_tlvs o = false /\ tlv_container n = Some (enc (tlv <$> tlvs o)) /\ n' = n /\ o' = set_tlvs_dirty false o) \/
     ((republish_tlvs o = true \/ tlv_container n ≠ Some (enc (tlv <$> tlvs o))) /\
      update_number n' = u32 (update_number n + 1) /\
      (tlv_container n' = Some (enc (tlv <$> tlvs (tlvs_told o))) \/
       (tlv_container n = Some (enc (tlv <$> tlvs (tlvs_told o))) /\ tlv_container n ≠ Some (enc (tlv <$> tlvs o)) /\
        tlv_container n' = Some (enc (tlv <$> tlvs o)))))).
Proof.
  intros Hi Ho Hf Hp Hs Hs2. destruct (self_flush_total o Hi Hs Hs2) as [o' E].
  pose proof (calm_notify_each DNCP_CALLBACK_REPUBLISH (fun s => [RepublishTlvs s]) (set_tlvs_dirty false o)) as ((_ & Ht & _) & _).
  destruct (self_flush_cases o o' n Hi Ho Hf E) as (a & Ea & Hcase).
  rewrite (produce_new_tlvs_news o n (inv_tlvs _ Hi) Hs) in Ea. injection Ea as <-.
  destruct Hcase as [(Ea & Er & ->)|(Hor & a2 & o4 & n' & E2 & _ & Hf' & Hc' & _ & Hu & Hr & _)].
  - exists (set_tlvs_dirty false o), n. do 3 (split; [done|]). left. split; [done|]. split; [|done].
    unfold fresh_tlvs in Ea. case_decide as En; [done|]. destruct (tlvs_dirty o) eqn:Hd; [apply dec_stable; naive_solver|by apply Hp].
  - exists o', n'. do 3 (split; [done|]). right. split.
    { destruct Hor as [Hne|?]; [right|by left]. unfold fresh_tlvs in Hne. case_decide; naive_solver. }
    split; [done|]. rewrite produce_new_tlvs_news in E2; [|exact (Ht (inv_tlvs _ Hi))|exact Hs2]. injection E2 as _ <-.
    rewrite Hc'. by apply flushed_news.
Qed.
End publish.
