(* ===== verification/DncpSteps.v ===== *)
(** Every entry point of the protocol keeps the invariant of [DncpInv]: the
    interface for local TLVs, endpoints and subscribers, messages from the network
    and timeouts. *)
From S2P Require Import Prelude Bitops Tlv DncpNotify DncpIndex DncpState Dncp DncpFacts DncpProto DncpTimeout DncpPrune DncpInv.

(** ** Our own identifier *)

Section own.
Context `{!DncpExt, !DncpCallbacks, !Passive}.

Lemma quiet_create o ni b : quiet o (dncp_find_node_by_node_id o ni b).1.
Proof.
  unfold dncp_find_node_by_node_id. destruct (find_node o ni); [done|]. destruct b; [|done]. cbn.
  etrans; [|apply quiet_nodes_changed]. apply quiet_set_nodes.
Qed.

(** The second half of [dncp_set_own_node_id], from a state without own node. *)
Lemma inv_adopt o ni o1 n : tree_ok (nodes_version o) (last_prune o) (nodes o) -> tlvs_wf o -> time_ok o ->
  length ni = node_id_length -> (network_hash_dirty o = true \/ find_node o ni = None) ->
  dncp_find_node_by_node_id o ni true = (o1, Some n) ->
  inv (dncp_schedule (put_node (set_last_reachable_prune (last_prune o1) n) (set_tlvs_dirty true (set_own_node (Some ni) o1)))).
Proof.
  intros Ht Hw Hti Hl Hdirty E. pose proof (quiet_create o ni true) as Hq. rewrite E in Hq. cbn [fst] in Hq.
  eapply inv_calm; [apply calm_schedule|].
  assert (Hf1 : get_node (nodes o1) ni = Some n /\ network_hash_dirty o1 = true /\
    tree_ok (nodes_version o) (last_prune o) (nodes o1)).
  { unfold dncp_find_node_by_node_id in E. destruct (find_node o ni) as [m|] eqn:Em.
    - injection E as <- <-. by destruct Hdirty.
    - injection E as <- <-. edestruct (quiet_nodes_changed) as (_ & Hn & Hd). rewrite Hn, Hd. cbn [nodes set_nodes].
      rewrite get_insert, decide_True by done. do 2 (split; [done|]).
      apply insert_node_ok; [done|done|done|done|cbn; lia|done|cbn; lia]. }
  destruct Hf1 as (Hf & Hd & Ht1). pose proof (get_node_Some _ _ _ Hf) as [Hin Hni]. split.
  - cbn [nodes_version last_prune nodes put_node set_nodes set_tlvs_dirty set_own_node].
    rewrite (quiet_version _ _ Hq), (quiet_last_prune _ _ Hq).
    apply tree_ok_put; [done|exact (tr_version _ _ _ Ht1 n Hin)|cbn; lia|exact (tr_hash _ _ _ Ht1 n Hin)|
      exact (tr_update _ _ _ Ht1 n Hin)].
  - exists (set_last_reachable_prune (last_prune o1) n). split; [cbn; by rewrite Hni|]. split; [|done].
    apply list_elem_of_fmap. exists n. by rewrite decide_True.
  - intros Hd'. cbn in Hd'. congruence.
  - by apply Hq.
  - eapply quiet_time_ok in Hti; [|exact Hq]. exact Hti.
Qed.

Lemma inv_set_own_node_id o ni o' : inv o -> length ni = node_id_length ->
  dncp_set_own_node_id o ni = Some o' -> inv o'.
Proof.
  intros Hi Hl. unfold dncp_set_own_node_id. destruct (inv_own_node _ Hi) as (n & -> & Hf). rewrite Hf.
  cbn [mbind option_bind]. destruct (delete_node_quiet o n) as (o1 & -> & Hq & Hn & Hd). cbn [mbind option_bind].
  destruct (dncp_find_node_by_node_id (set_own_node None o1) ni true) as [o2 [m|]] eqn:E; [|done].
  cbn [mbind option_bind]. intros [= <-]. eapply (inv_adopt (set_own_node None o1)); [| | | | |exact E].
  - cbn. rewrite Hn, (quiet_version _ _ Hq), (quiet_last_prune _ _ Hq). apply tree_ok_filter, Hi.
  - apply Hq, Hi.
  - pose proof (quiet_time_ok _ _ Hq (inv_time _ Hi)) as Hti. exact Hti.
  - done.
  - by left.
Qed.

(** A new instance has the invariant; node identifiers come from a hash that is
    long enough, or are padded. *)
Lemma inv_init clk id o : (length (ext_hash id) + 32 >= node_id_length)%nat -> 1 <= clk ->
  dncp_init clk id = Some o -> inv o.
Proof.
  intros Hlen Hclk. unfold dncp_init, dncp_set_own_node_id. cbn [own_node set_last_prune set_first_free_ep_id dncp_zero mbind option_bind].
  set (o0 := set_last_prune 1 _). set (ni := take node_id_length _).
  destruct (dncp_find_node_by_node_id o0 ni true) as [o1 [n|]] eqn:E; [|done]. cbn [mbind option_bind].
  intros [= <-]. eapply (inv_adopt o0); [| | | | |exact E].
  - split; try (by intros n' ?%elem_of_nil). constructor.
  - split; [|apply tindex_empty_wf]. split; constructor.
  - split; [split; cbn; lia|by left].
  - unfold ni. rewrite length_take, length_app, length_replicate. lia.
  - by right.
Qed.
End own.

(** ** Steps that keep the set of nodes *)

(** Decompose a computation that has succeeded. *)
Ltac bind_inv :=
  repeat match goal with
  | E : (_ ≫= _) = Some _ |- _ =>
    let x := fresh "x" in let E' := fresh "E" in
    apply bind_Some in E as (x & E' & E); repeat (let y := fresh "x" in destruct x as [x y])
  | E : Some _ = Some _ |- _ => injection E as E; subst
  | E : None = Some _ |- _ => discriminate E
  | E : (_, _) = (_, _) |- _ => injection E as ? ?; subst
  end.

Section tame.
Context `{!DncpExt, !DncpCallbacks}.

Definition tame (o o' : dncp) : Prop :=
  (inv o -> inv o') /\ nid <$> nodes o' = nid <$> nodes o /\ own_node o' = own_node o.

#[global] Instance tame_preorder : PreOrder tame.
Proof.
  split; [by intros o|]. intros o1 o2 o3 (H1 & H2 & H3) (H4 & H5 & H6). split; [auto|]. split; congruence.
Qed.

Lemma calm_tame o o' : calm o o' -> tame o o'.
Proof.
  intros Hc. split; [by apply inv_calm|]. destruct Hc as (Hq & -> & _). split; [done|]. by apply quiet_own.
Qed.

Lemma tame_network_hash `{!Passive} o o' : dncp_calculate_network_hash o = Some o' -> tame o o'.
Proof.
  intros E. split; [intros Hi; by apply (inv_calculate_network_hash o o' Hi E)|].
  destruct (network_hash_dirty o) eqn:Hd.
  - destruct (calculate_network_hash_spec o o' E Hd) as (Hn & _ & _ & _ & (Hq & _)). split.
    + rewrite Hn, nid_fmap; [done|]. intros n. apply rehash_fields.
    + by apply quiet_own in Hq.
  - unfold dncp_calculate_network_hash in E. rewrite Hd in E. by injection E as <-.
Qed.

Lemma calm_send_buf o e src dst tb o' : dncp_ep_i_send_buf o e src dst tb = Some o' -> calm o o'.
Proof. unfold dncp_ep_i_send_buf. intros E. bind_inv. apply calm_emit. Qed.

Lemma calm_reply_send o e rp o' : dncp_reply_send o e rp = Some o' -> calm o o'.
Proof. unfold dncp_reply_send. intros E. bind_inv. by eapply calm_send_buf. Qed.

Lemma calm_push_tlv_rec fuel o e rp t len o' rp' a : _push_tlv fuel o e rp t len = Some (o', rp', a) -> calm o o'.
Proof.
  revert o rp t len o' rp' a. induction fuel as [|fuel IH]; intros o rp t len o' rp' a; cbn [_push_tlv]; [done|].
  intros E. apply bind_Some in E as ([o1 rp1] & E1 & E). apply bind_Some in E as ([o2 rp2] & E2 & E). bind_inv.
  trans o1.
  - destruct (rbuf rp); [|by injection E1 as <- <-]. apply bind_Some in E1 as ([] & _ & E1); bind_inv; [|done].
    by eapply calm_reply_send.
  - destruct (rbuf rp1); [by injection E2 as <- <-|]. apply bind_Some in E2 as (ot & _ & E2).
    apply bind_Some in E2 as (tb & _ & E2).
    destruct (unicast_is_reliable_stream (conf e)); [by injection E2 as <- <-|]. bind_inv. by eapply IH.
Qed.

Lemma calm_push_tlv o e rp t len o' rp' a : push_tlv o e rp t len = Some (o', rp', a) -> calm o o'.
Proof. apply calm_push_tlv_rec. Qed.

Lemma calm_push_node_state o e rp n incl o' rp' : _push_node_state_tlv o e rp n incl = Some (o', rp') -> calm o o'.
Proof. unfold _push_node_state_tlv. intros E. bind_inv. by eapply calm_push_tlv. Qed.

Lemma calm_push_req o e rp ni o' rp' : _push_req_node_data_tlv o e rp ni = Some (o', rp') -> calm o o'.
Proof. unfold _push_req_node_data_tlv. intros E. bind_inv. by eapply calm_push_tlv. Qed.

Lemma calm_push_ep_id o e rp dst b o' rp' : _push_ep_id_tlv o e rp dst b = Some (o', rp') -> calm o o'.
Proof.
  unfold _push_ep_id_tlv. destruct (_ && _ && _); intros E; bind_inv; [done|]. by eapply calm_push_tlv.
Qed.

Lemma calm_push_node_states ns o e rp o' rp' : push_node_states o e rp ns = Some (o', rp') -> calm o o'.
Proof.
  revert o rp. induction ns as [|n ns IH]; intros o rp; cbn [push_node_states]; intros E; bind_inv; [done|].
  etrans; [by eapply calm_push_node_state|by eapply IH].
Qed.

Section passive.
Context `{!Passive}.

Lemma tame_push_network_state_tlv o e rp o' rp' : _push_network_state_tlv o e rp = Some (o', rp') -> tame o o'.
Proof.
  unfold _push_network_state_tlv. intros E. bind_inv. etrans; [eapply calm_tame; by eapply calm_push_tlv|].
  by apply tame_network_hash.
Qed.

Lemma tame_push_network_state o e rp m o' rp' : _push_network_state o e rp m = Some (o', rp') -> tame o o'.
Proof.
  unfold _push_network_state. intros E. apply bind_Some in E as ([o1 rp1] & E1 & E).
  trans o1; [by eapply tame_push_network_state_tlv|]. destruct (_ || _); [|by injection E as <- <-].
  apply bind_Some in E as (tb & _ & E). apply bind_Some in E as (l & _ & E).
  destruct (_ || _) in E; [|by injection E as <- <-]. eapply calm_tame. by eapply calm_push_node_states.
Qed.

Lemma tame_send_network_state o e src dst m b o' : dncp_ep_i_send_network_state o e src dst m b = Some o' -> tame o o'.
Proof.
  unfold dncp_ep_i_send_network_state. intros E. bind_inv.
  etrans; [eapply calm_tame; by eapply calm_push_ep_id|]. etrans; [by eapply tame_push_network_state|].
  eapply calm_tame. by eapply calm_send_buf.
Qed.
End passive.
End tame.

#[export] Hint Resolve calm_tame tame_network_hash calm_send_buf calm_reply_send calm_push_tlv calm_push_node_state
  calm_push_req calm_push_ep_id calm_push_node_states tame_push_network_state_tlv tame_push_network_state
  tame_send_network_state : calm.

(** ** Messages *)

Lemma tlv_len_bound m p l : tlv_len m p = Some l -> Z.of_nat l < 65536.
Proof.
  unfold tlv_len. intros (v & _ & [= <-])%bind_Some. change TLV_ATTR_LEN_MASK with (Z.ones 16).
  rewrite Z.land_ones by lia. pose proof (Z.mod_pos_bound v (2 ^ 16) ltac:(lia)). lia.
Qed.

(** A payload is as short as its length field can say. *)
Lemma tlv_read_length m p t : tlv_read m p = Some t -> Z.of_nat (length t.2) < 65536.
Proof.
  unfold tlv_read, tlv_payload. intros (id & _ & (d & (l & El & Ed)%bind_Some & [= <-])%bind_Some)%bind_Some.
  apply tlv_len_bound in El. unfold rdn in Ed. case_decide; [|done]. injection Ed as <-. cbn. rewrite length_take. lia.
Qed.

Lemma tlv_list_lengths m buf len ts : tlv_list m buf len = Some ts -> Forall (fun t => Z.of_nat (length t.2) < 65536) ts.
Proof.
  unfold tlv_list. intros (ps & _ & E%mapM_Some)%bind_Some. induction E; constructor; [by eapply tlv_read_length|done].
Qed.

Lemma u32_range z : 0 <= u32 z < 2 ^ 32.
Proof. apply Z.mod_pos_bound. lia. Qed.

Section messages.
Context `{!DncpExt, !DncpCallbacks, !Passive}.

(** What the protocol relies on when identifiers collide. *)
Class CollisionOk := {
  hc_inv o : inv o -> inv (handle_collision o).1;
  hc_false o : (handle_collision o).2 = false -> (handle_collision o).1 = o
}.

Context `{!CollisionOk}.
Hypothesis nid_small : Z.of_nat (node_id_length + 8) < 65536.

Lemma length_host32 v : length (host32 v) = 4%nat.
Proof. unfold host32. destruct big_endian; [apply length_be32|by rewrite length_reverse, length_be32]. Qed.

Lemma peer_tlv_ok p : length (pe_nid p) = node_id_length -> tlv_ok (Z.of_nat DNCP_T_PEER, t_peer_data p).
Proof.
  intros Hl. split; [cbn; unfold DNCP_T_PEER; lia|]. cbn [snd]. unfold t_peer_data. rewrite !length_app, !length_host32, Hl. lia.
Qed.

Lemma calm_heard o e ni rep src mc o' ne : length ni = node_id_length ->
  _heard o e ni rep src mc = Some (o', ne) -> calm o o'.
Proof.
  intros Hl. unfold _heard. destruct (dncp_find_tlv _ _ _).
  - destruct mc; intros E; bind_inv; [done|]. apply calm_put_extra.
  - destruct mc; intros E; bind_inv; [done|]. etrans; [|apply calm_put_extra]. by apply calm_add_tlv, peer_tlv_ok.
Qed.

Lemma calm_on_peer f ne o o' : on_peer f ne o = Some o' -> calm o o'.
Proof. unfold on_peer. destruct ne; intros E; bind_inv; [apply calm_put_extra|done]. Qed.

(** The state when a TLV has been handled. *)
Definition res_o (r : hm_res) : dncp := match r with Next h => hm_o h | Return o => o end.

Lemma inv_node_endpoint e src mc h d r : handle_node_endpoint e src mc h d = Some r ->
  inv (hm_o h) -> inv (res_o r).
Proof.
  unfold handle_node_endpoint. intros E Hi. destruct (hm_seen_lid h); [bind_inv; done|].
  case_decide as El; [bind_inv; done|]. apply bind_Some in E as (own & Ho & E). case_decide; [bind_inv; done|].
  apply bind_Some in E as ([o1 ne] & E1 & E). apply bind_Some in E as (o2 & E2 & [= <-]).
  apply (inv_calm o1); [destruct mc; bind_inv; [done|]; by eapply calm_on_peer|].
  apply (inv_calm (hm_o h)); [|done]. eapply calm_heard; [|exact E1]. rewrite length_take. lia.
Qed.

Lemma inv_req_net_state e mc h r : handle_req_net_state e mc h = Some r -> inv (hm_o h) -> inv (res_o r).
Proof.
  unfold handle_req_net_state. intros E Hi. destruct mc; bind_inv; [done|]. cbn.
  by eapply tame_push_network_state.
Qed.

Lemma inv_req_node_state e mc h d r : handle_req_node_state e mc h d = Some r -> inv (hm_o h) -> inv (res_o r).
Proof.
  unfold handle_req_node_state. intros E Hi. destruct mc; [bind_inv; done|]. case_decide; [bind_inv; done|].
  destruct (find_node (hm_o h) d) as [n|]; [|bind_inv; done].
  assert (Hpush : forall o n, inv o -> ('(o, rp) ← _push_node_state_tlv o e (hm_reply h) n true;
    Some (Next (with_reply h o rp))) = Some r -> inv (res_o r)).
  { intros o' n' Hi' E'. bind_inv. cbn. eapply inv_calm; [by eapply calm_push_node_state|done]. }
  destruct (dncp_node_is_self (hm_o h) d).
  - apply bind_Some in E as (o1 & E1 & E). apply bind_Some in E as (n1 & En & E).
    apply (Hpush o1 n1); [by eapply inv_self_flush|done].
  - destruct (graph_dirty _); [bind_inv; done|]. destruct (negb _); [bind_inv; done|]. by apply (Hpush (hm_o h) n).
Qed.

Lemma inv_net_state e h d r : handle_net_state e h d = Some r -> inv (hm_o h) -> inv (res_o r).
Proof.
  unfold handle_net_state. intros E Hi. case_decide; [bind_inv; done|]. case_decide; bind_inv; cbn; [|done].
  eapply inv_calm; [by eapply calm_on_peer|]. eapply inv_calm; [apply calm_put_ep|done].
Qed.

Lemma received_container_nd nd c : Z.of_nat (length nd) < 65536 -> received_container nd = Some (Some c) -> c = nd.
Proof.
  intros Hl. unfold received_container.
  destruct (tlv_buf_init_holds (mk_tlv_buf 0 []) 0) as (b0 & -> & Hb0); [done|done|]. cbn [mbind option_bind].
  destruct (decide (length nd < 4)%nat) as [Hs|Hs].
  { unfold tlv_put_raw. rewrite decide_True by done. done. }
  destruct (tlv_put_raw_holds b0 [] 0 [] nd Hb0) as (b1 & -> & Hb1); [lia|done|]. cbn [mbind option_bind].
  destruct (holds_tlv_payload _ _ _ _ Hb1) as [-> _]. cbn. by intros [= <-].
Qed.

Lemma inv_own_data o n u : inv o -> own_node o = Some (nid n) -> find_node o (nid n) = Some n ->
  inv (own_data_received o n u).
Proof.
  intros Hi Ho Hf. unfold own_data_received.
  destruct (if collided o then handle_collision o else (o, false)) as [o1 ign] eqn:Ec.
  assert (H1' : if ign then inv o1 else o1 = o).
  { destruct (collided o); [|by injection Ec as <- <-]. pose proof (hc_inv o Hi) as Hc. pose proof (hc_false o) as Hf'.
    rewrite Ec in Hc, Hf'. destruct ign; [done|by apply Hf']. }
  destruct ign; [done|]. subst o1. cbv zeta. eapply inv_calm; [apply calm_schedule|].
  pose proof (get_node_Some _ _ _ Hf) as [Hin _]. pose proof (inv_tree _ Hi) as Ht.
  set (n' := set_update_number _ n). split.
  - apply (tree_ok_put _ _ (nodes o) n'); [done|exact (tr_version _ _ _ Ht n Hin)|exact (tr_reachable _ _ _ Ht n Hin)|
      exact (tr_hash _ _ _ Ht n Hin)|]. apply Z.mod_pos_bound. lia.
  - eapply (own_ok_put o _ n' n); [apply Hi|done|done|done|by apply inv_NoDup|done..].
  - by intros _ ?.
  - apply Hi.
  - apply Hi.
Qed.

Lemma inv_node_state e mc h d r : Z.of_nat (length d) < 65536 ->
  handle_node_state e mc h d = Some r -> inv (hm_o h) -> inv (res_o r).
Proof.
  intros Hd. unfold handle_node_state. intros E Hi. case_decide as Hlen; [bind_inv; done|]. cbv zeta in E.
  destruct (negb _); [bind_inv; done|].
  set (ni := take node_id_length d) in *. assert (Hni : length ni = node_id_length) by (unfold ni; rewrite length_take; lia).
  set (nd := if mc && _ then [] else _) in E.
  assert (Hnd : Z.of_nat (length nd) < 65536) by (unfold nd; destruct (mc && _); cbn; rewrite ?length_drop; lia).
  clearbody nd. case_decide.
  { bind_inv. cbn. eapply inv_calm; [by eapply calm_push_req|done]. }
  case_decide as Eh; [bind_inv; done|].
  destruct (dncp_find_node_by_node_id (hm_o h) ni true) as [o1 n1] eqn:Ec.
  destruct (inv_create _ _ _ _ Hi Hni Ec) as (n & -> & Hi1 & Hf1 & En & _). cbn [mbind option_bind] in E.
  destruct (dncp_node_is_self o1 ni) eqn:Eself.
  { injection E as <-. unfold dncp_node_is_self in Eself. apply bool_decide_eq_true in Eself. cbn.
    apply inv_own_data; [done|by rewrite En|by rewrite En]. }
  unfold dncp_node_is_self in Eself. apply bool_decide_eq_false in Eself.
  apply bind_Some in E as (c & Ec' & E). apply bind_Some in E as (o2 & E2 & [= <-]). cbn.
  destruct c as [c|]; [|by injection E2 as <-]. apply received_container_nd in Ec' as ->; [|done].
  apply bind_Some in E2 as ([o3 n3] & E3 & [= <-]). rewrite <- En in Hf1, Eself.
  destruct (inv_node_set _ _ _ _ _ _ _ Hi1 (u32_range _) Hf1 Eself E3) as (Hi3 & Hf3 & _ & En3 & _ & _ & Hc3).
  apply inv_put_hash; [done|by rewrite En3|]. rewrite Hc3 by done. done.
Qed.

Lemma inv_handle_tlv e src mc h t r : Z.of_nat (length t.2) < 65536 ->
  handle_tlv e src mc h t = Some r -> inv (hm_o h) -> inv (res_o r).
Proof.
  destruct t as [id d]. cbn [snd]. intros Hd. unfold handle_tlv.
  case_decide; [apply inv_node_endpoint|]. case_decide; [apply inv_req_net_state|].
  case_decide; [apply inv_req_node_state|]. case_decide; [apply inv_net_state|].
  case_decide; [by apply inv_node_state|]. by intros [= <-].
Qed.

Lemma inv_handle_tlvs e src mc ts h r : Forall (fun t => Z.of_nat (length t.2) < 65536) ts ->
  handle_tlvs e src mc h ts = Some r -> inv (hm_o h) -> inv (res_o r).
Proof.
  revert h. induction ts as [|t ts IH]; intros h Hts; cbn [handle_tlvs]; [by intros [= <-]|].
  apply Forall_cons in Hts as [Ht Hts]. intros (r1 & E1 & E)%bind_Some Hi.
  apply (inv_handle_tlv _ _ _ _ _ _ Ht E1) in Hi. destruct r1 as [h1|o1]; [by eapply IH|]. by injection E as <-.
Qed.

Lemma inv_finish_message e mc h o' : finish_message e mc h = Some o' -> inv (hm_o h) -> inv o'.
Proof.
  unfold finish_message. intros ([o1 rp1] & E1 & E)%bind_Some Hi. assert (Hi1 : inv o1).
  { destruct (_ && _ && _); [|by injection E1 as <- <-]. bind_inv.
    eapply inv_calm; [apply calm_put_ep|]. eapply inv_calm; [by eapply calm_push_tlv|].
    by eapply tame_push_network_state_tlv. }
  destruct (rbuf rp1); [|by injection E as <-]. destruct mc.
  - apply bind_Some in E as ([o2 r] & E2 & E). apply bind_Some in E as (l & _ & E).
    apply (inv_calm _ o2) in Hi1; [|by eapply calm_random_mod]. case_decide; injection E as <-; [|done].
    eapply inv_calm; [apply calm_schedule|]. eapply inv_calm; [apply calm_put_ep|done].
  - eapply inv_calm; [by eapply calm_reply_send|done].
Qed.

Lemma inv_handle_message o e src dst msg o' : handle_message o e src dst msg = Some o' -> inv o -> inv o'.
Proof.
  unfold handle_message. intros ([o1 ne] & E1 & E)%bind_Some Hi. assert (Hi1 : inv o1).
  { destruct (_ && _); [|by injection E1 as <- <-]. destruct (_find_local_tlv_by_remote o src) as [u|]; [|by injection E1 as <- <-].
    destruct (dncp_tlv_peer (tlv u)) as [p|] eqn:Ep; [|by injection E1 as <- <-].
    eapply inv_calm; [|exact Hi]. eapply calm_heard; [|exact E1]. unfold dncp_tlv_peer in Ep. case_decide as Hl; [|done].
    injection Ep as <-. cbn. rewrite length_take. lia. }
  apply bind_Some in E as (ts & Ets%tlv_list_lengths & E). apply bind_Some in E as (r & Er & E).
  apply (inv_handle_tlvs _ _ _ _ _ _ Ets Er) in Hi1. destruct r as [h|o2]; [|by injection E as <-].
  by eapply inv_finish_message.
Qed.

Lemma inv_ext_readable ps o o' : dncp_ext_readable o ps = Some o' -> inv o -> inv o'.
Proof.
  revert o. induction ps as [|p ps IH]; intros o; cbn [dncp_ext_readable]; [by intros [= <-]|].
  intros (e & _ & E)%bind_Some Hi. assert (Hi1 : inv (notify_each DNCP_CALLBACK_SOCKET_MSG (fun s =>
    [MsgReceived s (pk_ep p) (pk_src p) (pk_dst p) (pk_flags p) (message_of (pk_data p))]) o))
    by (eapply inv_calm; [apply calm_notify_each|done]).
  destruct (packet_accepted e p); [|by eapply IH]. apply bind_Some in E as (o1 & E1 & E).
  eapply IH; [done|]. by eapply inv_handle_message.
Qed.

Lemma tame_ep_peer_state o e local remote c o' : dncp_ext_ep_peer_state o e local remote c = Some o' -> tame o o'.
Proof.
  unfold dncp_ext_ep_peer_state. destruct c; [apply tame_send_network_state|]. intros [= <-].
  apply calm_tame. etrans; [|apply calm_schedule]. destruct (_find_local_tlv_by_remote o remote) as [u|]; [|done].
  destruct (extra u); [apply calm_put_extra|done].
Qed.
End messages.

(** ** Timeouts *)

Lemma get_tlv_with_type_wf ix k c vc T f v ix' k' r : tindex_wf ix ->
  dncp_node_get_tlv_with_type ix k c vc T f v = Some (ix', k', r) -> tindex_wf ix'.
Proof.
  intros Hix. unfold dncp_node_get_tlv_with_type. cbv zeta.
  intros (arr & _ & (idx & _ & (x & _ & [= <- _ _])%bind_Some)%bind_Some)%bind_Some.
  destruct (_ && _); [done|]. by apply dncp_add_tlv_index_wf.
Qed.

Lemma for_each_wf ix k c vc T v ix' k' ts : tindex_wf ix ->
  dncp_node_for_each_tlv_with_t_v ix k c vc T v = Some (ix', k', ts) -> tindex_wf ix'.
Proof.
  intros Hix. unfold dncp_node_for_each_tlv_with_t_v. intros ([[ix1 k1] a] & E1 & E)%bind_Some.
  apply get_tlv_with_type_wf in E1; [|done]. destruct a; [|by injection E as <- _ _].
  apply bind_Some in E as ([[ix2 k2] l] & E2 & E). apply get_tlv_with_type_wf in E2; [|done]. by bind_inv.
Qed.

Section index.
Context `{!DncpExt, !DncpCallbacks}.

Lemma calm_node_tlvs o n T o' ts : node_tlvs_of_type o n T = Some (o', ts) -> calm o o'.
Proof.
  unfold node_tlvs_of_type. intros ([[ix k] ts'] & E & [= <- _])%bind_Some. split; [|done]. split; [done|].
  split; [|done]. intros [Hs Hix]. split; [done|]. by eapply for_each_wf.
Qed.

Lemma calm_node_peers o n o' ps : node_peers o n = Some (o', ps) -> calm o o'.
Proof. unfold node_peers. intros E. bind_inv. by eapply calm_node_tlvs. Qed.

Lemma calm_find_neigh o n ne o' m : dncp_node_find_neigh_bidir o n ne = Some (o', m) -> calm o o'.
Proof.
  unfold dncp_node_find_neigh_bidir. destruct (find_node o (pe_nid ne)); intros E; bind_inv; [|done].
  by eapply calm_node_peers.
Qed.

(** What the flood of [_prune_rec] keeps: the loop over peers, and the whole. *)
Lemma flood_ind (P : dncp -> Prop) fuel ni ps o o' :
  (forall o1 o2, calm o1 o2 -> P o1 -> P o2) -> (forall o1 x o2, P o1 -> _prune_rec fuel o1 x = Some o2 -> P o2) -> P o ->
  foldl (fun (r : option dncp) ne =>
      o ← r;
      n ← find_node o ni;
      '(o, n2) ← dncp_node_find_neigh_bidir o n ne;
      match n2 with None => Some o | Some n2 => _prune_rec fuel o (nid n2) end) (Some o) ps = Some o' -> P o'.
Proof.
  intros Hcalm Hrec. revert o. induction ps as [|ne ps IH]; intros o Ho; cbn [foldl]; [by intros [= <-]|]. intros E.
  match type of E with foldl ?f (?x) _ = _ => destruct x as [o3|] eqn:E3 end.
  - eapply (IH o3); [|exact E]. cbn [mbind option_bind] in E3. apply bind_Some in E3 as (n3 & _ & E3).
    apply bind_Some in E3 as ([o4 m] & E4 & E5). apply (Hcalm _ o4) in Ho; [|by eapply calm_find_neigh].
    destruct m as [m|]; [by eapply Hrec|by injection E5 as <-].
  - exfalso. clear -E. induction ps as [|x ps IH]; [done|]. cbn [foldl mbind option_bind] in E. by apply IH.
Qed.

Lemma prune_rec_ind (P : dncp -> Prop) :
  (forall o1 o2, calm o1 o2 -> P o1 -> P o2) ->
  (forall o n n1 o', P o -> find_node o (nid n) = Some n -> version n ≠ nodes_version o ->
     find_node (refresh_node o n) (nid n) = Some n1 -> _node_set_reachable (refresh_node o n) n1 true = Some o' -> P o') ->
  forall fuel o ni o', P o -> _prune_rec fuel o ni = Some o' -> P o'.
Proof.
  intros Hcalm Hsee. induction fuel as [|fuel IH]; intros o ni o' Ho; cbn [_prune_rec]; [done|].
  destruct (find_node o ni) as [n|] eqn:En; [|by intros [= <-]]. pose proof (get_node_Some (nodes o) _ _ En) as [_ <-].
  case_decide; [by intros [= <-]|]. case_decide; [by intros [= <-]|].
  intros (n1 & E1 & (o1 & E2 & (n2 & E3 & ([o2 ps] & E4 & E)%bind_Some)%bind_Some)%bind_Some)%bind_Some.
  apply (flood_ind P fuel (nid n) ps o2); [done|done| |exact E]. apply (Hcalm o1); [by eapply calm_node_peers|]. by eapply Hsee.
Qed.
End index.

Section pruned.
Context `{!DncpExt, !DncpCallbacks, !Passive}.
Context (o0 : dncp).

(** A state while [dncp_prune] runs, whatever the data of the nodes: what a step
    writes to a node is its version and the time it was reachable. *)
Record prune_state (o : dncp) : Prop := {
  ps_quiet : quiet o0 o;
  ps_tree : tree_ok (nodes_version o0) (dncp_time o0) (nodes o);
  ps_data n : n ∈ nodes o -> exists m, m ∈ nodes o0 /\ nid m = nid n /\ tlv_container m = tlv_container n
}.

Lemma prune_state_calm o o' : calm o o' -> prune_state o -> prune_state o'.
Proof. intros (Hq & Hn & _) []. split; [by etrans|by rewrite Hn..]. Qed.

Lemma prune_state_nhd b o : prune_state o -> prune_state (set_network_hash_dirty b o).
Proof. intros []. split; [etrans; [done|apply quiet_network_hash_dirty]|done..]. Qed.

Lemma prune_state_put o n m : prune_state o -> m ∈ nodes o -> nid n = nid m -> tlv_container n = tlv_container m ->
  version n <= nodes_version o0 -> last_reachable_prune n <= dncp_time o0 -> hash_ok n ->
  update_number n = update_number m -> prune_state (put_node n o).
Proof.
  intros Hs Hm En Ec Hv Hr Hh Hu. pose proof (ps_tree _ Hs) as Ht. split.
  - etrans; [apply Hs|apply quiet_put_node].
  - apply (tree_ok_put _ _ (nodes o)); [done..|]. rewrite Hu. by eapply tr_update.
  - intros x (y & -> & Hy)%list_elem_of_fmap. case_decide; [|by apply Hs].
    rewrite En, Ec. by apply Hs.
Qed.


Lemma prune_state_set_reachable o n v o' : prune_state o -> n ∈ nodes o -> _node_set_reachable o n v = Some o' ->
  prune_state o'.
Proof.
  intros Hs Hn. unfold _node_set_reachable. intros (o1 & E1 & E)%bind_Some.
  assert (Hs1 : prune_state o1 /\ nodes o1 = nodes o).
  { destruct (bool_decide _); [|by injection E1 as <-]. apply bind_Some in E1 as (o2 & E2 & E1).
    assert (Hc2 : calm (set_network_hash_dirty true o) o2)
      by (destruct v; [by injection E2 as <-|by eapply calm_tlvs_changed]).
    assert (Hc3 : calm o2 (dncp_notify_subscribers_node_changed (nid n) v o2)) by apply calm_notify_each.
    assert (Hc4 : calm (dncp_notify_subscribers_node_changed (nid n) v o2) o1)
      by (destruct v; [by eapply calm_tlvs_changed|by injection E1 as <-]).
    assert (Hc : calm (set_network_hash_dirty true o) o1) by (by do 2 (etrans; [done|])).
    split; [|apply Hc]. eapply prune_state_calm; [exact Hc|]. by apply prune_state_nhd. }
  destruct Hs1 as [Hs1 Hn1]. destruct v; [|by injection E as <-].
  apply bind_Some in E as (m & Em & [= <-]). apply (get_node_Some (nodes o1)) in Em as [Hm _].
  pose proof (ps_tree _ Hs1) as Ht.
  apply (prune_state_put o1 _ m); [done|done|done|done|exact (tr_version _ _ _ Ht m Hm)| |exact (tr_hash _ _ _ Ht m Hm)|done].
  cbn. rewrite (quiet_time _ _ (ps_quiet _ Hs1)). lia.
Qed.

Lemma prune_state_refresh o n : prune_state o -> n ∈ nodes o -> prune_state (refresh_node o n).
Proof.
  intros Hs Hn. pose proof (ps_tree _ Hs) as Ht. unfold refresh_node.
  apply (prune_state_put o _ n); [done|done|done|done| |exact (tr_reachable _ _ _ Ht n Hn)|exact (tr_hash _ _ _ Ht n Hn)|done].
  cbn. rewrite (quiet_version _ _ (ps_quiet _ Hs)). lia.
Qed.

Lemma prune_state_rec fuel o ni o' : prune_state o -> _prune_rec fuel o ni = Some o' -> prune_state o'.
Proof.
  apply prune_rec_ind; [apply prune_state_calm|]. intros o1 n n1 o2 Hs [Hn _]%(get_node_Some (nodes o1)) _ [Hn1 _]%(get_node_Some (nodes (refresh_node o1 n))).
  apply prune_state_set_reachable; [by apply prune_state_refresh|done].
Qed.

Lemma prune_state_keep ids o g t o' t' : prune_state o -> prune_keep o ids g t = Some (o', t') -> prune_state o'.
Proof.
  revert o t. induction ids as [|ni ids IH]; intros o t Hs; cbn [prune_keep]; [by intros [= <- _]|].
  intros (n & En & E)%bind_Some. apply (get_node_Some (nodes o)) in En as [Hn _].
  case_decide; [by eapply IH|]. case_decide; [by eapply IH|].
  apply bind_Some in E as (n1 & E1 & E). apply (get_node_Some (nodes (refresh_node o n))) in E1 as [Hn1 _].
  apply bind_Some in E as (o1 & E2 & E). eapply IH; [|exact E].
  eapply prune_state_set_reachable; [|exact Hn1|exact E2]. by apply prune_state_refresh.
Qed.

Lemma prune_state_flush ids o o' : prune_state o -> flush_nodes o ids = Some o' -> prune_state o'.
Proof.
  revert o. induction ids as [|ni ids IH]; intros o Hs; cbn [flush_nodes]; [by intros [= <-]|].
  intros (n & _ & E)%bind_Some. case_decide; [by eapply IH|].
  destruct (delete_node_quiet o n) as (o1 & E1 & Hq & Hn & _). rewrite E1 in E. cbn [mbind option_bind] in E.
  eapply IH; [|exact E]. split.
  - etrans; [apply Hs|done].
  - rewrite Hn. apply tree_ok_filter, Hs.
  - rewrite Hn. intros m [_ Hm]%list_elem_of_filter. by apply Hs.
Qed.

(** A node that this pruning has reached. *)
Definition here (ni : node_id) (o : dncp) : Prop :=
  exists n, find_node o ni = Some n /\ version n = nodes_version o0 /\ last_reachable_prune n = dncp_time o0.

Lemma here_calm ni o o' : calm o o' -> here ni o -> here ni o'.
Proof. intros Hc (n & Hn & H'). exists n. by rewrite (calm_find _ _ _ Hc). Qed.

Lemma here_put ni n o : nid n ≠ ni -> here ni o -> here ni (put_node n o).
Proof. intros Hne (m & Hm & H'). exists m. split; [|done]. rewrite <- Hm. by apply get_put_ne. Qed.

Lemma here_set_reachable ni o n v o' : nid n ≠ ni -> _node_set_reachable o n v = Some o' -> here ni o -> here ni o'.
Proof.
  intros Hne. unfold _node_set_reachable. intros (o1 & E1 & E)%bind_Some Hh.
  assert (Hh1 : here ni o1).
  { destruct (bool_decide _); [|by injection E1 as <-]. apply bind_Some in E1 as (o2 & E2 & E1).
    apply (here_calm ni o2); [|apply (here_calm ni (set_network_hash_dirty true o)); [|done]].
    - etrans; [apply (calm_notify_each DNCP_CALLBACK_NODE (fun s => [NodeChange s (nid n) v]))|].
      destruct v; [by eapply calm_tlvs_changed|by injection E1 as <-].
    - destruct v; [by injection E2 as <-|by eapply calm_tlvs_changed]. }
  destruct v; [|by injection E as <-]. apply bind_Some in E as (m & Em & [= <-]).
  apply (get_node_Some (nodes o1)) in Em as [_ Em]. apply here_put; [|done]. cbn. congruence.
Qed.

(** One that is reached stays. *)
Lemma here_see ni o n v o' : prune_state o -> here ni o -> version n ≠ nodes_version o -> find_node o (nid n) = Some n ->
  forall n1, find_node (refresh_node o n) (nid n) = Some n1 -> _node_set_reachable (refresh_node o n) n1 v = Some o' -> here ni o'.
Proof.
  intros Hs Hh Hv Hf n1 E1 E. assert (Hne : nid n ≠ ni).
  { intros <-. destruct Hh as (m & Hm & Hvm & _). rewrite (quiet_version _ _ (ps_quiet _ Hs)) in Hv. congruence. }
  apply (get_node_Some (nodes (refresh_node o n))) in E1 as [_ E1].
  eapply (here_set_reachable ni); [|exact E|by apply here_put]. congruence.
Qed.

Lemma here_rec ni fuel o x o' : prune_state o -> here ni o -> _prune_rec fuel o x = Some o' -> prune_state o' /\ here ni o'.
Proof.
  intros Hs Hh. apply (prune_rec_ind (fun o => prune_state o /\ here ni o)); [| |done]; clear o x o' Hs Hh.
  - intros o o' Hc [Hs Hh]. split; [by eapply prune_state_calm|by eapply here_calm].
  - intros o n n1 o' [Hs Hh] Hf Hv E1 E. split; [|by eapply here_see].
    apply (prune_state_set_reachable (refresh_node o n) n1 true); [|by apply (get_node_Some (nodes _)) in E1 as [? _]|done].
    apply prune_state_refresh; [done|]. by apply (get_node_Some (nodes o)) in Hf as [? _].
Qed.

Lemma here_reach o n n1 o' : prune_state o -> find_node o (nid n) = Some n -> find_node (refresh_node o n) (nid n) = Some n1 ->
  _node_set_reachable (refresh_node o n) n1 true = Some o' -> here (nid n) o'.
Proof.
  intros Hs Hf E1 E. set (n' := set_version (nodes_version o) n) in *.
  assert (n1 = n') as ->.
  { change (get_node (put n' (nodes o)) (nid n') = Some n1) in E1. rewrite (get_put n' _ n Hf) in E1. congruence. }
  unfold _node_set_reachable in E. apply bind_Some in E as (o1 & E2 & E). apply bind_Some in E as (m & Em & [= <-]).
  assert (Hc : base o1 = base o /\ nodes o1 = put n' (nodes o)).
  { destruct (bool_decide _); [|by injection E2 as <-]. cbn [mbind option_bind] in E2.
    assert (Hc : calm (set_network_hash_dirty true (refresh_node o n)) o1).
    { etrans; [apply (calm_notify_each DNCP_CALLBACK_NODE (fun s => [NodeChange s (nid n) true]))|by eapply calm_tlvs_changed]. }
    destruct Hc as ((Hb & _) & Hn & _). split; [exact Hb|exact Hn]. }
  destruct Hc as [Hb Hn]. change (get_node (nodes o1) (nid n') = Some m) in Em. rewrite Hn in Em. rewrite (get_put n' _ n Hf) in Em. injection Em as <-.
  exists (set_last_reachable_prune (dncp_time o1) n'). split; [|split].
  - change (get_node (put (set_last_reachable_prune (dncp_time o1) n') (nodes o1)) (nid (set_last_reachable_prune (dncp_time o1) n')) = Some (set_last_reachable_prune (dncp_time o1) n')).
    rewrite Hn. apply (get_put _ _ n'). exact (get_put n' _ n Hf).
  - exact (quiet_version _ _ (ps_quiet _ Hs)).
  - cbn. rewrite (base_field dncp_time o o1) by done. exact (quiet_time _ _ (ps_quiet _ Hs)).
Qed.

(** A node that is live is reached when the flood starts from it. *)
Lemma here_start fuel o n o' : prune_state o -> find_node o (nid n) = Some n -> version n ≠ nodes_version o ->
  dncp_time o < expiration_time n -> _prune_rec fuel o (nid n) = Some o' -> here (nid n) o'.
Proof.
  intros Hs Hf Hv Hx. destruct fuel as [|fuel]; [done|]. cbn [_prune_rec]. rewrite Hf, !decide_False by lia || done.
  intros (n1 & E1 & (o1 & E2 & (n2 & E3 & ([o2 ps] & E4 & E)%bind_Some)%bind_Some)%bind_Some)%bind_Some.
  pose proof (get_node_Some (nodes o) _ _ Hf) as [Hn _]. pose proof (get_node_Some (nodes (refresh_node o n)) _ _ E1) as [Hn1 _].
  assert (Hs1 : prune_state o1) by (eapply prune_state_set_reachable; [by apply prune_state_refresh|exact Hn1|exact E2]).
  assert (Hh1 : here (nid n) o1) by (exact (here_reach o n n1 o1 Hs Hf E1 E2)).
  apply (flood_ind (fun o => prune_state o /\ here (nid n) o) fuel (nid n) ps o2 o').
  - intros o3 o4 Hc [? ?]. split; [by eapply prune_state_calm|by eapply here_calm].
  - intros o3 x o4 [? ?]. by apply here_rec.
  - apply calm_node_peers in E4. split; [by eapply prune_state_calm|by eapply here_calm].
  - exact E.
Qed.

Lemma here_keep ni ids o g t o' t' : prune_state o -> here ni o -> prune_keep o ids g t = Some (o', t') -> here ni o'.
Proof.
  revert o t. induction ids as [|x ids IH]; intros o t Hs Hh; cbn [prune_keep]; [by intros [= <- _]|].
  intros (n & En & E)%bind_Some. pose proof (get_node_Some (nodes o) _ _ En) as [Hn <-].
  case_decide; [by eapply IH|]. case_decide; [by eapply IH|].
  apply bind_Some in E as (n1 & E1 & E). apply bind_Some in E as (o1 & E2 & E). eapply (IH o1); [|by eapply here_see|exact E].
  eapply prune_state_set_reachable; [by apply prune_state_refresh| |exact E2]. by apply (get_node_Some (nodes _)) in E1 as [? _].
Qed.

Lemma here_flush ni ids o o' : prune_state o -> here ni o -> flush_nodes o ids = Some o' -> here ni o'.
Proof.
  revert o. induction ids as [|x ids IH]; intros o Hs Hh; cbn [flush_nodes]; [by intros [= <-]|].
  intros (n & En & E)%bind_Some. case_decide as Ev; [by eapply IH|]. apply bind_Some in E as (o1 & E1 & E).
  eapply (IH o1); [eapply (prune_state_flush [x] o); [done|]; cbn [flush_nodes]; rewrite En; cbn [mbind option_bind]; by rewrite decide_False, E1| |exact E].
  destruct (delete_node_quiet o n) as (o2 & E2 & _ & Hn2 & _). assert (o2 = o1) as -> by congruence.
  destruct Hh as (m & Hm & Hvm & Hlm). exists m. split; [|done]. rewrite (quiet_version _ _ (ps_quiet _ Hs)) in Ev.
  apply (get_node_Some (nodes o)) in En as [En <-], Hm as [Hm <-].
  change (get_node (nodes o1) (nid m) = Some m). rewrite Hn2. apply get_node_elem.
  - eapply sublist_NoDup; [eapply tree_NoDup, Hs|]. apply fmap_sublist, sublist_filter.
  - apply list_elem_of_filter. split; [|done]. intros E'.
    rewrite (elem_unique (nodes o) m n) in Hvm; [done|eapply tree_NoDup, Hs|done..].
Qed.
End pruned.

(** ** Pruning that does not mark the network hash dirty *)

Section still.
Context `{!DncpExt, !DncpCallbacks, !Passive}.
Context (o0 : dncp).

(** The same node but for what pruning writes; [n] is after. *)
Record kin (m n : node) : Prop := {
  kin_nid : nid n = nid m;
  kin_state : update_number n = update_number m /\ node_data_hash n = node_data_hash m /\
              node_data_hash_dirty n = node_data_hash_dirty m;
  kin_seen : (version n = version m /\ last_reachable_prune n = last_reachable_prune m) \/
    (version n = nodes_version o0 /\ last_reachable_prune n = dncp_time o0 /\
     last_reachable_prune m = last_prune o0) \/
    (version n = nodes_version o0 /\ last_reachable_prune n = last_reachable_prune m /\
     last_reachable_prune m ≠ last_prune o0)
}.

(** A state that shows no change of reachability so far. *)
Definition still (o : dncp) : Prop := quiet o0 o /\
  (network_hash_dirty o = false -> network_hash_dirty o0 = false /\ Forall2 kin (nodes o0) (nodes o)).

Lemma still_start : still o0.
Proof.
  split; [done|]. intros Hd. split; [done|]. induction (nodes o0); constructor; [|done]. split; [done..|by left].
Qed.

Lemma still_calm o o' : calm o o' -> still o -> still o'.
Proof. intros (Hq & Hn & Hd) (Hq' & Hs). split; [by etrans|]. by rewrite Hn, Hd. Qed.

Lemma still_dirty o o' : quiet o o' -> network_hash_dirty o' = true -> still o -> still o'.
Proof. intros Hq Hd [Hq' _]. split; [by etrans|]. congruence. Qed.

Lemma Forall2_put n ns0 ns : Forall2 kin ns0 ns ->
  (forall m x, kin m x -> x ∈ ns -> nid x = nid n -> kin m n) -> Forall2 kin ns0 (put n ns).
Proof.
  intros Hk Hn. unfold put. induction Hk as [|m x ns0 ns Hx Hk IH]; [constructor|]. rewrite fmap_cons. constructor.
  - case_decide; [|done]. apply (Hn m x); [done|by left|done].
  - apply IH. intros m' x' ? ?. apply Hn; [done|by right].
Qed.

(** A node that was not seen yet is reached, or found unreachable. *)
Lemma still_see o n n1 v o' : still o -> NoDup (nid <$> nodes o) -> n ∈ nodes o -> version n ≠ nodes_version o ->
  find_node (refresh_node o n) (nid n) = Some n1 -> _node_set_reachable (refresh_node o n) n1 v = Some o' -> still o'.
Proof.
  intros [Hq Hs] Hnd Hn Hv E1 E.
  assert (n1 = set_version (nodes_version o) n) as ->.
  { change (get_node (put (set_version (nodes_version o) n) (nodes o)) (nid (set_version (nodes_version o) n)) = Some n1) in E1.
    rewrite (get_put (set_version (nodes_version o) n) _ n (get_node_elem _ _ Hnd Hn)) in E1. congruence. }
  unfold _node_set_reachable in E. cbv zeta in E. apply bind_Some in E as (o1 & E2 & E).
  change (reachable (refresh_node o n) (set_version (nodes_version o) n)) with (reachable o n) in E2.
  destruct (bool_decide (reachable o n ≠ v)) eqn:Er.
  { apply bind_Some in E2 as (o2 & E3 & E2).
    assert (Hc : calm (set_network_hash_dirty true (refresh_node o n)) o1).
    { trans o2; [destruct v; [by injection E3 as <-|by eapply calm_tlvs_changed]|].
      etrans; [apply (calm_notify_each DNCP_CALLBACK_NODE (fun s => [NodeChange s (nid n) v]))|].
      destruct v; [by eapply calm_tlvs_changed|by injection E2 as <-]. }
    assert (Hq1 : quiet o o1).
    { etrans; [|apply calm_quiet, Hc]. etrans; [apply quiet_put_node|apply quiet_network_hash_dirty]. }
    assert (Hd1 : network_hash_dirty o1 = true) by apply Hc.
    destruct v; [|injection E as <-; by eapply still_dirty].
    apply bind_Some in E as (m & _ & [= <-]). eapply (still_dirty o); [|done|done].
    etrans; [exact Hq1|apply quiet_put_node]. }
  injection E2 as <-. apply bool_decide_eq_false in Er. apply dec_stable in Er. subst v.
  pose proof (quiet_version _ _ Hq) as Eve. pose proof (quiet_time _ _ Hq) as Eti. pose proof (quiet_last_prune _ _ Hq) as Elp.
  assert (Hkin : forall m x, kin m x -> x ∈ nodes o -> nid x = nid n ->
    x = n /\ version n = version m /\ last_reachable_prune n = last_reachable_prune m /\ kin m n).
  { intros m x Hk Hx Ex. assert (x = n) as -> by (by apply (elem_unique (nodes o))). split; [done|].
    destruct (kin_seen _ _ Hk) as [[? ?]|[(? & _)|(? & _)]]; [done|congruence|congruence]. }
  destruct (reachable o n) eqn:Er; unfold reachable in Er.
  - change (find_node (refresh_node o n) (nid (set_version (nodes_version o) n)))
      with (find_node (refresh_node o n) (nid n)) in E. rewrite E1 in E. injection E as <-.
    apply bool_decide_eq_true in Er. split; [do 2 (etrans; [|apply quiet_put_node]); done|]. intros Hd.
    destruct (Hs Hd) as [Hd0 Hk]. split; [done|].
    change (Forall2 kin (nodes o0) (put (set_last_reachable_prune (dncp_time o) (set_version (nodes_version o) n))
      (put (set_version (nodes_version o) n) (nodes o)))).
    rewrite put_put by done. apply Forall2_put; [done|]. intros m x Hmx Hx Ex.
    destruct (Hkin m x Hmx Hx Ex) as (_ & _ & El & Hk'). split; [apply Hk'|apply Hk'|].
    right; left. cbn. rewrite Eve, Eti. split; [done|]. split; [done|]. congruence.
  - injection E as <-. apply bool_decide_eq_false in Er. split; [etrans; [|apply quiet_put_node]; done|]. intros Hd.
    destruct (Hs Hd) as [Hd0 Hk]. split; [done|]. apply Forall2_put; [done|]. intros m x Hmx Hx Ex.
    destruct (Hkin m x Hmx Hx Ex) as (_ & _ & El & Hk'). split; [apply Hk'|apply Hk'|].
    right; right. cbn. rewrite Eve. split; [done|]. split; [done|]. congruence.
Qed.

Lemma prune_state_NoDup o : prune_state o0 o -> NoDup (nid <$> nodes o).
Proof. intros Hs. eapply tree_NoDup, Hs. Qed.

Lemma still_rec fuel o ni o' : prune_state o0 o -> still o -> _prune_rec fuel o ni = Some o' -> still o'.
Proof.
  intros Hp Hs. apply (prune_rec_ind (fun o => prune_state o0 o /\ still o)); [| |done]; clear o ni o' Hp Hs.
  - intros o o' Hc [Hp Hs]. split; [by eapply prune_state_calm|by eapply still_calm].
  - intros o n n1 o' [Hp Hs] Hf Hv E1 E. pose proof (get_node_Some (nodes o) _ _ Hf) as [Hn _]. split.
    + apply (prune_state_set_reachable o0 (refresh_node o n) n1 true); [by apply prune_state_refresh| |done].
      by apply (get_node_Some (nodes _)) in E1 as [? _].
    + eapply still_see; [done|by apply prune_state_NoDup|done|done|exact E1|exact E].
Qed.

Lemma still_keep ids o g t o' t' : prune_state o0 o -> still o -> prune_keep o ids g t = Some (o', t') -> still o'.
Proof.
  revert o t. induction ids as [|ni ids IH]; intros o t Hp Hs; cbn [prune_keep]; [by intros [= <- _]|].
  intros (n & En & E)%bind_Some. apply (get_node_Some (nodes o)) in En as [Hn <-].
  case_decide; [by eapply IH|]. case_decide; [by eapply IH|].
  apply bind_Some in E as (n1 & E1 & E). apply bind_Some in E as (o1 & E2 & E).
  eapply IH; [| |exact E].
  - eapply prune_state_set_reachable; [|apply (get_node_Some (nodes (refresh_node o n))) in E1; apply E1|exact E2].
    by apply prune_state_refresh.
  - eapply still_see; [done|by apply prune_state_NoDup|done|done|exact E1|exact E2].
Qed.

(** A flush that deletes nothing. *)
Lemma flush_clean ids o o' : flush_nodes o ids = Some o' -> network_hash_dirty o' = false ->
  o' = o /\ forall ni, ni ∈ ids -> exists n, find_node o ni = Some n /\ version n = nodes_version o.
Proof.
  revert o. induction ids as [|ni ids IH]; intros o; cbn [flush_nodes].
  { intros [= <-] _. split; [done|]. by intros ni ?%elem_of_nil. }
  intros (n & En & E)%bind_Some Hd. case_decide as Ev.
  - destruct (IH o E Hd) as [-> Hids]. split; [done|]. intros x [->|Hx]%elem_of_cons; [by eauto|by apply Hids].
  - destruct (delete_node_quiet o n) as (o1 & E1 & _ & _ & Hd1). rewrite E1 in E. cbn [mbind option_bind] in E.
    destruct (IH o1 E Hd) as [-> _]. congruence.
Qed.

(** When nothing was marked, the nodes reachable now were reachable before. *)
Lemma still_reachable o : still o -> network_hash_dirty o = false ->
  (forall m, m ∈ nodes o0 -> version m ≠ nodes_version o0 /\ last_reachable_prune m < dncp_time o0) ->
  (forall n, n ∈ nodes o -> version n = nodes_version o0) ->
  Forall2 (fun m n => update_number n = update_number m /\ node_data_hash n = node_data_hash m /\
                      node_data_hash_dirty n = node_data_hash_dirty m)
    (filter (fun m => last_reachable_prune m = last_prune o0) (nodes o0))
    (filter (fun n => last_reachable_prune n = dncp_time o0) (nodes o)).
Proof.
  intros [_ Hs] Hd Hm Hn. destruct (Hs Hd) as [_ Hk]. clear Hs Hd.
  induction Hk as [|m n ns0 ns Hk _ IH]; [constructor|]. rewrite !filter_cons.
  specialize (IH ltac:(intros; apply Hm; by right) ltac:(intros; apply Hn; by right)).
  destruct (Hm m ltac:(by left)) as [Hvm Hlm]. specialize (Hn n ltac:(by left)).
  destruct (kin_seen _ _ Hk) as [[? ?]|[(_ & E1 & E2)|(_ & E1 & E2)]]; [congruence| |].
  - rewrite !decide_True by done. constructor; [apply Hk|done].
  - rewrite !decide_False by (done || lia). done.
Qed.

Lemma network_state_Forall2 ms ns :
  Forall2 (fun m n => update_number n = update_number m /\ node_data_hash n = node_data_hash m /\
                      node_data_hash_dirty n = node_data_hash_dirty m) ms ns ->
  network_state ns = network_state ms /\
  ((forall m, m ∈ ms -> node_data_hash_dirty m = false) -> forall n, n ∈ ns -> node_data_hash_dirty n = false).
Proof.
  induction 1 as [|m n ms ns (Eu & Eh & Ed) _ [IHs IHd]]; [split; [done|]; intros _ n ?%elem_of_nil; done|].
  split; [unfold network_state in *; cbn [flat_map]; by rewrite Eu, Eh, IHs|].
  intros Hms x [->|Hx]%elem_of_cons; [rewrite Ed; apply Hms; by left|].
  apply IHd; [|done]. intros y Hy. apply Hms. by right.
Qed.
End still.

(** ** The timeout handler *)

Section timeouts.
Context `{!DncpExt, !DncpCallbacks, !Passive}.

Lemma reachable_nodes_filter o :
  reachable_nodes o = filter (fun n => last_reachable_prune n = last_prune o) (nodes o).
Proof. apply filter_ext_in. intros n _. unfold reachable. apply bool_decide_eq_true. Qed.

(** Our own node has not expired. *)
Definition own_live (o : dncp) : Prop :=
  forall n, own_node o = Some (nid n) -> find_node o (nid n) = Some n -> clock o < expiration_time n.

Lemma inv_prune o o' : inv o -> last_prune o < clock o -> own_live o -> dncp_prune o = Some o' -> inv o'.
Proof.
  intros Hi Hlt Hlive. pose proof (time_ok_clock _ (inv_time _ Hi)) as Htime. unfold dncp_prune.
  rewrite decide_False by lia. cbv zeta. set (o1 := set_nodes_version (nodes_version o + 1) o).
  intros (own & Hown & (o2 & E2 & ([o3 t] & E3 & (o4 & E4 & [= <-])%bind_Some)%bind_Some)%bind_Some)%bind_Some.
  assert (Hold : forall m, m ∈ nodes o1 -> version m ≠ nodes_version o1 /\ last_reachable_prune m < dncp_time o1).
  { intros m Hm. pose proof (tr_version _ _ _ (inv_tree _ Hi) m Hm). pose proof (tr_reachable _ _ _ (inv_tree _ Hi) m Hm).
    change (dncp_time o1) with (dncp_time o). cbn. lia. }
  assert (Hp1 : prune_state o1 o1).
  { split; [done| |by eauto]. eapply tree_ok_mono; [apply Hi|cbn; lia|]. change (dncp_time o1) with (dncp_time o). lia. }
  destruct (inv_own_node _ Hi) as (n0 & Hown0 & Hf0). assert (own = nid n0) as -> by (cbn in Hown; congruence).
  assert (Hh2 : here o1 (nid n0) o2).
  { apply (here_start o1 (length (nodes o1) + 1)%nat o1 n0 o2 Hp1 Hf0); [by apply (get_node_Some (nodes o)) in Hf0 as [? _]; apply Hold| |exact E2].
    change (dncp_time o1) with (dncp_time o). rewrite Htime. by apply Hlive. }
  pose proof (still_rec o1 _ _ _ _ Hp1 (still_start o1) E2) as Hs2. apply (prune_state_rec o1) in E2; [|done].
  pose proof (here_keep o1 _ _ _ _ _ _ _ E2 Hh2 E3) as Hh3.
  pose proof (still_keep o1 _ _ _ _ _ _ E2 Hs2 E3) as Hs3. apply (prune_state_keep o1) in E3; [|done].
  assert (Hp3 : prune_state (set_next_prune t o1) (set_next_prune t o3)).
  { destruct E3 as [[Hb Hw] Ht Hd]. split; [|done|done]. by split. }
  pose proof (flush_clean _ _ _ E4) as Hclean. pose proof (here_flush (set_next_prune t o1) _ _ _ _ Hp3 Hh3 E4) as (n4 & Hf4 & _ & Hl4).
  apply (prune_state_flush (set_next_prune t o1)) in E4; [|done].
  destruct E4 as [Hq Ht Hd]. pose proof Hq as [Hb _].
  assert (Hbf : forall A (f : dncp -> A), (forall o, f (base o) = f o) -> f o4 = f (set_next_prune t o1))
    by (intros; by apply base_field).
  split.
  - cbn. rewrite (Hbf _ nodes_version) by done. exact Ht.
  - apply (get_node_Some (nodes o4)) in Hf4 as [Hin4 En4]. exists n4. split; [|split; [exact Hin4|exact Hl4]].
    change (own_node o4 = Some (nid n4)). rewrite (Hbf _ own_node), En4 by done. exact Hown.
  - intros Hnd Hr. destruct (Hclean Hnd) as [-> Hids]. clear Hclean.
    assert (Hvers : forall n, n ∈ nodes o3 -> version n = nodes_version o1).
    { intros n Hn. destruct (Hids (nid n) ltac:(by apply list_elem_of_fmap_2)) as (n' & En & Ev).
      change (get_node (nodes o3) (nid n) = Some n') in En. rewrite (get_node_elem (nodes o3) n) in En by (done || by eapply prune_state_NoDup). injection En as <-.
      rewrite Ev. exact (quiet_version _ _ (ps_quiet _ _ E3)). }
    pose proof (still_reachable o1 o3 Hs3 Hnd Hold Hvers) as HF.
    apply network_state_Forall2 in HF as [Hst Hdt].
    assert (Hd0 : network_hash_dirty o = false) by (destruct Hs3 as [_ Hs3]; by destruct (Hs3 Hnd)).
    assert (Hr0 : republish_tlvs o = false).
    { rewrite <- Hr. symmetry. exact (base_field republish_tlvs o1 o3 ltac:(done) (proj1 (ps_quiet _ _ E3))). }
    destruct (inv_net _ Hi Hd0 Hr0) as [Hh Hcl]. rewrite reachable_nodes_filter in Hh, Hcl.
    rewrite !reachable_nodes_filter. split; [|exact (Hdt Hcl)].
    etrans; [exact (base_field network_hash o1 o3 ltac:(done) (proj1 (ps_quiet _ _ E3)))|].
    etrans; [exact Hh|]. f_equal. symmetry. exact Hst.
  - apply Hq. apply Hi.
  - split; cbn.
    + rewrite (Hbf _ clock) by done. cbn. pose proof (inv_time _ Hi) as [[? ?] _]. lia.
    + rewrite (Hbf _ clock), (Hbf _ now) by done. apply Hi.
Qed.

Lemma calm_dropped v o : calm o (set_num_neighbor_dropped v o).
Proof. by apply calm_fields. Qed.

Lemma calm_set_keepalive o e v : calm o (ep_i_set_keepalive_interval o e v).
Proof.
  unfold ep_i_set_keepalive_interval. case_decide; [done|]. cbv zeta. etrans; [|apply calm_put_ep].
  match goal with |- context [if decide (v ≠ _) then ?f else _] => idtac end.
  set (o1 := if decide (published_keepalive_interval e ≠ _) then _ else o). trans o1.
  - unfold o1. case_decide; [apply calm_remove_tlv_matching|done].
  - case_decide; [|done]. apply calm_add_tlv. split; [cbn; unfold DNCP_T_KEEPALIVE_INTERVAL; lia|].
    cbn [snd]. unfold keepalive_data. rewrite length_app, length_host32, length_be32. lia.
Qed.

Lemma calm_trickle_upgrade o t e o' : trickle_upgrade o t e = Some o' -> calm o o'.
Proof. unfold trickle_upgrade. intros E. bind_inv. by eapply calm_trickle_set_i. Qed.

Lemma tame_send_nocheck o t e dst o' : trickle_send_nocheck o t e dst = Some o' -> tame o o'.
Proof.
  unfold trickle_send_nocheck. intros (o1 & E1 & (tr & _ & E)%bind_Some)%bind_Some.
  etrans; [by eapply calm_tame, calm_upd_trickle|]. by eapply tame_send_network_state.
Qed.

Lemma tame_trickle_send o t e dst o' : trickle_send o t e dst = Some o' -> tame o o'.
Proof.
  unfold trickle_send. intros (tr & _ & (o1 & E1 & E)%bind_Some)%bind_Some.
  etrans; [|by eapply calm_tame, calm_upd_trickle]. destruct (_ && _); [by eapply tame_send_nocheck|].
  by eapply calm_tame, calm_upd_trickle.
Qed.

Lemma tame_handle_keepalive o t e dst o' n : handle_keepalive o t e dst = Some (o', n) -> tame o o'.
Proof.
  unfold handle_keepalive. intros (tr & _ & E)%bind_Some. case_decide; [by injection E as <- _|].
  case_decide; [|by injection E as <- _].
  apply bind_Some in E as (o1 & E1 & E). apply bind_Some in E as (tr1 & _ & E). apply bind_Some in E as (o2 & E2 & E).
  apply bind_Some in E as (tr2 & _ & [= <- _]).
  etrans; [by eapply tame_send_nocheck|]. by eapply calm_tame, calm_trickle_set_i.
Qed.

Lemma tame_handle_trickle o t e dst o' n : handle_trickle_and_ka o t e dst = Some (o', n) -> tame o o'.
Proof.
  unfold handle_trickle_and_ka. intros ([o1 nx] & E1 & (tr & _ & (o2 & E2 & (tr2 & _ & [= <- _])%bind_Some)%bind_Some)%bind_Some)%bind_Some.
  etrans; [by eapply tame_handle_keepalive|]. case_decide; [by eapply calm_tame, calm_trickle_upgrade|].
  case_decide; [by eapply tame_trickle_send|by injection E2 as <-].
Qed.

Lemma calm_neighbor_interval o ne o' v : _neighbor_interval o ne = Some (o', v) -> calm o o'.
Proof.
  unfold _neighbor_interval. destruct (find_node o (pe_nid ne)); intros E; bind_inv; [|done]. by eapply calm_node_tlvs.
Qed.

Lemma tame_timeout_ep o id next o' next' : timeout_ep o id next = Some (o', next') -> tame o o'.
Proof.
  unfold timeout_ep. intros (l & _ & E)%bind_Some. cbv zeta in E. destruct (negb (enabled l)); [by injection E as <- _|].
  apply bind_Some in E as ([o1 n1] & E1 & E). apply bind_Some in E as (l1 & _ & E). apply bind_Some in E as (l2 & _ & E).
  trans o1.
  { case_decide; [|by injection E1 as <- _]. case_decide; [|by injection E1 as <- _].
    apply bind_Some in E1 as (o2 & E2 & [= <- _]). apply calm_tame. etrans; [by eapply calm_reply_send|apply calm_put_ep]. }
  etrans; [apply calm_tame, calm_set_keepalive|]. destruct (unicast_only (conf l2)); [by injection E as <- _|].
  apply bind_Some in E as ([o3 n3] & E3 & [= <- _]). by eapply tame_handle_trickle.
Qed.

Lemma tame_timeout_eps ids o next o' next' : timeout_eps o ids next = Some (o', next') -> tame o o'.
Proof.
  revert o next. induction ids as [|id ids IH]; intros o next; cbn [timeout_eps]; [by intros [= <- _]|].
  intros ([o1 n1] & E1 & E)%bind_Some. etrans; [by eapply tame_timeout_ep|by eapply IH].
Qed.

Lemma tame_timeout_peer o u ne next o' next' : timeout_peer o u ne next = Some (o', next') -> tame o o'.
Proof.
  unfold timeout_peer. intros (l & _ & (x & _ & E)%bind_Some)%bind_Some.
  apply bind_Some in E as ([o1 iv] & E1 & E). apply bind_Some in E as ([o2 n2] & E2 & E).
  etrans; [by eapply calm_tame, calm_neighbor_interval|]. trans o2.
  { destruct (unicast_only (conf l)); [|by injection E2 as <- _]. apply bind_Some in E2 as ([o3 n3] & E3 & [= <- _]).
    by eapply tame_handle_trickle. }
  destruct (_ && _); [by injection E as <- _|]. case_decide; [by injection E as <- _|].
  match type of E with Some (?a, _) = _ => assert (o' = a) as -> by congruence end.
  apply calm_tame. etrans; [apply (calm_remove_tlv o2 (Some u))|apply calm_dropped].
Qed.

Lemma tame_timeout_peers keys o next o' next' : timeout_peers o keys next = Some (o', next') -> tame o o'.
Proof.
  revert o next. induction keys as [|k keys IH]; intros o next; cbn [timeout_peers]; [by intros [= <- _]|].
  destruct (find_tlv o k) as [u|]; [|apply IH]. destruct (dncp_tlv_peer k) as [ne|]; [|apply IH].
  intros ([o1 n1] & E1 & E)%bind_Some. etrans; [by eapply tame_timeout_peer|by eapply IH].
Qed.

Lemma inv_republish o : inv o -> inv (set_republish_tlvs true o).
Proof. intros []. by split. Qed.

Lemma inv_roll_over o next o' next' : roll_over o next = Some (o', next') -> inv o -> inv o'.
Proof.
  unfold roll_over. destruct (_ || _); [by intros [= <- _]|].
  intros (own & _ & (n & _ & E)%bind_Some)%bind_Some Hi. case_decide; injection E as <- _; [by apply inv_republish|done].
Qed.

Lemma inv_maybe_prune o next o' next' : maybe_prune o next = Some (o', next') -> own_live o -> inv o -> inv o'.
Proof.
  unfold maybe_prune. destruct (disable_prune o); [by intros [= <- _]|]. cbv zeta.
  set (o1 := if graph_dirty o then _ else _). intros (o2 & E & [= <- _])%bind_Some Ho Hi.
  assert (Hc : calm o o1) by (unfold o1; destruct (graph_dirty o); [by apply calm_fields|done]).
  assert (Ho1 : own_live o1) by (unfold o1; by destruct (graph_dirty o)).
  apply (inv_calm _ _ Hc) in Hi. clearbody o1. destruct (_ && _); [|by injection E as <-].
  apply (inv_prune (set_graph_dirty false o1)); [| |exact Ho1|done].
  - eapply inv_calm; [apply calm_graph_dirty|done].
  - pose proof (inv_time _ Hi) as Ht. pose proof (time_ok_clock _ Ht) as Ec. unfold dncp_prune in E. cbv zeta in E.
    case_decide as Ed; [done|]. change (dncp_time (set_graph_dirty false o1)) with (dncp_time o1) in Ed. cbn in *.
    destruct Ht. lia.
Qed.

(** A timeout renews our data: it was received from elsewhere or has rolled over, or the
    local TLVs have changed. *)
Definition renews (o : dncp) (n : node) : Prop :=
  republish_tlvs o = true \/
  if tlvs_dirty o then snd <$> _produce_new_tlvs o n ≠ Some None
  else origination_time n + 2 ^ 32 - 2 ^ 16 <= clock o.

Lemma renews_now o n : renews o n -> renews (set_immediate_scheduled true (set_now (clock o) o)) n.
Proof.
  unfold renews. cbn [tlvs_dirty republish_tlvs set_immediate_scheduled set_now clock]. intros [?|Hr]; [by left|right].
  destruct (tlvs_dirty o) eqn:Hd; [|done]. intros E. apply Hr. revert E. unfold _produce_new_tlvs. cbn [tlvs_dirty set_immediate_scheduled set_now tlvs].
  rewrite Hd. destruct (tlv_buf_init _ _) as [b0|]; [|done]. cbn [mbind option_bind]. destruct (put_all_raw _ _) as [b1|]; [|done].
  cbn [mbind option_bind]. destruct (tlv_fill_pad _ _) as [m|]; [|done]. cbn [mbind option_bind]. by destruct (tlv_payload _ _).
Qed.

(** A timeout that comes before our data expires, or renews it. *)
Definition in_time (o : dncp) : Prop :=
  forall n, own_node o = Some (nid n) -> find_node o (nid n) = Some n -> clock o < expiration_time n \/ renews o n.

Lemma flush_live o o2 nx o3 : inv o -> now o = clock o -> in_time o -> roll_over o 0 = Some (o2, nx) -> dncp_self_flush o2 = Some o3 ->
  own_live o3.
Proof.
  intros Hi Hnow Hin E2 E3. destruct (inv_own_node _ Hi) as (n & Ho & Hf). specialize (Hin n Ho Hf).
  assert (Hi2 : inv o2) by (by eapply inv_roll_over). 
  assert (E2' : o2 = o /\ (tlvs_dirty o = false -> republish_tlvs o = false -> clock o < origination_time n + 2 ^ 32 - 2 ^ 16) \/
    o2 = set_republish_tlvs true o).
  { unfold roll_over in E2. destruct (tlvs_dirty o) eqn:Hd, (republish_tlvs o) eqn:Hr; cbn [orb] in E2; [left; by injection E2 as <- _..|].
    rewrite Ho in E2. cbn [mbind option_bind] in E2. rewrite Hf in E2. cbn [mbind option_bind] in E2. cbv zeta in E2.
    case_decide; injection E2 as <- _; [by right|left]. split; [done|]. rewrite Hnow in *. lia. }
  assert (Ho2 : own_node o2 = Some (nid n) /\ find_node o2 (nid n) = Some n /\ clock o2 = clock o)
    by (destruct E2' as [[-> _]| ->]; done).
  destruct Ho2 as (Ho2 & Hf2 & Hc2). destruct (self_flush_cases o2 o3 n Hi2 Ho2 Hf2 E3) as (a & Ea & Hcase).
  destruct Hcase as [(-> & Hr & ->)|(_ & a2 & o4 & n' & E4 & _ & Hf' & _ & Hx & _ & _ & Ho' & Hq)].
  - destruct E2' as [[-> Hroll]| ->]; [|done]. intros m Hm Hfm. change (own_node o = Some (nid m)) in Hm.
    assert (nid m = nid n) as Em by congruence. change (find_node o (nid m) = Some m) in Hfm. rewrite Em, Hf in Hfm. injection Hfm as <-.
    destruct Hin as [?|[?|Hn]]; [done|congruence|]. destruct (tlvs_dirty o); [by rewrite Ea in Hn|]. specialize (Hroll eq_refl Hr). lia.
  - intros m Hm Hfm. rewrite Ho', Ho2 in Hm. injection Hm as Em. rewrite <- Em, Hf' in Hfm. injection Hfm as <-.
    assert (clock o3 = clock o2) as ->; [|done]. destruct Hq as [Hb _]. rewrite (base_field clock o4 o3) by done.
    rewrite (produce_new_tlvs_state _ _ _ _ E4). cbn.
    pose proof (calm_clock _ _ (calm_notify_each DNCP_CALLBACK_REPUBLISH (fun s => [RepublishTlvs s]) (set_tlvs_dirty false o2))) as Hck. exact Hck.
Qed.

Lemma inv_ext_timeout o o' : inv o -> in_time o -> dncp_ext_timeout o = Some o' -> inv o'.
Proof.
  intros Hi Hin. unfold dncp_ext_timeout. cbv zeta. set (o1 := set_immediate_scheduled true (set_now (clock o) o)).
  assert (Hi1 : inv o1).
  { destruct Hi as [? ? ? ? [? ?]]. split; try done. split; [done|by right]. }
  assert (Hin1 : in_time o1) by (intros n Ho Hf; destruct (Hin n Ho Hf) as [?|Hr]; [by left|right; by apply renews_now]).
  intros ([o2 n2] & E2 & (o3 & E3 & ([o4 n4] & E4 & E)%bind_Some)%bind_Some)%bind_Some.
  pose proof (flush_live o1 o2 n2 o3 Hi1 eq_refl Hin1 E2 E3) as Hlive.
  apply (inv_roll_over _ _ _ _ E2) in Hi1. apply (inv_self_flush _ o3) in Hi1; [|done].
  apply bind_Some in E as (o5 & E5 & E). apply bind_Some in E as ([o6 n6] & E6 & E).
  apply bind_Some in E as ([o7 n7] & E7 & [= <-]).
  assert (Ht : tame (set_immediate_scheduled false o4) o7).
  { etrans; [by eapply tame_network_hash|]. etrans; [by eapply tame_timeout_eps|]. by eapply tame_timeout_peers. }
  set (o8 := if _ && _ then _ else o7).
  assert (Hc8 : calm o7 o8) by (unfold o8; destruct (_ && _); [apply calm_emit|done]). clearbody o8.
  apply (inv_maybe_prune _ _ _ _ E4) in Hi1; [|done].
  apply (inv_calm _ (set_immediate_scheduled false o4)) in Hi1; [|by apply calm_fields].
  apply Ht in Hi1. apply (inv_calm _ _ Hc8) in Hi1. destruct Hi1 as [? ? ? ? [? ?]]. split; try done. split; [done|by left].
Qed.

Lemma inv_ext_ep_ready o id on o' : dncp_ext_ep_ready o id on = Some o' -> calm o o'.
Proof.
  unfold dncp_ext_ep_ready. intros (l & _ & E)%bind_Some. destruct (Bool.eqb _ _); [by injection E as <-|]. cbv zeta in E.
  apply bind_Some in E as (o1 & E1 & [= <-]). etrans; [|apply calm_notify_each]. destruct on.
  - apply bind_Some in E1 as (o2 & E2 & E1). apply bind_Some in E1 as (o3 & E3 & [= <-]).
    etrans; [|apply calm_schedule]. etrans; [|by eapply calm_upd_trickle]. etrans; [|by eapply calm_trickle_set_i].
    apply calm_put_ep.
  - apply bind_Some in E1 as (l1 & _ & [= <-]). etrans; [|apply calm_set_keepalive].
    etrans; [apply calm_put_ep|]. unfold remove_peers_of.
    assert (H' : forall us o, calm o (foldl (fun o u => match dncp_tlv_peer (tlv u) with
      | Some ne => if decide (pe_ep_id ne = id) then dncp_remove_tlv o (Some u) else o | None => o end) o us)).
    { induction us as [|u us IH]; intros o2; [done|]. cbn [foldl]. etrans; [|apply IH].
      destruct (dncp_tlv_peer (tlv u)); [|done]. case_decide; [apply calm_remove_tlv|done]. }
    apply H'.
Qed.
End timeouts.

(** ** The protocol as a transition system *)

Section system.
Context `{!DncpExt, !DncpCallbacks}.

(** One step of the daemon: time passes, or an entry point of the protocol runs
    to its end.  A timeout that finds our own data expired and does not renew it drops
    our own node; the others are considered. *)
Inductive dncp_step : dncp -> dncp -> Prop :=
| StepClock o c : now o = 0 -> clock o <= c -> dncp_step o (set_clock c o)
| StepTimeout o o' : in_time o -> dncp_ext_timeout o = Some o' -> dncp_step o o'
| StepReadable o ps o' : dncp_ext_readable o ps = Some o' -> dncp_step o o'
| StepEpReady o id on o' : dncp_ext_ep_ready o id on = Some o' -> dncp_step o o'
| StepPeerState o e local remote c o' : dncp_ext_ep_peer_state o e local remote c = Some o' -> dncp_step o o'
| StepFindEp o name : dncp_step o (dncp_find_ep_by_name o name).1
| StepAddTlv o type data x : tlv_ok (Z.of_nat type, data) -> dncp_step o (dncp_add_tlv o type data x)
| StepRemoveTlv o t : dncp_step o (dncp_remove_tlv o t)
| StepRemoveTlvs o type : dncp_step o (dncp_remove_tlvs_by_type o type).1
| StepSubscribe o s o' : dncp_subscribe o s = Some o' -> dncp_step o o'
| StepUnsubscribe o s o' : dncp_unsubscribe o s = Some o' -> dncp_step o o'
| StepOwnId o ni o' : length ni = node_id_length -> dncp_set_own_node_id o ni = Some o' -> dncp_step o o'.

(** The states of a daemon that started at time [clk]. *)
Definition dncp_reachable (o : dncp) : Prop :=
  exists clk id o0, 1 <= clk /\ dncp_init clk id = Some o0 /\ rtc dncp_step o0 o.

Context `{!Passive, !CollisionOk}.

Lemma calm_find_ep_by_name o name : calm o (dncp_find_ep_by_name o name).1.
Proof.
  unfold dncp_find_ep_by_name. case_decide; [done|]. destruct (list_find _ _) as [[]|]; [done|]. cbn.
  etrans; [|apply calm_schedule]. by apply calm_fields.
Qed.

Lemma calm_subscribe o s o' : dncp_subscribe o s = Some o' -> calm o o'.
Proof.
  unfold dncp_subscribe. cbv zeta. intros (es & _ & [= <-])%bind_Some.
  etrans; [|apply calm_call_all]. etrans; [|apply calm_call_all]. by apply calm_fields.
Qed.

Lemma calm_set_subscribers ss o : calm o (set_subscribers ss o).
Proof. by apply calm_fields. Qed.

Lemma calm_unsubscribe o s o' : dncp_unsubscribe o s = Some o' -> calm o o'.
Proof.
  unfold dncp_unsubscribe. cbv zeta. intros (es & _ & [= <-])%bind_Some.
  etrans; [|apply calm_set_subscribers]. etrans; [|apply calm_call_all]. apply calm_call_all.
Qed.

Lemma inv_step o o' : Z.of_nat (node_id_length + 8) < 65536 -> dncp_step o o' -> inv o -> inv o'.
Proof.
  intros Hlen Hstep Hi. destruct Hstep.
  - destruct Hi as [? ? ? ? [? ?]]. split; try done. split; cbn; [lia|by left].
  - by eapply inv_ext_timeout.
  - by eapply inv_ext_readable.
  - eapply inv_calm; [by eapply inv_ext_ep_ready|done].
  - by eapply tame_ep_peer_state.
  - eapply inv_calm; [apply calm_find_ep_by_name|done].
  - eapply inv_calm; [by apply calm_add_tlv|done].
  - eapply inv_calm; [apply calm_remove_tlv|done].
  - eapply inv_calm; [apply calm_remove_tlvs_by_type|done].
  - eapply inv_calm; [by eapply calm_subscribe|done].
  - eapply inv_calm; [by eapply calm_unsubscribe|done].
  - by eapply inv_set_own_node_id.
Qed.

Lemma inv_reachable o : Z.of_nat (node_id_length + 8) < 65536 ->
  (forall id, (node_id_length <= length (ext_hash id) + 32)%nat) -> dncp_reachable o -> inv o.
Proof.
  intros Hlen Hh (clk & id & o0 & Hc & Hinit & Hsteps).
  assert (Hi : inv o0) by (eapply inv_init; [|exact Hc|exact Hinit]; specialize (Hh id); lia).
  clear Hinit. induction Hsteps as [|o1 o2 o3 Hs _ IH]; [done|]. apply IH. by eapply inv_step.
Qed.

(** C1: In every state the daemon can reach from dncp_init by timeouts, received packets,
    endpoint and peer changes, TLV additions and removals, subscriptions and changes of the
    own identifier: the nodes are strictly ordered by identifier and have update numbers of
    32 bits; the own node exists and is reachable; a node data hash that is not marked dirty
    is the hash of the data of its node; and the local TLVs are strictly sorted. Assumed are
    that subscribers change nothing of DNCP but the local TLVs, through its functions; that
    the handler of an identifier collision keeps the invariant; that identifiers are shorter
    than 64 KiB and no longer than a hash and 32 bytes; and that a timeout does not come so
    late that the data of the own node has expired and is not renewed by it
    (DncpExample.own_node_dropped shows what happens then). *)
Theorem protocol_invariant o : Z.of_nat (node_id_length + 8) < 65536 ->
  (forall id, (node_id_length <= length (ext_hash id) + 32)%nat) -> dncp_reachable o ->
  StronglySorted (fun m n => memcmp (nid m) (nid n) < 0) (nodes o) /\
  (exists n, own_node o = Some (nid n) /\ find_node o (nid n) = Some n /\ reachable o n = true) /\
  (forall n, n ∈ nodes o -> length (nid n) = node_id_length /\ 0 <= update_number n < 2 ^ 32 /\ last_reachable_prune n <= last_prune o /\
     (node_data_hash_dirty n = false -> node_data_hash n = ext_hash (default [] (tlv_container n)))) /\
  tlvs_sorted (tlv <$> tlvs o).
Proof.
  intros Hlen Hh Hr. pose proof (inv_reachable o Hlen Hh Hr) as Hi. split; [apply Hi|].
  split; [|split; [|apply Hi]].
  - destruct (inv_own _ Hi) as (n & Ho & Hin & Hl). exists n. split; [done|].
    split; [by apply (get_node_elem (nodes o)), Hin; apply inv_NoDup|by apply bool_decide_eq_true].
  - intros n Hn. pose proof (inv_tree _ Hi) as Ht. split_and!; [by eapply tr_len|by apply (tr_update _ _ _ Ht n Hn)..|by eapply tr_reachable|by eapply tr_hash].
Qed.

(** What the protocol defines the network state hash to be: the hash of the
    update number and data hash of every reachable node, in the order of their
    identifiers. *)
Definition network_state_hash (ns : list node) : hash_t :=
  ext_hash (flat_map (fun n => be32 (update_number n) ++ ext_hash (default [] (tlv_container n))) ns).

(** C8: In a state reachable as for C1, whose network hash is marked dirty or whose own data is
    not waiting to be republished, calculating the network hash leaves it equal to the hash
    of the update numbers and of the hashes of the actual data of exactly the reachable
    nodes, in the order of their identifiers, and the set of reachable nodes does not
    change. The calculation returns when no Trickle interval is cut below two milliseconds
    and the local peer TLVs are those of endpoints. *)
Theorem network_hash_correct o : Z.of_nat (node_id_length + 8) < 65536 ->
  (forall id, (node_id_length <= length (ext_hash id) + 32)%nat) -> dncp_reachable o ->
  network_hash_dirty o = true \/ republish_tlvs o = false ->
  (trickle_fine o -> is_Some (dncp_calculate_network_hash o)) /\
  forall o', dncp_calculate_network_hash o = Some o' ->
    network_hash o' = network_state_hash (reachable_nodes o') /\
    (nid <$> reachable_nodes o') = (nid <$> reachable_nodes o).
Proof.
  intros Hlen Hh Hr Hd. split; [apply calculate_network_hash_total|]. intros o' E. pose proof (inv_reachable o Hlen Hh Hr) as Hi.
  destruct (inv_calculate_network_hash o o' Hi E) as [Hi' Hd'].
  assert (Hnet : network_hash o' = ext_hash (network_state (reachable_nodes o')) /\
    (forall n, n ∈ reachable_nodes o' -> node_data_hash_dirty n = false) /\
    (nid <$> reachable_nodes o') = (nid <$> reachable_nodes o)).
  { destruct (network_hash_dirty o) eqn:Ed.
    - destruct (calculate_network_hash_spec o o' E Ed) as (Hn & _ & Hl & Hh' & _). split; [done|].
      rewrite !reachable_nodes_filter, Hn, Hl. split.
      + intros m [Hm (n & -> & Hn')%list_elem_of_fmap]%list_elem_of_filter.
        destruct (rehash_fields o n) as (_ & _ & Er & _). rewrite Er in Hm.
        apply rehash_ok; [by apply (tr_hash _ _ _ (inv_tree _ Hi))|]. by apply bool_decide_eq_true.
      + clear. induction (nodes o) as [|n l IH]; [done|]. rewrite fmap_cons, !filter_cons.
        destruct (rehash_fields o n) as (En & _ & -> & _). case_decide; rewrite ?fmap_cons, ?En; by rewrite IH.
    - assert (o' = o) as -> by (unfold dncp_calculate_network_hash in E; rewrite Ed in E; congruence).
      destruct Hd as [|Hd]; [done|]. destruct (inv_net _ Hi Ed Hd) as [? ?]. done. }
  destruct Hnet as (Hnet & Hcl & Hid). split; [|done]. rewrite Hnet. unfold network_state_hash, network_state. f_equal.
  apply flat_map_ext_in. intros n Hn. f_equal. apply (tr_hash _ _ _ (inv_tree _ Hi')); [|by apply Hcl].
  by apply list_elem_of_filter in Hn as [_ ?].
Qed.
End system.
