(* ===== verification/DncpProps.v ===== *)
(** What the handlers of messages and of Trickle do: update numbers, the size
    exponent of replies, the acceptance of node data, and the Trickle intervals. *)
From S2P Require Import Prelude Bitops Tlv DncpNotify DncpIndex DncpState Dncp DncpFacts DncpProto DncpTimeout DncpPrune DncpInv DncpSteps.

(** ** Arithmetic *)

Lemma testbit31 z : 0 <= z < 2 ^ 32 -> Z.land z (2 ^ 31) ≠ 0 <-> 2 ^ 31 <= z.
Proof.
  intros Hz. rewrite (Z.land_comm z). change (2 ^ 31) with (Z.shiftl 1 31) at 1.
  assert (Z.land (Z.shiftl 1 31) z = if Z.testbit z 31 then 2 ^ 31 else 0) as ->.
  { apply Z.bits_inj'. intros i Hi. rewrite Z.land_spec, Z.shiftl_spec by done.
    destruct (decide (i = 31)) as [->|Hne].
    - rewrite Z.sub_diag. by destruct (Z.testbit z 31).
    - destruct (decide (i < 31)).
      + rewrite Z.testbit_neg_r by lia. destruct (Z.testbit z 31); [|by rewrite Z.testbit_0_l].
        symmetry. apply Z.pow2_bits_false. lia.
      + rewrite (Z.bits_above_log2 1) by (cbn; lia). destruct (Z.testbit z 31); [|by rewrite Z.testbit_0_l].
        symmetry. apply Z.pow2_bits_false. lia. }
  assert (Z.testbit z 31 = bool_decide (2 ^ 31 <= z)) as ->.
  { rewrite Z.testbit_odd, Z.shiftr_div_pow2 by lia.
    case_bool_decide; [replace (z / 2 ^ 31) with 1 by lia|replace (z / 2 ^ 31) with 0 by lia]; done. }
  case_bool_decide; lia.
Qed.

(** The comparison of update numbers is serial number arithmetic on 32 bits: it holds exactly
    when b is 1 to 2^31 ahead of a, hence both ways round only at distance 2^31. *)
Theorem update_number_serial a b : 0 <= a < 2 ^ 32 -> 0 <= b < 2 ^ 32 ->
  (dncp_update_number_gt a b = true <-> 1 <= (b - a) mod 2 ^ 32 <= 2 ^ 31) /\
  (dncp_update_number_gt a b = true /\ dncp_update_number_gt b a = true <-> (b - a) mod 2 ^ 32 = 2 ^ 31).
Proof.
  intros Ha Hb. unfold dncp_update_number_gt, u32. rewrite !(Z.mod_small a), !(Z.mod_small b) by done.
  rewrite !bool_decide_eq_true, !testbit31 by (apply Z.mod_pos_bound; lia). lia.
Qed.

Lemma bytes_to_exp_loop_spec fuel bytes k :
  0 <= k -> bytes <= 2 ^ 63 -> (k + Z.of_nat fuel = 64) -> (k = 0 \/ 2 ^ (k - 1) < bytes) ->
  exists r, bytes_to_exp_loop fuel bytes (2 ^ k) (k - 1) = Some (r - 1) /\
    k <= r /\ bytes <= 2 ^ r /\ (r = 0 \/ 2 ^ (r - 1) < bytes).
Proof.
  intros Hk Hb. revert k Hk. induction fuel as [|fuel IH]; intros k Hk Hf Hlow; cbn [bytes_to_exp_loop].
  { exfalso. replace (k - 1) with 63 in Hlow by lia. lia. }
  destruct (decide (2 ^ k < bytes)) as [E|E]; [|exists k; repeat split; try done; lia].
  assert (k < 63) by (apply Znot_ge_lt; intros Hge; pose proof (Z.pow_le_mono_r 2 63 k); lia).
  assert (u64 (2 * 2 ^ k) = 2 ^ (k + 1)) as ->.
  { unfold u64. rewrite (Z.pow_add_r 2 k 1) by lia. rewrite Z.mod_small; [lia|].
    pose proof (Z.pow_le_mono_r 2 k 62). lia. }
  replace (k - 1 + 1) with (k + 1 - 1) by lia.
  destruct (IH (k + 1)) as (r & -> & H1 & H2 & H3);
    [lia|lia|right; by replace (k + 1 - 1) with k by lia|].
  exists r. repeat split; try done; lia.
Qed.

Lemma bytes_to_exp_loop_zero fuel bytes i : 0 < bytes -> bytes_to_exp_loop fuel bytes 0 i = None.
Proof. intros Hb. revert i. induction fuel as [|fuel IH]; intros i; [done|]. cbn. by rewrite decide_True. Qed.

Lemma bytes_to_exp_loop_diverges fuel bytes k i : 0 <= k <= 63 -> 2 ^ 63 < bytes ->
  bytes_to_exp_loop fuel bytes (2 ^ k) i = None.
Proof.
  intros Hk Hb. revert k i Hk. induction fuel as [|fuel IH]; intros k i Hk; [done|]. cbn [bytes_to_exp_loop].
  pose proof (Z.pow_le_mono_r 2 k 63). rewrite decide_True by lia.
  destruct (decide (k = 63)) as [->|Hne]; [by apply bytes_to_exp_loop_zero; lia|].
  assert (u64 (2 * 2 ^ k) = 2 ^ (k + 1)) as ->.
  { unfold u64. rewrite (Z.pow_add_r 2 k 1) by lia. rewrite Z.mod_small; [lia|].
    pose proof (Z.pow_le_mono_r 2 k 62). lia. }
  apply IH. lia.
Qed.

(** For a size up to 2^63 the exponent loop ends with the largest i such that 2^i is below the
    size (-1 for size 1); for a larger one, which a negative maximum size becomes, it never
    ends. *)
Theorem bytes_to_exp_largest bytes : 0 < bytes ->
  (bytes <= 2 ^ 63 -> exists i, _bytes_to_exp bytes = Some i /\
     ((bytes = 1 /\ i = -1) \/ (0 <= i < 63 /\ 2 ^ i < bytes <= 2 ^ (i + 1)))) /\
  (2 ^ 63 < bytes -> forall fuel, bytes_to_exp_loop fuel bytes 1 (-1) = None).
Proof.
  intros Hb. split; [|intros Hbig fuel; by apply (bytes_to_exp_loop_diverges fuel bytes 0)].
  intros Hle. destruct (bytes_to_exp_loop_spec 64 bytes 0) as (r & E & H1 & H2 & H3); [lia..|by left|].
  exists (r - 1). split; [exact E|]. destruct (decide (r = 0)) as [->|Hr]; [left; cbn in H2; lia|].
  right. replace (r - 1 + 1) with r by lia. destruct H3 as [|H3]; [lia|]. split; [|lia]. split; [lia|].
  apply Znot_ge_lt. intros Hge. pose proof (Z.pow_le_mono_r 2 63 (r - 1)). lia.
Qed.

(** ** Node data *)

Section data.
Context `{!DncpExt, !DncpCallbacks, !Passive}.

(** The payload of a node state TLV with its data. *)
Definition node_state_msg (ni : node_id) (upd ms : Z) (h : hash_t) (nd : list Z) : list Z :=
  ni ++ be32 upd ++ be32 ms ++ h ++ nd.

(** A state for node [ni] is news. *)
Definition news (o : dncp) (ni : node_id) (upd : Z) (h : hash_t) : Prop :=
  match find_node o ni with
  | None => True
  | Some n => dncp_update_number_gt (update_number n) upd = true \/ (upd = update_number n /\ node_data_hash n ≠ h)
  end.

Lemma node_state_fields ni upd ms h nd :
  length ni = node_id_length -> length h = hash_length -> 0 <= upd < 2 ^ 32 -> 0 <= ms < 2 ^ 32 ->
  let d := node_state_msg ni upd ms h nd in
  length d = (8 + node_id_length + hash_length + length nd)%nat /\
  take node_id_length d = ni /\ u32 (of_be32 (take 4 (drop node_id_length d))) = upd /\
  of_be32 (take 4 (drop (node_id_length + 4) d)) = ms /\
  take hash_length (drop (node_id_length + 8) d) = h /\ drop (8 + node_id_length + hash_length) d = nd.
Proof.
  intros Hni Hh Hu Hm d. unfold d, node_state_msg. rewrite <- Hni, <- Hh.
  split; [rewrite !length_app, !length_be32; lia|].
  split; [by rewrite take_app_length|].
  split; [rewrite drop_app_length, (take_app_length' _ _ 4) by done; rewrite of_be32_be32 by done; by apply Z.mod_small|].
  split; [rewrite <- drop_drop, drop_app_length, (drop_app_length' _ _ 4), (take_app_length' _ _ 4) by done; by apply of_be32_be32|].
  split.
  - rewrite <- drop_drop, drop_app_length, (app_assoc (be32 upd)), (drop_app_length' _ _ 8) by done. by rewrite take_app_length.
  - replace (8 + length ni + length h)%nat with (length (ni ++ be32 upd ++ be32 ms ++ h)) by (rewrite !length_app, !length_be32; lia).
    replace (ni ++ be32 upd ++ be32 ms ++ h ++ nd) with ((ni ++ be32 upd ++ be32 ms ++ h) ++ nd) by (by rewrite <- !app_assoc).
    by rewrite drop_app_length.
Qed.

Lemma received_container_ok nd : (4 <= length nd)%nat -> Z.of_nat (length nd) < 65536 ->
  received_container nd = Some (Some nd).
Proof.
  intros Hl Hs. unfold received_container.
  destruct (tlv_buf_init_holds (mk_tlv_buf 0 []) 0) as (b0 & -> & Hb0); [done|done|]. cbn [mbind option_bind].
  destruct (tlv_put_raw_holds b0 [] 0 [] nd Hb0) as (b1 & -> & Hb1); [done|done|]. cbn [mbind option_bind].
  destruct (holds_tlv_payload _ _ _ _ Hb1) as [-> _]. done.
Qed.

(** Less than a TLV header is refused. *)
Lemma received_container_short nd : (length nd < 4)%nat -> received_container nd = Some None.
Proof.
  intros Hl. unfold received_container.
  destruct (tlv_buf_init_holds (mk_tlv_buf 0 []) 0) as (b0 & -> & _); [done|done|]. cbn [mbind option_bind].
  unfold tlv_put_raw. by rewrite decide_True.
Qed.

(** What makes the handler look at the data of a node state TLV. *)
Lemma interesting_news o ni upd h :
  (match find_node o ni with
   | None => true
   | Some n => dncp_update_number_gt (update_number n) upd ||
               (bool_decide (upd = update_number n) && bool_decide (node_data_hash n ≠ h))
   end) = true <-> news o ni upd h.
Proof.
  unfold news. destruct (find_node o ni); [|done].
  by rewrite orb_true_iff, andb_true_iff, !bool_decide_eq_true.
Qed.

(** A node state TLV that is not news, or whose hash is not the hash of its data, changes
    nothing. *)
Theorem node_state_old_ignored e mc h ni upd ms hsh nd :
  length ni = node_id_length -> length hsh = hash_length -> 0 <= upd < 2 ^ 32 -> 0 <= ms < 2 ^ 32 ->
  ~ news (hm_o h) ni upd hsh \/
  (nd ≠ [] /\ mc && negb (accept_node_data_updates_via_multicast (conf e)) = false /\ ext_hash nd ≠ hsh) ->
  handle_node_state e mc h (node_state_msg ni upd ms hsh nd) = Some (Next h).
Proof.
  intros Hni Hh Hu Hm Hcase. destruct (node_state_fields ni upd ms hsh nd Hni Hh Hu Hm) as (E1 & E2 & E3 & E4 & E5 & E6).
  unfold handle_node_state. rewrite decide_False by lia. cbv zeta. rewrite E2, E3, E5, E6.
  destruct (match find_node (hm_o h) ni with None => true | Some n => _ end) eqn:Ei; [|done]. cbn [negb].
  apply interesting_news in Ei. destruct Hcase as [?|(Hnd & Hmc & Hne)]; [done|]. rewrite Hmc.
  rewrite decide_False by done. by rewrite decide_True.
Qed.

(** C24: A unicast node state TLV with data for another node that is news (unknown node, newer
    update number, or same number with another hash) and whose hash is the hash of its data
    is accepted: if the data has at least the four bytes of a TLV header, the node then has
    that update number, data and hash; if it has one to three bytes, the node only exists,
    new or as it was. No other node changes. *)
Theorem node_state_accepted e h ni upd ms hsh nd :
  inv (hm_o h) -> length ni = node_id_length -> length hsh = hash_length -> 0 <= upd < 2 ^ 32 -> 0 <= ms < 2 ^ 32 ->
  nd ≠ [] -> Z.of_nat (length nd) < 65536 ->
  news (hm_o h) ni upd hsh -> own_node (hm_o h) ≠ Some ni -> hsh = ext_hash nd ->
  exists h' n, handle_node_state e false h (node_state_msg ni upd ms hsh nd) = Some (Next h') /\
    find_node (hm_o h') ni = Some n /\
    (if decide (4 <= length nd)%nat then update_number n = upd /\ tlv_container n = Some nd /\
       node_data_hash n = ext_hash nd /\ node_data_hash_dirty n = false
     else n = default (new_node (hm_o h) ni) (find_node (hm_o h) ni)) /\
    forall x, x ≠ ni -> find_node (hm_o h') x = find_node (hm_o h) x.
Proof.
  intros Hi Hni Hh Hu Hm Hl Hs Hnews Hown Ehash.
  destruct (node_state_fields ni upd ms hsh nd Hni Hh Hu Hm) as (E1 & E2 & E3 & E4 & E5 & E6).
  unfold handle_node_state. rewrite decide_False by lia. cbv zeta. rewrite E2, E3, E4, E5, E6.
  apply interesting_news in Hnews. rewrite Hnews. cbn [negb andb].
  rewrite (decide_False (P := nd = [])) by done.
  rewrite (decide_False (P := ext_hash nd ≠ hsh)) by (intros Hne; by apply Hne).
  destruct (dncp_find_node_by_node_id (hm_o h) ni true) as [o1 n1] eqn:Ec.
  destruct (inv_create _ _ _ _ Hi Hni Ec) as (n & -> & Hi1 & Hf1 & En & Hq1). cbn [mbind option_bind].
  assert (Hother1 : forall x, x ≠ ni -> find_node o1 x = find_node (hm_o h) x).
  { intros x Hx. unfold dncp_find_node_by_node_id in Ec. destruct (find_node (hm_o h) ni) eqn:Em; [by injection Ec as <- _|].
    injection Ec as <- <-. pose proof (quiet_nodes_changed (set_nodes (insert_node (new_node (hm_o h) ni) (nodes (hm_o h))) (hm_o h))) as (_ & Hn & _).
    unfold find_node at 1. rewrite Hn. change (get_node (insert_node (new_node (hm_o h) ni) (nodes (hm_o h))) x = find_node (hm_o h) x).
    rewrite get_insert by done. by rewrite decide_False. }
  unfold dncp_node_is_self. rewrite (quiet_own _ _ Hq1), bool_decide_false by done.
  destruct (decide (4 <= length nd)%nat) as [Hl4|Hl4].
  2: { rewrite received_container_short by lia. cbn [mbind option_bind]. eexists _, n. split; [done|]. split; [done|]. split; [|exact Hother1].
       unfold dncp_find_node_by_node_id in Ec. destruct (find_node (hm_o h) ni); by injection Ec as _ <-. }
  rewrite received_container_ok by done. cbn [mbind option_bind].
  destruct (node_set_spec o1 n upd (dncp_time o1 - ms) (Some nd)) as (o2 & n2 & E & Hq & En2 & _ & _ & Eu & _ & Hcase & _).
  rewrite E. cbn [mbind option_bind].
  assert (H2 : tlv_container n2 = Some nd /\ find_node o2 ni = Some n2 /\ forall x, x ≠ ni -> find_node o2 x = find_node o1 x).
  { destruct Hcase as [(-> & -> & [?|?])|(_ & Hns & Hc)]; [done|done|]. split; [done|].
    unfold find_node. rewrite Hns. rewrite En in En2. split.
    - rewrite <- En2. eapply get_put. rewrite En2. exact Hf1.
    - intros x Hx. apply (get_put_ne n2 (nodes o1)). by rewrite En2. }
  destruct H2 as (Hc2 & Hf2 & Ho2). set (n3 := set_node_data_hash_dirty _ _). eexists _, n3. split; [done|]. cbn [hm_o].
  assert (En3 : nid n3 = ni) by (cbn; congruence).
  split; [|split; [by split_and!|]].
  - change (get_node (put n3 (nodes o2)) ni = Some n3). rewrite <- En3. eapply get_put. rewrite En3. exact Hf2.
  - intros x Hx. etrans; [|apply Hother1, Hx]. etrans; [|apply Ho2, Hx]. apply (get_put_ne n3 (nodes o2)). by rewrite En3.
Qed.
End data.

(** ** Trickle *)

Section trickle.
Context `{!DncpExt, !DncpCallbacks}.

Lemma get_upd_trickle o id f o' t : get_trickle o (TrEp id) = Some t -> upd_trickle o (TrEp id) f = Some o' ->
  get_trickle o' (TrEp id) = Some (f t).
Proof.
  cbn [get_trickle upd_trickle]. unfold dncp_find_ep_by_id. intros Ht (e & Ee & [= <-])%bind_Some.
  rewrite Ee in Ht. cbn in Ht. injection Ht as <-. unfold put_ep. cbn [eps set_eps ep_id set_ep_trickle].
  induction (eps o) as [|x l IH]; [done|]. cbn [list_find] in Ee. rewrite fmap_cons. cbn [list_find].
  destruct (decide (ep_id x = id)) as [Ex|Ex].
  - cbn in Ee. injection Ee as <-. rewrite (decide_True (P := ep_id x = ep_id x)) by done.
    rewrite decide_True by done. done.
  - assert (ep_id e = id) as Ei.
    { destruct (list_find (fun y => ep_id y = id) l) as [[i y]|] eqn:El; [|done]. cbn in Ee. injection Ee as <-.
      by apply list_find_Some in El as (_ & ? & _). }
    rewrite (decide_False (P := ep_id x = ep_id e)) by congruence. rewrite decide_False by done.
    destruct (list_find (fun y => ep_id y = id) l) as [[i y]|] eqn:El; [|done]. cbn in Ee. injection Ee as <-.
    specialize (IH eq_refl). by destruct (list_find _ (_ <$> l)) as [[]|].
Qed.

(** The interval [trickle_set_i] uses. *)
Definition clamp (e : ep) (i : Z) : Z :=
  if decide (i < trickle_imin (conf e)) then trickle_imin (conf e)
  else if decide (trickle_imax (conf e) < i) then trickle_imax (conf e) else i.

(** Setting the interval of the Trickle timer of an endpoint always leaves it between imin and
    imax, resets the counter, ends the interval after its length and puts the sending time
    in the second half of the interval. *)
Theorem trickle_set_i_bounds o id e i t :
  (forall n, 0 <= random n) -> 2 <= trickle_imin (conf e) <= trickle_imax (conf e) ->
  get_trickle o (TrEp id) = Some t ->
  exists o' t', trickle_set_i o (TrEp id) e i = Some o' /\ get_trickle o' (TrEp id) = Some t' /\
    trickle_imin (conf e) <= tr_i t' <= trickle_imax (conf e) /\ tr_c t' = 0 /\
    interval_end_time t' = dncp_time o + tr_i t' /\
    dncp_time o + tr_i t' / 2 <= send_time t' < interval_end_time t'.
Proof.
  intros Hrnd Hconf Ht. unfold trickle_set_i. cbv zeta. fold (clamp e i).
  assert (Hc : trickle_imin (conf e) <= clamp e i <= trickle_imax (conf e)) by (unfold clamp; repeat case_decide; lia).
  assert (Hq : Z.quot (clamp e i) 2 = clamp e i / 2) by (rewrite Z.quot_div_nonneg; lia). rewrite Hq.
  unfold random_mod. rewrite decide_False by lia. cbn [mbind option_bind].
  set (f := fun t => set_tr_c 0 _).
  assert (exists o', upd_trickle (set_randoms (randoms o + 1)%nat o) (TrEp id) f = Some o') as [o' E].
  { cbn [upd_trickle get_trickle] in *. destruct (dncp_find_ep_by_id o id) as [x|] eqn:Ex; [|done].
    change (dncp_find_ep_by_id (set_randoms (randoms o + 1)%nat o) id) with (dncp_find_ep_by_id o id). rewrite Ex. cbn. by eexists. }
  exists o', (f t). split; [done|]. split; [exact (get_upd_trickle (set_randoms (randoms o + 1)%nat o) id f o' t Ht E)|].
  pose proof (Z.rem_bound_pos (random (randoms o)) (clamp e i / 2) (Hrnd _) ltac:(lia)) as Hr.
  cbn. split; [done|]. split; [done|]. split; [done|]. lia.
Qed.
End trickle.
