(* ===== verification/DncpExample.v ===== *)
(** A small network, run: a concrete profile, subscribers that do nothing, and the
    states of a daemon that hears from one neighbour and loses it again.  The
    theorems of the protocol are applied to these states, and two behaviours that
    differ from what the code documents are shown on them. *)
From S2P Require Import Prelude Bitops Tlv DncpNotify DncpIndex DncpState Dncp DncpFacts DncpProto DncpTimeout DncpPrune DncpInv DncpSteps DncpProps.

(** ** The profile *)

Definition toy_hash (l : list Z) : list Z := be32 (foldl (fun h b => (h * 31 + b) mod 2 ^ 32) 7 l).

Definition toy_ep : ep_conf := mk_ep_conf [] 200 40000 1 20000 1232 9000 false false false false false.

#[local] Instance toy_ext : DncpExt := {|
  big_endian := false; node_id_length := 4; hash_length := 4; per_ep := toy_ep;
  keepalive_multiplier_percent := 210; grace_interval := 60000; minimum_prune_interval := 20;
  ext_hash := toy_hash; validate_node_data := fun _ _ => true; random := fun n => 7 |}.

#[local] Instance toy_cb : DncpCallbacks :=
  {| call_subscriber := fun _ o => o; handle_collision := fun o => (o, false) |}.

#[local] Instance toy_passive : Passive.
Proof. by split. Qed.

#[local] Instance toy_collision : CollisionOk.
Proof. by split. Qed.

(** ** A run *)

Definition start : dncp := default (dncp_zero 0) (dncp_init 1000 [1; 2; 3]).

Definition self_id : node_id := default [] (own_node start).
Definition peer_id : node_id := [9; 9; 9; 9].

(** Subscribed, with endpoint 1 enabled, and its data published at 2000. *)
Definition subscribed : dncp :=
  default start (dncp_subscribe start (mk_subscriber 1 [DNCP_CALLBACK_TLV; DNCP_CALLBACK_NODE])).
Definition with_ep : dncp := (dncp_find_ep_by_name subscribed [101]).1.
Definition ready : dncp := default with_ep (dncp_ext_ep_ready with_ep 1 true).
Definition up : dncp := default ready (dncp_ext_timeout (set_clock 2000 ready)).

(** The data of the neighbour: it announces the link from its endpoint 5 to our 1. *)
Definition peer_data : list Z := enc [(8, t_peer_data (mk_t_peer self_id 1 5)); (42, [1; 2; 3])].

Definition hello : list Z :=
  enc [(3, peer_id ++ host32 5); (5, node_state_msg peer_id 1 0 (toy_hash peer_data) peer_data)].

Definition heard : dncp :=
  default up (dncp_ext_readable (set_clock 2050 up) [mk_packet 1 [7; 7] (Some [8; 8]) 3 hello]).

(** Just before the pruning of the timeout at time [t]. *)
Definition before_prune (o : dncp) (t : Z) : dncp :=
  let o := set_now t (set_clock t o) in
  default o (o ← roll_over o 0; dncp_self_flush o.1).

Definition linked : dncp := before_prune heard 2100.

(** The neighbour has been reachable for 70 seconds when its link goes. *)
Definition joined_up : dncp := default heard (dncp_ext_timeout (set_clock 2100 heard)).
Definition unlinked : dncp := before_prune (dncp_remove_tlvs_by_type joined_up DNCP_T_PEER).1 72100.

(** ** Facts on the run *)

Lemma start_init : dncp_init 1000 [1; 2; 3] = Some start.
Proof. vm_compute. reflexivity. Qed.

Lemma start_inv : inv start.
Proof. apply (inv_init 1000 [1; 2; 3]); [vm_compute; lia|lia|exact start_init]. Qed.

Lemma ready_in_time : in_time (set_clock 2000 ready).
Proof.
  intros n Ho Hf. right. right. assert (Hn : find_node (set_clock 2000 ready) self_id = Some (default (new_node ready []) (find_node ready self_id))) by (vm_compute; reflexivity).
  assert (nid n = self_id) as E by (vm_compute in Ho |- *; congruence). rewrite E, Hn in Hf. injection Hf as <-. vm_compute. discriminate.
Qed.

Lemma up_reachable : dncp_reachable up.
Proof.
  exists 1000, [1; 2; 3], start. split; [lia|]. split; [exact start_init|].
  apply (rtc_l _ _ subscribed); [apply (StepSubscribe _ (mk_subscriber 1 [DNCP_CALLBACK_TLV; DNCP_CALLBACK_NODE])); vm_compute; reflexivity|].
  apply (rtc_l _ _ with_ep); [apply StepFindEp|].
  apply (rtc_l _ _ ready); [apply (StepEpReady _ 1 true); vm_compute; reflexivity|].
  apply (rtc_l _ _ (set_clock 2000 ready)); [apply StepClock; [reflexivity|vm_compute; intros [=]]|].
  apply rtc_once. apply StepTimeout; [exact ready_in_time|vm_compute; reflexivity].
Qed.

(** The TLVs of a node as the iteration reads them. *)
Definition tlvs_of (n : node) : list attr :=
  let c := default [] (tlv_container n) in default [] (tlv_list c 0 (length c)).

#[local] Instance by_type_dec ts : Decision (by_type ts).
Proof. unfold by_type. apply _. Defined.
#[local] Instance tlvs_ok_dec ts : Decision (tlvs_ok ts).
Proof. unfold tlvs_ok, attr_ok. apply _. Defined.
#[local] Instance tlvs_sorted_dec ts : Decision (tlvs_sorted ts).
Proof. unfold tlvs_sorted, tlv_lt. apply _. Defined.

(** Decide a property of a concrete state. *)

Definition data_ok (n : node) : Prop :=
  default [] (tlv_container n) = enc (tlvs_of n) /\ by_type (tlvs_of n) /\ tlvs_ok (tlvs_of n).

#[local] Instance data_ok_dec n : Decision (data_ok n).
Proof. unfold data_ok. apply _. Defined.

Ltac each_node := apply Forall_forall; decided.

Lemma linked_ready : prune_ready linked.
Proof.
  split; [decided| | |vm_compute; reflexivity|].
  - change (forall n, n ∈ nodes linked -> (fun n => version n <= nodes_version linked) n). each_node.
  - change (forall n, n ∈ nodes linked -> (fun n => last_reachable_prune n <= last_prune linked) n). each_node.
  - split; [decided|]. assert (tix linked = dncp_add_tlv_index tindex_empty 8) as -> by (vm_compute; reflexivity).
    apply dncp_add_tlv_index_wf, tindex_empty_wf.
Qed.

Lemma linked_ordered : data_ordered linked tlvs_of.
Proof. change (forall n, n ∈ nodes linked -> data_ok n). each_node. Qed.

Lemma unlinked_ready : prune_ready unlinked.
Proof.
  split; [decided| | |vm_compute; reflexivity|].
  - change (forall n, n ∈ nodes unlinked -> (fun n => version n <= nodes_version unlinked) n). each_node.
  - change (forall n, n ∈ nodes unlinked -> (fun n => last_reachable_prune n <= last_prune unlinked) n). each_node.
  - split; [decided|].
    assert (tix unlinked = dncp_add_tlv_index (dncp_add_tlv_index tindex_empty 8) 9) as -> by (vm_compute; reflexivity).
    do 2 apply dncp_add_tlv_index_wf. apply tindex_empty_wf.
Qed.

Lemma unlinked_ordered : data_ordered unlinked tlvs_of.
Proof. change (forall n, n ∈ nodes unlinked -> data_ok n). each_node. Qed.

(** ** Behaviours that differ from the documentation *)

(** A request for our own node state, after a local TLV has been added. *)
Definition ask : list Z := enc [(3, peer_id ++ host32 5); (2, self_id)].
Definition asked : option dncp :=
  dncp_ext_readable (dncp_add_tlv up 43 [1] None) [mk_packet 1 [7; 7] (Some [8; 8]) 3 ask].

(** A request for the state of the own node that arrives while local changes are pending is
    answered with the new data and the hash of the old data. *)
Example own_state_reply_stale :
  exists o p, asked = Some o /\ last (log o) = Some (Send 1 (Some [8; 8]) (Some [7; 7]) p) /\
  exists upd ms h nd, tlv_list p 0 (length p) =
      Some [(3, self_id ++ host32 1); (5, node_state_msg self_id upd ms h nd)] /\
    length h = 4%nat /\ h ≠ ext_hash nd /\
    tlv_container <$> find_node o self_id = Some (Some nd).
Proof.
  eexists _, _. split; [vm_compute; reflexivity|]. split; [vm_compute; reflexivity|].
  exists 2, 0, [0; 0; 0; 7], (enc [(8, peer_id ++ host32 5 ++ host32 1); (43, [1])]).
  split; [vm_compute; reflexivity|]. split; [reflexivity|]. split; [vm_compute; discriminate|vm_compute; reflexivity].
Qed.

(** A subscriber that takes TLVs of type 43 back when told of a publication. *)
Definition revert_cb : DncpCallbacks := {|
  call_subscriber := fun e o => match e with
    | RepublishTlvs _ => set_tlvs_dirty true (set_tlvs (filter (fun u => (tlv u).1 ≠ 43) (tlvs o)) o)
    | _ => o
    end;
  handle_collision := fun o => (o, false) |}.

Definition republisher : dncp := default up (dncp_subscribe up (mk_subscriber 2 [DNCP_CALLBACK_REPUBLISH])).

(** When a republish callback reverts the local TLVs to what is published, dncp_self_flush
    publishes the data collected before the callback and leaves no change pending. *)
Example self_flush_stale :
  exists o, @dncp_self_flush toy_ext revert_cb (dncp_add_tlv republisher 43 [1] None) = Some o /\
    tlvs o = [] /\ tlvs_dirty o = false /\
    tlv_container <$> find_node o self_id = Some (Some (enc [(43, [1])])).
Proof. eexists. split; [vm_compute; reflexivity|]. by repeat split. Qed.

(** Data that is not in the order of its types: the peer TLV for our link, another TLV, and
    a peer TLV for another link. *)
Definition jumbled_data : list Z :=
  enc [(8, t_peer_data (mk_t_peer self_id 1 5)); (7, [0]); (8, t_peer_data (mk_t_peer [7; 7; 7; 7] 1 6))].
Definition jumbled_hello : list Z :=
  enc [(3, peer_id ++ host32 5); (5, node_state_msg peer_id 1 0 (toy_hash jumbled_data) jumbled_data)].
Definition jumbled : dncp :=
  default up (dncp_ext_readable (set_clock 2050 up) [mk_packet 1 [7; 7] (Some [8; 8]) 3 jumbled_hello]).

(** Such data is accepted, but of the peer TLVs only the last run is found, so the link is
    not seen and the neighbour is not reachable. *)
Example unordered_data_hides_link :
  tlv_container <$> find_node jumbled peer_id = Some (Some jumbled_data) /\
  exists o, dncp_ext_timeout (set_clock 2100 jumbled) = Some o /\ reachable o <$> find_node o peer_id = Some false.
Proof. split; [vm_compute; reflexivity|]. eexists. split; vm_compute; reflexivity. Qed.

(** Local TLVs that were changed and changed back keep a timeout from looking at the age of
    our data; once it has expired, our own node is dropped like any other. *)
Example own_node_dropped :
  let o := (dncp_remove_tlvs_by_type (dncp_add_tlv up 43 [1] None) 43).1 in
  exists o', dncp_ext_timeout (set_clock (2000 + 2 ^ 32) o) = Some o' /\
    own_node o' = Some self_id /\ find_node o' self_id = None.
Proof. eexists. split; [vm_compute; reflexivity|]. split; vm_compute; reflexivity. Qed.

(** ** The theorems, applied *)

Lemma prune_keeps_joined_witness :
  exists o', dncp_prune linked = Some o' /\
    (forall x, (exists n, find_node o' x = Some n /\ reachable o' n = true) <-> joined linked (peers_in tlvs_of) self_id x) /\
    (forall n, n ∈ nodes linked -> is_Some (find_node o' (nid n)) <->
       joined linked (peers_in tlvs_of) self_id (nid n) \/ dncp_time linked - grace_interval <= last_reachable_prune n).
Proof. apply (prune_keeps_joined linked self_id tlvs_of linked_ready linked_ordered). vm_compute. reflexivity. Defined.


(** The node of the neighbour before the last pruning. *)
Definition peer_node : node := default (new_node unlinked []) (find_node unlinked peer_id).

Lemma unlinked_not_joined : ~ joined unlinked (peers_in tlvs_of) self_id peer_id.
Proof.
  intros [_ Hr]. apply rtc_inv in Hr as [E|(y & (n & m & ne & En & Hne & _) & _)]; [vm_compute in E; discriminate|].
  vm_compute in En. injection En as <-. vm_compute in Hne. by apply elem_of_nil in Hne.
Qed.

Lemma prune_flush_silent_witness :
  exists o' es, dncp_prune unlinked = Some o' /\ find_node o' peer_id = None /\ vlog o' = vlog unlinked ++ es /\
    forall s add, NodeChange s peer_id add ∉ es.
Proof.
  apply (prune_flush_silent unlinked self_id tlvs_of peer_node unlinked_ready unlinked_ordered);
    [vm_compute; reflexivity| |vm_compute; reflexivity|exact unlinked_not_joined|vm_compute; reflexivity].
  vm_compute. right. left.
Defined.

Definition self_node : node := default (new_node start []) (find_node start self_id).

Lemma self_flush_publishes_witness :
  exists o' n', dncp_self_flush start = Some o' /\ find_node o' self_id = Some n' /\ republish_tlvs o' = false /\
    ((republish_tlvs start = false /\ tlv_container self_node = Some (enc (tlv <$> tlvs start)) /\ n' = self_node /\ o' = set_tlvs_dirty false start) \/
     ((republish_tlvs start = true \/ tlv_container self_node ≠ Some (enc (tlv <$> tlvs start))) /\
      update_number n' = u32 (update_number self_node + 1) /\
      (tlv_container n' = Some (enc (tlv <$> tlvs (tlvs_told start))) \/
       (tlv_container self_node = Some (enc (tlv <$> tlvs (tlvs_told start))) /\ tlv_container self_node ≠ Some (enc (tlv <$> tlvs start)) /\
        tlv_container n' = Some (enc (tlv <$> tlvs start)))))).
Proof. apply (self_flush_publishes start self_node start_inv); [vm_compute; reflexivity|vm_compute; reflexivity|intros Hd; vm_compute in Hd; discriminate|vm_compute; reflexivity|vm_compute; reflexivity]. Defined.

Lemma toy_hash_long id : (node_id_length <= length (ext_hash id) + 32)%nat.
Proof. cbn. lia. Qed.

Lemma protocol_invariant_witness :
  StronglySorted (fun m n => memcmp (nid m) (nid n) < 0) (nodes up) /\
  (exists n, own_node up = Some (nid n) /\ find_node up (nid n) = Some n /\ reachable up n = true) /\
  (forall n, n ∈ nodes up -> length (nid n) = node_id_length /\ 0 <= update_number n < 2 ^ 32 /\ last_reachable_prune n <= last_prune up /\
     (node_data_hash_dirty n = false -> node_data_hash n = ext_hash (default [] (tlv_container n)))) /\
  tlvs_sorted (tlv <$> tlvs up).
Proof. apply (protocol_invariant up); [vm_compute; reflexivity|exact toy_hash_long|exact up_reachable]. Defined.

Definition rehashed : dncp := default up (dncp_calculate_network_hash up).

Definition peers_fine (o : dncp) (u : ltlv) : Prop :=
  match dncp_tlv_peer (tlv u) with Some ne => pe_ep_id ne ∈ ep_id <$> eps o /\ is_Some (extra u) | None => True end.

#[local] Instance peers_fine_dec o u : Decision (peers_fine o u).
Proof. unfold peers_fine. destruct (dncp_tlv_peer (tlv u)); apply _. Defined.

Lemma up_trickle_fine : trickle_fine up.
Proof.
  assert (H1 : Forall (fun e => Z.quot (Z.min (trickle_imin (conf e)) (trickle_imax (conf e))) 2 ≠ 0) (eps up)) by decided.
  assert (H2 : Forall (peers_fine up) (tlvs up)) by decided. rewrite Forall_forall in H1. rewrite Forall_forall in H2. split; [exact H1|].
  intros u ne Hu E. specialize (H2 u Hu). unfold peers_fine in H2. rewrite E in H2. exact H2.
Qed.

Lemma network_hash_correct_witness : is_Some (dncp_calculate_network_hash up) /\
  network_hash rehashed = network_state_hash (reachable_nodes rehashed) /\
  (nid <$> reachable_nodes rehashed) = (nid <$> reachable_nodes up).
Proof.
  destruct (network_hash_correct up) as [H1 H2]; [vm_compute; reflexivity|exact toy_hash_long|exact up_reachable| |].
  - right. vm_compute. reflexivity.
  - split; [exact (H1 up_trickle_fine)|]. apply H2. vm_compute. reflexivity.
Defined.

(** The message state with which a handler starts. *)
Definition hm_start : hm := mk_hm start false None false false false (mk_reply None false [] []).
Definition ep_one : ep := new_ep start [101].

Lemma node_state_old_ignored_witness :
  handle_node_state ep_one false hm_start (node_state_msg peer_id 1 0 [0; 0; 0; 0] peer_data) = Some (Next hm_start).
Proof.
  apply (node_state_old_ignored ep_one false hm_start peer_id 1 0 [0; 0; 0; 0] peer_data); [reflexivity..|lia|lia|].
  right. split; [vm_compute; discriminate|]. split; [reflexivity|vm_compute; discriminate].
Defined.

Lemma node_state_accepted_witness :
  exists h' n, handle_node_state ep_one false hm_start (node_state_msg peer_id 1 0 (ext_hash peer_data) peer_data) = Some (Next h') /\
    find_node (hm_o h') peer_id = Some n /\
    (if decide (4 <= length peer_data)%nat then update_number n = 1 /\ tlv_container n = Some peer_data /\
       node_data_hash n = ext_hash peer_data /\ node_data_hash_dirty n = false
     else n = default (new_node (hm_o hm_start) peer_id) (find_node (hm_o hm_start) peer_id)) /\
    forall x, x ≠ peer_id -> find_node (hm_o h') x = find_node (hm_o hm_start) x.
Proof.
  apply (node_state_accepted ep_one hm_start peer_id 1 0 (ext_hash peer_data) peer_data);
    [exact start_inv|reflexivity|reflexivity|lia|lia|vm_compute; discriminate|vm_compute; reflexivity|
     vm_compute; exact I|vm_compute; discriminate|reflexivity].
Defined.

Lemma trickle_set_i_bounds_witness :
  exists o' t', trickle_set_i with_ep (TrEp 1) ep_one 0 = Some o' /\ get_trickle o' (TrEp 1) = Some t' /\
    200 <= tr_i t' <= 40000 /\ tr_c t' = 0 /\
    interval_end_time t' = dncp_time with_ep + tr_i t' /\
    dncp_time with_ep + tr_i t' / 2 <= send_time t' < interval_end_time t'.
Proof.
  apply (trickle_set_i_bounds with_ep 1 ep_one 0 trickle_zero); [cbn; lia|cbn; lia|vm_compute; reflexivity].
Defined.

Lemma update_number_serial_witness :
  (dncp_update_number_gt 4294967295 0 = true <-> 1 <= (0 - 4294967295) mod 2 ^ 32 <= 2 ^ 31) /\
  (dncp_update_number_gt 4294967295 0 = true /\ dncp_update_number_gt 0 4294967295 = true <->
   (0 - 4294967295) mod 2 ^ 32 = 2 ^ 31).
Proof. apply (update_number_serial 4294967295 0); lia. Defined.

Lemma bytes_to_exp_largest_witness :
  (9000 <= 2 ^ 63 -> exists i, _bytes_to_exp 9000 = Some i /\
     ((9000 = 1 /\ i = -1) \/ (0 <= i < 63 /\ 2 ^ i < 9000 <= 2 ^ (i + 1)))) /\
  (2 ^ 63 < 9000 -> forall fuel, bytes_to_exp_loop fuel 9000 1 (-1) = None).
Proof. apply (bytes_to_exp_largest 9000). lia. Defined.

(** Two versions of the data of a node. *)
Definition old_tlvs : list attr := [(8, [1]); (42, [1; 2; 3])].
Definition new_tlvs : list attr := [(8, [2]); (42, [1; 2; 3])].

Lemma tlvs_changed_difference_witness :
  exists o', dncp_notify_subscribers_tlvs_changed peer_id (Some (enc old_tlvs)) (Some (enc new_tlvs)) up = Some o' /\
    nodes o' = nodes up /\
    vlog o' = vlog up ++
      flat_map (fun s => (fun t => TlvChange s peer_id t false) <$> filter (fun t => t ∉ new_tlvs) old_tlvs)
        (subs_of DNCP_CALLBACK_TLV up) ++
      flat_map (fun s => (fun t => TlvChange s peer_id t true) <$> filter (fun t => t ∉ old_tlvs) new_tlvs)
        (subs_of DNCP_CALLBACK_TLV up).
Proof.
  apply (tlvs_changed_difference peer_id (Some (enc old_tlvs)) (Some (enc new_tlvs)) old_tlvs new_tlvs up);
    (split; [decided|reflexivity]).
Defined.

Lemma for_each_tlv_with_type_witness :
  exists ix' k', dncp_node_for_each_tlv_with_t_v tindex_empty (mk_tcache None true) (enc new_tlvs) true 8 false =
      Some (ix', k', if negb false || true then filter (fun t => t.1 = Z.of_nat 8) new_tlvs else []) /\
    tindex_wf ix' /\ cache_ok ix' k' (enc new_tlvs) true.
Proof.
  apply (for_each_tlv_with_type tindex_empty (mk_tcache None true) new_tlvs true 8 false);
    [apply tindex_empty_wf|done|decided|decided].
Defined.
