(* ===== verification/Btrie.v ===== *)
(** The binary trie of prefixes: the model of [src/btrie.c] and of the loops of
    [src/btrie.h], with keys of 32-bit blocks in network byte order.

    A node covers at most the rest of one block, so it stores the bits of that
    block only; the bits before are those of its ancestors.  The pointers of the
    C structure are rendered by locations: a node together with the frames of its
    ancestors.  Elements are values; the list of a node is a Rocq list. *)
From S2P Require Import Prelude Bitops Tlv.

(** ** Blocks of a key *)

Definition index (i : nat) : nat := i / 32.
Definition remain (i : nat) : nat := i mod 32.

Definition full_mask : Z := 0xffffffff.
Definition first_bit_mask : Z := 0x80000000.

(** [nthbit(w, i)] as a truth value. *)
Definition nthbit (w : Z) (i : nat) : bool :=
  bool_decide (Z.land w (Z.shiftr first_bit_mask (Z.of_nat i)) ≠ 0).

(** [mask(len)]: the first [len + 1] bits. *)
Definition mask (len : nat) : Z :=
  let i := Z.of_nat (31 - len) in
  u32 (Z.shiftl (Z.shiftr full_mask i) i).

(** [ntohk(key[i])]. *)
Definition key_block (key : list Z) (i : nat) : option Z := rd32 key (4 * i).

(** [(ntohk(key[index(plen - 1)]) ^ k) & mask(remain(plen - 1))] is not 0. *)
Definition key_differs (key : list Z) (k : Z) (plen : nat) : option bool :=
  w ← key_block key (index (plen - 1));
  Some (bool_decide (Z.land (Z.lxor w k) (mask (remain (plen - 1))) ≠ 0)).

(** [nthbit(ntohk(key[index(i)]), remain(i))]. *)
Definition key_bit (key : list Z) (i : nat) : option bool :=
  w ← key_block key (index i);
  Some (nthbit w (remain i)).

Section btrie.
Context {E : Type} `{!EqDecision E}.

(** [struct btrie]; [Nil] is [NULL]. *)
Inductive btrie := Nil | Node (plen : nat) (key : Z) (elements : list E) (child0 child1 : btrie).

(** The parent of a node, seen from its child on [f_side]. *)
Record bframe := mk_bframe {
  f_plen : nat; f_key : Z; f_elements : list E; f_side : bool; f_sibling : btrie }.

(** A pointer to a node: the node and its ancestors, the nearest first. *)
Definition loc : Type := btrie * list bframe.

Definition up_node (t : btrie) (f : bframe) : btrie :=
  if f_side f then Node (f_plen f) (f_key f) (f_elements f) (f_sibling f) t
  else Node (f_plen f) (f_key f) (f_elements f) t (f_sibling f).

(** The whole trie around a location. *)
Fixpoint plug (t : btrie) (c : list bframe) : btrie :=
  match c with
  | [] => t
  | f :: c => plug (up_node t f) c
  end.

(** [n->parent]. *)
Definition parent (l : loc) : option loc :=
  match l.2 with
  | [] => None
  | f :: c => Some (up_node l.1 f, c)
  end.

(** [n->child[side]]. *)
Definition child (side : bool) (t : btrie) : btrie :=
  match t with
  | Nil => Nil
  | Node _ _ _ l r => if side then r else l
  end.

(** The location of that child. *)
Definition child_loc (side : bool) (l : loc) : option loc :=
  match l.1 with
  | Nil => None
  | Node p k es l0 r0 => Some (if side then (r0, mk_bframe p k es true l0 :: l.2)
                               else (l0, mk_bframe p k es false r0 :: l.2))
  end.

Definition is_nil (t : btrie) : bool := match t with Nil => true | _ => false end.

Definition elements_of (t : btrie) : list E := match t with Nil => [] | Node _ _ es _ _ => es end.

(** ** Lookup *)

(** The deepest node on the way to the key. *)
Fixpoint btrie_node_lookup (t : btrie) (c : list bframe) (key : list Z) (plen : nat) : option loc :=
  match t with
  | Nil => None
  | Node p k es l r =>
    if decide (p <= plen)%nat then
      d ← (if decide (p = 0)%nat then Some false else key_differs key k p);
      if (d : bool) then parent (t, c)
      else if decide (p = plen) then Some (t, c)
      else
        b ← key_bit key p;
        if (b : bool) then
          if is_nil r then Some (t, c) else btrie_node_lookup r (mk_bframe p k es true l :: c) key plen
        else
          if is_nil l then Some (t, c) else btrie_node_lookup l (mk_bframe p k es false r :: c) key plen
    else parent (t, c)
  end.

(** ** Insertion *)

(** New nodes below [n] on [side], one for each block up to [plen]. *)
Fixpoint btrie_add_leaf (fuel : nat) (n : loc) (side : bool) (key : list Z) (plen : nat) : option loc :=
  match fuel, n.1 with
  | S fuel, Node p k es l r =>
    let next_i := index p in
    w ← key_block key next_i;
    let f := mk_bframe p k es side (if side then l else r) in
    if decide (index (plen - 1) = next_i) then Some (Node plen w [] Nil Nil, f :: n.2)
    else
      b ← key_bit key (32 * (next_i + 1));
      btrie_add_leaf fuel (Node (32 * (next_i + 1)) w [] Nil Nil, f :: n.2) b key plen
  | _, _ => None
  end.

(** The loop of [btrie_longest_match_node]. *)
Fixpoint match_loop (fuel : nat) (no_mask no_maxmask diff : Z) (match_len : nat) : nat :=
  match fuel with
  | O => match_len
  | S fuel =>
    if decide (no_mask = no_maxmask) then match_len
    else
      let no_mask := Z.shiftr no_mask 1 in
      if decide (no_mask = 0) then match_len
      else if decide (Z.land diff (Z.lnot no_mask) = 0)
      then match_loop fuel no_mask no_maxmask diff (match_len + 1)
      else match_len
  end.

(** How far a key agrees with a node, from [min_match] on; a block has 32 bits. *)
Definition btrie_longest_match_node (current : btrie) (key : list Z) (plen min_match : nat) : option nat :=
  match current with
  | Nil => None
  | Node p k _ _ _ =>
    let max_match := Nat.min p plen in
    w ← key_block key (index (min_match - 1));
    Some (match_loop 32 (full_mask - mask (remain (min_match - 1))) (full_mask - mask (remain (max_match - 1)))
            (Z.lxor w k) min_match)
  end.

(** A node for the common part of the key and of [current]. *)
Definition btrie_solve_conflict (current : loc) (key : list Z) (plen min_match : nat) : option loc :=
  match current.1 with
  | Nil => None
  | Node _ ck _ _ _ =>
    match_len ← btrie_longest_match_node current.1 key plen min_match;
    w ← key_block key (index (match_len - 1));
    if nthbit ck (remain match_len) then
      let node := (Node match_len w [] Nil current.1, current.2) in
      if decide (match_len = plen) then Some node else btrie_add_leaf (plen / 32 + 2) node false key plen
    else
      let node := (Node match_len w [] current.1 Nil, current.2) in
      if decide (match_len = plen) then Some node else btrie_add_leaf (plen / 32 + 2) node true key plen
  end.

Definition btrie_node_add (n : loc) (key : list Z) (plen : nat) : option loc :=
  match n.1 with
  | Nil => None
  | Node p _ _ _ _ =>
    b ← key_bit key p;
    next ← child_loc b n;
    if is_nil next.1 then btrie_add_leaf (plen / 32 + 2) n b key plen
    else btrie_solve_conflict next key plen (p + 1)
  end.

Definition btrie_node_goc (root : btrie) (key : list Z) (len : nat) (create : bool) : option (option loc) :=
  n ← btrie_node_lookup root [] key len;
  match n.1 with
  | Nil => None
  | Node p _ _ _ _ =>
    if decide (p = len) then Some (Some n)
    else if create then m ← btrie_node_add n key len; Some (Some m)
    else Some None
  end.

Definition btrie_init : btrie := Node 0 0 [] Nil Nil.

Definition btrie_add (root : btrie) (e : E) (key : list Z) (len : nat) : option btrie :=
  n ← btrie_node_goc root key len true;
  n ← n;
  match n.1 with
  | Nil => None
  | Node p k es l r => Some (plug (Node p k (es ++ [e]) l r) n.2)
  end.

(** ** Removal *)

(** Drop a node that is no longer needed, then perhaps its parent. *)
Fixpoint btrie_delete_maybe (n : btrie) (c : list bframe) : btrie :=
  match c, n with
  | f :: c', Node p k [] l r =>
    if is_nil l || is_nil r then
      let o := if is_nil l then r else l in
      if is_nil o then btrie_delete_maybe (up_node Nil f) c'
      else if decide (remain p = 0)%nat then plug n c
      else plug (up_node o f) c'
    else plug n c
  | _, _ => plug n c
  end.

(** [e->node]: the node that has the element. *)
Fixpoint element_node (e : E) (t : btrie) (c : list bframe) : option loc :=
  match t with
  | Nil => None
  | Node p k es l r =>
    if decide (e ∈ es) then Some (t, c)
    else
      match element_node e l (mk_bframe p k es false r :: c) with
      | Some n => Some n
      | None => element_node e r (mk_bframe p k es true l :: c)
      end
  end.

Definition btrie_remove (root : btrie) (e : E) : option btrie :=
  n ← element_node e root [];
  match n.1 with
  | Nil => None
  | Node p k es l r =>
    let es' := filter (fun x => x ≠ e) es in
    Some (if decide (es' = []) then btrie_delete_maybe (Node p k es' l r) n.2
          else plug (Node p k es' l r) n.2)
  end.

(** ** Iteration over elements

    A position is a location and the elements of its list that follow; for the
    list head of a node these are all its elements.  The result of a step is the
    next element with its position. *)

Definition pos : Type := loc * list E.

Definition head_pos (n : loc) : pos := (n, elements_of n.1).

(** The elements of the node of the key. *)
Definition btrie_for_each (root : btrie) (key : list Z) (len : nat) : option (list E) :=
  n ← btrie_node_goc root key len false;
  Some (match n with Some n => elements_of n.1 | None => [] end).

(** [btrie_next_up]. *)
Fixpoint btrie_next_up (t : btrie) (c : list bframe) (rest : list E) : option (E * pos) :=
  match rest with
  | e :: rest => Some (e, ((t, c), rest))
  | [] =>
    match c with
    | f :: c' => btrie_next_up (up_node t f) c' (f_elements f)
    | [] => None
    end
  end.

(** The labels of [btrie_next_down]; [DNext] has the elements that follow. *)
Inductive down_label := DNext (rest : list E) | DRight | DUp.

(** [None] when the rounds are used up, [Some None] for [NULL]. *)
Fixpoint next_down_loop (fuel : nat) (lbl : down_label) (n : loc) (len : nat) : option (option (E * pos)) :=
  match fuel with
  | O => None
  | S fuel =>
    match lbl with
    | DNext (e :: rest) => Some (Some (e, (n, rest)))
    | DNext [] =>
      l ← child_loc false n;
      if is_nil l.1 then next_down_loop fuel DRight n len
      else next_down_loop fuel (DNext (elements_of l.1)) l len
    | DRight =>
      r ← child_loc true n;
      if is_nil r.1 then next_down_loop fuel DUp n len
      else next_down_loop fuel (DNext (elements_of r.1)) r len
    | DUp =>
      match n.2 with
      | [] => Some None
      | f :: c =>
        if decide (f_plen f < len)%nat then Some None
        else next_down_loop fuel (if f_side f then DUp else DRight) (up_node n.1 f, c) len
      end
    end
  end.

Fixpoint nodes_in (t : btrie) : nat :=
  match t with
  | Nil => 0
  | Node _ _ _ l r => 1 + nodes_in l + nodes_in r
  end.

(** Every node is entered, left to the right and left upwards at most once. *)
Definition btrie_next_down (p : pos) (len : nat) : option (option (E * pos)) :=
  next_down_loop (3 * nodes_in (plug p.1.1 p.1.2) + 1) (DNext p.2) p.1 len.

(** The node from which the elements below the key start. *)
Definition btrie_first_down_node (root : btrie) (key : list Z) (len : nat) : option (option loc) :=
  n ← btrie_node_lookup root [] key len;
  match n.1 with
  | Nil => None
  | Node p _ _ _ _ =>
    if decide (p = len) then Some (Some n)
    else
      b ← key_bit key p;
      ch ← child_loc b n;
      match ch.1 with
      | Nil => Some None
      | Node cp ck _ _ _ =>
        if decide (cp <= len)%nat then Some None
        else
          w ← key_block key (index p);
          if decide (Z.land (Z.lxor w ck) (mask (remain (len - 1))) ≠ 0) then Some None
          else Some (Some ch)
      end
  end.

Definition btrie_first_down (root : btrie) (key : list Z) (len : nat) : option (option (E * pos)) :=
  n ← btrie_first_down_node root key len;
  match n with
  | None => Some None
  | Some n => btrie_next_down (head_pos n) len
  end.

(** The part of [btrie_next_updown] above the key: down from node [t] whose
    following elements are [rest]. *)
Fixpoint next_updown_loop (t : btrie) (c : list bframe) (rest : list E) (key : list Z) (len : nat)
  : option (option (E * pos)) :=
  match rest with
  | e :: rest => Some (Some (e, ((t, c), rest)))
  | [] =>
    match t with
    | Nil => None
    | Node p k es l r =>
      b ← key_bit key p;
      let go (ch : btrie) (f : bframe) (again : option (option (E * pos))) :=
        match ch with
        | Nil => Some None
        | Node cp ck ces _ _ =>
          if decide (len <= cp)%nat then
            d ← key_differs key ck len;
            if (d : bool) then Some None else btrie_next_down ((ch, f :: c), ces) len
          else
            d ← key_differs key ck cp;
            if (d : bool) then Some None else again
        end in
      if (b : bool) then
        let f := mk_bframe p k es true l in
        go r f (next_updown_loop r (f :: c) (elements_of r) key len)
      else
        let f := mk_bframe p k es false r in
        go l f (next_updown_loop l (f :: c) (elements_of l) key len)
    end
  end.

Definition btrie_next_updown (p : pos) (key : list Z) (len : nat) : option (option (E * pos)) :=
  match p.1.1 with
  | Nil => None
  | Node pl _ _ _ _ =>
    if decide (len <= pl)%nat then btrie_next_down p len
    else next_updown_loop p.1.1 p.1.2 p.2 key len
  end.

Definition btrie_first_updown (root : btrie) (key : list Z) (len : nat) : option (option (E * pos)) :=
  btrie_next_updown (head_pos (root, [])) key len.

(** [for (e = first; e; e = next(e))]: the elements seen. *)
Fixpoint for_each (fuel : nat) (next : pos -> option (option (E * pos))) (first : option (option (E * pos)))
  : option (list E) :=
  match fuel with
  | O => None
  | S fuel =>
    r ← first;
    match r with
    | None => Some []
    | Some (e, p) => es ← for_each fuel next (next p); Some (e :: es)
    end
  end.

Fixpoint elements_in (t : btrie) : nat :=
  match t with
  | Nil => 0
  | Node _ _ es l r => length es + elements_in l + elements_in r
  end.

(** [btrie_for_each_down], [btrie_for_each_updown] and [btrie_for_each_up]. *)
Definition btrie_for_each_down (root : btrie) (key : list Z) (len : nat) : option (list E) :=
  for_each (elements_in root + 1) (fun p => btrie_next_down p len) (btrie_first_down root key len).

Definition btrie_for_each_updown (root : btrie) (key : list Z) (len : nat) : option (list E) :=
  for_each (elements_in root + 1) (fun p => btrie_next_updown p key len) (btrie_first_updown root key len).

Definition btrie_first_up (root : btrie) (key : list Z) (len : nat) : option (option (E * pos)) :=
  n ← btrie_node_lookup root [] key len;
  Some (btrie_next_up n.1 n.2 (elements_of n.1)).

Definition btrie_for_each_up (root : btrie) (key : list Z) (len : nat) : option (list E) :=
  for_each (elements_in root + 1) (fun p => Some (btrie_next_up p.1.1 p.1.2 p.2)) (btrie_first_up root key len).

(** ** Iteration over available keys

    A key is available when no element has a key that contains it or that it
    contains.  The iteration walks over the bits of the trie and returns the
    available keys that are not part of a larger one. *)

(** [btrie_keyleft] and [btrie_keyright]: write bit [i] of the key. *)
Definition key_set (key : list Z) (i : nat) (v : bool) : option (list Z) :=
  w ← key_block key (index i);
  let m := Z.shiftr first_bit_mask (Z.of_nat (remain i)) in
  wr32 key (4 * index i) (if v then Z.lor w m else Z.land w (full_mask - m)).

(** The result of a step: a node, or [__bt_all_available]. *)
Inductive avail_node := AllAvailable | AtNode (n : loc).

Inductive avail_label := ANode | ALeft | ARight | AUp.

(** [__btrie_next_available] from a label: the node, [None] for [NULL], and what is
    then in [iter_key] and [iter_len]. *)
Fixpoint next_available_loop (fuel : nat) (lbl : avail_label) (prev : loc) (key : list Z) (len contain_len : nat)
  : option (option loc * list Z * nat) :=
  match fuel, prev.1 with
  | S fuel, Node p k es l r =>
    match lbl with
    | ANode =>
      if decide (len = p) then
        if decide (es = []) then
          if is_nil l && is_nil r then Some (Some prev, key, len)
          else next_available_loop fuel ALeft prev key len contain_len
        else next_available_loop fuel AUp prev key len contain_len
      else next_available_loop fuel ALeft prev key len contain_len
    | ALeft =>
      key' ← key_set key len false;
      if decide (len = p) then
        if is_nil l then Some (Some prev, key', (len + 1)%nat)
        else ch ← child_loc false prev; next_available_loop fuel ANode ch key' (len + 1) contain_len
      else if nthbit k (remain len) then Some (Some prev, key', (len + 1)%nat)
      else next_available_loop fuel ANode prev key' (len + 1) contain_len
    | ARight =>
      key' ← key_set key len true;
      if decide (len = p) then
        if is_nil r then Some (Some prev, key', (len + 1)%nat)
        else ch ← child_loc true prev; next_available_loop fuel ANode ch key' (len + 1) contain_len
      else if nthbit k (remain len) then next_available_loop fuel ANode prev key' (len + 1) contain_len
      else Some (Some prev, key', (len + 1)%nat)
    | AUp =>
      if decide (len = contain_len) then Some (None, key, len)
      else
        let len := (len - 1)%nat in
        last_bit ← key_bit key len;
        let prev := match prev.2 with
          | f :: c => if decide (f_plen f = len) then (up_node prev.1 f, c) else prev
          | [] => prev
          end in
        next_available_loop fuel (if (last_bit : bool) then AUp else ARight) prev key len contain_len
    end
  | _, _ => None
  end.

(** Enough rounds to walk over every bit of every node. *)
Definition avail_fuel (n : loc) : nat := 200 * (nodes_in (plug n.1 n.2) + 1).

Definition __btrie_next_available (prev : avail_node) (key : list Z) (len contain_len : nat) (lbl : avail_label)
  : option (option avail_node * list Z * nat) :=
  match prev with
  | AllAvailable => Some (None, key, len)
  | AtNode n =>
    '(r, key, len) ← next_available_loop (avail_fuel n) lbl n key len contain_len;
    Some (option_map AtNode r, key, len)
  end.

Definition btrie_next_available (prev : avail_node) (key : list Z) (len contain_len : nat)
  : option (option avail_node * list Z * nat) :=
  __btrie_next_available prev key len contain_len AUp.

Definition btrie_longest_match (root : btrie) (key : list Z) (len : nat) : option (loc * nat) :=
  n ← btrie_node_lookup root [] key len;
  match n.1 with
  | Nil => None
  | Node p _ _ _ _ =>
    if decide (p = len) then Some (n, p)
    else
      b ← key_bit key p;
      ch ← child_loc b n;
      if is_nil ch.1 then Some (n, p)
      else m ← btrie_longest_match_node ch.1 key len (p + 1); Some (ch, m)
  end.

(** The loop of [btrie_longest_match_available] over [check] and its ancestors. *)
Fixpoint check_available (t : btrie) (c : list bframe) (contain_len : nat) (node : loc) (match_len : nat)
  : option (option loc * nat) :=
  match t with
  | Nil => None
  | Node p _ es _ _ =>
    '(r, match_len) ← (if decide (es = []) then Some (Some node, match_len)
         else if decide (p <= contain_len)%nat then Some (None, match_len)
         else
           match c with
           | [] => None
           | f :: c' => Some (Some (if decide (f_plen f = p - 1)%nat then (up_node t f, c') else (t, c)), (p - 1)%nat)
           end);
    match r, c with
    | None, _ => Some (None, match_len)
    | Some node, [] => Some (Some node, match_len)
    | Some node, f :: c' => check_available (up_node t f) c' contain_len node match_len
    end
  end.

Definition btrie_longest_match_available (root : btrie) (key : list Z) (contain_len first_len : nat)
  : option (option loc * nat) :=
  '(node, match_len) ← btrie_longest_match root key first_len;
  match node.1 with
  | Nil => None
  | Node p _ _ _ _ =>
    check ← (if decide (match_len < p)%nat then parent node else Some node);
    check_available check.1 check.2 contain_len node match_len
  end.

Definition __btrie_first_available (root : btrie) (iter_key contain_key : list Z) (contain_len first_len : nat)
  : option (option avail_node * list Z * nat) :=
  let first_len := if decide (first_len < contain_len)%nat then contain_len else first_len in
  iter_key ← (if decide (first_len = 0)%nat then Some iter_key
              else b ← rdn contain_key 0 ((first_len - 1) / 8 + 1); wrn iter_key 0 b);
  '(r, iter_len) ← btrie_longest_match_available root contain_key contain_len first_len;
  match r with
  | None => Some (None, iter_key, iter_len)
  | Some node =>
    if decide (iter_len < contain_len)%nat then Some (Some AllAvailable, iter_key, contain_len)
    else if decide (iter_len < first_len)%nat then
      b ← key_bit contain_key iter_len;
      __btrie_next_available (AtNode node) iter_key iter_len contain_len (if (b : bool) then ARight else ALeft)
    else __btrie_next_available (AtNode node) iter_key iter_len contain_len ANode
  end.

Definition btrie_first_available (root : btrie) (iter_key contain_key : list Z) (contain_len : nat)
  : option (option avail_node * list Z * nat) :=
  __btrie_first_available root iter_key contain_key contain_len contain_len.

Definition btrie_first_available_loop (root : btrie) (iter_key contain_key : list Z) (contain_len first_len : nat)
  : option (option avail_node * list Z * nat) :=
  __btrie_first_available root iter_key contain_key contain_len first_len.

(** [btrie_for_each_available]: the keys seen, with their lengths. *)
Fixpoint available_rest (fuel : nat) (r : option (option avail_node * list Z * nat)) (contain_len : nat)
  : option (list (list Z * nat)) :=
  match fuel with
  | O => None
  | S fuel =>
    '(n, key, len) ← r;
    match n with
    | None => Some []
    | Some n =>
      rest ← available_rest fuel (btrie_next_available n key len contain_len) contain_len;
      Some ((key, len) :: rest)
    end
  end.

(** The keys are beside the bits of the nodes; no more than the rounds of a walk. *)
Definition btrie_for_each_available (root : btrie) (iter_key contain_key : list Z) (contain_len : nat)
  : option (list (list Z * nat)) :=
  available_rest (avail_fuel (root, []) + 1) (btrie_first_available root iter_key contain_key contain_len) contain_len.

(** The ancestors of [prev] that are inside the key of length [contain_len]. *)
Fixpoint rewind (t : btrie) (c : list bframe) (contain_len : nat) : loc :=
  match c with
  | f :: c' => if decide (contain_len <= f_plen f)%nat then rewind (up_node t f) c' contain_len else (t, c)
  | [] => (t, c)
  end.

Definition btrie_next_available_loop (prev : avail_node) (key : list Z) (len contain_len : nat)
  : option (option avail_node * list Z * nat) :=
  match prev with
  | AllAvailable => Some (Some AllAvailable, key, len)
  | AtNode n =>
    '(p2, key, len) ← __btrie_next_available prev key len contain_len AUp;
    match p2 with
    | Some p2 => Some (Some p2, key, len)
    | None => __btrie_next_available (AtNode (rewind n.1 n.2 contain_len)) key contain_len contain_len ANode
    end
  end.

(** ** Available space *)

Definition BTRIE_AVAILABLE_ALL : Z := 0x8000000000000000.

Inductive space_label := SNode | SRight | SUp.

(** The share of the space beside the bits [next_len] to [max] of a node; shifts
    of 64 and more are undefined. *)
Definition branch_space (len next_len max : nat) : option Z :=
  let left := (next_len - len + 1)%nat in
  let right := (64 - (max - len + 1))%nat in
  if decide (64 <= left + right)%nat then None
  else Some (Z.shiftl (Z.shiftr (u64 (Z.shiftl (2 ^ 64 - 1) (Z.of_nat left))) (Z.of_nat (left + right)))
                      (Z.of_nat right)).

Fixpoint available_space_loop (fuel : nat) (lbl : space_label) (n : loc) (len target_len next_len : nat) (count : Z)
  : option Z :=
  match fuel, n.1 with
  | S fuel, Node p k es l r =>
    match lbl with
    | SNode =>
      add ← (if decide (next_len < p)%nat then
               branch_space len next_len (if decide (target_len < p)%nat then len + 63 else p)%nat
             else Some 0);
      let count := u64 (count + add) in
      if bool_decide (es ≠ []) || bool_decide (target_len <= p)%nat then
        available_space_loop fuel SUp n len target_len next_len count
      else if is_nil l then
        available_space_loop fuel SRight n len target_len next_len
          (u64 (count + Z.shiftr BTRIE_AVAILABLE_ALL (Z.of_nat (p + 1 - len))))
      else
        ch ← child_loc false n;
        available_space_loop fuel SNode ch len target_len (p + 1) count
    | SRight =>
      if is_nil r then
        available_space_loop fuel SUp n len target_len next_len
          (u64 (count + Z.shiftr BTRIE_AVAILABLE_ALL (Z.of_nat (p + 1 - len))))
      else
        ch ← child_loc true n;
        available_space_loop fuel SNode ch len target_len (p + 1) count
    | SUp =>
      match n.2 with
      | [] => Some count
      | f :: c =>
        if decide (f_plen f < len)%nat then Some count
        else available_space_loop fuel (if f_side f then SUp else SRight) (up_node n.1 f, c) len target_len next_len count
      end
    end
  | _, _ => None
  end.

Definition btrie_available_space (root : btrie) (key : list Z) (len target_len : nat) : option Z :=
  '(r, next_len) ← btrie_longest_match_available root key len len;
  match r with
  | None => Some 0
  | Some node =>
    if decide (next_len < len)%nat then Some BTRIE_AVAILABLE_ALL
    else
      let target_len := if decide (63 < target_len - len)%nat then (len + 63)%nat else target_len in
      available_space_loop (3 * nodes_in root + 1) SNode node len target_len next_len 0
  end.

(** [btrie_available_prefixes_count]. *)
Definition btrie_available_prefixes_count (root : btrie) (key : list Z) (len target_len : nat) : option Z :=
  s ← btrie_available_space root key len target_len;
  Some (Z.shiftr s (Z.of_nat (63 - (target_len - len)))).

End btrie.

Arguments btrie : clear implicits.
Arguments bframe : clear implicits.
Arguments loc : clear implicits.
Arguments pos : clear implicits.
Arguments avail_node : clear implicits.
