(* ===== verification/BtrieBits.v ===== *)
(** The bits of the trie's keys: blocks of 32 bits read from a key, the masks of
    [src/btrie.c] as comparisons of bits, and the loop that finds how far a key
    agrees with a node. *)
From S2P Require Import Prelude Bitops Tlv Btrie.

(** ** Bits of blocks *)

Definition wbit (w : Z) (j : nat) : bool := Z.testbit w (31 - Z.of_nat j).

Lemma shiftr_first_bit i : (i < 32)%nat -> Z.shiftr first_bit_mask (Z.of_nat i) = 2 ^ (31 - Z.of_nat i).
Proof.
  intros Hi. change first_bit_mask with (2 ^ 31). rewrite Z.shiftr_div_pow2 by lia.
  symmetry. rewrite <- Z.pow_sub_r by lia. done.
Qed.

Lemma land_pow2 w i : 0 <= i -> Z.land w (2 ^ i) ≠ 0 <-> Z.testbit w i = true.
Proof.
  intros Hi. split.
  - intros H. destruct (Z.testbit w i) eqn:E; [done|]. destruct H. apply Z.bits_inj'. intros j Hj.
    rewrite Z.land_spec, Z.pow2_bits_eqb, Z.testbit_0_l by done.
    destruct (Z.eqb_spec i j) as [<-|]; [by rewrite E|by rewrite andb_false_r].
  - intros E H. assert (Z.testbit (Z.land w (2 ^ i)) i = true) as F.
    { by rewrite Z.land_spec, E, Z.pow2_bits_eqb, Z.eqb_refl by done. }
    by rewrite H, Z.testbit_0_l in F.
Qed.

Lemma nthbit_wbit w i : (i < 32)%nat -> nthbit w i = wbit w i.
Proof.
  intros Hi. unfold nthbit, wbit. rewrite shiftr_first_bit by done.
  apply eq_true_iff_eq. rewrite bool_decide_eq_true. apply land_pow2. lia.
Qed.

Lemma mask_testbit_block len i : (len < 32)%nat -> 0 <= i ->
  Z.testbit (mask len) i = bool_decide (31 - Z.of_nat len <= i <= 31).
Proof.
  intros Hl Hi. unfold mask. replace (Z.of_nat (31 - len)) with (31 - Z.of_nat len) by lia.
  unfold u32. change full_mask with (Z.ones 32).
  destruct (decide (i < 32)) as [H|H]; [|rewrite Z.mod_pow2_bits_high by lia; by rewrite bool_decide_false by lia].
  rewrite Z.mod_pow2_bits_low by lia. rewrite Z.shiftl_spec by done.
  destruct (decide (31 - Z.of_nat len <= i)) as [H'|H'].
  - rewrite Z.shiftr_spec by lia. rewrite Z.ones_spec_low by lia. by rewrite bool_decide_true by lia.
  - rewrite Z.testbit_neg_r by lia. by rewrite bool_decide_false by lia.
Qed.

(** Buffers that are made of blocks. *)
Definition key_ok (key : list Z) : Prop := bytes_ok key /\ (length key mod 4 = 0)%nat.

#[global] Instance key_ok_dec key : Decision (key_ok key).
Proof. unfold key_ok. apply _. Defined.

Lemma of_be32_bits l j : bytes_ok l -> length l = 4%nat -> (j < 32)%nat -> wbit (of_be32 l) j = bit l j.
Proof.
  intros Hb Hl Hj. destruct l as [|a [|b [|c [|d [|]]]]]; try done. unfold bytes_ok in Hb. rewrite !Forall_cons in Hb.
  destruct Hb as (Ha & Hb & Hc & Hd & _). unfold wbit, of_be32, bit. cbn [foldl].
  replace (256 * (256 * (256 * (256 * 0 + a) + b) + c) + d) with (d + 256 * (c + 256 * (b + 256 * a))) by lia.
  destruct (decide (24 <= j)%nat); [|destruct (decide (16 <= j)%nat); [|destruct (decide (8 <= j)%nat)]].
  - replace (j / 8)%nat with 3%nat by lia. rewrite word_testbit, decide_True by (done || lia). cbn. f_equal. lia.
  - replace (j / 8)%nat with 2%nat by lia. rewrite word_testbit, decide_False by (done || lia).
    rewrite word_testbit, decide_True by (done || lia). cbn. f_equal. lia.
  - replace (j / 8)%nat with 1%nat by lia. do 2 rewrite word_testbit, decide_False by (done || lia).
    rewrite word_testbit, decide_True by (done || lia). cbn. f_equal. lia.
  - replace (j / 8)%nat with 0%nat by lia. do 3 rewrite word_testbit, decide_False by (done || lia).
    cbn. f_equal. lia.
Qed.

Lemma bit_take_drop l s n j : (s + n <= length l)%nat -> (j < 8 * n)%nat ->
  bit (take n (drop s l)) j = bit l (8 * s + j).
Proof.
  intros Hl Hj. unfold bit. rewrite lookup_take_lt, lookup_drop by lia.
  replace ((8 * s + j) / 8)%nat with (s + j / 8)%nat by lia.
  by replace ((8 * s + j) mod 8)%nat with (j mod 8)%nat by lia.
Qed.

Lemma key_block_Some key i : key_ok key -> (32 * i < 8 * length key)%nat ->
  exists w, key_block key i = Some w /\ 0 <= w < 2 ^ 32 /\
    forall j, (j < 32)%nat -> wbit w j = bit key (32 * i + j).
Proof.
  intros [Hb Hl] Hi. unfold key_block, rd32. rewrite rdn_Some by lia.
  set (l := take 4 (drop (4 * i) key)).
  assert (Hlb : bytes_ok l) by (by apply Forall_take, Forall_drop).
  assert (Hll : length l = 4%nat) by (unfold l; rewrite length_take, length_drop; lia).
  exists (of_be32 l). split; [done|]. split.
  - destruct l as [|a [|b [|c [|d [|]]]]]; try done. unfold bytes_ok, byte_ok in Hlb. rewrite !Forall_cons in Hlb.
    unfold of_be32. cbn [foldl]. lia.
  - intros j Hj. rewrite of_be32_bits by done. unfold l. rewrite bit_take_drop by lia. f_equal. lia.
Qed.

Lemma key_bit_Some key i : key_ok key -> (i < 8 * length key)%nat -> key_bit key i = Some (bit key i).
Proof.
  intros Hk Hi. unfold key_bit, index, remain.
  assert (length key mod 4 = 0)%nat by apply Hk.
  destruct (key_block_Some key (i / 32) Hk) as (w & -> & _ & Hw); [lia|]. cbn.
  rewrite nthbit_wbit, Hw by lia. do 2 f_equal. lia.
Qed.

(** The first bit of the last block of a key of length [p]. *)
Definition blk (p : nat) : nat := 32 * ((p - 1) / 32).

(** The bits of a node of length [p] in its own block. *)
Definition own (k : Z) (p : nat) : list bool := wbit k <$> seq 0 (p - blk p).

Lemma blk_bounds p : (blk p <= p)%nat /\ (p - blk p <= 32)%nat /\ (0 < p -> blk p < p)%nat.
Proof. unfold blk. lia. Qed.

Lemma length_own k p : length (own k p) = (p - blk p)%nat.
Proof. unfold own. by rewrite length_fmap, length_seq. Qed.

Lemma list_eq_seq {A} (f g : nat -> A) s t n :
  f <$> seq s n = g <$> seq t n <-> forall j, (j < n)%nat -> f (s + j)%nat = g (t + j)%nat.
Proof.
  split.
  - intros H j Hj. assert ((f <$> seq s n) !! j = (g <$> seq t n) !! j) as E by (by rewrite H).
    rewrite !list_lookup_fmap, !lookup_seq_lt in E by done. by injection E.
  - intros H. apply list_eq. intros j. rewrite !list_lookup_fmap.
    destruct (decide (j < n)%nat); [|by rewrite !lookup_seq_ge by lia].
    rewrite !lookup_seq_lt by done. cbn. by rewrite H.
Qed.

(** Bits of a xor that are 0 are those where the words agree. *)
Lemma land_lxor_zero w k m : 0 <= w < 2 ^ 32 -> 0 <= m ->
  Z.land (Z.lxor w k) m = 0 <-> forall i, 0 <= i -> Z.testbit m i = true -> Z.testbit w i = Z.testbit k i.
Proof.
  intros Hw Hm. split.
  - intros E i Hi Hmi. assert (Z.testbit (Z.land (Z.lxor w k) m) i = false) as F by (by rewrite E, Z.testbit_0_l).
    rewrite Z.land_spec, Z.lxor_spec, Hmi, andb_true_r in F. by destruct (Z.testbit w i), (Z.testbit k i).
  - intros H. apply Z.bits_inj'. intros i Hi. rewrite Z.land_spec, Z.lxor_spec, Z.testbit_0_l.
    destruct (Z.testbit m i) eqn:E; [|by rewrite andb_false_r]. rewrite (H i Hi E). by rewrite xorb_nilpotent.
Qed.

Lemma mask_nonneg len : (len < 32)%nat -> 0 <= mask len.
Proof. intros. unfold mask, u32. apply Z.mod_pos_bound. lia. Qed.

Lemma key_differs_Some key k p : key_ok key -> (0 < p <= 8 * length key)%nat ->
  key_differs key k p = Some (bool_decide (own k p ≠ bits key (blk p) (p - blk p))).
Proof.
  intros Hk Hp. unfold key_differs, index, remain. assert (length key mod 4 = 0)%nat by apply Hk.
  destruct (key_block_Some key ((p - 1) / 32) Hk) as (w & -> & Hw & Hwb); [lia|]. cbn. f_equal.
  apply bool_decide_ext. apply not_iff_compat.
  rewrite land_lxor_zero by (done || apply mask_nonneg; lia). unfold own, bits. rewrite list_eq_seq. split.
  - intros H' j Hj. replace (blk p + j)%nat with (32 * ((p - 1) / 32) + j)%nat by (unfold blk; lia).
    rewrite <- Hwb by (unfold blk in Hj; lia). unfold wbit. cbn [Nat.add]. symmetry. apply H'; unfold blk in Hj; [lia|].
    rewrite mask_testbit_block by lia. apply bool_decide_true. lia.
  - intros H' i Hi Hm. rewrite mask_testbit_block in Hm by lia. apply bool_decide_eq_true in Hm.
    specialize (H' (Z.to_nat (31 - i))). unfold blk in H'. specialize (H' ltac:(lia)). cbn [Nat.add] in H'.
    rewrite <- Hwb in H' by lia. unfold wbit in H'. replace (31 - Z.of_nat (Z.to_nat (31 - i))) with i in H' by lia. done.
Qed.

(** ** The longest match *)

Definition agree (w k : Z) (n : nat) : Prop := forall j, (j < n)%nat -> wbit w j = wbit k j.

Lemma land_lnot_ones w k a : 0 <= w < 2 ^ 32 -> 0 <= k < 2 ^ 32 -> (a <= 32)%nat ->
  Z.land (Z.lxor w k) (Z.lnot (2 ^ Z.of_nat a - 1)) = 0 <-> agree w k (32 - a).
Proof.
  intros Hw Hk Ha.
  assert (Hones : 2 ^ Z.of_nat a - 1 = Z.ones (Z.of_nat a)) by (rewrite Z.ones_equiv; lia). rewrite Hones.
  assert (Hx : forall z i, 0 <= z < 2 ^ 32 -> 32 <= i -> Z.testbit z i = false).
  { intros z i Hz Hi. rewrite <- (Z.mod_small z (2 ^ 32)) by done. apply Z.mod_pow2_bits_high. lia. }
  split.
  - intros E j Hj. unfold wbit. set (i := 31 - Z.of_nat j).
    assert (Z.testbit (Z.land (Z.lxor w k) (Z.lnot (Z.ones (Z.of_nat a)))) i = false) as F by (by rewrite E, Z.testbit_0_l).
    rewrite Z.land_spec, Z.lnot_spec, Z.lxor_spec in F by lia. rewrite Z.ones_spec_high in F by lia.
    by destruct (Z.testbit w i), (Z.testbit k i).
  - intros H. apply Z.bits_inj'. intros i Hi. rewrite Z.land_spec, Z.lnot_spec, Z.lxor_spec, Z.testbit_0_l by done.
    destruct (decide (i < Z.of_nat a)) as [Hlt|Hge]; [rewrite Z.ones_spec_low by lia; by rewrite andb_false_r|].
    rewrite Z.ones_spec_high by lia. destruct (decide (i < 32)) as [Hi'|Hi']; [|by rewrite !Hx by (done || lia)].
    specialize (H (Z.to_nat (31 - i)) ltac:(lia)). unfold wbit in H.
    replace (31 - Z.of_nat (Z.to_nat (31 - i))) with i in H by lia. rewrite H. by rewrite xorb_nilpotent.
Qed.

Lemma match_loop_spec fuel a a1 w k ml : 0 <= w < 2 ^ 32 -> 0 <= k < 2 ^ 32 ->
  (a1 <= a <= 32)%nat -> (a <= fuel)%nat -> agree w k (32 - a) -> (a1 = 0%nat -> ~ agree w k 32) ->
  exists n, match_loop fuel (2 ^ Z.of_nat a - 1) (2 ^ Z.of_nat a1 - 1) (Z.lxor w k) ml = (ml + n)%nat /\
    (n <= a - a1)%nat /\ agree w k (32 - a + n) /\
    (n = (a - a1)%nat \/ wbit w (32 - a + n) ≠ wbit k (32 - a + n)).
Proof.
  intros Hw Hk. revert a ml. induction fuel as [|fuel IH]; intros a ml Ha Hf Hag Hend.
  { exists 0%nat. cbn [match_loop]. rewrite !Nat.add_0_r. split; [done|]. split; [lia|]. split; [done|]. left. lia. }
  cbn [match_loop]. destruct (decide (a = a1)) as [<-|Hne].
  { rewrite decide_True by done. exists 0%nat. rewrite !Nat.add_0_r. split; [done|]. split; [lia|]. split; [done|]. left. lia. }
  assert (2 ^ Z.of_nat a1 < 2 ^ Z.of_nat a) by (apply Z.pow_lt_mono_r; lia).
  rewrite decide_False by lia.
  assert (Z.shiftr (2 ^ Z.of_nat a - 1) 1 = 2 ^ Z.of_nat (a - 1) - 1) as ->.
  { rewrite Z.shiftr_div_pow2 by lia. replace (Z.of_nat a) with (Z.of_nat (a - 1) + 1) by lia.
    rewrite Z.pow_add_r by lia. lia. }
  assert (Hstop : ~ agree w k (32 - (a - 1)) -> wbit w (32 - a) ≠ wbit k (32 - a)).
  { intros Hn E. apply Hn. intros j Hj. destruct (decide (j = 32 - a)%nat) as [->|]; [done|]. apply Hag. lia. }
  assert (Hres : wbit w (32 - a) ≠ wbit k (32 - a) -> exists n, ml = (ml + n)%nat /\ (n <= a - a1)%nat /\
    agree w k (32 - a + n) /\ (n = (a - a1)%nat \/ wbit w (32 - a + n) ≠ wbit k (32 - a + n))).
  { intros Hd. exists 0%nat. rewrite !Nat.add_0_r. split; [done|]. split; [lia|]. split; [done|]. by right. }
  destruct (decide (2 ^ Z.of_nat (a - 1) - 1 = 0)) as [E0|E0].
  { destruct (decide (a = 1)%nat) as [->|]; [|exfalso; assert (2 ^ 1 <= 2 ^ Z.of_nat (a - 1))
      by (apply Z.pow_le_mono_r; lia); lia].
    apply Hres, Hstop. cbn. apply Hend. lia. }
  destruct (decide (Z.land _ _ = 0)) as [El|El].
  - apply land_lnot_ones in El; [|done|done|lia].
    destruct (IH (a - 1)%nat (ml + 1)%nat) as (n & -> & H1 & H2 & H3); [lia|lia|done|done|].
    exists (n + 1)%nat. replace (32 - a + (n + 1))%nat with (32 - (a - 1) + n)%nat by lia.
    split; [lia|]. split; [lia|]. split; [done|]. destruct H3; [left; lia|by right].
  - apply Hres, Hstop. intros Ha'. apply El. apply land_lnot_ones; [done|done|lia|done].
Qed.

Lemma no_mask_ones n : (n < 32)%nat -> full_mask - mask n = 2 ^ Z.of_nat (31 - n) - 1.
Proof.
  intros Hn. assert (forall n, n ∈ seq 0 32 -> full_mask - mask n = 2 ^ Z.of_nat (31 - n) - 1) as H.
  { apply Forall_forall. decided. }
  apply H, elem_of_seq. lia.
Qed.

Lemma longest_match_node_spec {E} p k (es : list E) l r key plen m : key_ok key -> (plen <= 8 * length key)%nat ->
  0 <= k < 2 ^ 32 -> (1 <= m <= Nat.min p plen)%nat -> (Nat.min p plen <= blk m + 32)%nat ->
  (forall j, (j < m - blk m)%nat -> wbit k j = bit key (blk m + j)) ->
  (Nat.min p plen = (blk m + 32)%nat -> ~ forall j, (j < 32)%nat -> wbit k j = bit key (blk m + j)) ->
  exists q, btrie_longest_match_node (Node p k es l r) key plen m = Some q /\ (m <= q <= Nat.min p plen)%nat /\ (forall j, (j < q - blk m)%nat -> wbit k j = bit key (blk m + j)) /\ (q = Nat.min p plen \/ wbit k (q - blk m) ≠ bit key q).
Proof.
  intros Hk Hplen Hkb Hm HM Hag Hend. set (M := Nat.min p plen) in *. unfold btrie_longest_match_node. fold M.
  assert (length key mod 4 = 0)%nat by apply Hk.
  unfold index, remain. destruct (key_block_Some key ((m - 1) / 32) Hk) as (w & -> & Hw & Hwb); [lia|].
  cbn [mbind option_bind]. rewrite !no_mask_ones by lia.
  assert (Hbm : blk m = (32 * ((m - 1) / 32))%nat) by done. rewrite <- Hbm in Hwb.
  destruct (match_loop_spec 32 (31 - (m - 1) mod 32) (31 - (M - 1) mod 32) w k m) as (n & -> & H1 & H2 & H3);
    [done|done|lia|lia| | |].
  { intros j Hj. rewrite Hwb by lia. symmetry. apply Hag. lia. }
  { intros E0 Hall. apply Hend; [lia|]. intros j Hj. rewrite <- Hwb by lia. symmetry. by apply Hall. }
  exists (m + n)%nat. split; [done|]. split; [lia|]. split.
  - intros j Hj. rewrite <- Hwb by lia. symmetry. apply H2. lia.
  - destruct H3 as [->|H3]; [left; lia|].
    destruct (decide ((m + n)%nat = M)) as [EM|NM]; [by left|right].
    replace (32 - (31 - (m - 1) mod 32) + n)%nat with (m + n - blk m)%nat in H3 by lia.
    rewrite Hwb in H3 by lia. by replace (blk m + (m + n - blk m))%nat with (m + n)%nat in H3 by lia.
Qed.
