(* ===== verification/BtrieWf.v ===== *)
(** The invariant of the binary trie and what it holds.  A trie stands for the list
    of its [entries], keys as lists of bits; a location is well-formed when the
    trie around it is.  The lookup ends at the deepest node on the way to a key. *)
From S2P Require Import Prelude Bitops Tlv Btrie BtrieBits.

(** ** Well-formed tries

    [ext b p k] are the bits of a node of length [p] with stored block [k] that
    hangs below the bits [b]: the earlier blocks come from [b]. *)

Definition ext (b : list bool) (p : nat) (k : Z) : list bool := take (blk p) b ++ own k p.

Definition node_ok (b : list bool) (p : nat) (k : Z) : Prop :=
  0 <= k < 2 ^ 32 /\
  ((b = [] /\ p = 0%nat) \/ (b ≠ [] /\ (length b <= p <= blk (length b) + 32)%nat /\ b `prefix_of` ext b p k)).

Lemma node_ok_blk b p k : node_ok b p k -> (blk p <= length b <= p)%nat.
Proof.
  intros [_ [[-> ->]|(Hb & Hp & _)]]; [done|]. destruct b; [done|]. cbn [length] in *. unfold blk in *. lia.
Qed.

Lemma length_ext b p k : node_ok b p k -> length (ext b p k) = p.
Proof.
  intros H%node_ok_blk. unfold ext. rewrite length_app, length_take, length_own. pose proof (blk_bounds p). lia.
Qed.

Lemma node_ok_prefix b p k : node_ok b p k -> b `prefix_of` ext b p k.
Proof. intros [_ [[-> ->]|(_ & _ & H)]]; [apply prefix_nil|done]. Qed.

Lemma bits_split key n m : bits key 0 (n + m) = bits key 0 n ++ bits key n m.
Proof. unfold bits. by rewrite seq_app, fmap_app. Qed.

(** A node below a prefix of a key agrees with the key when its block does. *)
Lemma ext_bits b p k key : node_ok b p k -> b = bits key 0 (length b) ->
  (ext b p k = bits key 0 p <-> own k p = bits key (blk p) (p - blk p)).
Proof.
  intros Hn Hb. pose proof (node_ok_blk _ _ _ Hn). unfold ext.
  assert (E : take (blk p) b = bits key 0 (blk p)).
  { rewrite Hb. unfold bits. rewrite <- fmap_take, take_seq. do 2 f_equal. lia. }
  assert (E2 : bits key 0 p = bits key 0 (blk p) ++ bits key (blk p) (p - blk p)).
  { rewrite <- bits_split. f_equal. lia. }
  rewrite E, E2. split; [apply app_inv_head|by intros ->].
Qed.

Lemma bits_prefix key n m : (n <= m)%nat -> bits key 0 n `prefix_of` bits key 0 m.
Proof.
  intros H. exists (bits key n (m - n)). rewrite <- bits_split. f_equal. lia.
Qed.

Lemma prefix_bits b key n : b `prefix_of` bits key 0 n -> b = bits key 0 (length b).
Proof.
  intros Hp. pose proof (prefix_length _ _ Hp) as Hl. rewrite length_bits in Hl.
  destruct Hp as [c E]. apply (f_equal (take (length b))) in E. rewrite take_app_length in E.
  rewrite <- E at 1. unfold bits. rewrite <- fmap_take, take_seq. do 2 f_equal. lia.
Qed.

Lemma bits_snoc key n : bits key 0 (S n) = bits key 0 n ++ [bit key n].
Proof. unfold bits. by rewrite seq_S, fmap_app. Qed.

Section wf.
Context {E : Type} `{!EqDecision E}.
Implicit Types (t : btrie E) (c : list (bframe E)) (f : bframe E) (b : list bool).

Fixpoint wf b t : Prop :=
  match t with
  | Nil => True
  | Node p k _ l r => node_ok b p k /\ wf (ext b p k ++ [false]) l /\ wf (ext b p k ++ [true]) r
  end.

(** The bits of a frame, those that lead to a location, and its surroundings. *)
Fixpoint path c : list bool :=
  match c with
  | [] => []
  | f :: c => ext (path c) (f_plen f) (f_key f) ++ [f_side f]
  end.

Fixpoint wfc c : Prop :=
  match c with
  | [] => True
  | f :: c => node_ok (path c) (f_plen f) (f_key f) /\
              wf (ext (path c) (f_plen f) (f_key f) ++ [negb (f_side f)]) (f_sibling f) /\ wfc c
  end.

Definition wfl (n : loc E) : Prop := wf (path n.2) n.1 /\ wfc n.2.

Lemma wfl_up t f c : wfl (t, f :: c) <-> wfl (up_node t f, c).
Proof.
  destruct f as [p k es [|] s]; unfold wfl, up_node; cbn; tauto.
Qed.

Lemma wf_plug t c : wfl (t, c) <-> wf [] (plug t c).
Proof.
  revert t. induction c as [|f c IH]; intros t; cbn [plug]; [unfold wfl; cbn; tauto|].
  by rewrite <- IH, wfl_up.
Qed.

Lemma wfl_child n side n' : wfl n -> child_loc side n = Some n' -> wfl n' /\ plug n'.1 n'.2 = plug n.1 n.2.
Proof.
  destruct n as [[|p k es l r] c]; [done|]. unfold child_loc, wfl. cbn. intros [(H1 & H2 & H3) H4].
  destruct side; intros [= <-]; cbn; tauto.
Qed.

(** The elements with the bits of their keys, a node before its children. *)
Fixpoint entries b t : list (list bool * E) :=
  match t with
  | Nil => []
  | Node p k es l r =>
    (pair (ext b p k) <$> es) ++ entries (ext b p k ++ [false]) l ++ entries (ext b p k ++ [true]) r
  end.

Fixpoint before c : list (list bool * E) :=
  match c with
  | [] => []
  | f :: c => before c ++ (pair (ext (path c) (f_plen f) (f_key f)) <$> f_elements f) ++
      (if f_side f then entries (ext (path c) (f_plen f) (f_key f) ++ [false]) (f_sibling f) else [])
  end.

Fixpoint after c : list (list bool * E) :=
  match c with
  | [] => []
  | f :: c => (if f_side f then [] else entries (ext (path c) (f_plen f) (f_key f) ++ [true]) (f_sibling f)) ++ after c
  end.

Lemma entries_plug t c : entries [] (plug t c) = before c ++ entries (path c) t ++ after c.
Proof.
  revert t. induction c as [|f c IH]; intros t; cbn [plug before after path]; [by rewrite app_nil_r|].
  rewrite IH. destruct f as [p k es [|] s]; unfold up_node; cbn; rewrite <- ?app_assoc; cbn [app];
    by rewrite ?app_nil_r.
Qed.

Lemma entries_prefix b t x : wf b t -> x ∈ entries b t -> b `prefix_of` x.1.
Proof.
  revert b. induction t as [|p k es l IHl r IHr]; intros b; cbn [wf entries]; [by intros _ ?%not_elem_of_nil|].
  intros (Hn & Hl & Hr) Hx. pose proof (node_ok_prefix _ _ _ Hn) as Hpre.
  rewrite !elem_of_app in Hx. destruct Hx as [(e & -> & _)%list_elem_of_fmap|[Hx|Hx]]; [done| |].
  - etrans; [exact Hpre|]. etrans; [|exact (IHl _ Hl Hx)]. by eexists.
  - etrans; [exact Hpre|]. etrans; [|exact (IHr _ Hr Hx)]. by eexists.
Qed.

Lemma wf_root t : wf [] t -> t = Nil \/ exists k es l r, t = Node 0 k es l r.
Proof.
  destruct t as [|p k es l r]; [by left|]. intros ([_ [[_ ->]|[[] _]]] & _); [|done]. right. by eexists _, _, _, _.
Qed.

(** ** Lookup *)

(** Nothing below the bits [b] of the key [key] of length [n] is on its way. *)
Definition stuck (key : list Z) (n : nat) b t : Prop :=
  match t with
  | Nil => True
  | Node p k _ _ _ => ~ ext b p k `prefix_of` bits key 0 n
  end.

(** The location is the last node on the way to the key. *)
Definition deepest (key : list Z) (n : nat) (l : loc E) : Prop :=
  wfl l /\ exists p k es l0 r0, l.1 = Node p k es l0 r0 /\
    ext (path l.2) p k = bits key 0 p /\ (p <= n)%nat /\
    (p = n \/ stuck key n (bits key 0 p ++ [bit key p]) (child (bit key p) l.1)).

Lemma deepest_parent t f c key n : wfl (t, f :: c) ->
  path (f :: c) `prefix_of` bits key 0 n -> stuck key n (path (f :: c)) t -> deepest key n (up_node t f, c).
Proof.
  intros Hwf Hpath Hst. split; [by apply wfl_up|].
  assert (Hn : node_ok (path c) (f_plen f) (f_key f)) by apply Hwf.
  pose proof (length_ext _ _ _ Hn) as Hlen. cbn [path] in Hpath, Hst.
  pose proof (prefix_length _ _ Hpath) as Hle. rewrite length_app, length_bits, Hlen in Hle. cbn in Hle.
  assert (He : ext (path c) (f_plen f) (f_key f) = bits key 0 (f_plen f)).
  { rewrite <- Hlen at 2. apply (prefix_bits _ _ n). etrans; [|exact Hpath]. by eexists. }
  assert (Hs : f_side f = bit key (f_plen f)).
  { pose proof (prefix_bits _ _ _ Hpath) as E'. rewrite length_app, Hlen in E'. cbn in E'.
    rewrite Nat.add_1_r, bits_snoc, He in E'. by apply app_inj_2 in E' as [_ [= ->]]. }
  rewrite He, Hs in Hst.
  destruct f as [p k es [|] s]; cbn in *; unfold up_node; cbn;
    eexists p, k, es, _, _; (split; [done|]); (split; [done|]); (split; [lia|]); right;
    rewrite <- Hs in Hst |- *; exact Hst.
Qed.

Lemma btrie_node_lookup_deepest t c key n : key_ok key -> (n <= 8 * length key)%nat ->
  wfl (t, c) -> t ≠ Nil -> path c `prefix_of` bits key 0 n ->
  exists m, btrie_node_lookup t c key n = Some m /\ plug m.1 m.2 = plug t c /\ deepest key n m.
Proof.
  intros Hk Hn. revert c. induction t as [|p k es l IHl r IHr]; intros c Hwf Hne Hpath; [done|].
  cbn [btrie_node_lookup]. assert (Hok : node_ok (path c) p k) by apply Hwf.
  assert (Hup : ~ ext (path c) p k `prefix_of` bits key 0 n ->
    exists m, parent (Node p k es l r, c) = Some m /\ plug m.1 m.2 = plug (Node p k es l r) c /\ deepest key n m).
  { intros Hno. destruct c as [|f c].
    - exfalso. apply Hno. destruct Hok as [_ [[_ ->]|[[] _]]]; [|done]. apply prefix_nil.
    - exists (up_node (Node p k es l r) f, c). split; [done|]. split; [done|]. by apply deepest_parent. }
  pose proof (prefix_bits _ _ _ Hpath) as Hpb. pose proof (length_ext _ _ _ Hok) as Hlen.
  pose proof (ext_bits _ _ _ key Hok Hpb) as Heb.
  destruct (decide (p <= n)%nat) as [Hpn|Hpn].
  2:{ apply Hup. intros Hpre%prefix_length. rewrite Hlen, length_bits in Hpre. lia. }
  assert (Hd : (if decide (p = 0)%nat then Some false else key_differs key k p) =
               Some (bool_decide (ext (path c) p k ≠ bits key 0 p))).
  { destruct (decide (p = 0)%nat) as [->|Hp0].
    - rewrite bool_decide_false; [done|]. intros []. by apply Heb.
    - rewrite key_differs_Some by (done || lia). f_equal. apply bool_decide_ext. by rewrite Heb. }
  rewrite Hd. cbn [mbind option_bind]. destruct (bool_decide_reflect (ext (path c) p k ≠ bits key 0 p)) as [Hdiff|Hsame].
  { apply Hup. intros Hpre%prefix_bits. by rewrite Hlen in Hpre. }
  apply dec_stable in Hsame. destruct (decide (p = n)) as [<-|Hpn'].
  { eexists. split; [done|]. split; [done|]. split; [done|]. eexists p, k, es, l, r. split; [done|]. split; [done|].
    split; [lia|by left]. }
  rewrite key_bit_Some by (done || lia). cbn [mbind option_bind].
  assert (Hpath' : bits key 0 p ++ [bit key p] `prefix_of` bits key 0 n).
  { rewrite <- bits_snoc. apply bits_prefix. lia. }
  assert (Hend : child (bit key p) (Node p k es l r) = Nil ->
    exists m, Some (Node p k es l r, c) = Some m /\ plug m.1 m.2 = plug (Node p k es l r) c /\ deepest key n m).
  { intros Hc. eexists. split; [done|]. split; [done|]. split; [done|]. eexists p, k, es, l, r. split; [done|].
    split; [done|]. split; [lia|]. right. cbn [fst]. by rewrite Hc. }
  destruct (bit key p) eqn:Eb; cbn [child] in Hend.
  - destruct r as [|rp rk res rl rr] eqn:Er; cbn [is_nil]; [by apply Hend|]. rewrite <- Er in *.
    destruct (IHr (mk_bframe p k es true l :: c)) as (m & Hm & Hplug & Hdeep);
      [by apply wfl_up|by rewrite Er|cbn [path f_plen f_key f_side]; by rewrite Hsame|]. eauto.
  - destruct l as [|lp lk les ll lr] eqn:El; cbn [is_nil]; [by apply Hend|]. rewrite <- El in *.
    destruct (IHl (mk_bframe p k es false r :: c)) as (m & Hm & Hplug & Hdeep);
      [by apply wfl_up|by rewrite El|cbn [path f_plen f_key f_side]; by rewrite Hsame|]. eauto.
Qed.

End wf.
