(* ===== verification/BtrieAdd.v ===== *)
(** Insertion into the trie, first part: a chain of new nodes, one for each block,
    and the [slot] such an insertion ends in. *)
From S2P Require Import Prelude Bitops Tlv Btrie BtrieBits BtrieWf.

(** ** Insertion *)

Lemma ext_block key q p w : key_ok key -> (blk p <= q)%nat ->
  (forall j, (j < 32)%nat -> wbit w j = bit key (blk p + j)) -> ext (bits key 0 q) p w = bits key 0 p.
Proof.
  intros Hk Hq Hw. unfold ext. replace (bits key 0 p) with (bits key 0 (blk p) ++ bits key (blk p) (p - blk p)).
  2:{ rewrite <- bits_split. f_equal. pose proof (blk_bounds p). lia. }
  f_equal.
  - unfold bits. rewrite <- fmap_take, take_seq. do 2 f_equal. lia.
  - unfold own, bits. apply list_eq_seq. intros j Hj. apply Hw. pose proof (blk_bounds p). lia.
Qed.

Lemma node_ok_block key q p w : key_ok key -> 0 <= w < 2 ^ 32 -> (1 <= q <= p)%nat -> (p <= blk q + 32)%nat ->
  (forall j, (j < 32)%nat -> wbit w j = bit key (blk p + j)) -> node_ok (bits key 0 q) p w.
Proof.
  intros Hk Hw Hq Hp Hwb. split; [done|]. right. rewrite length_bits.
  split; [intros E; apply (f_equal length) in E; rewrite length_bits in E; cbn in E; lia|]. split; [lia|].
  rewrite (ext_block key) by (done || unfold blk in *; lia). apply bits_prefix. lia.
Qed.

Section add.
Context {E : Type} `{!EqDecision E}.
Implicit Types (t : btrie E) (c : list (bframe E)) (f : bframe E) (b : list bool).

(** A node that is not the root has a reason to be there: elements, two children,
    or one child in the next block. *)
Definition busy (p : nat) (es : list E) (l r : btrie E) : Prop :=
  es ≠ [] \/ (l ≠ Nil /\ r ≠ Nil) \/ ((l ≠ Nil \/ r ≠ Nil) /\ remain p = 0%nat).

Fixpoint shaped t : Prop :=
  match t with
  | Nil => True
  | Node p k es l r => busy p es l r /\ shaped l /\ shaped r
  end.

Fixpoint shapedc c : Prop :=
  match c with
  | [] => True
  | f :: c => (c = [] \/ f_elements f ≠ [] \/ f_sibling f ≠ Nil \/ remain (f_plen f) = 0%nat) /\
              shaped (f_sibling f) /\ shapedc c
  end.

(** The children of a node are in shape. *)
Definition shaped_below t : Prop := shaped (child false t) /\ shaped (child true t).

Lemma shaped_Node t : shaped t -> shaped_below t.
Proof. destruct t; unfold shaped_below; cbn; tauto. Qed.

Lemma shaped_up t f c : t ≠ Nil -> shaped t -> shapedc (f :: c) ->
  shaped_below (up_node t f) /\ (c ≠ [] -> shaped (up_node t f)) /\ shapedc c.
Proof.
  intros Hne Hs (Hf & Hsib & Hc). destruct f as [p k es [|] s]; unfold up_node, shaped_below, busy in *; cbn in *;
    (split; [done|]); (split; [|done]); intros Hc'; (split; [|done]); unfold busy; tauto.
Qed.

Lemma shaped_plug t c : t ≠ Nil -> shaped_below t -> (c ≠ [] -> shaped t) -> shapedc c -> shaped_below (plug t c).
Proof.
  revert t. induction c as [|f c IH]; intros t Hne Hb Hs Hc; [done|]. cbn [plug].
  destruct (shaped_up t f c Hne (Hs ltac:(done)) Hc) as (H1 & H2 & H3). apply IH; [|done..].
  by destruct f as [? ? ? [|] ?].
Qed.

(** Where a new element of a key goes: a node of its bits in a trie with the
    entries of [t]. *)
Definition slot (key : list Z) (n : nat) t (m : loc E) : Prop :=
  wfl m /\ shapedc m.2 /\ shaped_below m.1 /\ entries [] (plug m.1 m.2) = entries [] t /\
  exists k es l r, m.1 = Node n k es l r /\ ext (path m.2) n k = bits key 0 n.

Lemma btrie_add_leaf_slot fuel p k es l r c side key n : key_ok key -> (p < n <= 8 * length key)%nat ->
  (index (n - 1) - index p < fuel)%nat ->
  wfl (Node p k es l r, c) -> ext (path c) p k = bits key 0 p -> side = bit key p ->
  child side (Node p k es l r) = Nil ->
  shapedc (mk_bframe p k es side (if side then l else r) :: c) ->
  exists m, btrie_add_leaf fuel (Node p k es l r, c) side key n = Some m /\
    slot key n (plug (Node p k es l r) c) m.
Proof.
  intros Hk. revert p k es l r c side. induction fuel as [|fuel IH]; intros p k es l r c side Hn Hfuel Hwf Hext Hside Hnil Hsh;
    [lia|].
  cbn [btrie_add_leaf fst]. unfold index in *. assert (length key mod 4 = 0)%nat by apply Hk.
  destruct (key_block_Some key (p / 32) Hk) as (w & -> & Hw & Hwb); [lia|]. cbn [mbind option_bind].
  set (f := mk_bframe p k es side (if side then l else r)) in *.
  assert (Hpath : path (f :: c) = bits key 0 (S p)).
  { cbn [path]. unfold f; cbn [f_plen f_key f_side]. by rewrite Hext, Hside, bits_snoc. }
  assert (Hwfc : wfc (f :: c)).
  { destruct Hwf as [(H1 & H2 & H3) H4]. unfold f. cbn [wfc f_plen f_key f_side f_sibling].
    split; [done|]. split; [|done]. by destruct side. }
  assert (Hplug : forall t, entries (path (f :: c)) t = [] -> entries [] (plug t (f :: c)) = entries [] (plug (Node p k es l r) c)).
  { intros t Ht. cbn [plug]. rewrite !entries_plug. f_equal. f_equal. rewrite Hpath in Ht.
    unfold up_node, f. cbn [f_side f_plen f_key f_elements f_sibling].
    destruct side; cbn [child] in Hnil; subst; cbn [entries]; rewrite Hext;
      rewrite bits_snoc in Ht; rewrite <- Hside in Ht; by rewrite Ht. }
  assert (Hblk : forall q, (p < q)%nat -> ((q - 1) / 32 = p / 32)%nat -> blk q = (32 * (p / 32))%nat /\
            wf (path (f :: c)) (Node q w [] (@Nil E) Nil) /\ ext (path (f :: c)) q w = bits key 0 q).
  { intros q Hq Hq32. assert (Eb : blk q = (32 * (p / 32))%nat) by (unfold blk; lia). split; [done|].
    rewrite Hpath. rewrite <- Eb in Hwb. split; [|apply ext_block; [done|lia|done]]. cbn [wf]. split; [|done].
    apply node_ok_block; try done; unfold blk in *; lia. }
  destruct (decide ((n - 1) / 32 = p / 32)%nat) as [Hsame|Hdiff].
  - destruct (Hblk n) as (_ & Hwfn & Hextn); [lia|lia|].
    eexists. split; [done|]. split; [done|]. cbn [fst snd]. split; [done|]. split; [by split|].
    split; [by apply Hplug|]. by eexists w, [], Nil, Nil.
  - rewrite key_bit_Some by (done || lia). cbn [mbind option_bind].
    destruct (Hblk (32 * (p / 32 + 1))%nat) as (_ & Hwfq & Hextq); [lia|lia|].
    destruct (IH (32 * (p / 32 + 1))%nat w [] Nil Nil (f :: c) (bit key (32 * (p / 32 + 1)))) as (m & Hm & Hslot);
      [lia|lia|by split|done|done|unfold child; by case_match| |].
    + cbn [shapedc f_elements f_sibling f_plen]. split; [right; right; right; unfold remain; lia|].
      split; [by case_match|done].
    + exists m. split; [done|]. destruct Hslot as (H1 & H2 & H3 & H4 & H5).
      split; [done|]. split; [done|]. split; [done|]. split; [|done]. rewrite H4. by apply Hplug.
Qed.

End add.
