(* ===== verification/BtrieIns.v ===== *)
(** Insertion into the trie, second part: a node for the common part of a key and
    of a node that is in its way. *)
From S2P Require Import Prelude Bitops Tlv Btrie BtrieBits BtrieWf BtrieAdd.

Section insert.
Context {E : Type} `{!EqDecision E}.
Implicit Types (t : btrie E) (c : list (bframe E)) (f : bframe E) (b : list bool).

Lemma take_bits key n m : (n <= m)%nat -> take n (bits key 0 m) = bits key 0 n.
Proof. intros. unfold bits. rewrite <- fmap_take, take_seq. do 2 f_equal. lia. Qed.

Lemma lookup_bits key n i : (i < n)%nat -> bits key 0 n !! i = Some (bit key i).
Proof. intros. unfold bits. by rewrite list_lookup_fmap, lookup_seq_lt. Qed.

(** A node hung below more of its own bits is the same. *)
Lemma ext_more p k key q s : (blk p <= q)%nat -> ext (bits key 0 q ++ [s]) p k = ext (bits key 0 (blk p)) p k.
Proof.
  intros Hq. unfold ext. rewrite take_app_le by (rewrite length_bits; lia). rewrite take_bits by lia.
  by rewrite take_ge by (rewrite length_bits; lia).
Qed.

Lemma ext_less p k key q : (blk p <= q)%nat -> ext (bits key 0 q) p k = ext (bits key 0 (blk p)) p k.
Proof.
  intros Hq. unfold ext. rewrite take_bits by lia. by rewrite take_ge by (rewrite length_bits; lia).
Qed.

(** Agreement with a key, on bits and on the block of a node. *)
Lemma bits_prefix_ext key i q cp ck : node_ok (bits key 0 i) cp ck -> (i <= q <= cp)%nat -> (1 <= i)%nat ->
  bits key 0 q `prefix_of` ext (bits key 0 i) cp ck <->
  forall j, (j < q - blk cp)%nat -> wbit ck j = bit key (blk cp + j).
Proof.
  intros Hok Hq Hi. pose proof (node_ok_blk _ _ _ Hok) as Hb. rewrite length_bits in Hb. unfold ext.
  rewrite take_bits by lia. split.
  - intros [z Hz] j Hj. apply (f_equal (fun l => l !! (blk cp + j)%nat)) in Hz.
    rewrite (lookup_app_l (bits key 0 q)) in Hz by (rewrite length_bits; lia). rewrite lookup_bits in Hz by lia.
    rewrite lookup_app_r in Hz by (rewrite length_bits; lia).
    rewrite length_bits in Hz. replace (blk cp + j - blk cp)%nat with j in Hz by lia.
    unfold own in Hz. rewrite list_lookup_fmap, lookup_seq_lt in Hz by lia. by injection Hz.
  - intros Hag. exists (wbit ck <$> seq (q - blk cp) (cp - q)).
    replace q with (blk cp + (q - blk cp))%nat at 1 by lia. rewrite bits_split, <- app_assoc. f_equal. unfold own.
    replace (cp - blk cp)%nat with ((q - blk cp) + (cp - q))%nat by lia. rewrite seq_app, fmap_app. f_equal.
    unfold bits. apply list_eq_seq. exact Hag.
Qed.

Lemma node_ok_bounds key i cp ck : node_ok (bits key 0 i) cp ck -> (1 <= i)%nat ->
  0 <= ck < 2 ^ 32 /\ (i <= cp <= blk i + 32)%nat /\ blk cp = blk i.
Proof.
  intros [Hck [[E0 _]|(_ & H & _)]] Hi.
  - exfalso. apply (f_equal length) in E0. rewrite length_bits in E0. cbn in E0. lia.
  - rewrite !length_bits in H. split; [done|]. split; [done|]. unfold blk in *. lia.
Qed.

(** A node that agrees with the key on [q] bits, below those bits and its next
    one. *)
Lemma node_ok_split key q cp ck i : node_ok (bits key 0 i) cp ck -> (1 <= i <= q)%nat -> (q < cp)%nat ->
  bits key 0 q `prefix_of` ext (bits key 0 i) cp ck -> node_ok (bits key 0 q ++ [wbit ck (remain q)]) cp ck.
Proof.
  intros Hok Hi Hq Hag. destruct (node_ok_bounds _ _ _ _ Hok) as (Hck & Hcp & Eb); [lia|].
  pose proof Hag as Hag'. rewrite bits_prefix_ext in Hag' by (done || lia).
  split; [done|]. right. rewrite length_app, length_bits. cbn [length].
  split; [intros E0; apply (f_equal length) in E0; rewrite length_app in E0; cbn in E0; lia|].
  split; [unfold blk in *; lia|]. rewrite ext_more by (unfold blk in *; lia).
  exists (wbit ck <$> seq (S (q - blk i)) (cp - q - 1)).
  unfold ext. rewrite take_ge by (rewrite length_bits; lia).
  replace (remain q) with (q - blk i)%nat by (unfold remain, blk in *; lia).
  replace q with (blk cp + (q - blk i))%nat at 1 by (unfold blk in *; lia). rewrite bits_split.
  rewrite <- !app_assoc. f_equal. unfold own.
  replace (cp - blk cp)%nat with ((q - blk i) + S (cp - q - 1))%nat by (unfold blk in *; lia).
  rewrite seq_app, fmap_app. cbn [Nat.add seq]. f_equal.
  unfold bits. apply list_eq_seq. intros j Hj. rewrite Eb in *. by apply Hag'.
Qed.

(** The longest match with a node that is not on the way to the key. *)
Lemma longest_match_stuck cp ck (ces : list E) cl cr key n i : key_ok key -> (i <= n <= 8 * length key)%nat -> (1 <= i)%nat ->
  node_ok (bits key 0 i) cp ck -> stuck key n (bits key 0 i) (Node cp ck ces cl cr) ->
  exists q, btrie_longest_match_node (Node cp ck ces cl cr) key n i = Some q /\ (i <= q <= n)%nat /\ (q < cp)%nat /\
    bits key 0 q `prefix_of` ext (bits key 0 i) cp ck /\ (q = n \/ wbit ck (remain q) = negb (bit key q)).
Proof.
  intros Hk Hn Hi Hok Hst. destruct (node_ok_bounds _ _ _ _ Hok) as (Hck & Hcp & Eb); [lia|].
  assert (Hno : bits key 0 (Nat.min cp n) `prefix_of` ext (bits key 0 i) cp ck -> (n < cp)%nat).
  { intros Hp. destruct (decide (n < cp)%nat); [done|]. destruct Hst. cbn.
    replace (Nat.min cp n) with cp in Hp by lia.
    replace (ext (bits key 0 i) cp ck) with (bits key 0 cp); [apply bits_prefix; lia|].
    eapply prefix_length_eq; [exact Hp|]. by rewrite length_ext, length_bits. }
  destruct (longest_match_node_spec cp ck ces cl cr key n i) as (q & Hq & Hqr & Hqa & Hqe);
    [done|lia|done|lia|lia| | |].
  { rewrite <- Eb. apply (bits_prefix_ext key i i); [done|lia..|]. by apply node_ok_prefix. }
  { intros HM Hall. enough (n < cp)%nat by (unfold blk in *; lia). apply Hno. apply bits_prefix_ext; [done|lia|lia|].
    rewrite Eb. intros j Hj. apply Hall. lia. }
  exists q. split; [done|]. rewrite <- Eb in Hqa. rewrite <- (bits_prefix_ext key i q cp ck) in Hqa by (done || lia).
  assert (q < cp)%nat by (destruct (decide (q = cp)) as [->|]; [|lia]; enough (n < cp)%nat by lia; apply Hno;
    by replace (Nat.min cp n) with cp by lia).
  split; [lia|]. split; [done|]. split; [done|].
  destruct Hqe as [->|Hqe]; [left; lia|]. right.
  replace (remain q) with (q - blk i)%nat by (unfold remain, blk in *; lia). by destruct (wbit ck _), (bit key q).
Qed.

Lemma entries_same b b' p k es l r :
  ext b p k = ext b' p k -> entries (E := E) b (Node p k es l r) = entries b' (Node p k es l r).
Proof. intros Hx. cbn [entries]. by rewrite Hx. Qed.

Lemma wf_same b b' p k (es : list E) l r :
  ext b p k = ext b' p k -> node_ok b' p k -> wf b (Node p k es l r) -> wf b' (Node p k es l r).
Proof. intros Hx Hn (_ & H). cbn [wf]. by rewrite <- Hx. Qed.

(** A node for the first [q] bits of the key above a node that agrees on them. *)
Definition join_node (q : nat) (w : Z) (s : bool) (cur : btrie E) : btrie E :=
  if s then Node q w [] Nil cur else Node q w [] cur Nil.

Lemma join_node_ok cp ck ces cl cr c key i q w : key_ok key ->
  wfl (Node cp ck ces cl cr, c) -> path c = bits key 0 i -> (1 <= i <= q)%nat -> (q < cp)%nat ->
  bits key 0 q `prefix_of` ext (bits key 0 i) cp ck ->
  0 <= w < 2 ^ 32 -> (forall j, (j < 32)%nat -> wbit w j = bit key (blk q + j)) ->
  let new := join_node q w (wbit ck (remain q)) (Node cp ck ces cl cr) in
  wfl (new, c) /\ entries [] (plug new c) = entries [] (plug (Node cp ck ces cl cr) c) /\
  ext (path c) q w = bits key 0 q.
Proof.
  intros Hk [Hw1 Hw2] Hpath Hi Hq Hpre Hw Hwb new. cbn [fst snd] in *. rewrite Hpath in *.
  assert (Hok : node_ok (bits key 0 i) cp ck) by apply Hw1.
  destruct (node_ok_bounds _ _ _ _ Hok) as (Hck & Hcp & Eb); [lia|].
  pose proof (node_ok_split key q cp ck i Hok ltac:(lia) ltac:(lia) Hpre) as Hnew.
  assert (Hnq : node_ok (bits key 0 i) q w) by (apply node_ok_block; try done; unfold blk in *; lia).
  assert (Hxq : ext (bits key 0 i) q w = bits key 0 q) by (apply ext_block; [done|unfold blk in *; lia|done]).
  set (s := wbit ck (remain q)) in *.
  assert (Hxc : ext (bits key 0 i) cp ck = ext (bits key 0 q ++ [s]) cp ck).
  { rewrite ext_more by (unfold blk in *; lia). apply ext_less. unfold blk in *. lia. }
  pose proof (wf_same _ _ _ _ _ _ _ Hxc Hnew Hw1) as Hw3.
  split; [split; [|done]|split; [|done]]; cbn [fst snd].
  - rewrite Hpath. unfold new, join_node. clear -Hnq Hxq Hw3. destruct s; cbn [wf]; rewrite Hxq; done.
  - rewrite !entries_plug. do 2 f_equal. rewrite Hpath, (entries_same _ _ _ _ _ _ _ Hxc). unfold new, join_node.
    clear -Hxq. destruct s; cbn [entries]; rewrite Hxq; [done|]. by rewrite app_nil_r.
Qed.

Lemma slot_entries key n t t' (m : loc E) : entries [] t = entries [] t' -> slot key n t m -> slot key n t' m.
Proof. intros He (H1 & H2 & H3 & H4 & H5). split_and!; try done. by rewrite H4. Qed.

Lemma solve_conflict_slot cp ck ces cl cr c key n p : key_ok key -> (p < n <= 8 * length key)%nat ->
  let cur := Node cp ck ces cl cr in
  wfl (cur, c) -> path c = bits key 0 (p + 1) -> stuck key n (bits key 0 (p + 1)) cur -> shaped cur -> shapedc c ->
  exists m, btrie_solve_conflict (cur, c) key n (p + 1) = Some m /\ slot key n (plug cur c) m.
Proof.
  intros Hk Hn cur Hwf Hpath Hst Hsh Hshc. unfold btrie_solve_conflict. cbn [fst snd]. unfold cur at 1.
  assert (Hok : node_ok (bits key 0 (p + 1)) cp ck) by (rewrite <- Hpath; apply Hwf).
  destruct (longest_match_stuck cp ck ces cl cr key n (p + 1)) as (q & Hq & Hqr & Hqcp & Hpre & Hqe); try done; [lia..|].
  fold cur in Hq. rewrite Hq. cbn [mbind option_bind]. assert (length key mod 4 = 0)%nat by apply Hk.
  unfold index. destruct (key_block_Some key ((q - 1) / 32) Hk) as (w & -> & Hw & Hwb); [lia|]. cbn [mbind option_bind].
  destruct (join_node_ok cp ck ces cl cr c key (p + 1) q w) as (Hnwf & Hnent & Hnx); try done; [lia|].
  rewrite nthbit_wbit by (unfold remain; lia). fold cur in Hnwf, Hnent. set (s := wbit ck (remain q)) in *.
  set (new := join_node q w s cur) in *.
  assert (Hres : exists m, (if decide (q = n) then Some (new, c)
      else btrie_add_leaf (n / 32 + 2) (new, c) (negb s) key n) = Some m /\ slot key n (plug cur c) m);
    [|unfold new, join_node in Hres; by destruct s].
  destruct (decide (q = n)) as [<-|Hqn].
  - eexists. split; [done|]. split_and!; [done|done|unfold new, join_node, shaped_below; clear -Hsh; by destruct s|done|].
    cbn [fst snd]. unfold new, join_node. destruct s; by eexists w, [], _, _.
  - destruct Hqe as [->|Hs]; [lia|]. assert (Hs' : negb s = bit key q) by (rewrite Hs; apply negb_involutive).
    assert (Hadd : forall l r, new = Node q w [] l r -> child (negb s) new = Nil -> (if negb s then l else r) = cur ->
      exists m, btrie_add_leaf (n / 32 + 2) (new, c) (negb s) key n = Some m /\ slot key n (plug new c) m).
    { intros l r En Hch Hoth. rewrite En in *. apply btrie_add_leaf_slot; try done; [lia|unfold index; lia|].
      cbn [shapedc f_elements f_sibling f_plen]. rewrite Hoth. split; [right; right; by left|by split]. }
    assert (exists m, btrie_add_leaf (n / 32 + 2) (new, c) (negb s) key n = Some m /\ slot key n (plug new c) m)
      as (m & Hm & Hsl) by (unfold new, join_node in *; destruct s; by eapply Hadd).
    exists m. split; [done|]. by eapply slot_entries.
Qed.

End insert.
