(* ===== verification/BtrieTrie.v ===== *)
(** Insertion and removal as changes of the entries of a trie; both keep the
    invariant [trie_ok]. *)
From S2P Require Import Prelude Bitops Tlv Btrie BtrieBits BtrieWf BtrieAdd BtrieIns.

Section trie.
Context {E : Type} `{!EqDecision E}.
Implicit Types (t : btrie E) (c : list (bframe E)) (f : bframe E) (b : list bool).

(** The invariant of a trie. *)
Definition trie_ok t : Prop := t ≠ Nil /\ wf [] t /\ shaped_below t.

Lemma btrie_init_ok : trie_ok btrie_init.
Proof. split; [done|]. split; [|done]. cbn. split; [|done]. split; [lia|]. by left. Qed.

Lemma shaped_unplug t c : t ≠ Nil -> shaped_below (plug t c) -> shaped_below t /\ (c ≠ [] -> shaped t) /\ shapedc c.
Proof.
  revert t. induction c as [|f c IH]; intros t Hne Hs; [done|]. cbn [plug] in Hs.
  destruct (IH (up_node t f)) as (Hb & Hu & Hc); [by destruct f as [? ? ? [|] ?]|done|].
  assert (Ht : shaped t /\ shaped (f_sibling f)) by (destruct f as [? ? ? [|] ?]; unfold shaped_below in Hb; cbn in Hb; tauto).
  destruct Ht as [Ht Hsib]. split; [by apply shaped_Node|]. split; [done|]. split; [|by split].
  destruct c as [|g c]; [by left|]. right. specialize (Hu ltac:(done)).
  destruct f as [p k es [|] s]; unfold busy in Hu; cbn in Hu |- *; unfold busy in Hu; tauto.
Qed.

(** The frame of a node in shape, seen from one of its children. *)
Lemma shapedc_child p k es l r c (side : bool) : shaped_below (Node p k es l r) ->
  (c ≠ [] -> shaped (Node p k es l r)) -> shapedc c ->
  shapedc (mk_bframe p k es side (if side then l else r) :: c).
Proof.
  intros [Hl Hr] Hs Hc. cbn in Hl, Hr. cbn [shapedc f_elements f_sibling f_plen].
  split; [|split; [by destruct side|done]]. destruct c; [by left|]. right. specialize (Hs ltac:(done)).
  destruct Hs as [Hs _]. unfold busy in Hs. destruct side; tauto.
Qed.

Lemma btrie_node_goc_slot t key n : trie_ok t -> key_ok key -> (n <= 8 * length key)%nat ->
  exists m, btrie_node_goc t key n true = Some (Some m) /\ slot key n t m.
Proof.
  intros (Hne & Hwf & Hsh) Hk Hn. unfold btrie_node_goc.
  destruct (btrie_node_lookup_deepest t [] key n) as ([m mc] & -> & Hplug & Hmwf & p & k & es & l & r & Em & Hext & Hpn & Hst);
    [done|done|by split|done|apply prefix_nil|]. cbn [mbind option_bind fst snd] in *. subst m. cbn [plug] in Hplug.
  rewrite <- Hplug in Hsh. destruct (shaped_unplug (Node p k es l r) mc ltac:(done) Hsh) as (Hb & Hs & Hc). subst t.
  destruct (decide (p = n)) as [<-|Hpn'].
  { eexists. split; [done|]. split_and!; try done. cbn [fst snd]. by eexists k, es, l, r. }
  destruct Hst as [|Hst]; [done|]. unfold btrie_node_add. cbn [fst snd].
  rewrite key_bit_Some by (done || lia). cbn [mbind option_bind child_loc fst snd].
  pose proof (shapedc_child p k es l r mc (bit key p) Hb Hs Hc) as Hframe.
  assert (Hgo : exists m, (next ← child_loc (bit key p) (Node p k es l r, mc);
      if is_nil next.1 then btrie_add_leaf (n / 32 + 2) (Node p k es l r, mc) (bit key p) key n
      else btrie_solve_conflict next key n (p + 1)) = Some m /\ slot key n (plug (Node p k es l r) mc) m).
  { destruct (child_loc (bit key p) (Node p k es l r, mc)) as [[ch chc]|] eqn:Ech; [|done].
    destruct (wfl_child _ _ _ Hmwf Ech) as [Hchwf Hchplug]. cbn [mbind option_bind fst snd] in *.
    assert (ch = child (bit key p) (Node p k es l r) /\
            chc = mk_bframe p k es (bit key p) (if bit key p then l else r) :: mc) as [Hch Hchc].
    { cbn in Ech. destruct (bit key p); by injection Ech as <- <-. }
    destruct ch as [|cp ck ces cl cr]; cbn [is_nil].
    - apply btrie_add_leaf_slot; try done; [lia|unfold index; lia].
    - rewrite <- Hchplug, Hchc. apply solve_conflict_slot; try done; [lia| | | |].
      + by rewrite <- Hchc.
      + cbn [path f_plen f_key f_side]. by rewrite Hext, Nat.add_1_r, bits_snoc.
      + by rewrite Nat.add_1_r, bits_snoc, Hch.
      + rewrite Hch. destruct (bit key p); [exact (proj2 Hb)|exact (proj1 Hb)]. }
  destruct Hgo as (m & Hm & Hslot). exists m. split; [|done]. cbn [child_loc fst snd mbind option_bind] in Hm.
  destruct (bit key p); cbn [fst snd] in *; by rewrite Hm.
Qed.

Lemma plug_nonnil t c : t ≠ Nil -> plug t c ≠ Nil.
Proof.
  revert t. induction c as [|f c IH]; intros t Hne; [done|]. cbn [plug]. apply IH. by destruct f as [? ? ? [|] ?].
Qed.

Lemma plug_ok p k es l r c : wfl (Node p k es l r, c) -> shaped_below (Node p k es l r) -> shapedc c ->
  busy p es l r -> trie_ok (plug (Node p k es l r) c).
Proof.
  intros Hwf Hb Hc Hbusy. split; [by apply plug_nonnil|]. split; [by apply wf_plug|].
  by apply shaped_plug.
Qed.

(** The only child of a node without elements takes its place, in the same block. *)
Lemma hoist_ok p k l r o c : wfl (Node p k [] l r, c) -> shaped_below (Node p k [] l r) -> shapedc c -> c ≠ [] ->
  is_nil l || is_nil r = true -> o = (if is_nil l then r else l) -> is_nil o = false -> remain p ≠ 0%nat ->
  trie_ok (plug o c) /\ entries [] (plug o c) = entries [] (plug (Node p k [] l r) c).
Proof.
  intros [(Hok & Hl & Hr) Hwc] [Hsl Hsr] Hc Hne Hnil Ho Hon Hrem. cbn [fst snd child] in *.
  set (s := is_nil l).
  assert (Hwo : wf (ext (path c) p k ++ [s]) o /\ shaped o) by (unfold s; subst o; by destruct l).
  destruct Hwo as [Hwo Hso]. destruct o as [|op ok oes ol or]; [done|].
  assert (Hwo' : node_ok (ext (path c) p k ++ [s]) op ok) by apply Hwo.
  assert (Hx : ext (ext (path c) p k ++ [s]) op ok = ext (path c) op ok /\ node_ok (path c) op ok).
  { pose proof (length_ext _ _ _ Hok) as Hlx. pose proof (node_ok_blk _ _ _ Hok) as Hbk.
    pose proof (node_ok_prefix _ _ _ Hok) as Hp1. pose proof (node_ok_prefix _ _ _ Hwo') as Hp2.
    destruct Hwo' as [Hk2 [[E0 _]|(_ & Hlen2 & _)]]; [by destruct (ext (path c) p k)|].
    rewrite length_app, Hlx in Hlen2. cbn [length] in Hlen2.
    destruct Hok as [_ [[_ ->]|(Hnb & Hlen & _)]]; [done|].
    assert (Eb : blk op = blk p) by (unfold blk, remain in *; lia).
    assert (Ex : ext (ext (path c) p k ++ [s]) op ok = ext (path c) op ok).
    { unfold ext at 1 3. f_equal. destruct Hp1 as [z Hz]. rewrite Hz, <- app_assoc. apply take_app_le. lia. }
    split; [done|]. split; [done|]. right. split; [done|]. split; [unfold blk, remain in *; lia|].
    rewrite <- Ex. etrans; [exact Hp1|]. etrans; [|exact Hp2]. by eexists. }
  destruct Hx as [Hx Hno]. split.
  - apply plug_ok; [|by apply shaped_Node|done|apply Hso]. split; [|done]. by eapply wf_same.
  - rewrite !entries_plug. do 2 f_equal. rewrite <- (entries_same _ _ _ _ _ _ _ Hx). cbn [entries fmap list_fmap app].
    unfold s in *. subst. destruct l; cbn [is_nil] in *; [by subst r|]. destruct r; [|done]. injection Ho as -> -> -> -> ->.
    cbn [entries]. by rewrite app_nil_r.
Qed.

Lemma btrie_add_entries t e key n : trie_ok t -> key_ok key -> (n <= 8 * length key)%nat ->
  exists t' l1 l2, btrie_add t e key n = Some t' /\ trie_ok t' /\
    entries [] t = l1 ++ l2 /\ entries [] t' = l1 ++ (bits key 0 n, e) :: l2.
Proof.
  intros Ht Hk Hn. destruct (btrie_node_goc_slot t key n Ht Hk Hn) as (m & Hm & Hwf & Hc & Hb & He & k & es & l & r & Em & Hx).
  unfold btrie_add. rewrite Hm. cbn [mbind option_bind]. destruct m as [m mc]. cbn [fst snd] in *. subst m.
  assert (Ht' : trie_ok (plug (Node n k (es ++ [e]) l r) mc)).
  { apply plug_ok; [exact Hwf|exact Hb|done|]. left. by destruct es. }
  exists (plug (Node n k (es ++ [e]) l r) mc), (before mc ++ (pair (bits key 0 n) <$> es)),
    (entries (bits key 0 n ++ [false]) l ++ entries (bits key 0 n ++ [true]) r ++ after mc).
  split; [done|]. split; [done|]. rewrite <- He, !entries_plug. cbn [entries]. rewrite Hx, fmap_app, <- !app_assoc. done.
Qed.

(** ** Removal *)

Lemma btrie_delete_maybe_ok n c : n ≠ Nil -> wfl (n, c) -> shaped_below n -> shapedc c ->
  trie_ok (btrie_delete_maybe n c) /\ entries [] (btrie_delete_maybe n c) = entries [] (plug n c).
Proof.
  revert n. induction c as [|f c IH]; intros [|p k es l r] Hne Hwf Hb Hc; try done.
  { cbn [btrie_delete_maybe]. split; [|done]. split; [done|]. split; [by apply Hwf|done]. }
  assert (Hkeep : busy p es l r -> trie_ok (plug (Node p k es l r) (f :: c)) /\
    entries [] (plug (Node p k es l r) (f :: c)) = entries [] (plug (Node p k es l r) (f :: c)))
    by (intros; split; [by apply plug_ok|done]).
  cbn [btrie_delete_maybe]. destruct es as [|e es]; [|apply Hkeep; by left].
  destruct (is_nil l || is_nil r) eqn:Enil; [|apply Hkeep; right; left; by destruct l, r].
  set (o := if is_nil l then r else l).
  destruct (is_nil o) eqn:Eo.
  - assert (l = Nil /\ r = Nil) as [-> ->] by (unfold o in Eo; by destruct l, r).
    destruct (IH (up_node Nil f)) as [H1 H2].
    + by destruct f as [? ? ? [|] ?].
    + apply wfl_up. split; [done|apply Hwf].
    + destruct Hc as (_ & Hsib & _). by destruct f as [? ? ? [|] ?].
    + apply Hc.
    + split; [done|]. rewrite H2. change (plug (up_node Nil f) c) with (plug Nil (f :: c)).
      by rewrite !entries_plug.
  - destruct (decide (remain p = 0)%nat) as [Hrem|Hrem].
    + apply Hkeep. right. right. split; [|done]. unfold o in Eo. destruct l; [right|left; done]. by destruct r.
    + change (plug (up_node o f) c) with (plug o (f :: c)). by apply hoist_ok.
Qed.

End trie.

(** ** Removal *)

Section remove.
Context {E : Type} `{!EqDecision E}.
Implicit Types (t : btrie E) (c : list (bframe E)) (f : bframe E) (b : list bool).

Lemma element_node_sound e t c m : element_node e t c = Some m ->
  exists p k es l r, plug m.1 m.2 = plug t c /\ m.1 = Node p k es l r /\ e ∈ es.
Proof.
  revert c. induction t as [|p k es l IHl r IHr]; intros c; cbn [element_node]; [done|].
  destruct (decide (e ∈ es)) as [He|He]; [intros [= <-]; by eexists p, k, es, l, r|].
  destruct (element_node e l _) as [m'|] eqn:El; [intros [= ->]; by apply IHl in El|apply IHr].
Qed.

Lemma element_node_found e t c : e ∈ (entries (path c) t).*2 -> exists m, element_node e t c = Some m.
Proof.
  revert c. induction t as [|p k es l IHl r IHr]; intros c Hin; [by apply not_elem_of_nil in Hin|].
  cbn [entries element_node] in *. destruct (decide (e ∈ es)) as [He|He]; [by eexists|].
  rewrite !fmap_app, !elem_of_app in Hin. destruct (element_node e l _) as [m|] eqn:El; [by eexists|].
  destruct Hin as [Hin|[Hin|Hin]].
  - destruct He. apply list_elem_of_fmap in Hin as (x & -> & (y & -> & Hy)%list_elem_of_fmap). done.
  - destruct (IHl (mk_bframe p k es false r :: c) Hin) as [m Em]. by rewrite Em in El.
  - by apply (IHr (mk_bframe p k es true l :: c)).
Qed.

Lemma filter_pair b e (es : list E) :
  filter (fun x : list bool * E => x.2 ≠ e) (pair b <$> es) = pair b <$> filter (fun x => x ≠ e) es.
Proof.
  induction es as [|x es IH]; [done|]. rewrite fmap_cons, !filter_cons. cbn [snd].
  destruct (decide (x ≠ e)); [|done]. by rewrite fmap_cons, IH.
Qed.

Lemma btrie_remove_entries t e : trie_ok t -> NoDup (entries [] t).*2 -> e ∈ (entries [] t).*2 ->
  exists t', btrie_remove t e = Some t' /\ trie_ok t' /\ entries [] t' = filter (fun x => x.2 ≠ e) (entries [] t).
Proof.
  intros (Hne & Hwf & Hsh) Hnd Hin. unfold btrie_remove.
  destruct (element_node_found e t [] Hin) as [[m mc] Em]. rewrite Em. cbn [mbind option_bind].
  destruct (element_node_sound _ _ _ _ Em) as (p & k & es & l & r & Hplug & Hm & He). cbn [fst snd plug] in *. subst m.
  rewrite <- Hplug in *. apply (wf_plug _ mc) in Hwf.
  destruct (shaped_unplug (Node p k es l r) mc ltac:(done) Hsh) as (Hb & Hs & Hc).
  set (es' := filter (fun x => x ≠ e) es).
  assert (Hent : entries [] (plug (Node p k es' l r) mc) =
                 filter (fun x => x.2 ≠ e) (entries [] (plug (Node p k es l r) mc))).
  { rewrite entries_plug in Hnd. rewrite !entries_plug. cbn [entries] in *. rewrite !filter_app, filter_pair. fold es'.
    rewrite !fmap_app, <- list_fmap_compose in Hnd. change (snd ∘ pair _) with (@id E) in Hnd. rewrite list_fmap_id in Hnd.
    assert (Hno : forall q : list (list bool * E), (forall x, x ∈ es -> x ∉ q.*2) ->
              filter (fun x => x.2 ≠ e) q = q).
    { intros q Hq. apply filter_all. intros x Hx Ex. apply (Hq e He). rewrite <- Ex. by apply list_elem_of_fmap_2. }
    rewrite !NoDup_app in Hnd. rewrite !Hno; [done|..]; intros x Hx Hx'; clear -Hnd Hx Hx'; set_solver. }
  destruct (decide (es' = [])) as [Ee|Ee].
  - destruct (btrie_delete_maybe_ok (Node p k es' l r) mc) as [H1 H2]; try done. eexists. split; [done|]. split; [done|].
    by rewrite H2.
  - eexists. split; [done|]. split; [|done]. apply plug_ok; [exact Hwf|exact Hb|done|by left].
Qed.

End remove.
