(* ===== verification/BtrieIter.v ===== *)
(** The iterations of the binary trie: what is left to visit at each position of a
    walk, and the keys that overlap a given one. *)
From S2P Require Import Prelude Bitops Tlv Btrie BtrieBits BtrieWf BtrieAdd BtrieIns BtrieTrie.


(** ** Iteration *)

Section iter.
Context {E : Type} `{!EqDecision E}.
Implicit Types (t : btrie E) (c : list (bframe E)) (f : bframe E) (b : list bool).

(** A loop over positions, with what is left to visit at each of them. *)
Lemma for_each_todo (todo : pos E -> list E -> Prop) next fuel first R :
  (forall p R, todo p R -> match R with
     | [] => next p = Some None
     | e :: R => exists p', next p = Some (Some (e, p')) /\ todo p' R
     end) ->
  (match R with [] => first = Some None | e :: R => exists p', first = Some (Some (e, p')) /\ todo p' R end) ->
  (length R < fuel)%nat -> for_each fuel next first = Some R.
Proof.
  intros Hstep. revert first R. induction fuel as [|fuel IH]; intros first R Hfirst Hlen; [lia|]. cbn [for_each].
  destruct R as [|e R]; [by rewrite Hfirst|]. destruct Hfirst as (p' & -> & Hp). cbn [mbind option_bind].
  rewrite (IH (next p') R); [done|exact (Hstep _ _ Hp)|cbn in Hlen; lia].
Qed.

(** The elements of a trie, in order, without their keys. *)
Fixpoint flat t : list E :=
  match t with
  | Nil => []
  | Node _ _ es l r => es ++ flat l ++ flat r
  end.

Lemma entries_flat b t : (entries b t).*2 = flat t.
Proof.
  revert b. induction t as [|p k es l IHl r IHr]; intros b; [done|]. cbn [entries flat].
  rewrite !fmap_app, IHl, IHr, <- list_fmap_compose. change (snd ∘ pair _) with (@id E). by rewrite list_fmap_id.
Qed.

Lemma length_flat t : length (flat t) = elements_in t.
Proof. induction t as [|p k es l IHl r IHr]; [done|]. cbn [flat elements_in]. rewrite !length_app. lia. Qed.

(** What a walk down visits after leaving a node upwards. *)
Fixpoint ups c (len : nat) : list E :=
  match c with
  | [] => []
  | f :: c => if decide (f_plen f < len)%nat then []
              else (if f_side f then [] else flat (f_sibling f)) ++ ups c len
  end.

Definition down_todo (lbl : down_label) (n : loc E) (len : nat) : list E :=
  match lbl with
  | DNext rest => rest ++ flat (child false n.1) ++ flat (child true n.1)
  | DRight => flat (child true n.1)
  | DUp => []
  end ++ ups n.2 len.

(** Rounds to leave a context, and to finish from a label. *)
Fixpoint up_cost c : nat :=
  match c with
  | [] => 1
  | f :: c => 1 + (if f_side f then 0 else 1 + 3 * nodes_in (f_sibling f)) + up_cost c
  end.

Definition down_cost (lbl : down_label (E := E)) (n : loc E) : nat :=
  match lbl with
  | DNext _ => 2 + 3 * nodes_in (child false n.1) + 3 * nodes_in (child true n.1)
  | DRight => 1 + 3 * nodes_in (child true n.1)
  | DUp => 0
  end + up_cost n.2.

Lemma up_cost_plug t c : (up_cost c + 3 * nodes_in t <= 3 * nodes_in (plug t c) + 1)%nat.
Proof.
  revert t. induction c as [|f c IH]; intros t; cbn [up_cost plug]; [lia|].
  specialize (IH (up_node t f)). destruct f as [p k es [|] s]; unfold up_node in *; cbn [f_side f_sibling nodes_in] in *; lia.
Qed.

Lemma down_cost_plug rest n : n.1 ≠ Nil -> (down_cost (DNext rest) n <= 3 * nodes_in (plug n.1 n.2))%nat.
Proof.
  intros Hn. pose proof (up_cost_plug n.1 n.2). destruct n as [[|p k es l r] c]; [done|]. unfold down_cost.
  cbn [fst snd child nodes_in] in *. lia.
Qed.

Definition plen_of t : nat := match t with Nil => 0 | Node p _ _ _ _ => p end.

(** Where a walk below the key of length [len] may be. *)
Definition down_at t0 (len : nat) (n : loc E) : Prop :=
  n.1 ≠ Nil /\ wfl n /\ plug n.1 n.2 = t0 /\ (len <= plen_of n.1)%nat.

Lemma down_at_child t0 len n side n' : down_at t0 len n -> child_loc side n = Some n' -> is_nil n'.1 = false ->
  down_at t0 len n'.
Proof.
  intros (Hne & Hwf & Hplug & Hlen) Hch Hnil. destruct (wfl_child _ _ _ Hwf Hch) as [Hwf' Hplug'].
  split; [by destruct n'.1|]. split; [done|]. split; [by rewrite Hplug'|].
  destruct n as [[|p k es l r] c]; [done|]. cbn in *.
  assert (Hok : node_ok (path c) p k) by apply Hwf. pose proof (length_ext _ _ _ Hok) as Hlx.
  destruct n' as [n' c']. cbn in *.
  assert (exists s, path c' = ext (path c) p k ++ [s]) as [s Hs] by (destruct side; injection Hch as <- <-; by eexists).
  destruct n' as [|p' k' es' l' r']; [done|]. assert (Hok' : node_ok (path c') p' k') by apply Hwf'.
  apply node_ok_blk in Hok'. rewrite Hs, length_app, Hlx in Hok'. cbn in *. lia.
Qed.

Lemma next_down_loop_todo fuel lbl n t0 len : down_at t0 len n -> (down_cost lbl n <= fuel)%nat ->
  match down_todo lbl n len with
  | [] => next_down_loop fuel lbl n len = Some None
  | e :: R => exists p, next_down_loop fuel lbl n len = Some (Some (e, p)) /\ down_at t0 len p.1 /\
                down_todo (DNext p.2) p.1 len = R
  end.
Proof.
  revert lbl n. induction fuel as [|fuel IH]; intros lbl n Hat Hcost.
  { exfalso. unfold down_cost in Hcost. assert (0 < up_cost n.2)%nat by (destruct n.2; cbn; lia). destruct lbl; lia. }
  assert (Hne : n.1 ≠ Nil) by apply Hat. destruct n as [[|p k es l r] c]; [done|].
  destruct lbl as [[|e rest]| |]; cbn [next_down_loop].
  - cbn [child_loc fst snd mbind option_bind]. destruct l as [|lp lk les ll lr]; cbn [is_nil].
    + apply (IH DRight); [done|]. unfold down_cost in *. cbn in *. lia.
    + set (n' := (Node lp lk les ll lr, mk_bframe p k es false r :: c)).
      assert (Hat' : down_at t0 len n') by (by eapply (down_at_child t0 len _ false)).
      specialize (IH (DNext (elements_of n'.1)) n' Hat').
      replace (down_todo (DNext []) _ len) with (down_todo (DNext (elements_of n'.1)) n' len).
      * apply IH. unfold down_cost, n' in *. cbn in *. lia.
      * unfold down_todo, n'. cbn. rewrite decide_False by (destruct Hat as (_ & _ & _ & H); cbn in H; lia).
        by rewrite <- !app_assoc.
  - unfold down_todo. cbn [app]. eexists. split; [done|]. done.
  - cbn [child_loc fst snd mbind option_bind]. destruct r as [|rp rk res rl rr]; cbn [is_nil].
    + apply (IH DUp); [done|]. unfold down_cost in *. cbn in *. lia.
    + set (n' := (Node rp rk res rl rr, mk_bframe p k es true l :: c)).
      assert (Hat' : down_at t0 len n') by (by eapply (down_at_child t0 len _ true)).
      specialize (IH (DNext (elements_of n'.1)) n' Hat').
      replace (down_todo DRight _ len) with (down_todo (DNext (elements_of n'.1)) n' len).
      * apply IH. unfold down_cost, n' in *. cbn in *. lia.
      * unfold down_todo, n'. cbn. rewrite decide_False by (destruct Hat as (_ & _ & _ & H); cbn in H; lia).
        by rewrite <- !app_assoc.
  - unfold down_todo. cbn [fst snd app ups]. destruct c as [|f c]; [done|]. cbn [ups].
    destruct (decide (f_plen f < len)%nat) as [Hlt|Hge]; [done|].
    assert (Hat' : down_at t0 len (up_node (Node p k es l r) f, c)).
    { destruct Hat as (_ & Hwf & Hplug & _). split; [by destruct f as [? ? ? [|] ?]|]. split; [by apply wfl_up|].
      split; [done|]. destruct f as [? ? ? [|] ?]; cbn in *; lia. }
    specialize (IH (if f_side f then DUp else DRight) _ Hat'). unfold down_cost in *. cbn [fst snd up_cost] in *.
    destruct f as [fp fk fes [|] fs]; unfold down_todo in *; cbn in *; apply IH; lia.
Qed.

Lemma btrie_next_down_todo n rest t0 len : down_at t0 len n ->
  match down_todo (DNext rest) n len with
  | [] => btrie_next_down (n, rest) len = Some None
  | e :: R => exists p, btrie_next_down (n, rest) len = Some (Some (e, p)) /\ down_at t0 len p.1 /\
                down_todo (DNext p.2) p.1 len = R
  end.
Proof.
  intros Hat. apply next_down_loop_todo; [done|]. cbn [fst snd]. pose proof (down_cost_plug rest n ltac:(apply Hat)). lia.
Qed.

End iter.

(** ** Keys that overlap *)

Section visit.
Context {E : Type} `{!EqDecision E}.
Implicit Types (t : btrie E) (c : list (bframe E)) (f : bframe E) (b : list bool) (x : list bool * E).

(** Keys that have an address in common. *)
Definition overlap (a b : list bool) : Prop := a `prefix_of` b \/ b `prefix_of` a.

#[global] Instance overlap_dec a b : Decision (overlap a b).
Proof. unfold overlap. apply _. Defined.

Lemma prefix_total (a b z : list bool) : a `prefix_of` z -> b `prefix_of` z -> overlap a b.
Proof. intros. by eapply prefix_weak_total. Qed.

Lemma not_overlap_fork (a y z : list bool) s : a ++ [s] `prefix_of` y -> a ++ [negb s] `prefix_of` z -> ~ overlap y z.
Proof.
  intros [u ->] [v ->] [[w Hw]|[w Hw]]; rewrite <- !app_assoc in Hw; apply app_inv_head in Hw; by destruct s.
Qed.

(** Entries beside the way to a location do not overlap what lies below it. *)
Lemma sibling_not_overlap f c y x : wfc (f :: c) -> path (f :: c) `prefix_of` y ->
  x ∈ entries (ext (path c) (f_plen f) (f_key f) ++ [negb (f_side f)]) (f_sibling f) -> ~ overlap y x.1.
Proof.
  intros (_ & Hw & _) Hy Hx. eapply not_overlap_fork; [exact Hy|]. by eapply entries_prefix.
Qed.

Lemma path_cons_prefix f c y : path (f :: c) `prefix_of` y -> wfc (f :: c) -> path c `prefix_of` y.
Proof.
  intros Hy (Hok & _). etrans; [by apply node_ok_prefix|]. etrans; [|exact Hy]. by eexists.
Qed.

Lemma after_not_overlap c y x : wfc c -> path c `prefix_of` y -> x ∈ after c -> ~ overlap y x.1.
Proof.
  induction c as [|f c IH]; intros Hw Hy; cbn [after]; [by intros ?%not_elem_of_nil|].
  rewrite elem_of_app. intros [Hx|Hx].
  - pose proof (sibling_not_overlap f c y x Hw Hy) as Hs. destruct (f_side f); [by apply not_elem_of_nil in Hx|by apply Hs].
  - apply IH; [apply Hw|by eapply path_cons_prefix|done].
Qed.

(** The elements of the ancestors of a location, the root first. *)
Fixpoint ancestors c : list (list bool * E) :=
  match c with
  | [] => []
  | f :: c => ancestors c ++ (pair (ext (path c) (f_plen f) (f_key f)) <$> f_elements f)
  end.

Lemma before_overlap c y : wfc c -> path c `prefix_of` y -> filter (fun x => overlap y x.1) (before c) = ancestors c.
Proof.
  induction c as [|f c IH]; intros Hw Hy; cbn [before ancestors]; [done|].
  rewrite !filter_app, IH; [|apply Hw|by eapply path_cons_prefix].
  rewrite (filter_all _ (pair _ <$> _)).
  2:{ intros x (e & -> & _)%list_elem_of_fmap. right. cbn. etrans; [|exact Hy]. cbn. by eexists. }
  rewrite (filter_none _ (if f_side f then _ else _)); [by rewrite app_nil_r|].
  intros x Hx. apply (sibling_not_overlap f c); [done|done|]. destruct (f_side f); [done|by apply not_elem_of_nil in Hx].
Qed.

Lemma ancestors_short c x : wfc c -> x ∈ ancestors c -> (length x.1 < length (path c))%nat.
Proof.
  induction c as [|f c IH]; intros Hw; cbn [ancestors path]; [by intros ?%not_elem_of_nil|].
  assert (Hok : node_ok (path c) (f_plen f) (f_key f)) by apply Hw.
  rewrite elem_of_app, length_app. cbn [length].
  intros [Hx|(e & -> & _)%list_elem_of_fmap]; [|cbn; lia].
  specialize (IH ltac:(apply Hw) Hx). pose proof (prefix_length _ _ (node_ok_prefix _ _ _ Hok)). lia.
Qed.

(** The entries that overlap a key below a location. *)
Lemma overlap_plug t c y : wfl (t, c) -> path c `prefix_of` y ->
  filter (fun x => overlap y x.1) (entries [] (plug t c)) =
  ancestors c ++ filter (fun x => overlap y x.1) (entries (path c) t).
Proof.
  intros [_ Hw] Hy. rewrite entries_plug, !filter_app, before_overlap by done. cbn [snd] in *.
  rewrite (filter_none _ (after c)) by (intros x Hx; by apply (after_not_overlap c)). by rewrite app_nil_r.
Qed.

Lemma all_overlap b t y : wf b t -> y `prefix_of` b -> filter (fun x => overlap y x.1) (entries b t) = entries b t.
Proof.
  intros Hw Hy. apply filter_all. intros x Hx. left. etrans; [exact Hy|]. by eapply entries_prefix.
Qed.

Lemma none_overlap b t y : wf b t -> ~ overlap y b -> b = [] \/ (length b <= length y)%nat -> filter (fun x => overlap y x.1) (entries b t) = [].
Proof.
  intros Hw Hy Hlen. apply filter_none. intros x Hx [Ho|Ho]; apply Hy; pose proof (entries_prefix _ _ _ Hw Hx) as Hp.
  - by apply (prefix_total _ _ x.1).
  - right. etrans; [exact Hp|done].
Qed.

End visit.
