(* ===== verification/BtrieWalk.v ===== *)
(** The walks of the binary trie from a key: up, down, and over everything that
    overlaps it.  Each visits exactly the elements its name promises. *)
From S2P Require Import Prelude Bitops Tlv Btrie BtrieBits BtrieWf BtrieAdd BtrieIns BtrieTrie BtrieIter.

(** ** Walks from a key *)

(** A node at or below a key agrees with it when its block does. *)
Lemma key_differs_ext key i len cp ck : key_ok key -> (len <= 8 * length key)%nat ->
  node_ok (bits key 0 i) cp ck -> (1 <= i <= len)%nat ->
  key_differs key ck (Nat.min len cp) = Some (bool_decide (~ bits key 0 (Nat.min len cp) `prefix_of` ext (bits key 0 i) cp ck)).
Proof.
  intros Hk Hlen Hok Hi. destruct (node_ok_bounds _ _ _ _ Hok) as (Hck & Hcp & Eb); [lia|].
  rewrite key_differs_Some by (done || lia). f_equal. apply bool_decide_ext.
  rewrite bits_prefix_ext by (done || lia).
  assert (E : blk (Nat.min len cp) = blk cp) by (unfold blk in *; lia). rewrite E.
  apply not_iff_compat. unfold own, bits. rewrite E. split.
  - intros Heq j Hj. apply (f_equal (.!! j)) in Heq. rewrite !list_lookup_fmap, !lookup_seq_lt in Heq by lia.
    injection Heq as Heq. exact Heq.
  - intros Hall. apply list_eq. intros j. rewrite !list_lookup_fmap.
    destruct (decide (j < Nat.min len cp - blk cp)%nat) as [Hj|Hj].
    + rewrite !lookup_seq_lt by lia. cbn. f_equal. by apply Hall.
    + by rewrite !lookup_seq_ge by lia.
Qed.

Section updown.
Context {E : Type} `{!EqDecision E}.
Implicit Types (t : btrie E) (c : list (bframe E)) (b : list bool).

(** The elements below a place whose keys overlap [y]. *)
Definition met (y : list bool) b t : list E := (filter (fun x => overlap y x.1) (entries b t)).*2.

Lemma met_node y b p k es l r : wf b (Node p k es l r) ->
  (overlap y (ext b p k) -> met y b (Node p k es l r) = es ++ met y (ext b p k ++ [false]) l ++ met y (ext b p k ++ [true]) r) /\
  (~ overlap y (ext b p k) -> met y b (Node p k es l r) = []).
Proof.
  intros (Hok & Hl & Hr). unfold met. cbn [entries]. split; intros Ho.
  - rewrite !filter_app, (filter_all _ (pair _ <$> es)), !fmap_app by (by intros x (e & -> & _)%list_elem_of_fmap).
    rewrite <- (list_fmap_compose _ snd). change (snd ∘ pair _) with (@id E). by rewrite list_fmap_id.
  - rewrite filter_none; [done|]. intros x Hx Hx'. apply Ho.
    assert (Hp : ext b p k `prefix_of` x.1).
    { rewrite !elem_of_app in Hx. destruct Hx as [(e & -> & _)%list_elem_of_fmap|[Hx|Hx]]; [done| |];
        (etrans; [|eapply entries_prefix; [|exact Hx]; done]); by eexists. }
    destruct Hx' as [Hx'|Hx']; [by apply (prefix_total _ _ x.1)|]. right. by etrans.
Qed.

Lemma met_off y b t s : wf (b ++ [negb s]) t -> b ++ [s] `prefix_of` y -> met y (b ++ [negb s]) t = [].
Proof.
  intros Hw Hy. unfold met. rewrite filter_none; [done|]. intros x Hx. eapply (not_overlap_fork b y x.1 s); [done|].
  by eapply entries_prefix.
Qed.

Lemma met_below y b t : wf b t -> y `prefix_of` b -> met y b t = flat t.
Proof. intros. unfold met. by rewrite all_overlap, entries_flat. Qed.

Lemma met_node_below y b p k es l r : wf b (Node p k es l r) -> y `prefix_of` ext b p k ->
  met y b (Node p k es l r) = flat (Node p k es l r).
Proof.
  intros Hw Hy. destruct (met_node y _ _ _ _ _ _ Hw) as [-> _]; [|by left]. destruct Hw as (_ & Hl & Hr).
  rewrite !met_below by first [done|etrans; [exact Hy|by eexists]]. done.
Qed.

(** Above the key: on its way, with the elements that follow and the child on it. *)
Definition up_at t0 (key : list Z) (len : nat) (n : loc E) : Prop :=
  wfl n /\ plug n.1 n.2 = t0 /\ exists p k es l r, n.1 = Node p k es l r /\ (p < len)%nat /\
    ext (path n.2) p k = bits key 0 p.

Definition updown_todo t0 (key : list Z) (len : nat) (p : pos E) (R : list E) : Prop :=
  (up_at t0 key len p.1 /\ R = p.2 ++ met (bits key 0 len) (bits key 0 (plen_of p.1.1) ++ [bit key (plen_of p.1.1)])
                                          (child (bit key (plen_of p.1.1)) p.1.1)) \/
  (down_at t0 len p.1 /\ R = down_todo (DNext p.2) p.1 len).

Definition steps_to (todo : pos E -> list E -> Prop) (r : option (option (E * pos E))) (R : list E) : Prop :=
  match R with
  | [] => r = Some None
  | e :: R => exists p, r = Some (Some (e, p)) /\ todo p R
  end.

Lemma down_steps n rest t0 key len R : down_at t0 len n -> R = down_todo (DNext rest) n len ->
  steps_to (updown_todo t0 key len) (btrie_next_down (n, rest) len) R.
Proof.
  intros Hat ->. pose proof (btrie_next_down_todo n rest t0 len Hat) as H.
  unfold steps_to. destruct (down_todo _ _ _) as [|e R]; [done|].
  destruct H as (p & Hp & Hat' & HR). exists p. split; [done|]. right. by split.
Qed.

Lemma updown_child cp ck ces cl cr f c key len t0 : key_ok key -> (len <= 8 * length key)%nat ->
  let ch := Node cp ck ces cl cr in
  wfl (ch, f :: c) -> plug ch (f :: c) = t0 -> (f_plen f < len)%nat ->
  path (f :: c) = bits key 0 (S (f_plen f)) ->
  if decide (len <= cp)%nat then
    exists d, key_differs key ck len = Some d /\
      if (d : bool) then met (bits key 0 len) (path (f :: c)) ch = []
      else down_at t0 len (ch, f :: c) /\
        met (bits key 0 len) (path (f :: c)) ch = down_todo (DNext ces) (ch, f :: c) len
  else
    exists d, key_differs key ck cp = Some d /\
      if (d : bool) then met (bits key 0 len) (path (f :: c)) ch = []
      else up_at t0 key len (ch, f :: c) /\
        met (bits key 0 len) (path (f :: c)) ch =
        ces ++ met (bits key 0 len) (bits key 0 cp ++ [bit key cp]) (child (bit key cp) ch).
Proof.
  intros Hk Hlen ch Hwf Hplug Hf Hpath. assert (Hw : wf (path (f :: c)) ch) by apply Hwf.
  pose proof Hw as (Hok & Hwl & Hwr). rewrite Hpath in Hok, Hw, Hwl, Hwr |- *. 
  pose proof (key_differs_ext key (S (f_plen f)) len cp ck Hk Hlen Hok ltac:(lia)) as Hd.
  destruct (met_node (bits key 0 len) _ _ _ _ _ _ Hw) as [Hin Hout]. pose proof (length_ext _ _ _ Hok) as Hle.
  destruct (decide (len <= cp)%nat) as [Hc|Hc].
  - rewrite Nat.min_l in Hd by lia. eexists. split; [exact Hd|].
    destruct (bool_decide_reflect (~ bits key 0 len `prefix_of` ext (bits key 0 (S (f_plen f))) cp ck)) as [Hn|Hy%dec_stable].
    + apply Hout. intros [Ho|Ho]; [done|]. apply Hn. pose proof (prefix_length _ _ Ho) as Hl. rewrite Hle, length_bits in Hl.
      rewrite <- (prefix_length_eq _ _ Ho) by (rewrite Hle, length_bits; lia). done.
    + split; [split; [done|]; split; [done|]; by split|]. unfold ch at 1. rewrite met_node_below by done. unfold down_todo. cbn [fst snd child ups flat ch].
      rewrite decide_True by done. by rewrite app_nil_r.
  - rewrite Nat.min_r in Hd by lia. eexists. split; [exact Hd|].
    destruct (bool_decide_reflect (~ bits key 0 cp `prefix_of` ext (bits key 0 (S (f_plen f))) cp ck)) as [Hn|Hy%dec_stable].
    + apply Hout. intros [Ho|Ho]; apply Hn.
      * apply prefix_length in Ho. rewrite Hle, length_bits in Ho. lia.
      * apply prefix_bits in Ho. rewrite Hle in Ho. by rewrite Ho.
    + apply prefix_length_eq in Hy; [|rewrite Hle, length_bits; lia]. split.
      * split; [done|]. split; [done|]. eexists cp, ck, ces, cl, cr. split; [done|]. split; [lia|]. change (ext (path (f :: c)) cp ck = bits key 0 cp). by rewrite Hpath.
      * unfold ch at 1. rewrite Hin by (rewrite <- Hy; right; apply bits_prefix; lia). rewrite <- Hy in *. f_equal.
        assert (Hs : bits key 0 cp ++ [bit key cp] `prefix_of` bits key 0 len) by (rewrite <- bits_snoc; apply bits_prefix; lia).
        destruct (bit key cp); cbn [child ch].
        -- by rewrite (met_off _ _ cl true).
        -- by rewrite (met_off _ _ cr false), app_nil_r.
Qed.

Lemma up_at_path t0 key len p k es l r c : up_at t0 key len (Node p k es l r, c) ->
  (p < len)%nat /\ ext (path c) p k = bits key 0 p /\
  forall s o, s = bit key p -> path (mk_bframe p k es s o :: c) = bits key 0 (S p).
Proof.
  intros (_ & _ & p' & k' & es' & l' & r' & [= <- <- <- <- <-] & Hp & Hext). cbn [snd] in Hext. split; [done|]. split; [done|].
  intros s o ->. cbn [path f_plen f_key f_side]. by rewrite Hext, bits_snoc.
Qed.

Lemma next_updown_loop_todo t c rest key len t0 : key_ok key -> (len <= 8 * length key)%nat ->
  up_at t0 key len (t, c) ->
  steps_to (updown_todo t0 key len) (next_updown_loop t c rest key len)
    (rest ++ met (bits key 0 len) (bits key 0 (plen_of t) ++ [bit key (plen_of t)]) (child (bit key (plen_of t)) t)).
Proof.
  intros Hk Hlen. revert c rest. induction t as [|p k es l IHl r IHr]; intros c rest Hup.
  { by destruct Hup as (_ & _ & ? & ? & ? & ? & ? & ? & _). }
  destruct rest as [|e rest]; [|eexists; split; [done|]; left; by split].
  cbn [next_updown_loop plen_of app]. destruct (up_at_path _ _ _ _ _ _ _ _ _ Hup) as (Hp & Hext & Hpath).
  assert (Hwf : wfl (Node p k es l r, c)) by apply Hup. assert (Hplug : plug (Node p k es l r) c = t0) by apply Hup.
  rewrite key_bit_Some by (done || lia). cbn [mbind option_bind]. rewrite <- bits_snoc.
  destruct (bit key p) eqn:Hb; cbn [child].
  - destruct r as [|cp ck ces cl cr]; [done|].
    pose proof (updown_child cp ck ces cl cr (mk_bframe p k es true l) c key len t0 Hk Hlen
      (proj2 (wfl_up (Node cp ck ces cl cr) (mk_bframe p k es true l) c) Hwf) Hplug Hp (Hpath _ _ eq_refl)) as Hc.
    rewrite (Hpath _ _ eq_refl) in Hc. destruct (decide (len <= cp)%nat) as [Hle|Hle]; destruct Hc as (d & -> & Hc);
      cbn [mbind option_bind]; destruct d; [by rewrite Hc| |by rewrite Hc|]; destruct Hc as [Hat ->].
    + by apply down_steps.
    + by apply IHr.
  - destruct l as [|cp ck ces cl cr]; [done|].
    pose proof (updown_child cp ck ces cl cr (mk_bframe p k es false r) c key len t0 Hk Hlen
      (proj2 (wfl_up (Node cp ck ces cl cr) (mk_bframe p k es false r) c) Hwf) Hplug Hp (Hpath _ _ eq_refl)) as Hc.
    rewrite (Hpath _ _ eq_refl) in Hc. destruct (decide (len <= cp)%nat) as [Hle|Hle]; destruct Hc as (d & -> & Hc);
      cbn [mbind option_bind]; destruct d; [by rewrite Hc| |by rewrite Hc|]; destruct Hc as [Hat ->].
    + by apply down_steps.
    + by apply IHl.
Qed.

Lemma btrie_next_updown_todo p R key len t0 : key_ok key -> (len <= 8 * length key)%nat -> updown_todo t0 key len p R ->
  steps_to (updown_todo t0 key len) (btrie_next_updown p key len) R.
Proof.
  intros Hk Hlen. destruct p as [[t c] rest]. unfold btrie_next_updown. cbn [fst snd]. intros [[Hup ->]|[Hat ->]].
  - pose proof Hup as (_ & _ & p & k & es & l & r & E1 & Hp & _). cbn [fst] in E1. subst t.
    rewrite decide_False by lia. by apply next_updown_loop_todo.
  - destruct Hat as (Hne & Hat). cbn [fst] in *. destruct t as [|p k es l r]; [done|].
    rewrite decide_True by apply Hat. by apply down_steps.
Qed.

Lemma met_length y b t : (length (met y b t) <= elements_in t)%nat.
Proof.
  unfold met. rewrite length_fmap, <- length_flat, <- (entries_flat b), length_fmap. apply length_filter.
Qed.

(** The walk starts with everything to visit. *)
Lemma updown_first t key len : trie_ok t -> key_ok key -> (len <= 8 * length key)%nat ->
  updown_todo t key len (head_pos (t, [])) (met (bits key 0 len) [] t).
Proof.
  intros (Hne & Hwf & _) Hk Hlen. assert (Hwl : wfl (t, [])) by by apply wf_plug.
  destruct (wf_root t Hwf) as [->|(k & es & l & r & E0)]; [done|]. unfold updown_todo, head_pos. cbn [fst snd].
  subst t. destruct (met_node (bits key 0 len) [] _ _ _ _ _ Hwf) as [Hm _].
  destruct (decide (len = 0)%nat) as [->|Hl0].
  - right. split; [split; [done|]; split; [done|]; by split|]. rewrite met_node_below by (try done; apply prefix_nil).
    unfold down_todo. cbn [fst snd ups child elements_of flat]. by rewrite app_nil_r.
  - left. cbn [plen_of elements_of]. split.
    + split; [done|]. split; [done|]. eexists 0%nat, k, es, l, r. split; [done|]. split; [lia|]. done.
    + rewrite Hm by (right; apply prefix_nil). f_equal. destruct Hwf as (_ & Hl & Hr).
      change (ext [] 0 k) with (bits key 0 0) in *.
      assert (Hs : bits key 0 0 ++ [bit key 0] `prefix_of` bits key 0 len) by (rewrite <- bits_snoc; apply bits_prefix; lia).
      destruct (bit key 0); cbn [child].
      * by rewrite (met_off _ _ l true).
      * by rewrite (met_off _ _ r false), app_nil_r.
Qed.

Lemma btrie_for_each_updown_met t key len : trie_ok t -> key_ok key -> (len <= 8 * length key)%nat ->
  btrie_for_each_updown t key len = Some (met (bits key 0 len) [] t).
Proof.
  intros Ht Hk Hlen. unfold btrie_for_each_updown.
  apply (for_each_todo (updown_todo t key len)); [| |pose proof (met_length (bits key 0 len) [] t); lia].
  - intros p R Hp. by apply (btrie_next_updown_todo p R key len t).
  - apply (btrie_next_updown_todo (head_pos (t, [])) _ key len t Hk Hlen). by apply updown_first.
Qed.

End updown.

Section down_up.
Context {E : Type} `{!EqDecision E}.
Implicit Types (t : btrie E) (c : list (bframe E)) (b : list bool).

Definition under (y : list bool) b t : list (list bool * E) := filter (fun x => y `prefix_of` x.1) (entries b t).
Definition above (y : list bool) b t : list (list bool * E) := filter (fun x => x.1 `prefix_of` y) (entries b t).

Lemma under_overlap y (l : list (list bool * E)) :
  filter (fun x => y `prefix_of` x.1) l = filter (fun x => y `prefix_of` x.1) (filter (fun x => overlap y x.1) l).
Proof. rewrite list_filter_filter_l; [done|]. intros x H. by left. Qed.

Lemma above_overlap y (l : list (list bool * E)) :
  filter (fun x => x.1 `prefix_of` y) l = filter (fun x => x.1 `prefix_of` y) (filter (fun x => overlap y x.1) l).
Proof. rewrite list_filter_filter_l; [done|]. intros x H. by right. Qed.

Lemma ancestors_prefix c x : wfc c -> x ∈ ancestors c -> x.1 `prefix_of` path c.
Proof.
  induction c as [|f c IH]; intros Hw; cbn [ancestors path]; [by intros ?%not_elem_of_nil|].
  assert (Hok : node_ok (path c) (f_plen f) (f_key f)) by apply Hw.
  rewrite elem_of_app. intros [Hx|(e & -> & _)%list_elem_of_fmap]; [|by eexists].
  etrans; [by apply IH; [apply Hw|]|]. etrans; [by apply node_ok_prefix|]. by eexists.
Qed.

Lemma under_plug t c y : wfl (t, c) -> path c `prefix_of` y -> under y [] (plug t c) = under y (path c) t.
Proof.
  intros Hw Hy. unfold under. rewrite under_overlap, overlap_plug, filter_app, <- under_overlap by done.
  rewrite filter_none; [done|]. intros x Hx%ancestors_short Hp%prefix_length; [|apply Hw].
  apply prefix_length in Hy. lia.
Qed.

Lemma above_plug t c y : wfl (t, c) -> path c `prefix_of` y -> above y [] (plug t c) = ancestors c ++ above y (path c) t.
Proof.
  intros Hw Hy. unfold above. rewrite above_overlap, overlap_plug, filter_app, <- above_overlap by done.
  rewrite filter_all; [done|]. intros x Hx%ancestors_prefix; [|apply Hw]. by etrans.
Qed.

Lemma under_off y b t s : wf (b ++ [negb s]) t -> b ++ [s] `prefix_of` y -> under y (b ++ [negb s]) t = [].
Proof.
  intros Hw Hy. apply filter_none. intros x Hx Hp. eapply (not_overlap_fork b y x.1 s); [done| |by left].
  by eapply entries_prefix.
Qed.

Lemma above_off y b t s : wf (b ++ [negb s]) t -> b ++ [s] `prefix_of` y -> above y (b ++ [negb s]) t = [].
Proof.
  intros Hw Hy. apply filter_none. intros x Hx Hp. eapply (not_overlap_fork b y x.1 s); [done| |by right].
  by eapply entries_prefix.
Qed.

Lemma node_entries_prefix b p k es l r x : wf b (Node p k es l r) -> x ∈ entries (E := E) b (Node p k es l r) ->
  ext b p k `prefix_of` x.1.
Proof.
  intros (_ & Hl & Hr). cbn [entries]. rewrite !elem_of_app. intros [(e & -> & _)%list_elem_of_fmap|[Hx|Hx]]; [done| |];
    (etrans; [|eapply entries_prefix; [|exact Hx]; done]); by eexists.
Qed.

(** Below the deepest node on the way to a key. *)
Lemma under_deepest p k es l r c key n : wfl (Node p k es l r, c) -> ext (path c) p k = bits key 0 p -> (p < n)%nat ->
  under (bits key 0 n) (path c) (Node p k es l r) =
  under (bits key 0 n) (bits key 0 p ++ [bit key p]) (child (bit key p) (Node p k es l r)).
Proof.
  intros [(_ & Hl & Hr) _] Hext Hp. cbn [snd] in *. unfold under. cbn [entries]. rewrite Hext in *. rewrite !filter_app.
  rewrite (filter_none _ (pair _ <$> es)).
  2:{ intros x (e & -> & _)%list_elem_of_fmap H%prefix_length. cbn in H. rewrite !length_bits in H. lia. }
  assert (Hs : bits key 0 p ++ [bit key p] `prefix_of` bits key 0 n) by (rewrite <- bits_snoc; apply bits_prefix; lia).
  destruct (bit key p); cbn [child app].
  - pose proof (under_off _ _ l true Hl Hs) as Ho. unfold under in Ho. cbn [negb] in Ho. by rewrite Ho.
  - pose proof (under_off _ _ r false Hr Hs) as Ho. unfold under in Ho. cbn [negb] in Ho. by rewrite Ho, app_nil_r.
Qed.

Lemma above_deepest n (m : loc E) key : deepest key n m ->
  above (bits key 0 n) (path m.2) m.1 = pair (bits key 0 (plen_of m.1)) <$> elements_of m.1.
Proof.
  intros ([Hw _] & p & k & es & l & r & E1 & Hext & Hp & Hst). rewrite E1 in *. unfold above.
  cbn [entries plen_of elements_of]. pose proof Hw as (_ & Hl & Hr). rewrite Hext in *.
  rewrite !filter_app, (filter_all _ (pair _ <$> es)).
  2:{ intros x (e & -> & _)%list_elem_of_fmap. by apply bits_prefix. }
  assert (Hnil : forall s, wf (bits key 0 p ++ [s]) (child s (Node p k es l r)) ->
    filter (fun x => x.1 `prefix_of` bits key 0 n) (entries (bits key 0 p ++ [s]) (child s (Node p k es l r))) = []).
  { intros s Hws. apply filter_none. intros x Hx Hxp. pose proof (entries_prefix _ _ _ Hws Hx) as Hbx.
    destruct Hst as [->|Hst].
    - apply prefix_length in Hxp, Hbx. rewrite length_app, !length_bits in *. cbn in *. lia.
    - destruct (decide (s = bit key p)) as [->|Hs].
      + destruct (child (bit key p) (Node p k es l r)) as [|cp ck ces cl cr]; [by apply not_elem_of_nil in Hx|].
        apply Hst. etrans; [|exact Hxp]. by eapply node_entries_prefix.
      + assert (bits key 0 p ++ [s] `prefix_of` bits key 0 n) as Hpre by (by etrans).
        pose proof (prefix_bits _ _ _ Hpre) as Hb. rewrite length_app, length_bits in Hb. cbn in Hb.
        rewrite Nat.add_1_r, bits_snoc in Hb. apply Hs. by apply app_inj_2 in Hb as [_ [= ->]]. }
  pose proof (Hnil false Hl) as E2. pose proof (Hnil true Hr) as E3. cbn [child] in E2, E3. by rewrite E2, E3, !app_nil_r.
Qed.

(** The child on the way to a key is inside the key, or nothing below is. *)
Lemma first_down_child cp ck ces cl cr f c key len t0 : key_ok key -> (len <= 8 * length key)%nat ->
  let ch := Node cp ck ces cl cr in
  wfl (ch, f :: c) -> plug ch (f :: c) = t0 -> (f_plen f < len)%nat ->
  path (f :: c) = bits key 0 (S (f_plen f)) -> ~ ext (path (f :: c)) cp ck `prefix_of` bits key 0 len ->
  ((cp <= len)%nat -> under (bits key 0 len) (path (f :: c)) ch = []) /\
  ((len < cp)%nat -> exists w, key_block key (index (f_plen f)) = Some w /\
    (if decide (Z.land (Z.lxor w ck) (mask (remain (len - 1))) ≠ 0) then under (bits key 0 len) (path (f :: c)) ch = []
     else down_at t0 len (ch, f :: c) /\
       (under (bits key 0 len) (path (f :: c)) ch).*2 = down_todo (DNext ces) (ch, f :: c) len)).
Proof.
  intros Hk Hlen ch Hwf Hplug Hf Hpath Hstuck. assert (Hw : wf (path (f :: c)) ch) by apply Hwf.
  pose proof Hw as (Hok & _). rewrite Hpath in Hok, Hw, Hstuck |- *. pose proof (length_ext _ _ _ Hok) as Hle.
  assert (Hnone : ~ bits key 0 len `prefix_of` ext (bits key 0 (S (f_plen f))) cp ck ->
    under (bits key 0 len) (bits key 0 (S (f_plen f))) ch = []).
  { intros Hn. apply filter_none. intros x Hx Hp. pose proof (node_entries_prefix _ _ _ _ _ _ _ Hw Hx) as Hxp.
    by destruct (prefix_total _ _ _ Hp Hxp). }
  split; intros Hc.
  { apply Hnone. intros Hp. apply Hstuck. pose proof (prefix_length _ _ Hp) as Hl. rewrite length_bits, Hle in Hl.
    by rewrite <- (prefix_length_eq _ _ Hp) by (rewrite length_bits, Hle; lia). }
  pose proof (key_differs_ext key (S (f_plen f)) len cp ck Hk Hlen Hok ltac:(lia)) as Hd.
  rewrite Nat.min_l in Hd by lia. destruct (node_ok_bounds _ _ _ _ Hok) as (_ & Hcp & _); [lia|]. unfold key_differs in Hd.
  replace (index (len - 1)) with (index (f_plen f)) in Hd by (unfold index, blk in *; lia).
  destruct (key_block key (index (f_plen f))) as [w|]; [|done]. exists w. split; [done|].
  cbn [mbind option_bind] in Hd. injection Hd as Hd. destruct (decide _) as [Hyes|Hno].
  { apply Hnone. apply (bool_decide_eq_true_1 _). rewrite <- Hd. by apply bool_decide_eq_true. }
  assert (Hpre : bits key 0 len `prefix_of` ext (bits key 0 (S (f_plen f))) cp ck).
  { apply dec_stable. apply (bool_decide_eq_false_1 _). rewrite <- Hd. by apply bool_decide_eq_false. }
  split; [split; [done|]; split; [done|]; split; [done|]; cbn; lia|].
  unfold under. rewrite filter_all.
  2:{ intros x Hx. etrans; [exact Hpre|]. by eapply node_entries_prefix. }
  unfold down_todo. cbn [snd ups]. rewrite decide_True by done. rewrite entries_flat, app_nil_r. done.
Qed.

Lemma path_child p k (es : list E) o c key : ext (path c) p k = bits key 0 p ->
  path (mk_bframe p k es (bit key p) o :: c) = bits key 0 (S p).
Proof. intros H. cbn [path f_plen f_key f_side]. by rewrite H, bits_snoc. Qed.

(** [btrie_first_down_node] finds where the elements below the key are. *)
Lemma btrie_first_down_node_under t key len : trie_ok t -> key_ok key -> (len <= 8 * length key)%nat ->
  exists r, btrie_first_down_node t key len = Some r /\
    match r with
    | None => under (bits key 0 len) [] t = []
    | Some m => down_at t len m /\ (under (bits key 0 len) [] t).*2 = down_todo (DNext (elements_of m.1)) m len
    end.
Proof.
  intros (Hne & Hwf & _) Hk Hlen. unfold btrie_first_down_node.
  destruct (btrie_node_lookup_deepest t [] key len Hk Hlen) as (m & -> & Hplug & Hwl & p & k & es & l & r & E1 & Hext & Hp & Hst);
    [by apply wf_plug|done|apply prefix_nil|]. cbn [mbind option_bind plug] in *. destruct m as [m c]. cbn [fst snd] in *. subst m.
  assert (Hok : node_ok (path c) p k) by apply Hwl.
  assert (Hpc : path c `prefix_of` bits key 0 len).
  { etrans; [by apply node_ok_prefix|]. rewrite Hext. by apply bits_prefix. }
  rewrite <- Hplug, under_plug by done. destruct (decide (p = len)) as [->|Hpl].
  { eexists. split; [done|]. split; [split; [done|]; split; [done|]; by split|]. unfold under. rewrite filter_all.
    2:{ intros x Hx. rewrite <- Hext. eapply node_entries_prefix; [apply Hwl|done]. }
    rewrite entries_flat. unfold down_todo. cbn [fst snd elements_of child flat]. destruct c as [|f c]; [by rewrite app_nil_r|].
    cbn [ups]. rewrite decide_True; [by rewrite app_nil_r|]. apply prefix_length in Hpc.
    assert (Hf : node_ok (path c) (f_plen f) (f_key f)) by apply Hwl. apply length_ext in Hf.
    cbn [path] in Hpc. rewrite length_app, length_bits, Hf in Hpc. cbn in Hpc. lia. }
  destruct Hst as [?|Hst]; [lia|]. rewrite key_bit_Some by (done || lia). cbn [mbind option_bind].
  rewrite under_deepest by (done || lia).
  assert (exists o, child_loc (bit key p) (Node p k es l r, c) =
    Some (child (bit key p) (Node p k es l r), mk_bframe p k es (bit key p) o :: c)) as [o Ho]
    by (destruct (bit key p); by eexists).
  rewrite Ho. cbn [mbind option_bind fst]. destruct (wfl_child _ _ _ Hwl Ho) as [Hwc Hplugc]. cbn [fst snd] in *.
  destruct (child (bit key p) (Node p k es l r)) as [|cp ck ces cl cr]; [by eexists|].
  destruct (first_down_child cp ck ces cl cr _ c key len t Hk Hlen Hwc (eq_trans Hplugc Hplug)) as [H1 H2];
    [cbn; lia|by apply path_child|rewrite path_child, bits_snoc by done; exact Hst|].
  rewrite path_child, bits_snoc in H1, H2 by done. cbn [f_plen] in H2.
  destruct (decide (cp <= len)%nat) as [Hc|Hc]; [eexists; split; [done|]; by apply H1|].
  destruct H2 as (w & Hw & H2); [lia|]. rewrite Hw. cbn [mbind option_bind].
  destruct (decide (Z.land _ _ ≠ 0)); [by eexists|]. eexists. split; [done|]. rewrite Hplug. exact H2.
Qed.

Lemma under_length y b t : (length (under y b t) <= elements_in t)%nat.
Proof. unfold under. rewrite <- length_flat, <- (entries_flat b), length_fmap. apply length_filter. Qed.

Lemma btrie_for_each_down_under t key len : trie_ok t -> key_ok key -> (len <= 8 * length key)%nat ->
  btrie_for_each_down t key len = Some (under (bits key 0 len) [] t).*2.
Proof.
  intros Ht Hk Hlen. unfold btrie_for_each_down, btrie_first_down.
  destruct (btrie_first_down_node_under t key len Ht Hk Hlen) as (r & -> & Hr). cbn [mbind option_bind].
  apply (for_each_todo (fun p R => down_at t len p.1 /\ R = down_todo (DNext p.2) p.1 len)).
  - intros [n rest] R [Hat ->]. pose proof (btrie_next_down_todo n rest t len Hat) as H. cbn [fst snd].
    destruct (down_todo _ _ _); [done|]. destruct H as (p' & ? & ? & ?). eexists. split; [done|]. by split.
  - destruct r as [n|]; [|by rewrite Hr]. destruct Hr as [Hat ->].
    pose proof (btrie_next_down_todo n (elements_of n.1) t len Hat) as H. unfold head_pos.
    destruct (down_todo _ _ _); [done|]. destruct H as (p' & ? & ? & ?). eexists. split; [done|]. by split.
  - rewrite length_fmap. pose proof (under_length (bits key 0 len) [] t). lia.
Qed.

(** What a walk up visits above a location. *)
Fixpoint ups_all c : list E :=
  match c with
  | [] => []
  | f :: c => f_elements f ++ ups_all c
  end.

Lemma ups_all_ancestors c : ups_all c ≡ₚ (ancestors c).*2.
Proof.
  induction c as [|f c IH]; [done|]. cbn [ups_all ancestors].
  rewrite fmap_app, <- (list_fmap_compose _ snd). change (snd ∘ pair _) with (@id E). rewrite list_fmap_id, IH.
  apply Permutation_app_comm.
Qed.

Lemma btrie_next_up_todo t c rest :
  match rest ++ ups_all c with
  | [] => btrie_next_up t c rest = None
  | e :: R => exists p, btrie_next_up t c rest = Some (e, p) /\ p.2 ++ ups_all p.1.2 = R
  end.
Proof.
  revert t rest. induction c as [|f c IH]; intros t [|e rest]; cbn [app ups_all btrie_next_up]; [done|by eexists| |by eexists].
  apply IH.
Qed.

(** The elements of a location and of its ancestors are those above a key. *)
Lemma ups_all_above t key len (m : loc E) : plug m.1 m.2 = t -> deepest key len m ->
  path m.2 `prefix_of` bits key 0 len /\ elements_of m.1 ++ ups_all m.2 ≡ₚ (above (bits key 0 len) [] t).*2.
Proof.
  intros Hplug Hd.
  assert (Hpc : path m.2 `prefix_of` bits key 0 len).
  { destruct Hd as ([Hw _] & p & k & es & l & r & E1 & Hext & Hp & _). rewrite E1 in Hw.
    etrans; [by apply node_ok_prefix, Hw|]. rewrite Hext. by apply bits_prefix. }
  split; [done|]. rewrite <- Hplug, above_plug by (done || destruct m; apply Hd). rewrite above_deepest by done.
  rewrite fmap_app, <- (list_fmap_compose _ snd). change (snd ∘ pair _) with (@id E). rewrite list_fmap_id.
  rewrite ups_all_ancestors. apply Permutation_app_comm.
Qed.

Lemma btrie_for_each_up_above t key len : trie_ok t -> key_ok key -> (len <= 8 * length key)%nat ->
  exists es, btrie_for_each_up t key len = Some es /\ es ≡ₚ (above (bits key 0 len) [] t).*2.
Proof.
  intros (Hne & Hwf & _) Hk Hlen. unfold btrie_for_each_up, btrie_first_up.
  destruct (btrie_node_lookup_deepest t [] key len Hk Hlen) as (m & -> & Hplug & Hd);
    [by apply wf_plug|done|apply prefix_nil|]. cbn [mbind option_bind plug] in *.
  destruct (ups_all_above t key len m Hplug Hd) as [_ Hab].
  exists (elements_of m.1 ++ ups_all m.2). split; [|done].
  apply (for_each_todo (fun p R => p.2 ++ ups_all p.1.2 = R)).
  - intros [[t' c'] rest] R <-. cbn [fst snd]. pose proof (btrie_next_up_todo t' c' rest) as H.
    destruct (rest ++ ups_all c'); [by rewrite H|]. destruct H as (p & -> & ?). by eexists.
  - pose proof (btrie_next_up_todo m.1 m.2 (elements_of m.1)) as H.
    destruct (elements_of m.1 ++ ups_all m.2); [by rewrite H|]. destruct H as (p & -> & ?). by eexists.
  - rewrite Hab, length_fmap. unfold above. rewrite <- length_flat, <- (entries_flat []), length_fmap.
    pose proof (length_filter (fun x : list bool * E => x.1 `prefix_of` bits key 0 len) (entries [] t)). lia.
Qed.

End down_up.
