(* ===== verification/BtrieFree.v ===== *)
(** The available keys of a trie as a recursive function over its nodes, and that
    they are exactly the largest keys that overlap no entry. *)
From S2P Require Import Prelude Bitops Tlv Btrie BtrieBits BtrieWf BtrieAdd BtrieIns BtrieTrie BtrieIter BtrieWalk.

(** ** What is available *)

(** [A] are the largest keys inside [y] that overlap none of the keys [L]. *)
Record available_in (y : list bool) (L A : list (list bool)) : Prop := {
  av_inside : forall a, a ∈ A -> y `prefix_of` a;
  av_free : forall a x, a ∈ A -> x ∈ L -> ~ overlap a x;
  av_complete : forall z, y `prefix_of` z -> (forall x, x ∈ L -> ~ overlap z x) -> exists a, a ∈ A /\ a `prefix_of` z;
  av_largest : forall a, a ∈ A -> a = y \/ exists a' s x, a = a' ++ [s] /\ y `prefix_of` a' /\ x ∈ L /\ overlap a' x;
  av_apart : ForallOrdPairs (fun a b => ~ overlap a b) A;
}.

Lemma overlap_refl a : overlap a a.
Proof. by left. Qed.

Lemma available_nil y : available_in y [] [y].
Proof.
  split.
  - by intros a ->%list_elem_of_singleton.
  - by intros a x _ ?%not_elem_of_nil.
  - intros z Hz _. exists y. split; [by apply list_elem_of_singleton|done].
  - intros a ->%list_elem_of_singleton. by left.
  - apply FOP_cons; constructor.
Qed.

Lemma available_full y L : y ∈ L -> available_in y L [].
Proof.
  intros Hy. split; [by intros a ?%not_elem_of_nil|by intros a x ?%not_elem_of_nil| |by intros a ?%not_elem_of_nil|constructor].
  intros z Hz Hno. destruct (Hno y Hy). by right.
Qed.

Lemma available_iff y L L' A : (forall x, overlap y x -> x ∈ L <-> x ∈ L') -> available_in y L A -> available_in y L' A.
Proof.
  intros Heq [H1 H2 H3 H4 H5]. 
  assert (Hov : forall a x, y `prefix_of` a -> overlap a x -> overlap y x).
  { intros a x Ha [Hx|Hx]; [left; by etrans|]. by eapply prefix_total. }
  split; [done| | | |done].
  - intros a x Ha Hx Ho. apply (H2 a x); [done| |done]. apply Heq; [|done]. by eapply Hov; [apply H1|].
  - intros z Hz Hno. apply H3; [done|]. intros x Hx Ho. apply (Hno x); [|done]. apply Heq; [|done]. by eapply Hov.
  - intros a Ha. destruct (H4 a Ha) as [->|(a' & s & x & -> & Hy & Hx & Ho)]; [by left|]. right.
    exists a', s, x. split; [done|]. split; [done|]. split; [|done]. apply Heq; [|done]. by eapply Hov.
Qed.

Lemma prefix_snoc_cases (y z : list bool) : y `prefix_of` z -> z = y \/ exists s, y ++ [s] `prefix_of` z.
Proof.
  intros [[|s u] ->]; [left; by rewrite app_nil_r|]. right. exists s. exists u. by rewrite <- app_assoc.
Qed.

Lemma fork_apart y (a b : list bool) s : y ++ [s] `prefix_of` a -> y ++ [negb s] `prefix_of` b -> ~ overlap a b.
Proof. by apply not_overlap_fork. Qed.

Lemma FOP_app {A} (R : A -> A -> Prop) l k : ForallOrdPairs R l -> ForallOrdPairs R k ->
  (forall a b, a ∈ l -> b ∈ k -> R a b) -> ForallOrdPairs R (l ++ k).
Proof.
  intros Hl Hk Hlk. induction Hl as [|a l Ha Hl IH]; [done|]. cbn. constructor.
  - rewrite Forall_app. split; [done|]. rewrite Forall_forall. intros b Hb. apply Hlk; [by left|done].
  - apply IH. intros a' b Ha' Hb. apply Hlk; [by right|done].
Qed.

Lemma available_fork y L0 L1 A0 A1 :
  available_in (y ++ [false]) L0 A0 -> available_in (y ++ [true]) L1 A1 ->
  (forall x, x ∈ L0 -> y ++ [false] `prefix_of` x) -> (forall x, x ∈ L1 -> y ++ [true] `prefix_of` x) ->
  L0 ++ L1 ≠ [] -> available_in y (L0 ++ L1) (A0 ++ A1).
Proof.
  intros H0 H1 Hx0 Hx1 Hne.
  assert (Hy : forall s (z : list bool), y ++ [s] `prefix_of` z -> y `prefix_of` z) by (intros s z H; etrans; [|exact H]; by eexists).
  assert (exists x, x ∈ L0 ++ L1 /\ y `prefix_of` x) as (x0 & Hx & Hyx).
  { destruct (L0 ++ L1) as [|x L] eqn:HL; [done|]. exists x. split; [by left|].
    assert (Hin : x ∈ L0 ++ L1) by (rewrite HL; by left). apply elem_of_app in Hin as [Hin|Hin]; eauto. }
  split.
  - intros a [Ha|Ha]%elem_of_app; [by apply (Hy false), (av_inside _ _ _ H0)|by apply (Hy true), (av_inside _ _ _ H1)].
  - intros a x [Ha|Ha]%elem_of_app [Hl|Hl]%elem_of_app.
    + by apply (av_free _ _ _ H0).
    + apply (fork_apart y _ _ false); [by apply (av_inside _ _ _ H0)|by apply Hx1].
    + apply (fork_apart y _ _ true); [by apply (av_inside _ _ _ H1)|by apply Hx0].
    + by apply (av_free _ _ _ H1).
  - intros z Hz Hno. destruct (prefix_snoc_cases _ _ Hz) as [->|[[|] Hs]].
    + destruct (Hno x0 Hx). by left.
    + destruct (av_complete _ _ _ H1 z Hs) as (a & Ha & Haz); [|exists a; split; [apply elem_of_app; by right|done]].
      intros x Hl. apply Hno, elem_of_app. by right.
    + destruct (av_complete _ _ _ H0 z Hs) as (a & Ha & Haz); [|exists a; split; [apply elem_of_app; by left|done]].
      intros x Hl. apply Hno, elem_of_app. by left.
  - assert (Hside : forall s L A, available_in (y ++ [s]) L A -> (forall x, x ∈ L -> x ∈ L0 ++ L1) -> forall a, a ∈ A ->
      exists a' s' x, a = a' ++ [s'] /\ y `prefix_of` a' /\ x ∈ L0 ++ L1 /\ overlap a' x).
    { intros s L A HA HL a Ha. destruct (av_largest _ _ _ HA a Ha) as [->|(a' & s' & x & -> & Hp & Hl & Ho)].
      - exists y, s, x0. split; [done|]. split; [done|]. split; [done|by left].
      - exists a', s', x. split; [done|]. split; [by eapply Hy|]. split; [by apply HL|done]. }
    intros a [Ha|Ha]%elem_of_app; right; [eapply (Hside false)|eapply (Hside true)]; eauto; intros x ?; apply elem_of_app; tauto.
  - apply FOP_app; [by eapply av_apart|by eapply av_apart|]. intros a b Ha Hb.
    apply (fork_apart y _ _ false); [by apply (av_inside _ _ _ H0)|by apply (av_inside _ _ _ H1)].
Qed.

(** The keys beside the bits of [x] from [i] on, around what is available at [x]. *)
Fixpoint edge (x : list bool) (d i : nat) (A : list (list bool)) : list (list bool) :=
  match d with
  | O => A
  | S d => if decide (x !! i = Some true) then (take i x ++ [false]) :: edge x d (S i) A
           else edge x d (S i) A ++ [take i x ++ [true]]
  end.

Lemma available_edge x d i L A : available_in x L A -> (forall z, z ∈ L -> x `prefix_of` z) -> L ≠ [] ->
  (length x = i + d)%nat -> available_in (take i x) L (edge x d i A).
Proof.
  intros HA HL Hne. revert i. induction d as [|d IH]; intros i Hi; cbn [edge].
  { by rewrite take_ge by lia. }
  destruct (lookup_lt_is_Some_2 x i ltac:(lia)) as [v Hv]. specialize (IH (S i) ltac:(lia)).
  rewrite (take_S_r _ _ _ Hv) in IH.
  assert (HL' : forall z, z ∈ L -> take i x ++ [v] `prefix_of` z).
  { intros z Hz. etrans; [|by apply HL]. rewrite <- (take_S_r _ _ _ Hv). apply prefix_take. }
  rewrite Hv. destruct v.
  - rewrite decide_True by done. apply (available_fork _ [] L [_]); [apply available_nil|done|by intros z ?%not_elem_of_nil|done|done].
  - rewrite decide_False by done. rewrite <- (app_nil_r L).
    apply (available_fork _ L [] _ [_]); [done|apply available_nil|done|by intros z ?%not_elem_of_nil|by rewrite app_nil_r].
Qed.

Section free.
Context {E : Type} `{!EqDecision E}.
Implicit Types (t : btrie E) (b : list bool).

(** The available keys at or below a node, and those below a place for a child. *)
Fixpoint inner b t : list (list bool) :=
  match t with
  | Nil => []
  | Node p k es l r =>
    let x := ext b p k in
    if decide (es ≠ []) then []
    else if is_nil l && is_nil r then [x]
    else
      match l with Nil => [x ++ [false]] | Node cp ck _ _ _ => edge (ext (x ++ [false]) cp ck) (cp - S p) (S p) (inner (x ++ [false]) l) end ++
      match r with Nil => [x ++ [true]] | Node cp ck _ _ _ => edge (ext (x ++ [true]) cp ck) (cp - S p) (S p) (inner (x ++ [true]) r) end
  end.

(** From the first [len] bits of a node. *)
Definition free_from b t (len : nat) : list (list bool) :=
  match t with
  | Nil => [b]
  | Node p k _ _ _ => edge (ext b p k) (p - len) len (inner b t)
  end.

Lemma inner_node b p k l r : is_nil l && is_nil r = false ->
  inner b (Node (E := E) p k [] l r) =
  free_from (ext b p k ++ [false]) l (S p) ++ free_from (ext b p k ++ [true]) r (S p).
Proof. intros H. cbn [inner]. rewrite decide_False by auto. rewrite H. by destruct l, r. Qed.

Lemma shaped_entry b t : shaped t -> t ≠ Nil -> entries b t ≠ [].
Proof.
  revert b. induction t as [|p k es l IHl r IHr]; intros b; [done|]. intros (Hb & Hl & Hr) _ Hnil. cbn [entries] in Hnil.
  apply app_eq_nil in Hnil as [H1 [H2 H3]%app_eq_nil]. destruct Hb as [Hes|[[Hl0 _]|[[Hl0|Hr0] _]]].
  - by destruct es.
  - by apply (IHl _ Hl Hl0 H2).
  - by apply (IHl _ Hl Hl0 H2).
  - by apply (IHr _ Hr Hr0 H3).
Qed.

Lemma free_from_available b t len : wf b t -> shaped t -> t ≠ Nil -> (len <= plen_of t)%nat ->
  available_in (take len (match t with Nil => b | Node p k _ _ _ => ext b p k end)) (entries b t).*1 (free_from b t len).
Proof.
  revert b len. induction t as [|p k es l IHl r IHr]; intros b len Hw Hs Hne Hlen; [done|]. cbn [free_from plen_of] in *.
  pose proof Hw as (Hok & Hwl & Hwr). pose proof Hs as (Hbusy & Hsl & Hsr).
  pose proof (length_ext _ _ _ Hok) as Hlx. apply available_edge; [| | |lia].
  2:{ intros z (x & -> & Hx)%list_elem_of_fmap. by eapply node_entries_prefix. }
  2:{ intros H%fmap_nil_inv. by apply (shaped_entry b _ Hs). }
  destruct es as [|e es].
  2:{ cbn [inner]. rewrite decide_True by done. apply available_full. cbn. by left. }
  destruct (is_nil l && is_nil r) eqn:Hnil.
  { exfalso. destruct l, r; try done. by destruct Hbusy as [?|[[]|[[]]]]. }
  rewrite inner_node by done. cbn [entries fmap list_fmap app]. rewrite fmap_app.
  assert (Hchild : forall s t', (forall b len, wf b t' -> shaped t' -> t' ≠ Nil -> (len <= plen_of t')%nat ->
       available_in (take len (match t' with Nil => b | Node p k _ _ _ => ext b p k end)) (entries b t').*1 (free_from b t' len)) ->
     wf (ext b p k ++ [s]) t' -> shaped t' ->
     available_in (ext b p k ++ [s]) (entries (ext b p k ++ [s]) t').*1 (free_from (ext b p k ++ [s]) t' (S p))).
  { intros s t' IH Hwt Hst. destruct t' as [|cp ck ces cl cr]; [apply available_nil|].
    pose proof Hwt as (Hokc & _). pose proof (node_ok_blk _ _ _ Hokc) as Hc. rewrite length_app, Hlx in Hc. cbn [length] in Hc.
    specialize (IH _ (S p) Hwt Hst ltac:(done) ltac:(cbn; lia)). cbn beta iota in IH.
    replace (take (S p) (ext (ext b p k ++ [s]) cp ck)) with (ext b p k ++ [s]) in IH; [done|].
    destruct (node_ok_prefix _ _ _ Hokc) as [u Hu]. rewrite Hu. rewrite take_app_le, take_ge; [done| |]; rewrite length_app, Hlx; cbn; lia. }
  assert (Hpre : forall s t', wf (ext b p k ++ [s]) t' -> forall x, x ∈ (entries (ext b p k ++ [s]) t').*1 -> ext b p k ++ [s] `prefix_of` x).
  { intros s t' Hwt x (y & -> & Hy)%list_elem_of_fmap. by eapply entries_prefix. }
  apply available_fork; [by apply Hchild|by apply Hchild|by apply Hpre|by apply Hpre|].
  intros [H1%fmap_nil_inv H2%fmap_nil_inv]%app_eq_nil.
  destruct l; [|by eapply shaped_entry in H1]. destruct r; [done|by eapply shaped_entry in H2].
Qed.

End free.

(** ** Available keys overlap no entry, from any node *)

Lemma edge_spec x d i A a : length x = (i + d)%nat -> a ∈ edge x d i A ->
  a ∈ A \/ exists j v, (i <= j)%nat /\ x !! j = Some v /\ a = take j x ++ [negb v].
Proof.
  revert i. induction d as [|d IH]; intros i Hl Ha; cbn [edge] in Ha; [by left|].
  destruct (lookup_lt_is_Some_2 x i ltac:(lia)) as [v Hv]. rewrite Hv in Ha.
  assert (Hrec : a ∈ edge x d (S i) A -> a ∈ A \/ exists j v, (i <= j)%nat /\ x !! j = Some v /\ a = take j x ++ [negb v]).
  { intros H. destruct (IH (S i) ltac:(lia) H) as [?|(j & w & ? & ? & ?)]; [by left|]. right. exists j, w. split; [lia|done]. }
  destruct v; [rewrite decide_True in Ha by done|rewrite decide_False in Ha by done].
  - apply elem_of_cons in Ha as [->|Ha]; [right; by exists i, true|by apply Hrec].
  - apply elem_of_app in Ha as [Ha|Ha%list_elem_of_singleton]; [by apply Hrec|]. right. by exists i, false.
Qed.

Section clear.
Context {E : Type} `{!EqDecision E}.
Implicit Types (t : btrie E) (b a : list bool).

Definition node_bits b t : list bool := match t with Nil => b | Node p k _ _ _ => ext b p k end.

(** [a] overlaps no entry of [t], which is below the bits [b]. *)
Definition clear_of b t a : Prop := forall x, x ∈ entries b t -> ~ overlap a x.1.

Lemma beside_clear b t j v : wf b t -> t ≠ Nil -> node_bits b t !! j = Some v -> clear_of b t (take j (node_bits b t) ++ [negb v]).
Proof.
  intros Hw Hne Hv x Hx. destruct t as [|p k es l r]; [done|]. cbn [node_bits] in *. apply node_entries_prefix in Hx; [|done].
  apply (fork_apart (take j (ext b p k)) _ _ (negb v)); [done|]. rewrite negb_involutive, <- (take_S_r _ _ _ Hv).
  etrans; [apply prefix_take|done].
Qed.

Lemma free_from_inner b t len a : wf b t -> (len <= plen_of t)%nat ->
  (forall a, a ∈ inner b t -> node_bits b t `prefix_of` a /\ clear_of b t a) ->
  a ∈ free_from b t len -> take len (node_bits b t) `prefix_of` a /\ clear_of b t a.
Proof.
  intros Hw Hlen Hin Ha. destruct t as [|p k es l r].
  { apply list_elem_of_singleton in Ha as ->. split; [apply prefix_take|]. by intros x ?%not_elem_of_nil. }
  cbn [free_from plen_of] in *. pose proof (length_ext _ _ _ (proj1 Hw)) as Hlx.
  destruct (edge_spec _ (p - len) len _ _ ltac:(rewrite Hlx; lia) Ha) as [Ha'|(j & v & Hj & Hv & ->)].
  - destruct (Hin a Ha') as [Hp Hc]. split; [|done]. etrans; [apply prefix_take|done].
  - split; [|by apply beside_clear]. cbn [node_bits]. replace (take len _) with (take len (take j (ext b p k))) by (rewrite take_take; f_equal; lia).
    etrans; [apply prefix_take|]. by eexists.
Qed.

Lemma child_bits x s p t : wf (x ++ [s]) t -> length x = p -> take (S p) (node_bits (x ++ [s]) t) = x ++ [s].
Proof.
  intros Hw Hl. assert (Hs : length (x ++ [s]) = S p) by (rewrite length_app, Hl; cbn; lia).
  destruct t as [|cp ck es l r]; cbn [node_bits]; [by rewrite take_ge by lia|].
  destruct (node_ok_prefix _ _ _ (proj1 Hw)) as [u ->]. by rewrite take_app_le, take_ge by lia.
Qed.

Lemma child_span x s p t : wf (x ++ [s]) t -> length x = p -> t ≠ Nil -> (S p <= plen_of t)%nat.
Proof.
  intros Hw Hl Hne. destruct t as [|cp ck es l r]; [done|]. destruct Hw as [Hok _]. apply node_ok_blk in Hok.
  rewrite length_app, Hl in Hok. cbn in *. lia.
Qed.

Lemma inner_clear b t a : wf b t -> a ∈ inner b t -> node_bits b t `prefix_of` a /\ clear_of b t a.
Proof.
  revert b a. induction t as [|p k es l IHl r IHr]; intros b a Hw Ha; [by apply not_elem_of_nil in Ha|].
  pose proof Hw as (Hok & Hwl & Hwr). pose proof (length_ext _ _ _ Hok) as Hlx. destruct es as [|e es].
  2:{ cbn [inner] in Ha. rewrite decide_True in Ha by done. by apply not_elem_of_nil in Ha. }
  destruct (is_nil l && is_nil r) eqn:Hnil.
  { cbn [inner] in Ha. rewrite decide_False, Hnil in Ha by auto. apply list_elem_of_singleton in Ha as ->. split; [done|].
    destruct l, r; try done. by intros x ?%not_elem_of_nil. }
  rewrite inner_node in Ha by done. cbn [node_bits]. set (x := ext b p k) in *.
  assert (Hside : forall s t (w : list bool), wf (x ++ [s]) t -> (forall b a, wf b t -> a ∈ inner b t -> node_bits b t `prefix_of` a /\ clear_of b t a) ->
    w ∈ free_from (x ++ [s]) t (S p) -> x ++ [s] `prefix_of` w /\ clear_of (x ++ [s]) t w).
  { intros s t w Hws IH Hwf. assert (Hd : t = Nil \/ t ≠ Nil) by (destruct t; [by left|by right]). destruct Hd as [->|Hne].
    { apply list_elem_of_singleton in Hwf as ->. split; [done|]. by intros z ?%not_elem_of_nil. }
    destruct (free_from_inner _ _ _ _ Hws (child_span _ _ _ _ Hws Hlx Hne) (fun a => IH _ a Hws) Hwf) as [Hp Hc].
    by rewrite child_bits in Hp by done. }
  assert (Happ : forall s, x ++ [s] `prefix_of` a -> x `prefix_of` a) by (intros s H; etrans; [by eexists|exact H]).
  apply elem_of_app in Ha as [Ha|Ha]; (eapply Hside in Ha as [Hp Hc]; [|done|done]); (split; [by eapply Happ|]);
    intros z Hz; cbn [entries fmap list_fmap app] in Hz; apply elem_of_app in Hz as [Hz|Hz]; try (by apply Hc).
  - apply (fork_apart x _ _ false); [done|]. by eapply entries_prefix.
  - apply (fork_apart x _ _ true); [done|]. by eapply entries_prefix.
Qed.

Lemma free_from_clear b t len a : wf b t -> (len <= plen_of t)%nat -> a ∈ free_from b t len ->
  take len (node_bits b t) `prefix_of` a /\ clear_of b t a.
Proof. intros Hw Hlen. apply free_from_inner; [done|done|]. intros. by apply inner_clear. Qed.

End clear.
