(* ===== verification/BtrieAvail.v ===== *)
(** The walk of [src/btrie.c] over the available keys: the positions it may be at,
    what is left to return and the rounds it needs, for the proof that it returns
    the keys of [free_from] in order. *)
From S2P Require Import Prelude Bitops Tlv Btrie BtrieBits BtrieWf BtrieAdd BtrieIns BtrieTrie BtrieIter BtrieWalk BtrieFree.

(** ** Writing one bit of a key *)

Lemma bit_splice buf off s i : (off + length s <= length buf)%nat ->
  bit (take off buf ++ s ++ drop (off + length s) buf) i =
  if decide (8 * off <= i < 8 * (off + length s))%nat then bit s (i - 8 * off) else bit buf i.
Proof.
  intros Hl. unfold bit. destruct (decide (i / 8 < off)%nat) as [H1|H1].
  { rewrite lookup_app_l by (rewrite length_take; lia). rewrite lookup_take_lt by lia. by rewrite decide_False by lia. }
  rewrite lookup_app_r by (rewrite length_take; lia). rewrite length_take, Nat.min_l by lia.
  destruct (decide (i / 8 < off + length s)%nat) as [H2|H2].
  - rewrite lookup_app_l by lia. rewrite decide_True by lia.
    replace ((i - 8 * off) / 8)%nat with (i / 8 - off)%nat by lia. by replace ((i - 8 * off) mod 8)%nat with (i mod 8)%nat by lia.
  - rewrite lookup_app_r by lia. rewrite lookup_drop, decide_False by lia. by replace (off + length s + (i / 8 - off - length s))%nat with (i / 8)%nat by lia.
Qed.

Lemma clear_mask_bit k i : 0 <= k < 32 -> 0 <= i -> Z.testbit (full_mask - 2 ^ k) i = bool_decide (i < 32 /\ i ≠ k).
Proof.
  intros Hk Hi. change full_mask with (Z.ones 32).
  rewrite Z.sub_nocarry_ldiff.
  2:{ apply Z.bits_inj'. intros j Hj. rewrite Z.ldiff_spec, Z.pow2_bits_eqb, Z.testbit_0_l by lia.
      destruct (Z.eqb_spec k j) as [<-|]; [|done]. by rewrite Z.ones_spec_low by lia. }
  rewrite Z.ldiff_spec, Z.pow2_bits_eqb by lia. destruct (decide (i < 32)) as [H|H].
  - rewrite Z.ones_spec_low by lia. destruct (Z.eqb_spec k i); [rewrite bool_decide_false by lia|rewrite bool_decide_true by lia]; done.
  - rewrite Z.ones_spec_high by lia. by rewrite bool_decide_false by lia.
Qed.

Lemma bits_bound w : 0 <= w -> (forall j, 32 <= j -> Z.testbit w j = false) -> w < 2 ^ 32.
Proof.
  intros Hw Hb. destruct (decide (w = 0)) as [->|Hw0]; [done|]. destruct (decide (w < 2 ^ 32)); [done|].
  assert (32 <= Z.log2 w) as Hl by (apply Z.log2_le_pow2; lia). specialize (Hb _ Hl). rewrite Z.bit_log2 in Hb by lia. done.
Qed.

Lemma testbit_high w j : 0 <= w < 2 ^ 32 -> 32 <= j -> Z.testbit w j = false.
Proof. intros Hw Hj. rewrite <- (Z.mod_small w (2 ^ 32)) by lia. by apply Z.mod_pow2_bits_high. Qed.

(** The block with one bit written. *)
Lemma set_block w i v : 0 <= w < 2 ^ 32 -> (i < 32)%nat ->
  let m := Z.shiftr first_bit_mask (Z.of_nat i) in
  let w' := if (v : bool) then Z.lor w m else Z.land w (full_mask - m) in
  0 <= w' < 2 ^ 32 /\ forall j, (j < 32)%nat -> wbit w' j = if decide (j = i) then v else wbit w j.
Proof.
  intros Hw Hi m w'. unfold w', m. rewrite shiftr_first_bit by done. destruct v.
  - split.
    + split; [apply Z.lor_nonneg; lia|]. apply bits_bound; [apply Z.lor_nonneg; lia|]. intros j Hj.
      rewrite Z.lor_spec, testbit_high, Z.pow2_bits_eqb by lia. cbn. apply Z.eqb_neq. lia.
    + intros j Hj. unfold wbit. rewrite Z.lor_spec, Z.pow2_bits_eqb by lia. destruct (decide (j = i)) as [->|Hne].
      * by rewrite Z.eqb_refl, orb_true_r.
      * rewrite (proj2 (Z.eqb_neq _ _)) by lia. by rewrite orb_false_r.
  - split.
    + split; [apply Z.land_nonneg; lia|]. apply bits_bound; [apply Z.land_nonneg; lia|]. intros j Hj.
      by rewrite Z.land_spec, testbit_high by lia.
    + intros j Hj. unfold wbit. rewrite Z.land_spec, clear_mask_bit by lia. destruct (decide (j = i)) as [->|Hne].
      * rewrite bool_decide_false by lia. apply andb_false_r.
      * rewrite bool_decide_true by lia. apply andb_true_r.
Qed.

Lemma key_set_Some key i v : key_ok key -> (i < 8 * length key)%nat ->
  exists key', key_set key i v = Some key' /\ key_ok key' /\ length key' = length key /\
    forall j, bit key' j = if decide (j = i) then v else bit key j.
Proof.
  intros Hk Hi. pose proof Hk as [Hb Hl]. unfold key_set, index, remain.
  destruct (key_block_Some key (i / 32) Hk) as (w & -> & Hw & Hwb); [lia|]. cbn [mbind option_bind].
  destruct (set_block w (i mod 32) v Hw) as [Hw' Hb']; [lia|]. cbv zeta in Hw', Hb'. cbv zeta.
  set (w' := if v then _ else _) in *. unfold wr32. rewrite wrn_Some by (rewrite length_be32; lia).
  eexists. split; [done|]. split; [split|split].
  - apply bytes_ok_wrn; [done|apply be32_bytes].
  - rewrite !length_app, length_take, length_drop, length_be32. lia.
  - rewrite !length_app, length_take, length_drop, length_be32. lia.
  - intros j. rewrite bit_splice by (rewrite length_be32; lia). rewrite length_be32.
    destruct (decide (8 * (4 * (i / 32)) <= j < 8 * (4 * (i / 32) + 4))%nat) as [Hj|Hj].
    + rewrite <- of_be32_bits by (apply be32_bytes || done || lia). rewrite of_be32_be32 by done. rewrite Hb' by lia.
      destruct (decide (j = i)) as [->|Hne]; [by rewrite decide_True by lia|]. rewrite decide_False by lia.
      rewrite Hwb by lia. f_equal. lia.
    + by rewrite decide_False by lia.
Qed.

Lemma bits_set key key' i v : (forall j, bit key' j = if decide (j = i) then v else bit key j) ->
  bits key' 0 i = bits key 0 i /\ bits key' 0 (S i) = bits key 0 i ++ [v].
Proof.
  intros H. assert (E : bits key' 0 i = bits key 0 i).
  { unfold bits. apply list_fmap_ext. intros n j Hj%lookup_seq. rewrite H, decide_False by lia. done. }
  split; [done|]. by rewrite bits_snoc, E, H, decide_True.
Qed.

(** ** The walk over available keys *)

Lemma ext_lookup b p k i : node_ok b p k -> (length b <= i < p)%nat -> ext b p k !! i = Some (wbit k (remain i)).
Proof.
  intros Hok Hi. pose proof (node_ok_blk _ _ _ Hok) as Hb. pose proof (blk_bounds p) as (_ & H32 & _). unfold ext.
  rewrite lookup_app_r by (rewrite length_take; lia). rewrite length_take, Nat.min_l by lia. unfold own.
  rewrite list_lookup_fmap, lookup_seq_lt by lia. cbn. do 2 f_equal. unfold remain, blk in *. lia.
Qed.

Section walk.
Context {E : Type} `{!EqDecision E}.
Implicit Types (t : btrie E) (c : list (bframe E)) (n : loc E) (key : list Z).

(** The bits of the node of a location. *)
Definition pbits n : list bool :=
  match n.1 with Nil => path n.2 | Node p k _ _ _ => ext (path n.2) p k end.

(** The available keys on one side of the first [len] bits of a node. *)
Definition part (s : bool) n (len : nat) : list (list bool) :=
  if decide (len = plen_of n.1) then free_from (pbits n ++ [s]) (child s n.1) (S len)
  else if decide (pbits n !! len = Some s) then free_from (path n.2) n.1 (S len)
  else [take len (pbits n) ++ [s]].

Definition step_up n (len : nat) : loc E :=
  match n.2 with
  | f :: c => if decide (f_plen f = len) then (up_node n.1 f, c) else n
  | [] => n
  end.

(** What is left when the walk goes up from a key of length [base + d]. *)
Fixpoint later (base d : nat) n key : list (list bool) :=
  match d with
  | O => []
  | S d => (if bit key (base + d) then [] else part true (step_up n (base + d)) (base + d)) ++
           later base d (step_up n (base + d)) key
  end.

Definition side_label (s : bool) : avail_label := if s then ARight else ALeft.

Definition avail_todo (lbl : avail_label) n key (len base : nat) : list (list bool) :=
  match lbl with
  | ANode => free_from (path n.2) n.1 len
  | ALeft => part false n len ++ part true n len
  | ARight => part true n len
  | AUp => []
  end ++ later base (len - base) n key.

(** Rounds for the same. *)
Definition cfree n (len : nat) : nat :=
  5 * (plen_of n.1 - len) + 5 + 165 * (nodes_in (child false n.1) + nodes_in (child true n.1)).

Definition cpart (s : bool) n (len : nat) : nat :=
  if decide (len = plen_of n.1) then 165 * nodes_in (child s n.1)
  else if decide (pbits n !! len = Some s) then cfree n (S len) else 0.

Fixpoint clater (base d : nat) n key : nat :=
  match d with
  | O => 1
  | S d => 1 + (if bit key (base + d) then 0 else 2 + cpart true (step_up n (base + d)) (base + d)) +
           clater base d (step_up n (base + d)) key
  end.

Definition cost (lbl : avail_label) n key (len base : nat) : nat :=
  match lbl with
  | ANode => cfree n len
  | ALeft => 4 + cpart false n len + cpart true n len
  | ARight => 2 + cpart true n len
  | AUp => 0
  end + clater base (len - base) n key.

(** Node lengths up to [M]. *)
Fixpoint tall (M : nat) t : Prop :=
  match t with Nil => True | Node p _ _ l r => (p <= M)%nat /\ tall M l /\ tall M r end.

Lemma tall_plug M t c : tall M (plug t c) -> tall M t.
Proof.
  revert t. induction c as [|f c IH]; intros t; cbn [plug]; [done|]. intros H%IH.
  destruct f as [? ? ? [|] ?]; unfold up_node in H; cbn in H; tauto.
Qed.

(** Where the walk may be: [loc_at] in the trie, [on_node] along the node's bits. *)
Record loc_at t0 n key : Prop := {
  la_ne : n.1 ≠ Nil; la_wf : wfl n; la_plug : plug n.1 n.2 = t0; la_key : key_ok key; la_tall : tall (8 * length key) t0;
}.

Definition on_node n key (len : nat) : Prop :=
  (length (path n.2) <= len <= plen_of n.1)%nat /\ bits key 0 len = take len (pbits n).

Definition walk_at t0 (lbl : avail_label) n key (len base : nat) : Prop :=
  loc_at t0 n key /\ (base <= len)%nat /\
  match lbl with
  | ANode => on_node n key len
  | ALeft | ARight => on_node n key len /\ (len < 8 * length key)%nat
  | AUp => (length (path n.2) <= len <= S (plen_of n.1))%nat /\ (len <= 8 * length key)%nat /\
           bits key 0 (len - 1) = take (len - 1) (pbits n)
  end.

Lemma bits_bit key key' m i : bits key 0 m = bits key' 0 m -> (i < m)%nat -> bit key i = bit key' i.
Proof. intros H Hi. apply (f_equal (.!! i)) in H. rewrite !lookup_bits in H by done. by injection H. Qed.

Lemma later_ext base d n key key' : bits key 0 (base + d) = bits key' 0 (base + d) ->
  later base d n key = later base d n key' /\ clater base d n key = clater base d n key'.
Proof.
  revert n. induction d as [|d IH]; intros n H; [done|]. cbn [later clater].
  rewrite (bits_bit key key' (base + S d) (base + d)) by (done || lia).
  destruct (IH (step_up n (base + d))) as [-> ->]; [|done].
  apply (f_equal (take (base + d))) in H. by rewrite !take_bits in H by lia.
Qed.

Lemma pbits_length t0 n key : loc_at t0 n key -> length (pbits n) = plen_of n.1 /\ path n.2 `prefix_of` pbits n.
Proof.
  intros [Hne Hwf _ _ _]. destruct n as [[|p k es l r] c]; [done|]. unfold pbits. cbn [fst snd plen_of].
  assert (Hok : node_ok (path c) p k) by apply Hwf. split; [by apply length_ext|by apply node_ok_prefix].
Qed.

Lemma step_up_stay n len : (length (path n.2) <= len)%nat -> wfl n -> step_up n len = n.
Proof.
  destruct n as [t [|f c]]; [done|]. intros Hl Hwf. unfold step_up. cbn [fst snd path] in *.
  assert (Hok : node_ok (path c) (f_plen f) (f_key f)) by apply Hwf. apply length_ext in Hok.
  rewrite length_app, Hok in Hl. cbn in Hl. by rewrite decide_False by lia.
Qed.

Lemma later_up base len m n key key' s : (base <= len)%nat -> step_up m len = n ->
  bits key' 0 (S len) = bits key 0 len ++ [s] ->
  later base (S len - base) m key' = (if s then [] else part true n len) ++ later base (len - base) n key /\
  clater base (S len - base) m key' = (1 + (if s then 0 else 2 + cpart true n len) + clater base (len - base) n key)%nat.
Proof.
  intros Hb Hup Hk. rewrite bits_snoc in Hk. apply app_inj_2 in Hk as [Hk [= Hbit]]; [|done].
  replace (S len - base)%nat with (S (len - base)) by lia. cbn [later clater].
  replace (base + (len - base))%nat with len by lia. rewrite Hbit, Hup.
  destruct (later_ext base (len - base) n key' key) as [-> ->]; [|by destruct s].
  by replace (base + (len - base))%nat with len by lia.
Qed.

Lemma free_split p k es l r c len : (len <= p)%nat -> length (ext (path c) p k) = p ->
  (len = p -> es = [] /\ is_nil l && is_nil r = false) ->
  let n := (Node p k es l r, c) in
  free_from (path c) n.1 len = part false n len ++ part true n len /\
  (5 + cpart false n len + cpart true n len <= cfree n len)%nat.
Proof.
  intros Hlen Hx Hp n. unfold n, part, cpart, pbits, cfree. cbn [fst snd plen_of child]. destruct (decide (len = p)) as [->|Hne].
  - destruct Hp as [-> Hnil]; [done|]. cbn [free_from]. rewrite Nat.sub_diag. cbn [edge]. rewrite inner_node by done.
    split; [done|]. lia.
  - destruct (lookup_lt_is_Some_2 (ext (path c) p k) len ltac:(lia)) as [v Hv]. cbn [free_from].
    replace (p - len)%nat with (S (p - S len)) by lia. cbn [edge]. rewrite Hv. destruct v.
    + repeat first [rewrite decide_True by done|rewrite decide_False by done]. cbn [app]. split; [done|].
      lia.
    + repeat first [rewrite decide_True by done|rewrite decide_False by done]. split; [done|].
      lia.
Qed.

(** [ALeft] and [ARight] are the same walk to either side. *)
Lemma next_available_side fuel s p k (es : list E) l r c key len base :
  next_available_loop (S fuel) (side_label s) (Node p k es l r, c) key len base =
  (key' ← key_set key len s;
   if decide (len = p) then
     if is_nil (if s then r else l) then Some (Some (Node p k es l r, c), key', (len + 1)%nat)
     else ch ← child_loc s (Node p k es l r, c); next_available_loop fuel ANode ch key' (len + 1) base
   else if decide (nthbit k (remain len) = s) then next_available_loop fuel ANode (Node p k es l r, c) key' (len + 1) base
   else Some (Some (Node p k es l r, c), key', (len + 1)%nat)).
Proof.
  destruct s; cbn [side_label next_available_loop fst]; destruct (key_set key len _) as [key'|]; cbn [mbind option_bind];
    try done; destruct (decide (len = p)); try done; by destruct (nthbit k (remain len)).
Qed.

(** The walk writes only bits after the first [base] of the key it began with. *)
Definition same_key (base : nat) (key0 key : list Z) : Prop :=
  length key = length key0 /\ bits key 0 base = bits key0 0 base.

Definition result_ok t0 (base : nat) (key0 : list Z) (res : option (option (loc E) * list Z * nat))
    (todo : list (list bool)) : Prop :=
  match todo with
  | [] => exists key, res = Some (None, key, base) /\ key_ok key /\ same_key base key0 key
  | y :: R => exists n key len, res = Some (Some n, key, len) /\ bits key 0 len = y /\ same_key base key0 key /\
      walk_at t0 AUp n key len base /\ avail_todo AUp n key len base = R
  end.

(** A key beside the bits of a node is returned. *)
Lemma result_beside t0 n key key' len base s R key0 : loc_at t0 n key -> loc_at t0 n key' -> (base <= len)%nat -> same_key base key0 key' ->
  on_node n key len -> (len < 8 * length key')%nat ->
  bits key' 0 len = bits key 0 len -> bits key' 0 (S len) = bits key 0 len ++ [s] ->
  R = (if s then [] else part true n len) ++ later base (len - base) n key ->
  result_ok t0 base key0 (Some (Some n, key', (len + 1)%nat)) ((take len (pbits n) ++ [s]) :: R).
Proof.
  intros Hat Hat' Hb Hsame [Hlen Hbits] Hk E1 E2 ->. rewrite Nat.add_1_r. exists n, key', (S len). split; [done|].
  split; [by rewrite E2, Hbits|]. split; [done|]. split.
  - split; [done|]. split; [lia|]. split; [lia|]. split; [lia|]. replace (S len - 1)%nat with len by lia. congruence.
  - unfold avail_todo. cbn [app]. apply later_up; [done| |done]. apply step_up_stay; [lia|apply Hat].
Qed.

End walk.

Section run.
Context {E : Type} `{!EqDecision E}.
Implicit Types (t : btrie E) (c : list (bframe E)) (n : loc E) (key : list Z).

Lemma on_node_prev n key len : on_node n key len -> bits key 0 (len - 1) = take (len - 1) (pbits n).
Proof.
  intros [_ H]. apply (f_equal (take (len - 1))) in H. rewrite take_bits in H by lia. rewrite H, take_take. f_equal. lia.
Qed.

(** One step up along the bits. *)
Lemma walk_up t0 n key len base : walk_at t0 AUp n key len base -> (base < len)%nat ->
  loc_at t0 (step_up n (len - 1)) key /\ on_node (step_up n (len - 1)) key (len - 1).
Proof.
  intros (Hat & _ & Hl & Hk & Hbits) Hb. destruct n as [t c]. destruct c as [|f c].
  { split; [done|]. split; [|done]. cbn. cbn in Hl. lia. }
  pose proof (pbits_length _ _ _ Hat) as [Hlx Hpre]. pose proof Hat as [Hne Hwf Hplug Hko Htall].
  assert (Hok : node_ok (path c) (f_plen f) (f_key f)) by apply Hwf. pose proof (length_ext _ _ _ Hok) as Hle.
  unfold step_up. cbn [fst snd path] in Hl, Hpre |- *. rewrite length_app, Hle in Hl. cbn [length] in Hl.
  destruct (decide (f_plen f = len - 1)%nat) as [Hf|Hf].
  - split.
    + split; [by destruct f as [? ? ? [|] ?]|by apply wfl_up|done|done|done].
    + assert (Hx : pbits (up_node t f, c) = ext (path c) (f_plen f) (f_key f)) by (by destruct f as [? ? ? [|] ?]).
      assert (Hp : plen_of (up_node t f) = f_plen f) by (by destruct f as [? ? ? [|] ?]).
      split; cbn [fst snd].
      * rewrite Hp. apply node_ok_blk in Hok. lia.
      * rewrite Hbits, Hx. rewrite (take_ge (ext _ _ _)) by lia. destruct Hpre as [u ->].
        rewrite <- app_assoc. rewrite take_app_le, take_ge by lia. done.
  - split; [done|]. split; [|done]. cbn [fst snd path]. rewrite length_app, Hle. cbn. cbn in Hl. lia.
Qed.

Lemma clater_pos base d n key : (1 <= clater base d n key)%nat.
Proof. destruct d; cbn; lia. Qed.

Definition run_ok (fuel : nat) t0 (base : nat) : Prop := forall key0 lbl n key len,
  walk_at t0 lbl n key len base -> same_key base key0 key -> (cost lbl n key len base <= fuel)%nat ->
  result_ok t0 base key0 (next_available_loop fuel lbl n key len base) (avail_todo lbl n key len base).

Lemma avail_todo_side s n key len base : avail_todo (side_label s) n key len base =
  part s n len ++ (if s then [] else part true n len) ++ later base (len - base) n key.
Proof. destruct s; unfold avail_todo; cbn [side_label app]; [done|]. by rewrite app_assoc. Qed.

Lemma cost_side s n key len base : cost (side_label s) n key len base =
  (2 + cpart s n len + (if s then 0 else 2 + cpart true n len) + clater base (len - base) n key)%nat.
Proof. destruct s; unfold cost; cbn [side_label]; lia. Qed.

Lemma loc_at_key t0 n key key' : loc_at t0 n key -> key_ok key' -> length key' = length key -> loc_at t0 n key'.
Proof. intros [] ? Hl. split; try done. by rewrite Hl. Qed.

(** Into the child on a side. *)
Lemma walk_child t0 s p k es l r c key key' base : 
  let n := (Node p k es l r, c) in
  loc_at t0 n key' -> (base <= p)%nat -> bits key 0 p = pbits n -> bits key' 0 (S p) = bits key 0 p ++ [s] ->
  child s n.1 ≠ Nil ->
  exists ch, child_loc s n = Some ch /\ walk_at t0 ANode ch key' (S p) base /\ step_up ch p = n /\
    free_from (path ch.2) ch.1 (S p) = part s n p /\ (cfree ch (S p) <= cpart s n p)%nat.
Proof.
  intros n Hat Hb Hbits Hbits' Hne. pose proof Hat as [_ Hwf Hplug Hko Htall].
  assert (exists ch, child_loc s n = Some ch) as [ch Hch] by (destruct s; by eexists). exists ch. split; [done|].
  destruct (wfl_child _ _ _ Hwf Hch) as [Hwc Hpc].
  assert (Hch1 : ch.1 = child s n.1 /\ path ch.2 = pbits n ++ [s] /\ step_up ch p = n).
  { destruct s; injection Hch as <-; (split; [done|]); (split; [done|]); unfold step_up; cbn [snd f_plen];
      by rewrite decide_True by done. }
  destruct Hch1 as (H1 & H2 & H3). rewrite <- H1 in Hne.
  pose proof (pbits_length _ _ _ Hat) as [Hlx _]. cbn [n fst plen_of] in Hlx.
  assert (Hatc : loc_at t0 ch key') by (split; congruence || done).
  pose proof (pbits_length _ _ _ Hatc) as [Hlc Hpre].
  assert (Hlen : length (path ch.2) = S p) by (rewrite H2, length_app, Hlx; cbn; lia).
  pose proof (prefix_length _ _ Hpre) as Hple. rewrite Hlc, Hlen in Hple.
  split; [|split; [done|split]].
  - split; [done|]. split; [lia|]. split; [lia|]. rewrite Hbits', Hbits, <- H2. destruct Hpre as [u ->].
    by rewrite <- Hlen, take_app_length.
  - unfold part. rewrite decide_True by done. by rewrite H2, H1.
  - unfold cpart, cfree. rewrite decide_True by done. rewrite <- H1. destruct ch as [[|cp ck ces cl cr] cc]; [done|].
    cbn [fst snd plen_of child nodes_in] in *. assert (Hokc : node_ok (path cc) cp ck) by apply Hwc.
    destruct Hokc as [_ [[E0 _]|(_ & Hbl & _)]]; [by rewrite E0 in Hlen|]. rewrite Hlen in Hbl. unfold blk in Hbl. lia.
Qed.

Lemma same_key_set base key0 key key' len v : same_key base key0 key -> length key' = length key -> (base <= len)%nat ->
  (forall j, bit key' j = if decide (j = len) then v else bit key j) -> same_key base key0 key'.
Proof.
  intros [Hl Hb] Hl' Hbase Hset. split; [congruence|]. rewrite <- Hb. unfold bits. apply list_fmap_ext.
  intros i j Hj%lookup_seq. rewrite Hset, decide_False by lia. done.
Qed.

Lemma run_side fuel s n key len base t0 key0 : run_ok fuel t0 base -> walk_at t0 (side_label s) n key len base -> same_key base key0 key ->
  (cost (side_label s) n key len base <= S fuel)%nat ->
  result_ok t0 base key0 (next_available_loop (S fuel) (side_label s) n key len base) (avail_todo (side_label s) n key len base).
Proof.
  intros IH (Hat & Hb & Hside) Hsame Hcost. assert (Hon : on_node n key len /\ (len < 8 * length key)%nat) by (by destruct s).
  clear Hside. destruct Hon as [Hon Hlk]. rewrite cost_side in Hcost. rewrite avail_todo_side.
  pose proof Hat as [Hne Hwf _ Hko _]. pose proof (pbits_length _ _ _ Hat) as [Hlx _].
  destruct n as [[|p k es l r] c]; [done|]. rewrite next_available_side.
  destruct (key_set_Some key len s Hko Hlk) as (key' & -> & Hko' & Hlk' & Hset). cbn [mbind option_bind].
  destruct (bits_set _ _ _ _ Hset) as [Hk1 Hk2]. set (n := (Node p k es l r, c)) in *.
  assert (Hat' : loc_at t0 n key') by (by eapply loc_at_key).
  assert (Hsame' : same_key base key0 key') by (by eapply same_key_set).
  assert (Hbeside : forall R, R = (if s then [] else part true n len) ++ later base (len - base) n key ->
    result_ok t0 base key0 (Some (Some n, key', (len + 1)%nat)) ((take len (pbits n) ++ [s]) :: R)).
  { intros R HR. apply (result_beside t0 n key); (done || lia). }
  rewrite Nat.add_1_r. rewrite Nat.add_1_r in Hbeside. pose proof Hon as [Hlen Hbits]. cbn [n fst snd plen_of] in Hlen, Hlx.
  destruct (decide (len = p)) as [->|Hlp].
  - rewrite (take_ge (pbits n)) in Hbits, Hbeside by lia.
    destruct (is_nil (if s then r else l)) eqn:Hnil.
    + replace (part s n p) with [pbits n ++ [s]]; [by apply Hbeside|]. unfold part. rewrite decide_True by done.
      cbn [n fst]. destruct s; cbn [child]; [by destruct r|by destruct l].
    + destruct (walk_child t0 s p k es l r c key key' base Hat' Hb Hbits Hk2) as (ch & Hch & Hw & Hup & Hpart & Hcp).
      { destruct s; cbn [child fst]; [by destruct r|by destruct l]. }
      fold n in Hch, Hup, Hpart, Hcp. rewrite Hch. cbn [mbind option_bind]. destruct (later_up base p ch n key key' s Hb Hup Hk2) as [Hlat Hclat].
      replace (part s n p ++ _) with (avail_todo ANode ch key' (S p) base) by (unfold avail_todo; by rewrite Hpart, Hlat).
      apply IH; [done|done|]. unfold cost. rewrite Hclat. lia.
  - assert (Hv : pbits n !! len = Some (nthbit k (remain len))).
    { unfold pbits, n. cbn [fst snd]. rewrite nthbit_wbit by (unfold remain; lia). apply ext_lookup; [apply Hwf|lia]. }
    unfold part at 1. unfold cpart at 1 in Hcost.
    rewrite (decide_False (P := len = plen_of n.1)) in Hcost by exact Hlp.
    rewrite (decide_False (P := len = plen_of n.1)) by exact Hlp. rewrite Hv in Hcost |- *.
    destruct (decide (nthbit k (remain len) = s)) as [Hs|Hs].
    + rewrite decide_True in Hcost by congruence. rewrite decide_True by congruence.
      destruct (later_up base len n n key key' s Hb (step_up_stay n len ltac:(cbn; lia) Hwf) Hk2) as [Hlat Hclat].
      rewrite <- Hlat. change (free_from _ _ _ ++ _) with (avail_todo ANode n key' (S len) base). apply IH.
      * split; [done|]. split; [lia|]. split; [cbn; lia|]. rewrite Hk2, Hbits. symmetry. apply take_S_r. congruence.
      * done.
      * unfold cost. rewrite Hclat. lia.
    + rewrite decide_False by congruence. by apply Hbeside.
Qed.

Lemma next_available_loop_todo fuel t0 base : run_ok fuel t0 base.
Proof.
  induction fuel as [|fuel IH]; intros key0 lbl n key len Hw Hsame Hcost.
  { unfold cost in Hcost. pose proof (clater_pos base (len - base) n key). lia. }
  destruct lbl; [|by apply (run_side fuel false)|by apply (run_side fuel true)|].
  - destruct Hw as (Hat & Hb & Hon). pose proof Hat as [Hne Hwf Hplug Hko Htall].
    pose proof (pbits_length _ _ _ Hat) as [Hlx _]. pose proof Hon as [Hlen Hbits].
    destruct n as [[|p k es l r] c]; [done|]. cbn [fst snd plen_of] in *.
    assert (Htn : tall (8 * length key) (Node p k es l r)) by (apply (tall_plug _ _ c); by rewrite Hplug).
    destruct Htn as (Htp & Htl & Htr). cbn [next_available_loop fst].
    assert (Hleft : (len < 8 * length key)%nat -> (len = p -> es = [] /\ is_nil l && is_nil r = false) ->
      result_ok t0 base key0 (next_available_loop fuel ALeft (Node p k es l r, c) key len base) (avail_todo ANode (Node p k es l r, c) key len base)).
    { intros Hlk Hin. destruct (free_split p k es l r c len ltac:(lia) Hlx Hin) as [Hfree Hcf].
      replace (avail_todo ANode _ key len base) with (avail_todo ALeft (Node p k es l r, c) key len base)
        by (unfold avail_todo; cbn [snd]; by rewrite Hfree).
      apply IH; [by repeat (split; [done|])|done|]. unfold cost in *. lia. }
    destruct (decide (len = p)) as [->|Hlp]; [|apply Hleft; [lia|done]].
    destruct (decide (es = [])) as [->|Hes].
    + destruct (is_nil l && is_nil r) eqn:Hnil.
      * unfold avail_todo. cbn [fst snd free_from]. rewrite Nat.sub_diag. cbn [edge inner].
        rewrite decide_False by auto. rewrite Hnil. cbn [app]. eexists _, _, _. split; [done|].
        split; [rewrite Hbits, take_ge by lia; done|]. split; [done|]. split; [|done].
        split; [done|]. split; [done|]. split; [cbn; lia|]. split; [lia|by apply on_node_prev].
      * apply Hleft; [|done]. assert (Hch : exists s, child s (Node p k [] l r) ≠ Nil).
        { destruct l; [destruct r; [done|by exists true]|by exists false]. }
        destruct Hch as [s Hs]. assert (Hwc : wf (ext (path c) p k ++ [s]) (child s (Node p k [] l r))) by (destruct s; apply Hwf).
        assert (Htc : tall (8 * length key) (child s (Node p k [] l r))) by (by destruct s).
        destruct (child s (Node p k [] l r)) as [|cp ck ces cl cr]; [done|].
        destruct Hwc as [Hokc _]. apply node_ok_blk in Hokc. unfold pbits in Hlx. cbn [fst snd] in Hlx.
        rewrite length_app, Hlx in Hokc. cbn in Hokc. destruct Htc. lia.
    + replace (avail_todo ANode _ key p base) with (avail_todo AUp (Node p k es l r, c) key p base).
      * apply IH; [|done|unfold cost, cfree in *; cbn in *; lia]. split; [done|]. split; [done|]. split; [cbn; lia|].
        split; [lia|by apply on_node_prev].
      * unfold avail_todo. cbn [fst snd free_from]. rewrite Nat.sub_diag. cbn [edge inner]. by rewrite decide_True.
  - pose proof Hw as (Hat & Hb & Hl & Hk & Hbits). pose proof Hat as [Hne _ _ Hko _].
    destruct n as [[|p k es l r] c] eqn:En; [done|]. rewrite <- En in *. cbn [next_available_loop]. rewrite En at 1. cbn [fst].
    destruct (decide (len = base)) as [->|Hlb]; [unfold avail_todo; rewrite Nat.sub_diag; by exists key|].
    destruct (walk_up _ _ _ _ _ Hw ltac:(lia)) as [Hat' Hon']. rewrite key_bit_Some by (done || lia). cbn [mbind option_bind].
    change (match n.2 with [] => n | f :: c => _ end) with (step_up n (len - 1)).
    assert (Hd : (len - base = S (len - 1 - base))%nat) by lia. unfold avail_todo at 1. unfold cost at 1 in Hcost. rewrite Hd in Hcost |- *.
    cbn [later clater app] in Hcost |- *. replace (base + (len - 1 - base))%nat with (len - 1)%nat in Hcost |- * by lia.
    destruct (bit key (len - 1)) eqn:Ebit.
    + apply (IH key0 AUp); [|done|unfold cost; lia]. destruct Hon' as [Hl' Hb']. split; [done|]. split; [lia|]. split; [lia|]. split; [lia|].
      by apply on_node_prev.
    + apply (IH key0 ARight); [|done|unfold cost; lia]. split; [done|]. split; [lia|]. split; [done|lia].
Qed.

End run.
