(* ===== verification/BtrieEach.v ===== *)
(** The rounds of the walk over available keys are enough, and the loop returns
    every key that is left. *)
From S2P Require Import Prelude Bitops Tlv Btrie BtrieBits BtrieWf BtrieAdd BtrieIns BtrieTrie BtrieIter BtrieWalk BtrieFree BtrieAvail.

Section bound.
Context {E : Type} `{!EqDecision E}.
Implicit Types (t : btrie E) (c : list (bframe E)) (n : loc E) (key : list Z).

Fixpoint vcost c : nat :=
  match c with [] => 0 | f :: c => 100 + 165 * nodes_in (f_sibling f) + vcost c end.

Lemma vcost_plug t c : (vcost c + 165 * nodes_in t <= 165 * nodes_in (plug t c))%nat.
Proof.
  revert t. induction c as [|f c IH]; intros t; cbn [vcost plug]; [lia|]. specialize (IH (up_node t f)).
  destruct f as [p k es [|] s]; unfold up_node in *; cbn [f_side f_sibling nodes_in] in *; lia.
Qed.

Lemma node_ok_span b p k : node_ok b p k -> (p - length b <= 32)%nat.
Proof. intros [_ [[-> ->]|(_ & H & _)]]; [cbn; lia|]. unfold blk in H. lia. Qed.

Lemma loc_span t0 n key : loc_at t0 n key -> (plen_of n.1 - length (path n.2) <= 32)%nat /\
  (1 + nodes_in (child false n.1) + nodes_in (child true n.1) = nodes_in n.1)%nat.
Proof.
  intros [Hne Hwf _ _ _]. destruct n as [[|p k es l r] c]; [done|]. split; [|done].
  assert (Hok : node_ok (path c) p k) by apply Hwf. by apply node_ok_span in Hok.
Qed.

(** Going up costs three rounds for a bit, and the other side of each ancestor. *)
Lemma clater_on_node t0 base d n key : loc_at t0 n key -> on_node n key (base + d) -> (base + d <= 8 * length key)%nat ->
  (clater base d n key <= 2 + 3 * (base + d - length (path n.2)) + vcost n.2)%nat.
Proof.
  revert n. induction d as [|d IH]; intros n Hat Hon Hk; cbn [clater]; [lia|].
  destruct (walk_up t0 n key (base + S d) base) as [Hat' Hon']; [|lia|].
  { pose proof (on_node_prev _ _ _ Hon). destruct Hon. split; [done|]. split; [lia|]. split; [lia|]. by split. }
  replace (base + S d - 1)%nat with (base + d)%nat in Hat', Hon' by lia. specialize (IH _ Hat' Hon' ltac:(lia)).
  destruct Hon as [Hl Hbits]. pose proof (pbits_length _ _ _ Hat) as [Hlx Hpre].
  destruct (decide (length (path n.2) <= base + d)%nat) as [Hs|Hs].
  - assert (Hwf : wfl n) by apply Hat. rewrite step_up_stay in IH |- * by done.
    assert (Hv : pbits n !! (base + d)%nat = Some (bit key (base + d))).
    { rewrite <- (lookup_take_lt _ (base + S d)) by lia. rewrite <- Hbits. apply lookup_bits. lia. }
    destruct (bit key (base + d)); [lia|]. unfold cpart. rewrite decide_False by lia. rewrite decide_False by congruence. lia.
  - destruct n as [t [|f c]]; [cbn in *; lia|]. cbn [fst snd] in *.
    assert (Hok : node_ok (path c) (f_plen f) (f_key f)) by apply Hat. pose proof (length_ext _ _ _ Hok) as Hle.
    cbn [path] in Hl, Hs, Hpre. rewrite length_app, Hle in Hl, Hs. cbn [length] in Hl, Hs.
    assert (Hf : f_plen f = (base + d)%nat) by lia. unfold step_up in *. cbn [fst snd] in *. rewrite decide_True in IH |- * by done.
    assert (Hside : bit key (base + d) = f_side f).
    { assert (Hv : pbits (t, f :: c) !! (base + d)%nat = Some (bit key (base + d))).
      { rewrite <- (lookup_take_lt _ (base + S d)) by lia. rewrite <- Hbits. apply lookup_bits. lia. }
      destruct Hpre as [u Hu]. rewrite Hu, <- app_assoc, lookup_app_r, Hle in Hv by lia.
      replace (base + d - f_plen f)%nat with 0%nat in Hv by lia. by injection Hv. }
    pose proof (node_ok_span _ _ _ Hok). cbn [fst snd vcost path] in *. rewrite length_app, Hle. cbn [length]. rewrite Hside.
    destruct (f_side f) eqn:Es; [lia|]. unfold cpart. rewrite decide_True by (destruct f as [? ? ? [|] ?]; cbn in *; congruence).
    replace (nodes_in (child true _)) with (nodes_in (f_sibling f)) by (destruct f as [? ? ? [|] ?]; by cbn in *). cbn [fst snd]. lia.
Qed.

Lemma cpart_bound t0 n key len : loc_at t0 n key -> (length (path n.2) <= len <= plen_of n.1)%nat ->
  (cpart false n len + cpart true n len <= 165 * nodes_in n.1)%nat /\ (cfree n len <= 165 * nodes_in n.1)%nat.
Proof.
  intros Hat Hlen. destruct (loc_span _ _ _ Hat) as [Hsp Hn]. pose proof (pbits_length _ _ _ Hat) as [Hlx _].
  unfold cpart, cfree. split; [|lia]. destruct (decide (len = plen_of n.1)) as [->|Hne]; [lia|].
  destruct (lookup_lt_is_Some_2 (pbits n) len ltac:(lia)) as [[|] ->];
    repeat first [rewrite decide_True by done|rewrite decide_False by done]; lia.
Qed.

(** The rounds of [avail_fuel] are enough. *)
Lemma cost_fuel t0 lbl n key len base : walk_at t0 lbl n key len base -> (cost lbl n key len base <= avail_fuel n)%nat.
Proof.
  intros Hw. pose proof Hw as (Hat & Hb & Hlbl). unfold avail_fuel. pose proof (vcost_plug n.1 n.2) as Hv.
  assert (Htn : (plen_of n.1 <= 8 * length key)%nat).
  { destruct Hat as [Hne _ Hplug _ Ht]. rewrite <- Hplug in Ht. apply tall_plug in Ht. destruct n.1; [done|]. apply Ht. }
  assert (Hon : on_node n key len -> (clater base (len - base) n key <= 100 + vcost n.2)%nat).
  { intros Hon. destruct (loc_span _ _ _ Hat) as [Hsp _]. assert (Hd : (base + (len - base) = len)%nat) by lia.
    pose proof (clater_on_node t0 base (len - base) n key Hat) as H. rewrite Hd in H. destruct Hon as [Hl Hbits].
    specialize (H (conj Hl Hbits) ltac:(lia)). lia. }
  destruct lbl; unfold cost.
  - specialize (Hon Hlbl). destruct Hlbl as [Hl _]. pose proof (cpart_bound _ _ _ _ Hat Hl). lia.
  - specialize (Hon (proj1 Hlbl)). destruct Hlbl as [[Hl _] _]. pose proof (cpart_bound _ _ _ _ Hat Hl). lia.
  - specialize (Hon (proj1 Hlbl)). destruct Hlbl as [[Hl _] _]. pose proof (cpart_bound _ _ _ _ Hat Hl). lia.
  - destruct (decide (len = base)) as [->|Hne]; [rewrite Nat.sub_diag; cbn [clater]; lia|].
    destruct (walk_up _ _ _ _ _ Hw ltac:(lia)) as [Hat' Hon'].
    replace (len - base)%nat with (S (len - 1 - base)) by lia. cbn [clater].
    replace (base + (len - 1 - base))%nat with (len - 1)%nat by lia. clear Hon.
    set (n' := step_up n (len - 1)) in *. pose proof (vcost_plug n'.1 n'.2) as Hv'.
    assert (Hpl : plug n'.1 n'.2 = plug n.1 n.2) by (destruct Hat', Hat; congruence). rewrite Hpl in Hv'.
    destruct (loc_span _ _ _ Hat') as [Hsp _]. destruct Hon' as [Hl Hbits].
    pose proof (cpart_bound _ _ _ _ Hat' Hl) as [Hcp _].
    pose proof (clater_on_node t0 base (len - 1 - base) n' key Hat') as H.
    replace (base + (len - 1 - base))%nat with (len - 1)%nat in H by lia.
    specialize (H (conj Hl Hbits) ltac:(destruct Hlbl; lia)). destruct (bit key (len - 1)); lia.
Qed.

End bound.

Section each.
Context {E : Type} `{!EqDecision E}.
Implicit Types (t : btrie E) (c : list (bframe E)) (n : loc E) (key : list Z).

(** ** The number of keys *)

Lemma length_edge x d i A : length (edge x d i A) = (d + length A)%nat.
Proof.
  revert i. induction d as [|d IH]; intros i; cbn [edge]; [done|]. case_decide; cbn [length]; rewrite ?length_app, IH; cbn; lia.
Qed.

Lemma length_inner b t : wf b t -> (length (inner b t) <= 2 + 165 * (nodes_in (child false t) + nodes_in (child true t)))%nat.
Proof.
  revert b. induction t as [|p k es l IHl r IHr]; intros b Hw; [cbn; lia|]. destruct es as [|e es].
  2:{ cbn [inner]. rewrite decide_True by done. cbn. lia. }
  destruct (is_nil l && is_nil r) eqn:Hnil.
  { cbn [inner]. rewrite decide_False by auto. rewrite Hnil. cbn. lia. }
  rewrite inner_node by done. rewrite length_app. destruct Hw as (Hok & Hl & Hr). pose proof (length_ext _ _ _ Hok) as Hlx.
  assert (Hside : forall s t', (forall b, wf b t' -> (length (inner b t') <= 2 + 165 * (nodes_in (child false t') + nodes_in (child true t')))%nat) ->
    wf (ext b p k ++ [s]) t' -> (length (free_from (ext b p k ++ [s]) t' (S p)) <= 1 + 165 * nodes_in t')%nat).
  { intros s t' IH Hwt. destruct t' as [|cp ck ces cl cr]; [cbn; lia|]. specialize (IH _ Hwt). destruct Hwt as [Hokc _].
    apply node_ok_span in Hokc. rewrite length_app, Hlx in Hokc. cbn [free_from]. rewrite length_edge.
    cbn [length nodes_in child] in *. lia. }
  pose proof (Hside false l IHl Hl). pose proof (Hside true r IHr Hr). cbn [child] in *. lia.
Qed.

Lemma length_free t0 n key len : loc_at t0 n key -> (length (free_from (path n.2) n.1 len) <= cfree n len)%nat.
Proof.
  intros [Hne Hwf _ _ _]. destruct n as [[|p k es l r] c]; [done|]. cbn [fst snd free_from]. rewrite length_edge.
  assert (Hw : wf (path c) (Node p k es l r)) by apply Hwf. pose proof (length_inner _ _ Hw). unfold cfree. cbn [fst plen_of] in *. lia.
Qed.

Lemma length_part t0 s n key len : loc_at t0 n key -> (length (part s n len) <= 2 + cpart s n len)%nat.
Proof.
  intros Hat. unfold part, cpart. destruct (decide (len = plen_of n.1)) as [->|Hne].
  - pose proof (pbits_length _ _ _ Hat) as [Hlx _]. pose proof Hat as [Hne Hwf _ _ _].
    destruct n as [[|p k es l r] c]; [done|]. cbn [plen_of fst] in *.
    assert (Hw : wf (pbits (Node p k es l r, c) ++ [s]) (child s (Node p k es l r))) by (destruct s; apply Hwf).
    destruct (child s (Node p k es l r)) as [|cp ck ces cl cr]; [cbn; lia|].
    pose proof (length_inner _ _ Hw). destruct Hw as [Hokc _]. apply node_ok_span in Hokc. rewrite length_app, Hlx in Hokc.
    cbn [free_from]. rewrite length_edge. cbn [length nodes_in child] in *. lia.
  - destruct (decide (pbits n !! len = Some s)); [|cbn; lia]. pose proof (length_free t0 n key (S len) Hat). lia.
Qed.

Lemma length_later t0 n key len base : walk_at t0 AUp n key len base -> (length (later base (len - base) n key) <= clater base (len - base) n key)%nat.
Proof.
  remember (len - base)%nat as d eqn:Hd. revert len n Hd. induction d as [|d IH]; intros len n Hd Hw; [cbn; lia|].
  destruct (walk_up _ _ _ _ _ Hw ltac:(lia)) as [Hat' Hon']. cbn [later clater].
  replace (base + d)%nat with (len - 1)%nat by lia. rewrite length_app.
  assert (Hw' : walk_at t0 AUp (step_up n (len - 1)) key (len - 1) base).
  { pose proof (on_node_prev _ _ _ Hon'). destruct Hon', Hw as (_ & _ & _ & Hk & _). split; [done|]. split; [lia|]. split; [lia|]. by split; [lia|]. }
  specialize (IH (len - 1)%nat _ ltac:(lia) Hw').
  pose proof (length_part t0 true _ _ (len - 1) Hat'). destruct (bit key (len - 1)); cbn [length]; lia.
Qed.

Lemma walk_at_up t0 lbl n key len base : walk_at t0 lbl n key len base -> walk_at t0 AUp n key len base.
Proof.
  intros Hw. pose proof Hw as (Hat & Hb & Hlbl). assert (Hon : lbl ≠ AUp -> on_node n key len) by (destruct lbl; tauto).
  destruct lbl; try exact Hw; specialize (Hon ltac:(done)); pose proof (on_node_prev _ _ _ Hon);
    (destruct Hon; split; [done|]; split; [done|]; split; [lia|]; split; [|done]).
  all: destruct Hat as [Hne _ Hplug _ Ht]; rewrite <- Hplug in Ht; apply tall_plug in Ht;
    destruct n.1; [done|]; destruct Ht; cbn [plen_of] in *; lia.
Qed.

Lemma length_todo t0 lbl n key len base : walk_at t0 lbl n key len base ->
  (length (avail_todo lbl n key len base) <= cost lbl n key len base)%nat.
Proof.
  intros Hw. pose proof (length_later _ _ _ _ _ (walk_at_up _ _ _ _ _ _ Hw)). destruct Hw as (Hat & _).
  pose proof (length_free t0 n key len Hat). pose proof (length_part t0 false n key len Hat).
  pose proof (length_part t0 true n key len Hat). unfold avail_todo, cost. destruct lbl; rewrite !length_app; cbn [length]; lia.
Qed.

(** ** The loop *)

Lemma next_available_run t0 key0 lbl n key len base : walk_at t0 lbl n key len base -> same_key base key0 key ->
  match avail_todo lbl n key len base with
  | [] => exists key', __btrie_next_available (AtNode n) key len base lbl = Some (None, key', base)
  | y :: R => exists n' key' len', __btrie_next_available (AtNode n) key len base lbl = Some (Some (AtNode n'), key', len') /\
      bits key' 0 len' = y /\ same_key base key0 key' /\ walk_at t0 AUp n' key' len' base /\ avail_todo AUp n' key' len' base = R
  end.
Proof.
  intros Hw Hs. pose proof (next_available_loop_todo (avail_fuel n) t0 base key0 lbl n key len Hw Hs (cost_fuel _ _ _ _ _ _ Hw)) as H.
  unfold __btrie_next_available, result_ok in *. destruct (avail_todo lbl n key len base) as [|y R].
  - destruct H as (key' & -> & _). by eexists.
  - destruct H as (n' & key' & len' & -> & H). by eexists _, _, _.
Qed.

(** The keys of the loop, with their bits. *)
Definition key_bits (x : list Z * nat) : list bool := bits x.1 0 x.2.

(** Keys of the same size as [key0], with their lengths. *)
Definition keys_like (key0 : list Z) (A : list (list Z * nat)) : Prop :=
  Forall (fun x => key_ok x.1 /\ length x.1 = length key0 /\ (x.2 <= 8 * length x.1)%nat) A.

Lemma available_rest_todo fuel t0 n key0 key len base lbl : walk_at t0 lbl n key len base -> same_key base key0 key ->
  (length (avail_todo lbl n key len base) < fuel)%nat ->
  exists A, available_rest fuel (__btrie_next_available (AtNode n) key len base lbl) base = Some A /\
    key_bits <$> A = avail_todo lbl n key len base /\ keys_like key0 A.
Proof.
  revert n key len lbl. induction fuel as [|fuel IH]; intros n key len lbl Hw Hs Hf; [lia|]. cbn [available_rest].
  pose proof (next_available_run t0 key0 lbl n key len base Hw Hs) as H.
  destruct (avail_todo lbl n key len base) as [|y R] eqn:Htodo.
  - destruct H as (key' & ->). cbn [mbind option_bind]. exists []. split; [done|]. split; [done|constructor].
  - destruct H as (n' & key' & len' & -> & Hy & Hs' & Hw' & HR). cbn [mbind option_bind]. cbn [length] in Hf.
    destruct (IH n' key' len' AUp Hw' Hs') as (A & HA & HAb & HAk); [rewrite HR; lia|]. unfold btrie_next_available. rewrite HA.
    cbn [mbind option_bind]. eexists. split; [done|]. cbn [fmap list_fmap]. unfold key_bits at 1. cbn [fst snd]. rewrite Hy.
    split; [f_equal; congruence|]. constructor; [|done]. destruct Hw' as ([_ _ _ Hk' _] & _ & _ & Hl' & _). destruct Hs' as [Hs' _]. done.
Qed.

End each.
