(* ===== verification/BtrieFirst.v ===== *)
(** The start of the walk over available keys: the longest match of the containing
    key, and the theorem on the whole loop. *)
From S2P Require Import Prelude Bitops Tlv Btrie BtrieBits BtrieWf BtrieAdd BtrieIns BtrieTrie BtrieIter BtrieWalk BtrieFree BtrieAvail BtrieEach.

Section first.
Context {E : Type} `{!EqDecision E}.
Implicit Types (t : btrie E) (c : list (bframe E)) (n : loc E) (key : list Z).

(** [btrie_longest_match]: the last node [d] on the way to a key when nothing
    follows in its direction, or the child that does and how far it agrees. *)
Definition longest_at t key (len : nat) (d m : loc E) (q : nat) : Prop :=
  plug d.1 d.2 = t /\ deepest key len d /\ plug m.1 m.2 = t /\ wfl m /\ m.1 ≠ Nil /\
  ((m = d /\ q = plen_of d.1 /\ (q = len \/ child (bit key q) d.1 = Nil)) \/
   (parent m = Some d /\ path m.2 = bits key 0 (S (plen_of d.1)) /\ (S (plen_of d.1) <= q < plen_of m.1)%nat /\
    (q <= len)%nat /\ bits key 0 q `prefix_of` pbits m /\ m.1 = child (bit key (plen_of d.1)) d.1 /\
    (q = len \/ ~ bits key 0 (S q) `prefix_of` pbits m))).

Lemma btrie_longest_match_at t key len : trie_ok t -> key_ok key -> (len <= 8 * length key)%nat ->
  exists d m q, btrie_longest_match t key len = Some (m, q) /\ longest_at t key len d m q.
Proof.
  intros (Hne & Hwf & _) Hk Hlen. unfold btrie_longest_match.
  destruct (btrie_node_lookup_deepest t [] key len Hk Hlen) as (d & -> & Hplug & Hd);
    [by apply wf_plug|done|apply prefix_nil|]. cbn [mbind option_bind plug] in *. exists d.
  pose proof Hd as (Hwl & p & k & es & l & r & E1 & Hext & Hp & Hst). destruct d as [d c]. cbn [fst snd] in *. subst d.
  assert (Hstop : forall q, q = p -> (q = len \/ child (bit key q) (Node p k es l r) = Nil) ->
    longest_at t key len (Node p k es l r, c) (Node p k es l r, c) q).
  { intros q -> Hq. split; [done|]. split; [done|]. split; [done|]. split; [done|]. split; [done|]. by left. }
  destruct (decide (p = len)) as [->|Hpl]; [eexists _, _; split; [done|]; apply Hstop; [done|by left]|].
  destruct Hst as [?|Hst]; [lia|]. rewrite key_bit_Some by (done || lia). cbn [mbind option_bind].
  assert (exists o, child_loc (bit key p) (Node p k es l r, c) =
    Some (child (bit key p) (Node p k es l r), mk_bframe p k es (bit key p) o :: c)) as [o Ho]
    by (destruct (bit key p); by eexists).
  rewrite Ho. cbn [mbind option_bind fst]. destruct (wfl_child _ _ _ Hwl Ho) as [Hwc Hplugc]. cbn [fst snd] in *.
  destruct (child (bit key p) (Node p k es l r)) as [|cp ck ces cl cr] eqn:Hch; cbn [is_nil].
  { eexists _, _. split; [done|]. apply Hstop; [done|by right]. }
  assert (Hpath : path (mk_bframe p k es (bit key p) o :: c) = bits key 0 (S p)) by (by apply path_child).
  assert (Hokc : node_ok (bits key 0 (S p)) cp ck) by (rewrite <- Hpath; apply Hwc). rewrite <- bits_snoc in Hst.
  destruct (longest_match_stuck cp ck ces cl cr key len (S p) Hk ltac:(lia) ltac:(lia) Hokc Hst) as (q & Hq & Hql & Hqc & Hpre & Hdiff).
  replace (p + 1)%nat with (S p) by lia. rewrite Hq. cbn [mbind option_bind]. eexists _, _. split; [done|].
  split; [done|]. split; [done|]. split; [by rewrite <- Hplugc in Hplug|]. split; [done|]. split; [done|]. right.
  assert (Hpb : pbits (Node cp ck ces cl cr, mk_bframe p k es (bit key p) o :: c) = ext (bits key 0 (S p)) cp ck)
    by (unfold pbits; cbn [fst snd]; by rewrite <- Hpath).
  cbn [fst plen_of]. rewrite Hpb, Hch. split.
  { unfold parent. cbn [snd fst]. f_equal. f_equal. unfold up_node. cbn. destruct (bit key p); injection Ho as <-; cbn in Hch; by subst. }
  split; [done|]. split; [cbn; lia|]. split; [lia|]. split; [done|]. split; [done|].
  destruct Hdiff as [->|Hdiff]; [by left|]. right. intros [u Hu].
  assert (Hl : ext (bits key 0 (S p)) cp ck !! q = Some (wbit ck (remain q))) by (apply ext_lookup; [done|rewrite length_bits; lia]).
  rewrite Hu, lookup_app_l, lookup_bits in Hl by (rewrite ?length_bits; lia). injection Hl as Hl. rewrite Hl in Hdiff.
  by destruct (wbit ck (remain q)).
Qed.

(** No larger key is given back: only the way from the node up is checked. *)
Lemma check_available_none t c contain node q : t ≠ Nil -> wfl (t, c) -> (plen_of t <= contain)%nat ->
  check_available t c contain node q =
  Some (if decide (elements_of t ++ ups_all c = []) then Some node else None, q).
Proof.
  revert t. induction c as [|f c IH]; intros t Hne Hwf Hp; (destruct t as [|p k es l r]; [done|]);
    cbn [check_available elements_of plen_of ups_all] in *.
  - rewrite app_nil_r. destruct es; cbn [mbind option_bind].
    + by repeat rewrite decide_True by done.
    + rewrite decide_False by done. rewrite decide_True by done. cbn. by rewrite decide_False by done.
  - destruct es as [|e es]; cbn [app].
    + rewrite decide_True by done. cbn [mbind option_bind]. rewrite IH.
      * by replace (elements_of (up_node (Node p k [] l r) f)) with (f_elements f) by (by destruct f as [? ? ? [|] ?]).
      * by destruct f as [? ? ? [|] ?].
      * by apply wfl_up.
      * replace (plen_of (up_node (Node p k [] l r) f)) with (f_plen f) by (by destruct f as [? ? ? [|] ?]).
        assert (Hok : node_ok (path (f :: c)) p k) by apply Hwf. apply node_ok_blk in Hok.
        assert (Hokf : node_ok (path c) (f_plen f) (f_key f)) by apply Hwf. apply length_ext in Hokf.
        cbn [path] in Hok. rewrite length_app, Hokf in Hok. cbn in Hok. lia.
    + rewrite decide_False by done. rewrite decide_True by done. cbn. by rewrite decide_False by done.
Qed.

Lemma btrie_longest_match_available_at t key len d m q : longest_at t key len d m q ->
  btrie_longest_match t key len = Some (m, q) ->
  btrie_longest_match_available t key len len = Some (if decide (above (bits key 0 len) [] t = []) then Some m else None, q).
Proof.
  intros (Hpd & Hd & Hpm & Hwm & Hnm & Hcases) Hm. unfold btrie_longest_match_available. rewrite Hm. cbn [mbind option_bind].
  destruct (ups_all_above t key len d Hpd Hd) as [_ Hab].
  pose proof Hd as (Hwd & p & k & es & l & r & E1 & Hext & Hp & Hst).
  assert (Hcheck : check_available d.1 d.2 len m q =
    Some (if decide (above (bits key 0 len) [] t = []) then Some m else None, q)).
  { rewrite check_available_none; [|by rewrite E1|by destruct d|by rewrite E1]. do 2 f_equal.
    destruct (decide (above _ [] t = [])) as [Ha|Ha].
    - rewrite Ha in Hab. apply Permutation_nil_r in Hab. by rewrite decide_True.
    - rewrite decide_False; [done|]. intros Hnil. rewrite Hnil in Hab. symmetry in Hab. apply Permutation_nil_r in Hab.
      by apply fmap_nil_inv in Hab. }
  destruct m as [[|mp mk mes ml mr] mc]; [done|]. cbn [fst plen_of] in Hcases |- *.
  destruct Hcases as [(Hmd & -> & _)|(Hpar & _ & Hq & _)].
  - rewrite <- Hmd in Hcheck |- *. rewrite decide_False by (cbn; lia). exact Hcheck.
  - rewrite decide_True by lia. rewrite Hpar. exact Hcheck.
Qed.

Lemma available_covered y (L : list (list bool)) x : x ∈ L -> x `prefix_of` y -> available_in y L [].
Proof.
  intros Hx Hp. split; [by intros a ?%not_elem_of_nil|by intros a z ?%not_elem_of_nil| |by intros a ?%not_elem_of_nil|constructor].
  intros z Hz Hno. destruct (Hno x Hx). right. by etrans.
Qed.

(** Without overlap of any kind. *)
Lemma available_alone t key len d m q : longest_at t key len d m q -> above (bits key 0 len) [] t = [] -> (q < len)%nat ->
  available_in (bits key 0 len) (entries [] t).*1 [bits key 0 len].
Proof.
  intros (Hpd & Hd & Hpm & Hwm & Hnm & Hcases) Hab Hq. eapply available_iff; [|apply available_nil].
  intros x Ho. split; [by intros ?%not_elem_of_nil|]. intros (y & -> & Hy)%list_elem_of_fmap. exfalso.
  destruct Ho as [Ho|Ho].
  2:{ assert (Hin : y ∈ above (bits key 0 len) [] t) by (by apply list_elem_of_filter). rewrite Hab in Hin. by apply not_elem_of_nil in Hin. }
  assert (Hin : y ∈ under (bits key 0 len) [] t) by (by apply list_elem_of_filter).
  destruct (ups_all_above t key len d Hpd Hd) as [Hpc _].
  pose proof Hd as (Hwd & p & k & es & l & r & E1 & Hext & Hp & Hst). destruct d as [d c]. cbn [fst snd] in *. subst d.
  rewrite <- Hpd, under_plug in Hin by done. cbn [plen_of] in *.
  assert (Hpl : (p < len)%nat) by (destruct Hcases as [(_ & -> & _)|(_ & _ & ? & _)]; lia).
  rewrite under_deepest in Hin by done. destruct Hcases as [(_ & -> & [?|Hnil])|(_ & Hpath & Hql & _ & Hpre & Hm & Hdiff)]; [lia| |].
  - rewrite Hnil in Hin. by apply not_elem_of_nil in Hin.
  - destruct Hdiff as [?|Hdiff]; [lia|]. rewrite <- Hm, <- bits_snoc, <- Hpath in Hin.
    apply list_elem_of_filter in Hin as [Hk Hin]. destruct m as [[|mp mk mes ml mr] mc]; [done|]. unfold pbits in *. cbn [fst snd] in *.
    assert (Hw : wf (path mc) (Node mp mk mes ml mr)) by apply Hwm.
    pose proof (node_entries_prefix _ _ _ _ _ _ _ Hw Hin) as Hx. destruct (prefix_total _ _ _ Hk Hx) as [H1|H1].
    + apply Hdiff. etrans; [|exact H1]. apply bits_prefix. lia.
    + apply Hdiff. assert (Hl : length (ext (path mc) mp mk) = mp) by (apply length_ext, Hw).
      apply prefix_bits in H1. rewrite Hl in H1. rewrite H1. apply bits_prefix. cbn in Hql. lia.
Qed.

Lemma root_shaped t : trie_ok t -> entries [] t ≠ [] -> shaped t.
Proof.
  intros (Hne & Hwf & Hl & Hr) Hent. destruct (wf_root t Hwf) as [->|(k & es & l & r & ->)]; [done|].
  split; [|by split]. unfold busy. destruct es; [|by left]. right.
  destruct l; [destruct r|]; [done|right; split; [by right|done]|right; split; [by left|done]].
Qed.

Lemma longest_on_node t key len d m : longest_at t key len d m len -> key_ok key -> on_node m key len.
Proof.
  intros (Hpd & Hd & Hpm & Hwm & Hnm & Hcases) Hk. destruct m as [[|mp mk mes ml mr] mc]; [done|]. unfold on_node, pbits. cbn [fst snd plen_of] in *.
  assert (Hok : node_ok (path mc) mp mk) by apply Hwm. pose proof (length_ext _ _ _ Hok) as Hl. pose proof (node_ok_blk _ _ _ Hok) as Hb.
  destruct Hcases as [(Hmd & Hq & _)|(_ & Hpath & Hq & _ & Hpre & _)].
  - destruct Hd as (_ & p & k & es & l & r & E1 & Hext & Hp & _). rewrite <- Hmd in *. cbn [fst snd plen_of] in *.
    injection E1 as -> -> -> -> ->. rewrite Hext, Hq. split; [lia|]. by rewrite take_ge by (rewrite length_bits; lia).
  - rewrite Hpath, length_bits in *. split; [lia|]. unfold pbits in Hpre. cbn [fst snd] in Hpre. rewrite Hpath in Hpre. destruct Hpre as [u ->].
    by rewrite take_app_le, take_ge by (rewrite length_bits; lia).
Qed.

(** The available keys below the node that has the key. *)
Lemma available_at_node t key len d m : trie_ok t -> key_ok key -> longest_at t key len d m len ->
  above (bits key 0 len) [] t = [] ->
  available_in (bits key 0 len) (entries [] t).*1 (free_from (path m.2) m.1 len).
Proof.
  intros Ht Hk Hlong Hab. pose proof (longest_on_node _ _ _ _ _ Hlong Hk) as [Hlen Hbits].
  destruct Hlong as (Hpd & Hd & Hpm & Hwm & Hnm & _). destruct m as [m c]. cbn [fst snd] in *.
  assert (Hpc : path c `prefix_of` bits key 0 len).
  { rewrite Hbits. destruct m as [|p k es l r]; [done|]. assert (Hok : node_ok (path c) p k) by apply Hwm.
    unfold pbits. cbn [fst snd]. destruct (node_ok_prefix _ _ _ Hok) as [u ->]. rewrite take_app_ge by lia. by eexists. }
  assert (Hanc : ancestors c = []).
  { destruct (ancestors c) as [|x A] eqn:HA; [done|]. exfalso.
    assert (Hin : x ∈ above (bits key 0 len) [] t); [|rewrite Hab in Hin; by apply not_elem_of_nil in Hin].
    rewrite <- Hpm, above_plug by done. rewrite HA. by left. }
  apply (available_iff _ (entries (path c) m).*1).
  { intros x Ho. rewrite !list_elem_of_fmap. pose proof (overlap_plug m c (bits key 0 len) Hwm Hpc) as Hov.
    rewrite Hpm, Hanc in Hov. cbn [app] in Hov.
    split; intros (y & -> & Hy); exists y; (split; [done|]).
    - assert (Hf : y ∈ filter (fun x => overlap (bits key 0 len) x.1) (entries [] t)) by (rewrite Hov; by apply list_elem_of_filter).
      by apply list_elem_of_filter in Hf as [_ Hf].
    - assert (Hf : y ∈ filter (fun x => overlap (bits key 0 len) x.1) (entries (path c) m)) by (rewrite <- Hov; by apply list_elem_of_filter).
      by apply list_elem_of_filter in Hf as [_ Hf]. }
  assert (Hcase : shaped m \/ (c = [] /\ entries [] t = [])).
  { destruct c as [|f c].
    - cbn [plug] in Hpm. subst m. destruct (decide (length (entries [] t) = 0%nat)) as [H0|H0].
      + right. split; [done|]. by apply nil_length_inv.
      + left. apply root_shaped; [done|]. intros H. by rewrite H in H0.
    - left. destruct (shaped_unplug m (f :: c) Hnm) as (_ & H & _); [rewrite Hpm; apply Ht|]. by apply H. }
  destruct Hcase as [Hsh|[-> Hent]].
  - pose proof (free_from_available (path c) m len ltac:(apply Hwm) Hsh Hnm ltac:(lia)) as H.
    rewrite Hbits. by destruct m.
  - cbn [plug path] in *. subst m. rewrite Hent. destruct Ht as (_ & Hwf & Hl & Hr).
    destruct (wf_root t Hwf) as [->|(k & es & l & r & ->)]; [done|]. cbn [plen_of] in Hlen. assert (len = 0%nat) as -> by lia.
    cbn [entries] in Hent. apply app_eq_nil in Hent as [He [H1 H2]%app_eq_nil]. apply fmap_nil_inv in He as ->.
    destruct l; [|by apply shaped_entry in H1]. destruct r; [|by apply shaped_entry in H2]. cbn. apply available_nil.
Qed.

Lemma shaped_tall M b t : wf b t -> shaped t -> (forall x, x ∈ entries b t -> length x.1 <= M)%nat -> tall M t.
Proof.
  revert b. induction t as [|p k es l IHl r IHr]; intros b Hw Hs Hx; [done|]. pose proof Hw as (Hok & Hl & Hr).
  pose proof Hs as (_ & Hsl & Hsr). split; [|split].
  - destruct (entries b (Node p k es l r)) as [|x L] eqn:HL; [by apply shaped_entry in HL|].
    assert (Hin : x ∈ entries b (Node p k es l r)) by (rewrite HL; by left). specialize (Hx x ltac:(by left)).
    apply node_entries_prefix in Hin; [|done]. apply prefix_length in Hin. rewrite (length_ext _ _ _ Hok) in Hin. lia.
  - eapply IHl; [done|done|]. intros x Hin. apply Hx. cbn [entries]. rewrite !elem_of_app. tauto.
  - eapply IHr; [done|done|]. intros x Hin. apply Hx. cbn [entries]. rewrite !elem_of_app. tauto.
Qed.

Lemma trie_tall M t : trie_ok t -> (forall x, x ∈ entries [] t -> length x.1 <= M)%nat -> tall M t.
Proof.
  intros (Hne & Hwf & Hl & Hr) Hx. destruct (wf_root t Hwf) as [->|(k & es & l & r & ->)]; [done|].
  destruct Hwf as (_ & Hwl & Hwr). split; [lia|].
  split; (eapply shaped_tall; [done|done|]); intros x Hin; apply Hx; cbn [entries]; rewrite !elem_of_app; tauto.
Qed.

(** The containing key is copied in front of the iterated one. *)
Lemma iter_key_copy iter_key key len : key_ok iter_key -> key_ok key -> (len <= 8 * length key)%nat -> (len <= 8 * length iter_key)%nat ->
  exists k, (if decide (len = 0)%nat then Some iter_key else b ← rdn key 0 ((len - 1) / 8 + 1); wrn iter_key 0 b) = Some k /\
    key_ok k /\ length k = length iter_key /\ bits k 0 len = bits key 0 len.
Proof.
  intros Hi Hk Hl1 Hl2. destruct (decide (len = 0)%nat) as [->|Hl0]; [by exists iter_key|].
  pose proof Hi as [Hib Him]. pose proof Hk as [Hkb _].
  rewrite rdn_Some by lia. cbn [mbind option_bind]. rewrite drop_0. set (b := take ((len - 1) / 8 + 1) key).
  assert (Hlb : length b = ((len - 1) / 8 + 1)%nat) by (unfold b; rewrite length_take; lia).
  rewrite wrn_Some by lia. eexists. split; [done|].
  assert (Hln : length (take 0 iter_key ++ b ++ drop (0 + length b) iter_key) = length iter_key).
  { rewrite !length_app, length_take, length_drop. lia. }
  split; [split; [apply bytes_ok_wrn; [done|by apply Forall_take]|by rewrite Hln]|]. split; [done|].
  unfold bits. apply list_fmap_ext. intros n i Hn%lookup_seq. rewrite bit_splice by lia. rewrite decide_True by lia.
  unfold b. rewrite <- (drop_0 key) at 1. rewrite bit_take_drop by lia. f_equal. lia.
Qed.

(** The loop over the available keys inside a key. *)
Lemma btrie_for_each_available_in t iter_key key len : trie_ok t -> key_ok iter_key -> key_ok key ->
  (len <= 8 * length key)%nat -> (len <= 8 * length iter_key)%nat -> (forall x, x ∈ entries [] t -> length x.1 <= 8 * length iter_key)%nat ->
  exists A, btrie_for_each_available t iter_key key len = Some A /\
    available_in (bits key 0 len) (entries [] t).*1 (key_bits <$> A) /\ keys_like iter_key A.
Proof.
  intros Ht Hi Hk Hl1 Hl2 Hx. unfold btrie_for_each_available, btrie_first_available, __btrie_first_available. cbv zeta.
  rewrite (decide_False (P := (len < len)%nat)) by lia.
  destruct (iter_key_copy iter_key key len Hi Hk Hl1 Hl2) as (k & -> & Hkk & Hlk & Hbk). cbn [mbind option_bind].
  destruct (btrie_longest_match_at t key len Ht Hk Hl1) as (d & m & q & Hm & Hlong).
  rewrite (btrie_longest_match_available_at _ _ _ _ _ _ Hlong Hm). cbn [mbind option_bind].
  replace (avail_fuel (t, []) + 1)%nat with (S (avail_fuel (t, []))) by lia.
  destruct (decide (above (bits key 0 len) [] t = [])) as [Ha|Ha].
  2:{ exists []. split; [done|]. split; [|constructor]. destruct (above (bits key 0 len) [] t) as [|x L] eqn:HL; [done|].
      assert (Hin : x ∈ above (bits key 0 len) [] t) by (rewrite HL; by left). apply list_elem_of_filter in Hin as [Hp Hin].
      apply (available_covered _ _ x.1); [|done]. apply list_elem_of_fmap. by exists x. }
  destruct (decide (q < len)%nat) as [Hq|Hq].
  { exists [(k, len)]. split; [|split].
    - cbn [available_rest mbind option_bind btrie_next_available __btrie_next_available]. unfold avail_fuel.
      replace (200 * _)%nat with (S (199 + 200 * nodes_in (plug t []))) by (cbn [fst snd]; lia). done.
    - cbn [fmap list_fmap]. unfold key_bits. cbn [fst snd]. rewrite Hbk. by eapply available_alone.
    - constructor; [|constructor]. cbn [fst snd]. split; [done|]. split; [done|lia]. }
  assert (q = len) as ->.
  { destruct Hlong as (_ & (_ & p & ? & ? & ? & ? & E1 & _ & Hp & _) & _ & _ & _ & [(_ & -> & _)|(_ & _ & _ & ? & _)]); [|lia].
    rewrite E1 in *. cbn in *. lia. }
  pose proof (longest_on_node _ _ _ _ _ Hlong Hk) as [Hon1 Hon2].
  pose proof (available_at_node _ _ _ _ _ Ht Hk Hlong Ha) as Hav.
  destruct Hlong as (_ & _ & Hpm & Hwm & Hnm & _).
  assert (Hw : walk_at t ANode m k len len).
  { split; [split; try done; apply trie_tall; [done|by rewrite Hlk]|]. split; [done|]. split; [done|]. by rewrite Hbk. }
  destruct (available_rest_todo (S (avail_fuel (t, []))) t m k k len len ANode Hw) as (A & HA & HAb & HAk); [by split| |].
  { pose proof (length_todo _ _ _ _ _ _ Hw). pose proof (cost_fuel _ _ _ _ _ _ Hw) as Hc. unfold avail_fuel in *. rewrite Hpm in Hc. cbn [fst snd plug]. lia. }
  exists A. split; [done|]. split.
  - rewrite HAb. unfold avail_todo. rewrite Nat.sub_diag. cbn [later]. by rewrite app_nil_r.
  - unfold keys_like in *. by rewrite <- Hlk.
Qed.

End first.

(** ** The first key of the loop that begins elsewhere *)

Section loop.
Context {E : Type} `{!EqDecision E}.
Implicit Types (t : btrie E) (c : list (bframe E)) (n : loc E) (key : list Z).

Lemma bare_clear t c y : wfl (t, c) -> ups_all c = [] -> path c `prefix_of` y -> clear_of (path c) t y -> clear_of [] (plug t c) y.
Proof.
  intros Hw Hb Hy Hc x Hx Ho. pose proof (overlap_plug t c y Hw Hy) as Hov.
  assert (ancestors c = []) as Ha.
  { pose proof (ups_all_ancestors c) as H. rewrite Hb in H. symmetry in H. apply Permutation_nil_r in H. by apply fmap_nil_inv in H. }
  rewrite Ha in Hov. assert (Hin : x ∈ filter (fun x => overlap y x.1) (entries [] (plug t c))) by (by apply list_elem_of_filter).
  rewrite Hov in Hin. apply list_elem_of_filter in Hin as [_ Hin]. by apply (Hc x).
Qed.

(** The walk is at the first [q] bits of a key, and no node on the way has elements. *)
Record bare_at n key (q : nat) : Prop := {
  ba_on : on_node n key q; ba_ups : ups_all n.2 = []; ba_here : q = plen_of n.1 -> elements_of n.1 = [];
}.

Lemma on_node_path n key q : wfl n -> n.1 ≠ Nil -> on_node n key q -> path n.2 `prefix_of` take q (pbits n).
Proof.
  intros Hw Hne [Hl _]. destruct n as [[|p k es l r] c]; [done|]. unfold pbits. cbn [fst snd plen_of] in *.
  assert (Hok : node_ok (path c) p k) by apply Hw. destruct (node_ok_prefix _ _ _ Hok) as [u ->]. rewrite take_app_ge by lia. by eexists.
Qed.

Lemma part_clear t0 n key q s y : loc_at t0 n key -> on_node n key q -> ups_all n.2 = [] -> (q = plen_of n.1 -> elements_of n.1 = []) ->
  y ∈ part s n q -> clear_of [] t0 y.
Proof.
  intros Hat Hon Hb He Hy. pose proof Hat as [Hne Hw Hplug _ _]. pose proof (pbits_length _ _ _ Hat) as [Hlx _].
  pose proof (on_node_path _ _ _ Hw Hne Hon) as Hp. destruct Hon as [Hl _]. destruct n as [[|p k es l r] c]; [done|].
  rewrite <- Hplug. unfold part in Hy. cbn [fst snd plen_of elements_of] in *. unfold pbits in *. cbn [fst snd] in *. set (x := ext (path c) p k) in *.
  assert (Hw0 : wf (path c) (Node p k es l r)) by apply Hw.
  destruct (decide (q = p)) as [->|Hq].
  - rewrite He in * by done. rewrite take_ge in Hp by lia.
    assert (Hws : forall s, wf (x ++ [s]) (child s (Node p k [] l r))) by (intros [|]; apply Hw0).
    assert (Hys : x ++ [s] `prefix_of` y /\ clear_of (x ++ [s]) (child s (Node p k [] l r)) y).
    { destruct (child s (Node p k [] l r)) as [|cp ck ces cl cr] eqn:Ech.
      - apply list_elem_of_singleton in Hy as ->. split; [done|]. by intros z ?%not_elem_of_nil.
      - rewrite <- Ech in *. assert (Hsp : (S p <= plen_of (child s (Node p k [] l r)))%nat) by (apply (child_span x s); [done|done|by rewrite Ech]).
        destruct (free_from_clear _ _ _ _ (Hws s) Hsp Hy) as [H1 H2]. by rewrite child_bits in H1. }
    destruct Hys as [Hys Hcl]. apply bare_clear; [done|done|etrans; [exact Hp|]; etrans; [by eexists|exact Hys]|].
    intros z Hz. assert (exists s', z ∈ entries (x ++ [s']) (child s' (Node p k [] l r))) as [s' Hz'].
    { cbn [entries fmap list_fmap app] in Hz. apply elem_of_app in Hz as [Hz|Hz]; [by exists false|by exists true]. }
    destruct (decide (s' = s)) as [->|Hne']; [by apply Hcl|]. apply (fork_apart x _ _ s); [done|].
    replace (negb s) with s' by (by destruct s, s'). by eapply entries_prefix.
  - destruct (lookup_lt_is_Some_2 x q ltac:(lia)) as [v Hv].
    destruct (decide (x !! q = Some s)) as [Hs|Hs].
    + destruct (free_from_clear (path c) (Node p k es l r) (S q) y Hw0 ltac:(cbn; lia) Hy) as [H1 H2]. cbn [node_bits] in H1. fold x in H1.
      apply bare_clear; [done|done| |done]. etrans; [exact Hp|]. etrans; [|exact H1]. replace (take q x) with (take q (take (S q) x)) by (rewrite take_take; f_equal; lia). apply prefix_take.
    + apply list_elem_of_singleton in Hy as ->. apply bare_clear; [done|done|etrans; [exact Hp|by eexists]|].
      assert (s = negb v) as -> by (rewrite Hv in Hs; destruct s, v; try done; by destruct Hs). by apply (beside_clear (path c) (Node p k es l r)).
Qed.

Lemma on_node_up t0 n key q base : loc_at t0 n key -> (base <= q)%nat -> on_node n key q -> walk_at t0 AUp n key q base.
Proof. intros Hat Hb Hon. apply (walk_at_up t0 ANode). by split. Qed.

Lemma later_clear t0 base d n key y : loc_at t0 n key -> on_node n key (base + d) -> ups_all n.2 = [] ->
  y ∈ later base d n key -> clear_of [] t0 y.
Proof.
  revert n. induction d as [|d IH]; intros n Hat Hon Hb Hy; [by apply not_elem_of_nil in Hy|]. cbn [later] in Hy.
  destruct (walk_up t0 n key (base + S d) base) as [Hat' Hon']; [apply on_node_up; [done|lia|done]|lia|].
  replace (base + S d - 1)%nat with (base + d)%nat in Hat', Hon' by lia.
  assert (Hup : ups_all (step_up n (base + d)).2 = [] /\ (base + d = plen_of (step_up n (base + d)).1 -> elements_of (step_up n (base + d)).1 = [])%nat).
  { destruct Hon as [Hl _]. destruct n as [t [|f c]]; unfold step_up in *; cbn [fst snd] in *; [split; [done|lia]|].
    cbn [ups_all] in Hb. apply app_eq_nil in Hb as [Hb1 Hb2]. case_decide; cbn [fst snd]; [|split; [cbn [ups_all]; by rewrite Hb1, Hb2|lia]].
    split; [done|]. intros _. by destruct f as [? ? ? [|] ?]. }
  destruct Hup as [Hup He]. apply elem_of_app in Hy as [Hy|Hy]; [|by eapply IH].
  destruct (bit key (base + d)); [by apply not_elem_of_nil in Hy|]. by eapply part_clear.
Qed.

Lemma avail_todo_clear t0 lbl n key q base y : loc_at t0 n key -> (base <= q)%nat -> lbl ≠ AUp -> bare_at n key q ->
  y ∈ avail_todo lbl n key q base -> clear_of [] t0 y.
Proof.
  intros Hat Hq Hlbl [Hon Hb He] Hy. unfold avail_todo in Hy. apply elem_of_app in Hy as [Hy|Hy].
  2:{ eapply later_clear; [done| |done|done]. by replace (base + (q - base))%nat with q by lia. }
  pose proof Hat as [Hne Hw Hplug _ _]. destruct lbl; [| |by eapply part_clear|done].
  - destruct (free_from_clear (path n.2) n.1 q y ltac:(apply Hw) ltac:(apply Hon) Hy) as [H1 H2]. rewrite <- Hplug.
    apply bare_clear; [by destruct n|done| |done]. etrans; [by apply (on_node_path n key q)|]. destruct n as [[|] ?]; done.
  - apply elem_of_app in Hy as [Hy|Hy]; by eapply part_clear.
Qed.

(** [check] is the place of [n], or a node above it below which no node on the way
    has elements. *)
Definition checked n (check : loc E) (q : nat) : Prop :=
  n = check \/ (q = plen_of n.1 -> elements_of n.1 = []) /\
    exists fs f, n.2 = fs ++ f :: check.2 /\ f_elements f = elements_of check.1 /\ ups_all fs = [].

Lemma ups_all_app c c' : ups_all (c ++ c') = ups_all c ++ ups_all c'.
Proof. induction c as [|f c IH]; cbn [app ups_all]; [done|]. by rewrite IH, app_assoc. Qed.

(** Where the walk begins: at what matched, or at the bit before an element. *)
Definition begins t0 key (contain first : nat) (node : loc E) (q : nat) (res : option (option (loc E) * nat)) : Prop :=
  exists r q', res = Some (r, q') /\ forall n, r = Some n ->
    plug n.1 n.2 = t0 /\ n.1 ≠ Nil /\ bare_at n key q' /\ (q' <= first)%nat /\ ((contain <= q')%nat \/ n = node /\ q' = q).

Lemma check_available_begins t0 key contain first c t node q : t ≠ Nil -> wfl (t, c) -> plug t c = t0 ->
  bits key 0 (plen_of t) = pbits (t, c) -> (plen_of t <= first)%nat ->
  plug node.1 node.2 = t0 -> node.1 ≠ Nil -> on_node node key q -> (q <= first)%nat -> checked node (t, c) q ->
  begins t0 key contain first node q (check_available t c contain node q).
Proof.
  revert t node q. induction c as [|f c IH]; intros t node q Hne Hw Hplug Hbits Hfirst Hnp Hnn Hon Hq Hck;
    (destruct t as [|p k es l r]; [done|]); cbn [check_available plen_of] in *.
  - assert (p = 0%nat) as -> by (destruct (wf_root _ (proj1 Hw)) as [?|(? & ? & ? & ? & [= -> _ _ _ _])]; done).
    destruct (decide (es = [])) as [->|Hes]; cbn [mbind option_bind]; [|rewrite decide_True by lia; by eexists _, _].
    eexists _, _. split; [done|]. intros n [= <-]. split; [done|]. split; [done|]. split; [|by split; [|right]].
    destruct Hck as [->|(He & fs & f & E1 & E2 & E3)]; [by split|]. split; [done| |done]. cbn [snd fst elements_of] in *.
    rewrite E1, ups_all_app, E3. cbn [app ups_all]. by rewrite E2.
  - pose proof (proj1 (wfl_up _ _ _) Hw) as Hwu. set (u := up_node (Node p k es l r) f) in *.
    assert (Hu : u ≠ Nil /\ elements_of u = f_elements f /\ plen_of u = f_plen f /\ pbits (u, c) = ext (path c) (f_plen f) (f_key f))
      by (unfold u; by destruct f as [? ? ? [|] ?]). destruct Hu as (Hun & Hue & Hup & Hub).
    assert (Hokf : node_ok (path c) (f_plen f) (f_key f)) by apply Hw. pose proof (length_ext _ _ _ Hokf) as Hlf.
    assert (Hok : node_ok (path (f :: c)) p k) by apply Hw. pose proof (node_ok_blk _ _ _ Hok) as Hb. pose proof (length_ext _ _ _ Hok) as Hlx.
    assert (Hpath : length (path (f :: c)) = S (f_plen f)) by (cbn [path]; rewrite length_app, Hlf; cbn; lia).
    unfold pbits in Hbits. cbn [fst snd] in Hbits.
    assert (Hubits : bits key 0 (plen_of u) = pbits (u, c)).
    { rewrite Hup, Hub. transitivity (take (f_plen f) (bits key 0 p)); [by rewrite take_bits by lia|]. rewrite Hbits. destruct (node_ok_prefix _ _ _ Hok) as [w ->]. cbn [path].
      rewrite <- app_assoc, take_app_le, take_ge by lia. done. }
    assert (Hnext : forall node q, plug node.1 node.2 = t0 -> node.1 ≠ Nil -> on_node node key q -> (q <= first)%nat -> checked node (u, c) q ->
      begins t0 key contain first node q (check_available u c contain node q)).
    { intros node' q' H1 H2 H3 H4 H5. apply IH; try done. rewrite Hup. lia. }
    destruct (decide (es = [])) as [->|Hes]; cbn [mbind option_bind].
    { apply Hnext; try done. destruct Hck as [->|(He & fs & f' & E1 & E2 & E3)]; right.
      - split; [done|]. exists [], f. cbn [fst snd]. by rewrite Hue.
      - split; [done|]. exists (fs ++ [f']), f. cbn [snd fst elements_of] in *. rewrite E1, Hue, ups_all_app, E3, <- app_assoc. cbn [app ups_all]. by rewrite E2. }
    destruct (decide (p <= contain)%nat) as [Hpc|Hpc]; [by eexists _, _|]. cbn [mbind option_bind].
    assert (Hgo : forall node' : loc E, plug node'.1 node'.2 = t0 -> node'.1 ≠ Nil -> on_node node' key (p - 1) -> checked node' (u, c) (p - 1) ->
      begins t0 key contain first node q (check_available u c contain node' (p - 1))).
    { intros node' H1 H2 H3 H4. destruct (Hnext node' (p - 1)%nat) as (r' & q' & -> & Hr); try done; [lia|]. exists r', q'. split; [done|].
      intros n Hn. destruct (Hr n Hn) as (? & ? & ? & ? & Hor). do 4 (split; [done|]). left. destruct Hor as [?|[_ ->]]; lia. }
    case_decide as Hf.
    + apply Hgo; [done|done| |by left]. split; [cbn [fst snd]; rewrite Hup; apply node_ok_blk in Hokf; lia|].
      rewrite <- Hf, <- Hup, Hubits. rewrite take_ge; [done|]. rewrite Hub, Hlf. lia.
    + apply Hgo; [done|done| |right; split; [cbn; lia|by exists [], f]]. split; [cbn [fst snd plen_of]; lia|].
      unfold pbits. cbn [fst snd]. rewrite <- Hbits, take_bits by lia. done.
Qed.

Lemma longest_match_begins t key contain first d m q : longest_at t key first d m q -> (q <= first)%nat ->
  btrie_longest_match t key first = Some (m, q) -> (first <= 8 * length key)%nat ->
  on_node m key q /\ begins t key contain first m q (btrie_longest_match_available t key contain first).
Proof.
  intros (Hpd & Hd & Hpm & Hwm & Hnm & Hcases) Hqf Hm Hfirst. unfold btrie_longest_match_available. rewrite Hm. cbn [mbind option_bind].
  pose proof Hd as (Hwd & p & k & es & l & r & E1 & Hext & Hp & _). destruct d as [d c]. cbn [fst snd] in *. subst d. cbn [plen_of] in *.
  assert (Hdb : bits key 0 (plen_of (Node p k es l r)) = pbits (Node p k es l r, c)) by (unfold pbits; cbn [fst snd plen_of]; by rewrite Hext).
  assert (Hon : on_node m key q).
  { destruct Hcases as [(-> & -> & _)|(_ & Hpath & Hq & _ & Hpre & _)].
    - split; [cbn; assert (Hok : node_ok (path c) p k) by apply Hwd; apply node_ok_blk in Hok; lia|]. unfold pbits. cbn [fst snd].
      by rewrite Hext, take_ge by (rewrite length_bits; lia).
    - split; [rewrite Hpath, length_bits; lia|]. destruct Hpre as [u ->]. by rewrite take_app_le, take_ge by (rewrite length_bits; lia). }
  split; [done|]. destruct m as [[|mp mk mes ml mr] mc]; [done|]. cbn [fst plen_of] in *.
  destruct Hcases as [(Hmd & -> & _)|(Hpar & _ & Hq & _)].
  - injection Hmd as -> -> -> -> -> ->. rewrite decide_False by lia. cbn [mbind option_bind fst snd]. apply check_available_begins; try done. by left.
  - rewrite decide_True by lia. rewrite Hpar. cbn [mbind option_bind fst snd]. apply check_available_begins; try done. right.
    split; [cbn; lia|]. unfold parent in Hpar. cbn [snd fst] in *. destruct mc as [|f mc]; [done|]. injection Hpar as Hu ->. exists [], f.
    split; [done|]. split; [|done]. rewrite <- Hu. by destruct f as [? ? ? [|] ?].
Qed.

(** When the match ends inside the key, what is beside it is available. *)
Lemma longest_part t key first d m q k : longest_at t key first d m q -> (q < first)%nat -> loc_at t m k -> on_node m k q ->
  bits k 0 first = bits key 0 first -> bits k 0 (S q) ∈ part (bit k q) m q.
Proof.
  intros (Hpd & Hd & _ & _ & _ & Hcases) Hqf Hat [_ Hbq] Hb. unfold part. rewrite bits_snoc.
  assert (Hbit : bit k q = bit key q) by (eapply bits_bit; [exact Hb|lia]).
  destruct Hcases as [(-> & -> & [?|Hnil])|(_ & _ & Hq & _ & Hpre & _ & [?|Hdiff])]; [lia| |lia|].
  - rewrite decide_True, Hbit, Hnil by done. cbn [free_from]. rewrite Hbq. destruct (pbits_length _ _ _ Hat) as [Hl _]. rewrite take_ge by lia. by left.
  - rewrite decide_False by lia. rewrite decide_False, Hbq; [by left|]. intros Hl. apply Hdiff. rewrite bits_snoc, <- Hbit.
    apply (f_equal (take q)) in Hb. rewrite !take_bits in Hb by lia. rewrite <- Hb, Hbq, <- (take_S_r _ _ _ Hl). apply prefix_take.
Qed.

(** The key the loop begins with is of the right size and overlaps no entry. *)
Lemma first_available_loop_clear t iter_key key contain first : trie_ok t -> key_ok iter_key -> key_ok key ->
  (contain <= 8 * length key)%nat -> (contain <= 8 * length iter_key)%nat -> (first <= 8 * length key)%nat -> (first <= 8 * length iter_key)%nat ->
  (forall x, x ∈ entries [] t -> length x.1 <= 8 * length iter_key)%nat ->
  exists r k len, btrie_first_available_loop t iter_key key contain first = Some (r, k, len) /\
    (r ≠ None -> key_ok k /\ length k = length iter_key /\ (len <= 8 * length k)%nat /\ clear_of [] t (bits k 0 len)).
Proof.
  intros Ht Hi Hk Hc1 Hc2 Hf1 Hf2 Hx. unfold btrie_first_available_loop, __btrie_first_available. cbv zeta.
  set (F := if decide (first < contain)%nat then contain else first).
  assert (HF : (contain <= F /\ F <= 8 * length key /\ F <= 8 * length iter_key)%nat) by (unfold F; case_decide; lia).
  destruct HF as (HF1 & HF2 & HF3). clearbody F.
  destruct (iter_key_copy iter_key key F Hi Hk HF2 HF3) as (k & -> & Hkk & Hlk & Hbk). cbn [mbind option_bind].
  destruct (btrie_longest_match_at t key F Ht Hk HF2) as (d & m & q & Hm & Hlong).
  assert (Hqf : (q <= F)%nat).
  { destruct Hlong as (_ & (_ & p & ? & ? & ? & ? & E1 & _ & Hp & _) & _ & _ & _ & [(_ & -> & _)|(_ & _ & _ & ? & _)]); [|lia].
    rewrite E1. cbn. lia. }
  destruct (longest_match_begins t key contain F d m q Hlong Hqf Hm HF2) as (Honm & r & q' & -> & Hr). cbn [mbind option_bind].
  destruct r as [n|]; [|by eexists _, _, _]. destruct (Hr n eq_refl) as (Hplug & Hne & [Hon Hups Hes] & HqF & Hor).
  assert (Hwn : wfl n) by (destruct n; apply wf_plug; cbn [fst snd] in Hplug; rewrite Hplug; apply Ht).
  assert (Hb : forall i, (i <= F)%nat -> bits k 0 i = bits key 0 i).
  { intros i Hi'. rewrite <- (take_bits k i F), Hbk, take_bits by lia. done. }
  assert (Hat : loc_at t n k) by (split; try done; apply trie_tall; [done|by rewrite Hlk]).
  assert (Hba : bare_at n k q') by (split; [|done|done]; destruct Hon as [H1 H2]; split; [done|by rewrite Hb]).
  destruct (decide (q' < contain)%nat) as [Hqc|Hqc].
  - destruct Hor as [?|[-> ->]]; [lia|]. eexists _, _, _. split; [done|]. intros _. split; [done|]. split; [done|]. split; [lia|].
    assert (Hpart : bits k 0 (S q) ∈ part (bit k q) m q) by (by eapply longest_part; [| |done|apply Hba|]; [exact Hlong|lia|]).
    pose proof (part_clear t m k q _ _ Hat (ba_on _ _ _ Hba) Hups Hes Hpart) as Hcl. intros x Hin Ho. apply (Hcl x Hin).
    assert (Hpre : bits k 0 (S q) `prefix_of` bits k 0 contain) by (apply bits_prefix; lia).
    destruct Ho as [Ho|Ho]; [left; by etrans|by eapply prefix_total].
  - set (lbl := if decide (q' < F)%nat then if bit key q' then ARight else ALeft else ANode).
    assert (Hgo : (if decide (q' < F)%nat then b ← key_bit key q'; __btrie_next_available (AtNode n) k q' contain (if b : bool then ARight else ALeft)
      else __btrie_next_available (AtNode n) k q' contain ANode) = __btrie_next_available (AtNode n) k q' contain lbl).
    { unfold lbl. case_decide; [|done]. by rewrite key_bit_Some by (done || lia). }
    rewrite Hgo. assert (Hlbl : lbl ≠ AUp) by (unfold lbl; case_decide; [by destruct (bit key q')|done]).
    assert (Hw : walk_at t lbl n k q' contain).
    { split; [done|]. split; [lia|]. unfold lbl. destruct Hba as [Hon' _ _]. case_decide; [|done]. destruct (bit key q'); (split; [done|lia]). }
    pose proof (next_available_run t k lbl n k q' contain Hw ltac:(by split)) as Hrun.
    destruct (avail_todo lbl n k q' contain) as [|y R] eqn:Htodo.
    + destruct Hrun as (k' & ->). by eexists _, _, _.
    + destruct Hrun as (n' & k' & len' & -> & Hy & [Hs _] & Hw' & _). eexists _, _, _. split; [done|]. intros _.
      destruct Hw' as ([_ _ _ Hk' _] & _ & _ & Hl' & _). split; [done|]. split; [congruence|]. split; [done|]. rewrite Hy.
      apply (avail_todo_clear t lbl n k q' contain); [done|lia|done|done|]. rewrite Htodo. by left.
Qed.

End loop.
