(* ===== verification/BtrieProps.v ===== *)
(** The theorems on the binary trie: it refines a list of keys with elements, its
    walks and its loop over available keys are exact, and the count of available
    prefixes is not. *)
From S2P Require Import Prelude Bitops Tlv Btrie BtrieBits BtrieWf BtrieAdd BtrieIns BtrieTrie BtrieIter BtrieWalk BtrieFree BtrieAvail BtrieEach BtrieFirst.

(** ** Deciding the invariant *)

#[global] Instance btrie_eq_dec {E} `{!EqDecision E} : EqDecision (btrie E).
Proof. solve_decision. Defined.

#[global] Instance node_ok_dec b p k : Decision (node_ok b p k).
Proof. unfold node_ok. apply _. Defined.

Section decide.
Context {E : Type} `{!EqDecision E}.

#[global] Instance wf_dec b (t : btrie E) : Decision (wf b t).
Proof. revert b. induction t as [|p k es l IHl r IHr]; intros b; cbn [wf]; apply _. Defined.

#[global] Instance shaped_dec (t : btrie E) : Decision (shaped t).
Proof. induction t as [|p k es l IHl r IHr]; cbn [shaped]; unfold busy; apply _. Defined.

#[global] Instance trie_ok_dec (t : btrie E) : Decision (trie_ok t).
Proof. unfold trie_ok, shaped_below. apply _. Defined.

(** ** Sequences of insertions and removals *)

Inductive trie_op := TAdd (e : E) (key : list Z) (len : nat) | TRemove (e : E).

Definition trie_step (t : btrie E) (op : trie_op) : option (btrie E) :=
  match op with
  | TAdd e key len => btrie_add t e key len
  | TRemove e => btrie_remove t e
  end.

Fixpoint trie_run (t : btrie E) (ops : list trie_op) : option (btrie E) :=
  match ops with
  | [] => Some t
  | op :: ops => t ← trie_step t op; trie_run t ops
  end.

(** The same on a list of keys with their elements. *)
Definition spec_step (l : list (list bool * E)) (op : trie_op) : list (list bool * E) :=
  match op with
  | TAdd e key len => (bits key 0 len, e) :: l
  | TRemove e => filter (fun x => x.2 ≠ e) l
  end.

(** An element is in one node at most, as its list node is part of it. *)
Definition op_ok (l : list (list bool * E)) (op : trie_op) : Prop :=
  match op with
  | TAdd e key len => key_ok key /\ (len <= 8 * length key)%nat /\ e ∉ l.*2
  | TRemove e => e ∈ l.*2
  end.

Fixpoint ops_ok (l : list (list bool * E)) (ops : list trie_op) : Prop :=
  match ops with
  | [] => True
  | op :: ops => op_ok l op /\ ops_ok (spec_step l op) ops
  end.

#[global] Instance ops_ok_dec l ops : Decision (ops_ok l ops).
Proof. revert l. induction ops as [|op ops IH]; intros l; cbn [ops_ok]; [apply _|]. destruct op; cbn [op_ok]; apply _. Defined.

Definition simulates (t : btrie E) (l : list (list bool * E)) : Prop :=
  trie_ok t /\ entries [] t ≡ₚ l /\ NoDup l.*2.

Lemma trie_step_simulates t l op : simulates t l -> op_ok l op ->
  exists t', trie_step t op = Some t' /\ simulates t' (spec_step l op).
Proof.
  intros (Ht & Hl & Hnd) Hop. destruct op as [e key len|e]; cbn [trie_step spec_step op_ok] in *.
  - destruct Hop as (Hk & Hlen & He). destruct (btrie_add_entries t e key len Ht Hk Hlen) as (t' & l1 & l2 & -> & Ht' & E1 & E2).
    exists t'. split; [done|]. split; [done|]. split; [|by constructor].
    rewrite E2, <- Permutation_middle, <- E1. by constructor.
  - destruct (btrie_remove_entries t e Ht) as (t' & -> & Ht' & E2); [by rewrite Hl|by rewrite Hl|].
    exists t'. split; [done|]. split; [done|]. split; [by rewrite E2, Hl|].
    by apply NoDup_fmap_filter.
Qed.

Lemma trie_run_simulates ops t l : simulates t l -> ops_ok l ops ->
  exists t', trie_run t ops = Some t' /\ simulates t' (foldl spec_step l ops).
Proof.
  revert t l. induction ops as [|op ops IH]; intros t l Hsim; [by exists t|]. cbn [ops_ok trie_run foldl]. intros [Hop Hops].
  destruct (trie_step_simulates t l op Hsim Hop) as (t' & -> & Hsim'). by apply IH.
Qed.

(** C16: Every sequence of insertions and removals succeeds, keeps the invariant of the trie,
    and leaves it with exactly the keys and elements a plain list would have. *)
Theorem btrie_refines_entries ops : ops_ok [] ops ->
  exists t, trie_run btrie_init ops = Some t /\ trie_ok t /\ entries [] t ≡ₚ foldl spec_step [] ops.
Proof.
  intros Hops. destruct (trie_run_simulates ops btrie_init []) as (t & Ht & Hok & Hent & _); [|done|by exists t].
  split; [apply btrie_init_ok|]. split; [done|constructor].
Qed.

(** C30: The loops over a trie end and visit exactly the elements whose keys overlap the given
    key, lie below it, or lie above it. *)
Theorem btrie_walks_exact (t : btrie E) key len : trie_ok t -> key_ok key -> (len <= 8 * length key)%nat ->
  btrie_for_each_updown t key len = Some (filter (fun x => overlap (bits key 0 len) x.1) (entries [] t)).*2 /\
  btrie_for_each_down t key len = Some (filter (fun x => bits key 0 len `prefix_of` x.1) (entries [] t)).*2 /\
  exists es, btrie_for_each_up t key len = Some es /\
    es ≡ₚ (filter (fun x => x.1 `prefix_of` bits key 0 len) (entries [] t)).*2.
Proof.
  intros Ht Hk Hlen. split; [by apply btrie_for_each_updown_met|]. split; [by apply btrie_for_each_down_under|].
  by apply btrie_for_each_up_above.
Qed.

(** C22: The loop over the available keys inside a key ends and returns exactly the largest keys
    that overlap no key of the trie: none overlaps an entry, every key that overlaps none is
    inside one of them, none can be made larger, and no two overlap. *)
Theorem btrie_available_exact (t : btrie E) iter_key key len : trie_ok t -> key_ok iter_key -> key_ok key ->
  (len <= 8 * length key)%nat -> (len <= 8 * length iter_key)%nat ->
  (forall x, x ∈ entries [] t -> length x.1 <= 8 * length iter_key)%nat ->
  exists A, btrie_for_each_available t iter_key key len = Some A /\
    available_in (bits key 0 len) (entries [] t).*1 (key_bits <$> A).
Proof.
  intros Ht Hi Hk H1 H2 H3. destruct (btrie_for_each_available_in t iter_key key len Ht Hi Hk H1 H2 H3) as (A & HA & Hav & _). by exists A.
Qed.

End decide.

(** ** Examples *)

(** A trie with the keys 0/8, 128.0/16 and 128.0.0.0.0.255/48. *)
Definition example_ops : list (trie_op (E := nat)) :=
  [TAdd 1%nat [0; 0; 0; 0; 0; 0; 0; 0] 8; TAdd 2%nat [128; 0; 0; 0; 0; 0; 0; 0] 16;
   TAdd 4%nat [128; 0; 0; 0; 0; 0; 0; 0] 20; TAdd 3%nat [128; 0; 0; 0; 0; 255; 0; 0] 48; TRemove 4%nat].

Definition example_trie : btrie nat := default btrie_init (trie_run btrie_init example_ops).

Lemma btrie_refines_entries_witness : exists t, trie_run btrie_init example_ops = Some t /\ trie_ok t /\
  entries [] t ≡ₚ foldl spec_step [] example_ops.
Proof. apply (btrie_refines_entries example_ops). decided. Defined.

Lemma btrie_walks_exact_witness :
  btrie_for_each_updown example_trie [128; 0; 0; 0; 0; 0; 0; 0] 20 = Some [2; 3]%nat /\
  exists es, btrie_for_each_up example_trie [128; 0; 0; 0; 0; 0; 0; 0] 20 = Some es /\ es ≡ₚ [2%nat].
Proof.
  destruct (btrie_walks_exact example_trie [128; 0; 0; 0; 0; 0; 0; 0] 20) as (H1 & _ & H3);
    [decided|decided|decided|]. split; [exact H1|exact H3].
Defined.

Lemma btrie_available_exact_witness : exists A,
  btrie_for_each_available example_trie (replicate 8 255) [128; 0; 0; 0; 0; 0; 0; 0] 1 = Some A /\
  available_in (bits [128; 0; 0; 0; 0; 0; 0; 0] 0 1) (entries [] example_trie).*1 (key_bits <$> A).
Proof.
  apply (btrie_available_exact example_trie (replicate 8 255) [128; 0; 0; 0; 0; 0; 0; 0] 1);
    [decided|decided|decided|decided|decided|].
  apply Forall_forall. decided.
Defined.

(** With 0.0/16 and 128.0/16 in the trie, btrie_available_prefixes_count reports 255 available
    keys of length 8, and there are 254. *)
Theorem available_count_overcounts :
  exists t, trie_run btrie_init [TAdd 1%nat [0; 0; 0; 0] 16; TAdd 2%nat [128; 0; 0; 0] 16] = Some t /\ trie_ok t /\
    btrie_available_prefixes_count t [0; 0; 0; 0] 0 8 = Some 255 /\
    length (filter (fun a => Forall (fun x : list bool * nat => ~ overlap (bits [a; 0; 0; 0] 0 8) x.1) (entries [] t))
             (Z.of_nat <$> seq 0 256)) = 254%nat.
Proof.
  eexists. split; [vm_compute; reflexivity|]. split; [decided|]. split; [vm_compute; reflexivity|vm_compute; reflexivity].
Qed.
