(* ===== verification/PaTrie.v ===== *)
(** The trie as the prefix assignment sees it: an interface with its laws, and the
    binary trie as its implementation. *)
From S2P Require Import Prelude Bitops Tlv Btrie BtrieBits BtrieWf BtrieAdd BtrieIns BtrieTrie BtrieIter BtrieWalk BtrieFree BtrieAvail BtrieEach BtrieFirst BtrieProps.

(** ** The next element from an element *)

(** The elements that follow [e] in the list of its node. *)
Fixpoint following {E} `{!EqDecision E} (e : E) (es : list E) : list E :=
  match es with
  | [] => []
  | x :: es => if decide (x = e) then es else following e es
  end.

(** [btrie_next_updown] on an element of the trie. *)
Definition btrie_next_updown_of {E} `{!EqDecision E} (root : btrie E) (e : E) (key : list Z) (len : nat)
  : option (option E) :=
  n ← element_node e root [];
  r ← btrie_next_updown (n, following e (elements_of n.1)) key len;
  Some (option_map fst r).

Definition btrie_first_updown_of {E} `{!EqDecision E} (root : btrie E) (key : list Z) (len : nat) : option (option E) :=
  r ← btrie_first_updown root key len;
  Some (option_map fst r).

Section next.
Context {E : Type} `{!EqDecision E}.
Implicit Types (t : btrie E) (c : list (bframe E)) (e : E).

Lemma following_app e l1 l2 : e ∉ l1 -> following e (l1 ++ l2) = following e l2.
Proof.
  induction l1 as [|x l1 IH]; intros He; [done|]. cbn [app following]. rewrite decide_False by set_solver. apply IH. set_solver.
Qed.

Lemma following_in e l1 l2 : e ∈ l1 -> following e (l1 ++ l2) = following e l1 ++ l2.
Proof.
  induction l1 as [|x l1 IH]; intros He; [by apply not_elem_of_nil in He|]. cbn [app following].
  case_decide; [done|]. apply IH. apply elem_of_cons in He as [->|He]; [done|exact He].
Qed.

(** After a location, the walk over overlapping keys goes on as the walk down. *)
Lemma ups_after c y : wfc c -> overlap y (path c) ->
  (filter (fun x : list bool * E => overlap y x.1) (after c)).*2 = ups c (length y).
Proof.
  induction c as [|f c IH]; intros Hw Ho; [done|]. cbn [after ups]. pose proof Hw as (Hok & Hws & Hwc).
  pose proof (length_ext _ _ _ Hok) as Hle. pose proof (node_ok_prefix _ _ _ Hok) as Hpre.
  destruct (decide (f_plen f < length y)%nat) as [Hlt|Hge].
  - assert (Hp : path (f :: c) `prefix_of` y).
    { destruct Ho as [Ho|Ho]; [|done]. pose proof (prefix_length _ _ Ho) as Hl. cbn [path] in Hl |- *.
      rewrite length_app, Hle in Hl. cbn [length] in Hl. cbn [path] in Ho.
      rewrite (prefix_length_eq _ _ Ho); [done|]. rewrite length_app, Hle. cbn. lia. }
    change (_ ++ after c) with (after (f :: c)). rewrite filter_none; [done|]. intros x Hx. by apply (after_not_overlap (f :: c)).
  - assert (Hy : y `prefix_of` ext (path c) (f_plen f) (f_key f)).
    { destruct Ho as [Ho|Ho].
      - cbn [path] in Ho. destruct (prefix_total _ _ _ Ho (prefix_app_r _ _ [f_side f] (reflexivity (ext (path c) (f_plen f) (f_key f))))) as [H|H]; [done|].
        pose proof (prefix_length _ _ H) as Hl. rewrite Hle in Hl. by rewrite (prefix_length_eq _ _ H) by lia.
      - exfalso. apply prefix_length in Ho. cbn [path] in Ho. rewrite length_app, Hle in Ho. cbn in Ho. lia. }
    rewrite filter_app, fmap_app, IH; [|done|]. 2:{ by apply (prefix_total _ _ _ Hy). }
    f_equal. destruct (f_side f) eqn:Es; [done|]. cbn [negb] in Hws.
    rewrite all_overlap, entries_flat; [done|done|]. etrans; [exact Hy|]. by eexists.
Qed.

Lemma met_plug t c y : wfl (t, c) -> overlap y (path c) -> exists pre,
  met y [] (plug t c) = pre ++ met y (path c) t ++ ups c (length y) /\ forall e, e ∈ pre -> e ∈ (before c).*2.
Proof.
  intros [_ Hw] Ho. unfold met. rewrite entries_plug, !filter_app, !fmap_app, ups_after by done. eexists. split; [done|].
  intros e (x & -> & Hx)%list_elem_of_fmap. apply list_elem_of_filter in Hx as [_ Hx]. apply list_elem_of_fmap. by exists x.
Qed.

Lemma NoDup_snd_inj (l : list (list bool * E)) x y : NoDup l.*2 -> x ∈ l -> y ∈ l -> x.2 = y.2 -> x = y.
Proof.
  induction l as [|z l IH]; intros Hnd Hx Hy Hxy; [by apply not_elem_of_nil in Hx|].
  cbn [fmap list_fmap] in Hnd. apply NoDup_cons in Hnd as [Hz Hnd].
  assert (Hin : forall w, w ∈ l -> w.2 ∈ l.*2) by (intros w Hw; apply list_elem_of_fmap; by exists w).
  apply elem_of_cons in Hx as [->|Hx], Hy as [->|Hy]; [done| | |by apply IH].
  - destruct Hz. rewrite Hxy. by apply Hin.
  - destruct Hz. rewrite <- Hxy. by apply Hin.
Qed.

Lemma steps_to_head todo (r : option (option (E * pos E))) R : steps_to todo r R ->
  (r ← r; Some (option_map fst r)) = Some (hd_error R).
Proof. destruct R as [|e R]; [by intros ->|]. by intros (p & -> & _). Qed.

Lemma updown_position t e key len (m : loc E) : trie_ok t -> NoDup (entries [] t).*2 -> key_ok key -> (len <= 8 * length key)%nat ->
  e ∈ met (bits key 0 len) [] t -> plug m.1 m.2 = t -> e ∈ elements_of m.1 ->
  updown_todo t key len (m, following e (elements_of m.1)) (following e (met (bits key 0 len) [] t)).
Proof.
  intros (Hne & Hwf & _) Hnd Hk Hlen Hin Hplug Hes. destruct m as [[|p k es l r] c]; [by apply not_elem_of_nil in Hes|].
  cbn [fst snd elements_of] in *. assert (Hwl : wfl (Node p k es l r, c)) by (apply wf_plug; by rewrite Hplug).
  assert (Hok : node_ok (path c) p k) by apply Hwl. set (x := ext (path c) p k) in *. set (y := bits key 0 len) in *.
  assert (Hx : (x, e) ∈ entries [] t).
  { rewrite <- Hplug, entries_plug, !elem_of_app. right; left. cbn [entries]. rewrite elem_of_app. left. apply list_elem_of_fmap. by exists e. }
  assert (Ho : overlap y x).
  { apply list_elem_of_fmap in Hin as (z & -> & Hz). apply list_elem_of_filter in Hz as [Ho Hz].
    by rewrite <- (NoDup_snd_inj _ _ _ Hnd Hx Hz eq_refl) in Ho. }
  pose proof (node_ok_prefix _ _ _ Hok) as Hpx. fold x in Hpx. pose proof (length_ext _ _ _ Hok) as Hlx. fold x in Hlx.
  assert (Hpath : overlap y (path c)) by (destruct Ho; [by apply (prefix_total _ _ x)|right; by etrans]).
  destruct (met_plug (Node p k es l r) c y Hwl Hpath) as (pre & Hmet & Hpre).
  destruct (met_node y (path c) p k es l r ltac:(apply Hwl)) as [Hnode _]. fold x in Hnode. rewrite Hnode in Hmet by done.
  assert (Hepre : e ∉ pre).
  { intros He%Hpre. rewrite <- Hplug, entries_plug, !fmap_app in Hnd. apply NoDup_app in Hnd as (_ & Hd & _).
    apply (Hd e He). rewrite elem_of_app. left. cbn [entries]. rewrite !fmap_app, elem_of_app. left.
    apply list_elem_of_fmap. exists (x, e). split; [done|]. apply list_elem_of_fmap. by exists e. }
  rewrite Hplug in Hmet. rewrite Hmet, following_app, <- !app_assoc, following_in by done.
  pose proof Hwl as [(_ & Hl & Hr) _]. cbn [snd] in Hl, Hr. fold x in Hl, Hr.
  destruct (decide (len <= p)%nat) as [Hlp|Hlp].
  - assert (Hyx : y `prefix_of` x).
    { destruct Ho as [Ho|Ho]; [done|]. pose proof (prefix_length _ _ Ho) as H. unfold y in H. rewrite length_bits, Hlx in H.
      rewrite (prefix_length_eq _ _ Ho); [done|]. unfold y. rewrite length_bits. lia. }
    right. split; [by split; [done|]; split; [done|]; split|]. unfold down_todo. cbn [fst snd child].
    assert (Hside : forall s, y `prefix_of` x ++ [s]) by (intros s; etrans; [exact Hyx|by eexists]).
    rewrite (met_below y _ l), (met_below y _ r) by done. unfold y. by rewrite length_bits, !app_assoc.
  - assert (Hxy : x `prefix_of` y).
    { destruct Ho as [Ho|Ho]; [|done]. apply prefix_length in Ho. unfold y in Ho. rewrite length_bits, Hlx in Ho. lia. }
    assert (Hbits : x = bits key 0 p) by (rewrite <- Hlx; by eapply prefix_bits).
    left. split.
    + split; [done|]. split; [done|]. eexists p, k, es, l, r. split; [done|]. split; [lia|done].
    + cbn [fst snd plen_of]. f_equal. rewrite <- Hbits.
      assert (Hs : x ++ [bit key p] `prefix_of` y) by (rewrite Hbits, <- bits_snoc; apply bits_prefix; lia).
      assert (Hups : ups c (length y) = []).
      { destruct c as [|f c]; [done|]. cbn [ups]. rewrite decide_True; [done|]. unfold y. rewrite length_bits.
        assert (Hokf : node_ok (path c) (f_plen f) (f_key f)) by apply Hwl. apply length_ext in Hokf.
        apply prefix_length in Hpx. cbn [path] in Hpx. rewrite length_app, Hokf, Hlx in Hpx. cbn in Hpx. lia. }
      rewrite Hups, app_nil_r. destruct (bit key p); cbn [child].
      * by rewrite (met_off _ _ l true).
      * by rewrite (met_off _ _ r false), app_nil_r.
Qed.

Lemma btrie_next_updown_of_spec t e key len : trie_ok t -> NoDup (entries [] t).*2 -> key_ok key -> (len <= 8 * length key)%nat ->
  e ∈ met (bits key 0 len) [] t ->
  btrie_next_updown_of t e key len = Some (hd_error (following e (met (bits key 0 len) [] t))).
Proof.
  intros Ht Hnd Hk Hlen Hin. unfold btrie_next_updown_of.
  assert (He : e ∈ (entries [] t).*2).
  { apply list_elem_of_fmap in Hin as (z & -> & [_ Hz]%list_elem_of_filter). apply list_elem_of_fmap. by exists z. }
  destruct (element_node_found e t [] He) as [m Hm]. rewrite Hm. cbn [mbind option_bind].
  destruct (element_node_sound _ _ _ _ Hm) as (p & k & es & l & r & Hplug & Hm1 & Hes). cbn [plug] in Hplug.
  eapply steps_to_head, btrie_next_updown_todo; [done|done|].
  apply updown_position; try done. by rewrite Hm1.
Qed.

(** The first key of [btrie_for_each_available_loop_stop]. *)
Definition btrie_first_available_of t (iter_key key : list Z) (contain_len first_len : nat) : option (option (list Z * nat)) :=
  '(n, k, len) ← btrie_first_available_loop t iter_key key contain_len first_len;
  Some (match n with Some _ => Some (k, len) | None => None end).

Lemma btrie_first_updown_of_spec t key len : trie_ok t -> key_ok key -> (len <= 8 * length key)%nat ->
  btrie_first_updown_of t key len = Some (hd_error (met (bits key 0 len) [] t)).
Proof.
  intros Ht Hk Hlen. unfold btrie_first_updown_of, btrie_first_updown. eapply steps_to_head, btrie_next_updown_todo; [done|done|].
  by apply updown_first.
Qed.

End next.

(** ** The interface *)

(** What the prefix assignment uses of the trie, and the list it stands for. *)
Class PrefixTrie (E : Type) := {
  ptrie : Type;
  pt_init : ptrie;
  pt_add : ptrie -> E -> list Z -> nat -> option ptrie;
  pt_remove : ptrie -> E -> option ptrie;
  pt_for_each_updown : ptrie -> list Z -> nat -> option (list E);
  pt_for_each_down : ptrie -> list Z -> nat -> option (list E);
  pt_first_updown : ptrie -> list Z -> nat -> option (option E);
  pt_next_updown : ptrie -> E -> list Z -> nat -> option (option E);
  pt_for_each_available : ptrie -> list Z -> list Z -> nat -> option (list (list Z * nat));
  pt_first_available_loop : ptrie -> list Z -> list Z -> nat -> nat -> option (option (list Z * nat));
  pt_entries : ptrie -> list (list bool * E);
  pt_ok : ptrie -> Prop
}.

(** The elements whose keys overlap a key, in the order of the entries. *)
Definition pt_met {E} `{!PrefixTrie E} (t : ptrie) (key : list Z) (len : nat) : list E :=
  (filter (fun x => overlap (bits key 0 len) x.1) (pt_entries t)).*2.

Class PrefixTrieOk (E : Type) `{!EqDecision E, !PrefixTrie E} : Prop := {
  pt_init_ok : pt_ok pt_init /\ pt_entries pt_init = [];
  pt_unique : forall t, pt_ok t -> NoDup (pt_entries t).*2;
  pt_add_ok : forall t e key n, pt_ok t -> key_ok key -> (n <= 8 * length key)%nat -> e ∉ (pt_entries t).*2 ->
    exists t' l1 l2, pt_add t e key n = Some t' /\ pt_ok t' /\
      pt_entries t = l1 ++ l2 /\ pt_entries t' = l1 ++ (bits key 0 n, e) :: l2;
  pt_remove_ok : forall t e, pt_ok t -> e ∈ (pt_entries t).*2 ->
    exists t', pt_remove t e = Some t' /\ pt_ok t' /\ pt_entries t' = filter (fun x => x.2 ≠ e) (pt_entries t);
  pt_for_each_updown_ok : forall t key n, pt_ok t -> key_ok key -> (n <= 8 * length key)%nat ->
    pt_for_each_updown t key n = Some (pt_met t key n);
  pt_for_each_down_ok : forall t key n, pt_ok t -> key_ok key -> (n <= 8 * length key)%nat ->
    pt_for_each_down t key n = Some (filter (fun x => bits key 0 n `prefix_of` x.1) (pt_entries t)).*2;
  pt_first_updown_ok : forall t key n, pt_ok t -> key_ok key -> (n <= 8 * length key)%nat ->
    pt_first_updown t key n = Some (hd_error (pt_met t key n));
  pt_next_updown_ok : forall t e key n, pt_ok t -> key_ok key -> (n <= 8 * length key)%nat -> e ∈ pt_met t key n ->
    pt_next_updown t e key n = Some (hd_error (following e (pt_met t key n)));
  pt_for_each_available_ok : forall t iter_key key n, pt_ok t -> key_ok iter_key -> key_ok key ->
    (n <= 8 * length key)%nat -> (n <= 8 * length iter_key)%nat ->
    (forall x, x ∈ pt_entries t -> length x.1 <= 8 * length iter_key)%nat ->
    exists A, pt_for_each_available t iter_key key n = Some A /\
      available_in (bits key 0 n) (pt_entries t).*1 (key_bits <$> A) /\ keys_like iter_key A;
  pt_first_available_loop_ok : forall t iter_key key n m, pt_ok t -> key_ok iter_key -> key_ok key ->
    (n <= 8 * length key)%nat -> (n <= 8 * length iter_key)%nat -> (m <= 8 * length key)%nat -> (m <= 8 * length iter_key)%nat ->
    (forall x, x ∈ pt_entries t -> length x.1 <= 8 * length iter_key)%nat ->
    exists r, pt_first_available_loop t iter_key key n m = Some r /\ forall k len, r = Some (k, len) ->
      key_ok k /\ length k = length iter_key /\ (len <= 8 * length k)%nat /\ forall x, x ∈ pt_entries t -> ~ overlap (bits k 0 len) x.1
}.

(** ** The binary trie implements it *)

#[global] Instance btrie_prefix_trie (E : Type) `{!EqDecision E} : PrefixTrie E := {|
  ptrie := btrie E;
  pt_init := btrie_init;
  pt_add := btrie_add;
  pt_remove := btrie_remove;
  pt_for_each_updown := btrie_for_each_updown;
  pt_for_each_down := btrie_for_each_down;
  pt_first_updown := btrie_first_updown_of;
  pt_next_updown := btrie_next_updown_of;
  pt_for_each_available := btrie_for_each_available;
  pt_first_available_loop := btrie_first_available_of;
  pt_entries := entries [];
  pt_ok := fun t => trie_ok t /\ NoDup (entries [] t).*2
|}.

#[global] Instance btrie_prefix_trie_ok (E : Type) `{!EqDecision E} : PrefixTrieOk E.
Proof.
  split.
  - split; [split; [apply btrie_init_ok|constructor]|done].
  - intros t [_ H]. exact H.
  - intros t e key n [Ht Hnd] Hk Hn He. destruct (btrie_add_entries t e key n Ht Hk Hn) as (t' & l1 & l2 & H & Ht' & E1 & E2).
    exists t', l1, l2. split; [done|]. split; [|done]. split; [done|]. cbn [pt_entries btrie_prefix_trie] in *.
    rewrite E1 in Hnd, He. rewrite E2. rewrite fmap_app in *. cbn [fmap list_fmap].
    rewrite <- Permutation_middle. by apply NoDup_cons.
  - intros t e [Ht Hnd] He. destruct (btrie_remove_entries t e Ht Hnd He) as (t' & H & Ht' & E2). exists t'. split; [done|].
    split; [|done]. split; [done|]. cbn [pt_entries btrie_prefix_trie]. rewrite E2. by apply NoDup_fmap_filter.
  - intros t key n [Ht _] Hk Hn. by apply btrie_for_each_updown_met.
  - intros t key n [Ht _] Hk Hn. by apply btrie_for_each_down_under.
  - intros t key n [Ht _] Hk Hn. by apply btrie_first_updown_of_spec.
  - intros t e key n [Ht Hnd] Hk Hn He. by apply btrie_next_updown_of_spec.
  - intros t iter_key key n [Ht _]. by apply btrie_for_each_available_in.
  - intros t iter_key key n m [Ht _] Hi Hk H1 H2 H3 H4 Hx. cbn [pt_first_available_loop btrie_prefix_trie]. unfold btrie_first_available_of.
    destruct (first_available_loop_clear t iter_key key n m Ht Hi Hk H1 H2 H3 H4 Hx) as (r & k & len & -> & Hr). cbn [mbind option_bind].
    eexists. split; [done|]. intros k' len'. destruct r as [a|]; [|done]. intros [= <- <-]. by apply Hr.
Qed.
