(* ===== verification/PaCore.v ===== *)
(** The prefix assignment: the model of [src/pa_core.c] and of the structures of
    [src/pa_core.h].

    Links, delegated prefixes, pairs of both and advertised prefixes are records in
    lists of the core, and pointers to them are their identifiers.  The list of
    pairs of a link or of a delegated prefix is the list of all pairs, in the order
    of their creation, restricted to it.  A timer is the time at which it fires.
    The callbacks of users are recorded in a log with the pair as it is when they
    are made.  Rules, and the numbers that [random] returns, are parameters. *)
From S2P Require Import Prelude Bitops Tlv PaTrie.

(** ** Structures *)

(** [struct pa_pentry]: the container of an element of the trie. *)
Inductive pentry := PAT_ASSIGNED (ldp : nat) | PAT_ADVERTISED (advp : nat).

#[global] Instance pentry_eq_dec : EqDecision pentry.
Proof. solve_decision. Defined.

(** [struct pa_link]; the list of its pairs is in the core. *)
Record pa_link := mk_pa_link {
  link_id : nat;
  link_type : Z;
  link_ha_parent : option nat  (** the link of the parent core *)
}.

Definition set_link_id (v : nat) (x : pa_link) : pa_link := mk_pa_link v (link_type x) (link_ha_parent x).
Definition set_link_type (v : Z) (x : pa_link) : pa_link := mk_pa_link (link_id x) v (link_ha_parent x).
Definition set_link_ha_parent (v : option nat) (x : pa_link) : pa_link := mk_pa_link (link_id x) (link_type x) v.

(** [struct pa_dp]. *)
Record pa_dp := mk_pa_dp {
  dp_id : nat;
  dp_prefix : list Z;
  dp_plen : nat;
  dp_type : Z;
  dp_ha_ldp : option (nat * nat)  (** a pair of the parent core, and its link *)
}.

Definition set_dp_id (v : nat) (x : pa_dp) : pa_dp := mk_pa_dp v (dp_prefix x) (dp_plen x) (dp_type x) (dp_ha_ldp x).
Definition set_dp_prefix (v : list Z) (x : pa_dp) : pa_dp := mk_pa_dp (dp_id x) v (dp_plen x) (dp_type x) (dp_ha_ldp x).
Definition set_dp_plen (v : nat) (x : pa_dp) : pa_dp := mk_pa_dp (dp_id x) (dp_prefix x) v (dp_type x) (dp_ha_ldp x).
Definition set_dp_type (v : Z) (x : pa_dp) : pa_dp := mk_pa_dp (dp_id x) (dp_prefix x) (dp_plen x) v (dp_ha_ldp x).
Definition set_dp_ha_ldp (v : option (nat * nat)) (x : pa_dp) : pa_dp := mk_pa_dp (dp_id x) (dp_prefix x) (dp_plen x) (dp_type x) v.

(** [struct pa_advp]. *)
Record pa_advp := mk_pa_advp {
  advp_id : nat;
  advp_node_id : Z;
  advp_prefix : list Z;
  advp_plen : nat;
  advp_priority : Z;
  advp_link : option nat
}.

Definition set_advp_id (v : nat) (x : pa_advp) : pa_advp := mk_pa_advp v (advp_node_id x) (advp_prefix x) (advp_plen x) (advp_priority x) (advp_link x).
Definition set_advp_node_id (v : Z) (x : pa_advp) : pa_advp := mk_pa_advp (advp_id x) v (advp_prefix x) (advp_plen x) (advp_priority x) (advp_link x).
Definition set_advp_prefix (v : list Z) (x : pa_advp) : pa_advp := mk_pa_advp (advp_id x) (advp_node_id x) v (advp_plen x) (advp_priority x) (advp_link x).
Definition set_advp_plen (v : nat) (x : pa_advp) : pa_advp := mk_pa_advp (advp_id x) (advp_node_id x) (advp_prefix x) v (advp_priority x) (advp_link x).
Definition set_advp_priority (v : Z) (x : pa_advp) : pa_advp := mk_pa_advp (advp_id x) (advp_node_id x) (advp_prefix x) (advp_plen x) v (advp_link x).
Definition set_advp_link (v : option nat) (x : pa_advp) : pa_advp := mk_pa_advp (advp_id x) (advp_node_id x) (advp_prefix x) (advp_plen x) (advp_priority x) v.

(** [struct pa_ldp]. *)
Record pa_ldp := mk_pa_ldp {
  ldp_id : nat;
  ldp_link : nat;
  ldp_dp : nat;
  assigned : bool;
  published : bool;
  applied : bool;
  adopting : bool;
  backoff : bool;
  ha_apply_pending : bool;
  ldp_prefix : list Z;
  ldp_plen : nat;
  ldp_priority : Z;
  rule_priority : Z;
  ldp_rule : option nat;
  routine_to : option Z;  (** when it fires, if pending *)
  backoff_to : option Z;
  best_assignment : option pa_advp
}.

Definition set_ldp_id (v : nat) (x : pa_ldp) : pa_ldp := mk_pa_ldp v (ldp_link x) (ldp_dp x) (assigned x) (published x) (applied x) (adopting x) (backoff x) (ha_apply_pending x) (ldp_prefix x) (ldp_plen x) (ldp_priority x) (rule_priority x) (ldp_rule x) (routine_to x) (backoff_to x) (best_assignment x).
Definition set_ldp_link (v : nat) (x : pa_ldp) : pa_ldp := mk_pa_ldp (ldp_id x) v (ldp_dp x) (assigned x) (published x) (applied x) (adopting x) (backoff x) (ha_apply_pending x) (ldp_prefix x) (ldp_plen x) (ldp_priority x) (rule_priority x) (ldp_rule x) (routine_to x) (backoff_to x) (best_assignment x).
Definition set_ldp_dp (v : nat) (x : pa_ldp) : pa_ldp := mk_pa_ldp (ldp_id x) (ldp_link x) v (assigned x) (published x) (applied x) (adopting x) (backoff x) (ha_apply_pending x) (ldp_prefix x) (ldp_plen x) (ldp_priority x) (rule_priority x) (ldp_rule x) (routine_to x) (backoff_to x) (best_assignment x).
Definition set_assigned (v : bool) (x : pa_ldp) : pa_ldp := mk_pa_ldp (ldp_id x) (ldp_link x) (ldp_dp x) v (published x) (applied x) (adopting x) (backoff x) (ha_apply_pending x) (ldp_prefix x) (ldp_plen x) (ldp_priority x) (rule_priority x) (ldp_rule x) (routine_to x) (backoff_to x) (best_assignment x).
Definition set_published (v : bool) (x : pa_ldp) : pa_ldp := mk_pa_ldp (ldp_id x) (ldp_link x) (ldp_dp x) (assigned x) v (applied x) (adopting x) (backoff x) (ha_apply_pending x) (ldp_prefix x) (ldp_plen x) (ldp_priority x) (rule_priority x) (ldp_rule x) (routine_to x) (backoff_to x) (best_assignment x).
Definition set_applied (v : bool) (x : pa_ldp) : pa_ldp := mk_pa_ldp (ldp_id x) (ldp_link x) (ldp_dp x) (assigned x) (published x) v (adopting x) (backoff x) (ha_apply_pending x) (ldp_prefix x) (ldp_plen x) (ldp_priority x) (rule_priority x) (ldp_rule x) (routine_to x) (backoff_to x) (best_assignment x).
Definition set_adopting (v : bool) (x : pa_ldp) : pa_ldp := mk_pa_ldp (ldp_id x) (ldp_link x) (ldp_dp x) (assigned x) (published x) (applied x) v (backoff x) (ha_apply_pending x) (ldp_prefix x) (ldp_plen x) (ldp_priority x) (rule_priority x) (ldp_rule x) (routine_to x) (backoff_to x) (best_assignment x).
Definition set_backoff (v : bool) (x : pa_ldp) : pa_ldp := mk_pa_ldp (ldp_id x) (ldp_link x) (ldp_dp x) (assigned x) (published x) (applied x) (adopting x) v (ha_apply_pending x) (ldp_prefix x) (ldp_plen x) (ldp_priority x) (rule_priority x) (ldp_rule x) (routine_to x) (backoff_to x) (best_assignment x).
Definition set_ha_apply_pending (v : bool) (x : pa_ldp) : pa_ldp := mk_pa_ldp (ldp_id x) (ldp_link x) (ldp_dp x) (assigned x) (published x) (applied x) (adopting x) (backoff x) v (ldp_prefix x) (ldp_plen x) (ldp_priority x) (rule_priority x) (ldp_rule x) (routine_to x) (backoff_to x) (best_assignment x).
Definition set_ldp_prefix (v : list Z) (x : pa_ldp) : pa_ldp := mk_pa_ldp (ldp_id x) (ldp_link x) (ldp_dp x) (assigned x) (published x) (applied x) (adopting x) (backoff x) (ha_apply_pending x) v (ldp_plen x) (ldp_priority x) (rule_priority x) (ldp_rule x) (routine_to x) (backoff_to x) (best_assignment x).
Definition set_ldp_plen (v : nat) (x : pa_ldp) : pa_ldp := mk_pa_ldp (ldp_id x) (ldp_link x) (ldp_dp x) (assigned x) (published x) (applied x) (adopting x) (backoff x) (ha_apply_pending x) (ldp_prefix x) v (ldp_priority x) (rule_priority x) (ldp_rule x) (routine_to x) (backoff_to x) (best_assignment x).
Definition set_ldp_priority (v : Z) (x : pa_ldp) : pa_ldp := mk_pa_ldp (ldp_id x) (ldp_link x) (ldp_dp x) (assigned x) (published x) (applied x) (adopting x) (backoff x) (ha_apply_pending x) (ldp_prefix x) (ldp_plen x) v (rule_priority x) (ldp_rule x) (routine_to x) (backoff_to x) (best_assignment x).
Definition set_rule_priority (v : Z) (x : pa_ldp) : pa_ldp := mk_pa_ldp (ldp_id x) (ldp_link x) (ldp_dp x) (assigned x) (published x) (applied x) (adopting x) (backoff x) (ha_apply_pending x) (ldp_prefix x) (ldp_plen x) (ldp_priority x) v (ldp_rule x) (routine_to x) (backoff_to x) (best_assignment x).
Definition set_ldp_rule (v : option nat) (x : pa_ldp) : pa_ldp := mk_pa_ldp (ldp_id x) (ldp_link x) (ldp_dp x) (assigned x) (published x) (applied x) (adopting x) (backoff x) (ha_apply_pending x) (ldp_prefix x) (ldp_plen x) (ldp_priority x) (rule_priority x) v (routine_to x) (backoff_to x) (best_assignment x).
Definition set_routine_to (v : option Z) (x : pa_ldp) : pa_ldp := mk_pa_ldp (ldp_id x) (ldp_link x) (ldp_dp x) (assigned x) (published x) (applied x) (adopting x) (backoff x) (ha_apply_pending x) (ldp_prefix x) (ldp_plen x) (ldp_priority x) (rule_priority x) (ldp_rule x) v (backoff_to x) (best_assignment x).
Definition set_backoff_to (v : option Z) (x : pa_ldp) : pa_ldp := mk_pa_ldp (ldp_id x) (ldp_link x) (ldp_dp x) (assigned x) (published x) (applied x) (adopting x) (backoff x) (ha_apply_pending x) (ldp_prefix x) (ldp_plen x) (ldp_priority x) (rule_priority x) (ldp_rule x) (routine_to x) v (best_assignment x).
Definition set_best_assignment (v : option pa_advp) (x : pa_ldp) : pa_ldp := mk_pa_ldp (ldp_id x) (ldp_link x) (ldp_dp x) (assigned x) (published x) (applied x) (adopting x) (backoff x) (ha_apply_pending x) (ldp_prefix x) (ldp_plen x) (ldp_priority x) (rule_priority x) (ldp_rule x) (routine_to x) (backoff_to x) v.

(** [struct pa_user]. *)
Record pa_user := mk_pa_user {
  user_id : nat;
  on_assigned : bool;  (** whether the callback is set *)
  on_published : bool;
  on_applied : bool
}.

Definition set_user_id (v : nat) (x : pa_user) : pa_user := mk_pa_user v (on_assigned x) (on_published x) (on_applied x).
Definition set_on_assigned (v : bool) (x : pa_user) : pa_user := mk_pa_user (user_id x) v (on_published x) (on_applied x).
Definition set_on_published (v : bool) (x : pa_user) : pa_user := mk_pa_user (user_id x) (on_assigned x) v (on_applied x).
Definition set_on_applied (v : bool) (x : pa_user) : pa_user := mk_pa_user (user_id x) (on_assigned x) (on_published x) v.
(** The callbacks of a user. *)
Inductive pa_callback := CbAssigned | CbPublished | CbApplied.

(** A callback of a user, with the pair at that time. *)
Inductive pa_event := UserCalled (user : nat) (cb : pa_callback) (ldp : pa_ldp).

(** [enum pa_rule_target]. *)
Inductive pa_rule_target :=
  PA_RULE_NO_MATCH | PA_RULE_ADOPT | PA_RULE_BACKOFF | PA_RULE_PUBLISH | PA_RULE_DESTROY.

#[global] Instance pa_rule_target_eq_dec : EqDecision pa_rule_target.
Proof. solve_decision. Defined.

(** [struct pa_rule_arg] on the stack of the routine: what no rule has written is
    not initialised. *)
Record pa_rule_arg := mk_pa_rule_arg {
  arg_rule_priority : option Z;
  arg_prefix : option (list Z * nat);
  arg_priority : option Z
}.

(** ** Prefixes *)

(** [pa_prefix_cpy]: the bits after the prefix stay as they are. *)
Definition pa_prefix_cpy (sp : list Z) (splen : nat) (dp : list Z) : option (list Z) := bmemcpy dp 0 sp 0 0 splen.

Definition pa_prefix_contains (p1 : list Z) (plen1 : nat) (p2 : list Z) : option bool :=
  c ← bmemcmp p1 0 p2 0 plen1;
  Some (bool_decide (c = 0)).

Definition pa_prefix_equals (p1 : list Z) (l1 : nat) (p2 : list Z) (l2 : nat) : option bool :=
  if decide (l1 = l2) then pa_prefix_contains p1 l1 p2 else Some false.

Definition pa_prefix_overlap (p1 : list Z) (plen1 : nat) (p2 : list Z) (plen2 : nat) : option bool :=
  if decide (plen2 < plen1)%nat then pa_prefix_contains p2 plen2 p1 else pa_prefix_contains p1 plen1 p2.

Definition PA_DEFAULT_FLOODING_DELAY : Z := 10000.
Definition PA_ADOPT_DELAY_DEFAULT : Z := 2000.
Definition PA_BACKOFF_DELAY_DEFAULT : Z := 20000.
Definition PA_RUN_DELAY : Z := 20.

Section core.
Context `{!PrefixTrie pentry}.

(** [struct pa_core], with the pairs and advertised prefixes its lists and its trie
    point to, the clock, the random numbers taken and the callbacks made. *)
Record pa_core := mk_pa_core {
  prefixes : ptrie;
  core_node_id : Z;
  flooding_delay : Z;
  adopt_delay : Z;
  backoff_delay : Z;
  users : list pa_user;
  links : list pa_link;
  dps : list pa_dp;
  core_rules : list nat;
  ldps : list pa_ldp;  (** in the order of their creation *)
  advps : list pa_advp;
  next_ldp : nat;
  pa_now : Z;
  pa_randoms : nat;
  pa_log : list pa_event
}.

Definition set_prefixes (v : ptrie) (x : pa_core) : pa_core := mk_pa_core v (core_node_id x) (flooding_delay x) (adopt_delay x) (backoff_delay x) (users x) (links x) (dps x) (core_rules x) (ldps x) (advps x) (next_ldp x) (pa_now x) (pa_randoms x) (pa_log x).
Definition set_core_node_id (v : Z) (x : pa_core) : pa_core := mk_pa_core (prefixes x) v (flooding_delay x) (adopt_delay x) (backoff_delay x) (users x) (links x) (dps x) (core_rules x) (ldps x) (advps x) (next_ldp x) (pa_now x) (pa_randoms x) (pa_log x).
Definition set_flooding_delay (v : Z) (x : pa_core) : pa_core := mk_pa_core (prefixes x) (core_node_id x) v (adopt_delay x) (backoff_delay x) (users x) (links x) (dps x) (core_rules x) (ldps x) (advps x) (next_ldp x) (pa_now x) (pa_randoms x) (pa_log x).
Definition set_adopt_delay (v : Z) (x : pa_core) : pa_core := mk_pa_core (prefixes x) (core_node_id x) (flooding_delay x) v (backoff_delay x) (users x) (links x) (dps x) (core_rules x) (ldps x) (advps x) (next_ldp x) (pa_now x) (pa_randoms x) (pa_log x).
Definition set_backoff_delay (v : Z) (x : pa_core) : pa_core := mk_pa_core (prefixes x) (core_node_id x) (flooding_delay x) (adopt_delay x) v (users x) (links x) (dps x) (core_rules x) (ldps x) (advps x) (next_ldp x) (pa_now x) (pa_randoms x) (pa_log x).
Definition set_users (v : list pa_user) (x : pa_core) : pa_core := mk_pa_core (prefixes x) (core_node_id x) (flooding_delay x) (adopt_delay x) (backoff_delay x) v (links x) (dps x) (core_rules x) (ldps x) (advps x) (next_ldp x) (pa_now x) (pa_randoms x) (pa_log x).
Definition set_links (v : list pa_link) (x : pa_core) : pa_core := mk_pa_core (prefixes x) (core_node_id x) (flooding_delay x) (adopt_delay x) (backoff_delay x) (users x) v (dps x) (core_rules x) (ldps x) (advps x) (next_ldp x) (pa_now x) (pa_randoms x) (pa_log x).
Definition set_dps (v : list pa_dp) (x : pa_core) : pa_core := mk_pa_core (prefixes x) (core_node_id x) (flooding_delay x) (adopt_delay x) (backoff_delay x) (users x) (links x) v (core_rules x) (ldps x) (advps x) (next_ldp x) (pa_now x) (pa_randoms x) (pa_log x).
Definition set_core_rules (v : list nat) (x : pa_core) : pa_core := mk_pa_core (prefixes x) (core_node_id x) (flooding_delay x) (adopt_delay x) (backoff_delay x) (users x) (links x) (dps x) v (ldps x) (advps x) (next_ldp x) (pa_now x) (pa_randoms x) (pa_log x).
Definition set_ldps (v : list pa_ldp) (x : pa_core) : pa_core := mk_pa_core (prefixes x) (core_node_id x) (flooding_delay x) (adopt_delay x) (backoff_delay x) (users x) (links x) (dps x) (core_rules x) v (advps x) (next_ldp x) (pa_now x) (pa_randoms x) (pa_log x).
Definition set_advps (v : list pa_advp) (x : pa_core) : pa_core := mk_pa_core (prefixes x) (core_node_id x) (flooding_delay x) (adopt_delay x) (backoff_delay x) (users x) (links x) (dps x) (core_rules x) (ldps x) v (next_ldp x) (pa_now x) (pa_randoms x) (pa_log x).
Definition set_next_ldp (v : nat) (x : pa_core) : pa_core := mk_pa_core (prefixes x) (core_node_id x) (flooding_delay x) (adopt_delay x) (backoff_delay x) (users x) (links x) (dps x) (core_rules x) (ldps x) (advps x) v (pa_now x) (pa_randoms x) (pa_log x).
Definition set_pa_now (v : Z) (x : pa_core) : pa_core := mk_pa_core (prefixes x) (core_node_id x) (flooding_delay x) (adopt_delay x) (backoff_delay x) (users x) (links x) (dps x) (core_rules x) (ldps x) (advps x) (next_ldp x) v (pa_randoms x) (pa_log x).
Definition set_pa_randoms (v : nat) (x : pa_core) : pa_core := mk_pa_core (prefixes x) (core_node_id x) (flooding_delay x) (adopt_delay x) (backoff_delay x) (users x) (links x) (dps x) (core_rules x) (ldps x) (advps x) (next_ldp x) (pa_now x) v (pa_log x).
Definition set_pa_log (v : list pa_event) (x : pa_core) : pa_core := mk_pa_core (prefixes x) (core_node_id x) (flooding_delay x) (adopt_delay x) (backoff_delay x) (users x) (links x) (dps x) (core_rules x) (ldps x) (advps x) (next_ldp x) (pa_now x) (pa_randoms x) v.
(** Rules by number: [filter_accept], [get_max_priority] or [max_priority], and
    [match], which may write to the argument and take random numbers; the numbers
    [random] returns; and whether a pair of the parent core is applied. *)
Class PaExt := {
  pa_rand : nat -> Z;
  filter_accept : nat -> pa_core -> pa_ldp -> option bool;
  get_max_priority : nat -> pa_core -> pa_ldp -> option Z;
  rule_match : nat -> pa_core -> pa_ldp -> Z -> pa_rule_arg -> option (pa_rule_target * pa_rule_arg * nat);
  ha_applied : nat -> bool
}.

Context `{!PaExt}.

Implicit Types (o : pa_core) (l : nat).

(** ** Access *)

Definition get_ldp o l : option pa_ldp := snd <$> list_find (fun p => ldp_id p = l) (ldps o).
Definition get_dp o (d : nat) : option pa_dp := snd <$> list_find (fun p => dp_id p = d) (dps o).
Definition get_advp o (a : nat) : option pa_advp := snd <$> list_find (fun p => advp_id p = a) (advps o).

Definition upd_ldp l (f : pa_ldp -> pa_ldp) o : pa_core :=
  set_ldps ((fun p => if decide (ldp_id p = l) then f p else p) <$> ldps o) o.

(** [pa_for_each_ldp_in_dp] and [pa_for_each_ldp_in_link]. *)
Definition ldps_in_dp o (d : nat) : list nat := ldp_id <$> filter (fun p => ldp_dp p = d) (ldps o).
Definition ldps_in_link o (k : nat) : list nat := ldp_id <$> filter (fun p => ldp_link p = k) (ldps o).

(** Every pair, link by link. *)
Definition ldps_by_link o : list nat := flat_map (fun k => ldps_in_link o (link_id k)) (links o).

(** [uloop_timeout_set]: the argument is an [int]. *)
Definition timeout_at o (msecs : Z) : option Z := Some (pa_now o + i32 msecs).

(** [pa_rand() % m]. *)
Definition pa_rand_mod o (m : Z) : option (pa_core * Z) :=
  if decide (m = 0) then None
  else Some (set_pa_randoms (pa_randoms o + 1)%nat o, Z.rem (pa_rand (pa_randoms o)) m).

Definition PA_ADOPT_DELAY_r o : option (pa_core * Z) := pa_rand_mod o (adopt_delay o).

Definition PA_BACKOFF_DELAY_r o : option (pa_core * Z) :=
  '(o, r) ← pa_rand_mod o (u32 (backoff_delay o - adopt_delay o));
  Some (o, adopt_delay o + r).

Definition wants (cb : pa_callback) (u : pa_user) : bool :=
  match cb with CbAssigned => on_assigned u | CbPublished => on_published u | CbApplied => on_applied u end.

Definition pa_user_notify l (cb : pa_callback) o : option pa_core :=
  p ← get_ldp o l;
  Some (set_pa_log (pa_log o ++ ((fun u => UserCalled (user_id u) cb p) <$> filter (fun u => wants cb u = true) (users o))) o).

Definition pa_routine_schedule l o : pa_core :=
  upd_ldp l (fun p => if decide (routine_to p = None) then set_routine_to (timeout_at o PA_RUN_DELAY) p else p) o.

(** ** States of a pair *)

Definition pa_ldp_apply l o : option pa_core :=
  p ← get_ldp o l;
  if applied p then Some o
  else
    d ← get_dp o (ldp_dp p);
    if match dp_ha_ldp d with Some (h, _) => negb (ha_applied h) | None => false end
    then Some (upd_ldp l (set_ha_apply_pending true) o)
    else pa_user_notify l CbApplied (upd_ldp l (fun p => set_ha_apply_pending false (set_applied true p)) o).

Definition clear_rule (p : pa_ldp) : pa_ldp := set_rule_priority 0 (set_ldp_priority 0 (set_ldp_rule None p)).

Definition pa_ldp_unpublish l (cancel_apply : bool) o : option pa_core :=
  p ← get_ldp o l;
  if negb (published p) then Some o
  else
    let o := upd_ldp l clear_rule o in
    let o := if cancel_apply then upd_ldp l (set_backoff_to None) o else o in
    let o := upd_ldp l (set_published false) o in
    pa_user_notify l CbPublished o.

Definition pa_ldp_unadopt l o : option pa_core :=
  p ← get_ldp o l;
  if negb (adopting p) then Some o
  else
    let o := upd_ldp l (fun p => set_adopting false (clear_rule p)) o in
    Some (if applied p then o else upd_ldp l (set_backoff_to (timeout_at o (u32 (flooding_delay o * 2)))) o).

Definition set_rule (r : option nat) (prio rule_prio : Z) (p : pa_ldp) : pa_ldp :=
  set_rule_priority rule_prio (set_ldp_priority prio (set_ldp_rule r p)).

Definition pa_ldp_publish l (r : option nat) (prio rule_prio : Z) o : option pa_core :=
  p ← get_ldp o l;
  if published p then Some o
  else
    o ← pa_ldp_unadopt l o;
    let o := upd_ldp l (fun p => set_published true (set_rule r prio rule_prio p)) o in
    pa_user_notify l CbPublished o.

Definition pa_ldp_adopt l (r : option nat) (prio rule_prio : Z) o : option pa_core :=
  p ← get_ldp o l;
  if adopting p then Some o
  else
    o ← pa_ldp_unpublish l true o;
    let o := upd_ldp l (fun p => set_adopting true (set_rule r prio rule_prio p)) o in
    '(o, d) ← PA_ADOPT_DELAY_r o;
    Some (upd_ldp l (set_backoff_to (timeout_at o d)) o).

(** The loop at the end of [pa_ldp_unassign]. *)
Fixpoint schedule_unassigned (ids : list nat) l o : option pa_core :=
  match ids with
  | [] => Some o
  | l2 :: ids =>
    p2 ← get_ldp o l2;
    schedule_unassigned ids l (if negb (assigned p2) && bool_decide (l2 ≠ l) then pa_routine_schedule l2 o else o)
  end.

Definition pa_ldp_unassign l o : option pa_core :=
  p ← get_ldp o l;
  if negb (assigned p) then Some o
  else
    let o := upd_ldp l (set_ha_apply_pending false) o in
    o ← (if applied p then pa_user_notify l CbApplied (upd_ldp l (set_applied false) o) else Some o);
    o ← pa_ldp_unpublish l true o;
    o ← pa_ldp_unadopt l o;
    let o := upd_ldp l (set_backoff_to None) o in
    t ← pt_remove (prefixes o) (PAT_ASSIGNED l);
    let o := upd_ldp l (set_assigned false) (set_prefixes t o) in
    o ← pa_user_notify l CbAssigned o;
    schedule_unassigned (ldps_in_dp o (ldp_dp p)) l o.

(** Returns 0, or -2 when there is a prefix already. *)
Definition pa_ldp_assign l (pfx : list Z) (plen : nat) o : option (pa_core * Z) :=
  p ← get_ldp o l;
  if assigned p then Some (o, -2)
  else
    x ← pa_prefix_cpy pfx plen (ldp_prefix p);
    let o := upd_ldp l (fun p => set_ldp_plen plen (set_ldp_prefix x p)) o in
    t ← pt_add (prefixes o) (PAT_ASSIGNED l) pfx plen;
    let o := set_prefixes t o in
    let o := upd_ldp l (set_backoff_to (timeout_at o (u32 (2 * flooding_delay o)))) o in
    o ← pa_user_notify l CbAssigned (upd_ldp l (set_assigned true) o);
    Some (o, 0).

(** ** The routine *)

(** Whether the advertised prefix takes precedence over the assigned one. *)
Definition pa_precedes o (a : pa_advp) (p : pa_ldp) : bool :=
  negb (published p) || bool_decide (ldp_priority p < advp_priority a) ||
  (bool_decide (advp_priority a = ldp_priority p) && bool_decide (advp_node_id a ≠ core_node_id o)).

(** The loop of [pa_ldp_global_valid], which takes every other entry for an
    advertised prefix: fields of another pair read as such have no defined value. *)
Fixpoint global_valid_loop o (p : pa_ldp) (es : list pentry) : option bool :=
  match es with
  | [] => Some true
  | e :: es =>
    if decide (e = PAT_ASSIGNED (ldp_id p)) then global_valid_loop o p es
    else
      pre ← match e with
            | PAT_ADVERTISED a => a ← get_advp o a; Some (pa_precedes o a p)
            | PAT_ASSIGNED _ => if negb (published p) then Some true else None
            end;
      if (pre : bool) then Some false else global_valid_loop o p es
  end.

Definition pa_ldp_global_valid o (p : pa_ldp) : option bool :=
  es ← pt_for_each_updown (prefixes o) (ldp_prefix p) (ldp_plen p);
  global_valid_loop o p es.

(** [PA_NODE_ID_CMP(a, b) > 0]. *)
Definition better (a : pa_advp) (best : option pa_advp) : bool :=
  match best with
  | None => true
  | Some b => bool_decide (advp_priority b < advp_priority a) ||
              (bool_decide (advp_priority a = advp_priority b) && bool_decide (advp_node_id b < advp_node_id a))
  end.

(** The loop over the entries that overlap the delegated prefix. *)
Fixpoint best_loop o (k : nat) (es : list pentry) (best : option pa_advp) : option (option pa_advp) :=
  match es with
  | [] => Some best
  | PAT_ASSIGNED _ :: es => best_loop o k es best
  | PAT_ADVERTISED a :: es =>
    a ← get_advp o a;
    best_loop o k es (if bool_decide (advp_link a = Some k) && better a best then Some a else best)
  end.

(** 1. Look for the best advertised prefix. *)
Definition find_best l o : option pa_core :=
  p ← get_ldp o l;
  d ← get_dp o (ldp_dp p);
  es ← pt_for_each_updown (prefixes o) (dp_prefix d) (dp_plen d);
  best ← best_loop o (ldp_link p) es None;
  Some (upd_ldp l (set_best_assignment best) o).

(** 2. Check the validity of the assignment. *)
Definition check_assignment l o : option pa_core :=
  p ← get_ldp o l;
  let best := match best_assignment p with
    | Some a => if pa_precedes o a p then Some a else None
    | None => None
    end in
  let o := upd_ldp l (set_best_assignment best) o in
  p ← get_ldp o l;
  o ← (if assigned p then
         valid ← match best with
                 | None => pa_ldp_global_valid o p
                 | Some a => pa_prefix_equals (ldp_prefix p) (ldp_plen p) (advp_prefix a) (advp_plen a)
                 end;
         if (valid : bool) then Some o else pa_ldp_unassign l o
       else Some o);
  if decide (best = None) then Some o else pa_ldp_unadopt l o.

(** 3. Execute rules: first in the order of their maximal priorities. *)
Fixpoint insert_rule (x : nat * Z) (rs : list (nat * Z)) : list (nat * Z) :=
  match rs with
  | [] => [x]
  | y :: rs => if decide (y.2 < x.2) then x :: y :: rs else y :: insert_rule x rs
  end.

Fixpoint sort_rules o (p : pa_ldp) (ids : list nat) (rs : list (nat * Z)) : option (list (nat * Z)) :=
  match ids with
  | [] => Some rs
  | r :: ids =>
    ok ← filter_accept r o p;
    if negb ok then sort_rules o p ids rs
    else
      m ← get_max_priority r o p;
      sort_rules o p ids (if decide (m = 0) then rs else insert_rule (r, m) rs)
  end.

(** The result of the best rule: the rule, its target and its argument. *)
Definition rule_result : Type := nat * pa_rule_target * pa_rule_arg.

Fixpoint best_rule o (p : pa_ldp) (rs : list (nat * Z)) (best_prio : Z) (arg : pa_rule_arg) (best : option rule_result)
  : option (pa_core * option rule_result) :=
  match rs with
  | [] => Some (o, best)
  | (r, m) :: rs =>
    if decide (m <= best_prio) then Some (o, best)
    else
      '(target, arg, n) ← rule_match r o p best_prio arg;
      let o := set_pa_randoms n o in
      if decide (target = PA_RULE_NO_MATCH) then best_rule o p rs best_prio arg best
      else
        prio ← arg_rule_priority arg;
        best_rule o p rs prio arg (Some (r, target, arg))
  end.

(** The loop that takes conflicting prefixes from other pairs, with the next
    element fetched before the body runs. *)
Fixpoint unassign_conflicts (fuel : nat) l (pfx : list Z) (plen : nat) (e e2 : option pentry) o : option pa_core :=
  match fuel, e with
  | _, None => Some o
  | O, Some _ => None
  | S fuel, Some e =>
    o ← match e with
        | PAT_ASSIGNED l2 =>
          if decide (l2 = l) then Some o
          else o ← pa_ldp_unassign l2 o; Some (pa_routine_schedule l2 o)
        | PAT_ADVERTISED _ => Some o
        end;
    e3 ← match e2 with Some x => pt_next_updown (prefixes o) x pfx plen | None => Some None end;
    unassign_conflicts fuel l pfx plen e2 e3 o
  end.

Definition publish_prefix l (r : nat) (arg : pa_rule_arg) o : option pa_core :=
  '(pfx, plen) ← arg_prefix arg;
  e ← pt_first_updown (prefixes o) pfx plen;
  e2 ← match e with Some x => pt_next_updown (prefixes o) x pfx plen | None => Some None end;
  o ← unassign_conflicts (length (ldps o) + length (advps o) + 1) l pfx plen e e2 o;
  p ← get_ldp o l;
  o ← (if assigned p then
         same ← pa_prefix_equals pfx plen (ldp_prefix p) (ldp_plen p);
         if (same : bool) then Some o else pa_ldp_unassign l o
       else Some o);
  p ← get_ldp o l;
  o ← (if assigned p then o ← pa_ldp_unpublish l false o; pa_ldp_unadopt l o
       else '(o, _) ← pa_ldp_assign l pfx plen o; Some o);
  prio ← arg_priority arg;
  rule_prio ← arg_rule_priority arg;
  o ← pa_ldp_publish l (Some r) prio rule_prio o;
  Some (upd_ldp l (set_best_assignment None) o).

(** Act upon the best rule. *)
Definition act_on_rule l (res : option rule_result) o : option pa_core :=
  match res with
  | None => Some o
  | Some (r, target, arg) =>
    match target with
    | PA_RULE_ADOPT =>
      prio ← arg_priority arg;
      rule_prio ← arg_rule_priority arg;
      pa_ldp_adopt l (Some r) prio rule_prio o
    | PA_RULE_BACKOFF =>
      p ← get_ldp o l;
      if decide (best_assignment p ≠ None) then Some o
      else
        o ← pa_ldp_unassign l o;
        p ← get_ldp o l;
        if decide (backoff_to p = None) then
          '(o, delay) ← PA_BACKOFF_DELAY_r o;
          Some (upd_ldp l (set_backoff_to (timeout_at o delay)) o)
        else Some o
    | PA_RULE_DESTROY =>
      o ← pa_ldp_unassign l o;
      Some (pa_routine_schedule l o)
    | PA_RULE_PUBLISH => publish_prefix l r arg o
    | PA_RULE_NO_MATCH => Some o
    end
  end.

Definition execute_rules l (from_backoff : bool) o : option pa_core :=
  let o := upd_ldp l (set_backoff from_backoff) o in
  p ← get_ldp o l;
  rs ← sort_rules o p (core_rules o) [];
  '(o, res) ← best_rule o p rs (if published p || adopting p then rule_priority p else 0)
                (mk_pa_rule_arg None None None) None;
  act_on_rule l res o.

(** 4. End the routine. *)
Definition end_routine l o : option pa_core :=
  p ← get_ldp o l;
  if assigned p then
    if decide (best_assignment p ≠ None) then o ← pa_ldp_unpublish l false o; pa_ldp_unadopt l o
    else if negb (published p) && negb (adopting p) then pa_ldp_unassign l o
    else Some o
  else
    match best_assignment p with
    | Some a =>
      o ← pa_ldp_unassign l o;
      '(o, _) ← pa_ldp_assign l (advp_prefix a) (advp_plen a) o;
      Some o
    | None => Some o
    end.

Definition pa_routine l (from_backoff : bool) o : option pa_core :=
  o ← find_best l o;
  o ← check_assignment l o;
  o ← execute_rules l from_backoff o;
  end_routine l o.

(** The timers have fired and are no longer pending. *)
Definition pa_backoff_to l o : option pa_core :=
  let o := upd_ldp l (set_backoff_to None) o in
  p ← get_ldp o l;
  if adopting p then pa_ldp_publish l (ldp_rule p) (ldp_priority p) (rule_priority p) o
  else if assigned p then pa_ldp_apply l o
  else pa_routine l true o.

Definition pa_routine_to l o : option pa_core :=
  pa_routine l false (upd_ldp l (set_routine_to None) o).

(** ** Pairs, links and delegated prefixes *)

(** [calloc] and the settings of [pa_ldp_create]; the prefix has 16 bytes. *)
Definition new_ldp (id k d : nat) : pa_ldp :=
  mk_pa_ldp id k d false false false false false false (replicate 16 0) 0 0 0 None None None None.

Definition pa_ldp_create (k d : nat) o : pa_core :=
  let l := next_ldp o in
  let o := set_next_ldp (S l) (set_ldps (ldps o ++ [new_ldp l k d]) o) in
  pa_routine_schedule l o.

Definition pa_ldp_destroy l o : pa_core := set_ldps (filter (fun p => ldp_id p ≠ l) (ldps o)) o.

(** The first loop of [_pa_dp_del] and of [_pa_link_del]. *)
Fixpoint unassign_all (ids : list nat) o : option pa_core :=
  match ids with
  | [] => Some o
  | l :: ids => o ← pa_ldp_unassign l o; unassign_all ids o
  end.

Definition _pa_dp_del (d : nat) o : option pa_core :=
  o ← unassign_all (ldps_in_dp o d) o;
  let o := foldl (fun o l => pa_ldp_destroy l o) o (ldps_in_dp o d) in
  Some (set_dps (filter (fun x => dp_id x ≠ d) (dps o)) o).

Definition pa_dp_del (d : nat) o : option pa_core := _pa_dp_del d o.

(** Whether a pair is left out because the delegated prefix comes from another
    link of the parent. *)
Definition ha_skips (k : pa_link) (d : pa_dp) : bool :=
  match dp_ha_ldp d, link_ha_parent k with
  | Some (_, pk), Some k => bool_decide (k ≠ pk)
  | _, _ => false
  end.

Definition pa_dp_add (d : pa_dp) o : pa_core :=
  let o := set_dps (dps o ++ [d]) o in
  foldl (fun o k => if ha_skips k d then o else pa_ldp_create (link_id k) (dp_id d) o) o (links o).

(** A delegated prefix of the user, with 16 bytes of memory before. *)
Definition pa_dp_init (d : pa_dp) (pfx : list Z) (plen : nat) : option pa_dp :=
  x ← pa_prefix_cpy pfx plen (dp_prefix d);
  Some (set_dp_ha_ldp None (set_dp_type 0 (set_dp_plen plen (set_dp_prefix x d)))).

Definition _pa_link_del (k : nat) o : option pa_core :=
  o ← unassign_all (ldps_in_link o k) o;
  let o := foldl (fun o l => pa_ldp_destroy l o) o (ldps_in_link o k) in
  Some (set_links (filter (fun x => link_id x ≠ k) (links o)) o).

Definition pa_link_del (k : nat) o : option pa_core := _pa_link_del k o.

Definition pa_link_add (k : pa_link) o : pa_core :=
  let o := set_links (links o ++ [k]) o in
  foldl (fun o d => if ha_skips k d then o else pa_ldp_create (link_id k) (dp_id d) o) o (dps o).

Definition pa_link_init (k : pa_link) : pa_link := set_link_ha_parent None (set_link_type 0 k).

(** ** Advertised prefixes *)

Definition schedule_all (ids : list nat) o : pa_core := foldl (fun o l => pa_routine_schedule l o) o ids.

(** Schedule the pairs of the delegated prefixes that overlap the advertised one. *)
Fixpoint advp_update_loop (ds : list pa_dp) (a : pa_advp) o : option pa_core :=
  match ds with
  | [] => Some o
  | d :: ds =>
    ov ← pa_prefix_overlap (dp_prefix d) (dp_plen d) (advp_prefix a) (advp_plen a);
    advp_update_loop ds a (if (ov : bool) then schedule_all (ldps_in_dp o (dp_id d)) o else o)
  end.

Definition _pa_advp_update (a : pa_advp) o : option pa_core := advp_update_loop (dps o) a o.

(** The owner has changed attributes of the advertised prefix other than the prefix
    itself; [a] is what it is now. *)
Definition pa_advp_update (a : pa_advp) o : option pa_core :=
  _pa_advp_update a (set_advps ((fun b => if decide (advp_id b = advp_id a) then a else b) <$> advps o) o).

Definition pa_advp_add (a : pa_advp) o : option pa_core :=
  t ← pt_add (prefixes o) (PAT_ADVERTISED (advp_id a)) (advp_prefix a) (advp_plen a);
  _pa_advp_update a (set_advps (advps o ++ [a]) (set_prefixes t o)).

Definition pa_advp_del (a : pa_advp) o : option pa_core :=
  t ← pt_remove (prefixes o) (PAT_ADVERTISED (advp_id a));
  _pa_advp_update a (set_advps (filter (fun b => advp_id b ≠ advp_id a) (advps o)) (set_prefixes t o)).

(** ** Rules and settings *)

Definition pa_rule_add (r : nat) o : pa_core :=
  let o := set_core_rules (core_rules o ++ [r]) o in
  schedule_all (ldps_by_link o) o.

Fixpoint rule_del_loop (ids : list nat) (r : nat) o : option pa_core :=
  match ids with
  | [] => Some o
  | l :: ids =>
    let o := pa_routine_schedule l o in
    p ← get_ldp o l;
    o ← (if decide (ldp_rule p = Some r) then o ← pa_ldp_unpublish l true o; pa_ldp_unadopt l o else Some o);
    rule_del_loop ids r o
  end.

Definition pa_rule_del (r : nat) o : option pa_core :=
  let o := set_core_rules (filter (fun x => x ≠ r) (core_rules o)) o in
  rule_del_loop (ldps_by_link o) r o.

(** [uloop_timeout_remaining]. *)
Definition timeout_remaining o (t : Z) : Z := t - pa_now o.

Definition longer_delay (d : Z) o (p : pa_ldp) : pa_ldp :=
  match backoff_to p with
  | Some t => if assigned p && negb (adopting p)
              then set_backoff_to (timeout_at o (u32 (timeout_remaining o t + 2 * (d - flooding_delay o)))) p else p
  | None => p
  end.

Definition shorter_delay (d : Z) o (p : pa_ldp) : pa_ldp :=
  match backoff_to p with
  | Some t => if assigned p && negb (adopting p) && bool_decide (u32 (2 * d) < u32 (timeout_remaining o t))
              then set_backoff_to (timeout_at o (u32 (2 * d))) p else p
  | None => p
  end.

Definition pa_core_set_flooding_delay (d : Z) o : pa_core :=
  let o := if decide (flooding_delay o < d) then foldl (fun o l => upd_ldp l (longer_delay d o) o) o (ldps_by_link o)
           else if decide (d < flooding_delay o) then foldl (fun o l => upd_ldp l (shorter_delay d o) o) o (ldps_by_link o)
           else o in
  set_flooding_delay d o.

Definition pa_core_set_node_id (id : Z) o : pa_core :=
  if decide (id = core_node_id o) then o
  else schedule_all (ldps_by_link o) (set_core_node_id id o).

Definition pa_core_init (now : Z) : pa_core :=
  mk_pa_core pt_init 0 PA_DEFAULT_FLOODING_DELAY PA_ADOPT_DELAY_DEFAULT PA_BACKOFF_DELAY_DEFAULT [] [] [] [] [] [] 0 now 0 [].

(** [pa_user_register] and [pa_user_unregister]: [list_add] puts the user first. *)
Definition pa_user_register (u : pa_user) o : pa_core := set_users (u :: users o) o.
Definition pa_user_unregister (u : nat) o : pa_core := set_users (filter (fun x => user_id x ≠ u) (users o)) o.

(** ** For rules *)

Fixpoint valid_assignment_loop o (es : list pentry) (override_rule_prio override_prio : Z) (safety : bool) : option bool :=
  match es with
  | [] => Some true
  | PAT_ASSIGNED l2 :: es =>
    p2 ← get_ldp o l2;
    if (published p2 || adopting p2) && bool_decide (override_rule_prio <= rule_priority p2) then Some false
    else if safety && published p2 && bool_decide (override_prio < ldp_priority p2) then Some false
    else valid_assignment_loop o es override_rule_prio override_prio safety
  | PAT_ADVERTISED a :: es =>
    a ← get_advp o a;
    if decide (override_prio <= advp_priority a) then Some false
    else valid_assignment_loop o es override_rule_prio override_prio safety
  end.

Definition pa_rule_valid_assignment o (p : pa_ldp) (pfx : list Z) (plen : nat) (override_rule_prio override_prio : Z)
    (safety : bool) : option bool :=
  if match best_assignment p with
     | Some a => bool_decide (override_prio <= advp_priority a)
     | None => assigned p &&
         (((published p || adopting p) && bool_decide (override_rule_prio <= rule_priority p)) ||
          (safety && published p && bool_decide (override_prio <= ldp_priority p)))
     end
  then Some false
  else
    es ← pt_for_each_updown (prefixes o) pfx plen;
    valid_assignment_loop o es override_rule_prio override_prio safety.

End core.
