(* ===== verification/PaFacts.v ===== *)
(** Facts on the state of the prefix assignment: access to pairs and what the
    operations leave alone. *)
From S2P Require Import Prelude Bitops Tlv PaTrie PaCore.

(** ** Access *)

Section facts.
Context `{PT : !PrefixTrie pentry, PX : !PaExt}.
Implicit Types (o : pa_core) (l : nat) (p : pa_ldp).

(** What the state changes of pairs leave alone. *)
Definition skel o :=
  ((fun p => (ldp_id p, ldp_link p, ldp_dp p)) <$> ldps o,
   (core_node_id o, flooding_delay o, adopt_delay o, backoff_delay o, users o),
   (links o, dps o, core_rules o, advps o, next_ldp o, pa_now o)).

(** Updates that keep what a pair is. *)
Class Keeps (f : pa_ldp -> pa_ldp) : Prop :=
  keeps : forall p, (ldp_id (f p), ldp_link (f p), ldp_dp (f p)) = (ldp_id p, ldp_link p, ldp_dp p).

Lemma keeps_id f p : Keeps f -> ldp_id (f p) = ldp_id p.
Proof. intros H. specialize (H p). congruence. Qed.

Lemma find_fmap (f : pa_ldp -> pa_ldp) l (ps : list pa_ldp) : (forall p, ldp_id (f p) = ldp_id p) ->
  snd <$> list_find (fun p => ldp_id p = l) (f <$> ps) = f <$> (snd <$> list_find (fun p => ldp_id p = l) ps).
Proof.
  intros Hf. induction ps as [|p ps IH]; [done|]. cbn [fmap list_fmap list_find]. rewrite Hf. case_decide; [done|].
  destruct (list_find _ (f <$> ps)) as [[]|], (list_find _ ps) as [[]|]; cbn in *; congruence.
Qed.

Lemma get_upd l l' f o : Keeps f ->
  get_ldp (upd_ldp l f o) l' = if decide (l = l') then f <$> get_ldp o l' else get_ldp o l'.
Proof.
  intros Hf. unfold get_ldp, upd_ldp. cbn [ldps set_ldps].
  rewrite find_fmap by (intros p; case_decide; [by apply keeps_id|done]).
  destruct (list_find (fun p => ldp_id p = l') (ldps o)) as [[i p]|] eqn:Hfind; cbn; [|by case_decide].
  apply list_find_Some in Hfind as (_ & Hp & _). case_decide; case_decide; congruence.
Qed.

Lemma get_upd_same l f o : Keeps f -> get_ldp (upd_ldp l f o) l = f <$> get_ldp o l.
Proof. intros Hf. by rewrite get_upd, decide_True. Qed.

Lemma get_upd_other l l' f o : Keeps f -> l ≠ l' -> get_ldp (upd_ldp l f o) l' = get_ldp o l'.
Proof. intros Hf Hl. by rewrite get_upd, decide_False. Qed.

Lemma skel_upd l f o : Keeps f -> skel (upd_ldp l f o) = skel o.
Proof.
  intros Hf. unfold skel, upd_ldp. cbn -[fmap]. f_equal. f_equal. rewrite <- list_fmap_compose. apply list_fmap_ext.
  intros i p _. cbn. case_decide; [apply keeps|done].
Qed.

Lemma skel_log es o : skel (set_pa_log es o) = skel o.
Proof. done. Qed.

Lemma get_ldp_in o l p : get_ldp o l = Some p -> p ∈ ldps o /\ ldp_id p = l.
Proof.
  unfold get_ldp. destruct (list_find _ _) as [[i q]|] eqn:Hf; [|done]. intros [= <-].
  apply list_find_Some in Hf as (Hi & Hp & _). split; [|done]. by apply list_elem_of_lookup_2 in Hi.
Qed.

Lemma get_ldp_elem o p : NoDup (ldp_id <$> ldps o) -> p ∈ ldps o -> get_ldp o (ldp_id p) = Some p.
Proof.
  unfold get_ldp. induction (ldps o) as [|q ps IH]; intros Hnd Hin; [by apply not_elem_of_nil in Hin|].
  cbn [fmap list_fmap] in Hnd. apply NoDup_cons in Hnd as [Hq Hnd]. cbn [list_find].
  apply elem_of_cons in Hin as [->|Hin]; [by rewrite decide_True|].
  assert (ldp_id q ≠ ldp_id p) by (intros E; apply Hq; rewrite E; apply list_elem_of_fmap; by exists p).
  rewrite decide_False by done. specialize (IH Hnd Hin). by destruct (list_find _ ps) as [[]|].
Qed.

Lemma skel_ids o o' : skel o' = skel o -> (fun p => (ldp_id p, ldp_link p, ldp_dp p)) <$> ldps o' = (fun p => (ldp_id p, ldp_link p, ldp_dp p)) <$> ldps o.
Proof. unfold skel. congruence. Qed.

Lemma skel_nodup o o' : skel o' = skel o -> NoDup (ldp_id <$> ldps o) -> NoDup (ldp_id <$> ldps o').
Proof.
  intros Hs%skel_ids. assert (E : ldp_id <$> ldps o' = ldp_id <$> ldps o).
  { apply (f_equal (fmap (fun x : nat * nat * nat => x.1.1))) in Hs. rewrite <- !list_fmap_compose in Hs. exact Hs. }
  by rewrite E.
Qed.

(** The same pairs are there. *)
Lemma skel_get o o' l p : skel o' = skel o -> get_ldp o l = Some p ->
  exists p', get_ldp o' l = Some p' /\ ldp_id p' = ldp_id p /\ ldp_link p' = ldp_link p /\ ldp_dp p' = ldp_dp p.
Proof.
  intros Hs%skel_ids. unfold get_ldp. revert Hs. generalize (ldps o'). induction (ldps o) as [|q ps IH]; intros [|q' ps'] Hs; try done.
  cbn [fmap list_fmap] in Hs. injection Hs as H1 H2 H3 Hs. cbn [list_find]. rewrite H1. case_decide.
  - cbn. intros [= <-]. by exists q'.
  - intros Hp. specialize (IH _ Hs). destruct (list_find _ ps) as [[j x]|]; [|done]. specialize (IH Hp). destruct IH as (p' & Hp' & IH).
    destruct (list_find _ ps') as [[j' x']|]; [|done]. by exists p'.
Qed.

Lemma ldps_in_dp_skel o o' d : skel o' = skel o -> ldps_in_dp o' d = ldps_in_dp o d.
Proof.
  intros Hs%skel_ids. unfold ldps_in_dp. revert Hs. generalize (ldps o'). induction (ldps o) as [|q ps IH]; intros [|q' ps'] Hs; try done.
  cbn [fmap list_fmap] in Hs. injection Hs as H1 H2 H3 Hs. rewrite !filter_cons, H3. case_decide; cbn [fmap list_fmap]; rewrite ?H1; [f_equal|]; by apply IH.
Qed.

Lemma ldps_in_dp_get o d l : NoDup (ldp_id <$> ldps o) -> l ∈ ldps_in_dp o d <-> exists p, get_ldp o l = Some p /\ ldp_dp p = d.
Proof.
  intros Hnd. unfold ldps_in_dp. rewrite list_elem_of_fmap. split.
  - intros (p & -> & [Hd Hp]%list_elem_of_filter). exists p. split; [by apply get_ldp_elem|done].
  - intros (p & [Hp <-]%get_ldp_in & Hd). exists p. split; [done|]. by apply list_elem_of_filter.
Qed.

End facts.

Ltac keeps_tac := intros ?; reflexivity.
#[export] Hint Extern 1 (Keeps _) => intros ?; reflexivity : typeclass_instances.
