(* ===== verification/PaInv.v ===== *)
(** The invariant of the prefix assignment and the changes of state of a pair: each
    is defined where the code calls it, keeps the invariant, and changes what its
    name says. *)
From S2P Require Import Prelude Bitops Tlv BtrieBits BtrieIter BtrieFree BtrieEach PaTrie PaCore PaFacts.

(** ** The invariant *)

(** A prefix in its 16 bytes. *)
Definition prefix_ok (pfx : list Z) (plen : nat) : Prop := bytes_ok pfx /\ length pfx = 16%nat /\ (plen <= 128)%nat.

Lemma prefix_ok_key pfx plen : prefix_ok pfx plen -> key_ok pfx /\ (plen <= 8 * length pfx)%nat.
Proof. intros (Hb & Hl & Hp). unfold key_ok. rewrite Hl. split; [done|lia]. Qed.

(** The flags of a pair: a prefix is published, adopted, applied or about to be
    applied only while it is assigned, it is not both published and adopted, and
    there is a rule, one of the core, exactly while one of these holds. *)
Record ldp_ok (rs : list nat) (p : pa_ldp) : Prop := {
  lo_assigned : published p || applied p || adopting p || ha_apply_pending p = true -> assigned p = true;
  lo_exclusive : published p = true -> adopting p = false;
  lo_rule : if published p || adopting p then exists r, ldp_rule p = Some r /\ r ∈ rs else ldp_rule p = None;
  lo_prefix : prefix_ok (ldp_prefix p) (ldp_plen p)
}.

(** Callbacks on publication and application are made while the prefix is assigned. *)
Definition event_ok (e : pa_event) : Prop :=
  match e with UserCalled _ cb p => cb = CbAssigned \/ assigned p = true end.

Section inv.
Context `{PT : !PrefixTrie pentry, PTO : !PrefixTrieOk pentry, PX : !PaExt}.
Implicit Types (o : pa_core) (l : nat) (p : pa_ldp).

(** What the trie has to hold. *)
Definition entry_of o (x : list bool) (e : pentry) : Prop :=
  match e with
  | PAT_ASSIGNED l => exists p, get_ldp o l = Some p /\ assigned p = true /\ x = bits (ldp_prefix p) 0 (ldp_plen p)
  | PAT_ADVERTISED a => exists v, get_advp o a = Some v /\ x = bits (advp_prefix v) 0 (advp_plen v)
  end.

Record inv o : Prop := {
  i_ids : NoDup (ldp_id <$> ldps o);
  i_next : forall p, p ∈ ldps o -> (ldp_id p < next_ldp o)%nat;
  i_dps : forall p, p ∈ ldps o -> is_Some (get_dp o (ldp_dp p));
  i_dp_ok : forall d, d ∈ dps o -> prefix_ok (dp_prefix d) (dp_plen d);
  i_advps : NoDup (advp_id <$> advps o);
  i_advp_ok : forall a, a ∈ advps o -> prefix_ok (advp_prefix a) (advp_plen a);
  i_ldps : forall l p, get_ldp o l = Some p -> ldp_ok (core_rules o) p;
  i_trie : pt_ok (prefixes o);
  i_entries : forall x e, (x, e) ∈ pt_entries (prefixes o) <-> entry_of o x e;
  i_delays : 0 < adopt_delay o < backoff_delay o /\ backoff_delay o < 2 ^ 32;
  i_log : Forall event_ok (pa_log o);
  i_links : forall p, p ∈ ldps o -> ldp_link p ∈ link_id <$> links o
}.

(** The pairs and the callbacks may change. *)
Lemma inv_change o o' : inv o -> skel o' = skel o -> (forall l p, get_ldp o' l = Some p -> ldp_ok (core_rules o) p) ->
  pt_ok (prefixes o') -> (forall x e, (x, e) ∈ pt_entries (prefixes o') <-> entry_of o' x e) -> Forall event_ok (pa_log o') -> inv o'.
Proof.
  intros Ho Hs Hl Ht He Hlog. pose proof (skel_ids _ _ Hs) as Hids. pose proof Hs as Hs'. unfold skel in Hs'. injection Hs' as _ _ _ E3 E4 _ E7 E1 E5 E2 E6 _.
  assert (Hin : forall p, p ∈ ldps o' -> exists q, q ∈ ldps o /\ ldp_id q = ldp_id p /\ ldp_dp q = ldp_dp p /\ ldp_link q = ldp_link p).
  { intros p Hp. assert (Hq : (ldp_id p, ldp_link p, ldp_dp p) ∈ (fun p => (ldp_id p, ldp_link p, ldp_dp p)) <$> ldps o)
      by (rewrite <- Hids; apply list_elem_of_fmap; by exists p).
    apply list_elem_of_fmap in Hq as (q & [= H1 H3 H2] & Hq). by exists q. }
  split.
  - by eapply skel_nodup, i_ids.
  - intros p (q & Hq & <- & _)%Hin. rewrite E6. by apply (i_next o Ho).
  - intros p (q & Hq & _ & <- & _)%Hin. unfold get_dp. rewrite E1. by apply (i_dps o Ho).
  - rewrite E1. apply (i_dp_ok o Ho).
  - rewrite E2. apply (i_advps o Ho).
  - rewrite E2. apply (i_advp_ok o Ho).
  - rewrite E5. exact Hl.
  - exact Ht.
  - exact He.
  - rewrite E3, E4. apply (i_delays o Ho).
  - exact Hlog.
  - intros p (q & Hq & _ & _ & <-)%Hin. rewrite E7. by apply (i_links o Ho).
Qed.

Lemma skel_advps o o' : skel o' = skel o -> advps o' = advps o.
Proof. unfold skel. congruence. Qed.

Lemma skel_rules o o' : skel o' = skel o -> core_rules o' = core_rules o.
Proof. unfold skel. congruence. Qed.

(** Only the pair [l] moves, to [p'], and the trie stays. *)
Definition moves l o o' p' : Prop :=
  inv o' /\ skel o' = skel o /\ prefixes o' = prefixes o /\ get_ldp o' l = Some p' /\
  forall l', l' ≠ l -> get_ldp o' l' = get_ldp o l'.

Lemma moves_refl l o p : inv o -> get_ldp o l = Some p -> moves l o o p.
Proof. intros Ho Hp. split; [done|]. split; [done|]. split; [done|]. by split. Qed.

Lemma moves_trans l o1 o2 o3 p2 p3 : moves l o1 o2 p2 -> moves l o2 o3 p3 -> moves l o1 o3 p3.
Proof.
  intros (_ & S1 & T1 & _ & O1) (I2 & S2 & T2 & G2 & O2). split; [done|]. split; [congruence|]. split; [congruence|]. split; [done|].
  intros l' Hl'. by rewrite O2, O1.
Qed.

Lemma moves_upd l o p f : inv o -> get_ldp o l = Some p -> Keeps f -> ldp_ok (core_rules o) (f p) ->
  assigned (f p) = assigned p -> ldp_prefix (f p) = ldp_prefix p -> ldp_plen (f p) = ldp_plen p ->
  moves l o (upd_ldp l f o) (f p).
Proof.
  intros Ho Hp Hf Hok Ha Hx Hn.
  assert (Hget : forall l', get_ldp (upd_ldp l f o) l' = if decide (l = l') then Some (f p) else get_ldp o l').
  { intros l'. rewrite get_upd by done. case_decide; [subst; by rewrite Hp|done]. }
  split; [|split; [by apply skel_upd|split; [done|split; [by rewrite Hget, decide_True|]]]].
  2:{ intros l' Hl'. by rewrite Hget, decide_False. }
  apply (inv_change o); [done|by apply skel_upd| |apply (i_trie o Ho)| |apply (i_log o Ho)].
  - intros l' q. rewrite Hget. case_decide; [intros [= <-]; done|apply (i_ldps o Ho)].
  - intros x e. cbn [prefixes upd_ldp set_ldps]. rewrite (i_entries o Ho). destruct e as [l'|a]; [|done]. cbn [entry_of]. rewrite Hget.
    case_decide; [subst l'|done]. rewrite Hp. split; intros (q & [= <-] & Hq1 & Hq2); eexists; (split; [done|]); split; congruence.
Qed.

Lemma moves_notify l o p cb : inv o -> get_ldp o l = Some p -> cb = CbAssigned \/ assigned p = true ->
  exists o', pa_user_notify l cb o = Some o' /\ moves l o o' p.
Proof.
  intros Ho Hp Hcb. unfold pa_user_notify. rewrite Hp. cbn [mbind option_bind]. eexists. split; [done|].
  split; [|by split; [|split; [|split]]]. apply (inv_change o); [done|done|apply (i_ldps o Ho)|apply (i_trie o Ho)|apply (i_entries o Ho)|].
  cbn [pa_log set_pa_log]. apply Forall_app. split; [apply (i_log o Ho)|]. apply Forall_fmap. apply Forall_forall. intros u _. exact Hcb.
Qed.

End inv.

(** ** State changes of a pair *)

Section changes.
Context `{PT : !PrefixTrie pentry, PTO : !PrefixTrieOk pentry, PX : !PaExt}.
Implicit Types (o : pa_core) (l : nat) (p : pa_ldp).

Lemma upd_upd l f g o : Keeps g -> upd_ldp l f (upd_ldp l g o) = upd_ldp l (fun p => f (g p)) o.
Proof.
  intros Hg. unfold upd_ldp, set_ldps. cbn -[fmap]. f_equal. rewrite <- list_fmap_compose. apply list_fmap_ext.
  intros i p _. cbn. destruct (decide (ldp_id p = l)) as [Hl|Hl].
  - rewrite decide_True; [done|]. by rewrite keeps_id.
  - by rewrite decide_False.
Qed.

(** What the operations make of a pair. *)
Definition unpublished (cancel : bool) p : pa_ldp :=
  if published p then set_published false ((if cancel then set_backoff_to None else id) (clear_rule p)) else p.

Definition unadopted o p : pa_ldp :=
  if adopting p then
    (if applied p then id else set_backoff_to (timeout_at o (u32 (flooding_delay o * 2)))) (set_adopting false (clear_rule p))
  else p.

Lemma ldp_ok_unpublished rs c p : ldp_ok rs p -> ldp_ok rs (unpublished c p).
Proof.
  intros Hok. unfold unpublished. destruct (published p) eqn:Hp; [|done]. destruct Hok as [H1 H2 H3 H4].
  specialize (H2 Hp). destruct c; split; cbn in *; try done; rewrite ?H2 in *; try done;
    intros H; apply H1; rewrite ?Hp; try done; by rewrite !orb_true_l.
Qed.

Lemma ldp_ok_unadopted rs o p : ldp_ok rs p -> ldp_ok rs (unadopted o p).
Proof.
  intros Hok. unfold unadopted. destruct (adopting p) eqn:Hp; [|done]. destruct Hok as [H1 H2 H3 H4].
  assert (Hpub : published p = false) by (destruct (published p); [by rewrite H2 in Hp|done]).
  assert (Ha : assigned p = true) by (apply H1; by rewrite Hp, ?orb_true_r).
  destruct (applied p) eqn:Hap; split; cbn; rewrite ?Hpub; try done; intros; done.
Qed.

Lemma pa_ldp_unpublish_moves l c o p : inv o -> get_ldp o l = Some p ->
  exists o', pa_ldp_unpublish l c o = Some o' /\ moves l o o' (unpublished c p).
Proof.
  intros Ho Hp. pose proof (i_ldps o Ho l p Hp) as Hok. pose proof (ldp_ok_unpublished _ c p Hok) as Hok'.
  unfold pa_ldp_unpublish, unpublished in *. rewrite Hp. cbn [mbind option_bind].
  destruct (published p) eqn:Hpub; [|exists o; split; [done|by apply moves_refl]]. cbn [negb].
  assert (Ha : assigned p = true) by (apply (lo_assigned _ _ Hok); by rewrite Hpub).
  set (f := fun p => set_published false ((if c then set_backoff_to None else id) (clear_rule p))).
  assert (Hm : moves l o (upd_ldp l f o) (f p)) by (apply moves_upd; try done; [intros q|..]; by destruct c).
  assert (E : upd_ldp l (set_published false) (if c then upd_ldp l (set_backoff_to None) (upd_ldp l clear_rule o) else upd_ldp l clear_rule o) =
              upd_ldp l f o) by (destruct c; by rewrite !upd_upd).
  rewrite E. destruct (moves_notify l (upd_ldp l f o) (f p) CbPublished) as (o' & Hn & Hm'); [apply Hm|apply Hm|right; by destruct c|].
  exists o'. split; [done|]. by eapply moves_trans.
Qed.

Lemma pa_ldp_unadopt_moves l o p : inv o -> get_ldp o l = Some p ->
  exists o', pa_ldp_unadopt l o = Some o' /\ moves l o o' (unadopted o p).
Proof.
  intros Ho Hp. pose proof (i_ldps o Ho l p Hp) as Hok. pose proof (ldp_ok_unadopted _ o p Hok) as Hok'.
  unfold pa_ldp_unadopt, unadopted in *. rewrite Hp. cbn [mbind option_bind].
  destruct (adopting p) eqn:Had; [|exists o; split; [done|by apply moves_refl]]. cbn [negb].
  eexists. split; [done|]. destruct (applied p) eqn:Hap.
  - apply (moves_upd l o p (fun p => set_adopting false (clear_rule p))); done.
  - rewrite upd_upd by done.
    apply (moves_upd l o p (fun p => set_backoff_to (timeout_at o (u32 (flooding_delay o * 2))) (set_adopting false (clear_rule p)))); done.
Qed.

Lemma pa_ldp_publish_moves l r prio rprio o p : inv o -> get_ldp o l = Some p -> assigned p = true -> r ∈ core_rules o ->
  exists o', pa_ldp_publish l (Some r) prio rprio o = Some o' /\
    moves l o o' (if published p then p else set_published true (set_rule (Some r) prio rprio (unadopted o p))).
Proof.
  intros Ho Hp Ha Hr. unfold pa_ldp_publish. rewrite Hp. cbn [mbind option_bind].
  destruct (published p) eqn:Hpub; [exists o; split; [done|by apply moves_refl]|].
  destruct (pa_ldp_unadopt_moves l o p Ho Hp) as (o1 & -> & Hm1). cbn [mbind option_bind].
  pose proof Hm1 as (Ho1 & Hs1 & _ & Hp1 & _). set (f := fun p => set_published true (set_rule (Some r) prio rprio p)).
  pose proof (i_ldps o1 Ho1 l _ Hp1) as Hok1.
  assert (Hau : assigned (unadopted o p) = true) by (unfold unadopted; destruct (adopting p), (applied p); done).
  assert (Had : adopting (unadopted o p) = false) by (unfold unadopted; destruct (adopting p) eqn:E, (applied p); done).
  assert (Hm2 : moves l o1 (upd_ldp l f o1) (f (unadopted o p))).
  { apply moves_upd; try done. destruct Hok1 as [H1 H2 H3 H4]. split; cbn; try done.
    rewrite (skel_rules _ _ Hs1). by exists r. }
  destruct (moves_notify l (upd_ldp l f o1) (f (unadopted o p)) CbPublished) as (o' & Hn & Hm'); [apply Hm2|apply Hm2|by right|].
  exists o'. split; [done|]. by eapply moves_trans, moves_trans.
Qed.

Lemma pa_rand_mod_Some o m : m ≠ 0 -> pa_rand_mod o m = Some (set_pa_randoms (pa_randoms o + 1)%nat o, Z.rem (pa_rand (pa_randoms o)) m).
Proof. intros H. unfold pa_rand_mod. by rewrite decide_False. Qed.

Lemma inv_randoms o n : inv o -> inv (set_pa_randoms n o).
Proof. intros []. by split. Qed.

Lemma pa_ldp_adopt_moves l r prio rprio o p : inv o -> get_ldp o l = Some p -> assigned p = true -> r ∈ core_rules o ->
  exists o' t, pa_ldp_adopt l (Some r) prio rprio o = Some o' /\
    moves l o o' (if adopting p then p
                  else set_backoff_to t (set_adopting true (set_rule (Some r) prio rprio (unpublished true p)))).
Proof.
  intros Ho Hp Ha Hr. unfold pa_ldp_adopt. rewrite Hp. cbn [mbind option_bind].
  destruct (adopting p) eqn:Had; [exists o, None; split; [done|by apply moves_refl]|].
  destruct (pa_ldp_unpublish_moves l true o p Ho Hp) as (o1 & -> & Hm1). cbn [mbind option_bind].
  pose proof Hm1 as (Ho1 & Hs1 & _ & Hp1 & _). pose proof (i_ldps o1 Ho1 l _ Hp1) as Hok1.
  unfold PA_ADOPT_DELAY_r. rewrite pa_rand_mod_Some by (cbn; pose proof (i_delays o1 Ho1); lia). cbn [mbind option_bind].
  set (q := set_adopting true (set_rule (Some r) prio rprio (unpublished true p))).
  assert (Hau : assigned (unpublished true p) = true) by (unfold unpublished; by destruct (published p)).
  assert (Hpu : published (unpublished true p) = false) by (unfold unpublished; by destruct (published p) eqn:E).
  set (f := fun p => set_adopting true (set_rule (Some r) prio rprio p)).
  assert (Hm2 : moves l o1 (upd_ldp l f o1) q).
  { apply (moves_upd l o1 _ f); try done. destruct Hok1 as [H1 H2 H3 H4]. split; cbn; try done.
    - by rewrite Hpu.
    - rewrite Hpu. cbn. rewrite (skel_rules _ _ Hs1). by exists r. }
  pose proof Hm2 as (Ho2 & Hs2 & Ht2 & Hp2 & Hl2).
  set (o3 := set_pa_randoms _ _). assert (Hm3 : moves l o1 o3 q).
  { split; [by apply inv_randoms|]. split; [done|]. split; [done|]. by split. }
  eexists _, _. split; [done|]. eapply moves_trans; [exact Hm1|]. eapply moves_trans; [exact Hm3|].
  pose proof Hm3 as (Ho3 & _ & _ & Hp3 & _). apply (moves_upd l o3 q); try done.
  destruct (i_ldps o3 Ho3 l q Hp3) as [H1 H2 H3 H4]. by split.
Qed.

End changes.

Section assign.
Context `{PT : !PrefixTrie pentry, PTO : !PrefixTrieOk pentry, PX : !PaExt}.
Implicit Types (o : pa_core) (l : nat) (p : pa_ldp).

Lemma pa_ldp_apply_moves l o p : inv o -> get_ldp o l = Some p -> assigned p = true ->
  exists o' b, pa_ldp_apply l o = Some o' /\
    moves l o o' (if applied p then p else if (b : bool) then set_ha_apply_pending true p
                  else set_ha_apply_pending false (set_applied true p)).
Proof.
  intros Ho Hp Ha. unfold pa_ldp_apply. rewrite Hp. cbn [mbind option_bind].
  destruct (applied p) eqn:Hap; [exists o, false; split; [done|by apply moves_refl]|].
  destruct (get_ldp_in _ _ _ Hp) as [Hin _]. destruct (i_dps o Ho p Hin) as [d ->]. cbn [mbind option_bind].
  destruct (i_ldps o Ho l p Hp) as [H1 H2 H3 H4]. set (b := match dp_ha_ldp d with Some _ => _ | None => _ end).
  destruct b.
  - eexists _, true. split; [done|]. apply moves_upd; try done.
  - set (f := fun p => set_ha_apply_pending false (set_applied true p)).
    assert (Hm : moves l o (upd_ldp l f o) (f p)) by (apply moves_upd; done).
    destruct (moves_notify l (upd_ldp l f o) (f p) CbApplied) as (o' & Hn & Hm'); [apply Hm|apply Hm|by right|].
    exists o', false. split; [done|]. by eapply moves_trans.
Qed.

(** Pairs may be scheduled. *)
Definition unscheduled p : pa_ldp := set_routine_to None p.

Lemma unscheduled_fields p p' : unscheduled p' = unscheduled p ->
  published p' = published p /\ applied p' = applied p /\ adopting p' = adopting p /\ ha_apply_pending p' = ha_apply_pending p /\
  assigned p' = assigned p /\ ldp_rule p' = ldp_rule p /\ ldp_prefix p' = ldp_prefix p /\ ldp_plen p' = ldp_plen p.
Proof. destruct p, p'. unfold unscheduled, set_routine_to. cbn. intros H. injection H. intros. subst. by repeat split. Qed.

Definition quiet o o' : Prop :=
  inv o' /\ skel o' = skel o /\ prefixes o' = prefixes o /\ forall l, unscheduled <$> get_ldp o' l = unscheduled <$> get_ldp o l.

Lemma quiet_refl o : inv o -> quiet o o.
Proof. intros Ho. by split. Qed.

Lemma quiet_trans o1 o2 o3 : quiet o1 o2 -> quiet o2 o3 -> quiet o1 o3.
Proof.
  intros (_ & S1 & T1 & G1) (I2 & S2 & T2 & G2). split; [done|]. split; [congruence|]. split; [congruence|].
  intros l. by rewrite G2.
Qed.

Lemma quiet_schedule l o : inv o -> quiet o (pa_routine_schedule l o).
Proof.
  intros Ho. unfold pa_routine_schedule. set (f := fun p => _).
  assert (Hf : Keeps f) by (intros p; unfold f; by case_decide).
  assert (Hu : forall p, unscheduled (f p) = unscheduled p) by (intros p; unfold f; by case_decide).
  assert (Hget : forall l', unscheduled <$> get_ldp (upd_ldp l f o) l' = unscheduled <$> get_ldp o l').
  { intros l'. rewrite get_upd by done. case_decide; [|done]. destruct (get_ldp o l') as [p|]; [|done]. cbn. by rewrite Hu. }
  split; [|split; [by apply skel_upd|by split]].
  assert (Heq : forall l' p', get_ldp (upd_ldp l f o) l' = Some p' -> exists p, get_ldp o l' = Some p /\ unscheduled p' = unscheduled p).
  { intros l' p' Hp'. specialize (Hget l'). rewrite Hp' in Hget. destruct (get_ldp o l') as [p|]; [|done]. exists p. split; [done|]. by apply (inj Some) in Hget. }
  apply (inv_change o); [done|by apply skel_upd| |apply (i_trie o Ho)| |apply (i_log o Ho)].
  - intros l' p' (p & Hp & Hpp)%Heq. apply (i_ldps o Ho) in Hp as [H1 H2 H3 H4].
    destruct (unscheduled_fields _ _ Hpp) as (F1 & F2 & F3 & F4 & F5 & F6 & F7 & F8). by split; rewrite ?F1, ?F2, ?F3, ?F4, ?F5, ?F6, ?F7, ?F8.
  - intros x e. cbn [prefixes upd_ldp set_ldps]. rewrite (i_entries o Ho). destruct e as [l'|a]; [|done]. cbn [entry_of].
    specialize (Hget l'). destruct (get_ldp (upd_ldp l f o) l') as [p'|], (get_ldp o l') as [p|]; try done.
    apply (inj Some) in Hget. destruct (unscheduled_fields _ _ Hget) as (_ & _ & _ & _ & F1 & _ & F2 & F3). split; intros (q & [= <-] & Hq1 & Hq2); eexists; (split; [done|]); split; congruence.
Qed.

Lemma quiet_is_Some o o' l : quiet o o' -> is_Some (get_ldp o l) -> is_Some (get_ldp o' l).
Proof. intros (_ & _ & _ & G) [p Hp]. specialize (G l). rewrite Hp in G. by destruct (get_ldp o' l). Qed.

Lemma schedule_unassigned_quiet ids l o : inv o -> (forall l2, l2 ∈ ids -> is_Some (get_ldp o l2)) ->
  exists o', schedule_unassigned ids l o = Some o' /\ quiet o o'.
Proof.
  revert o. induction ids as [|l2 ids IH]; intros o Ho Hids; cbn [schedule_unassigned]; [exists o; split; [done|by apply quiet_refl]|].
  destruct (Hids l2 ltac:(by left)) as [p2 ->]. cbn [mbind option_bind].
  set (o1 := if negb (assigned p2) && bool_decide (l2 ≠ l) then pa_routine_schedule l2 o else o).
  assert (Hq : quiet o o1) by (unfold o1; destruct (_ && _); [by apply quiet_schedule|by apply quiet_refl]).
  destruct (IH o1) as (o' & -> & Hq'); [apply Hq| |].
  - intros l3 Hl3. eapply quiet_is_Some; [exact Hq|]. apply Hids. by right.
  - exists o'. split; [done|]. by eapply quiet_trans.
Qed.

(** The pair [l] loses its prefix; other pairs are at most scheduled. *)
Record frees l o o' p p' : Prop := {
  fr_inv : inv o';
  fr_skel : skel o' = skel o;
  fr_entries : pt_entries (prefixes o') = filter (fun x => x.2 ≠ PAT_ASSIGNED l) (pt_entries (prefixes o));
  fr_get : get_ldp o' l = Some p';
  fr_assigned : assigned p' = false;
  fr_kept : (ldp_prefix p', ldp_plen p', best_assignment p', backoff p') = (ldp_prefix p, ldp_plen p, best_assignment p, backoff p);
  fr_timer : backoff_to p' = if assigned p then None else backoff_to p;
  fr_others : forall l', l' ≠ l -> unscheduled <$> get_ldp o' l' = unscheduled <$> get_ldp o l'
}.

Lemma no_entry o l p x : inv o -> get_ldp o l = Some p -> assigned p = false -> x ∈ pt_entries (prefixes o) -> x.2 ≠ PAT_ASSIGNED l.
Proof.
  intros Ho Hp Ha Hx He. destruct x as [x e]. cbn in He. subst e. apply (i_entries o Ho) in Hx as (q & Hq & Hqa & _). congruence.
Qed.

(** The prefix leaves the trie. *)
Lemma inv_released o l p : inv o -> get_ldp o l = Some p -> assigned p = true ->
  published p || applied p || adopting p || ha_apply_pending p = false ->
  exists t, pt_remove (prefixes o) (PAT_ASSIGNED l) = Some t /\ inv (upd_ldp l (set_assigned false) (set_prefixes t o)) /\
    pt_entries t = filter (fun x => x.2 ≠ PAT_ASSIGNED l) (pt_entries (prefixes o)).
Proof.
  intros Ho Hp Ha Hf.
  assert (Hin : (bits (ldp_prefix p) 0 (ldp_plen p), PAT_ASSIGNED l) ∈ pt_entries (prefixes o)) by (apply (i_entries o Ho); by exists p).
  destruct (pt_remove_ok (prefixes o) (PAT_ASSIGNED l)) as (t & -> & Ht & He); [apply (i_trie o Ho)|apply list_elem_of_fmap; eexists; by split; [|exact Hin]|].
  exists t. split; [done|]. split; [|done]. set (o1 := set_prefixes t o).
  assert (Hget : forall l', get_ldp (upd_ldp l (set_assigned false) o1) l' = if decide (l = l') then Some (set_assigned false p) else get_ldp o l').
  { intros l'. rewrite get_upd by done. case_decide; [subst l'; change (get_ldp o1 l) with (get_ldp o l); by rewrite Hp|done]. }
  apply (inv_change o); [done|by rewrite skel_upd| |done| |apply (i_log o Ho)].
  - intros l' q. rewrite Hget. case_decide; [intros [= <-]|apply (i_ldps o Ho)].
    destruct (i_ldps o Ho l p Hp) as [H1 H2 H3 H4]. split; cbn; try done. by rewrite Hf.
  - intros x e. cbn [prefixes upd_ldp set_ldps set_prefixes o1]. rewrite He, list_elem_of_filter, (i_entries o Ho). cbn [snd].
    destruct e as [l'|a]; cbn [entry_of]; [|by split; [intros [_ ?]|]]. rewrite Hget. case_decide as Hl.
    + subst l'. split; [by intros [[] _]|]. by intros (q & [= <-] & ? & _).
    + split; [by intros [_ ?]|]. intros ?. split; [congruence|done].
Qed.

(** Before the prefix is removed all other flags are off. *)
Lemma moves_flags_off l o p : inv o -> get_ldp o l = Some p -> assigned p = true ->
  exists o5 q,
    (let o1 := upd_ldp l (set_ha_apply_pending false) o in
     o2 ← (if applied p then pa_user_notify l CbApplied (upd_ldp l (set_applied false) o1) else Some o1);
     o3 ← pa_ldp_unpublish l true o2;
     o4 ← pa_ldp_unadopt l o3;
     Some (upd_ldp l (set_backoff_to None) o4)) = Some o5 /\ moves l o o5 q /\
    (assigned q, published q || applied q || adopting q || ha_apply_pending q, ldp_prefix q, ldp_plen q, best_assignment q, backoff q, backoff_to q) =
    (true, false, ldp_prefix p, ldp_plen p, best_assignment p, backoff p, None).
Proof.
  intros Ho Hp Ha. pose proof (i_ldps o Ho l p Hp) as [H1 H2 H3 H4]. cbv zeta.
  set (p1 := set_ha_apply_pending false p). set (p2 := set_applied false p1).
  assert (Hm1 : moves l o (upd_ldp l (set_ha_apply_pending false) o) p1) by (apply moves_upd; try done; split; cbn; try done).
  assert (exists o2, (if applied p then pa_user_notify l CbApplied (upd_ldp l (set_applied false) (upd_ldp l (set_ha_apply_pending false) o))
                      else Some (upd_ldp l (set_ha_apply_pending false) o)) = Some o2 /\ moves l o o2 p2) as (o2 & -> & Hm2).
  { destruct (applied p) eqn:Hap.
    - assert (Hm : moves l (upd_ldp l (set_ha_apply_pending false) o) (upd_ldp l (set_applied false) (upd_ldp l (set_ha_apply_pending false) o)) p2).
      { apply (moves_upd l _ p1); [apply Hm1|apply Hm1|done| |done|done|done]. split; cbn; try done. }
      destruct (moves_notify l _ p2 CbApplied ltac:(apply Hm) ltac:(apply Hm)) as (o2 & -> & Hm'); [by right|].
      exists o2. split; [done|]. by eapply moves_trans, moves_trans.
    - eexists. split; [done|]. replace p2 with p1; [done|]. unfold p2, p1. destruct p; cbn in *. by subst. }
  cbn [mbind option_bind]. destruct (pa_ldp_unpublish_moves l true o2 p2) as (o3 & -> & Hm3); [apply Hm2|apply Hm2|]. cbn [mbind option_bind].
  destruct (pa_ldp_unadopt_moves l o3 (unpublished true p2)) as (o4 & -> & Hm4); [apply Hm3|apply Hm3|]. cbn [mbind option_bind].
  eexists _, (set_backoff_to None (unadopted o3 (unpublished true p2))). split; [done|]. split.
  - eapply moves_trans; [exact Hm2|]. eapply moves_trans; [exact Hm3|]. eapply moves_trans; [exact Hm4|].
    pose proof Hm4 as (Ho4 & _ & _ & Hp4 & _). apply moves_upd; try done. destruct (i_ldps o4 Ho4 l _ Hp4). by split.
  - unfold unadopted, unpublished, p2, p1. cbn. destruct (published p) eqn:Hpu; cbn.
    + rewrite (H2 eq_refl). cbn. by rewrite (H2 eq_refl), Ha.
    + destruct (adopting p) eqn:Had; cbn; by rewrite ?Hpu, ?Had, ?Ha.
Qed.

Lemma pa_ldp_unassign_frees l o p : inv o -> get_ldp o l = Some p ->
  exists o' p', pa_ldp_unassign l o = Some o' /\ frees l o o' p p'.
Proof.
  intros Ho Hp. unfold pa_ldp_unassign. rewrite Hp. cbn [mbind option_bind]. destruct (assigned p) eqn:Ha; cbn [negb].
  2:{ exists o, p. split; [done|]. split; try done; [|by rewrite Ha]. symmetry. apply filter_all. intros x. by apply (no_entry o l p). }
  destruct (moves_flags_off l o p Ho Hp Ha) as (o5 & q & E5 & Hm5 & Hq). cbv zeta in E5 |- *.
  injection Hq as Qa Qf Qp Qn Qb Qk Qt. pose proof Hm5 as (Ho5 & Hs5 & Ht5 & Hp5 & Hl5).
  destruct (inv_released o5 l q Ho5 Hp5 Qa Qf) as (t & Ht & Hi6 & He6).
  set (o6 := upd_ldp l (set_assigned false) (set_prefixes t o5)) in *.
  assert (Hg6 : get_ldp o6 l = Some (set_assigned false q)) by (unfold o6; rewrite get_upd_same by done; change (get_ldp (set_prefixes t o5) l) with (get_ldp o5 l); by rewrite Hp5).
  destruct (moves_notify l o6 _ CbAssigned Hi6 Hg6 ltac:(by left)) as (o7 & Hn7 & Hm7).
  pose proof Hm7 as (Ho7 & Hs7 & Ht7 & Hp7 & Hl7).
  assert (Hs : skel o7 = skel o) by (rewrite Hs7; unfold o6; by rewrite skel_upd).
  destruct (schedule_unassigned_quiet (ldps_in_dp o7 (ldp_dp p)) l o7 Ho7) as (o8 & Hsch & Hq8).
  { intros l2. rewrite ldps_in_dp_get by apply (i_ids o7 Ho7). intros (p2 & -> & _). by eexists. }
  pose proof Hq8 as (Ho8 & Hs8 & Ht8 & Hl8).
  assert (Hp8 : exists p', get_ldp o8 l = Some p' /\ unscheduled p' = unscheduled (set_assigned false q)).
  { specialize (Hl8 l). rewrite Hp7 in Hl8. destruct (get_ldp o8 l) as [p'|]; [|done]. exists p'. split; [done|]. by apply (inj Some) in Hl8. }
  destruct Hp8 as (p' & Hp8 & Hpp). exists o8, p'. split.
  - destruct (if applied p then _ else _) as [o2|]; [|done]. cbn [mbind option_bind] in E5 |- *.
    destruct (pa_ldp_unpublish l true o2) as [o3|]; [|done]. cbn [mbind option_bind] in E5 |- *.
    destruct (pa_ldp_unadopt l o3) as [o4|]; [|done]. cbn [mbind option_bind] in E5 |- *. apply (inj Some) in E5. rewrite E5, Ht. cbn [mbind option_bind].
    fold o6. rewrite Hn7. cbn [mbind option_bind]. exact Hsch.
  - split; [exact Ho8|congruence| |exact Hp8|exact (f_equal assigned Hpp)| | |].
    + rewrite Ht8, Ht7. cbn. by rewrite He6, Ht5.
    + pose proof (f_equal (fun p => (ldp_prefix p, ldp_plen p, best_assignment p, backoff p)) Hpp) as Hk. cbn in Hk. rewrite Hk. congruence.
    + rewrite Ha. exact (eq_trans (f_equal backoff_to Hpp) Qt).
    + intros l' Hl'. rewrite Hl8, Hl7 by done. unfold o6. rewrite get_upd_other by done. change (get_ldp (set_prefixes t o5) l') with (get_ldp o5 l'). by rewrite Hl5.
Qed.

(** The pair [l] gets a prefix. *)
Record takes l (pfx : list Z) (plen : nat) o o' p p' : Prop := {
  tk_inv : inv o';
  tk_skel : skel o' = skel o;
  tk_entries : exists e1 e2, pt_entries (prefixes o) = e1 ++ e2 /\
    pt_entries (prefixes o') = e1 ++ (bits pfx 0 plen, PAT_ASSIGNED l) :: e2;
  tk_get : get_ldp o' l = Some p';
  tk_assigned : assigned p' = true;
  tk_prefix : bits (ldp_prefix p') 0 (ldp_plen p') = bits pfx 0 plen /\ ldp_plen p' = plen;
  tk_kept : (published p', applied p', adopting p', best_assignment p') = (published p, applied p, adopting p, best_assignment p);
  tk_timer : is_Some (backoff_to p');
  tk_others : forall l', l' ≠ l -> get_ldp o' l' = get_ldp o l'
}.

Lemma pa_prefix_cpy_ok pfx plen dst : prefix_ok pfx plen -> bytes_ok dst -> length dst = 16%nat ->
  exists x, pa_prefix_cpy pfx plen dst = Some x /\ prefix_ok x plen /\ bits x 0 plen = bits pfx 0 plen.
Proof.
  intros (Hb & Hl & Hp) Hd Hdl. unfold pa_prefix_cpy.
  destruct (bmemcpy_copied dst 0 pfx 0 0 plen Hd Hb) as (x & -> & Hxl & Hxb & Hx); [lia|lia|].
  exists x. split; [done|]. split; [split; [done|split; [congruence|done]]|].
  unfold bits. apply list_fmap_ext. intros i j Hj%lookup_seq. rewrite Hx, decide_True by lia. f_equal. lia.
Qed.

Lemma pa_ldp_assign_takes l pfx plen o p : inv o -> get_ldp o l = Some p -> assigned p = false -> prefix_ok pfx plen ->
  exists o' p', pa_ldp_assign l pfx plen o = Some (o', 0) /\ takes l pfx plen o o' p p'.
Proof.
  intros Ho Hp Ha Hpx. pose proof (i_ldps o Ho l p Hp) as [H1 H2 H3 (H4b & H4l & _)].
  assert (Hoff : published p = false /\ applied p = false /\ adopting p = false /\ ha_apply_pending p = false).
  { destruct (published p), (applied p), (adopting p), (ha_apply_pending p); try done; specialize (H1 eq_refl); congruence. }
  destruct Hoff as (F1 & F2 & F3 & F4).
  unfold pa_ldp_assign. rewrite Hp. cbn [mbind option_bind]. rewrite Ha.
  destruct (pa_prefix_cpy_ok pfx plen (ldp_prefix p) Hpx H4b H4l) as (x & -> & Hx & Hxb). cbn [mbind option_bind].
  destruct (prefix_ok_key _ _ Hpx) as [Hkey Hlen].
  destruct (pt_add_ok (prefixes o) (PAT_ASSIGNED l) pfx plen) as (t & l1 & l2 & Hadd & Ht & He1 & He2); [apply (i_trie o Ho)|done|done| |].
  { intros (y & Hy & Hin)%list_elem_of_fmap. by apply (no_entry o l p y Ho Hp Ha Hin). }
  cbn [prefixes upd_ldp set_ldps]. rewrite Hadd. cbn [mbind option_bind].
  set (f := fun p => set_assigned true (set_backoff_to (timeout_at o (u32 (2 * flooding_delay o))) (set_ldp_plen plen (set_ldp_prefix x p)))).
  set (o1 := upd_ldp l f (set_prefixes t o)).
  assert (E1 : upd_ldp l (set_assigned true) (upd_ldp l (set_backoff_to (timeout_at (set_prefixes t (upd_ldp l (fun p => set_ldp_plen plen (set_ldp_prefix x p)) o))
                 (u32 (2 * flooding_delay (set_prefixes t (upd_ldp l (fun p => set_ldp_plen plen (set_ldp_prefix x p)) o))))))
                 (set_prefixes t (upd_ldp l (fun p => set_ldp_plen plen (set_ldp_prefix x p)) o))) = o1).
  { change (set_prefixes t (upd_ldp l ?g o)) with (upd_ldp l g (set_prefixes t o)). by rewrite !upd_upd. }
  rewrite E1. clear E1.
  assert (Hget : forall l', get_ldp o1 l' = if decide (l = l') then Some (f p) else get_ldp o l').
  { intros l'. unfold o1. rewrite get_upd by done. change (get_ldp (set_prefixes t o) l') with (get_ldp o l'). case_decide; [subst; by rewrite Hp|done]. }
  assert (Hi : inv o1).
  { apply (inv_change o); [done|unfold o1; by rewrite skel_upd| |done| |apply (i_log o Ho)].
    - intros l' q. rewrite Hget. case_decide; [intros [= <-]|apply (i_ldps o Ho)]. by split.
    - intros y e. change (prefixes o1) with t. rewrite He2, elem_of_app, elem_of_cons.
      transitivity ((y, e) = (bits pfx 0 plen, PAT_ASSIGNED l) \/ (y, e) ∈ pt_entries (prefixes o)); [rewrite He1, elem_of_app; tauto|].
      rewrite (i_entries o Ho). destruct e as [l'|a]; cbn [entry_of]; [|by split; [intros [?|?]|right]]. rewrite Hget. case_decide as Hl.
      + subst l'. split.
        * intros [[= ->]|(q & Hq & Hqa & _)]; [|congruence]. eexists. split; [done|]. split; [done|]. by symmetry.
        * intros (q & [= <-] & _ & ->). left. f_equal. exact Hxb.
      + split; [intros [[= _ ?]|?]; [congruence|done]|by right]. }
  destruct (moves_notify l o1 (f p) CbAssigned Hi) as (o2 & -> & Hm); [by rewrite Hget, decide_True|by left|].
  cbn [mbind option_bind]. exists o2, (f p). split; [done|]. destruct Hm as (Ho2 & Hs2 & Ht2 & Hp2 & Hl2).
  split; [done| | |done|done|done|done|by eexists|].
  - rewrite Hs2. unfold o1. by rewrite skel_upd.
  - exists l1, l2. by rewrite Ht2.
  - intros l' Hl'. by rewrite Hl2, Hget, decide_False.
Qed.

End assign.
