(* ===== verification/PaPublish.v ===== *)
(** Publishing a prefix in the prefix assignment: conflicting prefixes are taken from
    other pairs, and what the core relies on from rules. *)
From S2P Require Import Prelude Bitops Tlv BtrieBits BtrieWf BtrieIter BtrieFree BtrieEach PaTrie PaCore PaFacts PaInv.

(** ** Taking conflicting prefixes away *)

Section conflicts.
Context `{PT : !PrefixTrie pentry, PTO : !PrefixTrieOk pentry, PX : !PaExt}.
Implicit Types (o : pa_core) (l : nat) (p : pa_ldp).

Lemma met_entry o pfx plen e : inv o -> e ∈ pt_met (prefixes o) pfx plen <-> exists x, entry_of o x e /\ overlap (bits pfx 0 plen) x.
Proof.
  intros Ho. unfold pt_met. rewrite list_elem_of_fmap. split.
  - intros ([x e'] & -> & [Hx Hin]%list_elem_of_filter). exists x. split; [by apply (i_entries o Ho)|done].
  - intros (x & Hx & Hov). exists (x, e). split; [done|]. apply list_elem_of_filter. split; [done|]. by apply (i_entries o Ho).
Qed.

Lemma met_nodup o pfx plen : inv o -> NoDup (pt_met (prefixes o) pfx plen).
Proof. intros Ho. apply NoDup_fmap_filter, pt_unique, (i_trie o Ho). Qed.

Lemma met_filter t t' e pfx plen : pt_entries t' = filter (fun x => x.2 ≠ e) (pt_entries t) ->
  pt_met t' pfx plen = filter (fun x => x ≠ e) (pt_met t pfx plen).
Proof.
  intros E. unfold pt_met. rewrite E. clear E. induction (pt_entries t) as [|x es IH]; [done|].
  destruct (decide (x.2 = e)) as [Hx|Hx]; destruct (decide (overlap (bits pfx 0 plen) x.1)) as [Hov|Hov].
  - rewrite filter_cons_False by tauto. rewrite (filter_cons_True _ x) by done. cbn [fmap list_fmap]. rewrite filter_cons_False by tauto. exact IH.
  - rewrite filter_cons_False by tauto. rewrite (filter_cons_False _ x) by done. exact IH.
  - rewrite filter_cons_True by done. rewrite !(filter_cons_True _ x) by done. cbn [fmap list_fmap]. rewrite filter_cons_True by done. f_equal. exact IH.
  - rewrite filter_cons_True by done. rewrite !(filter_cons_False _ x) by done. exact IH.
Qed.

(** Entries are pairs and advertised prefixes. *)
Lemma pt_met_length o pfx plen : inv o -> (length (pt_met (prefixes o) pfx plen) <= length (ldps o) + length (advps o))%nat.
Proof.
  intros Ho. set (all := (PAT_ASSIGNED <$> (ldp_id <$> ldps o)) ++ (PAT_ADVERTISED <$> (advp_id <$> advps o))).
  assert (Hle : (length (pt_met (prefixes o) pfx plen) <= length all)%nat).
  { apply submseteq_length, NoDup_submseteq; [by apply met_nodup|]. intros e (x & Hx & _)%met_entry; [|done].
    unfold all. rewrite elem_of_app. destruct e as [l|a].
    - left. destruct Hx as (p & [Hp <-]%get_ldp_in & _). apply list_elem_of_fmap. exists (ldp_id p). split; [done|]. apply list_elem_of_fmap. by exists p.
    - right. destruct Hx as (v & Hv & _). unfold get_advp in Hv. destruct (list_find _ _) as [[i w]|] eqn:Hf; [|done]. injection Hv as <-.
      apply list_find_Some in Hf as (Hi & <- & _). apply list_elem_of_fmap. exists (advp_id w). split; [done|]. apply list_elem_of_fmap. exists w.
      split; [done|]. by eapply list_elem_of_lookup_2. }
  unfold all in Hle. rewrite length_app, !length_fmap in Hle. exact Hle.
Qed.

(** Whether a pair advertises its prefix or is about to. *)
Definition holds p : bool := published p || adopting p.

Lemma holds_assigned o l p : inv o -> get_ldp o l = Some p -> holds p = true -> assigned p = true.
Proof.
  intros Ho Hp H. apply (lo_assigned _ _ (i_ldps o Ho l p Hp)). unfold holds in H. destruct (published p), (adopting p); rewrite ?orb_true_r; done.
Qed.

(** Pairs other than [l] that advertise a prefix have done so before. *)
Definition shrinks_but l o o' : Prop :=
  forall l' p', l' ≠ l -> get_ldp o' l' = Some p' -> holds p' = true ->
    exists p, get_ldp o l' = Some p /\ holds p = true /\ ldp_prefix p' = ldp_prefix p /\ ldp_plen p' = ldp_plen p.

Lemma shrinks_trans l o1 o2 o3 : shrinks_but l o1 o2 -> shrinks_but l o2 o3 -> shrinks_but l o1 o3.
Proof.
  intros H1 H2 l' p3 Hl' Hp3 Hh3. destruct (H2 l' p3 Hl' Hp3 Hh3) as (p2 & Hp2 & Hh2 & E1 & E2).
  destruct (H1 l' p2 Hl' Hp2 Hh2) as (p1 & Hp1 & Hh1 & E3 & E4). exists p1. split; [done|]. split; [done|]. split; congruence.
Qed.

Lemma shrinks_others l o o' : (forall l', l' ≠ l -> unscheduled <$> get_ldp o' l' = unscheduled <$> get_ldp o l') -> shrinks_but l o o'.
Proof.
  intros H l' p' Hl' Hp' Hh. specialize (H l' Hl'). rewrite Hp' in H. destruct (get_ldp o l') as [p|]; [|done]. exists p.
  apply (inj Some) in H. destruct (unscheduled_fields _ _ H) as (F1 & _ & F3 & _ & _ & _ & F7 & F8). unfold holds in *. rewrite F1, F3 in Hh. done.
Qed.

Lemma shrinks_same l o o' : (forall l', l' ≠ l -> get_ldp o' l' = get_ldp o l') -> shrinks_but l o o'.
Proof. intros H. apply shrinks_others. intros l' Hl'. by rewrite H. Qed.

(** Another pair has lost its prefix. *)
Lemma shrinks_frees l l2 o o' p p' : frees l2 o o' p p' -> shrinks_but l o o'.
Proof.
  intros [F1 F2 F3 F4 F5 F6 F7 F8] l' q' Hl' Hq' Hh. destruct (decide (l' = l2)) as [->|Hne].
  - assert (q' = p') as -> by congruence. rewrite (holds_assigned o' l2 p') in F5; done.
  - by apply (shrinks_others l2 o o' F8 l').
Qed.

(** Entries of pairs other than [l]. *)
Definition foreign l (e : pentry) : Prop := match e with PAT_ASSIGNED l2 => l2 ≠ l | PAT_ADVERTISED _ => False end.

Lemma filter_suffix (pre todo : list pentry) e : NoDup (pre ++ e :: todo) -> filter (fun x => x ≠ e) (pre ++ e :: todo) = pre ++ todo.
Proof.
  intros Hnd. rewrite filter_app, filter_cons_False by tauto.
  apply NoDup_app in Hnd as (_ & Hd & He). apply NoDup_cons in He as [He _].
  rewrite !filter_all; [done| |].
  - intros x Hx ->. done.
  - intros x Hx ->. apply (Hd e Hx). by left.
Qed.

Lemma next_suffix o pre e todo pfx plen : inv o -> prefix_ok pfx plen -> pt_met (prefixes o) pfx plen = pre ++ e :: todo ->
  pt_next_updown (prefixes o) e pfx plen = Some (hd_error todo).
Proof.
  intros Ho Hp Hm. destruct (prefix_ok_key _ _ Hp) as [Hk Hl]. pose proof (met_nodup o pfx plen Ho) as Hnd. rewrite Hm in Hnd.
  rewrite pt_next_updown_ok; [|apply (i_trie o Ho)|done|done|rewrite Hm; apply elem_of_app; right; by left].
  rewrite Hm, following_app; [cbn; by rewrite decide_True|]. intros He. apply NoDup_app in Hnd as (_ & Hd & _). apply (Hd e He). by left.
Qed.

Lemma unassign_conflicts_ok fuel l pfx plen pre todo o : inv o -> prefix_ok pfx plen ->
  pt_met (prefixes o) pfx plen = pre ++ todo -> (forall e, e ∈ pre -> ~ foreign l e) -> (length todo < fuel)%nat ->
  exists o', unassign_conflicts fuel l pfx plen (hd_error todo) (hd_error (tail todo)) o = Some o' /\
    inv o' /\ skel o' = skel o /\ unscheduled <$> get_ldp o' l = unscheduled <$> get_ldp o l /\ shrinks_but l o o' /\
    forall e, e ∈ pt_met (prefixes o') pfx plen -> ~ foreign l e.
Proof.
  revert pre todo o. induction fuel as [|fuel IH]; intros pre todo o Ho Hpx Hm Hpre Hlen; [lia|].
  destruct todo as [|e todo]; cbn [hd_error unassign_conflicts].
  { exists o. rewrite Hm, app_nil_r. split; [done|]. split; [done|]. split; [done|]. split; [done|]. split; [by apply shrinks_same|done]. }
  cbn [tail length] in *. pose proof (met_nodup o pfx plen Ho) as Hnd. rewrite Hm in Hnd.
  assert (Hbody : exists o1 pre1, match e with
      | PAT_ASSIGNED l2 => if decide (l2 = l) then Some o else o ← pa_ldp_unassign l2 o; Some (pa_routine_schedule l2 o)
      | PAT_ADVERTISED _ => Some o end = Some o1 /\
    inv o1 /\ skel o1 = skel o /\ unscheduled <$> get_ldp o1 l = unscheduled <$> get_ldp o l /\ shrinks_but l o o1 /\
    pt_met (prefixes o1) pfx plen = pre1 ++ todo /\ forall e, e ∈ pre1 -> ~ foreign l e).
  { assert (Hkeep : ~ foreign l e -> exists pre1, pt_met (prefixes o) pfx plen = pre1 ++ todo /\ forall e, e ∈ pre1 -> ~ foreign l e).
    { intros Hf. exists (pre ++ [e]). split; [by rewrite <- app_assoc|]. intros e' [He'|He'%list_elem_of_singleton]%elem_of_app; [by apply Hpre|by subst]. }
    destruct e as [l2|a]; [destruct (decide (l2 = l)) as [->|Hl2]|].
    - destruct Hkeep as (pre1 & H1 & H2); [by intros []|]. exists o, pre1. split; [done|]. split; [done|]. split; [done|]. split; [done|]. split; [by apply shrinks_same|done].
    - assert (Hin : PAT_ASSIGNED l2 ∈ pt_met (prefixes o) pfx plen) by (rewrite Hm; apply elem_of_app; right; by left).
      apply met_entry in Hin as (x & (p2 & Hp2 & _) & _); [|done].
      destruct (pa_ldp_unassign_frees l2 o p2 Ho Hp2) as (o1 & p2' & -> & Hfr). pose proof Hfr as [F1 F2 F3 F4 F5 F6 F7 F8]. cbn [mbind option_bind].
      destruct (quiet_schedule l2 o1 F1) as (Q1 & Q2 & Q3 & Q4). exists (pa_routine_schedule l2 o1), pre. split; [done|].
      split; [done|]. split; [congruence|]. split; [by rewrite Q4, F8|].
      split; [eapply shrinks_trans; [by eapply shrinks_frees|apply shrinks_others; intros l' _; apply Q4]|]. split; [|done].
      rewrite Q3, (met_filter _ _ _ _ _ F3), Hm. by apply filter_suffix.
    - destruct Hkeep as (pre1 & H1 & H2); [by intros []|]. exists o, pre1. split; [done|]. split; [done|]. split; [done|]. split; [done|]. split; [by apply shrinks_same|done]. }
  destruct Hbody as (o1 & pre1 & -> & Ho1 & Hs1 & Hg1 & Hsh1 & Hm1 & Hpre1). cbn [mbind option_bind].
  assert (Hnext : match hd_error todo with Some x => pt_next_updown (prefixes o1) x pfx plen | None => Some None end = Some (hd_error (tail todo))).
  { destruct todo as [|e2 todo]; [done|]. cbn [hd_error tail]. by apply (next_suffix o1 pre1). }
  rewrite Hnext. cbn [mbind option_bind].
  destruct (IH pre1 todo o1 Ho1 Hpx Hm1 Hpre1 ltac:(lia)) as (o' & Ho' & Hi & Hs & Hg & Hsh & Hno).
  exists o'. split; [exact Ho'|]. split; [done|]. split; [congruence|]. split; [congruence|]. split; [by eapply shrinks_trans|done].
Qed.

End conflicts.

(** ** The rules *)

(** A rule uses a target where [enum pa_rule_target] says it is valid. *)
Definition match_ok (p : pa_ldp) (target : pa_rule_target) (arg : pa_rule_arg) : Prop :=
  (target = PA_RULE_ADOPT -> assigned p = true /\ published p = false /\ best_assignment p = None /\ is_Some (arg_priority arg)) /\
  (target = PA_RULE_PUBLISH -> is_Some (arg_priority arg) /\ exists pfx plen, arg_prefix arg = Some (pfx, plen) /\ prefix_ok pfx plen).

(** A prefix that a rule has written is in its bytes. *)
Definition arg_ok (arg : pa_rule_arg) : Prop := forall pfx plen, arg_prefix arg = Some (pfx, plen) -> prefix_ok pfx plen.

(** What the core relies on: filters and priorities are defined, and a rule whose
    maximal priority is not zero answers as above, if it does. *)
Class PaRulesOk `{PT : !PrefixTrie pentry, PX : !PaExt} : Prop := {
  filter_total : forall r o l p, inv o -> get_ldp o l = Some p -> is_Some (filter_accept r o p);
  priority_total : forall r o l p, inv o -> get_ldp o l = Some p -> is_Some (get_max_priority r o p);
  rule_match_ok : forall r o l p m n prio arg target arg' k, inv o -> get_ldp o l = Some p -> get_max_priority r o p = Some m -> m ≠ 0 -> arg_ok arg ->
    rule_match r (set_pa_randoms n o) p prio arg = Some (target, arg', k) -> match_ok p target arg' /\ arg_ok arg'
}.

Section fails.
Context `{PT : !PrefixTrie pentry, PX : !PaExt}.
Implicit Types (o : pa_core) (l : nat) (p : pa_ldp).

(** The match of a rule, asked in this state with this priority and this argument, is not
    defined, or it does not say its priority. *)
Definition rule_fails (r : nat) o p (prio : Z) (arg : pa_rule_arg) : Prop :=
  match rule_match r o p prio arg with
  | None => True
  | Some (target, arg', _) => target ≠ PA_RULE_NO_MATCH /\ arg_rule_priority arg' = None
  end.

(** The loop over the rules [rs], which starts with [o], [prio] and [arg], comes to ask the
    rule [r]: at its head, after a rule without a match, or after one with a match. *)
Inductive asks p (r : nat) : pa_core -> list (nat * Z) -> Z -> pa_rule_arg -> pa_core -> Z -> pa_rule_arg -> Prop :=
| asks_here o m rs prio arg : prio < m -> asks p r o ((r, m) :: rs) prio arg o prio arg
| asks_no_match o r1 m rs prio arg arg1 n o' prio' arg' : prio < m -> rule_match r1 o p prio arg = Some (PA_RULE_NO_MATCH, arg1, n) ->
    asks p r (set_pa_randoms n o) rs prio arg1 o' prio' arg' -> asks p r o ((r1, m) :: rs) prio arg o' prio' arg'
| asks_match o r1 m rs prio arg target arg1 n prio1 o' prio' arg' : prio < m -> rule_match r1 o p prio arg = Some (target, arg1, n) ->
    target ≠ PA_RULE_NO_MATCH -> arg_rule_priority arg1 = Some prio1 -> asks p r (set_pa_randoms n o) rs prio1 arg1 o' prio' arg' ->
    asks p r o ((r1, m) :: rs) prio arg o' prio' arg'.

(** Executing the rules for a pair comes to one that fails. *)
Definition rules_break l (fb : bool) o : Prop :=
  let o := upd_ldp l (set_backoff fb) o in
  exists p rs r o' prio arg, get_ldp o l = Some p /\ sort_rules o p (core_rules o) [] = Some rs /\
    asks p r o rs (if published p || adopting p then rule_priority p else 0) (mk_pa_rule_arg None None None) o' prio arg /\ rule_fails r o' p prio arg.

(** The routine of a pair gets that far. *)
Definition breaks l (fb : bool) o : Prop :=
  exists o1 o2, find_best l o = Some o1 /\ check_assignment l o1 = Some o2 /\ rules_break l fb o2.

End fails.

Section rules.
Context `{PT : !PrefixTrie pentry, PTO : !PrefixTrieOk pentry, PX : !PaExt, PR : !PaRulesOk}.
Implicit Types (o : pa_core) (l : nat) (p : pa_ldp).

Lemma insert_rule_elem x y (rs : list (nat * Z)) : x ∈ insert_rule y rs <-> x = y \/ x ∈ rs.
Proof.
  induction rs as [|z rs IH]; cbn [insert_rule]; [by rewrite elem_of_cons|]. case_decide; [by rewrite !(elem_of_cons (z :: rs))|].
  rewrite !elem_of_cons, IH. tauto.
Qed.

Lemma sort_rules_ok o l p ids rs : inv o -> get_ldp o l = Some p ->
  exists rs', sort_rules o p ids rs = Some rs' /\
    forall x, x ∈ rs' -> x ∈ rs \/ (x.1 ∈ ids /\ get_max_priority x.1 o p = Some x.2 /\ x.2 ≠ 0).
Proof.
  intros Ho Hp. revert rs. induction ids as [|r ids IH]; intros rs; cbn [sort_rules]; [exists rs; split; [done|]; by left|].
  destruct (filter_total r o l p Ho Hp) as [b ->]. destruct (priority_total r o l p Ho Hp) as [m Hm]. rewrite Hm. cbn [mbind option_bind].
  destruct b; cbn [negb].
  - destruct (IH (if decide (m = 0) then rs else insert_rule (r, m) rs)) as (rs' & -> & H). exists rs'. split; [done|].
    intros x Hx. destruct (H x Hx) as [H1|(H1 & H2)]; [|right; split; [by right|done]]. case_decide; [by left|].
    apply insert_rule_elem in H1 as [->|H1]; [right; split; [by left|done]|by left].
  - destruct (IH rs) as (rs' & -> & H). exists rs'. split; [done|]. intros x Hx. destruct (H x Hx) as [?|[? ?]]; [by left|right; split; [by right|done]].
Qed.

(** The result of [best_rule] is that of a rule of the list. *)
Definition result_ok (rs : list nat) p (res : option rule_result) : Prop :=
  match res with
  | None => True
  | Some (r, target, arg) => r ∈ rs /\ is_Some (arg_rule_priority arg) /\ match_ok p target arg
  end.

Lemma best_rule_ok o l p rs k prio arg best (ids : list nat) : inv o -> get_ldp o l = Some p ->
  (forall x, x ∈ rs -> x.1 ∈ ids /\ get_max_priority x.1 o p = Some x.2 /\ x.2 ≠ 0) -> arg_ok arg -> result_ok ids p best ->
  match best_rule (set_pa_randoms k o) p rs prio arg best with
  | Some (o', res) => (exists n, o' = set_pa_randoms n o) /\ result_ok ids p res
  | None => exists r o' prio' arg', asks p r (set_pa_randoms k o) rs prio arg o' prio' arg' /\ rule_fails r o' p prio' arg'
  end.
Proof.
  intros Ho Hp. revert k prio arg best. induction rs as [|[r m] rs IH]; intros k prio arg best Hrs Harg Hb; cbn [best_rule]; [split; [by exists k|done]|].
  destruct (decide (m <= prio)); [split; [by exists k|done]|]. destruct (Hrs (r, m) ltac:(by left)) as (Hr & Hm & Hm0). cbn [fst snd] in *.
  destruct (rule_match r (set_pa_randoms k o) p prio arg) as [[[target arg'] k']|] eqn:Hrm; cbn [mbind option_bind].
  2:{ exists r, (set_pa_randoms k o), prio, arg. split; [apply asks_here; lia|]. unfold rule_fails. by rewrite Hrm. }
  destruct (rule_match_ok r o l p m k prio arg target arg' k' Ho Hp Hm Hm0 Harg Hrm) as [Hmatch Harg'].
  change (set_pa_randoms k' (set_pa_randoms k o)) with (set_pa_randoms k' o).
  assert (Hrs' : forall x, x ∈ rs -> x.1 ∈ ids /\ get_max_priority x.1 o p = Some x.2 /\ x.2 ≠ 0) by (intros x Hx; apply Hrs; by right).
  destruct (decide (target = PA_RULE_NO_MATCH)) as [->|Ht].
  { specialize (IH k' prio arg' best Hrs' Harg' Hb). destruct (best_rule _ _ _ _ _ _) as [[o' res]|]; [done|]. destruct IH as (r2 & o2 & prio2 & arg2 & Hask & Hf).
    exists r2, o2, prio2, arg2. split; [|done]. eapply asks_no_match; [lia|exact Hrm|exact Hask]. }
  destruct (arg_rule_priority arg') as [pr|] eqn:Hpr; cbn [mbind option_bind].
  - assert (Hb' : result_ok ids p (Some (r, target, arg'))) by (split; [done|]; by rewrite Hpr). specialize (IH k' pr arg' _ Hrs' Harg' Hb').
    destruct (best_rule _ _ _ _ _ _) as [[o' res]|]; [done|]. destruct IH as (r2 & o2 & prio2 & arg2 & Hask & Hf).
    exists r2, o2, prio2, arg2. split; [|done]. eapply asks_match; [lia|exact Hrm|done|exact Hpr|exact Hask].
  - exists r, (set_pa_randoms k o), prio, arg. split; [apply asks_here; lia|]. unfold rule_fails. by rewrite Hrm.
Qed.

End rules.

(** ** Publishing *)

Section publish.
Context `{PT : !PrefixTrie pentry, PTO : !PrefixTrieOk pentry, PX : !PaExt}.
Implicit Types (o : pa_core) (l : nat) (p : pa_ldp).

Lemma prefix_equals_ok x1 n1 x2 n2 : prefix_ok x1 n1 -> prefix_ok x2 n2 ->
  pa_prefix_equals x1 n1 x2 n2 = Some (bool_decide (bits x1 0 n1 = bits x2 0 n2)).
Proof.
  intros (Hb1 & Hl1 & Hn1) (Hb2 & Hl2 & Hn2). unfold pa_prefix_equals. case_decide as Hn.
  - subst n2. unfold pa_prefix_contains. destruct (bmemcmp_bits x1 0 x2 0 n1 Hb1 Hb2) as (r & -> & Hr); [lia|lia|]. cbn [mbind option_bind].
    f_equal. apply bool_decide_ext. rewrite <- bits_cmp_Eq by (by rewrite !length_bits). change (8 * 0)%nat with 0%nat in Hr. rewrite <- Hr. by rewrite Z.compare_eq_iff.
  - rewrite bool_decide_false; [done|]. intros E. apply (f_equal length) in E. by rewrite !length_bits in E.
Qed.

(** No other pair has a prefix that overlaps. *)
Definition alone l o (pfx : list Z) (plen : nat) : Prop :=
  forall l2 q, l2 ≠ l -> get_ldp o l2 = Some q -> assigned q = true -> ~ overlap (bits pfx 0 plen) (bits (ldp_prefix q) 0 (ldp_plen q)).

Lemma alone_met l o pfx plen : inv o -> (forall e, e ∈ pt_met (prefixes o) pfx plen -> ~ foreign l e) <-> alone l o pfx plen.
Proof.
  intros Ho. split.
  - intros H l2 q Hl2 Hq Ha Hov. apply (H (PAT_ASSIGNED l2)); [|done]. apply met_entry; [done|]. eexists. split; [|exact Hov]. by exists q.
  - intros H [l2|a] He Hf; [|done]. apply met_entry in He as (x & (q & Hq & Ha & ->) & Hov); [|done]. by apply (H l2 q Hf Hq Ha).
Qed.

(** Pairs other than [l] keep their prefix or are at most scheduled. *)
Lemma alone_others l o o' pfx plen : (forall l', l' ≠ l -> unscheduled <$> get_ldp o' l' = unscheduled <$> get_ldp o l') ->
  alone l o pfx plen -> alone l o' pfx plen.
Proof.
  intros H Hal l2 q Hl2 Hq Ha. specialize (H l2 Hl2). rewrite Hq in H. destruct (get_ldp o l2) as [q0|] eqn:Hq0; [|done].
  apply (inj Some) in H. destruct (unscheduled_fields _ _ H) as (_ & _ & _ & _ & F1 & _ & F2 & F3). rewrite F2, F3.
  apply (Hal l2 q0); [done|done|congruence].
Qed.

Lemma alone_same l o o' pfx plen : (forall l', l' ≠ l -> get_ldp o' l' = get_ldp o l') -> alone l o pfx plen -> alone l o' pfx plen.
Proof. intros H. apply alone_others. intros l' Hl'. by rewrite H. Qed.

(** The result of publishing [pfx]. *)
Definition publishes l (pfx : list Z) (plen : nat) o o' : Prop :=
  inv o' /\ skel o' = skel o /\ alone l o' pfx plen /\ shrinks_but l o o' /\
  exists p', get_ldp o' l = Some p' /\ assigned p' = true /\ published p' = true /\ best_assignment p' = None /\
    bits (ldp_prefix p') 0 (ldp_plen p') = bits pfx 0 plen.

(** The pair has the prefix, but is neither published nor adopted. *)
Lemma take_prefix l pfx plen o p : inv o -> get_ldp o l = Some p -> prefix_ok pfx plen -> alone l o pfx plen ->
  exists o' p',
    (o ← (if assigned p then
            same ← pa_prefix_equals pfx plen (ldp_prefix p) (ldp_plen p);
            if (same : bool) then Some o else pa_ldp_unassign l o
          else Some o);
     p ← get_ldp o l;
     if assigned p then o ← pa_ldp_unpublish l false o; pa_ldp_unadopt l o
     else '(o, _) ← pa_ldp_assign l pfx plen o; Some o) = Some o' /\
    inv o' /\ skel o' = skel o /\ alone l o' pfx plen /\ shrinks_but l o o' /\ get_ldp o' l = Some p' /\ assigned p' = true /\ published p' = false /\
    bits (ldp_prefix p') 0 (ldp_plen p') = bits pfx 0 plen.
Proof.
  intros Ho Hp Hpx Hal.
  assert (exists o1 p1, (if assigned p then
            same ← pa_prefix_equals pfx plen (ldp_prefix p) (ldp_plen p);
            if (same : bool) then Some o else pa_ldp_unassign l o
          else Some o) = Some o1 /\ inv o1 /\ skel o1 = skel o /\ alone l o1 pfx plen /\ shrinks_but l o o1 /\ get_ldp o1 l = Some p1 /\
          (assigned p1 = true -> bits (ldp_prefix p1) 0 (ldp_plen p1) = bits pfx 0 plen)) as (o1 & p1 & -> & Ho1 & Hs1 & Hal1 & Hsh1 & Hp1 & Hx1).
  { assert (Hrefl : shrinks_but l o o) by by apply shrinks_same. destruct (assigned p) eqn:Ha; [|exists o, p; by rewrite Ha].
    rewrite prefix_equals_ok by (done || apply (i_ldps o Ho l p Hp)). cbn [mbind option_bind]. case_bool_decide as Hx; [by exists o, p|].
    destruct (pa_ldp_unassign_frees l o p Ho Hp) as (o1 & p1 & -> & [F1 F2 F3 F4 F5 F6 F7 F8]). exists o1, p1.
    split; [done|]. split; [done|]. split; [done|]. split; [by eapply alone_others|]. split; [by apply shrinks_others|]. split; [done|]. congruence. }
  cbn [mbind option_bind]. rewrite Hp1. cbn [mbind option_bind]. destruct (assigned p1) eqn:Ha1.
  - destruct (pa_ldp_unpublish_moves l false o1 p1 Ho1 Hp1) as (o2 & -> & Hm2). pose proof Hm2 as (Ho2 & _ & _ & Hp2 & _). cbn [mbind option_bind].
    destruct (pa_ldp_unadopt_moves l o2 _ Ho2 Hp2) as (o3 & -> & Hm3). pose proof (moves_trans _ _ _ _ _ _ Hm2 Hm3) as (Ho3 & Hs3 & _ & Hp3 & Hl3).
    eexists _, _. split; [done|]. split; [done|]. split; [congruence|]. split; [by eapply alone_same|].
    split; [eapply shrinks_trans; [exact Hsh1|by apply shrinks_same]|]. split; [exact Hp3|].
    unfold unadopted, unpublished. destruct (published p1) eqn:Hpu; cbn.
    + rewrite (lo_exclusive _ _ (i_ldps o1 Ho1 l p1 Hp1) Hpu). cbn. auto.
    + destruct (adopting p1), (applied p1); cbn; auto.
  - destruct (pa_ldp_assign_takes l pfx plen o1 p1 Ho1 Hp1 Ha1 Hpx) as (o2 & p2 & -> & [T1 T2 T3 T4 T5 T6 T7 T8 T9]). cbn [mbind option_bind].
    exists o2, p2. split; [done|]. split; [done|]. split; [congruence|]. split; [by eapply alone_same|].
    split; [eapply shrinks_trans; [exact Hsh1|by apply shrinks_same]|]. split; [done|]. split; [done|].
    split; [|apply T6]. assert (published p1 = false).
    { destruct (published p1) eqn:E; [|done]. rewrite (lo_assigned _ _ (i_ldps o1 Ho1 l p1 Hp1)) in Ha1; [done|]. by rewrite E. }
    congruence.
Qed.

Lemma publish_prefix_ok l r arg o p pfx plen : inv o -> get_ldp o l = Some p -> r ∈ core_rules o ->
  arg_prefix arg = Some (pfx, plen) -> prefix_ok pfx plen -> is_Some (arg_priority arg) -> is_Some (arg_rule_priority arg) ->
  exists o', publish_prefix l r arg o = Some o' /\ publishes l pfx plen o o'.
Proof.
  intros Ho Hp Hr Hx Hpx [prio Hprio] [rprio Hrprio]. destruct (prefix_ok_key _ _ Hpx) as [Hk Hl]. unfold publish_prefix.
  rewrite Hx. cbn [mbind option_bind]. rewrite (pt_first_updown_ok (prefixes o) pfx plen (i_trie o Ho) Hk Hl). cbn [mbind option_bind].
  set (L := pt_met (prefixes o) pfx plen).
  assert (Hnext : match hd_error L with Some x => pt_next_updown (prefixes o) x pfx plen | None => Some None end = Some (hd_error (tail L))).
  { destruct L as [|e L'] eqn:E; [done|]. by apply (next_suffix o [] e L'). }
  rewrite Hnext. cbn [mbind option_bind].
  destruct (unassign_conflicts_ok (length (ldps o) + length (advps o) + 1) l pfx plen [] L o Ho Hpx eq_refl) as (o1 & -> & Ho1 & Hs1 & Hg1 & Hsh1 & Hno).
  { intros e He. by apply not_elem_of_nil in He. }
  { pose proof (pt_met_length o pfx plen Ho). unfold L. lia. }
  cbn [mbind option_bind]. rewrite Hp in Hg1. destruct (get_ldp o1 l) as [p1|] eqn:Hp1; [|done]. cbn [mbind option_bind].
  destruct (take_prefix l pfx plen o1 p1 Ho1 Hp1 Hpx) as (o2 & p2 & E & Ho2 & Hs2 & Hal2 & Hsh2 & Hp2 & Ha2 & Hpub2 & Hx2); [by apply alone_met|].
  destruct (if assigned p1 then _ else Some o1) as [o1'|]; [|done]. cbn [mbind option_bind] in E |- *.
  destruct (get_ldp o1' l) as [p1'|]; [|done]. cbn [mbind option_bind] in E |- *. rewrite E. cbn [mbind option_bind].
  rewrite Hprio, Hrprio. cbn [mbind option_bind].
  destruct (pa_ldp_publish_moves l r prio rprio o2 p2 Ho2 Hp2 Ha2) as (o3 & -> & Hm3); [by rewrite (skel_rules _ _ Hs2), (skel_rules _ _ Hs1)|].
  rewrite Hpub2 in Hm3. cbn [mbind option_bind]. eexists. split; [done|].
  pose proof Hm3 as (Ho3 & _ & _ & Hp3 & _). pose proof (i_ldps o3 Ho3 l _ Hp3) as Hok3.
  assert (Hm4 := moves_upd l o3 _ (set_best_assignment None) Ho3 Hp3 ltac:(done) ltac:(destruct Hok3; by split) eq_refl eq_refl eq_refl).
  pose proof (moves_trans _ _ _ _ _ _ Hm3 Hm4) as (Ho4 & Hs4 & _ & Hp4 & Hl4).
  split; [done|]. split; [congruence|]. split; [by eapply alone_same|].
  split; [eapply shrinks_trans; [exact Hsh1|]; eapply shrinks_trans; [exact Hsh2|]; by apply shrinks_same|]. eexists. split; [exact Hp4|].
  cbn. unfold unadopted. destruct (adopting p2), (applied p2); by auto.
Qed.

End publish.
