(* ===== verification/PaCheck.v ===== *)
(** The first two steps of the routine of the prefix assignment: the best assignment
    and the validity of the current one. *)
From S2P Require Import Prelude Bitops Tlv BtrieBits BtrieWf BtrieIter BtrieFree BtrieEach PaTrie PaCore PaFacts PaInv PaPublish.

(** ** The best assignment and the validity check *)

Section check.
Context `{PT : !PrefixTrie pentry, PTO : !PrefixTrieOk pentry, PX : !PaExt}.
Implicit Types (o : pa_core) (l : nat) (p : pa_ldp) (a : pa_advp).

Lemma get_advp_in o n v : get_advp o n = Some v -> v ∈ advps o /\ advp_id v = n.
Proof.
  unfold get_advp. destruct (list_find _ _) as [[i w]|] eqn:Hf; [|done]. intros [= <-].
  apply list_find_Some in Hf as (Hi & Hp & _). split; [|done]. by apply list_elem_of_lookup_2 in Hi.
Qed.

(** An advertised prefix of the link of the pair that overlaps its delegated prefix. *)
Definition candidate o p a : Prop :=
  get_advp o (advp_id a) = Some a /\ advp_link a = Some (ldp_link p) /\
  exists d, get_dp o (ldp_dp p) = Some d /\ overlap (bits (dp_prefix d) 0 (dp_plen d)) (bits (advp_prefix a) 0 (advp_plen a)).

(** [best] is an element of [C] that no other one beats. *)
Definition best_of (C : pa_advp -> Prop) (best : option pa_advp) : Prop :=
  match best with
  | None => forall a, ~ C a
  | Some a => C a /\ forall a', C a' -> better a' (Some a) = false
  end.

Lemma better_trans a b c : better a (Some b) = false -> better b (Some c) = false -> better a (Some c) = false.
Proof. unfold better. rewrite !orb_false_iff, !andb_false_iff, !bool_decide_eq_false. lia. Qed.

Lemma best_loop_ok o k es best (C : pa_advp -> Prop) : best_of C best ->
  (forall n, PAT_ADVERTISED n ∈ es -> is_Some (get_advp o n)) ->
  exists best', best_loop o k es best = Some best' /\
    best_of (fun a => C a \/ PAT_ADVERTISED (advp_id a) ∈ es /\ get_advp o (advp_id a) = Some a /\ advp_link a = Some k) best'.
Proof.
  revert best C. induction es as [|e es IH]; intros best C Hb Hes; cbn [best_loop].
  { exists best. split; [done|]. destruct best as [b|]; cbn in *.
    - destruct Hb as [H1 H2]. split; [by left|]. intros a' [?|[?%not_elem_of_nil _]]; [by apply H2|done].
    - intros a [?|[?%not_elem_of_nil _]]; [by apply (Hb a)|done]. }
  assert (Hes' : forall n, PAT_ADVERTISED n ∈ es -> is_Some (get_advp o n)) by (intros n Hn; apply Hes; by right).
  destruct e as [l2|n].
  - destruct (IH best C Hb Hes') as (b' & -> & H). exists b'. split; [done|]. destruct b' as [b'|]; cbn in *.
    + destruct H as [H1 H2]. split; [|intros a' Ha'; apply H2]; [destruct H1 as [?|[? ?]]|destruct Ha' as [?|[[[=]|?]%elem_of_cons ?]]]; auto. right. split; [by right|done].
    + intros a Ha. apply (H a). destruct Ha as [?|[[[=]|?]%elem_of_cons ?]]; auto.
  - destruct (Hes n ltac:(by left)) as [v Hv]. rewrite Hv. cbn [mbind option_bind]. destruct (get_advp_in _ _ _ Hv) as [_ Hid].
    set (C' := fun a => C a \/ a = v /\ advp_link v = Some k).
    assert (Hb' : best_of C' (if bool_decide (advp_link v = Some k) && better v best then Some v else best)).
    { unfold C'. case_bool_decide as Hk; cbn [andb].
      - destruct (better v best) eqn:Hv2; cbn.
        + split; [right; by split|]. intros a' [Ha'|[-> _]]; [|by apply orb_false_iff; split; [apply bool_decide_eq_false; lia|apply andb_false_iff; right; apply bool_decide_eq_false; lia]].
          destruct best as [b|]; cbn in Hb; [|by destruct (Hb a')]. destruct Hb as [_ Hb]. specialize (Hb a' Ha').
          eapply better_trans; [exact Hb|]. revert Hv2. unfold better. rewrite orb_true_iff, andb_true_iff, orb_false_iff, andb_false_iff, !bool_decide_eq_true, !bool_decide_eq_false. lia.
        + destruct best as [b|]; [|done]. destruct Hb as [H1 H2]. split; [by left|]. intros a' [?|[-> _]]; [by apply H2|done].
      - destruct best as [b|]; cbn in *; [|intros a [?|[_ ?]]; [by apply (Hb a)|done]]. destruct Hb as [H1 H2]. split; [by left|]. intros a' [?|[_ ?]]; [by apply H2|done]. }
    destruct (IH _ C' Hb' Hes') as (b' & -> & H). exists b'. split; [done|].
    assert (Hiff : forall a, (C' a \/ PAT_ADVERTISED (advp_id a) ∈ es /\ get_advp o (advp_id a) = Some a /\ advp_link a = Some k) <->
      (C a \/ PAT_ADVERTISED (advp_id a) ∈ PAT_ADVERTISED n :: es /\ get_advp o (advp_id a) = Some a /\ advp_link a = Some k)).
    { intros a. unfold C'. rewrite elem_of_cons. split.
      - intros [[?|[-> ?]]|(? & ? & ?)]; auto. right. split; [left; by rewrite Hid|by rewrite Hid].
      - intros [?|([[= E]|?] & Ha & ?)]; auto. left. right. rewrite E in Ha. split; congruence. }
    destruct b' as [b'|]; cbn in *.
    + destruct H as [H1 H2]. split; [by apply Hiff|]. intros a' Ha'. by apply H2, Hiff.
    + intros a Ha. by apply (H a), Hiff.
Qed.

(** The first step finds the best candidate. *)
Lemma find_best_ok l o p : inv o -> get_ldp o l = Some p ->
  exists o' best, find_best l o = Some o' /\ best_of (candidate o p) best /\ moves l o o' (set_best_assignment best p).
Proof.
  intros Ho Hp. unfold find_best. rewrite Hp. cbn [mbind option_bind]. destruct (get_ldp_in _ _ _ Hp) as [Hin _].
  destruct (i_dps o Ho p Hin) as [d Hd]. rewrite Hd. cbn [mbind option_bind].
  assert (Hdp : prefix_ok (dp_prefix d) (dp_plen d)).
  { apply (i_dp_ok o Ho). unfold get_dp in Hd. destruct (list_find _ _) as [[i w]|] eqn:Hf; [|done]. injection Hd as <-.
    apply list_find_Some in Hf as (Hi & _). by eapply list_elem_of_lookup_2. }
  destruct (prefix_ok_key _ _ Hdp) as [Hk Hl]. rewrite (pt_for_each_updown_ok _ _ _ (i_trie o Ho) Hk Hl). cbn [mbind option_bind].
  destruct (best_loop_ok o (ldp_link p) (pt_met (prefixes o) (dp_prefix d) (dp_plen d)) None (fun _ => False)) as (best & -> & Hb).
  { intros a []. }
  { intros a (x & (v & -> & _) & _)%met_entry; [by eexists|done]. }
  cbn [mbind option_bind]. eexists _, best. split; [done|]. split.
  - assert (Hiff : forall a, candidate o p a <-> (False \/ PAT_ADVERTISED (advp_id a) ∈ pt_met (prefixes o) (dp_prefix d) (dp_plen d) /\
      get_advp o (advp_id a) = Some a /\ advp_link a = Some (ldp_link p))).
    { intros a. unfold candidate. rewrite met_entry by done. split.
      - intros (Ha & Hk' & d' & Hd' & Hov). right. split; [|done]. assert (d' = d) as -> by congruence. eexists. split; [|exact Hov]. by exists a.
      - intros [[]|((x & (v & Hv & ->) & Hov) & Ha & Hk')]. split; [done|]. split; [done|]. exists d. split; [done|]. congruence. }
    destruct best as [b|]; cbn in *.
    + destruct Hb as [H1 H2]. split; [by apply Hiff|]. intros a' Ha'. by apply H2, Hiff.
    + intros a Ha. by apply (Hb a), Hiff.
  - apply (moves_upd l o p (set_best_assignment best)); try done. destruct (i_ldps o Ho l p Hp). by split.
Qed.

(** [pa_ldp_global_valid] has taken another pair for an advertised prefix. *)
Definition confused o p : Prop := published p = true /\ ~ alone (ldp_id p) o (ldp_prefix p) (ldp_plen p).

(** The advertised prefixes that overlap the prefix of a pair. *)
Definition overlapping o p a : Prop :=
  get_advp o (advp_id a) = Some a /\ overlap (bits (ldp_prefix p) 0 (ldp_plen p)) (bits (advp_prefix a) 0 (advp_plen a)).

Lemma global_valid_loop_ok o p es : (forall n, PAT_ADVERTISED n ∈ es -> is_Some (get_advp o n)) ->
  match global_valid_loop o p es with
  | None => published p = true /\ exists l2, PAT_ASSIGNED l2 ∈ es /\ l2 ≠ ldp_id p
  | Some true => forall e, e ∈ es -> match e with
                   | PAT_ASSIGNED l2 => l2 = ldp_id p
                   | PAT_ADVERTISED n => exists a, get_advp o n = Some a /\ pa_precedes o a p = false
                   end
  | Some false => published p = false \/ exists n a, PAT_ADVERTISED n ∈ es /\ get_advp o n = Some a /\ pa_precedes o a p = true
  end.
Proof.
  induction es as [|e es IH]; intros Hes; cbn [global_valid_loop]; [by intros e ?%not_elem_of_nil|].
  assert (Hes' : forall n, PAT_ADVERTISED n ∈ es -> is_Some (get_advp o n)) by (intros n Hn; apply Hes; by right).
  specialize (IH Hes').
  assert (Hrec : match e with PAT_ASSIGNED l2 => l2 = ldp_id p | PAT_ADVERTISED n => exists a, get_advp o n = Some a /\ pa_precedes o a p = false end ->
    match global_valid_loop o p es with
    | None => published p = true /\ exists l2, PAT_ASSIGNED l2 ∈ e :: es /\ l2 ≠ ldp_id p
    | Some true => forall e', e' ∈ e :: es -> match e' with
                     | PAT_ASSIGNED l2 => l2 = ldp_id p
                     | PAT_ADVERTISED n => exists a, get_advp o n = Some a /\ pa_precedes o a p = false
                     end
    | Some false => published p = false \/ exists n a, PAT_ADVERTISED n ∈ e :: es /\ get_advp o n = Some a /\ pa_precedes o a p = true
    end).
  { intros He. destruct (global_valid_loop o p es) as [[]|].
    - intros e' [->|He']%elem_of_cons; [done|by apply IH].
    - destruct IH as [?|(n & a & ? & ?)]; [by left|]. right. exists n, a. split; [by right|done].
    - destruct IH as (? & l2 & ? & ?). split; [done|]. exists l2. split; [by right|done]. }
  case_decide as He; [subst e; by apply Hrec|]. destruct e as [l2|n].
  - destruct (published p) eqn:Hp; cbn [negb mbind option_bind]; [|by left]. split; [done|]. exists l2. split; [by left|congruence].
  - destruct (Hes n ltac:(by left)) as [a Ha]. rewrite Ha. cbn [mbind option_bind]. destruct (pa_precedes o a p) eqn:Hpr.
    + right. exists n, a. split; [by left|done].
    + apply Hrec. by exists a.
Qed.

Lemma pa_ldp_global_valid_ok o l p : inv o -> get_ldp o l = Some p ->
  match pa_ldp_global_valid o p with
  | None => confused o p
  | Some true => alone l o (ldp_prefix p) (ldp_plen p) /\ forall a, overlapping o p a -> pa_precedes o a p = false
  | Some false => published p = false \/ exists a, overlapping o p a /\ pa_precedes o a p = true
  end.
Proof.
  intros Ho Hp. destruct (get_ldp_in _ _ _ Hp) as [_ Hid]. pose proof (lo_prefix _ _ (i_ldps o Ho l p Hp)) as Hpx.
  destruct (prefix_ok_key _ _ Hpx) as [Hk Hl]. unfold pa_ldp_global_valid.
  rewrite (pt_for_each_updown_ok _ _ _ (i_trie o Ho) Hk Hl). cbn [mbind option_bind].
  pose proof (global_valid_loop_ok o p (pt_met (prefixes o) (ldp_prefix p) (ldp_plen p))) as H.
  destruct (global_valid_loop _ _ _) as [[]|].
  - split.
    + apply alone_met; [done|]. intros [l2|n] He Hf; [|done]. specialize (H ltac:(intros n (x & (v & -> & _) & _)%met_entry; [by eexists|done]) _ He).
      cbn in *. congruence.
    + intros a [Ha Hov]. specialize (H ltac:(intros n (x & (v & -> & _) & _)%met_entry; [by eexists|done]) (PAT_ADVERTISED (advp_id a))).
      destruct H as (v & Hv & Hpr); [|congruence]. apply met_entry; [done|]. eexists. split; [by exists a|exact Hov].
  - destruct H as [?|(n & a & (x & (v & Hv & ->) & Hov)%met_entry & Ha & Hpr)]; [|by left| |done].
    + intros n (x & (v & -> & _) & _)%met_entry; [by eexists|done].
    + right. exists a. split; [|done]. destruct (get_advp_in _ _ _ Ha) as [_ <-]. split; [done|]. congruence.
  - destruct H as (Hpub & l2 & Hl2 & Hne); [intros n (x & (v & -> & _) & _)%met_entry; [by eexists|done]|]. split; [done|].
    rewrite <- alone_met by done. intros H. by apply (H _ Hl2).
Qed.

(** Whether a best assignment is taken into account. *)
Definition accepted o p : option pa_advp :=
  match best_assignment p with
  | Some a => if pa_precedes o a p then Some a else None
  | None => None
  end.

(** A prefix that survives the check is that of the best assignment or, without
    one, not preceded by any advertised prefix that overlaps it. *)
Definition survives o p p' : Prop :=
  assigned p = true /\ (ldp_prefix p', ldp_plen p', published p', applied p') = (ldp_prefix p, ldp_plen p, published p, applied p) /\
  match accepted o p with
  | Some a => bits (ldp_prefix p) 0 (ldp_plen p) = bits (advp_prefix a) 0 (advp_plen a) /\ adopting p' = false
  | None => adopting p' = adopting p /\ alone (ldp_id p) o (ldp_prefix p) (ldp_plen p) /\ forall a, overlapping o p a -> pa_precedes o a p = false
  end.

(** It is taken away only if it is not that of the best assignment or something
    that precedes it overlaps it. *)
Definition invalid o p : Prop :=
  match accepted o p with
  | Some a => bits (ldp_prefix p) 0 (ldp_plen p) ≠ bits (advp_prefix a) 0 (advp_plen a)
  | None => published p = false \/ exists a, overlapping o p a /\ pa_precedes o a p = true
  end.

(** The check itself. *)
Lemma valid_ok l o o1 p p1 : inv o -> get_ldp o l = Some p -> moves l o o1 p1 -> p1 = set_best_assignment (accepted o p) p ->
  (forall a, best_assignment p = Some a -> prefix_ok (advp_prefix a) (advp_plen a)) ->
  match match accepted o p with
        | None => pa_ldp_global_valid o1 p1
        | Some a => pa_prefix_equals (ldp_prefix p1) (ldp_plen p1) (advp_prefix a) (advp_plen a)
        end with
  | None => accepted o p = None /\ confused o p
  | Some true => match accepted o p with
      | Some a => bits (ldp_prefix p) 0 (ldp_plen p) = bits (advp_prefix a) 0 (advp_plen a)
      | None => alone (ldp_id p) o (ldp_prefix p) (ldp_plen p) /\ forall a, overlapping o p a -> pa_precedes o a p = false
      end
  | Some false => invalid o p
  end.
Proof.
  intros Ho Hp (Ho1 & Hs1 & Ht1 & Hp1 & Hl1) -> Hbest. destruct (get_ldp_in _ _ _ Hp) as [_ <-].
  assert (Hal : alone (ldp_id p) o1 (ldp_prefix p) (ldp_plen p) <-> alone (ldp_id p) o (ldp_prefix p) (ldp_plen p)).
  { split; apply alone_same; [intros l' Hl'; symmetry|]; by auto. }
  assert (Hadv : forall n, get_advp o1 n = get_advp o n) by (intros n; unfold get_advp; by rewrite (skel_advps _ _ Hs1)).
  assert (Hpre : forall a, pa_precedes o1 a (set_best_assignment (accepted o p) p) = pa_precedes o a p).
  { intros a. unfold pa_precedes. assert (Hn : core_node_id o1 = core_node_id o) by (unfold skel in Hs1; by injection Hs1). by rewrite Hn. }
  unfold invalid. destruct (accepted o p) as [a|] eqn:Hacc.
  - assert (Hpa : prefix_ok (advp_prefix a) (advp_plen a)).
    { apply Hbest. unfold accepted in Hacc. destruct (best_assignment p) as [a'|]; [|done]. destruct (pa_precedes _ _ _); congruence. }
    pose proof (lo_prefix _ _ (i_ldps o Ho _ p Hp)) as Hpx. cbn [ldp_prefix ldp_plen set_best_assignment].
    rewrite prefix_equals_ok by done. by case_bool_decide.
  - pose proof (pa_ldp_global_valid_ok o1 _ _ Ho1 Hp1) as H. destruct (pa_ldp_global_valid _ _) as [[]|].
    + destruct H as [H1 H2]. split; [by apply Hal|]. intros a [Ha Hov]. rewrite <- Hpre. apply H2. by split; [rewrite Hadv|].
    + destruct H as [?|(a & [Ha Hov] & Hpr)]; [by left|right]. rewrite Hadv in Ha. rewrite Hpre in Hpr. by exists a.
    + destruct H as [H1 H2]. split; [done|]. split; [done|]. intros H. by apply H2, Hal.
Qed.

Lemma check_assignment_ok l o p : inv o -> get_ldp o l = Some p ->
  (forall a, best_assignment p = Some a -> prefix_ok (advp_prefix a) (advp_plen a)) ->
  match check_assignment l o with
  | None => accepted o p = None /\ confused o p
  | Some o' => exists p', inv o' /\ skel o' = skel o /\ get_ldp o' l = Some p' /\ best_assignment p' = accepted o p /\
      (forall l', l' ≠ l -> unscheduled <$> get_ldp o' l' = unscheduled <$> get_ldp o l') /\
      if assigned p' then survives o p p' else assigned p = true -> invalid o p
  end.
Proof.
  intros Ho Hp Hbest. unfold check_assignment. rewrite Hp. cbn [mbind option_bind]. fold (accepted o p).
  set (b := accepted o p). set (p1 := set_best_assignment b p).
  assert (Hm1 : moves l o (upd_ldp l (set_best_assignment b) o) p1) by (apply moves_upd; try done; destruct (i_ldps o Ho l p Hp); by split).
  set (o1 := upd_ldp l (set_best_assignment b) o) in *. pose proof Hm1 as (Ho1 & Hs1 & Ht1 & Hp1 & Hl1). rewrite Hp1. cbn [mbind option_bind].
  pose proof (valid_ok l o o1 p p1 Ho Hp Hm1 eq_refl Hbest) as Hv. fold b in Hv.
  (* the pair after the check, before adoption is cancelled *)
  assert (Hchk : match (if assigned p1 then
      valid ← match b with
              | None => pa_ldp_global_valid o1 p1
              | Some a => pa_prefix_equals (ldp_prefix p1) (ldp_plen p1) (advp_prefix a) (advp_plen a)
              end;
      if (valid : bool) then Some o1 else pa_ldp_unassign l o1 else Some o1) with
    | None => b = None /\ confused o p
    | Some o2 => exists p2, inv o2 /\ skel o2 = skel o /\ get_ldp o2 l = Some p2 /\ best_assignment p2 = b /\
       (forall l', l' ≠ l -> unscheduled <$> get_ldp o2 l' = unscheduled <$> get_ldp o l') /\
       if assigned p2 then p2 = p1 /\ assigned p = true /\ match b with
          | Some a => bits (ldp_prefix p) 0 (ldp_plen p) = bits (advp_prefix a) 0 (advp_plen a)
          | None => alone (ldp_id p) o (ldp_prefix p) (ldp_plen p) /\ forall a, overlapping o p a -> pa_precedes o a p = false
          end
       else assigned p = true -> invalid o p
    end).
  { assert (Hkeep : forall l', l' ≠ l -> unscheduled <$> get_ldp o1 l' = unscheduled <$> get_ldp o l') by (intros l' Hl'; by rewrite Hl1).
    destruct (assigned p1) eqn:Ha1; [|exists p1; rewrite Ha1; change (assigned p1) with (assigned p) in Ha1; by rewrite Ha1].
    destruct (match b with None => _ | Some _ => _ end) as [[]|]; cbn [mbind option_bind]; [|destruct (pa_ldp_unassign_frees l o1 p1 Ho1 Hp1) as (o2 & p2 & -> & [F1 F2 F3 F4 F5 F6 F7 F8])|done].
    - exists p1. rewrite Ha1. by repeat (split; [done|]).
    - exists p2. rewrite F5. split; [done|]. split; [congruence|]. split; [done|]. split; [by injection F6|]. split; [|by intros _].
      intros l' Hl'. by rewrite F8, Hkeep. }
  destruct (if assigned p1 then _ else _) as [o2|]; [|done]. destruct Hchk as (p2 & Ho2 & Hs2 & Hp2 & Hb2 & Hl2 & Ha2). cbn [mbind option_bind].
  case_decide as Hb.
  - exists p2. split; [done|]. split; [done|]. split; [done|]. split; [done|]. split; [done|].
    destruct (assigned p2); [|done]. destruct Ha2 as (-> & Ha & H2). split; [done|]. split; [done|]. fold b. rewrite Hb in H2 |- *. by split.
  - destruct (pa_ldp_unadopt_moves l o2 p2 Ho2 Hp2) as (o3 & -> & Ho3 & Hs3 & Ht3 & Hp3 & Hl3). exists (unadopted o2 p2).
    split; [done|]. split; [congruence|]. split; [done|].
    assert (Hu : (best_assignment (unadopted o2 p2), assigned (unadopted o2 p2), ldp_prefix (unadopted o2 p2), ldp_plen (unadopted o2 p2), published (unadopted o2 p2), applied (unadopted o2 p2), adopting (unadopted o2 p2)) =
       (best_assignment p2, assigned p2, ldp_prefix p2, ldp_plen p2, published p2, applied p2, false)) by (unfold unadopted; destruct (adopting p2) eqn:?, (applied p2) eqn:?; cbn; congruence).
    injection Hu as U1 U2 U3 U4 U5 U6 U7. split; [congruence|]. split; [intros l' Hl'; by rewrite Hl3, Hl2|]. rewrite U2.
    destruct (assigned p2); [|done]. destruct Ha2 as (-> & Ha & H2). split; [done|]. split; [by rewrite U3, U4, U5, U6|]. fold b.
    destruct b as [a|]; [|done]. by rewrite U7.
Qed.

End check.
