(* ===== verification/PaRoutine.v ===== *)
(** The routine of the prefix assignment: where it is defined and the state in which
    it leaves a pair. *)
From S2P Require Import Prelude Bitops Tlv BtrieBits BtrieWf BtrieIter BtrieFree BtrieEach PaTrie PaCore PaFacts PaInv PaPublish PaCheck.

(** ** The routine *)

Section routine.
Context `{PT : !PrefixTrie pentry, PTO : !PrefixTrieOk pentry, PX : !PaExt, PR : !PaRulesOk}.
Implicit Types (o : pa_core) (l : nat) (p : pa_ldp) (a : pa_advp).

(** Nothing is published: the pair keeps the prefix it has or loses it. *)
Definition keeps_or_loses l o o' p p' : Prop :=
  best_assignment p' = best_assignment p /\
  (assigned p' = true -> assigned p = true /\ ldp_prefix p' = ldp_prefix p /\ ldp_plen p' = ldp_plen p) /\
  forall l', l' ≠ l -> unscheduled <$> get_ldp o' l' = unscheduled <$> get_ldp o l'.

Definition exclusive l o p : Prop := alone l o (ldp_prefix p) (ldp_plen p).

Lemma keeps_or_loses_exclusive l o o' p p' : keeps_or_loses l o o' p p' -> assigned p' = true -> exclusive l o p -> exclusive l o' p'.
Proof. intros (_ & H & Hl) Ha. destruct (H Ha) as (_ & H1 & H2). unfold exclusive. rewrite H1, H2. by apply alone_others. Qed.

Lemma moves_keeps l o o' p p' : moves l o o' p' -> best_assignment p' = best_assignment p -> assigned p' = assigned p ->
  ldp_prefix p' = ldp_prefix p -> ldp_plen p' = ldp_plen p -> keeps_or_loses l o o' p p'.
Proof. intros (_ & _ & _ & _ & Hl) H1 H2 H3 H4. split; [done|]. split; [by rewrite H2|]. intros l' Hl'. by rewrite Hl. Qed.

Lemma frees_keeps l o o' p p' : frees l o o' p p' -> keeps_or_loses l o o' p p'.
Proof. intros [F1 F2 F3 F4 F5 F6 F7 F8]. split; [by injection F6|]. split; [congruence|done]. Qed.

Lemma keeps_trans l o1 o2 o3 p1 p2 p3 : keeps_or_loses l o1 o2 p1 p2 -> keeps_or_loses l o2 o3 p2 p3 -> keeps_or_loses l o1 o3 p1 p3.
Proof.
  intros (A1 & A2 & A3) (B1 & B2 & B3). split; [congruence|]. split.
  - intros Ha. destruct (B2 Ha) as (Ha2 & ? & ?). destruct (A2 Ha2) as (? & ? & ?). split; [done|]. split; congruence.
  - intros l' Hl'. by rewrite B3, A3.
Qed.

(** What the rules make of a pair. *)
Definition acts l o o' p : Prop :=
  inv o' /\ skel o' = skel o /\ shrinks_but l o o' /\ exists p', get_ldp o' l = Some p' /\
    (keeps_or_loses l o o' p p' \/
     assigned p' = true /\ published p' = true /\ best_assignment p' = None /\ exclusive l o' p') /\
    (adopting p' = true -> adopting p = true \/ best_assignment p = None).

Lemma backoff_delay_ok o : inv o -> exists n d, PA_BACKOFF_DELAY_r o = Some (set_pa_randoms n o, d).
Proof.
  intros Ho. pose proof (i_delays o Ho) as [H1 H2]. unfold PA_BACKOFF_DELAY_r. rewrite pa_rand_mod_Some; [by eexists _, _|].
  unfold u32. rewrite Z.mod_small by lia. lia.
Qed.

Lemma exclusive_eq l o p pfx plen : bits (ldp_prefix p) 0 (ldp_plen p) = bits pfx 0 plen -> alone l o pfx plen -> exclusive l o p.
Proof. intros E H l2 q. rewrite E. apply H. Qed.

Lemma acts_keeps l o o' p p' : inv o' -> skel o' = skel o -> get_ldp o' l = Some p' -> keeps_or_loses l o o' p p' ->
  (adopting p' = true -> adopting p = true \/ best_assignment p = None) -> acts l o o' p.
Proof. intros ? ? ? Hk ?. split; [done|]. split; [done|]. split; [apply shrinks_others, Hk|]. exists p'. split; [done|]. split; [by left|done]. Qed.

Lemma adopting_assigned o l p : inv o -> get_ldp o l = Some p -> adopting p = true -> assigned p = true.
Proof. intros Ho Hp H. apply (lo_assigned _ _ (i_ldps o Ho l p Hp)). by rewrite H, orb_true_r. Qed.

Lemma unassign_acts l o p : inv o -> get_ldp o l = Some p ->
  exists o' p', pa_ldp_unassign l o = Some o' /\ inv o' /\ skel o' = skel o /\ get_ldp o' l = Some p' /\ assigned p' = false /\
    adopting p' = false /\ keeps_or_loses l o o' p p'.
Proof.
  intros Ho Hp. destruct (pa_ldp_unassign_frees l o p Ho Hp) as (o' & p' & -> & Hf). exists o', p'. split; [done|].
  pose proof Hf as [F1 F2 F3 F4 F5 F6 F7 F8]. split; [done|]. split; [done|]. split; [done|]. split; [done|]. split; [|by apply frees_keeps].
  destruct (adopting p') eqn:E; [|done]. rewrite (adopting_assigned o' l p') in F5; done.
Qed.

Lemma act_on_rule_ok l res o p : inv o -> get_ldp o l = Some p -> result_ok (core_rules o) p res ->
  exists o', act_on_rule l res o = Some o' /\ acts l o o' p.
Proof.
  intros Ho Hp Hres. assert (Hsame : acts l o o p) by (apply (acts_keeps l o o p p); auto; by apply moves_keeps; [by apply moves_refl|..]).
  destruct res as [[[r target] arg]|]; cbn [act_on_rule]; [|by exists o].
  destruct Hres as (Hr & [rprio Hrprio] & Had & Hpub). destruct target; [by exists o| | | |].
  - destruct (Had eq_refl) as (Ha & Hpu & Hb & [prio Hprio]). rewrite Hprio, Hrprio. cbn [mbind option_bind].
    destruct (pa_ldp_adopt_moves l r prio rprio o p Ho Hp Ha Hr) as (o' & t & -> & Hm). exists o'. split; [done|].
    pose proof Hm as (Ho' & Hs' & _ & Hp' & _). eapply acts_keeps; [done|done|exact Hp'| |by right].
    unfold unpublished in *. rewrite Hpu in *. apply moves_keeps; [done|..]; by destruct (adopting p).
  - rewrite Hp. cbn [mbind option_bind]. case_decide as Hb.
    { by exists o. }
    destruct (unassign_acts l o p Ho Hp) as (o1 & p1 & -> & Ho1 & Hs1 & Hp1 & Ha1 & Had1 & Hk1). cbn [mbind option_bind]. rewrite Hp1. cbn [mbind option_bind].
    case_decide as Hto; [|exists o1; split; [done|]; eapply acts_keeps; eauto; congruence].
    destruct (backoff_delay_ok o1 Ho1) as (n & d & ->). cbn [mbind option_bind]. eexists. split; [done|].
    set (o2 := set_pa_randoms n o1). assert (Ho2 : inv o2) by by apply inv_randoms.
    assert (Hm := moves_upd l o2 p1 (set_backoff_to (timeout_at o2 d)) Ho2 Hp1 ltac:(done) ltac:(destruct (i_ldps o2 Ho2 l p1 Hp1); by split) eq_refl eq_refl eq_refl).
    pose proof Hm as (Ho3 & Hs3 & _ & Hp3 & _). eapply acts_keeps; [done|by rewrite Hs3|exact Hp3| |cbn; congruence].
    eapply keeps_trans; [exact Hk1|]. by apply (moves_keeps l o2).
  - destruct (Hpub eq_refl) as ([prio Hprio] & pfx & plen & Hpfx & Hpx).
    destruct (publish_prefix_ok l r arg o p pfx plen Ho Hp Hr Hpfx Hpx) as (o' & -> & Ho' & Hs' & Hal & Hsh & p' & Hp' & Ha' & Hpub' & Hb' & Hx'); [by eexists|by eexists|].
    exists o'. split; [done|]. split; [done|]. split; [done|]. split; [done|]. exists p'. split; [done|]. split.
    + right. split; [done|]. split; [done|]. split; [done|]. by eapply exclusive_eq.
    + intros Had'. by rewrite (lo_exclusive _ _ (i_ldps o' Ho' l p' Hp') Hpub') in Had'.
  - destruct (unassign_acts l o p Ho Hp) as (o1 & p1 & -> & Ho1 & Hs1 & Hp1 & Ha1 & Had1 & Hk1). cbn [mbind option_bind]. eexists. split; [done|].
    destruct (quiet_schedule l o1 Ho1) as (Hq1 & Hq2 & Hq3 & Hq4). pose proof (Hq4 l) as Hq5. rewrite Hp1 in Hq5.
    destruct (get_ldp (pa_routine_schedule l o1) l) as [p2|] eqn:Hp2; [|done]. apply (inj Some) in Hq5.
    eapply acts_keeps; [done|congruence|exact Hp2| |].
    + eapply keeps_trans; [exact Hk1|]. split; [exact (f_equal best_assignment Hq5)|]. split; [|intros l' _; apply Hq4].
      destruct (unscheduled_fields _ _ Hq5) as (_ & _ & _ & _ & F5 & _ & F7 & F8). rewrite F5, F7, F8. by intros.
    + destruct (unscheduled_fields _ _ Hq5) as (_ & _ & F3 & _). rewrite F3. congruence.
Qed.

Lemma execute_rules_ok l fb o p : inv o -> get_ldp o l = Some p ->
  match execute_rules l fb o with Some o' => acts l o o' p | None => rules_break l fb o end.
Proof.
  intros Ho Hp. unfold execute_rules.
  assert (Hm := moves_upd l o p (set_backoff fb) Ho Hp ltac:(done) ltac:(destruct (i_ldps o Ho l p Hp); by split) eq_refl eq_refl eq_refl).
  set (o1 := upd_ldp l (set_backoff fb) o) in *. set (p1 := set_backoff fb p) in *. pose proof Hm as (Ho1 & Hs1 & _ & Hp1 & Hl1).
  rewrite Hp1. cbn [mbind option_bind].
  destruct (sort_rules_ok o1 l p1 (core_rules o1) [] Ho1 Hp1) as (rs & Ers & Hrs). rewrite Ers. cbn [mbind option_bind].
  match goal with |- context [best_rule o1 p1 rs ?a ?b None] =>
    pose proof (best_rule_ok o1 l p1 rs (pa_randoms o1) a b None (core_rules o1) Ho1 Hp1) as Hbr end.
  replace (set_pa_randoms (pa_randoms o1) o1) with o1 in Hbr by (by destruct o1).
  destruct (best_rule _ _ _ _ _ _) as [[o2 res]|]; cbn [mbind option_bind].
  2:{ destruct Hbr as (r & o2 & prio & arg & Hr & Hf); [|done|done|exists p1, rs, r, o2, prio, arg; by split_and!]. intros x Hx. destruct (Hrs x Hx) as [?%not_elem_of_nil|?]; done. }
  destruct Hbr as [[n ->] Hres]; [|done|done|]; [intros x Hx; destruct (Hrs x Hx) as [?%not_elem_of_nil|?]; done|].
  set (o2 := set_pa_randoms n o1). assert (Ho2 : inv o2) by by apply inv_randoms.
  destruct (act_on_rule_ok l res o2 p1 Ho2 Hp1 Hres) as (o' & -> & Ho' & Hs' & Hsh' & p' & Hp' & Hk & Had).
  split; [done|]. split; [by rewrite Hs'|]. split; [eapply shrinks_trans; [|exact Hsh']; by apply shrinks_same|]. exists p'. split; [done|]. split; [|done]. destruct Hk as [Hk|Hk]; [left|by right].
  eapply keeps_trans; [|exact Hk]. by apply (moves_keeps l o o1).
Qed.

(** The state in which the routine leaves a pair whose best assignment to take into
    account is [best]: with one, the pair has its prefix, or one a rule has just
    published; without one, the prefix is published or being adopted, or there is
    none.  A prefix that is published or being adopted overlaps no other pair's. *)
Definition settled l (best : option pa_advp) o' p' : Prop :=
  match best with
  | Some a => assigned p' = true /\
      (published p' = true \/ published p' = false /\ adopting p' = false /\ bits (ldp_prefix p') 0 (ldp_plen p') = bits (advp_prefix a) 0 (advp_plen a))
  | None => assigned p' = published p' || adopting p'
  end /\
  (published p' || adopting p' = true -> exclusive l o' p').

(** With a best assignment, the pair gives its own up or takes the prefix. *)
Lemma end_routine_best l o p a : inv o -> get_ldp o l = Some p -> best_assignment p = Some a -> prefix_ok (advp_prefix a) (advp_plen a) ->
  (assigned p = true -> bits (ldp_prefix p) 0 (ldp_plen p) = bits (advp_prefix a) 0 (advp_plen a)) ->
  exists o' p', end_routine l o = Some o' /\ inv o' /\ skel o' = skel o /\ shrinks_but l o o' /\ get_ldp o' l = Some p' /\ assigned p' = true /\
    published p' = false /\ adopting p' = false /\ bits (ldp_prefix p') 0 (ldp_plen p') = bits (advp_prefix a) 0 (advp_plen a).
Proof.
  intros Ho Hp Hb Hpa Hx. unfold end_routine. rewrite Hp. cbn [mbind option_bind]. rewrite Hb. destruct (assigned p) eqn:Ha; cbn [decide not_dec].
  - destruct (pa_ldp_unpublish_moves l false o p Ho Hp) as (o2 & -> & Hm2). pose proof Hm2 as (Ho2 & _ & _ & Hp2 & _). cbn [mbind option_bind].
    destruct (pa_ldp_unadopt_moves l o2 _ Ho2 Hp2) as (o3 & -> & Hm3). pose proof (moves_trans _ _ _ _ _ _ Hm2 Hm3) as (Ho3 & Hs3 & _ & Hp3 & Hl3).
    eexists _, _. split; [done|]. split; [done|]. split; [done|]. split; [by apply shrinks_same|]. split; [exact Hp3|].
    unfold unadopted, unpublished. destruct (published p) eqn:Hpu; cbn.
    + rewrite (lo_exclusive _ _ (i_ldps o Ho l p Hp) Hpu). cbn. rewrite (lo_exclusive _ _ (i_ldps o Ho l p Hp) Hpu). auto.
    + destruct (adopting p) eqn:Had, (applied p); cbn; auto.
  - destruct (unassign_acts l o p Ho Hp) as (o1 & p1 & -> & Ho1 & Hs1 & Hp1 & Ha1 & Had1 & Hk1). cbn [mbind option_bind].
    destruct (pa_ldp_assign_takes l _ _ o1 p1 Ho1 Hp1 Ha1 Hpa) as (o2 & p2 & -> & [T1 T2 T3 T4 T5 T6 T7 T8 T9]). cbn [mbind option_bind].
    exists o2, p2. split; [done|]. split; [done|]. split; [congruence|].
    split; [eapply shrinks_trans; [apply shrinks_others, Hk1|by apply shrinks_same]|]. split; [done|]. split; [done|].
    assert (published p1 = false).
    { destruct (published p1) eqn:E; [|done]. rewrite (holds_assigned o1 l p1) in Ha1; [done|done|done|]. unfold holds. by rewrite E. }
    split; [congruence|]. split; [congruence|]. apply T6.
Qed.

Lemma end_routine_none l o p : inv o -> get_ldp o l = Some p -> best_assignment p = None -> 
  (published p || adopting p = true -> exclusive l o p) ->
  exists o' p', end_routine l o = Some o' /\ inv o' /\ skel o' = skel o /\ shrinks_but l o o' /\ get_ldp o' l = Some p' /\ settled l None o' p' /\
    (published p = true -> o' = o).
Proof.
  intros Ho Hp Hb Hex. unfold end_routine. rewrite Hp. cbn [mbind option_bind]. rewrite Hb.
  pose proof (holds_assigned o l p Ho Hp) as Hfl. unfold holds in Hfl. assert (Hrefl : shrinks_but l o o) by by apply shrinks_same. unfold settled. destruct (assigned p) eqn:Ha; cbn [andb].
  - destruct (published p || adopting p) eqn:Hf.
    + exists o, p. rewrite Hf, Ha. destruct (published p), (adopting p); done.
    + apply orb_false_iff in Hf as [-> ->]. cbn [negb andb].
      destruct (unassign_acts l o p Ho Hp) as (o1 & p1 & -> & Ho1 & Hs1 & Hp1 & Ha1 & Had1 & Hk1).
      exists o1, p1. split; [done|]. split; [done|]. split; [done|]. split; [apply shrinks_others, Hk1|]. split; [done|]. rewrite Ha1, Had1.
      destruct (published p1) eqn:E; [|done]. rewrite (holds_assigned o1 l p1) in Ha1; [done|done|done|]. unfold holds. by rewrite E.
  - destruct (published p || adopting p) eqn:Hf; [by specialize (Hfl eq_refl)|]. exists o, p. by rewrite Ha, Hf.
Qed.

(** The best assignment the routine takes into account. *)
Definition routine_best o p (best : option pa_advp) : Prop :=
  exists b, best_of (candidate o p) b /\ best = accepted o (set_best_assignment b p).

(** The routine is defined unless it mistakes another pair for an advertised prefix
    or a rule fails. *)
Lemma pa_routine_ok l fb o p : inv o -> get_ldp o l = Some p ->
  match pa_routine l fb o with
  | None => routine_best o p None /\ confused o p \/ breaks l fb o
  | Some o' => exists best p', routine_best o p best /\ inv o' /\ skel o' = skel o /\ shrinks_but l o o' /\ get_ldp o' l = Some p' /\ settled l best o' p'
  end.
Proof.
  intros Ho Hp. unfold pa_routine. destruct (find_best_ok l o p Ho Hp) as (o1 & b & Efind & Hb & Hm1). rewrite Efind. cbn [mbind option_bind].
  pose proof Hm1 as (Ho1 & Hs1 & Ht1 & Hp1 & Hl1). set (p1 := set_best_assignment b p) in *.
  assert (Hacc : accepted o1 p1 = accepted o p1).
  { unfold accepted, pa_precedes. assert (Hn : core_node_id o1 = core_node_id o) by (unfold skel in Hs1; by injection Hs1). by rewrite Hn. }
  assert (Hpb : forall a, best_assignment p1 = Some a -> prefix_ok (advp_prefix a) (advp_plen a)).
  { intros a [= ->]. destruct Hb as [(Ha & _) _]. apply (i_advp_ok o Ho). by apply get_advp_in in Ha as [? _]. }
  pose proof (check_assignment_ok l o1 p1 Ho1 Hp1 Hpb) as Hchk. rewrite Hacc in Hchk.
  destruct (check_assignment l o1) as [o2|] eqn:Echeck; cbn [mbind option_bind].
  2:{ left. destruct Hchk as [H1 [H2 H3]]. split; [by exists b|]. split; [done|]. intros Hal. apply H3. destruct (get_ldp_in _ _ _ Hp) as [_ Hid].
      cbn. rewrite Hid in *. by eapply alone_same. }
  destruct Hchk as (p2 & Ho2 & Hs2 & Hp2 & Hb2 & Hl2 & Ha2).
  pose proof (execute_rules_ok l fb o2 p2 Ho2 Hp2) as Hex.
  destruct (execute_rules l fb o2) as [o3|]; cbn [mbind option_bind]; [|right; by exists o1, o2].
  destruct Hex as (Ho3 & Hs3 & Hsh3 & p3 & Hp3 & Hk3 & Had3).
  assert (Hsh : shrinks_but l o o3).
  { eapply shrinks_trans; [by apply (shrinks_same l o o1)|]. eapply shrinks_trans; [by apply (shrinks_others l o1 o2)|exact Hsh3]. }
  assert (Hs : skel o3 = skel o) by congruence.
  assert (Hsv : assigned p2 = true -> survives o1 p1 p2) by (intros E; by rewrite E in Ha2). clear Ha2.
  destruct Hk3 as [Hk3|(Ha3 & Hpub3 & Hb3 & Hx3)].
  2:{ destruct (end_routine_none l o3 p3 Ho3 Hp3 Hb3 (fun _ => Hx3)) as (o4 & p4 & -> & Ho4 & Hs4 & Hsh4 & Hp4 & Hst & Heq).
      rewrite (Heq Hpub3) in *. assert (p4 = p3) as -> by congruence. exists (accepted o p1), p3. split; [by exists b|]. split; [done|]. split; [done|]. split; [done|]. split; [done|].
      split; [|by intros _]. destruct (accepted o p1); [split; [done|by left]|by apply Hst]. }
  pose proof Hk3 as (Hb3 & Hkp3 & Hl3). rewrite Hb2 in Hb3. destruct (accepted o p1) as [a|] eqn:Ea.
  - destruct (end_routine_best l o3 p3 a Ho3 Hp3 Hb3) as (o4 & p4 & -> & Ho4 & Hs4 & Hsh4 & Hp4 & Ha4 & Hpu4 & Had4 & Hx4).
    + apply Hpb. unfold accepted in Ea. destruct (best_assignment p1) as [a'|]; [|done]. destruct (pa_precedes _ _ _); congruence.
    + intros Ha3. destruct (Hkp3 Ha3) as (Ha2 & E1 & E2). destruct (Hsv Ha2) as (_ & Hf & Hm). rewrite Hacc in Hm. injection Hf as G1 G2 G3 G4.
      rewrite E1, E2, G1, G2. apply Hm.
    + exists (Some a), p4. split; [by exists b|]. split; [done|]. split; [congruence|]. split; [by eapply shrinks_trans|]. split; [done|].
      split; [split; [done|by right]|]. by rewrite Hpu4, Had4.
  - destruct (end_routine_none l o3 p3 Ho3 Hp3 Hb3) as (o4 & p4 & -> & Ho4 & Hs4 & Hsh4 & Hp4 & Hst & Heq).
    + intros Hf. pose proof (holds_assigned o3 l p3 Ho3 Hp3 Hf) as Ha3. eapply keeps_or_loses_exclusive; [exact Hk3|done|].
      destruct (Hkp3 Ha3) as (Ha2 & _). destruct (Hsv Ha2) as (_ & Hf2 & Hm). rewrite Hacc in Hm. injection Hf2 as G1 G2 G3 G4.
      destruct Hm as (_ & Hal & _). unfold exclusive. rewrite G1, G2. destruct (get_ldp_in _ _ _ Hp1) as [_ Hid]. rewrite Hid in Hal.
      by eapply alone_others.
    + exists None, p4. split; [by exists b|]. split; [done|]. split; [congruence|]. split; [by eapply shrinks_trans|]. by split.
Qed.

End routine.
