(* ===== verification/PaPairs.v ===== *)
(** Links and delegated prefixes of the prefix assignment: there is one pair for every
    link and delegated prefix, and pairs come and go without changing the others. *)
From S2P Require Import Prelude Bitops Tlv BtrieBits BtrieWf BtrieIter BtrieFree BtrieEach PaTrie PaCore PaFacts PaInv PaPublish PaCheck PaRoutine.

(** ** Pairs come and go *)

Section membership.
Context `{PT : !PrefixTrie pentry, PX : !PaExt}.
Implicit Types (o : pa_core) (l : nat) (p : pa_ldp).

Lemma get_ldp_iff o l p : NoDup (ldp_id <$> ldps o) -> get_ldp o l = Some p <-> p ∈ ldps o /\ ldp_id p = l.
Proof. intros Hnd. split; [apply get_ldp_in|]. intros [Hin <-]. by apply get_ldp_elem. Qed.

Lemma get_advp_iff o n a : NoDup (advp_id <$> advps o) -> get_advp o n = Some a <-> a ∈ advps o /\ advp_id a = n.
Proof.
  intros Hnd. split; [apply get_advp_in|]. intros [Hin <-]. unfold get_advp. revert Hnd Hin.
  induction (advps o) as [|b bs IH]; intros Hnd Hin; [by apply not_elem_of_nil in Hin|].
  cbn [fmap list_fmap] in Hnd. apply NoDup_cons in Hnd as [Hb Hnd]. cbn [list_find].
  apply elem_of_cons in Hin as [->|Hin]; [by rewrite decide_True|].
  assert (advp_id b ≠ advp_id a) by (intros E; apply Hb; rewrite E; apply list_elem_of_fmap; by exists a).
  rewrite decide_False by done. specialize (IH Hnd Hin). by destruct (list_find _ bs) as [[]|].
Qed.

(** Pairs that advertise a prefix have done so before. *)
Definition shrinks o o' : Prop := forall l, shrinks_but l o o'.

Lemma shrinks_all_trans o1 o2 o3 : shrinks o1 o2 -> shrinks o2 o3 -> shrinks o1 o3.
Proof. intros H1 H2 l. by eapply shrinks_trans. Qed.

Lemma shrinks_quiet o o' : quiet o o' -> shrinks o o'.
Proof. intros (_ & _ & _ & H) l. apply shrinks_others. intros l' _. apply H. Qed.

Lemma shrinks_eq o o' : ldps o' = ldps o -> shrinks o o'.
Proof. intros H l. apply shrinks_same. intros l' _. unfold get_ldp. by rewrite H. Qed.

Lemma shrinks_ldps o o' : NoDup (ldp_id <$> ldps o) -> (forall p, p ∈ ldps o' -> holds p = true -> p ∈ ldps o) -> shrinks o o'.
Proof.
  intros Hnd H l l' p' _ [Hp' <-]%get_ldp_in Hh. exists p'. split; [|done]. apply get_ldp_elem; auto.
Qed.

(** Pairs without prefix may be added and removed. *)
Lemma inv_ldps o ps n : inv o -> NoDup (ldp_id <$> ps) -> (forall p, p ∈ ps -> (ldp_id p < n)%nat) ->
  (forall p, p ∈ ps -> is_Some (get_dp o (ldp_dp p)) /\ ldp_ok (core_rules o) p /\ ldp_link p ∈ link_id <$> links o) ->
  (forall p, assigned p = true -> p ∈ ps <-> p ∈ ldps o) -> inv (set_next_ldp n (set_ldps ps o)).
Proof.
  intros Ho Hnd Hn Hps Has. destruct Ho as [I1 I2 I3 I4 I5 I6 I7 I8 I9 I10 I11 I12]. split; try done.
  - intros p Hp. by apply Hps.
  - intros l p [Hp _]%get_ldp_iff; [|done]. by apply Hps.
  - intros x e. cbn [prefixes set_next_ldp set_ldps]. rewrite I9. destruct e as [l|a]; [|done]. cbn [entry_of].
    split; intros (p & Hp & Ha & ->); exists p; (split; [|done]); revert Hp; rewrite !get_ldp_iff by done; intros [Hp Hl];
      (split; [by apply Has|done]).
  - intros p Hp. by apply Hps.
Qed.

Lemma new_ldp_ok rs l k d : ldp_ok rs (new_ldp l k d).
Proof. split; try done. cbn [ldp_prefix ldp_plen new_ldp]. split; [apply Forall_replicate; unfold byte_ok; lia|]. split; [done|lia]. Qed.

Lemma pa_ldp_create_ok o k d : inv o -> is_Some (get_dp o d) -> k ∈ link_id <$> links o ->
  quiet (set_next_ldp (S (next_ldp o)) (set_ldps (ldps o ++ [new_ldp (next_ldp o) k d]) o)) (pa_ldp_create k d o).
Proof.
  intros Ho Hd Hk. unfold pa_ldp_create. apply quiet_schedule. apply inv_ldps; [done| | | |].
  - rewrite fmap_app. apply NoDup_app. split; [apply (i_ids o Ho)|]. split; [|apply NoDup_singleton].
    intros x (p & -> & Hp)%list_elem_of_fmap Hx%list_elem_of_singleton. apply (i_next o Ho) in Hp. cbn in Hx. lia.
  - intros p [Hp| ->%list_elem_of_singleton]%elem_of_app; [|cbn; lia]. apply (i_next o Ho) in Hp. lia.
  - intros p [Hp| ->%list_elem_of_singleton]%elem_of_app; [|split; [done|]; split; [apply new_ldp_ok|done]].
    split; [by apply (i_dps o Ho)|]. split; [|by apply (i_links o Ho)]. apply (i_ldps o Ho (ldp_id p)). by apply get_ldp_elem; [apply (i_ids o Ho)|].
  - intros p Ha. rewrite elem_of_app, list_elem_of_singleton. split; [|by left]. by intros [?| ->].
Qed.

Lemma pa_ldp_destroy_ok o l p : inv o -> get_ldp o l = Some p -> assigned p = false -> inv (pa_ldp_destroy l o).
Proof.
  intros Ho Hp Ha. pose proof (i_ids o Ho) as Hnd. apply get_ldp_iff in Hp as [Hp Hl]; [|done].
  replace (pa_ldp_destroy l o) with (set_next_ldp (next_ldp o) (set_ldps (filter (fun p => ldp_id p ≠ l) (ldps o)) o)) by done.
  apply inv_ldps; [done|by apply NoDup_fmap_filter| | |].
  - intros q [_ Hq]%list_elem_of_filter. by apply (i_next o Ho).
  - intros q [_ Hq]%list_elem_of_filter. split; [by apply (i_dps o Ho)|]. split; [|by apply (i_links o Ho)]. apply (i_ldps o Ho (ldp_id q)). by apply get_ldp_elem.
  - intros q Hqa. rewrite list_elem_of_filter. split; [by intros [_ ?]|]. intros Hq. split; [|done]. intros E.
    assert (Hq' : get_ldp o l = Some q) by (by apply get_ldp_iff). assert (Hp' : get_ldp o l = Some p) by (by apply get_ldp_iff). congruence.
Qed.

End membership.

(** ** What pairs there are *)

Section pairs.
Context `{PT : !PrefixTrie pentry, PTO : !PrefixTrieOk pentry, PX : !PaExt}.
Implicit Types (o : pa_core) (l : nat) (p : pa_ldp).

Definition link_dp p : nat * nat := (ldp_link p, ldp_dp p).

(** There is one pair for every link and every delegated prefix that the parent
    does not have on another link. *)
Record pairs o : Prop := {
  pr_links : NoDup (link_id <$> links o);
  pr_dps : NoDup (dp_id <$> dps o);
  pr_nodup : NoDup (link_dp <$> ldps o);
  pr_all : forall x, x ∈ link_dp <$> ldps o <-> exists k d, k ∈ links o /\ d ∈ dps o /\ ha_skips k d = false /\ x = (link_id k, dp_id d)
}.

Lemma skel_link_dp o o' : skel o' = skel o -> link_dp <$> ldps o' = link_dp <$> ldps o.
Proof.
  intros Hs%skel_ids. apply (f_equal (fmap (fun x : nat * nat * nat => (x.1.2, x.2)))) in Hs. rewrite <- !list_fmap_compose in Hs. exact Hs.
Qed.

Lemma skel_lists o o' : skel o' = skel o -> links o' = links o /\ dps o' = dps o.
Proof. unfold skel. intros H. injection H. auto. Qed.

Lemma pairs_skel o o' : skel o' = skel o -> pairs o -> pairs o'.
Proof.
  intros Hs [P1 P2 P3 P4]. pose proof (skel_link_dp _ _ Hs) as E. destruct (skel_lists _ _ Hs) as [E1 E2]. split.
  - by rewrite E1.
  - by rewrite E2.
  - by rewrite E.
  - intros x. rewrite E, E1, E2. apply P4.
Qed.

Lemma create_link_dp o k d : inv o -> is_Some (get_dp o d) -> k ∈ link_id <$> links o ->
  link_dp <$> ldps (pa_ldp_create k d o) = (link_dp <$> ldps o) ++ [(k, d)] /\
  links (pa_ldp_create k d o) = links o /\ dps (pa_ldp_create k d o) = dps o /\ inv (pa_ldp_create k d o) /\ shrinks o (pa_ldp_create k d o).
Proof.
  intros Ho Hd Hk. pose proof (pa_ldp_create_ok o k d Ho Hd Hk) as Hq. pose proof Hq as (Hi & Hs & _). rewrite (skel_link_dp _ _ Hs). cbn [ldps set_next_ldp set_ldps].
  rewrite fmap_app. destruct (skel_lists _ _ Hs) as [-> ->]. split; [done|]. split; [done|]. split; [done|]. split; [done|].
  eapply shrinks_all_trans; [|by apply shrinks_quiet]. apply shrinks_ldps; [apply (i_ids o Ho)|].
  by intros p [Hp| ->%list_elem_of_singleton]%elem_of_app.
Qed.

(** Creation of the pairs of a new delegated prefix or of a new link. *)
Lemma create_all_ok {A} (f : A -> nat * nat) (skip : A -> bool) (xs : list A) o : inv o ->
  (forall x, x ∈ xs -> is_Some (get_dp o (f x).2) /\ (f x).1 ∈ link_id <$> links o) ->
  let o' := foldl (fun o x => if skip x then o else pa_ldp_create (f x).1 (f x).2 o) o xs in
  inv o' /\ links o' = links o /\ dps o' = dps o /\ shrinks o o' /\
  link_dp <$> ldps o' = (link_dp <$> ldps o) ++ (f <$> filter (fun x => skip x = false) xs).
Proof.
  revert o. induction xs as [|x xs IH]; intros o Ho Hd; cbn [foldl]; [rewrite app_nil_r; by repeat (split; [done || by apply shrinks_eq|])|]. rewrite filter_cons. destruct (skip x) eqn:Hx; cbv zeta.
  - apply IH; [done|]. intros y Hy. apply Hd. by right.
  - destruct (Hd x ltac:(by left)) as [Hd1 Hd2]. destruct (create_link_dp o (f x).1 (f x).2 Ho Hd1 Hd2) as (H1 & H2 & H3 & H4 & H5).
    destruct (IH _ H4) as (I1 & I2 & I3 & I5 & I4).
    + intros y Hy. unfold get_dp. rewrite H3, H2. apply Hd. by right.
    + split; [done|]. split; [congruence|]. split; [congruence|]. split; [by eapply shrinks_all_trans|]. rewrite decide_True by done. rewrite I4, H1, <- app_assoc.
      cbn. by destruct (f x).
Qed.

Lemma get_dp_in o d D : get_dp o d = Some D -> D ∈ dps o /\ dp_id D = d.
Proof.
  unfold get_dp. destruct (list_find _ _) as [[i w]|] eqn:Hf; [|done]. intros [= <-].
  apply list_find_Some in Hf as (Hi & Hp & _). split; [|done]. by apply list_elem_of_lookup_2 in Hi.
Qed.

Lemma get_dp_is_Some (ds : list pa_dp) d : is_Some (snd <$> list_find (fun x => dp_id x = d) ds) <-> d ∈ dp_id <$> ds.
Proof.
  induction ds as [|x ds IH]; cbn [list_find fmap list_fmap]; [split; [by intros []|by intros ?%not_elem_of_nil]|].
  rewrite elem_of_cons. case_decide as Hx; [split; [by left|by eexists]|].
  rewrite <- IH. destruct (list_find _ ds) as [[]|]; cbn.
  - split; [intros _; right; by eexists|by eexists].
  - split; [by intros []|intros [?|[? ?]]; [congruence|done]].
Qed.

End pairs.

(** ** Delegated prefixes and links *)

Section lists.
Context `{PT : !PrefixTrie pentry, PTO : !PrefixTrieOk pentry, PX : !PaExt}.
Implicit Types (o : pa_core) (l : nat) (p : pa_ldp).

Lemma pa_dp_add_ok d o : inv o -> pairs o -> dp_id d ∉ dp_id <$> dps o -> prefix_ok (dp_prefix d) (dp_plen d) ->
  inv (pa_dp_add d o) /\ pairs (pa_dp_add d o) /\ shrinks o (pa_dp_add d o).
Proof.
  intros Ho [P1 P2 P3 P4] Hd Hpx. unfold pa_dp_add. set (o1 := set_dps (dps o ++ [d]) o).
  assert (Ho1 : inv o1).
  { destruct Ho as [I1 I2 I3 I4 I5 I6 I7 I8 I9 I10 I11 I12]. split; try done.
    - intros p Hp. apply I3 in Hp. unfold get_dp in *. cbn [dps o1 set_dps]. apply get_dp_is_Some in Hp. apply get_dp_is_Some.
      rewrite fmap_app, elem_of_app. by left.
    - intros d' [Hd'| ->%list_elem_of_singleton]%elem_of_app; auto. }
  destruct (create_all_ok (fun k => (link_id k, dp_id d)) (fun k => ha_skips k d) (links o1) o1 Ho1) as (I1 & I2 & I3 & I5 & I4).
  { intros k Hk. split; [|apply list_elem_of_fmap; by exists k]. unfold get_dp. apply get_dp_is_Some. cbn. rewrite fmap_app, elem_of_app. right. by left. }
  split; [exact I1|]. split; [|eapply shrinks_all_trans; [by apply (shrinks_eq o o1)|exact I5]]. cbn [fst snd] in *. change (ldps o1) with (ldps o) in *. change (links o1) with (links o) in *. split.
  - by rewrite I2.
  - rewrite I3. cbn. rewrite fmap_app. apply NoDup_app. split; [done|]. split; [|apply NoDup_singleton]. by intros x Hx ->%list_elem_of_singleton.
  - rewrite I4. apply NoDup_app. split; [done|]. split.
    + intros x (k & d' & _ & Hd' & _ & ->)%P4 (k' & [= _ E] & _)%list_elem_of_fmap. apply Hd. rewrite <- E. apply list_elem_of_fmap. by exists d'.
    + rewrite (list_fmap_compose link_id (fun k => (k, dp_id d))). apply NoDup_fmap; [by intros ? ? [=]|]. by apply NoDup_fmap_filter.
  - intros x. rewrite I4, I2, I3, elem_of_app, P4, list_elem_of_fmap. cbn. split.
    + intros [(k & d' & H1 & H2 & H3 & H4)|(k & H1 & [H2 H3]%list_elem_of_filter)]; [exists k, d'; by rewrite elem_of_app; auto|].
      exists k, d. rewrite elem_of_app, list_elem_of_singleton. auto.
    + intros (k & d' & H1 & [H2| ->%list_elem_of_singleton]%elem_of_app & H3 & H4); [left; by exists k, d'|right].
      exists k. split; [done|]. by apply list_elem_of_filter.
Qed.

Lemma pa_link_add_ok k o : inv o -> pairs o -> link_id k ∉ link_id <$> links o ->
  inv (pa_link_add k o) /\ pairs (pa_link_add k o) /\ shrinks o (pa_link_add k o).
Proof.
  intros Ho [P1 P2 P3 P4] Hk. unfold pa_link_add. set (o1 := set_links (links o ++ [k]) o).
  assert (Ho1 : inv o1).
  { pose proof (i_links o Ho) as Hlk. destruct Ho. split; try done. intros p Hp. cbn. rewrite fmap_app, elem_of_app. left. by apply Hlk. }
  destruct (create_all_ok (fun d => (link_id k, dp_id d)) (fun d => ha_skips k d) (dps o1) o1 Ho1) as (I1 & I2 & I3 & I5 & I4).
  { intros d Hd. split; [unfold get_dp; apply get_dp_is_Some; apply list_elem_of_fmap; by exists d|]. cbn. rewrite fmap_app, elem_of_app. right. by left. }
  split; [exact I1|]. split; [|eapply shrinks_all_trans; [by apply (shrinks_eq o o1)|exact I5]]. cbn [fst snd] in *. change (ldps o1) with (ldps o) in *. change (dps o1) with (dps o) in *. split.
  - rewrite I2. cbn. rewrite fmap_app. apply NoDup_app. split; [done|]. split; [|apply NoDup_singleton]. by intros x Hx ->%list_elem_of_singleton.
  - by rewrite I3.
  - rewrite I4. apply NoDup_app. split; [done|]. split.
    + intros x (k' & d' & Hk' & _ & _ & ->)%P4 (d & [= E _] & _)%list_elem_of_fmap. apply Hk. rewrite <- E. apply list_elem_of_fmap. by exists k'.
    + rewrite (list_fmap_compose dp_id (fun d => (link_id k, d))). apply NoDup_fmap; [by intros ? ? [=]|]. by apply NoDup_fmap_filter.
  - intros x. rewrite I4, I2, I3, elem_of_app, P4, list_elem_of_fmap. cbn. split.
    + intros [(k' & d' & H1 & H2 & H3 & H4)|(d & H1 & [H2 H3]%list_elem_of_filter)]; [exists k', d'; by rewrite elem_of_app; auto|].
      exists k, d. rewrite elem_of_app, list_elem_of_singleton. auto.
    + intros (k' & d' & [H1| ->%list_elem_of_singleton]%elem_of_app & H2 & H3 & H4); [left; by exists k', d'|right].
      exists d'. split; [done|]. by apply list_elem_of_filter.
Qed.

Lemma unassign_all_ok ids o : inv o -> (forall l, l ∈ ids -> is_Some (get_ldp o l)) ->
  exists o', unassign_all ids o = Some o' /\ inv o' /\ skel o' = skel o /\ shrinks o o' /\
    forall l p', get_ldp o' l = Some p' -> l ∈ ids \/ (exists p, get_ldp o l = Some p /\ assigned p = false) -> assigned p' = false.
Proof.
  revert o. induction ids as [|l ids IH]; intros o Ho Hids; cbn [unassign_all].
  { exists o. split; [done|]. split; [done|]. split; [done|]. split; [by apply shrinks_eq|]. intros l p' Hp' [?%not_elem_of_nil|(p & Hp & Ha)]; [done|congruence]. }
  destruct (Hids l ltac:(by left)) as [p Hp]. destruct (pa_ldp_unassign_frees l o p Ho Hp) as (o1 & p1 & -> & Hfr). pose proof Hfr as [F1 F2 F3 F4 F5 F6 F7 F8].
  cbn [mbind option_bind]. destruct (IH o1 F1) as (o2 & -> & Ho2 & Hs2 & Hsh & Hun).
  { intros l' Hl'. destruct (Hids l' ltac:(by right)) as [q Hq]. destruct (skel_get o o1 l' q F2 Hq) as (q' & -> & _). by eexists. }
  exists o2. split; [done|]. split; [done|]. split; [congruence|].
  split; [eapply shrinks_all_trans; [intros l'; by eapply shrinks_frees|exact Hsh]|]. intros l' p' Hp' Hl'. apply (Hun l' p' Hp').
  destruct (decide (l' = l)) as [->|Hne]; [right; by exists p1|].
  destruct Hl' as [[?|?]%elem_of_cons|(q & Hq & Ha)]; [done|by left|right]. specialize (F8 l' Hne). rewrite Hq in F8.
  destruct (get_ldp o1 l') as [q'|] eqn:Hq'; [|done]. exists q'. split; [done|]. apply (inj Some) in F8. apply unscheduled_fields in F8. destruct F8 as (_ & _ & _ & _ & F & _). congruence.
Qed.

Lemma destroy_all_eq ids o : let o' := foldl (fun o l => pa_ldp_destroy l o) o ids in
  o' = set_ldps (filter (fun p => ldp_id p ∉ ids) (ldps o)) o.
Proof.
  cbv zeta. revert o. induction ids as [|l ids IH]; intros o; cbn [foldl].
  - rewrite filter_all; [by destruct o|]. intros p _ H. by apply not_elem_of_nil in H.
  - rewrite IH. unfold pa_ldp_destroy. cbn [ldps set_ldps]. rewrite list_filter_filter.
    change (set_ldps ?A (set_ldps ?B o)) with (set_ldps A o). f_equal. apply list_filter_iff. intros p. rewrite not_elem_of_cons. tauto.
Qed.

Lemma destroy_all_ok ids o : inv o -> (forall l p, get_ldp o l = Some p -> l ∈ ids -> assigned p = false) ->
  inv (foldl (fun o l => pa_ldp_destroy l o) o ids).
Proof.
  intros Ho H. rewrite destroy_all_eq. pose proof (i_ids o Ho) as Hnd.
  replace (set_ldps (filter (fun p => ldp_id p ∉ ids) (ldps o)) o) with (set_next_ldp (next_ldp o) (set_ldps (filter (fun p => ldp_id p ∉ ids) (ldps o)) o)) by done.
  apply inv_ldps; [done|by apply NoDup_fmap_filter| | |].
  - intros q [_ Hq]%list_elem_of_filter. by apply (i_next o Ho).
  - intros q [_ Hq]%list_elem_of_filter. split; [by apply (i_dps o Ho)|]. split; [|by apply (i_links o Ho)]. apply (i_ldps o Ho (ldp_id q)). by apply get_ldp_elem.
  - intros q Hqa. rewrite list_elem_of_filter. split; [by intros [_ ?]|]. intros Hq. split; [|done]. intros E.
    rewrite (H (ldp_id q) q) in Hqa; [done|by apply get_ldp_elem|done].
Qed.

(** The pairs left after those of a delegated prefix or of a link are gone. *)
Lemma left_pairs (f : pa_ldp -> nat) (x : nat) o : NoDup (ldp_id <$> ldps o) ->
  filter (fun p => ldp_id p ∉ ldp_id <$> filter (fun p => f p = x) (ldps o)) (ldps o) = filter (fun p => f p ≠ x) (ldps o).
Proof.
  intros Hnd. apply filter_ext_in. intros p Hp. rewrite list_elem_of_fmap. split.
  - intros H E. apply H. exists p. split; [done|]. by apply list_elem_of_filter.
  - intros H (q & Hq & [E Hin]%list_elem_of_filter). apply H.
    assert (q = p) as ->; [|done]. apply (inj Some). rewrite <- (get_ldp_elem o q), <- (get_ldp_elem o p), Hq by done. done.
Qed.

Lemma pa_dp_del_ok d o : inv o -> pairs o -> exists o', pa_dp_del d o = Some o' /\ inv o' /\ pairs o' /\
  shrinks o o' /\ dps o' = filter (fun x => dp_id x ≠ d) (dps o) /\ links o' = links o.
Proof.
  intros Ho Hpr. unfold pa_dp_del, _pa_dp_del. destruct (unassign_all_ok (ldps_in_dp o d) o Ho) as (o1 & -> & Ho1 & Hs1 & Hsh1 & Hun).
  { intros l. rewrite ldps_in_dp_get by apply (i_ids o Ho). intros (p & -> & _). by eexists. }
  cbn [mbind option_bind]. set (o2 := foldl _ _ _). eexists. split; [done|].
  assert (Ho2 : inv o2) by (apply destroy_all_ok; [done|]; rewrite (ldps_in_dp_skel _ _ _ Hs1); intros l p Hp Hl; apply (Hun l p Hp); by left).
  assert (E2 : o2 = set_ldps (filter (fun p => ldp_dp p ≠ d) (ldps o1)) o1).
  { unfold o2. rewrite destroy_all_eq. unfold ldps_in_dp. by rewrite (left_pairs ldp_dp d o1 (i_ids o1 Ho1)). }
  pose proof (pairs_skel _ _ Hs1 Hpr) as [P1 P2 P3 P4]. destruct (skel_lists _ _ Hs1) as [E1 E3].
  assert (Hd2 : forall p, p ∈ ldps o2 -> ldp_dp p ≠ d) by (rewrite E2; by intros p [? _]%list_elem_of_filter).
  split; [|split; [|split; [|rewrite E2; cbn; by rewrite E1, E3]]].
  3:{ eapply shrinks_all_trans; [exact Hsh1|]. apply shrinks_ldps; [apply (i_ids o1 Ho1)|]. rewrite E2. by intros p [_ Hp]%list_elem_of_filter. }
  - destruct Ho2 as [I1 I2 I3 I4 I5 I6 I7 I8 I9 I10 I11 I12]. split; try done.
    + intros p Hp. pose proof (Hd2 p Hp) as Hne. apply I3 in Hp. unfold get_dp in *. cbn [dps set_dps]. apply get_dp_is_Some in Hp. apply get_dp_is_Some.
      apply list_elem_of_fmap in Hp as (D & E & HD). rewrite E in Hne. apply list_elem_of_fmap. exists D. split; [done|]. by apply list_elem_of_filter.
    + intros D [_ HD]%list_elem_of_filter. by apply I4.
  - split; cbn [links dps ldps set_dps].
    + by rewrite E2.
    + rewrite E2. by apply NoDup_fmap_filter.
    + rewrite E2. by apply NoDup_fmap_filter.
    + intros x. rewrite E2. cbn [links dps ldps set_ldps]. transitivity (x ∈ link_dp <$> ldps o1 /\ x.2 ≠ d).
      * rewrite !list_elem_of_fmap. split.
        -- intros (p & -> & [Hne Hp]%list_elem_of_filter). split; [by exists p|done].
        -- intros [(p & -> & Hp) Hne]. exists p. split; [done|]. by apply list_elem_of_filter.
      * rewrite P4. split.
        -- intros [(K & D & H1 & H2 & H3 & ->) Hne]. exists K, D. rewrite list_elem_of_filter. auto.
        -- intros (K & D & H1 & [H2 H2']%list_elem_of_filter & H3 & ->). split; [by exists K, D|done].
Qed.

Lemma ldps_in_link_skel o o' k : skel o' = skel o -> ldps_in_link o' k = ldps_in_link o k.
Proof.
  intros Hs%skel_ids. unfold ldps_in_link. revert Hs. generalize (ldps o'). induction (ldps o) as [|q ps IH]; intros [|q' ps'] Hs; try done.
  cbn [fmap list_fmap] in Hs. injection Hs as H1 H2 H3 Hs. rewrite !filter_cons, H2. case_decide; cbn [fmap list_fmap]; rewrite ?H1; [f_equal|]; by apply IH.
Qed.

Lemma pa_link_del_ok k o : inv o -> pairs o -> exists o', pa_link_del k o = Some o' /\ inv o' /\ pairs o' /\
  shrinks o o' /\ links o' = filter (fun x => link_id x ≠ k) (links o) /\ dps o' = dps o.
Proof.
  intros Ho Hpr. unfold pa_link_del, _pa_link_del. destruct (unassign_all_ok (ldps_in_link o k) o Ho) as (o1 & -> & Ho1 & Hs1 & Hsh1 & Hun).
  { intros l (p & -> & [_ Hp]%list_elem_of_filter)%list_elem_of_fmap. rewrite get_ldp_elem by (done || apply (i_ids o Ho)). by eexists. }
  cbn [mbind option_bind]. set (o2 := foldl _ _ _). eexists. split; [done|].
  assert (Ho2 : inv o2) by (apply destroy_all_ok; [done|]; rewrite (ldps_in_link_skel _ _ _ Hs1); intros l p Hp Hl; apply (Hun l p Hp); by left).
  assert (E2 : o2 = set_ldps (filter (fun p => ldp_link p ≠ k) (ldps o1)) o1).
  { unfold o2. rewrite destroy_all_eq. unfold ldps_in_link. by rewrite (left_pairs ldp_link k o1 (i_ids o1 Ho1)). }
  pose proof (pairs_skel _ _ Hs1 Hpr) as [P1 P2 P3 P4]. destruct (skel_lists _ _ Hs1) as [E1 E3].
  split.
  { pose proof (i_links o2 Ho2) as Hlk. destruct Ho2. split; try done. intros p Hp. pose proof (Hlk p Hp) as (K & E & HK)%list_elem_of_fmap.
    apply list_elem_of_fmap. exists K. split; [done|]. apply list_elem_of_filter. split; [|done].
    assert (Hp' : p ∈ ldps o2) by done. rewrite E2 in Hp'. apply list_elem_of_filter in Hp' as [? _]. congruence. }
  split; [|split; [|rewrite E2; cbn; by rewrite E1, E3]].
  2:{ eapply shrinks_all_trans; [exact Hsh1|]. apply shrinks_ldps; [apply (i_ids o1 Ho1)|]. rewrite E2. by intros p [_ Hp]%list_elem_of_filter. }
  split; cbn [links dps ldps set_links].
  - rewrite E2. by apply NoDup_fmap_filter.
  - by rewrite E2.
  - rewrite E2. by apply NoDup_fmap_filter.
  - intros x. rewrite E2. cbn [links dps ldps set_ldps]. transitivity (x ∈ link_dp <$> ldps o1 /\ x.1 ≠ k).
    + rewrite !list_elem_of_fmap. split.
      * intros (p & -> & [Hne Hp]%list_elem_of_filter). split; [by exists p|done].
      * intros [(p & -> & Hp) Hne]. exists p. split; [done|]. by apply list_elem_of_filter.
    + rewrite P4. split.
      * intros [(K & D & H1 & H2 & H3 & ->) Hne]. exists K, D. rewrite list_elem_of_filter. auto.
      * intros (K & D & [H1 H1']%list_elem_of_filter & H2 & H3 & ->). split; [by exists K, D|done].
Qed.

End lists.
