(* ===== verification/PaAdvertise.v ===== *)
(** Advertised prefixes of the prefix assignment: they enter and leave the trie, and
    the pairs they may concern are scheduled. *)
From S2P Require Import Prelude Bitops Tlv BtrieBits BtrieWf BtrieIter BtrieFree BtrieEach PaTrie PaCore PaFacts PaInv PaPublish PaCheck PaRoutine PaPairs.

(** ** Advertised prefixes *)

Section advertised.
Context `{PT : !PrefixTrie pentry, PTO : !PrefixTrieOk pentry, PX : !PaExt}.
Implicit Types (o : pa_core) (l : nat) (p : pa_ldp) (a : pa_advp).

Lemma schedule_all_quiet ids o : inv o -> quiet o (schedule_all ids o).
Proof.
  unfold schedule_all. revert o. induction ids as [|l ids IH]; intros o Ho; cbn [foldl]; [by apply quiet_refl|].
  pose proof (quiet_schedule l o Ho) as Hq. eapply quiet_trans; [exact Hq|]. apply IH, Hq.
Qed.

Lemma pa_prefix_contains_ok x1 n1 x2 n2 : prefix_ok x1 n1 -> prefix_ok x2 n2 -> (n1 <= n2)%nat ->
  pa_prefix_contains x1 n1 x2 = Some (bool_decide (bits x1 0 n1 `prefix_of` bits x2 0 n2)).
Proof.
  intros (Hb1 & Hl1 & Hn1) (Hb2 & Hl2 & Hn2) Hle. unfold pa_prefix_contains.
  destruct (bmemcmp_bits x1 0 x2 0 n1 Hb1 Hb2) as (r & -> & Hr); [lia|lia|]. cbn [mbind option_bind]. f_equal. apply bool_decide_ext.
  change (8 * 0)%nat with 0%nat in Hr. rewrite <- Z.compare_eq_iff, Hr, bits_cmp_Eq by (by rewrite !length_bits).
  replace n2 with (n1 + (n2 - n1))%nat by lia. rewrite bits_split. split.
  - intros ->. by apply prefix_app_r.
  - intros [k Hk]. apply app_inj_1 in Hk as [-> _]; [done|]. by rewrite !length_bits.
Qed.

Lemma pa_prefix_overlap_ok x1 n1 x2 n2 : prefix_ok x1 n1 -> prefix_ok x2 n2 ->
  pa_prefix_overlap x1 n1 x2 n2 = Some (bool_decide (overlap (bits x1 0 n1) (bits x2 0 n2))).
Proof.
  intros H1 H2. unfold pa_prefix_overlap. unfold overlap. case_decide as Hlt.
  - rewrite (pa_prefix_contains_ok _ _ _ n1 H2 H1) by lia. f_equal. apply bool_decide_ext. split; [by right|]. intros [Hp|Hp]; [|done].
    apply prefix_length in Hp. rewrite !length_bits in Hp. lia.
  - rewrite (pa_prefix_contains_ok _ _ _ n2 H1 H2) by lia. f_equal. apply bool_decide_ext. split; [by left|]. intros [Hp|Hp]; [done|].
    pose proof (prefix_length _ _ Hp) as Hl. rewrite !length_bits in Hl. assert (n1 = n2) as <- by lia.
    destruct Hp as [k Hk]. pose proof (f_equal length Hk) as E. rewrite length_app, !length_bits in E. destruct k; [|cbn in E; lia].
    rewrite app_nil_r in Hk. by rewrite Hk.
Qed.

Lemma advp_update_loop_quiet ds a o : inv o -> prefix_ok (advp_prefix a) (advp_plen a) ->
  (forall d, d ∈ ds -> prefix_ok (dp_prefix d) (dp_plen d)) -> exists o', advp_update_loop ds a o = Some o' /\ quiet o o'.
Proof.
  intros Ho Ha. revert o Ho. induction ds as [|d ds IH]; intros o Ho Hds; cbn [advp_update_loop]; [exists o; split; [done|by apply quiet_refl]|].
  rewrite pa_prefix_overlap_ok by (done || apply Hds; by left). cbn [mbind option_bind].
  set (o1 := if bool_decide _ then _ else o). assert (Hq : quiet o o1) by (unfold o1; case_bool_decide; [by apply schedule_all_quiet|by apply quiet_refl]).
  destruct (IH o1 ltac:(apply Hq)) as (o' & -> & Hq'); [intros d' Hd'; apply Hds; by right|]. exists o'. split; [done|]. by eapply quiet_trans.
Qed.

Lemma advp_fresh o n : inv o -> n ∉ advp_id <$> advps o -> PAT_ADVERTISED n ∉ (pt_entries (prefixes o)).*2.
Proof.
  intros Ho Hn ([x e] & He & Hin)%list_elem_of_fmap. cbn in He. subst e. apply (i_entries o Ho) in Hin as (v & [Hv <-]%get_advp_in & _).
  apply Hn. apply list_elem_of_fmap. by exists v.
Qed.

Lemma pa_advp_add_ok a o : inv o -> advp_id a ∉ advp_id <$> advps o -> prefix_ok (advp_prefix a) (advp_plen a) ->
  exists o', pa_advp_add a o = Some o' /\ inv o' /\ links o' = links o /\ dps o' = dps o /\ link_dp <$> ldps o' = link_dp <$> ldps o /\ shrinks o o'.
Proof.
  intros Ho Hn Hpx. destruct (prefix_ok_key _ _ Hpx) as [Hk Hl]. unfold pa_advp_add.
  destruct (pt_add_ok (prefixes o) (PAT_ADVERTISED (advp_id a)) _ _ (i_trie o Ho) Hk Hl (advp_fresh o _ Ho Hn)) as (t & e1 & e2 & -> & Ht & He1 & He2).
  cbn [mbind option_bind]. set (o1 := set_advps _ _). assert (Ho1 : inv o1).
  { destruct Ho as [I1 I2 I3 I4 I5 I6 I7 I8 I9 I10 I11 I12].
    assert (Hnd : NoDup (advp_id <$> advps o ++ [a])).
    { rewrite fmap_app. apply NoDup_app. split; [done|]. split; [|apply NoDup_singleton]. by intros x Hx ->%list_elem_of_singleton. }
    split; try done.
    - intros b [Hb| ->%list_elem_of_singleton]%elem_of_app; auto.
    - intros x e. change (prefixes o1) with t. rewrite He2, elem_of_app, elem_of_cons.
      transitivity ((x, e) = (bits (advp_prefix a) 0 (advp_plen a), PAT_ADVERTISED (advp_id a)) \/ (x, e) ∈ pt_entries (prefixes o)); [rewrite He1, elem_of_app; tauto|].
      rewrite I9. destruct e as [l|n]; cbn [entry_of]; [by split; [intros [?|?]|right]|].
      transitivity (exists v, v ∈ advps o1 /\ advp_id v = n /\ x = bits (advp_prefix v) 0 (advp_plen v)).
      + cbn [advps o1 set_advps]. split.
        * intros [[= -> ->]|(v & [Hv <-]%get_advp_in & ->)]; [exists a|exists v]; rewrite elem_of_app, list_elem_of_singleton; auto.
        * intros (v & [Hv| ->%list_elem_of_singleton]%elem_of_app & <- & ->); [right|by left]. exists v. split; [by apply get_advp_iff|done].
      + split; intros (v & H); exists v; [|destruct H as [[? ?]%get_advp_iff ->]; auto]. destruct H as (? & ? & ->). split; [by apply get_advp_iff|done]. }
  destruct (advp_update_loop_quiet (dps o1) a o1 Ho1 Hpx (i_dp_ok o1 Ho1)) as (o' & Ho' & Hq). pose proof Hq as (Hi & Hs & _).
  exists o'. split; [done|]. split; [done|]. destruct (skel_lists _ _ Hs) as [-> ->]. rewrite (skel_link_dp _ _ Hs).
  split; [done|]. split; [done|]. split; [done|]. eapply shrinks_all_trans; [by apply (shrinks_eq o o1)|by apply shrinks_quiet].
Qed.

Lemma pa_advp_del_ok a o : inv o -> a ∈ advps o ->
  exists o', pa_advp_del a o = Some o' /\ inv o' /\ links o' = links o /\ dps o' = dps o /\ link_dp <$> ldps o' = link_dp <$> ldps o /\ shrinks o o'.
Proof.
  intros Ho Ha. pose proof (i_advp_ok o Ho a Ha) as Hpx. unfold pa_advp_del.
  assert (Hin : (bits (advp_prefix a) 0 (advp_plen a), PAT_ADVERTISED (advp_id a)) ∈ pt_entries (prefixes o)).
  { apply (i_entries o Ho). exists a. split; [|done]. apply get_advp_iff; [apply (i_advps o Ho)|done]. }
  destruct (pt_remove_ok (prefixes o) (PAT_ADVERTISED (advp_id a)) (i_trie o Ho)) as (t & -> & Ht & He); [apply list_elem_of_fmap; eexists; by split; [|exact Hin]|].
  cbn [mbind option_bind]. set (o1 := set_advps _ _). assert (Ho1 : inv o1).
  { destruct Ho as [I1 I2 I3 I4 I5 I6 I7 I8 I9 I10 I11 I12].
    assert (Hnd : NoDup (advp_id <$> advps o1)) by by apply NoDup_fmap_filter.
    split; try done.
    - intros b [_ Hb]%list_elem_of_filter. by apply I6.
    - intros x e. change (prefixes o1) with t. rewrite He, list_elem_of_filter, I9. cbn [snd]. destruct e as [l|n]; cbn [entry_of]; [by split; [intros [_ ?]|]|].
      split.
      + intros [Hne (v & [Hv <-]%get_advp_in & ->)]. exists v. split; [|done]. apply get_advp_iff; [done|]. split; [|done]. apply list_elem_of_filter. split; [congruence|done].
      + intros (v & [[Hne Hv]%list_elem_of_filter <-]%get_advp_in & ->). split; [congruence|]. exists v. split; [|done]. by apply get_advp_iff. }
  destruct (advp_update_loop_quiet (dps o1) a o1 Ho1 Hpx (i_dp_ok o1 Ho1)) as (o' & Ho' & Hq). pose proof Hq as (Hi & Hs & _).
  exists o'. split; [done|]. split; [done|]. destruct (skel_lists _ _ Hs) as [-> ->]. rewrite (skel_link_dp _ _ Hs).
  split; [done|]. split; [done|]. split; [done|]. eapply shrinks_all_trans; [by apply (shrinks_eq o o1)|by apply shrinks_quiet].
Qed.

(** The prefix of an advertised prefix does not change while it is in the core. *)
Lemma pa_advp_update_ok a o b : inv o -> b ∈ advps o -> advp_id b = advp_id a -> advp_prefix b = advp_prefix a -> advp_plen b = advp_plen a ->
  exists o', pa_advp_update a o = Some o' /\ inv o' /\ links o' = links o /\ dps o' = dps o /\ link_dp <$> ldps o' = link_dp <$> ldps o /\ shrinks o o'.
Proof.
  intros Ho Hb E1 E2 E3. pose proof (i_advp_ok o Ho b Hb) as Hpx. rewrite E2, E3 in Hpx. unfold pa_advp_update.
  set (f := fun c => if decide (advp_id c = advp_id a) then a else c). set (o1 := set_advps (f <$> advps o) o).
  assert (Hf : forall c, c ∈ advps o -> (advp_id (f c), advp_prefix (f c), advp_plen (f c)) = (advp_id c, advp_prefix c, advp_plen c)).
  { intros c Hc. unfold f. case_decide as Hca; [|done]. assert (c = b) as ->; [|congruence]. apply (inj Some).
    rewrite <- (proj2 (get_advp_iff o (advp_id a) c (i_advps o Ho))), <- (proj2 (get_advp_iff o (advp_id a) b (i_advps o Ho))); done. }
  assert (Ho1 : inv o1).
  { destruct Ho as [I1 I2 I3 I4 I5 I6 I7 I8 I9 I10 I11 I12].
    assert (Hnd : NoDup (advp_id <$> advps o1)).
    { cbn [advps o1 set_advps]. rewrite <- list_fmap_compose. rewrite (list_fmap_ext (advp_id ∘ f) advp_id (advps o)); [done|].
      intros i c Hc%list_elem_of_lookup_2. specialize (Hf c Hc). cbn. congruence. }
    split; try done.
    - intros c (c' & -> & Hc)%list_elem_of_fmap. specialize (Hf c' Hc). injection Hf as _ -> ->. by apply I6.
    - intros x e. cbn [prefixes o1 set_advps]. rewrite I9. destruct e as [l|n]; cbn [entry_of]; [done|]. split.
      + intros (v & [Hv <-]%get_advp_in & ->). exists (f v). specialize (Hf v Hv). injection Hf as F1 F2 F3. rewrite F2, F3. split; [|done].
        apply get_advp_iff; [done|]. split; [|done]. apply list_elem_of_fmap. by exists v.
      + intros (v & [(c & -> & Hc)%list_elem_of_fmap <-]%get_advp_in & ->). specialize (Hf c Hc). injection Hf as F1 F2 F3. rewrite F1, F2, F3.
        exists c. split; [|done]. by apply get_advp_iff. }
  destruct (advp_update_loop_quiet (dps o1) a o1 Ho1 Hpx (i_dp_ok o1 Ho1)) as (o' & Ho' & Hq). pose proof Hq as (Hi & Hs & _).
  exists o'. split; [done|]. split; [done|]. destruct (skel_lists _ _ Hs) as [-> ->]. rewrite (skel_link_dp _ _ Hs).
  split; [done|]. split; [done|]. split; [done|]. eapply shrinks_all_trans; [by apply (shrinks_eq o o1)|by apply shrinks_quiet].
Qed.

End advertised.
