(* ===== verification/PaSettings.v ===== *)
(** Rules and settings of the prefix assignment: they are added, removed and changed
    without changing what pairs advertise, but for the pairs of a removed rule. *)
From S2P Require Import Prelude Bitops Tlv BtrieBits BtrieWf BtrieIter BtrieFree BtrieEach PaTrie PaCore PaFacts PaInv PaPublish PaCheck PaRoutine PaPairs PaAdvertise.

(** ** Rules and settings *)

Section settings.
Context `{PT : !PrefixTrie pentry, PTO : !PrefixTrieOk pentry, PX : !PaExt}.
Implicit Types (o : pa_core) (l : nat) (p : pa_ldp).

(** Rules may be added, and those no pair has may be removed. *)
Lemma inv_rules rs o : inv o -> (forall l p r, get_ldp o l = Some p -> ldp_rule p = Some r -> r ∈ core_rules o -> r ∈ rs) -> inv (set_core_rules rs o).
Proof.
  intros [I1 I2 I3 I4 I5 I6 I7 I8 I9 I10 I11 I12] H. split; try done. intros l p Hp. change (get_ldp o l = Some p) in Hp.
  destruct (I7 l p Hp) as [H1 H2 H3 H4]. split; try done. destruct (published p || adopting p); [|done].
  destruct H3 as (r & Hr & Hin). exists r. split; [done|]. by apply (H l p r).
Qed.

Lemma pa_rule_add_ok r o : inv o -> pairs o -> inv (pa_rule_add r o) /\ pairs (pa_rule_add r o) /\ shrinks o (pa_rule_add r o).
Proof.
  intros Ho Hpr. unfold pa_rule_add. set (o1 := set_core_rules _ o).
  assert (Ho1 : inv o1) by (apply inv_rules; [done|]; intros; apply elem_of_app; by left).
  pose proof (schedule_all_quiet (ldps_by_link o1) o1 Ho1) as Hq. pose proof Hq as (Hi & Hs & _). split; [done|]. split.
  - apply (pairs_skel o1); [done|]. destruct Hpr. by split.
  - eapply shrinks_all_trans; [by apply (shrinks_eq o o1)|by apply shrinks_quiet].
Qed.

(** The operations of the loop of [pa_rule_del] do not look at the rules. *)
Lemma unpublish_rules l c rs o : pa_ldp_unpublish l c (set_core_rules rs o) = set_core_rules rs <$> pa_ldp_unpublish l c o.
Proof.
  unfold pa_ldp_unpublish, pa_user_notify. change (get_ldp (set_core_rules rs o) l) with (get_ldp o l). destruct (get_ldp o l) as [p|]; [|done].
  cbn [mbind option_bind]. destruct (published p); [|done]. cbn [negb]. destruct c.
  - change (get_ldp (upd_ldp l (set_published false) (upd_ldp l (set_backoff_to None) (upd_ldp l clear_rule (set_core_rules rs o)))) l)
      with (get_ldp (upd_ldp l (set_published false) (upd_ldp l (set_backoff_to None) (upd_ldp l clear_rule o))) l).
    by destruct (get_ldp _ l).
  - change (get_ldp (upd_ldp l (set_published false) (upd_ldp l clear_rule (set_core_rules rs o))) l)
      with (get_ldp (upd_ldp l (set_published false) (upd_ldp l clear_rule o)) l).
    by destruct (get_ldp _ l).
Qed.

Lemma unadopt_rules l rs o : pa_ldp_unadopt l (set_core_rules rs o) = set_core_rules rs <$> pa_ldp_unadopt l o.
Proof.
  unfold pa_ldp_unadopt. change (get_ldp (set_core_rules rs o) l) with (get_ldp o l). destruct (get_ldp o l) as [p|]; [|done].
  cbn [mbind option_bind]. destruct (adopting p); [|done]. cbn [negb]. by destruct (applied p).
Qed.

Lemma rule_del_loop_rules ids r rs o : rule_del_loop ids r (set_core_rules rs o) = set_core_rules rs <$> rule_del_loop ids r o.
Proof.
  revert o. induction ids as [|l ids IH]; intros o; cbn [rule_del_loop]; [done|].
  change (pa_routine_schedule l (set_core_rules rs o)) with (set_core_rules rs (pa_routine_schedule l o)). set (o1 := pa_routine_schedule l o).
  change (get_ldp (set_core_rules rs o1) l) with (get_ldp o1 l). destruct (get_ldp o1 l) as [p|]; [|done]. cbn [mbind option_bind].
  case_decide; [|apply IH]. rewrite unpublish_rules. destruct (pa_ldp_unpublish l true o1) as [o2|]; [|done]. cbn [fmap option_fmap option_map mbind option_bind].
  rewrite unadopt_rules. destruct (pa_ldp_unadopt l o2) as [o3|]; [|done]. apply IH.
Qed.

(** The pair is not published or adopted by the rule any more. *)
Lemma rule_del_pair r l o p : inv o -> get_ldp o l = Some p ->
  exists o' p', (if decide (ldp_rule p = Some r) then o ← pa_ldp_unpublish l true o; pa_ldp_unadopt l o else Some o) = Some o' /\
    moves l o o' p' /\ ldp_rule p' ≠ Some r /\ (holds p' = true -> p' = p).
Proof.
  intros Ho Hp. case_decide as Hr; [|exists o, p; split; [done|]; split; [by apply moves_refl|done]].
  destruct (pa_ldp_unpublish_moves l true o p Ho Hp) as (o2 & -> & Hm2). pose proof Hm2 as (Ho2 & _ & _ & Hp2 & _). cbn [mbind option_bind].
  destruct (pa_ldp_unadopt_moves l o2 _ Ho2 Hp2) as (o3 & -> & Hm3). eexists _, _. split; [done|]. split; [by eapply moves_trans|].
  pose proof (i_ldps o Ho l p Hp) as [H1 H2 H3 H4]. unfold holds, unadopted, unpublished. destruct (published p) eqn:Hpu; cbn.
  - rewrite (H2 eq_refl). cbn. by rewrite (H2 eq_refl).
  - destruct (adopting p) eqn:Had; cbn in H3; [|congruence]. destruct (applied p); cbn; by rewrite Hpu.
Qed.

Lemma rule_del_loop_ok r ids o : inv o -> (forall l, l ∈ ids -> is_Some (get_ldp o l)) ->
  exists o', rule_del_loop ids r o = Some o' /\ inv o' /\ skel o' = skel o /\ shrinks o o' /\
    forall l p', get_ldp o' l = Some p' -> l ∈ ids \/ (exists p, get_ldp o l = Some p /\ ldp_rule p ≠ Some r) -> ldp_rule p' ≠ Some r.
Proof.
  revert o. induction ids as [|l ids IH]; intros o Ho Hids; cbn [rule_del_loop].
  { exists o. split; [done|]. split; [done|]. split; [done|]. split; [by apply shrinks_eq|]. intros l p' Hp' [?%not_elem_of_nil|(p & Hp & Hr)]; [done|congruence]. }
  pose proof (quiet_schedule l o Ho) as Hq. set (o1 := pa_routine_schedule l o) in *. pose proof Hq as (Ho1 & Hs1 & _ & Hl1).
  destruct (quiet_is_Some _ _ l Hq (Hids l ltac:(by left))) as [p Hp]. rewrite Hp. cbn [mbind option_bind].
  destruct (rule_del_pair r l o1 p Ho1 Hp) as (o2 & p2 & -> & (Ho2 & Hs2 & _ & Hp2 & Hl2) & Hr2 & Hh2). cbn [mbind option_bind].
  assert (Hsh2 : shrinks o1 o2).
  { intros l0 l' p' _ Hp' Hh. destruct (decide (l' = l)) as [->|Hne]; [|rewrite Hl2 in Hp' by done; by exists p'].
    assert (p' = p2) as -> by congruence. exists p. rewrite (Hh2 Hh). split; [done|]. rewrite (Hh2 Hh) in Hh. done. }
  destruct (IH o2 Ho2) as (o3 & -> & Ho3 & Hs3 & Hsh3 & Hno).
  { intros l' Hl'. destruct (Hids l' ltac:(by right)) as [q Hq']. destruct (skel_get o o2 l' q ltac:(congruence) Hq') as (q' & -> & _). by eexists. }
  exists o3. split; [done|]. split; [done|]. split; [congruence|]. split.
  { eapply shrinks_all_trans; [by apply shrinks_quiet|]. by eapply shrinks_all_trans. }
  intros l' p' Hp' Hl'. apply (Hno l' p' Hp'). destruct (decide (l' = l)) as [->|Hne]; [right; by exists p2|].
  destruct Hl' as [[?|?]%elem_of_cons|(q & Hq' & Hr')]; [done|by left|right]. specialize (Hl1 l'). rewrite Hq' in Hl1.
  rewrite Hl2 by done. destruct (get_ldp o1 l') as [q'|]; [|done]. exists q'. split; [done|]. apply (inj Some) in Hl1.
  destruct (unscheduled_fields _ _ Hl1) as (_ & _ & _ & _ & _ & F & _). congruence.
Qed.

Lemma ldps_by_link_get o l : inv o -> pairs o -> l ∈ ldps_by_link o <-> is_Some (get_ldp o l).
Proof.
  intros Ho Hpr. unfold ldps_by_link. rewrite list_elem_of_In, in_flat_map. split.
  - intros (k & _ & Hl). apply list_elem_of_In in Hl. apply list_elem_of_fmap in Hl as (p & -> & [_ Hp]%list_elem_of_filter).
    rewrite get_ldp_elem by (done || apply (i_ids o Ho)). by eexists.
  - intros [p [Hp <-]%get_ldp_in]. assert (Hin : link_dp p ∈ link_dp <$> ldps o) by (apply list_elem_of_fmap; by exists p).
    apply (pr_all o Hpr) in Hin as (k & d & Hk & _ & _ & [= E _]). exists k. split; [by apply list_elem_of_In|]. apply list_elem_of_In.
    apply list_elem_of_fmap. exists p. split; [done|]. by apply list_elem_of_filter.
Qed.

Lemma pa_rule_del_ok r o : inv o -> pairs o ->
  exists o', pa_rule_del r o = Some o' /\ inv o' /\ pairs o' /\ shrinks o o' /\ forall l p', get_ldp o' l = Some p' -> ldp_rule p' ≠ Some r.
Proof.
  intros Ho Hpr. unfold pa_rule_del. change (ldps_by_link (set_core_rules ?rs o)) with (ldps_by_link o).
  rewrite rule_del_loop_rules. destruct (rule_del_loop_ok r (ldps_by_link o) o Ho) as (o1 & -> & Ho1 & Hs1 & Hsh1 & Hno); [intros l; by apply ldps_by_link_get|].
  assert (Hno' : forall l p', get_ldp o1 l = Some p' -> ldp_rule p' ≠ Some r).
  { intros l p' Hp'. apply (Hno l p' Hp'). left. apply ldps_by_link_get; [done|done|]. destruct (skel_get o1 o l p' ltac:(done) Hp') as (q & -> & _). by eexists. }
  cbn [fmap option_fmap option_map]. eexists. split; [done|]. split; [|split; [|split]].
  - apply inv_rules; [done|]. intros l p r' Hp Hr' Hin. apply list_elem_of_filter. split; [intros ->; by apply (Hno' l p Hp)|]. by rewrite <- (skel_rules _ _ Hs1).
  - apply (pairs_skel _ _ Hs1) in Hpr. destruct Hpr. by split.
  - eapply shrinks_all_trans; [exact Hsh1|]. by apply shrinks_eq.
  - exact Hno'.
Qed.

(** The loops of [pa_core_set_flooding_delay] set timers. *)
Lemma retimed_ok (g : pa_core -> pa_ldp -> pa_ldp) ids o : (forall o p, g o p = p \/ exists t, g o p = set_backoff_to t p) -> inv o ->
  let o' := foldl (fun o l => upd_ldp l (g o) o) o ids in inv o' /\ skel o' = skel o /\ shrinks o o'.
Proof.
  intros Hg. revert o. induction ids as [|l ids IH]; intros o Ho; cbn [foldl]; [split; [done|split; [done|by apply shrinks_eq]]|].
  assert (Hf : Keeps (g o)) by (intros p; destruct (Hg o p) as [->|[t ->]]; done).
  assert (Hgp : forall p, (published (g o p), adopting (g o p), ldp_prefix (g o p), ldp_plen (g o p)) = (published p, adopting p, ldp_prefix p, ldp_plen p))
    by (intros p; destruct (Hg o p) as [->|[t ->]]; done).
  assert (H1 : inv (upd_ldp l (g o) o)).
  { destruct (get_ldp o l) as [p|] eqn:Hp.
    - apply (moves_upd l o p (g o)); try done; destruct (Hg o p) as [->|[t ->]]; try done; [by apply (i_ldps o Ho l)|].
      destruct (i_ldps o Ho l p Hp). by split.
    - assert (E : upd_ldp l (g o) o = o); [|by rewrite E]. unfold upd_ldp. rewrite (list_fmap_ext _ id); [rewrite list_fmap_id; by destruct o|].
      intros i p Hip%list_elem_of_lookup_2. rewrite decide_False; [done|]. intros <-. by rewrite get_ldp_elem in Hp by (done || apply (i_ids o Ho)). }
  destruct (IH _ H1) as (I1 & I2 & I3). split; [done|]. split; [rewrite I2; by apply skel_upd|]. eapply shrinks_all_trans; [|exact I3].
  intros l0 l' p' _ Hp' Hh. rewrite get_upd in Hp' by done. case_decide; [|by exists p']. destruct (get_ldp o l') as [p|]; [|done].
  apply (inj Some) in Hp'. subst p'. exists p. specialize (Hgp p). injection Hgp as G1 G2 G3 G4. unfold holds in *. by rewrite G1, G2 in Hh.
Qed.

Lemma pa_core_set_flooding_delay_ok d o : inv o -> pairs o ->
  inv (pa_core_set_flooding_delay d o) /\ pairs (pa_core_set_flooding_delay d o) /\ shrinks o (pa_core_set_flooding_delay d o).
Proof.
  intros Ho Hpr. unfold pa_core_set_flooding_delay. set (o1 := if decide _ then _ else _).
  assert (inv o1 /\ skel o1 = skel o /\ shrinks o o1) as (Ho1 & Hs1 & Hsh1).
  { unfold o1. case_decide; [|case_decide]; [apply retimed_ok; [|done]|apply retimed_ok; [|done]|split; [done|split; [done|by apply shrinks_eq]]].
    - intros o' p. unfold longer_delay. destruct (backoff_to p); [|by left]. destruct (_ && _); [right; by eexists|by left].
    - intros o' p. unfold shorter_delay. destruct (backoff_to p); [|by left]. destruct (_ && _ && _); [right; by eexists|by left]. }
  split; [destruct Ho1; by split|]. split; [apply (pairs_skel _ _ Hs1) in Hpr; destruct Hpr; by split|].
  eapply shrinks_all_trans; [exact Hsh1|by apply shrinks_eq].
Qed.

Lemma pa_core_set_node_id_ok id o : inv o -> pairs o ->
  inv (pa_core_set_node_id id o) /\ pairs (pa_core_set_node_id id o) /\ shrinks o (pa_core_set_node_id id o).
Proof.
  intros Ho Hpr. unfold pa_core_set_node_id. case_decide; [split; [done|split; [done|by apply shrinks_eq]]|]. set (o1 := set_core_node_id id o).
  change (ldps_by_link o) with (ldps_by_link o1). assert (Ho1 : inv o1) by (destruct Ho; by split).
  pose proof (schedule_all_quiet (ldps_by_link o1) o1 Ho1) as Hq. pose proof Hq as (Hi & Hs & _). split; [done|]. split.
  - apply (pairs_skel o1); [done|]. destruct Hpr. by split.
  - eapply shrinks_all_trans; [by apply (shrinks_eq o o1)|by apply shrinks_quiet].
Qed.

End settings.
