(* ===== verification/PaSteps.v ===== *)
(** Everything that happens to a core of the prefix assignment as one step relation,
    and the invariant of the states it reaches. *)
From S2P Require Import Prelude Bitops Tlv BtrieBits BtrieWf BtrieIter BtrieFree BtrieEach PaTrie PaCore PaFacts PaInv PaPublish PaCheck PaRoutine PaPairs PaAdvertise PaSettings.

(** ** Timers *)

Section timers.
Context `{PT : !PrefixTrie pentry, PTO : !PrefixTrieOk pentry, PX : !PaExt, PR : !PaRulesOk}.
Implicit Types (o : pa_core) (l : nat) (p : pa_ldp).

(** No two pairs advertise, or are about to, prefixes that overlap. *)
Definition disjoint o : Prop := forall l1 l2 p1 p2, l1 ≠ l2 -> get_ldp o l1 = Some p1 -> get_ldp o l2 = Some p2 ->
  holds p1 = true -> holds p2 = true -> ~ overlap (bits (ldp_prefix p1) 0 (ldp_plen p1)) (bits (ldp_prefix p2) 0 (ldp_plen p2)).

Lemma disjoint_shrinks o o' : disjoint o -> shrinks o o' -> disjoint o'.
Proof.
  intros Hd Hs l1 l2 p1 p2 Hne Hp1 Hp2 Hh1 Hh2. destruct (Hs (S l1) l1 p1 ltac:(lia) Hp1 Hh1) as (q1 & Hq1 & Hg1 & -> & ->).
  destruct (Hs (S l2) l2 p2 ltac:(lia) Hp2 Hh2) as (q2 & Hq2 & Hg2 & -> & ->). by apply (Hd l1 l2).
Qed.

Lemma overlap_sym x y : overlap x y -> overlap y x.
Proof. intros [?|?]; [by right|by left]. Qed.

(** One pair has moved, to a prefix that overlaps no other. *)
Lemma disjoint_moved l o o' p p' : inv o' -> disjoint o -> get_ldp o l = Some p -> get_ldp o' l = Some p' -> shrinks_but l o o' ->
  (holds p' = true -> exclusive l o' p' \/ holds p = true /\ ldp_prefix p' = ldp_prefix p /\ ldp_plen p' = ldp_plen p) -> disjoint o'.
Proof.
  intros Ho' Hd Hp Hp' Hs Hx.
  assert (Hone : forall l2 p2, l2 ≠ l -> get_ldp o' l2 = Some p2 -> holds p' = true -> holds p2 = true ->
    ~ overlap (bits (ldp_prefix p') 0 (ldp_plen p')) (bits (ldp_prefix p2) 0 (ldp_plen p2))).
  { intros l2 p2 Hne Hp2 Hh' Hh2. destruct (Hx Hh') as [He|(Hh & -> & ->)].
    - apply (He l2); [done|done|]. by eapply holds_assigned.
    - destruct (Hs l2 p2 Hne Hp2 Hh2) as (q2 & Hq2 & Hg2 & -> & ->). by apply (Hd l l2). }
  intros l1 l2 p1 p2 Hne Hp1 Hp2 Hh1 Hh2. destruct (decide (l1 = l)) as [->|H1].
  - assert (p1 = p') as -> by congruence. by apply (Hone l2).
  - destruct (decide (l2 = l)) as [->|H2].
    + assert (p2 = p') as -> by congruence. intros Hov. by apply (Hone l1 p1), overlap_sym.
    + destruct (Hs l1 p1 H1 Hp1 Hh1) as (q1 & Hq1 & Hg1 & -> & ->). destruct (Hs l2 p2 H2 Hp2 Hh2) as (q2 & Hq2 & Hg2 & -> & ->). by apply (Hd l1 l2).
Qed.

(** What a timer does: the core is as before but for one pair; [fails] tells when a rule
    fails. *)
Definition fires (fails : Prop) l o p (res : option pa_core) : Prop :=
  match res with
  | None => confused o p \/ fails
  | Some o' => inv o' /\ skel o' = skel o /\ shrinks_but l o o' /\ exists p', get_ldp o' l = Some p' /\
      (holds p' = true -> exclusive l o' p' \/ holds p = true /\ ldp_prefix p' = ldp_prefix p /\ ldp_plen p' = ldp_plen p)
  end.

Lemma fires_moved fails l o o1 p p1 res : moves l o o1 p1 -> get_ldp o l = Some p ->
  (published p1, adopting p1, ldp_prefix p1, ldp_plen p1) = (published p, adopting p, ldp_prefix p, ldp_plen p) ->
  fires fails l o1 p1 res -> fires fails l o p res.
Proof.
  intros (Ho1 & Hs1 & _ & Hp1 & Hl1) Hp E. injection E as E1 E2 E3 E4. destruct (get_ldp_in _ _ _ Hp) as [_ <-]. destruct (get_ldp_in _ _ _ Hp1) as [_ Hid].
  destruct res as [o'|]; cbn [fires].
  - intros (Ho' & Hs' & Hsh & p' & Hp' & Hx). split; [done|]. split; [congruence|]. split; [eapply shrinks_trans; [by apply shrinks_same|done]|].
    exists p'. split; [done|]. unfold holds in *. by rewrite <- E1, <- E2, <- E3, <- E4.
  - intros [[H1 H2]|Hb]; [left|by right]. split; [congruence|]. intros H. apply H2. rewrite Hid, E3, E4. by eapply alone_same.
Qed.

Lemma pa_routine_fires l fb o p : inv o -> get_ldp o l = Some p -> fires (breaks l fb o) l o p (pa_routine l fb o).
Proof.
  intros Ho Hp. pose proof (pa_routine_ok l fb o p Ho Hp) as H. destruct (pa_routine l fb o) as [o'|]; [|destruct H as [[_ ?]|?]; [by left|by right]].
  destruct H as (best & p' & _ & Ho' & Hs & Hsh & Hp' & _ & Hx). split; [done|]. split; [done|]. split; [done|]. exists p'. split; [done|].
  intros Hh. left. by apply Hx.
Qed.

Lemma pa_routine_to_fires l o p : inv o -> get_ldp o l = Some p -> fires (breaks l false (upd_ldp l (set_routine_to None) o)) l o p (pa_routine_to l o).
Proof.
  intros Ho Hp. unfold pa_routine_to.
  assert (Hm := moves_upd l o p (set_routine_to None) Ho Hp ltac:(done) ltac:(destruct (i_ldps o Ho l p Hp); by split) eq_refl eq_refl eq_refl).
  eapply fires_moved; [exact Hm|done|done|]. apply pa_routine_fires; apply Hm.
Qed.

Lemma moves_fires fails l o o' p p' : moves l o o' p' -> (holds p' = true -> holds p = true) -> ldp_prefix p' = ldp_prefix p -> ldp_plen p' = ldp_plen p ->
  fires fails l o p (Some o').
Proof.
  intros (Ho' & Hs & _ & Hp' & Hl) Hh E1 E2. split; [done|]. split; [done|]. split; [by apply shrinks_same|]. exists p'. split; [done|]. right. auto.
Qed.

Lemma pa_backoff_to_fires l o p : inv o -> get_ldp o l = Some p -> fires (breaks l true (upd_ldp l (set_backoff_to None) o)) l o p (pa_backoff_to l o).
Proof.
  intros Ho Hp. unfold pa_backoff_to.
  assert (Hm := moves_upd l o p (set_backoff_to None) Ho Hp ltac:(done) ltac:(destruct (i_ldps o Ho l p Hp); by split) eq_refl eq_refl eq_refl).
  set (o1 := upd_ldp l (set_backoff_to None) o) in *. set (p1 := set_backoff_to None p) in *. pose proof Hm as (Ho1 & Hs1 & _ & Hp1 & _).
  eapply fires_moved; [exact Hm|done|done|]. rewrite Hp1. cbn [mbind option_bind]. pose proof (i_ldps o1 Ho1 l p1 Hp1) as [H1 H2 H3 H4].
  destruct (adopting p1) eqn:Had.
  - assert (Hpu : published p1 = false) by (destruct (published p1); [by specialize (H2 eq_refl)|done]). rewrite Hpu in H3. cbn [orb] in H3. destruct H3 as (r & -> & Hr).
    assert (Ha : assigned p1 = true) by (by apply (adopting_assigned o1 l)).
    destruct (pa_ldp_publish_moves l r (ldp_priority p1) (rule_priority p1) o1 p1 Ho1 Hp1 Ha Hr) as (o2 & -> & Hm2). rewrite Hpu in Hm2.
    eapply moves_fires; [exact Hm2| | |]; unfold unadopted; rewrite Had; unfold holds; rewrite ?Had, ?orb_true_r; try done; by destruct (applied p1).
  - destruct (assigned p1) eqn:Ha; [|by apply pa_routine_fires].
    destruct (pa_ldp_apply_moves l o1 p1 Ho1 Hp1 Ha) as (o2 & b & -> & Hm2). eapply moves_fires; [exact Hm2| | |]; by destruct (applied p1), b.
Qed.

End timers.

(** ** Everything that happens to a core *)

Inductive pa_op :=
| OpTick (t : Z)  (** time passes *)
| OpRoutine (l : nat)
| OpBackoff (l : nat)
| OpDpAdd (d : pa_dp)
| OpDpDel (d : nat)
| OpLinkAdd (k : pa_link)
| OpLinkDel (k : nat)
| OpAdvpAdd (a : pa_advp)
| OpAdvpUpdate (a : pa_advp)
| OpAdvpDel (a : pa_advp)
| OpRuleAdd (r : nat)
| OpRuleDel (r : nat)
| OpFloodingDelay (d : Z)
| OpNodeId (id : Z)
| OpUserRegister (u : pa_user)
| OpUserUnregister (u : nat).

Section reachable.
Context `{PT : !PrefixTrie pentry, PX : !PaExt}.
Implicit Types (o : pa_core) (l : nat) (p : pa_ldp).

(** A timer fires when it is due; what is added is new, its prefix is in its bytes,
    and what is changed or removed is there. *)
Definition pa_allowed (op : pa_op) o : Prop :=
  match op with
  | OpTick t => pa_now o <= t
  | OpRoutine l => exists p t, get_ldp o l = Some p /\ routine_to p = Some t /\ t <= pa_now o
  | OpBackoff l => exists p t, get_ldp o l = Some p /\ backoff_to p = Some t /\ t <= pa_now o
  | OpDpAdd d => (dp_id d ∉ dp_id <$> dps o) /\ prefix_ok (dp_prefix d) (dp_plen d)
  | OpLinkAdd k => link_id k ∉ link_id <$> links o
  | OpAdvpAdd a => (advp_id a ∉ advp_id <$> advps o) /\ prefix_ok (advp_prefix a) (advp_plen a)
  | OpAdvpUpdate a => exists b, b ∈ advps o /\ advp_id b = advp_id a /\ advp_prefix b = advp_prefix a /\ advp_plen b = advp_plen a
  | OpAdvpDel a => a ∈ advps o
  | _ => True
  end.

Definition pa_exec (op : pa_op) o : option pa_core :=
  match op with
  | OpTick t => Some (set_pa_now t o)
  | OpRoutine l => pa_routine_to l o
  | OpBackoff l => pa_backoff_to l o
  | OpDpAdd d => Some (pa_dp_add d o)
  | OpDpDel d => pa_dp_del d o
  | OpLinkAdd k => Some (pa_link_add k o)
  | OpLinkDel k => pa_link_del k o
  | OpAdvpAdd a => pa_advp_add a o
  | OpAdvpUpdate a => pa_advp_update a o
  | OpAdvpDel a => pa_advp_del a o
  | OpRuleAdd r => Some (pa_rule_add r o)
  | OpRuleDel r => pa_rule_del r o
  | OpFloodingDelay d => Some (pa_core_set_flooding_delay d o)
  | OpNodeId id => Some (pa_core_set_node_id id o)
  | OpUserRegister u => Some (pa_user_register u o)
  | OpUserUnregister u => Some (pa_user_unregister u o)
  end.

Inductive pa_reachable : pa_core -> Prop :=
| pa_reach_init now : pa_reachable (pa_core_init now)
| pa_reach_step op o o' : pa_reachable o -> pa_allowed op o -> pa_exec op o = Some o' -> pa_reachable o'.

(** The pair whose timer fires is one that [pa_ldp_global_valid] gets wrong, or the
    routine comes to a rule that fails. *)
Definition pa_undefined (op : pa_op) o : Prop :=
  match op with
  | OpRoutine l => exists p, get_ldp o l = Some p /\ (confused o p \/ breaks l false (upd_ldp l (set_routine_to None) o))
  | OpBackoff l => exists p, get_ldp o l = Some p /\ (confused o p \/ breaks l true (upd_ldp l (set_backoff_to None) o))
  | _ => False
  end.

End reachable.

Section safety.
Context `{PT : !PrefixTrie pentry, PTO : !PrefixTrieOk pentry, PX : !PaExt, PR : !PaRulesOk}.
Implicit Types (o : pa_core) (l : nat) (p : pa_ldp).

Definition safe o : Prop := inv o /\ pairs o /\ disjoint o.

Lemma safe_init now : safe (pa_core_init now).
Proof.
  destruct pt_init_ok as [Hi He]. split; [|split].
  - split; try done; try (by intros p ?%not_elem_of_nil); try (by apply NoDup_nil).
    intros x e. cbn [prefixes pa_core_init]. rewrite He. split; [by intros ?%not_elem_of_nil|]. destruct e as [l|a]; cbn; by intros (p & ? & _).
  - split; try by apply NoDup_nil. intros x. split; [by intros ?%not_elem_of_nil|]. intros (k & d & ?%not_elem_of_nil & _). done.
  - by intros l1 l2 p1 p2 _ H.
Qed.

Lemma safe_shrinks o o' : safe o -> inv o' -> pairs o' -> shrinks o o' -> safe o'.
Proof. intros (_ & _ & Hd) Hi Hp Hs. split; [done|]. split; [done|]. by eapply disjoint_shrinks. Qed.

Lemma safe_same_pairs o o' : safe o -> inv o' -> links o' = links o -> dps o' = dps o -> link_dp <$> ldps o' = link_dp <$> ldps o ->
  shrinks o o' -> safe o'.
Proof.
  intros Hs Hi E1 E2 E3 Hsh. eapply safe_shrinks; [done|done| |done]. destruct Hs as (_ & [P1 P2 P3 P4] & _). split; rewrite ?E1, ?E2, ?E3; try done.
Qed.

Lemma safe_fires fails l o p o' : safe o -> get_ldp o l = Some p -> fires fails l o p (Some o') -> safe o'.
Proof.
  intros (Hi & Hpr & Hd) Hp (Hi' & Hs & Hsh & p' & Hp' & Hx). split; [done|]. split; [by eapply pairs_skel|]. by eapply disjoint_moved.
Qed.

(** Every operation is defined and keeps the core safe, but for such a routine. *)
Lemma pa_exec_ok op o : safe o -> pa_allowed op o ->
  match pa_exec op o with Some o' => safe o' | None => pa_undefined op o end.
Proof.
  intros Hs Hal. pose proof Hs as (Ho & Hpr & Hd). destruct op; cbn [pa_exec pa_allowed] in *.
  - apply (safe_shrinks o); [done|destruct Ho; by split|destruct Hpr; by split|by apply shrinks_eq].
  - destruct Hal as (p & t & Hp & _). pose proof (pa_routine_to_fires l o p Ho Hp) as Hf.
    destruct (pa_routine_to l o); [by eapply safe_fires|by exists p].
  - destruct Hal as (p & t & Hp & _). pose proof (pa_backoff_to_fires l o p Ho Hp) as Hf.
    destruct (pa_backoff_to l o); [by eapply safe_fires|by exists p].
  - destruct (pa_dp_add_ok d o Ho Hpr) as (H1 & H2 & H3); [apply Hal|apply Hal|]. by eapply safe_shrinks.
  - destruct (pa_dp_del_ok d o Ho Hpr) as (o' & -> & H1 & H2 & H3 & _). by eapply safe_shrinks.
  - destruct (pa_link_add_ok k o Ho Hpr Hal) as (H1 & H2 & H3). by eapply safe_shrinks.
  - destruct (pa_link_del_ok k o Ho Hpr) as (o' & -> & H1 & H2 & H3 & _). by eapply safe_shrinks.
  - destruct (pa_advp_add_ok a o Ho) as (o' & -> & H1 & H2 & H3 & H4 & H5); [apply Hal|apply Hal|]. by eapply safe_same_pairs.
  - destruct Hal as (b & B1 & B2 & B3 & B4). destruct (pa_advp_update_ok a o b Ho B1 B2 B3 B4) as (o' & -> & H1 & H2 & H3 & H4 & H5). by eapply safe_same_pairs.
  - destruct (pa_advp_del_ok a o Ho Hal) as (o' & -> & H1 & H2 & H3 & H4 & H5). by eapply safe_same_pairs.
  - destruct (pa_rule_add_ok r o Ho Hpr) as (H1 & H2 & H3). by eapply safe_shrinks.
  - destruct (pa_rule_del_ok r o Ho Hpr) as (o' & -> & H1 & H2 & H3 & _). by eapply safe_shrinks.
  - destruct (pa_core_set_flooding_delay_ok d o Ho Hpr) as (H1 & H2 & H3). by eapply safe_shrinks.
  - destruct (pa_core_set_node_id_ok id o Ho Hpr) as (H1 & H2 & H3). by eapply safe_shrinks.
  - apply (safe_shrinks o); [done|destruct Ho; by split|destruct Hpr; by split|by apply shrinks_eq].
  - apply (safe_shrinks o); [done|destruct Ho; by split|destruct Hpr; by split|by apply shrinks_eq].
Qed.

Lemma pa_reachable_safe o : pa_reachable o -> safe o.
Proof.
  induction 1 as [now|op o o' Ho IH Hal He]; [apply safe_init|]. pose proof (pa_exec_ok op o IH Hal) as H. by rewrite He in H.
Qed.

End safety.
