(* ===== verification/PaRules.v ===== *)
(** The rules of the prefix assignment: the model of [src/pa_rules.c] and of
    [src/pa_filters.c].

    Callbacks of the rules are functions of the rule's record.  The hash function, the
    numbers [random] returns and the order of bytes are parameters.  The memory of
    prefixes on the stack is zero before it is written; nothing reads it before. *)
From S2P Require Import Prelude Bitops Tlv PaTrie PaCore.

Definition PA_RAND_MAX_PLEN : nat := 128.

(** What the rules use of the machine and of libraries. *)
Class PaHost := {
  pa_random : nat -> Z;
  md5 : list Z -> list Z;
  big_endian : bool
}.

Definition new_prefix : list Z := replicate 16 0.

(** The bytes of a [uint32_t] in memory. *)
Definition host32 `{!PaHost} (v : Z) : list Z := if big_endian then be32 v else le_bytes 4 v.

(** ** Prefixes *)

(** [pa_rule_prefix_nth]: an [int] below zero has no meaning as a number of bits. *)
Definition pa_rule_prefix_nth (container : list Z) (container_len : nat) (n : Z) (plen : nat) : option (list Z) :=
  dst ← pa_prefix_cpy container container_len new_prefix;
  if decide (plen < container_len)%nat then None
  else
    let container_len := if decide (32 < plen - container_len)%nat then (plen - 32)%nat else container_len in
    bmemcpy_shift dst container_len (be32 n) (32 - (plen - container_len)) (plen - container_len).

(** The loop of [pa_rule_prefix_count]; [count] has [PA_RAND_MAX_PLEN + 1] elements. *)
Fixpoint count_loop (A : list (list Z * nat)) (count : list Z) : option (list Z) :=
  match A with
  | [] => Some count
  | (_, plen) :: A =>
    c ← count !! plen;
    count_loop A (if decide (c = 65535) then count else <[plen := c + 1]> count)
  end.

(** [(uint64_t)(1 << k)] for [k] below 32: the shift is that of an [int]. *)
Definition shl1 (k : nat) : Z := u64 (i32 (2 ^ Z.of_nat k)).

(** [pa_rule_candidate_subset] from [plen] on, with [c] candidates found: their
    number, the minimal length if one was met, and [overflow_n]. *)
Fixpoint subset_loop (count : list Z) (desired_plen : nat) (size c : Z) (min_plen : option nat) (plen : nat)
  : option (Z * option nat * Z) :=
  n ← count !! plen;
  if decide (n = 0) then
    match plen with O => Some (u32 c, min_plen, 0) | S q => subset_loop count desired_plen size c min_plen q end
  else
    let k := (desired_plen - plen)%nat in
    if decide (32 <= k)%nat then Some (size, Some plen, u32 (size - c))
    else
      let c' := u64 (c + u64 (n * shl1 k)) in
      if decide (size < c') then Some (size, Some plen, u32 (size - c))
      else if decide (c' = size) then Some (u32 c', Some plen, 0)
      else match plen with O => Some (u32 c', Some plen, 0) | S q => subset_loop count desired_plen size c' (Some plen) q end.

Definition pa_rule_candidate_subset (count : list Z) (desired_plen : nat) (desired_set_size : Z)
  : option (Z * option nat * Z) :=
  subset_loop count desired_plen desired_set_size 0 None desired_plen.

(** One pass of [pa_rule_candidate_pick]: the number left, or the candidate. *)
Fixpoint pick_pass (pass : bool) (A : list (list Z * nat)) (n : Z) (plen min_plen max_plen : nat) : option (Z + list Z) :=
  match A with
  | [] => Some (inl n)
  | (iter, i) :: A =>
    if (if pass then bool_decide (i = min_plen) else bool_decide (min_plen < i)%nat && bool_decide (i <= max_plen)%nat) then
      if decide (plen < i)%nat then None
      else if decide (32 <= plen - i)%nat then p ← pa_rule_prefix_nth iter i n plen; Some (inr p)
      else if decide (n < 2 ^ Z.of_nat (plen - i)) then p ← pa_rule_prefix_nth iter i n plen; Some (inr p)
      else pick_pass pass A (u32 (n - 2 ^ Z.of_nat (plen - i))) plen min_plen max_plen
    else pick_pass pass A n plen min_plen max_plen
  end.

Section rules.
Context `{PT : !PrefixTrie pentry, HO : !PaHost}.
Implicit Types (o : pa_core) (p : pa_ldp).

Definition pa_rule_prefix_count o (subprefix : list Z) (subplen : nat) : option (list Z) :=
  A ← pt_for_each_available (prefixes o) new_prefix subprefix subplen;
  count_loop A (replicate (S PA_RAND_MAX_PLEN) 0).

(** [None] when there is no such candidate. *)
Definition pa_rule_candidate_pick o (subprefix : list Z) (subplen : nat) (n : Z) (plen min_plen max_plen : nat)
  : option (option (list Z)) :=
  A ← pt_for_each_available (prefixes o) new_prefix subprefix subplen;
  r ← pick_pass false A n plen min_plen max_plen;
  match r with
  | inr p => Some (Some p)
  | inl n =>
    r ← pick_pass true A n plen min_plen max_plen;
    Some (match r with inr p => Some p | inl _ => None end)
  end.

(** The loop of [pa_rule_prefix_prandom], 16 bytes a round. *)
Fixpoint prandom_loop (fuel : nat) (seed : list Z) (ctr ctr2 : Z) (dst : list Z) (off bytelen : nat) : option (list Z) :=
  match fuel, bytelen with
  | _, O => Some dst
  | O, _ => None
  | S fuel, _ =>
    let write := Nat.min 16 bytelen in
    let hash := md5 (seed ++ host32 ctr ++ host32 ctr2) in
    dst ← wrn dst off (take write hash);
    prandom_loop fuel seed ctr (ctr2 + 1) dst (off + 16) (bytelen - write)
  end.

Definition pa_rule_prefix_prandom (seed : list Z) (ctr : Z) (container : list Z) (container_len : nat) (dst : list Z) (plen : nat)
  : option (list Z) :=
  dst ← prandom_loop 16 seed ctr 0 dst 0 ((plen + 7) / 8);
  bmemcpy dst 0 container 0 0 container_len.

(** ** The adopt rule *)

Record pa_rule_adopt := mk_pa_rule_adopt {
  adopt_rule_priority : Z;
  adopt_priority : Z
}.

Definition pa_rule_adopt_get_max_priority (r : pa_rule_adopt) p : Z :=
  if negb (assigned p) || bool_decide (best_assignment p ≠ None) || published p then 0 else adopt_rule_priority r.

Definition pa_rule_adopt_match (r : pa_rule_adopt) (arg : pa_rule_arg) : pa_rule_target * pa_rule_arg :=
  (PA_RULE_ADOPT, mk_pa_rule_arg (Some (adopt_rule_priority r)) (arg_prefix arg) (Some (adopt_priority r))).

Definition pa_rule_adopt_init (rule_priority priority : Z) : pa_rule_adopt := mk_pa_rule_adopt rule_priority priority.

(** ** The random rule *)

Record pa_rule_random := mk_pa_rule_random {
  rand_rule_priority : Z;
  rand_priority : Z;
  rand_subprefix_cb : option (pa_core -> pa_ldp -> option (list Z * nat));  (** [None]: an error *)
  rand_desired_plen_cb : pa_core -> pa_ldp -> list Z -> nat;
  rand_accept_proposed_cb : option (pa_core -> pa_ldp -> list Z -> nat -> bool);
  random_set_size : Z;
  pseudo_random_tentatives : nat;
  pseudo_random_seed : list Z;
  rand_override_rule_priority : Z;
  rand_override_priority : Z;
  rand_safety : bool
}.

Definition pa_rule_random_get_max_priority (r : pa_rule_random) p : Z :=
  if bool_decide (best_assignment p ≠ None) || published p then 0 else rand_rule_priority r.

Definition accepts (cb : option (pa_core -> pa_ldp -> list Z -> nat -> bool)) o p (pfx : list Z) (plen : nat) : bool :=
  match cb with None => true | Some f => f o p pfx plen end.

(** The prefix that an entry of the trie has. *)
Definition entry_prefix o (e : pentry) : option (list Z * nat) :=
  match e with
  | PAT_ASSIGNED l2 => q ← get_ldp o l2; Some (ldp_prefix q, ldp_plen q)
  | PAT_ADVERTISED a => a ← get_advp o a; Some (advp_prefix a, advp_plen a)
  end.

Definition is_assigned (e : pentry) : bool := match e with PAT_ASSIGNED _ => true | PAT_ADVERTISED _ => false end.

(** The loop that looks for a prefix to override: the smallest length, local ones
    first. *)
Fixpoint override_loop (r : pa_rule_random) o p (desired_plen : nat) (es : list pentry) (best : option (list Z * nat * bool))
  : option (option (list Z * nat * bool)) :=
  match es with
  | [] => Some best
  | e :: es =>
    '(pfx, plen) ← entry_prefix o e;
    if decide (desired_plen < plen)%nat then override_loop r o p desired_plen es best
    else
      ok ← pa_rule_valid_assignment o p pfx plen (rand_override_rule_priority r) (rand_override_priority r) (rand_safety r);
      if negb ok then override_loop r o p desired_plen es best
      else
        let take := match best with
          | None => true
          | Some (_, best_plen, best_assigned) =>
            bool_decide (plen < best_plen)%nat || (bool_decide (best_plen = plen) && negb best_assigned && is_assigned e)
          end in
        override_loop r o p desired_plen es (if take then Some (pfx, plen, is_assigned e) else best)
  end.

(** The rounds that pick a prefix inside the one to override. *)
Fixpoint override_tries (fuel : nat) (r : pa_rule_random) o p (best_p : list Z) (best_plen desired_plen : nat) (set_size : Z) (n : nat)
  : option (option (list Z) * nat) :=
  match fuel with
  | O => Some (None, n)
  | S fuel =>
    if decide (set_size = 0) then None
    else
      let id := be32 (u32 (Z.rem (pa_random n) set_size)) in
      t ← pa_prefix_cpy best_p desired_plen new_prefix;
      if decide (32 < desired_plen - best_plen)%nat then None
      else
        t ← bmemcpy_shift t best_plen id (32 - (desired_plen - best_plen)) (desired_plen - best_plen);
        if accepts (rand_accept_proposed_cb r) o p t desired_plen then Some (Some t, S n)
        else override_tries fuel r o p best_p best_plen desired_plen set_size (S n)
  end.

(** [pa_prefix_cpy(&tentative, desired_plen, &pa_arg->prefix, pa_arg->plen)]. *)
Definition set_arg_prefix (pfx : list Z) (plen : nat) (arg : pa_rule_arg) : option pa_rule_arg :=
  x ← pa_prefix_cpy pfx plen (match arg_prefix arg with Some (old, _) => old | None => new_prefix end);
  Some (mk_pa_rule_arg (arg_rule_priority arg) (Some (x, plen)) (arg_priority arg)).

(** Publish what was chosen, if anything. *)
Definition choose (t : option (list Z)) (desired_plen : nat) (arg : pa_rule_arg) (n : nat)
  : option (pa_rule_target * pa_rule_arg * nat) :=
  match t with
  | None => Some (PA_RULE_NO_MATCH, arg, n)
  | Some t => arg ← set_arg_prefix t desired_plen arg; Some (PA_RULE_PUBLISH, arg, n)
  end.

Definition pa_rule_random_override_match (r : pa_rule_random) o p (subprefix : list Z) (subplen : nat) (arg : pa_rule_arg)
    (desired_plen : nat) : option (pa_rule_target * pa_rule_arg * nat) :=
  if bool_decide (rand_override_priority r = 0) && bool_decide (rand_override_rule_priority r = 0)
  then Some (PA_RULE_NO_MATCH, arg, pa_randoms o)
  else
    es ← pt_for_each_down (prefixes o) subprefix subplen;
    best ← override_loop r o p desired_plen es None;
    match best with
    | None => Some (PA_RULE_NO_MATCH, arg, pa_randoms o)
    | Some (best_p, best_plen, _) =>
      let set_size := if decide (32 <= desired_plen - best_plen)%nat then 2 ^ 31 else 2 ^ Z.of_nat (desired_plen - best_plen) in
      let set_size := if decide (random_set_size r < set_size) then random_set_size r else set_size in
      '(t, n) ← override_tries 100 r o p best_p best_plen desired_plen set_size (pa_randoms o);
      choose t desired_plen arg n
    end.

(** The pseudo-random rounds, from [i] on: whether one was chosen, and the last. *)
Fixpoint prandom_tries (k : nat) (i : Z) (r : pa_rule_random) o p (subprefix : list Z) (subplen desired_plen min_plen : nat)
    (overflow : option (list Z)) (tentative : list Z) : option (bool * list Z) :=
  match k with
  | O => Some (false, tentative)
  | S k =>
    t ← pa_rule_prefix_prandom (pseudo_random_seed r) i subprefix subplen tentative desired_plen;
    first ← pt_first_available_loop (prefixes o) new_prefix t subplen desired_plen;
    good ← match first with
           | None => Some false
           | Some (iter_p, iter_plen) =>
             if decide (desired_plen < iter_plen)%nat then Some false
             else
               inside ← pa_prefix_contains iter_p iter_plen t;
               if negb inside || bool_decide (iter_plen < min_plen)%nat then Some false
               else
                 match overflow with
                 | Some x => if decide (iter_plen = min_plen) then c ← bmemcmp t 0 x 0 desired_plen; Some (bool_decide (c < 0))
                             else Some true
                 | None => Some true
                 end
           end;
    if (good : bool) && accepts (rand_accept_proposed_cb r) o p t desired_plen then Some (true, t)
    else prandom_tries k (i + 1) r o p subprefix subplen desired_plen min_plen overflow t
  end.

(** The random rounds: a candidate that cannot be picked leaves the prefix as it is. *)
Fixpoint random_tries (fuel : nat) (r : pa_rule_random) o p (subprefix : list Z) (subplen desired_plen min_plen : nat) (found : Z)
    (tentative : option (list Z)) (n : nat) : option (option (list Z) * nat) :=
  match fuel with
  | O => Some (None, n)
  | S fuel =>
    x ← pa_rule_candidate_pick o subprefix subplen (u32 (Z.rem (pa_random n) found)) desired_plen min_plen desired_plen;
    t ← match x with Some t => Some t | None => tentative end;
    if accepts (rand_accept_proposed_cb r) o p t desired_plen then Some (Some t, S n)
    else random_tries fuel r o p subprefix subplen desired_plen min_plen found (Some t) (S n)
  end.

(** The delegated prefix, or what the callback says. *)
Definition rule_subprefix (cb : option (pa_core -> pa_ldp -> option (list Z * nat))) o p : option (option (list Z * nat)) :=
  match cb with
  | None => d ← get_dp o (ldp_dp p); Some (Some (dp_prefix d, dp_plen d))
  | Some f => Some (f o p)
  end.

(** The candidates of a rule are known: choose one. *)
Definition random_candidates (r : pa_rule_random) o p (subprefix : list Z) (subplen desired_plen min_plen : nat) (found overflow_n : Z)
    (arg : pa_rule_arg) : option (pa_rule_target * pa_rule_arg * nat) :=
  pseudo ← (if decide (pseudo_random_tentatives r = 0)%nat then Some (false, None)
            else
              overflow ← (if decide (overflow_n = 0) then Some None
                          else x ← pa_rule_candidate_pick o subprefix subplen overflow_n desired_plen min_plen min_plen;
                               match x with Some x => Some (Some x) | None => None end);
              '(b, t) ← prandom_tries (pseudo_random_tentatives r) 0 r o p subprefix subplen desired_plen min_plen overflow new_prefix;
              Some (b, Some t));
  match pseudo with
  | (true, t) => choose t desired_plen arg (pa_randoms o)
  | (false, t) =>
    '(t, n) ← random_tries 100 r o p subprefix subplen desired_plen min_plen found t (pa_randoms o);
    choose t desired_plen arg n
  end.

Definition pa_rule_random_match (r : pa_rule_random) o p (arg : pa_rule_arg) : option (pa_rule_target * pa_rule_arg * nat) :=
  let arg := mk_pa_rule_arg (Some (rand_rule_priority r)) (arg_prefix arg) (Some (rand_priority r)) in
  if negb (backoff p) then Some (PA_RULE_BACKOFF, arg, pa_randoms o)
  else
    sub ← rule_subprefix (rand_subprefix_cb r) o p;
    match sub with
    | None => Some (PA_RULE_NO_MATCH, arg, pa_randoms o)
    | Some (subprefix, subplen) =>
      count ← pa_rule_prefix_count o subprefix subplen;
      let desired_plen := rand_desired_plen_cb r o p count in
      '(found, min_plen, overflow_n) ← pa_rule_candidate_subset count desired_plen (random_set_size r);
      if decide (found = 0) then pa_rule_random_override_match r o p subprefix subplen arg desired_plen
      else
        min_plen ← min_plen;
        random_candidates r o p subprefix subplen desired_plen min_plen found overflow_n arg
    end.

(** What [mem], the memory of the rule, has for the number of rounds stays. *)
Definition pa_rule_random_init (mem : pa_rule_random) (rule_priority priority : Z) (desired_plen_cb : pa_core -> pa_ldp -> list Z -> nat)
    (size : Z) : pa_rule_random :=
  mk_pa_rule_random rule_priority priority None desired_plen_cb None size (pseudo_random_tentatives mem) [] 0 0 false.

Definition pa_rule_random_prandconf (tentatives : nat) (seed : list Z) (r : pa_rule_random) : pa_rule_random :=
  mk_pa_rule_random (rand_rule_priority r) (rand_priority r) (rand_subprefix_cb r) (rand_desired_plen_cb r) (rand_accept_proposed_cb r)
    (random_set_size r) tentatives seed (rand_override_rule_priority r) (rand_override_priority r) (rand_safety r).

(** ** The hamming rule *)

Record pa_rule_hamming := mk_pa_rule_hamming {
  ham_subprefix_cb : option (pa_core -> pa_ldp -> option (list Z * nat));
  ham_desired_plen_cb : pa_core -> pa_ldp -> list Z -> nat;
  ham_rule_priority : Z;
  ham_priority : Z;
  ham_seed : list Z;
  ham_set_size : Z
}.

Definition pa_rule_hamming_get_max_priority (r : pa_rule_hamming) p : Z :=
  if bool_decide (best_assignment p ≠ None) || published p then 0 else ham_rule_priority r.

Definition pa_rule_hamming_init (rule_priority priority : Z) (desired_plen_cb : pa_core -> pa_ldp -> list Z -> nat) (size : Z)
    (seed : list Z) : pa_rule_hamming :=
  mk_pa_rule_hamming None desired_plen_cb rule_priority priority seed size.

(** The loop over available prefixes: the candidates left in those of the minimal
    length, the best distance and the best prefix, if there is one.  The bits that
    [hamming_minimize] writes into the key of the loop are after those that the loop
    goes on from. *)
Fixpoint hamming_loop (A : list (list Z * nat)) (hammer : list Z) (desired_plen min_plen : nat) (overflow_n best_distance : Z)
    (best_prefix : option (list Z)) : option (option (list Z)) :=
  match A with
  | [] => Some best_prefix
  | (iter, iter_plen) :: A =>
    if decide (desired_plen < iter_plen)%nat then hamming_loop A hammer desired_plen min_plen overflow_n best_distance best_prefix
    else if decide (iter_plen < min_plen)%nat then hamming_loop A hammer desired_plen min_plen overflow_n best_distance best_prefix
    else
      let partial := bool_decide (overflow_n ≠ 0) && bool_decide (iter_plen = min_plen) in
      let count := if decide (32 <= desired_plen - iter_plen)%nat then 2 ^ 31 else 2 ^ Z.of_nat (desired_plen - iter_plen) in
      if partial && bool_decide (overflow_n <= count) then
        overflow_prefix ← pa_rule_prefix_nth iter iter_plen (u32 (overflow_n - 1)) desired_plen;
        hd ← hamming_distance_64 big_endian iter hammer iter_plen;
        '(iter, hd2) ← hamming_minimize overflow_prefix hammer iter iter_plen (desired_plen - iter_plen);
        if decide (hd + hd2 < best_distance) then
          best ← bmemcpy (default new_prefix best_prefix) 0 iter 0 0 desired_plen;
          hamming_loop A hammer desired_plen min_plen 0 (hd + hd2) (Some best)
        else hamming_loop A hammer desired_plen min_plen 0 best_distance best_prefix
      else
        let overflow_n := if partial then overflow_n - count else overflow_n in
        hd ← hamming_distance_64 big_endian iter hammer iter_plen;
        if decide (hd < best_distance) then
          best ← bmemcpy (default new_prefix best_prefix) 0 iter 0 0 iter_plen;
          best ← bmemcpy best 0 hammer 0 iter_plen (desired_plen - iter_plen);
          hamming_loop A hammer desired_plen min_plen overflow_n hd (Some best)
        else hamming_loop A hammer desired_plen min_plen overflow_n best_distance best_prefix
  end.

(** Without candidates [pa_rule_random_override_match] takes the rule for a random
    one and reads past its end. *)
Definition pa_rule_hamming_match (r : pa_rule_hamming) o p (arg : pa_rule_arg) : option (pa_rule_target * pa_rule_arg * nat) :=
  let arg := mk_pa_rule_arg (Some (ham_rule_priority r)) (arg_prefix arg) (arg_priority arg) in
  if negb (backoff p) then Some (PA_RULE_BACKOFF, arg, pa_randoms o)
  else
    sub ← rule_subprefix (ham_subprefix_cb r) o p;
    match sub with
    | None => Some (PA_RULE_NO_MATCH, arg, pa_randoms o)
    | Some (subprefix, subplen) =>
      count ← pa_rule_prefix_count o subprefix subplen;
      let desired_plen := ham_desired_plen_cb r o p count in
      '(found, min_plen, overflow_n) ← pa_rule_candidate_subset count desired_plen (ham_set_size r);
      if decide (found = 0) then None
      else
        min_plen ← min_plen;
        hammer ← pa_rule_prefix_prandom (ham_seed r) 0 subprefix subplen new_prefix desired_plen;
        A ← pt_for_each_available (prefixes o) new_prefix subprefix subplen;
        best ← hamming_loop A hammer desired_plen min_plen overflow_n 200 None;
        best ← best;
        arg ← set_arg_prefix best desired_plen arg;
        Some (PA_RULE_PUBLISH, mk_pa_rule_arg (arg_rule_priority arg) (arg_prefix arg) (Some (ham_priority r)), pa_randoms o)
    end.

(** ** The static rule *)

(** What [get_prefix] writes when the priority is asked for is still there when the
    rule is matched, so it is asked again. *)
Record pa_rule_static := mk_pa_rule_static {
  get_prefix : option (pa_core -> pa_ldp -> option (list Z * nat));
  static_rule_priority : Z;
  static_priority : Z;
  static_override_priority : Z;
  static_override_rule_priority : Z;
  static_safety : bool
}.

Definition static_prefix (r : pa_rule_static) o p : option (list Z * nat) :=
  match get_prefix r with None => None | Some f => f o p end.

Definition pa_rule_static_get_max_priority (r : pa_rule_static) o p : option Z :=
  match static_prefix r o p with
  | None => Some 0
  | Some (pfx, plen) =>
    d ← get_dp o (ldp_dp p);
    if decide (plen < dp_plen d)%nat then Some 0
    else
      inside ← pa_prefix_contains (dp_prefix d) (dp_plen d) pfx;
      if negb inside then Some 0
      else
        ok ← pa_rule_valid_assignment o p pfx plen (static_override_rule_priority r) (static_override_priority r) (static_safety r);
        Some (if (ok : bool) then static_rule_priority r else 0)
  end.

Definition pa_rule_static_match (r : pa_rule_static) o p (arg : pa_rule_arg) : option (pa_rule_target * pa_rule_arg * nat) :=
  if negb (backoff p) && bool_decide (best_assignment p = None) then Some (PA_RULE_BACKOFF, arg, pa_randoms o)
  else
    '(pfx, plen) ← static_prefix r o p;
    let arg := mk_pa_rule_arg (Some (static_rule_priority r)) (arg_prefix arg) (Some (static_priority r)) in
    arg ← set_arg_prefix pfx plen arg;
    Some (PA_RULE_PUBLISH, arg, pa_randoms o).

(** What the memory of the rule has for overriding stays. *)
Definition pa_rule_static_init (mem : pa_rule_static) (cb : option (pa_core -> pa_ldp -> option (list Z * nat)))
    (rule_priority priority : Z) : pa_rule_static :=
  mk_pa_rule_static cb rule_priority priority (static_override_priority mem) (static_override_rule_priority mem) (static_safety mem).

(** ** Filters *)

(** [struct pa_filter] with its functions; the elements of [pa_filters] in the order
    of their list. *)
Inductive pa_filter :=
| pa_filters_or (fs : list pa_filter) (negate : bool)
| pa_filters_and (fs : list pa_filter) (negate : bool)
| pa_filter_ldp (link dp : option nat)
| pa_filter_type_dp (type : Z)
| pa_filter_type_link (type : Z)
| pa_filter_fn (f : pa_core -> pa_ldp -> bool).

Definition get_link o (k : nat) : option pa_link := snd <$> list_find (fun x => link_id x = k) (links o).

Fixpoint pa_filter_accept (f : pa_filter) o p : option bool :=
  match f with
  | pa_filters_or fs negate =>
    (fix loop (fs : list pa_filter) : option bool :=
       match fs with
       | [] => Some negate
       | f :: fs => a ← pa_filter_accept f o p; if (a : bool) then Some (negb negate) else loop fs
       end) fs
  | pa_filters_and fs negate =>
    (fix loop (fs : list pa_filter) : option bool :=
       match fs with
       | [] => Some (negb negate)
       | f :: fs => a ← pa_filter_accept f o p; if (a : bool) then loop fs else Some negate
       end) fs
  | pa_filter_ldp link dp =>
    if match link with Some k => bool_decide (k ≠ ldp_link p) | None => false end then Some false
    else if match dp with Some d => bool_decide (d ≠ ldp_dp p) | None => false end then Some false
    else Some true
  | pa_filter_type_dp type => d ← get_dp o (ldp_dp p); Some (bool_decide (dp_type d = type))
  | pa_filter_type_link type => k ← get_link o (ldp_link p); Some (bool_decide (link_type k = type))
  | pa_filter_fn f => Some (f o p)
  end.

(** ** The rules of a core *)

Inductive rule_kind :=
| RuleAdopt (r : pa_rule_adopt)
| RuleRandom (r : pa_rule_random)
| RuleHamming (r : pa_rule_hamming)
| RuleStatic (r : pa_rule_static).

(** [struct pa_rule]: its filter and its functions. *)
Record pa_rule := mk_pa_rule {
  rule_filter : option pa_filter;
  rule_of_kind : rule_kind
}.

Definition kind_max_priority (k : rule_kind) o p : option Z :=
  match k with
  | RuleAdopt r => Some (pa_rule_adopt_get_max_priority r p)
  | RuleRandom r => Some (pa_rule_random_get_max_priority r p)
  | RuleHamming r => Some (pa_rule_hamming_get_max_priority r p)
  | RuleStatic r => pa_rule_static_get_max_priority r o p
  end.

Definition kind_match (k : rule_kind) o p (arg : pa_rule_arg) : option (pa_rule_target * pa_rule_arg * nat) :=
  match k with
  | RuleAdopt r => let '(target, arg) := pa_rule_adopt_match r arg in Some (target, arg, pa_randoms o)
  | RuleRandom r => pa_rule_random_match r o p arg
  | RuleHamming r => pa_rule_hamming_match r o p arg
  | RuleStatic r => pa_rule_static_match r o p arg
  end.

(** What a core calls when these are its rules. *)
Definition rules_ext (rules : nat -> pa_rule) (ha : nat -> bool) : PaExt := {|
  pa_rand := pa_random;
  filter_accept := fun r o p => match rule_filter (rules r) with Some f => pa_filter_accept f o p | None => Some true end;
  get_max_priority := fun r o p => kind_max_priority (rule_of_kind (rules r)) o p;
  rule_match := fun r o p _ arg => kind_match (rule_of_kind (rules r)) o p arg;
  ha_applied := ha
|}.

End rules.
