(* ===== verification/PaPick.v ===== *)
(** The candidates of the rules of the prefix assignment: what is counted, how many
    are taken, and that every number below that picks a prefix inside an available
    one. *)
From S2P Require Import Prelude Bitops Tlv BtrieBits BtrieWf BtrieIter BtrieFree BtrieEach PaTrie PaCore PaFacts PaInv PaPublish PaCheck PaRules.

(** ** The n-th prefix *)

Lemma new_prefix_ok n : (n <= 128)%nat -> prefix_ok new_prefix n.
Proof. intros H. split; [apply Forall_replicate; unfold byte_ok; lia|]. by split. Qed.

Lemma prefix_ok_le x n m : prefix_ok x n -> (m <= 128)%nat -> prefix_ok x m.
Proof. intros (H1 & H2 & _) Hm. by split. Qed.

(** Copying no bits from the end of a byte reads that byte. *)
Definition past_end (container_len plen : nat) : Prop := plen = container_len /\ (plen mod 8 = 0)%nat.

Lemma copied_prefix dst dst' src dpos spos n m : copied dst dst' src dpos spos n -> (m <= dpos)%nat -> bits dst' 0 m = bits dst 0 m.
Proof.
  intros (_ & _ & H) Hm. unfold bits. apply list_fmap_ext. intros i j Hj%lookup_seq. rewrite H, decide_False by lia. done.
Qed.

Lemma copied_ok dst dst' src dpos spos n plen : copied dst dst' src dpos spos n -> prefix_ok dst plen -> prefix_ok dst' plen.
Proof. intros (Hl & Hb & _) (_ & Hd & Hp). split; [done|]. split; [congruence|done]. Qed.

Lemma pa_rule_prefix_nth_ok container clen n plen : prefix_ok container clen -> (clen <= plen <= 128)%nat -> ~ past_end clen plen ->
  exists x, pa_rule_prefix_nth container clen n plen = Some x /\ prefix_ok x plen /\ bits container 0 clen `prefix_of` bits x 0 plen.
Proof.
  intros Hc Hlen Hpe. pose proof Hc as (Hcb & Hcl & Hcp). unfold pa_rule_prefix_nth.
  pose proof (new_prefix_ok 0 ltac:(lia)) as (Hzb & Hzl & _).
  destruct (pa_prefix_cpy_ok container clen new_prefix Hc Hzb Hzl) as (d & -> & Hd & Hdb). cbn [mbind option_bind].
  rewrite decide_False by lia. set (clen' := if decide _ then _ else clen). pose proof Hd as (Hdb' & Hdl & _).
  pose proof (be32_bytes n) as Hnb. assert (Hnl : length (be32 n) = 4%nat) by done.
  assert (Hc' : (clen <= clen' <= plen)%nat /\ (plen - clen' <= 32)%nat) by (unfold clen'; case_decide; lia).
  assert (exists x, bmemcpy_shift d clen' (be32 n) (32 - (plen - clen')) (plen - clen') = Some x /\
    copied d x (be32 n) clen' (32 - (plen - clen')) (plen - clen')) as (x & -> & Hx).
  { destruct (decide (plen = clen)) as [->|Hne].
    - assert (clen' = clen) as -> by lia. rewrite Nat.sub_diag. unfold bmemcpy_shift. change (32 - 0)%nat with 32%nat. change (32 mod 8)%nat with 0%nat.
      rewrite decide_False by (intros E; by apply Hpe). exists d. cbn. split; [done|]. split; [done|]. split; [done|]. intros i. rewrite decide_False by lia. done.
    - assert (clen' < plen)%nat by (unfold clen'; case_decide; lia). apply bmemcpy_shift_ok; [done|done|lia|lia]. }
  exists x. split; [done|]. split.
  - destruct (copied_ok _ _ _ _ _ _ clen Hx Hd) as (? & ? & _). split; [done|]. split; [done|lia].
  - rewrite <- Hdb, <- (copied_prefix _ _ _ _ _ _ clen Hx) by lia. apply bits_prefix. lia.
Qed.

(** The read past the four bytes of the number. *)
Lemma pa_rule_prefix_nth_past_end container n plen : prefix_ok container plen -> past_end plen plen ->
  pa_rule_prefix_nth container plen n plen = None.
Proof.
  intros Hc [_ Hm]. unfold pa_rule_prefix_nth. pose proof (new_prefix_ok 0 ltac:(lia)) as (Hzb & Hzl & _).
  destruct (pa_prefix_cpy_ok container plen new_prefix Hc Hzb Hzl) as (d & -> & Hd & Hdb). cbn [mbind option_bind].
  rewrite decide_False by lia. rewrite Nat.sub_diag. rewrite decide_False by lia. unfold bmemcpy_shift. rewrite Nat.sub_diag. cbn [Nat.sub].
  change (32 mod 8)%nat with 0%nat. change (32 / 8)%nat with 4%nat. rewrite Hm. rewrite decide_True by done.
  unfold bmemcpy. cbn. unfold bbytecpy. cbn. done.
Qed.

(** ** Counting candidates *)

(** Candidates of length [plen] in an available prefix of length [i]. *)
Definition weight (plen i : nat) : Z := 2 ^ Z.of_nat (plen - i).

Lemma weight_pos plen i : 0 < weight plen i.
Proof. unfold weight. lia. Qed.

(** How many available prefixes have length [j]. *)
Definition avail_count (A : list (list Z * nat)) (j : nat) : Z := Z.of_nat (length (filter (fun x => x.2 = j) A)).

(** Candidates in available prefixes longer than [m]. *)
Definition above_min (N : nat -> Z) (plen m : nat) : Z := foldr (fun j s => N j * weight plen j + s) 0 (seq (S m) (plen - m)).

Lemma above_min_step N plen m : (m < plen)%nat -> above_min N plen m = N (S m) * weight plen (S m) + above_min N plen (S m).
Proof. intros H. unfold above_min. replace (plen - m)%nat with (S (plen - S m)) by lia. done. Qed.

Lemma above_min_end N plen : above_min N plen plen = 0.
Proof. unfold above_min. by rewrite Nat.sub_diag. Qed.

Lemma above_min_le N N' plen m : (forall j, N j <= N' j) -> above_min N plen m <= above_min N' plen m.
Proof.
  intros H. unfold above_min. induction (seq (S m) (plen - m)) as [|j l IH]; cbn [foldr]; [done|].
  pose proof (weight_pos plen j). specialize (H j). nia.
Qed.

Lemma avail_count_cons x A j : avail_count (x :: A) j = (if decide (x.2 = j) then 1 else 0) + avail_count A j.
Proof. unfold avail_count. rewrite filter_cons. case_decide; cbn [length]; lia. Qed.

(** The candidates of a list of available prefixes, by a condition on their length. *)
Fixpoint candidates (sel : nat -> bool) (plen : nat) (A : list (list Z * nat)) : Z :=
  match A with
  | [] => 0
  | (_, i) :: A => (if sel i then weight plen i else 0) + candidates sel plen A
  end.

Definition selected (pass : bool) (min_plen max_plen i : nat) : bool :=
  if pass then bool_decide (i = min_plen) else bool_decide (min_plen < i)%nat && bool_decide (i <= max_plen)%nat.

Lemma candidates_nonneg sel plen A : 0 <= candidates sel plen A.
Proof. induction A as [|[x i] A IH]; cbn [candidates]; [done|]. pose proof (weight_pos plen i). destruct (sel i); lia. Qed.

Lemma candidates_pass1 A plen m : candidates (selected true m m) plen A = avail_count A m * weight plen m.
Proof.
  induction A as [|[x i] A IH]; [done|]. cbn [candidates]. rewrite avail_count_cons, IH. unfold selected. cbn [snd].
  case_bool_decide; case_decide; subst; try done; lia.
Qed.

Lemma above_min_single plen m i : above_min (fun j => if decide (i = j) then 1 else 0) plen m =
  if decide (m < i <= plen)%nat then weight plen i else 0.
Proof.
  unfold above_min. remember (plen - m)%nat as k eqn:Hk. revert m Hk. induction k as [|k IH]; intros m Hk; cbn [seq foldr].
  - rewrite decide_False by lia. done.
  - rewrite (IH (S m)) by lia. destruct (decide (i = S m)) as [->|Hne].
    + rewrite decide_False by lia. rewrite decide_True by lia. lia.
    + repeat case_decide; lia.
Qed.

Lemma above_min_add N N' plen m : above_min (fun j => N j + N' j) plen m = above_min N plen m + above_min N' plen m.
Proof. unfold above_min. induction (seq _ _) as [|j l IH]; cbn [foldr]; [done|]. rewrite IH. lia. Qed.

Lemma above_min_ext N N' plen m : (forall j, N j = N' j) -> above_min N plen m = above_min N' plen m.
Proof. intros H. unfold above_min. induction (seq _ _) as [|j l IH]; cbn [foldr]; [done|]. by rewrite IH, H. Qed.

Lemma candidates_pass0 A plen m : candidates (selected false m plen) plen A = above_min (avail_count A) plen m.
Proof.
  induction A as [|[x i] A IH]; cbn [candidates].
  - symmetry. unfold above_min. induction (seq _ _) as [|j l IHl]; cbn [foldr]; [done|]. rewrite IHl. unfold avail_count. cbn. lia.
  - rewrite IH. rewrite (above_min_ext _ _ plen m (avail_count_cons (x, i) A)), above_min_add. cbn [snd]. rewrite above_min_single. f_equal.
    unfold selected. repeat case_bool_decide; case_decide; cbn; try done; lia.
Qed.

(** ** The count *)

Definition saturated (n : Z) : Z := Z.min 65535 n.

Lemma count_loop_ok A count : length count = 129%nat -> (forall x, x ∈ A -> (x.2 <= 128)%nat) ->
  (forall j c, count !! j = Some c -> 0 <= c <= 65535) ->
  exists count', count_loop A count = Some count' /\ length count' = 129%nat /\
    forall j c, count !! j = Some c -> count' !! j = Some (saturated (c + avail_count A j)).
Proof.
  revert count. induction A as [|[x i] A IH]; intros count Hl HA Hc; cbn [count_loop].
  - exists count. split; [done|]. split; [done|]. intros j c Hj. rewrite Hj. f_equal. specialize (Hc j c Hj). unfold saturated, avail_count. cbn. lia.
  - pose proof (HA (x, i) ltac:(by left)) as Hi. cbn in Hi. destruct (lookup_lt_is_Some_2 count i) as [c Hci]; [lia|]. rewrite Hci. cbn [mbind option_bind].
    pose proof (Hc i c Hci) as Hcb.
    assert (Hstep : forall j c0, count !! j = Some c0 -> (if decide (c = 65535) then count else <[i := c + 1]> count) !! j =
      Some (saturated (c0 + if decide (i = j) then 1 else 0))).
    { intros j c0 Hj. pose proof (Hc j c0 Hj). unfold saturated. destruct (decide (c = 65535)) as [->|Hne].
      - rewrite Hj. case_decide; [subst; rewrite Hci in Hj; injection Hj as <-|]; f_equal; lia.
      - destruct (decide (i = j)) as [->|Hij].
        + rewrite list_lookup_insert_eq by lia. f_equal. assert (c = c0) as -> by congruence. lia.
        + rewrite list_lookup_insert_ne by done. rewrite Hj. f_equal. lia. }
    destruct (IH (if decide (c = 65535) then count else <[i := c + 1]> count)) as (count' & -> & Hl' & Hc').
    + case_decide; [done|]. by rewrite length_insert.
    + intros y Hy. apply HA. by right.
    + intros j c0 Hj. destruct (count !! j) as [c1|] eqn:Hj1.
      * rewrite (Hstep j c1 Hj1) in Hj. apply (inj Some) in Hj. subst c0. pose proof (Hc j c1 Hj1). unfold saturated. destruct (decide (i = j)); lia.
      * exfalso. apply lookup_lt_Some in Hj. apply lookup_ge_None in Hj1. case_decide; rewrite ?length_insert in Hj; lia.
    + exists count'. split; [done|]. split; [done|]. intros j c0 Hj. rewrite (Hc' j _ (Hstep j c0 Hj)). f_equal. rewrite avail_count_cons. cbn [snd].
      pose proof (Hc j c0 Hj). unfold saturated, avail_count. destruct (decide (i = j)); lia.
Qed.

(** ** The subset *)

(** What [pa_rule_candidate_subset] returns for the counts [N]. *)
Definition subset_ok (N : nat -> Z) (plen : nat) (size found : Z) (min_plen : option nat) (overflow_n : Z) : Prop :=
  0 <= found <= size /\
  (found = 0 \/ exists m, min_plen = Some m /\ (m <= plen)%nat /\ 0 < N m /\
     let c := above_min N plen m in
     0 <= c < found /\ (found <= c + N m * weight plen m) /\
     (overflow_n = 0 /\ found = c + N m * weight plen m \/ overflow_n = found - c /\ found < c + N m * weight plen m)).


Lemma shl1_small k : (k < 31)%nat -> shl1 k = 2 ^ Z.of_nat k.
Proof.
  intros H. assert (0 < 2 ^ Z.of_nat k < 2 ^ 31) by (split; [lia|apply Z.pow_lt_mono_r; lia]).
  unfold shl1, u64, i32. rewrite (Z.mod_small (2 ^ Z.of_nat k + 2 ^ 31)) by lia. rewrite Z.mod_small by lia. lia.
Qed.

Lemma shl1_31 : shl1 31 = 2 ^ 64 - 2 ^ 31.
Proof. done. Qed.


Section subset.
Variables (count : list Z) (N : nat -> Z) (plen : nat) (size : Z).
Hypotheses (Hcount : forall j, (j <= 128)%nat -> count !! j = Some (N j)) (HN : forall j, 0 <= N j <= 65535)
  (Hplen : (plen <= 128)%nat) (Hsize : 0 <= size <= 65535).

(** The state of the loop before length [q]. *)
Definition subset_at (q : nat) (c : Z) (min_plen : option nat) : Prop :=
  (q <= plen)%nat /\ c = above_min N plen q /\ 0 <= c /\ (c < size \/ c = 0) /\
  (c = 0 \/ exists m, min_plen = Some m /\ (m <= plen)%nat /\ 0 < N m /\ c = above_min N plen m + N m * weight plen m /\ 0 <= above_min N plen m).

(** The sum of a round, or a value too large to be one. *)
Lemma subset_sum q c : (q <= plen)%nat -> (plen - q < 32)%nat -> 0 <= c <= 65535 -> 0 < N q ->
  let c' := u64 (c + u64 (N q * shl1 (plen - q))) in
  c' = c + N q * weight plen q \/ (size < c' /\ size < c + N q * weight plen q).
Proof.
  intros Hq Hk Hc Hn. cbv zeta. pose proof (HN q) as HNq. unfold weight. destruct (decide (plen - q = 31)%nat) as [E|E].
  - right. rewrite E, shl1_31. change (2 ^ Z.of_nat 31) with 2147483648. unfold u64.
    replace (N q * (2 ^ 64 - 2 ^ 31)) with (2 ^ 64 - N q * 2 ^ 31 + (N q - 1) * 2 ^ 64) by lia. rewrite Z_mod_plus_full.
    rewrite (Z.mod_small (2 ^ 64 - N q * 2 ^ 31)) by lia. rewrite Z.mod_small by lia. lia.
  - left. rewrite shl1_small by lia. assert (0 < 2 ^ Z.of_nat (plen - q) < 2 ^ 31) by (split; [lia|apply Z.pow_lt_mono_r; lia]).
    unfold u64. rewrite (Z.mod_small (N q * _)) by nia. rewrite Z.mod_small by nia. done.
Qed.

Lemma subset_overflow q c : (q <= plen)%nat -> c = above_min N plen q -> 0 <= c -> (c < size \/ c = 0) -> 0 < N q ->
  size < c + N q * weight plen q -> subset_ok N plen size size (Some q) (u32 (size - c)).
Proof.
  intros Hq Hc Hc0 Hlt Hn Hle. split; [lia|]. destruct (decide (size = 0)) as [|Hne]; [by left|right]. exists q. cbv zeta. rewrite <- Hc.
  split; [done|]. split; [done|]. split; [done|]. split; [lia|]. split; [lia|]. right. unfold u32. rewrite Z.mod_small by lia. lia.
Qed.

Lemma subset_loop_ok q c min_plen : subset_at q c min_plen ->
  exists found m overflow_n, subset_loop count plen size c min_plen q = Some (found, m, overflow_n) /\ subset_ok N plen size found m overflow_n.
Proof.
  revert c min_plen. induction q as [q IH] using lt_wf_ind. intros c min_plen (Hq & Hc & Hc0 & Hlt & Hmin).
  assert (Hcs : 0 <= c <= size) by lia.
  assert (Hu : u32 c = c) by (unfold u32; rewrite Z.mod_small; lia).
  destruct q as [|q']; cbn [subset_loop]; (rewrite Hcount by lia); cbn [mbind option_bind].
  (* the shortest length *)
  - destruct (decide (N 0%nat = 0)) as [E0|E0].
    { eexists _, _, _. split; [done|]. rewrite Hu. split; [done|]. destruct Hmin as [->|(m & -> & Hm & HNm & E & Habove)]; [by left|right].
      exists m. cbv zeta. pose proof (weight_pos plen m). split; [done|]. split; [done|]. split; [done|]. split; [nia|]. split; [lia|]. left. lia. }
    assert (Hn : 0 < N 0%nat) by (pose proof (HN 0); lia).
    destruct (decide (32 <= plen - 0)%nat) as [Hk|Hk].
    { eexists _, _, _. split; [done|]. apply subset_overflow; auto. unfold weight.
      assert (2 ^ 32 <= 2 ^ Z.of_nat (plen - 0)) by (apply Z.pow_le_mono_r; lia). nia. }
    pose proof (subset_sum 0 c Hq ltac:(lia) ltac:(lia) Hn) as Hsum. cbv zeta in Hsum. set (c' := u64 _) in *. clearbody c'.
    destruct (decide (size < c')) as [Hs|Hs]; [eexists _, _, _; split; [done|]; apply subset_overflow; auto; lia|].
    destruct Hsum as [Hsum|?]; [|lia]. pose proof (weight_pos plen 0) as Hw. assert (Hcp : 0 < c') by nia.
    assert (Hu' : u32 c' = c') by (unfold u32; rewrite Z.mod_small; lia).
    assert (Hok : subset_ok N plen size c' (Some 0%nat) 0).
    { split; [lia|]. right. exists 0%nat. cbv zeta. rewrite <- Hc. split; [done|]. split; [lia|]. split; [done|]. split; [nia|]. split; [lia|]. by left. }
    case_decide; (eexists _, _, _; split; [done|]); rewrite Hu'; exact Hok.
  - set (q := S q') in *. assert (Hstep : above_min N plen q' = c + N q * weight plen q) by (rewrite above_min_step by lia; change (S q') with q; rewrite <- Hc; ring).
    destruct (decide (N q = 0)) as [E0|E0].
    { apply IH; [lia|]. split; [lia|]. split; [rewrite Hstep, E0; lia|]. done. }
    assert (Hn : 0 < N q) by (pose proof (HN q); lia).
    destruct (decide (32 <= plen - q)%nat) as [Hk|Hk].
    { eexists _, _, _. split; [done|]. apply subset_overflow; auto. unfold weight.
      assert (2 ^ 32 <= 2 ^ Z.of_nat (plen - q)) by (apply Z.pow_le_mono_r; lia). nia. }
    pose proof (subset_sum q c Hq ltac:(lia) ltac:(lia) Hn) as Hsum. cbv zeta in Hsum. set (c' := u64 _) in *. clearbody c'.
    destruct (decide (size < c')) as [Hs|Hs]; [eexists _, _, _; split; [done|]; apply subset_overflow; auto; lia|].
    destruct Hsum as [Hsum|?]; [|lia]. pose proof (weight_pos plen q) as Hw. assert (Hcp : 0 < c') by nia.
    assert (Hu' : u32 c' = c') by (unfold u32; rewrite Z.mod_small; lia).
    destruct (decide (c' = size)) as [Hcs'|Hcs'].
    { eexists _, _, _. split; [done|]. rewrite Hu'. split; [nia|]. right. exists q. cbv zeta. rewrite <- Hc.
      split; [done|]. split; [lia|]. split; [done|]. split; [nia|]. split; [lia|]. by left. }
    apply IH; [lia|]. split; [lia|]. split; [lia|]. split; [nia|]. split; [lia|]. right. exists q. rewrite <- Hc. split; [done|]. split; [lia|]. done.
Qed.

End subset.

(** ** The pick *)

Definition avail_ok (A : list (list Z * nat)) : Prop := forall x, x ∈ A -> prefix_ok x.1 x.2.

(** A prefix inside an available one. *)
Definition picked (A : list (list Z * nat)) (plen : nat) (x : list Z) : Prop :=
  exists it i, (it, i) ∈ A /\ (i <= plen)%nat /\ prefix_ok x plen /\ bits it 0 i `prefix_of` bits x 0 plen.

(** There is an available prefix of the wished length, in whole bytes. *)
Definition exact (A : list (list Z * nat)) (plen : nat) : Prop := exists it, (it, plen) ∈ A /\ (plen mod 8 = 0)%nat.

Lemma picked_cons x A plen y : picked A plen y -> picked (x :: A) plen y.
Proof. intros (it & i & H & H'). exists it, i. split; [by right|done]. Qed.

Lemma exact_cons x A plen : exact A plen -> exact (x :: A) plen.
Proof. intros (it & H & H'). exists it. split; [by right|done]. Qed.

Lemma nth_picked A it i n plen : avail_ok A -> (it, i) ∈ A -> (i <= plen <= 128)%nat ->
  match pa_rule_prefix_nth it i n plen with Some x => picked A plen x | None => exact A plen end.
Proof.
  intros HA Hin Hi. pose proof (HA _ Hin) as Hok. cbn in Hok. destruct (decide (plen = i /\ (plen mod 8 = 0)%nat)) as [[-> Hm]|Hpe].
  - rewrite pa_rule_prefix_nth_past_end by done. by exists it.
  - destruct (pa_rule_prefix_nth_ok it i n plen Hok Hi Hpe) as (x & -> & Hx & Hp). exists it, i. split; [done|]. split; [lia|done].
Qed.

Lemma pick_pass_ok pass A n plen m mx : avail_ok A -> (m <= plen)%nat -> (mx <= plen <= 128)%nat -> 0 <= n < 2 ^ 32 ->
  match pick_pass pass A n plen m mx with
  | Some (inr x) => picked A plen x
  | Some (inl n') => n' = n - candidates (selected pass m mx) plen A /\ 0 <= n'
  | None => exact A plen
  end.
Proof.
  intros HA Hm Hmx. revert n. induction A as [|[it i] A IH]; intros n Hn; cbn [pick_pass candidates]; [lia|].
  assert (HA' : avail_ok A) by (intros x Hx; apply HA; by right). specialize (IH HA').
  assert (Hcons : forall n' w, 0 <= n' < 2 ^ 32 -> n' = n - w ->
    match pick_pass pass A n' plen m mx with
    | Some (inr x) => picked ((it, i) :: A) plen x
    | Some (inl n'') => n'' = n - (w + candidates (selected pass m mx) plen A) /\ 0 <= n''
    | None => exact ((it, i) :: A) plen
    end).
  { intros n' w Hn' E. specialize (IH n' Hn'). destruct (pick_pass _ _ _ _ _ _) as [[n''|x]|]; [lia|by apply picked_cons|by apply exact_cons]. }
  fold (selected pass m mx i). destruct (selected pass m mx i) eqn:Hsel; [|apply Hcons; lia].
  assert (Hi : (i <= plen)%nat) by (unfold selected in Hsel; destruct pass; [apply bool_decide_eq_true in Hsel; lia|
    apply andb_true_iff in Hsel as [_ Hsel]; apply bool_decide_eq_true in Hsel; lia]).
  rewrite decide_False by lia. pose proof (nth_picked ((it, i) :: A) it i n plen HA ltac:(by left) ltac:(lia)) as Hnth.
  assert (Htake : match p ← pa_rule_prefix_nth it i n plen; Some (inr p : Z + list Z) with
    | Some (inr x) => picked ((it, i) :: A) plen x
    | Some (inl n') => n' = n - (weight plen i + candidates (selected pass m mx) plen A) /\ 0 <= n'
    | None => exact ((it, i) :: A) plen
    end) by (destruct (pa_rule_prefix_nth it i n plen); exact Hnth).
  destruct (decide (32 <= plen - i)%nat); [exact Htake|]. fold (weight plen i).
  destruct (decide (n < weight plen i)); [exact Htake|]. pose proof (weight_pos plen i). unfold u32. rewrite Z.mod_small by lia. apply Hcons; lia.
Qed.

Section pick.
Context `{PT : !PrefixTrie pentry, PTO : !PrefixTrieOk pentry, HO : !PaHost}.
Implicit Types (o : pa_core) (p : pa_ldp).

(** Inside the prefix [sub] and apart from every prefix of the trie. *)
Definition free_prefix o (sub : list Z) (subplen : nat) (x : list Z) (plen : nat) : Prop :=
  prefix_ok x plen /\ bits sub 0 subplen `prefix_of` bits x 0 plen /\
  forall y e, (y, e) ∈ pt_entries (prefixes o) -> ~ overlap (bits x 0 plen) y.

Lemma overlap_inside a x y : a `prefix_of` x -> overlap x y -> overlap a y.
Proof.
  intros Ha [H|H]; [left; by etrans|]. destruct (prefix_weak_total a y x Ha H) as [?|?]; [by left|by right].
Qed.

Lemma picked_free o sub subplen A plen x : available_in (bits sub 0 subplen) (pt_entries (prefixes o)).*1 (key_bits <$> A) ->
  picked A plen x -> free_prefix o sub subplen x plen.
Proof.
  intros [Hin Hfree _ _ _] (it & i & HA & Hi & Hx & Hp).
  assert (Ha : bits it 0 i ∈ key_bits <$> A) by (apply list_elem_of_fmap; by exists (it, i)).
  split; [done|]. split; [etrans; [by apply Hin|done]|]. intros y e Hy Hov. apply (Hfree _ y Ha); [apply list_elem_of_fmap; by exists (y, e)|].
  by eapply overlap_inside.
Qed.

(** The available prefixes of a sound core. *)
Lemma available_ok o sub subplen : inv o -> prefix_ok sub subplen ->
  exists A, pt_for_each_available (prefixes o) new_prefix sub subplen = Some A /\ avail_ok A /\
    available_in (bits sub 0 subplen) (pt_entries (prefixes o)).*1 (key_bits <$> A).
Proof.
  intros Ho Hs. destruct (prefix_ok_key _ _ Hs) as [Hk Hl]. pose proof (prefix_ok_key _ _ (new_prefix_ok 0 ltac:(lia))) as [Hnk _].
  destruct (pt_for_each_available_ok (prefixes o) new_prefix sub subplen (i_trie o Ho) Hnk Hk Hl) as (A & -> & Hav & HA).
  - destruct Hs as (_ & _ & ?). unfold new_prefix. rewrite length_replicate. lia.
  - intros [x e] Hx. apply (i_entries o Ho) in Hx. cbn [fst]. unfold new_prefix. rewrite length_replicate. destruct e as [l|a].
    + destruct Hx as (p & Hp & _ & ->). rewrite length_bits. pose proof (lo_prefix _ _ (i_ldps o Ho l p Hp)) as (_ & _ & ?). lia.
    + destruct Hx as (v & [Hv _]%get_advp_in & ->). rewrite length_bits. pose proof (i_advp_ok o Ho v Hv) as (_ & _ & ?). lia.
  - exists A. split; [done|]. split; [|done]. intros x Hx. unfold keys_like in HA. rewrite Forall_forall in HA.
    destruct (HA x Hx) as ((Hb & _) & Hlx & Hn). unfold new_prefix in Hlx. rewrite length_replicate in Hlx. split; [done|]. split; [done|lia].
Qed.

(** The counts of the available prefixes. *)
Lemma pa_rule_prefix_count_ok o sub subplen A : pt_for_each_available (prefixes o) new_prefix sub subplen = Some A -> avail_ok A ->
  exists count, pa_rule_prefix_count o sub subplen = Some count /\
    forall j, (j <= 128)%nat -> count !! j = Some (saturated (avail_count A j)).
Proof.
  intros HA Hok. unfold pa_rule_prefix_count. rewrite HA. cbn [mbind option_bind].
  destruct (count_loop_ok A (replicate (S PA_RAND_MAX_PLEN) 0)) as (count & -> & _ & Hc).
  - apply length_replicate.
  - intros x Hx. by apply Hok.
  - intros j c [-> _]%lookup_replicate. lia.
  - exists count. split; [done|]. intros j Hj. apply (Hc j 0). apply lookup_replicate. unfold PA_RAND_MAX_PLEN. lia.
Qed.

Lemma pa_rule_candidate_subset_ok count A plen size : (forall j, (j <= 128)%nat -> count !! j = Some (saturated (avail_count A j))) ->
  (plen <= 128)%nat -> 0 <= size <= 65535 ->
  exists found m overflow_n, pa_rule_candidate_subset count plen size = Some (found, m, overflow_n) /\
    subset_ok (fun j => saturated (avail_count A j)) plen size found m overflow_n.
Proof.
  intros Hc Hp Hs. unfold pa_rule_candidate_subset.
  apply (subset_loop_ok count (fun j => saturated (avail_count A j)) plen size); try done.
  - intros j. unfold saturated, avail_count. lia.
  - split; [done|]. split; [by rewrite above_min_end|]. split; [done|]. split; [by right|by left].
Qed.

(** Every number below that of the candidates picks one. *)
Lemma pa_rule_candidate_pick_ok o sub subplen A plen size found m overflow_n n :
  pt_for_each_available (prefixes o) new_prefix sub subplen = Some A -> avail_ok A -> (plen <= 128)%nat -> 0 <= size <= 65535 ->
  subset_ok (fun j => saturated (avail_count A j)) plen size found (Some m) overflow_n -> 0 <= n < found ->
  match pa_rule_candidate_pick o sub subplen n plen m plen with
  | Some (Some x) => picked A plen x
  | Some None => False
  | None => exact A plen
  end.
Proof.
  intros HA Hok Hp Hs (Hf & Hsub) Hn. destruct Hsub as [?|(m' & [= <-] & Hm & HNm & Hc & Hle & Hov)]; [lia|]. cbv zeta in *.
  unfold pa_rule_candidate_pick. rewrite HA. cbn [mbind option_bind].
  pose proof (pick_pass_ok false A n plen m plen Hok Hm ltac:(lia) ltac:(lia)) as H0. destruct (pick_pass false A n plen m plen) as [[n0|x]|]; cbn [mbind option_bind]; [|done|done].
  destruct H0 as [En0 Hn0]. rewrite candidates_pass0 in En0.
  pose proof (pick_pass_ok true A n0 plen m plen Hok Hm ltac:(lia)) as H1.
  assert (Hab : above_min (fun j => saturated (avail_count A j)) plen m <= above_min (avail_count A) plen m)
    by (apply above_min_le; intros j; unfold saturated; lia).
  specialize (H1 ltac:(lia)). destruct (pick_pass true A n0 plen m plen) as [[n1|x]|]; cbn [mbind option_bind]; [|done|done].
  destruct H1 as [En1 Hn1]. change (candidates (selected true m plen) plen A) with (candidates (selected true m m) plen A) in En1.
  rewrite candidates_pass1 in En1. pose proof (weight_pos plen m). unfold saturated in *. nia.
Qed.

Lemma candidates_none A plen m : candidates (selected false m m) plen A = 0.
Proof.
  induction A as [|[x i] A IH]; [done|]. cbn [candidates]. rewrite IH. unfold selected.
  case_bool_decide; cbn [andb]; [rewrite bool_decide_false by lia|]; done.
Qed.

(** And the number of those left out picks the first of them. *)
Lemma pa_rule_overflow_pick_ok o sub subplen A plen size found m overflow_n :
  pt_for_each_available (prefixes o) new_prefix sub subplen = Some A -> avail_ok A -> (plen <= 128)%nat -> 0 <= size <= 65535 ->
  subset_ok (fun j => saturated (avail_count A j)) plen size found (Some m) overflow_n -> 0 < found -> overflow_n ≠ 0 ->
  match pa_rule_candidate_pick o sub subplen overflow_n plen m m with
  | Some (Some x) => picked A plen x
  | Some None => False
  | None => exact A plen
  end.
Proof.
  intros HA Hok Hp Hs (Hf & Hsub) Hf0 Hn. destruct Hsub as [?|(m' & [= <-] & Hm & HNm & Hc & Hle & Hov)]; [lia|]. cbv zeta in *.
  destruct Hov as [[? _]|[Hov Hlt]]; [done|]. unfold pa_rule_candidate_pick. rewrite HA. cbn [mbind option_bind].
  pose proof (pick_pass_ok false A overflow_n plen m m Hok Hm ltac:(lia) ltac:(lia)) as H0. destruct (pick_pass false A _ plen m m) as [[n0|x]|]; cbn [mbind option_bind]; [|done|done].
  destruct H0 as [En0 Hn0]. rewrite candidates_none in En0.
  pose proof (pick_pass_ok true A n0 plen m m Hok Hm ltac:(lia) ltac:(lia)) as H1. destruct (pick_pass true A n0 plen m m) as [[n1|x]|]; cbn [mbind option_bind]; [|done|done].
  destruct H1 as [En1 Hn1]. rewrite candidates_pass1 in En1. pose proof (weight_pos plen m). unfold saturated in *. nia.
Qed.

End pick.
