(* ===== verification/PaOverride.v ===== *)
(** What [pa_rule_valid_assignment] of [src/pa_core.c] allows a rule to override, and the
    prefix that the random rule overrides. *)
From S2P Require Import Prelude Bitops Tlv BtrieBits BtrieWf BtrieIns BtrieIter BtrieFree BtrieEach PaTrie PaCore PaFacts PaInv PaPublish PaCheck PaRules PaPick.

Section valid.
Context `{PT : !PrefixTrie pentry, PTO : !PrefixTrieOk pentry}.
Implicit Types (o : pa_core) (p : pa_ldp).

(** What [pa_rule_valid_assignment] looks at: the pair itself, unless there is a best
    assignment, then the best assignment. *)
Definition self_allows p (rule_prio prio : Z) (safety : bool) : Prop :=
  match best_assignment p with
  | Some a => advp_priority a < prio
  | None => assigned p = true ->
      (published p || adopting p = true -> rule_priority p < rule_prio) /\ (safety = true -> published p = true -> ldp_priority p < prio)
  end.

(** And the other prefixes that overlap. *)
Definition entry_allows o (rule_prio prio : Z) (safety : bool) (e : pentry) : Prop :=
  match e with
  | PAT_ASSIGNED l2 => forall q, get_ldp o l2 = Some q ->
      (published q || adopting q = true -> rule_priority q < rule_prio) /\ (safety = true -> published q = true -> ldp_priority q <= prio)
  | PAT_ADVERTISED a => forall v, get_advp o a = Some v -> advp_priority v < prio
  end.

Lemma valid_assignment_loop_ok o es rprio prio safety : (forall e, e ∈ es -> exists x, entry_of o x e) ->
  exists b, valid_assignment_loop o es rprio prio safety = Some b /\ (b = true <-> forall e, e ∈ es -> entry_allows o rprio prio safety e).
Proof.
  induction es as [|e es IH]; intros Hes; cbn [valid_assignment_loop]; [exists true; split; [done|]; split; [by intros _ e ?%not_elem_of_nil|done]|].
  destruct IH as (b & Hb & Hiff); [intros e' He'; apply Hes; by right|].
  assert (Hcons : (forall e', e' ∈ e :: es -> entry_allows o rprio prio safety e') <-> entry_allows o rprio prio safety e /\ b = true).
  { rewrite Hiff. split; [intros H; split; [apply H; by left|intros e' He'; apply H; by right]|]. intros [H1 H2] e' [->|He']%elem_of_cons; auto. }
  destruct (Hes e ltac:(by left)) as [x Hx]. destruct e as [l2|a]; destruct Hx as (q & Hq & Hx); rewrite Hq; cbn [mbind option_bind].
  - destruct ((published q || adopting q) && bool_decide (rprio <= rule_priority q)) eqn:E1.
    { exists false. split; [done|]. rewrite Hcons. split; [done|]. intros [H _]. destruct (H q Hq) as [H1 _]. apply andb_true_iff in E1 as [E1 E2].
      apply bool_decide_eq_true in E2. specialize (H1 E1). lia. }
    destruct (safety && published q && bool_decide (prio < ldp_priority q)) eqn:E2.
    { exists false. split; [done|]. rewrite Hcons. split; [done|]. intros [H _]. destruct (H q Hq) as [_ H2]. apply andb_true_iff in E2 as [[E2 E3]%andb_true_iff E4].
      apply bool_decide_eq_true in E4. specialize (H2 E2 E3). lia. }
    exists b. split; [done|]. rewrite Hcons. split; [|by intros [_ ?]]. intros ->. split; [|done]. intros q' Hq'. assert (q' = q) as -> by congruence. split.
    + intros H. rewrite H in E1. apply bool_decide_eq_false in E1. lia.
    + intros -> H. rewrite H in E2. apply bool_decide_eq_false in E2. lia.
  - case_decide as Hd.
    { exists false. split; [done|]. rewrite Hcons. split; [done|]. intros [H _]. specialize (H q Hq). lia. }
    exists b. split; [done|]. rewrite Hcons. split; [|by intros [_ ?]]. intros ->. split; [|done]. intros v Hv. assert (v = q) as -> by congruence. lia.
Qed.

(** The check is defined and exact. *)
Lemma pa_rule_valid_assignment_ok o p pfx plen rprio prio safety : inv o -> prefix_ok pfx plen ->
  exists b, pa_rule_valid_assignment o p pfx plen rprio prio safety = Some b /\
    (b = true <-> self_allows p rprio prio safety /\
       forall x e, (x, e) ∈ pt_entries (prefixes o) -> overlap (bits pfx 0 plen) x -> entry_allows o rprio prio safety e).
Proof.
  intros Ho Hpx. destruct (prefix_ok_key _ _ Hpx) as [Hk Hl]. unfold pa_rule_valid_assignment.
  set (self := match best_assignment p with Some _ => _ | None => _ end).
  assert (Hself : self = false <-> self_allows p rprio prio safety).
  { unfold self, self_allows. destruct (best_assignment p) as [a|]; [rewrite bool_decide_eq_false; lia|].
    destruct (assigned p), (published p), (adopting p), safety; cbn; rewrite ?orb_false_r; repeat case_bool_decide; cbn; intuition (try lia; try done). }
  destruct self.
  { exists false. split; [done|]. split; [done|]. intros [H _]. by apply Hself in H. }
  rewrite (pt_for_each_updown_ok _ _ _ (i_trie o Ho) Hk Hl). cbn [mbind option_bind].
  destruct (valid_assignment_loop_ok o (pt_met (prefixes o) pfx plen) rprio prio safety) as (b & -> & Hb).
  { intros e (x & Hx & _)%met_entry; [by exists x|done]. }
  exists b. split; [done|]. rewrite Hb. split.
  - intros H. split; [by apply Hself|]. intros x e Hx Hov. apply H. apply met_entry; [done|]. exists x. split; [by apply (i_entries o Ho)|done].
  - intros [_ H] e (x & Hx & Hov)%met_entry; [|done]. apply (H x); [by apply (i_entries o Ho)|done].
Qed.

End valid.

Section override.
Context `{PT : !PrefixTrie pentry, PTO : !PrefixTrieOk pentry, HO : !PaHost}.
Implicit Types (o : pa_core) (p : pa_ldp) (r : pa_rule_random).

(** The override priorities of a random rule beat the pair and all prefixes that overlap [y]. *)
Definition overridable r o p (y : list bool) : Prop :=
  self_allows p (rand_override_rule_priority r) (rand_override_priority r) (rand_safety r) /\
  forall x e, (x, e) ∈ pt_entries (prefixes o) -> overlap y x ->
    entry_allows o (rand_override_rule_priority r) (rand_override_priority r) (rand_safety r) e.

(** A prefix of the core inside [sub], no longer than [plen], that can be overridden. *)
Definition override_of r o p (sub : list bool) (plen : nat) (y : list bool) : Prop :=
  (exists e, (y, e) ∈ pt_entries (prefixes o)) /\ sub `prefix_of` y /\ (length y <= plen)%nat /\ overridable r o p y.

Lemma entry_prefix_ok o y e : inv o -> (y, e) ∈ pt_entries (prefixes o) ->
  exists pfx n, entry_prefix o e = Some (pfx, n) /\ prefix_ok pfx n /\ y = bits pfx 0 n.
Proof.
  intros Ho Hy. apply (i_entries o Ho) in Hy. destruct e as [l|a]; cbn [entry_prefix].
  - destruct Hy as (q & Hq & _ & ->). rewrite Hq. cbn [mbind option_bind]. eexists _, _. split; [done|]. split; [|done]. apply (i_ldps o Ho l q Hq).
  - destruct Hy as (v & Hv & ->). rewrite Hv. cbn [mbind option_bind]. eexists _, _. split; [done|]. split; [|done].
    apply get_advp_in in Hv as [Hv _]. by apply (i_advp_ok o Ho).
Qed.

Lemma override_loop_ok r o p sub plen es best : inv o ->
  (forall e, e ∈ es -> exists y, (y, e) ∈ pt_entries (prefixes o) /\ sub `prefix_of` y) ->
  (forall x n b, best = Some (x, n, b) -> prefix_ok x n /\ override_of r o p sub plen (bits x 0 n)) ->
  exists res, override_loop r o p plen es best = Some res /\
    match res with
    | Some (x, n, _) => prefix_ok x n /\ override_of r o p sub plen (bits x 0 n)
    | None => best = None /\ forall y e, e ∈ es -> (y, e) ∈ pt_entries (prefixes o) -> ~ override_of r o p sub plen y
    end.
Proof.
  intros Ho. revert best. induction es as [|e es IH]; intros best Hes Hbest; cbn [override_loop].
  { exists best. split; [done|]. destruct best as [[[x n] b]|]; [by eapply Hbest|]. split; [done|]. by intros y e ?%not_elem_of_nil. }
  destruct (Hes e ltac:(by left)) as (y & Hy & Hsub). destruct (entry_prefix_ok o y e Ho Hy) as (pfx & n & -> & Hpfx & ->). cbn [mbind option_bind].
  assert (Huniq : forall y', (y', e) ∈ pt_entries (prefixes o) -> y' = bits pfx 0 n).
  { intros y' Hy'. pose proof (NoDup_snd_inj _ _ _ (pt_unique _ (i_trie o Ho)) Hy' Hy eq_refl) as Heq. by injection Heq. }
  assert (Hskip : ~ override_of r o p sub plen (bits pfx 0 n) -> exists res, override_loop r o p plen es best = Some res /\
    match res with
    | Some (x, n, _) => prefix_ok x n /\ override_of r o p sub plen (bits x 0 n)
    | None => best = None /\ forall y e', e' ∈ e :: es -> (y, e') ∈ pt_entries (prefixes o) -> ~ override_of r o p sub plen y
    end).
  { intros Hno. destruct (IH best (fun e' He' => Hes e' ltac:(by right)) Hbest) as (res & -> & Hres). exists res. split; [done|].
    destruct res as [[[x m] b]|]; [done|]. destruct Hres as [-> Hres]. split; [done|].
    intros y e' [->|He']%elem_of_cons Hin; [by rewrite (Huniq y Hin)|by eapply Hres]. }
  destruct (decide (plen < n)%nat) as [Hn|Hn]; [apply Hskip; intros (_ & _ & Hl & _); rewrite length_bits in Hl; lia|].
  destruct (pa_rule_valid_assignment_ok o p pfx n (rand_override_rule_priority r) (rand_override_priority r) (rand_safety r) Ho Hpfx) as (b & -> & Hb).
  cbn [mbind option_bind]. destruct b; cbn [negb].
  2:{ apply Hskip. intros (_ & _ & _ & Hov). by apply Hb in Hov. }
  assert (Hgood : override_of r o p sub plen (bits pfx 0 n)).
  { split; [by exists e|]. split; [done|]. split; [rewrite length_bits; lia|]. by apply Hb. }
  cbv zeta. set (take := match best with None => true | Some _ => _ end).
  destruct (IH (if take then Some (pfx, n, is_assigned e) else best) (fun e' He' => Hes e' ltac:(by right))) as (res & -> & Hres).
  { intros x m b. destruct take; [intros [= <- <- _]; done|apply Hbest]. }
  exists res. split; [done|]. destruct res as [[[x m] b]|]; [done|]. destruct Hres as [Hbn _]. exfalso.
  unfold take in Hbn. destruct best as [[[x m] b]|]; [|done]. by destruct (_ || _).
Qed.

(** The rounds choose a prefix inside the one to override, if the callback accepts one. *)
Lemma override_tries_ok fuel r o p best best_plen plen size n : prefix_ok best best_plen -> (best_plen <= plen <= 128)%nat ->
  match override_tries fuel r o p best best_plen plen size n with
  | Some (Some x, _) => prefix_ok x plen /\ bits best 0 best_plen `prefix_of` bits x 0 plen
  | Some (None, _) => fuel = 0%nat \/ rand_accept_proposed_cb r ≠ None
  | None => size = 0 \/ (32 < plen - best_plen)%nat \/ past_end best_plen plen
  end.
Proof.
  intros Hb Hl. revert n. induction fuel as [|fuel IH]; intros n; cbn [override_tries]; [by left|].
  destruct (decide (size = 0)); [by left|]. cbv zeta. pose proof (new_prefix_ok 0 ltac:(lia)) as (Hzb & Hzl & _).
  destruct (pa_prefix_cpy_ok best plen new_prefix (prefix_ok_le _ _ plen Hb ltac:(lia)) Hzb Hzl) as (d & -> & Hd & Hdb). cbn [mbind option_bind].
  destruct (decide (32 < plen - best_plen)%nat); [by right; left|]. set (id := be32 _).
  assert (Hid : bytes_ok id /\ length id = 4%nat) by (split; [apply be32_bytes|apply length_be32]). destruct Hid as [Hib Hil]. pose proof Hd as (Hd1 & Hd2 & _).
  destruct (decide (best_plen = plen)) as [->|Hne].
  - destruct (decide (plen mod 8 = 0)%nat) as [Hm|Hm].
    { destruct (bmemcpy_shift _ _ _ _ _) as [x|] eqn:Ex; cbn [mbind option_bind]; [|by right; right]. exfalso. revert Ex.
      unfold bmemcpy_shift. rewrite Nat.sub_diag. change (32 - 0)%nat with 32%nat. change (32 mod 8)%nat with 0%nat. rewrite Hm, decide_True by done. unfold bmemcpy. cbn. unfold bbytecpy.
      change (32 / 8)%nat with 4%nat. cbn. done. }
    assert (bmemcpy_shift d plen id (32 - (plen - plen)) (plen - plen) = Some d) as ->.
    { rewrite Nat.sub_diag. unfold bmemcpy_shift. change (32 - 0)%nat with 32%nat. change (32 mod 8)%nat with 0%nat. by rewrite decide_False. }
    cbn [mbind option_bind]. destruct (accepts _ o p d plen) eqn:Ha; [by rewrite Hdb|].
    specialize (IH (S n)). destruct (override_tries _ _ _ _ _ _ _ _ _) as [[[x|] ?]|]; [done| |done]. right. by destruct (rand_accept_proposed_cb r).
  - destruct (bmemcpy_shift_ok d best_plen id (32 - (plen - best_plen)) (plen - best_plen)) as (x & -> & Hx); [done|done|lia|lia|].
    cbn [mbind option_bind]. destruct (accepts _ o p x plen) eqn:Ha.
    + split; [by eapply copied_ok|]. transitivity (bits x 0 best_plen); [|apply bits_prefix; lia].
      rewrite (copied_prefix _ _ _ _ _ _ best_plen Hx) by lia. apply (f_equal (take best_plen)) in Hdb. rewrite !take_bits in Hdb by lia. by rewrite Hdb.
    + specialize (IH (S n)). destruct (override_tries _ _ _ _ _ _ _ _ _) as [[[y|] ?]|]; [done| |done]. right. by destruct (rand_accept_proposed_cb r).
Qed.

End override.
