(* ===== verification/PaRandom.v ===== *)
(** The random rule of the prefix assignment publishes free prefixes, or overrides those
    that its override priorities beat. *)
From S2P Require Import Prelude Bitops Tlv BtrieBits BtrieWf BtrieIter BtrieFree BtrieEach PaTrie PaCore PaFacts PaInv PaPublish PaCheck PaAdvertise PaRules PaPick PaOverride.

(** What is relied on from the machine and libraries. *)
Class PaHostOk `{HO : !PaHost} : Prop := {
  pa_random_pos : forall n, 0 <= pa_random n;
  md5_ok : forall x, bytes_ok (md5 x) /\ length (md5 x) = 16%nat
}.

(** A prefix of just the length [desired] is available, and the length is a number of
    bytes: [pa_rule_prefix_nth] would read past its number. *)
Definition exact_available `{PT : !PrefixTrie pentry} (cb : option (pa_core -> pa_ldp -> option (list Z * nat))) (desired : list Z -> nat)
    (o : pa_core) (p : pa_ldp) : Prop :=
  exists sub subplen count A, rule_subprefix cb o p = Some (Some (sub, subplen)) /\ pa_rule_prefix_count o sub subplen = Some count /\
    pt_for_each_available (prefixes o) new_prefix sub subplen = Some A /\ exact A (desired count).

Section random.
Context `{PT : !PrefixTrie pentry, PTO : !PrefixTrieOk pentry, HO : !PaHost, HOK : !PaHostOk}.
Implicit Types (o : pa_core) (p : pa_ldp).

Lemma random_below n m : 0 < m -> 0 <= Z.rem (pa_random n) m < m.
Proof. intros Hm. apply Z.rem_bound_pos; [apply pa_random_pos|done]. Qed.

Lemma set_arg_prefix_ok x plen arg : prefix_ok x plen -> arg_ok arg ->
  exists arg' y, set_arg_prefix x plen arg = Some arg' /\ arg_rule_priority arg' = arg_rule_priority arg /\
    arg_priority arg' = arg_priority arg /\ arg_prefix arg' = Some (y, plen) /\ prefix_ok y plen /\ bits y 0 plen = bits x 0 plen.
Proof.
  intros Hx Harg. unfold set_arg_prefix. set (old := match arg_prefix arg with Some _ => _ | None => _ end).
  assert (Hold : bytes_ok old /\ length old = 16%nat).
  { unfold old. destruct (arg_prefix arg) as [[y n]|] eqn:E; [destruct (Harg y n E) as (? & ? & _); done|].
    destruct (new_prefix_ok 0) as (? & ? & _); [lia|done]. }
  destruct (pa_prefix_cpy_ok x plen old Hx) as (y & -> & Hy & Hb); [apply Hold|apply Hold|]. cbn [mbind option_bind].
  eexists _, y. by repeat (split; [done|]).
Qed.

(** What a rule that has chosen [t] answers. *)
Definition chosen (t : option (list Z)) (plen : nat) (arg : pa_rule_arg) (res : option (pa_rule_target * pa_rule_arg * nat)) : Prop :=
  exists target arg' n, res = Some (target, arg', n) /\ arg_rule_priority arg' = arg_rule_priority arg /\ arg_priority arg' = arg_priority arg /\ arg_ok arg' /\
    match t with
    | None => target = PA_RULE_NO_MATCH
    | Some x => target = PA_RULE_PUBLISH /\ exists y, arg_prefix arg' = Some (y, plen) /\ prefix_ok y plen /\ bits y 0 plen = bits x 0 plen
    end.

Lemma choose_ok t plen arg n : arg_ok arg -> (forall x, t = Some x -> prefix_ok x plen) -> chosen t plen arg (choose t plen arg n).
Proof.
  intros Harg Ht. destruct t as [x|]; cbn [choose]; [|by eexists _, _, _].
  destruct (set_arg_prefix_ok x plen arg (Ht x eq_refl) Harg) as (arg' & y & -> & E1 & E2 & E3 & Hy & Hb). cbn [mbind option_bind].
  eexists _, arg', n. split; [done|]. split; [done|]. split; [done|]. split; [intros ? ? E; rewrite E3 in E; by injection E as <- <-|]. split; [done|]. by exists y.
Qed.

(** The random rounds choose a candidate, if the callback accepts one. *)
Lemma random_tries_ok fuel r o p sub subplen A plen size found m overflow_n t n :
  pt_for_each_available (prefixes o) new_prefix sub subplen = Some A -> avail_ok A -> (plen <= 128)%nat -> 0 <= size <= 65535 ->
  subset_ok (fun j => saturated (avail_count A j)) plen size found (Some m) overflow_n -> 0 < found ->
  match random_tries fuel r o p sub subplen plen m found t n with
  | Some (Some x, _) => picked A plen x
  | Some (None, _) => fuel = 0%nat \/ rand_accept_proposed_cb r ≠ None
  | None => exact A plen
  end.
Proof.
  intros HA Hok Hp Hs Hsub Hf. revert t n. induction fuel as [|fuel IH]; intros t n; cbn [random_tries]; [by left|].
  pose proof (random_below n found Hf) as Hr. assert (Hfs : found <= size) by apply Hsub.
  assert (Hu : u32 (Z.rem (pa_random n) found) = Z.rem (pa_random n) found) by (unfold u32; rewrite Z.mod_small; lia). rewrite Hu.
  pose proof (pa_rule_candidate_pick_ok o sub subplen A plen size found m overflow_n _ HA Hok Hp Hs Hsub Hr) as Hpick.
  destruct (pa_rule_candidate_pick o sub subplen _ plen m plen) as [[x|]|]; cbn [mbind option_bind]; [|done|done].
  destruct (accepts _ o p x plen) eqn:Ha; [done|]. specialize (IH (Some x) (S n)).
  destruct (random_tries fuel _ _ _ _ _ _ _ _ _ _) as [[[y|] ?]|]; [done| |done]. right. by destruct (rand_accept_proposed_cb r).
Qed.

(** The pseudo-random rounds. *)
Lemma bmemcpy_prefix dst src n : prefix_ok dst 0 -> prefix_ok src n ->
  exists x, bmemcpy dst 0 src 0 0 n = Some x /\ prefix_ok x n /\ bits x 0 n = bits src 0 n.
Proof. intros (H1 & H2 & _) Hs. by apply pa_prefix_cpy_ok. Qed.

Lemma pa_rule_prefix_prandom_ok seed ctr container clen dst plen : prefix_ok container clen -> prefix_ok dst 0 -> (plen <= 128)%nat ->
  exists x, pa_rule_prefix_prandom seed ctr container clen dst plen = Some x /\ prefix_ok x plen /\ bits x 0 clen = bits container 0 clen.
Proof.
  intros Hc Hz Hp. unfold pa_rule_prefix_prandom.
  assert (exists d, prandom_loop 16 seed ctr 0 dst 0 ((plen + 7) / 8) = Some d /\ prefix_ok d 0) as (d & -> & Hd).
  { pose proof Hz as (Z1 & Z2 & _).
    assert (Hb : ((plen + 7) / 8 <= 16)%nat) by lia. destruct ((plen + 7) / 8)%nat as [|b] eqn:E; [by exists dst|].
    cbn [prandom_loop]. rewrite Nat.min_r by lia. rewrite Nat.sub_diag. set (h := md5 _). destruct (md5_ok (seed ++ host32 ctr ++ host32 0)) as [M1 M2]. fold h in M1, M2.
    rewrite wrn_Some by (rewrite length_take; lia). cbn [mbind option_bind]. eexists. split; [by destruct b|]. split; [apply bytes_ok_wrn; [done|by apply Forall_take]|].
    split; [|lia]. rewrite !length_app, !length_take, length_drop. lia. }
  cbn [mbind option_bind]. destruct (bmemcpy_prefix d container clen Hd Hc) as (x & -> & Hx & Hxb). exists x. split; [done|]. split; [by eapply prefix_ok_le|done].
Qed.

Lemma first_available_ok o t subplen plen : inv o -> prefix_ok t plen -> (subplen <= plen)%nat ->
  exists r, pt_first_available_loop (prefixes o) new_prefix t subplen plen = Some r /\ forall k len, r = Some (k, len) ->
    prefix_ok k len /\ forall y e, (y, e) ∈ pt_entries (prefixes o) -> ~ overlap (bits k 0 len) y.
Proof.
  intros Ho Ht Hs. destruct (prefix_ok_key _ _ Ht) as [Hk Hl]. pose proof (prefix_ok_key _ _ (new_prefix_ok 0 ltac:(lia))) as [Hnk _].
  pose proof Ht as (_ & _ & Hp). assert (Hnl : length new_prefix = 16%nat) by done.
  destruct (pt_first_available_loop_ok (prefixes o) new_prefix t subplen plen (i_trie o Ho) Hnk Hk) as (r & -> & Hr); [lia|lia|lia|lia| |].
  { intros [y e] Hy. destruct (entry_prefix_ok o y e Ho Hy) as (pfx & n & _ & (_ & _ & ?) & ->). cbn [fst]. rewrite length_bits. lia. }
  exists r. split; [done|]. intros k len ->. destruct (Hr k len eq_refl) as ([Hb _] & Hlk & Hlen & Hclear).
  split; [split; [done|]; split; [by rewrite Hlk|lia]|]. intros y e Hy. by apply (Hclear (y, e)).
Qed.

(** A tentative that is taken is inside a free prefix. *)
Lemma prandom_tries_ok k i r o p sub subplen plen m overflow t : inv o -> prefix_ok sub subplen -> (subplen <= plen <= 128)%nat ->
  (forall x, overflow = Some x -> prefix_ok x plen) -> prefix_ok t 0 ->
  exists b x, prandom_tries k i r o p sub subplen plen m overflow t = Some (b, x) /\ (b = true -> free_prefix o sub subplen x plen).
Proof.
  intros Ho Hsub Hl Hov. revert i t. induction k as [|k IH]; intros i t Ht; cbn [prandom_tries]; [by eexists _, _|].
  destruct (pa_rule_prefix_prandom_ok (pseudo_random_seed r) i sub subplen t plen Hsub Ht ltac:(lia)) as (x & -> & Hx & Hxb). cbn [mbind option_bind].
  destruct (first_available_ok o x subplen plen Ho Hx ltac:(lia)) as (first & -> & Hfirst). cbn [mbind option_bind].
  set (good := match first with None => _ | Some _ => _ end).
  assert (exists b, good = Some b /\ (b = true -> free_prefix o sub subplen x plen)) as (b & -> & Hb).
  { unfold good. destruct first as [[it n]|]; [|by exists false]. destruct (Hfirst it n eq_refl) as [Hit Hclear].
    destruct (decide (plen < n)%nat) as [Hn|Hn]; [by exists false|]. rewrite (pa_prefix_contains_ok it n x plen Hit Hx) by lia. cbn [mbind option_bind].
    case_bool_decide as Hin; cbn [negb orb]; [|by exists false]. case_bool_decide; [by exists false|].
    assert (Hfree : free_prefix o sub subplen x plen).
    { split; [done|]. split; [rewrite <- Hxb; apply bits_prefix; lia|]. intros y e Hy Hov'. apply (Hclear y e Hy). by eapply overlap_inside. }
    destruct overflow as [w|]; [|by exists true]. case_decide; [|by exists true]. destruct (Hov w eq_refl) as (W1 & W2 & _). destruct Hx as (X1 & X2 & _).
    destruct (bmemcmp_bits x 0 w 0 plen X1 W1) as (c & -> & _); [lia|lia|]. cbn [mbind option_bind]. by eexists. }
  cbn [mbind option_bind]. destruct b; cbn [andb]; [destruct (accepts _ o p x plen); [by exists true, x; auto|]|]; apply IH; by eapply prefix_ok_le; [exact Hx|lia].
Qed.

(** A random rule whose callbacks return prefixes and lengths of up to 128 bits; its size
    is of 16 bits. *)
Record random_plain (r : pa_rule_random) : Prop := {
  rp_plen : forall o p count, (rand_desired_plen_cb r o p count <= 128)%nat;
  rp_sub : forall f o p sub subplen, rand_subprefix_cb r = Some f -> f o p = Some (sub, subplen) -> prefix_ok sub subplen;
  rp_size : 0 <= random_set_size r <= 65535
}.

(** There is nothing to choose from. *)
Definition no_candidate (cb : option (pa_core -> pa_ldp -> option (list Z * nat))) (desired : list Z -> nat) (size : Z) o p : Prop :=
  exists sub subplen count m ov, rule_subprefix cb o p = Some (Some (sub, subplen)) /\ pa_rule_prefix_count o sub subplen = Some count /\
    pa_rule_candidate_subset count (desired count) size = Some (0, m, ov).

Lemma saturated_count A m : 0 < saturated (avail_count A m) -> exists it, (it, m) ∈ A.
Proof.
  unfold saturated, avail_count. intros H. destruct (filter (fun x => x.2 = m) A) as [|[it i] l] eqn:E; [cbn in H; lia|].
  assert (Hin : (it, i) ∈ filter (fun x => x.2 = m) A) by (rewrite E; by left). apply list_elem_of_filter in Hin as [<- Hin]. by exists it.
Qed.

(** The delegated prefix of a pair. *)
Lemma dp_of_pair o l p : inv o -> get_ldp o l = Some p ->
  exists d, get_dp o (ldp_dp p) = Some d /\ prefix_ok (dp_prefix d) (dp_plen d).
Proof.
  intros Ho Hp. destruct (get_ldp_in _ _ _ Hp) as [Hin _]. destruct (i_dps o Ho p Hin) as [d Hd]. exists d. split; [done|].
  apply (i_dp_ok o Ho). unfold get_dp in Hd. destruct (list_find _ _) as [[i w]|] eqn:Hf; [|done]. injection Hd as <-.
  apply list_find_Some in Hf as (Hi & _). by eapply list_elem_of_lookup_2.
Qed.

Lemma rule_subprefix_ok cb o l p : inv o -> get_ldp o l = Some p ->
  (forall f o p sub subplen, cb = Some f -> f o p = Some (sub, subplen) -> prefix_ok sub subplen) ->
  exists sub, rule_subprefix cb o p = Some sub /\ forall x n, sub = Some (x, n) -> prefix_ok x n.
Proof.
  intros Ho Hp Hcb. unfold rule_subprefix. destruct cb as [f|]; [exists (f o p); split; [done|]; intros x n; by apply Hcb|].
  destruct (dp_of_pair o l p Ho Hp) as (d & -> & Hd). cbn [mbind option_bind]. eexists. split; [done|]. by intros x n [= <- <-].
Qed.

(** The answer of a rule: nothing, a backoff, or a free prefix inside that of
    [rule_subprefix]; it is undefined only when [undefined] holds. *)
Definition answers (cb : option (pa_core -> pa_ldp -> option (list Z * nat))) (desired : list Z -> nat) o p (prio : Z) (undefined : Prop)
    (res : option (pa_rule_target * pa_rule_arg * nat)) : Prop :=
  match res with
  | Some (target, arg', _) => arg_rule_priority arg' = Some prio /\ arg_ok arg' /\
      match target with
      | PA_RULE_NO_MATCH => True
      | PA_RULE_BACKOFF => backoff p = false
      | PA_RULE_PUBLISH => is_Some (arg_priority arg') /\ exists sub subplen count x, rule_subprefix cb o p = Some (Some (sub, subplen)) /\
          arg_prefix arg' = Some (x, desired count) /\ free_prefix o sub subplen x (desired count)
      | _ => False
      end
  | None => undefined
  end.

Lemma free_bits o sub subplen x y plen : prefix_ok y plen -> bits y 0 plen = bits x 0 plen -> free_prefix o sub subplen x plen -> free_prefix o sub subplen y plen.
Proof. intros Hy E (_ & H1 & H2). split; [done|]. by rewrite E. Qed.

(** The rule overrides at all. *)
Definition overrides (r : pa_rule_random) : Prop := ~ (rand_override_priority r = 0 /\ rand_override_rule_priority r = 0).

(** What overriding answers: a prefix inside one of the core that can be overridden. *)
Definition override_answers (r : pa_rule_random) o p (sub : list Z) (subplen plen : nat) (arg : pa_rule_arg) (res : option (pa_rule_target * pa_rule_arg * nat)) : Prop :=
  match res with
  | Some (target, arg', _) => arg_rule_priority arg' = arg_rule_priority arg /\ arg_priority arg' = arg_priority arg /\ arg_ok arg' /\
      (target = PA_RULE_NO_MATCH /\ (rand_accept_proposed_cb r ≠ None \/ ~ overrides r \/ forall y, ~ override_of r o p (bits sub 0 subplen) plen y) \/
       target = PA_RULE_PUBLISH /\ overrides r /\ exists x y, arg_prefix arg' = Some (x, plen) /\ prefix_ok x plen /\
         override_of r o p (bits sub 0 subplen) plen y /\ y `prefix_of` bits x 0 plen)
  | None => overrides r /\ exists y, override_of r o p (bits sub 0 subplen) plen y /\
      (random_set_size r = 0 \/ (32 < plen - length y)%nat \/ past_end (length y) plen)
  end.

Lemma pa_rule_random_override_match_ok r o p sub subplen arg plen : inv o -> prefix_ok sub subplen -> (plen <= 128)%nat -> arg_ok arg ->
  override_answers r o p sub subplen plen arg (pa_rule_random_override_match r o p sub subplen arg plen).
Proof.
  intros Ho Hsub Hplen Harg. unfold pa_rule_random_override_match, override_answers, overrides.
  destruct (bool_decide (rand_override_priority r = 0) && bool_decide (rand_override_rule_priority r = 0)) eqn:E0.
  { apply andb_true_iff in E0 as [E1%bool_decide_eq_true E2%bool_decide_eq_true]. split; [done|]. split; [done|]. split; [done|]. left. split; [done|]. right; left. tauto. }
  assert (Hon : ~ (rand_override_priority r = 0 /\ rand_override_rule_priority r = 0)).
  { intros [E1 E2]. by rewrite !bool_decide_true in E0 by done. } clear E0.
  destruct (prefix_ok_key _ _ Hsub) as [Hk Hl]. rewrite (pt_for_each_down_ok _ _ _ (i_trie o Ho) Hk Hl). cbn [mbind option_bind].
  set (es := (filter _ _).*2).
  assert (Hes : forall e, e ∈ es <-> exists y, (y, e) ∈ pt_entries (prefixes o) /\ bits sub 0 subplen `prefix_of` y).
  { intros e. unfold es. rewrite list_elem_of_fmap. split.
    - intros ([y e'] & -> & [Hp Hin]%list_elem_of_filter). by exists y.
    - intros (y & Hin & Hp). exists (y, e). split; [done|]. by apply list_elem_of_filter. }
  destruct (override_loop_ok r o p (bits sub 0 subplen) plen es None Ho) as (res & -> & Hres); [intros e He; by apply Hes|done|]. cbn [mbind option_bind].
  destruct res as [[[best n] b]|].
  2:{ split; [done|]. split; [done|]. split; [done|]. left. split; [done|]. right; right. intros y Hy. destruct Hres as [_ Hres].
      pose proof Hy as ((e & He) & Hp & _). apply (Hres y e); [apply Hes; by exists y|done|done]. }
  destruct Hres as [Hbest Hov]. pose proof Hov as (_ & _ & Hn & _). rewrite length_bits in Hn. cbv zeta. set (size := if decide (random_set_size r < _) then _ else _).
  pose proof (override_tries_ok 100 r o p best n plen size (pa_randoms o) Hbest ltac:(lia)) as Ht.
  destruct (override_tries _ _ _ _ _ _ _ _ _) as [[t k]|]; cbn [mbind option_bind].
  - destruct (choose_ok t plen arg k Harg) as (target & arg' & k' & -> & E1 & E2 & Hok' & Ht'); [intros x ->; apply Ht|].
    split; [done|]. split; [done|]. split; [done|]. destruct t as [x|].
    + right. destruct Ht as [_ Ht], Ht' as (-> & y & E3 & Hy & Hyb). split; [done|]. split; [done|]. exists y, (bits best 0 n). by rewrite Hyb.
    + left. split; [done|]. left. by destruct Ht as [?|?].
  - split; [done|]. exists (bits best 0 n). split; [done|]. rewrite length_bits. destruct Ht as [Hs|Ht]; [left|by right].
    unfold size in Hs. case_decide; [done|]. case_decide; [done|]. assert (0 < 2 ^ Z.of_nat (plen - n)) by lia. lia.
Qed.

(** The prefix overlaps none of the core; or there was no candidate, it is inside one
    of the core that can be overridden, and so is what it overlaps. *)
Definition random_publishes (r : pa_rule_random) o p (x : list Z) (plen : nat) : Prop :=
  exists sub subplen count, rule_subprefix (rand_subprefix_cb r) o p = Some (Some (sub, subplen)) /\
    pa_rule_prefix_count o sub subplen = Some count /\ plen = rand_desired_plen_cb r o p count /\
    (free_prefix o sub subplen x plen \/
     no_candidate (rand_subprefix_cb r) (rand_desired_plen_cb r o p) (random_set_size r) o p /\ overrides r /\
     prefix_ok x plen /\ bits sub 0 subplen `prefix_of` bits x 0 plen /\ overridable r o p (bits x 0 plen) /\
     exists y e, (y, e) ∈ pt_entries (prefixes o) /\ y `prefix_of` bits x 0 plen).

(** Nothing is published: the callback for the pool fails, the one for prefixes refused
    them all, or no prefix is free and none can be overridden. *)
Definition random_gives_up (r : pa_rule_random) o p : Prop :=
  rule_subprefix (rand_subprefix_cb r) o p = Some None \/ rand_accept_proposed_cb r ≠ None \/
  no_candidate (rand_subprefix_cb r) (rand_desired_plen_cb r o p) (random_set_size r) o p /\
    (overrides r -> forall sub subplen count, rule_subprefix (rand_subprefix_cb r) o p = Some (Some (sub, subplen)) ->
       pa_rule_prefix_count o sub subplen = Some count -> forall y, ~ override_of r o p (bits sub 0 subplen) (rand_desired_plen_cb r o p count) y).

(** The answer has no defined value: a free prefix has just the desired length in whole
    bytes; or a prefix is to be overridden that has, or is more than 32 bits shorter, or
    the rule chooses among no numbers. *)
Definition random_undefined (r : pa_rule_random) o p : Prop :=
  exact_available (rand_subprefix_cb r) (rand_desired_plen_cb r o p) o p \/
  no_candidate (rand_subprefix_cb r) (rand_desired_plen_cb r o p) (random_set_size r) o p /\ overrides r /\
    exists sub subplen count y, rule_subprefix (rand_subprefix_cb r) o p = Some (Some (sub, subplen)) /\ pa_rule_prefix_count o sub subplen = Some count /\
      let plen := rand_desired_plen_cb r o p count in override_of r o p (bits sub 0 subplen) plen y /\
      (random_set_size r = 0 \/ (32 < plen - length y)%nat \/ past_end (length y) plen).

Definition random_answers (r : pa_rule_random) o p (res : option (pa_rule_target * pa_rule_arg * nat)) : Prop :=
  match res with
  | Some (target, arg', _) => arg_rule_priority arg' = Some (rand_rule_priority r) /\ arg_priority arg' = Some (rand_priority r) /\ arg_ok arg' /\
      if negb (backoff p) then target = PA_RULE_BACKOFF
      else
        match target with
        | PA_RULE_NO_MATCH => random_gives_up r o p
        | PA_RULE_PUBLISH => exists x plen, arg_prefix arg' = Some (x, plen) /\ random_publishes r o p x plen
        | _ => False
        end
  | None => backoff p = true /\ random_undefined r o p
  end.

Lemma overridable_inside r o p x y : y `prefix_of` x -> overridable r o p y -> overridable r o p x.
Proof. intros Hy [H1 H2]. split; [done|]. intros z e Hz Hov. apply (H2 z e Hz). by eapply overlap_inside. Qed.

(** With candidates, one of them is chosen. *)
Lemma random_candidates_ok r o p sub subplen A plen found m ov arg : inv o -> prefix_ok sub subplen -> 0 <= random_set_size r <= 65535 ->
  pt_for_each_available (prefixes o) new_prefix sub subplen = Some A -> avail_ok A ->
  available_in (bits sub 0 subplen) (pt_entries (prefixes o)).*1 (key_bits <$> A) -> (plen <= 128)%nat ->
  subset_ok (fun j => saturated (avail_count A j)) plen (random_set_size r) found (Some m) ov -> 0 < found -> arg_ok arg ->
  match random_candidates r o p sub subplen plen m found ov arg with
  | None => exact A plen
  | res => exists t, (forall x, t = Some x -> free_prefix o sub subplen x plen) /\ (t = None -> rand_accept_proposed_cb r ≠ None) /\ chosen t plen arg res
  end.
Proof.
  intros Ho Hsub Hsize HA Aok Hav Hplen Hss Hf Harg. unfold random_candidates. set (pseudo := if decide (_ = 0%nat) then _ else _).
  assert (Hlen : (subplen <= plen)%nat).
  { pose proof Hss as (_ & [?|(m' & [= <-] & Hm & HN & _)]); [lia|]. apply saturated_count in HN as [it Hit].
    pose proof (av_inside _ _ _ Hav (bits it 0 m) ltac:(apply list_elem_of_fmap; by exists (it, m))) as Hp%prefix_length. rewrite !length_bits in Hp. lia. }
  assert (Hps : match pseudo with
    | Some (b, t) => b = true -> exists x, t = Some x /\ free_prefix o sub subplen x plen
    | None => exact A plen end).
  { unfold pseudo. case_decide; [done|]. set (overflow := if decide (ov = 0) then _ else _).
    assert (Ho' : match overflow with Some w => forall x, w = Some x -> prefix_ok x plen | None => exact A plen end).
    { unfold overflow. case_decide as Hov; [done|].
      pose proof (pa_rule_overflow_pick_ok o sub subplen A plen _ found m ov HA Aok Hplen Hsize Hss Hf Hov) as Hpick.
      destruct (pa_rule_candidate_pick o sub subplen ov plen m m) as [[x|]|]; cbn [mbind option_bind]; [|done|done].
      intros y [= <-]. by destruct Hpick as (it & i & _ & _ & Hx & _). }
    destruct overflow as [w|]; cbn [mbind option_bind]; [|done].
    destruct (prandom_tries_ok (pseudo_random_tentatives r) 0 r o p sub subplen plen m w new_prefix Ho Hsub ltac:(lia) Ho' (new_prefix_ok 0 ltac:(lia))) as (b & x & -> & Hb).
    cbn [mbind option_bind]. intros ->. exists x. split; [done|by apply Hb]. }
  clearbody pseudo. destruct pseudo as [[[|] t]|]; cbn [mbind option_bind]; [| |done].
  - destruct (Hps eq_refl) as (x & -> & Hx). pose proof (choose_ok (Some x) plen arg (pa_randoms o) Harg) as Hch.
    assert (Hok : forall y, Some x = Some y -> prefix_ok y plen) by (intros y [= <-]; apply Hx). specialize (Hch Hok).
    destruct (choose (Some x) plen arg (pa_randoms o)) as [res|] eqn:E; [|by destruct Hch as (? & ? & ? & ? & _)].
    exists (Some x). split; [by intros y [= <-]|]. by split.
  - pose proof (random_tries_ok 100 r o p sub subplen A plen _ found m ov t (pa_randoms o) HA Aok Hplen Hsize Hss Hf) as Ht.
    destruct (random_tries _ _ _ _ _ _ _ _ _ _ _) as [[t' n]|]; cbn [mbind option_bind]; [|done].
    assert (Hfree : forall x, t' = Some x -> free_prefix o sub subplen x plen) by (intros x ->; by eapply picked_free).
    pose proof (choose_ok t' plen arg n Harg (fun x Hx => proj1 (Hfree x Hx))) as Hch.
    destruct (choose t' plen arg n) as [res|] eqn:E; [|by destruct Hch as (? & ? & ? & ? & _)].
    exists t'. split; [done|]. split; [|done]. intros ->. by destruct Ht as [?|?].
Qed.

Lemma pa_rule_random_match_ok r o l p arg : random_plain r -> inv o -> get_ldp o l = Some p -> arg_ok arg ->
  random_answers r o p (pa_rule_random_match r o p arg).
Proof.
  intros [R1 R2 R3] Ho Hp Harg. unfold pa_rule_random_match, random_answers. set (arg1 := mk_pa_rule_arg _ _ _).
  assert (Harg1 : arg_ok arg1) by exact Harg. destruct (backoff p) eqn:Hb; cbn [negb]; [|done].
  destruct (rule_subprefix_ok (rand_subprefix_cb r) o l p Ho Hp R2) as (sub & Hsub & Hok). rewrite Hsub. cbn [mbind option_bind].
  destruct sub as [[sub subplen]|]; [|split; [done|]; split; [done|]; split; [done|by left]]. specialize (Hok sub subplen eq_refl).
  destruct (available_ok o sub subplen Ho Hok) as (A & HA & Aok & Hav).
  destruct (pa_rule_prefix_count_ok o sub subplen A HA Aok) as (count & Hcnt & Hcount). rewrite Hcnt. cbn [mbind option_bind].
  set (plen := rand_desired_plen_cb r o p count). assert (Hplen : (plen <= 128)%nat) by apply R1.
  destruct (pa_rule_candidate_subset_ok count A plen (random_set_size r) Hcount Hplen R3) as (found & m & ov & Hset & Hss). rewrite Hset. cbn [mbind option_bind].
  destruct (decide (found = 0)) as [->|Hf].
  - assert (Hno : no_candidate (rand_subprefix_cb r) (rand_desired_plen_cb r o p) (random_set_size r) o p) by (by exists sub, subplen, count, m, ov).
    pose proof (pa_rule_random_override_match_ok r o p sub subplen arg1 plen Ho Hok Hplen Harg1) as H. unfold override_answers in H.
    destruct (pa_rule_random_override_match _ _ _ _ _ _ _) as [[[target arg'] n]|].
    + destruct H as (E1 & E2 & Hok' & H). split; [done|]. split; [done|]. split; [done|].
      destruct H as [(-> & H)|(-> & Hov & x & y & E3 & Hx & Hy & Hyx)].
      * right. destruct H as [H|H]; [by left|right]. split; [done|]. intros Hov s n' c E3 E4.
        assert ((s, n') = (sub, subplen)) as [= -> ->] by congruence. assert (c = count) as -> by congruence. by destruct H.
      * exists x, plen. split; [done|]. exists sub, subplen, count. do 3 (split; [done|]). right. destruct Hy as ((e & He) & Hsy & _ & Hover).
        split; [done|]. split; [done|]. split; [done|]. split; [by etrans|]. split; [by eapply overridable_inside|]. by exists y, e.
    + split; [done|]. right. destruct H as (Hov & y & Hy). split; [done|]. split; [done|]. by exists sub, subplen, count, y.
  - assert (exists m', m = Some m') as [m' ->] by (destruct Hss as (_ & [?|(m' & -> & _)]); [done|by exists m']). cbn [mbind option_bind].
    pose proof (random_candidates_ok r o p sub subplen A plen found m' ov arg1 Ho Hok R3 HA Aok Hav Hplen Hss ltac:(destruct Hss as [? _]; lia) Harg1) as H.
    destruct (random_candidates _ _ _ _ _ _ _ _ _ _) as [res|]; [|split; [done|]; left; by exists sub, subplen, count, A].
    destruct H as (t & Ht & Hn & target & arg' & n & [= ->] & E1 & E2 & Hok' & Hch). split; [done|]. split; [done|]. split; [done|].
    destruct t as [x|]; [|subst; right; left; by apply Hn]. destruct Hch as (-> & y & E3 & Hy & Hyb).
    exists y, plen. split; [done|]. exists sub, subplen, count. do 3 (split; [done|]). left. eapply free_bits; [done|done|by apply Ht].
Qed.

End random.
