(* ===== verification/PaHamming.v ===== *)
(** The hamming rule of the prefix assignment publishes free prefixes. *)
From S2P Require Import Prelude Bitops Tlv BtrieBits BtrieWf BtrieIter BtrieFree BtrieEach PaTrie PaCore PaFacts PaInv PaPublish PaCheck PaRules PaPick PaRandom.

(** ** The hamming rule *)

Lemma count_true_le l : count_true l <= Z.of_nat (length l).
Proof. induction l as [|b l IH]; cbn [count_true foldr length]; [done|]. unfold count_true in IH. destruct b; cbn [b2z]; lia. Qed.

Lemma hamming_bound a b s n : 0 <= hamming a b s n <= Z.of_nat n.
Proof.
  unfold hamming. split; [apply count_true_nonneg|]. etrans; [apply count_true_le|]. rewrite length_zip_with, !length_bits. lia.
Qed.

Section hamming.
Context `{PT : !PrefixTrie pentry, PTO : !PrefixTrieOk pentry, HO : !PaHost, HOK : !PaHostOk}.
Implicit Types (o : pa_core) (p : pa_ldp).

(** The last bits are those of another prefix, or one byte past the end is read. *)
Lemma bmemcpy_rest dst src i n : prefix_ok dst i -> prefix_ok src n -> (i <= n)%nat ->
  match bmemcpy dst 0 src 0 i (n - i) with
  | Some x => prefix_ok x n /\ bits x 0 i = bits dst 0 i
  | None => i = n /\ (n mod 8 = 0)%nat
  end.
Proof.
  intros (D1 & D2 & D3) (S1 & S2 & S3) Hi. destruct (decide (i = 128)%nat) as [->|Hne].
  - assert (n = 128)%nat as -> by lia. unfold bmemcpy. cbv zeta. change ((128 + (128 - 128)) / 8 - 128 / 8)%nat with 0%nat.
    rewrite decide_True by done. unfold bbytecpy. change (128 - 128)%nat with 0%nat. change (bbytecpy_masks !! 0%nat) with (Some 0). cbn [mbind option_bind].
    unfold rd. change (0 + 128 / 8)%nat with 16%nat. rewrite (lookup_ge_None_2 src 16) by lia. done.
  - destruct (bmemcpy_copied dst 0 src 0 i (n - i)) as (x & -> & Hc); [done|done|lia|lia|].
    split; [eapply copied_ok; [exact Hc|]; by split|]. eapply copied_prefix; [exact Hc|]. lia.
Qed.

Definition in_range (m plen i : nat) : Prop := (m <= i <= plen)%nat.

(** The best so far, and its distance. *)
Definition best_ok (A0 : list (list Z * nat)) (plen : nat) (dist : Z) (best : option (list Z)) : Prop :=
  match best with None => dist = 200 | Some x => picked A0 plen x end.

Lemma best_ok_memory A0 plen dist best : best_ok A0 plen dist best -> prefix_ok (default new_prefix best) 0.
Proof.
  destruct best as [x|]; [|intros _; apply new_prefix_ok; lia]. intros (_ & _ & _ & _ & Hx & _). cbn. eapply prefix_ok_le; [done|lia].
Qed.

(** A whole available prefix: the best prefix in it is that of the pseudo-random one. *)
Lemma hamming_whole A0 it i hammer plen dist best : avail_ok A0 -> (it, i) ∈ A0 -> (i <= plen)%nat -> prefix_ok hammer plen -> best_ok A0 plen dist best ->
  match best ← bmemcpy (default new_prefix best) 0 it 0 0 i; bmemcpy best 0 hammer 0 i (plen - i) with
  | Some x => picked A0 plen x
  | None => exact A0 plen
  end.
Proof.
  intros HA0 Hin Hi Hham Hb. pose proof (HA0 _ Hin) as Hit. cbn [fst snd] in Hit.
  destruct (bmemcpy_prefix _ it i (best_ok_memory _ _ _ _ Hb) Hit) as (x & -> & Hx & Hxb). cbn [mbind option_bind].
  pose proof (bmemcpy_rest x hammer i plen Hx Hham Hi) as Hr. destruct (bmemcpy x 0 hammer 0 i (plen - i)) as [y|].
  - destruct Hr as [Hy Hyb]. exists it, i. split; [done|]. split; [done|]. split; [done|]. rewrite <- Hxb, <- Hyb. apply bits_prefix. lia.
  - destruct Hr as [-> Hm]. by exists it.
Qed.

(** An available prefix of which only the first candidates count. *)
Lemma hamming_part A0 it i hammer plen n dist best : avail_ok A0 -> (it, i) ∈ A0 -> (i <= plen <= 128)%nat -> prefix_ok hammer plen -> best_ok A0 plen dist best ->
  match pa_rule_prefix_nth it i n plen with
  | None => exact A0 plen
  | Some mx => exists it' hd2, hamming_minimize mx hammer it i (plen - i) = Some (it', hd2) /\ 0 <= hd2 <= Z.of_nat (plen - i) /\
      exists x, bmemcpy (default new_prefix best) 0 it' 0 0 plen = Some x /\ picked A0 plen x
  end.
Proof.
  intros HA0 Hin Hi Hham Hb. pose proof (HA0 _ Hin) as Hit. cbn [fst snd] in Hit. destruct (decide (plen = i /\ (plen mod 8 = 0)%nat)) as [[-> Hm]|Hpe].
  { rewrite pa_rule_prefix_nth_past_end by done. by exists it. }
  destruct (pa_rule_prefix_nth_ok it i n plen Hit Hi Hpe) as (mx & -> & (M1 & M2 & M3) & Hp).
  pose proof Hham as (Hh1 & Hh2 & Hh3). pose proof Hit as (I1 & I2 & I3).
  assert (Hroom : (i + Nat.max 1 (plen - i) <= 128)%nat).
  { destruct (decide (plen = i)) as [->|]; [|lia]. destruct (decide (i = 128)%nat) as [->|]; [|lia]. destruct Hpe. done. }
  destruct (hamming_minimize_ok mx hammer it i (plen - i) M1 Hh1 I1) as (it' & hd2 & -> & L' & B' & Hout & _ & -> & _); [lia|lia|lia|].
  eexists _, _. split; [done|]. split; [apply hamming_bound|].
  destruct (bmemcpy_prefix _ it' plen (best_ok_memory _ _ _ _ Hb)) as (x & -> & Hx & Hxb); [split; [done|]; split; [congruence|lia]|].
  exists x. split; [done|]. exists it, i. split; [done|]. split; [lia|]. split; [done|]. rewrite Hxb.
  assert (E : bits it 0 i = bits it' 0 i) by (unfold bits; apply list_fmap_ext; intros k j Hj%lookup_seq; rewrite Hout by lia; done).
  rewrite E. apply bits_prefix. lia.
Qed.

(** The loop chooses a candidate as soon as there is one. *)
Lemma hamming_loop_ok A0 A hammer plen m ov dist best : avail_ok A0 -> (forall x, x ∈ A -> x ∈ A0) -> prefix_ok hammer plen -> best_ok A0 plen dist best ->
  match hamming_loop A hammer plen m ov dist best with
  | Some (Some x) => picked A0 plen x
  | Some None => best = None /\ forall x, x ∈ A -> ~ in_range m plen x.2
  | None => exact A0 plen
  end.
Proof.
  intros HA0 HA Hham. revert ov dist best. induction A as [|[it i] A IH]; intros ov dist best Hb; cbn [hamming_loop].
  { destruct best; [done|]. split; [done|]. by intros x ?%not_elem_of_nil. }
  assert (HA' : forall x, x ∈ A -> x ∈ A0) by (intros x Hx; apply HA; by right). specialize (IH HA').
  (* a prefix that is left out or that does not beat the best *)
  assert (Hskip : forall ov', ~ in_range m plen i \/ best ≠ None ->
    match hamming_loop A hammer plen m ov' dist best with
    | Some (Some x) => picked A0 plen x | Some None => best = None /\ forall x, x ∈ (it, i) :: A -> ~ in_range m plen x.2 | None => exact A0 plen end).
  { intros ov' Hi. specialize (IH ov' dist best Hb). destruct (hamming_loop A hammer plen m ov' dist best) as [[x|]|]; [done| |done].
    destruct IH as [Hn IH]. split; [done|]. intros x [->|Hx]%elem_of_cons; [|by apply IH]. by destruct Hi. }
  (* a new best *)
  assert (Htake : forall ov' dist' x, picked A0 plen x -> 
    match hamming_loop A hammer plen m ov' dist' (Some x) with
    | Some (Some x) => picked A0 plen x | Some None => best = None /\ forall x, x ∈ (it, i) :: A -> ~ in_range m plen x.2 | None => exact A0 plen end).
  { intros ov' dist' x Hx. specialize (IH ov' dist' (Some x) Hx). destruct (hamming_loop A hammer plen m ov' dist' (Some x)) as [[y|]|]; [done|by destruct IH|done]. }
  destruct (decide (plen < i)%nat) as [Hi|Hi]; [apply Hskip; left; unfold in_range; lia|].
  destruct (decide (i < m)%nat) as [Hm|Hm]; [apply Hskip; left; unfold in_range; lia|].
  pose proof Hham as (Hh1 & Hh2 & Hh3). assert (Hin : (it, i) ∈ A0) by (apply HA; by left). pose proof (HA0 _ Hin) as (I1 & I2 & I3). cbn [fst snd] in *.
  assert (Hhd : hamming_distance_64 big_endian it hammer i = Some (hamming it hammer 0 i)).
  { apply hamming_distance_64_ok; [done|done| |]; rewrite ?I2, ?Hh2; lia. }
  pose proof (hamming_bound it hammer 0 i) as Hbd.
  assert (Hlose : forall hd, hd <= 128 -> ~ hd < dist -> best ≠ None) by (intros hd H1 H2 ->; cbn in Hb; lia).
  destruct (_ && bool_decide (ov <= _)).
  - pose proof (hamming_part A0 it i hammer plen (u32 (ov - 1)) dist best HA0 Hin ltac:(lia) Hham Hb) as Hp.
    destruct (pa_rule_prefix_nth it i (u32 (ov - 1)) plen) as [mx|]; [|done]. destruct Hp as (it' & hd2 & Hmin & Hhd2 & x & Hcp & Hx). cbn [mbind option_bind]. rewrite Hhd. cbn [mbind option_bind]. rewrite Hmin. cbn [mbind option_bind].
    case_decide as Hlt; [|apply Hskip; right; apply (Hlose (hamming it hammer 0 i + hd2)); [lia|done]]. rewrite Hcp. cbn [mbind option_bind]. by apply Htake.
  - rewrite Hhd. cbn [mbind option_bind]. case_decide as Hlt; [|apply Hskip; right; apply (Hlose (hamming it hammer 0 i)); [lia|done]].
    pose proof (hamming_whole A0 it i hammer plen dist best HA0 Hin ltac:(lia) Hham Hb) as Hw.
    destruct (bmemcpy (default new_prefix best) 0 it 0 0 i) as [x|]; [|done]. cbn [mbind option_bind] in Hw |- *.
    destruct (bmemcpy x 0 hammer 0 i (plen - i)) as [y|]; [|done]. cbn [mbind option_bind]. by apply Htake.
Qed.

End hamming.

Section hamming_rule.
Context `{PT : !PrefixTrie pentry, PTO : !PrefixTrieOk pentry, HO : !PaHost, HOK : !PaHostOk}.
Implicit Types (o : pa_core) (p : pa_ldp).

(** A hamming rule whose callbacks behave. *)
Record hamming_plain (r : pa_rule_hamming) : Prop := {
  hp_plen : forall o p count, (ham_desired_plen_cb r o p count <= 128)%nat;
  hp_sub : forall f o p sub subplen, ham_subprefix_cb r = Some f -> f o p = Some (sub, subplen) -> prefix_ok sub subplen;
  hp_size : 0 <= ham_set_size r <= 65535
}.

Lemma pa_rule_hamming_match_ok r o l p arg : hamming_plain r -> inv o -> get_ldp o l = Some p -> arg_ok arg ->
  answers (ham_subprefix_cb r) (ham_desired_plen_cb r o p) o p (ham_rule_priority r)
    (exact_available (ham_subprefix_cb r) (ham_desired_plen_cb r o p) o p \/ no_candidate (ham_subprefix_cb r) (ham_desired_plen_cb r o p) (ham_set_size r) o p)
    (pa_rule_hamming_match r o p arg).
Proof.
  intros [R1 R2 R3] Ho Hp Harg. unfold pa_rule_hamming_match. set (arg1 := mk_pa_rule_arg _ _ _).
  assert (Harg1 : arg_ok arg1) by exact Harg. destruct (backoff p) eqn:Hb; cbn [negb]; [|by split].
  destruct (rule_subprefix_ok (ham_subprefix_cb r) o l p Ho Hp R2) as (sub & Hsub & Hok). rewrite Hsub. cbn [mbind option_bind].
  destruct sub as [[sub subplen]|]; [|by split]. specialize (Hok sub subplen eq_refl).
  destruct (available_ok o sub subplen Ho Hok) as (A & HA & Aok & Hav).
  destruct (pa_rule_prefix_count_ok o sub subplen A HA Aok) as (count & Hcnt & Hcount). rewrite Hcnt. cbn [mbind option_bind].
  set (plen := ham_desired_plen_cb r o p count). assert (Hplen : (plen <= 128)%nat) by apply R1.
  destruct (pa_rule_candidate_subset_ok count A plen (ham_set_size r) Hcount Hplen R3) as (found & m & ov & Hsubset & Hss). rewrite Hsubset. cbn [mbind option_bind].
  destruct (decide (found = 0)) as [->|Hf]; [right; by exists sub, subplen, count, m, ov|].
  destruct Hss as (_ & [?|(m' & -> & Hm' & HN & _)]); [done|]. cbn [mbind option_bind].
  destruct (pa_rule_prefix_prandom_ok (ham_seed r) 0 sub subplen new_prefix plen Hok (new_prefix_ok 0 ltac:(lia)) Hplen) as (hammer & -> & Hham & _). cbn [mbind option_bind].
  rewrite HA. cbn [mbind option_bind].
  pose proof (hamming_loop_ok A A hammer plen m' ov 200 None Aok (fun _ H => H) Hham eq_refl) as Hl.
  destruct (hamming_loop A hammer plen m' ov 200 None) as [[x|]|]; cbn [mbind option_bind].
  - pose proof Hl as (it & i & _ & _ & Hx & _). destruct (set_arg_prefix_ok x plen arg1 Hx Harg1) as (arg' & y & -> & E1 & E2 & E3 & Hy & Hyb). cbn [mbind option_bind].
    split; [by rewrite E1|]. split; [intros ? ? E; rewrite E3 in E; by injection E as <- <-|]. split; [by eexists|].
    exists sub, subplen, count, y. split; [done|]. split; [done|]. eapply free_bits; [done|done|]. by eapply picked_free.
  - exfalso. destruct Hl as [_ Hl]. destruct (saturated_count A m' HN) as [it Hit]. apply (Hl _ Hit). unfold in_range. cbn. lia.
  - left. by exists sub, subplen, count, A.
Qed.

End hamming_rule.
