(* ===== verification/PaForms.v ===== *)
(** The answers of the rules have the form that the core relies on. *)
From S2P Require Import Prelude Bitops Tlv BtrieBits BtrieWf BtrieIter BtrieFree BtrieEach PaTrie PaCore PaFacts PaInv PaPublish PaCheck PaAdvertise PaRules PaPick PaRandom PaHamming PaOverride.

(** ** What is copied stays bytes *)

Definition shape (x y : list Z) : Prop := bytes_ok y /\ length y = length x.

Lemma shape_refl x : bytes_ok x -> shape x x.
Proof. by split. Qed.

Lemma wr_shape x i v y : bytes_ok x -> byte_ok v -> wr x i v = Some y -> shape x y.
Proof. unfold wr. case_decide; [|done]. intros Hx Hv [= <-]. split; [by apply Forall_insert|by rewrite length_insert]. Qed.

Lemma wrn_shape x i s y : bytes_ok x -> bytes_ok s -> wrn x i s = Some y -> shape x y.
Proof.
  unfold wrn. case_decide; [|done]. intros Hx Hs [= <-]. split; [by apply bytes_ok_wrn|].
  rewrite !length_app, length_take, length_drop. lia.
Qed.

Lemma bbytecpy_shape x doff src soff f n y : bytes_ok x -> bbytecpy x doff src soff f n = Some y -> shape x y.
Proof.
  intros Hx. unfold bbytecpy. intros (m & _ & (s & _ & (d & _ & H)%bind_Some)%bind_Some)%bind_Some. eapply wr_shape; [done|apply u8_ok|done].
Qed.

Lemma shape_trans x y z : shape x y -> shape y z -> shape x z.
Proof. intros [_ E1] [H E2]. split; [done|congruence]. Qed.

Lemma bmemcpy_shape x doff src soff f n y : bytes_ok x -> bytes_ok src -> bmemcpy x doff src soff f n = Some y -> shape x y.
Proof.
  intros Hx Hs. unfold bmemcpy. case_decide as Hn0; [by apply bbytecpy_shape|]. intros ([[[x1 d1] s1] n1] & H1 & H)%bind_Some.
  assert (Hx1 : shape x x1).
  { destruct (decide (f mod 8 ≠ 0)%nat); [|apply (inj Some) in H1; injection H1 as <- _ _ _; by apply shape_refl]. apply bind_Some in H1 as (z & Hz & [= <- <- <- <-]). by eapply bbytecpy_shape. }
  apply bind_Some in H as (s & Hr & H). apply bind_Some in H as (x2 & Hw & H).
  assert (Hsb : bytes_ok s) by (unfold rdn in Hr; destruct (decide (s1 + n1 <= length src)%nat); [|done]; apply (inj Some) in Hr; subst s; by apply Forall_take, Forall_drop).
  assert (Hx2 : shape x1 x2) by (eapply wrn_shape; [apply Hx1|done|done]).
  eapply shape_trans; [done|]. destruct (decide ((f + n) mod 8 ≠ 0)%nat); [|injection H as <-; exact Hx2]. eapply shape_trans; [done|]. eapply bbytecpy_shape; [apply Hx2|done].
Qed.

Lemma bmemcpy_shift_loop_shape fuel x doff ds src soff ss n y : bytes_ok x ->
  bmemcpy_shift_loop fuel x doff ds src soff ss n = Some y -> shape x y.
Proof.
  revert x doff ds soff ss n. induction fuel as [|fuel IH]; intros x doff ds soff ss n Hx; cbn [bmemcpy_shift_loop]; (case_decide as Hn0; [intros [= <-]; by apply shape_refl|]); [done|].
  intros (v & _ & H)%bind_Some.
  case_decide; apply bind_Some in H as (z & Hz & H); apply bbytecpy_shape in Hz; try done; (eapply shape_trans; [done|]); (eapply IH; [|done]); apply Hz.
Qed.

Lemma bmemcpy_shift_shape x ds src ss n y : bytes_ok x -> bytes_ok src -> bmemcpy_shift x ds src ss n = Some y -> shape x y.
Proof. intros Hx Hs. unfold bmemcpy_shift. case_decide; [by apply bmemcpy_shape|by apply bmemcpy_shift_loop_shape]. Qed.

Lemma prefix_ok_shape x y n m : prefix_ok x n -> shape x y -> (m <= 128)%nat -> prefix_ok y m.
Proof. intros (H1 & H2 & _) [H3 H4] Hm. split; [done|]. split; [congruence|lia]. Qed.

(** ** Every rule answers as the core expects *)

Section rule_forms.
Context `{PT : !PrefixTrie pentry, PTO : !PrefixTrieOk pentry, HO : !PaHost, HOK : !PaHostOk}.
Implicit Types (o : pa_core) (p : pa_ldp).

(** The form of an answer: a backoff, nothing, or a prefix to publish. *)
Definition formed (prio : Z) (res : option (pa_rule_target * pa_rule_arg * nat)) : Prop :=
  match res with
  | None => True
  | Some (target, arg', _) => arg_rule_priority arg' = Some prio /\ arg_ok arg' /\
      match target with
      | PA_RULE_NO_MATCH | PA_RULE_BACKOFF => True
      | PA_RULE_PUBLISH => is_Some (arg_priority arg') /\ is_Some (arg_prefix arg')
      | _ => False
      end
  end.

Lemma choose_formed t plen arg n prio : arg_ok arg -> arg_rule_priority arg = Some prio -> is_Some (arg_priority arg) ->
  (forall x, t = Some x -> prefix_ok x plen) -> formed prio (choose t plen arg n).
Proof.
  intros Harg E1 E2 Ht. destruct (choose_ok t plen arg n Harg Ht) as (target & arg' & n' & -> & F1 & F2 & Hok & H). cbn [formed].
  split; [congruence|]. split; [done|]. destruct t; [|by subst]. destruct H as (-> & y & -> & _). split; [by rewrite F2|by eexists].
Qed.

Lemma pa_prefix_cpy_shape sp n d x : bytes_ok sp -> bytes_ok d -> pa_prefix_cpy sp n d = Some x -> shape d x.
Proof. intros Hs Hd. by apply bmemcpy_shape. Qed.

Lemma nth_formed it i n plen x : bytes_ok it -> (plen <= 128)%nat -> pa_rule_prefix_nth it i n plen = Some x -> prefix_ok x plen.
Proof.
  intros Hit Hp. unfold pa_rule_prefix_nth. intros (d & Hd & H)%bind_Some. case_decide; [done|].
  pose proof (new_prefix_ok 0 ltac:(lia)) as Hn. apply pa_prefix_cpy_shape in Hd; [|done|apply Hn].
  assert (Hdn : prefix_ok d 0) by (eapply prefix_ok_shape; [exact Hn|done|lia]).
  apply bmemcpy_shift_shape in H; [|apply Hdn|apply be32_bytes]. by eapply prefix_ok_shape.
Qed.

Lemma pick_pass_formed pass A n plen m mx x : avail_ok A -> (plen <= 128)%nat -> pick_pass pass A n plen m mx = Some (inr x) -> prefix_ok x plen.
Proof.
  intros HA Hp. revert n. induction A as [|[it i] A IH]; intros n; cbn [pick_pass]; [done|].
  assert (Hit : bytes_ok it) by apply (HA (it, i) ltac:(by left)). specialize (IH (fun y Hy => HA y ltac:(by right))).
  destruct (if pass then _ else _); [|apply IH]. case_decide; [done|].
  case_decide; [by intros (y & Hy & [= <-])%bind_Some; eapply nth_formed|]. case_decide; [by intros (y & Hy & [= <-])%bind_Some; eapply nth_formed|]. apply IH.
Qed.

Lemma pick_formed o sub subplen n plen m mx x : inv o -> prefix_ok sub subplen -> (plen <= 128)%nat ->
  pa_rule_candidate_pick o sub subplen n plen m mx = Some (Some x) -> prefix_ok x plen.
Proof.
  intros Ho Hs Hp. unfold pa_rule_candidate_pick. destruct (available_ok o sub subplen Ho Hs) as (A & -> & HA & _). cbn [mbind option_bind].
  intros ([n'|y] & H1 & H)%bind_Some; [|injection H as ->; by eapply pick_pass_formed].
  apply bind_Some in H as ([?|y] & H2 & H); [done|]. injection H as ->. by eapply pick_pass_formed.
Qed.

Lemma random_tries_formed fuel r o p sub subplen plen m found t n x n' : inv o -> prefix_ok sub subplen -> (plen <= 128)%nat ->
  (forall y, t = Some y -> prefix_ok y plen) -> random_tries fuel r o p sub subplen plen m found t n = Some (Some x, n') -> prefix_ok x plen.
Proof.
  intros Ho Hs Hp. revert t n. induction fuel as [|fuel IH]; intros t n Ht; cbn [random_tries]; [done|]. intros (c & Hc & (y & Hy & H)%bind_Some)%bind_Some.
  assert (Hyp : prefix_ok y plen) by (destruct c as [z|]; [injection Hy as ->; by eapply pick_formed|by apply Ht]).
  destruct (accepts _ o p y plen); [by injection H as <- <-|]. eapply IH; [|exact H]. by intros z [= <-].
Qed.

Lemma prandom_loop_shape fuel seed ctr ctr2 d off n x : bytes_ok d -> prandom_loop fuel seed ctr ctr2 d off n = Some x -> shape d x.
Proof.
  revert ctr2 d off n. induction fuel as [|fuel IH]; intros ctr2 d off n Hd; destruct n as [|n]; cbn [prandom_loop]; try done; try (intros [= <-]; by apply shape_refl).
  intros (y & Hy & H)%bind_Some. apply wrn_shape in Hy; [|done|apply Forall_take, md5_ok]. eapply shape_trans; [exact Hy|]. eapply IH; [|exact H]. apply Hy.
Qed.

Lemma prandom_formed seed ctr c clen d plen n x : prefix_ok d n -> bytes_ok c -> (plen <= 128)%nat -> pa_rule_prefix_prandom seed ctr c clen d plen = Some x -> prefix_ok x plen.
Proof.
  intros Hd Hc Hp. unfold pa_rule_prefix_prandom. intros (y & Hy & H)%bind_Some. apply prandom_loop_shape in Hy; [|apply Hd].
  assert (Hyp : prefix_ok y plen) by by eapply prefix_ok_shape. apply bmemcpy_shape in H; [|apply Hyp|done]. by eapply prefix_ok_shape.
Qed.

Lemma prandom_tries_formed k i r o p sub subplen plen m ov t b x : prefix_ok sub subplen -> (plen <= 128)%nat -> prefix_ok t 0 ->
  prandom_tries k i r o p sub subplen plen m ov t = Some (b, x) -> prefix_ok x plen.
Proof.
  intros Hs Hp. revert i t. induction k as [|k IH]; intros i t Ht; cbn [prandom_tries]; [intros [= <- <-]; by eapply prefix_ok_le|].
  intros (y & Hy & (f & _ & (g & _ & H)%bind_Some)%bind_Some)%bind_Some. eapply prandom_formed in Hy; [|done|apply Hs|done].
  destruct (g && _); [by injection H as <- <-|]. eapply IH; [|exact H]. by eapply prefix_ok_le; [|lia].
Qed.

End rule_forms.

Section rule_answers.
Context `{PT : !PrefixTrie pentry, PTO : !PrefixTrieOk pentry, HO : !PaHost, HOK : !PaHostOk}.
Implicit Types (o : pa_core) (p : pa_ldp).

Lemma override_loop_formed r o p plen es best x n b : inv o -> (forall e, e ∈ es -> exists k, entry_of o k e) ->
  (forall y m c, best = Some (y, m, c) -> prefix_ok y m) -> override_loop r o p plen es best = Some (Some (x, n, b)) -> prefix_ok x n.
Proof.
  intros Ho. revert best. induction es as [|e es IH]; intros best Hes Hb; cbn [override_loop]; [intros [= ->]; by eapply Hb|].
  intros ([y m] & He & H)%bind_Some. specialize (fun b => IH b (fun e' He' => Hes e' ltac:(by right))).
  assert (Hy : prefix_ok y m).
  { destruct (Hes e ltac:(by left)) as [k Hk]. destruct e as [l|a]; destruct Hk as (q & Hq & Hk); cbn [entry_prefix] in He; rewrite Hq in He; injection He as <- <-.
    - destruct Hk as [Hk _]. by apply (i_ldps o Ho l q Hq).
    - apply (i_advp_ok o Ho). by apply get_advp_in in Hq as [? _]. }
  destruct (decide (plen < m)%nat); [by eapply IH|]. apply bind_Some in H as (ok & _ & H). destruct ok; cbn [negb] in H; [|by eapply IH].
  eapply IH; [|exact H]. destruct (match best with Some _ => _ | None => _ end); [by intros ? ? ? [= <- <- <-]|done].
Qed.

Lemma override_tries_formed fuel r o p bp bplen plen size n x n' : prefix_ok bp bplen -> (plen <= 128)%nat ->
  override_tries fuel r o p bp bplen plen size n = Some (Some x, n') -> prefix_ok x plen.
Proof.
  intros Hb Hp. revert n. induction fuel as [|fuel IH]; intros n; cbn [override_tries]; [done|]. destruct (decide (size = 0)); [done|].
  intros (t & Ht & H)%bind_Some. destruct (decide (32 < plen - bplen)%nat); [done|]. apply bind_Some in H as (t2 & Ht2 & H).
  pose proof (new_prefix_ok 0 ltac:(lia)) as Hn. apply pa_prefix_cpy_shape in Ht; [|apply Hb|apply Hn]. apply bmemcpy_shift_shape in Ht2; [|apply Ht|apply be32_bytes].
  assert (prefix_ok t2 plen) by (eapply prefix_ok_shape; [exact Hn| |done]; by eapply shape_trans).
  destruct (accepts _ o p t2 plen); [by injection H as <- _|by eapply IH].
Qed.

(** The conditions on the callbacks of a random and of a hamming rule. *)
Definition random_callbacks (r : pa_rule_random) : Prop :=
  (forall o p count, (rand_desired_plen_cb r o p count <= 128)%nat) /\
  (forall f o p sub subplen, rand_subprefix_cb r = Some f -> f o p = Some (sub, subplen) -> prefix_ok sub subplen).

Lemma override_match_formed r o p sub subplen arg plen prio : inv o -> prefix_ok sub subplen -> (plen <= 128)%nat -> arg_ok arg ->
  arg_rule_priority arg = Some prio -> is_Some (arg_priority arg) -> formed prio (pa_rule_random_override_match r o p sub subplen arg plen).
Proof.
  intros Ho Hs Hp Harg E1 E2. unfold pa_rule_random_override_match. destruct (_ && _); [done|].
  destruct (prefix_ok_key _ _ Hs) as [Hk Hl]. rewrite (pt_for_each_down_ok _ _ _ (i_trie o Ho) Hk Hl). cbn [mbind option_bind].
  destruct (override_loop _ _ _ _ _ _) as [[[[bp bplen] b]|]|] eqn:Hov; [|done|done]. cbn [mbind option_bind].
  apply override_loop_formed in Hov; [|done| |done].
  2:{ intros e (z & -> & [_ Hz]%list_elem_of_filter)%list_elem_of_fmap. exists z.1. apply (i_entries o Ho). by destruct z. }
  destruct (override_tries _ _ _ _ _ _ _ _ _) as [[t n]|] eqn:Ht; [|done]. cbn [mbind option_bind]. apply choose_formed; [done|done|done|].
  intros x ->. by eapply override_tries_formed.
Qed.

Lemma random_match_formed r o l p arg : random_callbacks r -> inv o -> get_ldp o l = Some p -> arg_ok arg ->
  formed (rand_rule_priority r) (pa_rule_random_match r o p arg).
Proof.
  intros [R1 R2] Ho Hp Harg. unfold pa_rule_random_match. set (arg1 := mk_pa_rule_arg _ _ _). destruct (backoff p); cbn [negb]; [|done].
  destruct (rule_subprefix_ok (rand_subprefix_cb r) o l p Ho Hp R2) as (sub & -> & Hok). cbn [mbind option_bind].
  destruct sub as [[sub subplen]|]; [|done]. specialize (Hok sub subplen eq_refl). destruct (pa_rule_prefix_count o sub subplen) as [count|]; [|done]. cbn [mbind option_bind].
  set (plen := rand_desired_plen_cb r o p count). assert (Hplen : (plen <= 128)%nat) by apply R1.
  destruct (pa_rule_candidate_subset _ _ _) as [[[found m] ov]|]; [|done]. cbn [mbind option_bind].
  destruct (decide (found = 0)); [by apply override_match_formed|]. destruct m as [m|]; [|done]. cbn [mbind option_bind]. unfold random_candidates.
  match goal with |- formed _ (x ← ?P; _) => destruct P as [[b t]|] eqn:Hps; [|done] end. cbn [mbind option_bind].
  assert (Ht : forall x, t = Some x -> prefix_ok x plen).
  { destruct (decide (pseudo_random_tentatives r = 0)%nat); [by injection Hps as <- <-|]. apply bind_Some in Hps as (ov' & _ & ([b' t'] & Hpr & [= <- <-])%bind_Some).
    intros x [= <-]. eapply prandom_tries_formed; [exact Hok|done| |exact Hpr]. apply new_prefix_ok. lia. }
  destruct b; [by apply choose_formed|].
  destruct (random_tries _ _ _ _ _ _ _ _ _ _ _) as [[t2 n2]|] eqn:Hrt; [|done]. cbn [mbind option_bind]. apply choose_formed; [done|done|done|].
  intros x ->. by eapply random_tries_formed.
Qed.

Lemma formed_match_ok p prio target arg n : formed prio (Some (target, arg, n)) -> match_ok p target arg /\ arg_ok arg.
Proof.
  intros (_ & Harg & H). split; [|done]. destruct target; try done. split; [done|]. intros _. destruct H as [H [[x m] Hx]]. split; [done|].
  exists x, m. split; [done|]. by apply Harg.
Qed.

Definition static_callbacks (r : pa_rule_static) : Prop :=
  forall f o p x n, get_prefix r = Some f -> f o p = Some (x, n) -> prefix_ok x n.

Lemma static_match_formed r o p arg target arg' n : static_callbacks r -> arg_ok arg ->
  pa_rule_static_match r o p arg = Some (target, arg', n) -> match_ok p target arg' /\ arg_ok arg'.
Proof.
  intros Hr Harg. unfold pa_rule_static_match. destruct (_ && _); [by intros [= <- <- <-]|]. unfold static_prefix.
  destruct (get_prefix r) as [f|] eqn:Hf; [|done]. destruct (f o p) as [[x m]|] eqn:Hx; [|done]. cbn [mbind option_bind].
  set (arg1 := mk_pa_rule_arg _ _ _). destruct (set_arg_prefix_ok x m arg1 (Hr f o p x m Hf Hx) Harg) as (arg2 & y & -> & F1 & F2 & F3 & Hy & _).
  cbn [mbind option_bind]. intros [= <- <- <-]. split; [|intros ? ? E; rewrite F3 in E; by injection E as <- <-].
  split; [done|]. intros _. split; [by rewrite F2|]. by exists y, m.
Qed.

Lemma static_priority_total r o l p : static_callbacks r -> inv o -> get_ldp o l = Some p -> is_Some (pa_rule_static_get_max_priority r o p).
Proof.
  intros Hr Ho Hp. unfold pa_rule_static_get_max_priority, static_prefix. destruct (get_prefix r) as [f|] eqn:Hf; [|by eexists].
  destruct (f o p) as [[x m]|] eqn:Hx; [|by eexists]. specialize (Hr f o p x m Hf Hx).
  destruct (dp_of_pair o l p Ho Hp) as (d & -> & Hdok). cbn [mbind option_bind]. destruct (decide (m < dp_plen d)%nat) as [|Hle]; [by eexists|].
  rewrite (pa_prefix_contains_ok _ _ _ _ Hdok Hr) by lia. cbn [mbind option_bind]. destruct (bool_decide _); [|by eexists]. cbn [negb].
  destruct (pa_rule_valid_assignment_ok o p x m (static_override_rule_priority r) (static_override_priority r) (static_safety r) Ho Hr) as (b & -> & _).
  by eexists.
Qed.

End rule_answers.
