(* ===== verification/PaRulesOk.v ===== *)
(** The rules of [src/pa_rules.c], with the filters of [src/pa_filters.c], satisfy what
    the core relies on. *)
From S2P Require Import Prelude Bitops Tlv BtrieBits BtrieWf BtrieIter BtrieFree BtrieEach PaTrie PaCore PaFacts PaInv PaPublish PaCheck PaRules PaPick PaRandom PaHamming PaForms.

(** ** The rules satisfy what the core relies on *)

Section rules_ok.
Context `{PT : !PrefixTrie pentry, PTO : !PrefixTrieOk pentry, HO : !PaHost, HOK : !PaHostOk}.
Implicit Types (o : pa_core) (p : pa_ldp).

Lemma get_link_is_Some o k : is_Some (get_link o k) <-> k ∈ link_id <$> links o.
Proof.
  unfold get_link. induction (links o) as [|x ks IH]; cbn [list_find fmap list_fmap]; [split; [by intros []|by intros ?%not_elem_of_nil]|].
  rewrite elem_of_cons. case_decide as Hx; [split; [by left|by eexists]|]. rewrite <- IH. destruct (list_find _ ks) as [[]|]; cbn.
  - split; [intros _; right; by eexists|by eexists].
  - split; [by intros []|intros [?|[? ?]]; [congruence|done]].
Qed.

(** Filters are defined on the pairs of a core. *)
Lemma pa_filter_accept_total f o l p : inv o -> get_ldp o l = Some p -> is_Some (pa_filter_accept f o p).
Proof.
  intros Ho Hp. destruct (get_ldp_in _ _ _ Hp) as [Hin _]. revert f. fix IH 1. intros [fs n|fs n|link dp|t|t|g]; cbn [pa_filter_accept].
  - induction fs as [|f fs IHfs]; [by eexists|]. destruct (IH f) as [[] ->]; cbn [mbind option_bind]; [by eexists|exact IHfs].
  - induction fs as [|f fs IHfs]; [by eexists|]. destruct (IH f) as [[] ->]; cbn [mbind option_bind]; [exact IHfs|by eexists].
  - destruct (match link with Some _ => _ | None => _ end); [by eexists|]. destruct (match dp with Some _ => _ | None => _ end); by eexists.
  - destruct (i_dps o Ho p Hin) as [d ->]. by eexists.
  - destruct (proj2 (get_link_is_Some o (ldp_link p)) (i_links o Ho p Hin)) as [k ->]. by eexists.
  - by eexists.
Qed.

(** What the rules ask from the callbacks of their owners: prefixes are in their
    bytes and lengths are those of prefixes. *)
Definition rule_behaves (ru : pa_rule) : Prop :=
  match rule_of_kind ru with
  | RuleAdopt _ => True
  | RuleRandom r => random_callbacks r
  | RuleHamming r => hamming_plain r
  | RuleStatic r => static_callbacks r
  end.

Lemma answers_formed cb desired o p prio undefined res : answers cb desired o p prio undefined res -> formed prio res.
Proof.
  destruct res as [[[target arg] n]|]; [|done]. intros (H1 & H2 & H). split; [done|]. split; [done|]. destruct target; try done.
  destruct H as (? & sub & subplen & count & x & _ & -> & _). split; [done|by eexists].
Qed.

Lemma adopt_priority_valid r p : pa_rule_adopt_get_max_priority r p ≠ 0 -> assigned p = true /\ published p = false /\ best_assignment p = None.
Proof.
  unfold pa_rule_adopt_get_max_priority. destruct (best_assignment p); [rewrite bool_decide_true by done|rewrite bool_decide_false by tauto];
    by destruct (assigned p), (published p).
Qed.

Lemma kind_match_ok ru o l p m n arg target arg' k : rule_behaves ru -> inv o -> get_ldp o l = Some p ->
  kind_max_priority (rule_of_kind ru) o p = Some m -> m ≠ 0 -> arg_ok arg ->
  kind_match (rule_of_kind ru) (set_pa_randoms n o) p arg = Some (target, arg', k) -> match_ok p target arg' /\ arg_ok arg'.
Proof.
  intros Hr Ho Hp Hm Hm0 Harg. unfold rule_behaves in Hr. pose proof (inv_randoms o n Ho) as Hn. destruct (rule_of_kind ru) as [a|a|a|a]; cbn in *.
  - injection Hm as <-. destruct (adopt_priority_valid a p Hm0) as (H1 & H2 & H3). intros [= <- <- <-]. split; [|exact Harg]. split; [|done].
    intros _. split; [done|]. split; [done|]. split; [done|]. by eexists.
  - intros Hk. eapply (formed_match_ok p _ target arg' k). rewrite <- Hk. by apply (random_match_formed a _ l).
  - intros Hk. eapply (formed_match_ok p _ target arg' k). rewrite <- Hk. eapply answers_formed, (pa_rule_hamming_match_ok a _ l); try done. 
  - by apply static_match_formed.
Qed.

#[export] Instance rules_ext_ok (rules : nat -> pa_rule) (ha : nat -> bool) : (forall r, rule_behaves (rules r)) -> @PaRulesOk PT (rules_ext rules ha).
Proof.
  intros Hr. split.
  - intros r o l p Ho Hp. cbn. destruct (rule_filter (rules r)) as [f|]; [by eapply pa_filter_accept_total|by eexists].
  - intros r o l p Ho Hp. cbn. specialize (Hr r). unfold rule_behaves in Hr. destruct (rule_of_kind (rules r)); try (by eexists). by apply (static_priority_total _ _ l).
  - intros r o l p m n prio arg target arg' k Ho Hp Hm Hm0 Harg Hk. by apply (kind_match_ok (rules r) o l p m n arg target arg' k).
Qed.

End rules_ok.
