(* ===== verification/PaExample.v ===== *)
(** Runs of a core of the prefix assignment, and a core with an adopt and a random
    rule. *)
From S2P Require Import Prelude Bitops Tlv PaTrie PaCore PaFacts PaInv PaPublish PaSteps PaRules PaPick PaRandom PaForms PaRulesOk.

(** ** Runs *)

#[export] Instance pa_advp_eq_dec : EqDecision pa_advp.
Proof. solve_decision. Defined.

#[export] Instance byte_ok_dec b : Decision (byte_ok b).
Proof. unfold byte_ok. apply _. Defined.

#[export] Instance prefix_ok_dec x n : Decision (prefix_ok x n).
Proof. unfold prefix_ok, bytes_ok. apply _. Defined.

Section runs.
Context `{PT : !PrefixTrie pentry, PX : !PaExt}.
Implicit Types (o : pa_core) (op : pa_op).

Definition due o (t : option Z) : bool := match t with Some t => bool_decide (t <= pa_now o) | None => false end.

(** [pa_allowed] as a function. *)
Definition pa_allowedb op o : bool :=
  match op with
  | OpTick t => bool_decide (pa_now o <= t)
  | OpRoutine l => match get_ldp o l with Some p => due o (routine_to p) | None => false end
  | OpBackoff l => match get_ldp o l with Some p => due o (backoff_to p) | None => false end
  | OpDpAdd d => bool_decide (dp_id d ∉ dp_id <$> dps o) && bool_decide (prefix_ok (dp_prefix d) (dp_plen d))
  | OpLinkAdd k => bool_decide (link_id k ∉ link_id <$> links o)
  | OpAdvpAdd a => bool_decide (advp_id a ∉ advp_id <$> advps o) && bool_decide (prefix_ok (advp_prefix a) (advp_plen a))
  | OpAdvpUpdate a =>
    bool_decide (Exists (fun b => advp_id b = advp_id a /\ advp_prefix b = advp_prefix a /\ advp_plen b = advp_plen a) (advps o))
  | OpAdvpDel a => bool_decide (a ∈ advps o)
  | _ => true
  end.

Lemma due_ok o t : due o t = true -> exists u, t = Some u /\ u <= pa_now o.
Proof. destruct t as [u|]; cbn; [|done]. intros H%bool_decide_eq_true. by exists u. Qed.

Lemma pa_allowedb_ok op o : pa_allowedb op o = true -> pa_allowed op o.
Proof.
  destruct op; cbn; try done; try (by intros ?%bool_decide_eq_true).
  1,2: destruct (get_ldp o l) as [p|] eqn:Hp; [|done]; intros (u & Hu & Hle)%due_ok; by exists p, u.
  1,2: intros [H1%bool_decide_eq_true H2%bool_decide_eq_true]%andb_true_iff; done.
  intros (b & Hb & H)%bool_decide_eq_true%Exists_exists. by exists b.
Qed.

(** What happens one after the other, as long as it may. *)
Fixpoint pa_run (ops : list pa_op) o : option pa_core :=
  match ops with
  | [] => Some o
  | op :: ops => if pa_allowedb op o then o ← pa_exec op o; pa_run ops o else None
  end.

Lemma pa_run_reachable ops o o' : pa_reachable o -> pa_run ops o = Some o' -> pa_reachable o'.
Proof.
  revert o. induction ops as [|op ops IH]; intros o Ho; cbn [pa_run]; [by intros [= <-]|].
  destruct (pa_allowedb op o) eqn:Hal; [|done]. destruct (pa_exec op o) as [o1|] eqn:He; cbn [mbind option_bind]; [|done].
  intros Hr. apply (IH o1); [|done]. apply (pa_reach_step op o); [done|by apply pa_allowedb_ok|done].
Qed.

Lemma pa_run_init ops now o : pa_run ops (pa_core_init now) = Some o -> pa_reachable o.
Proof. apply pa_run_reachable. apply pa_reach_init. Qed.

End runs.

(** ** Rules of an example *)

#[export] Instance example_host : PaHost := {|
  pa_random := fun n => 7919 * Z.of_nat n + 104729;
  md5 := fun x => (fun i => (Z.of_nat i * 37 + Z.of_nat (length x)) mod 256) <$> seq 0 16;
  big_endian := false
|}.

#[export] Instance example_host_ok : PaHostOk.
Proof.
  split; [intros n; cbn; lia|]. intros x. cbn [md5 example_host]. split; [|by rewrite length_fmap, length_seq].
  apply Forall_fmap, Forall_forall. intros i _. cbn. unfold byte_ok. apply Z.mod_pos_bound. lia.
Qed.

(** Rule 0 adopts; the others pick among 256 prefixes of length 60, and do so with
    higher priorities. *)
Definition example_random : pa_rule_random :=
  mk_pa_rule_random 10 2 None (fun _ _ _ => 60%nat) None 256 0 [] 0 0 false.

Definition example_rule (r : nat) : pa_rule :=
  match r with
  | O => mk_pa_rule None (RuleAdopt (mk_pa_rule_adopt 20 3))
  | _ => mk_pa_rule (Some (pa_filters_and [pa_filter_type_link 0; pa_filter_ldp None (Some 1%nat)] false)) (RuleRandom example_random)
  end.

#[export] Instance example_ext : PaExt := rules_ext example_rule (fun _ => true).

Lemma example_random_plain : random_plain example_random.
Proof. split; cbn; try done; lia. Qed.

#[export] Instance example_rules_ok : PaRulesOk.
Proof. apply rules_ext_ok. intros [|r]; [done|]. split; [cbn; lia|done]. Qed.

(** ** A core of the example *)

Definition ipv6 (bs : list Z) : list Z := bs ++ replicate (16 - length bs) 0.

Definition example_dp : pa_dp := mk_pa_dp 1 (ipv6 [32; 1; 13; 184]) 48 0 None.
Definition example_user : pa_user := mk_pa_user 0 true true true.
Definition example_link (k : nat) : pa_link := mk_pa_link k 0 None.

(** Another node, 7, advertises 2001:db8:0:10::/60, on the second link or on none. *)
Definition example_advp (prio : Z) (k : option nat) : pa_advp := mk_pa_advp 1 7 (ipv6 [32; 1; 13; 184; 0; 0; 0; 16]) 60 prio k.

(** Two links and a delegated prefix: two pairs. *)
Definition example_setup : list pa_op :=
  [OpUserRegister example_user; OpLinkAdd (example_link 1); OpLinkAdd (example_link 2); OpDpAdd example_dp;
   OpRuleAdd 0%nat; OpRuleAdd 1%nat; OpNodeId 5].

(** Both back off, then publish and apply a prefix of their own. *)
Definition example_publish : list pa_op :=
  [OpTick 20; OpRoutine 0; OpRoutine 1; OpTick 20020; OpBackoff 0; OpBackoff 1].
Definition example_apply : list pa_op := [OpTick 40020; OpBackoff 0; OpBackoff 1].

Definition example_core (ops : list pa_op) : option pa_core := pa_run (example_setup ++ ops) (pa_core_init 0).
