(* ===== verification/PaProps.v ===== *)
(** What the prefix assignment guarantees, with the flaws that modelling it showed. *)
From S2P Require Import Prelude Bitops Tlv BtrieBits BtrieWf BtrieIter BtrieFree BtrieEach PaTrie PaCore PaFacts PaInv PaPublish PaCheck PaRoutine PaPairs PaAdvertise PaSettings PaSteps PaRules PaPick PaRandom PaHamming PaOverride PaForms PaRulesOk PaExample.

Section props.
Context `{PT : !PrefixTrie pentry, PTO : !PrefixTrieOk pentry, PX : !PaExt, PR : !PaRulesOk}.
Implicit Types (o : pa_core) (l : nat) (p : pa_ldp).

(** C2: In every state a prefix assignment core reaches by time passing, timers that fire, and
    changes of delegated prefixes, links, advertised prefixes, rules, users and settings:
    the trie holds exactly the prefixes of the assigned pairs and of the other nodes, each
    under its own bits; a published, adopted or applied prefix is assigned; published
    excludes adopting; a pair has a rule, one of the core's, exactly while it is published
    or being adopted; pairs point to links and delegated prefixes that are there; and
    callbacks on publication and application are made while the prefix is assigned. *)
Theorem pa_core_invariant o : pa_reachable o -> inv o.
Proof. intros H. apply (pa_reachable_safe o H). Qed.

(** C18: In a reachable core there is exactly one pair for every link and every delegated
    prefix, except where the delegated prefix belongs to another link of the parent core,
    and no other pair. *)
Theorem pa_pairs_exact o : pa_reachable o -> pairs o.
Proof. intros H. apply (pa_reachable_safe o H). Qed.

(** C3: In a reachable core no two pairs publish, or are about to publish, prefixes that
    overlap. *)
Theorem pa_published_disjoint o l1 l2 p1 p2 : pa_reachable o -> l1 ≠ l2 -> get_ldp o l1 = Some p1 -> get_ldp o l2 = Some p2 ->
  published p1 || adopting p1 = true -> published p2 || adopting p2 = true ->
  ~ overlap (bits (ldp_prefix p1) 0 (ldp_plen p1)) (bits (ldp_prefix p2) 0 (ldp_plen p2)).
Proof. intros Ho. by apply (pa_reachable_safe o Ho). Qed.

(** C15: In a reachable core everything that may happen has a defined result: all loops end and
    nothing is read or written out of bounds, but for a routine in which one of the rules it
    asks, in the state and with the arguments it passes, has no defined answer itself, or in
    which pa_ldp_global_valid takes the prefix of another pair for an advertised one. *)
Theorem pa_progress op o : pa_reachable o -> pa_allowed op o -> is_Some (pa_exec op o) \/ pa_undefined op o.
Proof.
  intros Ho Hal. pose proof (pa_exec_ok op o (pa_reachable_safe o Ho) Hal) as H. destruct (pa_exec op o); [left; by eexists|by right].
Qed.

(** C10: What the routine of a pair does: with the best prefix advertised on the link, if it
    takes precedence, the pair ends with that prefix, or with one that a rule has just
    published; without, it ends with a prefix that is published or being adopted, or with
    none; a prefix it publishes overlaps that of no other pair; and no other pair gains a
    prefix. It is undefined only when pa_ldp_global_valid meets another pair or a rule
    fails. *)
Theorem pa_routine_settles l fb o p : inv o -> get_ldp o l = Some p ->
  match pa_routine l fb o with
  | Some o' => exists best p', routine_best o p best /\ inv o' /\ skel o' = skel o /\ shrinks_but l o o' /\ get_ldp o' l = Some p' /\ settled l best o' p'
  | None => routine_best o p None /\ confused o p \/ breaks l fb o
  end.
Proof. apply pa_routine_ok. Qed.

End props.

Section rule_props.
Context `{PT : !PrefixTrie pentry, PTO : !PrefixTrieOk pentry, HO : !PaHost, HOK : !PaHostOk}.
Implicit Types (o : pa_core) (l : nat) (p : pa_ldp).

(** C20: The answer of the random rule, with any number of pseudo-random tentatives and any
    override priorities: a backoff exactly before one has passed; then a prefix of the
    desired length inside the delegated prefix or the pool of the callback that overlaps no
    prefix of the core, or, when there is no candidate and there are override priorities,
    one inside a prefix of the core such that these priorities beat the pair and every
    prefix it overlaps; or nothing, if the callback for the pool fails, the one for prefixes
    may refuse, or there is no candidate and no prefix can be overridden. It is undefined
    only when a free space has exactly the desired length and that is a number of bytes, or
    when a prefix is overridden that has, or is more than 32 bits shorter, or the set size
    is 0. The callbacks are assumed to return lengths of up to 128 bits, and the set size
    has 16 bits. *)
Theorem pa_rule_random_free r o l p arg : random_plain r -> inv o -> get_ldp o l = Some p -> arg_ok arg ->
  random_answers r o p (pa_rule_random_match r o p arg).
Proof. apply pa_rule_random_match_ok. Qed.

(** C19: The hamming rule answers with a backoff, with nothing, or with a prefix of the desired
    length inside the delegated prefix or the pool of the callback that overlaps no prefix
    of the core; it is undefined only when a free space has exactly the desired length and
    that is a number of bytes, or when there is no candidate. *)
Theorem pa_rule_hamming_free r o l p arg : hamming_plain r -> inv o -> get_ldp o l = Some p -> arg_ok arg ->
  answers (ham_subprefix_cb r) (ham_desired_plen_cb r o p) o p (ham_rule_priority r)
    (exact_available (ham_subprefix_cb r) (ham_desired_plen_cb r o p) o p \/
     no_candidate (ham_subprefix_cb r) (ham_desired_plen_cb r o p) (ham_set_size r) o p)
    (pa_rule_hamming_match r o p arg).
Proof. apply pa_rule_hamming_match_ok. Qed.

(** C40: pa_rule_valid_assignment returns, and says exactly whether the given priorities beat
    those of the pair itself and of every prefix that overlaps the one asked for. *)
Theorem pa_valid_assignment_exact o p pfx plen rprio prio safety : inv o -> prefix_ok pfx plen ->
  exists b, pa_rule_valid_assignment o p pfx plen rprio prio safety = Some b /\
    (b = true <-> self_allows p rprio prio safety /\
       forall x e, (x, e) ∈ pt_entries (prefixes o) -> overlap (bits pfx 0 plen) x -> entry_allows o rprio prio safety e).
Proof. apply pa_rule_valid_assignment_ok. Qed.

End rule_props.

(** ** Witnesses *)

(** What holds of the core after [ops]. *)
Definition after_ops (ops : list pa_op) (P : pa_core -> Prop) : Prop := exists o, example_core ops = Some o /\ P o.

(** A pair of it, as a value. *)
Definition pair_of (ops : list pa_op) (l : nat) : option pa_ldp := o ← example_core ops; get_ldp o l.

Lemma after_ops_intro ops (P : pa_core -> Prop) : (if example_core ops then true else false) = true ->
  (forall o, example_core ops = Some o -> pa_reachable o -> P o) -> after_ops ops P.
Proof.
  intros H HP. unfold after_ops. destruct (example_core ops) as [o|] eqn:Ho; [|done]. exists o. split; [done|]. apply HP; [done|]. by eapply pa_run_init.
Qed.

Lemma pair_of_get ops l p o : example_core ops = Some o -> pair_of ops l = Some p -> get_ldp o l = Some p.
Proof. unfold pair_of. by intros ->. Qed.

Lemma pa_core_invariant_witness : after_ops (example_publish ++ example_apply) inv.
Proof. apply after_ops_intro; [vm_compute; reflexivity|]. intros o _ Ho. by apply pa_core_invariant. Defined.

Lemma pa_pairs_exact_witness : after_ops example_publish pairs.
Proof. apply after_ops_intro; [vm_compute; reflexivity|]. intros o _ Ho. by apply pa_pairs_exact. Defined.

Lemma pa_published_disjoint_witness : exists p1 p2, pair_of example_publish 0 = Some p1 /\ pair_of example_publish 1 = Some p2 /\
  after_ops example_publish (fun o => ~ overlap (bits (ldp_prefix p1) 0 (ldp_plen p1)) (bits (ldp_prefix p2) 0 (ldp_plen p2))).
Proof.
  eexists _, _. split; [vm_compute; reflexivity|]. split; [vm_compute; reflexivity|]. apply after_ops_intro; [vm_compute; reflexivity|].
  intros o He Ho. eapply (pa_published_disjoint o 0 1); [done|done|eapply pair_of_get; [done|vm_compute; reflexivity]|eapply pair_of_get; [done|vm_compute; reflexivity]|done|done].
Defined.

(** Another node advertises a prefix on the second link. *)
Definition example_op : pa_op := OpAdvpAdd (example_advp 3 (Some 2%nat)).

Lemma example_allowed ops op o : example_core ops = Some o -> match example_core ops with Some o => pa_allowedb op o | None => false end = true -> pa_allowed op o.
Proof. intros ->. apply pa_allowedb_ok. Qed.

Lemma pa_progress_witness : after_ops example_publish (fun o => is_Some (pa_exec example_op o) \/ pa_undefined example_op o).
Proof.
  apply after_ops_intro; [vm_compute; reflexivity|]. intros o He Ho. apply pa_progress; [done|].
  eapply example_allowed; [exact He|]. vm_compute. reflexivity.
Defined.

Definition example_accept : list pa_op := example_publish ++ [example_op; OpTick 20040].

Lemma pa_routine_settles_witness : exists p, pair_of example_accept 1 = Some p /\ after_ops example_accept (fun o =>
  match pa_routine 1 false o with
  | Some o' => exists best p', routine_best o p best /\ inv o' /\ skel o' = skel o /\ shrinks_but 1 o o' /\ get_ldp o' 1 = Some p' /\ settled 1 best o' p'
  | None => routine_best o p None /\ confused o p \/ breaks 1 false o
  end).
Proof.
  eexists. split; [vm_compute; reflexivity|]. apply after_ops_intro; [vm_compute; reflexivity|]. intros o He Ho.
  apply pa_routine_settles; [by apply pa_reachable_safe|]. eapply pair_of_get; [exact He|]. vm_compute. reflexivity.
Defined.

Definition example_hamming : pa_rule_hamming := mk_pa_rule_hamming None (fun _ _ _ => 60%nat) 10 2 [1; 2; 3] 256.
Definition example_arg : pa_rule_arg := mk_pa_rule_arg None None None.

Lemma example_arg_ok : arg_ok example_arg.
Proof. intros ? ? ?. discriminate. Qed.

Lemma example_hamming_plain : hamming_plain example_hamming.
Proof. split; cbn; [lia|done|lia]. Qed.

(** A rule with pseudo-random rounds, and one that may only use a prefix that the other
    node advertises. *)
Definition example_prandom : pa_rule_random :=
  pa_rule_random_prandconf 4 [1; 2; 3] (mk_pa_rule_random 10 2 None (fun _ _ _ => 60%nat) None 4000 0 [] 0 0 false).
Definition example_override : pa_rule_random :=
  mk_pa_rule_random 10 2 (Some (fun _ _ => Some (ipv6 [32; 1; 13; 184; 0; 0; 0; 16], 60%nat))) (fun _ _ _ => 62%nat) None 256 4 [1; 2; 3] 30 5 true.

Lemma example_override_plain : random_plain example_override.
Proof. split; cbn; [lia|intros f o p sub subplen [= <-] [= <- <-]; decided|lia]. Qed.

Definition example_taken : list pa_op := example_publish ++ [example_op].

Lemma pa_rule_random_free_witness : exists p, pair_of example_taken 0 = Some p /\ backoff p = true /\ after_ops example_taken (fun o =>
  random_answers example_override o p (pa_rule_random_match example_override o p example_arg)).
Proof.
  eexists. split; [vm_compute; reflexivity|]. split; [reflexivity|]. apply after_ops_intro; [vm_compute; reflexivity|]. intros o He Ho.
  apply (pa_rule_random_free example_override o 0); [apply example_override_plain|apply (pa_reachable_safe o Ho)| |apply example_arg_ok].
  eapply pair_of_get; [exact He|]. vm_compute. reflexivity.
Defined.

Lemma pa_rule_hamming_free_witness : exists p, pair_of example_publish 0 = Some p /\ backoff p = true /\ after_ops example_publish (fun o =>
  answers (ham_subprefix_cb example_hamming) (ham_desired_plen_cb example_hamming o p) o p (ham_rule_priority example_hamming)
    (exact_available (ham_subprefix_cb example_hamming) (ham_desired_plen_cb example_hamming o p) o p \/
     no_candidate (ham_subprefix_cb example_hamming) (ham_desired_plen_cb example_hamming o p) (ham_set_size example_hamming) o p)
    (pa_rule_hamming_match example_hamming o p example_arg)).
Proof.
  eexists. split; [vm_compute; reflexivity|]. split; [reflexivity|]. apply after_ops_intro; [vm_compute; reflexivity|]. intros o He Ho.
  apply (pa_rule_hamming_free example_hamming o 0); [apply example_hamming_plain|apply (pa_reachable_safe o Ho)| |apply example_arg_ok].
  eapply pair_of_get; [exact He|]. vm_compute. reflexivity.
Defined.

Lemma pa_valid_assignment_exact_witness : exists p, pair_of example_publish 0 = Some p /\ after_ops example_publish (fun o =>
  exists b, pa_rule_valid_assignment o p (ipv6 [32; 1; 13; 184; 0; 0; 14]) 56 20 2 true = Some b /\
    (b = true <-> self_allows p 20 2 true /\
       forall x e, (x, e) ∈ pt_entries (prefixes o) -> overlap (bits (ipv6 [32; 1; 13; 184; 0; 0; 14]) 0 56) x -> entry_allows o 20 2 true e)).
Proof.
  eexists. split; [vm_compute; reflexivity|]. apply after_ops_intro; [vm_compute; reflexivity|]. intros o He Ho.
  apply pa_valid_assignment_exact; [by apply pa_reachable_safe|]. decided.
Defined.

(** The random and the hamming rule do find a prefix. *)
Example random_finds : (o ← example_core example_publish; p ← get_ldp o 0; '(target, arg, _) ← pa_rule_random_match example_random o p example_arg;
  Some (target, arg_prefix arg)) = Some (PA_RULE_PUBLISH, Some (ipv6 [32; 1; 13; 184; 0; 0; 13; 80], 60%nat)).
Proof. vm_compute. reflexivity. Qed.

(** So do the pseudo-random rounds, and overriding. *)
Example prandom_finds : (o ← example_core example_publish; p ← get_ldp o 0; '(target, arg, n) ← pa_rule_random_match example_prandom o p example_arg;
  Some (target, arg_prefix arg, bool_decide (n = pa_randoms o))) = Some (PA_RULE_PUBLISH, Some (ipv6 [32; 1; 13; 184; 0; 0; 233], 60%nat), true).
Proof. vm_compute. reflexivity. Qed.

Example override_finds : (o ← example_core example_taken; p ← get_ldp o 0; '(target, arg, _) ← pa_rule_random_match example_override o p example_arg;
  Some (target, arg_prefix arg)) = Some (PA_RULE_PUBLISH, Some (ipv6 [32; 1; 13; 184; 0; 0; 0; 20], 62%nat)).
Proof. vm_compute. reflexivity. Qed.

(** ** Flaws *)

Lemma example_undefined ops op o : example_core ops = Some o ->
  match example_core ops with Some o => if pa_exec op o then false else true | None => false end = true -> pa_exec op o = None.
Proof. intros ->. by destruct (pa_exec op o). Qed.

(** Another node advertises the prefix of the first pair on the second link, with a
    lower priority than the pair's. *)
Definition example_same (k : nat) : pa_op := OpAdvpAdd (mk_pa_advp 1 7 (ipv6 [32; 1; 13; 184; 0; 0; 15; 112]) 60 1 (Some k)).

(** Without overlapping delegated prefixes a core is reached in which a routine is due and has
    no defined result: a node advertises the prefix of one pair on the link of another,
    which accepts it, and the check of the first reads the second pair as an advertised
    prefix. *)
Lemma pa_global_valid_confused :
  after_ops [OpTick 20; OpRoutine 0; OpRoutine 1; OpTick 20020; OpBackoff 0; example_same 2; OpTick 20040; OpRoutine 1]
    (fun o => pa_allowed (OpRoutine 0) o /\ pa_exec (OpRoutine 0) o = None).
Proof.
  apply after_ops_intro; [vm_compute; reflexivity|]. intros o He _. split; [eapply example_allowed; [exact He|]; vm_compute; reflexivity|].
  eapply example_undefined; [exact He|]. vm_compute. reflexivity.
Qed.

(** [pa_rule_del] stops the timer after which a prefix is applied.  When the pair keeps
    the prefix, because another node advertises it, it is not started again. *)
Lemma pa_apply_timer_lost : exists p,
  pair_of (example_publish ++ [example_same 1; OpRuleDel 1%nat; OpTick 20040; OpRoutine 0]) 0 = Some p /\
  assigned p = true /\ applied p = false /\ routine_to p = None /\ backoff_to p = None.
Proof. eexists. split; [vm_compute; reflexivity|]. by repeat split. Qed.

(** A static rule that asks for a backoff does not say with what priority: when no
    other rule has, the core compares an indeterminate value. *)
Lemma pa_static_backoff_unset `{PT : !PrefixTrie pentry, HO : !PaHost} (rules : nat -> pa_rule) (ha : nat -> bool) (s : pa_rule_static) r m (o : pa_core) p :
  rule_of_kind (rules r) = RuleStatic s -> 0 < m -> backoff p = false -> best_assignment p = None ->
  @best_rule _ (rules_ext rules ha) o p [(r, m)] 0 (mk_pa_rule_arg None None None) None = None.
Proof.
  intros Hr Hm Hb Hbest. cbn [best_rule]. rewrite decide_False by lia. cbn [rule_match rules_ext kind_match]. rewrite Hr. cbn [kind_match].
  unfold pa_rule_static_match. rewrite Hb, Hbest. cbn. done.
Qed.
