(* ===== verification/PaStore.v ===== *)
(** The store of applied prefixes: the model of [src/pa_store.c] and [src/pa_store.h].

    Links and cached prefixes are memory cells: [link_mem] and [prefix_mem] map
    addresses to the structures, a freed cell is not in the map, and reading it is
    [None].  A prefix is in two lists at once, the one of the store ([in_store]) and
    the one of its link ([in_link]), as lists of addresses.  A link does not know its
    prefixes by name and a prefix has no pointer to its link: the code finds the link
    as the container of the list head after the last element, which [link_after]
    does.  Files are byte strings by path.  What [malloc], [fopen] and [fprintf]
    return is a parameter, by the number of calls made so far. *)
From S2P Require Import Prelude Bitops Prefix Tlv PaTrie PaCore PaRules.

(** ** Structures *)

(** The address of a link: provided by a user of the store, or allocated by it. *)
Inductive link_ptr := UserLink (n : nat) | OwnLink (n : nat).

#[global] Instance link_ptr_eq_dec : EqDecision link_ptr.
Proof. solve_decision. Defined.

#[global] Instance link_ptr_countable : Countable link_ptr.
Proof.
  apply (inj_countable' (fun k => match k with UserLink n => inl n | OwnLink n => inr n end)
    (fun s => match s with inl n => UserLink n | inr n => OwnLink n end)). by intros [].
Defined.

(** [struct pa_store_link].  [sl_prefixes] is [None] for a list head whose elements
    were spliced into another list without initialising it again. *)
Record pa_store_link := mk_pa_store_link {
  sl_link : option nat;
  sl_name : list Z;
  sl_max_prefixes : Z;
  sl_prefixes : option (list nat);
  sl_n_prefixes : Z
}.

Definition set_sl_prefixes (v : option (list nat)) (x : pa_store_link) : pa_store_link := mk_pa_store_link (sl_link x) (sl_name x) (sl_max_prefixes x) v (sl_n_prefixes x).
Definition set_sl_n_prefixes (v : Z) (x : pa_store_link) : pa_store_link := mk_pa_store_link (sl_link x) (sl_name x) (sl_max_prefixes x) (sl_prefixes x) v.

(** [struct pa_store_prefix]. *)
Record pa_store_prefix := mk_pa_store_prefix {
  sp_prefix : list Z;
  sp_plen : nat
}.

(** [struct pa_store], with the memory, the files, the clock and the number of calls
    of the host made so far.  A timer is the time at which it fires, if pending. *)
Record pa_store := mk_pa_store {
  st_links : list link_ptr;
  st_prefixes : list nat;
  st_max_prefixes : Z;
  st_n_prefixes : Z;
  st_filepath : option (list Z);
  pending_changes : bool;
  save_delay : Z;
  save_timer : option Z;
  token_count : Z;
  token_delay : Z;
  token_timer : option Z;
  link_mem : gmap link_ptr pa_store_link;
  prefix_mem : gmap nat pa_store_prefix;
  st_files : gmap (list Z) (list Z);
  st_now : Z;
  st_calls : nat
}.

Definition set_st_links (v : list link_ptr) (x : pa_store) : pa_store := mk_pa_store v (st_prefixes x) (st_max_prefixes x) (st_n_prefixes x) (st_filepath x) (pending_changes x) (save_delay x) (save_timer x) (token_count x) (token_delay x) (token_timer x) (link_mem x) (prefix_mem x) (st_files x) (st_now x) (st_calls x).
Definition set_st_prefixes (v : list nat) (x : pa_store) : pa_store := mk_pa_store (st_links x) v (st_max_prefixes x) (st_n_prefixes x) (st_filepath x) (pending_changes x) (save_delay x) (save_timer x) (token_count x) (token_delay x) (token_timer x) (link_mem x) (prefix_mem x) (st_files x) (st_now x) (st_calls x).
Definition set_st_n_prefixes (v : Z) (x : pa_store) : pa_store := mk_pa_store (st_links x) (st_prefixes x) (st_max_prefixes x) v (st_filepath x) (pending_changes x) (save_delay x) (save_timer x) (token_count x) (token_delay x) (token_timer x) (link_mem x) (prefix_mem x) (st_files x) (st_now x) (st_calls x).
Definition set_st_filepath (v : option (list Z)) (x : pa_store) : pa_store := mk_pa_store (st_links x) (st_prefixes x) (st_max_prefixes x) (st_n_prefixes x) v (pending_changes x) (save_delay x) (save_timer x) (token_count x) (token_delay x) (token_timer x) (link_mem x) (prefix_mem x) (st_files x) (st_now x) (st_calls x).
Definition set_pending_changes (v : bool) (x : pa_store) : pa_store := mk_pa_store (st_links x) (st_prefixes x) (st_max_prefixes x) (st_n_prefixes x) (st_filepath x) v (save_delay x) (save_timer x) (token_count x) (token_delay x) (token_timer x) (link_mem x) (prefix_mem x) (st_files x) (st_now x) (st_calls x).
Definition set_save_delay (v : Z) (x : pa_store) : pa_store := mk_pa_store (st_links x) (st_prefixes x) (st_max_prefixes x) (st_n_prefixes x) (st_filepath x) (pending_changes x) v (save_timer x) (token_count x) (token_delay x) (token_timer x) (link_mem x) (prefix_mem x) (st_files x) (st_now x) (st_calls x).
Definition set_save_timer (v : option Z) (x : pa_store) : pa_store := mk_pa_store (st_links x) (st_prefixes x) (st_max_prefixes x) (st_n_prefixes x) (st_filepath x) (pending_changes x) (save_delay x) v (token_count x) (token_delay x) (token_timer x) (link_mem x) (prefix_mem x) (st_files x) (st_now x) (st_calls x).
Definition set_token_count (v : Z) (x : pa_store) : pa_store := mk_pa_store (st_links x) (st_prefixes x) (st_max_prefixes x) (st_n_prefixes x) (st_filepath x) (pending_changes x) (save_delay x) (save_timer x) v (token_delay x) (token_timer x) (link_mem x) (prefix_mem x) (st_files x) (st_now x) (st_calls x).
Definition set_token_delay (v : Z) (x : pa_store) : pa_store := mk_pa_store (st_links x) (st_prefixes x) (st_max_prefixes x) (st_n_prefixes x) (st_filepath x) (pending_changes x) (save_delay x) (save_timer x) (token_count x) v (token_timer x) (link_mem x) (prefix_mem x) (st_files x) (st_now x) (st_calls x).
Definition set_token_timer (v : option Z) (x : pa_store) : pa_store := mk_pa_store (st_links x) (st_prefixes x) (st_max_prefixes x) (st_n_prefixes x) (st_filepath x) (pending_changes x) (save_delay x) (save_timer x) (token_count x) (token_delay x) v (link_mem x) (prefix_mem x) (st_files x) (st_now x) (st_calls x).
Definition set_link_mem (v : gmap link_ptr pa_store_link) (x : pa_store) : pa_store := mk_pa_store (st_links x) (st_prefixes x) (st_max_prefixes x) (st_n_prefixes x) (st_filepath x) (pending_changes x) (save_delay x) (save_timer x) (token_count x) (token_delay x) (token_timer x) v (prefix_mem x) (st_files x) (st_now x) (st_calls x).
Definition set_prefix_mem (v : gmap nat pa_store_prefix) (x : pa_store) : pa_store := mk_pa_store (st_links x) (st_prefixes x) (st_max_prefixes x) (st_n_prefixes x) (st_filepath x) (pending_changes x) (save_delay x) (save_timer x) (token_count x) (token_delay x) (token_timer x) (link_mem x) v (st_files x) (st_now x) (st_calls x).
Definition set_st_files (v : gmap (list Z) (list Z)) (x : pa_store) : pa_store := mk_pa_store (st_links x) (st_prefixes x) (st_max_prefixes x) (st_n_prefixes x) (st_filepath x) (pending_changes x) (save_delay x) (save_timer x) (token_count x) (token_delay x) (token_timer x) (link_mem x) (prefix_mem x) v (st_now x) (st_calls x).
Definition set_st_calls (v : nat) (x : pa_store) : pa_store := mk_pa_store (st_links x) (st_prefixes x) (st_max_prefixes x) (st_n_prefixes x) (st_filepath x) (pending_changes x) (save_delay x) (save_timer x) (token_count x) (token_delay x) (token_timer x) (link_mem x) (prefix_mem x) (st_files x) (st_now x) v.

(** The bytes of a string constant. *)
Fixpoint text (s : string) : list Z :=
  match s with EmptyString => [] | String c s => Z.of_nat (Ascii.nat_of_ascii c) :: text s end.

Definition PA_STORE_NAMELEN : nat := 50.
Definition PA_STORE_PREFIX : list Z := text "prefix".
Definition PA_STORE_WTOKEN : list Z := text "write_tokens".
Definition newline : Z := 10.
Definition PA_STORE_BANNER : list Z :=
  text "# Prefix Assignment Algorithm Storage Module File." ++ [newline] ++
  text "# This file was generated automatically." ++ [newline] ++
  text "# Do not modify unless you know what you are doing." ++ [newline] ++
  text "# Do not modify while the process is running as" ++ [newline] ++
  text "# modifications will be overridden." ++ [newline; newline].
Definition PA_STORE_WTOKENS_DEFAULT : Z := 10.
Definition PA_STORE_WTOKENS_MAX : Z := 100.
Definition PA_PREFIX_STRLEN : nat := (INET6_ADDRSTRLEN + 4)%nat.

(** What the store asks from its host: the memory that the n-th call gets from
    [malloc], if any, with what the 16 bytes of a prefix in it happen to be; whether
    the n-th call can open a file, or write to it; and the texts of addresses. *)
Class StoreHost := {
  store_malloc : nat -> option (list Z);
  fopen_ok : nat -> bool;
  fprintf_ok : nat -> bool;
  store_text : af -> list Z -> list Z;
  store_pton : af -> list Z -> option (list Z)
}.

Section store.
Context `{SH : !StoreHost}.
Implicit Types (st : pa_store) (k : link_ptr) (p : nat).

Definition called st : pa_store := set_st_calls (S (st_calls st)) st.

Definition put_link k (l : pa_store_link) st : pa_store := set_link_mem (<[k := l]> (link_mem st)) st.

(** [list_del]. *)
Definition without {A} `{EqDecision A} (x : A) (l : list A) : list A := filter (fun y => y ≠ x) l.

(** [uloop_timeout_set]: the argument is an [int]. *)
Definition store_timeout_at st (msecs : Z) : option Z := Some (st_now st + i32 msecs).

(** ** Links *)

(** The first link of the list for which [P] holds. *)
Fixpoint find_link (P : pa_store_link -> bool) st (ks : list link_ptr) : option (option link_ptr) :=
  match ks with
  | [] => Some None
  | k :: ks => l ← link_mem st !! k; if P l then Some (Some k) else find_link P st ks
  end.

Definition named (name : list Z) (l : pa_store_link) : bool := bool_decide (sl_name l = name).
Definition on_link (k : option nat) (l : pa_store_link) : bool := bool_decide (sl_link l = k).

(** Get or create; [strcpy] writes into [PA_STORE_NAMELEN] bytes. *)
Definition pa_store_link_goc st (name : list Z) (create : bool) : option (pa_store * option link_ptr) :=
  found ← find_link (named name) st (st_links st);
  match found with
  | Some k => Some (st, Some k)
  | None =>
    if negb create then Some (st, None)
    else
      match store_malloc (st_calls st) with
      | None => Some (called st, None)
      | Some _ =>
        if decide (PA_STORE_NAMELEN <= length name)%nat then None
        else
          let k := OwnLink (st_calls st) in
          Some (set_st_links (k :: st_links st) (put_link k (mk_pa_store_link None name 0 (Some []) 0) (called st)), Some k)
      end
  end.

Definition pa_store_private_link_destroy k st : pa_store :=
  set_st_links (without k (st_links st)) (set_link_mem (delete k (link_mem st)) st).

(** ** Changes *)

Definition pa_store_updated st : pa_store :=
  let st := set_pending_changes true st in
  if bool_decide (is_Some (st_filepath st)) && bool_decide (token_count st ≠ 0) && bool_decide (save_timer st = None)
  then set_save_timer (store_timeout_at st (save_delay st)) st
  else st.

Definition pa_store_uncache k p st : option pa_store :=
  l ← link_mem st !! k;
  ps ← sl_prefixes l;
  let l := set_sl_n_prefixes (u32 (sl_n_prefixes l - 1)) (set_sl_prefixes (Some (without p ps)) l) in
  let st := set_st_n_prefixes (u32 (st_n_prefixes st - 1)) (set_st_prefixes (without p (st_prefixes st)) (put_link k l st)) in
  let st := if bool_decide (sl_n_prefixes l = 0) && bool_decide (sl_link l = None) then pa_store_private_link_destroy k st else st in
  _ ← prefix_mem st !! p;
  Some (pa_store_updated (set_prefix_mem (delete p (prefix_mem st)) st)).

(** The last prefix of a link. *)
Definition last_of st k : option nat := l ← link_mem st !! k; ps ← sl_prefixes l; last ps.

Definition pa_store_uncache_last_from_link k st : option pa_store :=
  p ← last_of st k;
  pa_store_uncache k p st.

(** [list_entry(p->in_link.next, struct pa_store_link, prefixes)]: a link only when [p]
    is the last element of its list. *)
Definition link_after st p : option link_ptr :=
  snd <$> list_find (fun k => last_of st k = Some p) (st_links st).

Definition pa_store_uncache_last_from_store st : option pa_store :=
  p ← last (st_prefixes st);
  k ← link_after st p;
  pa_store_uncache k p st.

(** ** Caching *)

(** The first prefix of the list that is the given one. *)
Fixpoint find_prefix st (ps : list nat) (prefix : list Z) (plen : nat) : option (option nat) :=
  match ps with
  | [] => Some None
  | p :: ps =>
    e ← prefix_mem st !! p;
    same ← pa_prefix_equals prefix plen (sp_prefix e) (sp_plen e);
    if same : bool then Some (Some p) else find_prefix st ps prefix plen
  end.

Definition pa_store_cache k (prefix : list Z) (plen : nat) st : option (pa_store * Z) :=
  l ← link_mem st !! k;
  ps ← sl_prefixes l;
  found ← find_prefix st ps prefix plen;
  match found with
  | Some p =>
    let st := set_st_prefixes (p :: without p (st_prefixes st)) st in
    if decide (ps !! 0%nat = Some p) then Some (st, 0)
    else Some (pa_store_updated (put_link k (set_sl_prefixes (Some (p :: without p ps)) l) st), 0)
  | None =>
    match store_malloc (st_calls st) with
    | None => Some (called st, -1)
    | Some mem =>
      let p := st_calls st in
      let st := called st in
      x ← pa_prefix_cpy prefix plen mem;
      let st := set_prefix_mem (<[p := mk_pa_store_prefix x plen]> (prefix_mem st)) st in
      let l := set_sl_n_prefixes (u32 (sl_n_prefixes l + 1)) (set_sl_prefixes (Some (p :: ps)) l) in
      let st := set_st_n_prefixes (u32 (st_n_prefixes st + 1)) (set_st_prefixes (p :: st_prefixes st) (put_link k l st)) in
      st ← (if bool_decide (sl_max_prefixes l ≠ 0) && bool_decide (sl_max_prefixes l < sl_n_prefixes l)
            then pa_store_uncache_last_from_link k st else Some st);
      st ← (if bool_decide (st_max_prefixes st ≠ 0) && bool_decide (st_max_prefixes st < st_n_prefixes st)
            then pa_store_uncache_last_from_store st else Some st);
      Some (pa_store_updated st, 0)
    end
  end.

(** The callback of a user of the core. *)
Definition pa_store_applied_cb (ldp : pa_ldp) st : option pa_store :=
  if negb (applied ldp) then Some st
  else
    found ← find_link (on_link (Some (ldp_link ldp))) st (st_links st);
    match found with
    | None => Some st
    | Some k => fst <$> pa_store_cache k (ldp_prefix ldp) (ldp_plen ldp) st
    end.

(** [while(l->n_prefixes > l->max_prefixes) pa_store_uncache_last_from_link(store, l)]:
    every round removes one element. *)
Fixpoint trim_link (fuel : nat) k st : option pa_store :=
  l ← link_mem st !! k;
  if decide (sl_max_prefixes l < sl_n_prefixes l) then
    match fuel with
    | O => None
    | S fuel => st ← pa_store_uncache_last_from_link k st; trim_link fuel k st
    end
  else Some st.

(** [if(l->max_prefixes) while ...], with one round for each element of the list. *)
Definition pa_store_trim k st : option pa_store :=
  l ← link_mem st !! k;
  ps ← sl_prefixes l;
  if decide (sl_max_prefixes l = 0) then Some st else trim_link (length ps) k st.

(** [list_splice] of the list of a link that stays as it is. *)
Definition spliced (l : pa_store_link) : pa_store_link :=
  if decide (sl_prefixes l = Some []) then l else set_sl_prefixes None l.

(** [link] is the structure at [k], with the fields its user has set; a link that is in
    the list already would end up in it twice. *)
Definition pa_store_link_add k (link : pa_store_link) st : option pa_store :=
  if decide (k ∈ st_links st) then None
  else
    let link := set_sl_n_prefixes 0 (set_sl_prefixes (Some []) link) in
    let st := put_link k link st in
    '(st, found) ← pa_store_link_goc st (sl_name link) false;
    st ← match found with
         | None => Some st
         | Some kl =>
           l ← link_mem st !! kl;
           ps ← sl_prefixes l;
           let st := put_link k (set_sl_n_prefixes (sl_n_prefixes l) (set_sl_prefixes (Some ps) link)) st in
           let st := if decide (sl_link l = None) then pa_store_private_link_destroy kl st else put_link kl (spliced l) st in
           pa_store_trim k st
         end;
    Some (set_st_links (k :: st_links st) st).

(** The last loop reads the next element from the one it has just freed. *)
Definition pa_store_link_remove k st : option pa_store :=
  link ← link_mem st !! k;
  let st := set_st_links (without k (st_links st)) (set_link_mem (delete k (link_mem st)) st) in
  if decide (sl_n_prefixes link = 0) then Some st
  else
    ps ← sl_prefixes link;
    '(st, found) ← (if decide (sl_name link = []) then Some (st, None) else pa_store_link_goc st (sl_name link) true);
    match found with
    | Some kl =>
      l ← link_mem st !! kl;
      psl ← sl_prefixes l;
      pa_store_trim kl (put_link kl (set_sl_n_prefixes (sl_n_prefixes link) (set_sl_prefixes (Some (ps ++ psl)) l)) st)
    | None =>
      match ps with
      | [] => Some (pa_store_updated st)
      | _ :: _ => None
      end
    end.

(** ** Files *)

(** The lines that [getline] returns, with their newline. *)
Fixpoint getlines (s : list Z) : list (list Z) :=
  match s with
  | [] => []
  | c :: s =>
    if decide (c = newline) then [c] :: getlines s
    else match getlines s with [] => [[c]] | l :: ls => (c :: l) :: ls end
  end.

Definition is_space (c : Z) : bool := bool_decide (c = 32 \/ c = newline \/ c = 9).

(** The loop of [pa_store_getwords]: [cur] is the word being read, if any. *)
Fixpoint getwords_loop (line : list Z) (cur : option (list Z)) (words : list (list Z)) : list (list Z) :=
  match line with
  | [] => words ++ option_list cur
  | c :: line =>
    if decide (c = 0) then words ++ option_list cur
    else if is_space c then getwords_loop line None (words ++ option_list cur)
    else getwords_loop line (Some (default [] cur ++ [c])) words
  end.

(** The words of a line, as many as the array has room for; the others are [NULL]. *)
Definition pa_store_getwords (line : list Z) (nwords : nat) : list (list Z) := take nwords (getwords_loop line None []).

Fixpoint take_digits (s : list Z) : list Z :=
  match s with c :: s => if is_digit c then c :: take_digits s else [] | [] => [] end.

(** [sscanf] with [SCNu32], as [strtoul] reads: a sign, digits, the largest number when
    there are too many; then cut to 32 bits. *)
Definition scan_u32 (s : list Z) : option Z :=
  let '(minus, s) := match s with
                     | c :: s' => if decide (c = 43) then (false, s') else if decide (c = 45) then (true, s') else (false, s)
                     | [] => (false, [])
                     end in
  let ds := take_digits s in
  if decide (ds = []) then None
  else
    let v := atoi ds in
    Some (u32 (if decide (2 ^ 64 <= v) then 2 ^ 64 - 1 else if minus : bool then u64 (- v) else v)).

Definition comment_mark : Z := 35.
Definition is_comment (w : list Z) : bool := bool_decide (w !! 0%nat = Some comment_mark).

(** The body of the loop of [pa_store_load]: the store, and whether there was an error. *)
Definition load_line (line : list Z) st : option (pa_store * bool) :=
  let words := pa_store_getwords line 4 in
  match words !! 0%nat with
  | None => Some (st, false)
  | Some w0 =>
    if is_comment w0 then Some (st, false)
    else if decide (w0 = PA_STORE_PREFIX) then
      match words !! 1%nat, words !! 2%nat with
      | Some w1, Some w2 =>
        if match words !! 3%nat with Some w3 => negb (is_comment w3) | None => false end then Some (st, true)
        else
          '(ok, px, plen) ← prefix_pton store_pton w2 (replicate 16 0) 0;
          if decide (ok = 0) then Some (st, true)
          else if decide (PA_STORE_NAMELEN <= length w1)%nat then Some (st, true)
          else
            '(st, l) ← pa_store_link_goc st w1 true;
            match l with
            | None => Some (st, true)
            | Some k => '(st, _) ← pa_store_cache k px (Z.to_nat plen) st; Some (st, false)
            end
      | _, _ => Some (st, true)
      end
    else if decide (w0 = PA_STORE_WTOKEN) then
      Some (st, match words !! 1%nat with Some w1 => bool_decide (scan_u32 w1 = None) | None => true end)
    else Some (st, true)
  end.

Fixpoint load_lines (lines : list (list Z)) (err : Z) st : option (pa_store * Z) :=
  match lines with
  | [] => Some (st, err)
  | line :: lines => '(st, e) ← load_line line st; load_lines lines (if e : bool then -1 else err) st
  end.

(** [fopen(path, "r")]: the content of the file. *)
Definition open_read (path : list Z) st : option (list Z) :=
  if fopen_ok (st_calls st) then st_files st !! path else None.

Definition pa_store_load (path : list Z) st : option (pa_store * Z) :=
  match open_read path st with
  | None => Some (called st, -1)
  | Some content => load_lines (getlines content) 0 (called st)
  end.

(** [fprintf] to an open file: appends, or fails. *)
Definition fprintf (path s : list Z) st : pa_store * bool :=
  if fprintf_ok (st_calls st)
  then (called (set_st_files (<[path := default [] (st_files st !! path) ++ s]> (st_files st)) st), true)
  else (called st, false).

(** [pa_prefix_tostring] into the buffer [px]; its text up to the NUL. *)
Definition prefix_text (prefix : list Z) (plen : nat) : option (list Z) :=
  r ← prefix_ntopc store_text (replicate PA_PREFIX_STRLEN 0) PA_PREFIX_STRLEN prefix plen;
  px ← r;
  n ← strlen px;
  Some (take n px).

(** The loop of [pa_store_save], from the last prefix of the store to the first. *)
Fixpoint save_loop (path : list Z) (ps : list nat) (err : Z) st : option (pa_store * Z) :=
  match ps with
  | [] => Some (st, err)
  | p :: ps =>
    k ← link_after st p;
    link ← link_mem st !! k;
    if decide (sl_name link = []) then save_loop path ps err st
    else
      '(st, err) ← (if decide (err = 0) then
                      e ← prefix_mem st !! p;
                      t ← prefix_text (sp_prefix e) (sp_plen e);
                      let '(st, ok) := fprintf path (PA_STORE_PREFIX ++ [32] ++ sl_name link ++ [32] ++ t ++ [newline]) st in
                      Some (st, if ok : bool then err else -2)
                    else Some (st, err));
      q ← sl_prefixes link;
      save_loop path ps err (put_link k (set_sl_prefixes (Some (p :: without p q)) link) st)
  end.

Definition pa_store_save st : option (pa_store * Z) :=
  match st_filepath st with
  | None => Some (st, -1)
  | Some path =>
    if negb (fopen_ok (st_calls st)) then Some (called st, -1)
    else
      let st := called (set_st_files (<[path := []]> (st_files st)) st) in
      let '(st, ok) := fprintf path PA_STORE_BANNER st in
      if negb ok then Some (st, -1)
      else
        let '(st, ok) := fprintf path (PA_STORE_WTOKEN ++ [32] ++ print_dec (token_count st) ++ [newline]) st in
        save_loop path (rev (st_prefixes st)) (if ok : bool then 0 else -3) st
  end.

(** ** Timers: [uloop] clears a timer before it calls its function. *)

Definition pa_save_to st : option pa_store :=
  let st := set_save_timer None st in
  let st := set_token_count (u32 (token_count st - 1)) (set_pending_changes false st) in
  fst <$> pa_store_save st.

Definition pa_token_to st : pa_store :=
  let st := set_token_timer None st in
  if decide (token_count st = PA_STORE_WTOKENS_MAX) then st
  else
    let st := set_token_count (u32 (token_count st + 1)) st in
    let st := if pending_changes st then pa_store_updated st else st in
    set_token_timer (store_timeout_at st (token_delay st)) st.

(** ** Set-up *)

(** The number of tokens that a file asks for: an error for a malformed entry. *)
Fixpoint read_tokens (lines : list (list Z)) (count : Z) : option Z :=
  match lines with
  | [] => Some count
  | line :: lines =>
    let words := pa_store_getwords line 2 in
    if decide (words !! 0%nat = Some PA_STORE_WTOKEN) then words !! 1%nat ≫= scan_u32
    else read_tokens lines count
  end.

Definition pa_store_set_file (path : list Z) (save_delay token_delay : Z) st : pa_store * Z :=
  let st := set_token_timer None (set_save_timer None st) in
  if negb (fopen_ok (st_calls st)) then (set_st_filepath None (called st), -1)
  else
    let st := called (set_st_files (<[path := default [] (st_files st !! path)]> (st_files st)) st) in
    match open_read path st with
    | None => (called st, -1)
    | Some content =>
      let st := called st in
      match read_tokens (getlines content) PA_STORE_WTOKENS_DEFAULT with
      | None => (st, -1)
      | Some count =>
        let st := set_token_delay token_delay (set_save_delay save_delay (set_token_count count st)) in
        let st := set_pending_changes false (set_st_filepath (Some path) st) in
        (set_token_timer (store_timeout_at st token_delay) st, 0)
      end
    end.

(** The memory, the files and the clock are those of [st]; the delays are set later. *)
Definition pa_store_init (max_prefixes : Z) st : pa_store :=
  mk_pa_store [] [] max_prefixes 0 None false (save_delay st) None 0 (token_delay st) None
    (link_mem st) (prefix_mem st) (st_files st) (st_now st) (st_calls st).

Fixpoint free_prefixes (ps : list nat) st : option pa_store :=
  match ps with
  | [] => Some st
  | p :: ps => _ ← prefix_mem st !! p; free_prefixes ps (set_prefix_mem (delete p (prefix_mem st)) st)
  end.

Fixpoint free_links (ks : list link_ptr) st : option pa_store :=
  match ks with
  | [] => Some st
  | k :: ks =>
    l ← link_mem st !! k;
    free_links ks (if decide (sl_link l = None) then set_link_mem (delete k (link_mem st)) st else st)
  end.

Definition pa_store_term st : option pa_store :=
  st ← free_prefixes (st_prefixes st) st;
  st ← free_links (st_links st) st;
  Some (set_token_timer None (set_save_timer None st)).

(** ** The core *)

Section bound.
Context `{PT : !PrefixTrie pentry, PX : !PaExt}.
Implicit Types (o : pa_core).

(** The user of the core that calls [pa_store_applied_cb]. *)
Definition pa_store_bind (user : nat) o : pa_core := pa_user_register (mk_pa_user user false false true) o.

Definition pa_store_unbind (user : nat) o : pa_core := pa_user_unregister user o.

(** [struct pa_store_rule], without the rule and the store it points to. *)
Record pa_store_rule := mk_pa_store_rule {
  sr_rule_priority : Z;
  sr_priority : Z;
  sr_get_plen_range : option (pa_core -> pa_ldp -> nat -> nat -> nat * nat)
}.

Definition pa_store_get_max_priority (r : pa_store_rule) st (ldp : pa_ldp) : option Z :=
  if bool_decide (is_Some (best_assignment ldp)) || published ldp then Some 0
  else
    found ← find_link (on_link (Some (ldp_link ldp))) st (st_links st);
    match found with
    | None => Some 0
    | Some k => l ← link_mem st !! k; Some (if decide (sl_n_prefixes l = 0) then 0 else sr_rule_priority r)
    end.

(** The loop of [pa_store_match] over the prefixes of the link. *)
Fixpoint store_match_loop st o (ldp : pa_ldp) (d : pa_dp) (lo hi : nat) (ps : list nat) (arg : pa_rule_arg)
    : option (pa_rule_target * pa_rule_arg) :=
  match ps with
  | [] => Some (PA_RULE_NO_MATCH, arg)
  | p :: ps =>
    e ← prefix_mem st !! p;
    fits ← (if bool_decide (dp_plen d <= sp_plen e)%nat && bool_decide (lo <= sp_plen e)%nat && bool_decide (sp_plen e <= hi)%nat then
              inside ← pa_prefix_contains (dp_prefix d) (dp_plen d) (sp_prefix e);
              if inside : bool then pa_rule_valid_assignment o ldp (sp_prefix e) (sp_plen e) 0 0 false else Some false
            else Some false);
    if fits : bool then
      if negb (backoff ldp) then Some (PA_RULE_BACKOFF, arg)
      else arg ← set_arg_prefix (sp_prefix e) (sp_plen e) arg; Some (PA_RULE_PUBLISH, arg)
    else store_match_loop st o ldp d lo hi ps arg
  end.

(** Without a link for the pair, the end of the list is taken for one. *)
Definition pa_store_match (r : pa_store_rule) st o (ldp : pa_ldp) (arg : pa_rule_arg) : option (pa_rule_target * pa_rule_arg) :=
  let arg := mk_pa_rule_arg (Some (sr_rule_priority r)) (arg_prefix arg) (Some (sr_priority r)) in
  let '(lo, hi) := match sr_get_plen_range r with None => (0%nat, 255%nat) | Some f => f o ldp 0%nat 255%nat end in
  found ← find_link (on_link (Some (ldp_link ldp))) st (st_links st);
  k ← found;
  l ← link_mem st !! k;
  ps ← sl_prefixes l;
  d ← get_dp o (ldp_dp ldp);
  store_match_loop st o ldp d lo hi ps arg.

Definition pa_store_rule_init (mem : pa_store_rule) : pa_store_rule :=
  mk_pa_store_rule (sr_rule_priority mem) (sr_priority mem) None.
End bound.
End store.
