(* ===== verification/PaStoreInv.v ===== *)
(** The invariant of the store of prefixes: the list of the store and the lists of the
    links tell the same order. *)
From S2P Require Import Prelude Bitops Prefix Tlv PaTrie PaCore PaInv PaAdvertise PaRules PaStore.

Implicit Types (st : pa_store) (k : link_ptr) (p : nat) (G : list (nat * link_ptr)).

(** ** Lists of entries

    An entry is the address of a prefix with its link; [G] lists them in the order of
    the store. *)

Definition of_link k G : list (nat * link_ptr) := filter (fun e => e.2 = k) G.

Definition drop_entry p G : list (nat * link_ptr) := filter (fun e => e.1 ≠ p) G.

Lemma without_fst p G : (drop_entry p G).*1 = without p G.*1.
Proof.
  induction G as [|[q k] G IH]; [done|]. unfold drop_entry, without in *. cbn [fmap list_fmap]. rewrite !filter_cons. cbn [fst].
  case_decide; [|done]. cbn [fmap list_fmap fst]. by rewrite IH.
Qed.

Lemma filter_swap {A} (P Q : A -> Prop) `{forall x, Decision (P x), forall x, Decision (Q x)} (l : list A) : filter P (filter Q l) = filter Q (filter P l).
Proof. rewrite !list_filter_filter. apply list_filter_iff. tauto. Qed.

Lemma of_link_drop k p G : of_link k (drop_entry p G) = drop_entry p (of_link k G).
Proof. apply filter_swap. Qed.

Lemma of_link_cons_eq p k G : of_link k ((p, k) :: G) = (p, k) :: of_link k G.
Proof. unfold of_link. by rewrite filter_cons_True. Qed.

Lemma of_link_cons_ne p k k' G : k ≠ k' -> of_link k' ((p, k) :: G) = of_link k' G.
Proof. intros. unfold of_link. by rewrite filter_cons_False. Qed.

Lemma elem_of_of_link e k G : e ∈ of_link k G <-> e.2 = k /\ e ∈ G.
Proof. unfold of_link. by rewrite list_elem_of_filter. Qed.

Lemma drop_entry_notin p G : p ∉ G.*1 -> drop_entry p G = G.
Proof. intros Hp. apply filter_all. intros e He <-. by apply Hp, list_elem_of_fmap_2. Qed.

Lemma entry_unique p k k' G : NoDup G.*1 -> (p, k) ∈ G -> (p, k') ∈ G -> k = k'.
Proof.
  induction G as [|[q c] G IH]; cbn [fmap list_fmap fst]; [by intros _ ?%not_elem_of_nil|]. intros [Hq Hn]%NoDup_cons.
  rewrite !elem_of_cons. intros [[= -> ->]|H1] [[= ->]|H2]; try done; [| |by apply IH];
    exfalso; apply Hq; by eapply (list_elem_of_fmap_2' fst).
Qed.

Lemma drop_entry_of_other p k k' G : NoDup G.*1 -> (p, k) ∈ G -> k' ≠ k -> of_link k' (drop_entry p G) = of_link k' G.
Proof.
  intros Hn Hp Hk. rewrite of_link_drop. apply drop_entry_notin. intros ((q & c) & E & [Hc Hin]%elem_of_of_link)%list_elem_of_fmap. cbn in *.
  subst q c. apply Hk. by eapply entry_unique.
Qed.

Lemma drop_entry_length p k G : NoDup G.*1 -> (p, k) ∈ G -> S (length (drop_entry p G)) = length G.
Proof.
  induction G as [|[q c] G IH]; cbn [fmap list_fmap fst]; [by intros _ ?%not_elem_of_nil|]. intros [Hq Hn]%NoDup_cons.
  intros [[= -> ->]|Hin]%elem_of_cons; unfold drop_entry in *; rewrite filter_cons; cbn [fst].
  - rewrite decide_False by tauto. fold (drop_entry q G). by rewrite drop_entry_notin.
  - rewrite decide_True; [cbn [length]; by rewrite IH|]. intros ->. apply Hq. by eapply (list_elem_of_fmap_2' fst).
Qed.

Lemma of_link_length k G : (length (of_link k G) <= length G)%nat.
Proof. apply length_filter. Qed.

Lemma of_link_nodup k G : NoDup G.*1 -> NoDup (of_link k G).*1.
Proof. apply NoDup_fmap_filter. Qed.

(** ** Memory and lists *)

(** The link and the bits of an entry. *)
Definition prefix_bits st p : list bool := match prefix_mem st !! p with Some e => bits (sp_prefix e) 0 (sp_plen e) | None => [] end.

Definition shown st (e : nat * link_ptr) : link_ptr * list bool := (e.2, prefix_bits st e.1).

(** [G] is what the memory represents, and [L] the links in it. *)
Record represents (L : list link_ptr) st G : Prop := {
  rp_prefixes : st_prefixes st = G.*1;
  rp_nodup : NoDup G.*1;
  rp_count : st_n_prefixes st = Z.of_nat (length G);
  rp_live : NoDup L;
  rp_dom k : is_Some (link_mem st !! k) <-> k ∈ L;
  rp_owner p k : (p, k) ∈ G -> k ∈ L;
  rp_list k l : link_mem st !! k = Some l -> sl_prefixes l = Some (of_link k G).*1;
  rp_number k l : link_mem st !! k = Some l -> sl_n_prefixes l = Z.of_nat (length (of_link k G));
  rp_cells p : is_Some (prefix_mem st !! p) <-> p ∈ G.*1;
  rp_prefix p e : prefix_mem st !! p = Some e -> prefix_ok (sp_prefix e) (sp_plen e);
  rp_distinct : NoDup (shown st <$> G);
  rp_old p : is_Some (prefix_mem st !! p) -> (p < st_calls st)%nat;
  rp_older n : is_Some (link_mem st !! OwnLink n) -> (n < st_calls st)%nat
}.

(** The part of the state that [represents] is about. *)
Definition memory st := (st_prefixes st, st_n_prefixes st, link_mem st, prefix_mem st).

Lemma represents_memory L st st' G : memory st' = memory st -> (st_calls st <= st_calls st')%nat -> represents L st G -> represents L st' G.
Proof.
  intros [= E1 E2 E3 E4] Hc [H1 H2 H3 H4 H5 H6 H7 H8 H9 H10 H11 H12 H13]. split; try (rewrite ?E1, ?E2, ?E3, ?E4; done).
  - erewrite list_fmap_ext; [exact H11|]. intros i e _. unfold shown, prefix_bits. by rewrite E4.
  - intros p Hp. rewrite E4 in Hp. specialize (H12 p Hp). lia.
  - intros n Hn. rewrite E3 in Hn. specialize (H13 n Hn). lia.
Qed.

(** What a user has set in a link. *)
Definition fixed (l : pa_store_link) : option nat * list Z * Z := (sl_link l, sl_name l, sl_max_prefixes l).

Definition fixed_mem st : gmap link_ptr (option nat * list Z * Z) := fixed <$> link_mem st.

(** ** Timers *)

Definition timers_ok st : Prop :=
  0 <= token_count st < 2 ^ 32 /\ (is_Some (save_timer st) -> 0 < token_count st /\ is_Some (st_filepath st)).

(** Caching changes neither the settings nor the files. *)
Record frame st st' : Prop := {
  fr_max : st_max_prefixes st' = st_max_prefixes st;
  fr_path : st_filepath st' = st_filepath st;
  fr_tokens : token_count st' = token_count st;
  fr_token_timer : token_timer st' = token_timer st;
  fr_files : st_files st' = st_files st;
  fr_calls : (st_calls st <= st_calls st')%nat;
  fr_timers : timers_ok st -> timers_ok st'
}.

#[global] Instance frame_preorder : PreOrder frame.
Proof.
  split; [by intros st|]. intros st1 st2 st3 [] []. split; try congruence; [lia|tauto].
Qed.

Lemma updated_memory st : memory (pa_store_updated st) = memory st.
Proof. unfold pa_store_updated. by destruct (_ && _). Qed.

Lemma updated_links st : st_links (pa_store_updated st) = st_links st.
Proof. unfold pa_store_updated. by destruct (_ && _). Qed.

Lemma updated_calls st : st_calls (pa_store_updated st) = st_calls st.
Proof. unfold pa_store_updated. by destruct (_ && _). Qed.

Lemma updated_frame st : frame st (pa_store_updated st).
Proof.
  unfold pa_store_updated. destruct (_ && _) eqn:E; [|by split].
  split; try done. intros [Ht _]. split; [done|]. intros _. cbn in *. rewrite !andb_true_iff, !bool_decide_eq_true in E. split; [lia|apply E].
Qed.

Lemma updated_represents L st G : represents L st G -> represents L (pa_store_updated st) G.
Proof. apply represents_memory; [apply updated_memory|]. by rewrite updated_calls. Qed.

Lemma memory_fields st st' : memory st' = memory st -> link_mem st' = link_mem st /\ prefix_mem st' = prefix_mem st /\ st_prefixes st' = st_prefixes st.
Proof. by intros [= ? ? ? ?]. Qed.

Lemma u32_small n : 0 <= n < 2 ^ 32 -> u32 n = n.
Proof. apply Z.mod_small. Qed.

(** ** Removing an entry *)

Section uncache.
Context (L : list link_ptr) (st : pa_store) (G : list (nat * link_ptr)) (k : link_ptr) (p : nat) (l : pa_store_link).
Hypothesis Hrep : represents L st G.
Hypothesis Hp : (p, k) ∈ G.
Hypothesis Hl : link_mem st !! k = Some l.
Hypothesis Hsmall : Z.of_nat (length G) < 2 ^ 32.

(** The link is destroyed with its last prefix. *)
Definition dies : Prop := of_link k (drop_entry p G) = [] /\ sl_link l = None.

#[local] Instance dies_dec : Decision dies.
Proof. unfold dies. apply _. Defined.

Lemma uncached_number : u32 (sl_n_prefixes l - 1) = Z.of_nat (length (of_link k (drop_entry p G))).
Proof.
  pose proof (of_link_nodup k G (rp_nodup _ _ _ Hrep)) as Hn. assert (Hin : (p, k) ∈ of_link k G) by by apply elem_of_of_link.
  pose proof (drop_entry_length p k _ Hn Hin). pose proof (of_link_length k G). rewrite of_link_drop, (rp_number _ _ _ Hrep k l Hl), u32_small; lia.
Qed.

Lemma uncached_count : u32 (st_n_prefixes st - 1) = Z.of_nat (length (drop_entry p G)).
Proof. pose proof (drop_entry_length p k _ (rp_nodup _ _ _ Hrep) Hp). rewrite (rp_count _ _ _ Hrep), u32_small; lia. Qed.

Lemma drop_entry_in q c : (q, c) ∈ drop_entry p G <-> q ≠ p /\ (q, c) ∈ G.
Proof. unfold drop_entry. by rewrite list_elem_of_filter. Qed.

(** The entries that stay, in the memory that is left. *)
Lemma uncached_represents st' : let b := decide dies in
  st_prefixes st' = without p (st_prefixes st) -> st_n_prefixes st' = u32 (st_n_prefixes st - 1) ->
  link_mem st' = (if b then delete k (link_mem st) else
    <[k := set_sl_n_prefixes (u32 (sl_n_prefixes l - 1)) (set_sl_prefixes (Some (without p (of_link k G).*1)) l)]> (link_mem st)) ->
  prefix_mem st' = delete p (prefix_mem st) -> st_calls st' = st_calls st ->
  represents (if b then without k L else L) st' (drop_entry p G).
Proof.
  intros b E1 E2 E3 E4 E5. pose proof (rp_nodup _ _ _ Hrep) as Hn.
  assert (Hsub : NoDup (drop_entry p G).*1) by (rewrite without_fst; by apply NoDup_filter).
  assert (Hlook : forall k' l', link_mem st' !! k' = Some l' -> sl_prefixes l' = Some (of_link k' (drop_entry p G)).*1 /\ sl_n_prefixes l' = Z.of_nat (length (of_link k' (drop_entry p G)))).
  { intros k' l' Hl'. assert (Hother : k' ≠ k -> link_mem st !! k' = Some l').
    { intros Hk. rewrite E3 in Hl'. destruct b; [by rewrite lookup_delete_ne in Hl'|by rewrite lookup_insert_ne in Hl']. }
    destruct (decide (k' = k)) as [->|Hk].
    - rewrite E3 in Hl'. destruct b; [by rewrite lookup_delete_eq in Hl'|]. rewrite lookup_insert_eq in Hl'. injection Hl' as <-. cbn.
      rewrite uncached_number. split; [|done]. by rewrite of_link_drop, without_fst.
    - rewrite (drop_entry_of_other p k k' G) by done. specialize (Hother Hk). split; [by apply (rp_list _ _ _ Hrep)|by apply (rp_number _ _ _ Hrep)]. }
  split; try done; try (by rewrite ?E1, ?(rp_prefixes _ _ _ Hrep), ?without_fst).
  - by rewrite E2, uncached_count.
  - destruct b; [apply NoDup_filter|]; apply Hrep.
  - intros k'. rewrite E3. destruct b.
    + unfold without. rewrite list_elem_of_filter, <- (rp_dom _ _ _ Hrep). destruct (decide (k' = k)) as [->|]; [rewrite lookup_delete_eq; split; [by intros []|tauto]|rewrite lookup_delete_ne by done; tauto].
    + rewrite <- (rp_dom _ _ _ Hrep). destruct (decide (k' = k)) as [->|]; [|by rewrite lookup_insert_ne]. rewrite lookup_insert_eq, Hl. by split; eexists.
  - intros q c [Hq Hin]%drop_entry_in. pose proof (rp_owner _ _ _ Hrep q c Hin). destruct b as [[Hnil _]|]; [|done].
    apply list_elem_of_filter. split; [|done]. intros ->. assert (Hin' : (q, k) ∈ of_link k (drop_entry p G)) by (apply elem_of_of_link; split; [done|by apply drop_entry_in]).
    rewrite Hnil in Hin'. by apply not_elem_of_nil in Hin'.
  - intros k' l' H%Hlook. apply H.
  - intros k' l' H%Hlook. apply H.
  - intros q. rewrite E4, without_fst. unfold without. rewrite list_elem_of_filter, <- (rp_cells _ _ _ Hrep).
    destruct (decide (q = p)) as [->|]; [rewrite lookup_delete_eq; split; [by intros []|tauto]|rewrite lookup_delete_ne by done; tauto].
  - intros q e. rewrite E4. intros [_ H]%lookup_delete_Some. by apply (rp_prefix _ _ _ Hrep) in H.
  - assert (shown st' <$> drop_entry p G = shown st <$> drop_entry p G) as ->; [|apply NoDup_fmap_filter, Hrep].
    apply list_fmap_ext. intros i [q c] [Hq _]%list_elem_of_lookup_2%drop_entry_in. unfold shown, prefix_bits. cbn. by rewrite E4, lookup_delete_ne.
  - intros q. rewrite E4, E5. intros [e [_ He]%lookup_delete_Some]. apply (rp_old _ _ _ Hrep). by eexists.
  - intros n. rewrite E3, E5. intros [l' Hl']. apply (rp_older _ _ _ Hrep). destruct b; [apply lookup_delete_Some in Hl' as [_ H]; by eexists|].
    apply lookup_insert_Some in Hl' as [[E _]|[_ H]]; [rewrite <- E|]; by eexists.
Qed.

Lemma uncache_spec : exists st', pa_store_uncache k p st = Some st' /\ frame st st' /\
  represents (if decide dies then without k L else L) st' (drop_entry p G) /\
  st_links st' = (if decide dies then without k (st_links st) else st_links st) /\
  fixed_mem st' = (if decide dies then delete k (fixed_mem st) else fixed_mem st) /\
  prefix_mem st' ⊆ prefix_mem st.
Proof.
  pose proof (rp_list _ _ _ Hrep k l Hl) as Hps. pose proof (proj2 (rp_cells _ _ _ Hrep p) (list_elem_of_fmap_2' fst _ _ _ Hp eq_refl)) as [e He].
  unfold pa_store_uncache. rewrite Hl. cbn [mbind option_bind]. rewrite Hps. cbn [mbind option_bind]. cbv zeta.
  set (l' := set_sl_n_prefixes _ _). set (st1 := set_st_n_prefixes _ _).
  assert (Hdies : bool_decide (sl_n_prefixes l' = 0) && bool_decide (sl_link l' = None) = bool_decide dies).
  { rewrite <- bool_decide_and. apply bool_decide_ext. unfold dies, l'. cbn. rewrite uncached_number, <- length_zero_iff_nil. split; intros [? ?]; (split; [lia|done]). }
  rewrite Hdies. clear Hdies. rewrite bool_decide_decide.
  set (st2 := if (if decide dies then true else false) then pa_store_private_link_destroy k st1 else st1).
  assert (Hst2 : prefix_mem st2 = prefix_mem st) by (unfold st2; by destruct (decide dies)). rewrite Hst2, He. cbn [mbind option_bind].
  set (st3 := set_prefix_mem _ _). eexists. split; [done|].
  pose proof (updated_memory st3) as Hm. apply memory_fields in Hm as (M1 & M2 & M3).
  assert (Hlink : link_mem st3 = if decide dies then delete k (link_mem st) else <[k := l']> (link_mem st)).
  { unfold st3, st2. destruct (decide dies); cbn; [|done]. by rewrite delete_insert_eq. }
  split_and!.
  - etransitivity; [|apply updated_frame]. unfold st3, st2. by destruct (decide dies); split.
  - apply updated_represents, uncached_represents; unfold st3, st2; by destruct (decide dies).
  - rewrite updated_links. unfold st3, st2. by destruct (decide dies).
  - unfold fixed_mem. rewrite M1, Hlink. destruct (decide dies); [apply fmap_delete|]. rewrite fmap_insert. apply insert_id. by rewrite lookup_fmap, Hl.
  - rewrite M2. unfold st3. cbn. rewrite <- Hst2. apply delete_subseteq.
Qed.
End uncache.
