(* ===== verification/PaStoreCache.v ===== *)
(** Caching a prefix: the store as a list of the most recently used prefixes, limited
    for each link and in total. *)
From S2P Require Import Prelude Bitops Prefix Tlv PaTrie PaCore PaInv PaAdvertise PaRules PaStore PaStoreInv.

Implicit Types (st : pa_store) (k : link_ptr) (p : nat) (G : list (nat * link_ptr)).

(** ** What the store promises *)

(** Of the elements of a link the first [m], and all others. *)
Fixpoint keep_first {A K} `{EqDecision K} (key : A -> K) (k : K) (m : nat) (l : list A) : list A :=
  match l with
  | [] => []
  | x :: l =>
    if decide (key x = k) then match m with O => keep_first key k O l | S m => x :: keep_first key k m l end
    else x :: keep_first key k m l
  end.

(** A limit of 0 is none. *)
Definition limit_link {A K} `{EqDecision K} (key : A -> K) (k : K) (max : Z) (l : list A) : list A :=
  if decide (max = 0) then l else keep_first key k (Z.to_nat max) l.

Definition limit_store {A} (max : Z) (l : list A) : list A := if decide (max = 0) then l else take (Z.to_nat max) l.

(** The prefix becomes the most recent one of its link, and the limits hold again. *)
Definition remember {K} `{EqDecision K} (k : K) (b : list bool) (link_max store_max : Z) (C : list (K * list bool)) : list (K * list bool) :=
  limit_store store_max (limit_link fst k link_max ((k, b) :: filter (fun c => c ≠ (k, b)) C)).

(** ** Lists *)

Section keep.
Context {A K : Type} `{EK : EqDecision K} (key : A -> K).

Lemma keep_first_fmap {B} (key' : B -> K) (f : A -> B) (k : K) m (l : list A) : (forall x, key' (f x) = key x) ->
  keep_first key' k m (f <$> l) = f <$> keep_first key k m l.
Proof.
  intros Hf. revert m. induction l as [|x l IH]; intros m; [done|]. cbn [fmap list_fmap keep_first]. rewrite Hf.
  case_decide; [|by rewrite IH]. destruct m; by rewrite IH.
Qed.

Lemma keep_first_all (k : K) m (l : list A) : (length (filter (fun x => key x = k) l) <= m)%nat -> keep_first key k m l = l.
Proof.
  revert m. induction l as [|x l IH]; intros m; [done|]. rewrite filter_cons. cbn [keep_first]. case_decide; [|by intros ?%IH; f_equal].
  cbn [length]. destruct m; [lia|]. intros Hm. f_equal. apply IH. lia.
Qed.

Lemma keep_first_twice (k : K) m n (l : list A) : (m <= n)%nat -> keep_first key k m (keep_first key k n l) = keep_first key k m l.
Proof.
  revert m n. induction l as [|x l IH]; intros m n Hmn; [done|]. cbn [keep_first]. case_decide as E.
  - destruct n; [assert (m = 0)%nat as -> by lia; by apply IH|]. cbn [keep_first]. rewrite decide_True by done. destruct m; [by apply IH; lia|].
    f_equal. apply IH. lia.
  - cbn [keep_first]. rewrite decide_False by done. f_equal. by apply IH.
Qed.

Lemma keep_first_filter (k : K) m (l : list A) : filter (fun x => key x = k) (keep_first key k m l) = take m (filter (fun x => key x = k) l).
Proof.
  revert m. induction l as [|x l IH]; intros m; [by destruct m|]. cbn [keep_first]. rewrite filter_cons. case_decide.
  - destruct m; [by rewrite IH, !take_0|]. rewrite filter_cons_True by done. cbn [take]. by rewrite IH.
  - rewrite filter_cons_False by done. apply IH.
Qed.

Lemma keep_first_other (k k' : K) m (l : list A) : k' ≠ k -> filter (fun x => key x = k') (keep_first key k m l) = filter (fun x => key x = k') l.
Proof.
  intros Hk. revert m. induction l as [|x l IH]; intros m; [done|]. cbn [keep_first]. rewrite (filter_cons _ x l). case_decide as E.
  - rewrite decide_False by congruence. destruct m; [apply IH|]. rewrite filter_cons_False by congruence. apply IH.
  - rewrite filter_cons. case_decide; by rewrite IH.
Qed.

Lemma keep_first_ext {B} `{EB : EqDecision B} (key' : A -> B) (k : K) (k' : B) m (l : list A) : (forall x, x ∈ l -> key x = k <-> key' x = k') ->
  keep_first key k m l = keep_first key' k' m l.
Proof.
  revert m. induction l as [|x l IH]; intros m Hk; [done|]. cbn [keep_first]. assert (Hl : forall y, y ∈ l -> key y = k <-> key' y = k') by (intros; apply Hk; by right).
  specialize (Hk x ltac:(by left)). destruct (decide (key x = k)); [rewrite decide_True by tauto; destruct m; by rewrite IH|rewrite decide_False by tauto; by rewrite IH].
Qed.

Lemma keep_first_sublist (k : K) m (l : list A) : sublist (keep_first key k m l) l.
Proof.
  revert m. induction l as [|x l IH]; intros m; [constructor|]. cbn [keep_first]. case_decide; [destruct m|]; constructor; apply IH.
Qed.
End keep.

(** Without its last element, a link keeps one element less. *)
Lemma keep_first_drop_last k m p G : NoDup G.*1 -> length (of_link k G) = S m -> last (of_link k G) = Some (p, k) -> drop_entry p G = keep_first snd k m G.
Proof.
  revert m. induction G as [|[q c] G IH]; intros m; [done|]. cbn [fmap list_fmap fst]. intros [Hq Hn]%NoDup_cons.
  unfold of_link, drop_entry. rewrite !filter_cons. cbn [snd fst keep_first]. fold (of_link k G) (drop_entry p G). destruct (decide (c = k)) as [->|Hc].
  - cbn [length]. intros [= Hm]. destruct m as [|m].
    + apply length_zero_iff_nil in Hm. rewrite Hm. cbn [last]. intros [= ->]. rewrite decide_False by tauto. rewrite drop_entry_notin by done.
      symmetry. apply keep_first_all. fold (of_link k G). by rewrite Hm.
    + intros Hlast. rewrite last_cons in Hlast. destruct (last (of_link k G)) as [e|] eqn:El; [|apply last_None in El; by rewrite El in Hm].
      injection Hlast as ->. rewrite decide_True; [f_equal; by apply IH|]. intros ->. apply Hq. apply last_Some_elem_of in El.
      apply elem_of_of_link in El as [_ El]. by eapply (list_elem_of_fmap_2' fst).
  - intros Hm Hlast. rewrite decide_True; [f_equal; by apply IH|]. intros ->. apply Hq. apply last_Some_elem_of in Hlast.
    apply elem_of_of_link in Hlast as [_ El]. by eapply (list_elem_of_fmap_2' fst).
Qed.

(** Without its last element, the store keeps one element less. *)
Lemma drop_last_take p k G : NoDup G.*1 -> last G = Some (p, k) -> drop_entry p G = take (length G - 1) G.
Proof.
  intros Hn [G' ->]%last_Some. rewrite fmap_app in Hn. apply NoDup_app in Hn as (_ & Hn & _). unfold drop_entry. rewrite filter_app, filter_cons_False, filter_nil, app_nil_r by (cbn; tauto).
  fold (drop_entry p G'). rewrite length_app, Nat.add_sub, take_app_length. apply drop_entry_notin. intros Hp. apply (Hn p Hp). by left.
Qed.

(** ** Removing the last entry *)

Lemma shown_memory st st' G : prefix_mem st' ⊆ prefix_mem st -> (forall p, p ∈ G.*1 -> is_Some (prefix_mem st' !! p)) -> shown st' <$> G = shown st <$> G.
Proof.
  intros Hsub Hin. apply list_fmap_ext. intros i [p k] He%list_elem_of_lookup_2. unfold shown, prefix_bits. cbn [fst snd].
  destruct (Hin p (list_elem_of_fmap_2' fst _ _ _ He eq_refl)) as [e E]. by rewrite E, (lookup_weaken _ _ _ _ E Hsub).
Qed.


Lemma fixed_lookup st k f : fixed_mem st !! k = Some f <-> exists l, link_mem st !! k = Some l /\ fixed l = f.
Proof. unfold fixed_mem. rewrite lookup_fmap, fmap_Some. split; intros (l & ? & ?); by exists l. Qed.

Lemma last_of_spec L st G k l : represents L st G -> link_mem st !! k = Some l -> last_of st k = fst <$> last (of_link k G).
Proof. intros Hr Hl. unfold last_of. rewrite Hl. cbn [mbind option_bind]. rewrite (rp_list _ _ _ Hr k l Hl). cbn [mbind option_bind]. apply fmap_last. Qed.

Lemma last_of_link_in G k e : last (of_link k G) = Some e -> e ∈ G /\ e = (e.1, k).
Proof. intros H%last_Some_elem_of%elem_of_of_link. destruct e, H as [<- H]. done. Qed.

Lemma last_entry G k m : length (of_link k G) = S m -> exists p, last (of_link k G) = Some (p, k) /\ (p, k) ∈ G.
Proof.
  intros Hm. destruct (last (of_link k G)) as [e|] eqn:E; [|apply last_None in E; by rewrite E in Hm].
  destruct (last_of_link_in G k e E) as [Hin He]. exists e.1. rewrite <- He. done.
Qed.

(** The last prefix of a link of a user. *)
Lemma uncache_link_spec L st G k l m : represents L st G -> link_mem st !! k = Some l -> sl_link l ≠ None -> length (of_link k G) = S m ->
  Z.of_nat (length G) < 2 ^ 32 ->
  exists st', pa_store_uncache_last_from_link k st = Some st' /\ frame st st' /\ represents L st' (keep_first snd k m G) /\
    st_links st' = st_links st /\ fixed_mem st' = fixed_mem st /\ prefix_mem st' ⊆ prefix_mem st.
Proof.
  intros Hr Hl Hu Hm Hs. destruct (last_entry G k m Hm) as (p & Hlast & Hin). unfold pa_store_uncache_last_from_link.
  rewrite (last_of_spec L st G k l Hr Hl), Hlast. cbn [fmap option_fmap option_map fst mbind option_bind].
  destruct (uncache_spec L st G k p l Hr Hin Hl Hs) as (st' & -> & Hf & Hr' & H1 & H2 & H3). exists st'. split; [done|].
  assert (Hd : ~ dies G k p l) by (by intros [_ ?]). rewrite decide_False in Hr', H1 by done. rewrite decide_False in H2 by done.
  rewrite (keep_first_drop_last k m p G) in Hr' by (done || apply Hr). done.
Qed.

(** The list head after the last prefix of a link is the one of the link. *)
Lemma link_after_spec st G k p : represents (st_links st) st G -> last (of_link k G) = Some (p, k) -> link_after st p = Some k.
Proof.
  intros Hr Hlast. destruct (last_of_link_in _ _ _ Hlast) as [Hin _]. pose proof (rp_owner _ _ _ Hr p k Hin) as Hk. unfold link_after.
  destruct (proj2 (rp_dom _ _ _ Hr k) Hk) as [l Hl].
  destruct (list_find_elem_of (fun k => last_of st k = Some p) (st_links st) k Hk) as [[i k'] E].
  { by rewrite (last_of_spec _ _ _ _ _ Hr Hl), Hlast. }
  rewrite E. cbn. f_equal. apply list_find_Some in E as (Hi & Hp & _). apply list_elem_of_lookup_2 in Hi.
  destruct (proj2 (rp_dom _ _ _ Hr k') Hi) as [l' Hl']. rewrite (last_of_spec _ _ _ _ _ Hr Hl') in Hp. apply fmap_Some in Hp as (e & He & ->).
  destruct (last_of_link_in _ _ _ He) as [Hin' E']. rewrite E' in Hin'. symmetry. by apply (entry_unique e.1 k k' G (rp_nodup _ _ _ Hr)).
Qed.

Lemma last_of_link_last G p k : last G = Some (p, k) -> last (of_link k G) = Some (p, k).
Proof. intros [G' ->]%last_Some. unfold of_link. rewrite filter_app, filter_cons_True, filter_nil by done. by rewrite last_snoc. Qed.

(** The last prefix of the store; the link may go with it. *)
Lemma uncache_store_spec st G : represents (st_links st) st G -> G ≠ [] -> Z.of_nat (length G) < 2 ^ 32 ->
  exists st', pa_store_uncache_last_from_store st = Some st' /\ frame st st' /\ represents (st_links st') st' (take (length G - 1) G) /\
    fixed_mem st' ⊆ fixed_mem st /\ prefix_mem st' ⊆ prefix_mem st.
Proof.
  intros Hr HG Hs. destruct (last G) as [[p k]|] eqn:Hlast; [|by apply last_None in Hlast]. pose proof (last_Some_elem_of _ _ Hlast) as Hin.
  unfold pa_store_uncache_last_from_store. rewrite (rp_prefixes _ _ _ Hr), fmap_last, Hlast. cbn [fmap option_fmap option_map fst mbind option_bind].
  rewrite (link_after_spec st G k p Hr) by (by apply last_of_link_last). cbn [mbind option_bind].
  destruct (proj2 (rp_dom _ _ _ Hr k) (rp_owner _ _ _ Hr p k Hin)) as [l Hl].
  destruct (uncache_spec _ st G k p l Hr Hin Hl Hs) as (st' & -> & Hf & Hr' & H1 & H2 & H3). exists st'. split; [done|]. split; [done|].
  rewrite (drop_last_take p k G) in Hr' by (done || apply Hr). rewrite H1, H2. destruct (decide _); split_and!; try done. apply delete_subseteq.
Qed.

(** ** Limits of a link *)

Lemma trim_link_spec fuel : forall L st G k l, represents L st G -> link_mem st !! k = Some l -> sl_link l ≠ None -> 0 <= sl_max_prefixes l ->
  (length (of_link k G) <= fuel)%nat -> Z.of_nat (length G) < 2 ^ 32 ->
  exists st', trim_link fuel k st = Some st' /\ frame st st' /\ represents L st' (keep_first snd k (Z.to_nat (sl_max_prefixes l)) G) /\
    st_links st' = st_links st /\ fixed_mem st' = fixed_mem st /\ prefix_mem st' ⊆ prefix_mem st.
Proof.
  induction fuel as [|fuel IH]; intros L st G k l Hr Hl Hu Hmax Hf Hs; cbn [trim_link]; rewrite Hl; cbn [mbind option_bind]; rewrite (rp_number _ _ _ Hr k l Hl).
  - rewrite decide_False by lia. exists st. rewrite keep_first_all by (fold (of_link k G); lia). by split_and!.
  - case_decide as E; [|exists st; rewrite keep_first_all by (fold (of_link k G); lia); by split_and!].
    destruct (length (of_link k G)) as [|m] eqn:Em; [lia|].
    destruct (uncache_link_spec L st G k l m Hr Hl Hu Em Hs) as (st1 & -> & F1 & R1 & L1 & X1 & C1). cbn [mbind option_bind].
    assert (fixed_mem st1 !! k = Some (fixed l)) as (l1 & Hl1 & [= El Hn Em1])%fixed_lookup by (rewrite X1; apply fixed_lookup; by exists l).
    destruct (IH L st1 (keep_first snd k m G) k l1 R1 Hl1) as (st2 & -> & F2 & R2 & L2 & X2 & C2).
    + congruence.
    + lia.
    + unfold of_link. rewrite keep_first_filter, length_take. lia.
    + pose proof (sublist_length _ _ (keep_first_sublist snd k m G)). lia.
    + exists st2. rewrite Em1, keep_first_twice in R2 by lia. split_and!; try congruence; [by etransitivity|by etransitivity].
Qed.

Lemma trim_spec L st G k l : represents L st G -> link_mem st !! k = Some l -> sl_link l ≠ None \/ sl_max_prefixes l = 0 -> 0 <= sl_max_prefixes l ->
  Z.of_nat (length G) < 2 ^ 32 ->
  exists st', pa_store_trim k st = Some st' /\ frame st st' /\ represents L st' (limit_link snd k (sl_max_prefixes l) G) /\
    st_links st' = st_links st /\ fixed_mem st' = fixed_mem st /\ prefix_mem st' ⊆ prefix_mem st.
Proof.
  intros Hr Hl Hu Hmax Hs. unfold pa_store_trim, limit_link. rewrite Hl. cbn [mbind option_bind]. rewrite (rp_list _ _ _ Hr k l Hl). cbn [mbind option_bind].
  case_decide; [exists st; by split_and!|]. rewrite length_fmap. destruct Hu; [|done]. by apply trim_link_spec.
Qed.

(** ** Finding a prefix *)

Lemma pa_prefix_equals_ok x1 n1 x2 n2 : prefix_ok x1 n1 -> prefix_ok x2 n2 ->
  pa_prefix_equals x1 n1 x2 n2 = Some (bool_decide (bits x1 0 n1 = bits x2 0 n2)).
Proof.
  intros H1 H2. unfold pa_prefix_equals. case_decide as E.
  - subst n2. rewrite (pa_prefix_contains_ok _ _ _ n1 H1 H2) by lia. f_equal. apply bool_decide_ext. split; [|by intros ->].
    intros Hp. apply (prefix_length_eq _ _ Hp). by rewrite !length_bits.
  - rewrite bool_decide_false; [done|]. intros Eb%(f_equal length). by rewrite !length_bits in Eb.
Qed.

Lemma find_prefix_spec L st G ps x n : represents L st G -> prefix_ok x n -> (forall p, p ∈ ps -> p ∈ G.*1) ->
  exists r, find_prefix st ps x n = Some r /\
    match r with Some p => p ∈ ps /\ prefix_bits st p = bits x 0 n | None => forall p, p ∈ ps -> prefix_bits st p ≠ bits x 0 n end.
Proof.
  intros Hr Hx. induction ps as [|p ps IH]; intros Hps; cbn [find_prefix].
  { exists None. split; [done|]. by intros p ?%not_elem_of_nil. }
  destruct (proj2 (rp_cells _ _ _ Hr p)) as [e He]; [apply Hps; by left|]. rewrite He. cbn [mbind option_bind].
  rewrite (pa_prefix_equals_ok _ _ _ _ Hx (rp_prefix _ _ _ Hr p e He)). cbn [mbind option_bind].
  assert (Hb : prefix_bits st p = bits (sp_prefix e) 0 (sp_plen e)) by (unfold prefix_bits; by rewrite He). case_bool_decide as E.
  - exists (Some p). split; [done|]. split; [by left|congruence].
  - destruct IH as (r & -> & H); [intros q Hq; apply Hps; by right|]. exists r. split; [done|]. destruct r as [q|].
    + destruct H as [H1 H2]. split; [by right|done].
    + intros q [->|Hq]%elem_of_cons; [congruence|by apply H].
Qed.

(** ** Moving an entry to the front *)

Lemma fmap_filter {A B} (f : A -> B) (P : B -> Prop) `{forall x, Decision (P x)} (l : list A) : filter P (f <$> l) = f <$> filter (fun x => P (f x)) l.
Proof. induction l as [|x l IH]; [done|]. cbn [fmap list_fmap]. rewrite !filter_cons. case_decide; cbn [fmap list_fmap]; by rewrite <- IH. Qed.

Lemma shown_inj st G e e' : NoDup (shown st <$> G) -> e ∈ G -> e' ∈ G -> shown st e = shown st e' -> e = e'.
Proof.
  intros Hn [i Hi]%list_elem_of_lookup [j Hj]%list_elem_of_lookup E. assert (i = j) as ->; [|congruence].
  eapply NoDup_lookup; [exact Hn| |]; rewrite list_lookup_fmap; [by rewrite Hi|rewrite Hj; cbn; by rewrite E].
Qed.

Lemma shown_drop st G p k : NoDup G.*1 -> NoDup (shown st <$> G) -> (p, k) ∈ G ->
  shown st <$> drop_entry p G = filter (fun c => c ≠ shown st (p, k)) (shown st <$> G).
Proof.
  intros Hn Hs Hp. rewrite fmap_filter. f_equal. apply filter_ext_in. intros [q c] Hq. cbn. split.
  - intros Hne E. apply Hne. by injection (shown_inj st G _ _ Hs Hq Hp E).
  - intros Hne ->. apply Hne. by rewrite (entry_unique p k c G Hn Hp Hq).
Qed.

Lemma without_head {A} `{EqDecision A} (x : A) l : NoDup (x :: l) -> x :: without x (x :: l) = x :: l.
Proof.
  intros [Hx _]%NoDup_cons. unfold without. rewrite filter_cons_False by tauto. f_equal. apply filter_all. intros y Hy ->. done.
Qed.

Lemma moved_represents L st st' G k p : represents L st G -> (p, k) ∈ G ->
  st_prefixes st' = p :: without p (st_prefixes st) -> st_n_prefixes st' = st_n_prefixes st -> prefix_mem st' = prefix_mem st -> st_calls st' = st_calls st ->
  (forall k', k' ≠ k -> link_mem st' !! k' = link_mem st !! k') ->
  link_mem st' !! k = set_sl_prefixes (Some (p :: without p (of_link k G).*1)) <$> link_mem st !! k ->
  represents L st' ((p, k) :: drop_entry p G).
Proof.
  intros Hr Hp E1 E2 E3 E4 E5 E6. pose proof (rp_nodup _ _ _ Hr) as Hn. pose proof (rp_owner _ _ _ Hr p k Hp) as Hk.
  assert (Hperm : (p, k) :: drop_entry p G ≡ₚ G).
  { clear -Hn Hp. induction G as [|[q c] G IH]; [by apply not_elem_of_nil in Hp|]. cbn in Hn. apply NoDup_cons in Hn as [Hq Hn]. unfold drop_entry. rewrite filter_cons.
    apply elem_of_cons in Hp as [[= -> ->]|Hp]; cbn [fst]; [rewrite decide_False by tauto; change (filter _ G) with (drop_entry q G); by rewrite (drop_entry_notin q G)|].
    rewrite decide_True by (intros ->; apply Hq; by eapply (list_elem_of_fmap_2' fst)). rewrite Permutation_swap. constructor. by apply IH. }
  assert (Hsh : shown st' <$> ((p, k) :: drop_entry p G) = shown st <$> ((p, k) :: drop_entry p G)).
  { apply list_fmap_ext. intros. unfold shown, prefix_bits. by rewrite E3. }
  assert (Hlook : forall k' l', link_mem st' !! k' = Some l' -> exists l, link_mem st !! k' = Some l /\ sl_prefixes l' = Some (of_link k' ((p, k) :: drop_entry p G)).*1 /\
    sl_n_prefixes l' = sl_n_prefixes l).
  { intros k' l' Hl'. destruct (decide (k' = k)) as [->|Hne].
    - rewrite E6 in Hl'. apply fmap_Some in Hl' as (l & Hl & ->). exists l. split; [done|]. split; [|done]. cbn [set_sl_prefixes sl_prefixes].
      by rewrite of_link_cons_eq, of_link_drop, fmap_cons, without_fst.
    - rewrite E5 in Hl' by done. exists l'. split; [done|]. split; [|done]. rewrite of_link_cons_ne, (drop_entry_of_other p k) by done. by apply (rp_list _ _ _ Hr). }
  split; try (rewrite ?E3, ?E4; apply Hr).
  - by rewrite E1, (rp_prefixes _ _ _ Hr), fmap_cons, without_fst.
  - by rewrite Hperm.
  - by rewrite E2, Hperm, (rp_count _ _ _ Hr).
  - intros k'. rewrite <- (rp_dom _ _ _ Hr). destruct (decide (k' = k)) as [->|]; [by rewrite E6, fmap_is_Some|by rewrite E5].
  - intros q c. rewrite Hperm. apply Hr.
  - intros k' l' Hl'. by destruct (Hlook k' l' Hl') as (l & _ & H & _).
  - intros k' l' Hl'. destruct (Hlook k' l' Hl') as (l & Hl & _ & ->). unfold of_link. rewrite Hperm. by apply (rp_number _ _ _ Hr).
  - intros q. by rewrite E3, Hperm, (rp_cells _ _ _ Hr).
  - rewrite Hsh, Hperm. apply Hr.
  - intros n. rewrite E4. intros [l' Hl']. destruct (Hlook _ _ Hl') as (l & Hl & _). apply (rp_older _ _ _ Hr). by eexists.
Qed.

(** ** Adding an entry *)

Lemma added_represents L st st' G k l p e : represents L st G -> link_mem st !! k = Some l -> p = st_calls st ->
  prefix_ok (sp_prefix e) (sp_plen e) -> (k, bits (sp_prefix e) 0 (sp_plen e)) ∉ shown st <$> G ->
  Z.of_nat (length G) + 1 < 2 ^ 32 ->
  st_prefixes st' = p :: st_prefixes st -> st_n_prefixes st' = u32 (st_n_prefixes st + 1) -> prefix_mem st' = <[p := e]> (prefix_mem st) -> st_calls st' = S (st_calls st) ->
  link_mem st' = <[k := set_sl_n_prefixes (u32 (sl_n_prefixes l + 1)) (set_sl_prefixes (Some (p :: (of_link k G).*1)) l)]> (link_mem st) ->
  represents L st' ((p, k) :: G) /\ shown st' <$> (p, k) :: G = (k, bits (sp_prefix e) 0 (sp_plen e)) :: (shown st <$> G).
Proof.
  intros Hr Hl Hp He Hnew Hs E1 E2 E3 E4 E5. pose proof (of_link_length k G) as Hlen.
  assert (Hfresh : p ∉ G.*1) by (intros H%(rp_cells _ _ _ Hr)%(rp_old _ _ _ Hr); lia).
  assert (Hsh : shown st' <$> (p, k) :: G = (k, bits (sp_prefix e) 0 (sp_plen e)) :: (shown st <$> G)).
  { rewrite fmap_cons. f_equal; [unfold shown, prefix_bits; cbn; by rewrite E3, lookup_insert_eq|]. apply list_fmap_ext. intros i [q c] Hq%list_elem_of_lookup_2.
    unfold shown, prefix_bits. cbn. rewrite E3, lookup_insert_ne; [done|]. intros <-. apply Hfresh. by eapply (list_elem_of_fmap_2' fst). }
  assert (Hlook : forall k' l', link_mem st' !! k' = Some l' -> sl_prefixes l' = Some (of_link k' ((p, k) :: G)).*1 /\ sl_n_prefixes l' = Z.of_nat (length (of_link k' ((p, k) :: G)))).
  { intros k' l'. rewrite E5. intros [[<- <-]|[Hne Hl']]%lookup_insert_Some.
    - rewrite of_link_cons_eq. cbn [length set_sl_n_prefixes set_sl_prefixes sl_prefixes sl_n_prefixes fmap list_fmap]. rewrite (rp_number _ _ _ Hr k l Hl), u32_small by lia. split; [done|lia].
    - rewrite of_link_cons_ne by done. split; [by apply (rp_list _ _ _ Hr)|by apply (rp_number _ _ _ Hr)]. }
  split; [|done]. split; try apply Hr.
  - by rewrite E1, (rp_prefixes _ _ _ Hr).
  - rewrite fmap_cons. apply NoDup_cons. split; [done|apply Hr].
  - rewrite E2, (rp_count _ _ _ Hr), u32_small by lia. cbn [length]. lia.
  - intros k'. rewrite E5, <- (rp_dom _ _ _ Hr). destruct (decide (k' = k)) as [->|]; [rewrite lookup_insert_eq, Hl; by split; eexists|by rewrite lookup_insert_ne].
  - intros q c [[= -> ->]|Hin]%elem_of_cons; [apply (rp_dom _ _ _ Hr); by eexists|by apply (rp_owner _ _ _ Hr q)].
  - intros k' l' H%Hlook. apply H.
  - intros k' l' H%Hlook. apply H.
  - intros q. rewrite E3, fmap_cons, elem_of_cons, <- (rp_cells _ _ _ Hr). cbn [fst].
    destruct (decide (q = p)) as [->|]; [rewrite lookup_insert_eq; split; [by left|by eexists]|rewrite lookup_insert_ne by done; tauto].
  - intros q x. rewrite E3. intros [[<- <-]|[_ H]]%lookup_insert_Some; [done|by apply (rp_prefix _ _ _ Hr q)].
  - rewrite Hsh. apply NoDup_cons. split; [done|apply Hr].
  - intros q. rewrite E3, E4. intros [x [[<- _]|[_ H]]%lookup_insert_Some]; [lia|]. assert (q < st_calls st)%nat; [|lia]. apply (rp_old _ _ _ Hr). by eexists.
  - intros n. rewrite E4, E5. intros [x [[E _]|[_ H]]%lookup_insert_Some]; (assert (n < st_calls st)%nat; [|lia]); apply (rp_older _ _ _ Hr); [rewrite <- E|]; by eexists.
Qed.

(** ** The invariant *)

Definition own k : Prop := match k with OwnLink _ => True | UserLink _ => False end.

#[global] Instance own_dec k : Decision (own k).
Proof. destruct k; apply _. Defined.

(** Links have names that differ, of which one may be empty; the links that the store has
    allocated are those without a link of the core, and have a name and no limit. *)
Record links_ok (m : gmap link_ptr (option nat * list Z * Z)) : Prop := {
  lo_own k link name max : m !! k = Some (link, name, max) -> link = None <-> own k;
  lo_name k link name max : m !! k = Some (link, name, max) -> (own k -> name ≠ []) /\ (length name < PA_STORE_NAMELEN)%nat;
  lo_max k link name max : m !! k = Some (link, name, max) -> 0 <= max /\ (own k -> max = 0);
  lo_unique k k' link link' name max max' : m !! k = Some (link, name, max) -> m !! k' = Some (link', name, max') -> k = k'
}.

Lemma links_ok_sub m m' : m' ⊆ m -> links_ok m -> links_ok m'.
Proof.
  intros Hs [H1 H2 H3 H4]. split; intros.
  - eapply H1, lookup_weaken; done.
  - eapply H2, lookup_weaken; done.
  - eapply H3, lookup_weaken; done.
  - eapply H4; (eapply lookup_weaken; [|exact Hs]; done).
Qed.

Definition in_limits st G : Prop :=
  (forall k link name max, fixed_mem st !! k = Some (link, name, max) -> max ≠ 0 -> Z.of_nat (length (of_link k G)) <= max) /\
  Z.of_nat (length G) <= st_max_prefixes st.

Record store_is st G : Prop := {
  si_rep : represents (st_links st) st G;
  si_links : links_ok (fixed_mem st);
  si_limits : in_limits st G;
  si_timers : timers_ok st;
  si_max : 0 < st_max_prefixes st < 2 ^ 32 - 1
}.

Definition store_ok st : Prop := exists G, store_is st G.

(** The cached prefixes with their links, the most recent one first. *)
Definition owner st p : option link_ptr :=
  snd <$> list_find (fun k => p ∈ default [] (link_mem st !! k ≫= sl_prefixes)) (st_links st).

Definition contents st : list (link_ptr * list bool) := omap (fun p => k ← owner st p; Some (k, prefix_bits st p)) (st_prefixes st).

Lemma owner_spec st G p k : represents (st_links st) st G -> (p, k) ∈ G -> owner st p = Some k.
Proof.
  intros Hr Hin. pose proof (rp_owner _ _ _ Hr p k Hin) as Hk. unfold owner.
  assert (Hlist : forall k', k' ∈ st_links st -> default [] (link_mem st !! k' ≫= sl_prefixes) = (of_link k' G).*1).
  { intros k' [l Hl]%(rp_dom _ _ _ Hr). rewrite Hl. cbn. by rewrite (rp_list _ _ _ Hr k' l Hl). }
  destruct (list_find_elem_of (fun k => p ∈ default [] (link_mem st !! k ≫= sl_prefixes)) (st_links st) k Hk) as [[i k'] E].
  { rewrite Hlist by done. apply (list_elem_of_fmap_2' fst _ (p, k)); [by apply elem_of_of_link|done]. }
  rewrite E. cbn. f_equal. apply list_find_Some in E as (Hi & Hp & _). apply list_elem_of_lookup_2 in Hi. rewrite Hlist in Hp by done.
  apply list_elem_of_fmap in Hp as ([q c] & -> & [Hc Hq]%elem_of_of_link). cbn in *. subst c. by apply (entry_unique q k' k G (rp_nodup _ _ _ Hr)).
Qed.

Lemma contents_spec st G : represents (st_links st) st G -> contents st = shown st <$> G.
Proof.
  intros Hr. unfold contents. rewrite (rp_prefixes _ _ _ Hr).
  assert (H : forall e, e ∈ G -> owner st e.1 = Some e.2) by (intros [p k] ?; by apply (owner_spec st G)).
  clear Hr. induction G as [|e G IH]; [done|]. cbn [fmap list_fmap omap list_omap]. rewrite H by (by left). cbn [mbind option_bind].
  f_equal. apply IH. intros e' He'. apply H. by right.
Qed.

(** ** Caching *)

Lemma link_limit_step L st G k l : represents L st G -> link_mem st !! k = Some l -> sl_link l ≠ None \/ sl_max_prefixes l = 0 -> 0 <= sl_max_prefixes l ->
  (sl_max_prefixes l ≠ 0 -> Z.of_nat (length (of_link k G)) <= sl_max_prefixes l + 1) -> Z.of_nat (length G) < 2 ^ 32 ->
  exists st', (if bool_decide (sl_max_prefixes l ≠ 0) && bool_decide (sl_max_prefixes l < sl_n_prefixes l) then pa_store_uncache_last_from_link k st else Some st) = Some st' /\
    frame st st' /\ represents L st' (limit_link snd k (sl_max_prefixes l) G) /\
    st_links st' = st_links st /\ fixed_mem st' = fixed_mem st /\ prefix_mem st' ⊆ prefix_mem st.
Proof.
  intros Hr Hl Hu Hmax Hlen Hs. unfold limit_link. case_decide as E; [rewrite bool_decide_false by tauto; exists st; by split_and!|].
  rewrite bool_decide_true by done. specialize (Hlen E). rewrite (rp_number _ _ _ Hr k l Hl). destruct Hu as [Hu|]; [|done]. cbn [andb]. case_bool_decide as En.
  - apply (uncache_link_spec L st G k l (Z.to_nat (sl_max_prefixes l))); try done. lia.
  - exists st. rewrite keep_first_all by (fold (of_link k G); lia). by split_and!.
Qed.

Lemma store_limit_step st G : represents (st_links st) st G -> 0 < st_max_prefixes st -> Z.of_nat (length G) <= st_max_prefixes st + 1 -> Z.of_nat (length G) < 2 ^ 32 ->
  exists st', (if bool_decide (st_max_prefixes st ≠ 0) && bool_decide (st_max_prefixes st < st_n_prefixes st) then pa_store_uncache_last_from_store st else Some st) = Some st' /\
    frame st st' /\ represents (st_links st') st' (limit_store (st_max_prefixes st) G) /\ fixed_mem st' ⊆ fixed_mem st /\ prefix_mem st' ⊆ prefix_mem st.
Proof.
  intros Hr Hmax Hlen Hs. unfold limit_store. rewrite decide_False, bool_decide_true by lia. rewrite (rp_count _ _ _ Hr). cbn [andb]. case_bool_decide as En.
  - destruct (uncache_store_spec st G Hr) as (st' & -> & Hf & Hr' & H); [intros ->; cbn in *; lia|done|]. exists st'.
    replace (length G - 1)%nat with (Z.to_nat (st_max_prefixes st)) in Hr' by lia. done.
  - exists st. rewrite take_ge by lia. by split_and!.
Qed.

Lemma limit_link_shown st k max G : limit_link fst k max (shown st <$> G) = shown st <$> limit_link snd k max G.
Proof. unfold limit_link. case_decide; [done|]. by apply keep_first_fmap. Qed.

Lemma limit_store_shown st max G : limit_store max (shown st <$> G) = shown st <$> limit_store max G.
Proof. unfold limit_store. case_decide; [done|]. by rewrite fmap_take. Qed.

Lemma limit_link_sublist k max G : sublist (limit_link snd k max G) G.
Proof. unfold limit_link. case_decide; [done|]. apply keep_first_sublist. Qed.

Lemma limit_store_sublist {A} max (l : list A) : sublist (limit_store max l) l.
Proof. unfold limit_store. case_decide; [done|]. apply sublist_take. Qed.

Lemma of_link_sublist k G G' : sublist G G' -> (length (of_link k G) <= length (of_link k G'))%nat.
Proof.
  induction 1 as [|e G G' _ IH|e G G' _ IH]; [done| |]; unfold of_link in *; rewrite !filter_cons; case_decide; cbn [length]; lia.
Qed.

Lemma of_link_limit k k' max G : length (of_link k' (limit_link snd k max G)) =
  if decide (k' = k /\ max ≠ 0) then Nat.min (Z.to_nat max) (length (of_link k G)) else length (of_link k' G).
Proof.
  unfold limit_link. destruct (decide (max = 0)) as [->|E]; [by rewrite decide_False by tauto|]. unfold of_link. case_decide as Ek.
  - destruct Ek as [-> _]. by rewrite keep_first_filter, length_take.
  - by rewrite keep_first_other by tauto.
Qed.

(** Within the limits there is nothing to remove. *)
Lemma limits_hold st G k link name max : in_limits st G -> 0 < st_max_prefixes st -> 0 <= max -> fixed_mem st !! k = Some (link, name, max) ->
  limit_store (st_max_prefixes st) (limit_link fst k max (shown st <$> G)) = shown st <$> G.
Proof.
  intros [H1 H2] Hp Hmax Hk. rewrite limit_link_shown, limit_store_shown. f_equal. assert (limit_link snd k max G = G) as ->.
  - unfold limit_link. case_decide as E; [done|]. specialize (H1 k link name max Hk E). apply keep_first_all. fold (of_link k G). lia.
  - unfold limit_store. case_decide; [done|]. apply take_ge. lia.
Qed.

Section caching.
Context `{SH : !StoreHost}.

(** What the host promises: the memory of a prefix has 16 bytes, texts of addresses are
    read back, and an address that is read has its size. *)
Class StoreHostOk : Prop := {
  malloc_memory n mem : store_malloc n = Some mem -> bytes_ok mem /\ length mem = 16%nat;
  store_inet :: InetText store_text store_pton;
  pton_addr f t a : store_pton f t = Some a -> inet_addr f a;
  text_plain f a : inet_addr f a -> Forall (fun c => is_space c = false) (store_text f a)
}.

Context `{HOK : !StoreHostOk}.

(** A found prefix moves to the front. *)
Lemma cache_found_spec st G k l p b : store_is st G -> link_mem st !! k = Some l -> p ∈ (of_link k G).*1 -> prefix_bits st p = b ->
  let st1 := set_st_prefixes (p :: without p (st_prefixes st)) st in
  let st' := if decide ((of_link k G).*1 !! 0%nat = Some p) then st1
             else pa_store_updated (put_link k (set_sl_prefixes (Some (p :: without p (of_link k G).*1)) l) st1) in
  store_is st' ((p, k) :: drop_entry p G) /\ frame st st' /\ fixed_mem st' = fixed_mem st /\ st_links st' = st_links st /\
  shown st' <$> (p, k) :: drop_entry p G = (k, b) :: filter (fun c => c ≠ (k, b)) (shown st <$> G).
Proof.
  intros [Hr Hlo [Hli1 Hli2] Ht Hmax] Hl Hp Hb st1 st'. apply list_elem_of_fmap in Hp as ([q c] & -> & [Ec Hin]%elem_of_of_link). cbn in Ec, Hin, Hb. subst c. cbn [fst] in *.
  pose proof (rp_nodup _ _ _ Hr) as Hn. set (X := (of_link k G).*1) in *.
  assert (Hmem : memory st' = memory (put_link k (set_sl_prefixes (Some (q :: without q X)) l) st1) \/ st' = st1 /\ q :: without q X = X).
  { unfold st'. case_decide as E; [right|left; apply updated_memory]. split; [done|]. destruct X as [|y X'] eqn:EX; [done|]. injection E as ->.
    apply without_head. rewrite <- EX. by apply of_link_nodup. }
  assert (Hf : frame st st').
  { unfold st'. case_decide; [by split|]. etransitivity; [|apply updated_frame]. by split. }
  assert (Hcalls : st_calls st' = st_calls st) by (unfold st'; case_decide; [done|by rewrite updated_calls]).
  assert (Hlinks : st_links st' = st_links st) by (unfold st'; case_decide; [done|by rewrite updated_links]).
  assert (Hfields : st_prefixes st' = q :: without q (st_prefixes st) /\ st_n_prefixes st' = st_n_prefixes st /\ prefix_mem st' = prefix_mem st /\
    (forall k', k' ≠ k -> link_mem st' !! k' = link_mem st !! k') /\ link_mem st' !! k = set_sl_prefixes (Some (q :: without q X)) <$> link_mem st !! k).
  { destruct Hmem as [[= E1 E2 E3 E4]|[-> EX]].
    - rewrite E1, E2, E3, E4. split_and!; try done; [intros; by rewrite lookup_insert_ne|]. by rewrite lookup_insert_eq, Hl.
    - split_and!; try done. unfold st1. cbn. rewrite Hl, EX. cbn. f_equal. destruct l as [l1 l2 l3 l4 l5]. pose proof (rp_list _ _ _ Hr k _ Hl) as E. cbn in E. by rewrite E. }
  destruct Hfields as (F1 & F2 & F3 & F4 & F5).
  assert (Hfix : fixed_mem st' = fixed_mem st).
  { unfold fixed_mem. apply map_eq. intros k'. rewrite !lookup_fmap. destruct (decide (k' = k)) as [->|]; [|by rewrite F4]. rewrite F5, Hl. done. }
  assert (Hlen : forall k', length (of_link k' ((q, k) :: drop_entry q G)) = length (of_link k' G)).
  { intros k'. destruct (decide (k' = k)) as [->|Hne].
    - rewrite of_link_cons_eq, of_link_drop. apply (drop_entry_length q k); [by apply of_link_nodup|by apply elem_of_of_link].
    - by rewrite of_link_cons_ne, (drop_entry_of_other q k) by done. }
  split_and!; try done.
  - split; [rewrite Hlinks; by eapply moved_represents|by rewrite Hfix| |by apply Hf|by rewrite (fr_max _ _ Hf)]. split.
    + intros k' link name max. rewrite Hfix, Hlen. apply Hli1.
    + rewrite (fr_max _ _ Hf). cbn [length]. pose proof (drop_entry_length q k G Hn Hin). lia.
  - rewrite fmap_cons. assert (shown st' <$> drop_entry q G = shown st <$> drop_entry q G) as -> by (apply list_fmap_ext; intros; unfold shown, prefix_bits; by rewrite F3).
    assert (Hq : shown st (q, k) = (k, b)) by (unfold shown; cbn; by rewrite Hb).
    assert (shown st' (q, k) = (k, b)) as -> by (rewrite <- Hq; unfold shown, prefix_bits; by rewrite F3). by rewrite (shown_drop st G q k), Hq by (done || apply Hr).
Qed.

(** A new prefix is put in front, and the limits are restored. *)
Lemma cache_new_spec st G k l mem x n : store_is st G -> link_mem st !! k = Some l -> store_malloc (st_calls st) = Some mem -> prefix_ok x n ->
  (forall p, p ∈ (of_link k G).*1 -> prefix_bits st p ≠ bits x 0 n) -> find_prefix st (of_link k G).*1 x n = Some None ->
  exists st' G', pa_store_cache k x n st = Some (st', 0) /\ store_is st' G' /\ frame st st' /\ fixed_mem st' ⊆ fixed_mem st /\
    shown st' <$> G' = limit_store (st_max_prefixes st) (limit_link fst k (sl_max_prefixes l) ((k, bits x 0 n) :: (shown st <$> G))).
Proof.
  intros [Hr Hlo [Hli1 Hli2] Ht Hmax] Hl Hm Hx Hnew Hfind. unfold pa_store_cache. rewrite Hl. cbn [mbind option_bind]. rewrite (rp_list _ _ _ Hr k l Hl). cbn [mbind option_bind].
  rewrite Hfind. cbn [mbind option_bind]. rewrite Hm. destruct (malloc_memory _ _ Hm) as [Hb Hlen]. destruct (pa_prefix_cpy_ok x n mem Hx Hb Hlen) as (y & -> & Hy & Ebits). cbn [mbind option_bind].
  cbv zeta. set (l1 := set_sl_n_prefixes _ _). set (st1 := set_st_n_prefixes _ _).
  assert (Hk : fixed_mem st !! k = Some (sl_link l, sl_name l, sl_max_prefixes l)) by (apply fixed_lookup; by exists l).
  destruct (lo_max _ Hlo _ _ _ _ Hk) as [Hl0 Hlown].
  destruct (added_represents (st_links st) st st1 G k l (st_calls st) (mk_pa_store_prefix y n) Hr Hl eq_refl Hy) as [Hr1 Hsh1]; cbn [sp_prefix sp_plen]; try done; [|lia|].
  { rewrite Ebits. intros ([q c] & E & Hq)%list_elem_of_fmap. unfold shown in E. cbn in E. injection E as -> E. apply (Hnew q); [|done].
    apply (list_elem_of_fmap_2' fst _ (q, c)); [by apply elem_of_of_link|done]. }
  cbn [sp_prefix sp_plen] in Hsh1. rewrite Ebits in Hsh1. assert (Hfix1 : fixed_mem st1 = fixed_mem st).
  { unfold fixed_mem, st1. cbn. rewrite fmap_insert. apply insert_id. by rewrite lookup_fmap, Hl. }
  assert (Hl1 : link_mem st1 !! k = Some l1) by (unfold st1; cbn; apply lookup_insert_eq).
  destruct (link_limit_step _ st1 _ k l1 Hr1 Hl1) as (st2 & -> & F2 & R2 & L2 & X2 & C2).
  { destruct (decide (own k)) as [Ho|Ho]; [right; by apply Hlown|left]. intros E. apply Ho, (lo_own _ Hlo _ _ _ _ Hk), E. }
  { done. }
  { intros E. rewrite of_link_cons_eq. cbn [length]. specialize (Hli1 _ _ _ _ Hk E). change (sl_max_prefixes l1) with (sl_max_prefixes l). lia. }
  { cbn [length]. lia. }
  cbn [mbind option_bind]. change (sl_max_prefixes l1) with (sl_max_prefixes l) in R2. set (G1 := (st_calls st, k) :: G) in *. set (G2 := limit_link _ _ _ G1) in *.
  assert (Hlen2 : (length G2 <= S (length G))%nat) by (apply (sublist_length _ G1), limit_link_sublist).
  assert (Hmax2 : st_max_prefixes st2 = st_max_prefixes st) by (by rewrite (fr_max _ _ F2)).
  destruct (store_limit_step st2 G2) as (st3 & -> & F3 & R3 & X3 & C3); [rewrite L2; exact R2|lia..|]. cbn [mbind option_bind].
  rewrite Hmax2 in R3. set (G3 := limit_store _ G2) in *. exists (pa_store_updated st3), G3. split; [done|].
  pose proof (updated_memory st3) as (M1 & M2 & M3)%memory_fields.
  assert (Hfix : fixed_mem (pa_store_updated st3) ⊆ fixed_mem st) by (unfold fixed_mem at 1; rewrite M1, <- Hfix1, <- X2; exact X3).
  assert (Hfr : frame st (pa_store_updated st3)).
  { etransitivity; [|apply updated_frame]. etransitivity; [|exact F3]. etransitivity; [|exact F2]. split; try done. cbn. lia. }
  split_and!; try done.
  - split; [rewrite updated_links; by apply updated_represents|by eapply links_ok_sub| |by apply Hfr|by rewrite (fr_max _ _ Hfr)]. split.
    + intros k' link name max Hk' Hne. pose proof (lookup_weaken _ _ _ _ Hk' Hfix) as Hk0. specialize (Hli1 _ _ _ _ Hk0 Hne).
      pose proof (of_link_sublist k' _ _ (limit_store_sublist (st_max_prefixes st) G2)) as Hs3. fold G3 in Hs3. pose proof (of_link_limit k k' (sl_max_prefixes l) G1) as Hs2. fold G2 in Hs2.
      case_decide as Ek; [|assert (length (of_link k' G1) = length (of_link k' G)); [|lia]; unfold G1].
      * destruct Ek as [-> _]. rewrite Hk in Hk0. injection Hk0 as <- <- <-. lia.
      * rewrite of_link_cons_ne; [done|]. intros ->. apply Ek. split; [done|]. by rewrite Hk in Hk0; injection Hk0 as _ _ ->.
    + rewrite (fr_max _ _ Hfr). unfold G3, limit_store. case_decide; [lia|]. rewrite length_take. lia.
  - rewrite <- Hsh1, limit_link_shown. fold G2. rewrite limit_store_shown. fold G3. unfold shown, prefix_bits. rewrite M2. apply (shown_memory st1 st3); [by etransitivity|].
    intros q Hq. by apply (rp_cells _ _ _ R3).
Qed.

(** The outcome of [pa_store_cache]: only memory may be missing. *)
Lemma cache_spec st G k l x n : store_is st G -> link_mem st !! k = Some l -> prefix_ok x n ->
  exists st' G' r, pa_store_cache k x n st = Some (st', r) /\ store_is st' G' /\ frame st st' /\ fixed_mem st' ⊆ fixed_mem st /\
    (r = 0 /\ shown st' <$> G' = remember k (bits x 0 n) (sl_max_prefixes l) (st_max_prefixes st) (shown st <$> G) \/
     r = -1 /\ store_malloc (st_calls st) = None /\ fixed_mem st' = fixed_mem st /\ shown st' <$> G' = shown st <$> G).
Proof.
  intros Hi Hl Hx. pose proof (si_rep _ _ Hi) as Hr. assert (Hk : fixed_mem st !! k = Some (sl_link l, sl_name l, sl_max_prefixes l)) by (apply fixed_lookup; by exists l).
  destruct (find_prefix_spec _ st G (of_link k G).*1 x n Hr Hx) as (r & Hf & Hres).
  { intros p (e & -> & [_ He]%elem_of_of_link)%list_elem_of_fmap. by apply list_elem_of_fmap_2. }
  destruct r as [p|].
  - destruct Hres as [Hin Hb]. destruct (cache_found_spec st G k l p _ Hi Hl Hin Hb) as (H1 & H2 & H3 & H4 & H5). unfold pa_store_cache. rewrite Hl. cbn [mbind option_bind].
    rewrite (rp_list _ _ _ Hr k l Hl). cbn [mbind option_bind]. rewrite Hf. cbn [mbind option_bind]. cbv zeta in *.
    set (st1 := set_st_prefixes _ st) in *. set (st' := if decide _ then _ else _) in H1, H2, H3, H4, H5. exists st', ((p, k) :: drop_entry p G), 0.
    split; [unfold st'; by case_decide|]. split_and!; [done..|by rewrite H3|]. left. split; [done|]. unfold remember. rewrite <- H5.
    rewrite <- (fr_max _ _ H2). symmetry. eapply limits_hold; [apply H1|apply H1| |by rewrite H3]. exact (proj1 (lo_max _ (si_links _ _ Hi) _ _ _ _ Hk)).
  - destruct (store_malloc (st_calls st)) as [mem|] eqn:Hm.
    + destruct (cache_new_spec st G k l mem x n Hi Hl Hm Hx Hres Hf) as (st' & G' & -> & H1 & H2 & H3 & H4). exists st', G', 0. split_and!; try done. left. split; [done|].
      unfold remember. rewrite H4. do 3 f_equal. symmetry. apply filter_all. intros c Hc ->. apply list_elem_of_fmap in Hc as ([q c] & E & Hq). unfold shown in E. cbn in E. injection E as -> E.
      apply (Hres q); [|done]. apply (list_elem_of_fmap_2' fst _ (q, c)); [by apply elem_of_of_link|done].
    + exists (called st), G, (-1). unfold pa_store_cache. rewrite Hl. cbn [mbind option_bind]. rewrite (rp_list _ _ _ Hr k l Hl). cbn [mbind option_bind].
      rewrite Hf. cbn [mbind option_bind]. rewrite Hm. split; [done|]. assert (frame st (called st)) by (split; try done; cbn; lia).
      split_and!; try done; [|right; by split_and!]. destruct Hi as [_ H1 H2 H3 H4]. split; try done. eapply represents_memory; [|cbn|exact Hr]; [done|lia].
Qed.
End caching.
