(* ===== verification/PaStoreLinks.v ===== *)
(** Links of the store: their prefixes stay when a link comes or goes. *)
From S2P Require Import Prelude Bitops Prefix Tlv PaTrie PaCore PaInv PaAdvertise PaRules PaStore PaStoreInv PaStoreCache.

Implicit Types (st : pa_store) (k : link_ptr) (p : nat) (G : list (nat * link_ptr)).

(** ** Finding a link *)

Lemma find_link_spec P st ks : (forall k, k ∈ ks -> is_Some (link_mem st !! k)) -> exists r, find_link P st ks = Some r /\
  match r with
  | Some k => k ∈ ks /\ exists l, link_mem st !! k = Some l /\ P l = true
  | None => forall k l, k ∈ ks -> link_mem st !! k = Some l -> P l = false
  end.
Proof.
  induction ks as [|k ks IH]; intros Hks; cbn [find_link]; [exists None; split; [done|]; by intros k l ?%not_elem_of_nil|].
  destruct (Hks k) as [l Hl]; [by left|]. rewrite Hl. cbn [mbind option_bind]. destruct (P l) eqn:HP.
  - exists (Some k). split; [done|]. split; [by left|by exists l].
  - destruct IH as (r & -> & H); [intros; apply Hks; by right|]. exists r. split; [done|]. destruct r as [k'|].
    + destruct H as [H1 H2]. split; [by right|done].
    + intros k' l' [->|Hk']%elem_of_cons Hl'; [congruence|by eapply H].
Qed.

(** ** Handing over the prefixes of a link *)

Definition hand_over (a b : link_ptr) (c : link_ptr) : link_ptr := if decide (c = a) then b else c.

Definition relabel (a b : link_ptr) G : list (nat * link_ptr) := (fun e => (e.1, hand_over a b e.2)) <$> G.

(** The same for prefixes with their links. *)
Definition move_prefixes (a b : link_ptr) (C : list (link_ptr * list bool)) : list (link_ptr * list bool) := (fun c => (hand_over a b c.1, c.2)) <$> C.

Lemma relabel_fst a b G : (relabel a b G).*1 = G.*1.
Proof. unfold relabel. rewrite <- list_fmap_compose. apply list_fmap_ext. by intros i []. Qed.

Lemma relabel_shown st a b G : shown st <$> relabel a b G = move_prefixes a b (shown st <$> G).
Proof. unfold relabel, move_prefixes. rewrite <- !list_fmap_compose. apply list_fmap_ext. by intros i []. Qed.

Section relabel.
Context (a b : link_ptr) (G : list (nat * link_ptr)).
Hypothesis Hb : forall p, (p, b) ∉ G.

Lemma of_link_fresh : of_link b G = [].
Proof. apply filter_none. intros [p c] Hin E. cbn in E. subst c. by apply (Hb p). Qed.

Lemma relabel_of_new : (of_link b (relabel a b G)).*1 = (of_link a G).*1.
Proof.
  induction G as [|[p c] G' IH]; [done|]. unfold of_link, relabel, hand_over in *. cbn [fmap list_fmap fst snd]. rewrite !filter_cons. cbn [snd].
  assert (c ≠ b) as Hc by (intros ->; apply (Hb p); by left). specialize (IH ltac:(intros q Hq; apply (Hb q); by right)).
  destruct (decide (c = a)) as [->|Hca]; [rewrite decide_True by done; cbn [fmap list_fmap fst]; by rewrite IH|by rewrite decide_False by done].
Qed.

Lemma relabel_of_other k : k ≠ a -> k ≠ b -> of_link k (relabel a b G) = of_link k G.
Proof.
  intros Ha Hk. clear Hb. induction G as [|[p c] G' IH]; [done|]. unfold of_link, relabel, hand_over in *. cbn [fmap list_fmap fst snd]. rewrite !filter_cons. cbn [snd].
  destruct (decide (c = a)) as [->|Hca]; [rewrite !decide_False by done; apply IH|]. case_decide; by rewrite IH.
Qed.

Lemma relabel_nodup st : NoDup (shown st <$> G) -> NoDup (shown st <$> relabel a b G).
Proof.
  intros Hn. rewrite relabel_shown. unfold move_prefixes. apply NoDup_fmap_2_strong; [|done].
  assert (Hne : forall c, c ∈ shown st <$> G -> c.1 ≠ b) by (intros c ([p d] & -> & Hin)%list_elem_of_fmap <-; by apply (Hb p)).
  intros [c1 d1] [c2 d2] H1%Hne H2%Hne. unfold hand_over. cbn in *. intros [= E ->]. f_equal. repeat case_decide; congruence.
Qed.

Lemma relabel_elem p c : (p, c) ∈ relabel a b G -> exists c', (p, c') ∈ G /\ c = hand_over a b c'.
Proof. intros ([q d] & [= -> ->] & Hin)%list_elem_of_fmap. by exists d. Qed.

Lemma relabel_represents L st st' la lb : represents L st G -> link_mem st !! a = Some la -> a ≠ b ->
  memory st' = (st_prefixes st, st_n_prefixes st, <[b := lb]> (delete a (link_mem st)), prefix_mem st) ->
  sl_prefixes lb = Some (of_link a G).*1 -> sl_n_prefixes lb = sl_n_prefixes la ->
  b ∉ L -> (st_calls st <= st_calls st')%nat -> (forall n, b = OwnLink n -> (n < st_calls st')%nat) ->
  represents (b :: without a L) st' (relabel a b G).
Proof.
  intros Hr Hla Hab [= E1 E2 E3 E4] Hps Hn HbL Hc Hown. assert (HaL : a ∈ L) by (apply (rp_dom _ _ _ Hr); by eexists).
  assert (Hsh : shown st' <$> relabel a b G = shown st <$> relabel a b G) by (apply list_fmap_ext; intros; unfold shown, prefix_bits; by rewrite E4).
  assert (Hlook : forall k l, link_mem st' !! k = Some l -> sl_prefixes l = Some (of_link k (relabel a b G)).*1 /\ sl_n_prefixes l = Z.of_nat (length (of_link k (relabel a b G)))).
  { intros k l. rewrite E3. intros [[<- <-]|[Hk [Hka Hl]%lookup_delete_Some]]%lookup_insert_Some.
    - rewrite relabel_of_new, Hps, Hn. split; [done|]. rewrite (rp_number _ _ _ Hr a la Hla), <- (length_fmap fst (of_link b _)), relabel_of_new, length_fmap. done.
    - rewrite relabel_of_other by done. split; [by apply (rp_list _ _ _ Hr)|by apply (rp_number _ _ _ Hr)]. }
  split; rewrite ?relabel_fst; try apply Hr.
  - rewrite E1. apply Hr.
  - rewrite E2, (rp_count _ _ _ Hr). unfold relabel. by rewrite length_fmap.
  - apply NoDup_cons. split; [by intros [_ ?]%list_elem_of_filter|apply NoDup_filter, Hr].
  - intros k. rewrite E3, elem_of_cons. unfold without. rewrite list_elem_of_filter, <- (rp_dom _ _ _ Hr).
    destruct (decide (k = b)) as [->|Hk]; [rewrite lookup_insert_eq; split; [by left|by eexists]|]. rewrite lookup_insert_ne by done.
    destruct (decide (k = a)) as [->|Hk']; [rewrite lookup_delete_eq; split; [by intros []|tauto]|rewrite lookup_delete_ne by done; tauto].
  - intros p c (c' & Hin & ->)%relabel_elem. apply elem_of_cons. unfold hand_over. case_decide; [by left|right]. apply list_elem_of_filter. split; [done|by apply (rp_owner _ _ _ Hr p)].
  - intros k l H%Hlook. apply H.
  - intros k l H%Hlook. apply H.
  - intros p. rewrite E4. apply Hr.
  - intros p e. rewrite E4. apply Hr.
  - rewrite Hsh. apply relabel_nodup, Hr.
  - intros p. rewrite E4. intros H%(rp_old _ _ _ Hr). lia.
  - intros n. rewrite E3. intros [l [[E _]|[_ [_ H]%lookup_delete_Some]]%lookup_insert_Some]; [by apply Hown|].
    assert (n < st_calls st)%nat; [|lia]. apply (rp_older _ _ _ Hr). by eexists.
Qed.

(** A link without prefixes. *)
Lemma fresh_represents L st st' lb : represents L st G -> b ∉ L -> memory st' = (st_prefixes st, st_n_prefixes st, <[b := lb]> (link_mem st), prefix_mem st) ->
  sl_prefixes lb = Some [] -> sl_n_prefixes lb = 0 -> (st_calls st <= st_calls st')%nat -> (forall n, b = OwnLink n -> (n < st_calls st')%nat) ->
  represents (b :: L) st' G.
Proof.
  intros Hr HbL [= E1 E2 E3 E4] Hps Hn Hc Hown.
  assert (Hsh : shown st' <$> G = shown st <$> G) by (apply list_fmap_ext; intros; unfold shown, prefix_bits; by rewrite E4).
  split; try apply Hr.
  - rewrite E1. apply Hr.
  - rewrite E2. apply Hr.
  - apply NoDup_cons. split; [done|apply Hr].
  - intros k. rewrite E3, elem_of_cons, <- (rp_dom _ _ _ Hr). destruct (decide (k = b)) as [->|]; [rewrite lookup_insert_eq; split; [by left|by eexists]|rewrite lookup_insert_ne by done; tauto].
  - intros p c Hin. right. by apply (rp_owner _ _ _ Hr p).
  - intros k l. rewrite E3. intros [[<- <-]|[_ Hl]]%lookup_insert_Some; [by rewrite of_link_fresh|by apply (rp_list _ _ _ Hr)].
  - intros k l. rewrite E3. intros [[<- <-]|[_ Hl]]%lookup_insert_Some; [by rewrite of_link_fresh|by apply (rp_number _ _ _ Hr)].
  - intros p. rewrite E4. apply Hr.
  - intros p e. rewrite E4. apply Hr.
  - rewrite Hsh. apply Hr.
  - intros p. rewrite E4. intros H%(rp_old _ _ _ Hr). lia.
  - intros n. rewrite E3. intros [l [[E _]|[_ H]]%lookup_insert_Some]; [by apply Hown|]. assert (n < st_calls st)%nat; [|lia]. apply (rp_older _ _ _ Hr). by eexists.
Qed.
End relabel.

(** ** Prefixes by the names of their links *)

Definition link_name st k : list Z := match link_mem st !! k with Some l => sl_name l | None => [] end.

Definition by_name st (C : list (link_ptr * list bool)) : list (list Z * list bool) := (fun c => (link_name st c.1, c.2)) <$> C.

(** What the store has cached, the most recent prefix first. *)
Definition cached st : list (list Z * list bool) := by_name st (contents st).

Lemma link_name_fixed st k link name max : fixed_mem st !! k = Some (link, name, max) -> link_name st k = name.
Proof. intros (l & Hl & [= _ E _])%fixed_lookup. unfold link_name. by rewrite Hl. Qed.

Lemma fixed_is_Some st k : is_Some (fixed_mem st !! k) <-> is_Some (link_mem st !! k).
Proof. unfold fixed_mem. by rewrite lookup_fmap, fmap_is_Some. Qed.

Lemma link_name_sub st st' k : fixed_mem st' ⊆ fixed_mem st -> is_Some (link_mem st' !! k) -> link_name st' k = link_name st k.
Proof.
  intros Hs Hk. apply fixed_is_Some in Hk as [[[link name] max] Hk]. rewrite (link_name_fixed _ _ _ _ _ Hk).
  by rewrite (link_name_fixed _ _ _ _ _ (lookup_weaken _ _ _ _ Hk Hs)).
Qed.

Lemma link_name_inj st k k' : links_ok (fixed_mem st) -> is_Some (link_mem st !! k) -> is_Some (link_mem st !! k') -> link_name st k = link_name st k' -> k = k'.
Proof.
  intros Ho Hk Hk'. apply fixed_is_Some in Hk as [[[l1 n1] m1] Hk], Hk' as [[[l2 n2] m2] Hk'].
  rewrite (link_name_fixed _ _ _ _ _ Hk), (link_name_fixed _ _ _ _ _ Hk'). intros ->. by eapply (lo_unique _ Ho).
Qed.

Lemma cached_spec st G : represents (st_links st) st G -> cached st = by_name st (shown st <$> G).
Proof. intros Hr. unfold cached. by rewrite (contents_spec st G Hr). Qed.

Lemma shown_live L st G c : represents L st G -> c ∈ shown st <$> G -> is_Some (link_mem st !! c.1).
Proof. intros Hr ([p k] & -> & Hin)%list_elem_of_fmap. by apply (rp_dom _ _ _ Hr), (rp_owner _ _ _ Hr p). Qed.

Lemma by_name_sub st st' C : fixed_mem st' ⊆ fixed_mem st -> (forall c, c ∈ C -> is_Some (link_mem st' !! c.1)) -> by_name st' C = by_name st C.
Proof. intros Hs Hc. apply list_fmap_ext. intros i c Hin%list_elem_of_lookup_2. f_equal. by apply link_name_sub, Hc. Qed.

Lemma limit_link_map {A B : Type} `{EqDecision A, EqDecision B} (f : A -> B) (k : A) max (C : list (A * list bool)) : (forall c, c ∈ C -> f c.1 = f k -> c.1 = k) ->
  (fun c => (f c.1, c.2)) <$> limit_link fst k max C = limit_link fst (f k) max ((fun c => (f c.1, c.2)) <$> C).
Proof.
  intros Hf. unfold limit_link. case_decide; [done|]. rewrite (keep_first_fmap (fun c => f c.1)) by done. f_equal. apply keep_first_ext. intros c Hc.
  split; [by intros ->|by apply Hf].
Qed.

(** Renaming links does not change how prefixes are remembered. *)
Lemma remember_map {A B : Type} `{EqDecision A, EqDecision B} (f : A -> B) (k : A) b lm sm (C : list (A * list bool)) : (forall c, c ∈ C -> f c.1 = f k -> c.1 = k) ->
  (fun c => (f c.1, c.2)) <$> remember k b lm sm C = remember (f k) b lm sm ((fun c => (f c.1, c.2)) <$> C).
Proof.
  intros Hf. unfold remember, limit_store. assert (E : (fun c => (f c.1, c.2)) <$> limit_link fst k lm ((k, b) :: filter (fun c => c ≠ (k, b)) C) =
    limit_link fst (f k) lm ((f k, b) :: filter (fun c => c ≠ (f k, b)) ((fun c => (f c.1, c.2)) <$> C))).
  { rewrite limit_link_map.
    - rewrite fmap_cons, fmap_filter. cbn [fst snd]. do 3 f_equal. apply filter_ext_in. intros [c d] Hc. cbn. split; [|by intros Hne [= -> ->]].
      intros Hne [= Ek ->]. apply Hne. f_equal. by apply (Hf (c, b)).
    - intros c [->|Hc]%elem_of_cons; [done|]. apply Hf. by apply list_elem_of_filter in Hc as [_ ?]. }
  case_decide; [done|]. by rewrite fmap_take, E.
Qed.

(** ** Caching, by names *)

Section links.
Context `{SH : !StoreHost, HOK : !StoreHostOk}.

Lemma cache_named st G k l x n : store_is st G -> link_mem st !! k = Some l -> prefix_ok x n ->
  exists st' G' r, pa_store_cache k x n st = Some (st', r) /\ store_is st' G' /\ frame st st' /\ fixed_mem st' ⊆ fixed_mem st /\
    (r = 0 /\ cached st' = remember (sl_name l) (bits x 0 n) (sl_max_prefixes l) (st_max_prefixes st) (cached st) \/
     r = -1 /\ store_malloc (st_calls st) = None /\ fixed_mem st' = fixed_mem st /\ cached st' = cached st).
Proof.
  intros Hi Hl Hx. destruct (cache_spec st G k l x n Hi Hl Hx) as (st' & G' & r & -> & Hi' & Hf & Hsub & H). exists st', G', r. do 4 (split; [done|]).
  rewrite (cached_spec st G (si_rep _ _ Hi)), (cached_spec st' G' (si_rep _ _ Hi')). rewrite (by_name_sub st st') by (done || intros c; apply shown_live with (L := st_links st'), Hi').
  destruct H as [[-> ->]|(-> & Hm & Hsame & ->)]; [left|by right]. split; [done|]. unfold by_name. rewrite (remember_map (link_name st)); [unfold link_name at 1; by rewrite Hl|].
  intros c Hc E. apply (link_name_inj st); [apply Hi|by eapply shown_live, Hc; apply Hi|by eexists|done].
Qed.

(** ** Get or create *)

Definition has_name st (name : list Z) k : Prop := exists link max, fixed_mem st !! k = Some (link, name, max).

Lemma find_named st G name : store_is st G -> exists r, find_link (named name) st (st_links st) = Some r /\
  match r with Some k => has_name st name k | None => forall k, ~ has_name st name k end.
Proof.
  intros Hi. pose proof (si_rep _ _ Hi) as Hr. destruct (find_link_spec (named name) st (st_links st)) as (r & -> & H); [intros k; apply Hr|]. exists r. split; [done|].
  destruct r as [k|].
  - destruct H as (_ & l & Hl & Hn%bool_decide_eq_true). exists (sl_link l), (sl_max_prefixes l). apply fixed_lookup. exists l. unfold fixed. by rewrite Hn.
  - intros k (link & max & (l & Hl & [= _ E _])%fixed_lookup). assert (named name l = false) as Hb; [|by apply bool_decide_eq_false in Hb].
    apply (H k l); [|done]. apply (rp_dom _ _ _ Hr). by eexists.
Qed.

Lemma links_ok_insert m k link name max : links_ok m -> m !! k = None -> (link = None <-> own k) -> (own k -> name ≠ []) -> (length name < PA_STORE_NAMELEN)%nat ->
  0 <= max -> (own k -> max = 0) -> (forall k' link' max', m !! k' ≠ Some (link', name, max')) -> links_ok (<[k := (link, name, max)]> m).
Proof.
  intros Ho Hk H1 H2 H3 H4 H5 Hn. split.
  - intros k' link' name' max'. intros [[<- [= <- <- <-]]|[_ H]]%lookup_insert_Some; [done|by eapply (lo_own _ Ho)].
  - intros k' link' name' max'. intros [[<- [= <- <- <-]]|[_ H]]%lookup_insert_Some; [done|by eapply (lo_name _ Ho)].
  - intros k' link' name' max'. intros [[<- [= <- <- <-]]|[_ H]]%lookup_insert_Some; [done|by eapply (lo_max _ Ho)].
  - intros k1 k2 link1 link2 name' max1 max2 [[<- E1]|[_ Ha]]%lookup_insert_Some [[<- E2]|[_ Hb]]%lookup_insert_Some; try done.
    + injection E1 as <- <- <-. by apply Hn in Hb.
    + injection E2 as <- <- <-. by apply Hn in Ha.
    + by eapply (lo_unique _ Ho).
Qed.

Lemma goc_spec st G name : store_is st G -> name ≠ [] -> (length name < PA_STORE_NAMELEN)%nat ->
  exists st' r, pa_store_link_goc st name true = Some (st', r) /\ store_is st' G /\ frame st st' /\ fixed_mem st ⊆ fixed_mem st' /\ prefix_mem st' = prefix_mem st /\
    (forall k, is_Some (fixed_mem st' !! k) -> is_Some (fixed_mem st !! k) \/ own k) /\
    match r with Some k => has_name st' name k | None => store_malloc (st_calls st) = None end.
Proof.
  intros Hi Hne Hlen. pose proof (si_rep _ _ Hi) as Hr. unfold pa_store_link_goc. destruct (find_named st G name Hi) as (r & -> & Hf). cbn [mbind option_bind]. destruct r as [k|].
  { exists st, (Some k). split_and!; try done. by left. }
  cbn [negb].
  destruct (store_malloc (st_calls st)) as [mem|].
  - rewrite decide_False by lia. set (k := OwnLink (st_calls st)). set (st' := set_st_links _ _). exists st', (Some k). split; [done|].
    assert (Hnone : link_mem st !! k = None).
    { apply eq_None_not_Some. intros H%(rp_older _ _ _ Hr). lia. }
    assert (Hfix : fixed_mem st' = <[k := (None, name, 0)]> (fixed_mem st)) by (unfold fixed_mem; change (link_mem st') with (<[k := mk_pa_store_link None name 0 (Some []) 0]> (link_mem st)); by rewrite fmap_insert).
    assert (HkL : k ∉ st_links st) by (rewrite <- (rp_dom _ _ _ Hr), Hnone; by intros []).
    assert (HkG : forall p, (p, k) ∉ G) by (by intros p H%(rp_owner _ _ _ Hr)). pose proof (of_link_fresh k G HkG) as Hnil.
    assert (Hfr : frame st st') by (split; try done; cbn; lia).
    assert (Hf0 : fixed_mem st !! k = None) by (unfold fixed_mem; by rewrite lookup_fmap, Hnone).
    split_and!; try done.
    + split; [apply (fresh_represents k G HkG (st_links st) st st' (mk_pa_store_link None name 0 (Some []) 0)); try done; [cbn; lia|]; intros n [= <-]; cbn; lia| | |by apply Hfr, Hi|apply Hi].
      * rewrite Hfix. apply links_ok_insert; try done; [apply Hi|]. intros k' link' max' H. apply (Hf k'). by exists link', max'.
      * destruct (si_limits _ _ Hi) as [H1 H2]. split; [|done]. intros k' link' name' max'. rewrite Hfix. intros [[<- [= <- <- <-]]|[_ H]]%lookup_insert_Some; [done|by eapply H1].
    + rewrite Hfix. by apply insert_subseteq.
    + intros k'. rewrite Hfix. destruct (decide (k' = k)) as [->|]; [by right|rewrite lookup_insert_ne by done; by left].
    + exists None, 0. rewrite Hfix. apply lookup_insert_eq.
  - exists (called st), None. split; [done|]. split_and!; try done; [|split; try done; cbn; lia|by left]. destruct Hi as [_ H1 H2 H3 H4]. split; try done.
    eapply represents_memory; [|cbn|exact Hr]; [done|lia].
Qed.

(** ** Adding a link *)

(** A link of a user that may be added: no other link of a user has its name. *)
Definition addable st k (link : pa_store_link) : Prop :=
  ~ own k /\ (k ∉ st_links st) /\ sl_link link ≠ None /\ (length (sl_name link) < PA_STORE_NAMELEN)%nat /\ 0 <= sl_max_prefixes link /\
  map_Forall (fun k' f => f.1.2 = sl_name link -> own k') (fixed_mem st).

Lemma find_link_put P k l st ks : k ∉ ks -> find_link P (put_link k l st) ks = find_link P st ks.
Proof.
  induction ks as [|k' ks IH]; [done|]. intros [Hk Hks]%not_elem_of_cons. cbn [find_link]. change (link_mem (put_link k l st)) with (<[k := l]> (link_mem st)). rewrite lookup_insert_ne by done.
  destruct (link_mem st !! k'); [|done]. cbn [mbind option_bind]. by rewrite IH.
Qed.

Lemma limit_link_absent {A K} `{EqDecision K} (key : A -> K) (k : K) max (l : list A) : (forall x, x ∈ l -> key x ≠ k) -> limit_link key k max l = l.
Proof. intros Hk. unfold limit_link. case_decide; [done|]. apply keep_first_all. rewrite filter_none by done. cbn. lia. Qed.

Lemma cached_has_name st G c : represents (st_links st) st G -> c ∈ cached st -> exists k, has_name st c.1 k.
Proof.
  intros Hr. rewrite (cached_spec st G Hr). intros (d & -> & Hd)%list_elem_of_fmap. apply (shown_live _ _ _ _ Hr) in Hd. apply fixed_is_Some in Hd as [[[link name] max] Hk].
  exists d.1, link, max. cbn. by rewrite (link_name_fixed _ _ _ _ _ Hk).
Qed.

(** No prefixes are known for its name. *)
Lemma link_add_new st G k link : store_is st G -> addable st k link -> (forall k', ~ has_name st (sl_name link) k') ->
  let st' := set_st_links (k :: st_links st) (put_link k (set_sl_n_prefixes 0 (set_sl_prefixes (Some []) link)) st) in
  store_is st' G /\ frame st st' /\ fixed_mem st' = <[k := fixed link]> (fixed_mem st) /\ cached st' = cached st.
Proof.
  intros Hi (Hown & HkL & Hlk & Hlen & Hmax & _) Hno st'. pose proof (si_rep _ _ Hi) as Hr. set (l0 := set_sl_n_prefixes _ _) in *.
  assert (HkG : forall p, (p, k) ∉ G) by (by intros p H%(rp_owner _ _ _ Hr)). pose proof (of_link_fresh k G HkG) as Hnil.
  assert (Hfix : fixed_mem st' = <[k := fixed link]> (fixed_mem st)) by (unfold fixed_mem; change (link_mem st') with (<[k := l0]> (link_mem st)); by rewrite fmap_insert).
  assert (Hnone : link_mem st !! k = None) by (apply eq_None_not_Some; by rewrite (rp_dom _ _ _ Hr)).
  assert (Hrep : represents (st_links st') st' G).
  { apply (fresh_represents k G HkG (st_links st) st st' l0); try done. intros n ->. by destruct Hown. }
  split_and!; try done.
  - split; [done| | |apply Hi|apply Hi].
    + rewrite Hfix. apply links_ok_insert; try done; [apply Hi|unfold fixed_mem; by rewrite lookup_fmap, Hnone|]. intros k' link' max' H. apply (Hno k'). by exists link', max'.
    + destruct (si_limits _ _ Hi) as [H1 H2]. split; [|done]. intros k' link' name' max'. rewrite Hfix. intros [[<- [= <- <- <-]]|[_ H]]%lookup_insert_Some; [rewrite Hnil; cbn; lia|by eapply H1].
  - rewrite (cached_spec st G Hr), (cached_spec st' G Hrep). change (shown st' <$> G) with (shown st <$> G). symmetry. apply by_name_sub; [|intros c; by apply shown_live with (L := st_links st)].
    rewrite Hfix. apply insert_subseteq. unfold fixed_mem. by rewrite lookup_fmap, Hnone.
Qed.

(** Names and prefixes stay together when a link hands its prefixes over to one of the
    same name. *)
Lemma by_name_move st st' a b C : link_name st' b = link_name st a -> (forall c, c ∈ C -> c.1 ≠ a -> link_name st' c.1 = link_name st c.1) ->
  by_name st' (move_prefixes a b C) = by_name st C.
Proof.
  intros Hab Hc. unfold by_name, move_prefixes. rewrite <- list_fmap_compose. apply list_fmap_ext. intros i c Hin%list_elem_of_lookup_2. cbn. f_equal.
  unfold hand_over. case_decide as E; [by rewrite Hab, E|by apply Hc].
Qed.

(** A link takes over the prefixes of another one of the same name. *)
Section takes_over.
Context (st : pa_store) (G : list (nat * link_ptr)) (a b : link_ptr) (la lb : pa_store_link) (st1 : pa_store).
Hypothesis Hi : store_is st G.
Hypothesis Hla : link_mem st !! a = Some la.
Hypothesis Hb : b ∉ st_links st.
Hypothesis Hname : sl_name lb = sl_name la.
Hypothesis Hps : sl_prefixes lb = Some (of_link a G).*1.
Hypothesis Hn : sl_n_prefixes lb = sl_n_prefixes la.
Hypothesis Hkind : sl_link lb = None <-> own b.
Hypothesis Hnamed : own b -> sl_name la ≠ [].
Hypothesis Hmax : 0 <= sl_max_prefixes lb /\ (own b -> sl_max_prefixes lb = 0).
Hypothesis Hmem : memory st1 = (st_prefixes st, st_n_prefixes st, <[b := lb]> (delete a (link_mem st)), prefix_mem st).
Hypothesis Hframe : frame st st1.
Hypothesis Hfresh : forall n, b = OwnLink n -> (n < st_calls st1)%nat.

Lemma over_ne : a ≠ b.
Proof. intros <-. apply Hb, (rp_dom _ _ _ (si_rep _ _ Hi)). by eexists. Qed.

Lemma over_entries p : (p, b) ∉ G.
Proof. intros H. by apply Hb, (rp_owner _ _ _ (si_rep _ _ Hi) p). Qed.

Lemma over_fixed : fixed_mem st1 = <[b := fixed lb]> (delete a (fixed_mem st)).
Proof. unfold fixed_mem. injection Hmem as _ _ -> _. by rewrite fmap_insert, fmap_delete. Qed.

Lemma over_represents : represents (b :: without a (st_links st)) st1 (relabel a b G).
Proof. by apply (relabel_represents a b G over_entries (st_links st) st st1 la lb (si_rep _ _ Hi) Hla over_ne Hmem Hps Hn Hb), Hfresh; apply Hframe. Qed.

Lemma over_links_ok : links_ok (fixed_mem st1).
Proof.
  rewrite over_fixed. assert (Ha : fixed_mem st !! a = Some (sl_link la, sl_name la, sl_max_prefixes la)) by (apply fixed_lookup; by exists la).
  destruct (lo_name _ (si_links _ _ Hi) _ _ _ _ Ha) as [N1 N2]. unfold fixed. apply links_ok_insert; rewrite ?Hname; try tauto.
  - eapply links_ok_sub; [apply delete_subseteq|apply Hi].
  - rewrite lookup_delete_ne by apply over_ne. apply eq_None_not_Some. by rewrite fixed_is_Some, (rp_dom _ _ _ (si_rep _ _ Hi)).
  - intros k' link' max' [Hk' H]%lookup_delete_Some. apply Hk'. by eapply (lo_unique _ (si_links _ _ Hi)).
Qed.

(** After the limit of the link is restored. *)
Lemma over_limited st2 G2 : G2 = limit_link snd b (sl_max_prefixes lb) (relabel a b G) -> represents (b :: without a (st_links st)) st2 G2 ->
  frame st1 st2 -> fixed_mem st2 = fixed_mem st1 -> prefix_mem st2 ⊆ prefix_mem st1 -> st_links st2 = b :: without a (st_links st) ->
  store_is st2 G2 /\ frame st st2 /\ cached st2 = limit_link fst (sl_name lb) (sl_max_prefixes lb) (cached st).
Proof.
  intros HG Hr2 Hf2 Hx2 Hc2 HL2. assert (Hf : frame st st2) by (by etransitivity). destruct (si_limits _ _ Hi) as [H1 H2]. destruct Hmax as [Hmax0 Hmaxo].
  assert (Hi2 : store_is st2 G2).
  { split; [by rewrite HL2|rewrite Hx2; apply over_links_ok| |apply Hf, Hi|rewrite (fr_max _ _ Hf); apply Hi]. split.
    - intros k' link' name' max'. rewrite Hx2, over_fixed, HG, of_link_limit. intros [[<- [= <- <- <-]]|[Hk [Hk' H]%lookup_delete_Some]]%lookup_insert_Some Hne.
      + rewrite decide_True by done. lia.
      + rewrite decide_False by (intros [-> _]; done). rewrite relabel_of_other by done. by eapply H1.
    - rewrite (fr_max _ _ Hf). pose proof (sublist_length _ _ (limit_link_sublist b (sl_max_prefixes lb) (relabel a b G))) as Hl. rewrite <- HG in Hl.
      unfold relabel in Hl. rewrite length_fmap in Hl. lia. }
  split; [done|]. split; [done|]. rewrite (cached_spec st2 G2 (si_rep _ _ Hi2)), (cached_spec st G (si_rep _ _ Hi)).
  rewrite (shown_memory st1 st2) by (done || intros p Hp; by apply (rp_cells _ _ _ Hr2)).
  assert (Hsh : shown st1 <$> relabel a b G = move_prefixes a b (shown st <$> G)).
  { rewrite <- relabel_shown. apply list_fmap_ext. intros. unfold shown, prefix_bits. by injection Hmem as _ _ _ ->. }
  rewrite HG, <- limit_link_shown, Hsh.
  assert (Hnb : link_name st2 b = sl_name lb) by (apply (link_name_fixed _ _ (sl_link lb) _ (sl_max_prefixes lb)); rewrite Hx2, over_fixed; apply lookup_insert_eq).
  rewrite <- Hnb, <- (by_name_move st st2 a b).
  - apply limit_link_map. intros c Hc E. rewrite <- Hsh in Hc. apply (link_name_inj st2); [apply Hi2| | |done].
    + apply (shown_live _ _ _ _ over_represents) in Hc. by rewrite <- fixed_is_Some, Hx2, fixed_is_Some.
    + rewrite (rp_dom _ _ _ Hr2). by left.
  - rewrite Hnb, Hname. unfold link_name. by rewrite Hla.
  - intros c Hc Hca. pose proof (shown_live _ _ _ _ (si_rep _ _ Hi) Hc) as Hs. apply fixed_is_Some in Hs as [[[link name] max] Hs]. rewrite (link_name_fixed _ _ _ _ _ Hs).
    assert (b ≠ c.1) by (intros ->; apply Hb, (rp_dom _ _ _ (si_rep _ _ Hi)), fixed_is_Some; by eexists).
    apply (link_name_fixed _ _ link _ max). rewrite Hx2, over_fixed, lookup_insert_ne, lookup_delete_ne by done. done.
Qed.
End takes_over.

Lemma link_add_spec st G k link : store_is st G -> addable st k link -> exists st' G', pa_store_link_add k link st = Some st' /\ store_is st' G' /\ frame st st' /\
  cached st' = limit_link fst (sl_name link) (sl_max_prefixes link) (cached st).
Proof.
  intros Hi Hadd. pose proof Hadd as (Hown & HkL & Hlk & _ & Hmax & Hus). pose proof (si_rep _ _ Hi) as Hr. unfold pa_store_link_add. rewrite decide_False by done. cbv zeta.
  set (l0 := set_sl_n_prefixes 0 _). unfold pa_store_link_goc. change (st_links (put_link k l0 st)) with (st_links st). rewrite find_link_put by done.
  change (sl_name l0) with (sl_name link). destruct (find_named st G (sl_name link) Hi) as (r & -> & Hf). cbn [mbind option_bind negb]. destruct r as [kl|]; cbn [mbind option_bind].
  - destruct Hf as (lk & max & Hlk'). pose proof (Hus kl _ Hlk' eq_refl) as Hko. apply fixed_lookup in Hlk' as (l & Hl & El). injection El as El1 El2 El3.
    assert (Hkne : k ≠ kl) by (by intros ->). change (link_mem (put_link k l0 st)) with (<[k := l0]> (link_mem st)). rewrite lookup_insert_ne, Hl by done. cbn [mbind option_bind].
    rewrite (rp_list _ _ _ Hr kl l Hl). cbn [mbind option_bind]. rewrite decide_True.
    2: { assert (fixed_mem st !! kl = Some (sl_link l, sl_name l, sl_max_prefixes l)) as H by (apply fixed_lookup; by exists l). by apply (lo_own _ (si_links _ _ Hi) _ _ _ _ H). }
    set (lb := set_sl_n_prefixes (sl_n_prefixes l) _). set (st1 := pa_store_private_link_destroy kl _).
    assert (Hmem : memory st1 = (st_prefixes st, st_n_prefixes st, <[k := lb]> (delete kl (link_mem st)), prefix_mem st)).
    { unfold memory, st1. cbn. by rewrite insert_insert_eq, delete_insert_ne by done. }
    assert (Hfr : frame st st1) by done.
    assert (Hkind : sl_link lb = None <-> own k) by (change (sl_link lb) with (sl_link link); tauto).
    assert (Hmx : 0 <= sl_max_prefixes lb /\ (own k -> sl_max_prefixes lb = 0)) by (change (sl_max_prefixes lb) with (sl_max_prefixes link); tauto).
    assert (Hfresh : forall n, k = OwnLink n -> (n < st_calls st1)%nat) by (intros n ->; by destruct Hown).
    assert (Hlb : link_mem st1 !! k = Some lb) by (change (link_mem st1) with ((memory st1).1.2); rewrite Hmem; apply lookup_insert_eq).
    assert (Hr1 : represents (k :: without kl (st_links st)) st1 (relabel kl k G)) by (by apply (over_represents st G kl k l lb st1)).
    destruct (trim_spec _ st1 _ k lb Hr1 Hlb) as (st2 & -> & F2 & R2 & L2 & X2 & C2); [by left|lia| |].
    { unfold relabel. rewrite length_fmap. destruct (si_limits _ _ Hi) as [_ ?], (si_max _ _ Hi). lia. }
    cbn [mbind option_bind]. eexists _, _. split; [done|].
    eapply (over_limited st G kl k l lb st1); try done; [|split; apply F2|cbn; by rewrite L2].
    eapply represents_memory; [| |exact R2]; done.
  - destruct (link_add_new st G k link Hi Hadd Hf) as (H1 & H2 & _ & H4). eexists _, G. split; [done|]. split; [exact H1|]. split; [exact H2|]. etransitivity; [exact H4|].
    symmetry. apply limit_link_absent. intros c Hc E. destruct (cached_has_name st G c Hr Hc) as [k' Hk']. rewrite E in Hk'. by apply (Hf k').
Qed.

(** ** Removing a link *)

Lemma removed_represents L st G k : represents L st G -> of_link k G = [] -> forall st', memory st' = (st_prefixes st, st_n_prefixes st, delete k (link_mem st), prefix_mem st) ->
  st_calls st' = st_calls st -> represents (without k L) st' G.
Proof.
  intros Hr Hnil st' [= E1 E2 E3 E4] E5.
  assert (Hsh : shown st' <$> G = shown st <$> G) by (apply list_fmap_ext; intros; unfold shown, prefix_bits; by rewrite E4).
  split; rewrite ?E1, ?E2, ?E4, ?E5, ?Hsh; try apply Hr.
  - apply NoDup_filter, Hr.
  - intros k'. rewrite E3. unfold without. rewrite list_elem_of_filter, <- (rp_dom _ _ _ Hr).
    destruct (decide (k' = k)) as [->|]; [rewrite lookup_delete_eq; split; [by intros []|tauto]|rewrite lookup_delete_ne by done; tauto].
  - intros p c Hin. apply list_elem_of_filter. split; [|by apply (rp_owner _ _ _ Hr p)]. intros ->. assert (H : (p, k) ∈ of_link k G) by (by apply elem_of_of_link).
    rewrite Hnil in H. by apply not_elem_of_nil in H.
  - intros k' l. rewrite E3. intros [_ H]%lookup_delete_Some. by apply (rp_list _ _ _ Hr).
  - intros k' l. rewrite E3. intros [_ H]%lookup_delete_Some. by apply (rp_number _ _ _ Hr).
  - intros n. rewrite E3. intros [l [_ H]%lookup_delete_Some]. apply (rp_older _ _ _ Hr). by eexists.
Qed.

(** A link without prefixes just goes. *)
Lemma link_remove_empty st G k : store_is st G -> of_link k G = [] ->
  let st' := set_st_links (without k (st_links st)) (set_link_mem (delete k (link_mem st)) st) in store_is st' G /\ frame st st' /\ cached st' = cached st.
Proof.
  intros Hi Hnil st'. pose proof (si_rep _ _ Hi) as Hr.
  assert (Hrep : represents (st_links st') st' G) by (by apply (removed_represents (st_links st) st G k Hr Hnil)).
  assert (Hfix : fixed_mem st' ⊆ fixed_mem st) by (unfold fixed_mem; change (link_mem st') with (delete k (link_mem st)); rewrite fmap_delete; apply delete_subseteq).
  split_and!; try done.
  - split; [done|eapply links_ok_sub; [exact Hfix|apply Hi]| |apply Hi|apply Hi]. destruct (si_limits _ _ Hi) as [H1 H2]. split; [|done].
    intros k' link name max Hk'. eapply H1, lookup_weaken; [exact Hk'|done].
  - rewrite (cached_spec st G Hr), (cached_spec st' G Hrep). change (shown st' <$> G) with (shown st <$> G). apply by_name_sub; [done|].
    intros c Hc. by apply (shown_live (st_links st') st' G).
Qed.

(** Otherwise its prefixes go to a link of the store; without a name or without memory for
    it, they are freed by a loop that goes on from a prefix it has freed. *)
Definition removable st k : Prop := k ∈ st_links st /\ ~ own k.

Definition remove_faults st k : Prop :=
  exists l, link_mem st !! k = Some l /\ sl_n_prefixes l ≠ 0 /\ (sl_name l = [] \/ store_malloc (st_calls st) = None).

Lemma find_none P st ks : (forall k, k ∈ ks -> exists l, link_mem st !! k = Some l /\ P l = false) -> find_link P st ks = Some None.
Proof.
  induction ks as [|k ks IH]; intros H; [done|]. cbn [find_link]. destruct (H k) as (l & -> & E); [by left|]. cbn [mbind option_bind]. rewrite E.
  apply IH. intros; apply H; by right.
Qed.

(** No other link has the name of the one that goes. *)
Lemma find_after_removal st G k l : store_is st G -> link_mem st !! k = Some l ->
  find_link (named (sl_name l)) (set_st_links (without k (st_links st)) (set_link_mem (delete k (link_mem st)) st)) (without k (st_links st)) = Some None.
Proof.
  intros Hi Hl. apply find_none. intros k' [Hk' Hin]%list_elem_of_filter. apply (rp_dom _ _ _ (si_rep _ _ Hi)) in Hin as [l' Hl']. exists l'. cbn.
  split; [by rewrite lookup_delete_ne|]. apply bool_decide_eq_false. intros E. apply Hk'. apply (lo_unique _ (si_links _ _ Hi) k' k (sl_link l') (sl_link l) (sl_name l) (sl_max_prefixes l') (sl_max_prefixes l));
    apply fixed_lookup; [exists l'; split; [done|unfold fixed; by rewrite E]|by exists l].
Qed.

Lemma link_remove_spec st G k : store_is st G -> removable st k -> ~ remove_faults st k -> exists st' G', pa_store_link_remove k st = Some st' /\ store_is st' G' /\ frame st st' /\ cached st' = cached st.
Proof.
  intros Hi (Hk & Hown) Hnf. pose proof (si_rep _ _ Hi) as Hr. destruct (proj2 (rp_dom _ _ _ Hr k) Hk) as [l Hl]. unfold pa_store_link_remove. rewrite Hl. cbn [mbind option_bind].
  cbv zeta. set (st1 := set_st_links _ _). case_decide as En.
  { rewrite (rp_number _ _ _ Hr k l Hl) in En. eexists _, G. split; [done|]. apply link_remove_empty; [done|]. apply length_zero_iff_nil. lia. }
  assert (N1 : sl_name l ≠ []) by (intros E; apply Hnf; exists l; tauto).
  destruct (store_malloc (st_calls st)) as [mem|] eqn:Hm; [|destruct Hnf; exists l; tauto].
  assert (Hf : fixed_mem st !! k = Some (sl_link l, sl_name l, sl_max_prefixes l)) by (apply fixed_lookup; by exists l). destruct (lo_name _ (si_links _ _ Hi) _ _ _ _ Hf) as [_ N2].
  rewrite (rp_list _ _ _ Hr k l Hl). cbn [mbind option_bind]. rewrite decide_False by done. unfold pa_store_link_goc. pose proof (find_after_removal st G k l Hi Hl) as Hnone.
  change (st_links st1) with (without k (st_links st)). fold st1 in Hnone. rewrite Hnone. cbn [mbind option_bind negb]. change (st_calls st1) with (st_calls st). rewrite Hm, decide_False by lia. cbn [mbind option_bind].
  set (kl := OwnLink (st_calls st)). set (l1 := mk_pa_store_link _ _ _ _ _). set (st2 := set_st_links _ _).
  assert (Hl1 : link_mem st2 !! kl = Some l1) by (unfold st2; cbn; apply lookup_insert_eq). rewrite Hl1. cbn [mbind option_bind l1 sl_prefixes]. rewrite app_nil_r.
  set (lb := set_sl_n_prefixes _ _). set (st3 := put_link kl lb st2). assert (Hlb : link_mem st3 !! kl = Some lb) by (unfold st3; cbn; apply lookup_insert_eq).
  assert (pa_store_trim kl st3 = Some st3) as -> by (unfold pa_store_trim; rewrite Hlb; reflexivity).
  assert (Hno : kl ∉ st_links st) by (rewrite <- (rp_dom _ _ _ Hr); intros H%(rp_older _ _ _ Hr); lia). exists st3, (relabel k kl G). split; [done|].
  assert (Hmem : memory st3 = (st_prefixes st, st_n_prefixes st, <[kl := lb]> (delete k (link_mem st)), prefix_mem st)) by (unfold memory, st3; cbn; by rewrite insert_insert_eq).
  assert (Hfr : frame st st3) by (split; try done; cbn; lia).
  assert (Hfresh : forall n, kl = OwnLink n -> (n < st_calls st3)%nat) by (intros n [= <-]; cbn; lia).
  apply (over_limited st G k kl l lb st3); try done. by apply (over_represents st G k kl l lb st3).
Qed.

(** The fault is one: there is no result. *)
Lemma link_remove_fault st G k : store_is st G -> remove_faults st k -> pa_store_link_remove k st = None.
Proof.
  intros Hi (l & Hl & Hn & Hf). pose proof (si_rep _ _ Hi) as Hr. unfold pa_store_link_remove. rewrite Hl. cbn [mbind option_bind]. cbv zeta.
  rewrite decide_False by done. rewrite (rp_list _ _ _ Hr k l Hl). cbn [mbind option_bind]. rewrite (rp_number _ _ _ Hr k l Hl) in Hn.
  assert (Hps : exists p ps, (of_link k G).*1 = p :: ps) by (destruct (of_link k G) as [|[p c] g]; [by destruct Hn|by eexists _, _]). destruct Hps as (p & ps & ->).
  case_decide as En; [done|]. destruct Hf as [?|Hm]; [done|]. unfold pa_store_link_goc. pose proof (find_after_removal st G k l Hi Hl) as Hnone.
  set (st1 := set_st_links _ _) in *. change (st_links st1) with (without k (st_links st)). rewrite Hnone. cbn [mbind option_bind negb].
  change (st_calls st1) with (st_calls st). by rewrite Hm.
Qed.
End links.
