(* ===== verification/PaStoreText.v ===== *)
(** The text of the file of the store: numbers, lines, words and prefixes are read back
    as they were written. *)
From S2P Require Import Prelude Bitops Prefix Tlv PaTrie PaCore PaInv PaAdvertise PaRules PaStore PaStoreInv PaStoreCache.

(** ** Numbers *)

Lemma atoi_snoc ds c : atoi (ds ++ [c]) = 10 * atoi ds + (c - chr_0).
Proof. unfold atoi. by rewrite foldl_app. Qed.

Lemma digit_mod n : is_digit (chr_0 + n mod 10) = true.
Proof. apply bool_decide_eq_true. unfold chr_0. pose proof (Z.mod_pos_bound n 10). lia. Qed.

Lemma print_dec_aux_spec fuel : forall n acc, 0 <= n < 10 ^ Z.of_nat (S fuel) -> exists ds,
  print_dec_aux (S fuel) n acc = ds ++ acc /\ ds ≠ [] /\ forallb is_digit ds = true /\ atoi ds = n.
Proof.
  induction fuel as [|fuel IH]; intros n acc Hn; cbn [print_dec_aux]; case_decide as E.
  - exists [chr_0 + n mod 10]. split; [done|]. split; [done|]. cbn [forallb]. rewrite digit_mod. split; [done|].
    unfold atoi. cbn [foldl]. unfold chr_0. pose proof (Z.div_mod n 10). lia.
  - exfalso. change (10 ^ Z.of_nat 1) with 10 in Hn. apply E. by apply Z.div_small.
  - exists [chr_0 + n mod 10]. split; [done|]. split; [done|]. cbn [forallb]. rewrite digit_mod. split; [done|].
    unfold atoi. cbn [foldl]. unfold chr_0. pose proof (Z.div_mod n 10). lia.
  - destruct (IH (n / 10) ((chr_0 + n mod 10) :: acc)) as (ds & Eq & Hne & Hd & Ha).
    { rewrite Nat2Z.inj_succ, Z.pow_succ_r in Hn by lia. split; [apply Z.div_pos; lia|apply Z.div_lt_upper_bound; lia]. }
    exists (ds ++ [chr_0 + n mod 10]). cbn [print_dec_aux] in Eq. rewrite Eq, <- app_assoc. split; [done|]. split; [by intros [? _]%app_eq_nil|].
    split; [rewrite forallb_app, Hd; cbn [forallb]; by rewrite digit_mod|]. rewrite atoi_snoc, Ha. unfold chr_0. pose proof (Z.div_mod n 10). lia.
Qed.

(** A 32-bit number has at most ten digits. *)
Lemma print_dec_u32 n : 0 <= n < 2 ^ 32 -> print_dec n ≠ [] /\ forallb is_digit (print_dec n) = true /\ atoi (print_dec n) = n.
Proof.
  intros Hn. unfold print_dec. destruct (print_dec_aux_spec 9 n []) as (ds & -> & H); [|by rewrite app_nil_r].
  change (10 ^ Z.of_nat 10) with 10000000000. lia.
Qed.

Lemma take_digits_all ds : forallb is_digit ds = true -> take_digits ds = ds.
Proof. induction ds as [|d ds IH]; [done|]. cbn [forallb take_digits]. intros [-> H]%andb_true_iff. by rewrite IH. Qed.

(** The number of tokens is read back. *)
Lemma scan_print n : 0 <= n < 2 ^ 32 -> scan_u32 (print_dec n) = Some n.
Proof.
  intros Hn. destruct (print_dec_u32 n Hn) as (Hne & Hd & Ha). unfold scan_u32. destruct (print_dec n) as [|c s] eqn:E; [done|].
  assert (Hc : is_digit c = true) by (by apply andb_true_iff in Hd as [? _]). apply bool_decide_eq_true in Hc. unfold chr_0 in Hc.
  rewrite !decide_False by lia. rewrite take_digits_all by done. rewrite decide_False by done. rewrite Ha, decide_False by lia. f_equal. by apply u32_small.
Qed.

(** ** Lines *)

Definition no_newline (s : list Z) : Prop := Forall (fun c => c ≠ newline) s.

Lemma getlines_line s rest : no_newline s -> getlines (s ++ newline :: rest) = (s ++ [newline]) :: getlines rest.
Proof.
  induction 1 as [|c s Hc _ IH]; cbn [app getlines]; [by rewrite decide_True by done|]. rewrite decide_False by done. by rewrite IH.
Qed.

Lemma getlines_lines ls : Forall no_newline ls -> getlines (concat ((fun s => s ++ [newline]) <$> ls)) = (fun s => s ++ [newline]) <$> ls.
Proof.
  induction 1 as [|s ls Hs _ IH]; [done|]. cbn [fmap list_fmap concat]. rewrite <- app_assoc. cbn [app]. by rewrite getlines_line, IH.
Qed.

(** ** Words *)

(** A word as it can be in a file. *)
Definition word_ok (w : list Z) : Prop := w ≠ [] /\ Forall (fun c => c ≠ 0 /\ is_space c = false) w.

Lemma getwords_chars w : Forall (fun c => c ≠ 0 /\ is_space c = false) w -> forall line cur ws,
  getwords_loop (w ++ line) cur ws = getwords_loop line (match w with [] => cur | _ => Some (default [] cur ++ w) end) ws.
Proof.
  induction 1 as [|c w [Hc Hs] _ IH]; intros line cur ws; [done|]. cbn [app getwords_loop]. rewrite decide_False by done. rewrite Hs, IH.
  destruct w as [|d w]; [done|]. cbn. by rewrite <- app_assoc.
Qed.

Lemma getwords_word w c line ws : word_ok w -> c ≠ 0 -> is_space c = true -> getwords_loop (w ++ c :: line) None ws = getwords_loop line None (ws ++ [w]).
Proof.
  intros [Hne Hw] Hc Hs. rewrite getwords_chars by done. destruct w as [|d w]; [done|]. cbn [default app getwords_loop]. by rewrite decide_False, Hs by done.
Qed.

Lemma word_no_newline w : word_ok w -> no_newline w.
Proof. intros [_ H]. eapply Forall_impl; [exact H|]. intros c [_ Hs] ->. done. Qed.

(** Words that are read are words. *)
Lemma getwords_ok line : forall cur ws, Forall word_ok ws -> (forall w, cur = Some w -> word_ok w) -> Forall word_ok (getwords_loop line cur ws).
Proof.
  assert (Hend : forall cur ws, Forall word_ok ws -> (forall w, cur = Some w -> word_ok w) -> Forall word_ok (ws ++ option_list cur)).
  { intros cur ws Hws Hcur. apply Forall_app. split; [done|]. destruct cur; cbn; [|done]. constructor; [by apply Hcur|done]. }
  induction line as [|c line IH]; intros cur ws Hws Hcur; cbn [getwords_loop]; [by apply Hend|].
  case_decide as Hc; [by apply Hend|]. destruct (is_space c) eqn:Hs.
  - apply IH; [by apply Hend|done].
  - apply IH; [done|]. intros w [= <-]. split; [by intros [_ ?]%app_eq_nil|]. apply Forall_app. split; [|by constructor].
    destruct cur as [w|]; [by apply Hcur|by constructor].
Qed.

Lemma pa_store_getwords_ok line n i w : pa_store_getwords line n !! i = Some w -> word_ok w.
Proof.
  unfold pa_store_getwords. intros H. eapply Forall_lookup_1; [|exact H]. apply Forall_take, getwords_ok; [constructor|done].
Qed.

Lemma digits_word ds : ds ≠ [] -> forallb is_digit ds = true -> word_ok ds.
Proof.
  intros Hne Hd. split; [done|]. apply Forall_forall. intros c Hc%list_elem_of_In. rewrite forallb_forall in Hd. apply Hd, bool_decide_eq_true in Hc.
  unfold chr_0 in Hc. split; [lia|]. apply bool_decide_eq_false. unfold newline. lia.
Qed.

(** ** Prefixes *)

Section prefixes.
Context `{SH : !StoreHost, HOK : !StoreHostOk}.

#[local] Notation a_text := (addr_text (inet_text := store_text)).

Lemma addr_text_plain a : inet_addr AF_INET6 a -> Forall (fun c => is_space c = false) (a_text a).
Proof. unfold addr_text. intros H. case_match; apply text_plain; [by apply inet_addr_v4|done]. Qed.

(** The bytes of a mapped address before the IPv4 part are inside the prefix. *)
Lemma v4mapped_length a n : length a = 16%nat -> v4mapped a = true -> bit a 95 = (if decide (95 < n)%nat then bit a 95 else false) -> (96 <= n)%nat.
Proof.
  intros Hl H%bool_decide_eq_true E. case_decide; [lia|]. exfalso. unfold bit in E. change (95 / 8)%nat with 11%nat in E.
  assert (a !! 11%nat = Some 255) as Ha by (rewrite <- (lookup_take_lt a 12 11) by lia; by rewrite H). rewrite Ha in E. by vm_compute in E.
Qed.

(** The text of a prefix is a word, and is read back as the same prefix. *)
Lemma prefix_text_spec x n : prefix_ok x n -> exists t, prefix_text x n = Some t /\ word_ok t /\
  exists a, prefix_pton store_pton t (replicate 16 0) 0 = Some (1, a, Z.of_nat n) /\ prefix_ok a n /\ bits a 0 n = bits x 0 n.
Proof.
  intros (Hb & Hl & Hn). destruct (ntopc_address x n Hl Hb Hn) as (a & Ea & La & Ba & Ha). unfold prefix_text. rewrite Ea.
  assert (Hi : inet_addr AF_INET6 a) by done. pose proof (addr_text_len (inet_text := store_text) a Hi) as Hlen.
  destruct (prefix_ntop_text (inet_text := store_text) (replicate PA_PREFIX_STRLEN 0) PA_PREFIX_STRLEN a n Hi) as (rest & -> & _); [by rewrite length_replicate|done|unfold PA_PREFIX_STRLEN; lia|].
  cbn [mbind option_bind]. set (t := a_text a ++ chr_slash :: print_dec (shown_len a n)).
  assert (a_text a ++ chr_slash :: print_dec (shown_len a n) ++ 0 :: rest = t ++ 0 :: rest) as -> by (unfold t; by rewrite <- app_assoc).
  rewrite strlen_app by apply (prefix_text_nonzero a n Hi Hn). cbn [mbind option_bind]. rewrite take_app_length. exists t. split; [done|].
  assert (Hdig : byte_ok (shown_len a n)) by (unfold byte_ok, shown_len; case_match; lia). destruct (print_dec_digits _ Hdig) as (Hd1 & Hd2 & _).
  split; [split; [unfold t; by destruct (a_text a)|]|].
  - apply Forall_and. split; [apply (prefix_text_nonzero a n Hi Hn)|]. apply Forall_app. split; [by apply addr_text_plain|]. constructor; [done|].
    eapply Forall_impl; [apply (digits_word (print_dec (shown_len a n))); [intros E; rewrite E in Hd1; cbn in Hd1; lia|done]|]. by intros c [_ ?].
  - exists a. split; [|split; [done|]].
    + apply prefix_pton_text; try done. intros H4. apply (v4mapped_length a n La H4). rewrite Ha. case_decide; [done|done].
    + apply bits_ext. intros i Hlt. rewrite Ha, decide_True by lia. done.
Qed.

(** Reading a prefix does not leave its memory, and what is read is one. *)
Lemma prefix_pton_total t : exists r a n, prefix_pton store_pton t (replicate 16 0) 0 = Some (r, a, n) /\ (r ≠ 0 -> prefix_ok a (Z.to_nat n)).
Proof.
  unfold prefix_pton. set (slash := fst <$> _). set (digits := match slash with Some _ => _ | None => _ end). destruct (_ && _); [by eexists 0, _, _|].
  cbv zeta. case_decide; [by eexists 0, _, _|]. set (buf := take _ t).
  destruct (store_pton AF_INET6 buf) as [a|] eqn:E6.
  - destruct (pton_addr _ _ _ E6) as [Hb Hl]. rewrite wrn_Some by (rewrite Hl, length_replicate; cbn; lia). cbn [mbind option_bind].
    assert (take 0 (replicate 16 0) ++ a ++ drop (0 + length a) (replicate 16 0) = a) as ->.
    { cbn [take app]. rewrite drop_ge by (rewrite Hl, length_replicate; cbn; lia). by rewrite app_nil_r. }
    destruct slash; [case_decide|]; eexists _, _, _; (split; [done|]); intros Hr; try done; (split; [done|split; [done|lia]]).
  - destruct (store_pton AF_INET buf) as [a|] eqn:E4; [|by eexists 0, _, _].
    destruct (pton_addr _ _ _ E4) as [Hb Hl]. destruct a as [|x0 [|x1 [|x2 [|x3 [|]]]]]; try done. cbn.
    assert (Hok : forall n, 0 <= n <= 128 -> prefix_ok [0; 0; 0; 0; 0; 0; 0; 0; 0; 0; 255; 255; x0; x1; x2; x3] (Z.to_nat n)).
    { intros n Hn. split; [|split; [done|lia]]. apply (Forall_app_2 byte_ok [0; 0; 0; 0; 0; 0; 0; 0; 0; 0; 255; 255]); [decided|exact Hb].  }
    destruct slash; [case_decide as Hle|]; eexists _, _, _; (split; [reflexivity|]); intros Hr; try done; apply Hok; [|lia].
    pose proof (Z.mod_pos_bound (atoi digits) 256). unfold u8 in *. rewrite Z.mod_small; lia.
Qed.
End prefixes.
