(* ===== verification/PaStoreFile.v ===== *)
(** The file of the store: saving does not change what is cached, and loading what was
    saved restores it. *)
From S2P Require Import Prelude Bitops Prefix Tlv PaTrie PaCore PaInv PaAdvertise PaRules PaStore PaStoreInv PaStoreCache PaStoreLinks PaStoreText.

Section file.
Context `{SH : !StoreHost, HOK : !StoreHostOk}.
Implicit Types (st : pa_store) (k : link_ptr) (p : nat) (G : list (nat * link_ptr)).

(** ** Saving *)

(** The line of an entry, without its end. *)
Definition entry_line st (e : nat * link_ptr) : list Z :=
  PA_STORE_PREFIX ++ [32] ++ link_name st e.2 ++ [32] ++ default [] (x ← prefix_mem st !! e.1; prefix_text (sp_prefix x) (sp_plen x)).

Definition end_line (s : list Z) : list Z := s ++ [newline].

(** The prefixes of a link while it is being saved: the entries [done] have been moved to
    the front of their links, [todo] have not; links without a name are left alone. *)
Definition saving st0 (todo done : list (nat * link_ptr)) k : list nat :=
  if decide (link_name st0 k = []) then (of_link k (todo ++ done)).*1 else (of_link k done).*1 ++ (of_link k todo).*1.

Record rotated st0 (todo done : list (nat * link_ptr)) st : Prop := {
  ro_state : exists fs n, st = set_link_mem (link_mem st) (set_st_files fs (set_st_calls n st0));
  ro_calls : (st_calls st0 <= st_calls st)%nat;
  ro_links k : link_mem st !! k = set_sl_prefixes (Some (saving st0 todo done k)) <$> link_mem st0 !! k
}.

Lemma of_link_app k G1 G2 : of_link k (G1 ++ G2) = of_link k G1 ++ of_link k G2.
Proof. apply filter_app. Qed.

Lemma of_link_snoc_eq k p G : of_link k (G ++ [(p, k)]) = of_link k G ++ [(p, k)].
Proof. rewrite of_link_app. unfold of_link. by rewrite (filter_cons_True _ (p, k)), filter_nil. Qed.

Lemma of_link_snoc_ne k k' p G : k ≠ k' -> of_link k' (G ++ [(p, k)]) = of_link k' G.
Proof. intros. rewrite of_link_app. unfold of_link. by rewrite (filter_cons_False _ (p, k)), filter_nil, app_nil_r. Qed.

Lemma saving_start st0 G k : saving st0 G [] k = (of_link k G).*1.
Proof. unfold saving. rewrite app_nil_r. by case_decide. Qed.

Lemma saving_end st0 G k : saving st0 [] G k = (of_link k G).*1.
Proof. unfold saving. cbn [app]. cbn [of_link filter list_filter fmap list_fmap]. rewrite app_nil_r. by case_decide. Qed.

Lemma saving_elem st0 todo done k p : p ∈ saving st0 todo done k -> (p, k) ∈ todo ++ done.
Proof.
  unfold saving. intros Hp. assert (p ∈ (of_link k todo).*1 \/ p ∈ (of_link k done).*1) as H.
  { case_decide; [rewrite of_link_app, fmap_app in Hp|]; apply elem_of_app in Hp; tauto. }
  rewrite elem_of_app. destruct H as [H|H]; apply list_elem_of_fmap in H as ([q c] & -> & [Hc Hq]%elem_of_of_link); cbn in *; subst c; tauto.
Qed.

Lemma rotated_fields st0 todo done st : rotated st0 todo done st ->
  st_links st = st_links st0 /\ prefix_mem st = prefix_mem st0 /\ token_count st = token_count st0 /\ st_prefixes st = st_prefixes st0.
Proof. intros [(fs & n & ->) _ _]. done. Qed.

Lemma rotated_fprintf st0 todo done path s st : rotated st0 todo done st -> rotated st0 todo done (fst (fprintf path s st)) /\ link_mem (fst (fprintf path s st)) = link_mem st.
Proof.
  intros [(fs & n & E) Hc Hl]. unfold fprintf. destruct (fprintf_ok (st_calls st)); (split; [|done]); (split; [|cbn; lia|done]); rewrite E; by eexists _, _.
Qed.

(** The links of the store itself, at the start and at the end. *)
Lemma rotated_same st G k : represents (st_links st) st G -> set_sl_prefixes (Some (of_link k G).*1) <$> link_mem st !! k = link_mem st !! k.
Proof. intros Hr. destruct (link_mem st !! k) as [l|] eqn:El; [|done]. cbn. rewrite <- (rp_list _ _ _ Hr k l El). by destruct l. Qed.

Lemma rotated_start st G : represents (st_links st) st G -> rotated st G [] st.
Proof.
  intros Hr. split; [|done|].
  - exists (st_files st), (st_calls st). by destruct st.
  - intros k. by rewrite saving_start, rotated_same.
Qed.

(** Everything moved: the lists are as they were. *)
Lemma rotated_end st0 G st : represents (st_links st0) st0 G -> rotated st0 [] G st -> exists fs n, st = set_st_files fs (set_st_calls n st0) /\ (st_calls st0 <= n)%nat.
Proof.
  intros Hr [(fs & n & E) Hc Hl]. assert (Hm : link_mem st = link_mem st0) by (apply map_eq; intros k; by rewrite Hl, saving_end, rotated_same).
  exists fs, n. split; [rewrite E, Hm; by destruct st0|]. rewrite E in Hc. exact Hc.
Qed.

Lemma link_after_unique st k p : k ∈ st_links st -> last_of st k = Some p -> (forall k', k' ∈ st_links st -> last_of st k' = Some p -> k' = k) -> link_after st p = Some k.
Proof.
  intros Hk Hl Hu. unfold link_after. destruct (list_find_elem_of (fun k => last_of st k = Some p) (st_links st) k Hk Hl) as [[i k'] E].
  rewrite E. cbn. f_equal. apply list_find_Some in E as (Hi & Hp & _). by apply Hu; [eapply list_elem_of_lookup_2|].
Qed.

Lemma rotated_last st0 todo done st k l : rotated st0 todo done st -> link_mem st0 !! k = Some l -> last_of st k = last (saving st0 todo done k).
Proof. intros Ho Hl. unfold last_of. rewrite (ro_links _ _ _ _ Ho), Hl. done. Qed.

(** A prefix is behind the head of its own link only. *)
Lemma rotated_only st0 todo done st p k k' : represents (st_links st0) st0 (todo ++ done) -> rotated st0 todo done st -> (p, k) ∈ todo ++ done ->
  k' ∈ st_links st -> last_of st k' = Some p -> k' = k.
Proof.
  intros Hr Ho Hin Hk' Hlast. destruct (rotated_fields _ _ _ _ Ho) as (HL & _). rewrite HL in Hk'. apply (rp_dom _ _ _ Hr) in Hk' as [l Hl].
  rewrite (rotated_last _ _ _ _ _ _ Ho Hl) in Hlast. apply last_Some_elem_of, saving_elem in Hlast. by apply (entry_unique p k' k _ (rp_nodup _ _ _ Hr)).
Qed.

(** The next entry can be saved: its link has a name, or no other prefix behind it. *)
Definition savable st0 (done : list (nat * link_ptr)) k : Prop := link_name st0 k = [] -> of_link k done = [].

(** The link of the next entry is found behind it. *)
Lemma rotated_after st0 todo done st p k : represents (st_links st0) st0 ((todo ++ [(p, k)]) ++ done) -> rotated st0 (todo ++ [(p, k)]) done st -> savable st0 done k ->
  link_after st p = Some k.
Proof.
  intros Hr Ho Hs. destruct (rotated_fields _ _ _ _ Ho) as (HL & _). assert (Hin : (p, k) ∈ (todo ++ [(p, k)]) ++ done) by (rewrite !elem_of_app, list_elem_of_singleton; tauto).
  pose proof (rp_owner _ _ _ Hr p k Hin) as Hk. apply link_after_unique; [by rewrite HL| |intros k'; by apply (rotated_only st0 (todo ++ [(p, k)]) done)].
  destruct (proj2 (rp_dom _ _ _ Hr k) Hk) as [l Hl]. rewrite (rotated_last _ _ _ _ _ _ Ho Hl). unfold saving. case_decide as En.
  - rewrite of_link_app, (Hs En), app_nil_r, of_link_snoc_eq, fmap_app. apply last_snoc.
  - rewrite of_link_snoc_eq, fmap_app, app_assoc. apply last_snoc.
Qed.

(** Otherwise what follows it is taken for the head of a list. *)
Lemma rotated_lost st0 todo done st p k : represents (st_links st0) st0 ((todo ++ [(p, k)]) ++ done) -> rotated st0 (todo ++ [(p, k)]) done st -> ~ savable st0 done k ->
  link_after st p = None.
Proof.
  intros Hr Ho Hs. assert (Hin : (p, k) ∈ (todo ++ [(p, k)]) ++ done) by (rewrite !elem_of_app, list_elem_of_singleton; tauto).
  unfold link_after. destruct (list_find (fun k => last_of st k = Some p) (st_links st)) as [[i k']|] eqn:E; [|done]. exfalso. apply list_find_Some in E as (Hi & Hlast & _).
  pose proof (rotated_only st0 (todo ++ [(p, k)]) done st p k k' Hr Ho Hin (list_elem_of_lookup_2 _ _ _ Hi) Hlast) as ->.
  destruct (proj2 (rp_dom _ _ _ Hr k) (rp_owner _ _ _ Hr p k Hin)) as [l Hl]. rewrite (rotated_last _ _ _ _ _ _ Ho Hl) in Hlast. apply Hs. intros En.
  unfold saving in Hlast. rewrite decide_True, of_link_app, fmap_app in Hlast by done. destruct (of_link k done) as [|e g] eqn:Ed; [done|]. exfalso.
  rewrite fmap_cons, last_app_cons, <- fmap_cons in Hlast. apply last_Some_elem_of, list_elem_of_fmap in Hlast as ([q c] & -> & Hq). rewrite <- Ed in Hq. apply elem_of_of_link in Hq as [_ Hq].
  pose proof (rp_nodup _ _ _ Hr) as Hn. rewrite <- app_assoc, !fmap_app in Hn. cbn in Hn. apply NoDup_app in Hn as (_ & _ & Hn). apply NoDup_cons in Hn as [Hn _].
  apply Hn. by eapply (list_elem_of_fmap_2' fst).
Qed.

(** An entry of a link without a name is passed over. *)
Lemma rotated_skip st0 todo done st p k : rotated st0 (todo ++ [(p, k)]) done st -> link_name st0 k = [] -> rotated st0 todo ((p, k) :: done) st.
Proof.
  intros [H1 H2 H3] Hk. split; [done|done|]. intros k'. rewrite H3. f_equal. f_equal. f_equal. unfold saving. rewrite <- app_assoc. cbn [app]. case_decide; [done|].
  by rewrite of_link_snoc_ne, (of_link_cons_ne p k k') by (by intros ->).
Qed.

Lemma rotated_step st0 todo done st p k l : represents (st_links st0) st0 ((todo ++ [(p, k)]) ++ done) -> rotated st0 (todo ++ [(p, k)]) done st -> link_name st0 k ≠ [] -> link_mem st !! k = Some l ->
  exists q, sl_prefixes l = Some q /\ rotated st0 todo ((p, k) :: done) (put_link k (set_sl_prefixes (Some (p :: without p q)) l) st).
Proof.
  intros Hr Ho Hname Hl. pose proof (ro_links _ _ _ _ Ho k) as E. rewrite Hl in E. destruct (link_mem st0 !! k) as [l0|] eqn:El0; [|done]. cbn in E. injection E as ->.
  eexists. split; [done|]. set (q := saving st0 (todo ++ [(p, k)]) done k).
  assert (Hq : without p q = (of_link k done).*1 ++ (of_link k todo).*1).
  { unfold q, saving. rewrite decide_False by done. rewrite of_link_snoc_eq, fmap_app, app_assoc. cbn [fmap list_fmap fst].
    unfold without. rewrite filter_app, filter_cons_False, filter_nil, app_nil_r by tauto. apply filter_all. intros y Hy ->.
    pose proof (rp_nodup _ _ _ Hr) as Hn. rewrite <- app_assoc, !fmap_app in Hn. cbn in Hn. apply NoDup_app in Hn as (_ & Hn1 & Hn2). apply NoDup_cons in Hn2 as [Hn2 _].
    apply elem_of_app in Hy as [Hy|Hy]; apply list_elem_of_fmap in Hy as ([q' c] & -> & [_ Hin]%elem_of_of_link); cbn in *.
    - apply Hn2. by eapply (list_elem_of_fmap_2' fst).
    - apply (Hn1 q'); [by eapply (list_elem_of_fmap_2' fst)|by left]. }
  rewrite Hq. destruct Ho as [(fs & n & E) Hc Hls]. split; [exists fs, n; rewrite E; done|done|]. intros k'.
  change (link_mem (put_link _ _ st)) with (<[k := set_sl_prefixes (Some (p :: (of_link k done).*1 ++ (of_link k todo).*1)) (set_sl_prefixes (Some q) l0)]> (link_mem st)).
  unfold saving. destruct (decide (k' = k)) as [->|Hne].
  - rewrite lookup_insert_eq, El0, decide_False, of_link_cons_eq by done. done.
  - rewrite lookup_insert_ne, Hls by done. unfold saving. rewrite <- app_assoc. cbn [app]. case_decide; [done|]. by rewrite of_link_snoc_ne, (of_link_cons_ne p k k') by done.
Qed.

(** Files that can always be opened and written. *)
Definition writes : Prop := forall n, fopen_ok n = true /\ fprintf_ok n = true.

Lemma fprintf_written path s st c : writes -> st_files st !! path = Some c -> snd (fprintf path s st) = true /\ st_files (fst (fprintf path s st)) !! path = Some (c ++ s).
Proof. intros Hw Hc. unfold fprintf. rewrite (proj2 (Hw _)), Hc. cbn. split; [done|]. by rewrite lookup_insert_eq. Qed.

(** The text of an entry: nothing for a link without a name. *)
Definition entry_text st (e : nat * link_ptr) : list Z := if decide (link_name st e.2 = []) then [] else end_line (entry_line st e).

Lemma save_step path st0 todo done st err p k ps : store_is st0 ((todo ++ [(p, k)]) ++ done) -> rotated st0 (todo ++ [(p, k)]) done st -> savable st0 done k ->
  exists st1 err1, save_loop path (p :: ps) err st = save_loop path ps err1 st1 /\ rotated st0 todo ((p, k) :: done) st1 /\
    (writes -> err = 0 -> forall c, st_files st !! path = Some c -> err1 = 0 /\ st_files st1 !! path = Some (c ++ entry_text st0 (p, k))).
Proof.
  intros Hi Ho Hs. pose proof (si_rep _ _ Hi) as Hr. cbn [save_loop]. rewrite (rotated_after st0 todo done st p k Hr Ho Hs). cbn [mbind option_bind].
  assert (Hin : (p, k) ∈ (todo ++ [(p, k)]) ++ done) by (rewrite !elem_of_app, list_elem_of_singleton; tauto). pose proof (rp_owner _ _ _ Hr p k Hin) as Hk.
  destruct (proj2 (rp_dom _ _ _ Hr k) Hk) as [l0 Hl0]. pose proof (ro_links _ _ _ _ Ho k) as El. rewrite Hl0 in El. cbn in El. rewrite El. cbn [mbind option_bind].
  set (l := set_sl_prefixes _ l0) in *. assert (Hname : link_name st0 k = sl_name l) by (unfold link_name; by rewrite Hl0). unfold entry_text. cbn [snd]. rewrite Hname.
  case_decide as En.
  { exists st, err. split; [done|]. split; [apply rotated_skip; [done|congruence]|]. intros _ -> c Hc. by rewrite app_nil_r. }
  destruct (proj2 (rp_cells _ _ _ Hr p) (list_elem_of_fmap_2' fst _ _ _ Hin eq_refl)) as [e He].
  destruct (prefix_text_spec _ _ (rp_prefix _ _ _ Hr p e He)) as (t & Ht & _). destruct (rotated_fields _ _ _ _ Ho) as (_ & Hpm & _). rewrite Hpm, He. cbn [mbind option_bind].
  rewrite Ht. cbn [mbind option_bind]. set (s := PA_STORE_PREFIX ++ [32] ++ sl_name l ++ [32] ++ t ++ [newline]).
  assert (Hs' : s = end_line (entry_line st0 (p, k))).
  { unfold s, end_line, entry_line. cbn [fst snd]. rewrite Hname, He. cbn [mbind option_bind]. rewrite Ht. cbn [default]. by rewrite <- !app_assoc. }
  rewrite <- Hs'. assert (Hstep : exists st1 err1, (if decide (err = 0) then let '(st, ok) := fprintf path s st in Some (st, if ok : bool then err else -2) else Some (st, err)) = Some (st1, err1) /\
    rotated st0 (todo ++ [(p, k)]) done st1 /\ link_mem st1 !! k = Some l /\
    (writes -> err = 0 -> forall c, st_files st !! path = Some c -> err1 = 0 /\ st_files st1 !! path = Some (c ++ s))).
  { case_decide as Eerr; [|exists st, err; split_and!; done].
    destruct (rotated_fprintf _ _ _ path s _ Ho) as [Ho1 Hlm]. pose proof (fprintf_written path s st) as Hw. destruct (fprintf path s st) as [st1 ok]. cbn [fst snd] in *.
    eexists _, _. split; [done|]. split; [done|]. split; [by rewrite Hlm|]. intros W Herr c Hc. destruct (Hw c W Hc) as [-> ?]. done. }
  destruct Hstep as (st1 & err1 & -> & Ho1 & Hl1 & Hw1). cbn [mbind option_bind].
  destruct (rotated_step st0 todo done st1 p k l Hr Ho1) as (q & -> & Ho2); [by rewrite Hname|done|]. cbn [mbind option_bind]. eexists _, err1. split; [done|]. split; [exact Ho2|exact Hw1].
Qed.

(** No link without a name has two prefixes. *)
Definition few_unnamed st G : Prop := forall k, link_name st k = [] -> (length (of_link k G) <= 1)%nat.

Lemma few_unnamed_cons st p k G : few_unnamed st G -> savable st G k -> few_unnamed st ((p, k) :: G).
Proof.
  intros Hf Hs k' Hk'. destruct (decide (k' = k)) as [->|Hne]; [rewrite of_link_cons_eq, (Hs Hk'); cbn; lia|]. rewrite of_link_cons_ne by done. by apply Hf.
Qed.

(** Saving succeeds, or comes to a second prefix of a link without a name. *)
Lemma save_loop_spec path st0 G : store_is st0 G -> forall todo done st err, G = todo ++ done -> rotated st0 todo done st -> few_unnamed st0 done ->
  (few_unnamed st0 G /\ exists st' err', save_loop path (rev todo.*1) err st = Some (st', err') /\ rotated st0 [] G st' /\
    (writes -> err = 0 -> forall c, st_files st !! path = Some c -> err' = 0 /\ st_files st' !! path = Some (c ++ concat (entry_text st0 <$> rev todo)))) \/
  (~ few_unnamed st0 G /\ save_loop path (rev todo.*1) err st = None).
Proof.
  intros Hi. induction todo as [|[p k] todo IH] using rev_ind; intros done st err HG Ho Hfew.
  { left. cbn in HG. subst done. split; [done|]. exists st, err. split; [done|]. split; [done|]. intros _ -> c Hc. cbn. by rewrite app_nil_r. }
  rewrite fmap_app. change [(p, k)].*1 with [p]. rewrite rev_unit. rewrite HG in Hi. destruct (decide (link_name st0 k = [] /\ of_link k done ≠ [])) as [[En Hd]|Hs].
  { right. split.
    - intros Hf. specialize (Hf k En). rewrite HG, !of_link_app, !length_app in Hf. unfold of_link in Hf at 2. rewrite filter_cons_True in Hf by done. cbn [length] in Hf.
      assert (length (of_link k done) = 0)%nat by lia. by apply Hd, length_zero_iff_nil.
    - cbn [save_loop]. rewrite (rotated_lost st0 todo done st p k (si_rep _ _ Hi) Ho); [done|]. intros H. by apply Hd, H. }
  assert (Hs' : savable st0 done k) by (intros En; destruct (of_link k done) eqn:E; [done|exfalso; by apply Hs]).
  destruct (save_step path st0 todo done st err p k (rev todo.*1) Hi Ho Hs') as (st1 & err1 & -> & Ho1 & Hw1).
  assert (HG1 : G = todo ++ (p, k) :: done) by (by rewrite HG, <- app_assoc).
  destruct (IH ((p, k) :: done) st1 err1 HG1 Ho1) as [(Hf & st' & err' & E & Hend & Hw)|[Hf E]]; [by apply few_unnamed_cons| |by right].
  left. split; [done|]. exists st', err'. split; [done|]. split; [done|]. intros W Herr c Hc. destruct (Hw1 W Herr c Hc) as [-> Hc1]. destruct (Hw W eq_refl _ Hc1) as [-> Hc2].
  split; [done|]. rewrite Hc2, rev_unit. cbn [fmap list_fmap concat]. by rewrite app_assoc.
Qed.

(** ** The whole file *)

(** The lines of the file of a store with these entries. *)
Definition banner_lines : list (list Z) := [
  text "# Prefix Assignment Algorithm Storage Module File.";
  text "# This file was generated automatically.";
  text "# Do not modify unless you know what you are doing.";
  text "# Do not modify while the process is running as";
  text "# modifications will be overridden."; []].

Lemma banner_spec : PA_STORE_BANNER = concat (end_line <$> banner_lines).
Proof. reflexivity. Qed.

Definition token_line st : list Z := PA_STORE_WTOKEN ++ [32] ++ print_dec (token_count st).

(** Links without a name are cached but not stored. *)
Definition saved_entries st G : list (nat * link_ptr) := filter (fun e => link_name st e.2 ≠ []) (rev G).

Definition file_lines st G : list (list Z) := banner_lines ++ token_line st :: (entry_line st <$> saved_entries st G).

Lemma entry_texts st G : concat (entry_text st <$> rev G) = concat (end_line <$> (entry_line st <$> saved_entries st G)).
Proof.
  unfold saved_entries. induction (rev G) as [|e l IH]; [done|]. rewrite filter_cons. cbn [fmap list_fmap concat]. unfold entry_text at 1. rewrite IH.
  destruct (decide (link_name st e.2 = [])) as [E|E]; [rewrite decide_False by tauto|rewrite decide_True by done]; done.
Qed.

(** A link without a name has two prefixes or more. *)
Definition crowded st : Prop := exists k l, link_mem st !! k = Some l /\ sl_name l = [] /\ 1 < sl_n_prefixes l.

Lemma crowded_few st G : represents (st_links st) st G -> ~ few_unnamed st G -> crowded st.
Proof.
  intros Hr Hn. destruct (decide (map_Forall (fun k l => ~ (sl_name l = [] /\ 1 < sl_n_prefixes l)) (link_mem st))) as [Hf|Hf].
  - destruct Hn. intros k Hk. destruct (link_mem st !! k) as [l|] eqn:El.
    + pose proof (Hf k l El) as H. cbn beta in H. rewrite (rp_number _ _ _ Hr k l El) in H. unfold link_name in Hk. rewrite El in Hk. assert (~ 1 < Z.of_nat (length (of_link k G))) by tauto. lia.
    + assert (of_link k G = []) as ->; [|cbn; lia]. apply filter_none. intros [p c] Hin E. cbn in E. subst c. apply (rp_owner _ _ _ Hr), (rp_dom _ _ _ Hr) in Hin as [l Hl]. congruence.
  - apply map_not_Forall in Hf as (k & l & Hl & H); [|apply _]. exists k, l. split; [done|]. destruct (decide (sl_name l = [])), (decide (1 < sl_n_prefixes l)); tauto.
Qed.

Lemma few_not_crowded st G : represents (st_links st) st G -> crowded st -> ~ few_unnamed st G.
Proof.
  intros Hr (k & l & Hl & Hn & Hlt) Hf. specialize (Hf k). unfold link_name in Hf. rewrite Hl in Hf. specialize (Hf Hn). rewrite (rp_number _ _ _ Hr k l Hl) in Hlt. lia.
Qed.

(** Saving is undefined then, once the file is open and its banner is written. *)
Definition save_faults st : Prop :=
  is_Some (st_filepath st) /\ fopen_ok (st_calls st) = true /\ fprintf_ok (S (st_calls st)) = true /\ crowded st.

(** Saving changes files only, and the file of the store gets its entries. *)
Lemma save_cases st G : store_is st G ->
  (~ save_faults st /\ exists fs n r, pa_store_save st = Some (set_st_files fs (set_st_calls n st), r) /\ (st_calls st <= n)%nat /\
    (writes -> forall path, st_filepath st = Some path -> r = 0 /\ fs !! path = Some (concat (end_line <$> file_lines st G)))) \/
  (save_faults st /\ pa_store_save st = None).
Proof.
  intros Hi. pose proof (si_rep _ _ Hi) as Hr. unfold pa_store_save, save_faults. destruct (st_filepath st) as [path|] eqn:Ep.
  2: { left. split; [by intros [[] _]|]. exists (st_files st), (st_calls st), (-1). split; [by destruct st|]. done. }
  destruct (fopen_ok (st_calls st)) eqn:Ef; cbn [negb].
  2: { left. split; [by intros (_ & ? & _)|]. exists (st_files st), (S (st_calls st)), (-1). split; [by destruct st|]. split; [lia|]. intros W. by rewrite (proj1 (W _)) in Ef. }
  set (st1 := called _). assert (Ho1 : rotated st G [] st1).
  { destruct (rotated_start st G Hr) as [_ Hc Hl]. split; [|cbn; lia|exact Hl]. by exists (<[path := []]> (st_files st)), (S (st_calls st)). }
  assert (Hc1 : st_files st1 !! path = Some []) by (unfold st1; cbn; apply lookup_insert_eq).
  destruct (rotated_fprintf _ _ _ path PA_STORE_BANNER _ Ho1) as [Ho2 _]. pose proof (fprintf_written path PA_STORE_BANNER st1 []) as Hw2.
  assert (Eok : snd (fprintf path PA_STORE_BANNER st1) = fprintf_ok (S (st_calls st))).
  { unfold fprintf. change (st_calls st1) with (S (st_calls st)). by destruct (fprintf_ok (S (st_calls st))). }
  destruct (fprintf path PA_STORE_BANNER st1) as [st2 ok2]. cbn [fst snd] in *. rewrite <- Eok. clear Eok. destruct ok2; cbn [negb].
  2: { left. split; [by intros (_ & _ & ? & _)|]. destruct Ho2 as [(fs & n & E) Hcalls Hl].
       assert (Hm : link_mem st2 = link_mem st) by (apply map_eq; intros k; by rewrite Hl, saving_start, rotated_same).
       exists fs, n, (-1). split; [do 2 f_equal; rewrite E, Hm; by destruct st|]. split; [rewrite E in Hcalls; exact Hcalls|]. intros W. by destruct (Hw2 W Hc1). }
  set (s := PA_STORE_WTOKEN ++ _). assert (Hs : s = end_line (token_line st)).
  { unfold s, end_line, token_line. rewrite (proj1 (proj2 (proj2 (rotated_fields _ _ _ _ Ho2)))). by rewrite <- !app_assoc. }
  destruct (rotated_fprintf _ _ _ path s _ Ho2) as [Ho3 _]. pose proof (fprintf_written path s st2) as Hw3. destruct (fprintf path s st2) as [st3 ok3]. cbn [fst snd] in *.
  rewrite (proj2 (proj2 (proj2 (rotated_fields _ _ _ _ Ho3)))), (rp_prefixes _ _ _ Hr).
  destruct (save_loop_spec path st G Hi G [] st3 (if ok3 then 0 else -3)) as [(Hfew & st' & err' & -> & Hend & Hw)|[Hfew ->]]; [by rewrite app_nil_r|done|intros k _; cbn; lia| |].
  2: { right. split; [|done]. split_and!; try done. by apply (crowded_few st G). }
  left. split; [intros (_ & _ & _ & Hc); by apply (few_not_crowded st G Hr Hc)|].
  destruct (rotated_end st G st' Hr Hend) as (fs & n & -> & Hn). exists fs, n, err'. split; [done|]. split; [done|]. intros W path' [= <-].
  destruct (Hw2 W Hc1) as [_ Hc2]. destruct (Hw3 _ W Hc2) as [-> Hc3]. destruct (Hw W eq_refl _ Hc3) as [-> Hc4]. split; [done|].
  etransitivity; [exact Hc4|]. rewrite entry_texts, Hs, app_nil_l. unfold file_lines. rewrite fmap_app, concat_app, <- banner_spec. cbn [fmap list_fmap concat]. by rewrite <- !app_assoc.
Qed.

Lemma save_spec st G : store_is st G -> ~ save_faults st -> exists fs n r, pa_store_save st = Some (set_st_files fs (set_st_calls n st), r) /\ (st_calls st <= n)%nat /\
  (writes -> forall path, st_filepath st = Some path -> r = 0 /\ fs !! path = Some (concat (end_line <$> file_lines st G))).
Proof. intros Hi Hf. destruct (save_cases st G Hi) as [[_ H]|[H _]]; [exact H|done]. Qed.

(** ** Loading *)

(** Loading adds links of the store only. *)
Definition own_grows st st' : Prop := forall k, is_Some (fixed_mem st' !! k) -> is_Some (fixed_mem st !! k) \/ own k.

#[global] Instance own_grows_preorder : PreOrder own_grows.
Proof. split; [by intros st k; left|]. intros a b c H1 H2 k [Hk|Hk]%H2; [by apply H1|by right]. Qed.

Lemma own_grows_sub st st' : fixed_mem st' ⊆ fixed_mem st -> own_grows st st'.
Proof. intros Hs k [f Hf]. left. exists f. by eapply lookup_weaken. Qed.

(** A prefix of a file gets into the cache under the name of its link. *)
Lemma load_prefix_spec st G name a n : store_is st G -> name ≠ [] -> (length name < PA_STORE_NAMELEN)%nat -> prefix_ok a n ->
  exists st' G' e, ('(st, l) ← pa_store_link_goc st name true;
      match l with None => Some (st, true) | Some k => '(st, _) ← pa_store_cache k a n st; Some (st, false) end) = Some (st', e) /\
    store_is st' G' /\ frame st st' /\ own_grows st st' /\
    ((forall i, is_Some (store_malloc i)) -> (forall k, is_Some (fixed_mem st !! k) -> own k) ->
      e = false /\ cached st' = remember name (bits a 0 n) 0 (st_max_prefixes st) (cached st)).
Proof.
  intros Hi Hne Hlen Ha. destruct (goc_spec st G name Hi Hne Hlen) as (st1 & r & -> & Hi1 & F1 & X1 & P1 & O1 & Hr). cbn [mbind option_bind]. destruct r as [k|].
  - destruct Hr as (link & max & Hk). pose proof Hk as (l & Hl & El)%fixed_lookup. injection El as El1 El2 El3.
    destruct (cache_named st1 G k l a n Hi1 Hl Ha) as (st2 & G2 & r & -> & Hi2 & F2 & X2 & Hc). cbn [mbind option_bind]. exists st2, G2, false. split_and!; try done.
    + by etransitivity.
    + etransitivity; [exact O1|by apply own_grows_sub].
    + intros Hm Hown. split; [done|]. destruct Hc as [[_ ->]|(_ & Hnone & _)]; [|by destruct (Hm (st_calls st1)) as [? Hs]; rewrite Hs in Hnone].
      assert (Ho : own k) by (destruct (O1 k) as [H|H]; [by eexists|by apply Hown|done]). destruct (lo_max _ (si_links _ _ Hi1) _ _ _ _ Hk) as [_ Hz].
      rewrite El3, El2, (Hz Ho), (fr_max _ _ F1). f_equal. rewrite (cached_spec st G (si_rep _ _ Hi)), (cached_spec st1 G (si_rep _ _ Hi1)).
      assert (shown st1 <$> G = shown st <$> G) as -> by (apply list_fmap_ext; intros; unfold shown, prefix_bits; by rewrite P1).
      symmetry. apply by_name_sub; [done|]. intros c. apply shown_live with (L := st_links st), Hi.
  - exists st1, G, true. split_and!; try done. intros Hm. by destruct (Hm (st_calls st)) as [? Hs]; rewrite Hs in Hr.
Qed.

(** Whatever a line is, reading it is safe. *)
Lemma load_line_spec line st G : store_is st G -> exists st' G' e, load_line line st = Some (st', e) /\ store_is st' G' /\ frame st st' /\ own_grows st st'.
Proof.
  intros Hi. unfold load_line. set (ws := pa_store_getwords line 4).
  assert (Hsame : forall e : bool, exists st' G' (e' : bool), Some (st, e) = Some (st', e') /\ store_is st' G' /\ frame st st' /\ own_grows st st') by (intros e; by exists st, G, e).
  destruct (ws !! 0%nat) as [w0|]; [|apply Hsame]. destruct (is_comment w0); [apply Hsame|]. case_decide; [|case_decide; apply Hsame].
  destruct (ws !! 1%nat) as [w1|] eqn:E1; [|apply Hsame]. destruct (ws !! 2%nat) as [w2|]; [|apply Hsame]. destruct (match ws !! 3%nat with Some _ => _ | None => _ end); [apply Hsame|].
  destruct (prefix_pton_total w2) as (r & a & n & -> & Ha). cbn [mbind option_bind]. case_decide; [apply Hsame|]. case_decide; [apply Hsame|].
  destruct (load_prefix_spec st G w1 a (Z.to_nat n) Hi) as (st' & G' & e & -> & R1 & R2 & R3 & _); [apply (pa_store_getwords_ok line 4 1 w1 E1)|lia|by apply Ha|]. by exists st', G', e.
Qed.

Lemma load_lines_spec lines : forall err st G, store_is st G -> exists st' G' r, load_lines lines err st = Some (st', r) /\ store_is st' G' /\ frame st st' /\ own_grows st st'.
Proof.
  induction lines as [|line lines IH]; intros err st G Hi; cbn [load_lines]; [by exists st, G, err|].
  destruct (load_line_spec line st G Hi) as (st1 & G1 & e & -> & Hi1 & F1 & O1). cbn [mbind option_bind].
  destruct (IH (if e then -1 else err) st1 G1 Hi1) as (st2 & G2 & r & -> & Hi2 & F2 & O2). exists st2, G2, r. split_and!; try done; by etransitivity.
Qed.

Lemma called_is st G : store_is st G -> store_is (called st) G /\ frame st (called st) /\ own_grows st (called st).
Proof.
  intros [H0 H1 H2 H3 H4]. split; [|split; [split; try done; cbn; lia|by intros k; left]]. split; try done. eapply represents_memory; [| |exact H0]; [done|cbn; lia].
Qed.

Lemma store_load_spec path st G : store_is st G -> exists st' G' r, pa_store_load path st = Some (st', r) /\ store_is st' G' /\ frame st st' /\ own_grows st st'.
Proof.
  intros Hi. destruct (called_is st G Hi) as (Hc & Fc & Oc). unfold pa_store_load. destruct (open_read path st) as [content|]; [|by exists (called st), G, (-1)].
  destruct (load_lines_spec (getlines content) 0 (called st) G Hc) as (st' & G' & r & -> & H1 & H2 & H3). exists st', G', r. split_and!; try done; by etransitivity.
Qed.

(** ** Reading back *)

Definition plain_names st : Prop := forall k l, link_mem st !! k = Some l -> word_ok (sl_name l).

Lemma entry_words st0 G0 p k : store_is st0 G0 -> plain_names st0 -> (p, k) ∈ G0 -> exists e t, prefix_mem st0 !! p = Some e /\ prefix_text (sp_prefix e) (sp_plen e) = Some t /\
  pa_store_getwords (end_line (entry_line st0 (p, k))) 4 = [PA_STORE_PREFIX; link_name st0 k; t] /\ no_newline (entry_line st0 (p, k)) /\
  link_name st0 k ≠ [] /\ (length (link_name st0 k) < PA_STORE_NAMELEN)%nat.
Proof.
  intros Hi Hp Hin. pose proof (si_rep _ _ Hi) as Hr. destruct (proj2 (rp_cells _ _ _ Hr p) (list_elem_of_fmap_2' fst _ _ _ Hin eq_refl)) as [e He].
  destruct (proj2 (rp_dom _ _ _ Hr k) (rp_owner _ _ _ Hr p k Hin)) as [l Hl]. destruct (prefix_text_spec _ _ (rp_prefix _ _ _ Hr p e He)) as (t & Ht & Hw & _).
  assert (Hfix : fixed_mem st0 !! k = Some (sl_link l, sl_name l, sl_max_prefixes l)) by (apply fixed_lookup; by exists l). pose proof (lo_name _ (si_links _ _ Hi) _ _ _ _ Hfix) as [_ N2]. pose proof (proj1 (Hp k l Hl)) as N1.
  exists e, t. split; [done|]. split; [done|]. assert (E : entry_line st0 (p, k) = PA_STORE_PREFIX ++ 32 :: sl_name l ++ 32 :: t).
  { unfold entry_line, link_name. cbn [fst snd]. rewrite Hl, He. cbn [mbind option_bind]. by rewrite Ht. }
  assert (En : link_name st0 k = sl_name l) by (unfold link_name; by rewrite Hl). rewrite E, En. pose proof (Hp k l Hl) as Hn. assert (word_ok PA_STORE_PREFIX) as Hpre by (split; [done|decided]).
  split; [|split; [|done]].
  - unfold pa_store_getwords, end_line. rewrite <- app_assoc. cbn [app]. rewrite <- app_assoc. cbn [app]. rewrite !getwords_word by done. done.
  - apply Forall_app. split; [by apply word_no_newline|]. constructor; [done|]. apply Forall_app. split; [by apply word_no_newline|]. constructor; [done|by apply word_no_newline].
Qed.

(** The line of an entry puts it into the cache. *)
Lemma load_entry st0 G0 p k st G : store_is st0 G0 -> plain_names st0 -> (p, k) ∈ G0 -> store_is st G -> (forall i, is_Some (store_malloc i)) -> (forall k, is_Some (fixed_mem st !! k) -> own k) ->
  exists st' G', load_line (end_line (entry_line st0 (p, k))) st = Some (st', false) /\ store_is st' G' /\ frame st st' /\ (forall k, is_Some (fixed_mem st' !! k) -> own k) /\
    cached st' = remember (link_name st0 k) (prefix_bits st0 p) 0 (st_max_prefixes st) (cached st).
Proof.
  intros Hi0 Hp Hin Hi Hm Hown. destruct (entry_words st0 G0 p k Hi0 Hp Hin) as (e & t & He & Ht & Hw & _ & N1 & N2). unfold load_line. rewrite Hw. cbn [lookup list_lookup].
  change (is_comment PA_STORE_PREFIX) with false. cbn [is_comment]. rewrite decide_True by done.
  destruct (prefix_text_spec _ _ (rp_prefix _ _ _ (si_rep _ _ Hi0) p e He)) as (t' & Ht' & _ & a & Hpt & Ha & Hb). rewrite Ht in Ht'. injection Ht' as <-. rewrite Hpt. cbn [mbind option_bind].
  rewrite decide_False by done. rewrite decide_False by lia. rewrite Nat2Z.id.
  destruct (load_prefix_spec st G (link_name st0 k) a (sp_plen e) Hi N1 N2 Ha) as (st' & G' & r & -> & H1 & H2 & H3 & H4). destruct (H4 Hm Hown) as [-> Hc]. exists st', G'. split_and!; try done.
  - intros k' [Hk|Hk]%H3; [by apply Hown|done].
  - rewrite Hc, Hb. unfold prefix_bits. by rewrite He.
Qed.

Lemma remember_new {K} `{EqDecision K} (k : K) b max (C : list (K * list bool)) : (k, b) ∉ C -> 0 < max -> Z.of_nat (length C) < max -> remember k b 0 max C = (k, b) :: C.
Proof.
  intros Hn Hm Hl. unfold remember, limit_store, limit_link. rewrite decide_False, (decide_True (P := 0 = 0)) by lia.
  rewrite filter_all by (intros c Hc ->; done). apply take_ge. cbn [length]. lia.
Qed.

Lemma by_name_nodup st G : store_is st G -> NoDup (by_name st (shown st <$> G)).
Proof.
  intros Hi. apply NoDup_fmap_2_strong; [|apply Hi]. intros [k1 b1] [k2 b2] H1 H2. cbn. intros [= E ->]. f_equal.
  apply (link_name_inj st); [apply Hi|by apply (shown_live _ _ _ _ (si_rep _ _ Hi)) in H1|by apply (shown_live _ _ _ _ (si_rep _ _ Hi)) in H2|done].
Qed.

(** The lines of all entries, in the order of the file. *)
Lemma load_entries st0 G0 : store_is st0 G0 -> plain_names st0 -> (forall i, is_Some (store_malloc i)) -> forall todo old st G, G0 = todo ++ old ->
  store_is st G -> (forall k, is_Some (fixed_mem st !! k) -> own k) -> Z.of_nat (length G0) <= st_max_prefixes st -> cached st = by_name st0 (shown st0 <$> old) ->
  exists st' G', load_lines (end_line <$> (entry_line st0 <$> rev todo)) 0 st = Some (st', 0) /\ store_is st' G' /\ cached st' = by_name st0 (shown st0 <$> G0).
Proof.
  intros Hi0 Hp Hm. induction todo as [|[p k] todo IH] using rev_ind; intros old st G HG Hi Hown Hmax Hc; [exists st, G; split; [done|]; by rewrite HG|].
  rewrite rev_unit. cbn [fmap list_fmap load_lines]. assert (Hin : (p, k) ∈ G0) by (rewrite HG, !elem_of_app, list_elem_of_singleton; tauto).
  destruct (load_entry st0 G0 p k st G Hi0 Hp Hin Hi Hm Hown) as (st1 & G1 & -> & Hi1 & F1 & Hown1 & Hc1). cbn [mbind option_bind].
  assert (HG1 : G0 = todo ++ (p, k) :: old) by (by rewrite HG, <- app_assoc).
  apply (IH ((p, k) :: old) st1 G1); try done; [by rewrite (fr_max _ _ F1)|]. rewrite Hc1, Hc.
  change (by_name st0 (shown st0 <$> (p, k) :: old)) with ((link_name st0 k, prefix_bits st0 p) :: by_name st0 (shown st0 <$> old)). apply remember_new.
  - pose proof (by_name_nodup st0 G0 Hi0) as Hn. rewrite HG1, fmap_app, fmap_cons in Hn. unfold by_name in Hn. rewrite fmap_app, fmap_cons in Hn.
    apply NoDup_app in Hn as (_ & _ & Hn). apply NoDup_cons in Hn as [Hn _]. exact Hn.
  - rewrite HG, length_app in Hmax. rewrite length_app in Hmax. cbn in Hmax. lia.
  - unfold by_name. rewrite !length_fmap. rewrite HG1, length_app in Hmax. cbn [length] in Hmax. lia.
Qed.

Lemma banner_ignored st : Forall (fun l => load_line (end_line l) st = Some (st, false)) banner_lines.
Proof. repeat (constructor; [reflexivity|]). constructor. Qed.

Lemma load_ignored ls : forall err st rest, Forall (fun l => load_line (end_line l) st = Some (st, false)) ls -> load_lines ((end_line <$> ls) ++ rest) err st = load_lines rest err st.
Proof. induction ls as [|l ls IH]; intros err st rest; [done|]. intros [Hl Hls]%Forall_cons. cbn [fmap list_fmap app load_lines]. rewrite Hl. cbn [mbind option_bind]. by apply IH. Qed.

Lemma token_line_words st : timers_ok st -> pa_store_getwords (end_line (token_line st)) 4 = [PA_STORE_WTOKEN; print_dec (token_count st)] /\
  pa_store_getwords (end_line (token_line st)) 2 = [PA_STORE_WTOKEN; print_dec (token_count st)] /\ no_newline (token_line st).
Proof.
  intros [Ht _]. destruct (print_dec_u32 _ Ht) as (Hne & Hd & _). pose proof (digits_word _ Hne Hd) as Hw. assert (word_ok PA_STORE_WTOKEN) as Hpre by (split; [done|decided]).
  assert (E : end_line (token_line st) = PA_STORE_WTOKEN ++ 32 :: print_dec (token_count st) ++ [newline]) by (unfold end_line, token_line; by rewrite <- !app_assoc).
  unfold pa_store_getwords. rewrite E, !getwords_word by done. split; [done|]. split; [done|]. apply Forall_app. split; [by apply word_no_newline|].
  constructor; [done|by apply word_no_newline].
Qed.

Lemma file_lines_plain st G : store_is st G -> plain_names st -> Forall no_newline (file_lines st G).
Proof.
  intros Hi Hp. unfold file_lines. apply Forall_app. split; [unfold no_newline; decided|]. constructor; [apply token_line_words, Hi|].
  apply Forall_fmap, Forall_forall. intros [p k] [_ Hin]%list_elem_of_filter. rewrite list_elem_of_In, <- in_rev, <- list_elem_of_In in Hin. by destruct (entry_words st G p k Hi Hp Hin) as (e & t & _ & _ & _ & ? & _).
Qed.

(** With plain names all entries are saved. *)
Lemma saved_plain st G : represents (st_links st) st G -> plain_names st -> saved_entries st G = rev G.
Proof.
  intros Hr Hp. apply filter_all. intros [p k] Hin. rewrite list_elem_of_In, <- in_rev, <- list_elem_of_In in Hin. cbn [snd].
  destruct (proj2 (rp_dom _ _ _ Hr k) (rp_owner _ _ _ Hr p k Hin)) as [l Hl]. unfold link_name. rewrite Hl. apply (Hp k l Hl).
Qed.

Lemma plain_not_crowded st : plain_names st -> ~ save_faults st.
Proof. intros Hp (_ & _ & _ & k & l & Hl & Hn & _). by apply (proj1 (Hp k l Hl)). Qed.

(** Loading what was saved. *)
Lemma load_saved st0 G0 path st G : store_is st0 G0 -> plain_names st0 -> (forall i, is_Some (store_malloc i)) -> writes ->
  st_files st !! path = Some (concat (end_line <$> file_lines st0 G0)) -> store_is st G -> cached st = [] -> (forall k, is_Some (fixed_mem st !! k) -> own k) ->
  Z.of_nat (length G0) <= st_max_prefixes st ->
  exists st' G', pa_store_load path st = Some (st', 0) /\ store_is st' G' /\ cached st' = cached st0.
Proof.
  intros Hi0 Hp Hm Hw Hf Hi Hc Hown Hmax. unfold pa_store_load, open_read. rewrite (proj1 (Hw _)), Hf. rewrite getlines_lines by (by apply file_lines_plain).
  destruct (called_is st G Hi) as (Hi1 & F1 & _). set (st1 := called st) in *. unfold file_lines. rewrite (saved_plain st0 G0 (si_rep _ _ Hi0) Hp), fmap_app. fold end_line. rewrite load_ignored by apply banner_ignored.
  cbn [fmap list_fmap load_lines]. assert (load_line (end_line (token_line st0)) st1 = Some (st1, false)) as ->.
  { unfold load_line. destruct (token_line_words st0 (si_timers _ _ Hi0)) as (-> & _ & _). cbn [lookup list_lookup]. change (is_comment PA_STORE_WTOKEN) with false. cbv iota.
    rewrite decide_False by done. rewrite decide_True by done. rewrite scan_print by apply Hi0. done. }
  cbn [mbind option_bind]. destruct (load_entries st0 G0 Hi0 Hp Hm G0 [] st1 G) as (st' & G' & H1 & H2 & H3); try done; [by rewrite app_nil_r|].
  exists st', G'. split; [exact H1|]. split; [done|]. by rewrite H3, (cached_spec st0 G0 (si_rep _ _ Hi0)).
Qed.
End file.
