(* ===== verification/PaStoreOps.v ===== *)
(** All operations of the store as one step function, and the rule that proposes cached
    prefixes. *)
From S2P Require Import Prelude Bitops Prefix Tlv BtrieWf PaTrie PaCore PaFacts PaInv PaPublish PaAdvertise PaRules PaRandom PaOverride PaStore PaStoreInv PaStoreCache PaStoreLinks PaStoreText PaStoreFile.

Section ops.
Context `{SH : !StoreHost, HOK : !StoreHostOk}.
Implicit Types (st : pa_store) (k : link_ptr) (p : nat) (G : list (nat * link_ptr)).

(** ** Set-up and timers *)

(** A state with other files, more calls, and settings that keep the timers right. *)
Lemma settings_is st st' G : store_is st G -> memory st' = memory st -> st_links st' = st_links st -> (st_calls st <= st_calls st')%nat ->
  st_max_prefixes st' = st_max_prefixes st -> timers_ok st' -> store_is st' G /\ cached st' = cached st.
Proof.
  intros [H0 H1 H2 H3 H4] Hm HL Hc Hx Ht. pose proof Hm as (M1 & M2 & M3)%memory_fields.
  assert (Hfix : fixed_mem st' = fixed_mem st) by (unfold fixed_mem; by rewrite M1).
  assert (Hr : represents (st_links st') st' G) by (rewrite HL; by eapply represents_memory). split.
  - split; [done|by rewrite Hfix| |done|by rewrite Hx]. unfold in_limits. by rewrite Hfix, Hx.
  - rewrite (cached_spec st G H0), (cached_spec st' G Hr). assert (shown st' <$> G = shown st <$> G) as -> by (apply list_fmap_ext; intros; unfold shown, prefix_bits; by rewrite M2).
    apply by_name_sub; [by rewrite Hfix|]. intros c Hc'. rewrite M1. by apply (shown_live _ _ _ _ H0).
Qed.

Lemma init_is max st : link_mem st = ∅ -> prefix_mem st = ∅ -> 0 < max < 2 ^ 32 - 1 -> store_is (pa_store_init max st) [] /\ cached (pa_store_init max st) = [].
Proof.
  intros El Ep Hmax. assert (Hr : represents [] (pa_store_init max st) []).
  { split; cbn [pa_store_init st_prefixes st_n_prefixes link_mem prefix_mem st_calls fmap list_fmap]; rewrite ?El, ?Ep; try done; try apply NoDup_nil_2.
    - intros k. rewrite lookup_empty, elem_of_nil. split; [by intros []|done].
    - by intros p k ?%not_elem_of_nil.
    - intros p. rewrite lookup_empty, elem_of_nil. split; [by intros []|done].
    - intros p. rewrite lookup_empty. by intros [].
    - intros n. rewrite lookup_empty. by intros []. }
  split; [|by rewrite (cached_spec (pa_store_init max st) [])]. split; try done.
  - assert (fixed_mem (pa_store_init max st) = ∅) as -> by (unfold fixed_mem; cbn; rewrite El; apply fmap_empty). split; intros *; rewrite ?lookup_empty; done.
  - split; [|cbn; lia]. intros *. unfold fixed_mem. cbn. rewrite El, fmap_empty, lookup_empty. done.
  - split; [cbn; lia|]. by intros [].
Qed.

Lemma scan_u32_range s n : scan_u32 s = Some n -> 0 <= n < 2 ^ 32.
Proof.
  unfold scan_u32. destruct (match s with [] => _ | _ :: _ => _ end) as [minus ds]. case_decide; [done|]. intros [= <-]. apply Z.mod_pos_bound. done.
Qed.

Lemma read_tokens_range lines : forall count n, 0 <= count < 2 ^ 32 -> read_tokens lines count = Some n -> 0 <= n < 2 ^ 32.
Proof.
  induction lines as [|line lines IH]; intros count n Hc; cbn [read_tokens]; [by intros [= <-]|]. case_decide; [|by apply IH].
  intros (w & _ & Hs)%bind_Some. by eapply scan_u32_range.
Qed.

Lemma set_file_is path d1 d2 st G : store_is st G -> store_is (fst (pa_store_set_file path d1 d2 st)) G /\ cached (fst (pa_store_set_file path d1 d2 st)) = cached st.
Proof.
  intros Hi. unfold pa_store_set_file. set (st0 := set_token_timer None _). destruct (negb _).
  { apply (settings_is st); try done; [cbn; lia|]. split; [apply Hi|by intros []]. }
  set (st1 := called _). destruct (open_read path st1) as [content|].
  2: { apply (settings_is st); try done; [cbn; lia|]. split; [apply Hi|by intros []]. }
  destruct (read_tokens _ _) as [count|] eqn:Er; apply (settings_is st); try done; try (cbn; lia); split; try (by intros []).
  - cbn. eapply read_tokens_range; [|exact Er]. unfold PA_STORE_WTOKENS_DEFAULT. lia.
  - apply Hi.
Qed.

Lemma updated_is st G : store_is st G -> store_is (pa_store_updated st) G /\ cached (pa_store_updated st) = cached st.
Proof.
  intros Hi. pose proof (updated_frame st) as F. apply settings_is; [done|apply updated_memory|apply updated_links|by rewrite updated_calls|apply F|apply F, Hi].
Qed.

(** A save needs a token, which the pending timer guarantees. *)
Lemma save_to_is st G : store_is st G -> is_Some (save_timer st) -> ~ save_faults st -> exists st', pa_save_to st = Some st' /\ store_is st' G /\ cached st' = cached st /\ token_count st' = token_count st - 1.
Proof.
  intros Hi Hs Hnf. destruct (si_timers _ _ Hi) as [Ht Hp]. destruct (Hp Hs) as [Hpos _]. unfold pa_save_to. set (st1 := set_token_count _ _).
  assert (Ec : token_count st1 = token_count st - 1) by (unfold st1; cbn; apply u32_small; lia).
  destruct (settings_is st st1 G Hi) as [Hi1 Hc1]; try done. { split; [rewrite Ec; lia|by intros []]. }
  destruct (save_spec st1 G Hi1 Hnf) as (fs & n & r & -> & Hn & _). cbn [fmap option_fmap option_map fst]. eexists. split; [done|].
  destruct (settings_is st1 (set_st_files fs (set_st_calls n st1)) G Hi1) as [Hi2 Hc2]; [done|done|exact Hn|done|apply Hi1|]. split; [done|]. split; [by rewrite Hc2|exact Ec].
Qed.

Lemma token_to_is st G : store_is st G -> token_count st < 2 ^ 32 - 1 -> store_is (pa_token_to st) G /\ cached (pa_token_to st) = cached st.
Proof.
  intros Hi Hlt. destruct (si_timers _ _ Hi) as [Ht Hp]. unfold pa_token_to. set (st0 := set_token_timer None st). change (token_count st0) with (token_count st).
  case_decide; [by apply settings_is; try apply Hi|]. set (st1 := set_token_count _ st0).
  assert (Ec : token_count st1 = token_count st + 1) by (unfold st1; cbn; apply u32_small; lia).
  destruct (settings_is st st1 G Hi) as [Hi1 Hc1]; try done. { split; [rewrite Ec; lia|]. intros Hs. rewrite Ec. split; [lia|by apply Hp]. }
  set (st2 := if pending_changes st1 then _ else _). assert (store_is st2 G /\ cached st2 = cached st) as [Hi2 Hc2].
  { unfold st2. destruct (pending_changes st1); [|done]. destruct (updated_is st1 G Hi1) as [? ->]. done. }
  destruct (settings_is st2 (set_token_timer (store_timeout_at st2 (token_delay st2)) st2) G Hi2) as [Hi3 Hc3]; [done..|apply Hi2|]. split; [done|]. by rewrite Hc3.
Qed.

(** ** Steps *)

Inductive store_op :=
| StCache (k : link_ptr) (prefix : list Z) (plen : nat)
| StApplied (ldp : pa_ldp)
| StLinkAdd (k : link_ptr) (link : pa_store_link)
| StLinkRemove (k : link_ptr)
| StLoad (path : list Z)
| StSave
| StSaveTimer
| StTokenTimer
| StSetFile (path : list Z) (save_delay token_delay : Z)
| StUpdated.

Definition store_exec (op : store_op) st : option pa_store :=
  match op with
  | StCache k x n => fst <$> pa_store_cache k x n st
  | StApplied ldp => pa_store_applied_cb ldp st
  | StLinkAdd k link => pa_store_link_add k link st
  | StLinkRemove k => pa_store_link_remove k st
  | StLoad path => fst <$> pa_store_load path st
  | StSave => fst <$> pa_store_save st
  | StSaveTimer => pa_save_to st
  | StTokenTimer => Some (pa_token_to st)
  | StSetFile path d1 d2 => Some (fst (pa_store_set_file path d1 d2 st))
  | StUpdated => Some (pa_store_updated st)
  end.

(** What callers guarantee: links that are cached for are in the store, prefixes fit their
    memory, the links of users have different names, of which one may be empty, timers
    fire only when they are pending, and tokens do not wrap around. *)
Definition allowed st (op : store_op) : Prop :=
  match op with
  | StCache k x n => k ∈ st_links st /\ prefix_ok x n
  | StApplied ldp => prefix_ok (ldp_prefix ldp) (ldp_plen ldp)
  | StLinkAdd k link => addable st k link
  | StLinkRemove k => removable st k
  | StSaveTimer => is_Some (save_timer st)
  | StTokenTimer => is_Some (token_timer st) /\ token_count st < 2 ^ 32 - 1
  | StLoad _ | StSave | StSetFile _ _ _ | StUpdated => True
  end.

(** What has no result all the same: removing a link with prefixes that has no name or
    gets no memory, and saving when a link without a name has two prefixes. *)
Definition faults st (op : store_op) : Prop :=
  match op with
  | StLinkRemove k => remove_faults st k
  | StSave | StSaveTimer => save_faults st
  | _ => False
  end.

(** The stores that a program can get to. *)
Inductive store_reachable : pa_store -> Prop :=
| sr_init max st : link_mem st = ∅ -> prefix_mem st = ∅ -> 0 < max < 2 ^ 32 - 1 -> store_reachable (pa_store_init max st)
| sr_step st op st' : store_reachable st -> allowed st op -> store_exec op st = Some st' -> store_reachable st'.

Lemma applied_spec ldp st G : store_is st G -> prefix_ok (ldp_prefix ldp) (ldp_plen ldp) -> exists st' G', pa_store_applied_cb ldp st = Some st' /\ store_is st' G'.
Proof.
  intros Hi Hp. unfold pa_store_applied_cb. destruct (negb _); [by exists st, G|].
  destruct (find_link_spec (on_link (Some (ldp_link ldp))) st (st_links st)) as (r & -> & H); [intros k; apply Hi|]. cbn [mbind option_bind]. destruct r as [k|]; [|by exists st, G].
  destruct H as (_ & l & Hl & _). destruct (cache_named st G k l _ _ Hi Hl Hp) as (st' & G' & r & -> & Hi' & _). by exists st', G'.
Qed.

Lemma store_step_ok st op : store_ok st -> allowed st op -> ~ faults st op -> exists st', store_exec op st = Some st' /\ store_ok st'.
Proof.
  intros [G Hi] Ha Hnf. destruct op as [k x n|ldp|k link|k|path| | | |path d1 d2|]; cbn [store_exec allowed faults] in *.
  - destruct Ha as [Hk Hx]. destruct (proj2 (rp_dom _ _ _ (si_rep _ _ Hi) k) Hk) as [l Hl].
    destruct (cache_named st G k l x n Hi Hl Hx) as (st' & G' & r & -> & Hi' & _). exists st'. split; [done|by exists G'].
  - destruct (applied_spec ldp st G Hi Ha) as (st' & G' & -> & Hi'). exists st'. split; [done|by exists G'].
  - destruct (link_add_spec st G k link Hi Ha) as (st' & G' & -> & Hi' & _). exists st'. split; [done|by exists G'].
  - destruct (link_remove_spec st G k Hi Ha Hnf) as (st' & G' & -> & Hi' & _). exists st'. split; [done|by exists G'].
  - destruct (store_load_spec path st G Hi) as (st' & G' & r & -> & Hi' & _). exists st'. split; [done|by exists G'].
  - destruct (save_spec st G Hi Hnf) as (fs & n & r & -> & Hn & _). eexists. split; [done|]. exists G. apply (settings_is st); try done. apply Hi.
  - destruct (save_to_is st G Hi Ha Hnf) as (st' & -> & Hi' & _). exists st'. split; [done|by exists G].
  - destruct Ha as [_ Ha]. eexists. split; [done|]. exists G. by apply token_to_is.
  - eexists. split; [done|]. exists G. by apply set_file_is.
  - eexists. split; [done|]. exists G. by apply updated_is.
Qed.

(** The faults are faults. *)
Lemma store_step_fault st op : store_ok st -> faults st op -> store_exec op st = None.
Proof.
  intros [G Hi] Hf. destruct op; cbn [store_exec faults] in *; try done.
  - by apply (link_remove_fault st G).
  - destruct (save_cases st G Hi) as [[? _]|[_ ->]]; done.
  - unfold pa_save_to. cbv zeta. set (st1 := set_token_count _ _).
    assert (Hi1 : store_is (set_save_timer None st) G) by (apply (settings_is st); try done; destruct (si_timers _ _ Hi); split; [done|by intros []]).
    assert (H1 : store_is st1 G).
    { apply (settings_is (set_save_timer None st)); try done. split; [apply Z.mod_pos_bound; done|by intros []]. }
    assert (Hf1 : save_faults st1) by exact Hf. destruct (save_cases st1 G H1) as [[? _]|[_ ->]]; done.
Qed.

Lemma reachable_ok st : store_reachable st -> store_ok st.
Proof.
  induction 1 as [max st El Ep Hmax|st op st' _ IH Ha E]; [exists []; by apply init_is|].
  assert (Hnf : ~ faults st op) by (intros Hf; rewrite (store_step_fault st op IH Hf) in E; done). destruct (store_step_ok st op IH Ha Hnf) as (st'' & E' & H). congruence.
Qed.

(** ** What the cache holds after a step *)

Definition link_max st k : Z := match link_mem st !! k with Some l => sl_max_prefixes l | None => 0 end.

(** The abstract cache: caching remembers a prefix, a link that comes back limits what is
    known for its name, nothing else changes it. *)
Definition cache_after st (op : store_op) (C : list (list Z * list bool)) : list (list Z * list bool) :=
  match op with
  | StCache k x n => remember (link_name st k) (bits x 0 n) (link_max st k) (st_max_prefixes st) C
  | StApplied ldp =>
    if applied ldp then
      match find_link (on_link (Some (ldp_link ldp))) st (st_links st) with
      | Some (Some k) => remember (link_name st k) (bits (ldp_prefix ldp) 0 (ldp_plen ldp)) (link_max st k) (st_max_prefixes st) C
      | _ => C
      end
    else C
  | StLinkAdd _ link => limit_link fst (sl_name link) (sl_max_prefixes link) C
  | _ => C
  end.

(** A new prefix is not cached without memory. *)
Definition no_memory st st' : Prop := store_malloc (st_calls st) = None /\ cached st' = cached st.

Lemma cache_after_cache st G k l x n : store_is st G -> link_mem st !! k = Some l -> prefix_ok x n ->
  exists st' r, pa_store_cache k x n st = Some (st', r) /\ (cached st' = remember (link_name st k) (bits x 0 n) (link_max st k) (st_max_prefixes st) (cached st) \/ no_memory st st').
Proof.
  intros Hi Hl Hx. destruct (cache_named st G k l x n Hi Hl Hx) as (st' & G' & r & -> & _ & _ & _ & H).
  exists st', r. split; [done|]. unfold link_name, link_max. rewrite Hl. destruct H as [[_ ?]|(_ & ? & _ & ?)]; [by left|by right].
Qed.

Lemma step_refines st op : store_ok st -> allowed st op -> ~ faults st op -> (forall path, op ≠ StLoad path) ->
  exists st', store_exec op st = Some st' /\ (cached st' = cache_after st op (cached st) \/ no_memory st st').
Proof.
  intros [G Hi] Ha Hnf Hop. destruct op as [k x n|ldp|k link|k|path| | | |path d1 d2|]; cbn [store_exec allowed faults cache_after] in *.
  - destruct Ha as [Hk Hx]. destruct (proj2 (rp_dom _ _ _ (si_rep _ _ Hi) k) Hk) as [l Hl]. destruct (cache_after_cache st G k l x n Hi Hl Hx) as (st' & r & -> & Hc). by exists st'.
  - unfold pa_store_applied_cb. destruct (applied ldp); cbn [negb]; [|exists st; split; [done|by left]].
    destruct (find_link_spec (on_link (Some (ldp_link ldp))) st (st_links st)) as (r & -> & H); [intros k; apply Hi|]. cbn [mbind option_bind]. destruct r as [k|]; [|exists st; split; [done|by left]].
    destruct H as (_ & l & Hl & _). destruct (cache_after_cache st G k l _ _ Hi Hl Ha) as (st' & r & -> & Hc). by exists st'.
  - destruct (link_add_spec st G k link Hi Ha) as (st' & G' & -> & _ & _ & Hc). exists st'. split; [done|by left].
  - destruct (link_remove_spec st G k Hi Ha Hnf) as (st' & G' & -> & _ & _ & Hc). exists st'. split; [done|by left].
  - by destruct (Hop path).
  - destruct (save_spec st G Hi Hnf) as (fs & n & r & -> & Hn & _). eexists. split; [done|]. left. by apply (settings_is st _ G); try apply Hi.
  - destruct (save_to_is st G Hi Ha Hnf) as (st' & -> & _ & Hc & _). exists st'. split; [done|by left].
  - destruct Ha as [_ Ha]. eexists. split; [done|]. left. by apply (token_to_is st G).
  - eexists. split; [done|]. left. by apply (set_file_is path d1 d2 st G).
  - eexists. split; [done|]. left. by apply (updated_is st G).
Qed.

(** ** The end *)

Lemma free_prefixes_spec ps : forall st, NoDup ps -> (forall p, p ∈ ps -> is_Some (prefix_mem st !! p)) -> exists st', free_prefixes ps st = Some st' /\
  link_mem st' = link_mem st /\ st_links st' = st_links st /\ forall p, prefix_mem st' !! p = if decide (p ∈ ps) then None else prefix_mem st !! p.
Proof.
  induction ps as [|p ps IH]; intros st Hn Hps; cbn [free_prefixes]; [exists st; split_and!; try done; intros p; by rewrite decide_False by apply not_elem_of_nil|].
  apply NoDup_cons in Hn as [Hp Hn]. destruct (Hps p) as [e ->]; [by left|]. cbn [mbind option_bind]. set (st1 := set_prefix_mem _ st).
  destruct (IH st1 Hn) as (st' & -> & H1 & H2 & H3). { intros q Hq. unfold st1. cbn. rewrite lookup_delete_ne by (by intros ->). apply Hps. by right. }
  exists st'. split_and!; try done. intros q. rewrite H3. unfold st1. cbn [set_prefix_mem prefix_mem]. destruct (decide (q = p)) as [->|Hq].
  - rewrite lookup_delete_eq, (decide_True (P := p ∈ p :: ps)) by (by left). by case_decide.
  - rewrite lookup_delete_ne by done. destruct (decide (q ∈ ps)); [rewrite decide_True by (by right)|rewrite decide_False by (by intros [?|?]%elem_of_cons)]; done.
Qed.

Lemma free_links_spec ks : forall st, NoDup ks -> (forall k, k ∈ ks -> is_Some (link_mem st !! k)) -> exists st', free_links ks st = Some st' /\
  prefix_mem st' = prefix_mem st /\ (forall k l, link_mem st' !! k = Some l -> link_mem st !! k = Some l /\ (k ∈ ks -> sl_link l ≠ None)).
Proof.
  induction ks as [|k ks IH]; intros st Hn Hks; cbn [free_links]; [exists st; split_and!; try done; intros k l Hl; split; [done|by intros ?%not_elem_of_nil]|].
  apply NoDup_cons in Hn as [Hk Hn]. destruct (Hks k) as [l Hl]; [by left|]. rewrite Hl. cbn [mbind option_bind]. set (st1 := if decide _ then _ else _).
  assert (H1 : forall k', k' ≠ k -> link_mem st1 !! k' = link_mem st !! k') by (intros k' Hne; unfold st1; case_decide; [by apply lookup_delete_ne|done]).
  destruct (IH st1 Hn) as (st' & -> & Hp & Hl'). { intros k' Hk'. rewrite H1 by (by intros ->). apply Hks. by right. }
  exists st'. split; [done|]. split; [rewrite Hp; unfold st1; by case_decide|]. intros k' l' Hk'. destruct (Hl' k' l' Hk') as [Ha Hb]. destruct (decide (k' = k)) as [->|Hne].
  - unfold st1 in Ha. case_decide as E; [cbn in Ha; by apply lookup_delete_Some in Ha as [? _]|]. split; [done|]. intros _. congruence.
  - rewrite H1 in Ha by done. split; [done|]. intros [?|?]%elem_of_cons; [done|by apply Hb].
Qed.

(** Everything that was allocated is freed, once. *)
Lemma term_spec st G : store_is st G -> exists st', pa_store_term st = Some st' /\ prefix_mem st' = ∅ /\ (forall k, is_Some (link_mem st' !! k) -> ~ own k) /\
  save_timer st' = None /\ token_timer st' = None.
Proof.
  intros Hi. pose proof (si_rep _ _ Hi) as Hr. unfold pa_store_term. destruct (free_prefixes_spec (st_prefixes st) st) as (st1 & -> & L1 & K1 & P1).
  { rewrite (rp_prefixes _ _ _ Hr). apply Hr. } { intros p. rewrite (rp_prefixes _ _ _ Hr). apply Hr. }
  cbn [mbind option_bind]. rewrite K1. destruct (free_links_spec (st_links st) st1) as (st2 & -> & P2 & L2). { apply Hr. } { intros k. rewrite L1. apply Hr. }
  cbn [mbind option_bind]. eexists. split; [done|]. split_and!; try done.
  - cbn. rewrite P2. apply map_empty. intros p. rewrite P1. case_decide as Hin; [done|]. apply eq_None_not_Some. rewrite (rp_cells _ _ _ Hr). by rewrite <- (rp_prefixes _ _ _ Hr).
  - intros k [l Hl] Hown. destruct (L2 k l Hl) as [Hk Hne]. rewrite L1 in Hk. apply Hne; [apply (rp_dom _ _ _ Hr); by eexists|].
    assert (Hf : fixed_mem st !! k = Some (sl_link l, sl_name l, sl_max_prefixes l)) by (apply fixed_lookup; by exists l). by apply (lo_own _ (si_links _ _ Hi) _ _ _ _ Hf).
Qed.
End ops.
