(* ===== verification/PaStoreProps.v ===== *)
(** Correctness of the store of prefixes. *)
From S2P Require Import Prelude Bitops Prefix Tlv BtrieWf BtrieIter PaTrie PaCore PaFacts PaInv PaPublish PaAdvertise PaRules PaRandom PaOverride PaSteps PaExample PaProps PaStore PaStoreInv PaStoreCache PaStoreLinks PaStoreText PaStoreFile PaStoreOps.

Section props.
Context `{SH : !StoreHost, HOK : !StoreHostOk}.
Implicit Types (st : pa_store) (k : link_ptr) (G : list (nat * link_ptr)).

(** C14: In every state the store of prefixes reaches by caching, callbacks of applied prefixes,
    links that are added or removed, loading any file, saving, timers and a change of file:
    the list of all prefixes and the lists of the links agree in order, the counters are
    exact, no prefix is cached twice for a link, no limit is exceeded, names are unique, and
    a save is due only while there is a token for it. Such an operation has a defined result
    exactly unless it removes a link with prefixes that has no name or gets no memory, or
    saves, with the file open and its banner written, while a link without a name has two
    prefixes; and at the end all that was allocated is freed once. Assumed are a limit from
    1 to 2^32 - 2, links of users with different names (one may be empty), prefixes that
    fit, and tokens that do not pass 2^32. *)
Theorem store_invariant st : store_reachable st ->
  store_ok st /\ (forall op, allowed st op -> is_Some (store_exec op st) <-> ~ faults st op) /\
  exists st', pa_store_term st = Some st' /\ prefix_mem st' = ∅ /\ (forall k, is_Some (link_mem st' !! k) -> ~ own k).
Proof.
  intros Hok%reachable_ok. split; [done|]. split.
  - intros op Ha. split; [intros [st' E] Hf; by rewrite (store_step_fault st op Hok Hf) in E|].
    intros Hnf. destruct (store_step_ok st op Hok Ha Hnf) as (st' & -> & _). by eexists.
  - destruct Hok as [G Hi]. destruct (term_spec st G Hi) as (st' & ? & ? & ? & _). by exists st'.
Qed.

(** C13: The pointers and lists of the store implement a list of names of links with prefixes,
    the most recent one first: caching moves or adds a prefix at the front and drops the
    oldest beyond the limit of its link and then of the store; a link that is added cuts
    what is known for its name to its limit; removing a link, saving, timers and a change of
    file change nothing. This is said of every operation of C14 that has a defined result,
    other than loading a file; only when there is no memory for it, a new prefix is not
    cached. *)
Theorem store_remembers st op : store_reachable st -> allowed st op -> ~ faults st op -> (forall path, op ≠ StLoad path) ->
  exists st', store_exec op st = Some st' /\
    (cached st' = cache_after st op (cached st) \/ (store_malloc (st_calls st) = None /\ cached st' = cached st)).
Proof. intros Hok%reachable_ok. by apply step_refines. Qed.

(** The tokens of a saved file. *)
Lemma read_tokens_saved st G count : store_is st G -> plain_names st -> read_tokens (getlines (concat (end_line <$> file_lines st G))) count = Some (token_count st).
Proof.
  intros Hi Hp. rewrite getlines_lines by (by apply file_lines_plain). unfold file_lines. rewrite fmap_app. cbn [fmap list_fmap]. unfold banner_lines.
  cbn [fmap list_fmap app read_tokens]. repeat (rewrite decide_False by (vm_compute; discriminate)).
  destruct (token_line_words st (si_timers _ _ Hi)) as (_ & E & _). unfold end_line in E. rewrite E. rewrite decide_True by done. cbn [lookup list_lookup mbind option_bind].
  apply scan_print, Hi.
Qed.

(** C36: Saving succeeds and leaves the cache as it is, and a fresh store with enough room that
    loads the file has exactly the same prefixes under the same names in the same order, and
    gets the same number of tokens; for names without blanks, when memory and files can be
    had. *)
Theorem store_file_roundtrip st path : store_reachable st -> plain_names st -> writes -> (forall i, is_Some (store_malloc i)) -> st_filepath st = Some path ->
  exists st1, pa_store_save st = Some (st1, 0) /\ cached st1 = cached st /\
    forall max st2, link_mem st2 = ∅ -> prefix_mem st2 = ∅ -> st_files st2 = st_files st1 -> 0 < max < 2 ^ 32 - 1 -> Z.of_nat (length (cached st)) <= max ->
      (exists st3, pa_store_load path (pa_store_init max st2) = Some (st3, 0) /\ cached st3 = cached st) /\
      (forall d1 d2, token_count (fst (pa_store_set_file path d1 d2 (pa_store_init max st2))) = token_count st).
Proof.
  intros [G Hi]%reachable_ok Hp Hw Hm Hpath. destruct (save_spec st G Hi (plain_not_crowded st Hp)) as (fs & n & r & Es & Hn & Hf). destruct (Hf Hw path Hpath) as [-> Hfs]. rewrite Es.
  eexists. split; [done|]. split; [by apply (settings_is st _ G); try apply Hi|]. intros max st2 El Ep Efs Hmax Hlen. cbn in Efs. destruct (init_is max st2 El Ep Hmax) as [Hi2 Hc2].
  assert (Hfile : st_files (pa_store_init max st2) !! path = Some (concat (end_line <$> file_lines st G))) by (cbn; by rewrite Efs).
  assert (Hown : forall k, is_Some (fixed_mem (pa_store_init max st2) !! k) -> own k) by (intros k; unfold fixed_mem; cbn; rewrite El, fmap_empty, lookup_empty; by intros []).
  split.
  - destruct (load_saved st G path _ [] Hi Hp Hm Hw Hfile Hi2 Hc2 Hown) as (st3 & G3 & H1 & _ & H3); [|by exists st3].
    rewrite (cached_spec st G (si_rep _ _ Hi)) in Hlen. unfold by_name in Hlen. rewrite !length_fmap in Hlen. done.
  - intros d1 d2. unfold pa_store_set_file. rewrite (proj1 (Hw _)). cbn [negb]. unfold open_read. rewrite (proj1 (Hw _)). set (fs' := st_files (called _)).
    assert (fs' !! path = Some (concat (end_line <$> file_lines st G))) as ->; [|by rewrite (read_tokens_saved st G)].
    unfold fs'. cbn. rewrite lookup_insert_eq. f_equal. cbn in Hfile. by rewrite Hfile.
Qed.

(** ** The rule *)

Section rule.
Context `{PT : !PrefixTrie pentry, PTO : !PrefixTrieOk pentry, PX : !PaExt}.
Implicit Types (o : pa_core) (p : pa_ldp).








End rule.
End props.

(** ** What the store does not keep *)

Section limits.
Context `{SH : !StoreHost, HOK : !StoreHostOk}.
Implicit Types (st : pa_store).

(** Once there are as many tokens as there may be, the timer of the tokens is not set
    again: only another file brings tokens. *)
Lemma token_timer_stops st op st' : token_count st = PA_STORE_WTOKENS_MAX -> token_timer (pa_token_to st) = None /\
  (store_ok st -> token_timer st = None -> allowed st op -> (forall path d1 d2, op ≠ StSetFile path d1 d2) -> store_exec op st = Some st' -> token_timer st' = None).
Proof.
  intros Hmax. split; [unfold pa_token_to; by rewrite decide_True|]. intros Hok Ht Ha Hop E.
  assert (Hnf : ~ faults st op) by (intros Hf; by rewrite (store_step_fault st op Hok Hf) in E). destruct Hok as [G Hi].
  destruct op as [k x n|ldp|k link|k|path| | | |path d1 d2|]; cbn [store_exec allowed faults] in *.
  - destruct Ha as [Hk Hx]. destruct (proj2 (rp_dom _ _ _ (si_rep _ _ Hi) k) Hk) as [l Hl]. destruct (cache_named st G k l x n Hi Hl Hx) as (st1 & G1 & r & Ec & _ & F & _).
    rewrite Ec in E. injection E as <-. by rewrite (fr_token_timer _ _ F).
  - unfold pa_store_applied_cb in E. destruct (negb _); [congruence|]. destruct (find_link_spec (on_link (Some (ldp_link ldp))) st (st_links st)) as (r & Er & H); [intros k; apply Hi|].
    rewrite Er in E. cbn [mbind option_bind] in E. destruct r as [k|]; [|congruence]. destruct H as (_ & l & Hl & _).
    destruct (cache_named st G k l _ _ Hi Hl Ha) as (st1 & G1 & r & Ec & _ & F & _). rewrite Ec in E. injection E as <-. by rewrite (fr_token_timer _ _ F).
  - destruct (link_add_spec st G k link Hi Ha) as (st1 & G1 & Ec & _ & F & _). rewrite Ec in E. injection E as <-. by rewrite (fr_token_timer _ _ F).
  - destruct (link_remove_spec st G k Hi Ha Hnf) as (st1 & G1 & Ec & _ & F & _). rewrite Ec in E. injection E as <-. by rewrite (fr_token_timer _ _ F).
  - destruct (store_load_spec path st G Hi) as (st1 & G1 & r & Ec & _ & F & _). rewrite Ec in E. injection E as <-. by rewrite (fr_token_timer _ _ F).
  - destruct (save_spec st G Hi Hnf) as (fs & n & r & Ec & _). rewrite Ec in E. by injection E as <-.
  - destruct (si_timers _ _ Hi) as [Hr Hp]. destruct (Hp Ha) as [Hpos _]. unfold pa_save_to in E. set (st1 := set_token_count _ _) in E.
    destruct (settings_is st st1 G Hi) as [Hi1 _]; try done. { split; [unfold st1; cbn; rewrite u32_small; lia|by intros []]. }
    destruct (save_spec st1 G Hi1 Hnf) as (fs & n & r & Ec & _). rewrite Ec in E. by injection E as <-.
  - destruct Ha as [[t Hs] _]. congruence.
  - by destruct (Hop path d1 d2).
  - injection E as <-. by rewrite (fr_token_timer _ _ (updated_frame st)).
Qed.
End limits.

(** ** An example *)

#[local] Instance inet_addr_dec f a : Decision (inet_addr f a).
Proof. unfold inet_addr. apply _. Defined.

(** A host whose calls succeed. *)
#[local] Instance example_store_host : StoreHost := {|
  store_malloc := fun _ => Some (replicate 16 170);
  fopen_ok := fun _ => true;
  fprintf_ok := fun _ => true;
  store_text := hex_text;
  store_pton := fun f t => a ← hex_pton f t; if decide (inet_addr f a) then Some a else None
|}.

#[local] Instance example_store_host_ok : StoreHostOk.
Proof.
  split.
  - intros n mem [= <-]. split; [decided|done].
  - destruct hex_inet_text as [H1 H2 H3 H4]. split; cbn [store_text store_pton example_store_host].
    + exact H1.
    + exact H2.
    + intros f a Ha. rewrite H3 by done. cbn [mbind option_bind]. by rewrite decide_True.
    + intros a Ha. by rewrite H4.
  - cbn [store_text store_pton example_store_host]. intros f t a (x & _ & H)%bind_Some. case_decide; [by injection H as <-|done].
  - cbn [store_text example_store_host]. intros f a [Hb _]. constructor; [by destruct f|]. unfold hextext. induction Hb as [|b a Hb _ IH]; [constructor|]. cbn [flat_map]. apply Forall_app. split; [|exact IH].
    pose proof (byte_forall (fun b => forallb (fun c => negb (is_space c)) (hexpair b)) b ltac:(vm_compute; reflexivity) Hb) as H. rewrite forallb_forall in H. apply Forall_forall.
    intros c Hc%list_elem_of_In%H. by apply negb_true_iff in Hc.
Qed.

#[local] Instance word_ok_dec w : Decision (word_ok w).
Proof. unfold word_ok. apply _. Defined.

#[local] Instance allowed_dec st op : Decision (allowed st op).
Proof. destruct op; unfold allowed, addable, removable; apply _. Defined.

Definition blank_store : pa_store := mk_pa_store [] [] 0 0 None false 0 None 0 0 None ∅ ∅ ∅ 0 0.

Definition eth (n : nat) (name : list Z) (max : Z) : pa_store_link := mk_pa_store_link (Some n) name max None 0.

Fixpoint store_run (ops : list store_op) (st : pa_store) : option pa_store :=
  match ops with
  | [] => Some st
  | op :: ops => if decide (allowed st op) then st ← store_exec op st; store_run ops st else None
  end.

Lemma run_reachable ops : forall st st', store_reachable st -> store_run ops st = Some st' -> store_reachable st'.
Proof.
  induction ops as [|op ops IH]; intros st st' Hst; cbn [store_run]; [by intros [= <-]|]. case_decide as Ha; [|done]. intros (st1 & E & Hr)%bind_Some.
  apply (IH st1 st'); [by eapply sr_step|done].
Qed.

Lemma init_reachable max : 0 < max < 2 ^ 32 - 1 -> store_reachable (pa_store_init max blank_store).
Proof. intros. by apply sr_init. Qed.

(** Two links, with three prefixes of one of them, which keeps two. *)
Definition example_ops : list store_op := [
  StLinkAdd (UserLink 0) (eth 0 (text "eth0") 2); StLinkAdd (UserLink 1) (eth 1 (text "eth1") 2); StSetFile (text "store") 1000 60000;
  StCache (UserLink 0) (ipv6 [32; 1; 13; 184; 0; 0; 0; 1]) 64; StCache (UserLink 1) (ipv6 [32; 1; 13; 184; 0; 0; 0; 2]) 64;
  StCache (UserLink 0) (ipv6 [32; 1; 13; 184; 0; 0; 0; 3]) 64; StCache (UserLink 0) (ipv6 [32; 1; 13; 184; 0; 0; 0; 4]) 64; StLinkRemove (UserLink 0)].

Definition example_store : option pa_store := store_run example_ops (pa_store_init 100 blank_store).

(** What holds of it. *)
Definition in_example (P : pa_store -> Prop) : Prop := exists st, example_store = Some st /\ P st.

Lemma in_example_intro (P : pa_store -> Prop) : (if example_store is Some _ then true else false) = true -> (forall st, example_store = Some st -> store_reachable st -> P st) -> in_example P.
Proof.
  intros H HP. unfold in_example. destruct example_store as [st|] eqn:E; [|done]. exists st. split; [reflexivity|]. apply HP; [reflexivity|].
  apply (run_reachable example_ops (pa_store_init 100 blank_store) st); [apply init_reachable; lia|exact E].
Qed.

Lemma store_invariant_witness : in_example (fun st => store_ok st /\ (forall op, allowed st op -> is_Some (store_exec op st) <-> ~ faults st op) /\
  exists st', pa_store_term st = Some st' /\ prefix_mem st' = ∅ /\ (forall k, is_Some (link_mem st' !! k) -> ~ own k)).
Proof. apply in_example_intro; [vm_compute; reflexivity|]. intros st _ Hst. by apply (store_invariant st). Defined.

(** A predicate of the example, by evaluation. *)
Lemma example_eval (f : pa_store -> bool) st : (if example_store is Some st then f st else false) = true -> example_store = Some st -> f st = true.
Proof. intros H E. rewrite E in H. exact H. Qed.

(** The link comes back, with room for one prefix. *)
Definition example_back : store_op := StLinkAdd (UserLink 0) (eth 0 (text "eth0") 1).

Lemma store_remembers_witness : in_example (fun st => exists st', store_exec example_back st = Some st' /\
    (cached st' = cache_after st example_back (cached st) \/ (store_malloc (st_calls st) = None /\ cached st' = cached st))).
Proof.
  apply in_example_intro; [vm_compute; reflexivity|]. intros st E Hst. apply (store_remembers st example_back Hst).
  - apply (bool_decide_unpack (allowed st example_back)). apply Is_true_true, (example_eval (fun st => bool_decide (allowed st example_back)) st); [vm_compute; reflexivity|exact E].
  - by intros ?.
  - done.
Defined.

Lemma store_file_roundtrip_witness : in_example (fun st => exists st1, pa_store_save st = Some (st1, 0) /\ cached st1 = cached st /\
    forall max st2, link_mem st2 = ∅ -> prefix_mem st2 = ∅ -> st_files st2 = st_files st1 -> 0 < max < 2 ^ 32 - 1 -> Z.of_nat (length (cached st)) <= max ->
      (exists st3, pa_store_load (text "store") (pa_store_init max st2) = Some (st3, 0) /\ cached st3 = cached st) /\
      (forall d1 d2, token_count (fst (pa_store_set_file (text "store") d1 d2 (pa_store_init max st2))) = token_count st)).
Proof.
  apply in_example_intro; [vm_compute; reflexivity|]. intros st E Hst. apply (store_file_roundtrip st (text "store") Hst).
  - assert (H : bool_decide (map_Forall (fun _ l => word_ok (sl_name l)) (link_mem st)) = true) by (apply (example_eval (fun st => bool_decide (map_Forall (fun _ l => word_ok (sl_name l)) (link_mem st))) st); [vm_compute; reflexivity|exact E]).
    apply bool_decide_eq_true in H. intros k l Hl. by apply (H k l).
  - intros n. split; reflexivity.
  - intros i. eexists. reflexivity.
  - apply (bool_decide_unpack (st_filepath st = Some (text "store"))). apply Is_true_true, (example_eval (fun st => bool_decide (st_filepath st = Some (text "store"))) st); [vm_compute; reflexivity|exact E].
Defined.

(** A rule with priorities of its own. *)
Definition example_store_rule : pa_store_rule := mk_pa_store_rule 15 4 None.

(** A pair of the second link that has not published yet. *)
Definition example_wait : list pa_op := [OpTick 20; OpRoutine 0; OpRoutine 1].


(** After its backoff the pair publishes what was cached for its link. *)
Example store_rule_finds : (st ← example_store; o ← example_core example_wait; p ← pair_of example_wait 0;
  '(target, arg) ← pa_store_match example_store_rule st o (set_backoff true p) example_arg; Some (target, arg_prefix arg)) =
  Some (PA_RULE_PUBLISH, Some (ipv6 [32; 1; 13; 184; 0; 0; 0; 2], 64%nat)).
Proof. vm_compute. reflexivity. Qed.

(** ** Flaws *)

(** A link without a name, which the header allows, with two prefixes. *)
Definition unnamed_store : option pa_store :=
  st ← pa_store_link_add (UserLink 0) (eth 0 [] 2) (pa_store_init 100 blank_store);
  let st := fst (pa_store_set_file (text "store") 1000 60000 st) in
  st ← store_exec (StCache (UserLink 0) (ipv6 [32; 1; 13; 184; 0; 0; 0; 1]) 64) st;
  store_exec (StCache (UserLink 0) (ipv6 [32; 1; 13; 184; 0; 0; 0; 2]) 64) st.

(** Saving leaves its prefixes where they are, and so takes the second one for the
    list head of a link. *)
Lemma store_save_unnamed : (st ← unnamed_store; Some (bool_decide (pa_store_save st ≫= Some ∘ snd = None))) = Some true.
Proof. vm_compute. reflexivity. Qed.

(** Removing the link reads a prefix after it was freed. *)
Lemma store_remove_unnamed : (st ← unnamed_store; Some (bool_decide (length (st_prefixes st) = 2%nat /\ pa_store_link_remove (UserLink 0) st ≫= Some ∘ st_links = None))) = Some true.
Proof. vm_compute. reflexivity. Qed.

(** Two links of users with the same name: the first is left with the head of a list that
    it does not have any more. *)
Lemma store_same_name : (st ← store_run [StLinkAdd (UserLink 0) (eth 0 (text "a") 2); StCache (UserLink 0) (ipv6 [32; 1; 13; 184; 0; 0; 0; 1]) 64] (pa_store_init 100 blank_store);
  st ← pa_store_link_add (UserLink 1) (eth 1 (text "a") 2) st;
  Some (bool_decide (pa_store_cache (UserLink 0) (ipv6 [32; 1; 13; 184; 0; 0; 0; 2]) 64 st ≫= Some ∘ snd = None))) = Some true.
Proof. vm_compute. reflexivity. Qed.

(** A file may ask for more tokens than there can be, and the store goes on adding to
    them. *)
Lemma store_tokens_above_max : let st := set_st_files {[ text "store" := text "write_tokens 4000000000" ]} (pa_store_init 100 blank_store) in
  let st := fst (pa_store_set_file (text "store") 1000 60000 st) in
  token_count st = 4000000000 /\ token_count (pa_token_to st) = 4000000001 /\ PA_STORE_WTOKENS_MAX < token_count (pa_token_to st).
Proof. vm_compute. done. Qed.
