(* ===== verification/Hncp.v ===== *)
(** The HNCP profile: the model of [src/hncp_i.h] and of [src/hncp.c], with the types of
    [src/hncp_proto.h].

    What the profile adds to nodes and endpoints ([hncp_node_s], [hncp_ep_s]) is kept
    beside the DNCP state, by identifier. *)
From S2P Require Import Prelude Bitops Tlv DncpNotify DncpIndex DncpState Dncp.

(** ** Types of [src/hncp_proto.h] *)

Definition HNCP_T_VERSION : Z := 32.
Definition HNCP_T_EXTERNAL_CONNECTION : Z := 33.
Definition HNCP_T_DELEGATED_PREFIX : Z := 34.
Definition HNCP_T_ASSIGNED_PREFIX : Z := 35.
Definition HNCP_T_NODE_ADDRESS : Z := 36.
Definition HNCP_T_PREFIX_POLICY : Z := 43.
Definition HNCP_T_VERSION_INDICATED_VERSION : Z := 1.

Definition ROUND_BITS_TO_BYTES (b : nat) : nat := (b + 7) / 8.
Definition ROUND_BYTES_TO_4BYTES (b : nat) : nat := (b + 3) / 4 * 4.

Section hncp.
Context `{!DncpExt}.

(** A byte of the payload. *)
Definition byte_at (d : list Z) (i : nat) : Z := default 0 (d !! i).

(** [hncp_t_assigned_prefix_header_s]; what follows the header is the data. *)
Record t_assigned_prefix := mk_t_ap { ap_ep_id : Z; ap_flags : Z; ap_plen : nat; ap_data : list Z }.

(** The header has 6 bytes. *)
Definition hncp_tlv_ap (a : attr) : option t_assigned_prefix :=
  let '(id, d) := a in
  if decide (id ≠ HNCP_T_ASSIGNED_PREFIX \/ length d < 6)%nat then None
  else
    let plen := Z.to_nat (byte_at d 5) in
    if decide (length d < 6 + ROUND_BITS_TO_BYTES plen \/ 128 < plen)%nat then None
    else Some (mk_t_ap (of_host32 (take 4 d)) (byte_at d 4) plen (drop 6 d)).

(** [hncp_t_delegated_prefix_header_s]. *)
Record t_delegated_prefix := mk_t_dp { dp_valid : Z; dp_preferred : Z; tdp_plen : nat; dp_data : list Z }.

(** The header has 9 bytes; the lifetimes are in the order of the network. *)
Definition hncp_tlv_dp (a : attr) : option t_delegated_prefix :=
  let '(id, d) := a in
  if decide (id ≠ HNCP_T_DELEGATED_PREFIX \/ length d < 9)%nat then None
  else
    let plen := Z.to_nat (byte_at d 8) in
    if decide (length d < 9 + ROUND_BITS_TO_BYTES plen \/ 128 < plen)%nat then None
    else Some (mk_t_dp (of_be32 (take 4 d)) (of_be32 (take 4 (drop 4 d))) plen (drop 9 d)).

(** [hncp_t_node_address_s]: 20 bytes. *)
Record t_node_address := mk_t_ra { ra_ep_id : Z; ra_address : list Z }.

Definition hncp_tlv_ra (a : attr) : option t_node_address :=
  let '(id, d) := a in
  if decide (id ≠ HNCP_T_NODE_ADDRESS \/ length d ≠ 20)%nat then None
  else Some (mk_t_ra (of_host32 (take 4 d)) (drop 4 d)).

End hncp.
