(* ===== verification/HncpLink.v ===== *)
(** Neighbours and elections on a link: the model of [src/hncp_link.c].

    The calls of the users of a link are recorded in a list.  The endpoint of a
    calculation is its identifier and the name of its interface. *)
From S2P Require Import Prelude Bitops Tlv DncpNotify DncpIndex DncpState Dncp Hncp.

(** ** Structures *)

(** [enum hncp_link_elected]: bits of a mask. *)
Definition HNCP_LINK_NONE : Z := 0.
Definition HNCP_LINK_LEGACY : Z := 2 ^ 0.
Definition HNCP_LINK_HOSTNAMES : Z := 2 ^ 1.
Definition HNCP_LINK_PREFIXDEL : Z := 2 ^ 2.
Definition HNCP_LINK_MDNSPROXY : Z := 2 ^ 3.
Definition HNCP_LINK_STATELESS : Z := 2 ^ 4.

(** [hncp_ep_id_s]. *)
Definition ep_ref : Type := node_id * Z.

(** [struct hncp_link_user]: which of the callbacks are set. *)
Record link_user := mk_link_user { lu_id : nat; lu_link : bool; lu_elected : bool }.

(** Calls of users; the peers are [None] for a link that is not enabled. *)
Inductive link_event :=
| CbLink (user : nat) (ifname : list Z) (peers : option (list ep_ref))
| CbElected (user : nat) (ifname : list Z) (elected : Z).

(** [struct hncp_link]: the payload of the version TLV that was published, if any. *)
Record hncp_link := mk_hncp_link { versiontlv : option (list Z); link_users : list link_user }.

(** ** Elections *)

(** [caps_mp] and [caps_hl] of a version TLV. *)
Record caps := mk_caps { caps_mp : Z; caps_hl : Z }.

Definition caps_of (d : list Z) : option caps :=
  mp ← rd d 2;
  hl ← rd d 3;
  Some (mk_caps mp hl).

Definition cap_m (c : caps) : Z := Z.shiftr (caps_mp c) 4.
Definition cap_p (c : caps) : Z := Z.land (caps_mp c) 0x0f.
Definition cap_h (c : caps) : Z := Z.shiftr (caps_hl c) 4.
Definition cap_l (c : caps) : Z := Z.land (caps_hl c) 0x0f.

Definition caps_value (c : caps) : Z := Z.lor (Z.shiftl (caps_mp c) 8) (caps_hl c).

(** The bits set before any peer is looked at. *)
Definition pre_elected (c : caps) : Z :=
  Z.lor (if decide (cap_m c ≠ 0) then HNCP_LINK_MDNSPROXY else 0)
  (Z.lor (if decide (cap_p c ≠ 0) then HNCP_LINK_PREFIXDEL else 0)
  (Z.lor (if decide (cap_h c ≠ 0) then HNCP_LINK_HOSTNAMES else HNCP_LINK_STATELESS)
         (if decide (cap_l c ≠ 0) then HNCP_LINK_LEGACY else 0))).

Definition HNCP_LINK_H : Z := Z.lor HNCP_LINK_HOSTNAMES HNCP_LINK_STATELESS.

(** [elected &= ~mask] when the condition holds. *)
Definition clear_if (b : bool) (mask elected : Z) : Z := if b then Z.land elected (Z.lnot mask) else elected.

(** The comparison with a mutual peer: [our_ni] and [ni] are the node identifiers. *)
Definition elect (our_ni : node_id) (our : caps) (ni : node_id) (peer : caps) (elected : Z) : Z :=
  let elected := clear_if (bool_decide (cap_m our < cap_m peer)) HNCP_LINK_MDNSPROXY elected in
  let elected := clear_if (bool_decide (cap_p our < cap_p peer)) HNCP_LINK_PREFIXDEL elected in
  let elected := clear_if (bool_decide (cap_h our < cap_h peer)) HNCP_LINK_H elected in
  let elected := clear_if (bool_decide (cap_l our < cap_l peer)) HNCP_LINK_LEGACY elected in
  if bool_decide (caps_value our < caps_value peer) ||
     (bool_decide (caps_value our = caps_value peer) && bool_decide (memcmp our_ni ni < 0))
  then
    let elected := clear_if (bool_decide (cap_m peer ≠ 0 /\ cap_m our = cap_m peer)) HNCP_LINK_MDNSPROXY elected in
    let elected := clear_if (bool_decide (cap_p peer ≠ 0 /\ cap_p our = cap_p peer)) HNCP_LINK_PREFIXDEL elected in
    let elected := clear_if (bool_decide (cap_h peer ≠ 0 /\ cap_h our = cap_h peer)) HNCP_LINK_H elected in
    clear_if (bool_decide (cap_l peer ≠ 0 /\ cap_l our = cap_l peer)) HNCP_LINK_LEGACY elected
  else elected.

(** ** Calculation *)

Section link.
Context `{!DncpExt, !DncpCallbacks}.
Implicit Types (o : dncp) (l : hncp_link).

Definition notify l (ifname : list Z) (peers : option (list ep_ref)) (elected : Z) : list link_event :=
  flat_map (fun u => (if lu_link u then [CbLink (lu_id u) ifname peers] else []) ++
                     (if lu_elected u then [CbElected (lu_id u) ifname elected] else [])) (link_users l).

(** [dncp_get_own_node]. *)
Definition dncp_get_own_node o : option node := own ← own_node o; find_node o own.

(** What the loop over the TLVs of a peer keeps: the capabilities of its version TLV,
    whether it announces the link back, and the array of peers; [inr] when two of our
    links appear to be connected. *)
Record peer_scan := mk_peer_scan { ps_version : option (list Z); ps_mutual : bool; ps_peers : list ep_ref }.

(** [peers] has room for [peercnt] elements. *)
Fixpoint scan_peer (own : node_id) (id : Z) (cn : t_peer) (peercnt : nat) (pts : list attr) (s : peer_scan)
  : option (peer_scan + unit) :=
  match pts with
  | [] => Some (inl s)
  | pc :: pts =>
    let s := if decide (pc.1 = HNCP_T_VERSION /\ 4 < length pc.2)%nat
             then mk_peer_scan (Some pc.2) (ps_mutual s) (ps_peers s) else s in
    match dncp_tlv_peer pc with
    | None => scan_peer own id cn peercnt pts s
    | Some pn =>
      if decide (pe_ep_id pn ≠ pe_peer_ep_id cn \/ pe_nid pn ≠ own) then scan_peer own id cn peercnt pts s
      else if decide (pe_peer_ep_id pn = id) then
        if decide (peercnt <= length (ps_peers s))%nat then None
        else scan_peer own id cn peercnt pts (mk_peer_scan (ps_version s) true (ps_peers s ++ [(pe_nid cn, pe_ep_id pn)]))
      else if decide (pe_peer_ep_id pn < id) then Some (inr ())
      else scan_peer own id cn peercnt pts s
    end
  end.

(** The loop over our own peer TLVs of the endpoint; [None] inside when two links are
    connected. *)
Fixpoint scan_own o (own : node_id) (id : Z) (our : option caps) (peercnt : nat) (cns : list t_peer) (peers : list ep_ref) (elected : Z)
  : option (option (list ep_ref * Z)) :=
  match cns with
  | [] => Some (Some (peers, elected))
  | cn :: cns =>
    match find_node o (pe_nid cn) with
    | None => scan_own o own id our peercnt cns peers elected
    | Some peer =>
      pts ← dncp_node_tlvs peer;
      r ← scan_peer own id cn peercnt pts (mk_peer_scan None false peers);
      match r with
      | inr _ => Some None
      | inl s =>
        elected ← match our, ps_version s with
                  | Some our, Some v =>
                    if ps_mutual s then pc ← caps_of v; Some (elect own our (nid peer) pc elected) else Some elected
                  | _, _ => Some elected
                  end;
        scan_own o own id our peercnt cns (ps_peers s) elected
      end
    end
  end.

(** Our peer TLVs of the endpoint [id]. *)
Definition own_peers (id : Z) (ts : list attr) : list t_peer := filter (fun ne => pe_ep_id ne = id) (omap dncp_tlv_peer ts).

Definition calculate_link l o (id : Z) (ifname : list Z) (enable : bool) : option (list link_event) :=
  our ← match versiontlv l with
        | Some d => c ← caps_of d; Some (Some c)
        | None => Some None
        end;
  let elected := match our with Some c => pre_elected c | None => HNCP_LINK_NONE end in
  if negb enable then Some (notify l ifname None HNCP_LINK_NONE)
  else
    own ← dncp_get_own_node o;
    ts ← dncp_node_tlvs own;
    let cns := own_peers id ts in
    r ← scan_own o (nid own) id our (length cns) cns [] elected;
    Some (match r with
          | Some (peers, elected) => notify l ifname (Some peers) elected
          | None => notify l ifname None HNCP_LINK_NONE
          end).

(** ** Callbacks *)

(** [dncp_find_ep_by_name] makes the endpoint if there is none; an empty name has
    none.  [internal]: [iface_get(ifname)] is there and internal. *)
Definition cb_intiface l o (ifname : list Z) (enabled : bool) : option (dncp * list link_event) :=
  match dncp_find_ep_by_name o ifname with
  | (o, Some id) => evs ← calculate_link l o id ifname enabled; Some (o, evs)
  | (o, None) => Some (o, [])
  end.

Definition cb_intaddr l o (ifname : list Z) (internal : list Z -> bool) : option (dncp * list link_event) :=
  cb_intiface l o ifname (internal ifname).

Definition cb_tlv l o (ni : node_id) (t : attr) (internal : list Z -> bool) : option (list link_event) :=
  match dncp_tlv_peer t with
  | None => Some []
  | Some ne =>
    own ← dncp_get_own_node o;
    let e := if dncp_node_is_self o ni then dncp_find_ep_by_id o (pe_ep_id ne)
             else if decide (pe_nid ne = nid own) then dncp_find_ep_by_id o (pe_peer_ep_id ne)
             else None in
    match e with
    | Some e => calculate_link l o (ep_id e) (ifname (conf e)) (internal (ifname (conf e)))
    | None => Some []
    end
  end.

(** ** Creation and users *)

(** [struct hncp_link_config]. *)
Record link_config := mk_link_config {
  lc_version : Z;
  cap_mdnsproxy : Z;
  cap_prefixdel : Z;
  cap_hostnames : Z;
  cap_legacy : Z;
  agent : list Z  (** without the terminating zero *)
}.

(** The payload of the version TLV. *)
Definition version_data (c : link_config) : list Z :=
  [0; 0; u8 (Z.lor (Z.shiftl (cap_mdnsproxy c) 4) (cap_prefixdel c)); u8 (Z.lor (Z.shiftl (cap_hostnames c) 4) (cap_legacy c))] ++
  agent c ++ [0].

(** [s] is the subscription of the link. *)
Definition hncp_link_create o (s : subscriber) (c : option link_config) : option (dncp * hncp_link) :=
  o ← dncp_subscribe o s;
  match c with
  | Some c =>
    if decide (lc_version c = HNCP_T_VERSION_INDICATED_VERSION) then
      Some (dncp_add_tlv o (Z.to_nat HNCP_T_VERSION) (version_data c) None, mk_hncp_link (Some (version_data c)) [])
    else Some (o, mk_hncp_link None [])
  | None => Some (o, mk_hncp_link None [])
  end.

Definition hncp_link_destroy o (s : subscriber) l : option dncp :=
  let o := match versiontlv l with
           | Some d => dncp_remove_tlv o (dncp_find_tlv o (Z.to_nat HNCP_T_VERSION) d)
           | None => dncp_remove_tlv o None
           end in
  dncp_unsubscribe o s.

Definition hncp_link_register (u : link_user) l : hncp_link := mk_hncp_link (versiontlv l) (u :: link_users l).
Definition hncp_link_unregister (u : nat) l : hncp_link :=
  mk_hncp_link (versiontlv l) (filter (fun x => lu_id x ≠ u) (link_users l)).

End link.
