(* ===== verification/HncpElect.v ===== *)
(** Elections on a link have exactly one winner, and the neighbours a link has are
    those that announce it back. *)
From S2P Require Import Prelude Bitops Tlv DncpNotify DncpIndex DncpState Dncp DncpFacts Hncp HncpLink.

(** ** Elections *)

(** The capabilities, their values and the bits of those elected. *)
Inductive capability := CapM | CapP | CapH | CapL.

Definition cap_value (k : capability) (c : caps) : Z :=
  match k with CapM => cap_m c | CapP => cap_p c | CapH => cap_h c | CapL => cap_l c end.

Definition cap_bit (k : capability) : Z := match k with CapM => 3 | CapP => 2 | CapH => 1 | CapL => 0 end.

Definition cap_mask (k : capability) : Z :=
  match k with CapM => HNCP_LINK_MDNSPROXY | CapP => HNCP_LINK_PREFIXDEL | CapH => HNCP_LINK_H | CapL => HNCP_LINK_LEGACY end.

Lemma clear_if_testbit b mask e i : 0 <= i -> Z.testbit (clear_if b mask e) i = Z.testbit e i && negb (b && Z.testbit mask i).
Proof. intros Hi. destruct b; cbn [clear_if andb negb]; [by rewrite Z.land_spec, Z.lnot_spec by done|by rewrite andb_true_r]. Qed.

(** Whether a router gives up a capability because of a peer. *)
Definition below (k : capability) (our_ni : list Z) (our : caps) (ni : list Z) (peer : caps) : bool :=
  bool_decide (cap_value k our < cap_value k peer) ||
  ((bool_decide (caps_value our < caps_value peer) ||
    (bool_decide (caps_value our = caps_value peer) && bool_decide (memcmp our_ni ni < 0))) &&
   bool_decide (cap_value k peer ≠ 0 /\ cap_value k our = cap_value k peer)).

Lemma elect_testbit k our_ni our ni peer e :
  Z.testbit (elect our_ni our ni peer e) (cap_bit k) = Z.testbit e (cap_bit k) && negb (below k our_ni our ni peer).
Proof.
  unfold elect, below. set (low := _ || _ && bool_decide (memcmp _ _ < 0)).
  destruct low; destruct k; cbn [cap_bit cap_value andb]; rewrite !clear_if_testbit by lia;
    repeat match goal with |- context [Z.testbit ?m ?i] => is_ground m; let v := eval vm_compute in (Z.testbit m i) in change (Z.testbit m i) with v end;
    rewrite ?andb_true_r, ?andb_false_r; cbn [negb]; rewrite ?andb_true_r, ?orb_false_r, ?negb_orb, ?andb_assoc; try done.
Qed.

Lemma pre_elected_testbit k c : Z.testbit (pre_elected c) (cap_bit k) = bool_decide (cap_value k c ≠ 0).
Proof.
  unfold pre_elected. destruct k; cbn [cap_bit cap_value]; rewrite !Z.lor_spec; repeat case_decide; by rewrite ?bool_decide_true, ?bool_decide_false by tauto.
Qed.

(** The result of comparing with all of [qs]. *)
Definition elect_all (ni : list Z) (c : caps) (qs : list (list Z * caps)) : Z :=
  foldl (fun e q => elect ni c q.1 q.2 e) (pre_elected c) qs.

Lemma elect_all_testbit k ni c qs : Z.testbit (elect_all ni c qs) (cap_bit k) = true <->
  cap_value k c ≠ 0 /\ forall q, q ∈ qs -> below k ni c q.1 q.2 = false.
Proof.
  unfold elect_all. rewrite <- (bool_decide_eq_true (cap_value k c ≠ 0)), <- pre_elected_testbit. generalize (pre_elected c) as e.
  induction qs as [|q qs IH]; intros e; cbn [foldl]; [split; [intros H; split; [done|by intros q ?%not_elem_of_nil]|tauto]|].
  rewrite IH, elect_testbit, andb_true_iff, negb_true_iff. split.
  - intros [[H1 H2] H3]. split; [done|]. intros q' [->|Hq]%elem_of_cons; auto.
  - intros [H1 H2]. split; [|intros q' Hq; apply H2; by right]. split; [done|]. apply H2. by left.
Qed.

(** A router [r] outranks [q] for a capability. *)
Definition outranks (k : capability) (r q : list Z * caps) : Prop :=
  cap_value k q.2 < cap_value k r.2 \/ cap_value k q.2 = cap_value k r.2 /\
    (caps_value q.2 < caps_value r.2 \/ caps_value q.2 = caps_value r.2 /\ memcmp q.1 r.1 < 0).

Lemma below_outranks k (r q : list Z * caps) : length r.1 = length q.1 -> r.1 ≠ q.1 -> cap_value k r.2 ≠ 0 ->
  below k r.1 r.2 q.1 q.2 = false <-> outranks k r q.
Proof.
  intros Hlen Hne H0. unfold below, outranks. pose proof (memcmp_antisym r.1 q.1) as Ha.
  assert (memcmp r.1 q.1 ≠ 0) by (intros H; apply Hne; by apply memcmp_0).
  repeat case_bool_decide; cbn [orb andb]; split; intros; try done; try lia; exfalso; lia.
Qed.

Lemma outranks_total k (r q : list Z * caps) : length r.1 = length q.1 -> r.1 ≠ q.1 -> outranks k r q \/ outranks k q r.
Proof.
  intros Hlen Hne. unfold outranks. pose proof (memcmp_antisym r.1 q.1) as Ha.
  assert (memcmp r.1 q.1 ≠ 0) by (intros H; apply Hne; by apply memcmp_0). lia.
Qed.

Lemma outranks_asym k (r q : list Z * caps) : outranks k r q -> outranks k q r -> False.
Proof. unfold outranks. pose proof (memcmp_antisym r.1 q.1). lia. Qed.

Lemma outranks_trans k (r q s : list Z * caps) : length r.1 = length q.1 -> length q.1 = length s.1 -> outranks k r q -> outranks k q s -> outranks k r s.
Proof.
  unfold outranks. intros H1 H2 Hrq Hqs. pose proof (memcmp_trans s.1 q.1 r.1 ltac:(congruence) ltac:(congruence)). lia.
Qed.

(** Routers of a link that all see each other. *)
Definition routers_ok (rs : list (list Z * caps)) : Prop :=
  NoDup rs.*1 /\ exists n, Forall (fun r => length r.1 = n) rs.

Definition others (r : list Z * caps) (rs : list (list Z * caps)) : list (list Z * caps) := filter (fun q => q.1 ≠ r.1) rs.

Definition is_elected (k : capability) (rs : list (list Z * caps)) (r : list Z * caps) : Prop :=
  Z.testbit (elect_all r.1 r.2 (others r rs)) (cap_bit k) = true.

Lemma is_elected_iff k rs r : routers_ok rs -> r ∈ rs ->
  is_elected k rs r <-> cap_value k r.2 ≠ 0 /\ forall q, q ∈ rs -> q.1 ≠ r.1 -> outranks k r q.
Proof.
  intros (Hnd & n & Hlen) Hr. unfold is_elected. rewrite elect_all_testbit. unfold others. rewrite Forall_forall in Hlen.
  split; intros [H0 H]; (split; [done|]).
  - intros q Hq Hne. apply below_outranks; [exact (eq_trans (Hlen r Hr) (eq_sym (Hlen q Hq)))|congruence|done|]. apply H. by apply list_elem_of_filter.
  - intros q [Hne Hq]%list_elem_of_filter. apply below_outranks; [exact (eq_trans (Hlen r Hr) (eq_sym (Hlen q Hq)))|congruence|done|]. by apply H.
Qed.

Lemma NoDup_fst_inj {A B} (l : list (A * B)) x y : NoDup l.*1 -> x ∈ l -> y ∈ l -> x.1 = y.1 -> x = y.
Proof.
  induction l as [|z l IH]; intros Hnd Hx Hy Hxy; [by apply not_elem_of_nil in Hx|].
  cbn [fmap list_fmap] in Hnd. apply NoDup_cons in Hnd as [Hz Hnd].
  assert (Hin : forall w, w ∈ l -> w.1 ∈ l.*1) by (intros w Hw; apply list_elem_of_fmap; by exists w).
  apply elem_of_cons in Hx as [->|Hx], Hy as [->|Hy]; [done| | |by apply IH].
  - destruct Hz. rewrite Hxy. by apply Hin.
  - destruct Hz. rewrite <- Hxy. by apply Hin.
Qed.

(** Among routers with a total order there is a best one. *)
Lemma best_router k rs r0 : routers_ok rs -> r0 ∈ rs -> exists r, r ∈ rs /\ forall q, q ∈ rs -> q.1 ≠ r.1 -> outranks k r q.
Proof.
  revert r0. induction rs as [|x rs IH]; intros r0 (Hnd & n & Hlen) Hr0; [by apply not_elem_of_nil in Hr0|].
  cbn in Hnd. apply NoDup_cons in Hnd as [Hx Hnd]. apply Forall_cons in Hlen as [Hlx Hlen].
  destruct rs as [|y rs]; [exists x; split; [by left|]; intros q [->|?%not_elem_of_nil]%elem_of_cons; done|].
  destruct (IH y) as (r & Hr & Hbest); [split; [done|by exists n]|by left|].
  assert (Hlr : length r.1 = n) by (rewrite Forall_forall in Hlen; by apply Hlen).
  assert (Hne : x.1 ≠ r.1) by (intros E; apply Hx; rewrite E; apply list_elem_of_fmap; by exists r).
  destruct (outranks_total k x r) as [Ho|Ho]; [congruence|done| |].
  - exists x. split; [by left|]. intros q [->|Hq]%elem_of_cons Hqx; [done|]. destruct (decide (q.1 = r.1)) as [E|E].
    + assert (q = r) as ->; [|done]. by eapply NoDup_fst_inj.
    + assert (length q.1 = n) by (rewrite Forall_forall in Hlen; by apply Hlen). apply (outranks_trans k x r q); [congruence|congruence|done|by apply Hbest].
  - exists r. split; [by right|]. intros q [->|Hq]%elem_of_cons Hqr; [done|by apply Hbest].
Qed.

Lemma election_unique k rs : routers_ok rs -> (exists r, r ∈ rs /\ cap_value k r.2 ≠ 0) -> (forall r, r ∈ rs -> 0 <= cap_value k r.2) ->
  exists r, r ∈ rs /\ is_elected k rs r /\ forall q, q ∈ rs -> is_elected k rs q -> q.1 = r.1.
Proof.
  intros Hok (r0 & Hr0 & H0) Hpos. destruct (best_router k rs r0 Hok Hr0) as (r & Hr & Hbest).
  exists r. split; [done|]. split.
  - apply is_elected_iff; [done|done|]. split; [|done]. destruct (decide (r0.1 = r.1)) as [E|E].
    + assert (r0 = r) as <-; [|done]. eapply NoDup_fst_inj; [apply Hok|done..].
    + specialize (Hbest r0 Hr0 E). specialize (Hpos r0 Hr0). unfold outranks in Hbest. lia.
  - intros q Hq Hel. destruct (decide (q.1 = r.1)) as [|Hne]; [done|]. exfalso. apply is_elected_iff in Hel as [_ Hel]; [|done|done].
    apply (outranks_asym k r q); [by apply Hbest|]. apply Hel; [done|congruence].
Qed.

(** ** Neighbours *)

Section neighbours.
Context `{DX : !DncpExt, DC : !DncpCallbacks}.
Implicit Types (o : dncp) (n : node).

(** The TLVs of the node a peer TLV names. *)
Definition peer_tlvs o (cn : t_peer) : list attr :=
  match find_node o (pe_nid cn) with Some n => default [] (dncp_node_tlvs n) | None => [] end.

(** The TLV with which the peer announces the link back. *)
Definition mirror (own : node_id) (cn : t_peer) : t_peer := mk_t_peer own (pe_ep_id cn) (pe_peer_ep_id cn).

Definition mutual o (own : node_id) (cn : t_peer) : Prop := mirror own cn ∈ omap dncp_tlv_peer (peer_tlvs o cn).

Definition crossing (own : node_id) (cn pn : t_peer) : Prop :=
  pe_nid pn = own /\ pe_ep_id pn = pe_peer_ep_id cn /\ pe_peer_ep_id pn < pe_ep_id cn.

#[export] Instance crossing_dec own cn pn : Decision (crossing own cn pn).
Proof. unfold crossing. apply _. Defined.

(** The peer is also connected to one of our endpoints with a smaller number. *)
Definition crossed o (own : node_id) (cn : t_peer) : Prop :=
  Exists (crossing own cn) (omap dncp_tlv_peer (peer_tlvs o cn)).

#[local] Instance t_peer_eq_dec : EqDecision t_peer.
Proof. solve_decision. Defined.

#[export] Instance mutual_dec o own cn : Decision (mutual o own cn).
Proof. unfold mutual. apply _. Defined.

#[export] Instance crossed_dec o own cn : Decision (crossed o own cn).
Proof. unfold crossed. apply _. Defined.

(** The last version TLV with an agent. *)
Definition version_of (ts : list attr) : option (list Z) :=
  foldl (fun v t => if decide (t.1 = HNCP_T_VERSION /\ 4 < length t.2)%nat then Some t.2 else v) None ts.

(** The version TLV that is kept, from [v] on. *)
Definition version_from (v : option (list Z)) (ts : list attr) : option (list Z) :=
  foldl (fun v t => if decide (t.1 = HNCP_T_VERSION /\ 4 < length t.2)%nat then Some t.2 else v) v ts.

Lemma scan_peer_ok own cn cnt pts s : NoDup (omap dncp_tlv_peer pts) ->
  (length (ps_peers s) < cnt)%nat \/ (mirror own cn ∉ omap dncp_tlv_peer pts) ->
  scan_peer own (pe_ep_id cn) cn cnt pts s = Some (
    if decide (Exists (crossing own cn) (omap dncp_tlv_peer pts)) then inr ()
    else if decide (mirror own cn ∈ omap dncp_tlv_peer pts)
    then inl (mk_peer_scan (version_from (ps_version s) pts) true (ps_peers s ++ [(pe_nid cn, pe_peer_ep_id cn)]))
    else inl (mk_peer_scan (version_from (ps_version s) pts) (ps_mutual s) (ps_peers s))).
Proof.
  revert s. induction pts as [|pc pts IH]; intros s Hnd Hroom; cbn [scan_peer omap list_omap version_from foldl].
  { rewrite decide_False by (by intros ?%Exists_nil). rewrite decide_False by (by intros ?%not_elem_of_nil). by destruct s. }
  set (s1 := if decide (pc.1 = HNCP_T_VERSION /\ _) then _ else s). cbn [omap list_omap] in Hnd, Hroom.
  assert (Es1 : ps_version s1 = (if decide (pc.1 = HNCP_T_VERSION /\ 4 < length pc.2)%nat then Some pc.2 else ps_version s) /\ ps_mutual s1 = ps_mutual s /\ ps_peers s1 = ps_peers s)
    by (unfold s1; repeat case_decide; done). clearbody s1. destruct Es1 as (<- & <- & E3). rewrite <- E3 in *. clear E3.
  destruct (dncp_tlv_peer pc) as [pn|] eqn:Hpn; [|by apply IH].
  apply NoDup_cons in Hnd as [Hnotin Hnd].
  destruct (decide (pe_ep_id pn ≠ pe_peer_ep_id cn \/ pe_nid pn ≠ own)) as [Hother|Hother].
  - assert (Hne : mirror own cn ≠ pn) by (intros <-; destruct Hother as [H|H]; by apply H).
    rewrite IH; [|done|destruct Hroom as [?|Hroom]; [by left|right; by intros ?; apply Hroom; right]].
    rewrite (decide_ext (Exists _ (pn :: _)) (Exists (crossing own cn) (omap dncp_tlv_peer pts))).
    2:{ rewrite Exists_cons. unfold crossing. tauto. }
    rewrite (decide_ext (mirror own cn ∈ pn :: _) (mirror own cn ∈ omap dncp_tlv_peer pts)); [done|]. rewrite elem_of_cons. tauto.
  - assert (Hsame : pe_ep_id pn = pe_peer_ep_id cn /\ pe_nid pn = own) by (split; apply dec_stable; tauto). destruct Hsame as [H1 H2].
    destruct (decide (pe_peer_ep_id pn = pe_ep_id cn)) as [Hm|Hm].
    + assert (pn = mirror own cn) as -> by (destruct pn; cbn in *; subst; done).
      rewrite decide_False; [|destruct Hroom as [?|Hroom]; [lia|destruct Hroom; by left]].
      rewrite IH; [|done|by right]. cbn [ps_version ps_mutual ps_peers].
      rewrite (decide_ext (Exists _ (mirror own cn :: _)) (Exists (crossing own cn) (omap dncp_tlv_peer pts))).
      2:{ rewrite Exists_cons. unfold crossing at 1. cbn. intuition lia. }
      rewrite (decide_False (P := mirror own cn ∈ omap dncp_tlv_peer pts)) by done. rewrite (decide_True (P := mirror own cn ∈ mirror own cn :: _)) by by left.
      done.
    + destruct (decide (pe_peer_ep_id pn < pe_ep_id cn)) as [Hlt|Hlt].
      * rewrite decide_True; [done|]. apply Exists_cons. by left.
      * rewrite IH; [|done|destruct Hroom as [?|Hroom]; [by left|right; by intros ?; apply Hroom; right]].
        rewrite (decide_ext (Exists _ (pn :: _)) (Exists (crossing own cn) (omap dncp_tlv_peer pts))).
        2:{ rewrite Exists_cons. unfold crossing. tauto. }
        rewrite (decide_ext (mirror own cn ∈ pn :: _) (mirror own cn ∈ omap dncp_tlv_peer pts)); [done|].
        rewrite elem_of_cons. split; [|by right]. intros [<-|?]; [by destruct Hm|done].
Qed.

(** The mutual peers and their capabilities, where they have a version. *)
Definition peer_caps o (cn : t_peer) : option caps := v ← version_from None (peer_tlvs o cn); caps_of v.

Definition voters o (own : node_id) (cns : list t_peer) : list (list Z * caps) :=
  omap (fun cn => if decide (mutual o own cn) then (fun c => (pe_nid cn, c)) <$> peer_caps o cn else None) cns.

Definition neighbours o (own : node_id) (cns : list t_peer) : list ep_ref :=
  (fun cn => (pe_nid cn, pe_peer_ep_id cn)) <$> filter (mutual o own) cns.

(** No node announces a link twice. *)
Definition announced_once o : Prop := forall n ts, n ∈ nodes o -> dncp_node_tlvs n = Some ts -> NoDup (omap dncp_tlv_peer ts).

Lemma version_from_long v ts d : (forall d, v = Some d -> 4 < length d)%nat -> version_from v ts = Some d -> (4 < length d)%nat.
Proof.
  revert v. induction ts as [|t ts IH]; intros v Hv; cbn [version_from foldl]; [apply Hv|].
  apply IH. case_decide as Ht; [|exact Hv]. intros d' [= <-]. apply Ht.
Qed.

Lemma caps_of_long d : (4 < length d)%nat -> is_Some (caps_of d).
Proof. destruct d as [|a [|b [|c [|e d]]]]; cbn; try lia. by eexists. Qed.

Lemma find_node_in o ni n : find_node o ni = Some n -> n ∈ nodes o /\ nid n = ni.
Proof.
  unfold find_node. destruct (list_find _ _) as [[i m]|] eqn:Hf; [|done]. intros [= <-]. apply list_find_Some in Hf as (Hi & Hn & _).
  split; [by eapply list_elem_of_lookup_2|done].
Qed.

Lemma peer_tlvs_of o cn n : find_node o (pe_nid cn) = Some n -> exists ts, dncp_node_tlvs n = Some ts /\ peer_tlvs o cn = ts.
Proof. intros Hn. destruct (dncp_node_tlvs_total n) as [ts Hts]. exists ts. unfold peer_tlvs. by rewrite Hn, Hts. Qed.

Lemma scan_own_ok o own id our cnt cns peers e : announced_once o -> Forall (fun cn => pe_ep_id cn = id) cns ->
  (length peers + length cns <= cnt)%nat ->
  scan_own o own id our cnt cns peers e = Some (
    if decide (Exists (crossed o own) cns) then None
    else Some (peers ++ neighbours o own cns,
               match our with Some c => foldl (fun e q => elect own c q.1 q.2 e) e (voters o own cns) | None => e end)).
Proof.
  intros Honce. revert peers e. induction cns as [|cn cns IH]; intros peers e Hid Hroom; cbn [scan_own].
  { rewrite decide_False by (by intros ?%Exists_nil). unfold neighbours. cbn. rewrite app_nil_r. by destruct our. }
  apply Forall_cons in Hid as [Hcn Hid]. cbn [length] in Hroom.
  destruct (find_node o (pe_nid cn)) as [n|] eqn:Hn.
  - destruct (peer_tlvs_of o cn n Hn) as (ts & Hts & Hpt). rewrite Hts. cbn [mbind option_bind]. destruct (find_node_in _ _ _ Hn) as [Hin Hni].
    rewrite <- Hcn at 1. rewrite scan_peer_ok; [|by eapply Honce|left; cbn; lia]. cbn [mbind option_bind ps_version ps_peers ps_mutual].
    destruct (decide (Exists (crossing own cn) (omap dncp_tlv_peer ts))) as [Hx|Hx].
    { rewrite decide_True; [done|]. apply Exists_cons. left. unfold crossed. by rewrite Hpt. }
    assert (Hxc : Exists (crossed o own) (cn :: cns) <-> Exists (crossed o own) cns).
    { rewrite Exists_cons. unfold crossed at 1. rewrite Hpt. tauto. }
    rewrite (decide_ext _ _ _ _ Hxc). unfold neighbours, voters. cbn [omap list_omap].
    assert (Hmu : mutual o own cn <-> mirror own cn ∈ omap dncp_tlv_peer ts) by (unfold mutual; by rewrite Hpt).
    assert (Hcaps : peer_caps o cn = v ← version_from None ts; caps_of v) by (unfold peer_caps; by rewrite Hpt).
    destruct (decide (mirror own cn ∈ omap dncp_tlv_peer ts)) as [Hm|Hm]; cbn [ps_version ps_mutual ps_peers].
    + rewrite (decide_True (P := mutual o own cn)) by by apply Hmu. rewrite filter_cons_True by by apply Hmu. cbn [fmap list_fmap].
      destruct (version_from None ts) as [v|] eqn:Hv; rewrite Hcaps; cbn [mbind option_bind].
      * destruct (caps_of_long v) as [pc Hpc]; [by apply (version_from_long None ts)|]. rewrite Hpc. cbn [mbind option_bind fmap option_fmap option_map].
        destruct our as [c|]; cbn [mbind option_bind]; (rewrite IH; [|done|rewrite length_app; cbn; lia]).
        -- rewrite <- app_assoc, <- Hni. done.
        -- rewrite <- app_assoc. done.
      * cbn [fmap option_fmap option_map]. destruct our as [c|]; cbn [mbind option_bind]; (rewrite IH; [|done|rewrite length_app; cbn; lia]); by rewrite <- app_assoc.
    + rewrite (decide_False (P := mutual o own cn)) by (by rewrite Hmu). rewrite filter_cons_False by (by rewrite Hmu).
      destruct our as [c|], (version_from None ts) as [v|]; cbn [mbind option_bind]; (rewrite IH; [done|done|lia]).
  - rewrite IH; [|done|lia]. assert (Hpt : peer_tlvs o cn = []) by (unfold peer_tlvs; by rewrite Hn).
    assert (Hnm : ~ mutual o own cn) by (unfold mutual; rewrite Hpt; by intros ?%not_elem_of_nil).
    assert (Hxc : Exists (crossed o own) (cn :: cns) <-> Exists (crossed o own) cns).
    { rewrite Exists_cons. unfold crossed at 1. rewrite Hpt. split; [intros [?%Exists_nil|?]; done|by right]. }
    rewrite (decide_ext _ _ _ _ Hxc). unfold neighbours, voters. cbn [omap list_omap]. rewrite (decide_False (P := mutual o own cn)) by done.
    by rewrite filter_cons_False.
Qed.

End neighbours.
