(* ===== verification/HncpLinkProps.v ===== *)
(** What the links of HNCP guarantee, on states of a small network, and how a neighbour
    makes the calculation leave its array. *)
From S2P Require Import Prelude Bitops Tlv DncpNotify DncpIndex DncpState Dncp DncpProto DncpTimeout DncpProps DncpExample Hncp HncpLink HncpElect.

(** C31: Among routers with distinct identifiers, if some router has a capability, exactly one
    router is elected for it when every router compares itself with all others. *)
Theorem link_election_unique k rs : routers_ok rs -> (exists r, r ∈ rs /\ cap_value k r.2 ≠ 0) -> (forall r, r ∈ rs -> 0 <= cap_value k r.2) ->
  exists r, r ∈ rs /\ is_elected k rs r /\ forall q, q ∈ rs -> is_elected k rs q -> q.1 = r.1.
Proof. apply election_unique. Qed.

Section props.
Context `{DX : !DncpExt, DC : !DncpCallbacks}.

(** C17: When no node announces the same peer twice, the calculation of a link returns and tells
    its users: nothing if two links of ours appear to be connected, and otherwise exactly
    the neighbours that announce the link back and the roles our version wins against
    theirs. *)
Theorem calculate_link_exact l o id ifn own ts : announced_once o -> dncp_get_own_node o = Some own -> dncp_node_tlvs own = Some ts ->
  (forall d, versiontlv l = Some d -> 4 < length d)%nat ->
  calculate_link l o id ifn true = Some (
    let cns := own_peers id ts in
    if decide (Exists (crossed o (nid own)) cns) then notify l ifn None HNCP_LINK_NONE
    else notify l ifn (Some (neighbours o (nid own) cns))
      (match d ← versiontlv l; caps_of d with Some c => elect_all (nid own) c (voters o (nid own) cns) | None => HNCP_LINK_NONE end)).
Proof.
  intros Honce Hown Hts Hv. unfold calculate_link. cbv zeta.
  assert (Hscan : forall our e, scan_own o (nid own) id our (length (own_peers id ts)) (own_peers id ts) [] e = Some (
    if decide (Exists (crossed o (nid own)) (own_peers id ts)) then None
    else Some (neighbours o (nid own) (own_peers id ts),
      match our with Some c => foldl (fun e q => elect (nid own) c q.1 q.2 e) e (voters o (nid own) (own_peers id ts)) | None => e end))).
  { intros our e. rewrite scan_own_ok; [done|done| |done]. apply Forall_forall. by intros cn [? _]%list_elem_of_filter. }
  destruct (versiontlv l) as [d|]; cbn [mbind option_bind].
  - destruct (caps_of_long d (Hv d eq_refl)) as [c Hc]. rewrite Hc. cbn [mbind option_bind negb]. rewrite Hown. cbn [mbind option_bind]. rewrite Hts. cbn [mbind option_bind].
    rewrite Hscan. cbn [mbind option_bind]. by case_decide.
  - cbn [mbind option_bind negb]. rewrite Hown. cbn [mbind option_bind]. rewrite Hts. cbn [mbind option_bind]. rewrite Hscan. cbn [mbind option_bind]. by case_decide.
Qed.

End props.

(** ** Witnesses *)

(** Three routers, two of them with the same best capability. *)
Definition three : list (list Z * caps) := [([0; 0; 0; 1], mk_caps 0x40 0); ([0; 0; 0; 2], mk_caps 0x44 0); ([0; 0; 0; 3], mk_caps 0x04 0x40)].

Lemma link_election_unique_witness : exists r, r ∈ three /\ is_elected CapM three r /\ forall q, q ∈ three -> is_elected CapM three q -> q.1 = r.1.
Proof.
  apply link_election_unique.
  - split; [decided|]. exists 4%nat. decided.
  - exists ([0; 0; 0; 1], mk_caps 0x40 0). split; [by left|]. vm_compute. discriminate.
  - intros r Hr. repeat (apply elem_of_cons in Hr as [->|Hr]; [vm_compute; discriminate|]). by apply not_elem_of_nil in Hr.
Defined.

#[local] Existing Instance toy_ext.
#[local] Existing Instance toy_cb.

(** The neighbour announces the link to our endpoint 1. *)
Definition link_state : dncp := joined_up.
Definition example_link : hncp_link := mk_hncp_link (Some [0; 0; 0x40; 0; 97; 0]) [mk_link_user 1 true true].

Definition own_state (o : dncp) : node := default (new_node o []) (dncp_get_own_node o).

Lemma own_state_some : dncp_get_own_node link_state = Some (own_state link_state).
Proof. vm_compute. reflexivity. Qed.

Definition tlvs_in (n : node) : list attr := default [] (dncp_node_tlvs n).

#[local] Instance t_peer_eq_dec : EqDecision t_peer.
Proof. solve_decision. Defined.

Lemma once_of o : bool_decide (Forall (fun n => NoDup (omap dncp_tlv_peer (tlvs_in n))) (nodes o)) = true -> announced_once o.
Proof. intros H%bool_decide_eq_true n ts Hn Hts. rewrite Forall_forall in H. specialize (H n Hn). unfold tlvs_in in H. by rewrite Hts in H. Qed.

Lemma calculate_link_exact_witness : calculate_link example_link link_state 1 [101] true =
  Some [CbLink 1 [101] (Some [(peer_id, 5)]); CbElected 1 [101] (Z.lor HNCP_LINK_MDNSPROXY HNCP_LINK_STATELESS)].
Proof.
  rewrite (calculate_link_exact example_link link_state 1 [101] (own_state link_state) (tlvs_in (own_state link_state))).
  - vm_compute. reflexivity.
  - apply once_of. vm_compute. reflexivity.
  - exact own_state_some.
  - vm_compute. reflexivity.
  - intros d [= <-]. cbn. lia.
Defined.

(** ** A neighbour that announces a link twice *)

Definition twice_data : list Z := enc [(8, t_peer_data (mk_t_peer self_id 1 5)); (8, t_peer_data (mk_t_peer self_id 1 5))].
Definition twice_hello : list Z :=
  enc [(3, peer_id ++ host32 5); (5, node_state_msg peer_id 1 0 (toy_hash twice_data) twice_data)].
Definition twice : option dncp :=
  o ← dncp_ext_readable (set_clock 2050 up) [mk_packet 1 [7; 7] (Some [8; 8]) 3 twice_hello];
  dncp_ext_timeout (set_clock 2100 o).

(** A neighbour that announces the same peer TLV twice makes calculate_link write past the end
    of the array of peers. *)
Lemma link_peers_overflow : (o ← twice; calculate_link example_link o 1 [101] true) = None /\ is_Some twice.
Proof. split; [vm_compute; reflexivity|]. by eexists; vm_compute. Qed.
