(* ===== verification/HncpRouting.v ===== *)
(** Routes for a routing script: the model of [src/hncp_routing.c].

    The routing run happens in a forked process that walks the network breadth first
    and starts the script for each route.  The model is the run on a copy of the DNCP
    state: the result is the list of script calls, and what the walk left in the nodes.

    An argument of the script is kept as what it prints: [prefix_ntop], [inet_ntop] and
    [snprintf] fill buffers that are long enough for any of their results. *)
From S2P Require Import Prelude Bitops Prefix Tlv DncpNotify DncpIndex DncpState Dncp Hncp.

(** ** The walk *)

(** [struct hncp_bfs_head] of a node; the list head is the queue. *)
Record bfs := mk_bfs { next_hop : option (list Z); next_hop4 : option (list Z); bfs_ifname : option (list Z); hopcount : Z }.

(** The strings of [argv[1]]. *)
Inductive verb := Bfsprepare | Bfsipv6prefix | Bfsipv4prefix | Bfsipv6uplink | Bfsipv4uplink | Bfsipv6assigned | Bfsipv4assigned.

(** What a buffer of [hncp_routing_exec] holds. *)
Inductive text := TxtUnset | TxtEmpty | TxtPrefix (addr : list Z) (plen : nat) | TxtAddr (f : af) (addr : list Z) | TxtNumber (n : Z) | TxtDefault.

#[export] Instance text_eq_dec : EqDecision text.
Proof. solve_decision. Defined.

(** [argv]: it ends at [argv[4]] when that is NULL. *)
Record route_argv := mk_argv { av_verb : verb; av_dst : text; av_via : text; av_ifname : option (list Z); av_metric : text; av_domain : text }.

(** The arguments a script sees. *)
Record route_call := mk_call { rc_verb : verb; rc_dst : text; rc_via : text; rc_rest : option (list Z * text * text) }.

Definition route_args (a : route_argv) : route_call :=
  mk_call (av_verb a) (av_dst a) (av_via a) ((fun i => (i, av_metric a, av_domain a)) <$> av_ifname a).

(** What the rest of the host answers: the flags of an interface ([iface_get]) and
    [iface_has_ipv4_address]. *)
Class RouteHost := { iface_flags : list Z -> option Z; iface_has_ipv4_address : list Z -> bool }.

Definition IFACE_FLAG_INTERNAL : Z := 0x01.
Definition IFACE_FLAG_LEAF : Z := Z.lor 0x02 IFACE_FLAG_INTERNAL.
Definition IFACE_FLAG_ADHOC : Z := Z.lor 0x04 IFACE_FLAG_INTERNAL.

(** All bits of the flag are set. *)
Definition has_flag (flags flag : Z) : bool := bool_decide (Z.land flags flag = flag).

(** The locals of [hncp_routing_exec], and the calls so far. *)
Record route_run := mk_run { run_dncp : dncp; run_bfs : node_id -> bfs; run_queue : list node_id; run_argv : route_argv; run_calls : list route_call }.

Definition set_run_dncp o (r : route_run) : route_run := mk_run o (run_bfs r) (run_queue r) (run_argv r) (run_calls r).
Definition set_run_bfs (ni : node_id) (b : bfs) (r : route_run) : route_run :=
  mk_run (run_dncp r) (fun x => if decide (x = ni) then b else run_bfs r x) (run_queue r) (run_argv r) (run_calls r).
Definition set_run_queue q (r : route_run) : route_run := mk_run (run_dncp r) (run_bfs r) q (run_argv r) (run_calls r).
Definition set_run_argv a (r : route_run) : route_run := mk_run (run_dncp r) (run_bfs r) (run_queue r) a (run_calls r).

Definition set_verb v (a : route_argv) : route_argv := mk_argv v (av_dst a) (av_via a) (av_ifname a) (av_metric a) (av_domain a).
Definition set_dst t (a : route_argv) : route_argv := mk_argv (av_verb a) t (av_via a) (av_ifname a) (av_metric a) (av_domain a).
Definition set_via t (a : route_argv) : route_argv := mk_argv (av_verb a) (av_dst a) t (av_ifname a) (av_metric a) (av_domain a).
Definition set_av_ifname i (a : route_argv) : route_argv := mk_argv (av_verb a) (av_dst a) (av_via a) i (av_metric a) (av_domain a).
Definition set_metric t (a : route_argv) : route_argv := mk_argv (av_verb a) (av_dst a) (av_via a) (av_ifname a) t (av_domain a).
Definition set_domain t (a : route_argv) : route_argv := mk_argv (av_verb a) (av_dst a) (av_via a) (av_ifname a) (av_metric a) t.

Definition on_argv (f : route_argv -> route_argv) (r : route_run) : route_run := set_run_argv (f (run_argv r)) r.

(** The child runs the script and waits for it. *)
Definition hncp_routing_spawn (r : route_run) : route_run :=
  mk_run (run_dncp r) (run_bfs r) (run_queue r) (run_argv r) (run_calls r ++ [route_args (run_argv r)]).

Definition set_next_hop4 h (b : bfs) : bfs := mk_bfs (next_hop b) h (bfs_ifname b) (hopcount b).
Definition set_hopcount h (b : bfs) : bfs := mk_bfs (next_hop b) (next_hop4 b) (bfs_ifname b) h.

(** The [sin6_addr] of a [struct sockaddr_in6]. *)
Definition sin6_addr (sa : sockaddr) : list Z := take 16 (drop 8 sa).

(** A [struct in6_addr] of zeros with the first bytes copied in. *)
Definition in6_prefix (n : nat) (d : list Z) : list Z := take n d ++ replicate (16 - n) 0.

Section routing.
Context `{DX : !DncpExt, DC : !DncpCallbacks, RH : !RouteHost}.
Implicit Types (o : dncp) (n c : node) (r : route_run).

(** [dncp_node_for_each_tlv_with_type]: only the valid container is looked at. *)
Definition valid_tlvs_of_type o n (type : nat) : option (dncp * list attr) :=
  '(ix, _, ts) ← dncp_node_for_each_tlv_with_t_v (tix o) (mk_tcache None true) (default [] (tlv_container n)) (tlv_valid n) type true;
  Some (set_tix ix o, ts).

Definition is_own o n : bool := bool_decide (own_node o = Some (nid n)).

(** The IPv4 address that the neighbour announces for its endpoint. *)
Definition address4 (ne : t_peer) (nas : list attr) : option (list Z) :=
  (fun x => ra_address x.2) <$> list_find (fun ra => ra_ep_id ra = pe_peer_ep_id ne /\ v4mapped (ra_address ra)) (omap hncp_tlv_ra nas).

(** A neighbour of ours: its address is the one it was last heard from.  The inner
    [None] is [continue]; extra bytes that are not those of a peer are undefined. *)
Definition first_hop r n (a : attr) (ne : t_peer) (hn : bfs) : option (route_run * option bfs) :=
  let o := run_dncp r in
  match dncp_find_ep_by_id o (pe_ep_id ne) with
  | None => Some (r, None)
  | Some e =>
    hn ← match dncp_find_tlv o DNCP_T_PEER a.2 with
         | None => Some hn
         | Some u => p ← extra u; Some (mk_bfs (Some (sin6_addr (last_sa6 p))) (next_hop4 hn) (Some (ifname (conf e))) (hopcount hn))
         end;
    '(o, nas) ← valid_tlvs_of_type o n (Z.to_nat HNCP_T_NODE_ADDRESS);
    Some (set_run_dncp o r, Some (match address4 ne nas with Some x => set_next_hop4 (Some x) hn | None => hn end))
  end.

Definition exec_peer r c (a : attr) (ne : t_peer) : option route_run :=
  '(o, m) ← dncp_node_find_neigh_bidir (run_dncp r) c ne;
  let r := set_run_dncp o r in
  match m with
  | None => Some r
  | Some n =>
    let hn := run_bfs r (nid n) in
    if decide (next_hop hn ≠ None \/ is_own o n) then Some r
    else
      let hc := run_bfs r (nid c) in
      '(r, hn) ← if is_own o c then first_hop r n a ne hn
                 else Some (r, Some (mk_bfs (next_hop hc) (next_hop4 hc) (bfs_ifname hc) (hopcount hn)));
      match hn with
      | None => Some r
      | Some hn =>
        let r := set_run_bfs (nid n) hn r in
        if decide (next_hop hn = None \/ bfs_ifname hn = None) then Some r
        else Some (set_run_queue (run_queue r ++ [nid n]) (set_run_bfs (nid n) (set_hopcount (u32 (hopcount hc + 1)) hn) r))
      end
  end.

(** A policy [b] of an external prefix [from]. *)
Definition exec_policy r (hc : bfs) (from : list Z) (b : attr) : route_run :=
  let '(id, d) := b in
  if decide (id ≠ HNCP_T_PREFIX_POLICY \/ length d < 1 \/ 128 < Z.to_nat (byte_at d 0))%nat then r
  else
    let type := Z.to_nat (byte_at d 0) in
    let plen := ROUND_BITS_TO_BYTES type in
    if decide (length d < 1 + plen)%nat then r
    else
      let r := on_argv (set_domain (if decide (type = 0%nat) then TxtDefault else TxtPrefix (in6_prefix plen (drop 1 d)) type)) r in
      match v4mapped from, next_hop hc, next_hop4 hc, bfs_ifname hc with
      | false, Some h, _, _ => hncp_routing_spawn (on_argv (fun a => set_via (TxtAddr AF_INET6 h) (set_verb Bfsipv6uplink a)) r)
      | true, _, Some h4, Some i =>
        if iface_has_ipv4_address i
        then hncp_routing_spawn (on_argv (fun a => set_via (TxtAddr AF_INET (drop 12 h4)) (set_verb Bfsipv4uplink a)) r)
        else r
      | _, _, _, _ => r
      end.

(** A delegated prefix [a2] of an external connection of [c]. *)
Definition exec_delegated r c (a2 : attr) : option route_run :=
  match hncp_tlv_dp a2 with
  | None => Some r
  | Some dp =>
    let hc := run_bfs r (nid c) in
    let plen := ROUND_BITS_TO_BYTES (tdp_plen dp) in
    let flen := ROUND_BYTES_TO_4BYTES (9 + ROUND_BITS_TO_BYTES (tdp_plen dp)) in
    let from := in6_prefix plen (dp_data dp) in
    let metric := if is_own (run_dncp r) c then TxtEmpty else TxtNumber (hopcount hc) in
    let r := hncp_routing_spawn (on_argv (fun a =>
      set_verb (if v4mapped from then Bfsipv4prefix else Bfsipv6prefix) (set_metric metric (set_dst (TxtPrefix from (tdp_plen dp)) a))) r) in
    if decide (length a2.2 < flen \/ metric = TxtEmpty \/ bfs_ifname hc = None)%nat then Some r
    else
      bs ← tlv_list a2.2 flen (length a2.2 - flen);
      Some (foldl (fun r b => exec_policy r hc from b) r bs)
  end.

Fixpoint exec_delegateds r c (l : list attr) : option route_run :=
  match l with
  | [] => Some r
  | a2 :: l => r ← exec_delegated r c a2; exec_delegateds r c l
  end.

(** The prefix is on a link that we are connected to, too. *)
Definition on_connected_link o c (i : list Z) (hc : bfs) (e : option ep) (ap : t_assigned_prefix) : bool :=
  match e, iface_flags i with
  | Some e, Some flags =>
    negb (has_flag flags IFACE_FLAG_ADHOC) && bool_decide (hopcount hc = 1) &&
    bool_decide (is_Some (dncp_find_tlv o DNCP_T_PEER (t_peer_data (mk_t_peer (nid c) (ap_ep_id ap) (ep_id e)))))
  | _, _ => false
  end.

(** An assigned prefix of another node. *)
Definition exec_assigned r c (hc : bfs) (i : list Z) (ap : t_assigned_prefix) : route_run :=
  let '(o, id) := dncp_find_ep_by_name (run_dncp r) i in
  let r := set_run_dncp o r in
  let e := id ← id; e ← dncp_find_ep_by_id o id; if enabled e then Some e else None in
  if on_connected_link o c i hc e ap then r
  else
    let to := in6_prefix (ROUND_BITS_TO_BYTES (ap_plen ap)) (ap_data ap) in
    let linkid := match e with Some e => ep_id e | None => 0 end in
    let r := on_argv (fun a => set_metric (TxtNumber (u32 (Z.lor (Z.shiftl (hopcount hc) 8) linkid))) (set_dst (TxtPrefix to (ap_plen ap)) a)) r in
    match v4mapped to, next_hop hc, next_hop4 hc with
    | false, Some h, _ => hncp_routing_spawn (on_argv (fun a => set_verb Bfsipv6assigned (set_via (TxtAddr AF_INET6 h) a)) r)
    | true, _, Some h4 =>
      if iface_has_ipv4_address i
      then hncp_routing_spawn (on_argv (fun a => set_verb Bfsipv4assigned (set_via (TxtAddr AF_INET (drop 12 h4)) a)) r)
      else r
    | _, _, _ => r
    end.

Definition exec_tlv r c (a : attr) : option route_run :=
  match dncp_tlv_peer a with
  | Some ne => exec_peer r c a ne
  | None =>
    if decide (a.1 = HNCP_T_EXTERNAL_CONNECTION) then
      l ← tlv_list a.2 0 (length a.2);
      exec_delegateds r c l
    else
      let hc := run_bfs r (nid c) in
      match hncp_tlv_ap a, is_own (run_dncp r) c, bfs_ifname hc with
      | Some ap, false, Some i => Some (exec_assigned r c hc i ap)
      | _, _, _ => Some r
      end
  end.

Fixpoint exec_tlvs r c (ts : list attr) : option route_run :=
  match ts with
  | [] => Some r
  | a :: ts => r ← exec_tlv r c a; exec_tlvs r c ts
  end.

(** One round: the first node of the queue leaves it at the end. *)
Definition exec_node r (ni : node_id) : option route_run :=
  c ← find_node (run_dncp r) ni;
  ts ← dncp_node_tlvs c;
  r ← exec_tlvs (on_argv (set_av_ifname (bfs_ifname (run_bfs r ni))) r) c ts;
  Some (set_run_queue (drop 1 (run_queue r)) r).

Fixpoint exec_loop (fuel : nat) r : option route_run :=
  match run_queue r with
  | [] => Some r
  | ni :: _ =>
    match fuel with
    | O => None
    | S fuel => r ← exec_node r ni; exec_loop fuel r
    end
  end.

(** Nodes are marked as not visited; the name of the interface stays. *)
Definition unvisit o (b : node_id -> bfs) (ni : node_id) : bfs :=
  if decide (is_Some (find_node o ni)) then mk_bfs None None (bfs_ifname (b ni)) 0 else b ni.

Definition argv_start : route_argv := mk_argv Bfsprepare TxtEmpty TxtEmpty None TxtUnset TxtEmpty.

(** The part of [hncp_routing_exec] that the forked process runs.  Every node is put in
    the queue at most once, so the rounds are not more than the nodes. *)
Definition routing_run o (b : node_id -> bfs) : option route_run :=
  own ← own_node o;
  exec_loop (length (nodes o)) (hncp_routing_spawn (mk_run o (unvisit o b) [own] argv_start [])).

(** ** Scheduling *)

(** [struct hncp_routing_struct]; a process is pending while it runs.  [hb_timer] is
    [Some] when the timer is set, to the time it expires. *)
Record hncp_bfs := mk_hncp_bfs {
  hb_script : option (list Z);
  ifaces : list (list Z);
  configure_proc : bool;
  routing_proc : bool;
  configure_pending : bool;
  routing_pending : bool;
  hb_timer : option Z;
  incremental : bool  (** [t.cb] is set *)
}.

(** Processes started: [configure] with the interfaces, or the routing run with the calls it makes. *)
Inductive route_event := RunConfigure (ifs : list (list Z)) | RunRouting (calls : option (list route_call)).

Implicit Types h : hncp_bfs.

Definition set_configure (proc pending : bool) h : hncp_bfs :=
  mk_hncp_bfs (hb_script h) (ifaces h) proc (routing_proc h) pending (routing_pending h) (hb_timer h) (incremental h).
Definition set_routing (proc pending : bool) h : hncp_bfs :=
  mk_hncp_bfs (hb_script h) (ifaces h) (configure_proc h) proc (configure_pending h) pending (hb_timer h) (incremental h).
Definition set_ifaces l h : hncp_bfs :=
  mk_hncp_bfs (hb_script h) l (configure_proc h) (routing_proc h) (configure_pending h) (routing_pending h) (hb_timer h) (incremental h).
Definition set_hb_timer t h : hncp_bfs :=
  mk_hncp_bfs (hb_script h) (ifaces h) (configure_proc h) (routing_proc h) (configure_pending h) (routing_pending h) t (incremental h).

Definition hncp_configure_exec h : hncp_bfs * list route_event :=
  if configure_pending h && negb (configure_proc h) then (set_configure true false h, [RunConfigure (ifaces h)])
  else (h, []).

(** The position of a name in the array. *)
Definition iface_index (ifname : list Z) (l : list (list Z)) : option nat := fst <$> list_find (fun x => x = ifname) l.

(** [bfs->ifaces[i] = bfs->ifaces[--bfs->ifaces_cnt]]. *)
Definition swap_remove (i : nat) (l : list (list Z)) : list (list Z) :=
  match last l with Some x => take (length l - 1) (<[i := x]> l) | None => l end.

Definition hncp_routing_intiface h (ifname : list Z) (enable : bool) : hncp_bfs * list route_event :=
  let enable := enable && match iface_flags ifname with Some fl => negb (has_flag fl IFACE_FLAG_LEAF) | None => false end in
  let changed h := if bool_decide (is_Some (hb_script h)) then hncp_configure_exec (set_configure (configure_proc h) true h) else (h, []) in
  match enable, iface_index ifname (ifaces h) with
  | true, None => changed (set_ifaces (ifaces h ++ [ifname]) h)
  | false, Some i => changed (set_ifaces (swap_remove i (ifaces h)) h)
  | _, _ => (h, [])
  end.

Definition hncp_routing_intaddr (now : Z) (addr4 : bool) h : hncp_bfs := if addr4 then set_hb_timer (Some now) h else h.

Definition hncp_routing_cb (now : Z) (t : attr) h : hncp_bfs :=
  if decide (t.1 = HNCP_T_ASSIGNED_PREFIX \/ t.1 = HNCP_T_DELEGATED_PREFIX \/ t.1 = Z.of_nat DNCP_T_PEER \/
             t.1 = HNCP_T_EXTERNAL_CONNECTION \/ t.1 = HNCP_T_NODE_ADDRESS)
  then set_hb_timer (Some now) h else h.

(** The parent's part; [forked] tells whether the child exists. *)
Definition hncp_routing_exec o (b : node_id -> bfs) (forked : bool) h : hncp_bfs * list route_event :=
  if routing_pending h && negb (routing_proc h)
  then (set_routing true false h, if forked then [RunRouting (run_calls <$> routing_run o b)] else [])
  else (h, []).

(** The timer has expired. *)
Definition hncp_routing_schedule o (b : node_id -> bfs) (forked : bool) h : hncp_bfs * list route_event :=
  hncp_routing_exec o b forked (set_routing (routing_proc h) true (set_hb_timer None h)).

(** uloop found that a process has ended: it is not pending any more, then its callback runs. *)
Definition configure_done h : hncp_bfs * list route_event := hncp_configure_exec (set_configure false (configure_pending h) h).
Definition routing_done o (b : node_id -> bfs) (forked : bool) h : hncp_bfs * list route_event :=
  hncp_routing_exec o b forked (set_routing false (routing_pending h) h).

Definition hncp_routing_create o (s : subscriber) (script : option (list Z)) (incr : bool) : option (dncp * hncp_bfs) :=
  let h := mk_hncp_bfs script [] false false false false None incr in
  if incr then o ← dncp_subscribe o s; Some (o, h) else Some (o, h).

Definition hncp_routing_destroy o (s : subscriber) h : option dncp :=
  if incremental h then dncp_unsubscribe o s else Some o.

End routing.
