(* ===== verification/HncpBfs.v ===== *)
(** The routing run walks the network breadth first: every round keeps an invariant of
    the queue, the hop counts and the next hops. *)
From S2P Require Import Prelude Bitops Prefix Tlv DncpNotify DncpIndex DncpState Dncp DncpFacts DncpPrune Hncp HncpElect HncpRouting.

(** ** Links that the walk follows *)

Section bfs.
Context `{DX : !DncpExt, DC : !DncpCallbacks, RH : !RouteHost}.
Context (o : dncp) (own : node_id) (td : node -> list attr).
Implicit Types (n c : node) (r : route_run) (x y : node_id).

#[local] Notation pf := (peers_in td).

(** A state in which a run is defined: the extra bytes of the local peer TLVs are peers. *)
Record route_ready : Prop := {
  ready_ids : NoDup (nid <$> nodes o);
  ready_own : own_node o = Some own;
  ready_known : own ∈ nid <$> nodes o;
  ready_tlvs : tlvs_wf o;
  ready_peers u : u ∈ tlvs o -> (tlv u).1 = Z.of_nat DNCP_T_PEER -> is_Some (extra u);
  ready_count : Z.of_nat (length (nodes o)) < 2 ^ 32
}.

(** The data of its nodes is in the order of types, too. *)
Record walkable : Prop := {
  rr_ids : NoDup (nid <$> nodes o);
  rr_own : own_node o = Some own;
  rr_known : own ∈ nid <$> nodes o;
  rr_data : data_ordered o td;
  rr_tlvs : tlvs_wf o;
  rr_peers u : u ∈ tlvs o -> (tlv u).1 = Z.of_nat DNCP_T_PEER -> is_Some (extra u);
  rr_count : Z.of_nat (length (nodes o)) < 2 ^ 32
}.

Lemma route_ready_walkable : route_ready -> data_ordered o td -> walkable.
Proof. intros [] Hd. by split. Qed.

Definition seen_tlvs n : list attr := default [] (dncp_node_tlvs n).

(** The TLV [a] of [c] is a link to [n] that [n] announces too. *)
Definition link_to c (a : attr) n : Prop := exists ne, dncp_tlv_peer a = Some ne /\ via o pf c ne = Some n.

(** For a link of our own: the address the neighbour was heard from, and the interface. *)
Definition heard_from (a : attr) : option (list Z * list Z) :=
  ne ← dncp_tlv_peer a;
  e ← dncp_find_ep_by_id o (pe_ep_id ne);
  u ← dncp_find_tlv o DNCP_T_PEER a.2;
  p ← extra u;
  Some (sin6_addr (last_sa6 p), ifname (conf e)).

Definition follows x (a : attr) y : Prop :=
  exists c n, get_node (nodes o) x = Some c /\ a ∈ seen_tlvs c /\ link_to c a n /\ nid n = y /\ (x = own -> is_Some (heard_from a)).

Definition hop x y : Prop := exists a, follows x a y.

(** The neighbour [z] of ours is at the address [p] behind the interface [i]. *)
Definition enters z (p i : list Z) : Prop := exists a, follows own a z /\ heard_from a = Some (p, i).

(** ** The invariant *)

#[local] Notation hc r x := (hopcount (run_bfs r x)).

(** What is known of a node in the queue or after it. *)
Definition routed r x : Prop :=
  nsteps hop (Z.to_nat (hc r x)) own x /\
  (x ≠ own -> exists z p i, enters z p i /\ nsteps hop (Z.to_nat (hc r x) - 1) z x /\ 0 < hc r x /\
    next_hop (run_bfs r x) = Some p /\ bfs_ifname (run_bfs r x) = Some i).

(** [P] are the nodes that have left the queue; the TLVs in [D] have been followed. *)
Record walk (D : node_id -> attr -> Prop) (P : list node_id) r : Prop := {
  wk_dncp : exists ix, tindex_wf ix /\ run_dncp r = set_tix ix o;
  wk_nodup : NoDup (P ++ run_queue r);
  wk_known x : x ∈ P ++ run_queue r -> x ∈ nid <$> nodes o;
  wk_own : own ∈ P ++ run_queue r;
  wk_own_hops : hc r own = 0;
  wk_mark x : x ∈ nid <$> nodes o -> x ≠ own -> next_hop (run_bfs r x) ≠ None <-> x ∈ P ++ run_queue r;
  wk_order i j x y : (i <= j)%nat -> (P ++ run_queue r) !! i = Some x -> (P ++ run_queue r) !! j = Some y -> hc r x <= hc r y;
  wk_front x y : run_queue r !! 0%nat = Some x -> y ∈ P ++ run_queue r -> hc r y <= hc r x + 1;
  wk_routed x : x ∈ P ++ run_queue r -> routed r x;
  wk_closed x a y : D x a -> follows x a y -> x ∈ P ++ run_queue r /\ y ∈ P ++ run_queue r /\ hc r y <= hc r x + 1;
  wk_index i x : (P ++ run_queue r) !! i = Some x -> 0 <= hc r x <= Z.of_nat i
}.

(** What the rest of a round changes: the arguments and the calls. *)
Definition same_walk r r' : Prop := run_dncp r' = run_dncp r /\ run_queue r' = run_queue r /\ (forall x, run_bfs r' x = run_bfs r x).

Lemma walk_same D P r r' : same_walk r r' -> walk D P r -> walk D P r'.
Proof.
  intros (Ed & Eq & Eb) [].
  split; try (setoid_rewrite Eq || rewrite Eq); repeat setoid_rewrite Eb; try done; [by rewrite Ed|].
  intros x Hx. destruct (wk_routed0 x Hx) as [H1 H2]. unfold routed. by rewrite Eb.
Qed.

Lemma same_walk_refl r : same_walk r r.
Proof. by repeat split. Qed.

Lemma same_walk_trans r1 r2 r3 : same_walk r1 r2 -> same_walk r2 r3 -> same_walk r1 r3.
Proof. intros (E1 & E2 & E3) (E1' & E2' & E3'). repeat split; [by rewrite E1'|by rewrite E2'|]. intros x. by rewrite E3'. Qed.

(** Following one more TLV. *)
Lemma walk_follow D P r x a : walk D P r ->
  (forall y, follows x a y -> x ∈ P ++ run_queue r /\ y ∈ P ++ run_queue r /\ hc r y <= hc r x + 1) ->
  walk (fun x' a' => D x' a' \/ (x' = x /\ a' = a)) P r.
Proof. intros [] H. split; try done. intros x' a' y [?|[-> ->]] Hf; eauto. Qed.

Lemma walk_mono (D D' : node_id -> attr -> Prop) P r : (forall x a y, follows x a y -> D' x a -> D x a) -> walk D P r -> walk D' P r.
Proof. intros HD []. split; try done. intros x a y ? Hf. eapply wk_closed0; eauto. Qed.

(** The number of nodes bounds the hops. *)
Lemma walk_bound D P r : walkable -> walk D P r -> (length (P ++ run_queue r) <= length (nodes o))%nat.
Proof.
  intros Hr Hw. rewrite <- (length_fmap nid (nodes o)). apply submseteq_length, NoDup_submseteq; [apply Hw|]. apply Hw.
Qed.

Lemma walk_hops_small D P r x : walkable -> walk D P r -> x ∈ P ++ run_queue r -> u32 (hc r x + 1) = hc r x + 1.
Proof.
  intros Hr Hw [i Hi]%list_elem_of_lookup. pose proof (wk_index _ _ _ Hw _ _ Hi). apply lookup_lt_Some in Hi.
  pose proof (walk_bound _ _ _ Hr Hw). pose proof (rr_count Hr). unfold u32. apply Z.mod_small. lia.
Qed.

(** A node that gets its place in the queue. *)
Definition visited r y (b : bfs) : route_run := set_run_queue (run_queue r ++ [y]) (set_run_bfs y b r).

Lemma run_bfs_visited r y b x : run_bfs (visited r y b) x = if decide (x = y) then b else run_bfs r x.
Proof. done. Qed.

Lemma walk_visit D P r x y b : walk D P r -> run_queue r !! 0%nat = Some x -> y ∈ nid <$> nodes o -> y ∉ P ++ run_queue r ->
  hopcount b = hc r x + 1 -> next_hop b ≠ None -> routed (visited r y b) y -> walk D P (visited r y b).
Proof.
  intros Hw Hx Hy Hnew Hh Hn Hrt. pose proof (wk_own _ _ _ Hw) as Hown.
  assert (HR : P ++ run_queue (visited r y b) = (P ++ run_queue r) ++ [y]) by (cbn; by rewrite app_assoc).
  assert (Hold : forall z, z ∈ P ++ run_queue r -> run_bfs (visited r y b) z = run_bfs r z).
  { intros z Hz. rewrite run_bfs_visited. destruct (decide (z = y)) as [->|]; done. }
  assert (Hyb : run_bfs (visited r y b) y = b) by (rewrite run_bfs_visited; by rewrite decide_True).
  assert (Hxin : x ∈ P ++ run_queue r) by (apply elem_of_app; right; by eapply list_elem_of_lookup_2).
  destruct Hw. split; rewrite ?HR.
  - destruct wk_dncp0 as (ix & ? & E). by exists ix.
  - apply NoDup_app. split_and!; [done| |apply NoDup_singleton]. intros z Hz ->%list_elem_of_singleton. done.
  - intros z [?| ->%list_elem_of_singleton]%elem_of_app; eauto.
  - apply elem_of_app. by left.
  - by rewrite Hold.
  - intros z Hz Hzo. rewrite run_bfs_visited, elem_of_app, list_elem_of_singleton. case_decide as E; [split; [by right|done]|].
    rewrite wk_mark0 by done. split; [by left|by intros [?|?]].
  - intros i j u v Hij Hu Hv. assert (Hjl := lookup_lt_Some _ _ _ Hv). rewrite length_app in Hjl. cbn in Hjl.
    destruct (decide (i = length (P ++ run_queue r))) as [->|Hi].
    { replace j with (length (P ++ run_queue r)) in Hv by lia. rewrite Hu in Hv. by simplify_eq. }
    rewrite lookup_app_l in Hu by lia. rewrite (Hold u) by (by eapply list_elem_of_lookup_2).
    destruct (decide (j = length (P ++ run_queue r))) as [->|Hj].
    + rewrite list_lookup_middle in Hv by done. simplify_eq. rewrite Hyb, Hh. apply (wk_front0 x); [done|by eapply list_elem_of_lookup_2].
    + rewrite lookup_app_l in Hv by lia. rewrite (Hold v) by (by eapply list_elem_of_lookup_2). eauto.
  - cbn [visited set_run_queue set_run_bfs run_queue]. intros x' z Hx' Hz. rewrite lookup_app_l in Hx' by (by eapply lookup_lt_Some).
    rewrite Hx in Hx'. simplify_eq. rewrite (Hold x') by done.
    apply elem_of_app in Hz as [Hz| ->%list_elem_of_singleton]; [rewrite Hold by done; eauto|rewrite Hyb; lia].
  - intros z [Hz| ->%list_elem_of_singleton]%elem_of_app; [|done]. unfold routed. rewrite Hold by done. by apply wk_routed0.
  - intros u a v HD Hf. destruct (wk_closed0 u a v HD Hf) as (Hu & Hv & Hle). rewrite !elem_of_app. split_and!; [left..|by rewrite !Hold].
    + by apply elem_of_app.
    + by apply elem_of_app.
  - intros i z Hz. assert (Hil := lookup_lt_Some _ _ _ Hz). rewrite length_app in Hil. cbn in Hil.
    destruct (decide (i = length (P ++ run_queue r))) as [->|Hi].
    + rewrite list_lookup_middle in Hz by done. simplify_eq. rewrite Hyb, Hh.
      apply list_elem_of_lookup in Hxin as [k Hk]. pose proof (wk_index0 k x Hk). apply lookup_lt_Some in Hk. lia.
    + rewrite lookup_app_l in Hz by lia. rewrite (Hold z) by (by eapply list_elem_of_lookup_2). eauto.
Qed.

(** ** The rest of a round *)

(** Calls are added; the interface of the calls stays. *)
Definition quiet r r' : Prop :=
  same_walk r r' /\ av_ifname (run_argv r') = av_ifname (run_argv r) /\ (forall k, k ∈ run_calls r -> k ∈ run_calls r').

Lemma silent_refl r : quiet r r.
Proof. by repeat split. Qed.

Lemma silent_trans r1 r2 r3 : quiet r1 r2 -> quiet r2 r3 -> quiet r1 r3.
Proof. intros (H1 & E1 & K1) (H2 & E2 & K2). split_and!; [by eapply same_walk_trans|congruence|auto]. Qed.

Lemma quiet_argv r f : (forall a, av_ifname (f a) = av_ifname a) -> quiet r (on_argv f r).
Proof. intros Hf. split_and!; [by repeat split|apply Hf|done]. Qed.

Lemma quiet_spawn r : quiet r (hncp_routing_spawn r).
Proof. split_and!; [by repeat split|done|]. intros k Hk. cbn. apply elem_of_app. by left. Qed.

Lemma quiet_call r f : (forall a, av_ifname (f a) = av_ifname a) -> quiet r (hncp_routing_spawn (on_argv f r)).
Proof. intros Hf. eapply silent_trans; [by apply quiet_argv|apply quiet_spawn]. Qed.

Create HintDb routing.
#[local] Hint Resolve silent_refl quiet_argv quiet_call : routing.

Lemma exec_policy_quiet r h from b : quiet r (exec_policy r h from b).
Proof.
  destruct b as [id d]. unfold exec_policy. case_decide; [auto with routing|]. cbv zeta. case_decide; [auto with routing|].
  eapply silent_trans; [by apply (quiet_argv r (set_domain (if decide (Z.to_nat (byte_at d 0) = 0%nat) then TxtDefault else
    TxtPrefix (in6_prefix (ROUND_BITS_TO_BYTES (Z.to_nat (byte_at d 0))) (drop 1 d)) (Z.to_nat (byte_at d 0)))))|].
  destruct (v4mapped from), (next_hop h), (next_hop4 h), (bfs_ifname h) as [i|]; try destruct (iface_has_ipv4_address i); auto with routing.
Qed.

Lemma exec_policies_quiet h from bs r : quiet r (foldl (fun r b => exec_policy r h from b) r bs).
Proof.
  revert r. induction bs as [|b bs IH]; intros r; [apply silent_refl|]. cbn [foldl].
  exact (silent_trans _ _ _ (exec_policy_quiet r h from b) (IH _)).
Qed.

Lemma exec_delegated_quiet r c a : exists r', exec_delegated r c a = Some r' /\ quiet r r'.
Proof.
  unfold exec_delegated. destruct (hncp_tlv_dp a) as [dp|]; [|by exists r; split; [|apply silent_refl]]. cbv zeta.
  case_decide as E; [eexists; split; [done|by apply quiet_call]|].
  destruct (tlv_list_total a.2 (ROUND_BYTES_TO_4BYTES (9 + ROUND_BITS_TO_BYTES (tdp_plen dp)))
    (length a.2 - ROUND_BYTES_TO_4BYTES (9 + ROUND_BITS_TO_BYTES (tdp_plen dp)))) as [bs ->]; [lia|].
  cbn [mbind option_bind]. eexists. split; [done|]. eapply silent_trans; [|apply exec_policies_quiet]. by apply quiet_call.
Qed.

Lemma exec_delegateds_quiet c l : forall r, exists r', exec_delegateds r c l = Some r' /\ quiet r r'.
Proof.
  induction l as [|a l IH]; intros r; [by exists r; split; [|apply silent_refl]|]. cbn [exec_delegateds].
  destruct (exec_delegated_quiet r c a) as (r1 & -> & H1). cbn [mbind option_bind].
  destruct (IH r1) as (r2 & -> & H2). exists r2. split; [done|]. by eapply silent_trans.
Qed.

(** The interface of a visited node has an endpoint, so none is added. *)
Lemma find_ep_by_name_known ix i : (exists e, e ∈ eps o /\ ifname (conf e) = i) ->
  (dncp_find_ep_by_name (set_tix ix o) i).1 = set_tix ix o.
Proof.
  intros (e & He & Hi). unfold dncp_find_ep_by_name. case_decide; [done|]. cbn [set_tix eps].
  destruct (list_find (fun e => ifname (conf e) = i) (eps o)) as [[k f]|] eqn:E; [done|].
  apply list_find_None in E. rewrite Forall_forall in E. by destruct (E e He).
Qed.

(** The endpoint of an interface, if it is enabled. *)
Definition enabled_ep (i : list Z) : option ep :=
  id ← (dncp_find_ep_by_name o i).2; e ← dncp_find_ep_by_id o id; if enabled e then Some e else None.

(** The call for an assigned prefix of [c]: verb, destination, gateway and metric. *)
Definition assigned_route c (b : bfs) (i : list Z) (ap : t_assigned_prefix) : option (verb * text * text * text) :=
  if on_connected_link o c i b (enabled_ep i) ap then None
  else
    let to := in6_prefix (ROUND_BITS_TO_BYTES (ap_plen ap)) (ap_data ap) in
    let metric := TxtNumber (u32 (Z.lor (Z.shiftl (hopcount b) 8) (match enabled_ep i with Some e => ep_id e | None => 0 end))) in
    if v4mapped to then
      h4 ← next_hop4 b;
      if iface_has_ipv4_address i then Some (Bfsipv4assigned, TxtPrefix to (ap_plen ap), TxtAddr AF_INET (drop 12 h4), metric) else None
    else h ← next_hop b; Some (Bfsipv6assigned, TxtPrefix to (ap_plen ap), TxtAddr AF_INET6 h, metric).

(** The routes of an assigned prefix: all of them have been told. *)
Definition told r c (b : bfs) (i : list Z) ap : Prop :=
  forall v d g m, assigned_route c b i ap = Some (v, d, g, m) -> exists dom, mk_call v d g (Some (i, m, dom)) ∈ run_calls r.

Lemma exec_assigned_quiet r c h i ap : (exists ix, run_dncp r = set_tix ix o) -> (exists e, e ∈ eps o /\ ifname (conf e) = i) ->
  quiet r (exec_assigned r c h i ap) /\ (av_ifname (run_argv r) = Some i -> told (exec_assigned r c h i ap) c h i ap).
Proof.
  intros [ix E] Hi. unfold exec_assigned, told, assigned_route. rewrite E. pose proof (find_ep_by_name_known ix i Hi) as Hf.
  assert (Hid : (dncp_find_ep_by_name o i).2 = (dncp_find_ep_by_name (set_tix ix o) i).2).
  { unfold dncp_find_ep_by_name. case_decide; [done|]. change (eps (set_tix ix o)) with (eps o). by destruct (list_find _ (eps o)) as [[]|]. }
  unfold enabled_ep. rewrite Hid. destruct (dncp_find_ep_by_name (set_tix ix o) i) as [o1 id]. cbn in Hf. subst o1.
  change (dncp_find_ep_by_id (set_tix ix o)) with (dncp_find_ep_by_id o). change (on_connected_link (set_tix ix o)) with (on_connected_link o).
  replace (set_run_dncp (set_tix ix o) r) with r by (rewrite <- E; by destruct r). cbn [snd]. cbv zeta.
  destruct (on_connected_link _ _ _ _ _ _); [split; [auto with routing|done]|].
  assert (Hcall : forall f g, (forall a, av_ifname (f a) = av_ifname a) -> (forall a, av_ifname (g a) = av_ifname a) ->
    quiet r (hncp_routing_spawn (on_argv g (on_argv f r)))).
  { intros f g Hf Hg. eapply silent_trans; [exact (quiet_argv r f Hf)|by apply quiet_call]. }
  destruct (v4mapped _), (next_hop h), (next_hop4 h); cbn [mbind option_bind]; try destruct (iface_has_ipv4_address i);
    (split; [first [by apply quiet_argv|by apply Hcall]|]); intros Ha v d g m Hv; try done; simplify_eq;
    eexists; cbn; apply elem_of_app; right; unfold route_args; cbn; rewrite Ha; by left.
Qed.

Lemma heard_from_ep a p i : heard_from a = Some (p, i) -> exists e, e ∈ eps o /\ ifname (conf e) = i.
Proof.
  unfold heard_from. intros (ne & _ & (e & He & (u & _ & (q & _ & E)%bind_Some)%bind_Some)%bind_Some)%bind_Some.
  apply (inj Some) in E. exists e. split; [|congruence]. unfold dncp_find_ep_by_id in He.
  apply fmap_Some in He as ([k f] & Hf & ->). apply list_find_Some in Hf as (Hf & _). by eapply list_elem_of_lookup_2.
Qed.

(** ** Links *)

Lemma find_neigh_bidir_via ix c ne : walkable -> tindex_wf ix ->
  exists ix', tindex_wf ix' /\ dncp_node_find_neigh_bidir (set_tix ix o) c ne = Some (set_tix ix' o, via o pf c ne).
Proof.
  intros Hr Hix. unfold dncp_node_find_neigh_bidir, via. change (find_node (set_tix ix o) (pe_nid ne)) with (get_node (nodes o) (pe_nid ne)).
  destruct (get_node (nodes o) (pe_nid ne)) as [m|] eqn:Em; cbn [mbind option_bind]; [|by exists ix].
  apply get_node_Some in Em as [Hm _]. destruct (rr_data Hr m Hm) as (Hc & Hb & Hok).
  destruct (sorted_announces m (td m) Hc Hb Hok (set_tix ix o)) as (ix' & -> & Hix'); [split; [apply Hr|done]|].
  cbn [mbind option_bind]. exists ix'. split; [done|]. by unfold matches.
Qed.

Lemma valid_tlvs_total ix n T : walkable -> tindex_wf ix -> n ∈ nodes o ->
  exists ix' ts, tindex_wf ix' /\ valid_tlvs_of_type (set_tix ix o) n T = Some (set_tix ix' o, ts).
Proof.
  intros Hr Hix Hn. destruct (rr_data Hr n Hn) as (Hc & Hb & Hok). unfold valid_tlvs_of_type. rewrite Hc.
  destruct (for_each_tlv_enc (tix (set_tix ix o)) (mk_tcache None true) (td n) (tlv_valid n) T true) as (ix' & k' & -> & Hwf & _); [done..|].
  cbn [mbind option_bind]. by eexists ix', _.
Qed.

Lemma walk_tix D P r ix : tindex_wf ix -> walk D P r -> walk D P (set_run_dncp (set_tix ix o) r).
Proof. intros Hix []. split; try done. by exists ix. Qed.

(** A node that stays unvisited may still get an address. *)
Lemma walk_unmarked D P r y b : walk D P r -> y ∉ P ++ run_queue r -> next_hop b = None -> walk D P (set_run_bfs y b r).
Proof.
  intros Hw Hy Hb.
  assert (Hold : forall z, z ∈ P ++ run_queue r -> run_bfs (set_run_bfs y b r) z = run_bfs r z).
  { intros z Hz. cbn. destruct (decide (z = y)) as [->|]; done. }
  destruct Hw. split; try done.
  - by rewrite Hold.
  - intros z Hz Hzo. cbn. case_decide as E; [subst; split; [by rewrite Hb|done]|]. by apply wk_mark0.
  - intros i j u v Hij Hu Hv. rewrite !Hold by (by eapply list_elem_of_lookup_2). eauto.
  - intros u v Hu Hv. assert (u ∈ P ++ run_queue r) by (apply elem_of_app; right; by eapply list_elem_of_lookup_2). rewrite !Hold by done. by apply wk_front0.
  - intros u Hu. unfold routed. rewrite Hold by done. by apply wk_routed0.
  - intros u a v HD Hf. destruct (wk_closed0 u a v HD Hf) as (? & ? & ?). by rewrite !Hold.
  - intros i u Hu. rewrite Hold by (by eapply list_elem_of_lookup_2). eauto.
Qed.

Lemma follows_via c a ne y : get_node (nodes o) (nid c) = Some c -> dncp_tlv_peer a = Some ne -> follows (nid c) a y ->
  exists n, via o pf c ne = Some n /\ nid n = y /\ (nid c = own -> is_Some (heard_from a)).
Proof. intros Hc Ha (c' & n & Hc' & _ & (ne' & Ha' & Hv) & Hn & Hh). exists n. rewrite Hc in Hc'. by simplify_eq. Qed.

Lemma via_follows c a ne n : get_node (nodes o) (nid c) = Some c -> a ∈ seen_tlvs c -> dncp_tlv_peer a = Some ne -> via o pf c ne = Some n ->
  (nid c = own -> is_Some (heard_from a)) -> follows (nid c) a (nid n).
Proof. intros Hc Hin Ha Hv Hh. exists c, n. split_and!; try done. by exists ne. Qed.

(** What a node at the front of the queue passes on. *)
Lemma routed_step r c y b ne a n : routed r (nid c) -> nid c ≠ own -> follows (nid c) a (nid n) -> dncp_tlv_peer a = Some ne -> nid n = y ->
  0 <= hc r (nid c) -> hopcount b = hc r (nid c) + 1 -> next_hop b = next_hop (run_bfs r (nid c)) -> bfs_ifname b = bfs_ifname (run_bfs r (nid c)) ->
  routed (visited r y b) y.
Proof.
  intros [Hp Hz] Hc Hf _ <- H0 Hh Hn Hi. unfold routed. rewrite run_bfs_visited, decide_True by done. rewrite Hh, Hn, Hi.
  assert (Hs : hop (nid c) (nid n)) by by exists a. replace (Z.to_nat (hc r (nid c) + 1)) with (S (Z.to_nat (hc r (nid c)))) by lia.
  split; [by eapply nsteps_r|]. intros _. destruct (Hz Hc) as (z & p & i & He & Hzs & Hpos & Hnh & Hif). exists z, p, i.
  split_and!; [done| |lia|done|done]. replace (S (Z.to_nat (hc r (nid c))) - 1)%nat with (S (Z.to_nat (hc r (nid c)) - 1)) by lia.
  by eapply nsteps_r.
Qed.

Lemma routed_first r a y b p i : hc r own = 0 -> follows own a y -> heard_from a = Some (p, i) ->
  hopcount b = 1 -> next_hop b = Some p -> bfs_ifname b = Some i -> routed (visited r y b) y.
Proof.
  intros Ho Hf Hh H1 Hn Hi. unfold routed. rewrite run_bfs_visited, decide_True by done. rewrite H1, Hn, Hi.
  split; [apply nsteps_once; by exists a|]. intros _. exists y, p, i. split_and!; try done; [by exists a|constructor].
Qed.

(** ** One TLV *)

(** What the steps after [r] keep: the nodes visited so far, the interface of the calls,
    and the calls. *)
Definition extends P r r1 : Prop :=
  (forall x, x ∈ P ++ run_queue r -> run_bfs r1 x = run_bfs r x) /\ av_ifname (run_argv r1) = av_ifname (run_argv r) /\
  (forall k, k ∈ run_calls r -> k ∈ run_calls r1) /\ (forall x, x ∈ run_queue r -> x ∈ run_queue r1).

Lemma extends_refl P r : extends P r r.
Proof. by split_and!. Qed.

Lemma extends_trans P r1 r2 r3 : extends P r1 r2 -> extends P r2 r3 -> extends P r1 r3.
Proof.
  intros (E1 & E2 & E3 & E4) (F1 & F2 & F3 & F4). split_and!; [|congruence|auto|auto].
  intros x Hx. rewrite F1; [auto|]. apply elem_of_app in Hx as [?|?]; apply elem_of_app; auto.
Qed.

(** The walk goes on with the TLV [a] of [x] followed. *)
Definition goes_on (D : node_id -> attr -> Prop) (P : list node_id) r x (a : attr) (r' : option route_run) : Prop :=
  exists r1, r' = Some r1 /\ walk (fun x' a' => D x' a' \/ (x' = x /\ a' = a)) P r1 /\ run_queue r1 !! 0%nat = Some x /\ extends P r r1.

Lemma goes_on_none D P r0 r x a : walk D P r -> run_queue r !! 0%nat = Some x -> extends P r0 r -> (forall y, ~ follows x a y) ->
  goes_on D P r0 x a (Some r).
Proof. intros Hw Hq He Hn. exists r. split_and!; [done| |done..]. apply walk_follow; [done|]. intros y []%Hn. Qed.

Lemma goes_on_known D P r0 r c a ne n : walk D P r -> run_queue r !! 0%nat = Some (nid c) -> get_node (nodes o) (nid c) = Some c ->
  dncp_tlv_peer a = Some ne -> via o pf c ne = Some n -> extends P r0 r -> nid n ∈ P ++ run_queue r -> goes_on D P r0 (nid c) a (Some r).
Proof.
  intros Hw Hq Hc Ha Hv He Hin. exists r. split_and!; [done| |done..]. apply walk_follow; [done|]. intros y (m & Hm & <- & _)%(follows_via c a ne); [|done..].
  rewrite Hv in Hm. simplify_eq. split_and!; [|done|by apply (wk_front _ _ _ Hw)]. apply elem_of_app. right. by eapply list_elem_of_lookup_2.
Qed.

Lemma extends_visited P r y b : y ∉ P ++ run_queue r -> extends P r (visited r y b).
Proof.
  intros Hy. split_and!; [|done|done|]; cbn.
  - intros x Hx. case_decide; [by subst|done].
  - intros x Hx. apply elem_of_app. by left.
Qed.

Lemma goes_on_visit D P r c a ne n b : walk D P r -> run_queue r !! 0%nat = Some (nid c) -> get_node (nodes o) (nid c) = Some c ->
  dncp_tlv_peer a = Some ne -> via o pf c ne = Some n -> nid n ∉ P ++ run_queue r ->
  hopcount b = hc r (nid c) + 1 -> next_hop b ≠ None -> routed (visited r (nid n) b) (nid n) ->
  goes_on D P r (nid c) a (Some (visited r (nid n) b)).
Proof.
  intros Hw Hq Hc Ha Hv Hnew Hh Hn Hrt. apply (goes_on_known _ _ _ _ c a ne n); [|cbn; by apply lookup_app_l_Some|done|done|done|by apply extends_visited|].
  - apply (walk_visit _ _ _ (nid c)); try done. apply via_elem in Hv. by apply list_elem_of_fmap_2.
  - cbn. rewrite !elem_of_app. right. right. by left.
Qed.

Lemma find_tlv_extra a u : walkable -> dncp_find_tlv o DNCP_T_PEER a = Some u -> is_Some (extra u).
Proof.
  intros Hr Hf. unfold dncp_find_tlv, find_tlv in Hf. apply fmap_Some in Hf as ([k v] & Hv & ->).
  apply list_find_Some in Hv as (Hv & E & _). apply (rr_peers Hr); [by eapply list_elem_of_lookup_2|]. cbn. by rewrite E.
Qed.

(** The first hop of a run. *)
Lemma first_hop_walk D P r c a ne n : walkable -> walk D P r -> run_queue r !! 0%nat = Some (nid c) -> get_node (nodes o) (nid c) = Some c ->
  a ∈ seen_tlvs c -> dncp_tlv_peer a = Some ne -> via o pf c ne = Some n -> nid n ∉ P ++ run_queue r -> nid c = own ->
  next_hop (run_bfs r (nid n)) = None ->
  exists r1 hn, first_hop r n a ne (run_bfs r (nid n)) = Some (r1, hn) /\
    walk D P r1 /\ run_queue r1 = run_queue r /\ (forall x, run_bfs r1 x = run_bfs r x) /\ run_argv r1 = run_argv r /\ run_calls r1 = run_calls r /\
    match heard_from a with
    | Some (p, i) => exists b, hn = Some b /\ next_hop b = Some p /\ bfs_ifname b = Some i
    | None => hn = None \/ exists b, hn = Some b /\ next_hop b = None
    end.
Proof.
  intros Hr Hw Hq Hc Hin Ha Hv Hnew Ho Hnone. destruct (wk_dncp _ _ _ Hw) as (ix & Hix & E).
  unfold first_hop, heard_from. rewrite E, Ha. cbn [mbind option_bind]. change (dncp_find_ep_by_id (set_tix ix o)) with (dncp_find_ep_by_id o).
  destruct (dncp_find_ep_by_id o (pe_ep_id ne)) as [e|]; cbn [mbind option_bind]; [|by exists r, None; split_and!; [..|left]].
  change (dncp_find_tlv (set_tix ix o)) with (dncp_find_tlv o).
  destruct (valid_tlvs_total ix n (Z.to_nat HNCP_T_NODE_ADDRESS)) as (ix' & nas & Hix' & Hnas); [done..|by apply via_elem in Hv|].
  destruct (dncp_find_tlv o DNCP_T_PEER a.2) as [u|] eqn:Eu; cbn [mbind option_bind].
  - destruct (find_tlv_extra _ _ Hr Eu) as [p ->]. cbn [mbind option_bind]. rewrite Hnas. cbn [mbind option_bind]. do 2 eexists.
    split_and!; [done|by apply walk_tix|done|done|done|done|]. eexists. split; [done|]. by destruct (address4 ne nas).
  - rewrite Hnas. cbn [mbind option_bind]. do 2 eexists. split_and!; [done|by apply walk_tix|done|done|done|done|]. right. eexists. split; [done|].
    by destruct (address4 ne nas).
Qed.

Lemma is_own_tix ix n : walkable -> is_own (set_tix ix o) n = bool_decide (nid n = own).
Proof. intros Hr. unfold is_own. change (own_node (set_tix ix o)) with (own_node o). rewrite (rr_own Hr). apply bool_decide_ext. split; congruence. Qed.

Lemma front_elem P r x : run_queue r !! 0%nat = Some x -> x ∈ P ++ run_queue r.
Proof. intros H. apply elem_of_app. right. by eapply list_elem_of_lookup_2. Qed.

(** The hop count that a visited node gets. *)
Definition counted r c (b : bfs) : bfs := set_hopcount (u32 (hc r (nid c) + 1)) b.

(** Calls and arguments may still be added. *)
Lemma goes_on_quiet D P x a r0 r r' : quiet r r' -> goes_on D P r0 x a (Some r) -> goes_on D P r0 x a (Some r').
Proof.
  intros (Hs & Ha & Hk) (r1 & E & Hw & Hq & He1 & He2 & He3 & He4). simplify_eq. exists r'. pose proof Hs as (_ & Hsq & Hsb). rewrite Hsq.
  split_and!; [done|by eapply walk_same|done|]. split_and!; [|congruence|auto|by rewrite Hsq].
  intros y Hy. rewrite Hsb. auto.
Qed.

Lemma goes_on_from D P r0 r x a (r' : option route_run) : extends P r0 r -> goes_on D P r x a r' -> goes_on D P r0 x a r'.
Proof. intros He (r1 & -> & Hw & Hq & He1). exists r1. split_and!; try done. by eapply extends_trans. Qed.

(** The new neighbour [n] of [c] takes [b]. *)
Lemma goes_on_take D P r c a ne n b : walkable -> walk D P r -> run_queue r !! 0%nat = Some (nid c) -> get_node (nodes o) (nid c) = Some c ->
  dncp_tlv_peer a = Some ne -> via o pf c ne = Some n -> nid n ∉ P ++ run_queue r -> next_hop b ≠ None ->
  routed (visited r (nid n) (counted r c b)) (nid n) ->
  goes_on D P r (nid c) a (Some (set_run_queue (run_queue r ++ [nid n]) (set_run_bfs (nid n) (counted r c b) (set_run_bfs (nid n) b r)))).
Proof.
  intros Hr Hw Hq Hc Ha Hv Hnew Hb Hrt. apply (goes_on_quiet D P _ a r (visited r (nid n) (counted r c b))); [|apply (goes_on_visit D P r c a ne n (counted r c b)); try done].
  - split_and!; [|done|done]. repeat split. intros x. cbn. by case_decide.
  - cbn. eapply walk_hops_small; [done..|]. by apply front_elem.
Qed.

Lemma exec_peer_walk D P r c a ne : walkable -> walk D P r -> run_queue r !! 0%nat = Some (nid c) -> get_node (nodes o) (nid c) = Some c ->
  a ∈ seen_tlvs c -> dncp_tlv_peer a = Some ne -> goes_on D P r (nid c) a (exec_peer r c a ne).
Proof.
  intros Hr Hw0 Hq0 Hc Hin Ha. unfold exec_peer. destruct (wk_dncp _ _ _ Hw0) as (ix0 & Hix0 & E).
  rewrite E. destruct (find_neigh_bidir_via ix0 c ne Hr Hix0) as (ix & Hix & ->). cbn [mbind option_bind]. cbv zeta.
  pose proof (walk_tix _ _ _ _ Hix Hw0) as Hw. assert (Hq : run_queue (set_run_dncp (set_tix ix o) r) !! 0%nat = Some (nid c)) by done.
  assert (Ed : run_dncp (set_run_dncp (set_tix ix o) r) = set_tix ix o) by done.
  change (goes_on D P r) with (goes_on D P (set_run_dncp (set_tix ix o) r)).
  revert Hw Hq Ed. generalize (set_run_dncp (set_tix ix o) r). clear dependent r ix0. intros r Hw Hq Ed. pose proof (front_elem P r _ Hq) as HcR.
  destruct (via o pf c ne) as [n|] eqn:Ev; [|apply goes_on_none; [done|done|apply extends_refl|]; intros y (m & ? & _)%(follows_via c a ne); [congruence|done..]].
  rewrite !(is_own_tix ix) by done. pose proof (via_elem _ _ _ _ _ Ev) as Hn%(list_elem_of_fmap_2 nid).
  case_decide as Hk.
  { eapply goes_on_known; [done..|apply extends_refl|]. destruct Hk as [Hk| ->%bool_decide_unpack]; [|apply Hw].
    destruct (decide (nid n = own)) as [->|Hno]; [apply Hw|]. by apply (wk_mark _ _ _ Hw). }
  assert (Hno : nid n ≠ own) by (intros Hno; apply Hk; right; by apply bool_decide_pack).
  assert (Hnone : next_hop (run_bfs r (nid n)) = None) by (apply dec_stable; intros ?; apply Hk; by left).
  assert (Hnew : nid n ∉ P ++ run_queue r) by (intros ?%(wk_mark _ _ _ Hw); done).
  destruct (decide (nid c = own)) as [Ho|Ho]; [rewrite bool_decide_true by done|rewrite bool_decide_false by done].
  - destruct (first_hop_walk D P r c a ne n) as (r1 & hn & -> & Hw1 & Eq & Eb & Ea & Ek & Hcase); [done..|]. cbn [mbind option_bind].
    assert (Hex : extends P r r1) by (split_and!; [done|by rewrite Ea|by rewrite Ek|by rewrite Eq]).
    rewrite <- Eq in Hq, Hnew. destruct (heard_from a) as [[p i]|] eqn:Eh.
    + destruct Hcase as (b & -> & Hb1 & Hb2). cbv beta iota. rewrite decide_False by (rewrite Hb1, Hb2; by intros [?|?]). rewrite <- Eb.
      apply (goes_on_from _ _ _ r1 _ _ _ Hex), (goes_on_take D P r1 c a ne n b); try done; [by rewrite Hb1|]. apply (routed_first r1 a _ _ p i); try done.
      * apply Hw1.
      * rewrite <- Ho. by eapply via_follows.
      * cbn. by rewrite Ho, (wk_own_hops _ _ _ Hw1).
    + assert (Hnf : forall y, ~ follows (nid c) a y) by (intros y (m & _ & _ & Hx)%(follows_via c a ne); [rewrite Eh in Hx; by destruct (Hx Ho)|done..]).
      destruct Hcase as [->|(b & -> & Hb)]; [by apply goes_on_none|]. cbv beta iota. rewrite decide_True by by left.
      apply goes_on_none; [by apply walk_unmarked|done| |done]. eapply extends_trans; [exact Hex|]. split_and!; try done.
      intros x Hx. cbn. destruct (decide (x = nid n)) as [->|]; done.
  - cbn [mbind option_bind]. destruct (wk_routed _ _ _ Hw (nid c) HcR) as [Hp Hz]. pose proof (Hz Ho) as (z & p & i & _ & _ & Hpos & Hp1 & Hi).
    rewrite decide_False by (cbn; rewrite Hp1, Hi; by intros [?|?]).
    apply (goes_on_take D P r c a ne n); try done; [cbn; by rewrite Hp1|].
    eapply (routed_step r c _ _ ne a n); try done; [by eapply via_follows|lia|]. cbn. by eapply walk_hops_small.
Qed.

(** The assigned prefix in [a], if it is one, has been told. *)
Definition served r c (a : attr) : Prop :=
  forall ap i, nid c ≠ own -> hncp_tlv_ap a = Some ap -> bfs_ifname (run_bfs r (nid c)) = Some i -> told r c (run_bfs r (nid c)) i ap.

Lemma served_mono r r1 c a : run_bfs r1 (nid c) = run_bfs r (nid c) -> (forall k, k ∈ run_calls r -> k ∈ run_calls r1) -> served r c a -> served r1 c a.
Proof. intros Eb Hk Hs ap i Ho Ha Hi. rewrite Eb in *. intros v d g m Hv. destruct (Hs ap i Ho Ha Hi v d g m Hv) as [dom ?]. eauto. Qed.

Lemma hncp_tlv_ap_type a : is_Some (hncp_tlv_ap a) -> a.1 = HNCP_T_ASSIGNED_PREFIX.
Proof. destruct a as [id d]. unfold hncp_tlv_ap. case_decide as E; [by intros []|]. intros _. cbn. apply dec_stable. intros ?. apply E. by left. Qed.

Lemma dncp_tlv_peer_type a : is_Some (dncp_tlv_peer a) -> a.1 = Z.of_nat DNCP_T_PEER.
Proof. unfold dncp_tlv_peer. case_decide as E; [by destruct E|by intros []]. Qed.

Lemma exec_tlv_walk D P r c a : walkable -> walk D P r -> run_queue r !! 0%nat = Some (nid c) -> get_node (nodes o) (nid c) = Some c ->
  a ∈ seen_tlvs c -> av_ifname (run_argv r) = bfs_ifname (run_bfs r (nid c)) ->
  goes_on D P r (nid c) a (exec_tlv r c a) /\ (forall r1, exec_tlv r c a = Some r1 -> run_bfs r1 (nid c) = run_bfs r (nid c) -> served r1 c a).
Proof.
  intros Hr Hw Hq Hc Hin Hif. unfold exec_tlv. destruct (dncp_tlv_peer a) as [ne|] eqn:Ea.
  { split; [by apply exec_peer_walk|]. intros r1 _ _ ap i _ Hap. exfalso.
    assert (a.1 = Z.of_nat DNCP_T_PEER) as E1 by (apply dncp_tlv_peer_type; by rewrite Ea).
    assert (a.1 = HNCP_T_ASSIGNED_PREFIX) as E2 by (apply hncp_tlv_ap_type; by rewrite Hap). rewrite E1 in E2. discriminate E2. }
  assert (Hstay : goes_on D P r (nid c) a (Some r)).
  { apply goes_on_none; [done|done|apply extends_refl|]. intros y (c' & n & _ & _ & (ne & Ha & _) & _). congruence. }
  case_decide as Ee.
  { destruct (tlv_list_total a.2 0 (length a.2)) as [l ->]; [lia|]. cbn [mbind option_bind].
    destruct (exec_delegateds_quiet c l r) as (r1 & -> & Hs). split; [by eapply goes_on_quiet|].
    intros r2 _ _ ap i _ Hap. exfalso. assert (a.1 = HNCP_T_ASSIGNED_PREFIX) as E2 by (apply hncp_tlv_ap_type; by rewrite Hap).
    rewrite Ee in E2. discriminate E2. }
  cbv zeta. destruct (hncp_tlv_ap a) as [ap|] eqn:Eap; [|split; [done|]; intros r1 _ _ ap i _; by rewrite Eap].
  destruct (wk_dncp _ _ _ Hw) as (ix & _ & E). rewrite E, is_own_tix by done. case_bool_decide as Ho; [split; [done|]; by intros r1 _ _ ap' i Hno|].
  destruct (wk_routed _ _ _ Hw (nid c) (front_elem _ _ _ Hq)) as [_ Hz]. destruct (Hz Ho) as (z & p & i & (a' & _ & Hh) & _ & _ & _ & Hi).
  rewrite Hi. destruct (exec_assigned_quiet r c (run_bfs r (nid c)) i ap) as [Hs Ht]; [by exists ix|by eapply heard_from_ep|].
  split; [by eapply goes_on_quiet|]. intros r1 [= <-] Hb ap' i' _ Eap' Hi'. rewrite Eap in Eap'. rewrite Hb in *. simplify_eq. apply Ht. congruence.
Qed.

Lemma exec_tlvs_walk P c ts : forall D r, walkable -> walk D P r -> run_queue r !! 0%nat = Some (nid c) -> get_node (nodes o) (nid c) = Some c ->
  (forall a, a ∈ ts -> a ∈ seen_tlvs c) -> av_ifname (run_argv r) = bfs_ifname (run_bfs r (nid c)) ->
  exists r1, exec_tlvs r c ts = Some r1 /\ walk (fun x a => D x a \/ (x = nid c /\ a ∈ ts)) P r1 /\ run_queue r1 !! 0%nat = Some (nid c) /\
    extends P r r1 /\ (forall a, a ∈ ts -> served r1 c a).
Proof.
  induction ts as [|a ts IH]; intros D r Hr Hw Hq Hc Hin Hif; cbn [exec_tlvs].
  { exists r. split_and!; [done| |done|apply extends_refl|by intros a ?%elem_of_nil]. eapply walk_mono; [|exact Hw]. by intros x a y _ [?|[_ ?%elem_of_nil]]. }
  destruct (exec_tlv_walk D P r c a) as [(r1 & E1 & Hw1 & Hq1 & Hx1) Hs1]; [done..|apply Hin; by left|done|]. rewrite E1. cbn [mbind option_bind].
  pose proof Hx1 as (Hb1 & Ha1 & _ & _). specialize (Hb1 (nid c) (front_elem _ _ _ Hq)).
  destruct (IH _ r1 Hr Hw1 Hq1 Hc) as (r2 & -> & Hw2 & Hq2 & Hx2 & Hs2); [intros; apply Hin; by right|by rewrite Ha1, Hb1|].
  exists r2. split_and!; [done| |done|by eapply extends_trans|].
  - eapply walk_mono; [|exact Hw2]. intros x a' y _ [?|[-> [->|?]%elem_of_cons]]; eauto.
  - intros a' [->|?]%elem_of_cons; [|auto]. destruct Hx2 as (Hb2 & _ & Hk2 & _).
    eapply served_mono; [apply Hb2; by apply front_elem|done|]. by apply Hs1.
Qed.

(** ** Rounds *)

#[local] Notation all_of P := (fun x (_ : attr) => x ∈ P).

Lemma walk_pop P r x : walk (fun x' a => x' ∈ P \/ (x' = x /\ exists c, get_node (nodes o) x = Some c /\ a ∈ seen_tlvs c)) P r ->
  run_queue r !! 0%nat = Some x -> walk (all_of (P ++ [x])) (P ++ [x]) (set_run_queue (drop 1 (run_queue r)) r).
Proof.
  intros Hw Hq. destruct (run_queue r) as [|x' q] eqn:Eq; [done|]. cbn in Hq. simplify_eq.
  assert (HR : (P ++ [x]) ++ q = P ++ x :: q) by (by rewrite <- app_assoc). change (drop 1 (x :: q)) with q.
  destruct Hw. rewrite Eq in *. split; cbn [set_run_queue run_queue]; rewrite ?HR; try done.
  - intros y z Hy Hz. assert (Hx : hc r x <= hc r y).
    { apply (wk_order0 (length P) (length P + 1)%nat); [lia|by apply list_lookup_middle|]. rewrite lookup_app_r by lia. by rewrite Nat.add_comm, Nat.add_sub. }
    pose proof (wk_front0 x z eq_refl Hz). cbn in *. lia.
  - intros u a v Hu Hf. apply (wk_closed0 u a v); [|done]. apply elem_of_app in Hu as [?| ->%list_elem_of_singleton]; [by left|right].
    destruct Hf as (c & n & Hc & Ha & _). eauto.
Qed.

Definition all_served (P : list node_id) r : Prop :=
  forall c a, nid c ∈ P -> get_node (nodes o) (nid c) = Some c -> a ∈ seen_tlvs c -> served r c a.

Lemma exec_node_walk P r x : walkable -> walk (all_of P) P r -> all_served P r -> run_queue r !! 0%nat = Some x ->
  exists r1, exec_node r x = Some r1 /\ walk (all_of (P ++ [x])) (P ++ [x]) r1 /\ all_served (P ++ [x]) r1.
Proof.
  intros Hr Hw Hs Hq. unfold exec_node. destruct (wk_dncp _ _ _ Hw) as (ix & _ & E).
  pose proof (wk_known _ _ _ Hw x (front_elem _ _ _ Hq)) as (c & -> & Hc)%list_elem_of_fmap_1.
  pose proof (get_node_elem _ _ (rr_ids Hr) Hc) as Hget. rewrite E. change (find_node (set_tix ix o) (nid c)) with (get_node (nodes o) (nid c)).
  rewrite Hget. cbn [mbind option_bind]. destruct (dncp_node_tlvs_total c) as [ts Hts]. rewrite Hts. cbn [mbind option_bind].
  assert (Hof : seen_tlvs c = ts) by (unfold seen_tlvs; by rewrite Hts).
  destruct (exec_tlvs_walk P c ts (all_of P) (on_argv (set_av_ifname (bfs_ifname (run_bfs r (nid c)))) r)) as (r1 & -> & Hw1 & Hq1 & Hx1 & Hs1);
    [done|eapply walk_same; [|exact Hw]; by repeat split|done|done|by rewrite Hof|done|].
  cbn [mbind option_bind]. eexists. split_and!; [done|apply walk_pop; [|done]; eapply walk_mono; [|exact Hw1]|].
  - intros y a z _ [?|[-> (c' & Hc' & Ha)]]; [by left|right]. rewrite Hget in Hc'. simplify_eq. done.
  - intros c' a Hin Hc' Ha. destruct Hx1 as (Hb & _ & Hk & _). apply elem_of_app in Hin as [Hin|Hin%list_elem_of_singleton].
    + apply (served_mono r); [|exact Hk|by apply Hs]. apply Hb. apply elem_of_app. by left.
    + rewrite Hin, Hget in Hc'. simplify_eq. by apply Hs1.
Qed.

Lemma exec_loop_walk fuel : forall P r, walkable -> walk (all_of P) P r -> all_served P r -> (length (nodes o) <= length P + fuel)%nat ->
  exists r1 P1, exec_loop fuel r = Some r1 /\ run_queue r1 = [] /\ walk (all_of P1) P1 r1 /\ all_served P1 r1.
Proof.
  induction fuel as [|fuel IH]; intros P r Hr Hw Hs Hf; pose proof (walk_bound _ _ _ Hr Hw) as Hb; rewrite length_app in Hb;
    cbn [exec_loop]; destruct (run_queue r) as [|x q] eqn:Eq; [by exists r, P| |by exists r, P|].
  { cbn in Hb. lia. }
  destruct (exec_node_walk P r x) as (r1 & -> & Hw1 & Hs1); [done..|by rewrite Eq|]. cbn [mbind option_bind].
  apply (IH _ r1 Hr Hw1 Hs1). rewrite length_app. cbn. lia.
Qed.

Lemma walk_start b : walkable -> walk (all_of []) [] (hncp_routing_spawn (mk_run o (unvisit o b) [own] argv_start [])).
Proof.
  intros Hr. assert (Hu : forall x, x ∈ nid <$> nodes o -> unvisit o b x = mk_bfs None None (bfs_ifname (b x)) 0).
  { intros x (n & -> & Hn)%list_elem_of_fmap_1. unfold unvisit. rewrite decide_True; [done|].
    change (find_node o (nid n)) with (get_node (nodes o) (nid n)). rewrite (get_node_elem _ _ (rr_ids Hr) Hn). by eexists. }
  pose proof (Hu own (rr_known Hr)) as Ho. split; cbn [hncp_routing_spawn run_queue run_dncp run_bfs app].
  - exists (tix o). split; [apply Hr|]. by destruct o.
  - apply NoDup_singleton.
  - intros x ->%list_elem_of_singleton. apply Hr.
  - by left.
  - by rewrite Ho.
  - intros x Hx Hxo. rewrite Hu by done. cbn. by rewrite list_elem_of_singleton.
  - intros [|i] [|j] x y; cbn; intros; simplify_eq; lia.
  - intros x y [= <-] ->%list_elem_of_singleton. lia.
  - intros x ->%list_elem_of_singleton. unfold routed. cbn [hncp_routing_spawn run_bfs]. rewrite Ho. split; [constructor|done].
  - by intros x a y ?%elem_of_nil.
  - intros [|i] x; cbn; intros; simplify_eq. rewrite Ho. cbn. lia.
Qed.

(** ** The result of a run *)

(** A node with a next hop is at the end of a shortest path, and the next hop is where that path starts. *)
Definition best_route (b : bfs) x : Prop :=
  exists z p i, enters z p i /\ nsteps hop (Z.to_nat (hopcount b) - 1) z x /\ 0 < hopcount b /\ next_hop b = Some p /\ bfs_ifname b = Some i /\
    forall k, nsteps hop k own x -> hopcount b <= Z.of_nat k.

Lemma walk_closed_end P r k x y : walk (all_of P) P r -> run_queue r = [] -> x ∈ P -> nsteps hop k x y -> y ∈ P /\ hc r y <= hc r x + Z.of_nat k.
Proof.
  intros Hw Hq Hx Hk. revert Hx. induction Hk as [x|k x y z [a Ha] Hk IH]; intros Hx; [split; [done|lia]|].
  destruct (wk_closed _ _ _ Hw x a y Hx Ha) as (_ & Hy & Hle). rewrite Hq, app_nil_r in Hy. destruct (IH Hy) as [? ?]. split; [done|lia].
Qed.

Lemma routing_run_walk b : walkable -> exists r P, routing_run o b = Some r /\ run_queue r = [] /\ walk (all_of P) P r /\ all_served P r.
Proof.
  intros Hr. unfold routing_run. rewrite (rr_own Hr). cbn [mbind option_bind].
  apply (exec_loop_walk _ []); [done|by apply walk_start| |cbn; lia]. intros c a ?%elem_of_nil. done.
Qed.

Lemma routing_run_best P r x : walk (all_of P) P r -> run_queue r = [] -> x ∈ nid <$> nodes o -> x ≠ own ->
  (next_hop (run_bfs r x) ≠ None <-> rtc hop own x) /\ (rtc hop own x -> best_route (run_bfs r x) x).
Proof.
  intros Hw Hq Hx Hxo. assert (Hown : own ∈ P) by (pose proof (wk_own _ _ _ Hw) as H; by rewrite Hq, app_nil_r in H).
  assert (Hin : rtc hop own x <-> x ∈ P).
  { split; [intros [k Hk]%rtc_nsteps; by eapply walk_closed_end|]. intros Hp. apply rtc_nsteps.
    destruct (wk_routed _ _ _ Hw x) as [? _]; [rewrite Hq, app_nil_r; done|eauto]. }
  split; [rewrite Hin, (wk_mark _ _ _ Hw x Hx Hxo), Hq, app_nil_r; done|]. intros Hrtc. rewrite Hin in Hrtc.
  destruct (wk_routed _ _ _ Hw x) as [_ Hz]; [by rewrite Hq, app_nil_r|]. destruct (Hz Hxo) as (z & p & i & He & Hs & Hpos & Hn & Hi).
  exists z, p, i. split_and!; try done. intros k Hk. destruct (walk_closed_end P r k own x) as [_ ?]; [done..|]. rewrite (wk_own_hops _ _ _ Hw) in *. lia.
Qed.

End bfs.
