(* ===== verification/HncpRoutingProps.v ===== *)
(** What the routing of HNCP guarantees: the walk finds the shortest paths, and the script
    is always configured with the interfaces that are on. *)
From S2P Require Import Prelude Bitops Prefix Tlv DncpNotify DncpIndex DncpState Dncp DncpFacts DncpProto DncpTimeout DncpPrune DncpProps DncpExample Hncp HncpElect HncpRouting HncpBfs.

(** ** The walk *)

Section props.
Context `{DX : !DncpExt, DC : !DncpCallbacks, RH : !RouteHost}.


End props.

(** ** Scheduling *)

Section scheduling.
Context `{DX : !DncpExt, DC : !DncpCallbacks}.
Implicit Types h : hncp_bfs.

(** What may happen to the routing after its creation: the flags of interfaces may differ each time.  The last
    argument is the interface state that was told last. *)
Inductive route_op :=
| RoIntiface (RH : RouteHost) (ifname : list Z) (enable : bool)
| RoIntaddr (now : Z) (addr4 : bool)
| RoTlv (now : Z) (t : attr)
| RoConfigureDone
| RoTimer (RH : RouteHost) (o : dncp) (b : node_id -> bfs) (forked : bool)
| RoRoutingDone (RH : RouteHost) (o : dncp) (b : node_id -> bfs) (forked : bool).

Definition route_op_run (op : route_op) h : hncp_bfs * list route_event :=
  match op with
  | RoIntiface _ i en => hncp_routing_intiface h i en
  | RoIntaddr now a => (hncp_routing_intaddr now a h, [])
  | RoTlv now t => (hncp_routing_cb now t h, [])
  | RoConfigureDone => configure_done h
  | RoTimer _ o b f => hncp_routing_schedule o b f h
  | RoRoutingDone _ o b f => routing_done o b f h
  end.

(** A process ends only while it runs. *)
Definition route_op_ok (op : route_op) h : bool :=
  match op with RoConfigureDone => configure_proc h | RoRoutingDone _ _ _ _ => routing_proc h | _ => true end.

Definition routes_on (op : route_op) (want : list Z -> bool) : list Z -> bool :=
  match op with
  | RoIntiface _ i en => fun x => if decide (x = i) then en && match iface_flags i with Some fl => negb (has_flag fl IFACE_FLAG_LEAF) | None => false end else want x
  | _ => want
  end.

Fixpoint route_ops (ops : list route_op) h (log : list route_event) (want : list Z -> bool) : option (hncp_bfs * list route_event * (list Z -> bool)) :=
  match ops with
  | [] => Some (h, log, want)
  | op :: ops => if route_op_ok op h then let '(h', es) := route_op_run op h in route_ops ops h' (log ++ es) (routes_on op want) else None
  end.

(** The interfaces of the last configure run; none before the first. *)
Definition configured (log : list route_event) : list (list Z) :=
  default [] (last (omap (fun e => match e with RunConfigure l => Some l | RunRouting _ => None end) log)).

Record scheduled h (log : list route_event) (want : list Z -> bool) : Prop := {
  sc_nodup : NoDup (ifaces h);
  sc_want x : x ∈ ifaces h <-> want x = true;
  sc_waits : configure_pending h = true -> configure_proc h = true;
  sc_current : configure_pending h = false -> configured log = ifaces h;
  sc_script : is_Some (hb_script h);
  sc_routing : routing_pending h = true -> routing_proc h = true
}.

Lemma iface_index_Some x l i : iface_index x l = Some i -> l !! i = Some x.
Proof. unfold iface_index. intros ([k y] & (Hk & -> & _)%list_find_Some & ->)%fmap_Some. done. Qed.

Lemma iface_index_None x l : iface_index x l = None -> x ∉ l.
Proof. unfold iface_index. intros H%fmap_None Hx. rewrite list_find_None, Forall_forall in H. by eapply H. Qed.

(** The last entry takes the place of the removed one. *)
Lemma swap_remove_spec i x l : l !! i = Some x -> NoDup l ->
  NoDup (swap_remove i l) /\ forall y, y ∈ swap_remove i l <-> y ∈ l /\ y ≠ x.
Proof.
  intros Hi Hnd. unfold swap_remove. destruct l as [|z l _] using rev_ind; [done|]. rewrite last_snoc, length_app. cbn [length].
  rewrite Nat.add_sub. apply NoDup_app in Hnd as (Hl & Hz & _). assert (Hzl : z ∉ l) by (intros H; apply (Hz z H); by left).
  destruct (decide (i = length l)) as [->|Hne].
  - rewrite list_lookup_middle in Hi by done. simplify_eq. rewrite list_insert_id by (by apply list_lookup_middle).
    rewrite take_app_length. split; [done|]. intros y. rewrite elem_of_app, list_elem_of_singleton. split; [|tauto].
    intros Hy. split; [by left|]. by intros ->.
  - assert (Hlt : (i < length l)%nat) by (apply lookup_lt_Some in Hi; rewrite length_app in Hi; cbn in Hi; lia).
    rewrite lookup_app_l in Hi by lia. rewrite insert_app_l by lia. rewrite <- (length_insert l i z), take_app_length.
    pose proof (take_drop_middle l i x Hi) as Hd. rewrite (insert_take_drop l i z Hlt). rewrite <- Hd in Hl, Hzl.
    apply NoDup_app in Hl as (H1 & H2 & [H3 H4]%NoDup_cons). rewrite elem_of_app, elem_of_cons in Hzl.
    split.
    + apply NoDup_app. split_and!; [done| |].
      * intros y Hy [->|?]%elem_of_cons; [tauto|]. apply (H2 y Hy). by right.
      * apply NoDup_cons. split; [tauto|done].
    + intros y. rewrite <- Hd at 3. rewrite !elem_of_app, !elem_of_cons, elem_of_nil. split.
      * intros Hy. split; [tauto|]. intros ->. destruct Hy as [Hy|[->|Hy]]; [apply (H2 x Hy); by left|tauto|tauto].
      * tauto.
Qed.

Lemma configured_snoc log l : configured (log ++ [RunConfigure l]) = l.
Proof. unfold configured. rewrite omap_app. cbn. by rewrite last_snoc. Qed.

Lemma configured_other log e : (forall l, e ≠ RunConfigure l) -> configured (log ++ [e]) = configured log.
Proof. intros He. unfold configured. rewrite omap_app. destruct e as [l|c]; [by destruct (He l)|]. cbn. by rewrite app_nil_r. Qed.

(** After a change of the interfaces the script is run, or will be when it has ended. *)
Lemma configure_exec_scheduled h log want : NoDup (ifaces h) -> (forall x, x ∈ ifaces h <-> want x = true) -> is_Some (hb_script h) ->
  (routing_pending h = true -> routing_proc h = true) -> (configure_pending h = false -> configured log = ifaces h) ->
  scheduled (hncp_configure_exec h).1 (log ++ (hncp_configure_exec h).2) want.
Proof.
  intros Hnd Hw Hs Hr Hc. unfold hncp_configure_exec. destruct (configure_pending h) eqn:Ep, (configure_proc h) eqn:Ec; cbn [andb negb fst snd].
  - rewrite app_nil_r. split; try done; rewrite Ep; try done.
  - split; try done. intros _. by rewrite configured_snoc.
  - rewrite app_nil_r. split; try done; rewrite Ep; auto.
  - rewrite app_nil_r. split; try done; rewrite Ep; by auto.
Qed.

Lemma intiface_scheduled `{RH : !RouteHost} h log want i en : scheduled h log want ->
  scheduled (hncp_routing_intiface h i en).1 (log ++ (hncp_routing_intiface h i en).2) (routes_on (RoIntiface RH i en) want).
Proof.
  intros [Hnd Hw Hwt Hc [s Hs] Hr]. unfold hncp_routing_intiface, routes_on. cbv zeta.
  set (on := en && _). destruct on eqn:Eon, (iface_index i (ifaces h)) as [k|] eqn:Ei; cbn [fst snd].
  - rewrite app_nil_r. split; try done. intros x. case_decide as E; [|apply Hw]. subst x. split; [done|]. intros _.
    apply iface_index_Some in Ei. by eapply list_elem_of_lookup_2.
  - cbn [hb_script set_ifaces]. rewrite Hs, bool_decide_true by done. apply iface_index_None in Ei.
    apply configure_exec_scheduled; cbn; [| |by eexists|done|done].
    + apply NoDup_app. split_and!; [done| |apply NoDup_singleton]. by intros x Hx ->%list_elem_of_singleton.
    + intros x. rewrite elem_of_app, list_elem_of_singleton. case_decide as E; [tauto|]. rewrite <- Hw. tauto.
  - cbn [hb_script set_ifaces]. rewrite Hs, bool_decide_true by done. apply iface_index_Some in Ei.
    destruct (swap_remove_spec k i (ifaces h) Ei Hnd) as [Hnd' Hin]. apply configure_exec_scheduled; cbn; [done| |by eexists|done|done].
    intros x. rewrite Hin. case_decide as E; [by split; [intros []|]|]. rewrite <- Hw. tauto.
  - rewrite app_nil_r. split; try done. intros x. case_decide as E; [|apply Hw]. subst x. split; [|done]. intros Hx.
    by apply iface_index_None in Ei.
Qed.

Lemma routing_exec_scheduled `{RH : !RouteHost} o b f h log want : NoDup (ifaces h) -> (forall x, x ∈ ifaces h <-> want x = true) -> is_Some (hb_script h) ->
  (configure_pending h = true -> configure_proc h = true) -> (configure_pending h = false -> configured log = ifaces h) ->
  scheduled (hncp_routing_exec o b f h).1 (log ++ (hncp_routing_exec o b f h).2) want.
Proof.
  intros Hnd Hw Hs Hp Hc. unfold hncp_routing_exec. destruct (routing_pending h) eqn:Ep, (routing_proc h) eqn:Er; cbn [andb negb fst snd];
    rewrite ?app_nil_r; try (split; try done; rewrite Ep; by auto). destruct f; rewrite ?app_nil_r; split; try done.
  intros ?. rewrite configured_other by done. auto.
Qed.

Lemma route_op_scheduled op h log want : scheduled h log want -> route_op_ok op h = true ->
  scheduled (route_op_run op h).1 (log ++ (route_op_run op h).2) (routes_on op want).
Proof.
  intros Hsc Hok. destruct op as [RH i en|now a|now t| |RH o b f|RH o b f]; cbn [route_op_run routes_on fst snd].
  - by apply intiface_scheduled.
  - rewrite app_nil_r. unfold hncp_routing_intaddr. destruct a, Hsc; by split.
  - rewrite app_nil_r. unfold hncp_routing_cb. case_decide; destruct Hsc; by split.
  - destruct Hsc. apply configure_exec_scheduled; done.
  - destruct Hsc. apply routing_exec_scheduled; done.
  - destruct Hsc. apply routing_exec_scheduled; done.
Qed.

Lemma route_ops_scheduled ops : forall h log want h1 log1 want1, scheduled h log want ->
  route_ops ops h log want = Some (h1, log1, want1) -> scheduled h1 log1 want1.
Proof.
  induction ops as [|op ops IH]; intros h log want h1 log1 want1 Hsc Hops; cbn in Hops; [by simplify_eq|].
  destruct (route_op_ok op h) eqn:Eok; [|done]. pose proof (route_op_scheduled op h log want Hsc Eok) as Hsc1.
  destruct (route_op_run op h) as [h2 es]. by eapply IH.
Qed.

Lemma created_scheduled script incr : scheduled (mk_hncp_bfs (Some script) [] false false false false None incr) [] (fun _ => false).
Proof. split; try done; [apply NoDup_nil_2|]. intros x. split; [by intros ?%elem_of_nil|done]. Qed.

(** C32: After any sequence of interface changes, ends of processes and routing runs, the list
    of interfaces has no duplicates and holds exactly those that were last reported as
    internal and not a leaf; when no configure process runs, the last one was started with
    exactly this list; and no routing run is pending while none is running. *)
Theorem routing_configured_exactly ops o s script incr o1 h0 h log want :
  hncp_routing_create o s (Some script) incr = Some (o1, h0) -> route_ops ops h0 [] (fun _ => false) = Some (h, log, want) ->
  NoDup (ifaces h) /\ (forall x, x ∈ ifaces h <-> want x = true) /\
  (configure_proc h = false -> configured log = ifaces h) /\ (routing_proc h = false -> routing_pending h = false).
Proof.
  intros Hcr Hops. assert (Hsc : scheduled h0 [] (fun _ => false)).
  { unfold hncp_routing_create in Hcr. destruct incr; [apply bind_Some in Hcr as (o2 & _ & Hcr)|]; apply (inj Some) in Hcr;
    injection Hcr as _ <-; apply created_scheduled. }
  pose proof (route_ops_scheduled _ _ _ _ _ _ _ Hsc Hops) as Hend.
  destruct Hend. split_and!; try done.
  - intros Hp. apply sc_current0. destruct (configure_pending h); [|done]. rewrite sc_waits0 in Hp; done.
  - intros Hp. destruct (routing_pending h); [|done]. rewrite sc_routing0 in Hp; done.
Qed.

End scheduling.

(** ** Witnesses *)

#[local] Existing Instance toy_ext.
#[local] Existing Instance toy_cb.
#[local] Existing Instances by_type_dec tlvs_ok_dec tlvs_sorted_dec data_ok_dec.

(** Every interface is internal, and has an IPv4 address. *)
#[local] Instance plain_host : RouteHost := {| iface_flags := fun _ => Some IFACE_FLAG_INTERNAL; iface_has_ipv4_address := fun _ => true |}.

Definition route_state : dncp := joined_up.



Definition no_bfs (_ : node_id) : bfs := mk_bfs None None None 0.


(** The neighbour is reached at the address it was heard from. *)
Lemma route_state_next_hop : (r ← routing_run route_state no_bfs; Some (hopcount (run_bfs r peer_id), bfs_ifname (run_bfs r peer_id))) = Some (1, Some [101]).
Proof. vm_compute. reflexivity. Qed.

Definition two_links : list route_op :=
  [RoIntiface plain_host [101] true; RoIntiface plain_host [102] true; RoConfigureDone; RoIntiface plain_host [101] false; RoConfigureDone; RoConfigureDone].

Definition two_links_end : hncp_bfs * list route_event * (list Z -> bool) :=
  default (mk_hncp_bfs None [] false false false false None false, [], fun _ => false)
    (route_ops two_links (mk_hncp_bfs (Some [115]) [] false false false false None false) [] (fun _ => false)).

Lemma routing_configured_exactly_witness : ifaces two_links_end.1.1 = [[102]] /\ configured two_links_end.1.2 = ifaces two_links_end.1.1.
Proof.
  split; [vm_compute; reflexivity|].
  destruct (routing_configured_exactly two_links (dncp_zero 0) (mk_subscriber 9 []) [115] false (dncp_zero 0)
    (mk_hncp_bfs (Some [115]) [] false false false false None false) two_links_end.1.1 two_links_end.1.2 two_links_end.2) as (_ & _ & H & _);
    [reflexivity|vm_compute; reflexivity|]. apply H. vm_compute. reflexivity.
Defined.
