(* ===== verification/DncpTrust.v ===== *)
(** Trust in certificates: the model of [src/dncp_trust.c], with the types of
    [src/dncp_proto.h] and [dncp_tlv_trust_verdict] of [src/dncp_util.h].

    The verdicts on certificates are kept in a tree, ordered by the hash of the
    certificate, published as TLVs, and saved to a file.  MD5, SHA-256 and the
    encoding of certificates are parameters. *)
From S2P Require Import Prelude Bitops Prefix Tlv DncpNotify DncpIndex DncpState Dncp.

(** ** Verdicts *)

Definition DNCP_T_TRUST_VERDICT : nat := 10.

(** [dncp_trust_verdict]. *)
Definition DNCP_VERDICT_NONE : Z := -1.
Definition DNCP_VERDICT_NEUTRAL : Z := 0.
Definition DNCP_VERDICT_CACHED_POSITIVE : Z := 1.
Definition DNCP_VERDICT_CACHED_NEGATIVE : Z := 2.
Definition DNCP_VERDICT_CONFIGURED_POSITIVE : Z := 3.
Definition DNCP_VERDICT_CONFIGURED_NEGATIVE : Z := 4.
Definition NUM_DNCP_VERDICT : Z := 5.

Definition DNCP_SHA256_LEN : nat := 32.
Definition DNCP_T_TRUST_VERDICT_CNAME_LEN : nat := 64.

Definition SAVE_INTERVAL : Z := 1000.
Definition NEUTRAL_MAXIMUM : Z := 10.
Definition SAVE_VERSION : Z := 1.

(** Bytes of a [dncp_t_trust_verdict_s] without the name: verdict, three reserved
    bytes, hash. *)
Definition trust_header_len : nat := 4 + DNCP_SHA256_LEN.

(** Fields of a [dncp_t_trust_verdict_s]. *)
Definition tv_verdict (d : list Z) : Z := default 0 (d !! 0%nat).
Definition tv_hash (d : list Z) : list Z := take DNCP_SHA256_LEN (drop 4 d).
Definition tv_cname (d : list Z) : list Z := drop trust_header_len d.

(** The string in a buffer: the bytes before the first zero; [None] without one. *)
Definition c_string (buf : list Z) : option (list Z) := n ← strlen buf; Some (take n buf).

(** The payload, if it is a verdict: it has a name, that fits its buffer and is
    terminated. *)
Definition dncp_tlv_trust_verdict (a : attr) : option (list Z) :=
  let '(id, d) := a in
  if decide (id ≠ Z.of_nat DNCP_T_TRUST_VERDICT) then None
  else if decide (length d < trust_header_len + 1)%nat then None
  else if decide (trust_header_len + DNCP_T_TRUST_VERDICT_CNAME_LEN < length d)%nat then None
  else if decide (d !! (length d - 1)%nat = Some 0) then Some d else None.

Definition dncp_trust_verdict_to_string (verdict : Z) : string :=
  if decide (verdict = DNCP_VERDICT_NONE) then "none"
  else if decide (verdict = DNCP_VERDICT_NEUTRAL) then "neutral"
  else if decide (verdict = DNCP_VERDICT_CACHED_POSITIVE) then "cached-positive"
  else if decide (verdict = DNCP_VERDICT_CACHED_NEGATIVE) then "cached-negative"
  else if decide (verdict = DNCP_VERDICT_CONFIGURED_POSITIVE) then "positive"
  else if decide (verdict = DNCP_VERDICT_CONFIGURED_NEGATIVE) then "negative"
  else "unknown".

(** The loop over the verdicts, from [i]. *)
Fixpoint verdict_search (k : nat) (i : Z) (s : string) : Z :=
  match k with
  | O => DNCP_VERDICT_NONE
  | S k => if decide (s = dncp_trust_verdict_to_string i) then i else verdict_search k (i + 1) s
  end.

Definition dncp_trust_verdict_from_string (s : string) : Z :=
  if decide (s = "1"%string) then DNCP_VERDICT_CONFIGURED_POSITIVE
  else if decide (s = "0"%string) then DNCP_VERDICT_CONFIGURED_NEGATIVE
  else verdict_search (Z.to_nat (NUM_DNCP_VERDICT + 1)) (-1) s.

(** ** State *)

(** [dncp_trust_stored_s]: the bytes of the header and of [char cname[64]], as they are saved. *)
Definition stored_len : nat := trust_header_len + DNCP_T_TRUST_VERDICT_CNAME_LEN.

(** [struct dncp_trust_struct].  [t_tree] are the stored bytes of the nodes, in order.
    [t_times] are the extra bytes of the published TLVs: when each was published.
    [t_file] is the content of the file; [t_timeout] the time of a pending timer. *)
Record trust := mk_trust {
  t_dncp : dncp;
  t_filename : bool;
  t_file : option (list Z);
  t_file_hash : list Z;
  t_tree : list (list Z);
  t_times : list (attr * Z);
  t_timeout : option Z;
  num_neutral : Z;
  trust_until : Z
}.

Implicit Type t : trust.

Definition set_t_dncp v t : trust := mk_trust v (t_filename t) (t_file t) (t_file_hash t) (t_tree t) (t_times t) (t_timeout t) (num_neutral t) (trust_until t).
Definition set_t_file v t : trust := mk_trust (t_dncp t) (t_filename t) v (t_file_hash t) (t_tree t) (t_times t) (t_timeout t) (num_neutral t) (trust_until t).
Definition set_t_file_hash v t : trust := mk_trust (t_dncp t) (t_filename t) (t_file t) v (t_tree t) (t_times t) (t_timeout t) (num_neutral t) (trust_until t).
Definition set_t_tree v t : trust := mk_trust (t_dncp t) (t_filename t) (t_file t) (t_file_hash t) v (t_times t) (t_timeout t) (num_neutral t) (trust_until t).
Definition set_t_times v t : trust := mk_trust (t_dncp t) (t_filename t) (t_file t) (t_file_hash t) (t_tree t) v (t_timeout t) (num_neutral t) (trust_until t).
Definition set_t_timeout v t : trust := mk_trust (t_dncp t) (t_filename t) (t_file t) (t_file_hash t) (t_tree t) (t_times t) v (num_neutral t) (trust_until t).
Definition set_num_neutral v t : trust := mk_trust (t_dncp t) (t_filename t) (t_file t) (t_file_hash t) (t_tree t) (t_times t) (t_timeout t) v (trust_until t).
Definition set_trust_until v t : trust := mk_trust (t_dncp t) (t_filename t) (t_file t) (t_file_hash t) (t_tree t) (t_times t) (t_timeout t) (num_neutral t) v.

(** A certificate: its DER encoding, and its subject as [X509_NAME_oneline] prints it
    into a buffer of 64 bytes. *)
Record cert := mk_cert { cert_der : list Z; cert_subject : list Z }.

Class TrustHost := { md5 : list Z -> list Z; sha256 : list Z -> list Z }.

Section trust.
Context `{DX : !DncpExt, DC : !DncpCallbacks, TH : !TrustHost}.

(** ** The tree *)

(** [_compare_trust_node]. *)
Definition _compare_trust_node (a b : list Z) : Z := memcmp (tv_hash a) (tv_hash b).

Definition _trust_node_find t (h : list Z) : option (list Z) := snd <$> list_find (fun n => tv_hash n = h) (t_tree t).

Fixpoint insert_trust (n : list Z) (l : list (list Z)) : list (list Z) :=
  match l with
  | [] => [n]
  | m :: l => if decide (_compare_trust_node n m < 0) then n :: m :: l else m :: insert_trust n l
  end.

(** Write a node of the tree back. *)
Definition put_trust (n : list Z) t : trust :=
  set_t_tree ((fun m => if decide (tv_hash m = tv_hash n) then n else m) <$> t_tree t) t.

(** The nodes whose verdict is not neutral. *)
Definition lasting (l : list (list Z)) : list (list Z) := filter (fun n => tv_verdict n ≠ DNCP_VERDICT_NEUTRAL) l.

(** The hash fills the first 16 of 32 bytes. *)
Definition _trust_calculate_hash t : list Z := take 16 (md5 (concat (lasting (t_tree t)))) ++ replicate 16 0.

(** ** Verdicts of others *)

(** The verdict on [h] so far, the node it is from, and the name. *)
Definition remote_best : Type := Z * option node_id * list Z.

Fixpoint remote_scan (h : list Z) (ni : node_id) (ts : list attr) (best : remote_best) : option remote_best :=
  match ts with
  | [] => Some best
  | a :: ts =>
    match dncp_tlv_trust_verdict a with
    | None => remote_scan h ni ts best
    | Some d =>
      if decide (tv_hash d = h /\ best.1.1 < tv_verdict d) then
        cname ← c_string (tv_cname d);
        remote_scan h ni ts (tv_verdict d, Some ni, cname)
      else remote_scan h ni ts best
    end
  end.

Fixpoint remote_nodes (h : list Z) (o : dncp) (ns : list node) (best : remote_best) : option (dncp * remote_best) :=
  match ns with
  | [] => Some (o, best)
  | n :: ns =>
    if dncp_node_is_self o (nid n) then remote_nodes h o ns best
    else
      '(o, ts) ← node_tlvs_of_type o n DNCP_T_TRUST_VERDICT;
      best ← remote_scan h (nid n) ts best;
      remote_nodes h o ns best
  end.

Definition _trust_get_remote_verdict t (h : list Z) : option (trust * remote_best) :=
  '(o, best) ← remote_nodes h (t_dncp t) (reachable_nodes (t_dncp t)) (DNCP_VERDICT_NONE, None, []);
  Some (set_t_dncp o t, best).

(** The verdict and the name. *)
Definition dncp_trust_get_verdict t (h : list Z) : option (trust * (Z * list Z)) :=
  let tn := _trust_node_find t h in
  let verdict2 := match tn with Some n => tv_verdict n | None => DNCP_VERDICT_NONE end in
  '(t, (verdict, _, cname)) ← _trust_get_remote_verdict t h;
  if decide (verdict2 < verdict) then Some (t, (verdict, cname))
  else
    match tn with
    | Some n => cname ← c_string (tv_cname n); Some (t, (verdict2, cname))
    | None => Some (t, (verdict2, cname))
    end.

(** ** Publishing *)

Definition _find_local_tlv (o : dncp) (h : list Z) : option ltlv :=
  snd <$> list_find (fun u => tv_hash <$> dncp_tlv_trust_verdict (tlv u) = Some h) (tlvs o).

(** The bytes of a node that are published: up to the end of the name. *)
Definition published_data (n : list Z) : option (list Z) :=
  len ← strlen (tv_cname n);
  Some (take (trust_header_len + len + 1) n).

(** [hnetd_time()]. *)
Definition trust_time t : Z := clock (t_dncp t).

(** Our verdict is better, or it is the same and our identifier is higher. *)
Definition worth_publishing t (n : list Z) (best : remote_best) : option bool :=
  let '(remote_verdict, rn, _) := best in
  if decide (remote_verdict < tv_verdict n) then Some true
  else if decide (remote_verdict = tv_verdict n) then
    own ← own_node (t_dncp t);
    rn ← rn;
    Some (bool_decide (0 < memcmp own rn))
  else Some false.

Definition add_verdict_tlv t (d : list Z) : trust :=
  let o := dncp_add_tlv (t_dncp t) DNCP_T_TRUST_VERDICT d None in
  let a := (Z.of_nat DNCP_T_TRUST_VERDICT, d) in
  set_t_times ((a, trust_time t) :: filter (fun x => x.1 ≠ a) (t_times t)) (set_t_dncp o t).

Definition _trust_publish_maybe t (n : list Z) : option trust :=
  d ← published_data n;
  '(t, best) ← _trust_get_remote_verdict t (tv_hash n);
  let local := _find_local_tlv (t_dncp t) (tv_hash n) in
  worth ← worth_publishing t n best;
  if worth : bool then
    match local with
    | Some u =>
      if decide (tv_verdict (tlv u).2 = tv_verdict n) then Some t
      else Some (add_verdict_tlv (set_t_dncp (dncp_remove_tlv (t_dncp t) (Some u)) t) d)
    | None => Some (add_verdict_tlv t d)
    end
  else Some (set_t_dncp (dncp_remove_tlv (t_dncp t) local) t).

(** [_update_trust_node] for a node that leaves the tree. *)
Definition _update_trust_node t (n : list Z) : option trust :=
  d ← published_data n;
  let t := set_t_dncp (dncp_remove_tlv_matching (t_dncp t) DNCP_T_TRUST_VERDICT d) t in
  Some (if decide (tv_verdict n = DNCP_VERDICT_NEUTRAL) then set_num_neutral (num_neutral t - 1) t else t).

Definition vlist_delete_trust t (n : list Z) : option trust :=
  _update_trust_node (set_t_tree (filter (fun m => tv_hash m ≠ tv_hash n) (t_tree t)) t) n.

(** ** Changes *)

(** [strcpy(tn->stored.cname, cname)]. *)
Definition strcpy_cname (n cname : list Z) : option (list Z) := wrn n trust_header_len (cname ++ [0]).

(** A new node: zeros and the hash. *)
Definition new_trust_node (h : list Z) : list Z := replicate 4 0 ++ h ++ replicate DNCP_T_TRUST_VERDICT_CNAME_LEN 0.

(** The end of [_trust_set]: the node gets the verdict, and the name if there is one. *)
Definition trust_assign t (n : list Z) (verdict : Z) (cname : list Z) : option trust :=
  n ← wr n 0 verdict;
  n ← (if decide (cname = []) then Some n else strcpy_cname n cname);
  let t := put_trust n t in
  let t := if decide (verdict = DNCP_VERDICT_NEUTRAL) then set_num_neutral (num_neutral t + 1) t else t in
  Some (set_t_timeout (Some (trust_time t + SAVE_INTERVAL)) t).

(** [NULL] for the name is the empty one. *)
Definition _trust_set t (h : list Z) (verdict : Z) (cname : option (list Z)) : option (trust * bool) :=
  let cname := default [] cname in
  match _trust_node_find t h with
  | Some n =>
    s ← c_string (tv_cname n);
    if decide (tv_verdict n = verdict /\ (s = cname \/ cname = [])) then Some (t, false)
    else
      let t := if decide (tv_verdict n = DNCP_VERDICT_NEUTRAL) then set_num_neutral (num_neutral t - 1) t else t in
      t ← trust_assign t n verdict cname;
      Some (t, true)
  | None =>
    let n := new_trust_node h in
    t ← trust_assign (set_t_tree (insert_trust n (t_tree t)) t) n verdict cname;
    Some (t, true)
  end.

Definition dncp_trust_set t (h : list Z) (verdict : Z) (cname : option (list Z)) : option trust :=
  '(t, changed) ← _trust_set t h verdict cname;
  if changed : bool then n ← _trust_node_find t h; _trust_publish_maybe t n else Some t.

(** What a verdict of another node is worth here. *)
Definition cached_verdict (v : Z) : Z :=
  if decide (v = DNCP_VERDICT_CONFIGURED_POSITIVE) then DNCP_VERDICT_CACHED_POSITIVE
  else if decide (v = DNCP_VERDICT_CONFIGURED_NEGATIVE) then DNCP_VERDICT_CACHED_NEGATIVE
  else DNCP_VERDICT_NEUTRAL.

Definition _tlv_cb t (ni : node_id) (a : attr) : option trust :=
  match dncp_tlv_trust_verdict a with
  | None => Some t
  | Some d =>
    if dncp_node_is_self (t_dncp t) ni then Some t
    else
      let local_verdict := cached_verdict (tv_verdict d) in
      let tn := _trust_node_find t (tv_hash d) in
      if match tn with Some n => bool_decide (tv_verdict n < local_verdict) | None => true end then
        cname ← c_string (tv_cname d);
        '(t, changed) ← _trust_set t (tv_hash d) local_verdict (Some cname);
        if negb changed then Some t
        else if decide (local_verdict = DNCP_VERDICT_NEUTRAL) then Some t
        else n ← _trust_node_find t (tv_hash d); _trust_publish_maybe t n
      else n ← tn; _trust_publish_maybe t n
  end.

(** The neutral node that has been published for the longest time, among [l]. *)
Fixpoint oldest_neutral t (l : list (list Z)) (best : option (Z * list Z)) : option (option (list Z)) :=
  match l with
  | [] => Some (snd <$> best)
  | n :: l =>
    if decide (tv_verdict n ≠ DNCP_VERDICT_NEUTRAL) then oldest_neutral t l best
    else
      match _find_local_tlv (t_dncp t) (tv_hash n) with
      | None => oldest_neutral t l best
      | Some u =>
        x ← list_find (fun x => x.1 = tlv u) (t_times t);
        let time := x.2.2 in
        oldest_neutral t l (match best with
                            | Some (ole, otn) => if decide (time < ole) then Some (time, n) else best
                            | None => Some (time, n)
                            end)
      end
  end.

(** The loop of [dncp_trust_request_verdict]: each round removes a node, so there are
    not more rounds than nodes. *)
Fixpoint limit_neutral (fuel : nat) t : option trust :=
  if decide (num_neutral t <= NEUTRAL_MAXIMUM) then Some t
  else
    otn ← oldest_neutral t (t_tree t) None;
    match otn with
    | None => Some t
    | Some n =>
      match fuel with
      | O => None
      | S fuel => t ← vlist_delete_trust t n; limit_neutral fuel t
      end
    end.

Definition dncp_trust_request_verdict t (h : list Z) (cname : list Z) : option trust :=
  '(t, (verdict, _)) ← dncp_trust_get_verdict t h;
  if decide (DNCP_VERDICT_NEUTRAL < verdict) then Some t
  else
    t ← dncp_trust_set t h DNCP_VERDICT_NEUTRAL (Some cname);
    limit_neutral (length (t_tree t)) t.

(** ** Certificates *)

(** [_trust_get_cert_verdict]; the buffer for the encoding has 2048 bytes. *)
Definition _trust_get_cert_verdict t (c : cert) : option (trust * Z) :=
  let r := length (cert_der c) in
  if decide (r = 0 \/ 2048 <= r)%nat then Some (t, DNCP_VERDICT_NONE)
  else
    let h := sha256 (cert_der c) in
    '(t, (verdict, _)) ← dncp_trust_get_verdict t h;
    '(t, verdict) ←
      (if decide (verdict < DNCP_VERDICT_CONFIGURED_POSITIVE /\ trust_time t <= trust_until t) then
         t ← dncp_trust_set t h DNCP_VERDICT_CONFIGURED_POSITIVE (Some (cert_subject c));
         Some (t, DNCP_VERDICT_CONFIGURED_POSITIVE)
       else Some (t, verdict));
    if decide (verdict ≠ DNCP_VERDICT_NONE) then Some (t, verdict)
    else
      t ← dncp_trust_request_verdict t h (cert_subject c);
      Some (t, DNCP_VERDICT_NEUTRAL).

Definition dncp_trust_dtls_unknown_cb t (c : cert) : option (trust * bool) :=
  '(t, verdict) ← _trust_get_cert_verdict t c;
  Some (t, bool_decide (verdict = DNCP_VERDICT_CACHED_POSITIVE \/ verdict = DNCP_VERDICT_CONFIGURED_POSITIVE)).

(** ** The file *)

(** The records of a file; a partial one at the end is dropped.  A record with the
    hash of an earlier one would replace a node that stays in the tree after it is
    freed ([keep_old]): that is undefined. *)
Fixpoint load_records (fuel : nat) t (f : list Z) : option trust :=
  match fuel with
  | O => Some t
  | S fuel =>
    if decide (length f < stored_len)%nat then Some t
    else
      let n := take stored_len f in
      match _trust_node_find t (tv_hash n) with
      | Some _ => None
      | None =>
        t ← _trust_publish_maybe (set_t_tree (insert_trust n (t_tree t)) t) n;
        load_records fuel t (drop stored_len f)
      end
  end.

Definition _trust_load t : option trust :=
  match t_filename t, t_file t with
  | true, Some (v :: f) => if decide (v = SAVE_VERSION) then load_records (length f) t f else Some t
  | _, _ => Some t
  end.

(** [opened] tells whether the file could be opened; writes to an open file succeed. *)
Definition _trust_save t (opened : bool) : trust :=
  if t_filename t then
    let oh := t_file_hash t in
    let t := set_t_file_hash (_trust_calculate_hash t) t in
    if decide (oh = t_file_hash t) then t
    else if opened then set_t_file (Some (SAVE_VERSION :: concat (lasting (t_tree t)))) t
    else t
  else t.

(** The timer has expired. *)
Definition _trust_write_cb t (opened : bool) : trust := _trust_save (set_t_timeout None t) opened.

(** [file] is the content of the file, if the name is given and it exists.  The calls of
    [_tlv_cb] that subscribing makes are those of a subscriber. *)
Definition dncp_trust_create (o : dncp) (filename : bool) (file : option (list Z)) (s : subscriber) : option trust :=
  let t := mk_trust o filename file (replicate 32 0) [] [] None 0 0 in
  t ← _trust_load t;
  let t := set_t_file_hash (_trust_calculate_hash t) t in
  o ← dncp_subscribe (t_dncp t) s;
  Some (set_t_dncp o t).

(** [vlist_flush_all]. *)
Fixpoint flush_trust t (l : list (list Z)) : option trust :=
  match l with
  | [] => Some t
  | n :: l => t ← vlist_delete_trust t n; flush_trust t l
  end.

Definition dncp_trust_destroy t (opened : bool) (s : subscriber) : option trust :=
  let t := if t_filename t && bool_decide (is_Some (t_timeout t)) then _trust_save t opened else t in
  o ← dncp_unsubscribe (t_dncp t) s;
  let t := set_t_dncp o t in
  flush_trust t (t_tree t).

(** ** Listing and RPC *)

Definition dncp_trust_next_hash t (prev : option (list Z)) : option (list Z) :=
  match prev with
  | None => tv_hash <$> t_tree t !! 0%nat
  | Some h => '(i, _) ← list_find (fun n => tv_hash n = h) (t_tree t); tv_hash <$> t_tree t !! (i + 1)%nat
  end.

(** The hashes that [dncp_trust_for_each_hash] goes through. *)
Fixpoint for_each_hash (fuel : nat) t (prev : option (list Z)) : option (list (list Z)) :=
  match dncp_trust_next_hash t prev with
  | None => Some []
  | Some h =>
    match fuel with
    | O => None
    | S fuel => rest ← for_each_hash fuel t (Some h); Some (h :: rest)
    end
  end.

(** An entry of the listing: hash in hexadecimal, name, verdict. *)
Definition rpc_entry : Type := list Z * list Z * string.

Fixpoint rpc_entries t (hs : list (list Z)) : option (trust * list rpc_entry) :=
  match hs with
  | [] => Some (t, [])
  | h :: hs =>
    '(t, (v, cname)) ← dncp_trust_get_verdict t h;
    buf ← hexlify (replicate (DNCP_SHA256_LEN * 2 + 1) 0) h DNCP_SHA256_LEN;
    '(t, l) ← rpc_entries t hs;
    Some (t, (buf, cname, dncp_trust_verdict_to_string v) :: l)
  end.

Definition _rpc_list t : option (trust * list rpc_entry) :=
  hs ← for_each_hash (length (t_tree t)) t None;
  rpc_entries t hs.

(** An attribute of a request: a string or a 32-bit integer. *)
Inductive rpc_attr := RpcString (name : string) (s : list Z) | RpcInt32 (name : string) (v : Z).

Definition _rpc_set_timer t (l : list rpc_attr) : trust :=
  let seconds := foldl (fun s a => match a with RpcInt32 n v => if decide (n = "timer_value"%string) then v else s | _ => s end) 0 l in
  set_trust_until (trust_time t + seconds * 1000) t.

(** The 32 bits as an [int]. *)
Definition int_of_u32 (v : Z) : Z := if decide (v < 2 ^ 31) then v else v - 2 ^ 32.

(** [true] is success, [false] is [-EINVAL]; the verdict is cut to 8 bits by the call. *)
Definition _rpc_set t (l : list rpc_attr) : option (trust * bool) :=
  let '(hs, verdict) := foldl (fun '(hs, v) a =>
    match a with
    | RpcString n s => if decide (n = "hash"%string) then (Some s, v) else (hs, v)
    | RpcInt32 n x => if decide (n = "verdict"%string) then (hs, int_of_u32 x) else (hs, v)
    end) (None, -1) l in
  match hs with
  | None => Some (t, false)
  | Some hs =>
    if decide (verdict < 0) then Some (t, false)
    else
      '(r, h) ← unhexlify (replicate DNCP_SHA256_LEN 0) DNCP_SHA256_LEN hs;
      if decide (r = Z.of_nat DNCP_SHA256_LEN) then
        t ← dncp_trust_set t h (verdict mod 256) None;
        Some (t, true)
      else Some (t, false)
  end.

End trust.
