(* ===== verification/DncpTrustFacts.v ===== *)
(** The tree of trust verdicts: its order and its records, and the remote verdicts that
    are found in the data of the nodes. *)
From S2P Require Import Prelude Bitops Prefix Tlv DncpNotify DncpIndex DncpState Dncp DncpFacts DncpPrune DncpInv DncpTrust.

(** ** Records *)

(** A record of the tree: 100 bytes with a terminated name. *)
Record stored_ok (n : list Z) : Prop := {
  so_length : length n = stored_len;
  so_verdict : 0 <= tv_verdict n < 256;
  so_hash : bytes_ok (tv_hash n);
  so_name : is_Some (strlen (tv_cname n))
}.

(** A name that fits the buffer. *)
Definition name_ok (c : list Z) : Prop := Forall (fun x => x ≠ 0) c /\ (length c < DNCP_T_TRUST_VERDICT_CNAME_LEN)%nat.

Definition hash_ok (h : list Z) : Prop := length h = DNCP_SHA256_LEN /\ bytes_ok h.

Lemma hash_of_stored n : stored_ok n -> hash_ok (tv_hash n).
Proof. intros [Hl _ Hb _]. split; [|done]. unfold tv_hash. rewrite length_take, length_drop, Hl. vm_compute. reflexivity. Qed.

(** The parts of a record. *)
Lemma stored_parts n : stored_ok n -> exists v r h c, n = v :: r ++ h ++ c /\ length r = 3%nat /\ length h = DNCP_SHA256_LEN /\
  length c = DNCP_T_TRUST_VERDICT_CNAME_LEN /\ tv_verdict n = v /\ tv_hash n = h /\ tv_cname n = c.
Proof.
  intros [Hl _ _ _]. destruct n as [|v n]; [done|]. exists v, (take 3 n), (take 32 (drop 3 n)), (drop 35 n).
  unfold stored_len, trust_header_len, DNCP_SHA256_LEN, DNCP_T_TRUST_VERDICT_CNAME_LEN in *. cbn [length] in Hl.
  split_and!; [|rewrite length_take; lia|rewrite length_take, length_drop; lia|rewrite length_drop; lia|done|done|done].
  f_equal. rewrite <- (take_drop 3 n) at 1. f_equal. rewrite <- (take_drop 32 (drop 3 n)) at 1. by rewrite drop_drop.
Qed.

(** Fields of a record given by its parts. *)
Lemma tv_fields v r h c : length r = 3%nat -> length h = DNCP_SHA256_LEN ->
  tv_verdict (v :: r ++ h ++ c) = v /\ tv_hash (v :: r ++ h ++ c) = h /\ tv_cname (v :: r ++ h ++ c) = c.
Proof.
  intros Hr Hh. split_and!; [done| |].
  - unfold tv_hash. change (drop 4 (v :: r ++ h ++ c)) with (drop 3 (r ++ h ++ c)). rewrite <- Hr, drop_app_length, <- Hh. apply take_app_length.
  - unfold tv_cname. change (drop trust_header_len (v :: r ++ h ++ c)) with (drop 35 (r ++ h ++ c)).
    rewrite (app_assoc r h c). apply drop_app_length'. rewrite length_app, Hr, Hh. reflexivity.
Qed.

Lemma stored_of_parts v r h c : 0 <= v < 256 -> length r = 3%nat -> hash_ok h -> length c = DNCP_T_TRUST_VERDICT_CNAME_LEN ->
  is_Some (strlen c) -> stored_ok (v :: r ++ h ++ c).
Proof.
  intros Hv Hr [Hh Hb] Hc Hs. destruct (tv_fields v r h c Hr Hh) as (E1 & E2 & E3). split; [|by rewrite E1|by rewrite E2|by rewrite E3].
  cbn [length]. rewrite !length_app, Hr, Hh, Hc. reflexivity.
Qed.

Lemma stored_set_verdict n v : stored_ok n -> 0 <= v < 256 ->
  exists n', wr n 0 v = Some n' /\ stored_ok n' /\ tv_hash n' = tv_hash n /\ tv_verdict n' = v /\ tv_cname n' = tv_cname n.
Proof.
  intros Hn Hv. destruct (stored_parts n Hn) as (v0 & r & h & c & -> & Hr & Hh & Hc & E1 & E2 & E3).
  exists (v :: r ++ h ++ c). destruct (tv_fields v r h c Hr Hh) as (F1 & F2 & F3). rewrite E2, E3.
  split_and!; try done. apply stored_of_parts; try done; [split; [done|rewrite <- E2; apply Hn]|]. rewrite <- E3. apply Hn.
Qed.

Lemma stored_set_name n c : stored_ok n -> name_ok c ->
  exists n', strcpy_cname n c = Some n' /\ stored_ok n' /\ tv_hash n' = tv_hash n /\ tv_verdict n' = tv_verdict n /\ c_string (tv_cname n') = Some c.
Proof.
  intros Hn [Hc0 Hcl]. destruct (stored_parts n Hn) as (v & r & h & b & -> & Hr & Hh & Hb & E1 & E2 & E3).
  set (b' := c ++ 0 :: drop (length c + 1) b). assert (Hs : strlen b' = Some (length c)) by (by apply strlen_app).
  assert (Hlb : length b' = DNCP_T_TRUST_VERDICT_CNAME_LEN).
  { unfold b'. rewrite length_app. cbn [length]. rewrite length_drop. unfold DNCP_T_TRUST_VERDICT_CNAME_LEN in *. lia. }
  exists (v :: r ++ h ++ b'). destruct (tv_fields v r h b' Hr Hh) as (F1 & F2 & F3). rewrite E1, E2. split_and!; try done.
  - unfold strcpy_cname. rewrite wrn_Some.
    2: { cbn [length]. rewrite !length_app, Hr, Hh, Hb. cbn [length]. unfold trust_header_len, DNCP_SHA256_LEN, DNCP_T_TRUST_VERDICT_CNAME_LEN in *. lia. }
    f_equal. assert (Ha : forall x, v :: r ++ h ++ x = ((v :: r) ++ h) ++ x) by (intros x; by rewrite <- app_assoc). rewrite !Ha.
    assert (Hp : length ((v :: r) ++ h) = trust_header_len) by (rewrite length_app; cbn [length]; rewrite Hr, Hh; reflexivity).
    rewrite <- Hp, take_app_length, <- drop_drop, drop_app_length. f_equal. unfold b'. rewrite <- (app_assoc c), length_app. done.
  - apply stored_of_parts; try done; [rewrite <- E1; apply Hn|]. split; [done|]. rewrite <- E2. apply Hn.
  - rewrite F3. unfold c_string. rewrite Hs. cbn [mbind option_bind]. f_equal. unfold b'. apply take_app_length.
Qed.

Lemma stored_new h : hash_ok h -> stored_ok (new_trust_node h) /\ tv_hash (new_trust_node h) = h /\ tv_verdict (new_trust_node h) = 0.
Proof.
  intros Hh. change (new_trust_node h) with (0 :: replicate 3 0 ++ h ++ replicate DNCP_T_TRUST_VERDICT_CNAME_LEN 0).
  destruct (tv_fields 0 (replicate 3 0) h (replicate DNCP_T_TRUST_VERDICT_CNAME_LEN 0) eq_refl (proj1 Hh)) as (E1 & E2 & E3).
  split_and!; try done. by apply stored_of_parts.
Qed.

(** What is published of a record is a verdict that others accept. *)
Lemma published_ok n : stored_ok n -> exists d, published_data n = Some d /\
  dncp_tlv_trust_verdict (Z.of_nat DNCP_T_TRUST_VERDICT, d) = Some d /\ tv_hash d = tv_hash n /\ tv_verdict d = tv_verdict n /\
  c_string (tv_cname d) = c_string (tv_cname n) /\ tlv_ok (Z.of_nat DNCP_T_TRUST_VERDICT, d).
Proof.
  intros Hn. pose proof (so_name n Hn) as [k Hk]. destruct (stored_parts n Hn) as (v & r & h & c & -> & Hr & Hh & Hc & E1 & E2 & E3).
  unfold published_data. rewrite Hk. cbn [mbind option_bind]. rewrite E3 in Hk. pose proof Hk as Hk'. unfold strlen in Hk'.
  apply fmap_Some in Hk' as ([j z] & (Hz & -> & Hb)%list_find_Some & ->). cbn [fst] in Hk. cbn [fst]. assert (Hj := lookup_lt_Some _ _ _ Hz).
  assert (Hd : take (trust_header_len + j + 1) (v :: r ++ h ++ c) = v :: r ++ h ++ take (j + 1) c).
  { change (v :: r ++ h ++ c) with ((v :: r) ++ h ++ c). rewrite app_assoc, take_app, length_app. cbn [length]. rewrite Hr, Hh.
    rewrite take_ge by (rewrite length_app; cbn [length]; rewrite Hr, Hh; unfold trust_header_len, DNCP_SHA256_LEN; lia).
    rewrite <- app_assoc. cbn [app]. repeat f_equal. unfold trust_header_len, DNCP_SHA256_LEN. lia. }
  rewrite Hd. eexists. split; [done|]. destruct (tv_fields v r h (take (j + 1) c) Hr Hh) as (F1 & F2 & F3). rewrite E1, E2, E3, F1, F2, F3.
  assert (Hlen : length (v :: r ++ h ++ take (j + 1) c) = (trust_header_len + j + 1)%nat).
  { cbn [length]. rewrite !length_app, Hr, Hh, length_take. unfold trust_header_len, DNCP_SHA256_LEN. lia. }
  split_and!; try done.
  - unfold dncp_tlv_trust_verdict. rewrite decide_False by (intros H; by apply H). rewrite Hlen.
    rewrite decide_False, decide_False by (rewrite Hc in Hj; lia). rewrite decide_True; [done|].
    change (v :: r ++ h ++ take (j + 1) c) with ((v :: r) ++ h ++ take (j + 1) c). rewrite app_assoc.
    assert (Hp : length ((v :: r) ++ h) = trust_header_len) by (rewrite length_app; cbn [length]; rewrite Hr, Hh; reflexivity).
    rewrite lookup_app_r by (rewrite Hp; lia). rewrite Hp. replace (trust_header_len + j + 1 - 1 - trust_header_len)%nat with j by lia.
    rewrite lookup_take_lt by lia. done.
  - unfold c_string. rewrite Hk. cbn [mbind option_bind]. assert (strlen (take (j + 1) c) = Some j) as ->.
    { unfold strlen. apply fmap_Some. exists (j, 0). split; [|done]. apply list_find_Some. split_and!; [by rewrite lookup_take_lt by lia|done|].
      intros i y Hi Hlt. rewrite lookup_take_lt in Hi by lia. by eapply Hb. }
    cbn [mbind option_bind]. f_equal. rewrite take_take. f_equal. lia.
  - unfold tlv_ok, attr_ok. cbn [fst snd]. rewrite Hlen. rewrite Hc in Hj. unfold DNCP_T_TRUST_VERDICT, trust_header_len, DNCP_SHA256_LEN, DNCP_T_TRUST_VERDICT_CNAME_LEN in *. lia.
Qed.

(** ** The tree *)

Definition hash_lt (a b : list Z) : Prop := memcmp a b < 0.

(** The records of the tree, ordered by their hashes. *)
Record tree_ok (l : list (list Z)) : Prop := {
  tk_sorted : StronglySorted hash_lt (tv_hash <$> l);
  tk_stored : Forall stored_ok l
}.

Definition is_neutral (n : list Z) : Prop := tv_verdict n = DNCP_VERDICT_NEUTRAL.

#[export] Typeclasses Opaque is_neutral.

#[export] Instance is_neutral_dec n : Decision (is_neutral n).
Proof. unfold is_neutral. apply _. Defined.

Definition neutral_count (l : list (list Z)) : Z := Z.of_nat (length (filter is_neutral l)).

Lemma hash_lt_trans a b c : length a = length b -> length b = length c -> hash_lt a b -> hash_lt b c -> hash_lt a c.
Proof. unfold hash_lt. intros Hab Hbc H1 H2. destruct (memcmp_trans a b c) as [? ?]; lia. Qed.

Lemma hash_lt_irrefl a : ~ hash_lt a a.
Proof. unfold hash_lt. assert (memcmp a a = 0) by by apply memcmp_0. lia. Qed.

Lemma hash_lt_total a b : length a = length b -> a ≠ b -> ~ hash_lt a b -> hash_lt b a.
Proof. unfold hash_lt. intros Hl Hne H. rewrite memcmp_antisym. assert (memcmp a b ≠ 0) by (by rewrite memcmp_0). lia. Qed.

Lemma tree_nodup l : tree_ok l -> NoDup (tv_hash <$> l).
Proof.
  intros [Hs _]. induction Hs as [|h hs Hs IH Hh]; [constructor|]. apply NoDup_cons. split; [|done].
  intros Hin. rewrite Forall_forall in Hh. by apply (hash_lt_irrefl h), Hh.
Qed.

Lemma tree_stored l n : tree_ok l -> n ∈ l -> stored_ok n.
Proof. intros [_ H]. rewrite Forall_forall in H. auto. Qed.

Lemma insert_trust_perm n l : insert_trust n l ≡ₚ n :: l.
Proof. induction l as [|m l IH]; [done|]. cbn [insert_trust]. case_decide; [done|]. rewrite IH. apply Permutation_swap. Qed.

Lemma insert_trust_ok n l : tree_ok l -> stored_ok n -> tv_hash n ∉ tv_hash <$> l -> tree_ok (insert_trust n l).
Proof.
  intros [Hs Hl] Hn Hnew. split; [|rewrite insert_trust_perm; by constructor].
  induction l as [|m l IH]; [by repeat constructor|]. rewrite fmap_cons in *. apply not_elem_of_cons in Hnew as [Hne Hnew].
  apply Forall_cons in Hl as [Hm Hl]. apply StronglySorted_inv in Hs as [Hs Hml]. cbn [insert_trust]. unfold _compare_trust_node.
  destruct (hash_of_stored n Hn) as [Ln _], (hash_of_stored m Hm) as [Lm _]. case_decide as E.
  - rewrite !fmap_cons. constructor; [by constructor|]. constructor; [done|]. rewrite Forall_forall in *.
    intros h Hh. pose proof Hh as Hh'. apply list_elem_of_fmap in Hh' as (x & -> & Hx). destruct (hash_of_stored x (Hl x Hx)) as [Lx _].
    apply (hash_lt_trans _ (tv_hash m)); [congruence|congruence|done|by apply Hml].
  - rewrite fmap_cons. constructor; [by apply IH|]. rewrite Forall_forall in *. intros h (x & -> & Hx)%list_elem_of_fmap.
    rewrite insert_trust_perm in Hx. apply elem_of_cons in Hx as [->|Hx]; [|by apply Hml, list_elem_of_fmap_2].
    apply hash_lt_total; [congruence|done|done].
Qed.

Lemma StronglySorted_fmap_filter (P : list Z -> Prop) `{forall x, Decision (P x)} l :
  StronglySorted hash_lt (tv_hash <$> l) -> StronglySorted hash_lt (tv_hash <$> filter P l).
Proof.
  induction l as [|n l IH]; [done|]. rewrite fmap_cons. intros [Hs Hn]%StronglySorted_inv. rewrite filter_cons. case_decide; [|by apply IH].
  rewrite fmap_cons. constructor; [by apply IH|]. rewrite Forall_forall in *. intros h (x & -> & [_ Hx]%list_elem_of_filter)%list_elem_of_fmap.
  by apply Hn, list_elem_of_fmap_2.
Qed.

Lemma tree_filter (P : list Z -> Prop) `{forall x, Decision (P x)} l : tree_ok l -> tree_ok (filter P l).
Proof. intros [Hs Hl]. split; [by apply StronglySorted_fmap_filter|]. rewrite Forall_forall in *. intros n [_ ?]%list_elem_of_filter. auto. Qed.

Definition replaced (n : list Z) (l : list (list Z)) : list (list Z) := (fun m => if decide (tv_hash m = tv_hash n) then n else m) <$> l.

Lemma replaced_other n l : tv_hash n ∉ tv_hash <$> l -> replaced n l = l.
Proof.
  intros Hn. unfold replaced. rewrite <- (list_fmap_id l) at 2. apply list_fmap_ext. intros i m Hm. rewrite decide_False; [done|].
  intros E. apply Hn. rewrite <- E. apply list_elem_of_fmap_2. by eapply list_elem_of_lookup_2.
Qed.

(** A node and where it is. *)
Lemma find_split h l n : tree_ok l -> (snd <$> list_find (fun n => tv_hash n = h) l) = Some n ->
  exists l1 l2, l = l1 ++ n :: l2 /\ tv_hash n = h /\ (h ∉ (tv_hash <$> l1)) /\ (h ∉ (tv_hash <$> l2)).
Proof.
  intros Hl ([i m] & (Hi & <- & _)%list_find_Some & ->)%fmap_Some. cbn [snd]. pose proof (tree_nodup l Hl) as Hnd.
  rewrite <- (take_drop_middle l i m Hi) in Hnd |- *. exists (take i l), (drop (S i) l). split_and!; [by rewrite take_drop_middle|done| |].
  - rewrite fmap_app, fmap_cons in Hnd. apply NoDup_app in Hnd as (_ & H & _). intros Hin. apply (H _ Hin). by left.
  - rewrite fmap_app, fmap_cons in Hnd. apply NoDup_app in Hnd as (_ & _ & [H _]%NoDup_cons). done.
Qed.

Lemma replaced_split n l1 m l2 : tv_hash m = tv_hash n -> tv_hash n ∉ tv_hash <$> l1 -> tv_hash n ∉ tv_hash <$> l2 -> replaced n (l1 ++ m :: l2) = l1 ++ n :: l2.
Proof.
  intros Hm H1 H2. unfold replaced. rewrite fmap_app, fmap_cons, decide_True by done. f_equal; [by apply replaced_other|]. f_equal. by apply replaced_other.
Qed.

Lemma replaced_ok n l1 m l2 : tree_ok (l1 ++ m :: l2) -> stored_ok n -> tv_hash n = tv_hash m -> tree_ok (l1 ++ n :: l2).
Proof.
  intros [Hs Hl] Hn E. split.
  - rewrite fmap_app, fmap_cons in *. by rewrite E.
  - apply Forall_app in Hl as [? [? ?]%Forall_cons]. apply Forall_app. split; [done|]. by constructor.
Qed.

Lemma neutral_count_app l1 n l2 :
  neutral_count (l1 ++ n :: l2) = neutral_count l1 + neutral_count l2 + (if decide (tv_verdict n = DNCP_VERDICT_NEUTRAL) then 1 else 0).
Proof.
  unfold neutral_count. rewrite filter_app, length_app, filter_cons.
  destruct (decide (tv_verdict n = DNCP_VERDICT_NEUTRAL)) as [E|E]; [rewrite decide_True by exact E|rewrite decide_False by exact E]; cbn [length]; lia.
Qed.

Lemma neutral_count_perm l l' : l ≡ₚ l' -> neutral_count l = neutral_count l'.
Proof. intros E. unfold neutral_count. by rewrite E. Qed.

Lemma filter_hash_split n l1 l2 : tv_hash n ∉ tv_hash <$> l1 -> tv_hash n ∉ tv_hash <$> l2 ->
  filter (fun m => tv_hash m ≠ tv_hash n) (l1 ++ n :: l2) = l1 ++ l2.
Proof.
  intros H1 H2. assert (Hf : forall l : list (list Z), tv_hash n ∉ tv_hash <$> l -> filter (fun m => tv_hash m ≠ tv_hash n) l = l).
  { intros l Hl. apply filter_all. intros m Hm E. apply Hl. rewrite <- E. by apply list_elem_of_fmap_2. }
  rewrite filter_app, filter_cons, decide_False by (intros H; by apply H). by rewrite !Hf.
Qed.

(** ** Verdicts of others *)

Section remote.
Context `{DX : !DncpExt, DC : !DncpCallbacks, TH : !TrustHost}.
Implicit Types (o : dncp) (t : trust) (h : list Z).

(** The data of a node is in the order of the protocol. *)
Definition in_order (n : node) : Prop := exists ts, default [] (tlv_container n) = enc ts /\ by_type ts /\ tlvs_ok ts.

(** The verdict TLVs that the index of a node leads to. *)
Definition found_tlvs o (n : node) : list attr :=
  match node_tlvs_of_type o n DNCP_T_TRUST_VERDICT with Some (_, ts) => ts | None => [] end.

(** All TLVs of a node. *)
Definition raw_tlvs (n : node) : list attr := let c := default [] (tlv_container n) in default [] (tlv_list c 0 (length c)).

(** The verdicts on [h] among TLVs. *)
Definition verdicts_in h (ts : list attr) : list Z :=
  omap (fun a => d ← dncp_tlv_trust_verdict a; if decide (tv_hash d = h) then Some (tv_verdict d) else None) ts.

Definition other_nodes o : list node := filter (fun n => dncp_node_is_self o (nid n) = false) (reachable_nodes o).

Definition remote_verdicts o h : list Z := flat_map (fun n => verdicts_in h (found_tlvs o n)) (other_nodes o).

Definition best_remote o h : Z := foldl Z.max DNCP_VERDICT_NONE (remote_verdicts o h).

Definition local_verdict t h : Z := match _trust_node_find t h with Some n => tv_verdict n | None => DNCP_VERDICT_NONE end.

(** The verdict that counts: the highest of all. *)
Definition effective t h : Z := Z.max (local_verdict t h) (best_remote (t_dncp t) h).

Lemma verdict_name a d : dncp_tlv_trust_verdict a = Some d -> is_Some (c_string (tv_cname d)).
Proof.
  destruct a as [id d']. unfold dncp_tlv_trust_verdict. repeat case_decide; try done. intros [= ->]. unfold c_string, strlen.
  destruct (list_find (fun c => c = 0) (tv_cname d)) as [[i c]|] eqn:E; [by eexists|]. exfalso.
  apply list_find_None in E. rewrite Forall_forall in E. apply (E 0); [|done]. unfold tv_cname. apply list_elem_of_lookup.
  exists (length d - 1 - trust_header_len)%nat. rewrite lookup_drop. rewrite <- H2. f_equal. lia.
Qed.

(** The node that is remembered with a verdict has it. *)
Definition named o h (ns : list node) (b : remote_best) : Prop :=
  b.1.1 = DNCP_VERDICT_NONE \/ exists n, n ∈ ns /\ b.1.2 = Some (nid n) /\ b.1.1 ∈ verdicts_in h (found_tlvs o n).

Lemma remote_scan_spec h ni ts : forall best,
  exists best', remote_scan h ni ts best = Some best' /\ best'.1.1 = foldl Z.max best.1.1 (verdicts_in h ts) /\
    (best' = best \/ (best'.1.2 = Some ni /\ best'.1.1 ∈ verdicts_in h ts)).
Proof.
  induction ts as [|a ts IH]; intros best; [by exists best; split_and!; [..|left]|]. cbn [remote_scan verdicts_in omap list_omap].
  destruct (dncp_tlv_trust_verdict a) as [d|] eqn:Ea; cbn [mbind option_bind]; [|by apply IH].
  destruct (decide (tv_hash d = h)) as [E|E].
  - cbn [foldl]. destruct (decide (best.1.1 < tv_verdict d)) as [Hlt|Hlt].
    + rewrite decide_True by done. destruct (verdict_name a d Ea) as [c ->]. cbn [mbind option_bind].
      destruct (IH (tv_verdict d, Some ni, c)) as (b' & -> & Hv & Hn). exists b'. split_and!; [done| |].
      * rewrite Hv. cbn [fst snd]. by rewrite Z.max_r by lia.
      * right. destruct Hn as [->|[? ?]]; [split; [done|by left]|split; [done|by right]].
    + rewrite decide_False by tauto. destruct (IH best) as (b' & -> & Hv & Hn). exists b'. split_and!; [done|by rewrite Z.max_l by lia|].
      destruct Hn as [?|[? ?]]; [by left|right; split; [done|by right]].
  - rewrite decide_False by tauto. by apply IH.
Qed.

Lemma verdicts_in_filter h (ts : list (Z * list Z)) : verdicts_in h (filter (fun a : Z * list Z => a.1 = Z.of_nat DNCP_T_TRUST_VERDICT) ts) = verdicts_in h ts.
Proof.
  unfold verdicts_in. induction ts as [|[id d] ts IH]; [done|]. rewrite filter_cons. cbn [fst]. case_decide as E; cbn [omap list_omap]; [by rewrite IH|].
  cbn [dncp_tlv_trust_verdict]. rewrite decide_True by done. cbn [mbind option_bind]. exact IH.
Qed.

Lemma raw_tlvs_enc n ts : default [] (tlv_container n) = enc ts -> tlvs_ok ts -> raw_tlvs n = ts.
Proof.
  intros E Hok. unfold raw_tlvs. rewrite E. pose proof (tlv_list_enc_at [] ts [] Hok) as H. rewrite app_nil_r in H. cbn [app length] in H. by rewrite H.
Qed.

(** In ordered data the index leads to all verdicts. *)
Lemma found_in_order o n h : tlvs_wf o -> in_order n -> verdicts_in h (found_tlvs o n) = verdicts_in h (raw_tlvs n).
Proof.
  intros [_ Hix] (ts & Hc & Hbt & Hok). unfold found_tlvs, node_tlvs_of_type. rewrite Hc.
  destruct (for_each_tlv_enc (tix o) (mk_tcache None true) ts (tlv_valid n) DNCP_T_TRUST_VERDICT false) as (ix1 & k1 & -> & _); [done..|].
  cbn [mbind option_bind negb orb]. by rewrite verdicts_in_filter, (raw_tlvs_enc n ts Hc Hok).
Qed.

(** The index as it is, or with the type of verdicts. *)
Definition tix_for o (ix : tindex) : Prop := ix = tix o \/ ix = dncp_add_tlv_index (tix o) DNCP_T_TRUST_VERDICT.

Lemma tix_for_wf o ix : tindex_wf (tix o) -> tix_for o ix -> tindex_wf ix.
Proof. intros Hw [->| ->]; [done|by apply dncp_add_tlv_index_wf]. Qed.

Lemma found_spec o ix n : tindex_wf (tix o) -> tix_for o ix ->
  node_tlvs_of_type (set_tix ix o) n DNCP_T_TRUST_VERDICT = Some (set_tix (dncp_add_tlv_index (tix o) DNCP_T_TRUST_VERDICT) o, found_tlvs o n).
Proof.
  intros Hw Hix. unfold found_tlvs, node_tlvs_of_type. change (tix (set_tix ix o)) with ix.
  assert (dncp_node_for_each_tlv_with_t_v ix (mk_tcache None true) (default [] (tlv_container n)) (tlv_valid n) DNCP_T_TRUST_VERDICT false =
    dncp_node_for_each_tlv_with_t_v (tix o) (mk_tcache None true) (default [] (tlv_container n)) (tlv_valid n) DNCP_T_TRUST_VERDICT false) as ->.
  { destruct Hix as [->| ->]; [done|by apply for_each_tlv_registered]. }
  by destruct (for_each_tlv_any (tix o) (default [] (tlv_container n)) (tlv_valid n) DNCP_T_TRUST_VERDICT false Hw) as (k & ts & ->).
Qed.

Lemma best_remote_tix o ix h : tindex_wf (tix o) -> tix_for o ix -> best_remote (set_tix ix o) h = best_remote o h.
Proof.
  intros Hw Hix. unfold best_remote, remote_verdicts. f_equal. change (other_nodes (set_tix ix o)) with (other_nodes o).
  apply flat_map_ext. intros n. unfold found_tlvs at 1. by rewrite (found_spec o ix n Hw Hix).
Qed.

Lemma remote_nodes_spec h o ns : forall ms ix best, tindex_wf (tix o) -> tix_for o ix -> named o h ms best ->
  exists ix' best', remote_nodes h (set_tix ix o) ns best = Some (set_tix ix' o, best') /\ tix_for o ix' /\
    best'.1.1 = foldl Z.max best.1.1 (flat_map (fun n => verdicts_in h (found_tlvs o n)) (filter (fun n => dncp_node_is_self o (nid n) = false) ns)) /\
    named o h (ms ++ filter (fun n => dncp_node_is_self o (nid n) = false) ns) best'.
Proof.
  induction ns as [|n ns IH]; intros ms ix best Hw Hix Hb; [exists ix, best; by rewrite app_nil_r|]. cbn [remote_nodes]. rewrite filter_cons.
  change (dncp_node_is_self (set_tix ix o)) with (dncp_node_is_self o).
  destruct (dncp_node_is_self o (nid n)) eqn:Es; [rewrite decide_False by done; by apply IH|].
  rewrite decide_True by done. rewrite (found_spec o ix n Hw Hix). cbn [mbind option_bind].
  destruct (remote_scan_spec h (nid n) (found_tlvs o n) best) as (b1 & -> & Hv1 & Hn1). cbn [mbind option_bind].
  destruct (IH (ms ++ [n]) (dncp_add_tlv_index (tix o) DNCP_T_TRUST_VERDICT) b1) as (ix2 & b2 & E2 & Hix2 & Hv2 & Hn2); [done|by right| |].
  { destruct Hn1 as [->|[Hn1 Hn2]].
    - destruct Hb as [Hb|(m & Hm & Hb)]; [by left|right]. exists m. split; [apply elem_of_app; by left|done].
    - right. exists n. split; [apply elem_of_app; right; by left|done]. }
  exists ix2, b2. split_and!; [exact E2|done| |by rewrite <- app_assoc in Hn2]. rewrite Hv2, Hv1. cbn [flat_map]. by rewrite foldl_app.
Qed.

Lemma get_remote_spec t h : tlvs_wf (t_dncp t) -> exists ix best, _trust_get_remote_verdict t h = Some (set_t_dncp (set_tix ix (t_dncp t)) t, best) /\
  tix_for (t_dncp t) ix /\ best.1.1 = best_remote (t_dncp t) h /\ named (t_dncp t) h (other_nodes (t_dncp t)) best.
Proof.
  intros [_ Hw]. unfold _trust_get_remote_verdict.
  destruct (remote_nodes_spec h (t_dncp t) (reachable_nodes (t_dncp t)) [] (tix (t_dncp t)) (DNCP_VERDICT_NONE, None, [])) as (ix & b & E & Hix & Hv & Hn); [done|by left|by left|].
  exists ix, b. replace (set_tix (tix (t_dncp t)) (t_dncp t)) with (t_dncp t) in E by (by destruct (t_dncp t)). rewrite E. done.
Qed.

(** Only the index changes. *)
Lemma get_verdict_spec t h : tlvs_wf (t_dncp t) -> tree_ok (t_tree t) -> exists ix c,
  dncp_trust_get_verdict t h = Some (set_t_dncp (set_tix ix (t_dncp t)) t, (effective t h, c)) /\ tix_for (t_dncp t) ix.
Proof.
  intros Hd Ht. unfold dncp_trust_get_verdict. destruct (get_remote_spec t h Hd) as (ix & [[v rn] c] & -> & Hix & Hv & _).
  cbn [mbind option_bind]. cbn [fst] in Hv. subst v. unfold effective, local_verdict.
  destruct (_trust_node_find t h) as [n|] eqn:En.
  - case_decide as E; [exists ix, c; by rewrite Z.max_r by lia|]. unfold _trust_node_find in En.
    destruct (find_split h (t_tree t) n Ht En) as (l1 & l2 & El & _). assert (Hn : stored_ok n).
    { apply (tree_stored (t_tree t)); [done|]. rewrite El. apply elem_of_app. right. by left. }
    unfold c_string. destruct (so_name n Hn) as [k ->]. cbn [mbind option_bind]. exists ix, (take k (tv_cname n)). by rewrite Z.max_l by lia.
  - case_decide as E; [exists ix, c; by rewrite Z.max_r by lia|exists ix, c; by rewrite Z.max_l by lia].
Qed.

End remote.
