(* ===== verification/DncpTrustInv.v ===== *)
(** The invariant of the trust verdicts, and that publishing, changing and removing
    verdicts keep it. *)
From S2P Require Import Prelude Bitops Prefix Tlv DncpNotify DncpIndex DncpState Dncp DncpFacts DncpPrune DncpInv DncpTrust DncpTrustFacts.

(** The local TLVs that are verdicts. *)
Definition verdict_tlvs (o : dncp) : list ltlv := filter (fun u => is_Some (dncp_tlv_trust_verdict (tlv u))) (tlvs o).

(** Subscribers leave the verdicts alone. *)
Class VerdictPassive `{!DncpExt, !DncpCallbacks} := {
  cb_verdicts e o : verdict_tlvs (call_subscriber e o) = verdict_tlvs o
}.

(** The hash and the verdict of a published TLV. *)
Definition utv_hash (u : ltlv) : list Z := tv_hash (tlv u).2.
Definition utv_verdict (u : ltlv) : Z := tv_verdict (tlv u).2.

Lemma trust_verdict_data a d : dncp_tlv_trust_verdict a = Some d -> a = (Z.of_nat DNCP_T_TRUST_VERDICT, d).
Proof.
  destruct a as [id d']. unfold dncp_tlv_trust_verdict. destruct (decide (id = Z.of_nat DNCP_T_TRUST_VERDICT)) as [->|Hid]; [|by rewrite decide_True].
  repeat case_decide; try done. by intros [= ->].
Qed.

Section inv.
Context `{DX : !DncpExt, DC : !DncpCallbacks, TH : !TrustHost, DP : !Passive, VP : !VerdictPassive}.
Implicit Types (o : dncp) (t : trust) (h n : list Z) (u : ltlv).

(** ** Verdicts among the local TLVs *)

Lemma verdict_tlvs_ext o o' : tlvs o' = tlvs o -> verdict_tlvs o' = verdict_tlvs o.
Proof. unfold verdict_tlvs. by intros ->. Qed.

Lemma verdict_tlvs_notify_each cb evs o : verdict_tlvs (notify_each cb evs o) = verdict_tlvs o.
Proof.
  rewrite notify_each_call_all. apply (call_all_ind (fun o' => verdict_tlvs o' = verdict_tlvs o)); [|done].
  intros e o' <-. unfold call. by rewrite cb_verdicts.
Qed.

Lemma verdict_tlvs_changed o : verdict_tlvs (tlvs_changed o) = verdict_tlvs o.
Proof. unfold tlvs_changed, dncp_schedule. by destruct (immediate_scheduled _). Qed.

Lemma verdict_tlvs_add o d u : is_Some (dncp_tlv_trust_verdict (Z.of_nat DNCP_T_TRUST_VERDICT, d)) ->
  u ∈ verdict_tlvs (dncp_add_tlv o DNCP_T_TRUST_VERDICT d None) <->
  u = mk_ltlv (Z.of_nat DNCP_T_TRUST_VERDICT, d) None \/ (u ∈ verdict_tlvs o /\ tlv u ≠ (Z.of_nat DNCP_T_TRUST_VERDICT, d)).
Proof.
  intros Hd. unfold dncp_add_tlv. rewrite verdict_tlvs_changed. unfold dncp_notify_subscribers_local_tlv_changed. rewrite verdict_tlvs_notify_each.
  set (l := insert_tlv _ _). assert (E : verdict_tlvs (match dncp_find_tlv o DNCP_T_TRUST_VERDICT d with
    | Some v => notify_each DNCP_CALLBACK_LOCAL_TLV (fun s => [LocalTlvChange s (tlv v) false]) (set_tlvs l o) | None => set_tlvs l o end) = verdict_tlvs (set_tlvs l o)).
  { destruct (dncp_find_tlv _ _ _); [apply verdict_tlvs_notify_each|done]. }
  rewrite E. unfold verdict_tlvs. cbn [set_tlvs tlvs]. rewrite !list_elem_of_filter. unfold l, without_tlv. rewrite insert_tlv_elem, list_elem_of_filter.
  cbn [tlv]. split; [intros [? [->|[? ?]]]; tauto|]. intros [->|[[? ?] ?]]; tauto.
Qed.

Lemma verdict_tlvs_remove o v u : u ∈ verdict_tlvs (dncp_remove_tlv o (Some v)) <-> u ∈ verdict_tlvs o /\ tlv u ≠ tlv v.
Proof.
  unfold dncp_remove_tlv. rewrite verdict_tlvs_changed. unfold dncp_notify_subscribers_local_tlv_changed. rewrite verdict_tlvs_notify_each.
  unfold verdict_tlvs. cbn [set_tlvs tlvs]. unfold without_tlv. rewrite !list_elem_of_filter. tauto.
Qed.

Lemma find_local_elem o h u : _find_local_tlv o h = Some u -> u ∈ verdict_tlvs o /\ utv_hash u = h.
Proof.
  unfold _find_local_tlv. intros ([i v] & (Hi & E & _)%list_find_Some & ->)%fmap_Some. cbn [snd]. apply fmap_Some in E as (d & Ed & ->).
  pose proof (trust_verdict_data _ _ Ed) as Ev. split; [|unfold utv_hash; by rewrite Ev].
  unfold verdict_tlvs. apply list_elem_of_filter. split; [by rewrite Ed|by eapply list_elem_of_lookup_2].
Qed.

Lemma find_local_none o h u : _find_local_tlv o h = None -> u ∈ verdict_tlvs o -> utv_hash u ≠ h.
Proof.
  unfold _find_local_tlv. intros E%fmap_None [[d Ed] Hu]%list_elem_of_filter Hh. rewrite list_find_None, Forall_forall in E.
  apply (E u Hu). rewrite Ed. cbn. f_equal. pose proof (trust_verdict_data _ _ Ed) as Ev. unfold utv_hash in Hh. by rewrite Ev in Hh.
Qed.

(** ** The invariant *)

(** Every hash is published at most once, and the time of it is known. *)
Record trust_ready t : Prop := {
  rt_data : tlvs_wf (t_dncp t);
  rt_own : is_Some (own_node (t_dncp t));
  rt_tree : tree_ok (t_tree t);
  rt_count : num_neutral t = neutral_count (t_tree t);
  rt_unique u v : u ∈ verdict_tlvs (t_dncp t) -> v ∈ verdict_tlvs (t_dncp t) -> utv_hash u = utv_hash v -> u = v;
  rt_times u : u ∈ verdict_tlvs (t_dncp t) -> tlv u ∈ (t_times t).*1
}.

Lemma calm_tlvs_wf o o' : calm o o' -> tlvs_wf o -> tlvs_wf o'.
Proof. intros (Hq & _). apply Hq. Qed.

Lemma calm_own o o' : calm o o' -> own_node o' = own_node o.
Proof. intros (Hq & _). by apply quiet_own. Qed.
(** What publishing leaves alone. *)
Definition same_tree t t' : Prop :=
  t_tree t' = t_tree t /\ num_neutral t' = num_neutral t /\ t_filename t' = t_filename t /\ t_file t' = t_file t /\
  t_file_hash t' = t_file_hash t /\ t_timeout t' = t_timeout t /\ trust_until t' = trust_until t.

#[export] Instance same_tree_preorder : PreOrder same_tree.
Proof.
  split; [by intros t|]. intros t1 t2 t3 (A1 & A2 & A3 & A4 & A5 & A6 & A7) (B1 & B2 & B3 & B4 & B5 & B6 & B7).
  split_and!; congruence.
Qed.

(** A change of the DNCP state that takes verdicts away, if any. *)
Lemma ready_dncp t o' : calm (t_dncp t) o' -> (forall u, u ∈ verdict_tlvs o' -> u ∈ verdict_tlvs (t_dncp t)) -> trust_ready t -> trust_ready (set_t_dncp o' t).
Proof.
  intros Hc Hsub [Hd Ho Ht Hn Hu Htm]. split; cbn [set_t_dncp t_dncp t_tree num_neutral t_times]; auto.
  - by eapply calm_tlvs_wf.
  - by rewrite (calm_own _ _ Hc).
Qed.

Lemma ready_tix t ix : tindex_wf ix -> trust_ready t -> trust_ready (set_t_dncp (set_tix ix (t_dncp t)) t).
Proof. intros Hix. apply ready_dncp; [by apply calm_tix|done]. Qed.

Lemma ready_remove t v : trust_ready t -> trust_ready (set_t_dncp (dncp_remove_tlv (t_dncp t) v) t).
Proof.
  intros Hr. apply ready_dncp; [apply calm_remove_tlv| |done]. intros u. destruct v as [v|]; [|done]. rewrite verdict_tlvs_remove. by intros [? _].
Qed.

(** Adding the verdict on a hash that is not published. *)
Lemma ready_add t d : trust_ready t -> dncp_tlv_trust_verdict (Z.of_nat DNCP_T_TRUST_VERDICT, d) = Some d -> tlv_ok (Z.of_nat DNCP_T_TRUST_VERDICT, d) ->
  (forall u, u ∈ verdict_tlvs (t_dncp t) -> utv_hash u ≠ tv_hash d) -> trust_ready (add_verdict_tlv t d).
Proof.
  intros [Hd Ho Ht Hn Hu Htm] Hv Hok Hnew. assert (Hc : calm (t_dncp t) (t_dncp (add_verdict_tlv t d))) by by apply calm_add_tlv.
  assert (Hin : forall u, u ∈ verdict_tlvs (t_dncp (add_verdict_tlv t d)) -> u = mk_ltlv (Z.of_nat DNCP_T_TRUST_VERDICT, d) None \/ u ∈ verdict_tlvs (t_dncp t)).
  { intros u. cbn [add_verdict_tlv set_t_times set_t_dncp t_dncp]. rewrite verdict_tlvs_add by by eexists. tauto. }
  split; auto.
  - by eapply calm_tlvs_wf.
  - by rewrite (calm_own _ _ Hc).
  - intros u v [->|Hu1]%Hin [->|Hv1]%Hin E; auto; exfalso; [by apply (Hnew v)|by apply (Hnew u)].
  - intros u Hu1. cbn [add_verdict_tlv set_t_times t_times]. rewrite fmap_cons. apply elem_of_cons.
    destruct (decide (tlv u = (Z.of_nat DNCP_T_TRUST_VERDICT, d))) as [E|E]; [by left|right].
    apply Hin in Hu1 as [->|Hu1]; [done|]. apply Htm, list_elem_of_fmap in Hu1 as (x & Ex & Hx). rewrite Ex in E |- *. by apply list_elem_of_fmap_2, list_elem_of_filter.
Qed.

(** ** Publishing *)

(** Our verdict in [n] prevails over those of the others, or gives way. *)
Definition same_verdict t n (m : node) : Prop :=
  best_remote (t_dncp t) (tv_hash n) = tv_verdict n /\ m ∈ other_nodes (t_dncp t) /\ tv_verdict n ∈ verdicts_in (tv_hash n) (found_tlvs (t_dncp t) m).

Definition prevails t n : Prop :=
  best_remote (t_dncp t) (tv_hash n) < tv_verdict n \/
  exists own m, own_node (t_dncp t) = Some own /\ same_verdict t n m /\ 0 < memcmp own (nid m).

Definition gives_way t n : Prop :=
  tv_verdict n < best_remote (t_dncp t) (tv_hash n) \/
  exists own m, own_node (t_dncp t) = Some own /\ same_verdict t n m /\ memcmp own (nid m) <= 0.

(** The verdicts on other hashes stay; ours is published if it is worth it. *)
Definition published_as t n t' : Prop :=
  (forall u, utv_hash u ≠ tv_hash n -> u ∈ verdict_tlvs (t_dncp t') <-> u ∈ verdict_tlvs (t_dncp t)) /\
  ((prevails t n /\ exists u, u ∈ verdict_tlvs (t_dncp t') /\ utv_hash u = tv_hash n /\ utv_verdict u = tv_verdict n) \/
   (gives_way t n /\ forall u, u ∈ verdict_tlvs (t_dncp t') -> utv_hash u ≠ tv_hash n)).

Lemma worth_publishing_spec t n best : is_Some (own_node (t_dncp t)) -> 0 <= tv_verdict n -> best.1.1 = best_remote (t_dncp t) (tv_hash n) ->
  named (t_dncp t) (tv_hash n) (other_nodes (t_dncp t)) best ->
  exists w : bool, worth_publishing t n best = Some w /\ if w then prevails t n else gives_way t n.
Proof.
  intros [own Ho] Hn Hv Hnm. destruct best as [[v rn] c]. cbn [fst snd] in *. unfold worth_publishing. rewrite Hv.
  case_decide as E1; [exists true; split; [done|by left]|]. case_decide as E2; [|exists false; split; [done|left; lia]].
  rewrite Ho. cbn [mbind option_bind]. destruct Hnm as [Hnm|(m & Hm & Hrn & Hin)].
  { cbn [fst] in Hnm. unfold DNCP_VERDICT_NONE in Hnm. lia. }
  cbn [fst snd] in Hrn, Hin. subst rn. cbn [mbind option_bind]. rewrite Hv, E2 in Hin. eexists. split; [done|]. assert (same_verdict t n m) by by split_and!.
  case_bool_decide; right; exists own, m; split_and!; try done. lia.
Qed.

(** What publishing gives: [t'] from [t]. *)
Definition publishing t n t' : Prop := trust_ready t' /\ same_tree t t' /\ calm (t_dncp t) (t_dncp t') /\ published_as t n t'.

(** The old TLV on the hash is gone, the new one comes. *)
Lemma publish_add t t1 n d : trust_ready t1 -> same_tree t t1 -> calm (t_dncp t) (t_dncp t1) ->
  (forall u, u ∈ verdict_tlvs (t_dncp t1) <-> u ∈ verdict_tlvs (t_dncp t) /\ utv_hash u ≠ tv_hash n) ->
  dncp_tlv_trust_verdict (Z.of_nat DNCP_T_TRUST_VERDICT, d) = Some d -> tlv_ok (Z.of_nat DNCP_T_TRUST_VERDICT, d) ->
  tv_hash d = tv_hash n -> tv_verdict d = tv_verdict n -> prevails t n -> publishing t n (add_verdict_tlv t1 d).
Proof.
  intros Hr Hs Hc Hin Hv Hok Hh Hd Hb. assert (Hin' : forall u, u ∈ verdict_tlvs (t_dncp (add_verdict_tlv t1 d)) <->
    u = mk_ltlv (Z.of_nat DNCP_T_TRUST_VERDICT, d) None \/ (u ∈ verdict_tlvs (t_dncp t1) /\ tlv u ≠ (Z.of_nat DNCP_T_TRUST_VERDICT, d))).
  { intros u. apply verdict_tlvs_add. by eexists. }
  split; [apply ready_add; try done; intros u; rewrite Hin, Hh; tauto|]. split; [done|]. split; [etrans; [exact Hc|by apply calm_add_tlv]|]. split.
  - intros u Hu. rewrite Hin', Hin. split; [intros [->|?]; [by rewrite <- Hh in Hu|tauto]|]. intros Hut. right. split; [done|].
    intros E. apply Hu. unfold utv_hash. by rewrite E.
  - left. split; [done|]. eexists. split; [apply Hin'; by left|]. by split.
Qed.

(** The verdict is not published any more. *)
Lemma publish_remove t t1 n : trust_ready t1 -> same_tree t t1 -> calm (t_dncp t) (t_dncp t1) ->
  (forall u, u ∈ verdict_tlvs (t_dncp t1) <-> u ∈ verdict_tlvs (t_dncp t) /\ utv_hash u ≠ tv_hash n) -> gives_way t n -> publishing t n t1.
Proof.
  intros Hr Hs Hc Hin Hw. split; [done|]. split; [done|]. split; [done|]. split.
  - intros u Hu. rewrite Hin. tauto.
  - right. split; [done|]. intros u. rewrite Hin. tauto.
Qed.

(** Removing the TLV on a hash. *)
Lemma local_removed t o n u : trust_ready t -> verdict_tlvs o = verdict_tlvs (t_dncp t) ->
  u ∈ verdict_tlvs (dncp_remove_tlv o (_find_local_tlv (t_dncp t) (tv_hash n))) <-> u ∈ verdict_tlvs (t_dncp t) /\ utv_hash u ≠ tv_hash n.
Proof.
  intros Hr Ho. destruct (_find_local_tlv (t_dncp t) (tv_hash n)) as [v|] eqn:Ev.
  - destruct (find_local_elem _ _ _ Ev) as [Hv Hvh]. rewrite verdict_tlvs_remove, Ho. split; intros [Hu E]; (split; [done|]).
    + intros Eh. apply E. f_equal. apply (rt_unique t Hr); congruence.
    + intros Et. apply E. unfold utv_hash in *. congruence.
  - cbn [dncp_remove_tlv]. rewrite Ho. split; [intros Hu; split; [done|by apply (find_local_none _ _ _ Ev)]|by intros [? _]].
Qed.

Lemma publish_spec t n : trust_ready t -> stored_ok n -> exists t', _trust_publish_maybe t n = Some t' /\ publishing t n t'.
Proof.
  intros Hr Hn. unfold _trust_publish_maybe. destruct (published_ok n Hn) as (d & -> & Hdv & Hdh & Hdd & _ & Hdok). cbn [mbind option_bind].
  destruct (get_remote_spec t (tv_hash n) (rt_data t Hr)) as (ix & best & -> & Hix0 & Hbv & Hbn). cbn [mbind option_bind].
  pose proof (tix_for_wf _ _ (proj2 (rt_data t Hr)) Hix0) as Hix.
  destruct (worth_publishing_spec t n best (rt_own t Hr) (proj1 (so_verdict n Hn)) Hbv Hbn) as (w & Hw & Hwb).
  change (worth_publishing (set_t_dncp (set_tix ix (t_dncp t)) t) n best) with (worth_publishing t n best). rewrite Hw. cbn [mbind option_bind].
  pose proof (ready_tix t ix Hix Hr) as Hr0. assert (Hc0 : calm (t_dncp t) (set_tix ix (t_dncp t))) by by apply calm_tix.
  set (t0 := set_t_dncp (set_tix ix (t_dncp t)) t) in *. change (t_dncp t0) with (set_tix ix (t_dncp t)).
  change (_find_local_tlv (set_tix ix (t_dncp t)) (tv_hash n)) with (_find_local_tlv (t_dncp t) (tv_hash n)).
  pose proof (fun u => local_removed t (set_tix ix (t_dncp t)) n u Hr eq_refl) as Hgone.
  pose proof (ready_remove t0 (_find_local_tlv (t_dncp t) (tv_hash n)) Hr0) as Hrm. change (t_dncp t0) with (set_tix ix (t_dncp t)) in Hrm.
  assert (Hcr : calm (t_dncp t) (dncp_remove_tlv (set_tix ix (t_dncp t)) (_find_local_tlv (t_dncp t) (tv_hash n)))) by (etrans; [done|apply calm_remove_tlv]).
  destruct w; [|eexists; split; [done|]; by apply publish_remove].
  destruct (_find_local_tlv (t_dncp t) (tv_hash n)) as [v|] eqn:Ev; [case_decide as E|].
  - exists t0. split; [done|]. split; [done|]. split; [done|]. split; [done|]. split; [done|]. left. split; [done|]. exists v. by destruct (find_local_elem _ _ _ Ev).
  - eexists. split; [done|]. by apply publish_add.
  - eexists. split; [done|]. by apply publish_add.
Qed.
End inv.
