(* ===== verification/DncpTrustOps.v ===== *)
(** The operations on trust verdicts keep the invariant, and what they do to the tree. *)
From S2P Require Import Prelude Bitops Prefix Tlv DncpNotify DncpIndex DncpState Dncp DncpFacts DncpPrune DncpInv DncpTrust DncpTrustFacts DncpTrustInv.

(** ** Lookup *)

Definition tree_find (h : list Z) (l : list (list Z)) : option (list Z) := snd <$> list_find (fun n => tv_hash n = h) l.

Lemma tree_find_cons h n l : tree_find h (n :: l) = if decide (tv_hash n = h) then Some n else tree_find h l.
Proof. unfold tree_find. cbn [list_find]. case_decide; [done|]. by destruct (list_find (fun n => tv_hash n = h) l) as [[]|]. Qed.

Lemma tree_find_none h l : tree_find h l = None <-> h ∉ tv_hash <$> l.
Proof.
  induction l as [|n l IH]; [by split; [intros _ ?%elem_of_nil|]|]. rewrite tree_find_cons, fmap_cons, not_elem_of_cons.
  case_decide as E; [split; [done|by intros [? _]]|]. rewrite IH. split; [intros ?; split; [congruence|done]|by intros [_ ?]].
Qed.

Lemma tree_find_app h l1 n l2 : h ∉ tv_hash <$> l1 -> tree_find h (l1 ++ n :: l2) = if decide (tv_hash n = h) then Some n else tree_find h l2.
Proof.
  induction l1 as [|m l1 IH]; intros Hl; cbn [app]; rewrite tree_find_cons; [done|]. rewrite fmap_cons, not_elem_of_cons in Hl.
  destruct Hl as [Hm Hl]. rewrite decide_False by congruence. by apply IH.
Qed.

(** A replaced record changes the answer for its own hash only. *)
Lemma tree_find_swap h l1 n n' l2 : tv_hash n' = tv_hash n -> h ≠ tv_hash n -> tree_find h (l1 ++ n' :: l2) = tree_find h (l1 ++ n :: l2).
Proof.
  intros E Hh. induction l1 as [|m l1 IH]; cbn [app]; rewrite !tree_find_cons; [by rewrite !decide_False by congruence|]. by rewrite IH.
Qed.

Lemma tree_find_insert h n l : tv_hash n ∉ tv_hash <$> l -> tree_find h (insert_trust n l) = if decide (tv_hash n = h) then Some n else tree_find h l.
Proof.
  induction l as [|m l IH]; intros Hn; [apply tree_find_cons|]. rewrite fmap_cons, not_elem_of_cons in Hn. cbn [insert_trust].
  destruct (decide (_compare_trust_node n m < 0)); [apply tree_find_cons|]. rewrite !tree_find_cons, IH by tauto.
  destruct (decide (tv_hash n = h)), (decide (tv_hash m = h)); try done. destruct Hn. congruence.
Qed.

Lemma tree_find_filter h n l : h ≠ tv_hash n -> tree_find h (filter (fun m => tv_hash m ≠ tv_hash n) l) = tree_find h l.
Proof.
  intros Hh. induction l as [|m l IH]; [done|]. rewrite filter_cons, tree_find_cons. case_decide as E.
  - by rewrite tree_find_cons, IH.
  - rewrite decide_False by congruence. exact IH.
Qed.

Section ops.
Context `{DX : !DncpExt, DC : !DncpCallbacks, TH : !TrustHost, DP : !Passive, VP : !VerdictPassive}.
Implicit Types (o : dncp) (t : trust) (h n c : list Z) (u : ltlv).

(** ** Setting a verdict *)

Lemma ready_tree t l k : trust_ready t -> tree_ok l -> k = neutral_count l -> trust_ready (set_num_neutral k (set_t_tree l t)).
Proof. intros [Hd Ho Ht Hn Hu Htm] Hl ->. by split. Qed.

Lemma ready_fields t t' : trust_ready t -> t_dncp t' = t_dncp t -> t_tree t' = t_tree t -> num_neutral t' = num_neutral t -> t_times t' = t_times t -> trust_ready t'.
Proof. intros [Hd Ho Ht Hn Hu Htm] E1 E2 E3 E4. split; rewrite ?E1, ?E2, ?E3, ?E4; done. Qed.

(** The parts that [_trust_set] never touches. *)
Definition set_frame t t' : Prop :=
  t_dncp t' = t_dncp t /\ t_times t' = t_times t /\ t_filename t' = t_filename t /\ t_file t' = t_file t /\ t_file_hash t' = t_file_hash t /\ trust_until t' = trust_until t.

Lemma trust_assign_spec t l1 n l2 v c : t_tree t = l1 ++ n :: l2 -> tree_ok (t_tree t) -> tv_hash n ∉ tv_hash <$> l1 -> tv_hash n ∉ tv_hash <$> l2 ->
  0 <= v < 256 -> name_ok c -> exists t' n', trust_assign t n v c = Some t' /\ set_frame t t' /\ t_tree t' = l1 ++ n' :: l2 /\
    num_neutral t' = num_neutral t + (if decide (v = DNCP_VERDICT_NEUTRAL) then 1 else 0) /\
    stored_ok n' /\ tv_hash n' = tv_hash n /\ tv_verdict n' = v /\ t_timeout t' = Some (trust_time t + SAVE_INTERVAL) /\
    (c ≠ [] -> c_string (tv_cname n') = Some c).
Proof.
  intros El Ht H1 H2 Hv Hc. assert (Hn : stored_ok n) by (apply (tree_stored _ _ Ht); rewrite El; apply elem_of_app; right; by left).
  unfold trust_assign. destruct (stored_set_verdict n v Hn Hv) as (n1 & -> & Hn1 & Eh1 & Ev1 & Ec1). cbn [mbind option_bind].
  assert (Hname : exists n', (if decide (c = []) then Some n1 else strcpy_cname n1 c) = Some n' /\ stored_ok n' /\ tv_hash n' = tv_hash n /\ tv_verdict n' = v /\
    (c ≠ [] -> c_string (tv_cname n') = Some c)).
  { case_decide as Ec; [by exists n1|]. destruct (stored_set_name n1 c Hn1 Hc) as (n' & -> & Hn' & Eh & Ev & Es). exists n'. split_and!; try done; congruence. }
  destruct Hname as (n' & -> & Hn' & Eh & Ev & Es). cbn [mbind option_bind].
  assert (Etree : replaced n' (t_tree t) = l1 ++ n' :: l2) by (rewrite El; apply replaced_split; by rewrite Eh).
  eexists _, n'. split; [done|]. unfold put_trust. change ((fun m => if decide (tv_hash m = tv_hash n') then n' else m) <$> t_tree t) with (replaced n' (t_tree t)).
  rewrite Etree. split; [by case_decide|]. split; [by case_decide|]. split; [case_decide; cbn; lia|]. split_and!; try done. by case_decide.
Qed.

(** [t'] holds the verdict [v] on [h], and is [t] otherwise. *)
Record verdict_set t h (v : Z) t' : Prop := {
  vs_frame : set_frame t t';
  vs_ready : trust_ready t';
  vs_here : exists n, _trust_node_find t' h = Some n /\ stored_ok n /\ tv_hash n = h /\ tv_verdict n = v;
  vs_other h' : h' ≠ h -> _trust_node_find t' h' = _trust_node_find t h'
}.

Lemma verdict_set_intro t t' h v l1 n l2 : trust_ready t -> set_frame t t' -> t_tree t' = l1 ++ n :: l2 -> tree_ok (l1 ++ n :: l2) ->
  num_neutral t' = neutral_count (l1 ++ n :: l2) -> h ∉ tv_hash <$> l1 -> tv_hash n = h -> tv_verdict n = v ->
  (forall h', h' ≠ h -> tree_find h' (l1 ++ n :: l2) = tree_find h' (t_tree t)) -> verdict_set t h v t'.
Proof.
  intros [Hd Ho Ht Hk Hu Htm] (F1 & F2 & F3 & F4 & F5 & F6) Et Htl Hn Hh En Ev Hother. split; [done| | |].
  - split; rewrite ?F1, ?F2, ?Et; done.
  - exists n. change (_trust_node_find t' h) with (tree_find h (t_tree t')). rewrite Et, tree_find_app, decide_True by done.
    split_and!; try done. apply (tree_stored _ _ Htl). apply elem_of_app. right. by left.
  - intros h' Hh'. change (tree_find h' (t_tree t') = tree_find h' (t_tree t)). rewrite Et. auto.
Qed.

(** The count without the record that is replaced. *)
Lemma count_without t l1 n l2 : trust_ready t -> t_tree t = l1 ++ n :: l2 ->
  num_neutral t - (if decide (tv_verdict n = DNCP_VERDICT_NEUTRAL) then 1 else 0) = neutral_count l1 + neutral_count l2.
Proof. intros Hr El. rewrite (rt_count t Hr), El, neutral_count_app. lia. Qed.

Lemma trust_set_known t h v c n : trust_ready t -> 0 <= v < 256 -> name_ok c -> _trust_node_find t h = Some n ->
  exists t', trust_assign (if decide (tv_verdict n = DNCP_VERDICT_NEUTRAL) then set_num_neutral (num_neutral t - 1) t else t) n v c = Some t' /\ verdict_set t h v t'.
Proof.
  intros Hr Hv Hc En. pose proof (rt_tree t Hr) as Ht. destruct (find_split h (t_tree t) n Ht En) as (l1 & l2 & El & Enh & H1 & H2).
  pose proof (count_without t l1 n l2 Hr El) as Hk. set (t1 := if decide _ then _ else _).
  assert (E1 : t_tree t1 = t_tree t /\ set_frame t t1 /\ num_neutral t1 = neutral_count l1 + neutral_count l2).
  { unfold t1. case_decide; cbn; split_and!; try done; lia. }
  destruct E1 as (Et1 & Hf1 & Hk1). rewrite <- Enh in H1, H2.
  destruct (trust_assign_spec t1 l1 n l2 v c) as (t2 & n2 & -> & Hf2 & Et2 & Hk2 & Hn2 & Eh2 & Ev2 & _); [by rewrite Et1|by rewrite Et1|done..|].
  exists t2. split; [done|]. rewrite El in Ht. apply (verdict_set_intro t t2 h v l1 n2 l2); try done.
  - destruct Hf1 as (A1 & A2 & A3 & A4 & A5 & A6), Hf2 as (B1 & B2 & B3 & B4 & B5 & B6). split_and!; congruence.
  - by apply (replaced_ok n2 l1 n l2).
  - rewrite Hk2, Hk1, neutral_count_app, Ev2. lia.
  - by rewrite <- Enh.
  - congruence.
  - intros h' Hh'. rewrite El. apply tree_find_swap; congruence.
Qed.

Lemma trust_set_new t h v c : trust_ready t -> hash_ok h -> 0 <= v < 256 -> name_ok c -> _trust_node_find t h = None ->
  exists t', trust_assign (set_t_tree (insert_trust (new_trust_node h) (t_tree t)) t) (new_trust_node h) v c = Some t' /\ verdict_set t h v t'.
Proof.
  intros Hr Hh Hv Hc En. pose proof (rt_tree t Hr) as Ht. change (tree_find h (t_tree t) = None) in En. pose proof En as Hnew. rewrite tree_find_none in Hnew.
  destruct (stored_new h Hh) as (Hn & Enh & Env). set (n := new_trust_node h) in *. rewrite <- Enh in Hnew.
  pose proof (insert_trust_ok n (t_tree t) Ht Hn Hnew) as Hins. pose proof (tree_find_insert h n (t_tree t) Hnew) as Hf. rewrite decide_True in Hf by done.
  destruct (find_split h _ n Hins Hf) as (l1 & l2 & El & _ & H1 & H2).
  set (t1 := set_t_tree (insert_trust n (t_tree t)) t). rewrite <- Enh in H1, H2.
  destruct (trust_assign_spec t1 l1 n l2 v c) as (t2 & n2 & -> & Hf2 & Et2 & Hk2 & Hn2 & Eh2 & Ev2 & _); [done..|].
  exists t2. split; [done|]. apply (verdict_set_intro t t2 h v l1 n2 l2); try done.
  - rewrite El in Hins. by apply (replaced_ok n2 l1 n l2).
  - rewrite Hk2. change (num_neutral t1) with (num_neutral t). rewrite (rt_count t Hr), neutral_count_app, Ev2.
    assert (neutral_count (t_tree t) + 1 = neutral_count (l1 ++ n :: l2)) as Hk.
    { rewrite <- El, (neutral_count_perm _ _ (insert_trust_perm n (t_tree t))). unfold neutral_count. rewrite filter_cons, decide_True by done. cbn [length]. lia. }
    rewrite neutral_count_app, decide_True in Hk by done. lia.
  - by rewrite <- Enh.
  - congruence.
  - intros h' Hh'. rewrite (tree_find_swap h' l1 n n2 l2) by congruence. rewrite <- El, (tree_find_insert h' n _ Hnew), decide_False by congruence. done.
Qed.

Lemma trust_set_spec t h v (c : option (list Z)) : trust_ready t -> hash_ok h -> 0 <= v < 256 -> name_ok (default [] c) ->
  exists t' b, _trust_set t h v c = Some (t', b) /\ verdict_set t h v t' /\ (b = false -> t' = t).
Proof.
  intros Hr Hh Hv Hc. unfold _trust_set. pose proof (rt_tree t Hr) as Ht. destruct (_trust_node_find t h) as [n|] eqn:En.
  - destruct (find_split h (t_tree t) n Ht En) as (l1 & l2 & El & Enh & _).
    assert (Hn : stored_ok n) by (apply (tree_stored _ _ Ht); rewrite El; apply elem_of_app; right; by left).
    unfold c_string. destruct (so_name n Hn) as [k ->]. cbn [mbind option_bind].
    case_decide as Es; [exists t, false; split; [done|split; [|done]]; split; try done; exists n; by destruct Es|].
    destruct (trust_set_known t h v (default [] c) n) as (t' & E & Hs); [done..|]. rewrite E. by exists t', true.
  - destruct (trust_set_new t h v (default [] c)) as (t' & E & Hs); [done..|]. rewrite E. by exists t', true.
Qed.

(** ** Verdicts from the user and from others *)

(** What the operations keep besides the tree. *)
Definition file_frame t t' : Prop :=
  t_filename t' = t_filename t /\ t_file t' = t_file t /\ t_file_hash t' = t_file_hash t /\ trust_until t' = trust_until t.

#[export] Instance file_frame_preorder : PreOrder file_frame.
Proof. split; [by intros t|]. intros t1 t2 t3 (A1 & A2 & A3 & A4) (B1 & B2 & B3 & B4). split_and!; congruence. Qed.

(** The state goes on: it stays in the invariant, and the nodes are the same. *)
Record goes t t' : Prop := {
  go_ready : trust_ready t';
  go_files : file_frame t t';
  go_calm : calm (t_dncp t) (t_dncp t')
}.

Lemma goes_trans t1 t2 t3 : goes t1 t2 -> goes t2 t3 -> goes t1 t3.
Proof. intros [_ F1 C1] [R2 F2 C2]. split; [done|by etrans|by etrans]. Qed.

Lemma goes_publishing t n t' : publishing t n t' -> goes t t'.
Proof. intros (Hr & (_ & _ & A & B & C & _ & D) & Hc & _). by split. Qed.

Lemma goes_verdict_set t h v t' : verdict_set t h v t' -> goes t t'.
Proof. intros [(F1 & F2 & F3 & F4 & F5 & F6) Hr _ _]. split; [done|done|]. by rewrite F1. Qed.

Lemma goes_same t : trust_ready t -> goes t t.
Proof. by split. Qed.

Lemma goes_tix t ix : tindex_wf ix -> trust_ready t -> goes t (set_t_dncp (set_tix ix (t_dncp t)) t).
Proof. intros Hix Hr. split; [by apply ready_tix|done|by apply calm_tix]. Qed.

Lemma find_publishing t n t' h : publishing t n t' -> _trust_node_find t' h = _trust_node_find t h.
Proof. intros (_ & (E & _) & _). unfold _trust_node_find. by rewrite E. Qed.

(** [t'] is [t] with the verdict [v] on [h], published if it is worth it. *)
Definition trust_set_result t h (v : Z) t' : Prop :=
  goes t t' /\ local_verdict t' h = v /\ (forall h', h' ≠ h -> _trust_node_find t' h' = _trust_node_find t h').

Lemma dncp_trust_set_spec t h v (c : option (list Z)) : trust_ready t -> hash_ok h -> 0 <= v < 256 -> name_ok (default [] c) ->
  exists t', dncp_trust_set t h v c = Some t' /\ trust_set_result t h v t'.
Proof.
  intros Hr Hh Hv Hc. unfold dncp_trust_set. destruct (trust_set_spec t h v c) as (t1 & b & -> & Hs & Hb); [done..|]. cbn [mbind option_bind].
  pose proof (goes_verdict_set _ _ _ _ Hs) as Hg. pose proof (vs_here _ _ _ _ Hs) as (n & Hn & Hno & Enh & Env). destruct b.
  - rewrite Hn. cbn [mbind option_bind]. destruct (publish_spec t1 n (vs_ready _ _ _ _ Hs) Hno) as (t2 & -> & Hp). exists t2. split; [done|].
    split_and!; [eapply goes_trans; [done|by eapply goes_publishing]| |].
    + unfold local_verdict. by rewrite (find_publishing _ _ _ _ Hp), Hn.
    + intros h' Hh'. rewrite (find_publishing _ _ _ _ Hp). by apply (vs_other _ _ _ _ Hs).
  - exists t1. split; [done|]. split_and!; [done|unfold local_verdict; by rewrite Hn|by apply (vs_other _ _ _ _ Hs)].
Qed.

Lemma verdict_data_ok a d : bytes_ok a.2 -> dncp_tlv_trust_verdict a = Some d -> hash_ok (tv_hash d) /\ exists c, c_string (tv_cname d) = Some c /\ name_ok c.
Proof.
  intros Hbytes Ha. destruct (verdict_name a d Ha) as [c Hc]. destruct a as [id d']. cbn [snd] in Hbytes. unfold dncp_tlv_trust_verdict in Ha.
  destruct (decide (id ≠ _)); [done|]. destruct (decide (length d' < _)%nat) as [|H1]; [done|]. destruct (decide (_ < length d')%nat) as [|H2]; [done|].
  destruct (decide (d' !! _ = Some 0)); [|done]. injection Ha as ->. unfold trust_header_len, DNCP_SHA256_LEN, DNCP_T_TRUST_VERDICT_CNAME_LEN in *. split.
  - split; [unfold tv_hash; rewrite length_take, length_drop; unfold DNCP_SHA256_LEN; lia|]. by apply Forall_take, Forall_drop.
  - exists c. split; [done|]. unfold c_string in Hc. apply bind_Some in Hc as (k & Hk & [= <-]). unfold strlen in Hk.
    apply fmap_Some in Hk as ([j z] & (Hz & -> & Hb)%list_find_Some & ->). cbn [fst]. assert (Hj := lookup_lt_Some _ _ _ Hz). split.
    + apply Forall_forall. intros x [i Hi]%list_elem_of_lookup. apply lookup_take_Some in Hi as [Hi Hlt]. by eapply Hb.
    + rewrite length_take. unfold tv_cname in *. rewrite length_drop in *. unfold trust_header_len, DNCP_SHA256_LEN, DNCP_T_TRUST_VERDICT_CNAME_LEN in *. lia.
Qed.

Lemma cached_verdict_ok v : 0 <= cached_verdict v <= 2.
Proof. unfold cached_verdict, DNCP_VERDICT_CACHED_POSITIVE, DNCP_VERDICT_CACHED_NEGATIVE, DNCP_VERDICT_NEUTRAL. repeat case_decide; lia. Qed.

Lemma find_stored t h n : trust_ready t -> _trust_node_find t h = Some n -> stored_ok n /\ n ∈ t_tree t /\ tv_hash n = h.
Proof.
  intros Hr E. destruct (find_split h (t_tree t) n (rt_tree t Hr) E) as (l1 & l2 & El & Eh & _). assert (n ∈ t_tree t) by (rewrite El; apply elem_of_app; right; by left).
  split_and!; [by apply (tree_stored _ _ (rt_tree t Hr))|done|done].
Qed.

Lemma tlv_cb_spec t ni a : trust_ready t -> bytes_ok a.2 -> exists t', _tlv_cb t ni a = Some t' /\ goes t t'.
Proof.
  intros Hr Hbytes. unfold _tlv_cb. destruct (dncp_tlv_trust_verdict a) as [d|] eqn:Ed; [|by exists t; split; [|apply goes_same]].
  destruct (dncp_node_is_self (t_dncp t) ni); [by exists t; split; [|apply goes_same]|]. cbv zeta. pose proof (cached_verdict_ok (tv_verdict d)) as Hv.
  destruct (verdict_data_ok a d Hbytes Ed) as (Hh & c & -> & Hc). destruct (match _trust_node_find t (tv_hash d) with Some n => _ | None => true end) eqn:Ei; cbn [mbind option_bind].
  - destruct (trust_set_spec t (tv_hash d) (cached_verdict (tv_verdict d)) (Some c)) as (t1 & b & -> & Hs & _); [done|done|lia|done|]. cbn [mbind option_bind].
    pose proof (goes_verdict_set _ _ _ _ Hs) as Hg. destruct b; cbn [negb]; [|by exists t1]. case_decide; [by exists t1|].
    pose proof (vs_here _ _ _ _ Hs) as (n & -> & Hn & _). cbn [mbind option_bind]. destruct (publish_spec t1 n (vs_ready _ _ _ _ Hs) Hn) as (t2 & -> & Hp).
    exists t2. split; [done|]. eapply goes_trans; [done|by eapply goes_publishing].
  - destruct (_trust_node_find t (tv_hash d)) as [n|] eqn:En; [|done]. cbn [mbind option_bind]. destruct (find_stored t _ n Hr En) as (Hn & _).
    destruct (publish_spec t n Hr Hn) as (t2 & -> & Hp). exists t2. split; [done|by eapply goes_publishing].
Qed.

(** ** Removing nodes *)

Lemma vlist_delete_spec t n : trust_ready t -> n ∈ t_tree t -> exists t',
  vlist_delete_trust t n = Some t' /\ goes t t' /\ t_tree t' = filter (fun m => tv_hash m ≠ tv_hash n) (t_tree t) /\
  (length (t_tree t') < length (t_tree t))%nat.
Proof.
  intros Hr Hin. pose proof (rt_tree t Hr) as Ht. pose proof (tree_stored _ _ Ht Hin) as Hn.
  unfold vlist_delete_trust, _update_trust_node. destruct (published_ok n Hn) as (d & -> & _). cbn [mbind option_bind].
  set (o' := dncp_remove_tlv_matching _ _ _). set (l := filter _ (t_tree t)). eexists. split; [done|].
  assert (Hc : calm (t_dncp t) o') by apply calm_remove_tlv_matching.
  pose proof (ready_remove t (dncp_find_tlv (t_dncp t) DNCP_T_TRUST_VERDICT d) Hr) as Hr1. fold (dncp_remove_tlv_matching (t_dncp t) DNCP_T_TRUST_VERDICT d) in Hr1.
  change (dncp_remove_tlv_matching (t_dncp t) DNCP_T_TRUST_VERDICT d) with o' in Hr1.
  apply list_elem_of_split in Hin as (l1 & l2 & El). pose proof (tree_nodup _ Ht) as Hnd. rewrite El, fmap_app, fmap_cons in Hnd.
  apply NoDup_app in Hnd as (_ & H1 & [H2 _]%NoDup_cons). assert (H1' : tv_hash n ∉ tv_hash <$> l1) by (intros H; apply (H1 _ H); by left).
  assert (Ell : l = l1 ++ l2) by (unfold l; rewrite El; by apply filter_hash_split).
  pose proof (count_without t l1 n l2 Hr El) as Hk. assert (Hkl : neutral_count l = neutral_count l1 + neutral_count l2).
  { rewrite Ell. unfold neutral_count. rewrite filter_app, length_app. lia. }
  split; [|split; [by case_decide|case_decide; cbn; rewrite Ell, El, !length_app; cbn [length]; lia]].
  assert (Hready : trust_ready (set_num_neutral (neutral_count l) (set_t_tree l (set_t_dncp o' t)))) by (apply ready_tree; [done|by apply tree_filter|done]).
  split; [|by case_decide|by case_decide].
  eapply ready_fields; [exact Hready|by case_decide..| |by case_decide]. case_decide; cbn; lia.
Qed.

(** A neutral node whose verdict is published. *)
Definition neutral_published t n : Prop := is_neutral n /\ is_Some (_find_local_tlv (t_dncp t) (tv_hash n)).

Lemma oldest_neutral_spec t l : trust_ready t -> forall best, exists r, oldest_neutral t l best = Some r /\
  match r with
  | None => best = None /\ forall n, n ∈ l -> ~ neutral_published t n
  | Some n => (n ∈ l /\ neutral_published t n) \/ snd <$> best = Some n
  end.
Proof.
  intros Hr. induction l as [|n l IH]; intros best; cbn [oldest_neutral].
  { exists (snd <$> best). split; [done|]. destruct best as [[ti n]|]; [by right|]. split; [done|]. by intros n ?%elem_of_nil. }
  case_decide as En.
  { destruct (IH best) as (r & -> & Hs). exists r. split; [done|]. destruct r as [m|].
    - destruct Hs as [[? ?]|?]; [left; split; [by right|done]|by right].
    - destruct Hs as [? Hs]. split; [done|]. intros m [->|?]%elem_of_cons; [by intros [? _]|auto]. }
  destruct (_find_local_tlv (t_dncp t) (tv_hash n)) as [u|] eqn:Eu.
  - destruct (find_local_elem _ _ _ Eu) as [Hu _]. apply (rt_times t Hr) in Hu.
    destruct (list_find (fun x => x.1 = tlv u) (t_times t)) as [[i [a ti]]|] eqn:Ef.
    2: { exfalso. apply list_find_None in Ef. rewrite Forall_forall in Ef. apply list_elem_of_fmap in Hu as (x & Ex & Hx). by apply (Ef x Hx). }
    cbn [mbind option_bind snd fst]. set (best' := match best with Some _ => _ | None => _ end).
    destruct (IH best') as (r & -> & Hs). exists r. split; [done|]. assert (Hnp : neutral_published t n) by (split; [exact En|by rewrite Eu]).
    assert (Hb : snd <$> best' = Some n \/ (snd <$> best' = snd <$> best /\ best ≠ None)).
    { unfold best'. destruct best as [[ole otn]|]; [|by left]. case_decide; [by left|by right]. }
    destruct r as [m|]; [|destruct Hs as [Hs _]; rewrite Hs in Hb; by destruct Hb as [?|[? ?]]; [|destruct best as [[]|]]].
    destruct Hs as [[? ?]|Hs]; [left; split; [by right|done]|]. destruct Hb as [Hb|[Hb _]]; [|right; congruence]. left. rewrite Hs in Hb. injection Hb as ->. split; [by left|done].
  - destruct (IH best) as (r & -> & Hs). exists r. split; [done|]. destruct r as [m|].
    + destruct Hs as [[? ?]|?]; [left; split; [by right|done]|by right].
    + destruct Hs as [? Hs]. split; [done|]. intros m [->|?]%elem_of_cons; [|auto]. intros [_ Hx]. rewrite Eu in Hx. by destruct Hx.
Qed.

(** Neutral nodes may be missing in [t']; there is nothing new. *)
Definition fewer_neutral t t' : Prop :=
  (forall h n, _trust_node_find t' h = Some n -> _trust_node_find t h = Some n) /\
  (forall h n, _trust_node_find t h = Some n -> ~ is_neutral n -> _trust_node_find t' h = Some n).

Lemma fewer_neutral_refl t : fewer_neutral t t.
Proof. split; auto. Qed.

Lemma delete_fewer t n t' : is_neutral n -> n ∈ t_tree t -> trust_ready t -> t_tree t' = filter (fun m => tv_hash m ≠ tv_hash n) (t_tree t) -> fewer_neutral t t'.
Proof.
  intros Hn Hin Hr Et. split; intros h m; change (_trust_node_find t' h) with (tree_find h (t_tree t')); change (_trust_node_find t h) with (tree_find h (t_tree t)); rewrite Et.
  - destruct (decide (h = tv_hash n)) as [->|Hh]; [|by rewrite tree_find_filter]. intros E. exfalso.
    assert (tree_find (tv_hash n) (filter (fun m => tv_hash m ≠ tv_hash n) (t_tree t)) = None) as E'; [|congruence].
    apply tree_find_none. intros (x & Ex & [? _]%list_elem_of_filter)%list_elem_of_fmap. done.
  - intros E Hm. rewrite tree_find_filter; [done|]. intros ->. destruct (find_stored t _ m Hr E) as (_ & Hmin & Emh).
    assert (m = n) as ->; [|done]. apply list_elem_of_lookup in Hin as [i Hi], Hmin as [j Hj]. pose proof (tree_nodup _ (rt_tree t Hr)) as Hnd.
    assert (i = j) as ->; [|congruence]. eapply NoDup_lookup; [exact Hnd|by rewrite list_lookup_fmap, Hi|rewrite list_lookup_fmap, Hj; exact (f_equal Some Emh)].
Qed.

Lemma limit_neutral_spec fuel : forall t, trust_ready t -> (length (t_tree t) <= fuel)%nat ->
  exists t', limit_neutral fuel t = Some t' /\ goes t t' /\ fewer_neutral t t' /\
    (num_neutral t' <= NEUTRAL_MAXIMUM \/ forall n, n ∈ t_tree t' -> ~ neutral_published t' n).
Proof.
  induction fuel as [|fuel IH]; intros t Hr Hf; cbn [limit_neutral]; (case_decide as Ek; [exists t; split; [done|]; split; [by apply goes_same|]; split; [apply fewer_neutral_refl|by left]|]);
    destruct (oldest_neutral_spec t (t_tree t) Hr None) as ([n|] & -> & Hs); cbn [mbind option_bind].
  - destruct Hs as [[Hs _]|Hs]; [|done]. apply list_elem_of_lookup in Hs as [i Hi]. apply lookup_lt_Some in Hi. lia.
  - exists t. split; [done|]. split; [by apply goes_same|]. split; [apply fewer_neutral_refl|]. right. apply Hs.
  - destruct Hs as [[Hin [Hn _]]|Hs]; [|done]. destruct (vlist_delete_spec t n Hr Hin) as (t1 & -> & Hg1 & Et1 & Hl1). cbn [mbind option_bind].
    destruct (IH t1 (go_ready _ _ Hg1)) as (t2 & -> & Hg2 & [Hw2 Hw2'] & Hend); [lia|]. exists t2. split; [done|]. split; [by eapply goes_trans|]. split; [|done]. split.
    + destruct (delete_fewer t n t1 Hn Hin Hr Et1) as [Hw1 _]. auto.
    + destruct (delete_fewer t n t1 Hn Hin Hr Et1) as [_ Hw1]. auto.
  - exists t. split; [done|]. split; [by apply goes_same|]. split; [apply fewer_neutral_refl|]. right. apply Hs.
Qed.
End ops.
