(* ===== verification/DncpTrustFile.v ===== *)
(** Requests for verdicts, certificates, the file of trust verdicts, and remote calls. *)
From S2P Require Import Prelude Bitops Prefix Tlv DncpNotify DncpIndex DncpState Dncp DncpFacts DncpPrune DncpInv DncpSteps DncpTrust DncpTrustFacts DncpTrustInv DncpTrustOps.

(** ** Hexadecimal text of any kind *)

Lemma i8_low c : byte_ok c -> ~ i8 c < 0 -> i8 c = c /\ c < 128.
Proof.
  unfold byte_ok, i8. intros Hc Hi. destruct (decide (c < 128)) as [Hlt|Hge]; [rewrite Z.mod_small by lia; lia|].
  replace (c + 2 ^ 7) with (c - 128 + 1 * 2 ^ 8) in Hi by lia. rewrite Z.mod_add, Z.mod_small in Hi by lia. lia.
Qed.

Lemma hexval_any c : byte_ok c -> exists x, hexval c = Some x /\ forall v, x = Some v -> 0 <= v < 16.
Proof.
  intros Hc. unfold hexval. case_decide as E; [by exists None|].
  destruct (i8_low c Hc E) as [-> Hlt].
  destruct (lookup_lt_is_Some_2 hexvals (Z.to_nat c)) as [v Hv]; [change (length hexvals) with 128%nat; unfold byte_ok in Hc; lia|]. rewrite Hv. cbn [mbind option_bind].
  assert (Forall (fun v => v < 16) hexvals) as Hall by decided. pose proof (Forall_lookup_1 _ _ _ _ Hall Hv) as Hv16. cbn beta in Hv16.
  eexists. split; [done|]. intros w. case_decide; [done|]. intros [= <-]. lia.
Qed.

Lemma skip_nonhex_any src : bytes_ok src -> 0 ∈ src -> exists s, skip_nonhex src = Some s /\ bytes_ok s /\ 0 ∈ s.
Proof.
  induction src as [|c src IH]; intros Hb H0; [by apply elem_of_nil in H0|]. pose proof Hb as [Hc Hb']%Forall_cons. cbn [skip_nonhex].
  assert (Hrest : c ≠ 0 -> 0 ∈ src) by (intros Hne; apply elem_of_cons in H0 as [|]; done).
  case_decide as E; [apply IH; [done|]; apply Hrest; intros ->; done|]. case_decide as E0; [|by exists (c :: src)].
  destruct (i8_low c Hc E) as [_ Hlt].
  destruct (lookup_lt_is_Some_2 hexvals (Z.to_nat c)) as [v ->]; [change (length hexvals) with 128%nat; unfold byte_ok in Hc; lia|]. cbn [mbind option_bind].
  case_decide; [by apply IH; auto|by exists (c :: src)].
Qed.

Lemma hex_byte x y : 0 <= x < 16 -> 0 <= y < 16 -> byte_ok (Z.lor (Z.shiftl x 4) y).
Proof.
  intros Hx Hy. unfold byte_ok. rewrite Z.shiftl_mul_pow2 by lia. split; [apply Z.lor_nonneg; lia|]. change 256 with (2 ^ 8).
  destruct (decide (Z.lor (x * 2 ^ 4) y = 0)) as [->|Hne]; [lia|]. apply Z.log2_lt_pow2; [assert (0 <= Z.lor (x * 2 ^ 4) y) by (apply Z.lor_nonneg; lia); lia|].
  rewrite Z.log2_lor by lia. apply Z.max_lub_lt.
  - destruct (decide (x = 0)) as [->|]; [done|]. apply Z.log2_lt_pow2; lia.
  - destruct (decide (y = 0)) as [->|]; [done|]. apply Z.log2_lt_pow2; lia.
Qed.

Lemma unhexlify_any k : forall dst c src, bytes_ok src -> 0 ∈ src -> bytes_ok dst -> (c + k <= length dst)%nat ->
  exists r d, unhexlify_loop k dst c src = Some (r, d) /\ length d = length dst /\ bytes_ok d.
Proof.
  induction k as [|k IH]; intros dst c src Hb H0 Hd Hk; cbn [unhexlify_loop]; [by eexists _, _|].
  destruct src as [|a src]; [by apply elem_of_nil in H0|]. apply Forall_cons in Hb as [Ha Hb]. cbn [rd lookup list_lookup mbind option_bind].
  case_decide as Ea; [by eexists _, _|]. apply elem_of_cons in H0 as [|H0]; [done|].
  destruct src as [|b src]; [by apply elem_of_nil in H0|]. apply Forall_cons in Hb as [Hb' Hb]. cbn [rd lookup list_lookup mbind option_bind].
  case_decide as Eb; [by eexists _, _|]. apply elem_of_cons in H0 as [|H0]; [done|].
  destruct (hexval_any a Ha) as (x & -> & Hx). cbn [mbind option_bind]. destruct x as [x|]; [|by eexists _, _].
  destruct (hexval_any b Hb') as (y & -> & Hy). cbn [mbind option_bind]. destruct y as [y|]; [|by eexists _, _].
  rewrite wr_Some by lia. cbn [mbind option_bind drop]. rewrite drop_0. destruct (skip_nonhex_any src Hb H0) as (s & -> & Hs & Hs0). cbn [mbind option_bind].
  destruct (IH (<[c := Z.lor (Z.shiftl x 4) y]> dst) (c + 1)%nat s Hs Hs0) as (r & d & E & Hl & Hd').
  - apply Forall_insert; [done|]. apply hex_byte; [by apply Hx|by apply Hy].
  - rewrite length_insert. lia.
  - exists r, d. rewrite length_insert in Hl. done.
Qed.

Lemma hexlify_any h : hash_ok h -> is_Some (hexlify (replicate (DNCP_SHA256_LEN * 2 + 1) 0) h DNCP_SHA256_LEN).
Proof.
  intros [Hl Hb]. unfold hexlify. pose proof (hexlify_loop_text [] h [] (replicate (DNCP_SHA256_LEN * 2 + 1) 0) Hb) as E. cbn [app length] in E.
  rewrite Hl in E. rewrite E by (rewrite length_replicate; lia). cbn [mbind option_bind]. rewrite wr_Some; [by eexists|].
  rewrite length_app, length_hextext, length_drop, length_replicate, Hl. unfold DNCP_SHA256_LEN. lia.
Qed.

Section file.
Context `{DX : !DncpExt, DC : !DncpCallbacks, TH : !TrustHost, DP : !Passive, VP : !VerdictPassive}.
Implicit Types (o : dncp) (t : trust) (h n c : list Z) (u : ltlv).

(** ** Requests *)

(** Few neutral verdicts, or none that is published. *)
Definition neutral_limited t : Prop := num_neutral t <= NEUTRAL_MAXIMUM \/ forall n, n ∈ t_tree t -> ~ neutral_published t n.

Lemma request_spec t h c : trust_ready t -> hash_ok h -> name_ok c -> exists t', dncp_trust_request_verdict t h c = Some t' /\ goes t t' /\
  if decide (DNCP_VERDICT_NEUTRAL < effective t h) then exists ix, t' = set_t_dncp (set_tix ix (t_dncp t)) t else neutral_limited t' /\ forall h' n, _trust_node_find t h' = Some n -> ~ is_neutral n -> _trust_node_find t' h' = Some n.
Proof.
  intros Hr Hh Hc. unfold dncp_trust_request_verdict. destruct (get_verdict_spec t h (rt_data t Hr) (rt_tree t Hr)) as (ix & c' & -> & Hix). cbn [mbind option_bind].
  pose proof (goes_tix t ix (tix_for_wf _ _ (proj2 (rt_data t Hr)) Hix) Hr) as Hg0. set (t0 := set_t_dncp (set_tix ix (t_dncp t)) t) in *.
  destruct (decide (DNCP_VERDICT_NEUTRAL < effective t h)) as [E|E]; [exists t0; split; [done|]; split; [done|by exists ix]|].
  destruct (dncp_trust_set_spec t0 h DNCP_VERDICT_NEUTRAL (Some c)) as (t1 & -> & Hg1 & _ & Hother); [apply Hg0|done|done|done|]. cbn [mbind option_bind].
  destruct (limit_neutral_spec (length (t_tree t1)) t1 (go_ready _ _ Hg1)) as (t2 & -> & Hg2 & [_ Hkeep] & Hlim); [done|].
  exists t2. split; [done|]. split; [eapply goes_trans; [exact Hg0|]; by eapply goes_trans|]. split; [exact Hlim|].
  intros h' n Hn Hneu. apply Hkeep; [|done]. rewrite Hother; [done|]. intros ->. unfold effective, local_verdict in E. rewrite Hn in E.
  destruct (find_stored t h n Hr Hn) as (Hok & _). pose proof (so_verdict n Hok). unfold is_neutral, DNCP_VERDICT_NEUTRAL in *. lia.
Qed.

(** ** Certificates *)

(** A certificate whose hash and subject have the sizes that the code relies on. *)
Definition cert_ok (c : cert) : Prop := hash_ok (sha256 (cert_der c)) /\ name_ok (cert_subject c).

Definition cert_hash (c : cert) : list Z := sha256 (cert_der c).

Definition fits (c : cert) : Prop := (0 < length (cert_der c) < 2048)%nat.

(** The timer lets unknown certificates in. *)
Definition timer_open t : Prop := trust_time t <= trust_until t.

Lemma cert_verdict_spec t (c : cert) : trust_ready t -> cert_ok c -> exists t' v, _trust_get_cert_verdict t c = Some (t', v) /\ goes t t' /\
  (~ fits c -> v = DNCP_VERDICT_NONE) /\
  (fits c -> v = if decide (effective t (cert_hash c) < DNCP_VERDICT_CONFIGURED_POSITIVE /\ timer_open t) then DNCP_VERDICT_CONFIGURED_POSITIVE
                 else Z.max DNCP_VERDICT_NEUTRAL (effective t (cert_hash c))).
Proof.
  intros Hr [Hh Hs]. unfold _trust_get_cert_verdict, fits, timer_open. case_decide as Ef; [exists t, DNCP_VERDICT_NONE; split_and!; [done|by apply goes_same|done|lia]|].
  destruct (get_verdict_spec t (cert_hash c) (rt_data t Hr) (rt_tree t Hr)) as (ix & c' & E & Hix). unfold cert_hash in *. rewrite E. cbn [mbind option_bind].
  pose proof (goes_tix t ix (tix_for_wf _ _ (proj2 (rt_data t Hr)) Hix) Hr) as Hg0. set (t0 := set_t_dncp (set_tix ix (t_dncp t)) t) in *.
  change (trust_time t0) with (trust_time t). change (trust_until t0) with (trust_until t).
  destruct (decide (effective t (sha256 (cert_der c)) < DNCP_VERDICT_CONFIGURED_POSITIVE /\ trust_time t <= trust_until t)) as [Ht|Ht].
  - destruct (dncp_trust_set_spec t0 (sha256 (cert_der c)) DNCP_VERDICT_CONFIGURED_POSITIVE (Some (cert_subject c))) as (t1 & -> & Hg1 & _); [apply Hg0|done|done|done|].
    cbn [mbind option_bind]. rewrite decide_True by done. exists t1, DNCP_VERDICT_CONFIGURED_POSITIVE. split_and!; [done|by eapply goes_trans|lia|done].
  - cbn [mbind option_bind]. assert (DNCP_VERDICT_NONE <= effective t (sha256 (cert_der c))) as Hge.
    { unfold effective, local_verdict. destruct (_trust_node_find t (sha256 (cert_der c))) as [n|] eqn:En; [|lia].
      destruct (find_stored t _ n Hr En) as (Hok & _). pose proof (so_verdict n Hok). unfold DNCP_VERDICT_NONE. lia. }
    unfold DNCP_VERDICT_NONE, DNCP_VERDICT_NEUTRAL in *. case_decide as En.
    + exists t0, (effective t (sha256 (cert_der c))). split_and!; [done|done|lia|lia].
    + destruct (request_spec t0 (sha256 (cert_der c)) (cert_subject c)) as (t1 & -> & Hg1 & _); [apply Hg0|done|done|]. cbn [mbind option_bind].
      exists t1, 0. split_and!; [done|by eapply goes_trans|lia|lia].
Qed.

(** ** The file *)

Lemma node_events_total s ns b : is_Some (node_events s ns b).
Proof.
  induction ns as [|n ns [es IH]]; [by eexists|]. cbn [node_events]. destruct (dncp_node_tlvs_total n) as [ts ->]. cbn [mbind option_bind].
  rewrite IH. by eexists.
Qed.

Lemma subscribe_total o s : exists o', dncp_subscribe o s = Some o' /\ calm o o' /\ verdict_tlvs o' = verdict_tlvs o.
Proof.
  destruct (dncp_subscribe o s) as [o'|] eqn:E; [|exfalso; revert E; unfold dncp_subscribe; cbv zeta; destruct (node_events_total s (reachable_nodes
    (call_all (local_tlv_events s (tlvs (set_subscribers (s :: subscribers o) o)) true) (set_subscribers (s :: subscribers o) o))) true) as [es ->]; done].
  exists o'. split; [done|]. split; [by eapply calm_subscribe|]. unfold dncp_subscribe in E. apply bind_Some in E as (es & _ & [= <-]).
  assert (Hv : forall l o1, verdict_tlvs (call_all l o1) = verdict_tlvs o1).
  { intros l o1. apply (call_all_ind (fun o' => verdict_tlvs o' = verdict_tlvs o1)); [|done]. intros e o2 <-. unfold call. by rewrite cb_verdicts. }
  by rewrite !Hv.
Qed.

(** Records come in the order of the tree. *)
Lemma insert_trust_last n l : Forall (fun m => hash_lt (tv_hash m) (tv_hash n)) l -> insert_trust n l = l ++ [n].
Proof.
  induction 1 as [|m l Hm Hl IH]; [done|]. cbn [insert_trust]. unfold _compare_trust_node, hash_lt in *. rewrite decide_False; [by rewrite IH|].
  rewrite memcmp_antisym. lia.
Qed.

(** A tree to be loaded: none of its verdicts is neutral. *)
Definition loadable (l : list (list Z)) : Prop := tree_ok l /\ Forall (fun n => ~ is_neutral n) l.

Lemma tree_app_cons l n ns : tree_ok (l ++ n :: ns) -> Forall (fun m => hash_lt (tv_hash m) (tv_hash n)) l /\ tree_ok ((l ++ [n]) ++ ns).
Proof.
  intros Ht. split; [|by rewrite <- app_assoc]. destruct Ht as [Hs _]. induction l as [|m l IH]; [constructor|]. cbn [app] in Hs. rewrite fmap_cons in Hs.
  apply StronglySorted_inv in Hs as [Hs Hm]. constructor; [|by apply IH]. rewrite Forall_forall in Hm. apply Hm, list_elem_of_fmap_2, elem_of_app. right. by left.
Qed.

Lemma tree_prefix l1 l2 : tree_ok (l1 ++ l2) -> tree_ok l1.
Proof.
  intros [Hs Hf]. apply Forall_app in Hf as [Hf _]. split; [|done]. rewrite fmap_app in Hs. revert Hs. generalize (tv_hash <$> l2). generalize (tv_hash <$> l1).
  intros a b. induction a as [|x a IH]; [constructor|]. cbn [app]. intros [Hs Hx]%StronglySorted_inv. constructor; [by apply IH|]. by apply Forall_app in Hx as [? _].
Qed.

(** Records of any order whose hashes are new; less than a record may follow. *)
Lemma load_records_any ns rest : forall fuel t, trust_ready t -> Forall stored_ok ns -> Forall (fun n => ~ is_neutral n) ns ->
  NoDup (tv_hash <$> ns) -> (forall n, n ∈ ns -> tv_hash n ∉ tv_hash <$> t_tree t) -> (length rest < stored_len)%nat -> (length (concat ns ++ rest) <= fuel)%nat ->
  exists t', load_records fuel t (concat ns ++ rest) = Some t' /\ goes t t' /\ t_tree t' = foldl (fun l n => insert_trust n l) (t_tree t) ns.
Proof.
  induction ns as [|n ns IH]; intros fuel t Hr Hok Hneu Hnd Hnew Hrest Hf.
  { exists t. split_and!; [|by apply goes_same|done]. destruct fuel; [done|]. cbn [load_records concat app]. by rewrite decide_True. }
  apply Forall_cons in Hok as [Hn Hok]. apply Forall_cons in Hneu as [Hnn Hneu]. rewrite fmap_cons in Hnd. apply NoDup_cons in Hnd as [Hns Hnd].
  cbn [concat] in *. rewrite <- app_assoc in *. rewrite length_app, (so_length n Hn) in Hf.
  destruct fuel as [|fuel]; [unfold stored_len, trust_header_len, DNCP_SHA256_LEN in Hf; lia|]. cbn [load_records].
  rewrite decide_False by (rewrite length_app, (so_length n Hn); lia). rewrite <- (so_length n Hn), take_app_length, drop_app_length.
  assert (Hnot : tv_hash n ∉ tv_hash <$> t_tree t) by (apply Hnew; by left).
  change (_trust_node_find t (tv_hash n)) with (tree_find (tv_hash n) (t_tree t)). rewrite (proj2 (tree_find_none _ _) Hnot).
  set (l := insert_trust n (t_tree t)). assert (Hl : l ≡ₚ n :: t_tree t) by apply insert_trust_perm.
  assert (Hr1 : trust_ready (set_t_tree l t)).
  { apply (ready_fields (set_num_neutral (neutral_count l) (set_t_tree l t))); try done; [apply ready_tree; [done|by apply insert_trust_ok; [apply Hr|..]|done]|]. cbn.
    rewrite (rt_count t Hr), (neutral_count_perm _ _ Hl). unfold neutral_count. by rewrite filter_cons, decide_False. }
  destruct (publish_spec _ n Hr1 Hn) as (t1 & -> & Hp). cbn [mbind option_bind]. pose proof (goes_publishing _ _ _ Hp) as Hg1. destruct Hp as (_ & (Et1 & _) & _).
  change (t_tree (set_t_tree l t)) with l in Et1.
  destruct (IH fuel t1 (go_ready _ _ Hg1) Hok Hneu Hnd) as (t2 & -> & Hg2 & Et2); [|done|unfold stored_len, trust_header_len, DNCP_SHA256_LEN in Hf; lia|].
  - intros m Hm. rewrite Et1, Hl, fmap_cons, not_elem_of_cons. split; [|apply Hnew; by right]. intros E. apply Hns. rewrite <- E. by apply list_elem_of_fmap_2.
  - exists t2. split_and!; [done| |by rewrite Et2, Et1].
    destruct Hg1 as [A1 A2 A3], Hg2 as [B1 B2 B3]. split; [done|exact (transitivity A2 B2)|exact (transitivity A3 B3)].
Qed.

Lemma insert_all ns : forall l, tree_ok (l ++ ns) -> foldl (fun l n => insert_trust n l) l ns = l ++ ns.
Proof.
  induction ns as [|n ns IH]; intros l Ht; [by rewrite app_nil_r|]. destruct (tree_app_cons _ _ _ Ht) as [Hlt Ht1]. cbn [foldl].
  rewrite insert_trust_last by done. rewrite IH by done. by rewrite <- app_assoc.
Qed.

(** ** The end, and remote calls *)

Lemma unsubscribe_total o s : exists o', dncp_unsubscribe o s = Some o' /\ calm o o' /\ verdict_tlvs o' = verdict_tlvs o.
Proof.
  destruct (dncp_unsubscribe o s) as [o'|] eqn:E.
  2: { exfalso. revert E. unfold dncp_unsubscribe. cbv zeta. by destruct (node_events_total s (reachable_nodes (call_all (local_tlv_events s (tlvs o) false) o)) false) as [es ->]. }
  exists o'. split; [done|]. split; [by eapply calm_unsubscribe|]. unfold dncp_unsubscribe in E. apply bind_Some in E as (es & _ & [= <-]).
  assert (Hv : forall l o1, verdict_tlvs (call_all l o1) = verdict_tlvs o1).
  { intros l o1. apply (call_all_ind (fun o' => verdict_tlvs o' = verdict_tlvs o1)); [|done]. intros e o2 <-. unfold call. by rewrite cb_verdicts. }
  change (verdict_tlvs (set_subscribers ?ss ?x)) with (verdict_tlvs x). by rewrite !Hv.
Qed.

Lemma flush_trust_spec l : forall t, trust_ready t -> t_tree t = l -> exists t', flush_trust t l = Some t' /\ goes t t' /\ t_tree t' = [].
Proof.
  induction l as [|n l IH]; intros t Hr El; cbn [flush_trust]; [by exists t; split; [|split; [apply goes_same|]]|].
  destruct (vlist_delete_spec t n Hr) as (t1 & -> & Hg1 & Et1 & _); [rewrite El; by left|]. cbn [mbind option_bind].
  pose proof (tree_nodup _ (rt_tree t Hr)) as Hnd. rewrite El, fmap_cons in Hnd. apply NoDup_cons in Hnd as [Hn _].
  pose proof (filter_hash_split n [] l) as Hs. cbn [app] in Hs. rewrite El, Hs in Et1; [|apply not_elem_of_nil|done].
  destruct (IH t1 (go_ready _ _ Hg1) Et1) as (t2 & -> & Hg2 & E2). exists t2. split; [done|]. split; [by eapply goes_trans|done].
Qed.

Lemma ready_save t opened : trust_ready t -> trust_ready (_trust_save t opened).
Proof.
  intros Hr. unfold _trust_save. cbn [t_filename]. destruct (t_filename t); [|done].
  case_decide; [by apply (ready_fields t)|]. destruct opened; by apply (ready_fields t).
Qed.

(** Destroying the module empties the tree. *)
Lemma destroy_spec t opened s : trust_ready t -> exists t', dncp_trust_destroy t opened s = Some t' /\ t_tree t' = [].
Proof.
  intros Hr. unfold dncp_trust_destroy. set (t1 := if t_filename t && _ then _ else t). assert (Hr1 : trust_ready t1) by (unfold t1; destruct (_ && _); [by apply ready_save|done]).
  destruct (unsubscribe_total (t_dncp t1) s) as (o & -> & Hc & Hv). cbn [mbind option_bind].
  assert (Hr2 : trust_ready (set_t_dncp o t1)) by (apply ready_dncp; [done|by rewrite Hv|done]).
  destruct (flush_trust_spec _ _ Hr2 eq_refl) as (t' & E & _ & Et). by exists t'.
Qed.

(** The part [l1] of the tree ends with the hash that was last. *)
Definition up_to (l1 : list (list Z)) (prev : option (list Z)) : Prop :=
  match prev with None => l1 = [] | Some h => exists l n, l1 = l ++ [n] /\ tv_hash n = h end.

Lemma next_hash_at t l1 l2 prev : trust_ready t -> t_tree t = l1 ++ l2 -> up_to l1 prev -> dncp_trust_next_hash t prev = tv_hash <$> t_tree t !! length l1.
Proof.
  intros Hr Et Hp. destruct prev as [h|]; [|by rewrite Hp]. destruct Hp as (l & n & -> & <-). unfold dncp_trust_next_hash.
  pose proof (tree_nodup _ (rt_tree t Hr)) as Hnd. rewrite <- app_assoc in Et. cbn [app] in Et. rewrite Et, fmap_app, fmap_cons in Hnd. apply NoDup_app in Hnd as (_ & Hnd & _).
  rewrite (proj2 (list_find_Some (fun x => tv_hash x = tv_hash n) (t_tree t) (length l) n)); [by rewrite length_app|].
  rewrite Et. split_and!; [by apply list_lookup_middle|done|]. intros j y Hj Hlt E. apply lookup_app_Some in Hj as [Hj|[? _]]; [|lia].
  apply (Hnd (tv_hash n)); [|by left]. rewrite <- E. by eapply list_elem_of_fmap_2, list_elem_of_lookup_2.
Qed.

(** The loop over the hashes goes through the tree. *)
Lemma for_each_hash_from l2 : forall fuel t l1 prev, trust_ready t -> t_tree t = l1 ++ l2 -> (length l2 <= fuel)%nat ->
  up_to l1 prev -> for_each_hash fuel t prev = Some (tv_hash <$> l2).
Proof.
  induction l2 as [|m l2 IH]; intros fuel t l1 prev Hr Et Hf Hp; pose proof (next_hash_at t l1 _ prev Hr Et Hp) as Hnext.
  - destruct fuel; cbn [for_each_hash]; rewrite Hnext, Et, app_nil_r, lookup_ge_None_2 by done; done.
  - cbn [length] in Hf. destruct fuel as [|fuel]; [lia|]. cbn [for_each_hash]. rewrite Hnext, Et, list_lookup_middle by done. cbn [fmap option_fmap option_map].
    rewrite (IH fuel t (l1 ++ [m]) (Some (tv_hash m)) Hr); [done|by rewrite Et, <- app_assoc|lia|by exists l1, m].
Qed.

Lemma rpc_entries_spec hs : forall t, trust_ready t -> Forall hash_ok hs -> exists t' l, rpc_entries t hs = Some (t', l) /\ goes t t' /\ length l = length hs.
Proof.
  induction hs as [|h hs IH]; intros t Hr Hhs; cbn [rpc_entries]; [exists t, []; split_and!; [done|by apply goes_same|done]|].
  apply Forall_cons in Hhs as [Hh Hhs]. destruct (get_verdict_spec t h (rt_data t Hr) (rt_tree t Hr)) as (ix & c & -> & Hix). cbn [mbind option_bind].
  pose proof (goes_tix t ix (tix_for_wf _ _ (proj2 (rt_data t Hr)) Hix) Hr) as Hg0. destruct (hexlify_any h Hh) as [buf ->]. cbn [mbind option_bind].
  destruct (IH _ (go_ready _ _ Hg0) Hhs) as (t' & l & -> & Hg & Hl). cbn [mbind option_bind]. eexists _, _. split_and!; [done|by eapply goes_trans|cbn [length]; by rewrite Hl].
Qed.

(** The list has an entry for each record. *)
Lemma rpc_list_spec t : trust_ready t -> exists t' l, _rpc_list t = Some (t', l) /\ goes t t' /\ length l = length (t_tree t).
Proof.
  intros Hr. unfold _rpc_list. rewrite (for_each_hash_from (t_tree t) _ t [] None Hr eq_refl) by done. cbn [mbind option_bind].
  destruct (rpc_entries_spec (tv_hash <$> t_tree t) t Hr) as (t' & l & E & Hg & Hl).
  - apply Forall_fmap, Forall_forall. intros n Hn. by apply hash_of_stored, (tree_stored _ _ (rt_tree t Hr)).
  - exists t', l. by rewrite length_fmap in Hl.
Qed.

(** Strings of a remote call end with their terminator. *)
Definition rpc_ok (a : rpc_attr) : Prop := match a with RpcString _ s => bytes_ok s /\ 0 ∈ s | RpcInt32 _ _ => True end.

Lemma rpc_set_spec t l : trust_ready t -> Forall rpc_ok l -> exists t' b, _rpc_set t l = Some (t', b) /\ goes t t'.
Proof.
  intros Hr Hl. unfold _rpc_set. match goal with |- context [foldl ?g _ l] => set (f := g) end.
  assert (Hp : forall p, (forall s, p.1 = Some s -> bytes_ok s /\ 0 ∈ s) -> forall s, (foldl f p l).1 = Some s -> bytes_ok s /\ 0 ∈ s).
  { clear Hr. induction Hl as [|a l Ha Hl IH]; intros p Hp; [done|]. cbn [foldl]. apply IH. destruct p as [hs v]. cbn [fst] in Hp. unfold f. destruct a as [n s|n x].
    - case_decide; [|done]. cbn [fst]. intros s' [= <-]. exact Ha.
    - by case_decide. }
  specialize (Hp (None, -1)). destruct (foldl f (None, -1) l) as [hs v]. cbn [fst] in Hp.
  destruct hs as [s|]; [|exists t, false; split; [done|by apply goes_same]]. case_decide; [exists t, false; split; [done|by apply goes_same]|].
  destruct (Hp ltac:(done) s eq_refl) as [Hb H0]. unfold unhexlify.
  destruct (unhexlify_any DNCP_SHA256_LEN (replicate DNCP_SHA256_LEN 0) 0 s Hb H0) as (r & d & -> & Hd & Hdb); [decided|by rewrite length_replicate|]. cbn [mbind option_bind].
  case_decide; [|exists t, false; split; [done|by apply goes_same]].
  destruct (dncp_trust_set_spec t d (v mod 256) None Hr) as (t' & -> & Hg & _); [by split|by apply Z.mod_pos_bound|split; [apply Forall_nil_2|cbn; unfold DNCP_T_TRUST_VERDICT_CNAME_LEN; lia]|].
  cbn [mbind option_bind]. by exists t', true.
Qed.
End file.
