(* ===== verification/DncpTrustProps.v ===== *)
(** What the trust verdicts guarantee: the state stays consistent, certificates are
    accepted exactly as the verdicts say, requests are bounded, and the file brings the
    lasting verdicts back.  Two ways in which requests get lost are shown on examples. *)
From S2P Require Import Prelude Bitops Prefix Tlv DncpNotify DncpIndex DncpState Dncp DncpFacts DncpProto DncpTimeout DncpPrune DncpInv DncpSteps DncpProps DncpExample DncpTrust DncpTrustFacts DncpTrustInv DncpTrustOps DncpTrustFile.

(** ** Operations *)

Section props.
Context `{DX : !DncpExt, DC : !DncpCallbacks, TH : !TrustHost, DP : !Passive, VP : !VerdictPassive}.
Implicit Types (o : dncp) (t : trust).

(** What happens to a trust module: calls, its callbacks and timer, and changes of the
    DNCP state that are not its own. *)
Inductive trust_op :=
| ToSet (h : list Z) (v : Z) (c : option (list Z))
| ToTlv (ni : node_id) (a : attr)
| ToRequest (h c : list Z)
| ToCert (c : cert)
| ToWrite (opened : bool)
| ToTimer (l : list rpc_attr)
| ToRpcSet (l : list rpc_attr)
| ToRpcList
| ToDncp (o : dncp).

Definition trust_run t (op : trust_op) : option trust :=
  match op with
  | ToSet h v c => dncp_trust_set t h v c
  | ToTlv ni a => _tlv_cb t ni a
  | ToRequest h c => dncp_trust_request_verdict t h c
  | ToCert c => fst <$> dncp_trust_dtls_unknown_cb t c
  | ToWrite opened => Some (_trust_write_cb t opened)
  | ToTimer l => Some (_rpc_set_timer t l)
  | ToRpcSet l => fst <$> _rpc_set t l
  | ToRpcList => fst <$> _rpc_list t
  | ToDncp o => Some (set_t_dncp o t)
  end.

(** Arguments that callers give: hashes of 32 bytes, verdicts of one byte, names that fit,
    strings with a terminator.  Whatever changes the DNCP state leaves our verdicts alone. *)
Definition op_ok t (op : trust_op) : Prop :=
  match op with
  | ToSet h v c => hash_ok h /\ 0 <= v < 256 /\ name_ok (default [] c)
  | ToRequest h c => hash_ok h /\ name_ok c
  | ToTlv _ a => bytes_ok a.2
  | ToCert c => cert_ok c
  | ToRpcSet l => Forall rpc_ok l
  | ToDncp o => tlvs_wf o /\ is_Some (own_node o) /\ verdict_tlvs o = verdict_tlvs (t_dncp t)
  | _ => True
  end.

(** The records [ns] in any order and less than a record at the end: no hash is there
    twice, no verdict is neutral, and names are terminated. *)
Definition records_ok (ns : list (list Z)) (rest : list Z) : Prop :=
  Forall stored_ok ns /\ Forall (fun n => ~ is_neutral n) ns /\ NoDup (tv_hash <$> ns) /\ (length rest < stored_len)%nat.

(** The file is missing, empty, of another version, or holds such records. *)
Definition file_ok (f : option (list Z)) : Prop :=
  match f with
  | None | Some [] => True
  | Some (v :: r) => v ≠ SAVE_VERSION \/ exists ns rest, r = concat ns ++ rest /\ records_ok ns rest
  end.

Lemma loadable_records ns : loadable ns -> records_ok ns [].
Proof. intros [Ht Hn]. split_and!; [apply Ht|done|by apply tree_nodup|]. unfold stored_len, trust_header_len, DNCP_SHA256_LEN. cbn [length]. lia. Qed.

Inductive trust_reach : trust -> Prop :=
| ReachCreate o fn f s t : tlvs_wf o -> is_Some (own_node o) -> verdict_tlvs o = [] -> file_ok f -> dncp_trust_create o fn f s = Some t -> trust_reach t
| ReachStep t op t' : trust_reach t -> op_ok t op -> trust_run t op = Some t' -> trust_reach t'.

Definition fresh_trust o fn f : trust := mk_trust o fn f (replicate 32 0) [] [] None 0 0.

Lemma fresh_ready o fn f : tlvs_wf o -> is_Some (own_node o) -> verdict_tlvs o = [] -> trust_ready (fresh_trust o fn f).
Proof. intros Hd Ho Hv. split; cbn; rewrite ?Hv; try done; [split; constructor|by intros u v ?%elem_of_nil|by intros u ?%elem_of_nil]. Qed.

Lemma load_spec o fn f : tlvs_wf o -> is_Some (own_node o) -> verdict_tlvs o = [] -> file_ok f ->
  exists t, _trust_load (fresh_trust o fn f) = Some t /\ trust_ready t /\
    (forall ns, fn = true -> f = Some (SAVE_VERSION :: concat ns) -> loadable ns -> t_tree t = ns).
Proof.
  intros Hd Ho Hv Hf. pose proof (fresh_ready o fn f Hd Ho Hv) as Hr. unfold _trust_load. cbn [t_filename t_file fresh_trust].
  destruct fn; [|by exists (fresh_trust o false f)]. destruct f as [[|v r]|]; [by exists (fresh_trust o true (Some []))| |by exists (fresh_trust o true None)].
  assert (Hload : forall ns rest, r = concat ns ++ rest -> records_ok ns rest -> exists t, load_records (length r) (fresh_trust o true (Some (v :: r))) r = Some t /\
    trust_ready t /\ t_tree t = foldl (fun l n => insert_trust n l) [] ns).
  { intros ns rest -> (H1 & H2 & H3 & H4).
    destruct (load_records_any ns rest (length (concat ns ++ rest)) (fresh_trust o true (Some (v :: concat ns ++ rest)))) as (t & E & Hg & Et); [done..|intros n _; apply not_elem_of_nil|done|done|].
    exists t. split_and!; [done|apply Hg|done]. }
  case_decide as Ev; [|exists (fresh_trust o true (Some (v :: r))); split_and!; [done|done|]; intros ns _ [= E _]; congruence].
  destruct Hf as [?|(ns & rest & Er & Hns)]; [done|]. destruct (Hload ns rest Er Hns) as (t & E & Ht & Et). exists t. split_and!; [done|done|].
  intros ns' _ [= -> Er'] Hns'. destruct (Hload ns' []) as (t' & E' & _ & Et'); [by rewrite app_nil_r|by apply loadable_records|].
  replace t with t' by congruence. rewrite Et'. apply (insert_all ns' []). apply Hns'.
Qed.

Lemma create_spec o fn f s : tlvs_wf o -> is_Some (own_node o) -> verdict_tlvs o = [] -> file_ok f ->
  exists t, dncp_trust_create o fn f s = Some t /\ trust_ready t /\ t_file_hash t = _trust_calculate_hash t /\
    (forall ns, fn = true -> f = Some (SAVE_VERSION :: concat ns) -> loadable ns -> t_tree t = ns).
Proof.
  intros Hd Ho Hv Hf. unfold dncp_trust_create. fold (fresh_trust o fn f). destruct (load_spec o fn f) as (t & -> & Hr & Ht); [done..|]. cbn [mbind option_bind].
  destruct (subscribe_total (t_dncp t) s) as (o' & E & Hc & Hvo). change (t_dncp (set_t_file_hash (_trust_calculate_hash t) t)) with (t_dncp t). rewrite E.
  cbn [mbind option_bind]. eexists. split; [done|]. split; [|done].
  apply (ready_dncp (set_t_file_hash (_trust_calculate_hash t) t) o' Hc); [by rewrite Hvo|]. by apply (ready_fields t).
Qed.

Lemma step_spec t op : trust_ready t -> op_ok t op -> exists t', trust_run t op = Some t' /\ trust_ready t'.
Proof.
  intros Hr Hop. destruct op as [h v c|ni a|h c|c|opened|l|l| |o]; cbn [trust_run op_ok] in *.
  - destruct Hop as (? & ? & ?). destruct (dncp_trust_set_spec t h v c) as (t' & E & Hg & _); [done..|]. exists t'. split; [done|apply Hg].
  - destruct (tlv_cb_spec t ni a Hr Hop) as (t' & E & Hg). exists t'. split; [done|apply Hg].
  - destruct Hop. destruct (request_spec t h c) as (t' & E & Hg & _); [done..|]. exists t'. split; [done|apply Hg].
  - destruct (cert_verdict_spec t c Hr Hop) as (t' & v & E & Hg & _). unfold dncp_trust_dtls_unknown_cb. rewrite E. exists t'. split; [done|apply Hg].
  - eexists. split; [done|]. apply ready_save. by apply (ready_fields t).
  - eexists. split; [done|]. by apply (ready_fields t).
  - destruct (rpc_set_spec t l Hr Hop) as (t' & b & -> & Hg). exists t'. split; [done|apply Hg].
  - destruct (rpc_list_spec t Hr) as (t' & l & -> & Hg & _). exists t'. split; [done|apply Hg].
  - destruct Hop as (Hd & Ho & Hv). eexists. split; [done|]. destruct Hr as [H1 H2 H3 H4 H5 H6]. split; cbn [set_t_dncp t_dncp t_tree num_neutral t_times]; try done.
    + intros u v. rewrite Hv. apply H5.
    + intros u. rewrite Hv. apply H6.
Qed.

Lemma trust_reach_ready t : trust_reach t -> trust_ready t.
Proof.
  induction 1 as [o fn f s t Hd Ho Hv Hf E|t op t' _ Hr Hop E].
  - destruct (create_spec o fn f s) as (t' & E' & Hr & _); [done..|]. congruence.
  - destruct (step_spec t op Hr Hop) as (t1 & E1 & H1). congruence.
Qed.

(** C12: In every state the trust module reaches by setting verdicts, TLVs of other nodes,
    requests, certificates, writing the file, the three RPC methods and changes of DNCP, the
    tree is ordered by hash without duplicates and every record has its size and a
    terminated name, the number of neutral verdicts is exact, every hash is published at
    most once, everything that may happen next has a defined result, and destroying the
    module ends with an empty tree. It starts without a file, with one of another version,
    or with one whose records, in any order and with a partial one at the end, have
    terminated names, no neutral verdict and no hash twice; hashes have 32 bytes, verdicts
    one, names fit, RPC strings are terminated, and changes of DNCP leave our verdict TLVs
    alone. *)
Theorem trust_operations_safe t : trust_reach t ->
  tree_ok (t_tree t) /\ num_neutral t = neutral_count (t_tree t) /\
  (forall u v, u ∈ verdict_tlvs (t_dncp t) -> v ∈ verdict_tlvs (t_dncp t) -> utv_hash u = utv_hash v -> u = v) /\
  (forall op, op_ok t op -> exists t', trust_run t op = Some t' /\ trust_reach t') /\
  (forall opened s, exists t', dncp_trust_destroy t opened s = Some t' /\ t_tree t' = []).
Proof.
  intros H. pose proof (trust_reach_ready t H) as Hr. split_and!; [apply Hr|apply Hr|apply Hr| |intros opened s; by apply destroy_spec].
  intros op Hop. destruct (step_spec t op Hr Hop) as (t' & E & _). exists t'. split; [done|by eapply ReachStep].
Qed.

(** C9: The DTLS callback accepts a certificate exactly if its encoding fits the buffer and the
    highest of our verdict and those found at all other reachable nodes is positive, or is
    below a configured one while the trust timer is open. The verdicts found at a node are
    those its TLV index leads to; where its data is in the order of types they are all
    verdicts in it. *)
Theorem trust_accepts_exactly t c : trust_reach t -> cert_ok c -> exists t' b, dncp_trust_dtls_unknown_cb t c = Some (t', b) /\
  effective t (cert_hash c) = foldl Z.max (local_verdict t (cert_hash c)) (remote_verdicts (t_dncp t) (cert_hash c)) /\
  (forall n, n ∈ other_nodes (t_dncp t) -> in_order n -> verdicts_in (cert_hash c) (found_tlvs (t_dncp t) n) = verdicts_in (cert_hash c) (raw_tlvs n)) /\
  (b = true <-> fits c /\ (effective t (cert_hash c) = DNCP_VERDICT_CACHED_POSITIVE \/ effective t (cert_hash c) = DNCP_VERDICT_CONFIGURED_POSITIVE \/
                           (effective t (cert_hash c) < DNCP_VERDICT_CONFIGURED_POSITIVE /\ timer_open t))).
Proof.
  intros H Hc. pose proof (trust_reach_ready t H) as Hr. destruct (cert_verdict_spec t c Hr Hc) as (t' & v & E & _ & Hno & Hfit).
  unfold dncp_trust_dtls_unknown_cb. rewrite E. cbn [mbind option_bind]. eexists _, _. split; [done|]. split.
  { unfold effective, best_remote. assert (Hm : forall l a b, Z.max a (foldl Z.max b l) = foldl Z.max (Z.max a b) l).
    { induction l as [|x l IH]; intros a b; [done|]. cbn [foldl]. rewrite IH. f_equal. lia. }
    rewrite Hm, Z.max_l; [done|]. unfold local_verdict. destruct (_trust_node_find t (cert_hash c)) as [n|] eqn:En; [|done].
    destruct (find_stored t _ n Hr En) as (Hok & _). pose proof (so_verdict n Hok). unfold DNCP_VERDICT_NONE. lia. }
  split; [intros n _; by apply found_in_order, Hr|].
  rewrite bool_decide_eq_true. unfold DNCP_VERDICT_CACHED_POSITIVE, DNCP_VERDICT_CONFIGURED_POSITIVE, DNCP_VERDICT_NONE, DNCP_VERDICT_NEUTRAL in *.
  destruct (decide (fits c)) as [Hf|Hf]; [rewrite (Hfit Hf)|rewrite (Hno Hf); split; [lia|tauto]].
  case_decide as Ed; [tauto|]. split; [intros; split; [done|lia]|]. intros [_ [?|[?|?]]]; [lia|lia|tauto].
Qed.

(** C33: Setting a new verdict stores it, changes no other hash, and publishes it if it is
    better than those found at all other reachable nodes; if it is worse, nothing on the
    hash stays published; for equal verdicts the comparison with a node that has it decides.
    The verdicts found at a node are those its TLV index leads to; where its data is in the
    order of types they are all verdicts in it. *)
Theorem trust_set_published t h v c : trust_reach t -> hash_ok h -> 0 <= v < 256 -> name_ok (default [] c) -> local_verdict t h ≠ v ->
  exists t' n, dncp_trust_set t h v c = Some t' /\ local_verdict t' h = v /\
    (forall h', h' ≠ h -> _trust_node_find t' h' = _trust_node_find t h') /\ tv_hash n = h /\ tv_verdict n = v /\ published_as t n t' /\
    (forall m, m ∈ other_nodes (t_dncp t) -> in_order m -> verdicts_in h (found_tlvs (t_dncp t) m) = verdicts_in h (raw_tlvs m)).
Proof.
  intros H Hh Hv Hc Hne. pose proof (trust_reach_ready t H) as Hr. unfold dncp_trust_set.
  destruct (trust_set_spec t h v c) as (t1 & b & -> & Hs & Hb); [done..|]. cbn [mbind option_bind].
  pose proof (vs_here _ _ _ _ Hs) as (n & Hn & Hno & Enh & Env). destruct b.
  2: { rewrite (Hb eq_refl) in Hn. unfold local_verdict in Hne. by rewrite Hn in Hne. }
  rewrite Hn. cbn [mbind option_bind]. destruct (publish_spec t1 n (vs_ready _ _ _ _ Hs) Hno) as (t2 & -> & Hp). exists t2, n. split_and!; try done.
  - unfold local_verdict. by rewrite (find_publishing _ _ _ _ Hp), Hn.
  - intros h' Hh'. rewrite (find_publishing _ _ _ _ Hp). by apply (vs_other _ _ _ _ Hs).
  - destruct Hp as (_ & _ & _ & Hp). destruct Hs as [(F1 & _) _ _ _]. unfold published_as, prevails, gives_way, same_verdict in *. by rewrite F1 in Hp.
  - intros m _. apply found_in_order, Hr.
Qed.

(** C34: A request for a verdict returns. If the highest known verdict is above neutral only the
    TLV index may change. Otherwise there are afterwards at most ten neutral verdicts, or
    none of them is published; and no other verdict is lost. *)
Theorem trust_request_bounded t h c : trust_reach t -> hash_ok h -> name_ok c ->
  exists t', dncp_trust_request_verdict t h c = Some t' /\
    if decide (DNCP_VERDICT_NEUTRAL < effective t h) then exists ix, t' = set_t_dncp (set_tix ix (t_dncp t)) t
    else neutral_limited t' /\ forall h' n, _trust_node_find t h' = Some n -> ~ is_neutral n -> _trust_node_find t' h' = Some n.
Proof.
  intros H Hh Hc. pose proof (trust_reach_ready t H) as Hr. destruct (request_spec t h c) as (t' & E & _ & Hs); [done..|].
  exists t'. split; [done|exact Hs].
Qed.

Lemma lasting_loadable t : trust_ready t -> loadable (lasting (t_tree t)).
Proof. intros Hr. split; [apply tree_filter, Hr|]. apply Forall_forall. by intros n [? _]%list_elem_of_filter. Qed.

(** C35: A module created with the file that was saved has exactly the verdicts that were not
    neutral, and the hash that prevents saving them again. *)
Theorem trust_file_roundtrip t o s : trust_reach t -> t_filename t = true -> t_file_hash t ≠ _trust_calculate_hash t ->
  tlvs_wf o -> is_Some (own_node o) -> verdict_tlvs o = [] ->
  exists t', dncp_trust_create o true (t_file (_trust_save t true)) s = Some t' /\ t_tree t' = lasting (t_tree t) /\
    t_file_hash t' = t_file_hash (_trust_save t true).
Proof.
  intros H Hfn Hne Hd Ho Hv. pose proof (lasting_loadable t (trust_reach_ready t H)) as Hl.
  unfold _trust_save. rewrite Hfn. cbn [set_t_file_hash t_file_hash t_tree]. rewrite decide_False by done. cbn [set_t_file t_file t_file_hash].
  destruct (create_spec o true (Some (SAVE_VERSION :: concat (lasting (t_tree t)))) s) as (t' & E & Hr' & Eh & Et); [done..|right; exists (lasting (t_tree t)), []; split; [by rewrite app_nil_r|by apply loadable_records]|].
  specialize (Et _ eq_refl eq_refl Hl). exists t'. split_and!; [done|done|]. rewrite Eh. unfold _trust_calculate_hash. rewrite Et.
  unfold lasting. by rewrite list_filter_filter_l by done.
Qed.

End props.

(** ** Examples *)

#[local] Existing Instance toy_ext.
#[local] Existing Instance toy_cb.
#[local] Existing Instance toy_passive.
#[local] Existing Instances by_type_dec tlvs_ok_dec tlvs_sorted_dec data_ok_dec.

#[local] Instance toy_verdicts : VerdictPassive.
Proof. by split. Qed.

#[local] Instance toy_trust : TrustHost := {| md5 := fun l => toy_hash l ++ toy_hash (rev l) ++ replicate 8 0; sha256 := fun l => toy_hash l ++ replicate 28 0 |}.

Definition trust_base : dncp := joined_up.

Lemma trust_base_ok : tlvs_wf trust_base /\ is_Some (own_node trust_base) /\ verdict_tlvs trust_base = [].
Proof.
  split_and!; [|by eexists; vm_compute|vm_compute; reflexivity].
  split; [decided|]. assert (tix trust_base = dncp_add_tlv_index (dncp_add_tlv_index tindex_empty 8) 9) as -> by (vm_compute; reflexivity).
  do 2 apply dncp_add_tlv_index_wf. apply tindex_empty_wf.
Qed.

Definition trust_sub : subscriber := mk_subscriber 3 [DNCP_CALLBACK_TLV].

(** A module that has read no file. *)
Definition trust_start : trust := default (fresh_trust trust_base true None) (dncp_trust_create trust_base true None trust_sub).

Lemma trust_start_reach : trust_reach trust_start.
Proof.
  destruct trust_base_ok as (Hd & Ho & Hv). destruct (create_spec trust_base true None trust_sub Hd Ho Hv I) as (t & E & _).
  apply (ReachCreate trust_base true None trust_sub); [exact Hd|exact Ho|exact Hv|exact I|]. unfold trust_start. rewrite E. reflexivity.
Qed.

(** A hash of 32 bytes. *)
Definition hash_no (i : Z) : list Z := i :: replicate 31 0.

Lemma hash_no_ok i : byte_ok i -> hash_ok (hash_no i).
Proof. intros Hi. split; [done|]. constructor; [done|]. apply Forall_replicate. by vm_compute. Qed.

(** The user trusts a certificate. *)
Definition trusting : trust := default trust_start (dncp_trust_set trust_start (hash_no 5) DNCP_VERDICT_CONFIGURED_POSITIVE (Some [97])).

Lemma trusting_reach : trust_reach trusting.
Proof.
  pose proof trust_start_reach as Hs. unfold trusting. revert Hs. generalize trust_start as t. intros t Ht.
  assert (op_ok t (ToSet (hash_no 5) DNCP_VERDICT_CONFIGURED_POSITIVE (Some [97]))) as Hop by (split_and!; [by apply hash_no_ok|done|done|split; [by repeat constructor|vm_compute; lia]]).
  destruct (step_spec _ _ (trust_reach_ready _ Ht) Hop) as (t' & E & _). apply (ReachStep t _ t' Ht Hop) in E as H'. cbn [trust_run] in E. by rewrite E.
Qed.

Lemma trust_operations_safe_witness : tree_ok (t_tree trusting) /\ num_neutral trusting = neutral_count (t_tree trusting) /\
  (forall u v, u ∈ verdict_tlvs (t_dncp trusting) -> v ∈ verdict_tlvs (t_dncp trusting) -> utv_hash u = utv_hash v -> u = v) /\
  (forall op, op_ok trusting op -> exists t', trust_run trusting op = Some t' /\ trust_reach t') /\
  (forall opened s, exists t', dncp_trust_destroy trusting opened s = Some t' /\ t_tree t' = []).
Proof. apply trust_operations_safe. exact trusting_reach. Defined.

Definition some_cert : cert := mk_cert [48; 1; 2] [47; 67].

Lemma some_cert_ok : cert_ok some_cert.
Proof. split; [split; [done|decided]|]. split; [by repeat constructor|vm_compute; lia]. Qed.

Lemma trust_accepts_exactly_witness : exists t' b, dncp_trust_dtls_unknown_cb trusting some_cert = Some (t', b) /\
  effective trusting (cert_hash some_cert) = foldl Z.max (local_verdict trusting (cert_hash some_cert)) (remote_verdicts (t_dncp trusting) (cert_hash some_cert)) /\
  (forall n, n ∈ other_nodes (t_dncp trusting) -> in_order n -> verdicts_in (cert_hash some_cert) (found_tlvs (t_dncp trusting) n) = verdicts_in (cert_hash some_cert) (raw_tlvs n)) /\
  (b = true <-> fits some_cert /\ (effective trusting (cert_hash some_cert) = DNCP_VERDICT_CACHED_POSITIVE \/ effective trusting (cert_hash some_cert) = DNCP_VERDICT_CONFIGURED_POSITIVE \/
                           (effective trusting (cert_hash some_cert) < DNCP_VERDICT_CONFIGURED_POSITIVE /\ timer_open trusting))).
Proof. apply trust_accepts_exactly; [exact trusting_reach|exact some_cert_ok]. Defined.

Lemma trust_set_published_witness : exists t' n, dncp_trust_set trust_start (hash_no 5) 3 None = Some t' /\ local_verdict t' (hash_no 5) = 3 /\
    (forall h', h' ≠ hash_no 5 -> _trust_node_find t' h' = _trust_node_find trust_start h') /\ tv_hash n = hash_no 5 /\ tv_verdict n = 3 /\ published_as trust_start n t' /\
    (forall m, m ∈ other_nodes (t_dncp trust_start) -> in_order m -> verdicts_in (hash_no 5) (found_tlvs (t_dncp trust_start) m) = verdicts_in (hash_no 5) (raw_tlvs m)).
Proof.
  apply (trust_set_published trust_start (hash_no 5) 3 None trust_start_reach); [by apply hash_no_ok|done|split; [constructor|vm_compute; lia]|vm_compute; discriminate].
Defined.

Lemma trust_request_bounded_witness : exists t', dncp_trust_request_verdict trusting (hash_no 6) [98] = Some t' /\
    if decide (DNCP_VERDICT_NEUTRAL < effective trusting (hash_no 6)) then exists ix, t' = set_t_dncp (set_tix ix (t_dncp trusting)) trusting
    else neutral_limited t' /\ forall h' n, _trust_node_find trusting h' = Some n -> ~ is_neutral n -> _trust_node_find t' h' = Some n.
Proof.
  apply (trust_request_bounded trusting (hash_no 6) [98] trusting_reach); [by apply hash_no_ok|split; [by repeat constructor|vm_compute; lia]].
Defined.

Lemma trust_file_roundtrip_witness : exists t', dncp_trust_create trust_base true (t_file (_trust_save trusting true)) trust_sub = Some t' /\
  t_tree t' = lasting (t_tree trusting) /\ t_file_hash t' = t_file_hash (_trust_save trusting true).
Proof.
  destruct trust_base_ok as (Hd & Ho & Hv). apply trust_file_roundtrip; [exact trusting_reach|vm_compute; reflexivity|vm_compute; discriminate|exact Hd|exact Ho|exact Hv].
Defined.

(** ** Lost requests *)

(** A neutral verdict of the neighbour on hash [i]. *)
Definition asked (i : Z) : attr := (10, replicate 4 0 ++ hash_no i ++ [0]).

(** The neighbour asks about ten certificates. *)
Definition crowded : trust := foldl (fun t i => default t (_tlv_cb t peer_id (asked i))) trust_start [1; 2; 3; 4; 5; 6; 7; 8; 9; 10].

(** Neutral verdicts of another node are stored and counted although they are never
    published here: with ten of them, our own request is removed as soon as it is made. *)
Lemma trust_request_crowded_out : num_neutral crowded = 10 /\
  (t' ← dncp_trust_request_verdict crowded (hash_no 20) [98];
   Some (_trust_node_find t' (hash_no 20), _find_local_tlv (t_dncp t') (hash_no 20), num_neutral t')) = Some (None, None, 10).
Proof. split; vm_compute; reflexivity. Qed.

(** Ten requests follow one whose name was changed. *)
Definition renamed : option trust :=
  t ← dncp_trust_request_verdict trust_start (hash_no 1) [97];
  t ← dncp_trust_request_verdict t (hash_no 1) [98];
  foldl (fun t i => t ← t; dncp_trust_request_verdict t (hash_no i) [99]) (Some t) [2; 3; 4; 5; 6; 7; 8; 9; 10; 11].

(** A new name for the same verdict is not published, and the TLV with the old name stays
    when the node is removed. *)
Lemma trust_renamed_stays : (t ← renamed; Some (_trust_node_find t (hash_no 1), bool_decide (is_Some (_find_local_tlv (t_dncp t) (hash_no 1))))) = Some (None, true).
Proof. vm_compute. reflexivity. Qed.

(** When the file cannot be opened, the hash of what was to be saved is kept, and the next
    attempt does nothing. *)
Lemma trust_save_lost : t_file (_trust_save (_trust_save trusting false) true) = None /\ t_file (_trust_save trusting true) ≠ None.
Proof. split; vm_compute; [reflexivity|discriminate]. Qed.
