(* ===== verification/HncpPa.v ===== *)
(** Delegated prefixes: the model of what [src/hncp_pa.c] and [src/hncp_pa_i.h] do with them.

    A delegated prefix comes from an interface, from another node or is generated here.
    The list of them decides which ones the prefix assignment uses; those of this node are
    published in external connection TLVs.  Calls of the core of the prefix assignment and
    of the users are recorded in a log; the pairs that the core has for a delegated prefix
    are a function of the calls made so far. *)
From S2P Require Import Prelude Bitops Prefix Tlv DnsUtil PaCore PaStore DncpNotify DncpIndex DncpState Dncp Hncp HncpRouting.

(** ** Types *)

Definition HNCP_T_DHCP_OPTIONS : Z := 37.
Definition HNCP_T_DHCPV6_OPTIONS : Z := 38.
Definition HNCP_T_DNS_DELEGATED_ZONE : Z := 39.
Definition DHCPV6_OPT_DNS_DOMAIN : Z := 24.
Definition DHCPV4_OPT_DOMAIN : Z := 15.
Definition HNETD_TIME_MAX : Z := 2 ^ 63 - 1.
Definition HNETD_TIME_PER_SECOND : Z := 1000.
Definition UINT32_MAX : Z := 2 ^ 32 - 1.
Definition HNCP_PA_PD_TEMP_LEASE : Z := 60 * HNETD_TIME_PER_SECOND.
Definition HNCP_PA_DP_DELAYED_DELETE_MS : Z := 50.
Definition HPA_ULA_MAX_BACKOFF : Z := 3000.
Definition IFNAMSIZ : nat := 16.

Definition HPA_DP_T_IFACE : Z := 1.
Definition HPA_DP_T_LOCAL : Z := 2.
Definition HPA_DP_T_HNCP : Z := 3.
Definition HPA_LINK_T_IFACE : Z := 1.
Definition HPA_LINK_T_LEASE : Z := 2.

(** A pointer to a delegated prefix: the two embedded ones, or one from [calloc]. *)
Inductive dp_ptr := V4Dp | UlaDp | HeapDp (n : nat).

#[global] Instance dp_ptr_eq_dec : EqDecision dp_ptr.
Proof. solve_decision. Defined.

#[global] Instance dp_ptr_countable : Countable dp_ptr.
Proof.
  apply (inj_countable' (fun p => match p with V4Dp => None | UlaDp => Some None | HeapDp n => Some (Some n) end)
    (fun s => match s with None => V4Dp | Some None => UlaDp | Some (Some n) => HeapDp n end)). by intros [].
Defined.

(** [struct hpa_dp_struct], with [struct hncp_pa_dp] and what is used of [struct pa_dp]; the
    members of the union have fields of their own, and interfaces are named. *)
Record hpa_dp := mk_hpa_dp {
  hd_prefix : prefix;
  hd_enabled : bool;
  hd_local : bool;
  hd_type : Z;
  hd_valid : Z;
  hd_preferred : Z;
  hd_dhcp : list Z;
  hd_iface : option (list Z);
  hd_excluded : bool;
  hd_excluded_prefix : prefix;
  hd_node_id : list Z;
  hd_delete_to : option Z;
  hd_dst_present : bool;
  hd_dst : prefix
}.

Definition set_hd_prefix (v : prefix) (x : hpa_dp) : hpa_dp := mk_hpa_dp v (hd_enabled x) (hd_local x) (hd_type x) (hd_valid x) (hd_preferred x) (hd_dhcp x) (hd_iface x) (hd_excluded x) (hd_excluded_prefix x) (hd_node_id x) (hd_delete_to x) (hd_dst_present x) (hd_dst x).
Definition set_hd_enabled (v : bool) (x : hpa_dp) : hpa_dp := mk_hpa_dp (hd_prefix x) v (hd_local x) (hd_type x) (hd_valid x) (hd_preferred x) (hd_dhcp x) (hd_iface x) (hd_excluded x) (hd_excluded_prefix x) (hd_node_id x) (hd_delete_to x) (hd_dst_present x) (hd_dst x).
Definition set_hd_local (v : bool) (x : hpa_dp) : hpa_dp := mk_hpa_dp (hd_prefix x) (hd_enabled x) v (hd_type x) (hd_valid x) (hd_preferred x) (hd_dhcp x) (hd_iface x) (hd_excluded x) (hd_excluded_prefix x) (hd_node_id x) (hd_delete_to x) (hd_dst_present x) (hd_dst x).
Definition set_hd_type (v : Z) (x : hpa_dp) : hpa_dp := mk_hpa_dp (hd_prefix x) (hd_enabled x) (hd_local x) v (hd_valid x) (hd_preferred x) (hd_dhcp x) (hd_iface x) (hd_excluded x) (hd_excluded_prefix x) (hd_node_id x) (hd_delete_to x) (hd_dst_present x) (hd_dst x).
Definition set_hd_valid (v : Z) (x : hpa_dp) : hpa_dp := mk_hpa_dp (hd_prefix x) (hd_enabled x) (hd_local x) (hd_type x) v (hd_preferred x) (hd_dhcp x) (hd_iface x) (hd_excluded x) (hd_excluded_prefix x) (hd_node_id x) (hd_delete_to x) (hd_dst_present x) (hd_dst x).
Definition set_hd_preferred (v : Z) (x : hpa_dp) : hpa_dp := mk_hpa_dp (hd_prefix x) (hd_enabled x) (hd_local x) (hd_type x) (hd_valid x) v (hd_dhcp x) (hd_iface x) (hd_excluded x) (hd_excluded_prefix x) (hd_node_id x) (hd_delete_to x) (hd_dst_present x) (hd_dst x).
Definition set_hd_dhcp (v : list Z) (x : hpa_dp) : hpa_dp := mk_hpa_dp (hd_prefix x) (hd_enabled x) (hd_local x) (hd_type x) (hd_valid x) (hd_preferred x) v (hd_iface x) (hd_excluded x) (hd_excluded_prefix x) (hd_node_id x) (hd_delete_to x) (hd_dst_present x) (hd_dst x).
Definition set_hd_iface (v : option (list Z)) (x : hpa_dp) : hpa_dp := mk_hpa_dp (hd_prefix x) (hd_enabled x) (hd_local x) (hd_type x) (hd_valid x) (hd_preferred x) (hd_dhcp x) v (hd_excluded x) (hd_excluded_prefix x) (hd_node_id x) (hd_delete_to x) (hd_dst_present x) (hd_dst x).
Definition set_hd_excluded (v : bool) (x : hpa_dp) : hpa_dp := mk_hpa_dp (hd_prefix x) (hd_enabled x) (hd_local x) (hd_type x) (hd_valid x) (hd_preferred x) (hd_dhcp x) (hd_iface x) v (hd_excluded_prefix x) (hd_node_id x) (hd_delete_to x) (hd_dst_present x) (hd_dst x).
Definition set_hd_excluded_prefix (v : prefix) (x : hpa_dp) : hpa_dp := mk_hpa_dp (hd_prefix x) (hd_enabled x) (hd_local x) (hd_type x) (hd_valid x) (hd_preferred x) (hd_dhcp x) (hd_iface x) (hd_excluded x) v (hd_node_id x) (hd_delete_to x) (hd_dst_present x) (hd_dst x).
Definition set_hd_node_id (v : list Z) (x : hpa_dp) : hpa_dp := mk_hpa_dp (hd_prefix x) (hd_enabled x) (hd_local x) (hd_type x) (hd_valid x) (hd_preferred x) (hd_dhcp x) (hd_iface x) (hd_excluded x) (hd_excluded_prefix x) v (hd_delete_to x) (hd_dst_present x) (hd_dst x).
Definition set_hd_delete_to (v : option Z) (x : hpa_dp) : hpa_dp := mk_hpa_dp (hd_prefix x) (hd_enabled x) (hd_local x) (hd_type x) (hd_valid x) (hd_preferred x) (hd_dhcp x) (hd_iface x) (hd_excluded x) (hd_excluded_prefix x) (hd_node_id x) v (hd_dst_present x) (hd_dst x).
Definition set_hd_dst_present (v : bool) (x : hpa_dp) : hpa_dp := mk_hpa_dp (hd_prefix x) (hd_enabled x) (hd_local x) (hd_type x) (hd_valid x) (hd_preferred x) (hd_dhcp x) (hd_iface x) (hd_excluded x) (hd_excluded_prefix x) (hd_node_id x) (hd_delete_to x) v (hd_dst x).
Definition set_hd_dst (v : prefix) (x : hpa_dp) : hpa_dp := mk_hpa_dp (hd_prefix x) (hd_enabled x) (hd_local x) (hd_type x) (hd_valid x) (hd_preferred x) (hd_dhcp x) (hd_iface x) (hd_excluded x) (hd_excluded_prefix x) (hd_node_id x) (hd_delete_to x) (hd_dst_present x) v.

(** Zeroed memory. *)
Definition prefix_zero : prefix := mk_prefix (replicate 16 0) 0.
Definition dp_zero : hpa_dp := mk_hpa_dp prefix_zero false false 0 0 0 [] None false prefix_zero [0; 0; 0; 0] None false prefix_zero.

(** [struct hncp_pa_ula_conf]. *)
Record ula_conf := mk_ula_conf {
  use_ula : bool;
  no_ula_if_glb_ipv6 : bool;
  use_random_ula : bool;
  random_ula_plen : Z;
  ula_prefix : prefix;
  use_ipv4 : bool;
  no_ipv4_if_glb_ipv6 : bool;
  no_ipv4_if_no_uplink : bool;
  v4_prefix : prefix;
  local_valid_lifetime : Z;
  local_preferred_lifetime : Z;
  local_update_delay : Z
}.

Definition set_use_ula (v : bool) (x : ula_conf) : ula_conf := mk_ula_conf v (no_ula_if_glb_ipv6 x) (use_random_ula x) (random_ula_plen x) (ula_prefix x) (use_ipv4 x) (no_ipv4_if_glb_ipv6 x) (no_ipv4_if_no_uplink x) (v4_prefix x) (local_valid_lifetime x) (local_preferred_lifetime x) (local_update_delay x).
Definition set_no_ula_if_glb_ipv6 (v : bool) (x : ula_conf) : ula_conf := mk_ula_conf (use_ula x) v (use_random_ula x) (random_ula_plen x) (ula_prefix x) (use_ipv4 x) (no_ipv4_if_glb_ipv6 x) (no_ipv4_if_no_uplink x) (v4_prefix x) (local_valid_lifetime x) (local_preferred_lifetime x) (local_update_delay x).
Definition set_use_random_ula (v : bool) (x : ula_conf) : ula_conf := mk_ula_conf (use_ula x) (no_ula_if_glb_ipv6 x) v (random_ula_plen x) (ula_prefix x) (use_ipv4 x) (no_ipv4_if_glb_ipv6 x) (no_ipv4_if_no_uplink x) (v4_prefix x) (local_valid_lifetime x) (local_preferred_lifetime x) (local_update_delay x).
Definition set_random_ula_plen (v : Z) (x : ula_conf) : ula_conf := mk_ula_conf (use_ula x) (no_ula_if_glb_ipv6 x) (use_random_ula x) v (ula_prefix x) (use_ipv4 x) (no_ipv4_if_glb_ipv6 x) (no_ipv4_if_no_uplink x) (v4_prefix x) (local_valid_lifetime x) (local_preferred_lifetime x) (local_update_delay x).
Definition set_ula_prefix (v : prefix) (x : ula_conf) : ula_conf := mk_ula_conf (use_ula x) (no_ula_if_glb_ipv6 x) (use_random_ula x) (random_ula_plen x) v (use_ipv4 x) (no_ipv4_if_glb_ipv6 x) (no_ipv4_if_no_uplink x) (v4_prefix x) (local_valid_lifetime x) (local_preferred_lifetime x) (local_update_delay x).
Definition set_use_ipv4 (v : bool) (x : ula_conf) : ula_conf := mk_ula_conf (use_ula x) (no_ula_if_glb_ipv6 x) (use_random_ula x) (random_ula_plen x) (ula_prefix x) v (no_ipv4_if_glb_ipv6 x) (no_ipv4_if_no_uplink x) (v4_prefix x) (local_valid_lifetime x) (local_preferred_lifetime x) (local_update_delay x).
Definition set_no_ipv4_if_glb_ipv6 (v : bool) (x : ula_conf) : ula_conf := mk_ula_conf (use_ula x) (no_ula_if_glb_ipv6 x) (use_random_ula x) (random_ula_plen x) (ula_prefix x) (use_ipv4 x) v (no_ipv4_if_no_uplink x) (v4_prefix x) (local_valid_lifetime x) (local_preferred_lifetime x) (local_update_delay x).
Definition set_no_ipv4_if_no_uplink (v : bool) (x : ula_conf) : ula_conf := mk_ula_conf (use_ula x) (no_ula_if_glb_ipv6 x) (use_random_ula x) (random_ula_plen x) (ula_prefix x) (use_ipv4 x) (no_ipv4_if_glb_ipv6 x) v (v4_prefix x) (local_valid_lifetime x) (local_preferred_lifetime x) (local_update_delay x).
Definition set_v4_prefix (v : prefix) (x : ula_conf) : ula_conf := mk_ula_conf (use_ula x) (no_ula_if_glb_ipv6 x) (use_random_ula x) (random_ula_plen x) (ula_prefix x) (use_ipv4 x) (no_ipv4_if_glb_ipv6 x) (no_ipv4_if_no_uplink x) v (local_valid_lifetime x) (local_preferred_lifetime x) (local_update_delay x).
Definition set_local_valid_lifetime (v : Z) (x : ula_conf) : ula_conf := mk_ula_conf (use_ula x) (no_ula_if_glb_ipv6 x) (use_random_ula x) (random_ula_plen x) (ula_prefix x) (use_ipv4 x) (no_ipv4_if_glb_ipv6 x) (no_ipv4_if_no_uplink x) (v4_prefix x) v (local_preferred_lifetime x) (local_update_delay x).
Definition set_local_preferred_lifetime (v : Z) (x : ula_conf) : ula_conf := mk_ula_conf (use_ula x) (no_ula_if_glb_ipv6 x) (use_random_ula x) (random_ula_plen x) (ula_prefix x) (use_ipv4 x) (no_ipv4_if_glb_ipv6 x) (no_ipv4_if_no_uplink x) (v4_prefix x) (local_valid_lifetime x) v (local_update_delay x).
Definition set_local_update_delay (v : Z) (x : ula_conf) : ula_conf := mk_ula_conf (use_ula x) (no_ula_if_glb_ipv6 x) (use_random_ula x) (random_ula_plen x) (ula_prefix x) (use_ipv4 x) (no_ipv4_if_glb_ipv6 x) (no_ipv4_if_no_uplink x) (v4_prefix x) (local_valid_lifetime x) (local_preferred_lifetime x) v.

(** What an interface has of its uplink: its name, the DHCP data, and whether it has an
    uplink for IPv4.  Data of length 0 is a null pointer. *)
Record hpa_iface := mk_hpa_iface {
  hi_name : list Z;
  hi_ext4 : list Z;
  hi_ext6 : list Z;
  hi_uplink : bool
}.

Definition set_hi_name (v : list Z) (x : hpa_iface) : hpa_iface := mk_hpa_iface v (hi_ext4 x) (hi_ext6 x) (hi_uplink x).
Definition set_hi_ext4 (v : list Z) (x : hpa_iface) : hpa_iface := mk_hpa_iface (hi_name x) v (hi_ext6 x) (hi_uplink x).
Definition set_hi_ext6 (v : list Z) (x : hpa_iface) : hpa_iface := mk_hpa_iface (hi_name x) (hi_ext4 x) v (hi_uplink x).
Definition set_hi_uplink (v : bool) (x : hpa_iface) : hpa_iface := mk_hpa_iface (hi_name x) (hi_ext4 x) (hi_ext6 x) v.

(** What is seen of a pair of the core: the type and the name of its link, the assigned
    prefix, and the address of the interface with whether it is applied. *)
Record pair_view := mk_pair_view {
  pv_type : Z;
  pv_name : list Z;
  pv_prefix : list Z;
  pv_plen : nat;
  pv_assigned : bool;
  pv_applied : bool;
  pv_addr : option (list Z * bool);
  pv_cb : bool
}.

(** Calls of others: the core gets or loses a delegated prefix or the rule that excludes
    a prefix; an interface is told of an enabled delegated prefix or of an address, a lease
    of its prefix; the interfaces get DHCP options to send. *)
Inductive hpa_event :=
| EvDpAdd (p : dp_ptr) (x : prefix)
| EvDpDel (p : dp_ptr)
| EvRuleAdd (p : dp_ptr) (x : prefix)
| EvRuleDel (p : dp_ptr)
| EvUpdateDp (p : dp_ptr) (del : bool)
| EvUpdateAddress (ifname addr : list Z) (plen : nat) (valid preferred : Z) (dhcp : list Z) (del : bool)
| EvLease (name prefix : list Z) (plen : nat) (valid preferred : Z) (dhcp : list Z)
| EvDhcpSend (dhcpv6 dhcp : list Z).

(** What [struct hncp_pa_struct] has of delegated prefixes; timers have the time at which
    they expire, a backoff of 0 is none. *)
Record hpa := mk_hpa {
  hp_dncp : dncp;
  hp_domain : list Z;
  hp_store : pa_store;
  hp_if_cbs : option bool;
  hp_conf : ula_conf;
  hp_dps : list dp_ptr;
  hp_dp_mem : gmap dp_ptr hpa_dp;
  hp_ifaces : list hpa_iface;
  v4_to : option Z;
  v4_enabled : bool;
  v4_backoff : Z;
  ula_to : option Z;
  ula_enabled : bool;
  ula_backoff : Z;
  hp_calls : nat;
  hp_log : list hpa_event
}.

Definition set_hp_dncp (v : dncp) (x : hpa) : hpa := mk_hpa v (hp_domain x) (hp_store x) (hp_if_cbs x) (hp_conf x) (hp_dps x) (hp_dp_mem x) (hp_ifaces x) (v4_to x) (v4_enabled x) (v4_backoff x) (ula_to x) (ula_enabled x) (ula_backoff x) (hp_calls x) (hp_log x).
Definition set_hp_domain (v : list Z) (x : hpa) : hpa := mk_hpa (hp_dncp x) v (hp_store x) (hp_if_cbs x) (hp_conf x) (hp_dps x) (hp_dp_mem x) (hp_ifaces x) (v4_to x) (v4_enabled x) (v4_backoff x) (ula_to x) (ula_enabled x) (ula_backoff x) (hp_calls x) (hp_log x).
Definition set_hp_store (v : pa_store) (x : hpa) : hpa := mk_hpa (hp_dncp x) (hp_domain x) v (hp_if_cbs x) (hp_conf x) (hp_dps x) (hp_dp_mem x) (hp_ifaces x) (v4_to x) (v4_enabled x) (v4_backoff x) (ula_to x) (ula_enabled x) (ula_backoff x) (hp_calls x) (hp_log x).
Definition set_hp_if_cbs (v : option bool) (x : hpa) : hpa := mk_hpa (hp_dncp x) (hp_domain x) (hp_store x) v (hp_conf x) (hp_dps x) (hp_dp_mem x) (hp_ifaces x) (v4_to x) (v4_enabled x) (v4_backoff x) (ula_to x) (ula_enabled x) (ula_backoff x) (hp_calls x) (hp_log x).
Definition set_hp_conf (v : ula_conf) (x : hpa) : hpa := mk_hpa (hp_dncp x) (hp_domain x) (hp_store x) (hp_if_cbs x) v (hp_dps x) (hp_dp_mem x) (hp_ifaces x) (v4_to x) (v4_enabled x) (v4_backoff x) (ula_to x) (ula_enabled x) (ula_backoff x) (hp_calls x) (hp_log x).
Definition set_hp_dps (v : list dp_ptr) (x : hpa) : hpa := mk_hpa (hp_dncp x) (hp_domain x) (hp_store x) (hp_if_cbs x) (hp_conf x) v (hp_dp_mem x) (hp_ifaces x) (v4_to x) (v4_enabled x) (v4_backoff x) (ula_to x) (ula_enabled x) (ula_backoff x) (hp_calls x) (hp_log x).
Definition set_hp_dp_mem (v : gmap dp_ptr hpa_dp) (x : hpa) : hpa := mk_hpa (hp_dncp x) (hp_domain x) (hp_store x) (hp_if_cbs x) (hp_conf x) (hp_dps x) v (hp_ifaces x) (v4_to x) (v4_enabled x) (v4_backoff x) (ula_to x) (ula_enabled x) (ula_backoff x) (hp_calls x) (hp_log x).
Definition set_hp_ifaces (v : list hpa_iface) (x : hpa) : hpa := mk_hpa (hp_dncp x) (hp_domain x) (hp_store x) (hp_if_cbs x) (hp_conf x) (hp_dps x) (hp_dp_mem x) v (v4_to x) (v4_enabled x) (v4_backoff x) (ula_to x) (ula_enabled x) (ula_backoff x) (hp_calls x) (hp_log x).
Definition set_v4_to (v : option Z) (x : hpa) : hpa := mk_hpa (hp_dncp x) (hp_domain x) (hp_store x) (hp_if_cbs x) (hp_conf x) (hp_dps x) (hp_dp_mem x) (hp_ifaces x) v (v4_enabled x) (v4_backoff x) (ula_to x) (ula_enabled x) (ula_backoff x) (hp_calls x) (hp_log x).
Definition set_v4_enabled (v : bool) (x : hpa) : hpa := mk_hpa (hp_dncp x) (hp_domain x) (hp_store x) (hp_if_cbs x) (hp_conf x) (hp_dps x) (hp_dp_mem x) (hp_ifaces x) (v4_to x) v (v4_backoff x) (ula_to x) (ula_enabled x) (ula_backoff x) (hp_calls x) (hp_log x).
Definition set_v4_backoff (v : Z) (x : hpa) : hpa := mk_hpa (hp_dncp x) (hp_domain x) (hp_store x) (hp_if_cbs x) (hp_conf x) (hp_dps x) (hp_dp_mem x) (hp_ifaces x) (v4_to x) (v4_enabled x) v (ula_to x) (ula_enabled x) (ula_backoff x) (hp_calls x) (hp_log x).
Definition set_ula_to (v : option Z) (x : hpa) : hpa := mk_hpa (hp_dncp x) (hp_domain x) (hp_store x) (hp_if_cbs x) (hp_conf x) (hp_dps x) (hp_dp_mem x) (hp_ifaces x) (v4_to x) (v4_enabled x) (v4_backoff x) v (ula_enabled x) (ula_backoff x) (hp_calls x) (hp_log x).
Definition set_ula_enabled (v : bool) (x : hpa) : hpa := mk_hpa (hp_dncp x) (hp_domain x) (hp_store x) (hp_if_cbs x) (hp_conf x) (hp_dps x) (hp_dp_mem x) (hp_ifaces x) (v4_to x) (v4_enabled x) (v4_backoff x) (ula_to x) v (ula_backoff x) (hp_calls x) (hp_log x).
Definition set_ula_backoff (v : Z) (x : hpa) : hpa := mk_hpa (hp_dncp x) (hp_domain x) (hp_store x) (hp_if_cbs x) (hp_conf x) (hp_dps x) (hp_dp_mem x) (hp_ifaces x) (v4_to x) (v4_enabled x) (v4_backoff x) (ula_to x) (ula_enabled x) v (hp_calls x) (hp_log x).
Definition set_hp_calls (v : nat) (x : hpa) : hpa := mk_hpa (hp_dncp x) (hp_domain x) (hp_store x) (hp_if_cbs x) (hp_conf x) (hp_dps x) (hp_dp_mem x) (hp_ifaces x) (v4_to x) (v4_enabled x) (v4_backoff x) (ula_to x) (ula_enabled x) (ula_backoff x) v (hp_log x).
Definition set_hp_log (v : list hpa_event) (x : hpa) : hpa := mk_hpa (hp_dncp x) (hp_domain x) (hp_store x) (hp_if_cbs x) (hp_conf x) (hp_dps x) (hp_dp_mem x) (hp_ifaces x) (v4_to x) (v4_enabled x) (v4_backoff x) (ula_to x) (ula_enabled x) (ula_backoff x) (hp_calls x) v.

(** The environment: memory, random numbers, sorting, and the pairs of the core. *)
Class HpaHost := {
  hpa_calloc : nat -> bool;
  hpa_random : nat -> Z;
  hpa_qsort : list Z -> list nat -> list nat;
  hpa_pairs : list hpa_event -> dp_ptr -> list pair_view
}.

(** ** Lifetimes *)

(** Lifetimes of the network are numbers of 32 bits here. *)
Definition _remote_rel_to_local_abs (base netvalue : Z) : Z :=
  if decide (netvalue = UINT32_MAX) then HNETD_TIME_MAX else base + netvalue * HNETD_TIME_PER_SECOND.

Definition _local_abs_to_remote_rel (now v : Z) : Z :=
  if decide (v = HNETD_TIME_MAX) then UINT32_MAX
  else if decide (v < now) then 0
  else
    let delta := Z.quot (v - now) HNETD_TIME_PER_SECOND in
    if decide (UINT32_MAX <= delta) then UINT32_MAX else delta.

Section hpa.
Context `{DX : !DncpExt, DC : !DncpCallbacks, SH : !StoreHost, HH : !HpaHost}.
Implicit Types (h : hpa) (p q : dp_ptr) (d : hpa_dp) (i : hpa_iface).

Definition hp_time h : Z := clock (hp_dncp h).

Definition put_dp p d h : hpa := set_hp_dp_mem (<[p := d]> (hp_dp_mem h)) h.
Definition hp_emit (e : hpa_event) h : hpa := set_hp_log (hp_log h ++ [e]) h.
Definition hp_called h : hpa := set_hp_calls (S (hp_calls h)) h.
Definition get_iface h (name : list Z) : option hpa_iface := snd <$> list_find (fun i => hi_name i = name) (hp_ifaces h).
Definition put_iface i h : hpa := set_hp_ifaces ((fun j => if decide (hi_name j = hi_name i) then i else j) <$> hp_ifaces h) h.

(** [list_add] and [list_del] on [dps]: undefined for an element that is on the list, or
    is not. *)
Definition dps_add p h : option hpa := if decide (p ∈ hp_dps h) then None else Some (set_hp_dps (p :: hp_dps h) h).
Definition dps_del p h : option hpa := if decide (p ∈ hp_dps h) then Some (set_hp_dps (without p (hp_dps h)) h) else None.

(** [free]: only what came from [calloc]. *)
Definition dp_free p h : option hpa :=
  match p with
  | HeapDp _ => _ ← hp_dp_mem h !! p; Some (set_hp_dp_mem (delete p (hp_dp_mem h)) h)
  | _ => None
  end.

(** [REPLACE]: without memory there is no data. *)
Definition replaced (data : list Z) h : hpa * list Z :=
  if decide (data = []) then (h, []) else (hp_called h, if hpa_calloc (hp_calls h) then data else []).

(** [hpa_iface_goc], as far as uplinks go; interfaces are never freed. *)
Definition hpa_iface_goc h (name : list Z) (create : bool) : hpa * option hpa_iface :=
  match get_iface h name with
  | Some i => (h, Some i)
  | None =>
    if negb create then (h, None)
    else if decide (IFNAMSIZ <= length name)%nat then (h, None)
    else if negb (hpa_calloc (hp_calls h)) then (hp_called h, None)
    else
      let i := mk_hpa_iface name [] [] false in
      (set_hp_ifaces (i :: hp_ifaces h) (hp_called h), Some i)
  end.

(** ** External connections *)

(** [APPEND_BUF] of a header and data to the DHCPv6 and the DHCP options. *)
Definition dns_domain6 (l : Z) (ll : list Z) : list Z :=
  [0; DHCPV6_OPT_DNS_DOMAIN; u8 (Z.shiftr l 8); u8 l] ++ ll.
Definition dns_domain4 (text : list Z) : list Z :=
  let n := u8 (Z.of_nat (length text)) in [DHCPV4_OPT_DOMAIN; n] ++ take (Z.to_nat n) text.

(** The domain of the router as search path; the buffer for the labels is not initialised. *)
Definition domain_options (domain : list Z) : option (list Z * list Z) :=
  if decide (domain = []) then Some ([], [])
  else
    '(len, ll) ← escaped2ll (domain ++ [0]) (replicate 256 0) 256;
    if decide (0 < len) then Some (dns_domain6 len (take (Z.to_nat len) ll), dns_domain4 domain) else Some ([], []).

(** The DHCP data and the policy after the header of a delegated prefix. *)
Definition put_dp_options (dhcp_type : hpa_dp -> option Z) (policy : bool) d (tb : tlv_buf) : option tlv_buf :=
  tb ← (if decide (hd_dhcp d = []) then Some tb
        else type ← dhcp_type d; '(tb, _) ← tlv_put tb type (Some (hd_dhcp d)) (length (hd_dhcp d)); Some tb);
  if policy then '(tb, _) ← tlv_put tb HNCP_T_PREFIX_POLICY (Some [0]) 1; Some tb else Some tb.

(** A delegated prefix TLV at the end of the open TLV. *)
Definition put_delegated (now : Z) (dhcp_type : hpa_dp -> option Z) (policy : bool) d (tb : tlv_buf) : option tlv_buf :=
  let plen := ROUND_BITS_TO_BYTES (plen (hd_prefix d)) in
  '(tb, cookie) ← tlv_nest_start tb HNCP_T_DELEGATED_PREFIX (9 + plen);
  x ← rdn (pfx (hd_prefix d)) 0 plen;
  m ← wrn (mem tb) (head tb + 4)
    (be32 (_local_abs_to_remote_rel now (hd_valid d)) ++ be32 (_local_abs_to_remote_rel now (hd_preferred d)) ++
     [Z.of_nat (Prefix.plen (hd_prefix d))] ++ x);
  tb ← put_dp_options dhcp_type policy d (mk_tlv_buf (head tb) m);
  tlv_nest_end tb cookie.

Definition dhcp_type_of d : option Z :=
  v4 ← prefix_is_ipv4 (hd_prefix d);
  Some (if v4 : bool then HNCP_T_DHCP_OPTIONS else HNCP_T_DHCPV6_OPTIONS).

(** An enabled delegated prefix of an interface. *)
Definition from_iface d : bool := hd_enabled d && bool_decide (hd_type d = HPA_DP_T_IFACE).

(** The loop that looks for an earlier delegated prefix of the same interface. *)
Fixpoint ec_seen h p (name : option (list Z)) (dps : list dp_ptr) : option bool :=
  match dps with
  | [] => Some false
  | q :: dps =>
    d ← hp_dp_mem h !! q;
    if negb (from_iface d) then ec_seen h p name dps
    else if decide (q = p) then Some false
    else if decide (hd_iface d = name) then Some true
    else ec_seen h p name dps
  end.

(** The loop over the delegated prefixes of an interface. *)
Fixpoint ec_prefixes h (name : option (list Z)) (dps : list dp_ptr) (tb : tlv_buf) : option tlv_buf :=
  match dps with
  | [] => Some tb
  | q :: dps =>
    d ← hp_dp_mem h !! q;
    tb ← (if from_iface d && bool_decide (hd_iface d = name) then put_delegated (hp_time h) dhcp_type_of true d tb else Some tb);
    ec_prefixes h name dps tb
  end.

(** [tlv_sort(tlv_data(tb.head), tlv_len(tb.head))]. *)
Definition sort_open (tb : tlv_buf) : option tlv_buf :=
  data ← tlv_payload (mem tb) (head tb);
  '(_, data) ← tlv_sort hpa_qsort data;
  m ← wrn (mem tb) (head tb + 4) data;
  Some (mk_tlv_buf (head tb) m).

Definition put_options (type : Z) (data : list Z) (tb : tlv_buf) : option tlv_buf :=
  if decide (data = []) then Some tb else '(tb, _) ← tlv_put tb type (Some data) (length data); Some tb.

(** The external connection TLV of an interface, and its DHCP data. *)
Definition ec_of_iface h (name : option (list Z)) : option (attr * list Z * list Z) :=
  tb ← tlv_buf_init (mk_tlv_buf 0 []) HNCP_T_EXTERNAL_CONNECTION;
  tb ← ec_prefixes h name (hp_dps h) tb;
  tb ← sort_open tb;
  n ← name;
  i ← get_iface h n;
  tb ← put_options HNCP_T_DHCPV6_OPTIONS (hi_ext6 i) tb;
  tb ← put_options HNCP_T_DHCP_OPTIONS (hi_ext4 i) tb;
  a ← tlv_read (mem tb) (head tb);
  Some (a, hi_ext6 i, hi_ext4 i).

(** [dncp_add_tlv_attr]. *)
Definition dncp_add_tlv_attr (a : attr) (o : dncp) : dncp := dncp_add_tlv o (Z.to_nat a.1) a.2 None.

(** The first loop of [hpa_refresh_ec], over the delegated prefixes of interfaces. *)
Fixpoint ec_ifaces (publish : bool) (dps : list dp_ptr) (v6 v4 : list Z) h : option (hpa * list Z * list Z) :=
  match dps with
  | [] => Some (h, v6, v4)
  | p :: dps =>
    d ← hp_dp_mem h !! p;
    if negb (from_iface d) then ec_ifaces publish dps v6 v4 h
    else
      seen ← ec_seen h p (hd_iface d) (hp_dps h);
      if seen : bool then ec_ifaces publish dps v6 v4 h
      else
        '(a, e6, e4) ← ec_of_iface h (hd_iface d);
        ec_ifaces publish dps (v6 ++ e6) (v4 ++ e4) (if publish then set_hp_dncp (dncp_add_tlv_attr a (hp_dncp h)) h else h)
  end.

(** A local prefix has an external connection of its own. *)
Definition ec_local (type : Z) d h : option hpa :=
  tb ← tlv_buf_init (mk_tlv_buf 0 []) HNCP_T_EXTERNAL_CONNECTION;
  tb ← put_delegated (hp_time h) (fun _ => Some type) false d tb;
  a ← tlv_read (mem tb) (head tb);
  Some (set_hp_dncp (dncp_add_tlv_attr a (hp_dncp h)) h).

(** The DHCP options in the external connections of another node. *)
Fixpoint ec_options (l : list attr) (v6 v4 : list Z) : list Z * list Z :=
  match l with
  | [] => (v6, v4)
  | (id, x) :: l =>
    if decide (id = HNCP_T_DHCPV6_OPTIONS) then ec_options l (v6 ++ x) v4
    else if decide (id = HNCP_T_DHCP_OPTIONS) then ec_options l v6 (v4 ++ x)
    else ec_options l v6 v4
  end.

Fixpoint ecs_options (l : list attr) (v6 v4 : list Z) : option (list Z * list Z) :=
  match l with
  | [] => Some (v6, v4)
  | (_, x) :: l => ts ← tlv_list x 0 (length x); let '(v6, v4) := ec_options ts v6 v4 in ecs_options l v6 v4
  end.

(** Zones with the search flag.  The header has 17 bytes; a shorter TLV is not checked for.
    The text is made from the start of the TLV, not from its labels. *)
Fixpoint zone_options (l : list attr) (v6 v4 : list Z) : option (list Z * list Z) :=
  match l with
  | [] => Some (v6, v4)
  | (_, x) :: l =>
    flags ← x !! 16%nat;
    if decide (Z.land flags 1 = 0) then zone_options l v6 v4
    else
      let n := (length x - 17)%nat in
      let v6 := v6 ++ dns_domain6 (Z.of_nat n) (drop 17 x) in
      '(r, text) ← ll2escaped x n (replicate 256 0) 256;
      if decide (0 <= r) then
        k ← strlen text;
        zone_options l v6 (v4 ++ dns_domain4 (take k text))
      else zone_options l v6 v4
  end.

Fixpoint node_options (ns : list node) (v6 v4 : list Z) (o : dncp) : option (dncp * list Z * list Z) :=
  match ns with
  | [] => Some (o, v6, v4)
  | n :: ns =>
    '(o, v6, v4) ← (if is_own o n then Some (o, v6, v4)
                    else '(o, ecs) ← valid_tlvs_of_type o n (Z.to_nat HNCP_T_EXTERNAL_CONNECTION);
                         '(v6, v4) ← ecs_options ecs v6 v4; Some (o, v6, v4));
    '(o, zones) ← valid_tlvs_of_type o n (Z.to_nat HNCP_T_DNS_DELEGATED_ZONE);
    '(v6, v4) ← zone_options zones v6 v4;
    node_options ns v6 v4 o
  end.

(** Memory for the options can always be had here. *)
Definition hpa_refresh_ec (publish : bool) h : option hpa :=
  let h := if publish then set_hp_dncp (dncp_remove_tlvs_by_type (hp_dncp h) (Z.to_nat HNCP_T_EXTERNAL_CONNECTION)).1 h else h in
  '(v6, v4) ← domain_options (hp_domain h);
  '(h, v6, v4) ← ec_ifaces publish (hp_dps h) v6 v4 h;
  ula ← hp_dp_mem h !! UlaDp;
  h ← (if publish && ula_enabled h && hd_enabled ula then ec_local HNCP_T_DHCPV6_OPTIONS ula h else Some h);
  v4dp ← hp_dp_mem h !! V4Dp;
  h ← (if publish && v4_enabled h && hd_enabled v4dp && bool_decide (hd_type v4dp = HPA_DP_T_LOCAL)
       then ec_local HNCP_T_DHCP_OPTIONS v4dp h else Some h);
  '(o, v6, v4) ← node_options (reachable_nodes (hp_dncp h)) v6 v4 (hp_dncp h);
  Some (hp_emit (EvDhcpSend v6 v4) (set_hp_dncp o h)).

(** ** Delegated prefixes *)

(** [hpa_ap_iface_notify]. *)
Definition hpa_ap_iface_notify d (v : pair_view) (addr : list Z) (addr_applied : bool) h : hpa :=
  match hp_if_cbs h with
  | None => h
  | Some _ => hp_emit (EvUpdateAddress (pv_name v) addr (pv_plen v) (hd_valid d) (hd_preferred d) (hd_dhcp d) (negb addr_applied)) h
  end.

(** [hpa_ap_pd_notify]: a lease that is not applied yet is short. *)
Definition hpa_ap_pd_notify d (v : pair_view) h : hpa :=
  let '(valid, preferred) :=
    if pv_applied v then (hd_valid d, hd_preferred d)
    else if pv_assigned v then
      let max := hp_time h + HNCP_PA_PD_TEMP_LEASE in
      (if decide (max < hd_valid d) then max else hd_valid d, if decide (max < hd_preferred d) then max else hd_preferred d)
    else (0, 0) in
  if pv_cb v then hp_emit (EvLease (pv_name v) (pv_prefix v) (pv_plen v) valid preferred (hd_dhcp d)) h else h.

(** The body of the loop over the pairs of a delegated prefix. *)
Definition notify_pair d h (v : pair_view) : hpa :=
  if decide (pv_type v = HPA_LINK_T_IFACE) then
    match pv_addr v with
    | Some (addr, true) => if pv_applied v then hpa_ap_iface_notify d v addr true h else h
    | _ => h
    end
  else if decide (pv_type v = HPA_LINK_T_LEASE) then
    if pv_assigned v then hpa_ap_pd_notify d v h else h
  else h.

(** The link of the store that holds the local prefix. *)
Definition store_ula : link_ptr := UserLink 0.

Definition hpa_dp_update p (preferred_until valid_until : Z) (dhcp : list Z) h : option hpa :=
  d ← hp_dp_mem h !! p;
  let lifetimes := bool_decide (hd_preferred d ≠ preferred_until) || bool_decide (hd_valid d ≠ valid_until) in
  let d := if lifetimes then set_hd_valid valid_until (set_hd_preferred preferred_until d) else d in
  let data := bool_decide (hd_dhcp d ≠ dhcp) in
  let '(h, d) := if data then let '(h, x) := replaced dhcp h in (h, set_hd_dhcp x d) else (h, d) in
  let updated := lifetimes || data in
  let h := put_dp p d h in
  h ← (if updated && bool_decide (valid_until ≠ 0) then
         ula ← prefix_is_ipv6_ula (hd_prefix d);
         if ula : bool then '(st, _) ← pa_store_cache store_ula (pfx (hd_prefix d)) (plen (hd_prefix d)) (hp_store h); Some (set_hp_store st h)
         else Some h
       else Some h);
  if updated && hd_enabled d then hpa_refresh_ec (hd_local d) (foldl (notify_pair d) h (hpa_pairs (hp_log h) p))
  else Some h.

Definition hpa_dp_set_enabled p (enabled : bool) h : option hpa :=
  d ← hp_dp_mem h !! p;
  if decide (hd_enabled d = enabled) then Some h
  else
    let h := put_dp p (set_hd_enabled enabled d) h in
    let h := hp_emit (if enabled then EvDpAdd p (hd_prefix d) else EvDpDel p) h in
    let h := if bool_decide (hd_type d = HPA_DP_T_IFACE) && hd_excluded d
             then hp_emit (if enabled then EvRuleAdd p (hd_excluded_prefix d) else EvRuleDel p) h else h in
    let h := match hp_if_cbs h with Some true => hp_emit (EvUpdateDp p (negb enabled)) h | _ => h end in
    hpa_refresh_ec (hd_local d) h.

(** The loop of [hpa_dp_compute_enabled]. *)
Fixpoint compute_enabled_loop h p d (dps : list dp_ptr) (passed : bool) : option bool :=
  match dps with
  | [] => Some true
  | q :: dps =>
    if decide (q = p) then compute_enabled_loop h p d dps true
    else
      d2 ← hp_dp_mem h !! q;
      c ← prefix_cmp (hd_prefix d2) (hd_prefix d);
      if decide (c = 0) then
        if decide (hd_type d ≠ HPA_DP_T_HNCP) then
          if decide (hd_type d2 ≠ HPA_DP_T_HNCP) then
            if passed then Some false else compute_enabled_loop h p d dps passed
          else Some false
        else if decide (hd_type d2 = HPA_DP_T_HNCP) then Some false
        else compute_enabled_loop h p d dps passed
      else
        inside ← prefix_contains (hd_prefix d2) (hd_prefix d);
        if inside : bool then Some false else compute_enabled_loop h p d dps passed
  end.

Definition hpa_dp_compute_enabled p h : option bool :=
  match p with
  | V4Dp => Some (v4_enabled h)
  | UlaDp => Some (ula_enabled h)
  | _ => d ← hp_dp_mem h !! p; compute_enabled_loop h p d (hp_dps h) false
  end.

Fixpoint update_enabled_loop (dps : list dp_ptr) h : option hpa :=
  match dps with
  | [] => Some h
  | p :: dps => e ← hpa_dp_compute_enabled p h; h ← hpa_dp_set_enabled p e h; update_enabled_loop dps h
  end.

(** Enabling does not change the list. *)
Definition hpa_dp_update_enabled h : option hpa := update_enabled_loop (hp_dps h) h.

(** ** IPv4 and ULA *)

Fixpoint better_v4_loop h (uplink : bool) (dps : list dp_ptr) : option bool :=
  match dps with
  | [] => Some false
  | p :: dps =>
    d ← hp_dp_mem h !! p;
    better ← (if decide (hd_type d = HPA_DP_T_HNCP) then
                v4 ← prefix_is_ipv4 (hd_prefix d);
                if v4 : bool then
                  if negb uplink then Some true
                  else if hd_dst_present d && bool_decide (plen (hd_dst d) = 0%nat) then
                    own ← own_node (hp_dncp h);
                    Some (bool_decide (0 <= memcmp (hd_node_id d) own))
                  else Some false
                else Some false
              else Some false);
    if better : bool then Some true else better_v4_loop h uplink dps
  end.

Definition hpa_has_better_v4 (uplink : bool) h : option bool := better_v4_loop h uplink (hp_dps h).

Definition hpa_elect_v4 h : option (option (list Z)) :=
  d ← hp_dp_mem h !! V4Dp;
  current ← (if v4_enabled h && bool_decide (hd_type d = HPA_DP_T_IFACE)
             then n ← hd_iface d; i ← get_iface h n; Some (if hi_uplink i then Some n else None)
             else Some None);
  match current with
  | Some n => Some (Some n)
  | None => Some ((fun x => hi_name x.2) <$> list_find (fun i => hi_uplink i = true) (hp_ifaces h))
  end.

(** The first condition of [hpa_v4_to], and the elected interface. *)
Definition v4_blocked h : option (bool * option (list Z)) :=
  if negb (use_ipv4 (hp_conf h)) then Some (true, None)
  else
    elected ← hpa_elect_v4 h;
    none ← match elected with
           | Some _ => Some false
           | None => if no_ipv4_if_no_uplink (hp_conf h) then Some true else hpa_has_better_v4 false h
           end;
    if none : bool then Some (true, elected)
    else better ← hpa_has_better_v4 true h; Some (better, elected).

Definition local_dp (x : prefix) : hpa_dp := set_hd_prefix x (set_hd_local true dp_zero).

(** The lifetimes of a local prefix. *)
Definition update_local p h : option hpa :=
  let now := hp_time h in
  hpa_dp_update p (now + local_preferred_lifetime (hp_conf h)) (now + local_valid_lifetime (hp_conf h)) [] h.

Definition v4_change_iface (elected : option (list Z)) h : option hpa :=
  h ← hpa_dp_set_enabled V4Dp false h;
  d ← hp_dp_mem h !! V4Dp;
  let '(update_ec, d) :=
    match elected with
    | Some n => (bool_decide (hd_type d ≠ HPA_DP_T_IFACE), set_hd_iface (Some n) (set_hd_excluded false (set_hd_type HPA_DP_T_IFACE d)))
    | None => (bool_decide (hd_type d = HPA_DP_T_IFACE), set_hd_type HPA_DP_T_LOCAL d)
    end in
  h ← hpa_dp_update_enabled (put_dp V4Dp d h);
  if update_ec : bool then hpa_refresh_ec true h else Some h.

Definition v4_create (elected : option (list Z)) h : option hpa :=
  let d := local_dp (v4_prefix (hp_conf h)) in
  let d := match elected with
           | Some n => set_hd_iface (Some n) (set_hd_type HPA_DP_T_IFACE d)
           | None => set_hd_type HPA_DP_T_LOCAL d
           end in
  h ← dps_add V4Dp (put_dp V4Dp d h);
  h ← update_local V4Dp h;
  h ← hpa_dp_update_enabled (set_v4_enabled true h);
  Some (set_v4_backoff 0 h).

(** When the timer of a local prefix expires next: [uloop_timeout_set]. *)
Definition timeout_set h (msecs : Z) : option Z := Some (hp_time h + i32 msecs).

Definition v4_schedule h : option hpa :=
  if v4_enabled h then
    d ← hp_dp_mem h !! V4Dp;
    Some (set_v4_to (timeout_set h (hd_valid d - local_update_delay (hp_conf h) - hp_time h)) h)
  else if decide (v4_backoff h ≠ 0) then Some (set_v4_to (timeout_set h (v4_backoff h - hp_time h + 10)) h)
  else Some h.

(** The branches of [hpa_v4_to]. *)
Definition v4_decide (blocked : bool) (elected : option (list Z)) h : option hpa :=
  let now := hp_time h in
  if blocked then
    h ← (if v4_enabled h then
           h ← hpa_dp_set_enabled V4Dp false (set_v4_enabled false h);
           h ← dps_del V4Dp h;
           hpa_dp_update_enabled h
         else Some h);
    Some (set_v4_backoff 0 h)
  else if v4_enabled h then
    d ← hp_dp_mem h !! V4Dp;
    h ← (if decide (hd_iface d ≠ elected) then v4_change_iface elected h else Some h);
    d ← hp_dp_mem h !! V4Dp;
    if decide (hd_valid d - local_update_delay (hp_conf h) <= now) then update_local V4Dp h else Some h
  else if bool_decide (elected = None) && bool_decide (v4_backoff h = 0) then
    Some (set_v4_backoff (now + (10 + Z.rem (hpa_random (hp_calls h)) HPA_ULA_MAX_BACKOFF)) (hp_called h))
  else if bool_decide (elected ≠ None) || bool_decide (v4_backoff h <= now) then v4_create elected h
  else Some h.

Definition hpa_v4_to h : option hpa :=
  '(blocked, elected) ← v4_blocked h;
  h ← v4_decide blocked elected h;
  v4_schedule h.

Fixpoint other_ula_loop h (dps : list dp_ptr) : option bool :=
  match dps with
  | [] => Some false
  | p :: dps =>
    d ← hp_dp_mem h !! p;
    ula ← (if decide (hd_type d ≠ HPA_DP_T_LOCAL) then prefix_is_ipv6_ula (hd_prefix d) else Some false);
    if ula : bool then Some true else other_ula_loop h dps
  end.

Definition hpa_has_other_ula h : option bool := other_ula_loop h (hp_dps h).

Fixpoint global_v6_loop h (dps : list dp_ptr) : option bool :=
  match dps with
  | [] => Some false
  | p :: dps =>
    d ← hp_dp_mem h !! p;
    glb ← prefix_is_global (hd_prefix d);
    if glb : bool then Some true else global_v6_loop h dps
  end.

Definition hpa_has_global_v6 h : option bool := global_v6_loop h (hp_dps h).

Definition ula_destroy h : option bool :=
  if negb (use_ula (hp_conf h)) then Some true
  else
    other ← hpa_has_other_ula h;
    if other : bool then Some true
    else if no_ula_if_glb_ipv6 (hp_conf h) then hpa_has_global_v6 h else Some false.

(** A new random prefix of 48 bits; the configured length is not used. *)
Definition random_ula h : option (hpa * prefix) :=
  let rand := host32 (u32 (hpa_random (hp_calls h))) ++ host32 (u32 (hpa_random (S (hp_calls h)))) in
  x ← bmemcpy_shift (pfx ipv6_ula_prefix) (plen ipv6_ula_prefix) rand 0 (48 - plen ipv6_ula_prefix);
  Some (hp_called (hp_called h), mk_prefix x 48).

Definition choose_ula h : option (hpa * prefix) :=
  if use_random_ula (hp_conf h) then
    l ← link_mem (hp_store h) !! store_ula;
    ps ← sl_prefixes l;
    match ps with
    | sp :: _ =>
      e ← prefix_mem (hp_store h) !! sp;
      x ← pa_prefix_cpy (sp_prefix e) (sp_plen e) (replicate 16 0);
      Some (h, mk_prefix x (sp_plen e))
    | [] => random_ula h
    end
  else Some (h, ula_prefix (hp_conf h)).

Definition ula_create h : option hpa :=
  '(h, ula) ← choose_ula h;
  h ← dps_add UlaDp (put_dp UlaDp (set_hd_type HPA_DP_T_LOCAL (local_dp ula)) h);
  h ← update_local UlaDp h;
  h ← hpa_dp_update_enabled (set_ula_enabled true h);
  Some (set_ula_backoff 0 h).

Definition ula_schedule h : option hpa :=
  if ula_enabled h then
    d ← hp_dp_mem h !! UlaDp;
    Some (set_ula_to (timeout_set h (hd_valid d - local_update_delay (hp_conf h) - hp_time h)) h)
  else if decide (ula_backoff h ≠ 0) then Some (set_ula_to (timeout_set h (ula_backoff h - hp_time h + 10)) h)
  else Some h.

(** The branches of [hpa_ula_to]. *)
Definition ula_decide (destroy : bool) h : option hpa :=
  let now := hp_time h in
  if destroy then
    if ula_enabled h then
      h ← hpa_dp_set_enabled UlaDp false (set_ula_enabled false h);
      h ← dps_del UlaDp h;
      hpa_dp_update_enabled h
    else Some (if decide (ula_backoff h ≠ 0) then set_ula_backoff 0 h else h)
  else if ula_enabled h then
    d ← hp_dp_mem h !! UlaDp;
    if decide (hd_valid d - local_update_delay (hp_conf h) <= now) then update_local UlaDp h else Some h
  else if decide (ula_backoff h = 0) then
    Some (set_ula_backoff (now + (10 + Z.rem (hpa_random (hp_calls h)) HPA_ULA_MAX_BACKOFF)) (hp_called h))
  else if decide (ula_backoff h <= now) then ula_create h
  else Some h.

Definition hpa_ula_to h : option hpa :=
  destroy ← ula_destroy h;
  h ← ula_decide destroy h;
  ula_schedule h.

(** The timers of the event loop. *)
Definition v4_timer h : option hpa := hpa_v4_to (set_v4_to None h).
Definition ula_timer h : option hpa := hpa_ula_to (set_ula_to None h).

(** ** Interfaces *)

Definition hpa_update_extdata i (data : list Z) (ipv6 : bool) h : option hpa :=
  let cur := if ipv6 then hi_ext6 i else hi_ext4 i in
  if decide (cur = data) then Some h
  else
    let '(h, x) := replaced data h in
    hpa_refresh_ec true (put_iface (if ipv6 then set_hi_ext6 x i else set_hi_ext4 x i) h).

Definition hpa_iface_extdata_cb (name : list Z) (data : option (list Z)) h : option hpa :=
  let '(h, i) := hpa_iface_goc h name true in
  match i with
  | Some i => hpa_update_extdata i (default [] data) true h
  | None => Some h
  end.

Definition hpa_iface_ext4data_cb (name : list Z) (data : option (list Z)) h : option hpa :=
  let '(h, i) := hpa_iface_goc h name true in
  match i with
  | Some i =>
    h ← hpa_update_extdata i (default [] data) false h;
    i ← get_iface h name;
    let uplink := bool_decide (is_Some data) in
    if decide (hi_uplink i ≠ uplink) then hpa_v4_to (put_iface (set_hi_uplink uplink i) h) else Some h
  | None => Some h
  end.

Fixpoint get_local_loop h (x : prefix) (dps : list dp_ptr) : option (option dp_ptr) :=
  match dps with
  | [] => Some None
  | p :: dps =>
    d ← hp_dp_mem h !! p;
    same ← (if decide (hd_type d = HPA_DP_T_IFACE) then c ← prefix_cmp (hd_prefix d) x; Some (bool_decide (c = 0)) else Some false);
    if same : bool then Some (Some p) else get_local_loop h x dps
  end.

Definition hpa_dp_get_local (x : prefix) h : option (option dp_ptr) := get_local_loop h x (hp_dps h).

Definition hpa_dp_update_excluded p (excluded : option prefix) h : option hpa :=
  d ← hp_dp_mem h !! p;
  same ← match excluded with
         | None => Some (negb (hd_excluded d))
         | Some x => if hd_excluded d then c ← prefix_cmp x (hd_excluded_prefix d); Some (bool_decide (c = 0)) else Some false
         end;
  if same : bool then Some h
  else
    let h := if hd_excluded d && hd_enabled d then hp_emit (EvRuleDel p) h else h in
    let d := set_hd_excluded (bool_decide (is_Some excluded)) d in
    match excluded with
    | None => Some (put_dp p d h)
    | Some x =>
      let h := put_dp p (set_hd_excluded_prefix x d) h in
      Some (if hd_enabled d then hp_emit (EvRuleAdd p x) h else h)
    end.

(** The end of a delegated prefix. *)
Definition dp_remove p h : option hpa :=
  h ← hpa_dp_set_enabled p false h;
  h ← dps_del p h;
  h ← dp_free p h;
  hpa_dp_update_enabled h.

Definition hpa_iface_prefix_cb (name : list Z) (x : prefix) (excluded : option prefix) (valid_until preferred_until : Z) (dhcp : list Z) h : option hpa :=
  let '(h, i) := hpa_iface_goc h name true in
  match i with
  | None => Some h
  | Some i =>
    dp ← hpa_dp_get_local x h;
    if decide (valid_until <= hp_time h) then
      match dp with Some p => dp_remove p h | None => Some h end
    else
      match dp with
      | Some p =>
        h ← hpa_dp_update p preferred_until valid_until dhcp h;
        hpa_dp_update_excluded p excluded h
      | None =>
        let p := HeapDp (hp_calls h) in
        if negb (hpa_calloc (hp_calls h)) then Some (hp_called h)
        else
          let d := set_hd_iface (Some (hi_name i)) (set_hd_type HPA_DP_T_IFACE (local_dp x)) in
          h ← dps_add p (put_dp p d (hp_called h));
          h ← hpa_dp_update p preferred_until valid_until dhcp h;
          h ← hpa_dp_update_excluded p excluded h;
          hpa_dp_update_enabled h
      end
  end.

(** ** Other nodes *)

(** The timer of a delegated prefix of another node. *)
Definition hpa_dp_delete_to p h : option hpa :=
  h ← dp_remove p h;
  h ← hpa_ula_to h;
  hpa_v4_to h.

Fixpoint get_hncp_loop h (x : prefix) (ni : node_id) (dps : list dp_ptr) : option (option dp_ptr) :=
  match dps with
  | [] => Some None
  | p :: dps =>
    d ← hp_dp_mem h !! p;
    same ← (if decide (hd_type d = HPA_DP_T_HNCP) then
              c ← prefix_cmp (hd_prefix d) x; Some (bool_decide (c = 0) && bool_decide (hd_node_id d = ni))
            else Some false);
    if same : bool then Some (Some p) else get_hncp_loop h x ni dps
  end.

Definition hpa_dp_get_hncp (x : prefix) (ni : node_id) h : option (option dp_ptr) := get_hncp_loop h x ni (hp_dps h).

(** What follows the header of a delegated prefix: the last DHCP options and the last
    valid policy, whose bytes are written over those before. *)
Fixpoint dp_policies (l : list attr) (dhcp : list Z) (dst : option nat) (addr : list Z) : list Z * option nat * list Z :=
  match l with
  | [] => (dhcp, dst, addr)
  | (id, x) :: l =>
    if decide (id = HNCP_T_DHCPV6_OPTIONS) then dp_policies l x dst addr
    else if decide (id = HNCP_T_PREFIX_POLICY) then
      let type := Z.to_nat (byte_at x 0) in
      if decide (0 < length x /\ type <= 128 /\ length x = ROUND_BITS_TO_BYTES type + 1)%nat
      then dp_policies l dhcp (Some type) (drop 1 x ++ drop (ROUND_BITS_TO_BYTES type) addr)
      else dp_policies l dhcp dst addr
    else dp_policies l dhcp dst addr
  end.

(** The delegated prefix of a TLV: prefix, lifetimes, DHCP data and destination. *)
Record dp_tlv := mk_dp_tlv { td_prefix : prefix; td_valid : Z; td_preferred : Z; td_dhcp : list Z; td_dst_present : bool; td_dst : prefix }.

Definition parse_dp_tlv (base : Z) (a : attr) (t : t_delegated_prefix) : option dp_tlv :=
  let flen := ROUND_BYTES_TO_4BYTES (9 + ROUND_BITS_TO_BYTES (tdp_plen t)) in
  ts ← (if decide (length a.2 < flen)%nat then Some [] else tlv_list a.2 flen (length a.2 - flen));
  let '(dhcp, dst, addr) := dp_policies ts [] None (replicate 16 0) in
  x ← pa_prefix_cpy (dp_data t) (tdp_plen t) (replicate 16 0);
  Some (mk_dp_tlv (mk_prefix x (tdp_plen t)) (_remote_rel_to_local_abs base (dp_valid t)) (_remote_rel_to_local_abs base (dp_preferred t))
    dhcp (bool_decide (is_Some dst)) (mk_prefix addr (default 0%nat dst))).

Definition set_dp_dst d (t : dp_tlv) : hpa_dp :=
  let d := set_hd_dst_present (td_dst_present t) d in
  if td_dst_present t then set_hd_dst (td_dst t) d else d.

(** The end of [hpa_update_dp_tlv] when the delegated prefix is known.  The destination is
    taken over when it is the same, not when it differs. *)
Definition update_destination p (t : dp_tlv) h : option hpa :=
  d ← hp_dp_mem h !! p;
  if decide (hd_dst_present d ≠ td_dst_present t \/ (hd_dst_present d = true /\ hd_dst d = td_dst t)) then
    let h := put_dp p (set_dp_dst d t) h in
    v4 ← prefix_is_ipv4 (hd_prefix d);
    if v4 : bool then hpa_v4_to h
    else ula ← prefix_is_ipv6_ula (hd_prefix d); if ula : bool then hpa_ula_to h else Some h
  else Some h.

(** A node id is copied to four zeroed bytes. *)
Definition hpa_update_dp_tlv (n : node) (a : attr) (add : bool) h : option hpa :=
  match hncp_tlv_dp a with
  | None => Some h
  | Some t0 =>
    t ← parse_dp_tlv (origination_time n) a t0;
    dp ← hpa_dp_get_hncp (td_prefix t) (nid n) h;
    if negb add then
      p ← dp;
      d ← hp_dp_mem h !! p;
      let h := if decide (hd_delete_to d = None) then put_dp p (set_hd_delete_to (Some (hp_time h + HNCP_PA_DP_DELAYED_DELETE_MS)) d) h else h in
      hpa_dp_update p (td_preferred t) (td_valid t) (td_dhcp t) h
    else
      match dp with
      | Some p =>
        d ← hp_dp_mem h !! p;
        h ← hpa_dp_update p (td_preferred t) (td_valid t) (td_dhcp t) (put_dp p (set_hd_delete_to None d) h);
        update_destination p t h
      | None =>
        let p := HeapDp (hp_calls h) in
        if negb (hpa_calloc (hp_calls h)) then Some (hp_called h)
        else
          let d := set_dp_dst (set_hd_node_id (nid n) (set_hd_type HPA_DP_T_HNCP (set_hd_prefix (td_prefix t) dp_zero))) t in
          h ← dps_add p (put_dp p d (hp_called h));
          h ← hpa_dp_update p (td_preferred t) (td_valid t) (td_dhcp t) h;
          h ← hpa_dp_update_enabled h;
          h ← hpa_ula_to h;
          hpa_v4_to h
      end
  end.

Fixpoint update_dp_tlvs (n : node) (l : list attr) (add : bool) h : option hpa :=
  match l with
  | [] => Some h
  | a :: l =>
    h ← (if decide (a.1 = HNCP_T_DELEGATED_PREFIX) then hpa_update_dp_tlv n a add h else Some h);
    update_dp_tlvs n l add h
  end.

(** An external connection of another node in [hpa_dncp_tlv_change_cb]. *)
Definition external_connection_changed (n : node) (a : attr) (add : bool) h : option hpa :=
  if is_own (hp_dncp h) n then Some h
  else if decide (a.1 = HNCP_T_EXTERNAL_CONNECTION) then
    l ← tlv_list a.2 0 (length a.2);
    h ← update_dp_tlvs n l add h;
    hpa_refresh_ec false h
  else Some h.

Definition hpa_dncp_republish_cb h : option hpa := hpa_refresh_ec true h.

(** ** Configuration *)

Definition PAL_CONF_DFLT_V4_PREFIX : prefix := mk_prefix ([0; 0; 0; 0; 0; 0; 0; 0; 0; 0; 0xff; 0xff; 0x0a] ++ replicate 3 0) 104.

(** The prefix that is used instead of a random one keeps its value. *)
Definition hncp_pa_ula_conf_default (c : ula_conf) : ula_conf :=
  mk_ula_conf true false true 48 (ula_prefix c) true false true PAL_CONF_DFLT_V4_PREFIX
    (600 * HNETD_TIME_PER_SECOND) (300 * HNETD_TIME_PER_SECOND) (330 * HNETD_TIME_PER_SECOND).

Definition hncp_pa_ula_conf_set (c : ula_conf) h : hpa := set_hp_conf c h.

Definition hncp_pa_iface_user_register (u : option bool) h : hpa := set_hp_if_cbs u h.

(** [HPA_STORE_SAVE_DELAY], [HPA_STORE_TOKEN_DELAY]. *)
Definition hncp_pa_storage_set (path : list Z) h : option (hpa * Z) :=
  '(st, _) ← pa_store_load path (hp_store h);
  let '(st, r) := pa_store_set_file path (30 * HNETD_TIME_PER_SECOND) (HNETD_TIME_PER_SECOND * 60 * 60 * 6) st in
  Some (set_hp_store st h, r).

(** ** Creation *)

(** [pa_store_link_init(&hp->store_ula, (void * )1, "ula", 1)]. *)
Definition store_ula_link : pa_store_link := mk_pa_store_link (Some 1%nat) (PaStore.text "ula") 1 (Some []) 0.

(** [hncp_pa_create], as far as delegated prefixes go: the structure is zeroed, both timers
    are set, and the store gets the link of the local prefix. *)
Definition hncp_pa_create (o : dncp) (domain : list Z) (st : pa_store) : option hpa :=
  let conf := hncp_pa_ula_conf_default (mk_ula_conf false false false 0 prefix_zero false false false prefix_zero 0 0 0) in
  st ← pa_store_link_add store_ula store_ula_link (pa_store_init 100 st);
  Some (mk_hpa o domain st None conf [] (<[V4Dp := dp_zero]> (<[UlaDp := dp_zero]> ∅)) []
    (Some (clock o + 500)) false 0 (Some (clock o + 500)) false 0 0 []).
End hpa.
