(* ===== verification/HncpPaEc.v ===== *)
(** External connections: what [hpa_refresh_ec] builds and publishes.  It is defined whenever
    the TLVs fit, changes only local TLVs, and publishes exactly the external connections of
    this node. *)
From S2P Require Import Prelude Bitops Prefix Tlv DnsUtil PaCore PaStore DncpNotify DncpIndex DncpState Dncp DncpFacts DncpPrune DncpInv DncpTrustFacts Hncp HncpRouting HncpPa.

(** ** Open TLVs *)

Lemma holds_write b pre id d x : holds b pre id d -> length x = length d ->
  exists m, wrn (mem b) (head b + 4) x = Some m /\ holds (mk_tlv_buf (head b) m) pre id x.
Proof.
  intros (Hok & Hh & Hp & Hm & rest & Em) Hx. rewrite Em, enc_attr_app, app_assoc, Hh.
  replace (length pre + 4)%nat with (length (pre ++ hdr id (length d))) by (rewrite length_app, length_hdr; lia).
  rewrite wrn_app by done. eexists. split; [done|]. split; [by rewrite Hx|]. cbn [head mem]. do 2 (split; [done|]).
  assert (E : (pre ++ hdr id (length d)) ++ x ++ padding (length d) ++ rest = pre ++ enc_attr id x ++ rest).
  { unfold enc_attr. by rewrite Hx, <- !app_assoc. }
  rewrite E. split; [|by eexists]. rewrite Em in Hm. rewrite !length_app, !length_enc_attr, Hx in *. lia.
Qed.

(** Closing a nested TLV adds it without its padding. *)
Lemma tlv_nest_end_raw b pre id p id' q :
  holds b (pre ++ enc_attr id p) id' q -> attr_ok id (length p) -> (length pre mod 4 = 0)%nat ->
  Z.of_nat (length (p ++ padding (length p) ++ raw (id', q))) < 65536 ->
  exists b', tlv_nest_end b (length pre) = Some b' /\ holds b' pre id (p ++ padding (length p) ++ raw (id', q)).
Proof.
  intros (Hok' & Hh & Hp' & Hm & rest & Em) Hok Hp Hfit. unfold tlv_nest_end. set (P := p ++ padding (length p) ++ raw (id', q)) in *.
  assert (HP : length P = (length p + padn (length p) + (length q + 4))%nat) by (unfold P; rewrite !length_app, length_padding, length_raw; cbn [snd]; lia).
  assert (tlv_raw_len (mem b) (head b) = Some (length q + 4)%nat) as ->.
  { rewrite Hh, Em, (enc_attr_app id'). by apply tlv_raw_len_hdr. }
  assert (mem b = pre ++ hdr id (length p) ++ p ++ padding (length p) ++ enc_attr id' q ++ rest) as E by (by rewrite Em, <- app_assoc, (enc_attr_app id p)).
  rewrite E, tlv_pad_len_hdr by done. cbn [mbind option_bind].
  replace (length p + 4 + padn (length p) + (length q + 4))%nat with (length P + 4)%nat by lia.
  destruct Hok as [Hid Hpl]. rewrite tlv_set_raw_len_hdr by done. cbn [mbind option_bind].
  assert (E2 : pre ++ hdr id (length P) ++ p ++ padding (length p) ++ enc_attr id' q ++ rest = pre ++ enc_attr id P ++ rest).
  { unfold enc_attr. assert (padding (length q) = padding (length P)) as -> by (unfold padding; f_equal; rewrite HP; unfold padn; lia).
    unfold P, raw. cbn [fst snd]. rewrite <- !app_assoc. done. }
  eexists; split; [done|]. split; [done|]. cbn [head mem]. do 2 (split; [done|]).
  rewrite E2. split; [|by eexists]. rewrite <- E2. rewrite E in Hm. rewrite !length_app, !length_hdr in *. lia.
Qed.

(** A TLV may be put at the end of an open TLV, as part of its payload. *)
Lemma put_options_holds type data b pre id q us : holds b pre id (q ++ enc us) -> (length q mod 4 = 0)%nat -> 0 <= type < 65536 ->
  let us' := if decide (data = []) then us else us ++ [(type, data)] in
  Z.of_nat (length (q ++ enc us')) < 65536 ->
  exists b', put_options type data b = Some b' /\ holds b' pre id (q ++ enc us').
Proof.
  intros Hb Hq Ht us' Hfit. subst us'. unfold put_options. case_decide as E; [by exists b|].
  destruct (tlv_put_holds b pre id (q ++ enc us) type data) as (b' & at' & -> & Hb' & _); [done|done|by rewrite put_in_app_enc|].
  cbn [mbind option_bind]. exists b'. split; [done|]. by rewrite put_in_app_enc in Hb'.
Qed.

(** ** Delegated prefixes *)

Section ec.
Context `{DX : !DncpExt, DC : !DncpCallbacks, SH : !StoreHost, HH : !HpaHost}.
Implicit Types (h : hpa) (p q : dp_ptr) (d : hpa_dp) (i : hpa_iface).

(** The header of the TLV of a delegated prefix with the prefix, and what follows it. *)
Definition dp_body (now : Z) d : list Z :=
  be32 (_local_abs_to_remote_rel now (hd_valid d)) ++ be32 (_local_abs_to_remote_rel now (hd_preferred d)) ++
  Z.of_nat (plen (hd_prefix d)) :: take (ROUND_BITS_TO_BYTES (plen (hd_prefix d))) (pfx (hd_prefix d)).

Definition dp_subs (type : Z) (policy : bool) d : list attr :=
  (if decide (hd_dhcp d = []) then [] else [(type, hd_dhcp d)]) ++ (if policy then [(HNCP_T_PREFIX_POLICY, [0])] else []).

Definition dp_payload (now type : Z) (policy : bool) d : list Z :=
  let body := dp_body now d in
  let subs := dp_subs type policy d in
  if decide (subs = []) then body else body ++ padding (length body) ++ enc subs.

Lemma bytes_le_16 n : (n <= 128)%nat -> (ROUND_BITS_TO_BYTES n <= 16)%nat.
Proof. intros Hn. unfold ROUND_BITS_TO_BYTES. lia. Qed.

Lemma length_dp_body now d : prefix_wf (hd_prefix d) -> length (dp_body now d) = (9 + ROUND_BITS_TO_BYTES (plen (hd_prefix d)))%nat.
Proof.
  intros (Hl & _ & Hp). unfold dp_body. rewrite !length_app, !length_be32. cbn [length]. rewrite length_take. apply bytes_le_16 in Hp. lia.
Qed.

Lemma length_dp_subs type policy d : (length (enc (dp_subs type policy d)) <= length (hd_dhcp d) + 15)%nat.
Proof.
  unfold dp_subs. rewrite enc_app, length_app.
  assert (length (enc (if policy then [(HNCP_T_PREFIX_POLICY, [0%Z])] else [])) <= 8)%nat by (destruct policy; vm_compute; lia).
  case_decide; [cbn; lia|]. rewrite enc_cons, length_app, length_enc_attr. cbn [length enc flat_map]. unfold padn. lia.
Qed.

Lemma length_dp_payload now type policy d : prefix_wf (hd_prefix d) -> (length (dp_payload now type policy d) <= 43 + length (hd_dhcp d))%nat.
Proof.
  intros Hw. pose proof (length_dp_body now d Hw) as Hb. assert (ROUND_BITS_TO_BYTES (plen (hd_prefix d)) <= 16)%nat by (apply bytes_le_16, Hw).
  unfold dp_payload. case_decide; [lia|]. rewrite !length_app, length_padding, Hb. pose proof (length_dp_subs type policy d). unfold padn. lia.
Qed.

Lemma dp_payload_aligned now type d : (length (dp_payload now type true d) mod 4 = 0)%nat.
Proof.
  unfold dp_payload. rewrite decide_False by (unfold dp_subs; case_decide; done). rewrite app_assoc, length_app.
  pose proof (enc_aligned (dp_subs type true d)). rewrite length_app, length_padding. unfold padn. lia.
Qed.

Definition type_ok (type : Z) : Prop := 0 <= type < 65536.

Lemma put_policy_holds b pre id P : holds b pre id P -> Z.of_nat (length (put_in P HNCP_T_PREFIX_POLICY [0])) < 65536 ->
  exists b' a, tlv_put b HNCP_T_PREFIX_POLICY (Some [0]) 1 = Some (b', a) /\ holds b' pre id (put_in P HNCP_T_PREFIX_POLICY [0]).
Proof. intros Hb Hfit. destruct (tlv_put_holds b pre id P HNCP_T_PREFIX_POLICY [0] Hb) as (b' & a & E & H & _); [done|done|]. by exists b', a. Qed.

(** The options of a delegated prefix. *)
Lemma put_dp_options_holds now f type policy d b pre id : f d = Some type -> type_ok type ->
  holds b pre id (dp_body now d) -> Z.of_nat (length (dp_payload now type policy d)) < 65536 ->
  exists b', put_dp_options f policy d b = Some b' /\ holds b' pre id (dp_payload now type policy d).
Proof.
  intros Hf Ht H2 Hpl. unfold put_dp_options. rewrite Hf. cbn [mbind option_bind]. unfold dp_payload, dp_subs in *. destruct (decide (hd_dhcp d = [])) as [E|E].
  - cbn [mbind option_bind]. destruct policy; [|by exists b]. cbn [app] in *. rewrite decide_False in Hpl |- * by done.
    destruct (put_policy_holds b _ _ (dp_body now d) H2) as (b3 & at3 & -> & H3); [unfold put_in; cbn [enc flat_map] in Hpl; by rewrite app_nil_r in Hpl|].
    cbn [mbind option_bind]. exists b3. split; [done|]. unfold put_in in H3. cbn [enc flat_map fst snd]. by rewrite app_nil_r.
  - rewrite decide_False in Hpl |- * by (by destruct policy).
    assert (Hle : (length (put_in (dp_body now d) type (hd_dhcp d)) <= length (dp_body now d ++ padding (length (dp_body now d)) ++ enc ([(type, hd_dhcp d)] ++ (if policy then [(HNCP_T_PREFIX_POLICY, [0%Z])] else []))))%nat).
    { unfold put_in. rewrite enc_app, !length_app. cbn [enc flat_map fst snd]. rewrite app_nil_r. lia. }
    destruct (tlv_put_holds b _ _ (dp_body now d) type (hd_dhcp d) H2) as (b3 & at3 & -> & H3 & _); [done|lia|]. cbn [mbind option_bind].
    assert (E3 : put_in (dp_body now d) type (hd_dhcp d) = (dp_body now d ++ padding (length (dp_body now d))) ++ enc [(type, hd_dhcp d)]).
    { unfold put_in. cbn [enc flat_map fst snd]. by rewrite app_nil_r, app_assoc. }
    destruct policy; [|exists b3; split; [done|]; rewrite app_nil_r, app_assoc, <- E3; done].
    assert (Hal : (length (dp_body now d ++ padding (length (dp_body now d))) mod 4 = 0)%nat) by (rewrite length_app, length_padding; unfold padn; lia).
    rewrite E3 in H3. destruct (put_policy_holds b3 _ _ _ H3) as (b4 & at4 & -> & H4); [rewrite put_in_app_enc, <- app_assoc by done; done|].
    cbn [mbind option_bind]. exists b4. split; [done|]. rewrite put_in_app_enc, <- app_assoc in H4 by done. done.
Qed.

(** The open TLV gets the delegated prefix. *)
Lemma put_delegated_holds now f type policy d b pre id P : prefix_wf (hd_prefix d) -> f d = Some type -> type_ok type ->
  holds b pre id P -> Z.of_nat (length (P ++ padding (length P) ++ raw (HNCP_T_DELEGATED_PREFIX, dp_payload now type policy d))) < 65536 ->
  exists b', put_delegated now f policy d b = Some b' /\ holds b' pre id (P ++ padding (length P) ++ raw (HNCP_T_DELEGATED_PREFIX, dp_payload now type policy d)).
Proof.
  intros Hw Hf Ht Hb Hfit. pose proof (length_dp_body now d Hw) as Hlb. unfold put_delegated.
  assert (Hbig : (length (dp_body now d) <= length (dp_payload now type policy d))%nat) by (unfold dp_payload; case_decide; rewrite ?length_app; lia).
  assert (Hpl : Z.of_nat (length (dp_payload now type policy d)) < 65536) by (rewrite !length_app, length_raw in Hfit; cbn [snd] in Hfit; lia).
  destruct (tlv_nest_start_holds b pre id P HNCP_T_DELEGATED_PREFIX (9 + ROUND_BITS_TO_BYTES (plen (hd_prefix d)))) as (b1 & x & -> & Hx & H1); [done|split; [done|lia]|].
  cbn [mbind option_bind]. rewrite rdn_Some by (rewrite (proj1 Hw); apply bytes_le_16, Hw). cbn [mbind option_bind]. rewrite drop_0.
  destruct (holds_write b1 _ _ x (dp_body now d) H1) as (m & Em & H2); [by rewrite Hlb|]. unfold dp_body in Em. cbn [app] in Em |- *. rewrite Em. cbn [mbind option_bind head].
  destruct (put_dp_options_holds now f type policy d (mk_tlv_buf (head b1) m) _ _ Hf Ht H2 Hpl) as (b4 & -> & H4). cbn [mbind option_bind].
  destruct Hb as (Hok & _ & Hp & _). by apply (tlv_nest_end_raw b4 pre id P).
Qed.

Lemma holds_read b pre id P : holds b pre id P -> tlv_read (mem b) (head b) = Some (id, P).
Proof. intros (Hok & Hh & _ & _ & rest & Em). rewrite Hh, Em, enc_attr_app. by apply tlv_read_enc. Qed.

Lemma holds_init id : 0 <= id < 65536 -> exists b, tlv_buf_init (mk_tlv_buf 0 []) id = Some b /\ holds b [] id [].
Proof. intros Hid. by apply tlv_buf_init_holds. Qed.

(** ** The external connection of an interface *)

(** The cells of the list, and those of an interface. *)
Definition cells h (dps : list dp_ptr) : list hpa_dp := omap (fun p => hp_dp_mem h !! p) dps.
Definition of_iface (name : option (list Z)) d : Prop := from_iface d = true /\ hd_iface d = name.

#[global] Instance of_iface_dec name d : Decision (of_iface name d).
Proof. unfold of_iface. apply _. Defined.

(** The kinds of prefixes. *)
Definition is_v4 (x : prefix) : bool := bool_decide (pbits ipv4_in_ipv6_prefix `prefix_of` pbits x).
Definition is_ula (x : prefix) : bool := bool_decide (pbits ipv6_ula_prefix `prefix_of` pbits x).
Definition is_global (x : prefix) : bool := bool_decide (pbits ipv6_global_prefix `prefix_of` pbits x).

Lemma prefix_is_ipv4_spec x : prefix_wf x -> prefix_is_ipv4 x = Some (is_v4 x).
Proof. intros Hw. apply prefix_contains_spec; [|done]. decided. Qed.

Lemma prefix_is_ula_spec x : prefix_wf x -> prefix_is_ipv6_ula x = Some (is_ula x).
Proof. intros Hw. apply prefix_contains_spec; [|done]. decided. Qed.

Lemma prefix_is_global_spec x : prefix_wf x -> prefix_is_global x = Some (is_global x).
Proof. intros Hw. apply prefix_contains_spec; [|done]. decided. Qed.

(** The type of the DHCP options of a prefix. *)
Definition dhcp_type d : Z := if is_v4 (hd_prefix d) then HNCP_T_DHCP_OPTIONS else HNCP_T_DHCPV6_OPTIONS.
Definition dp_attr (now : Z) d : attr := (HNCP_T_DELEGATED_PREFIX, dp_payload now (dhcp_type d) true d).

Lemma dhcp_type_Some d : prefix_wf (hd_prefix d) -> dhcp_type_of d = Some (dhcp_type d).
Proof. intros Hw. unfold dhcp_type_of. by rewrite prefix_is_ipv4_spec. Qed.

Lemma dhcp_type_ok d : type_ok (dhcp_type d).
Proof. unfold dhcp_type. by destruct (is_v4 _). Qed.

Lemma raw_aligned id (q : list Z) : (length q mod 4 = 0)%nat -> raw (id, q) = enc_attr id q.
Proof. intros Hq. unfold raw, enc_attr. cbn [fst snd]. by rewrite (padding_aligned (length q)), app_nil_r. Qed.

Lemma cells_cons h p dps d : hp_dp_mem h !! p = Some d -> cells h (p :: dps) = d :: cells h dps.
Proof. unfold cells. cbn [omap list_omap]. by intros ->. Qed.

Definition well_formed h (dps : list dp_ptr) : Prop := forall p, p ∈ dps -> exists d, hp_dp_mem h !! p = Some d /\ prefix_wf (hd_prefix d).

Lemma ec_prefixes_holds h name dps b us : well_formed h dps -> holds b [] HNCP_T_EXTERNAL_CONNECTION (enc us) ->
  let us' := us ++ (dp_attr (hp_time h) <$> filter (of_iface name) (cells h dps)) in
  Z.of_nat (length (enc us')) < 65536 ->
  exists b', ec_prefixes h name dps b = Some b' /\ holds b' [] HNCP_T_EXTERNAL_CONNECTION (enc us').
Proof.
  cbv zeta. revert b us; induction dps as [|q dps IH]; intros b us Hw Hb Hfit; cbn [ec_prefixes].
  { exists b. split; [done|]. by rewrite app_nil_r. }
  destruct (Hw q) as (d & Hd & Hwd); [by left|]. rewrite (cells_cons h q dps d Hd) in *. rewrite Hd. cbn [mbind option_bind].
  assert (Hw' : well_formed h dps) by (intros p Hp; apply Hw; by right).
  rewrite filter_cons in *. destruct (from_iface d && bool_decide (hd_iface d = name)) eqn:E.
  - rewrite decide_True in * by (apply andb_true_iff in E as [? ?%bool_decide_eq_true]; by split). cbn [fmap list_fmap] in *.
    pose proof (enc_aligned us) as Hal.
    assert (Est : enc us ++ padding (length (enc us)) ++ raw (dp_attr (hp_time h) d) = enc (us ++ [dp_attr (hp_time h) d])).
    { unfold dp_attr. rewrite (padding_aligned _ Hal), enc_app, raw_aligned by apply dp_payload_aligned. cbn [app enc flat_map fst snd]. by rewrite app_nil_r. }
    rewrite cons_middle, app_assoc in Hfit |- *. unfold dp_attr in Est at 1.
    destruct (put_delegated_holds (hp_time h) dhcp_type_of (dhcp_type d) true d b [] HNCP_T_EXTERNAL_CONNECTION (enc us)) as (b1 & -> & H1);
      [done|by apply dhcp_type_Some|apply dhcp_type_ok|done| |].
    { rewrite Est. rewrite enc_app, length_app in Hfit. eapply Z.le_lt_trans; [|exact Hfit]. apply inj_le, Nat.le_add_r. }
    cbn [mbind option_bind]. rewrite Est in H1. by apply IH.
  - rewrite decide_False in * by (intros [E1 E2]; rewrite E1, bool_decide_true in E by done; done). cbn [mbind option_bind]. by apply IH.
Qed.

(** ** Sorting and the options of the interface *)

Lemma sort_open_holds `{!QSort hpa_qsort} b pre id ts : holds b pre id (enc ts) -> tlvs_ok ts ->
  exists b' ts', sort_open b = Some b' /\ holds b' pre id (enc ts') /\ ts' ≡ₚ ts /\ Sorted (fun t1 t2 => tlv_cmp t1 t2 <= 0) ts'.
Proof.
  intros Hb Hok. unfold sort_open. rewrite (proj1 (holds_tlv_payload _ _ _ _ Hb)). cbn [mbind option_bind].
  destruct (tlv_sort_spec (qsort := hpa_qsort) ts Hok) as (ts' & -> & Hp & Hs). cbn [mbind option_bind].
  destruct (holds_write b pre id (enc ts) (enc ts') Hb) as (m & -> & Hm); [by apply enc_perm_length|]. cbn [mbind option_bind]. by eexists _, ts'.
Qed.

(** The TLVs of the DHCP options of an interface. *)
Definition iface_options i : list attr :=
  (if decide (hi_ext6 i = []) then [] else [(HNCP_T_DHCPV6_OPTIONS, hi_ext6 i)]) ++
  (if decide (hi_ext4 i = []) then [] else [(HNCP_T_DHCP_OPTIONS, hi_ext4 i)]).

Lemma put_iface_options_holds b pre id ts i : holds b pre id (enc ts) -> Z.of_nat (length (enc (ts ++ iface_options i))) < 65536 ->
  exists b', (tb ← put_options HNCP_T_DHCPV6_OPTIONS (hi_ext6 i) b; put_options HNCP_T_DHCP_OPTIONS (hi_ext4 i) tb) = Some b' /\
    holds b' pre id (enc (ts ++ iface_options i)).
Proof.
  intros Hb Hfit. unfold iface_options in *. rewrite app_assoc in Hfit |- *.
  set (us := ts ++ (if decide (hi_ext6 i = []) then [] else [(HNCP_T_DHCPV6_OPTIONS, hi_ext6 i)])) in *.
  assert (E1 : us = if decide (hi_ext6 i = []) then ts else ts ++ [(HNCP_T_DHCPV6_OPTIONS, hi_ext6 i)]) by (unfold us; destruct (decide (hi_ext6 i = [])); by rewrite ?app_nil_r).
  assert (Hle : (length (enc us) <= length (enc (us ++ (if decide (hi_ext4 i = []) then [] else [(HNCP_T_DHCP_OPTIONS, hi_ext4 i)]))))%nat)
    by (rewrite enc_app, length_app; apply Nat.le_add_r).
  destruct (put_options_holds HNCP_T_DHCPV6_OPTIONS (hi_ext6 i) b pre id [] ts) as (b1 & -> & H1); [done|done|done|rewrite <- E1; cbn [app]; lia|].
  cbn [mbind option_bind]. rewrite <- E1 in H1.
  destruct (put_options_holds HNCP_T_DHCP_OPTIONS (hi_ext4 i) b1 pre id [] us) as (b2 & -> & H2); [done|done|done| |].
  - cbn [app]. case_decide; [|done]. by rewrite app_nil_r in Hfit.
  - exists b2. split; [done|]. cbn [app] in H2. case_decide; [|done]. by rewrite app_nil_r.
Qed.

(** The external connection TLV of the interface [i] with the delegated prefixes [ds]. *)
Definition ec_tlv (now : Z) (ds : list hpa_dp) i (a : attr) : Prop :=
  exists ts, a = (HNCP_T_EXTERNAL_CONNECTION, enc (ts ++ iface_options i)) /\ ts ≡ₚ dp_attr now <$> ds.

(** How much room a delegated prefix and an interface take at most. *)
Definition dp_room d : nat := 48 + length (hd_dhcp d).
Definition iface_room i : nat := 16 + length (hi_ext6 i) + length (hi_ext4 i).

Lemma sum_list_elem {A} (f : A -> nat) l x : x ∈ l -> (f x <= sum_list (f <$> l))%nat.
Proof.
  induction l as [|y l IH]; intros Hx; [by apply elem_of_nil in Hx|]. change (sum_list (f <$> y :: l)) with (f y + sum_list (f <$> l))%nat.
  apply elem_of_cons in Hx as [->|Hx]; [lia|]. specialize (IH Hx). lia.
Qed.

Lemma length_dp_attrs now ds : Forall (fun d => prefix_wf (hd_prefix d)) ds -> (length (enc (dp_attr now <$> ds)) <= sum_list (dp_room <$> ds))%nat.
Proof.
  induction 1 as [|d ds Hd _ IH]; [done|]. cbn [fmap list_fmap]. unfold dp_attr at 1. rewrite enc_cons, length_app, length_enc_attr.
  pose proof (length_dp_payload now (dhcp_type d) true d Hd). pose proof (dp_payload_aligned now (dhcp_type d) d).
  change (sum_list (dp_room d :: (dp_room <$> ds))) with (dp_room d + sum_list (dp_room <$> ds))%nat. unfold dp_room at 1. unfold padn.
  change (length (enc (dp_attr now <$> ds)) <= sum_list (dp_room <$> ds))%nat in IH. unfold attr in *. lia.
Qed.

Lemma length_iface_options i : (length (enc (iface_options i)) <= iface_room i)%nat.
Proof.
  unfold iface_options, iface_room. rewrite enc_app, length_app.
  assert (Hopt : forall id (x : list Z), (length (enc (if decide (x = []) then [] else [(id, x)])) <= 8 + length x)%nat).
  { intros id x. case_decide; [cbn; lia|]. rewrite enc_cons, length_app, length_enc_attr. change (enc []) with (@nil Z). cbn [length]. unfold padn. lia. }
  pose proof (Hopt HNCP_T_DHCPV6_OPTIONS (hi_ext6 i)). pose proof (Hopt HNCP_T_DHCP_OPTIONS (hi_ext4 i)). unfold attr in *. lia.
Qed.

Lemma well_formed_cells h dps : well_formed h dps -> Forall (fun d => prefix_wf (hd_prefix d)) (cells h dps).
Proof.
  intros Hw. apply Forall_forall. intros d (p & Hp & Hd)%list_elem_of_omap. destruct (Hw p Hp) as (d' & Hd' & Hwf). congruence.
Qed.

Lemma dp_attrs_ok now ds : Forall (fun d => prefix_wf (hd_prefix d)) ds -> Z.of_nat (sum_list (dp_room <$> ds)) < 65536 -> tlvs_ok (dp_attr now <$> ds).
Proof.
  intros Hw Hr. pose proof (length_dp_attrs now ds Hw) as Hl. apply Forall_forall. intros a (d & -> & Hd)%list_elem_of_fmap.
  split; [done|]. cbn [dp_attr snd]. rewrite Forall_forall in Hw. pose proof (length_dp_payload now (dhcp_type d) true d (Hw d Hd)) as Hlen.
  assert (dp_room d <= sum_list (dp_room <$> ds))%nat by (by apply sum_list_elem). unfold dp_room in *. lia.
Qed.

Lemma sum_list_filter {A} (f : A -> nat) (P : A -> Prop) `{forall x, Decision (P x)} l : (sum_list (f <$> filter P l) <= sum_list (f <$> l))%nat.
Proof.
  induction l as [|x l IH]; [done|]. rewrite filter_cons. change (sum_list (f <$> x :: l)) with (f x + sum_list (f <$> l))%nat.
  case_decide; [|lia]. change (sum_list (f <$> x :: filter P l)) with (f x + sum_list (f <$> filter P l))%nat. lia.
Qed.

Lemma forall_filter {A} (P Q : A -> Prop) `{forall x, Decision (Q x)} l : Forall P l -> Forall P (filter Q l).
Proof. rewrite !Forall_forall. intros Hl x [_ Hx]%list_elem_of_filter. by apply Hl. Qed.

Lemma ec_of_iface_spec `{!QSort hpa_qsort} h n i : well_formed h (hp_dps h) -> get_iface h n = Some i ->
  Z.of_nat (sum_list (dp_room <$> cells h (hp_dps h)) + iface_room i) < 65536 ->
  exists a, ec_of_iface h (Some n) = Some (a, hi_ext6 i, hi_ext4 i) /\ ec_tlv (hp_time h) (filter (of_iface (Some n)) (cells h (hp_dps h))) i a /\ tlv_ok a.
Proof.
  intros Hw Hi Hroom. unfold ec_of_iface. set (ds := filter (of_iface (Some n)) (cells h (hp_dps h))).
  assert (Hds : Forall (fun d => prefix_wf (hd_prefix d)) ds) by (by apply forall_filter, well_formed_cells).
  pose proof (sum_list_filter dp_room (of_iface (Some n)) (cells h (hp_dps h))) as Hle. fold ds in Hle.
  pose proof (length_dp_attrs (hp_time h) ds Hds) as Hl. pose proof (length_iface_options i) as Ho.
  destruct (holds_init HNCP_T_EXTERNAL_CONNECTION) as (b0 & -> & H0); [done|]. cbn [mbind option_bind].
  destruct (ec_prefixes_holds h (Some n) (hp_dps h) b0 [] Hw H0) as (b1 & -> & H1); [fold ds; cbn [app]; unfold attr in *; lia|]. cbn [mbind option_bind app] in H1 |- *. fold ds in H1.
  destruct (sort_open_holds b1 [] HNCP_T_EXTERNAL_CONNECTION (dp_attr (hp_time h) <$> ds) H1) as (b2 & ts & -> & H2 & Hp & Hs); [apply dp_attrs_ok; [done|lia]|].
  cbn [mbind option_bind]. rewrite Hi. cbn [mbind option_bind].
  assert (Hfit : Z.of_nat (length (enc (ts ++ iface_options i))) < 65536).
  { rewrite enc_app, length_app. rewrite (enc_perm_length _ _ Hp). unfold attr in *. lia. }
  destruct (put_iface_options_holds b2 [] HNCP_T_EXTERNAL_CONNECTION ts i H2 Hfit) as (b4 & E4 & H4). apply bind_Some in E4 as (b3 & -> & E4). cbn [mbind option_bind]. rewrite E4.
  cbn [mbind option_bind]. rewrite (holds_read _ _ _ _ H4). cbn [mbind option_bind]. eexists. split; [done|]. split; [by exists ts|]. by split.
Qed.

(** The external connection of a local prefix. *)
Definition local_tlv (now type : Z) d : attr := (HNCP_T_EXTERNAL_CONNECTION, raw (HNCP_T_DELEGATED_PREFIX, dp_payload now type false d)).

Lemma ec_local_spec type d h : prefix_wf (hd_prefix d) -> type_ok type -> Z.of_nat (dp_room d) < 65536 ->
  ec_local type d h = Some (set_hp_dncp (dncp_add_tlv_attr (local_tlv (hp_time h) type d) (hp_dncp h)) h) /\ tlv_ok (local_tlv (hp_time h) type d).
Proof.
  intros Hw Ht Hroom. unfold ec_local. pose proof (length_dp_payload (hp_time h) type false d Hw) as Hl. unfold dp_room in Hroom.
  destruct (holds_init HNCP_T_EXTERNAL_CONNECTION) as (b0 & -> & H0); [done|]. cbn [mbind option_bind].
  assert (Hfit : Z.of_nat (length (raw (HNCP_T_DELEGATED_PREFIX, dp_payload (hp_time h) type false d))) < 65536) by (rewrite length_raw; cbn [snd]; lia).
  destruct (put_delegated_holds (hp_time h) (fun _ => Some type) type false d b0 [] HNCP_T_EXTERNAL_CONNECTION []) as (b1 & -> & H1); [done|done|done|done|done|].
  cbn [mbind option_bind]. rewrite (holds_read _ _ _ _ H1). cbn [mbind option_bind]. split; [done|]. by split.
Qed.

(** ** Options of other nodes *)

(** A zone TLV that is long enough for its header. *)
Definition zone_ok (t : attr) : Prop := (17 <= length t.2)%nat /\ bytes_ok t.2.

(** The loop over the zones of a node finds only such, whatever else is indexed. *)
Definition zones_ok (n : node) : Prop := forall ix ix' k ts, tindex_wf ix ->
  dncp_node_for_each_tlv_with_t_v ix (mk_tcache None true) (default [] (tlv_container n)) (tlv_valid n) (Z.to_nat HNCP_T_DNS_DELEGATED_ZONE) true = Some (ix', k, ts) ->
  Forall zone_ok ts.

Definition dncp_ready (o : dncp) : Prop := tlvs_wf o /\ forall n, n ∈ nodes o -> zones_ok n.

(** In data ordered by type these are the zones in it. *)
Lemma ordered_zones_ok n ts : default [] (tlv_container n) = enc ts -> by_type ts -> tlvs_ok ts ->
  Forall (fun t => t.1 = HNCP_T_DNS_DELEGATED_ZONE -> zone_ok t) ts -> zones_ok n.
Proof.
  intros Hc Hb Hok Hz ix ix' k ts' Hix. rewrite Hc.
  destruct (for_each_tlv_enc ix (mk_tcache None true) ts (tlv_valid n) (Z.to_nat HNCP_T_DNS_DELEGATED_ZONE) true) as (ix2 & k2 & -> & _); [done..|].
  intros [= _ _ <-]. destruct (tlv_valid n); [|constructor]. rewrite Forall_forall in Hz |- *. intros t [Ht Hin]%list_elem_of_filter. by apply Hz.
Qed.

Lemma dncp_ready_calm o o' : calm o o' -> dncp_ready o -> dncp_ready o'.
Proof. intros (Hq & Hn & _) [Hw Hd]. split; [by apply Hq|]. by rewrite Hn. Qed.

Lemma valid_tlvs_ready o n T : dncp_ready o -> n ∈ nodes o ->
  exists ix ts, valid_tlvs_of_type o n T = Some (set_tix ix o, ts) /\ tindex_wf ix /\ (T = Z.to_nat HNCP_T_DNS_DELEGATED_ZONE -> Forall zone_ok ts).
Proof.
  intros [Hw Hd] Hn. unfold valid_tlvs_of_type. destruct Hw as [_ Hix].
  destruct (for_each_tlv_any (tix o) (default [] (tlv_container n)) (tlv_valid n) T true Hix) as (k & ts & E). rewrite E. cbn [mbind option_bind].
  eexists _, _. split; [done|]. split; [by apply dncp_add_tlv_index_wf|]. intros ->. by apply (Hd n Hn _ _ _ _ Hix E).
Qed.

Lemma ecs_options_total l v6 v4 : is_Some (ecs_options l v6 v4).
Proof.
  revert v6 v4; induction l as [|[id x] l IH]; intros v6 v4; cbn [ecs_options]; [by eexists|].
  destruct (tlv_list_total x 0 (length x)) as [ts ->]; [lia|]. cbn [mbind option_bind]. destruct (ec_options ts v6 v4). apply IH.
Qed.

Lemma push_char_nul o r : push_char o 0 = Some (inr r) -> 0 ∈ obuf r.
Proof.
  unfold push_char. case_decide; [done|]. intros (b & Hb & [= <-])%bind_Some. cbn [obuf]. unfold wr in Hb. case_decide; [|done]. injection Hb as <-.
  apply list_elem_of_lookup. exists (opos o). by rewrite list_lookup_insert_eq.
Qed.

(** Text that is not an error ends. *)
Lemma ll2escaped_loop_nul n tot fuel ll pos left o r b : out_ok n tot o ->
  ll2escaped_loop fuel ll pos left o = Some (r, b) -> 0 <= r -> 0 ∈ b.
Proof.
  revert pos left o; induction fuel as [|fuel IH]; intros pos left o Ho; cbn [ll2escaped_loop]; [done|].
  case_decide; [by intros [= <- <-]|]. intros (c & _ & E)%bind_Some Hr. case_decide.
  - case_decide; [by injection E as <- <-|]. apply bind_Some in E as (l & _ & E). pose proof (l2escaped_ok n tot l o Ho) as Hs1.
    apply bind_Some in E as (s1 & E1 & E). rewrite E1 in Hs1. destruct s1 as [[e1 b1]|o1]; [injection E as -> ->; cbn in Hs1; lia|].
    pose proof (push_char_ok n tot o1 chr_dot Hs1) as Hs2. apply bind_Some in E as (s2 & E2 & E). rewrite E2 in Hs2.
    destruct s2 as [[e2 b2]|o2]; [injection E as -> ->; cbn in Hs2; lia|]. by eapply IH.
  - pose proof (push_char_ok n tot o 0 Ho) as Hs1. apply bind_Some in E as (s1 & E1 & E). rewrite E1 in Hs1.
    destruct s1 as [[e1 b1]|o1]; [injection E as -> ->; cbn in Hs1; lia|]. injection E as _ <-. by apply (push_char_nul o).
Qed.

Lemma strlen_nul s : 0 ∈ s -> is_Some (strlen s).
Proof.
  intros H0. unfold strlen. destruct (list_find (fun c => c = 0) s) as [x|] eqn:E; [by eexists|].
  apply list_find_None in E. rewrite Forall_forall in E. by destruct (E 0 H0).
Qed.

Lemma zone_options_total l v6 v4 : Forall zone_ok l -> is_Some (zone_options l v6 v4).
Proof.
  intros Hz. revert v6 v4; induction Hz as [|[id x] l Hx Hz IH]; intros v6 v4; cbn [zone_options]; [by eexists|].
  destruct Hx as [Hlen Hb]. cbn [snd] in Hlen, Hb.
  destruct (lookup_lt_is_Some_2 x 16) as [flags ->]; [lia|]. cbn [mbind option_bind]. case_decide; [apply IH|].
  unfold ll2escaped. rewrite decide_False by lia. assert (Ho : out_ok 256 256 (mk_out (replicate 256 0) 0 256)) by decided.
  pose proof (ll2escaped_loop_ok 256 256 (length x - 17 + 1) x 0 (length x - 17) _ Hb ltac:(lia) ltac:(lia) Ho) as Hres.
  destruct (ll2escaped_loop _ _ _ _ _) as [[r text]|] eqn:E; [|done]. cbn [mbind option_bind]. case_decide as Hr; [|apply IH].
  destruct (strlen_nul text) as [k ->]; [by eapply ll2escaped_loop_nul|]. cbn [mbind option_bind]. apply IH.
Qed.

(** The state that one node leaves. *)
Definition retix o o' : Prop := exists ix, tindex_wf ix /\ o' = set_tix ix o.

Lemma retix_ready o o' : retix o o' -> dncp_ready o -> calm o o' /\ dncp_ready o'.
Proof. intros (ix & Hix & ->) Hr. assert (Hc : calm o (set_tix ix o)) by (by apply calm_tix). split; [done|]. by eapply dncp_ready_calm. Qed.

Lemma node_options_total ns v6 v4 o : dncp_ready o -> (forall n, n ∈ ns -> n ∈ nodes o) ->
  exists o' v6' v4', node_options ns v6 v4 o = Some (o', v6', v4') /\ retix o o'.
Proof.
  revert v6 v4 o; induction ns as [|n ns IH]; intros v6 v4 o Hr Hns; cbn [node_options].
  { exists o, v6, v4. split; [done|]. exists (tix o). split; [apply Hr|]. by destruct o. }
  assert (Hn : n ∈ nodes o) by (apply Hns; by left).
  assert (Hstep : exists o1 a6 a4, (if is_own o n then Some (o, v6, v4) else '(o, ecs) ← valid_tlvs_of_type o n (Z.to_nat HNCP_T_EXTERNAL_CONNECTION);
                         '(v6, v4) ← ecs_options ecs v6 v4; Some (o, v6, v4)) = Some (o1, a6, a4) /\ retix o o1).
  { destruct (is_own o n).
    - exists o, v6, v4. split; [done|]. exists (tix o). split; [apply Hr|]. by destruct o.
    - destruct (valid_tlvs_ready o n (Z.to_nat HNCP_T_EXTERNAL_CONNECTION) Hr Hn) as (ix & ts & -> & Hix & _). cbn [mbind option_bind].
      destruct (ecs_options_total ts v6 v4) as [[a6 a4] ->]. cbn [mbind option_bind]. exists (set_tix ix o), a6, a4. split; [done|]. by exists ix. }
  destruct Hstep as (o1 & a6 & a4 & -> & (ix1 & Hix1 & ->)). cbn [mbind option_bind].
  destruct (retix_ready o (set_tix ix1 o)) as [_ Hr1]; [by exists ix1|done|].
  destruct (valid_tlvs_ready (set_tix ix1 o) n (Z.to_nat HNCP_T_DNS_DELEGATED_ZONE) Hr1 Hn) as (ix2 & ts & -> & Hix2 & Hz). cbn [mbind option_bind].
  destruct (zone_options_total ts a6 a4) as [[b6 b4] ->]; [by apply Hz|]. cbn [mbind option_bind].
  change (set_tix ix2 (set_tix ix1 o)) with (set_tix ix2 o). destruct (retix_ready o (set_tix ix2 o)) as [_ Hr2]; [by exists ix2|done|].
  destruct (IH b6 b4 (set_tix ix2 o) Hr2) as (o' & v6' & v4' & -> & (ix3 & Hix3 & ->)); [intros m Hm; apply Hns; by right|].
  eexists _, _, _. split; [done|]. by exists ix3.
Qed.

Lemma domain_options_total domain : is_Some (domain_options domain).
Proof.
  unfold domain_options. case_decide; [by eexists|]. unfold escaped2ll. rewrite decide_False by lia.
  assert (Ho : out_ok 256 256 (mk_out (replicate 256 0) 0 256)) by decided.
  pose proof (escaped2ll_loop_ok 256 256 (domain ++ [0]) _ [] (-1) ltac:(apply elem_of_app; right; by left) Ho) as Hres.
  destruct (escaped2ll_loop _ _ _ _) as [[r b]|]; [|done]. cbn [mbind option_bind]. case_decide; by eexists.
Qed.
End ec.

(** ** What is left behind *)

(** The external connections among the local TLVs. *)
Definition ec_set (o : dncp) : list attr := filter (fun a => a.1 = HNCP_T_EXTERNAL_CONNECTION) (tlv <$> tlvs o).

(** Other subscribers leave them alone. *)
Class EcPassive `{!DncpExt, !DncpCallbacks} := {
  cb_ec e o : ec_set (call_subscriber e o) = ec_set o
}.

Section refresh.
Context `{DX : !DncpExt, DC : !DncpCallbacks, SH : !StoreHost, HH : !HpaHost, DP : !Passive, EP : !EcPassive, QS : !QSort hpa_qsort}.
Implicit Types (h : hpa) (p q : dp_ptr) (d : hpa_dp) (i : hpa_iface) (o : dncp).

Lemma ec_set_notify cb evs o : ec_set (notify_each cb evs o) = ec_set o.
Proof.
  rewrite notify_each_call_all. apply (call_all_ind (fun o' => ec_set o' = ec_set o)); [|done].
  intros e o' <-. unfold call. by rewrite cb_ec.
Qed.

Lemma ec_set_changed o : ec_set (tlvs_changed o) = ec_set o.
Proof. unfold tlvs_changed, dncp_schedule. by destruct (immediate_scheduled _). Qed.

Lemma ec_set_elem o a : a ∈ ec_set o <-> a.1 = HNCP_T_EXTERNAL_CONNECTION /\ a ∈ tlv <$> tlvs o.
Proof. unfold ec_set. by rewrite list_elem_of_filter. Qed.

Lemma ec_set_add a o x : a.1 = HNCP_T_EXTERNAL_CONNECTION -> x ∈ ec_set (dncp_add_tlv_attr a o) <-> x = a \/ x ∈ ec_set o.
Proof.
  intros Ha. unfold dncp_add_tlv_attr, dncp_add_tlv. rewrite ec_set_changed. unfold dncp_notify_subscribers_local_tlv_changed. rewrite ec_set_notify.
  set (l := insert_tlv _ _).
  assert (E : ec_set (match dncp_find_tlv o (Z.to_nat a.1) a.2 with
    | Some v => notify_each DNCP_CALLBACK_LOCAL_TLV (fun s => [LocalTlvChange s (tlv v) false]) (set_tlvs l o) | None => set_tlvs l o end) = ec_set (set_tlvs l o)).
  { destruct (dncp_find_tlv _ _ _); [apply ec_set_notify|done]. }
  rewrite E, !ec_set_elem. cbn [set_tlvs tlvs]. unfold l, without_tlv. rewrite !list_elem_of_fmap.
  assert (Ea : (Z.of_nat (Z.to_nat a.1), a.2) = a) by (destruct a as [id y]; cbn in *; by rewrite Ha). rewrite Ea. clear E l. split.
  - intros (Hx & u & -> & Hu). apply insert_tlv_elem in Hu as [->|[_ Hu]%list_elem_of_filter]; [by left|]. right. split; [done|]. by exists u.
  - intros [->|(Hx & u & -> & Hu)]; [split; [done|]; eexists; split; [|apply insert_tlv_elem; by left]; done|]. split; [done|].
    destruct (decide (tlv u = a)) as [Eu|Hne]; [|exists u; split; [done|]; apply insert_tlv_elem; right; by apply list_elem_of_filter].
    eexists. split; [|apply insert_tlv_elem; by left]. done.
Qed.

Lemma ec_set_remove o v a : a ∈ ec_set (dncp_remove_tlv o (Some v)) <-> a ∈ ec_set o /\ a ≠ tlv v.
Proof.
  unfold dncp_remove_tlv. rewrite ec_set_changed. unfold dncp_notify_subscribers_local_tlv_changed. rewrite ec_set_notify, !ec_set_elem.
  cbn [set_tlvs tlvs]. unfold without_tlv. rewrite !list_elem_of_fmap. split.
  - intros (Ha & u & -> & [Hne Hu]%list_elem_of_filter). split; [|done]. split; [done|]. by exists u.
  - intros ((Ha & u & -> & Hu) & Hne). split; [done|]. exists u. split; [done|]. by apply list_elem_of_filter.
Qed.

(** Removing the TLVs of the type leaves none. *)
Lemma ec_set_clear o a : a ∉ ec_set (dncp_remove_tlvs_by_type o (Z.to_nat HNCP_T_EXTERNAL_CONNECTION)).1.
Proof.
  unfold dncp_remove_tlvs_by_type.
  assert (Hrem : forall us o c a, a ∈ ec_set (foldl (fun '(o, c) u => (dncp_remove_tlv o (Some u), (c + 1)%nat)) (o, c) us).1 -> a ∈ ec_set o /\ a ∉ tlv <$> us).
  { induction us as [|u us IH]; intros o' c x Hx; cbn [foldl] in Hx; [split; [done|by apply not_elem_of_nil]|].
    apply IH in Hx as [[Hx Hne]%ec_set_remove Hnot]. split; [done|]. by intros [->|?]%elem_of_cons. }
  intros [Ha Hn]%Hrem. apply Hn. apply ec_set_elem in Ha as [Ht (u & -> & Hu)%list_elem_of_fmap]. apply list_elem_of_fmap. exists u. split; [done|].
  by apply list_elem_of_filter.
Qed.

(** ** The loop over the interfaces *)

(** When all that is to be published is defined. *)
Record ec_ready h : Prop := {
  er_wf : well_formed h (hp_dps h);
  er_v4 : exists d, hp_dp_mem h !! V4Dp = Some d /\ prefix_wf (hd_prefix d) /\ Z.of_nat (dp_room d) < 65536;
  er_ula : exists d, hp_dp_mem h !! UlaDp = Some d /\ prefix_wf (hd_prefix d) /\ Z.of_nat (dp_room d) < 65536;
  er_iface p d : p ∈ hp_dps h -> hp_dp_mem h !! p = Some d -> from_iface d = true -> exists n i, hd_iface d = Some n /\ get_iface h n = Some i;
  er_room n i : get_iface h n = Some i -> Z.of_nat (sum_list (dp_room <$> cells h (hp_dps h)) + iface_room i) < 65536;
  er_dncp : dncp_ready (hp_dncp h)
}.

Lemma ec_prefixes_dncp o h name dps b : clock o = hp_time h -> ec_prefixes (set_hp_dncp o h) name dps b = ec_prefixes h name dps b.
Proof.
  intros Hc. revert b; induction dps as [|q dps IH]; intros b; [done|]. cbn [ec_prefixes]. change (hp_dp_mem (set_hp_dncp o h)) with (hp_dp_mem h).
  change (hp_time (set_hp_dncp o h)) with (clock o). rewrite Hc. destruct (hp_dp_mem h !! q) as [d|]; [|done]. cbn [mbind option_bind].
  destruct (if from_iface d && bool_decide (hd_iface d = name) then _ else _); [|done]. cbn [mbind option_bind]. apply IH.
Qed.

Lemma ec_of_iface_dncp o h name : clock o = hp_time h -> ec_of_iface (set_hp_dncp o h) name = ec_of_iface h name.
Proof.
  intros Hc. unfold ec_of_iface. destruct (tlv_buf_init _ _) as [b|]; [|done]. cbn [mbind option_bind].
  change (hp_dps (set_hp_dncp o h)) with (hp_dps h). by rewrite ec_prefixes_dncp.
Qed.

Lemma ec_seen_dncp o h p name dps : ec_seen (set_hp_dncp o h) p name dps = ec_seen h p name dps.
Proof.
  induction dps as [|q dps IH]; [done|]. cbn [ec_seen]. change (hp_dp_mem (set_hp_dncp o h)) with (hp_dp_mem h).
  destruct (hp_dp_mem h !! q) as [d|]; [|done]. cbn [mbind option_bind]. by rewrite IH.
Qed.

Lemma ec_seen_total h p name dps : well_formed h dps -> is_Some (ec_seen h p name dps).
Proof.
  induction dps as [|q dps IH]; intros Hw; cbn [ec_seen]; [by eexists|]. destruct (Hw q) as (d & -> & _); [by left|]. cbn [mbind option_bind].
  assert (Hw' : well_formed h dps) by (intros x Hx; apply Hw; by right). destruct (negb (from_iface d)); [by apply IH|]. repeat case_decide; [by eexists|by eexists|by apply IH].
Qed.

(** The first delegated prefix of an interface is not a repetition. *)
Lemma ec_seen_first h name l1 q l2 dq : well_formed h (l1 ++ q :: l2) -> hp_dp_mem h !! q = Some dq -> of_iface name dq ->
  (forall x d, x ∈ l1 -> hp_dp_mem h !! x = Some d -> ~ of_iface name d) -> ec_seen h q name (l1 ++ q :: l2) = Some false.
Proof.
  intros Hw Hq Hof. induction l1 as [|x l1 IH]; intros Hnot; cbn [app ec_seen].
  { rewrite Hq. cbn [mbind option_bind]. rewrite (proj1 Hof). cbn [negb]. by rewrite decide_True. }
  destruct (Hw x) as (d & Hd & _); [by left|]. rewrite Hd. cbn [mbind option_bind].
  assert (Hn : ~ of_iface name d) by (apply (Hnot x); [by left|done]).
  assert (IH' : ec_seen h q name (l1 ++ q :: l2) = Some false).
  { apply IH; [intros y Hy; apply Hw; by right|intros y dy Hy; apply Hnot; by right]. }
  destruct (from_iface d) eqn:E; cbn [negb]; [|done]. case_decide as E2; [done|]. rewrite decide_False; [done|]. intros E3. by apply Hn.
Qed.

(** The external connection that an interface gets. *)
Definition ec_at h (n : list Z) (a : attr) : Prop := exists e6 e4, ec_of_iface h (Some n) = Some (a, e6, e4).

Definition starts_ec h (dps : list dp_ptr) (n : list Z) : Prop :=
  exists p d, p ∈ dps /\ hp_dp_mem h !! p = Some d /\ of_iface (Some n) d /\ ec_seen h p (Some n) (hp_dps h) = Some false.

Lemma ec_ready_dncp o h : calm (hp_dncp h) o -> ec_ready h -> ec_ready (set_hp_dncp o h).
Proof. intros Hc []. split; try done. by eapply dncp_ready_calm. Qed.

Lemma ec_ready_spec h n : ec_ready h -> (exists i, get_iface h n = Some i) ->
  exists a i, ec_of_iface h (Some n) = Some (a, hi_ext6 i, hi_ext4 i) /\ get_iface h n = Some i /\
    ec_tlv (hp_time h) (filter (of_iface (Some n)) (cells h (hp_dps h))) i a /\ tlv_ok a.
Proof.
  intros Hr (i & Hi). destruct (ec_of_iface_spec h n i (er_wf _ Hr) Hi (er_room _ Hr n i Hi)) as (a & E & Ha & Hok). by exists a, i.
Qed.

Lemma ec_tlv_type now ds i a : ec_tlv now ds i a -> a.1 = HNCP_T_EXTERNAL_CONNECTION.
Proof. by intros (ts & -> & _). Qed.

Lemma calm_add_attr a o : a.1 = HNCP_T_EXTERNAL_CONNECTION -> tlv_ok a -> calm o (dncp_add_tlv_attr a o).
Proof. intros Ha Hok. apply calm_add_tlv. destruct a as [id x]. cbn in *. by subst. Qed.

Lemma ec_ifaces_spec publish h0 h dps v6 v4 o : ec_ready h0 -> h = set_hp_dncp o h0 -> calm (hp_dncp h0) o -> (forall p, p ∈ dps -> p ∈ hp_dps h0) ->
  exists o' w6 w4, ec_ifaces publish dps v6 v4 h = Some (set_hp_dncp o' h0, w6, w4) /\ calm (hp_dncp h0) o' /\
    (forall a, a ∈ ec_set o' <-> a ∈ ec_set o \/ (publish = true /\ exists n, starts_ec h0 dps n /\ ec_at h0 n a)).
Proof.
  intros Hr. revert h v6 v4 o; induction dps as [|p dps IH]; intros h v6 v4 o -> Hc Hin; cbn [ec_ifaces].
  { exists o, v6, v4. split; [done|]. split; [done|]. intros a. split; [by left|]. intros [?|(_ & n & (p & d & Hp & _) & _)]; [done|by apply elem_of_nil in Hp]. }
  assert (Hp : p ∈ hp_dps h0) by (apply Hin; by left). destruct (er_wf _ Hr p Hp) as (d & Hd & Hw). change (hp_dp_mem (set_hp_dncp o h0)) with (hp_dp_mem h0). rewrite Hd. cbn [mbind option_bind].
  assert (Hin' : forall q, q ∈ dps -> q ∈ hp_dps h0) by (intros q Hq; apply Hin; by right).
  assert (Hskip : forall a6 a4, (forall n, of_iface (Some n) d -> ec_seen h0 p (Some n) (hp_dps h0) = Some false -> False) ->
    exists o' w6 w4, ec_ifaces publish dps a6 a4 (set_hp_dncp o h0) = Some (set_hp_dncp o' h0, w6, w4) /\ calm (hp_dncp h0) o' /\
      (forall a, a ∈ ec_set o' <-> a ∈ ec_set o \/ (publish = true /\ exists n, starts_ec h0 (p :: dps) n /\ ec_at h0 n a))).
  { intros a6 a4 Hno. destruct (IH (set_hp_dncp o h0) a6 a4 o eq_refl Hc Hin') as (o' & w6 & w4 & E & Hc' & Hset). exists o', w6, w4. split; [done|]. split; [done|].
    intros a. rewrite Hset. split; (intros [?|(-> & n & (q & dq & Hq & Hdq & Hof & Hs) & Hat)]; [by left|right; split; [done|]; exists n; split; [|done]]; exists q, dq; split_and!; try done).
    - by right.
    - apply elem_of_cons in Hq as [->|?]; [|done]. assert (dq = d) as -> by congruence. by destruct (Hno n). }
  destruct (from_iface d) eqn:Ef; cbn [negb]; [|apply Hskip; by intros n [? _]; congruence].
  destruct (er_iface _ Hr p d Hp Hd Ef) as (n & i & En & Hi). rewrite ec_seen_dncp. change (hp_dps (set_hp_dncp o h0)) with (hp_dps h0). rewrite En.
  destruct (ec_seen_total h0 p (Some n) (hp_dps h0) (er_wf _ Hr)) as [seen Es]. rewrite Es. cbn [mbind option_bind].
  destruct seen; [apply Hskip; intros m [_ E2] E3; rewrite En in E2; injection E2 as <-; congruence|].
  destruct (ec_ready_spec h0 n Hr) as (a & i' & Ea & Hi' & Htlv & Hok); [by exists i|].
  assert (Hclk : clock o = hp_time h0) by (by rewrite (calm_clock _ _ Hc)). rewrite ec_of_iface_dncp, Ea by done. cbn [mbind option_bind].
  pose proof (ec_tlv_type _ _ _ _ Htlv) as Hty.
  set (o1 := if publish then dncp_add_tlv_attr a o else o).
  assert (E1 : (if publish then set_hp_dncp (dncp_add_tlv_attr a (hp_dncp (set_hp_dncp o h0))) (set_hp_dncp o h0) else set_hp_dncp o h0) = set_hp_dncp o1 h0) by (by destruct publish).
  assert (Hc1 : calm (hp_dncp h0) o1) by (unfold o1; destruct publish; [etrans; [done|by apply calm_add_attr]|done]).
  destruct (IH _ (v6 ++ hi_ext6 i') (v4 ++ hi_ext4 i') o1 E1 Hc1 Hin') as (o' & w6 & w4 & E & Hc' & Hset). exists o', w6, w4. split; [done|]. split; [done|].
  assert (Hset1 : forall x, x ∈ ec_set o1 <-> x ∈ ec_set o \/ (publish = true /\ x = a)).
  { intros x. unfold o1. destruct publish; [rewrite ec_set_add by done; split; [intros [?|?]; auto|intros [?|[_ ?]]; auto]|]. split; [by left|by intros [?|[? _]]]. }
  intros x. rewrite Hset, Hset1. split.
  - intros [[?|[-> ->]]|(-> & m & (q & dq & Hq & Hrest) & Hat)]; [by left| |]; right; (split; [done|]).
    + exists n. split; [|by eexists _, _]. exists p, d. split; [by left|]. split; [done|]. split; [by split|done].
    + exists m. split; [|done]. exists q, dq. split; [by right|done].
  - intros [?|(-> & m & (q & dq & Hq & Hdq & [Hf Hm] & Hs) & Hat)]; [by left; left|]. apply elem_of_cons in Hq as [->|Hq].
    + left. right. split; [done|]. assert (dq = d) as -> by congruence. rewrite En in Hm. injection Hm as <-. destruct Hat as (e6 & e4 & Hat). congruence.
    + right. split; [done|]. exists m. split; [|done]. exists q, dq. by split_and!.
Qed.

(** Every interface with an enabled delegated prefix starts an external connection. *)
Lemma starts_ec_all h n : ec_ready h -> starts_ec h (hp_dps h) n <-> exists p d, p ∈ hp_dps h /\ hp_dp_mem h !! p = Some d /\ of_iface (Some n) d.
Proof.
  intros Hr. split; [intros (p & d & ? & ? & ? & _); by exists p, d|]. intros (p & d & Hp & Hd & Hof).
  set (f := fun q => default false ((fun d => bool_decide (of_iface (Some n) d)) <$> hp_dp_mem h !! q)).
  assert (Hf : forall q, f q = true <-> exists d, hp_dp_mem h !! q = Some d /\ of_iface (Some n) d).
  { intros q. unfold f. destruct (hp_dp_mem h !! q) as [dq|]; cbn; [|split; [done|by intros (? & ? & _)]].
    rewrite bool_decide_eq_true. split; [by exists dq|]. by intros (? & [= <-] & ?). }
  destruct (list_find (fun q => f q = true) (hp_dps h)) as [[k q]|] eqn:E.
  - apply list_find_Some in E as (Hk & (dq & Hdq & Hofq)%Hf & Hbefore). exists q, dq. split; [by eapply list_elem_of_lookup_2|]. split; [done|]. split; [done|].
    rewrite <- (take_drop_middle _ _ _ Hk). apply (ec_seen_first h (Some n) _ q _ dq); [|done|done|].
    + rewrite (take_drop_middle _ _ _ Hk). apply Hr.
    + intros x dx Hx Hdx Hofx. apply list_elem_of_lookup in Hx as [j Hj]. apply lookup_take_Some in Hj as [Hj Hlt]. apply (Hbefore j x Hj Hlt), Hf. by exists dx.
  - exfalso. apply list_find_None in E. rewrite Forall_forall in E. apply (E p Hp), Hf. by exists d.
Qed.

(** What is published for this node. *)
Definition published_ec h (a : attr) : Prop :=
  (exists p d n, p ∈ hp_dps h /\ hp_dp_mem h !! p = Some d /\ of_iface (Some n) d /\ ec_at h n a) \/
  (exists d, hp_dp_mem h !! UlaDp = Some d /\ ula_enabled h = true /\ hd_enabled d = true /\ a = local_tlv (hp_time h) HNCP_T_DHCPV6_OPTIONS d) \/
  (exists d, hp_dp_mem h !! V4Dp = Some d /\ v4_enabled h = true /\ hd_enabled d = true /\ hd_type d = HPA_DP_T_LOCAL /\
    a = local_tlv (hp_time h) HNCP_T_DHCP_OPTIONS d).

(** A local prefix is added when [c] holds. *)
Lemma ec_local_step (c : bool) type d h0 o : prefix_wf (hd_prefix d) -> type_ok type -> Z.of_nat (dp_room d) < 65536 -> calm (hp_dncp h0) o ->
  exists o', (if c then ec_local type d (set_hp_dncp o h0) else Some (set_hp_dncp o h0)) = Some (set_hp_dncp o' h0) /\ calm (hp_dncp h0) o' /\
    forall a, a ∈ ec_set o' <-> a ∈ ec_set o \/ (c = true /\ a = local_tlv (hp_time h0) type d).
Proof.
  intros Hw Ht Hroom Hc. destruct c; [|exists o; split; [done|]; split; [done|]; intros a; split; [by left|by intros [?|[? _]]]].
  destruct (ec_local_spec type d (set_hp_dncp o h0) Hw Ht Hroom) as [-> Hok]. change (hp_time (set_hp_dncp o h0)) with (clock o) in *.
  rewrite (calm_clock _ _ Hc) in *. change (clock (hp_dncp h0)) with (hp_time h0) in *.
  eexists. split; [done|]. split; [etrans; [done|]; by apply calm_add_attr|]. intros a. cbn [set_hp_dncp hp_dncp]. rewrite ec_set_add by done.
  split; [intros [?|?]; auto|intros [?|[_ ?]]; auto].
Qed.

Lemma ec_set_tix ix o : ec_set (set_tix ix o) = ec_set o.
Proof. done. Qed.

(** [hpa_refresh_ec] only changes local TLVs, and tells the interfaces. *)
Lemma refresh_spec publish h : ec_ready h ->
  exists o v6 v4, hpa_refresh_ec publish h = Some (hp_emit (EvDhcpSend v6 v4) (set_hp_dncp o h)) /\ calm (hp_dncp h) o /\
    forall a, a ∈ ec_set o <-> if publish then published_ec h a else a ∈ ec_set (hp_dncp h).
Proof.
  intros Hr. unfold hpa_refresh_ec. set (o0 := if publish then (dncp_remove_tlvs_by_type (hp_dncp h) (Z.to_nat HNCP_T_EXTERNAL_CONNECTION)).1 else hp_dncp h).
  assert (E0 : (if publish then set_hp_dncp (dncp_remove_tlvs_by_type (hp_dncp h) (Z.to_nat HNCP_T_EXTERNAL_CONNECTION)).1 h else h) = set_hp_dncp o0 h) by (destruct publish; [done|by destruct h]).
  rewrite E0. clear E0. assert (Hc0 : calm (hp_dncp h) o0) by (unfold o0; destruct publish; [apply calm_remove_tlvs_by_type|done]).
  change (hp_domain (set_hp_dncp o0 h)) with (hp_domain h). destruct (domain_options_total (hp_domain h)) as [[v6 v4] ->]. cbn [mbind option_bind].
  destruct (ec_ifaces_spec publish h _ (hp_dps h) v6 v4 o0 Hr eq_refl Hc0) as (o1 & w6 & w4 & E1 & Hc1 & Hset1); [done|]. change (hp_dps (set_hp_dncp o0 h)) with (hp_dps h). rewrite E1. cbn [mbind option_bind].
  destruct (er_ula _ Hr) as (ud & Hud & Hwu & Hru). destruct (er_v4 _ Hr) as (vd & Hvd & Hwv & Hrv).
  change (hp_dp_mem (set_hp_dncp o1 h)) with (hp_dp_mem h). rewrite Hud. cbn [mbind option_bind]. change (ula_enabled (set_hp_dncp o1 h)) with (ula_enabled h).
  destruct (ec_local_step (publish && ula_enabled h && hd_enabled ud) HNCP_T_DHCPV6_OPTIONS ud h o1) as (o2 & -> & Hc2 & Hset2); [done|done|done|done|]. cbn [mbind option_bind].
  change (hp_dp_mem (set_hp_dncp o2 h)) with (hp_dp_mem h). rewrite Hvd. cbn [mbind option_bind]. change (v4_enabled (set_hp_dncp o2 h)) with (v4_enabled h).
  destruct (ec_local_step (publish && v4_enabled h && hd_enabled vd && bool_decide (hd_type vd = HPA_DP_T_LOCAL)) HNCP_T_DHCP_OPTIONS vd h o2) as (o3 & -> & Hc3 & Hset3); [done|done|done|done|].
  cbn [mbind option_bind set_hp_dncp hp_dncp].
  destruct (node_options_total (reachable_nodes o3) w6 w4 o3) as (o4 & x6 & x4 & -> & (ix & Hix & ->)).
  { eapply dncp_ready_calm; [done|apply Hr]. }
  { intros n. unfold reachable_nodes. by intros [_ ?]%list_elem_of_filter. }
  cbn [mbind option_bind]. exists (set_tix ix o3), x6, x4. split; [done|]. split; [etrans; [done|by apply calm_tix]|].
  intros a. rewrite ec_set_tix, Hset3, Hset2, Hset1. destruct publish; cbn [andb].
  - unfold published_ec. split.
    + intros [[[Ha|(_ & n & Hn & Hat)]|[Hu ->]]|[Hv ->]].
      * by destruct (ec_set_clear (hp_dncp h) a).
      * apply starts_ec_all in Hn as (p & d & Hp & Hd & Hof); [|done]. left. by exists p, d, n.
      * apply andb_true_iff in Hu as [? ?]. right. left. by exists ud.
      * apply andb_true_iff in Hv as [[? ?]%andb_true_iff ?%bool_decide_eq_true]. right. right. by exists vd.
    + intros [(p & d & n & Hp & Hd & Hof & Hat)|[(d & Hd & Hu & He & ->)|(d & Hd & Hv & He & Ht & ->)]].
      * left. left. right. split; [done|]. exists n. split; [|done]. apply starts_ec_all; [done|]. by exists p, d.
      * left. right. assert (d = ud) as -> by congruence. by rewrite Hu, He.
      * right. assert (d = vd) as -> by congruence. rewrite Hv, He, Ht. by rewrite bool_decide_true.
  - split; [intros [[[Ha|[? _]]|[? _]]|[? _]]; done|]. by left; left; left.
Qed.
End refresh.
