(* ===== verification/HncpPaInv.v ===== *)
(** The invariant of the delegated prefixes, and the operations on a single one. *)
From S2P Require Import Prelude Bitops Prefix Tlv DnsUtil BtrieWf PaTrie PaCore PaFacts PaInv PaStore PaStoreInv PaStoreCache PaStoreLinks PaStoreText PaStoreFile PaStoreOps DncpNotify DncpIndex DncpState Dncp DncpFacts DncpPrune DncpInv DncpTrustFacts Hncp HncpRouting HncpPa HncpPaEc.

(** ** What the core knows *)

(** The delegated prefixes and the rules that the core has after the calls of a log; there
    is none when something is added twice, or removed without having been added. *)
Definition core_step (s : option (gmap dp_ptr prefix * gmap dp_ptr prefix)) (e : hpa_event) : option (gmap dp_ptr prefix * gmap dp_ptr prefix) :=
  '(ds, rs) ← s;
  match e with
  | EvDpAdd p x => if decide (ds !! p = None) then Some (<[p := x]> ds, rs) else None
  | EvDpDel p => if decide (ds !! p = None) then None else Some (delete p ds, rs)
  | EvRuleAdd p x => if decide (rs !! p = None) then Some (ds, <[p := x]> rs) else None
  | EvRuleDel p => if decide (rs !! p = None) then None else Some (ds, delete p rs)
  | _ => Some (ds, rs)
  end.

Definition core_after (log : list hpa_event) : option (gmap dp_ptr prefix * gmap dp_ptr prefix) := foldl core_step (Some (∅, ∅)) log.

Definition is_core (e : hpa_event) : bool :=
  match e with EvDpAdd _ _ | EvDpDel _ | EvRuleAdd _ _ | EvRuleDel _ => true | _ => false end.

Lemma core_after_snoc log e : core_after (log ++ [e]) = core_step (core_after log) e.
Proof. unfold core_after. by rewrite foldl_app. Qed.

Lemma core_after_other log es : Forall (fun e => is_core e = false) es -> core_after (log ++ es) = core_after log.
Proof.
  induction es as [|e es IH] using rev_ind; intros Hes; [by rewrite app_nil_r|]. apply Forall_app in Hes as [Hes He]. apply Forall_inv in He.
  rewrite app_assoc, core_after_snoc, IH by done. destruct (core_after log) as [[ds rs]|]; [|done]. by destruct e.
Qed.

(** The enabled delegated prefixes, and the excluded prefixes of those. *)
Definition excludes (d : hpa_dp) : Prop := hd_enabled d = true /\ hd_type d = HPA_DP_T_IFACE /\ hd_excluded d = true.

#[global] Instance excludes_dec d : Decision (excludes d).
Proof. unfold excludes. apply _. Defined.

Definition enabled_map (m : gmap dp_ptr hpa_dp) : gmap dp_ptr prefix := omap (fun d => if hd_enabled d then Some (hd_prefix d) else None) m.
Definition rules_map (m : gmap dp_ptr hpa_dp) : gmap dp_ptr prefix := omap (fun d => if decide (excludes d) then Some (hd_excluded_prefix d) else None) m.

(** Two cells that the core cannot tell apart. *)
Definition core_view (d : hpa_dp) : option prefix * option prefix :=
  (if hd_enabled d then Some (hd_prefix d) else None, if decide (excludes d) then Some (hd_excluded_prefix d) else None).

Definition view (m : gmap dp_ptr hpa_dp) (p : dp_ptr) : option prefix * option prefix := default (None, None) (core_view <$> m !! p).

Lemma enabled_map_view m p : enabled_map m !! p = (view m p).1.
Proof. unfold enabled_map, view. rewrite lookup_omap. by destruct (m !! p). Qed.

Lemma rules_map_view m p : rules_map m !! p = (view m p).2.
Proof. unfold rules_map, view. rewrite lookup_omap. by destruct (m !! p). Qed.

Lemma maps_ext m m' : (forall p, view m' p = view m p) -> enabled_map m' = enabled_map m /\ rules_map m' = rules_map m.
Proof. intros H. split; apply map_eq; intros p; by rewrite ?enabled_map_view, ?rules_map_view, H. Qed.

Lemma view_insert m p d q : view (<[p := d]> m) q = if decide (q = p) then core_view d else view m q.
Proof. unfold view. case_decide as E; [subst; by rewrite lookup_insert_eq|by rewrite lookup_insert_ne]. Qed.

Lemma view_delete m p q : view (delete p m) q = if decide (q = p) then (None, None) else view m q.
Proof. unfold view. case_decide as E; [subst; by rewrite lookup_delete_eq|by rewrite lookup_delete_ne]. Qed.

Lemma enabled_map_insert m p d : enabled_map (<[p := d]> m) = if hd_enabled d then <[p := hd_prefix d]> (enabled_map m) else delete p (enabled_map m).
Proof.
  apply map_eq. intros q. rewrite enabled_map_view, view_insert. destruct (decide (q = p)) as [->|Hq].
  - cbn [core_view fst]. destruct (hd_enabled d); [by rewrite lookup_insert_eq|by rewrite lookup_delete_eq].
  - destruct (hd_enabled d); [rewrite lookup_insert_ne by done|rewrite lookup_delete_ne by done]; by rewrite enabled_map_view.
Qed.

Lemma rules_map_insert m p d : rules_map (<[p := d]> m) = if decide (excludes d) then <[p := hd_excluded_prefix d]> (rules_map m) else delete p (rules_map m).
Proof.
  apply map_eq. intros q. rewrite rules_map_view, view_insert. destruct (decide (q = p)) as [->|Hq].
  - cbn [core_view snd]. case_decide; [by rewrite lookup_insert_eq|by rewrite lookup_delete_eq].
  - case_decide; [rewrite lookup_insert_ne by done|rewrite lookup_delete_ne by done]; by rewrite rules_map_view.
Qed.

(** Enabling and disabling a delegated prefix, with its rule. *)
Lemma core_switch log m p d e : core_after log = Some (enabled_map m, rules_map m) -> m !! p = Some d -> hd_enabled d ≠ e ->
  let rule := bool_decide (hd_type d = HPA_DP_T_IFACE) && hd_excluded d in
  core_after ((log ++ [if e then EvDpAdd p (hd_prefix d) else EvDpDel p]) ++ (if rule then [if e then EvRuleAdd p (hd_excluded_prefix d) else EvRuleDel p] else [])) =
    Some (enabled_map (<[p := set_hd_enabled e d]> m), rules_map (<[p := set_hd_enabled e d]> m)).
Proof.
  intros Hlog Hd He rule. set (m' := <[p := set_hd_enabled e d]> m).
  assert (Hv : view m p = core_view d) by (unfold view; by rewrite Hd).
  assert (H1 : core_after (log ++ [if e then EvDpAdd p (hd_prefix d) else EvDpDel p]) = Some (enabled_map m', rules_map m)).
  { rewrite core_after_snoc, Hlog. unfold m'. rewrite enabled_map_insert. change (hd_enabled (set_hd_enabled e d)) with e. change (hd_prefix (set_hd_enabled e d)) with (hd_prefix d).
    destruct e; cbn [core_step mbind option_bind]; rewrite enabled_map_view, Hv; cbn [core_view fst]; destruct (hd_enabled d); try done. }
  assert (Hex : excludes (set_hd_enabled e d) <-> e = true /\ rule = true).
  { unfold excludes, rule. cbn. rewrite andb_true_iff, bool_decide_eq_true. tauto. }
  assert (Hr : rules_map m !! p = if decide (hd_enabled d = true /\ rule = true) then Some (hd_excluded_prefix d) else None).
  { rewrite rules_map_view, Hv. cbn [core_view snd]. apply decide_ext. unfold excludes, rule. rewrite andb_true_iff, bool_decide_eq_true. tauto. }
  destruct rule eqn:Er.
  - rewrite core_after_snoc, H1. unfold m'. rewrite rules_map_insert. change (hd_excluded_prefix (set_hd_enabled e d)) with (hd_excluded_prefix d).
    destruct e; cbn [core_step mbind option_bind]; rewrite Hr.
    + rewrite (decide_False (P := _ /\ _)) by tauto. rewrite decide_True by done. by rewrite decide_True by (by apply Hex).
    + rewrite (decide_True (P := _ /\ _)) by (split; [by destruct (hd_enabled d)|done]). rewrite decide_False by done. rewrite decide_False by (by intros [? _]%Hex). done.
  - rewrite app_nil_r, H1. do 2 f_equal. unfold m'. rewrite rules_map_insert, decide_False by (by intros [_ ?]%Hex).
    symmetry. apply delete_id. rewrite Hr. by rewrite decide_False by (by intros [_ ?]).
Qed.

(** ** The invariant *)

(** The store has the link of the local prefix, for one prefix. *)
Definition store_fine (st : pa_store) : Prop :=
  exists G l, store_is st G /\ link_mem st !! store_ula = Some l /\ sl_max_prefixes l = 1.

Section inv.
Context `{DX : !DncpExt, DC : !DncpCallbacks, SH : !StoreHost, HH : !HpaHost, DP : !Passive, EP : !EcPassive, QS : !QSort hpa_qsort, HOK : !StoreHostOk}.
Implicit Types (h : hpa) (p q : dp_ptr) (d : hpa_dp) (i : hpa_iface) (o : dncp).

(** A delegated prefix of an interface, a local one, or one of another node. *)
Definition kind_ok h p d : Prop :=
  (hd_type d = HPA_DP_T_IFACE /\ hd_local d = true /\ p ≠ UlaDp /\ hd_delete_to d = None /\ exists n i, hd_iface d = Some n /\ get_iface h n = Some i) \/
  (hd_type d = HPA_DP_T_LOCAL /\ hd_local d = true /\ (p = V4Dp \/ p = UlaDp) /\ hd_delete_to d = None) \/
  (hd_type d = HPA_DP_T_HNCP /\ hd_local d = false /\ exists k, p = HeapDp k).

Record hinv h : Prop := {
  hi_nodup : NoDup (hp_dps h);
  hi_cell p : p ∈ hp_dps h -> is_Some (hp_dp_mem h !! p);
  hi_special p : p = V4Dp \/ p = UlaDp -> exists d, hp_dp_mem h !! p = Some d /\ hd_dhcp d = [] /\ hd_excluded d = false;
  hi_heap k : is_Some (hp_dp_mem h !! HeapDp k) -> HeapDp k ∈ hp_dps h /\ (k < hp_calls h)%nat;
  hi_wf p d : hp_dp_mem h !! p = Some d -> prefix_wf (hd_prefix d);
  hi_off p d : hp_dp_mem h !! p = Some d -> p ∉ hp_dps h -> hd_enabled d = false;
  hi_kind p d : hp_dp_mem h !! p = Some d -> p ∈ hp_dps h -> kind_ok h p d;
  hi_names : NoDup (hi_name <$> hp_ifaces h);
  hi_conf : prefix_wf (v4_prefix (hp_conf h)) /\ prefix_wf (ula_prefix (hp_conf h));
  hi_core : core_after (hp_log h) = Some (enabled_map (hp_dp_mem h), rules_map (hp_dp_mem h));
  hi_store : store_fine (hp_store h);
  hi_dncp : dncp_ready (hp_dncp h) /\ is_Some (own_node (hp_dncp h))
}.

(** Room for the TLVs: a bound on the length of every external connection, with a reserve
    for the two local prefixes. *)
Definition heap_room h p : nat := match p with HeapDp _ => default 0%nat (dp_room <$> hp_dp_mem h !! p) | _ => 0%nat end.
Definition room h : nat := 96 + sum_list (heap_room h <$> hp_dps h) + sum_list (iface_room <$> hp_ifaces h).
Definition fits h : Prop := Z.of_nat (room h) < 65536.

Lemma get_iface_Some h n i : get_iface h n = Some i -> i ∈ hp_ifaces h /\ hi_name i = n.
Proof. unfold get_iface. intros ([k j] & (Hk & Hn & _)%list_find_Some & ->)%fmap_Some. split; [by eapply list_elem_of_lookup_2|done]. Qed.

Lemma cells_room h dps : NoDup dps -> (forall p, p ∈ dps -> is_Some (hp_dp_mem h !! p)) ->
  (forall p d, p = V4Dp \/ p = UlaDp -> hp_dp_mem h !! p = Some d -> hd_dhcp d = []) ->
  (sum_list (dp_room <$> cells h dps) <= (if decide (V4Dp ∈ dps) then 48 else 0) + (if decide (UlaDp ∈ dps) then 48 else 0) + sum_list (heap_room h <$> dps))%nat.
Proof.
  intros Hn Hc Hs. induction Hn as [|p dps Hp Hn IH]; [cbn; lia|]. destruct (Hc p) as [d Hd]; [by left|]. rewrite (cells_cons h p dps d Hd). cbn [fmap list_fmap].
  change (sum_list (dp_room d :: (dp_room <$> cells h dps))) with (dp_room d + sum_list (dp_room <$> cells h dps))%nat.
  change (sum_list (heap_room h p :: (heap_room h <$> dps))) with (heap_room h p + sum_list (heap_room h <$> dps))%nat.
  specialize (IH (fun q Hq => Hc q (list_elem_of_further _ _ _ Hq))).
  assert (Hin : forall q, q ≠ p -> (if decide (q ∈ p :: dps) then 48 else 0)%nat = (if decide (q ∈ dps) then 48 else 0)%nat).
  { intros q Hq. destruct (decide (q ∈ dps)); [rewrite decide_True by (by right)|rewrite decide_False by (by intros [?|?]%elem_of_cons)]; done. }
  destruct p as [| |k].
  - rewrite (decide_True (P := V4Dp ∈ V4Dp :: dps)) by (by left). rewrite decide_False in IH by done. rewrite (Hin UlaDp) by done.
    unfold dp_room at 1. rewrite (Hs V4Dp d) by auto. cbn [length heap_room]. lia.
  - rewrite (decide_True (P := UlaDp ∈ UlaDp :: dps)) by (by left). rewrite (decide_False (P := UlaDp ∈ dps)) in IH by done. rewrite (Hin V4Dp) by done.
    unfold dp_room at 1. rewrite (Hs UlaDp d) by auto. cbn [length heap_room]. lia.
  - rewrite !Hin by done. unfold heap_room at 1. rewrite Hd. cbn. lia.
Qed.

Lemma hinv_ready h : hinv h -> fits h -> ec_ready h.
Proof.
  intros Hi Hf. unfold fits, room in Hf. assert (Hsp : forall p, p = V4Dp \/ p = UlaDp -> exists d, hp_dp_mem h !! p = Some d /\ prefix_wf (hd_prefix d) /\ Z.of_nat (dp_room d) < 65536).
  { intros p Hp. destruct (hi_special _ Hi p Hp) as (d & Hd & Hl & _). exists d. split; [done|]. split; [by eapply hi_wf|]. unfold dp_room. rewrite Hl. cbn. lia. }
  split; try (by apply Hsp; auto).
  - intros p Hp. destruct (hi_cell _ Hi p Hp) as [d Hd]. exists d. split; [done|]. by eapply hi_wf.
  - intros p d Hp Hd [_ Hty%bool_decide_eq_true]%andb_true_iff. destruct (hi_kind _ Hi p d Hd Hp) as [(_ & _ & _ & _ & ?)|[(E & _)|(E & _)]]; [done| |]; rewrite E in Hty; discriminate.
  - intros n i [Hin _]%get_iface_Some. pose proof (sum_list_elem iface_room _ _ Hin).
    pose proof (cells_room h (hp_dps h) (hi_nodup _ Hi) (hi_cell _ Hi)) as Hc. specialize (Hc ltac:(intros p d Hp Hd; destruct (hi_special _ Hi p Hp) as (d' & Hd' & ? & _); congruence)).
    repeat case_decide; lia.
  - apply Hi.
Qed.

(** What the operations on a single delegated prefix leave alone. *)
Record same_but_cells h h' : Prop := {
  sb_dps : hp_dps h' = hp_dps h;
  sb_conf : hp_conf h' = hp_conf h;
  sb_ifaces : hp_ifaces h' = hp_ifaces h;
  sb_v4 : v4_enabled h' = v4_enabled h /\ v4_backoff h' = v4_backoff h /\ v4_to h' = v4_to h;
  sb_ula : ula_enabled h' = ula_enabled h /\ ula_backoff h' = ula_backoff h /\ ula_to h' = ula_to h;
  sb_calm : calm (hp_dncp h) (hp_dncp h');
  sb_calls : (hp_calls h <= hp_calls h')%nat
}.

#[global] Instance same_but_cells_preorder : PreOrder same_but_cells.
Proof.
  split; [by split|]. intros h1 h2 h3 [A1 A2 A3 (A4 & A5 & A6) (A7 & A8 & A9) A10 A11] [B1 B2 B3 (B4 & B5 & B6) (B7 & B8 & B9) B10 B11].
  split; [congruence..|split_and!; congruence|split_and!; congruence|by etrans|lia].
Qed.

Lemma sb_time h h' : same_but_cells h h' -> hp_time h' = hp_time h.
Proof. intros H. exact (calm_clock _ _ (sb_calm _ _ H)). Qed.

(** The invariant only depends on the cells when nothing else changes. *)
Lemma hinv_cells h h' : hinv h -> same_but_cells h h' -> store_fine (hp_store h') ->
  core_after (hp_log h') = Some (enabled_map (hp_dp_mem h'), rules_map (hp_dp_mem h')) ->
  (forall p d', hp_dp_mem h' !! p = Some d' -> exists d, hp_dp_mem h !! p = Some d /\ hd_prefix d' = hd_prefix d /\ hd_excluded d' = hd_excluded d /\
     (p = V4Dp \/ p = UlaDp -> hd_dhcp d' = []) /\ (p ∉ hp_dps h -> hd_enabled d' = false) /\ (p ∈ hp_dps h -> kind_ok h p d')) ->
  (forall p, is_Some (hp_dp_mem h !! p) -> is_Some (hp_dp_mem h' !! p)) -> hinv h'.
Proof.
  intros Hi [A1 A2 A3 A4 A5 A6 A7] Hst Hcore Hcell Hdom. split; rewrite ?A1, ?A2, ?A3; try apply Hi; try done.
  - intros p Hp. by apply Hdom, Hi.
  - intros p Hp. destruct (hi_special _ Hi p Hp) as (d & Hd & _ & He). destruct (Hdom p) as [d' Hd']; [by eexists|]. exists d'. split; [done|].
    destruct (Hcell p d' Hd') as (d0 & Hd0 & _ & Ee & El & _). assert (d0 = d) as -> by congruence. split; [by apply El|congruence].
  - intros k [d' Hd']. destruct (Hcell _ d' Hd') as (d & Hd & _). destruct (hi_heap _ Hi k) as [? ?]; [by eexists|]. split; [done|lia].
  - intros p d' Hd'. destruct (Hcell p d' Hd') as (d & Hd & -> & _). by eapply hi_wf.
  - intros p d' Hd' Hp. destruct (Hcell p d' Hd') as (d & Hd & _ & _ & _ & Hoff & _). by apply Hoff.
  - intros p d' Hd' Hp. destruct (Hcell p d' Hd') as (d & Hd & _ & _ & _ & _ & Hk). specialize (Hk Hp). unfold kind_ok, get_iface in *. by rewrite A3.
  - split; [eapply dncp_ready_calm; [done|apply Hi]|]. destruct A6 as (Hq & _). rewrite (quiet_own _ _ Hq). apply Hi.
Qed.

(** A refresh is defined and keeps everything but the local TLVs. *)
Lemma refresh_keeps publish h : hinv h -> fits h ->
  exists h', hpa_refresh_ec publish h = Some h' /\ hinv h' /\ same_but_cells h h' /\ hp_dp_mem h' = hp_dp_mem h /\ hp_store h' = hp_store h.
Proof.
  intros Hi Hf. destruct (refresh_spec publish h (hinv_ready h Hi Hf)) as (o & v6 & v4 & -> & Hc & _). eexists. split; [done|].
  assert (Hsb : same_but_cells h (hp_emit (EvDhcpSend v6 v4) (set_hp_dncp o h))) by (split; try done). split; [|done].
  apply (hinv_cells h); [done|done|apply Hi| | |done].
  - cbn. rewrite core_after_other by (by repeat constructor). apply Hi.
  - intros p d Hd. exists d. split_and!; try done; [|by apply (hi_off _ Hi p d)|by apply (hi_kind _ Hi p d)].
    intros Hp. destruct (hi_special _ Hi p Hp) as (d' & Hd' & ? & _). cbn in Hd. congruence.
Qed.

Lemma room_cells h h' : same_but_cells h h' -> (forall p, heap_room h' p = heap_room h p) -> room h' = room h.
Proof. intros Hs Hr. unfold room. rewrite (sb_dps _ _ Hs), (sb_ifaces _ _ Hs). do 2 f_equal. f_equal. apply list_fmap_ext. intros _ p _. apply Hr. Qed.

Lemma heap_room_mem h h' p : hp_dp_mem h' = hp_dp_mem h -> heap_room h' p = heap_room h p.
Proof. intros E. unfold heap_room. by rewrite E. Qed.

Lemma room_refreshed h h' : same_but_cells h h' -> hp_dp_mem h' = hp_dp_mem h -> room h' = room h.
Proof. intros Hs Hm. apply room_cells; [done|]. intros p. by apply heap_room_mem. Qed.

Lemma room_put p d d' h : hp_dp_mem h !! p = Some d -> hd_dhcp d' = hd_dhcp d -> room (put_dp p d' h) = room h.
Proof.
  intros Hd El. apply room_cells; [by split|]. intros q. unfold heap_room. cbn. destruct (decide (q = p)) as [->|Hq]; [|by rewrite lookup_insert_ne].
  rewrite lookup_insert_eq, Hd. cbn. unfold dp_room. by rewrite El.
Qed.

(** ** Enabling *)

Lemma set_enabled_spec p e h d : hinv h -> fits h -> hp_dp_mem h !! p = Some d -> p ∈ hp_dps h ->
  exists h', hpa_dp_set_enabled p e h = Some h' /\ hinv h' /\ same_but_cells h h' /\ hp_dp_mem h' = <[p := set_hd_enabled e d]> (hp_dp_mem h) /\
    hp_store h' = hp_store h /\ room h' = room h.
Proof.
  intros Hi Hf Hd Hp. unfold hpa_dp_set_enabled. rewrite Hd. cbn [mbind option_bind]. case_decide as E.
  { exists h. split; [done|]. split; [done|]. split; [done|]. split; [|done]. rewrite insert_id; [done|]. rewrite Hd. f_equal. rewrite <- E. by destruct d. }
  set (h1 := put_dp p _ h). set (h2 := hp_emit _ h1). set (rule := bool_decide (hd_type d = HPA_DP_T_IFACE) && hd_excluded d).
  set (h3 := if rule then _ else h2). set (h4 := match hp_if_cbs h3 with Some true => _ | _ => h3 end).
  assert (H3 : h3 = set_hp_log (hp_log h2 ++ (if rule then [if e then EvRuleAdd p (hd_excluded_prefix d) else EvRuleDel p] else [])) h2).
  { unfold h3. destruct rule; [by destruct e|]. rewrite app_nil_r. by destruct h2. }
  assert (H4 : exists es, Forall (fun e => is_core e = false) es /\ h4 = set_hp_log (hp_log h3 ++ es) h3).
  { unfold h4. destruct (hp_if_cbs h3) as [[]|]; [exists [EvUpdateDp p (negb e)]; split; [by repeat constructor|done]|exists []..]; (split; [constructor|]; rewrite app_nil_r; by destruct h3). }
  destruct H4 as (es & Hes & H4).
  assert (Hm : hp_dp_mem h4 = <[p := set_hd_enabled e d]> (hp_dp_mem h)) by (by rewrite H4, H3).
  assert (Hs : same_but_cells h h4) by (rewrite H4, H3; by split).
  assert (Hst : hp_store h4 = hp_store h) by (by rewrite H4, H3).
  assert (Hi4 : hinv h4).
  { apply (hinv_cells h); [done|done|rewrite Hst; apply Hi| | |].
    - rewrite Hm, H4. cbn [set_hp_log hp_log]. rewrite core_after_other, H3 by done. cbn [set_hp_log hp_log]. unfold h2, h1. cbn [hp_emit set_hp_log hp_log put_dp set_hp_dp_mem].
      exact (core_switch (hp_log h) (hp_dp_mem h) p d e (hi_core _ Hi) Hd E).
    - intros q d'. rewrite Hm. destruct (decide (q = p)) as [->|Hq].
      + rewrite lookup_insert_eq. intros [= <-]. exists d. split; [done|]. split; [done|]. split; [done|].
        split; [|split; [by intros []|by intros _; apply (hi_kind _ Hi p d Hd Hp)]].
        intros Hsp. destruct (hi_special _ Hi p Hsp) as (d0 & Hd0 & ? & _). cbn. congruence.
      + rewrite lookup_insert_ne by done. intros Hd'. exists d'. split_and!; try done; [|by apply (hi_off _ Hi q d')|by apply (hi_kind _ Hi q d')].
        intros Hsp. destruct (hi_special _ Hi q Hsp) as (d0 & Hd0 & ? & _). congruence.
    - intros q [x Hx]. rewrite Hm. destruct (decide (q = p)) as [->|Hq]; [rewrite lookup_insert_eq|rewrite lookup_insert_ne by done]; by eexists. }
  assert (Hr4 : room h4 = room h).
  { rewrite <- (room_put p d (set_hd_enabled e d) h Hd eq_refl). apply room_refreshed; [|done]. rewrite H4, H3. by split. }
  assert (Hf4 : fits h4) by (unfold fits; by rewrite Hr4).
  destruct (refresh_keeps (hd_local d) h4 Hi4 Hf4) as (h5 & -> & Hi5 & Hs5 & Hm5 & Hst5). exists h5. split; [done|]. split; [done|]. split; [by etrans|].
  split; [congruence|]. split; [congruence|]. by rewrite (room_refreshed _ _ Hs5 Hm5).
Qed.

(** ** Lifetimes *)

Lemma sum_list_replace (f f' : dp_ptr -> nat) p k l : NoDup l -> (forall q, q ≠ p -> f' q = f q) -> (f' p <= f p + k)%nat ->
  (sum_list (f' <$> l) <= sum_list (f <$> l) + k)%nat.
Proof.
  intros Hn Hq Hp. induction Hn as [|q l Hnot Hn IH]; [cbn; lia|].
  change (sum_list (f' <$> q :: l)) with (f' q + sum_list (f' <$> l))%nat. change (sum_list (f <$> q :: l)) with (f q + sum_list (f <$> l))%nat.
  destruct (decide (q = p)) as [->|Hne]; [|rewrite (Hq q Hne); lia].
  assert (sum_list (f' <$> l) = sum_list (f <$> l)) as ->; [|lia]. f_equal. apply list_fmap_ext. intros j x Hx. apply Hq. intros ->. by apply Hnot, (list_elem_of_lookup_2 _ j).
Qed.

Lemma room_put_le p d' h : NoDup (hp_dps h) -> is_Some (hp_dp_mem h !! p) -> (room (put_dp p d' h) <= room h + length (hd_dhcp d'))%nat.
Proof.
  intros Hn [d Hd]. unfold room. cbn [put_dp set_hp_dp_mem hp_dps hp_ifaces].
  assert (sum_list (heap_room (put_dp p d' h) <$> hp_dps h) <= sum_list (heap_room h <$> hp_dps h) + length (hd_dhcp d'))%nat; [|lia].
  apply (sum_list_replace _ _ p); [done| |].
  - intros q Hq. unfold heap_room. cbn. by rewrite lookup_insert_ne.
  - unfold heap_room. cbn. rewrite lookup_insert_eq, Hd. destruct p; cbn; unfold dp_room; lia.
Qed.

Lemma prefix_wf_ok x : prefix_wf x -> prefix_ok (pfx x) (plen x).
Proof. intros (? & ? & ?). by split. Qed.

Lemma remember_head {K} `{EqDecision K} (k : K) b max smax G : 0 < max -> 0 < smax -> (k, b) ∈ remember k b max smax G.
Proof.
  intros Hm Hs. unfold remember, limit_store, limit_link. rewrite !decide_False by lia. cbn [keep_first fst]. rewrite decide_True by done.
  destruct (Z.to_nat max) as [|m] eqn:Em; [lia|]. destruct (Z.to_nat smax) as [|s] eqn:Es; [lia|]. cbn [take]. by left.
Qed.

(** The link of the local prefix stays when something is cached for it. *)
Lemma store_fine_cache st x n : store_fine st -> prefix_ok x n -> exists st' r, pa_store_cache store_ula x n st = Some (st', r) /\ store_fine st'.
Proof.
  intros (G & l & His & Hl & Hmax) Hx. destruct (cache_spec st G store_ula l x n His Hl Hx) as (st' & G' & r & -> & His' & _ & Hsub & Hres).
  exists st', r. split; [done|]. assert (Hlive : is_Some (link_mem st' !! store_ula)).
  { destruct Hres as [[_ Hsh]|(_ & _ & Hfix & _)].
    - rewrite Hmax in Hsh. assert (Hin : (store_ula, bits x 0 n) ∈ shown st' <$> G') by (rewrite Hsh; apply remember_head; [lia|apply His]).
      apply list_elem_of_fmap in Hin as ([p k] & [= <- _] & Hin). apply (rp_dom _ _ _ (si_rep _ _ His')). by eapply (rp_owner _ _ _ (si_rep _ _ His')).
    - assert (Hk : fixed_mem st' !! store_ula = Some (fixed l)) by (rewrite Hfix; apply fixed_lookup; by exists l). apply fixed_lookup in Hk as (l' & ? & _). by eexists. }
  destruct Hlive as [l' Hl']. exists G', l'. split; [done|]. split; [done|].
  assert (Hk : fixed_mem st' !! store_ula = Some (fixed l')) by (apply fixed_lookup; by exists l').
  pose proof (lookup_weaken _ _ _ _ Hk Hsub) as Hk2. apply fixed_lookup in Hk2 as (l2 & Hl2 & E2). assert (l2 = l) as -> by congruence. injection E2 as _ _ E. congruence.
Qed.

(** The loop over the pairs only tells others. *)
Lemma notify_pairs d h l : exists es, Forall (fun e => is_core e = false) es /\ foldl (notify_pair d) h l = set_hp_log (hp_log h ++ es) h.
Proof.
  revert h; induction l as [|v l IH]; intros h; cbn [foldl]; [exists []; split; [constructor|rewrite app_nil_r; by destruct h]|].
  assert (H1 : exists es, Forall (fun e => is_core e = false) es /\ notify_pair d h v = set_hp_log (hp_log h ++ es) h).
  { assert (H0 : exists es, Forall (fun e => is_core e = false) es /\ h = set_hp_log (hp_log h ++ es) h) by (exists []; split; [constructor|rewrite app_nil_r; by destruct h]).
    unfold notify_pair. destruct (decide (pv_type v = HPA_LINK_T_IFACE)); [|destruct (decide (pv_type v = HPA_LINK_T_LEASE)); [|done]].
    - unfold hpa_ap_iface_notify. destruct (pv_addr v) as [[a []]|]; [|done..]. destruct (pv_applied v); [|done]. destruct (hp_if_cbs h); [|done]. eexists [_]. split; [|reflexivity]. by repeat constructor.
    - unfold hpa_ap_pd_notify. destruct (pv_assigned v); [|done]. destruct (if pv_applied v then _ else _) as [x y]. destruct (pv_cb v); [|done]. eexists [_]. split; [|reflexivity]. by repeat constructor. }
  destruct H1 as (es & Hes & ->). destruct (IH (set_hp_log (hp_log h ++ es) h)) as (es' & Hes' & ->). exists (es ++ es'). split; [by apply Forall_app|].
  cbn [set_hp_log hp_log]. by rewrite <- app_assoc.
Qed.

(** Lifetimes and DHCP data. *)
Definition life d : hpa_dp := set_hd_valid 0 (set_hd_preferred 0 (set_hd_dhcp [] d)).

Lemma life_core d d' : life d' = life d -> core_view d' = core_view d /\ hd_prefix d' = hd_prefix d /\ hd_excluded d' = hd_excluded d /\ hd_enabled d' = hd_enabled d /\
  (forall h p, kind_ok h p d' <-> kind_ok h p d).
Proof. intros E. destruct d, d'. unfold life in E. cbn in E. injection E as -> -> -> -> -> -> -> -> -> -> ->. done. Qed.

(** A cell with other lifetimes. *)
Lemma hinv_life h h' p d d' : hinv h -> hp_dp_mem h !! p = Some d -> life d' = life d -> (p = V4Dp \/ p = UlaDp -> hd_dhcp d' = []) ->
  same_but_cells h h' -> hp_dp_mem h' = <[p := d']> (hp_dp_mem h) -> store_fine (hp_store h') -> core_after (hp_log h') = core_after (hp_log h) -> hinv h'.
Proof.
  intros Hi Hd Hl Hsp Hs Hm Hst Hlog. destruct (life_core d d' Hl) as (Hc & Hp & Hx & He & Hk). apply (hinv_cells h); [done|done|done| | |].
  - rewrite Hlog, Hm, (hi_core _ Hi). destruct (maps_ext (hp_dp_mem h) (<[p := d']> (hp_dp_mem h))) as [-> ->]; [|done].
    intros q. rewrite view_insert. case_decide as E; [subst|done]. unfold view. by rewrite Hd.
  - intros q x. rewrite Hm. destruct (decide (q = p)) as [->|Hq].
    + rewrite lookup_insert_eq. intros [= <-]. exists d. split; [done|]. split; [done|]. split; [done|]. split; [done|].
      split; [intros Hnot; rewrite He; by apply (hi_off _ Hi p d)|]. intros Hin. apply Hk. by apply (hi_kind _ Hi p d).
    + rewrite lookup_insert_ne by done. intros Hx'. exists x. split_and!; try done; [|by apply (hi_off _ Hi q x)|by apply (hi_kind _ Hi q x)].
      intros Hq'. destruct (hi_special _ Hi q Hq') as (d0 & Hd0 & ? & _). congruence.
  - intros q [x Hx']. rewrite Hm. destruct (decide (q = p)) as [->|Hq]; [rewrite lookup_insert_eq|rewrite lookup_insert_ne by done]; by eexists.
Qed.

Lemma replaced_spec data h : exists h' x, replaced data h = (h', x) /\ (x = data \/ x = []) /\ same_but_cells h h' /\ hp_dp_mem h' = hp_dp_mem h /\ hp_store h' = hp_store h /\ hp_log h' = hp_log h.
Proof.
  unfold replaced. case_decide; [exists h, []; by split_and!; auto|]. eexists _, _. split; [done|]. split; [destruct (hpa_calloc _); auto|]. split; [split; try done; cbn; lia|done].
Qed.

Definition updated_dp (preferred_until valid_until : Z) (x : list Z) d : hpa_dp := set_hd_dhcp x (set_hd_valid valid_until (set_hd_preferred preferred_until d)).

Lemma updated_dp_id d pr v dhcp : bool_decide (hd_preferred d ≠ pr) || bool_decide (hd_valid d ≠ v) = false -> bool_decide (hd_dhcp d ≠ dhcp) = false -> updated_dp pr v dhcp d = d.
Proof.
  rewrite orb_false_iff, !bool_decide_eq_false. intros [E1%dec_stable E2%dec_stable] E3%dec_stable. destruct d. cbn in *. by subst.
Qed.

(** The first half: the cell is written. *)
Definition written p pr v dhcp h d : hpa * hpa_dp :=
  let d := if bool_decide (hd_preferred d ≠ pr) || bool_decide (hd_valid d ≠ v) then set_hd_valid v (set_hd_preferred pr d) else d in
  let '(h, d) := if bool_decide (hd_dhcp d ≠ dhcp) then let '(h, x) := replaced dhcp h in (h, set_hd_dhcp x d) else (h, d) in
  (put_dp p d h, d).

Lemma written_spec p pr v dhcp h d : hinv h -> hp_dp_mem h !! p = Some d -> (p = V4Dp \/ p = UlaDp -> dhcp = []) ->
  exists h' x, written p pr v dhcp h d = (h', updated_dp pr v x d) /\ (x = dhcp \/ x = []) /\ hinv h' /\ same_but_cells h h' /\
    hp_dp_mem h' = <[p := updated_dp pr v x d]> (hp_dp_mem h) /\ (room h' <= room h + length dhcp)%nat.
Proof.
  intros Hi Hd Hsp. unfold written. set (d1 := if bool_decide (hd_preferred d ≠ pr) || bool_decide (hd_valid d ≠ v) then _ else d).
  assert (E1 : d1 = set_hd_valid v (set_hd_preferred pr d)).
  { unfold d1. destruct (_ || _) eqn:E; [done|]. apply (updated_dp_id d pr v (hd_dhcp d)) in E as E'; [|by apply bool_decide_eq_false; intros []]. rewrite <- E' at 1. by destruct d. }
  assert (Hrep : exists h1 x, (if bool_decide (hd_dhcp d1 ≠ dhcp) then let '(h, x) := replaced dhcp h in (h, set_hd_dhcp x d1) else (h, d1)) = (h1, updated_dp pr v x d) /\
    (x = dhcp \/ x = []) /\ same_but_cells h h1 /\ hp_dp_mem h1 = hp_dp_mem h /\ hp_store h1 = hp_store h /\ hp_log h1 = hp_log h).
  { case_bool_decide as E.
    - destruct (replaced_spec dhcp h) as (h1 & x & -> & H). exists h1, x. rewrite E1. done.
    - exists h, dhcp. split; [|by split_and!; auto]. rewrite E1, <- E, E1. by destruct d. }
  destruct Hrep as (h1 & x & -> & Hx & Hs & Hm & Hst & Hlog). exists (put_dp p (updated_dp pr v x d) h1), x. split; [done|]. split; [done|].
  assert (Hs2 : same_but_cells h (put_dp p (updated_dp pr v x d) h1)) by (by transitivity h1; [done|split]).
  assert (Hsp2 : p = V4Dp \/ p = UlaDp -> hd_dhcp (updated_dp pr v x d) = []) by (intros Hp; cbn; destruct Hx as [->| ->]; [by apply Hsp|done]).
  split; [|split; [done|split; [cbn; by rewrite Hm|]]].
  - apply (hinv_life h _ p d (updated_dp pr v x d)); try done; [cbn; by rewrite Hm|cbn; rewrite Hst; apply Hi|cbn; by rewrite Hlog].
  - assert (Hr1 : room h1 = room h) by (by apply room_refreshed). pose proof (room_put_le p (updated_dp pr v x d) h1) as Hle. rewrite Hr1, (sb_dps _ _ Hs), Hm in Hle.
    specialize (Hle (hi_nodup _ Hi) (ex_intro _ d Hd)). change (hd_dhcp (updated_dp pr v x d)) with x in Hle. destruct Hx as [->| ->]; cbn [length] in Hle; lia.
Qed.

Lemma dp_update_spec p pr v dhcp h d : hinv h -> Z.of_nat (room h + length dhcp) < 65536 -> hp_dp_mem h !! p = Some d -> (p = V4Dp \/ p = UlaDp -> dhcp = []) ->
  exists h' x, hpa_dp_update p pr v dhcp h = Some h' /\ hinv h' /\ same_but_cells h h' /\ (x = dhcp \/ x = []) /\
    hp_dp_mem h' = <[p := updated_dp pr v x d]> (hp_dp_mem h) /\ (room h' <= room h + length dhcp)%nat.
Proof.
  intros Hi Hroom Hd Hsp. destruct (written_spec p pr v dhcp h d Hi Hd Hsp) as (h1 & x & Ew & Hx & Hi1 & Hs1 & Hm1 & Hr1).
  unfold hpa_dp_update. rewrite Hd. cbn [mbind option_bind]. unfold written in Ew.
  set (lt := bool_decide (hd_preferred d ≠ pr) || bool_decide (hd_valid d ≠ v)) in *. set (d1 := if lt then _ else d) in *. set (data := bool_decide (hd_dhcp d1 ≠ dhcp)) in *.
  destruct (if data then _ else (h, d1)) as [h0 d0]. injection Ew as E1 E2. rewrite E1, E2. clear E1 E2 h0 d0. set (dn := updated_dp pr v x d) in *.
  assert (Hdn : hp_dp_mem h1 !! p = Some dn) by (rewrite Hm1; apply lookup_insert_eq).
  assert (Hstep : exists h2, (if (lt || data) && bool_decide (v ≠ 0) then ula ← prefix_is_ipv6_ula (hd_prefix dn);
      if ula : bool then '(st, _) ← pa_store_cache store_ula (pfx (hd_prefix dn)) (plen (hd_prefix dn)) (hp_store h1); Some (set_hp_store st h1) else Some h1 else Some h1) = Some h2 /\
      hinv h2 /\ same_but_cells h1 h2 /\ hp_dp_mem h2 = hp_dp_mem h1).
  { destruct (_ && _); [|by exists h1]. pose proof (hi_wf _ Hi1 p dn Hdn) as Hw. rewrite (prefix_is_ula_spec _ Hw). cbn [mbind option_bind]. destruct (is_ula _); [|by exists h1].
    destruct (store_fine_cache (hp_store h1) _ _ (hi_store _ Hi1) (prefix_wf_ok _ Hw)) as (st & r & -> & Hst). cbn [mbind option_bind]. exists (set_hp_store st h1). split; [done|].
    assert (Hs : same_but_cells h1 (set_hp_store st h1)) by (by split). split; [|done].
    apply (hinv_life h1 _ p dn dn); try done; [|cbn; by rewrite insert_id]. intros Hp. cbn. destruct Hx as [->| ->]; [by apply Hsp|done]. }
  destruct Hstep as (h2 & -> & Hi2 & Hs2 & Hm2). cbn [mbind option_bind]. assert (Hr2 : room h2 = room h1) by (by apply room_refreshed).
  destruct ((lt || data) && hd_enabled dn); [|exists h2, x; split; [done|]; split; [done|]; split; [by etrans|]; split; [done|]; split; [by rewrite Hm2|lia]].
  destruct (notify_pairs dn h2 (hpa_pairs (hp_log h2) p)) as (es & Hes & ->). set (h3 := set_hp_log _ h2). assert (Hs3 : same_but_cells h2 h3) by (by split).
  assert (Hi3 : hinv h3).
  { apply (hinv_life h2 _ p dn dn); try done; [by rewrite Hm2|intros Hp; cbn; destruct Hx as [->| ->]; [by apply Hsp|done]|cbn; rewrite insert_id; [done|by rewrite Hm2]|apply Hi2|].
    cbn. by rewrite core_after_other. }
  assert (Hr3 : room h3 = room h1) by (by rewrite <- Hr2; apply room_refreshed). assert (Hf3 : fits h3) by (unfold fits; lia).
  destruct (refresh_keeps (hd_local dn) h3 Hi3 Hf3) as (h4 & -> & Hi4 & Hs4 & Hm4 & _). exists h4, x. split; [done|]. split; [done|].
  split; [by etrans; [|etrans; [|etrans; [|done]]]|]. split; [done|]. split; [rewrite Hm4; cbn; by rewrite Hm2|]. rewrite (room_refreshed _ _ Hs4 Hm4). lia.
Qed.
End inv.
