(* ===== verification/HncpPaEnable.v ===== *)
(** Which delegated prefixes are enabled: what [hpa_dp_update_enabled] computes. *)
From S2P Require Import Prelude Bitops Prefix Tlv DnsUtil PaCore PaStore PaStoreCache DncpNotify DncpIndex DncpState Dncp DncpFacts DncpPrune DncpInv DncpTrustFacts Hncp HncpRouting HncpPa HncpPaEc HncpPaInv.

Section enable.
Context `{DX : !DncpExt, DC : !DncpCallbacks, SH : !StoreHost, HH : !HpaHost, DP : !Passive, EP : !EcPassive, QS : !QSort hpa_qsort, HOK : !StoreHostOk}.
Implicit Types (h : hpa) (p q : dp_ptr) (d : hpa_dp).

(** [q] comes after [p]. *)
Definition later (l : list dp_ptr) p q : Prop := exists l1 l2, l = l1 ++ p :: l2 /\ q ∈ l2.

Definition dp_bits d : list bool := pbits (hd_prefix d).

(** The delegated prefix [d2] keeps [d] from being used: the same prefix with more right to
    it, or a shorter one. *)
Definition blocks (after : Prop) d d2 : Prop :=
  (dp_bits d2 = dp_bits d /\ (hd_type d2 = HPA_DP_T_HNCP \/ (hd_type d ≠ HPA_DP_T_HNCP /\ after))) \/
  (dp_bits d2 ≠ dp_bits d /\ dp_bits d2 `prefix_of` dp_bits d).

(** Whether a delegated prefix is to be enabled. *)
Definition wants h p : Prop :=
  match p with
  | V4Dp => v4_enabled h = true
  | UlaDp => ula_enabled h = true
  | HeapDp _ => forall q d d2, q ∈ hp_dps h -> q ≠ p -> hp_dp_mem h !! p = Some d -> hp_dp_mem h !! q = Some d2 -> ~ blocks (later (hp_dps h) p q) d d2
  end.

Definition settled h : Prop := forall p d, p ∈ hp_dps h -> hp_dp_mem h !! p = Some d -> hd_enabled d = true <-> wants h p.

Lemma prefix_cmp_bits x y : prefix_wf x -> prefix_wf y -> exists c, prefix_cmp x y = Some c /\ (c = 0 <-> pbits x = pbits y).
Proof.
  intros Hx Hy. unfold prefix_cmp. case_decide as E.
  - eexists. split; [done|]. split; [done|]. intros Eb%(f_equal length). rewrite !length_pbits in Eb. lia.
  - destruct Hx as (H1 & Hb1 & Hl1), Hy as (H2 & Hb2 & Hl2). destruct (bmemcmp_bits (pfx x) 0 (pfx y) 0 (plen x)) as (r & Er & Hr); [done|done|lia..|].
    exists r. split; [done|]. rewrite <- Z.compare_eq_iff, Hr, Nat.mul_0_r. unfold pbits. replace (plen y) with (plen x) by lia. by rewrite bits_cmp_Eq by (by rewrite !length_bits).
Qed.

Lemma later_cons x l p q : NoDup (x :: l) -> q ≠ p -> later (x :: l) p q <-> (x = p /\ q ∈ l) \/ (x ≠ p /\ later l p q).
Proof.
  intros [Hx Hn]%NoDup_cons Hq. split.
  - intros ([|y l1] & l2 & E & Hin); cbn in E; injection E as -> ->; [by left|]. right. split; [|by exists l1, l2].
    intros ->. apply Hx. apply elem_of_app. right. by left.
  - intros [[-> Hin]|(_ & l1 & l2 & -> & Hin)]; [by exists [], l|by exists (x :: l1), l2].
Qed.

(** The loop answers whether nothing of the rest of the list is in the way. *)
Lemma compute_enabled_loop_spec h p d dps passed : NoDup dps -> well_formed h dps -> prefix_wf (hd_prefix d) ->
  exists b, compute_enabled_loop h p d dps passed = Some b /\
    (b = true <-> forall q d2, q ∈ dps -> q ≠ p -> hp_dp_mem h !! q = Some d2 -> ~ blocks (passed = true \/ later dps p q) d d2).
Proof.
  intros Hn Hw Hwd. revert passed; induction dps as [|q dps IH]; intros passed; cbn [compute_enabled_loop].
  { exists true. split; [done|]. split; [|done]. intros _ q d2 Hq. by apply elem_of_nil in Hq. }
  assert (Hn0 := Hn). apply NoDup_cons in Hn0 as [Hq Hn'].
  assert (Hw' : well_formed h dps) by (intros x Hx; apply Hw; by right). specialize (IH Hn' Hw').
  assert (Hrest : forall b pa pb, (b = true <-> forall x d2, x ∈ dps -> x ≠ p -> hp_dp_mem h !! x = Some d2 -> ~ blocks (pa = true \/ later dps p x) d d2) ->
    (forall x, x ∈ dps -> x ≠ p -> (pa = true \/ later dps p x) <-> (pb = true \/ later (q :: dps) p x)) ->
    (q = p \/ exists d2, hp_dp_mem h !! q = Some d2 /\ ~ blocks (pb = true \/ later (q :: dps) p q) d d2) ->
    (b = true <-> forall x d2, x ∈ q :: dps -> x ≠ p -> hp_dp_mem h !! x = Some d2 -> ~ blocks (pb = true \/ later (q :: dps) p x) d d2)).
  { intros b pa pb Hb Hx Hhead. rewrite Hb. clear Hb. unfold blocks. split.
    - intros H x d2 [->|Hin]%elem_of_cons Hne Hd2; [destruct Hhead as [?|(d3 & Hd3 & Hno)]; [done|]; assert (d3 = d2) as -> by congruence; done|].
      rewrite <- (Hx x Hin Hne). by apply (H x d2).
    - intros H x d2 Hin Hne Hd2. rewrite (Hx x Hin Hne). apply (H x d2); [by right|done|done]. }
  destruct (decide (q = p)) as [->|Hqp].
  { destruct (IH true) as (b & -> & Hb). exists b. split; [done|]. apply (Hrest b true passed Hb); [|by left].
    intros x Hin Hne. rewrite (later_cons p dps p x Hn Hne). split; [|auto]. intros _. right. by left. }
  destruct (Hw q) as (d2 & Hd2 & Hwd2); [by left|]. rewrite Hd2. cbn [mbind option_bind].
  assert (Hlq : ~ later (q :: dps) p q).
  { rewrite later_cons by done. intros [[? _]|(_ & l1 & l2 & -> & Hin)]; [done|]. apply Hq. apply elem_of_app. right. by right. }
  assert (Hlx : forall x, x ∈ dps -> x ≠ p -> (passed = true \/ later dps p x) <-> (passed = true \/ later (q :: dps) p x)).
  { intros x Hin Hne. rewrite (later_cons q dps p x Hn Hne). split; [intros [?|?]; [by left|right; by right]|intros [?|[[? _]|[_ ?]]]; [by left|done|by right]]. }
  assert (Hstop : blocks (passed = true \/ later (q :: dps) p q) d d2 -> exists b, Some false = Some b /\
    (b = true <-> forall x d2, x ∈ q :: dps -> x ≠ p -> hp_dp_mem h !! x = Some d2 -> ~ blocks (passed = true \/ later (q :: dps) p x) d d2)).
  { intros Hb. exists false. split; [done|]. split; [done|]. intros H. exfalso. by apply (H q d2); [left|..]. }
  assert (Hgo : ~ blocks (passed = true \/ later (q :: dps) p q) d d2 -> exists b, compute_enabled_loop h p d dps passed = Some b /\
    (b = true <-> forall x d2, x ∈ q :: dps -> x ≠ p -> hp_dp_mem h !! x = Some d2 -> ~ blocks (passed = true \/ later (q :: dps) p x) d d2)).
  { intros Hb. destruct (IH passed) as (b & -> & Hb'). exists b. split; [done|]. apply (Hrest b passed passed Hb' Hlx). right. by exists d2. }
  destruct (prefix_cmp_bits (hd_prefix d2) (hd_prefix d) Hwd2 Hwd) as (c & -> & Hc). cbn [mbind option_bind]. fold (dp_bits d2) (dp_bits d) in Hc.
  destruct (decide (c = 0)) as [Ec|Ec].
  - apply Hc in Ec. destruct (decide (hd_type d ≠ HPA_DP_T_HNCP)) as [Ht|Ht].
    + destruct (decide (hd_type d2 ≠ HPA_DP_T_HNCP)) as [Ht2|Ht2].
      * destruct passed; [apply Hstop; left; auto|]. apply Hgo. intros [(_ & [?|(_ & [?|?])])|[? _]]; done.
      * apply Hstop. left. split; [done|]. left. by apply dec_stable.
    + apply dec_stable in Ht. destruct (decide (hd_type d2 = HPA_DP_T_HNCP)) as [Ht2|Ht2]; [apply Hstop; left; auto|].
      apply Hgo. intros [(_ & [?|[? _]])|[? _]]; done.
  - rewrite (prefix_contains_spec _ _ Hwd2 Hwd). cbn [mbind option_bind]. assert (Hne : dp_bits d2 ≠ dp_bits d) by (intros ?; apply Ec; by apply Hc).
    case_bool_decide as Ei; [apply Hstop; by right|]. apply Hgo. intros [[? _]|[_ ?]]; done.
Qed.

(** ** All of them *)

(** A cell but for whether it is enabled. *)
Definition noen d : hpa_dp := set_hd_enabled false d.
Definition same_shape h h' : Prop := noen <$> hp_dp_mem h' = noen <$> hp_dp_mem h.

Lemma same_shape_lookup h h' p d : same_shape h h' -> hp_dp_mem h !! p = Some d -> exists d', hp_dp_mem h' !! p = Some d' /\ noen d' = noen d.
Proof.
  intros E Hd. apply (f_equal (fun m => m !! p)) in E. rewrite !lookup_fmap, Hd in E. apply fmap_Some in E as (d' & Hd' & E). by exists d'.
Qed.

Lemma noen_same d d' : noen d' = noen d -> hd_prefix d' = hd_prefix d /\ hd_type d' = hd_type d /\ hd_iface d' = hd_iface d /\ hd_valid d' = hd_valid d /\ hd_local d' = hd_local d /\ hd_delete_to d' = hd_delete_to d.
Proof. intros E. destruct d, d'. unfold noen in E. cbn in *. by injection E as -> -> -> -> -> -> -> -> -> -> -> -> ->. Qed.

(** What decides: prefix and origin. *)
Definition dp_key d : prefix * Z := (hd_prefix d, hd_type d).
Definition same_keys h h' : Prop := dp_key <$> hp_dp_mem h' = dp_key <$> hp_dp_mem h.

Lemma same_keys_lookup h h' p d : same_keys h h' -> hp_dp_mem h !! p = Some d -> exists d', hp_dp_mem h' !! p = Some d' /\ hd_prefix d' = hd_prefix d /\ hd_type d' = hd_type d.
Proof.
  intros E Hd. apply (f_equal (fun m => m !! p)) in E. rewrite !lookup_fmap, Hd in E. apply fmap_Some in E as (d' & Hd' & [= E1 E2]). by exists d'.
Qed.

Lemma same_shape_keys h h' : same_shape h h' -> same_keys h h'.
Proof. intros E. unfold same_keys. apply (f_equal (fmap dp_key)) in E. rewrite <- !map_fmap_compose in E. exact E. Qed.

Lemma wants_keys h h' p : same_keys h h' -> hp_dps h' = hp_dps h -> v4_enabled h' = v4_enabled h -> ula_enabled h' = ula_enabled h -> wants h' p <-> wants h p.
Proof.
  intros Hs Hd Hv Hu. assert (Hs' : same_keys h' h) by (by unfold same_keys in *). destruct p as [| |k]; cbn [wants]; rewrite ?Hv, ?Hu, ?Hd; [done|done|].
  split; intros H q d d2 Hq Hne Hd1 Hd2.
  - destruct (same_keys_lookup h h' _ d Hs Hd1) as (e & He & E1 & E2). destruct (same_keys_lookup h h' q d2 Hs Hd2) as (e2 & He2 & F1 & F2).
    specialize (H q e e2 Hq Hne He He2). unfold blocks, dp_bits in *. by rewrite <- E1, <- E2, <- F1, <- F2.
  - destruct (same_keys_lookup h' h _ d Hs' Hd1) as (e & He & E1 & E2). destruct (same_keys_lookup h' h q d2 Hs' Hd2) as (e2 & He2 & F1 & F2).
    specialize (H q e e2 Hq Hne He He2). unfold blocks, dp_bits in *. by rewrite <- E1, <- E2, <- F1, <- F2.
Qed.

Lemma wants_shape h h' p : same_shape h h' -> hp_dps h' = hp_dps h -> v4_enabled h' = v4_enabled h -> ula_enabled h' = ula_enabled h -> wants h' p <-> wants h p.
Proof. intros Hs. by apply wants_keys, same_shape_keys. Qed.

Lemma hinv_well_formed h : hinv h -> well_formed h (hp_dps h).
Proof. intros Hi p Hp. destruct (hi_cell _ Hi p Hp) as [d Hd]. exists d. split; [done|]. by eapply hi_wf. Qed.

Lemma compute_enabled_spec h p : hinv h -> p ∈ hp_dps h -> exists b, hpa_dp_compute_enabled p h = Some b /\ (b = true <-> wants h p).
Proof.
  intros Hi Hp. destruct p as [| |k]; [by eexists|by eexists|]. cbn [hpa_dp_compute_enabled wants]. destruct (hi_cell _ Hi _ Hp) as [d Hd]. rewrite Hd. cbn [mbind option_bind].
  destruct (compute_enabled_loop_spec h (HeapDp k) d (hp_dps h) false) as (b & -> & Hb); [apply Hi|by apply hinv_well_formed|by eapply hi_wf|].
  exists b. split; [done|]. rewrite Hb. split.
  - intros H q d1 d2 Hq Hne [= <-] Hd2 Hbl. apply (H q d2 Hq Hne Hd2). unfold blocks in *. tauto.
  - intros H q d2 Hq Hne Hd2 Hbl. apply (H q d d2 Hq Hne eq_refl Hd2). unfold blocks in *. assert (false = true <-> False) by done. tauto.
Qed.

Lemma update_enabled_loop_spec l h : hinv h -> fits h -> NoDup l -> (forall p, p ∈ l -> p ∈ hp_dps h) ->
  exists h', update_enabled_loop l h = Some h' /\ hinv h' /\ same_but_cells h h' /\ same_shape h h' /\ room h' = room h /\ hp_store h' = hp_store h /\
    (forall p, p ∉ l -> hp_dp_mem h' !! p = hp_dp_mem h !! p) /\ (forall p d, p ∈ l -> hp_dp_mem h' !! p = Some d -> hd_enabled d = true <-> wants h p).
Proof.
  intros Hi Hf Hn. revert h Hi Hf; induction Hn as [|p l Hp Hn IH]; intros h Hi Hf Hin; cbn [update_enabled_loop].
  { exists h. split_and!; try done. intros p d Hp. by apply elem_of_nil in Hp. }
  assert (Hpd : p ∈ hp_dps h) by (apply Hin; by left). destruct (compute_enabled_spec h p Hi Hpd) as (e & -> & He). cbn [mbind option_bind].
  destruct (hi_cell _ Hi p Hpd) as [d Hd]. destruct (set_enabled_spec p e h d Hi Hf Hd Hpd) as (h1 & -> & Hi1 & Hs1 & Hm1 & Hst1 & Hr1). cbn [mbind option_bind].
  assert (Hsh1 : same_shape h h1).
  { unfold same_shape. rewrite Hm1, fmap_insert. apply insert_id. by rewrite lookup_fmap, Hd. }
  destruct (IH h1 Hi1) as (h2 & -> & Hi2 & Hs2 & Hsh2 & Hr2 & Hst2 & Hout & Hinl); [unfold fits in *; by rewrite Hr1|intros q Hq; rewrite (sb_dps _ _ Hs1); apply Hin; by right|].
  assert (Hw : forall q, wants h1 q <-> wants h q) by (intros q; apply wants_shape; [done|apply Hs1|apply Hs1|apply Hs1]).
  exists h2. split; [done|]. split; [done|]. split; [by etrans|]. split; [unfold same_shape in *; congruence|]. split; [congruence|]. split; [congruence|]. split.
  - intros q [Hqp Hq]%not_elem_of_cons. by rewrite Hout, Hm1, lookup_insert_ne.
  - intros q x [->|Hq]%elem_of_cons Hx; [|rewrite <- Hw; by apply Hinl]. rewrite Hout, Hm1, lookup_insert_eq in Hx by done. injection Hx as <-. done.
Qed.

Lemma update_enabled_spec h : hinv h -> fits h ->
  exists h', hpa_dp_update_enabled h = Some h' /\ hinv h' /\ same_but_cells h h' /\ same_shape h h' /\ room h' = room h /\ hp_store h' = hp_store h /\ settled h'.
Proof.
  intros Hi Hf. destruct (update_enabled_loop_spec (hp_dps h) h Hi Hf (hi_nodup _ Hi)) as (h' & E & Hi' & Hs & Hsh & Hr & Hst & _ & Hset); [done|].
  exists h'. split_and!; try done. intros p d Hp Hd. rewrite (Hset p d); [|by rewrite <- (sb_dps _ _ Hs)|done].
  symmetry. apply wants_shape; [done|apply Hs|apply Hs|apply Hs].
Qed.

(** ** What is enabled *)

Lemma later_total l p q : p ∈ l -> q ∈ l -> p ≠ q -> later l p q \/ later l q p.
Proof.
  intros Hp Hq Hne. induction l as [|x l IH]; [by apply elem_of_nil in Hp|]. apply elem_of_cons in Hp as [->|Hp], Hq as [->|Hq]; [done|left; by exists [], l|right; by exists [], l|].
  destruct (IH Hp Hq) as [(l1 & l2 & -> & ?)|(l1 & l2 & -> & ?)]; [left|right]; by exists (x :: l1), l2.
Qed.

(** Enabled prefixes do not overlap, but for those generated here. *)
Lemma settled_disjoint h p q d d2 : settled h -> p ∈ hp_dps h -> q ∈ hp_dps h -> p ≠ q -> hp_dp_mem h !! p = Some d -> hp_dp_mem h !! q = Some d2 ->
  hd_enabled d = true -> hd_enabled d2 = true -> dp_bits d2 `prefix_of` dp_bits d ->
  p = V4Dp \/ p = UlaDp \/ ((q = V4Dp \/ q = UlaDp) /\ dp_bits d2 = dp_bits d).
Proof.
  intros Hset Hp Hq Hne Hd Hd2 He He2 Hpre. destruct p as [| |k]; [by left|by right; left|]. right. right.
  apply (Hset _ _ Hp Hd) in He. cbn [wants] in He. assert (Hnb := He q d d2 Hq (not_eq_sym Hne) Hd Hd2).
  assert (Eb : dp_bits d2 = dp_bits d) by (apply dec_stable; intros Hneq; apply Hnb; by right).
  assert (Ht2 : hd_type d2 ≠ HPA_DP_T_HNCP) by (intros Ht2; apply Hnb; left; auto).
  destruct q as [| |j]; [by auto|by auto|exfalso].
  apply (Hset _ _ Hq Hd2) in He2. cbn [wants] in He2. assert (Hnb2 := He2 _ d2 d Hp Hne Hd2 Hd).
  assert (Ht : hd_type d ≠ HPA_DP_T_HNCP) by (intros Ht; apply Hnb2; left; auto).
  destruct (later_total _ _ _ Hp Hq Hne) as [Hl|Hl]; [apply Hnb|apply Hnb2]; left; auto.
Qed.

(** A delegated prefix in the list with the property [P]. *)
Definition listed h (P : hpa_dp -> bool) q : bool := default false (P <$> hp_dp_mem h !! q).

Lemma listed_true h P q : listed h P q = true <-> exists d, hp_dp_mem h !! q = Some d /\ P d = true.
Proof. unfold listed. destruct (hp_dp_mem h !! q) as [d|]; cbn; split; [by exists d|by intros (? & [= <-] & ?)|done|by intros (? & ? & _)]. Qed.

Lemma listed_dec h P (l : list dp_ptr) : (exists q d, q ∈ l /\ hp_dp_mem h !! q = Some d /\ P d = true) \/ (forall q d, q ∈ l -> hp_dp_mem h !! q = Some d -> P d = false).
Proof.
  destruct (decide (Exists (fun q => listed h P q = true) l)) as [Hex|Hno].
  - left. apply Exists_exists in Hex as (q & Hq & (d & Hd & HP)%listed_true). by exists q, d.
  - right. intros q d Hq Hd. destruct (P d) eqn:E; [|done]. destruct Hno. apply Exists_exists. exists q. split; [done|]. apply listed_true. by exists d.
Qed.

(** The last one with a property. *)
Lemma listed_last h P (l : list dp_ptr) : (exists q d, q ∈ l /\ hp_dp_mem h !! q = Some d /\ P d = true) ->
  exists l1 q l2 d, l = l1 ++ q :: l2 /\ hp_dp_mem h !! q = Some d /\ P d = true /\ forall x dx, x ∈ l2 -> hp_dp_mem h !! x = Some dx -> P dx = false.
Proof.
  induction l as [|x l IH]; intros (q & d & Hq & Hd & HP); [by apply elem_of_nil in Hq|].
  destruct (listed_dec h P l) as [Hex|Hno]; [destruct (IH Hex) as (l1 & q' & l2 & d' & -> & H); by exists (x :: l1), q', l2, d'|].
  apply elem_of_cons in Hq as [->|Hq]; [by exists [], x, l, d|]. by rewrite (Hno q d Hq Hd) in HP.
Qed.

Lemma later_split (l1 l2 : list dp_ptr) p q : NoDup (l1 ++ p :: l2) -> later (l1 ++ p :: l2) p q -> q ∈ l2.
Proof.
  intros Hn (m1 & m2 & E & Hq). apply NoDup_app in Hn as (_ & Hn1 & Hn2).
  assert (m1 = l1) as ->.
  { revert l1 E Hn1. induction m1 as [|y m1 IH]; intros [|z l1] E Hn1; cbn in E; [done| | |].
    - injection E as E1 _. exfalso. apply (Hn1 z); [by left|rewrite E1; by left].
    - injection E as _ E2. exfalso. apply NoDup_cons in Hn2 as [Hn2 _]. apply Hn2. rewrite E2. apply elem_of_app. right. by left.
    - injection E as -> E. f_equal. apply IH; [done|]. intros x Hx. apply Hn1. by right. }
  apply app_inv_head in E. injection E as ->. done.
Qed.

(** Every delegated prefix is covered by an enabled one, unless two other nodes have the
    same prefix. *)
Lemma settled_covers h p d : hinv h -> settled h -> (V4Dp ∈ hp_dps h -> v4_enabled h = true) -> (UlaDp ∈ hp_dps h -> ula_enabled h = true) ->
  p ∈ hp_dps h -> hp_dp_mem h !! p = Some d ->
  exists q d2, q ∈ hp_dps h /\ hp_dp_mem h !! q = Some d2 /\ dp_bits d2 `prefix_of` dp_bits d /\
    (hd_enabled d2 = true \/ exists r d3, r ∈ hp_dps h /\ r ≠ q /\ hp_dp_mem h !! r = Some d3 /\ dp_bits d3 = dp_bits d2 /\ hd_type d2 = HPA_DP_T_HNCP /\ hd_type d3 = HPA_DP_T_HNCP).
Proof.
  intros Hi Hset Hv4 Hula. remember (length (dp_bits d)) as n eqn:En. revert p d En. induction n as [n IH] using lt_wf_ind. intros p d -> Hp Hd.
  destruct (listed_dec h (fun d2 => bool_decide (dp_bits d2 ≠ dp_bits d) && bool_decide (dp_bits d2 `prefix_of` dp_bits d)) (hp_dps h)) as [(q & d2 & Hq & Hd2 & Hsh)|Hno].
  { apply andb_true_iff in Hsh as [Hne%bool_decide_eq_true Hpre%bool_decide_eq_true]. destruct (IH (length (dp_bits d2))) with (p := q) (d := d2) as (r & d3 & H1 & H2 & H3 & H4); [|done|done|done|].
    - pose proof (prefix_length _ _ Hpre). destruct (decide (length (dp_bits d2) = length (dp_bits d))) as [E|]; [|lia]. destruct Hne. by apply prefix_length_eq; [|lia].
    - exists r, d3. split; [done|]. split; [done|]. split; [by etrans|done]. }
  assert (Hshort : forall q d2, q ∈ hp_dps h -> hp_dp_mem h !! q = Some d2 -> dp_bits d2 `prefix_of` dp_bits d -> dp_bits d2 = dp_bits d).
  { intros q d2 Hq Hd2 Hpre. specialize (Hno q d2 Hq Hd2). rewrite (bool_decide_true (_ `prefix_of` _)), andb_true_r, bool_decide_eq_false in Hno by done. by apply dec_stable. }
  assert (Hen : forall q d2, q ∈ hp_dps h -> hp_dp_mem h !! q = Some d2 -> wants h q -> dp_bits d2 = dp_bits d -> exists q d2, q ∈ hp_dps h /\ hp_dp_mem h !! q = Some d2 /\ dp_bits d2 `prefix_of` dp_bits d /\
    (hd_enabled d2 = true \/ exists r d3, r ∈ hp_dps h /\ r ≠ q /\ hp_dp_mem h !! r = Some d3 /\ dp_bits d3 = dp_bits d2 /\ hd_type d2 = HPA_DP_T_HNCP /\ hd_type d3 = HPA_DP_T_HNCP)).
  { intros q d2 Hq Hd2 Hw Eb. exists q, d2. split; [done|]. split; [done|]. split; [by rewrite Eb|]. left. by apply (Hset q d2 Hq Hd2). }
  set (Same := fun d2 => bool_decide (dp_bits d2 = dp_bits d)). set (R := fun d2 => Same d2 && bool_decide (hd_type d2 = HPA_DP_T_HNCP)).
  assert (HR : forall d2, R d2 = true <-> dp_bits d2 = dp_bits d /\ hd_type d2 = HPA_DP_T_HNCP) by (intros d2; unfold R, Same; by rewrite andb_true_iff, !bool_decide_eq_true).
  destruct (listed_dec h R (hp_dps h)) as [(q & d2 & Hq & Hd2 & [Eb Ht]%HR)|Hnone].
  - destruct (listed_dec h R (without q (hp_dps h))) as [(r & d3 & [Hrq Hr]%list_elem_of_filter & Hd3 & [Eb3 Ht3]%HR)|Huniq].
    { exists q, d2. split; [done|]. split; [done|]. split; [by rewrite Eb|]. right. exists r, d3. by rewrite Eb, Eb3. }
    apply (Hen q d2 Hq Hd2); [|done]. destruct (hi_kind _ Hi q d2 Hd2 Hq) as [(E & _)|[(E & _)|(_ & _ & k & ->)]]; [rewrite E in Ht; discriminate..|].
    intros x dq dx Hx Hne Hdq Hdx. assert (dq = d2) as -> by congruence. intros [[Ex [Htx|[? _]]]|[Hnx Hpx]]; [|done|].
    + assert (R dx = false) as Hf by (apply (Huniq x); [by apply list_elem_of_filter|done]). rewrite (proj2 (HR dx)) in Hf; [done|]. split; [congruence|done].
    + apply Hnx. rewrite Eb in *. by apply (Hshort x).
  - destruct (listed_last h Same (hp_dps h)) as (l1 & q & l2 & d2 & El & Hd2 & Eb%bool_decide_eq_true & Hafter); [exists p, d; split; [done|]; split; [done|]; by apply bool_decide_eq_true|].
    assert (Hq : q ∈ hp_dps h) by (rewrite El; apply elem_of_app; right; by left). apply (Hen q d2 Hq Hd2); [|done]. destruct q as [| |k]; [by apply Hv4|by apply Hula|].
    intros x dq dx Hx Hne Hdq Hdx. assert (dq = d2) as -> by congruence. intros [[Ex [Htx|[_ Hl]]]|[Hnx Hpx]].
    + assert (R dx = false) as Hf by (by apply (Hnone x)). rewrite (proj2 (HR dx)) in Hf; [done|]. split; [congruence|done].
    + pose proof (hi_nodup _ Hi) as Hn. rewrite El in Hl, Hn. apply later_split in Hl; [|done]. specialize (Hafter x dx Hl Hdx). apply bool_decide_eq_false in Hafter. congruence.
    + apply Hnx. rewrite Eb in *. by apply (Hshort x).
Qed.
End enable.
