(* ===== verification/HncpPaLocal.v ===== *)
(** The prefixes generated here: what [hpa_v4_to] and [hpa_ula_to] have in common, and the
    two timers. *)
From S2P Require Import Prelude Bitops Prefix Tlv DnsUtil PaCore PaInv PaStore PaStoreInv PaStoreCache DncpNotify DncpIndex DncpState Dncp DncpFacts DncpPrune DncpInv DncpTrustFacts Hncp HncpRouting HncpPa HncpPaEc HncpPaInv HncpPaEnable.

Section local.
Context `{DX : !DncpExt, DC : !DncpCallbacks, SH : !StoreHost, HH : !HpaHost, DP : !Passive, EP : !EcPassive, QS : !QSort hpa_qsort, HOK : !StoreHostOk}.
Implicit Types (h : hpa) (p q : dp_ptr) (d : hpa_dp).

Definition special p : Prop := p = V4Dp \/ p = UlaDp.

#[global] Instance special_dec p : Decision (special p).
Proof. unfold special. apply _. Defined.

(** The flags tell whether the local prefixes are in the list. *)
Definition flags_ok h : Prop := (V4Dp ∈ hp_dps h <-> v4_enabled h = true) /\ (UlaDp ∈ hp_dps h <-> ula_enabled h = true).

(** A timer is pending whenever there is something to wait for. *)
Definition alarms_ok h : Prop :=
  (v4_enabled h = true \/ v4_backoff h ≠ 0 -> is_Some (v4_to h)) /\ (ula_enabled h = true \/ ula_backoff h ≠ 0 -> is_Some (ula_to h)).

(** The states between operations. *)
Record good h : Prop := {
  gd_inv : hinv h;
  gd_flags : flags_ok h;
  gd_settled : settled h
}.

(** The delegated prefixes that are not generated here, with their cells. *)
Definition heap_dps h : list dp_ptr := filter (fun p => ~ special p) (hp_dps h).

Record heap_same h h' : Prop := {
  hs_dps : heap_dps h' = heap_dps h;
  hs_cells k : noen <$> hp_dp_mem h' !! HeapDp k = noen <$> hp_dp_mem h !! HeapDp k;
  hs_conf : hp_conf h' = hp_conf h;
  hs_ifaces : hp_ifaces h' = hp_ifaces h;
  hs_calm : calm (hp_dncp h) (hp_dncp h');
  hs_calls : (hp_calls h <= hp_calls h')%nat
}.

#[global] Instance heap_same_preorder : PreOrder heap_same.
Proof. split; [by split|]. intros h1 h2 h3 [] []. split; [congruence|intros; congruence|congruence|congruence|by etrans|lia]. Qed.

Lemma heap_same_cells h h' : same_but_cells h h' -> (forall k, noen <$> hp_dp_mem h' !! HeapDp k = noen <$> hp_dp_mem h !! HeapDp k) -> heap_same h h'.
Proof. intros [] Hc. split; try done. unfold heap_dps. congruence. Qed.

Lemma heap_same_shape h h' : same_but_cells h h' -> same_shape h h' -> heap_same h h'.
Proof. intros Hs E. apply heap_same_cells; [done|]. intros k. apply (f_equal (fun m => m !! HeapDp k)) in E. by rewrite !lookup_fmap in E. Qed.

(** Settings that the invariant does not depend on. *)
Lemma hinv_ext h h' : hinv h -> hp_dps h' = hp_dps h -> hp_dp_mem h' = hp_dp_mem h -> hp_ifaces h' = hp_ifaces h -> hp_conf h' = hp_conf h -> hp_log h' = hp_log h ->
  hp_store h' = hp_store h -> hp_dncp h' = hp_dncp h -> (hp_calls h <= hp_calls h')%nat -> hinv h'.
Proof.
  intros Hi E1 E2 E3 E4 E5 E6 E7 Hc. split; unfold kind_ok, get_iface in *; rewrite ?E1, ?E2, ?E3, ?E4, ?E5, ?E6, ?E7; try apply Hi.
  intros k Hk. destruct (hi_heap _ Hi k Hk). split; [done|lia].
Qed.

Lemma settled_ext h h' : settled h -> hp_dps h' = hp_dps h -> hp_dp_mem h' = hp_dp_mem h -> v4_enabled h' = v4_enabled h -> ula_enabled h' = ula_enabled h -> settled h'.
Proof.
  intros Hs E1 E2 E3 E4 p d. rewrite E1, E2. intros Hp Hd. rewrite (Hs p d Hp Hd). symmetry. apply wants_shape; try done. unfold same_shape. by rewrite E2.
Qed.

Lemma room_ext h h' : hp_dps h' = hp_dps h -> hp_dp_mem h' = hp_dp_mem h -> hp_ifaces h' = hp_ifaces h -> room h' = room h.
Proof. intros E1 E2 E3. unfold room, heap_room. by rewrite E1, E2, E3. Qed.

(** ** Adding and removing a local prefix *)

Lemma special_room h p d : special p -> room (put_dp p d h) = room h.
Proof.
  intros Hp. apply room_cells; [by split|]. intros q. unfold heap_room. destruct q as [| |k]; [done|done|]. cbn. rewrite lookup_insert_ne; [done|]. by destruct Hp as [->| ->].
Qed.

(** A cell that is not enabled, neither before nor after. *)
Lemma hinv_put_special h p d d' : hinv h -> special p -> hp_dp_mem h !! p = Some d -> hd_enabled d = false -> hd_enabled d' = false -> prefix_wf (hd_prefix d') -> hd_dhcp d' = [] ->
  hd_excluded d' = false -> (p ∈ hp_dps h -> kind_ok h p d') -> hinv (put_dp p d' h).
Proof.
  intros Hi Hp Hd He He' Hw Hl Hx Hk. destruct (maps_ext (hp_dp_mem h) (<[p := d']> (hp_dp_mem h))) as [E1 E2].
  { intros q. rewrite view_insert. case_decide as E; [subst|done]. unfold view. rewrite Hd. cbn. unfold core_view. rewrite He, He', !decide_False; [done|intros [? _]; congruence..]. }
  split; try apply Hi; cbn [put_dp set_hp_dp_mem hp_dp_mem hp_dps hp_calls hp_log].
  - intros q Hq. destruct (decide (q = p)) as [->|Hne]; [rewrite lookup_insert_eq; by eexists|rewrite lookup_insert_ne by done; by apply Hi].
  - intros q Hq. destruct (decide (q = p)) as [->|Hne]; [rewrite lookup_insert_eq; by exists d'|rewrite lookup_insert_ne by done; by apply Hi].
  - intros k. rewrite lookup_insert_ne by (by destruct Hp as [->| ->]). apply Hi.
  - intros q x. destruct (decide (q = p)) as [->|Hne]; [rewrite lookup_insert_eq; by intros [= <-]|rewrite lookup_insert_ne by done; apply Hi].
  - intros q x. destruct (decide (q = p)) as [->|Hne]; [rewrite lookup_insert_eq; by intros [= <-]|rewrite lookup_insert_ne by done; apply Hi].
  - intros q x. destruct (decide (q = p)) as [->|Hne]; [rewrite lookup_insert_eq; intros [= <-]; exact Hk|rewrite lookup_insert_ne by done; apply Hi].
  - rewrite E1, E2. apply Hi.
Qed.

Lemma heap_dps_special p l : special p -> filter (fun q => ~ special q) (p :: l) = filter (fun q => ~ special q) l.
Proof. intros Hp. rewrite filter_cons. by rewrite decide_False by tauto. Qed.

Lemma add_special h p d d' : hinv h -> special p -> p ∉ hp_dps h -> hp_dp_mem h !! p = Some d -> hd_enabled d' = false -> prefix_wf (hd_prefix d') -> hd_dhcp d' = [] ->
  hd_excluded d' = false -> kind_ok h p d' ->
  exists h', dps_add p (put_dp p d' h) = Some h' /\ hinv h' /\ h' = set_hp_dps (p :: hp_dps h) (put_dp p d' h) /\ heap_same h h' /\ room h' = room h.
Proof.
  intros Hi Hp Hnot Hd He Hw Hl Hx Hk. unfold dps_add. cbn [put_dp set_hp_dp_mem hp_dps]. rewrite decide_False by done. eexists. split; [done|].
  pose proof (hinv_put_special h p d d' Hi Hp Hd (hi_off _ Hi p d Hd Hnot) He Hw Hl Hx (fun _ => Hk)) as Hi1.
  assert (Hsub : forall k, is_Some (<[p := d']> (hp_dp_mem h) !! HeapDp k) -> HeapDp k ∈ p :: hp_dps h /\ (k < hp_calls h)%nat).
  { intros k Hs. destruct (hi_heap _ Hi1 k Hs). split; [by right|done]. }
  split; [|split; [done|split]].
  - split; try apply Hi1; try done; cbn [set_hp_dps hp_dps put_dp set_hp_dp_mem hp_dp_mem] in *.
    + constructor; [done|apply Hi].
    + intros q [->|Hq]%elem_of_cons; [rewrite lookup_insert_eq; by eexists|by apply (hi_cell _ Hi1)].
    + intros q x Hq [_ Hnq]%not_elem_of_cons. by apply (hi_off _ Hi1 q).
    + intros q x Hq [->|Hin]%elem_of_cons; [|by apply (hi_kind _ Hi1 q x)]. rewrite lookup_insert_eq in Hq. injection Hq as <-. exact Hk.
  - split; try done. + unfold heap_dps. by apply heap_dps_special. + intros k. cbn. rewrite lookup_insert_ne; [done|]. by destruct Hp as [->| ->].
  - unfold room, heap_room. cbn [set_hp_dps hp_dps hp_ifaces put_dp set_hp_dp_mem hp_dp_mem fmap list_fmap]. f_equal. f_equal.
    assert (E : forall q, (match q with HeapDp _ => default 0%nat (dp_room <$> <[p := d']> (hp_dp_mem h) !! q) | _ => 0%nat end) =
      match q with HeapDp _ => default 0%nat (dp_room <$> hp_dp_mem h !! q) | _ => 0%nat end).
    { intros [| |k]; [done|done|]. rewrite lookup_insert_ne; [done|]. by destruct Hp as [->| ->]. }
    assert (sum_list (heap_room (put_dp p d' h) <$> hp_dps h) = sum_list (heap_room h <$> hp_dps h)) as E2 by (f_equal; apply list_fmap_ext; intros ? q ?; apply E).
    destruct Hp as [->| ->]; exact E2.
Qed.

Lemma sum_list_without (f : dp_ptr -> nat) p l : (sum_list (f <$> without p l) <= sum_list (f <$> l))%nat /\ (f p = 0%nat -> sum_list (f <$> without p l) = sum_list (f <$> l)).
Proof.
  unfold without. split; [apply sum_list_filter|]. intros Hp. induction l as [|q l IH]; [done|]. rewrite filter_cons. change (sum_list (f <$> q :: l)) with (f q + sum_list (f <$> l))%nat.
  destruct (decide (q ≠ p)) as [E|E]; [|apply dec_stable in E; subst q; lia]. change (sum_list (f <$> q :: filter (fun y => y ≠ p) l)) with (f q + sum_list (f <$> filter (fun y => y ≠ p) l))%nat. lia.
Qed.

Lemma elem_of_without p q (l : list dp_ptr) : q ∈ without p l <-> q ≠ p /\ q ∈ l.
Proof. unfold without. by rewrite list_elem_of_filter. Qed.

Lemma del_special h p d : hinv h -> special p -> p ∈ hp_dps h -> hp_dp_mem h !! p = Some d -> hd_enabled d = false ->
  exists h', dps_del p h = Some h' /\ hinv h' /\ h' = set_hp_dps (without p (hp_dps h)) h /\ heap_same h h' /\ room h' = room h.
Proof.
  intros Hi Hp Hin Hd He. unfold dps_del. rewrite decide_True by done. eexists. split; [done|]. split; [|split; [done|split]].
  - split; try apply Hi; cbn [set_hp_dps hp_dps hp_dp_mem hp_calls].
    + apply NoDup_filter, Hi.
    + intros q [_ Hq]%elem_of_without. by apply (hi_cell _ Hi).
    + intros k Hk. destruct (hi_heap _ Hi k Hk). split; [|done]. apply elem_of_without. split; [|done]. by destruct Hp as [->| ->].
    + intros q x Hx Hnot. destruct (decide (q = p)) as [->|Hne]; [congruence|]. apply (hi_off _ Hi q x Hx). intros Hq. apply Hnot. by apply elem_of_without.
    + intros q x Hx [_ Hq]%elem_of_without. by apply (hi_kind _ Hi q x).
  - split; try done. unfold heap_dps, without. cbn [set_hp_dps hp_dps]. rewrite list_filter_filter. apply list_filter_iff. intros q. split; [tauto|]. intros Hq. split; [done|]. by intros ->.
  - unfold room. cbn [set_hp_dps hp_dps hp_ifaces]. f_equal. f_equal. apply (sum_list_without (heap_room (set_hp_dps (without p (hp_dps h)) h)) p (hp_dps h)). by destruct Hp as [->| ->].
Qed.

(** ** What the timers look at *)

Lemma better_v4_total h uplink dps : well_formed h dps -> is_Some (own_node (hp_dncp h)) -> is_Some (better_v4_loop h uplink dps).
Proof.
  intros Hw [own Ho]. induction dps as [|p dps IH]; cbn [better_v4_loop]; [by eexists|]. destruct (Hw p) as (d & -> & Hwd); [by left|]. cbn [mbind option_bind].
  rewrite (prefix_is_ipv4_spec _ Hwd), Ho. cbn [mbind option_bind]. specialize (IH (fun q Hq => Hw q (list_elem_of_further _ _ _ Hq))).
  destruct (decide (hd_type d = HPA_DP_T_HNCP)); [|done]. destruct (is_v4 (hd_prefix d)); [|done]. destruct uplink; cbn [negb mbind option_bind]; [|by eexists].
  destruct (hd_dst_present d && _); [|done]. cbn [mbind option_bind]. case_bool_decide; [by eexists|done].
Qed.

(** The prefix of another node that comes before ours. *)
Definition better_v4 h (uplink : bool) : Prop := hpa_has_better_v4 uplink h = Some true.

Lemma has_better_total h uplink : hinv h -> is_Some (hpa_has_better_v4 uplink h).
Proof. intros Hi. apply better_v4_total; [by apply hinv_well_formed|apply Hi]. Qed.

Lemma elect_total h : good h -> exists e, hpa_elect_v4 h = Some e /\ forall n, e = Some n -> exists i, get_iface h n = Some i.
Proof.
  intros [Hi [Hf _] _]. unfold hpa_elect_v4. destruct (hi_special _ Hi V4Dp) as (d & Hd & _); [by left|]. rewrite Hd. cbn [mbind option_bind].
  assert (Hfind : exists e, Some ((fun x : nat * hpa_iface => hi_name x.2) <$> list_find (fun i => hi_uplink i = true) (hp_ifaces h)) = Some e /\ forall n, e = Some n -> exists i, get_iface h n = Some i).
  { eexists. split; [done|]. intros n ([k i] & (Hk & _)%list_find_Some & ->)%fmap_Some. cbn [snd]. unfold get_iface.
    destruct (list_find_elem_of (fun j => hi_name j = hi_name i) (hp_ifaces h) i) as [[k' j] ->]; [by eapply list_elem_of_lookup_2|done|]. by eexists. }
  destruct (v4_enabled h && bool_decide (hd_type d = HPA_DP_T_IFACE)) eqn:E; cbn [mbind option_bind]; [|done].
  apply andb_true_iff in E as [Ev Et%bool_decide_eq_true]. apply Hf in Ev.
  destruct (hi_kind _ Hi V4Dp d Hd Ev) as [(_ & _ & _ & _ & n & i & -> & Hn)|[(E & _)|(E & _)]]; [|rewrite E in Et; discriminate..].
  cbn [mbind option_bind]. rewrite Hn. cbn [mbind option_bind]. destruct (hi_uplink i); [|done]. exists (Some n). split; [done|]. intros m [= <-]. by exists i.
Qed.

Lemma v4_blocked_total h : good h -> exists b e, v4_blocked h = Some (b, e) /\ forall n, e = Some n -> exists i, get_iface h n = Some i.
Proof.
  intros Hg. unfold v4_blocked. destruct (negb _); [by exists true, None|]. destruct (elect_total h Hg) as (e & -> & He). cbn [mbind option_bind].
  destruct (has_better_total h false (gd_inv _ Hg)) as [b1 Hb1]. destruct (has_better_total h true (gd_inv _ Hg)) as [b2 Hb2]. rewrite Hb1, Hb2.
  destruct e as [n|]; cbn [mbind option_bind]; [by exists b2, (Some n)|]. destruct (no_ipv4_if_no_uplink _); cbn [mbind option_bind]; [by exists true, None|].
  destruct b1; cbn [mbind option_bind]; [by exists true, None|by exists b2, None].
Qed.

(** ** Changing one cell *)

Lemma settled_cell h h' p d d' : settled h -> same_but_cells h h' -> hp_dp_mem h !! p = Some d -> hp_dp_mem h' = <[p := d']> (hp_dp_mem h) -> dp_key d' = dp_key d ->
  hd_enabled d' = hd_enabled d -> settled h'.
Proof.
  intros Hset Hs Hd Hm Hk He q x Hq Hx.
  assert (Hkeys : same_keys h h') by (unfold same_keys; rewrite Hm, fmap_insert; apply insert_id; rewrite lookup_fmap, Hd; cbn; congruence).
  rewrite (wants_keys h h' q Hkeys (sb_dps _ _ Hs)) by apply Hs. rewrite (sb_dps _ _ Hs) in Hq. rewrite Hm in Hx.
  destruct (decide (q = p)) as [->|Hne]; [rewrite lookup_insert_eq in Hx; injection Hx as <-; rewrite He; by apply Hset|rewrite lookup_insert_ne in Hx by done; by apply Hset].
Qed.

Lemma flags_cells h h' : flags_ok h -> same_but_cells h h' -> flags_ok h'.
Proof. intros Hf [E1 _ _ (E2 & _) (E3 & _) _ _]. unfold flags_ok. by rewrite E1, E2, E3. Qed.

Lemma alarms_cells h h' : alarms_ok h -> same_but_cells h h' -> alarms_ok h'.
Proof. intros Hf [_ _ _ (E1 & E2 & E3) (E4 & E5 & E6) _ _]. unfold alarms_ok. by rewrite E1, E2, E3, E4, E5, E6. Qed.

(** The lifetimes of a local prefix. *)
Lemma update_local_spec p h d : hinv h -> fits h -> special p -> hp_dp_mem h !! p = Some d ->
  exists h', update_local p h = Some h' /\ hinv h' /\ same_but_cells h h' /\ room h' = room h /\
    hp_dp_mem h' = <[p := updated_dp (hp_time h + local_preferred_lifetime (hp_conf h)) (hp_time h + local_valid_lifetime (hp_conf h)) [] d]> (hp_dp_mem h).
Proof.
  intros Hi Hf Hp Hd. unfold update_local.
  destruct (dp_update_spec p (hp_time h + local_preferred_lifetime (hp_conf h)) (hp_time h + local_valid_lifetime (hp_conf h)) [] h d Hi) as (h' & x & -> & Hi' & Hs & Hx & Hm & _); [cbn [length]; rewrite Nat.add_0_r; exact Hf|done|done|].
  exists h'. assert (x = []) as -> by (by destruct Hx). split; [done|]. split; [done|]. split; [done|]. split; [|done].
  rewrite <- (special_room h p (updated_dp (hp_time h + local_preferred_lifetime (hp_conf h)) (hp_time h + local_valid_lifetime (hp_conf h)) [] d) Hp).
  apply room_refreshed; [|done]. destruct Hs. by split.
Qed.

(** ** The two local prefixes alike *)

Definition flag p h : bool := match p with V4Dp => v4_enabled h | _ => ula_enabled h end.
Definition set_flag p (b : bool) h : hpa := match p with V4Dp => set_v4_enabled b h | _ => set_ula_enabled b h end.
Definition other p : dp_ptr := match p with V4Dp => UlaDp | _ => V4Dp end.

(** Timers and backoffs. *)
Definition same_clocks h h' : Prop := v4_to h' = v4_to h /\ v4_backoff h' = v4_backoff h /\ ula_to h' = ula_to h /\ ula_backoff h' = ula_backoff h.

#[global] Instance same_clocks_preorder : PreOrder same_clocks.
Proof. split; [by intros h|]. intros h1 h2 h3 (A1 & A2 & A3 & A4) (B1 & B2 & B3 & B4). split_and!; congruence. Qed.

Lemma same_clocks_cells h h' : same_but_cells h h' -> same_clocks h h'.
Proof. intros [_ _ _ (_ & E2 & E3) (_ & E5 & E6) _ _]. by split_and!. Qed.

Lemma flags_special h : flags_ok h <-> forall p, special p -> p ∈ hp_dps h <-> flag p h = true.
Proof. unfold flags_ok, special, flag. split; [intros [H1 H2] p [->| ->]; done|]. intros H. split; [apply (H V4Dp); auto|apply (H UlaDp); auto]. Qed.

Lemma flag_cells p h h' : same_but_cells h h' -> flag p h' = flag p h.
Proof. intros [_ _ _ (E1 & _) (E2 & _) _ _]. unfold flag. by destruct p. Qed.

Lemma hinv_flag p b h : hinv h -> hinv (set_flag p b h).
Proof. intros Hi. apply (hinv_ext h); try done; by destruct p. Qed.

Lemma set_flag_fields p b h : hp_dps (set_flag p b h) = hp_dps h /\ hp_dp_mem (set_flag p b h) = hp_dp_mem h /\ room (set_flag p b h) = room h /\ same_clocks h (set_flag p b h) /\
  heap_same h (set_flag p b h) /\ (special p -> flag p (set_flag p b h) = b /\ flag (other p) (set_flag p b h) = flag (other p) h).
Proof. unfold set_flag. destruct p; (split; [done|]; split; [done|]; split; [done|]; split; [done|]; split; [by split|]; by intros [?|?]). Qed.

(** What removing or creating a local prefix leaves alone. *)
Record local_step p h h' : Prop := {
  ls_heap : heap_same h h';
  ls_clocks : same_clocks h h';
  ls_other : flag (other p) h' = flag (other p) h;
  ls_room : room h' = room h
}.

Lemma fits_room h h' : fits h -> room h' = room h -> fits h'.
Proof. unfold fits. by intros ? ->. Qed.

Lemma other_special p : special p -> special (other p) /\ other p ≠ p /\ forall q, special q -> q = p \/ q = other p.
Proof. unfold special, other. intros [->| ->]; (split; [auto|]; split; [done|]; intros q [->| ->]; auto). Qed.

Lemma special_removed p h : good h -> fits h -> special p -> p ∈ hp_dps h ->
  exists h', (h ← hpa_dp_set_enabled p false (set_flag p false h); h ← dps_del p h; hpa_dp_update_enabled h) = Some h' /\ good h' /\ local_step p h h' /\ flag p h' = false.
Proof.
  intros [Hi Hfl _] Hf Hp Hin. destruct (other_special p Hp) as (Hos & Hop & Hcase). rewrite flags_special in Hfl.
  destruct (set_flag_fields p false h) as (F1 & F2 & F3 & F4 & F5 & F6). destruct (F6 Hp) as [F7 F8]. clear F6. set (h1 := set_flag p false h) in *.
  pose proof (hinv_flag p false h Hi) as Hi1. fold h1 in Hi1. destruct (hi_cell _ Hi p Hin) as [d Hd]. rewrite <- F2 in Hd. rewrite <- F1 in Hin.
  destruct (set_enabled_spec p false h1 d Hi1 (fits_room _ _ Hf F3) Hd Hin) as (h2 & -> & Hi2 & Hs2 & Hm2 & _ & Hr2). cbn [mbind option_bind].
  destruct (del_special h2 p (set_hd_enabled false d) Hi2 Hp) as (h3 & -> & Hi3 & E3 & Hh3 & Hr3); [by rewrite (sb_dps _ _ Hs2)|rewrite Hm2; apply lookup_insert_eq|done|]. cbn [mbind option_bind].
  destruct (update_enabled_spec h3 Hi3) as (h4 & -> & Hi4 & Hs4 & Hsh4 & Hr4 & _ & Hset4); [by apply (fits_room h); [done|congruence]|].
  assert (Hc2 : forall k, noen <$> hp_dp_mem h2 !! HeapDp k = noen <$> hp_dp_mem h1 !! HeapDp k) by (intros k; rewrite Hm2, lookup_insert_ne; [done|by destruct Hp as [->| ->]]).
  exists h4. split; [done|]. assert (Ef : forall q, flag q h4 = flag q h1).
  { intros q. rewrite (flag_cells q h3 h4 Hs4), E3. transitivity (flag q h2); [by destruct q|]. by apply flag_cells. }
  assert (Ed : hp_dps h4 = without p (hp_dps h)) by (rewrite (sb_dps _ _ Hs4), E3; cbn; by rewrite (sb_dps _ _ Hs2), F1).
  split; [|split; [|by rewrite Ef]].
  - split; [done| |done]. apply flags_special. intros q Hq. rewrite Ef, Ed, elem_of_without. destruct (Hcase q Hq) as [->| ->].
    + rewrite F7. split; [by intros []|done].
    + rewrite F8, <- (Hfl _ Hos). split; [by intros []|done].
  - split; [|  |by rewrite Ef, F8|congruence].
    + etrans; [exact F5|]. etrans; [by apply (heap_same_cells h1 h2)|]. etrans; [exact Hh3|]. by apply heap_same_shape.
    + etrans; [exact F4|]. etrans; [by apply same_clocks_cells|]. etrans; [|by apply same_clocks_cells]. by rewrite E3.
Qed.

Lemma kind_flag h h' p d : hp_ifaces h' = hp_ifaces h -> kind_ok h p d -> kind_ok h' p d.
Proof. unfold kind_ok, get_iface. by intros ->. Qed.

Lemma special_created p d' h : good h -> fits h -> special p -> p ∉ hp_dps h -> hd_enabled d' = false -> prefix_wf (hd_prefix d') -> hd_dhcp d' = [] -> hd_excluded d' = false -> kind_ok h p d' ->
  exists h', (h ← dps_add p (put_dp p d' h); h ← update_local p h; hpa_dp_update_enabled (set_flag p true h)) = Some h' /\ good h' /\ local_step p h h' /\ flag p h' = true.
Proof.
  intros [Hi Hfl _] Hf Hp Hnot He Hw Hl Hx Hk. destruct (other_special p Hp) as (Hos & Hop & Hcase). rewrite flags_special in Hfl.
  destruct (hi_special _ Hi p Hp) as (d & Hd & _). destruct (add_special h p d d' Hi Hp Hnot Hd He Hw Hl Hx Hk) as (h1 & -> & Hi1 & E1 & Hh1 & Hr1). cbn [mbind option_bind].
  assert (Hd1 : hp_dp_mem h1 !! p = Some d') by (rewrite E1; apply lookup_insert_eq).
  destruct (update_local_spec p h1 d' Hi1 (fits_room _ _ Hf Hr1) Hp Hd1) as (h2 & -> & Hi2 & Hs2 & Hr2 & Hm2). cbn [mbind option_bind].
  destruct (set_flag_fields p true h2) as (F1 & F2 & F3 & F4 & F5 & F6). destruct (F6 Hp) as [F7 F8]. clear F6. set (h3 := set_flag p true h2) in *.
  destruct (update_enabled_spec h3 (hinv_flag p true h2 Hi2)) as (h4 & -> & Hi4 & Hs4 & Hsh4 & Hr4 & _ & Hset4); [by apply (fits_room h); [done|congruence]|].
  assert (Hc2 : forall k, noen <$> hp_dp_mem h2 !! HeapDp k = noen <$> hp_dp_mem h1 !! HeapDp k) by (intros k; rewrite Hm2, lookup_insert_ne; [done|by destruct Hp as [->| ->]]).
  exists h4. split; [done|]. assert (Ef2 : forall q, flag q h2 = flag q h) by (intros q; rewrite (flag_cells q h1 h2 Hs2), E1; by destruct q).
  assert (Ef : flag p h4 = true /\ flag (other p) h4 = flag (other p) h) by (rewrite !(flag_cells _ h3 h4 Hs4), F7, F8, Ef2; done). destruct Ef as [Ef Efo].
  assert (Ed : hp_dps h4 = p :: hp_dps h) by (rewrite (sb_dps _ _ Hs4), F1, (sb_dps _ _ Hs2), E1; done).
  split; [|split; [|done]].
  - split; [done| |done]. apply flags_special. intros q Hq. rewrite Ed, elem_of_cons. destruct (Hcase q Hq) as [->| ->]; [rewrite Ef; split; auto|].
    rewrite Efo, <- (Hfl _ Hos). split; [by intros [?|?]|by right].
  - split; [| |done|congruence].
    + etrans; [exact Hh1|]. etrans; [by apply (heap_same_cells h1 h2)|]. etrans; [exact F5|]. by apply heap_same_shape.
    + etrans; [|etrans; [by apply (same_clocks_cells h1 h2)|etrans; [exact F4|by apply same_clocks_cells]]]. by rewrite E1.
Qed.

(** ** IPv4 *)

(** What [hpa_v4_to] and [hpa_ula_to] do to the other local prefix: nothing. *)
Record keeps_other p h h' : Prop := {
  ko_heap : heap_same h h';
  ko_room : room h' = room h;
  ko_flag : flag (other p) h' = flag (other p) h;
  ko_clocks : match p with V4Dp => ula_to h' = ula_to h /\ ula_backoff h' = ula_backoff h | _ => v4_to h' = v4_to h /\ v4_backoff h' = v4_backoff h end
}.

#[global] Instance keeps_other_preorder p : PreOrder (keeps_other p).
Proof.
  split; [intros h; split; try done; by destruct p|]. intros h1 h2 h3 [A1 A2 A3 A4] [B1 B2 B3 B4].
  split; [by etrans|congruence|congruence|]. destruct p, A4, B4; split; congruence.
Qed.

Lemma local_keeps p h h' : local_step p h h' -> keeps_other p h h'.
Proof. intros [H1 (E1 & E2 & E3 & E4) H3 H4]. split; try done. by destruct p. Qed.

Lemma cells_keep p h h' : same_but_cells h h' -> (forall k, noen <$> hp_dp_mem h' !! HeapDp k = noen <$> hp_dp_mem h !! HeapDp k) -> room h' = room h -> keeps_other p h h'.
Proof.
  intros Hs Hc Hr. split; [by apply heap_same_cells|done|by apply flag_cells|]. destruct Hs as [_ _ _ (_ & E2 & E3) (_ & E5 & E6) _ _]. by destruct p.
Qed.

Lemma good_cells h h' : good h -> same_but_cells h h' -> hinv h' -> settled h' -> good h'.
Proof. intros [_ Hf _] Hs Hi Hset. split; [done|by eapply flags_cells|done]. Qed.

Lemma special_heap_cell p d h h' k : special p -> hp_dp_mem h' = <[p := d]> (hp_dp_mem h) -> noen <$> hp_dp_mem h' !! HeapDp k = noen <$> hp_dp_mem h !! HeapDp k.
Proof. intros Hp ->. rewrite lookup_insert_ne; [done|]. by destruct Hp as [->| ->]. Qed.

Lemma refresh_good publish h : good h -> fits h -> exists h', hpa_refresh_ec publish h = Some h' /\ good h' /\ same_but_cells h h' /\ hp_dp_mem h' = hp_dp_mem h /\ room h' = room h.
Proof.
  intros Hg Hf. destruct (refresh_keeps publish h (gd_inv _ Hg) Hf) as (h' & -> & Hi' & Hs & Hm & _). exists h'. split; [done|]. split; [|split; [done|split; [done|by apply room_refreshed]]].
  apply (good_cells h); try done. apply (settled_ext h); [apply Hg|apply Hs|done|apply Hs|apply Hs].
Qed.

Lemma v4_change_spec e h : good h -> fits h -> V4Dp ∈ hp_dps h -> (forall n, e = Some n -> exists i, get_iface h n = Some i) ->
  exists h', v4_change_iface e h = Some h' /\ good h' /\ keeps_other V4Dp h h' /\ v4_enabled h' = v4_enabled h /\ v4_backoff h' = v4_backoff h.
Proof.
  intros Hg Hf Hin He. pose proof (gd_inv _ Hg) as Hi. destruct (hi_cell _ Hi _ Hin) as [d Hd]. unfold v4_change_iface.
  destruct (set_enabled_spec V4Dp false h d Hi Hf Hd Hin) as (h1 & -> & Hi1 & Hs1 & Hm1 & _ & Hr1). cbn [mbind option_bind]. rewrite Hm1, lookup_insert_eq. cbn [mbind option_bind].
  set (d1 := set_hd_enabled false d). set (x := match e with Some n => _ | None => _ end).
  assert (Hd1 : hp_dp_mem h1 !! V4Dp = Some d1) by (rewrite Hm1; apply lookup_insert_eq).
  assert (Hin1 : V4Dp ∈ hp_dps h1) by (by rewrite (sb_dps _ _ Hs1)).
  assert (Hloc : hd_local d1 = true /\ hd_delete_to d1 = None) by (destruct (hi_kind _ Hi1 _ _ Hd1 Hin1) as [(_ & ? & _ & ? & _)|[(_ & ? & _ & ?)|(_ & _ & ? & ?)]]; done).
  destruct (hi_special _ Hi1 V4Dp) as (d1' & Hd1' & Hl1 & Hx1); [by left|]. assert (d1' = d1) as -> by congruence.
  assert (Hk : kind_ok h1 V4Dp x.2 /\ hd_enabled x.2 = false /\ hd_prefix x.2 = hd_prefix d1 /\ hd_dhcp x.2 = [] /\ hd_excluded x.2 = false).
  { unfold x, kind_ok. destruct e as [n|]; cbn; (split; [|by split_and!]).
    - left. destruct Hloc. split_and!; try done. destruct (He n eq_refl) as [i Hgi]. exists n, i. split; [done|]. unfold get_iface in *. by rewrite (sb_ifaces _ _ Hs1).
    - right. left. destruct Hloc. split_and!; try done. by left. }
  destruct x as [update_ec d2]. cbn [snd] in Hk. destruct Hk as (Hk & He2 & Hp2 & Hl2 & Hx2).
  assert (Hi2 : hinv (put_dp V4Dp d2 h1)).
  { apply (hinv_put_special h1 V4Dp d1 d2); try done; [by left|]. rewrite Hp2. by apply (hi_wf _ Hi1 V4Dp). }
  assert (Hr2 : room (put_dp V4Dp d2 h1) = room h) by (rewrite special_room by (by left); done).
  destruct (update_enabled_spec _ Hi2 (fits_room _ _ Hf Hr2)) as (h3 & -> & Hi3 & Hs3 & Hsh3 & Hr3 & _ & Hset3). cbn [mbind option_bind].
  assert (Hs : same_but_cells h h3) by (etrans; [exact Hs1|]; etrans; [|exact Hs3]; by split).
  assert (Hg3 : good h3) by (by apply (good_cells h)).
  assert (Hk3 : keeps_other V4Dp h h3).
  { apply cells_keep; [done| |congruence]. intros k. apply (f_equal (fun m => m !! HeapDp k)) in Hsh3. rewrite !lookup_fmap in Hsh3. rewrite Hsh3.
    cbn [put_dp set_hp_dp_mem hp_dp_mem]. rewrite lookup_insert_ne by done. apply (special_heap_cell V4Dp d1); [by left|done]. }
  destruct update_ec; [|exists h3; split; [done|]; split; [done|]; split; [done|]; destruct Hs as [_ _ _ (? & ? & _) _ _ _]; done].
  destruct (refresh_good true h3 Hg3) as (h4 & -> & Hg4 & Hs4 & Hm4 & Hr4); [by apply (fits_room h); [done|congruence]|].
  exists h4. split; [done|]. split; [done|]. split; [etrans; [exact Hk3|]; apply cells_keep; [done|by intros k; rewrite Hm4|done]|].
  assert (Hs' : same_but_cells h h4) by (by etrans). destruct Hs' as [_ _ _ (? & ? & _) _ _ _]; done.
Qed.

Lemma good_ext h h' : good h -> hp_dps h' = hp_dps h -> hp_dp_mem h' = hp_dp_mem h -> hp_ifaces h' = hp_ifaces h -> hp_conf h' = hp_conf h -> hp_log h' = hp_log h ->
  hp_store h' = hp_store h -> hp_dncp h' = hp_dncp h -> (hp_calls h <= hp_calls h')%nat -> v4_enabled h' = v4_enabled h -> ula_enabled h' = ula_enabled h -> good h'.
Proof.
  intros [Hi Hf Hs] E1 E2 E3 E4 E5 E6 E7 Hc E8 E9. split; [by apply (hinv_ext h)| |by apply (settled_ext h)]. unfold flags_ok. by rewrite E1, E8, E9.
Qed.

(** The state after the decision of [hpa_v4_to], before the timer is set. *)
Definition v4_decided h h' : Prop := good h' /\ keeps_other V4Dp h h'.

Lemma v4_backoff_keeps x n h : keeps_other V4Dp h (set_v4_backoff x (set_hp_calls (hp_calls h + n) h)).
Proof. split; [split; try done; cbn; lia|done|done|done]. Qed.

Lemma set_calls_id h : set_hp_calls (hp_calls h + 0) h = h.
Proof. rewrite Nat.add_0_r. by destruct h. Qed.

Lemma decided_backoff x h h' : v4_decided h h' -> v4_decided h (set_v4_backoff x h').
Proof.
  intros [Hg Hk]. split; [by apply (good_ext h')|]. etrans; [exact Hk|]. rewrite <- (set_calls_id h') at 2. apply v4_backoff_keeps.
Qed.

Lemma v4_create_spec e h : good h -> fits h -> V4Dp ∉ hp_dps h -> (forall n, e = Some n -> exists i, get_iface h n = Some i) ->
  exists h', v4_create e h = Some h' /\ v4_decided h h' /\ v4_enabled h' = true /\ v4_backoff h' = 0.
Proof.
  intros Hg Hf Hnot He. unfold v4_create. set (d' := match e with Some n => _ | None => _ end).
  destruct (special_created V4Dp d' h Hg Hf) as (h' & E & Hg' & Hl & Hfl); try (unfold d'; by destruct e); [by left|unfold d'; destruct e; apply (hi_conf _ (gd_inv _ Hg))| |].
  { unfold d', kind_ok. destruct e as [n|]; cbn; [left|right; left]; split_and!; try done; [|by left]. destruct (He n eq_refl) as [i Hi]. by exists n, i. }
  apply bind_Some in E as (h1 & E1 & E). apply bind_Some in E as (h2 & E2 & E3). rewrite E1. cbn [mbind option_bind]. rewrite E2. cbn [mbind option_bind].
  change (set_flag V4Dp true h2) with (set_v4_enabled true h2) in E3. rewrite E3. cbn [mbind option_bind]. eexists. split; [done|]. split; [|by split; [exact Hfl|]].
  apply decided_backoff. split; [done|]. by apply local_keeps.
Qed.

Lemma v4_schedule_spec h : good h -> exists h', v4_schedule h = Some h' /\ good h' /\ keeps_other V4Dp h h' /\ v4_enabled h' = v4_enabled h /\ v4_backoff h' = v4_backoff h /\
  (v4_enabled h' = true \/ v4_backoff h' ≠ 0 -> is_Some (v4_to h')).
Proof.
  intros Hg. unfold v4_schedule. destruct (hi_special _ (gd_inv _ Hg) V4Dp) as (d & Hd & _); [by left|]. rewrite Hd. cbn [mbind option_bind].
  assert (Hset : forall t, good (set_v4_to t h) /\ keeps_other V4Dp h (set_v4_to t h)) by (intros t; split; [by apply (good_ext h)|by split]).
  destruct (v4_enabled h) eqn:Ev; [|case_decide as Eb].
  - eexists. split; [done|]. split; [apply Hset|]. split; [apply Hset|]. split; [by rewrite <- Ev|]. split; [done|]. intros _. by eexists.
  - eexists. split; [done|]. split; [apply Hset|]. split; [apply Hset|]. split; [by rewrite <- Ev|]. split; [done|]. intros _. by eexists.
  - exists h. split_and!; try done. rewrite Ev. by intros [?|?].
Qed.

(** What [hpa_v4_to] decides. *)
Definition v4_outcome h (blocked : bool) (elected : option (list Z)) h' : Prop :=
  if blocked then v4_enabled h' = false /\ v4_backoff h' = 0
  else if bool_decide (v4_enabled h = true \/ elected ≠ None \/ (v4_backoff h ≠ 0 /\ v4_backoff h <= hp_time h))
  then v4_enabled h' = true /\ v4_backoff h' = (if v4_enabled h then v4_backoff h else 0)
  else v4_enabled h' = false /\ (v4_backoff h ≠ 0 -> v4_backoff h' = v4_backoff h) /\
    (v4_backoff h = 0 -> v4_backoff h' = hp_time h + (10 + Z.rem (hpa_random (hp_calls h)) HPA_ULA_MAX_BACKOFF)).

Lemma v4_decide_spec b e h : good h -> fits h -> (forall n, e = Some n -> exists i, get_iface h n = Some i) ->
  exists h', v4_decide b e h = Some h' /\ v4_decided h h' /\ v4_outcome h b e h'.
Proof.
  intros Hg Hf He. destruct (proj1 (gd_flags _ Hg)) as [Hin Hen]. unfold v4_decide, v4_outcome. destruct b.
  - destruct (v4_enabled h) eqn:Ev.
    + destruct (special_removed V4Dp h Hg Hf) as (h1 & E & Hg1 & Hl & Hfl); [by left|by apply Hen|]. change (set_flag V4Dp false h) with (set_v4_enabled false h) in E. rewrite E. cbn [mbind option_bind].
      eexists. split; [done|]. split; [|split; [exact Hfl|done]]. apply decided_backoff. split; [done|by apply local_keeps].
    + cbn [mbind option_bind]. eexists. split; [done|]. split; [|by split]. apply decided_backoff. by split.
  - destruct (v4_enabled h) eqn:Ev.
    + rewrite (bool_decide_true (_ \/ _)) by (by left). specialize (Hen eq_refl). destruct (hi_cell _ (gd_inv _ Hg) _ Hen) as [d Hd]. rewrite Hd. cbn [mbind option_bind].
      assert (Hch : exists h1, (if decide (hd_iface d ≠ e) then v4_change_iface e h else Some h) = Some h1 /\ v4_decided h h1 /\ v4_enabled h1 = true /\ v4_backoff h1 = v4_backoff h).
      { case_decide; [|exists h; by split_and!]. destruct (v4_change_spec e h Hg Hf Hen He) as (h1 & -> & Hg1 & Hk1 & Ev1 & Eb1). exists h1. split; [done|]. split; [by split|]. split; congruence. }
      destruct Hch as (h1 & -> & [Hg1 Hk1] & Ev1 & Eb1). cbn [mbind option_bind]. destruct (hi_special _ (gd_inv _ Hg1) V4Dp) as (d1 & Hd1 & _); [by left|]. rewrite Hd1. cbn [mbind option_bind].
      case_decide; [|exists h1; by split_and!].
      destruct (update_local_spec V4Dp h1 d1 (gd_inv _ Hg1)) as (h2 & -> & Hi2 & Hs2 & Hr2 & Hm2); [by apply (fits_room h); [|apply Hk1]|by left|done|].
      exists h2. split; [done|]. split; [|destruct Hs2 as [_ _ _ (E & E' & _) _ _ _]; split; congruence]. split.
      * apply (good_cells h1); [done|done|done|]. eapply settled_cell; [apply Hg1|done|done|done|done|done].
      * etrans; [exact Hk1|]. apply cells_keep; [done| |done]. intros k. eapply special_heap_cell; [|done]. by left.
    + assert (Hnot : V4Dp ∉ hp_dps h) by (intros ?%Hin; congruence).
      destruct (bool_decide (e = None) && bool_decide (v4_backoff h = 0)) eqn:E1.
      * apply andb_true_iff in E1 as [-> %bool_decide_eq_true E0%bool_decide_eq_true]. eexists. split; [done|]. split.
        -- split; [apply (good_ext h); try done; cbn; lia|]. unfold hp_called. replace (S (hp_calls h)) with (hp_calls h + 1)%nat by lia. apply v4_backoff_keeps.
        -- rewrite bool_decide_false; [by split_and!|]. rewrite E0. by intros [?|[?|[? _]]].
      * destruct (bool_decide (e ≠ None) || bool_decide (v4_backoff h <= hp_time h)) eqn:E2.
        -- destruct (v4_create_spec e h Hg Hf Hnot He) as (h1 & -> & Hd1 & Ev1 & Eb1). exists h1. split; [done|]. split; [done|]. rewrite bool_decide_true; [by split|].
           right. apply orb_true_iff in E2 as [E2%bool_decide_eq_true|E2%bool_decide_eq_true]; [by left|]. destruct (decide (e = None)) as [->|]; [|by left]. right. split; [|done].
           intros E0. by rewrite E0 in E1.
        -- exists h. split; [done|]. split; [by split|]. apply orb_false_iff in E2 as [E2%bool_decide_eq_false E3%bool_decide_eq_false]. rewrite bool_decide_false by (intros [?|[?|[_ ?]]]; done).
           split; [done|]. split; [done|]. intros E0. exfalso. apply dec_stable in E2. subst e. by rewrite E0 in E1.
Qed.

Lemma v4_to_spec h : good h -> fits h -> exists h' b e, hpa_v4_to h = Some h' /\ v4_blocked h = Some (b, e) /\ good h' /\ keeps_other V4Dp h h' /\ v4_outcome h b e h' /\
  (v4_enabled h' = true \/ v4_backoff h' ≠ 0 -> is_Some (v4_to h')).
Proof.
  intros Hg Hf. unfold hpa_v4_to. destruct (v4_blocked_total h Hg) as (b & e & Eb & He). rewrite Eb. cbn [mbind option_bind].
  destruct (v4_decide_spec b e h Hg Hf He) as (h1 & -> & [Hg1 Hk1] & Ho). cbn [mbind option_bind].
  destruct (v4_schedule_spec h1 Hg1) as (h2 & -> & Hg2 & Hk2 & Ev2 & Eb2 & Hal). exists h2, b, e. split; [done|]. split; [done|]. split; [done|]. split; [by etrans|]. split; [|done].
  unfold v4_outcome in *. by rewrite Ev2, Eb2.
Qed.
End local.

(** ** The local prefix of unique local addresses *)

Section ula.
Context `{DX : !DncpExt, DC : !DncpCallbacks, SH : !StoreHost, HH : !HpaHost, DP : !Passive, EP : !EcPassive, QS : !QSort hpa_qsort, HOK : !StoreHostOk}.
Implicit Types (h : hpa) (p q : dp_ptr) (d : hpa_dp).

(** A delegated prefix of another node or of an interface that is a ULA, and a global one. *)
Definition other_ula h : Prop := exists p d, p ∈ hp_dps h /\ hp_dp_mem h !! p = Some d /\ hd_type d ≠ HPA_DP_T_LOCAL /\ is_ula (hd_prefix d) = true.
Definition global_v6 h : Prop := exists p d, p ∈ hp_dps h /\ hp_dp_mem h !! p = Some d /\ is_global (hd_prefix d) = true.

Lemma other_ula_loop_spec h dps : well_formed h dps ->
  exists b, other_ula_loop h dps = Some b /\ (b = true <-> exists p d, p ∈ dps /\ hp_dp_mem h !! p = Some d /\ hd_type d ≠ HPA_DP_T_LOCAL /\ is_ula (hd_prefix d) = true).
Proof.
  induction dps as [|p dps IH]; intros Hw; cbn [other_ula_loop].
  { exists false. split; [done|]. split; [done|]. intros (p & d & Hp & _). by apply elem_of_nil in Hp. }
  destruct IH as (b & -> & Hb); [intros q Hq; apply Hw; by right|]. destruct (Hw p) as (d & Hd & Hwd); [by left|]. rewrite Hd. cbn [mbind option_bind]. rewrite (prefix_is_ula_spec _ Hwd).
  destruct (decide (hd_type d ≠ HPA_DP_T_LOCAL)) as [Ht|Ht]; cbn [mbind option_bind].
  - destruct (is_ula (hd_prefix d)) eqn:Eu.
    + exists true. split; [done|]. split; [|done]. intros _. exists p, d. by split; [left|].
    + exists b. split; [done|]. rewrite Hb. split; intros (q & x & Hq & Hx & Hrest); exists q, x; (split; [|done]); [by right|]. apply elem_of_cons in Hq as [->|?]; [|done].
      assert (x = d) as -> by congruence. destruct Hrest; congruence.
  - exists b. split; [done|]. rewrite Hb. split; intros (q & x & Hq & Hx & Hrest); exists q, x; (split; [|done]); [by right|]. apply elem_of_cons in Hq as [->|?]; [|done].
    assert (x = d) as -> by congruence. by destruct Hrest.
Qed.

Lemma global_v6_loop_spec h dps : well_formed h dps ->
  exists b, global_v6_loop h dps = Some b /\ (b = true <-> exists p d, p ∈ dps /\ hp_dp_mem h !! p = Some d /\ is_global (hd_prefix d) = true).
Proof.
  induction dps as [|p dps IH]; intros Hw; cbn [global_v6_loop].
  { exists false. split; [done|]. split; [done|]. intros (p & d & Hp & _). by apply elem_of_nil in Hp. }
  destruct IH as (b & -> & Hb); [intros q Hq; apply Hw; by right|]. destruct (Hw p) as (d & Hd & Hwd); [by left|]. rewrite Hd. cbn [mbind option_bind]. rewrite (prefix_is_global_spec _ Hwd).
  cbn [mbind option_bind]. destruct (is_global (hd_prefix d)) eqn:Eu.
  - exists true. split; [done|]. split; [|done]. intros _. exists p, d. by split; [left|].
  - exists b. split; [done|]. rewrite Hb. split; intros (q & x & Hq & Hx & Hrest); exists q, x; (split; [|done]); [by right|]. apply elem_of_cons in Hq as [->|?]; [|done]. congruence.
Qed.

(** There must be no local prefix. *)
Definition no_ula h : Prop := use_ula (hp_conf h) = false \/ other_ula h \/ (no_ula_if_glb_ipv6 (hp_conf h) = true /\ global_v6 h).

Lemma ula_destroy_spec h : hinv h -> exists b, ula_destroy h = Some b /\ (b = true <-> no_ula h).
Proof.
  intros Hi. unfold ula_destroy, no_ula. pose proof (hinv_well_formed h Hi) as Hw.
  destruct (other_ula_loop_spec h (hp_dps h) Hw) as (b1 & E1 & H1). destruct (global_v6_loop_spec h (hp_dps h) Hw) as (b2 & E2 & H2).
  fold (other_ula h) in H1. fold (global_v6 h) in H2. unfold hpa_has_other_ula, hpa_has_global_v6. rewrite E1, E2.
  destruct (use_ula (hp_conf h)); cbn [negb mbind option_bind]; [|exists true; split; [done|]; split; auto].
  destruct b1; [exists true; split; [done|]; split; [|done]; intros _; right; left; by apply H1|]. assert (Hno : ~ other_ula h) by (by intros ?%H1).
  destruct (no_ula_if_glb_ipv6 (hp_conf h)); [exists b2; split; [done|]; rewrite H2; split; [auto|intros [?|[?|[_ ?]]]; done]|].
  exists false. split; [done|]. split; [done|]. by intros [?|[?|[? _]]].
Qed.

(** ** The prefix *)

Lemma host32_bytes v : bytes_ok (host32 v) /\ length (host32 v) = 4%nat.
Proof.
  unfold host32. destruct big_endian; [split; [apply be32_bytes|done]|]. split; [|done]. apply Forall_reverse, be32_bytes.
Qed.

Lemma random_ula_spec h : exists x, random_ula h = Some (hp_called (hp_called h), x) /\ prefix_wf x /\ is_ula x = true /\ plen x = 48%nat.
Proof.
  unfold random_ula. set (rand := host32 (u32 (hpa_random (hp_calls h))) ++ host32 (u32 (hpa_random (S (hp_calls h))))).
  destruct (host32_bytes (u32 (hpa_random (hp_calls h)))) as [Hb1 Hl1]. destruct (host32_bytes (u32 (hpa_random (S (hp_calls h))))) as [Hb2 Hl2].
  destruct (bmemcpy_shift_ok (pfx ipv6_ula_prefix) 8 rand 0 40) as (x & E & Hl & Hb & Hx); [decided|by apply Forall_app|cbn; lia|unfold rand; rewrite length_app; lia|].
  change (plen ipv6_ula_prefix) with 8%nat. change (48 - 8)%nat with 40%nat. rewrite E. cbn [mbind option_bind]. eexists. split; [done|].
  assert (Hw : prefix_wf (mk_prefix x 48)) by (split; [done|]; split; [done|cbn; lia]). split; [done|]. split; [|done].
  unfold is_ula. apply bool_decide_eq_true. unfold pbits. cbn [pfx plen ipv6_ula_prefix].
  assert (E8 : bits x 0 48 = bits x 0 8 ++ bits x 8 40) by (rewrite <- bits_app; done).
  rewrite E8. change (plen ipv6_ula_prefix) with 8%nat. assert (bits x 0 8 = bits (pfx ipv6_ula_prefix) 0 8) as ->; [|by apply prefix_app_r].
  apply bits_ext. intros i Hi. rewrite Nat.add_0_l, Hx. rewrite decide_False by lia. done.
Qed.

Lemma choose_ula_spec h : hinv h -> exists n x, choose_ula h = Some (set_hp_calls (hp_calls h + n) h, x) /\ prefix_wf x.
Proof.
  intros Hi. unfold choose_ula. destruct (use_random_ula (hp_conf h)); [|exists 0%nat, (ula_prefix (hp_conf h)); rewrite set_calls_id; split; [done|apply Hi]].
  destruct (hi_store _ Hi) as (G & l & His & Hl & _). rewrite Hl. cbn [mbind option_bind]. rewrite (rp_list _ _ _ (si_rep _ _ His) _ _ Hl). cbn [mbind option_bind].
  destruct ((of_link store_ula G).*1) as [|sp ps] eqn:Eps.
  - destruct (random_ula_spec h) as (x & -> & Hw & _). exists 2%nat, x. split; [|done]. unfold hp_called. by rewrite Nat.add_comm.
  - destruct (proj2 (rp_cells _ _ _ (si_rep _ _ His) sp)) as [e He].
    { assert (Hin : sp ∈ (of_link store_ula G).*1) by (rewrite Eps; by left). apply list_elem_of_fmap in Hin as (y & -> & [_ Hy]%elem_of_of_link). by apply list_elem_of_fmap_2. }
    rewrite He. cbn [mbind option_bind]. pose proof (rp_prefix _ _ _ (si_rep _ _ His) sp e He) as Hok.
    destruct (pa_prefix_cpy_ok (sp_prefix e) (sp_plen e) (replicate 16 0) Hok) as (x & -> & (Hb & Hlen & Hp) & _); [decided|done|]. cbn [mbind option_bind].
    exists 0%nat, (mk_prefix x (sp_plen e)). rewrite set_calls_id. split; [done|]. by split_and!.
Qed.
(** ** The life of the local prefix *)

Lemma keeps_backoff x h h' : good h' -> keeps_other UlaDp h h' -> good (set_ula_backoff x h') /\ keeps_other UlaDp h (set_ula_backoff x h').
Proof. intros Hg Hk. split; [by apply (good_ext h')|]. etrans; [exact Hk|]. by split. Qed.

Lemma calls_keep n h : good h -> good (set_hp_calls (hp_calls h + n) h) /\ keeps_other UlaDp h (set_hp_calls (hp_calls h + n) h).
Proof. intros Hg. split; [apply (good_ext h); try done; cbn; lia|]. split; [split; try done; cbn; lia|done|done|done]. Qed.

Lemma ula_create_spec h : good h -> fits h -> UlaDp ∉ hp_dps h ->
  exists h', ula_create h = Some h' /\ good h' /\ keeps_other UlaDp h h' /\ ula_enabled h' = true /\ ula_backoff h' = 0.
Proof.
  intros Hg Hf Hnot. unfold ula_create. destruct (choose_ula_spec h (gd_inv _ Hg)) as (n & x & -> & Hw). cbn [mbind option_bind].
  destruct (calls_keep n h Hg) as [Hg0 Hk0]. set (h0 := set_hp_calls _ h) in *. set (d' := set_hd_type HPA_DP_T_LOCAL (local_dp x)).
  destruct (special_created UlaDp d' h0 Hg0) as (h' & E & Hg' & Hl & Hfl); try done; [by right|right; left; by split_and!; auto|].
  apply bind_Some in E as (h1 & E1 & E). apply bind_Some in E as (h2 & E2 & E3). rewrite E1. cbn [mbind option_bind]. rewrite E2. cbn [mbind option_bind].
  change (set_flag UlaDp true h2) with (set_ula_enabled true h2) in E3. rewrite E3. cbn [mbind option_bind]. eexists. split; [done|].
  destruct (keeps_backoff 0 h h' Hg') as [H1 H2]; [etrans; [exact Hk0|by apply local_keeps]|]. by split_and!.
Qed.

Lemma ula_schedule_spec h : good h -> exists h', ula_schedule h = Some h' /\ good h' /\ keeps_other UlaDp h h' /\ ula_enabled h' = ula_enabled h /\ ula_backoff h' = ula_backoff h /\
  (ula_enabled h' = true \/ ula_backoff h' ≠ 0 -> is_Some (ula_to h')).
Proof.
  intros Hg. unfold ula_schedule. destruct (hi_special _ (gd_inv _ Hg) UlaDp) as (d & Hd & _); [by right|]. rewrite Hd. cbn [mbind option_bind].
  assert (Hset : forall t, good (set_ula_to t h) /\ keeps_other UlaDp h (set_ula_to t h)) by (intros t; split; [by apply (good_ext h)|by split]).
  destruct (ula_enabled h) eqn:Ev; [|case_decide as Eb].
  - eexists. split; [done|]. split; [apply Hset|]. split; [apply Hset|]. split; [by rewrite <- Ev|]. split; [done|]. intros _. by eexists.
  - eexists. split; [done|]. split; [apply Hset|]. split; [apply Hset|]. split; [by rewrite <- Ev|]. split; [done|]. intros _. by eexists.
  - exists h. split_and!; try done. rewrite Ev. by intros [?|?].
Qed.

(** What [hpa_ula_to] decides. *)
Definition ula_outcome h (destroy : bool) h' : Prop :=
  if destroy then ula_enabled h' = false /\ ula_backoff h' = (if ula_enabled h then ula_backoff h else 0)
  else if bool_decide (ula_enabled h = true \/ (ula_backoff h ≠ 0 /\ ula_backoff h <= hp_time h))
  then ula_enabled h' = true /\ ula_backoff h' = (if ula_enabled h then ula_backoff h else 0)
  else ula_enabled h' = false /\ (ula_backoff h ≠ 0 -> ula_backoff h' = ula_backoff h) /\
    (ula_backoff h = 0 -> ula_backoff h' = hp_time h + (10 + Z.rem (hpa_random (hp_calls h)) HPA_ULA_MAX_BACKOFF)).

Lemma ula_decide_spec b h : good h -> fits h -> exists h', ula_decide b h = Some h' /\ good h' /\ keeps_other UlaDp h h' /\ ula_outcome h b h'.
Proof.
  intros Hg Hf. destruct (proj2 (gd_flags _ Hg)) as [Hin Hen]. unfold ula_decide, ula_outcome. destruct b; destruct (ula_enabled h) eqn:Ev.
  - destruct (special_removed UlaDp h Hg Hf) as (h1 & E & Hg1 & Hl & Hfl); [by right|by apply Hen|]. change (set_flag UlaDp false h) with (set_ula_enabled false h) in E.
    exists h1. split; [exact E|]. split; [done|]. split; [by apply local_keeps|]. split; [exact Hfl|]. by destruct (ls_clocks _ _ _ Hl) as (_ & _ & _ & ?).
  - case_decide as Eb; [|by exists h; split_and!]. destruct (keeps_backoff 0 h h Hg) as [H1 H2]; [done|]. eexists. by split_and!.
  - rewrite bool_decide_true by (by left). specialize (Hen eq_refl). destruct (hi_cell _ (gd_inv _ Hg) _ Hen) as [d Hd]. rewrite Hd. cbn [mbind option_bind].
    case_decide; [|by exists h; split_and!]. destruct (update_local_spec UlaDp h d (gd_inv _ Hg) Hf) as (h2 & -> & Hi2 & Hs2 & Hr2 & Hm2); [by right|done|].
    exists h2. split; [done|]. split; [|split].
    + apply (good_cells h); [done|done|done|]. eapply settled_cell; [apply Hg|done|done|done|done|done].
    + apply cells_keep; [done| |done]. intros k. eapply special_heap_cell; [|done]. by right.
    + destruct Hs2 as [_ _ _ _ (E & E' & _) _ _]. split; congruence.
  - assert (Hnot : UlaDp ∉ hp_dps h) by (intros ?%Hin; congruence). case_decide as E0.
    + eexists. split; [done|]. destruct (calls_keep 1 h Hg) as [Hg1 Hk1]. rewrite Nat.add_1_r in Hg1, Hk1. destruct (keeps_backoff (hp_time h + (10 + Z.rem (hpa_random (hp_calls h)) HPA_ULA_MAX_BACKOFF)) h _ Hg1 Hk1) as [H1 H2].
      split; [exact H1|]. split; [exact H2|]. rewrite bool_decide_false by (by intros [?|[? _]]). by split_and!.
    + case_decide as E1.
      * destruct (ula_create_spec h Hg Hf Hnot) as (h1 & -> & Hg1 & Hk1 & Ev1 & Eb1). exists h1. split_and!; try done. rewrite bool_decide_true by (by right). by split.
      * exists h. split_and!; try done. rewrite bool_decide_false by (by intros [?|[_ ?]]). by split_and!.
Qed.

Lemma ula_to_spec h : good h -> fits h -> exists h' b, hpa_ula_to h = Some h' /\ (b = true <-> no_ula h) /\ good h' /\ keeps_other UlaDp h h' /\ ula_outcome h b h' /\
  (ula_enabled h' = true \/ ula_backoff h' ≠ 0 -> is_Some (ula_to h')).
Proof.
  intros Hg Hf. unfold hpa_ula_to. destruct (ula_destroy_spec h (gd_inv _ Hg)) as (b & -> & Hb). cbn [mbind option_bind].
  destruct (ula_decide_spec b h Hg Hf) as (h1 & -> & Hg1 & Hk1 & Ho). cbn [mbind option_bind].
  destruct (ula_schedule_spec h1 Hg1) as (h2 & -> & Hg2 & Hk2 & Ev2 & Eb2 & Hal). exists h2, b. split; [done|]. split; [done|]. split; [done|]. split; [by etrans|]. split; [|done].
  unfold ula_outcome in *. by rewrite Ev2, Eb2.
Qed.
End ula.
