(* ===== verification/HncpPaHeap.v ===== *)
(** The delegated prefixes of interfaces and of other nodes: how they come, change and go. *)
From S2P Require Import Prelude Bitops Prefix Tlv DnsUtil PaCore PaInv PaStore PaStoreInv PaStoreCache DncpNotify DncpIndex DncpState Dncp DncpFacts DncpPrune DncpInv DncpTrustFacts Hncp HncpRouting HncpPa HncpPaEc HncpPaInv HncpPaEnable HncpPaLocal.

Section heap.
Context `{DX : !DncpExt, DC : !DncpCallbacks, SH : !StoreHost, HH : !HpaHost, DP : !Passive, EP : !EcPassive, QS : !QSort hpa_qsort, HOK : !StoreHostOk}.
Implicit Types (h : hpa) (p q : dp_ptr) (d : hpa_dp).

(** What the operations on the list of delegated prefixes leave alone. *)
Record same_setup h h' : Prop := {
  su_conf : hp_conf h' = hp_conf h;
  su_ifaces : hp_ifaces h' = hp_ifaces h;
  su_v4 : v4_enabled h' = v4_enabled h /\ v4_backoff h' = v4_backoff h /\ v4_to h' = v4_to h;
  su_ula : ula_enabled h' = ula_enabled h /\ ula_backoff h' = ula_backoff h /\ ula_to h' = ula_to h;
  su_calm : calm (hp_dncp h) (hp_dncp h');
  su_calls : (hp_calls h <= hp_calls h')%nat
}.

#[global] Instance same_setup_preorder : PreOrder same_setup.
Proof.
  split; [by split|]. intros h1 h2 h3 [A2 A3 (A4 & A5 & A6) (A7 & A8 & A9) A10 A11] [B2 B3 (B4 & B5 & B6) (B7 & B8 & B9) B10 B11].
  split; [congruence..|split_and!; congruence|split_and!; congruence|by etrans|lia].
Qed.

Lemma setup_cells h h' : same_but_cells h h' -> same_setup h h'.
Proof. by intros []. Qed.

Lemma flags_setup h h' : flags_ok h -> same_setup h h' -> (forall p, special p -> p ∈ hp_dps h' <-> p ∈ hp_dps h) -> flags_ok h'.
Proof. intros Hf [_ _ (E1 & _) (E2 & _) _ _] Hd. unfold flags_ok. rewrite E1, E2, !Hd; [done|by right|by left]. Qed.

(** A property of every cell of the heap that does not depend on being enabled. *)
Definition heap_all (P : hpa_dp -> Prop) h : Prop := forall k d, hp_dp_mem h !! HeapDp k = Some d -> P (noen d).

Lemma heap_all_noen P h h' : (forall k, noen <$> hp_dp_mem h' !! HeapDp k = noen <$> hp_dp_mem h !! HeapDp k) -> heap_all P h -> heap_all P h'.
Proof. intros Hc H k d' Hd'. specialize (Hc k). rewrite Hd' in Hc. symmetry in Hc. apply fmap_Some in Hc as (d & Hd & ->). by eapply H. Qed.

Lemma heap_all_shape P h h' : same_shape h h' -> heap_all P h -> heap_all P h'.
Proof. intros E. apply heap_all_noen. intros k. apply (f_equal (fun m => m !! HeapDp k)) in E. by rewrite !lookup_fmap in E. Qed.

Lemma heap_all_put P p d h h' : hp_dp_mem h' = <[p := d]> (hp_dp_mem h) -> P (noen d) -> heap_all P h -> heap_all P h'.
Proof. intros Hm Hd H k x. rewrite Hm. destruct (decide (HeapDp k = p)) as [<-|Hne]; [rewrite lookup_insert_eq; by intros [= <-]|rewrite lookup_insert_ne by done; apply H]. Qed.

Lemma heap_all_mem P h h' : hp_dp_mem h' = hp_dp_mem h -> heap_all P h -> heap_all P h'.
Proof. intros E. apply heap_all_noen. intros k. by rewrite E. Qed.

(** ** Coming *)

Lemma sum_list_fmap_ext (f g : dp_ptr -> nat) l : (forall q, q ∈ l -> f q = g q) -> sum_list (f <$> l) = sum_list (g <$> l).
Proof. intros H. f_equal. apply list_fmap_ext. intros i q Hq%list_elem_of_lookup_2. by apply H. Qed.

Lemma add_heap h d : hinv h -> hd_enabled d = false -> prefix_wf (hd_prefix d) -> hd_dhcp d = [] -> kind_ok h (HeapDp (hp_calls h)) d ->
  let p := HeapDp (hp_calls h) in
  exists h', dps_add p (put_dp p d (hp_called h)) = Some h' /\ hinv h' /\ h' = set_hp_dps (p :: hp_dps h) (put_dp p d (hp_called h)) /\ same_setup h h' /\ room h' = (room h + 48)%nat /\ p ∉ hp_dps h.
Proof.
  intros Hi He Hw Hl Hk p. assert (Hnone : hp_dp_mem h !! p = None).
  { destruct (hp_dp_mem h !! p) eqn:E; [|done]. destruct (hi_heap _ Hi (hp_calls h)); [by eexists|lia]. }
  assert (Hnot : p ∉ hp_dps h) by (intros [? Hc]%(hi_cell _ Hi); congruence). assert (Hns : ~ special p) by (by intros [?|?]).
  assert (Hne : forall q x, hp_dp_mem h !! q = Some x -> q ≠ p) by (intros q x Hq ->; congruence).
  unfold dps_add. cbn [put_dp set_hp_dp_mem hp_called set_hp_calls hp_dps]. rewrite decide_False by done. eexists. split; [done|].
  destruct (maps_ext (hp_dp_mem h) (<[p := d]> (hp_dp_mem h))) as [E1 E2].
  { intros q. rewrite view_insert. case_decide as E; [subst|done]. unfold view. rewrite Hnone. cbn. unfold core_view. rewrite He, decide_False; [done|]. intros [? _]; congruence. }
  split; [|split; [done|split; [by split; try done; cbn; lia|split; [|done]]]].
  - split; try apply Hi; cbn [set_hp_dps put_dp set_hp_dp_mem hp_called set_hp_calls hp_dp_mem hp_dps hp_calls hp_log].
    + constructor; [done|apply Hi].
    + intros q [->|Hq]%elem_of_cons; [rewrite lookup_insert_eq; by eexists|]. destruct (hi_cell _ Hi q Hq) as [x Hx]. rewrite lookup_insert_ne; [by eexists|]. intros <-. by eapply Hne.
    + intros q Hq. rewrite lookup_insert_ne by (intros <-; by apply Hns). by apply Hi.
    + intros k. destruct (decide (HeapDp k = p)) as [E|E]; [injection E as ->; intros _; split; [by left|lia]|]. rewrite lookup_insert_ne by done. intros Hk'. destruct (hi_heap _ Hi k Hk'). split; [by right|lia].
    + intros q x. destruct (decide (q = p)) as [->|E]; [rewrite lookup_insert_eq; by intros [= <-]|rewrite lookup_insert_ne by done; apply Hi].
    + intros q x Hq [E Hq2]%not_elem_of_cons. rewrite lookup_insert_ne in Hq by done. by eapply hi_off.
    + intros q x Hq [->|Hin]%elem_of_cons; [rewrite lookup_insert_eq in Hq; by injection Hq as <-|].
      rewrite lookup_insert_ne in Hq by (intros <-; done). by apply (hi_kind _ Hi q x).
    + rewrite E1, E2. apply Hi.
  - unfold room. cbn [set_hp_dps put_dp set_hp_dp_mem hp_called set_hp_calls hp_dps hp_ifaces].
    set (h' := set_hp_dps _ _). change (sum_list (heap_room h' <$> p :: hp_dps h)) with (heap_room h' p + sum_list (heap_room h' <$> hp_dps h))%nat.
    assert (heap_room h' p = 48%nat) as -> by (unfold heap_room, h'; cbn; rewrite lookup_insert_eq; cbn; unfold dp_room; by rewrite Hl).
    rewrite (sum_list_fmap_ext (heap_room h') (heap_room h)); [lia|]. intros q Hq. unfold heap_room, h'. cbn. rewrite lookup_insert_ne; [done|]. by intros <-.
Qed.

(** ** Going *)

Lemma del_heap h k d : hinv h -> hp_dp_mem h !! HeapDp k = Some d -> hd_enabled d = false ->
  let p := HeapDp k in
  exists h', (h ← dps_del p h; dp_free p h) = Some h' /\ hinv h' /\ h' = set_hp_dp_mem (delete p (hp_dp_mem h)) (set_hp_dps (without p (hp_dps h)) h) /\ (room h' <= room h)%nat.
Proof.
  intros Hi Hd He p. assert (Hin : p ∈ hp_dps h) by (apply (hi_heap _ Hi k); by eexists). unfold dps_del. rewrite decide_True by done. cbn [mbind option_bind]. unfold dp_free, p.
  cbn [set_hp_dps hp_dp_mem]. rewrite Hd. cbn [mbind option_bind]. fold p. eexists. split; [done|].
  destruct (maps_ext (hp_dp_mem h) (delete p (hp_dp_mem h))) as [E1 E2].
  { intros q. rewrite view_delete. case_decide as E; [subst|done]. unfold view, p. rewrite Hd. cbn. unfold core_view. rewrite He, decide_False; [done|]. intros [? _]; congruence. }
  assert (Hne : forall q x, delete p (hp_dp_mem h) !! q = Some x -> q ≠ p /\ hp_dp_mem h !! q = Some x) by (intros q x [? ?]%lookup_delete_Some; done).
  split; [|split; [done|]].
  - split; try apply Hi; cbn [set_hp_dps set_hp_dp_mem hp_dp_mem hp_dps hp_log hp_calls].
    + apply NoDup_filter, Hi.
    + intros q [Hq Hq2]%elem_of_without. rewrite lookup_delete_ne by done. by apply (hi_cell _ Hi).
    + intros q Hq. rewrite lookup_delete_ne by (intros <-; by destruct Hq). by apply Hi.
    + intros k' [x [Hq Hx]%Hne]. destruct (hi_heap _ Hi k') as [? ?]; [by eexists|]. split; [|done]. by apply elem_of_without.
    + intros q x [Hq Hx]%Hne. by eapply hi_wf.
    + intros q x [Hq Hx]%Hne Hnot. apply (hi_off _ Hi q x Hx). intros Hq2. apply Hnot. by apply elem_of_without.
    + intros q x [Hq Hx]%Hne [_ Hq2]%elem_of_without. by apply (hi_kind _ Hi q x).
    + rewrite E1, E2. apply Hi.
  - unfold room. cbn [set_hp_dps set_hp_dp_mem hp_dps hp_ifaces]. set (h' := set_hp_dp_mem _ _).
    rewrite (sum_list_fmap_ext (heap_room h') (heap_room h) (without p (hp_dps h))).
    + pose proof (proj1 (sum_list_without (heap_room h) p (hp_dps h))). lia.
    + intros q [Hq _]%elem_of_without. unfold heap_room, h'. cbn. by rewrite lookup_delete_ne.
Qed.

Lemma dp_remove_spec k h : good h -> fits h -> HeapDp k ∈ hp_dps h ->
  exists h', dp_remove (HeapDp k) h = Some h' /\ good h' /\ same_setup h h' /\ hp_dps h' = without (HeapDp k) (hp_dps h) /\ (room h' <= room h)%nat /\
    hp_dp_mem h' !! HeapDp k = None /\ forall q, q ≠ HeapDp k -> noen <$> hp_dp_mem h' !! q = noen <$> hp_dp_mem h !! q.
Proof.
  intros [Hi Hfl _] Hf Hin. unfold dp_remove. destruct (hi_cell _ Hi _ Hin) as [d Hd].
  destruct (set_enabled_spec (HeapDp k) false h d Hi Hf Hd Hin) as (h1 & -> & Hi1 & Hs1 & Hm1 & _ & Hr1). cbn [mbind option_bind].
  destruct (del_heap h1 k (set_hd_enabled false d) Hi1) as (h2 & E2 & Hi2 & Eh2 & Hr2); [rewrite Hm1; apply lookup_insert_eq|done|].
  apply bind_Some in E2 as (h1' & -> & E2). cbn [mbind option_bind]. rewrite E2. cbn [mbind option_bind].
  destruct (update_enabled_spec h2 Hi2) as (h3 & -> & Hi3 & Hs3 & Hsh3 & Hr3 & _ & Hset3); [unfold fits in *; lia|].
  exists h3. split; [done|]. assert (Hsu : same_setup h h3) by (etrans; [by apply setup_cells|]; etrans; [|by apply (setup_cells h2)]; by rewrite Eh2).
  assert (Hd3 : hp_dps h3 = without (HeapDp k) (hp_dps h)) by (rewrite (sb_dps _ _ Hs3), Eh2; cbn; by rewrite (sb_dps _ _ Hs1)).
  assert (Hc : forall q, noen <$> hp_dp_mem h3 !! q = noen <$> hp_dp_mem h2 !! q) by (intros q; apply (f_equal (fun m => m !! q)) in Hsh3; by rewrite !lookup_fmap in Hsh3).
  split; [split; [done| |done]|].
  { apply (flags_setup h); [done|done|]. intros q Hq. rewrite Hd3, elem_of_without. split; [by intros []|]. intros Hq2. split; [|done]. intros ->. by destruct Hq. }
  split; [done|]. split; [done|]. split; [lia|]. split.
  - specialize (Hc (HeapDp k)). rewrite Eh2 in Hc. cbn in Hc. rewrite lookup_delete_eq in Hc. cbn in Hc. by destruct (hp_dp_mem h3 !! HeapDp k).
  - intros q Hq. rewrite Hc, Eh2. cbn. rewrite lookup_delete_ne by done. by rewrite Hm1, lookup_insert_ne.
Qed.
(** ** Finding *)

Lemma get_local_spec h x dps : well_formed h dps -> prefix_wf x ->
  exists r, get_local_loop h x dps = Some r /\
    match r with
    | Some p => p ∈ dps /\ exists d, hp_dp_mem h !! p = Some d /\ hd_type d = HPA_DP_T_IFACE /\ dp_bits d = pbits x
    | None => forall p d, p ∈ dps -> hp_dp_mem h !! p = Some d -> hd_type d = HPA_DP_T_IFACE -> dp_bits d ≠ pbits x
    end.
Proof.
  intros Hw Hx. induction dps as [|p dps IH]; cbn [get_local_loop]; [exists None; split; [done|]; by intros p d ?%not_elem_of_nil|].
  destruct (Hw p) as (d & Hd & Hwd); [by left|]. rewrite Hd. cbn [mbind option_bind].
  destruct IH as (r & -> & Hr); [intros q Hq; apply Hw; by right|]. destruct (prefix_cmp_bits (hd_prefix d) x Hwd Hx) as (c & -> & Hc). cbn [mbind option_bind].
  destruct (decide (hd_type d = HPA_DP_T_IFACE)) as [Ht|Ht]; cbn [mbind option_bind]; [case_bool_decide as Ec|].
  - exists (Some p). split; [done|]. split; [by left|]. exists d. split_and!; try done. by apply Hc.
  - exists r. split; [done|]. destruct r as [q|]; [destruct Hr; split; [by right|done]|]. intros q e [->|Hq]%elem_of_cons He Hte Hb; [|by eapply Hr]. assert (e = d) as -> by congruence. by apply Ec, Hc.
  - exists r. split; [done|]. destruct r as [q|]; [destruct Hr; split; [by right|done]|]. intros q e [->|Hq]%elem_of_cons He Hte Hb; [|by eapply Hr]. congruence.
Qed.

Lemma get_hncp_spec h x ni dps : well_formed h dps -> prefix_wf x ->
  exists r, get_hncp_loop h x ni dps = Some r /\
    match r with
    | Some p => p ∈ dps /\ exists d, hp_dp_mem h !! p = Some d /\ hd_type d = HPA_DP_T_HNCP /\ dp_bits d = pbits x /\ hd_node_id d = ni
    | None => forall p d, p ∈ dps -> hp_dp_mem h !! p = Some d -> hd_type d = HPA_DP_T_HNCP -> dp_bits d = pbits x -> hd_node_id d ≠ ni
    end.
Proof.
  intros Hw Hx. induction dps as [|p dps IH]; cbn [get_hncp_loop]; [exists None; split; [done|]; by intros p d ?%not_elem_of_nil|].
  destruct (Hw p) as (d & Hd & Hwd); [by left|]. rewrite Hd. cbn [mbind option_bind].
  destruct IH as (r & -> & Hr); [intros q Hq; apply Hw; by right|]. destruct (prefix_cmp_bits (hd_prefix d) x Hwd Hx) as (c & -> & Hc). cbn [mbind option_bind].
  destruct (decide (hd_type d = HPA_DP_T_HNCP)) as [Ht|Ht]; cbn [mbind option_bind]; [destruct (_ && _) eqn:Ec|].
  - apply andb_true_iff in Ec as [Ec%bool_decide_eq_true En%bool_decide_eq_true]. exists (Some p). split; [done|]. split; [by left|]. exists d. split_and!; try done. by apply Hc.
  - exists r. split; [done|]. destruct r as [q|]; [destruct Hr; split; [by right|done]|]. intros q e [->|Hq]%elem_of_cons He Hte Hb; [|by eapply Hr]. assert (e = d) as -> by congruence.
    intros En. apply andb_false_iff in Ec as [Ec%bool_decide_eq_false|Ec%bool_decide_eq_false]; [|done]. by apply Ec, Hc.
  - exists r. split; [done|]. destruct r as [q|]; [destruct Hr; split; [by right|done]|]. intros q e [->|Hq]%elem_of_cons He Hte Hb; [|by eapply Hr]. congruence.
Qed.

(** ** Excluded prefixes *)

Definition excl_ok d : Prop := hd_excluded d = true -> prefix_wf (hd_excluded_prefix d).

Definition with_excluded (x : option prefix) d : hpa_dp :=
  match x with
  | None => set_hd_excluded false d
  | Some x => set_hd_excluded_prefix x (set_hd_excluded true d)
  end.

(** The rule of the core follows the excluded prefix. *)
Lemma core_exclude log m p d x : core_after log = Some (enabled_map m, rules_map m) -> m !! p = Some d -> hd_type d = HPA_DP_T_IFACE ->
  core_after ((log ++ (if hd_excluded d && hd_enabled d then [EvRuleDel p] else [])) ++ (match x with Some y => if hd_enabled d then [EvRuleAdd p y] else [] | None => [] end)) =
    Some (enabled_map (<[p := with_excluded x d]> m), rules_map (<[p := with_excluded x d]> m)).
Proof.
  intros Hlog Hd Ht. assert (Hv : view m p = core_view d) by (unfold view; by rewrite Hd).
  assert (Een : enabled_map (<[p := with_excluded x d]> m) = enabled_map m).
  { apply map_eq. intros q. rewrite !enabled_map_view, view_insert. case_decide; [|done]. subst. rewrite Hv. by destruct x. }
  rewrite Een, rules_map_insert.
  assert (H1 : core_after (log ++ (if hd_excluded d && hd_enabled d then [EvRuleDel p] else [])) = Some (enabled_map m, delete p (rules_map m))).
  { assert (Hr : rules_map m !! p = if decide (excludes d) then Some (hd_excluded_prefix d) else None) by (by rewrite rules_map_view, Hv). unfold excludes in Hr.
    destruct (hd_excluded d && hd_enabled d) eqn:E.
    - apply andb_true_iff in E as [E1 E2]. rewrite core_after_snoc, Hlog. cbn [core_step mbind option_bind]. rewrite decide_True in Hr by done. by rewrite decide_False by (by rewrite Hr).
    - rewrite app_nil_r, Hlog. rewrite decide_False in Hr by (intros (E1 & _ & E2); by rewrite E1, E2 in E). by rewrite delete_id. }
  destruct x as [y|]; cbn [with_excluded].
  - destruct (hd_enabled d) eqn:E.
    + rewrite core_after_snoc, H1. cbn [core_step mbind option_bind]. rewrite decide_True by apply lookup_delete_eq. rewrite decide_True by done. by rewrite insert_delete_eq.
    + rewrite app_nil_r, H1. rewrite decide_False; [done|]. intros (E1 & _). cbn in E1. congruence.
  - rewrite app_nil_r, H1. rewrite decide_False; [done|]. by intros (_ & _ & ?).
Qed.

Lemma update_excluded_spec k x h d : hinv h -> hp_dp_mem h !! HeapDp k = Some d -> hd_type d = HPA_DP_T_IFACE -> excl_ok d -> (forall y, x = Some y -> prefix_wf y) ->
  exists h' d', hpa_dp_update_excluded (HeapDp k) x h = Some h' /\ hinv h' /\ same_but_cells h h' /\ room h' = room h /\ hp_dp_mem h' = <[HeapDp k := d']> (hp_dp_mem h) /\
    excl_ok d' /\ dp_key d' = dp_key d /\ hd_enabled d' = hd_enabled d /\ hd_excluded d' = bool_decide (is_Some x) /\ (forall y, x = Some y -> pbits (hd_excluded_prefix d') = pbits y).
Proof.
  intros Hi Hd Ht Hex Hx. unfold hpa_dp_update_excluded. rewrite Hd. cbn [mbind option_bind].
  assert (Hsame : exists b, match x with None => Some (negb (hd_excluded d)) | Some x => if hd_excluded d then c ← prefix_cmp x (hd_excluded_prefix d); Some (bool_decide (c = 0)) else Some false end = Some b /\
    (b = true -> hd_excluded d = bool_decide (is_Some x) /\ forall y, x = Some y -> pbits (hd_excluded_prefix d) = pbits y)).
  { destruct x as [y|]; [|eexists; split; [done|]; intros E; split; [by destruct (hd_excluded d)|done]]. destruct (hd_excluded d) eqn:E; [|by exists false].
    destruct (prefix_cmp_bits y (hd_excluded_prefix d) (Hx y eq_refl) (Hex E)) as (c & -> & Hc). cbn [mbind option_bind]. eexists. split; [done|]. intros ->%bool_decide_eq_true. split; [done|]. intros z [= <-]. symmetry. by apply Hc. }
  destruct Hsame as (b & -> & Hb). cbn [mbind option_bind]. destruct b.
  { destruct (Hb eq_refl). exists h, d. split_and!; try done. by rewrite insert_id. }
  set (h1 := if hd_excluded d && hd_enabled d then _ else h).
  assert (E1 : h1 = set_hp_log (hp_log h ++ (if hd_excluded d && hd_enabled d then [EvRuleDel (HeapDp k)] else [])) h) by (unfold h1; destruct (_ && _); [done|]; rewrite app_nil_r; by destruct h).
  set (es := match x with Some y => if hd_enabled d then [EvRuleAdd (HeapDp k) y] else [] | None => [] end).
  set (h' := set_hp_log (hp_log h1 ++ es) (put_dp (HeapDp k) (with_excluded x d) h1)).
  exists h', (with_excluded x d). split.
  { unfold h', es, with_excluded, hp_emit. destruct x as [y|]; [destruct (hd_enabled d) eqn:E; change (hd_enabled (set_hd_excluded (bool_decide (is_Some (Some y))) d)) with (hd_enabled d); rewrite E|]; try done; by rewrite app_nil_r. }
  assert (Hs : same_but_cells h h') by (unfold h'; rewrite E1; by split). assert (Hm : hp_dp_mem h' = <[HeapDp k := with_excluded x d]> (hp_dp_mem h)) by (unfold h'; rewrite E1; done).
  assert (Hlen : hd_dhcp (with_excluded x d) = hd_dhcp d) by (by destruct x). pose proof (core_exclude (hp_log h) (hp_dp_mem h) (HeapDp k) d x (hi_core _ Hi) Hd Ht) as Hcore.
  assert (Hrest : excl_ok (with_excluded x d) /\ dp_key (with_excluded x d) = dp_key d /\ hd_enabled (with_excluded x d) = hd_enabled d /\
    hd_excluded (with_excluded x d) = bool_decide (is_Some x) /\ (forall y, x = Some y -> pbits (hd_excluded_prefix (with_excluded x d)) = pbits y)).
  { destruct x as [y|]; (split; [|split; [done|split; [done|split; [done|]]]]); [intros _; by apply Hx|by intros z [= <-]|done|done]. }
  split; [|split; [done|split; [|split; [done|exact Hrest]]]].
  2: { rewrite <- (room_put (HeapDp k) d (with_excluded x d) h Hd Hlen). apply room_refreshed; [unfold h'; rewrite E1; by split|exact Hm]. }
  split; rewrite ?(sb_dps _ _ Hs), ?(sb_ifaces _ _ Hs), ?(sb_conf _ _ Hs), ?Hm; try apply Hi.
  - intros q Hq. destruct (decide (q = HeapDp k)) as [->|]; [rewrite lookup_insert_eq; by eexists|rewrite lookup_insert_ne by done; by apply Hi].
  - intros q Hq. rewrite lookup_insert_ne by (intros <-; by destruct Hq). by apply Hi.
  - intros j Hj. unfold h'. rewrite E1. apply (hi_heap _ Hi). destruct (decide (HeapDp j = HeapDp k)) as [->|]; [by eexists|by rewrite lookup_insert_ne in Hj by done].
  - intros q e. destruct (decide (q = HeapDp k)) as [->|]; [rewrite lookup_insert_eq; intros [= <-]; destruct x; exact (hi_wf _ Hi _ _ Hd)|rewrite lookup_insert_ne by done; apply Hi].
  - intros q e. destruct (decide (q = HeapDp k)) as [->|]; [rewrite lookup_insert_eq; intros [= <-] Hq; destruct x; exact (hi_off _ Hi _ _ Hd Hq)|rewrite lookup_insert_ne by done; apply Hi].
  - intros q e He Hq. apply (kind_flag h h'); [apply Hs|]. destruct (decide (q = HeapDp k)) as [->|]; [|rewrite lookup_insert_ne in He by done; by apply Hi].
    rewrite lookup_insert_eq in He. injection He as <-. pose proof (hi_kind _ Hi _ _ Hd Hq) as Hk. unfold kind_ok in *. by destruct x.
  - unfold h'. rewrite E1. exact Hcore.
  - unfold h'. rewrite E1. apply Hi.
  - unfold h'. rewrite E1. apply Hi.
Qed.
End heap.
