(* ===== verification/HncpPaOps.v ===== *)
(** The operations on delegated prefixes as one step function: every step is defined and
    keeps what the core knows, the choice of enabled prefixes, and the timers right. *)
From S2P Require Import Prelude Bitops Prefix Tlv DnsUtil BtrieWf PaTrie PaCore PaFacts PaInv PaStore PaStoreInv PaStoreCache PaStoreLinks PaStoreText PaStoreFile PaStoreOps DncpNotify DncpIndex DncpState Dncp DncpFacts DncpPrune DncpInv DncpTrustFacts Hncp HncpRouting HncpPa HncpPaEc HncpPaInv HncpPaEnable HncpPaLocal HncpPaHeap.

(** ** The link of the local prefix stays in the store *)

Section users.
Context `{SH : !StoreHost, HOK : !StoreHostOk}.
Implicit Types (st : pa_store) (k : link_ptr).

(** A link of a user with what does not change in it. *)
Definition has_user k (f : option nat * list Z * Z) st : Prop := fixed_mem st !! k = Some f /\ f.1.1 ≠ None.

Lemma has_user_mem k f st st' : link_mem st' = link_mem st -> has_user k f st -> has_user k f st'.
Proof. unfold has_user, fixed_mem. by intros ->. Qed.

Lemma has_user_put k f k' l l' st : has_user k f st -> link_mem st !! k' = Some l -> fixed l' = fixed l -> has_user k f (put_link k' l' st).
Proof.
  intros [H1 H2] Hl E. split; [|done]. unfold fixed_mem, put_link in *. cbn. rewrite fmap_insert, E, insert_id; [done|]. by rewrite lookup_fmap, Hl.
Qed.

Lemma updated_link_mem st : link_mem (pa_store_updated st) = link_mem st.
Proof. unfold pa_store_updated. by destruct (_ && _). Qed.

Lemma uncache_user k f k' p st st' : pa_store_uncache k' p st = Some st' -> has_user k f st -> has_user k f st'.
Proof.
  unfold pa_store_uncache. intros (l & Hl & E)%bind_Some Hu. apply bind_Some in E as (ps & _ & E). cbv zeta in E. apply bind_Some in E as (e & _ & [= <-]).
  set (l1 := set_sl_n_prefixes _ _). set (st1 := set_st_n_prefixes _ _). assert (H1 : has_user k f st1) by (eapply has_user_put; [exact Hu|exact Hl|done]).
  assert (Hl1 : link_mem st1 !! k' = Some l1) by apply lookup_insert_eq.
  eapply has_user_mem; [apply updated_link_mem|]. destruct (_ && _) eqn:E; [|done]. apply andb_true_iff in E as [_ E%bool_decide_eq_true].
  destruct H1 as [H1 H2]. split; [|done]. unfold fixed_mem, pa_store_private_link_destroy. cbn [set_prefix_mem link_mem set_st_links set_link_mem].
  rewrite fmap_delete. rewrite lookup_delete_ne; [exact H1|]. intros ->. apply H2. unfold fixed_mem in H1. rewrite lookup_fmap, Hl1 in H1. injection H1 as <-. exact E.
Qed.

Lemma cache_user k f k' x n st st' r : pa_store_cache k' x n st = Some (st', r) -> has_user k f st -> has_user k f st'.
Proof.
  unfold pa_store_cache. intros (l & Hl & E)%bind_Some Hu. apply bind_Some in E as (ps & _ & E). apply bind_Some in E as ([p|] & _ & E).
  - cbv zeta in E. case_decide; injection E as <- _; [done|]. eapply has_user_mem; [apply updated_link_mem|]. by eapply (has_user_put k f k' l).
  - destruct (store_malloc (st_calls st)) as [mem|]; [|by injection E as <- _]. cbv zeta in E. apply bind_Some in E as (y & _ & E). apply bind_Some in E as (st2 & E2 & E). apply bind_Some in E as (st3 & E3 & [= <- _]).
    eapply has_user_mem; [apply updated_link_mem|]. set (st1 := set_st_n_prefixes _ _) in E2. assert (H1 : has_user k f st1) by (eapply has_user_put; [exact Hu|exact Hl|done]).
    assert (H2 : has_user k f st2).
    { clear E3. destruct (_ && _); [|by injection E2 as <-]. unfold pa_store_uncache_last_from_link in E2. apply bind_Some in E2 as (q & _ & E2). by eapply uncache_user. }
    clear E2. destruct (_ && _); [|by injection E3 as <-]. unfold pa_store_uncache_last_from_store in E3. apply bind_Some in E3 as (q & _ & E3). apply bind_Some in E3 as (k2 & _ & E3). by eapply uncache_user.
Qed.

Lemma load_line_user k f line st st' e : load_line line st = Some (st', e) -> has_user k f st -> ~ own k -> has_user k f st'.
Proof.
  intros E Hu Hk. unfold load_line in E. destruct (_ !! 0%nat) as [w0|]; [|by injection E as <- _]. destruct (is_comment w0); [by injection E as <- _|].
  case_decide; [|case_decide; by injection E as <- _]. destruct (_ !! 1%nat) as [w1|]; [|by injection E as <- _]. destruct (_ !! 2%nat) as [w2|]; [|by injection E as <- _].
  destruct (match _ !! 3%nat with Some _ => _ | None => _ end); [by injection E as <- _|]. apply bind_Some in E as ([[ok px] n] & _ & E).
  case_decide; [by injection E as <- _|]. case_decide; [by injection E as <- _|]. apply bind_Some in E as ([st1 l] & E1 & E).
  assert (Hu1 : has_user k f st1).
  { unfold pa_store_link_goc in E1. apply bind_Some in E1 as ([k1|] & _ & E1); [by injection E1 as <- _|]. cbn [negb] in E1. destruct (store_malloc _); [|by injection E1 as <- _].
    case_decide; [done|]. injection E1 as <- _. destruct Hu as [Hf Hl]. split; [|done]. unfold fixed_mem. cbn. rewrite fmap_insert, lookup_insert_ne; [exact Hf|]. by intros <-. }
  destruct l as [k1|]; [|by injection E as <- _]. apply bind_Some in E as ([st2 r] & E2 & [= <- _]). by eapply cache_user.
Qed.

Lemma load_lines_user k f lines : forall err st st' r, load_lines lines err st = Some (st', r) -> has_user k f st -> ~ own k -> has_user k f st'.
Proof.
  induction lines as [|line lines IH]; intros err st st' r E Hu Hk; cbn [load_lines] in E; [by injection E as <- _|]. apply bind_Some in E as ([st1 e] & E1 & E).
  eapply IH; [exact E| |done]. by eapply load_line_user.
Qed.

Lemma load_user k f path st st' r : pa_store_load path st = Some (st', r) -> has_user k f st -> ~ own k -> has_user k f st'.
Proof. unfold pa_store_load. destruct (open_read path st); [|by intros [= <- _]]. intros E Hu. by eapply load_lines_user. Qed.

Lemma set_file_links path d1 d2 st : link_mem (fst (pa_store_set_file path d1 d2 st)) = link_mem st.
Proof. unfold pa_store_set_file. destruct (negb _); [done|]. destruct (open_read _ _); [|done]. by destruct (read_tokens _ _). Qed.

Lemma store_fine_user st : store_fine st <-> exists G f, store_is st G /\ has_user store_ula f st /\ f.2 = 1.
Proof.
  split.
  - intros (G & l & Hi & Hl & Hm). exists G, (fixed l). split; [done|]. assert (Hf : fixed_mem st !! store_ula = Some (fixed l)) by (apply fixed_lookup; by exists l).
    split; [|done]. split; [done|]. unfold fixed in *. intros E. by apply (lo_own _ (si_links _ _ Hi) _ _ _ _ Hf) in E.
  - intros (G & f & Hi & [(l & Hl & <-)%fixed_lookup _] & Hm). by exists G, l.
Qed.

Lemma storage_set_fine path st : store_fine st -> exists st1 r, pa_store_load path st = Some (st1, r) /\ forall d1 d2, store_fine (fst (pa_store_set_file path d1 d2 st1)).
Proof.
  intros (G & f & Hi & Hu & Hm)%store_fine_user. destruct (store_load_spec path st G Hi) as (st1 & G1 & r & E & Hi1 & _). exists st1, r. split; [done|]. intros d1 d2. apply store_fine_user.
  exists G1, f. split; [by apply set_file_is|]. split; [|done]. eapply has_user_mem; [apply set_file_links|]. eapply load_user; [exact E|done|]. by intros [].
Qed.
End users.

Section ops.
Context `{DX : !DncpExt, DC : !DncpCallbacks, SH : !StoreHost, HH : !HpaHost, DP : !Passive, EP : !EcPassive, QS : !QSort hpa_qsort, HOK : !StoreHostOk}.
Implicit Types (h : hpa) (p q : dp_ptr) (d : hpa_dp) (i : hpa_iface).

(** ** The invariant between operations *)

Definition v4_alarm h : Prop := v4_enabled h = true \/ v4_backoff h ≠ 0 -> is_Some (v4_to h).
Definition ula_alarm h : Prop := ula_enabled h = true \/ ula_backoff h ≠ 0 -> is_Some (ula_to h).

Definition backoff_ok h (b : Z) : Prop := b ≠ 0 -> b < hp_time h + 10 + HPA_ULA_MAX_BACKOFF.

Definition no_remote_ula d : Prop := hd_type d = HPA_DP_T_HNCP -> is_ula (hd_prefix d) = false.

Record winv h : Prop := {
  wi_good : good h;
  wi_v4 : v4_alarm h;
  wi_ula : ula_alarm h;
  wi_v4_backoff : backoff_ok h (v4_backoff h);
  wi_ula_backoff : backoff_ok h (ula_backoff h);
  wi_excl : heap_all excl_ok h;
  wi_only : ula_enabled h = true -> heap_all no_remote_ula h
}.

(** The part that [hpa_ula_to] restores may be missing. *)
Record almost h : Prop := {
  al_good : good h;
  al_v4 : v4_alarm h;
  al_ula : ula_alarm h;
  al_v4_backoff : backoff_ok h (v4_backoff h);
  al_ula_backoff : backoff_ok h (ula_backoff h);
  al_excl : heap_all excl_ok h
}.

Lemma winv_almost h : winv h -> almost h.
Proof. by intros []. Qed.

Lemma almost_winv h : almost h -> (ula_enabled h = true -> heap_all no_remote_ula h) -> winv h.
Proof. by intros []. Qed.

(** Timers, backoffs and flags as before, perhaps later. *)
Definition same_timers h h' : Prop :=
  (v4_enabled h' = v4_enabled h /\ v4_backoff h' = v4_backoff h /\ v4_to h' = v4_to h) /\
  (ula_enabled h' = ula_enabled h /\ ula_backoff h' = ula_backoff h /\ ula_to h' = ula_to h) /\ hp_time h <= hp_time h'.

Lemma setup_timers h h' : same_setup h h' -> same_timers h h'.
Proof. intros [_ _ ? ? Hc _]. split; [done|]. split; [done|]. unfold hp_time. rewrite (calm_clock _ _ Hc). lia. Qed.

Lemma almost_step h h' : almost h -> good h' -> same_timers h h' -> heap_all excl_ok h' -> almost h'.
Proof.
  intros [H1 H2 H3 H4 H5 H6] Hg ((E1 & E2 & E3) & (E4 & E5 & E6) & Ht) Hx. split; try done; unfold v4_alarm, ula_alarm, backoff_ok in *; rewrite ?E1, ?E2, ?E3, ?E4, ?E5, ?E6; try done; lia.
Qed.

Lemma winv_step h h' : winv h -> good h' -> same_timers h h' -> heap_all excl_ok h' -> (heap_all no_remote_ula h -> heap_all no_remote_ula h') -> winv h'.
Proof.
  intros Hw Hg Ht Hx Hu. apply almost_winv; [by apply (almost_step h); [apply winv_almost|..]|]. destruct Ht as (_ & (-> & _) & _). intros He. by apply Hu, Hw.
Qed.

(** Nothing that the conditions on the heap depend on has changed. *)
Lemma winv_cells h h' : winv h -> good h' -> same_timers h h' -> (forall k, noen <$> hp_dp_mem h' !! HeapDp k = noen <$> hp_dp_mem h !! HeapDp k) -> winv h'.
Proof. intros Hw Hg Ht Hc. apply (winv_step h); try done; [|by apply heap_all_noen]. eapply heap_all_noen; [exact Hc|apply Hw]. Qed.

Lemma rem_backoff x : Z.rem x HPA_ULA_MAX_BACKOFF < HPA_ULA_MAX_BACKOFF.
Proof. pose proof (Z.rem_bound_abs x HPA_ULA_MAX_BACKOFF). unfold HPA_ULA_MAX_BACKOFF in *. lia. Qed.

Lemma keeps_time p h h' : keeps_other p h h' -> hp_time h' = hp_time h.
Proof. intros [[] _ _ _]. by apply calm_clock. Qed.

(** ** The timers *)

Lemma ula_to_winv h : good h -> fits h -> v4_alarm h -> backoff_ok h (v4_backoff h) -> backoff_ok h (ula_backoff h) -> heap_all excl_ok h ->
  exists h' b, hpa_ula_to h = Some h' /\ winv h' /\ room h' = room h /\ (b = true <-> no_ula h) /\ ula_outcome h b h' /\ keeps_other UlaDp h h'.
Proof.
  intros Hg Hf Ha Hb1 Hb2 Hx. destruct (ula_to_spec h Hg Hf) as (h' & b & E & Hb & Hg' & Hk & Ho & Ha'). exists h', b. split; [done|].
  pose proof (keeps_time _ _ _ Hk) as Et. pose proof (ko_flag _ _ _ Hk) as Efl. destruct (ko_clocks _ _ _ Hk) as [Eto Ebo].
  split; [|split; [apply Hk|done]]. split; [done| |exact Ha'| | | |].
  - unfold v4_alarm in *. cbn in Efl. by rewrite Efl, Eto, Ebo.
  - unfold backoff_ok in *. by rewrite Ebo, Et.
  - unfold backoff_ok in *. rewrite Et. unfold ula_outcome in Ho. destruct b; [|destruct (bool_decide _)].
    + destruct Ho as [_ ->]. by destruct (ula_enabled h).
    + destruct Ho as [_ ->]. by destruct (ula_enabled h).
    + destruct Ho as (_ & H1 & H2). pose proof (rem_backoff (hpa_random (hp_calls h))). destruct (decide (ula_backoff h = 0)) as [E0|E0]; [rewrite (H2 E0); lia|rewrite (H1 E0); by apply Hb2].
  - eapply heap_all_noen; [|exact Hx]. apply Hk.
  - intros Hen. destruct b; [destruct Ho; congruence|]. apply (heap_all_noen _ h); [apply Hk|]. intros k d Hd Ht. destruct (is_ula (hd_prefix (noen d))) eqn:Eu; [|done].
    enough (Hn : no_ula h) by (apply Hb in Hn; discriminate). right. left. exists (HeapDp k), d. destruct (hi_heap _ (gd_inv _ Hg) k) as [Hin _]; [by eexists|]. split; [done|]. split; [done|]. split; [|done].
    change (hd_type (noen d)) with (hd_type d) in Ht. rewrite Ht. done.
Qed.

Lemma v4_to_winv h : good h -> fits h -> ula_alarm h -> backoff_ok h (v4_backoff h) -> backoff_ok h (ula_backoff h) -> heap_all excl_ok h -> (ula_enabled h = true -> heap_all no_remote_ula h) ->
  exists h' b e, hpa_v4_to h = Some h' /\ v4_blocked h = Some (b, e) /\ winv h' /\ room h' = room h /\ v4_outcome h b e h' /\ keeps_other V4Dp h h'.
Proof.
  intros Hg Hf Ha Hb1 Hb2 Hx Hu. destruct (v4_to_spec h Hg Hf) as (h' & b & e & E & Hb & Hg' & Hk & Ho & Ha'). exists h', b, e. split; [done|]. split; [done|].
  pose proof (keeps_time _ _ _ Hk) as Et. pose proof (ko_flag _ _ _ Hk) as Efl. destruct (ko_clocks _ _ _ Hk) as [Eto Ebo].
  split; [|split; [apply Hk|done]]. split; [done|exact Ha'| | | | |].
  - unfold ula_alarm in *. cbn in Efl. by rewrite Efl, Eto, Ebo.
  - unfold backoff_ok in *. rewrite Et. unfold v4_outcome in Ho. destruct b; [|destruct (bool_decide _)].
    + by destruct Ho as [_ ->].
    + destruct Ho as [_ ->]. by destruct (v4_enabled h).
    + destruct Ho as (_ & H1 & H2). pose proof (rem_backoff (hpa_random (hp_calls h))). destruct (decide (v4_backoff h = 0)) as [E0|E0]; [rewrite (H2 E0); lia|rewrite (H1 E0); by apply Hb1].
  - unfold backoff_ok in *. by rewrite Ebo, Et.
  - eapply heap_all_noen; [|exact Hx]. apply Hk.
  - intros Hen. cbn in Efl. apply (heap_all_noen _ h); [apply Hk|]. apply Hu. congruence.
Qed.

Lemma v4_to_step h : winv h -> fits h -> exists h', hpa_v4_to h = Some h' /\ winv h' /\ room h' = room h.
Proof. intros [] Hf. destruct (v4_to_winv h) as (h' & b & e & E & _ & Hw & Hr & _); try done. by exists h'. Qed.

Lemma ula_to_step h : almost h -> fits h -> exists h', hpa_ula_to h = Some h' /\ winv h' /\ room h' = room h.
Proof. intros [] Hf. destruct (ula_to_winv h) as (h' & b & E & Hw & Hr & _); try done. by exists h'. Qed.

Lemma both_step h : almost h -> fits h -> exists h', (h ← hpa_ula_to h; hpa_v4_to h) = Some h' /\ winv h' /\ room h' = room h.
Proof.
  intros Ha Hf. destruct (ula_to_step h Ha Hf) as (h1 & -> & Hw1 & Hr1). cbn [mbind option_bind].
  destruct (v4_to_step h1 Hw1) as (h2 & -> & Hw2 & Hr2); [by apply (fits_room h)|]. exists h2. split; [done|]. split; [done|congruence].
Qed.

Lemma good_timers h t u : good h -> good (set_v4_to t h) /\ good (set_ula_to u h).
Proof. intros Hg. split; by apply (good_ext h). Qed.

Lemma timers_step h : winv h -> fits h -> (exists h', v4_timer h = Some h' /\ winv h') /\ (exists h', ula_timer h = Some h' /\ winv h').
Proof.
  intros [] Hf. split.
  - unfold v4_timer. destruct (v4_to_winv (set_v4_to None h)) as (h' & b & e & E & _ & Hw & _); try done; [by apply (good_timers h None None)|]. by exists h'.
  - unfold ula_timer. destruct (ula_to_winv (set_ula_to None h)) as (h' & b & E & Hw & _); try done; [by apply (good_timers h None None)|]. by exists h'.
Qed.

Lemma refresh_winv publish h : winv h -> fits h -> exists h', hpa_refresh_ec publish h = Some h' /\ winv h' /\ same_but_cells h h' /\ hp_dp_mem h' = hp_dp_mem h /\ room h' = room h.
Proof.
  intros Hw Hf. destruct (refresh_good publish h (wi_good _ Hw) Hf) as (h' & -> & Hg' & Hs & Hm & Hr). exists h'. split; [done|]. split; [|done].
  apply (winv_cells h); [done|done|by apply setup_timers, setup_cells|]. intros k. by rewrite Hm.
Qed.

(** ** Interfaces *)

(** Other interfaces, with all names that were there. *)
Lemma good_ifaces h h' : good h -> hp_dps h' = hp_dps h -> hp_dp_mem h' = hp_dp_mem h -> hp_conf h' = hp_conf h -> hp_log h' = hp_log h -> hp_store h' = hp_store h -> hp_dncp h' = hp_dncp h ->
  (hp_calls h <= hp_calls h')%nat -> v4_enabled h' = v4_enabled h -> ula_enabled h' = ula_enabled h ->
  NoDup (hi_name <$> hp_ifaces h') -> (forall n, is_Some (get_iface h n) -> is_Some (get_iface h' n)) -> good h'.
Proof.
  intros [Hi Hfl Hset] E1 E2 E3 E4 E5 E6 Hc E7 E8 Hn Hg. split; [|unfold flags_ok; by rewrite E1, E7, E8|by apply (settled_ext h)].
  split; rewrite ?E1, ?E2, ?E3, ?E4, ?E5, ?E6; try apply Hi; try done.
  - intros k Hk. destruct (hi_heap _ Hi k Hk). split; [done|lia].
  - intros p d Hd Hp. destruct (hi_kind _ Hi p d Hd Hp) as [(H1 & H2 & H3 & H4 & n & i & H5 & H6)|[H|H]]; [left|by right; left|by right; right].
    destruct (Hg n) as [j Hj]; [by exists i|]. split_and!; try done. by exists n, j.
Qed.

Lemma get_iface_cons i h n (l : list hpa_iface) : hp_ifaces h = i :: l -> get_iface h n = if decide (hi_name i = n) then Some i else get_iface (set_hp_ifaces l h) n.
Proof.
  intros E. unfold get_iface. rewrite E. cbn [list_find set_hp_ifaces hp_ifaces]. case_decide; [done|]. by destruct (list_find _ l) as [[]|].
Qed.

Lemma get_iface_None h n : get_iface h n = None -> n ∉ hi_name <$> hp_ifaces h.
Proof.
  unfold get_iface. intros H%fmap_None. apply list_find_None in H. intros (i & -> & Hi)%list_elem_of_fmap. rewrite Forall_forall in H. by apply (H i Hi).
Qed.

(** Between operations, [h'] follows [h] with other interfaces. *)
Definition same_dps h h' : Prop := hp_dps h' = hp_dps h /\ hp_dp_mem h' = hp_dp_mem h /\ hp_dncp h' = hp_dncp h.

Lemma goc_winv h name : winv h ->
  exists h' r, hpa_iface_goc h name true = (h', r) /\ winv h' /\ (room h' <= room h + 16)%nat /\ same_dps h h' /\ (forall i, r = Some i -> get_iface h' name = Some i).
Proof.
  intros Hw. unfold hpa_iface_goc. destruct (get_iface h name) as [i|] eqn:E; [exists h, (Some i); split_and!; try done; [lia|by intros j [= <-]]|]. cbn [negb].
  case_decide; [exists h, None; split_and!; try done; lia|]. destruct (hpa_calloc _); cbn [negb].
  2: { exists (hp_called h), None. split; [done|]. split; [|split_and!; try done; unfold hp_called, room, heap_room; cbn; lia]. apply (winv_cells h); [done|apply (good_ext h); try done; [apply Hw|cbn; lia]|by split_and!|done]. }
  set (i := mk_hpa_iface name [] [] false). set (h' := set_hp_ifaces _ _). exists h', (Some i). split; [done|].
  assert (Hget : forall n, get_iface h' n = if decide (name = n) then Some i else get_iface h n) by (intros n; by rewrite (get_iface_cons i h' n (hp_ifaces h))).
  split; [|split; [|split; [done|]]].
  - apply (winv_cells h); [done| |by split_and!|done]. apply (good_ifaces h); try done; [apply Hw|cbn; lia| |].
    + cbn. constructor; [by apply get_iface_None|apply (hi_names _ (gd_inv _ (wi_good _ Hw)))].
    + intros n Hn. rewrite Hget. case_decide; [by eexists|done].
  - unfold room, heap_room. cbn [h' set_hp_ifaces hp_called set_hp_calls hp_dps hp_dp_mem hp_ifaces]. change (sum_list (iface_room <$> i :: hp_ifaces h)) with (16 + sum_list (iface_room <$> hp_ifaces h))%nat. lia.
  - intros j [= <-]. rewrite Hget. by rewrite decide_True.
Qed.

Lemma put_iface_get i h n : get_iface (put_iface i h) n = if decide (hi_name i = n) then (fun _ => i) <$> get_iface h n else get_iface h n.
Proof.
  unfold get_iface, put_iface. cbn [set_hp_ifaces hp_ifaces]. induction (hp_ifaces h) as [|j l IH]; [by case_decide|]. cbn [fmap list_fmap list_find].
  destruct (decide (hi_name j = hi_name i)) as [E|E].
  - destruct (decide (hi_name i = n)) as [En|En]; [rewrite (decide_True (P := hi_name j = n)) by congruence; done|]. rewrite (decide_False (P := hi_name j = n)) by congruence.
    destruct (list_find _ (_ <$> l)) as [[]|], (list_find _ l) as [[]|]; cbn in *; try congruence.
  - destruct (decide (hi_name j = n)) as [Ej|Ej].
    + rewrite (decide_False (P := hi_name i = n)) by congruence. done.
    + destruct (decide (hi_name i = n)); destruct (list_find _ (_ <$> l)) as [[]|], (list_find _ l) as [[]|]; cbn in *; congruence.
Qed.

Lemma put_iface_names i h : hi_name <$> hp_ifaces (put_iface i h) = hi_name <$> hp_ifaces h.
Proof. unfold put_iface. cbn. rewrite <- list_fmap_compose. apply list_fmap_ext. intros _ j _. cbn. by case_decide. Qed.

Lemma put_iface_room i j h n : NoDup (hi_name <$> hp_ifaces h) -> get_iface h (hi_name i) = Some j -> (iface_room i <= iface_room j + n)%nat -> (room (put_iface i h) <= room h + n)%nat.
Proof.
  intros Hn Hj Hr. unfold room, heap_room. cbn [put_iface set_hp_ifaces hp_dps hp_dp_mem hp_ifaces].
  set (f := fun x : hpa_iface => if decide (hi_name x = hi_name i) then i else x). enough (sum_list (iface_room <$> (f <$> hp_ifaces h)) <= sum_list (iface_room <$> hp_ifaces h) + n)%nat by lia.
  unfold get_iface in Hj. revert Hn Hj. induction (hp_ifaces h) as [|x l IH]; intros Hn Hj; [cbn; lia|]. apply NoDup_cons in Hn as [Hx Hn]. cbn [list_find] in Hj.
  change (sum_list (iface_room <$> (f <$> x :: l))) with (iface_room (f x) + sum_list (iface_room <$> (f <$> l)))%nat.
  change (sum_list (iface_room <$> x :: l)) with (iface_room x + sum_list (iface_room <$> l))%nat.
  destruct (decide (hi_name x = hi_name i)) as [E|E].
  - injection Hj as ->. assert (El : f <$> l = l).
    { rewrite <- (list_fmap_id l) at 2. apply list_fmap_ext. intros k y Hy%list_elem_of_lookup_2. unfold f. rewrite decide_False; [done|]. intros Ey. apply Hx. rewrite E, <- Ey. by apply list_elem_of_fmap_2. }
    rewrite El. unfold f. rewrite decide_True by done. lia.
  - assert (Hj' : snd <$> list_find (fun k => hi_name k = hi_name i) l = Some j) by (by destruct (list_find _ l) as [[]|]). specialize (IH Hn Hj'). unfold f at 1. rewrite decide_False by done. lia.
Qed.

Lemma put_iface_winv i j h : winv h -> get_iface h (hi_name i) = Some j -> winv (put_iface i h).
Proof.
  intros Hw Hj. apply (winv_cells h); [done| |by split_and!|done]. apply (good_ifaces h); try done; [apply Hw|rewrite put_iface_names; apply (hi_names _ (gd_inv _ (wi_good _ Hw)))|].
  intros n Hn. rewrite put_iface_get. case_decide; [by apply fmap_is_Some|done].
Qed.

Lemma extdata_winv i data ipv6 h : winv h -> get_iface h (hi_name i) = Some i -> Z.of_nat (room h + length data) < 65536 ->
  exists h' j, hpa_update_extdata i data ipv6 h = Some h' /\ winv h' /\ (room h' <= room h + length data)%nat /\ get_iface h' (hi_name i) = Some j /\ hi_uplink j = hi_uplink i /\ hi_name j = hi_name i.
Proof.
  intros Hw Hi Hr. unfold hpa_update_extdata. case_decide; [exists h, i; split_and!; try done; lia|].
  destruct (replaced_spec data h) as (h1 & x & -> & Hx & Hs & Hm & Hst & Hlog).
  assert (Hw1 : winv h1).
  { apply (winv_cells h); [done| |by apply setup_timers, setup_cells|by intros k; rewrite Hm]. apply (good_cells h); [apply Hw|done| |apply (settled_ext h); try done; [apply Hw|apply Hs..]].
    apply (hinv_cells h); try done; [apply Hw|rewrite Hst; apply Hw|rewrite Hlog, Hm; apply (hi_core _ (gd_inv _ (wi_good _ Hw)))| |by rewrite Hm]. pose proof (gd_inv _ (wi_good _ Hw)) as Hiv.
    intros p d Hd. rewrite Hm in Hd. exists d. split_and!; try done; [|by apply (hi_off _ Hiv p d)|by apply (hi_kind _ Hiv p d)].
    intros Hp. destruct (hi_special _ Hiv p Hp) as (d' & Hd' & ? & _). congruence. }
  assert (Hi1 : get_iface h1 (hi_name i) = Some i) by (unfold get_iface in *; by rewrite (sb_ifaces _ _ Hs)). assert (Hr1 : room h1 = room h) by (by apply room_refreshed).
  set (i' := if ipv6 then set_hi_ext6 x i else set_hi_ext4 x i). assert (Ei : hi_name i' = hi_name i /\ hi_uplink i' = hi_uplink i) by (unfold i'; by destruct ipv6). destruct Ei as [En Eu].
  assert (Hlen : (length x <= length data)%nat) by (destruct Hx as [->| ->]; cbn; lia).
  assert (Hri : (iface_room i' <= iface_room i + length data)%nat) by (unfold i', iface_room; destruct ipv6; cbn; lia).
  assert (Hw2 : winv (put_iface i' h1)) by (apply (put_iface_winv i' i); [done|by rewrite En]).
  assert (Hr2 : (room (put_iface i' h1) <= room h + length data)%nat) by (rewrite <- Hr1; apply (put_iface_room i' i); [apply (hi_names _ (gd_inv _ (wi_good _ Hw1)))|by rewrite En|done]).
  destruct (refresh_winv true _ Hw2) as (h3 & -> & Hw3 & Hs3 & _ & Hr3); [unfold fits; lia|]. exists h3, i'. split; [done|]. split; [done|]. split; [lia|]. split; [|done].
  unfold get_iface. rewrite (sb_ifaces _ _ Hs3). fold (get_iface (put_iface i' h1) (hi_name i)). rewrite put_iface_get, decide_True by done. by rewrite Hi1.
Qed.

Lemma extdata_step name data h : winv h -> Z.of_nat (room h + 16 + length (default [] data)) < 65536 -> exists h', hpa_iface_extdata_cb name data h = Some h' /\ winv h'.
Proof.
  intros Hw Hr. unfold hpa_iface_extdata_cb. destruct (goc_winv h name Hw) as (h1 & r & -> & Hw1 & Hr1 & _ & Hi). destruct r as [i|]; [|by exists h1]. specialize (Hi i eq_refl).
  pose proof (get_iface_Some _ _ _ Hi) as [_ Hn]. destruct (extdata_winv i (default [] data) true h1 Hw1) as (h2 & j & -> & Hw2 & _); [by rewrite Hn|lia|]. by exists h2.
Qed.

Lemma ext4data_step name data h : winv h -> Z.of_nat (room h + 16 + length (default [] data)) < 65536 -> exists h', hpa_iface_ext4data_cb name data h = Some h' /\ winv h'.
Proof.
  intros Hw Hr. unfold hpa_iface_ext4data_cb. destruct (goc_winv h name Hw) as (h1 & r & -> & Hw1 & Hr1 & _ & Hi). destruct r as [i|]; [|by exists h1]. specialize (Hi i eq_refl).
  pose proof (get_iface_Some _ _ _ Hi) as [_ Hn]. destruct (extdata_winv i (default [] data) false h1 Hw1) as (h2 & j & -> & Hw2 & Hr2 & Hj & _ & Ej); [by rewrite Hn|lia|].
  cbn [mbind option_bind]. rewrite Hn in Hj, Ej. rewrite Hj. cbn [mbind option_bind]. case_decide; [|by exists h2]. set (j' := set_hi_uplink _ j).
  assert (Hj' : get_iface h2 (hi_name j') = Some j) by (change (hi_name j') with (hi_name j); by rewrite Ej).
  destruct (v4_to_step (put_iface j' h2)) as (h3 & -> & Hw3 & _); [by apply (put_iface_winv j' j)| |by exists h3].
  pose proof (put_iface_room j' j h2 0 (hi_names _ (gd_inv _ (wi_good _ Hw2))) Hj'). unfold fits. change (iface_room j') with (iface_room j) in *. lia.
Qed.

(** ** Delegated prefixes of interfaces *)

Lemma heap_cell h k d : hinv h -> hp_dp_mem h !! HeapDp k = Some d -> HeapDp k ∈ hp_dps h.
Proof. intros Hi Hd. apply (hi_heap _ Hi k). by eexists. Qed.

Lemma not_special k : ~ (HeapDp k = V4Dp \/ HeapDp k = UlaDp).
Proof. by intros [?|?]. Qed.

(** Lifetimes and DHCP data of a known delegated prefix. *)
Lemma dp_update_winv k pr v dhcp h d : winv h -> Z.of_nat (room h + length dhcp) < 65536 -> hp_dp_mem h !! HeapDp k = Some d ->
  exists h' x, hpa_dp_update (HeapDp k) pr v dhcp h = Some h' /\ winv h' /\ same_but_cells h h' /\ hp_dp_mem h' = <[HeapDp k := updated_dp pr v x d]> (hp_dp_mem h) /\ (room h' <= room h + length dhcp)%nat.
Proof.
  intros Hw Hr Hd. pose proof (wi_good _ Hw) as Hg. destruct (dp_update_spec (HeapDp k) pr v dhcp h d (gd_inv _ Hg) Hr Hd) as (h' & x & -> & Hi' & Hs & _ & Hm & Hr'); [by intros ?%not_special|].
  exists h', x. split; [done|]. split; [|done]. apply (winv_step h); [done| |by apply setup_timers, setup_cells| |].
  - apply (good_cells h); [done|done|done|]. by eapply settled_cell; [apply Hg|..].
  - eapply heap_all_put; [exact Hm| |apply Hw]. apply (wi_excl _ Hw k d Hd).
  - intros Hu. eapply heap_all_put; [exact Hm| |done]. apply (Hu k d Hd).
Qed.

Lemma dp_remove_winv k h : winv h -> fits h -> HeapDp k ∈ hp_dps h -> exists h', dp_remove (HeapDp k) h = Some h' /\ winv h' /\ (room h' <= room h)%nat.
Proof.
  intros Hw Hf Hin. destruct (dp_remove_spec k h (wi_good _ Hw) Hf Hin) as (h' & -> & Hg' & Hsu & _ & Hr & Hnone & Hc). exists h'. split; [done|]. split; [|done].
  assert (Hall : forall P, heap_all P h -> heap_all P h').
  { intros P H j d' Hd'. specialize (Hc (HeapDp j)). destruct (decide (j = k)) as [->|Hne]; [congruence|]. specialize (Hc ltac:(congruence)). rewrite Hd' in Hc. symmetry in Hc.
    apply fmap_Some in Hc as (d & Hd & ->). by apply (H j). }
  apply (winv_step h); [done|done|by apply setup_timers|apply Hall, Hw|apply Hall].
Qed.

Definition not_v4 h (x : prefix) : Prop := forall d, V4Dp ∈ hp_dps h -> hp_dp_mem h !! V4Dp = Some d -> hd_type d = HPA_DP_T_IFACE -> dp_bits d ≠ pbits x.

(** A known delegated prefix of an interface. *)
Lemma prefix_known k x pr v dhcp excl h d : winv h -> Z.of_nat (room h + length dhcp) < 65536 -> hp_dp_mem h !! HeapDp k = Some d -> hd_type d = HPA_DP_T_IFACE -> dp_bits d = pbits x ->
  (forall y, excl = Some y -> prefix_wf y) ->
  exists h', (h ← hpa_dp_update (HeapDp k) pr v dhcp h; hpa_dp_update_excluded (HeapDp k) excl h) = Some h' /\ winv h'.
Proof.
  intros Hw Hr Hd Ht Hb Hy. destruct (dp_update_winv k pr v dhcp h d Hw Hr Hd) as (h1 & z & -> & Hw1 & Hs1 & Hm1 & Hr1). cbn [mbind option_bind].
  assert (Hd1 : hp_dp_mem h1 !! HeapDp k = Some (updated_dp pr v z d)) by (rewrite Hm1; apply lookup_insert_eq). pose proof (wi_good _ Hw1) as Hg1.
  destruct (update_excluded_spec k excl h1 _ (gd_inv _ Hg1) Hd1) as (h2 & d2 & -> & Hi2 & Hs2 & Hr2 & Hm2 & Hx2 & Hk2 & He2 & _); [done|exact (wi_excl _ Hw k d Hd)|done|].
  exists h2. split; [done|]. apply (winv_step h1); [done| |by apply setup_timers, setup_cells| |].
  - apply (good_cells h1); [done|done|done|]. by eapply settled_cell; [apply Hg1|..].
  - eapply heap_all_put; [exact Hm2|exact Hx2|apply Hw1].
  - intros Hu. eapply heap_all_put; [exact Hm2| |done]. specialize (Hu k _ Hd1). unfold no_remote_ula, noen in *. cbn in *. injection Hk2 as -> ->. exact Hu.
Qed.

Lemma add_flags h h' p : good h -> ~ special p -> same_setup h h' -> hp_dps h' = p :: hp_dps h -> flags_ok h'.
Proof.
  intros Hg Hp Hsu Hd. apply (flags_setup h); [apply Hg|done|]. intros q Hq. rewrite Hd, elem_of_cons. split; [intros [->|?]; done|by right].
Qed.

Lemma prefix_new x pr v dhcp excl h i : winv h -> prefix_wf x -> (forall y, excl = Some y -> prefix_wf y) -> get_iface h (hi_name i) = Some i -> Z.of_nat (room h + 48 + length dhcp) < 65536 ->
  let p := HeapDp (hp_calls h) in
  exists h', (h ← dps_add p (put_dp p (set_hd_iface (Some (hi_name i)) (set_hd_type HPA_DP_T_IFACE (local_dp x))) (hp_called h));
              h ← hpa_dp_update p pr v dhcp h; h ← hpa_dp_update_excluded p excl h; hpa_dp_update_enabled h) = Some h' /\ winv h'.
Proof.
  intros Hw Hx Hy Hi Hr p. pose proof (wi_good _ Hw) as Hg. set (d := set_hd_iface _ _).
  destruct (add_heap h d (gd_inv _ Hg)) as (h1 & Ea & Hi1 & E1 & Hsu1 & Hr1 & Hnot); [done|done|done|left; split_and!; try done; by exists (hi_name i), i|]. fold p in Ea, E1, Hnot. rewrite Ea. cbn [mbind option_bind].
  assert (Hd1 : hp_dp_mem h1 !! p = Some d) by (rewrite E1; apply lookup_insert_eq).
  destruct (dp_update_spec p pr v dhcp h1 d Hi1) as (h2 & z & -> & Hi2 & Hs2 & _ & Hm2 & Hr2); [lia|done|by intros ?%not_special|]. cbn [mbind option_bind].
  assert (Hd2 : hp_dp_mem h2 !! p = Some (updated_dp pr v z d)) by (rewrite Hm2; apply lookup_insert_eq).
  destruct (update_excluded_spec (hp_calls h) excl h2 _ Hi2 Hd2) as (h3 & d3 & E3 & Hi3 & Hs3 & Hr3 & Hm3 & Hx3 & Hk3 & He3 & _); [done|done|done|]. fold p in Hm3, E3. rewrite E3. cbn [mbind option_bind].
  destruct (update_enabled_spec h3 Hi3) as (h4 & -> & Hi4 & Hs4 & Hsh4 & Hr4 & _ & Hset4); [unfold fits; lia|]. exists h4. split; [done|].
  assert (Hm : hp_dp_mem h3 = <[p := d3]> (hp_dp_mem h)) by (rewrite Hm3, Hm2, E1; cbn; by rewrite !insert_insert_eq).
  assert (Hsu : same_setup h h4) by (etrans; [exact Hsu1|]; etrans; [by apply (setup_cells h1 h2)|]; etrans; [by apply (setup_cells h2 h3)|]; by apply setup_cells).
  apply (winv_step h); [done| |by apply setup_timers| |].
  - split; [done| |done]. apply (add_flags h _ p Hg); [by intros [?|?]|done|]. rewrite (sb_dps _ _ Hs4), (sb_dps _ _ Hs3), (sb_dps _ _ Hs2), E1. done.
  - eapply heap_all_shape; [exact Hsh4|]. eapply heap_all_put; [exact Hm|exact Hx3|apply Hw].
  - intros Hu. eapply heap_all_shape; [exact Hsh4|]. eapply heap_all_put; [exact Hm| |exact Hu]. unfold no_remote_ula, noen. cbn. injection Hk3 as _ ->. done.
Qed.

Lemma called_winv h : winv h -> winv (hp_called h).
Proof. intros Hw. apply (winv_cells h); [done|apply (good_ext h); try done; [apply Hw|cbn; lia]|by split_and!|done]. Qed.

(** An interface withdraws the IPv4 prefix of the uplink, which is not on the heap. *)
Definition frees_uplink h name (x : prefix) (v : Z) : Prop :=
  is_Some (hpa_iface_goc h name true).2 /\ v <= hp_time h /\ hpa_dp_get_local x h = Some (Some V4Dp).

Lemma get_local_ext h h' x dps : hp_dp_mem h' = hp_dp_mem h -> get_local_loop h' x dps = get_local_loop h x dps.
Proof. intros E. induction dps as [|p dps IH]; cbn [get_local_loop]; [done|]. by rewrite E, IH. Qed.

Lemma prefix_faults name x excl v pr dhcp h : winv h -> frees_uplink h name x v -> hpa_iface_prefix_cb name x excl v pr dhcp h = None.
Proof.
  intros Hw ([i Hi] & Hv & Hl). unfold hpa_iface_prefix_cb. destruct (goc_winv h name Hw) as (h1 & r & E & _ & _ & (Ed & Em & Eo) & _).
  rewrite E in Hi |- *. cbn [snd] in Hi. subst r. unfold hpa_dp_get_local in *. rewrite Ed, (get_local_ext h h1) by done. rewrite Hl. cbn [mbind option_bind].
  rewrite decide_True by (unfold hp_time in *; rewrite Eo; lia). unfold dp_remove. destruct (hpa_dp_set_enabled V4Dp false h1) as [h2|]; [|done].
  cbn [mbind option_bind]. by destruct (dps_del V4Dp h2).
Qed.

Lemma prefix_step name x excl v pr dhcp h : winv h -> prefix_wf x -> (forall y, excl = Some y -> prefix_wf y) -> (hp_time h < v -> not_v4 h x) -> ~ frees_uplink h name x v ->
  Z.of_nat (room h + 64 + length dhcp) < 65536 ->
  exists h', hpa_iface_prefix_cb name x excl v pr dhcp h = Some h' /\ winv h'.
Proof.
  intros Hw Hx Hy Hv Hnf Hr. unfold frees_uplink in Hnf. unfold hpa_iface_prefix_cb. destruct (goc_winv h name Hw) as (h1 & r & E0 & Hw1 & Hr1 & (Ed & Em & Eo) & Hi). rewrite E0 in Hnf |- *. cbn [snd] in Hnf.
  destruct r as [i|]; [|by exists h1]. specialize (Hi i eq_refl).
  pose proof (get_iface_Some _ _ _ Hi) as [_ Hn]. pose proof (gd_inv _ (wi_good _ Hw1)) as Hinv. unfold hpa_dp_get_local.
  destruct (get_local_spec h1 x (hp_dps h1) (hinv_well_formed _ Hinv) Hx) as (r & El & Hres). rewrite El. cbn [mbind option_bind].
  assert (Hp : forall p, r = Some p -> exists k d, p = HeapDp k /\ hp_dp_mem h1 !! p = Some d /\ p ∈ hp_dps h1 /\ hd_type d = HPA_DP_T_IFACE /\ dp_bits d = pbits x).
  { intros p ->. destruct Hres as (Hin & d & Hd & Ht & Hb). destruct p as [| |k]; [| |by exists k, d].
    - destruct (decide (v <= hp_time h)) as [Hle|Hgt]; [|rewrite Ed in Hin; rewrite Em in Hd; by destruct (Hv ltac:(lia) d)].
      destruct Hnf. split; [by eexists|]. split; [done|]. unfold hpa_dp_get_local. by rewrite <- Ed, <- (get_local_ext h h1).
    - destruct (hi_kind _ Hinv _ _ Hd Hin) as [(_ & _ & ? & _)|[(E & _)|(E & _)]]; [done|rewrite E in Ht; discriminate..]. }
  case_decide.
  - destruct r as [p|]; [|by exists h1]. destruct (Hp p eq_refl) as (k & d & -> & _ & Hin & _). destruct (dp_remove_winv k h1 Hw1) as (h2 & -> & Hw2 & _); [unfold fits; lia|done|]. by exists h2.
  - destruct r as [p|].
    + destruct (Hp p eq_refl) as (k & d & -> & Hd & _ & Ht & Hb). apply (prefix_known k x pr v dhcp excl h1 d); try done. lia.
    + destruct (hpa_calloc (hp_calls h1)); cbn [negb]; [|exists (hp_called h1); split; [done|by apply called_winv]].
      apply (prefix_new x pr v dhcp excl h1 i); try done; [by rewrite Hn|lia].
Qed.

(** ** Delegated prefixes of other nodes *)

Lemma rdn_parts (m : list Z) (p n : nat) x : rdn m p n = Some x -> bytes_ok m -> bytes_ok x /\ (length x <= length m)%nat.
Proof. unfold rdn. case_decide; [|done]. intros [= <-] Hb. split; [by apply Forall_take, Forall_drop|]. rewrite length_take, length_drop. lia. Qed.

Lemma tlv_list_from m buf len ts : bytes_ok m -> (buf + len <= length m)%nat -> tlv_list m buf len = Some ts -> Forall (fun t => bytes_ok t.2 /\ (length t.2 <= length m)%nat) ts.
Proof.
  intros Hb _. unfold tlv_list. intros (ps & _ & E%mapM_Some)%bind_Some. induction E as [|p t ps ts Hp _ IH]; constructor; [|done].
  unfold tlv_read in Hp. apply bind_Some in Hp as (id & _ & Hp). apply bind_Some in Hp as (d & Hd & [= <-]). unfold tlv_payload in Hd. apply bind_Some in Hd as (l & _ & Hd). by eapply rdn_parts.
Qed.

Lemma tlv_list_parts m ts : bytes_ok m -> tlv_list m 0 (length m) = Some ts -> Forall (fun t => bytes_ok t.2 /\ (length t.2 <= length m)%nat) ts.
Proof. intros Hb. apply tlv_list_from; [done|lia]. Qed.

Definition policies_ok (n : nat) (r : list Z * option nat * list Z) : Prop := (length r.1.1 <= n)%nat /\ length r.2 = 16%nat /\ (forall k, r.1.2 = Some k -> (k <= 128)%nat).

Lemma dp_policies_ok n l dhcp dst addr : Forall (fun t : attr => (length t.2 <= n)%nat) l -> policies_ok n (dhcp, dst, addr) -> policies_ok n (dp_policies l dhcp dst addr).
Proof.
  intros Hl. revert dhcp dst addr; induction Hl as [|[id x] l Hx Hl IH]; intros dhcp dst addr Hp; cbn [dp_policies]; [done|]. destruct Hp as (H1 & H2 & H3). cbn [fst snd] in *.
  case_decide; [by apply IH|]. case_decide; [|by apply IH]. case_decide as Hc; [|by apply IH]. destruct Hc as (Hc1 & Hc2 & Hc3). apply IH. split; [done|]. split; [|by intros k [= <-]].
  cbn [snd]. rewrite length_app, !length_drop, H2, Hc3. assert (ROUND_BITS_TO_BYTES (Z.to_nat (byte_at x 0)) <= 16)%nat; [|lia].
  unfold ROUND_BITS_TO_BYTES. apply Nat.lt_succ_r. apply Nat.Div0.div_lt_upper_bound. lia.
Qed.

(** A TLV with bytes for its prefix: an empty prefix reads one, too. *)
Definition readable (a : attr) : Prop := bytes_ok a.2 /\ forall t, hncp_tlv_dp a = Some t -> (0 < tdp_plen t \/ 9 < length a.2)%nat.

Lemma parse_total base a t0 : readable a -> hncp_tlv_dp a = Some t0 ->
  exists t, parse_dp_tlv base a t0 = Some t /\ prefix_wf (td_prefix t) /\ plen (td_prefix t) = tdp_plen t0 /\ pbits (td_prefix t) = bits (dp_data t0) 0 (tdp_plen t0) /\ (length (td_dhcp t) <= length a.2)%nat /\
    td_valid t = _remote_rel_to_local_abs base (dp_valid t0) /\ td_preferred t = _remote_rel_to_local_abs base (dp_preferred t0).
Proof.
  intros [Hb Hread] Ha. specialize (Hread t0 Ha). destruct a as [id x]. cbn [snd] in *. unfold hncp_tlv_dp in Ha. case_decide as C1; [done|]. case_decide as C2; [done|]. injection Ha as <-. cbn [tdp_plen] in Hread.
  unfold parse_dp_tlv. cbn [tdp_plen dp_valid dp_preferred dp_data snd]. set (n := Z.to_nat (byte_at x 8)) in *. set (flen := ROUND_BYTES_TO_4BYTES _).
  assert (Hts : exists ts : list attr, (if decide (length x < flen)%nat then Some [] else tlv_list x flen (length x - flen) : option (list attr)) = Some ts /\ Forall (fun t : attr => (length t.2 <= length x)%nat) ts).
  { case_decide; [by exists []|]. destruct (tlv_list_total x flen (length x - flen)) as [ts Hts]; [lia|]. exists ts. split; [done|]. eapply Forall_impl; [apply (tlv_list_from x flen (length x - flen) ts Hb ltac:(lia) Hts)|]. by intros t []. }
  destruct Hts as (ts & -> & Hall). cbn [mbind option_bind].
  pose proof (dp_policies_ok (length x) ts [] None (replicate 16 0) Hall) as Hpol. destruct (dp_policies ts [] None (replicate 16 0)) as [[dhcp dst] addr].
  destruct Hpol as (P1 & P2 & P3); [split; [cbn; lia|]; by split|]. cbn [fst snd] in *.
  assert (Hlen : (n <= 8 * (length x - 9))%nat).
  { apply Decidable.not_or in C2 as [C2 _]. unfold ROUND_BITS_TO_BYTES in C2. pose proof (Nat.div_mod_eq (n + 7) 8). pose proof (Nat.mod_upper_bound (n + 7) 8). lia. }
  unfold pa_prefix_cpy. destruct (bmemcpy_copied (replicate 16 0) 0 (drop 9 x) 0 0 n) as (y & -> & Hyl & Hyb & Hy); [decided|by apply Forall_drop|rewrite length_replicate; lia|rewrite length_drop; lia|].
  cbn [mbind option_bind]. eexists. split; [done|]. cbn [td_prefix td_dhcp td_valid td_preferred plen]. split; [split; [done|]; split; [done|cbn; lia]|]. split; [done|]. split; [|by split_and!].
  unfold pbits. cbn [pfx plen]. apply bits_ext. intros j Hj. rewrite Hy, decide_True by lia. f_equal. lia.
Qed.

(** A cell of the heap with other fields that nothing here depends on. *)
Lemma put_same_winv k d d' h : winv h -> hp_dp_mem h !! HeapDp k = Some d -> hd_prefix d' = hd_prefix d -> hd_type d' = hd_type d -> hd_excluded d' = hd_excluded d ->
  hd_excluded_prefix d' = hd_excluded_prefix d -> hd_dhcp d' = hd_dhcp d -> hd_enabled d' = hd_enabled d -> kind_ok h (HeapDp k) d' ->
  winv (put_dp (HeapDp k) d' h) /\ room (put_dp (HeapDp k) d' h) = room h.
Proof.
  intros Hw Hd E1 E2 E3 E4 E5 E6 Hk. split; [|by apply (room_put _ d)]. pose proof (wi_good _ Hw) as Hg. pose proof (gd_inv _ Hg) as Hi. set (h' := put_dp _ d' h).
  assert (Hm : hp_dp_mem h' = <[HeapDp k := d']> (hp_dp_mem h)) by done. assert (Hs : same_but_cells h h') by (by split).
  apply (winv_step h); [done| |by apply setup_timers, setup_cells| |].
  - apply (good_cells h); [done|done| |by eapply settled_cell; [apply Hg|done|done|exact Hm|unfold dp_key; congruence|done]].
    apply (hinv_cells h); [done|done|apply Hi| | |].
    + cbn [h' put_dp set_hp_dp_mem hp_log hp_dp_mem]. rewrite (hi_core _ Hi). destruct (maps_ext (hp_dp_mem h) (<[HeapDp k := d']> (hp_dp_mem h))) as [-> ->]; [|done].
      intros q. rewrite view_insert. case_decide as E; [subst|done]. unfold view. rewrite Hd. cbn. unfold core_view. rewrite E6, E1, E4. f_equal. apply decide_ext. unfold excludes. by rewrite E6, E2, E3.
    + intros q x. rewrite Hm. destruct (decide (q = HeapDp k)) as [->|Hq].
      * rewrite lookup_insert_eq. intros [= <-]. exists d. split_and!; try done; [by intros ?%not_special|]. intros Hnot. destruct Hnot. by eapply heap_cell.
      * rewrite lookup_insert_ne by done. intros Hx. exists x. split_and!; try done; [|by apply (hi_off _ Hi q x)|by apply (hi_kind _ Hi q x)].
        intros Hq'. destruct (hi_special _ Hi q Hq') as (d0 & Hd0 & ? & _). congruence.
    + intros q [x Hx]. rewrite Hm. destruct (decide (q = HeapDp k)) as [->|]; [rewrite lookup_insert_eq|rewrite lookup_insert_ne by done]; by eexists.
  - eapply heap_all_put; [exact Hm| |apply Hw]. pose proof (wi_excl _ Hw k d Hd) as Hx. unfold excl_ok, noen in *. cbn in *. by rewrite E3, E4.
  - intros Hu. eapply heap_all_put; [exact Hm| |exact Hu]. specialize (Hu k d Hd). unfold no_remote_ula, noen in *. cbn in *. by rewrite E1, E2.
Qed.

Lemma hncp_kind h p d : hinv h -> hp_dp_mem h !! p = Some d -> p ∈ hp_dps h -> hd_type d = HPA_DP_T_HNCP -> exists k, p = HeapDp k /\ hd_local d = false.
Proof.
  intros Hi Hd Hin Ht. destruct (hi_kind _ Hi p d Hd Hin) as [(E & _)|[(E & _)|(_ & ? & k & ->)]]; [rewrite E in Ht; discriminate..|by exists k].
Qed.

Lemma hncp_kind_ok h k d : hd_type d = HPA_DP_T_HNCP -> hd_local d = false -> kind_ok h (HeapDp k) d.
Proof. intros. right. right. split_and!; try done. by exists k. Qed.

Lemma delete_to_winv k d t h : winv h -> hp_dp_mem h !! HeapDp k = Some d -> hd_type d = HPA_DP_T_HNCP -> hd_local d = false ->
  winv (put_dp (HeapDp k) (set_hd_delete_to t d) h) /\ room (put_dp (HeapDp k) (set_hd_delete_to t d) h) = room h.
Proof. intros Hw Hd Ht Hl. apply (put_same_winv k d); try done. by apply hncp_kind_ok. Qed.

Lemma update_destination_winv k t d h : winv h -> fits h -> hp_dp_mem h !! HeapDp k = Some d -> hd_type d = HPA_DP_T_HNCP -> hd_local d = false ->
  exists h', update_destination (HeapDp k) t h = Some h' /\ winv h' /\ room h' = room h.
Proof.
  intros Hw Hf Hd Ht Hl. unfold update_destination. rewrite Hd. cbn [mbind option_bind]. case_decide; [|by exists h].
  destruct (put_same_winv k d (set_dp_dst d t) h) as [Hw1 Hr1]; try done; try (unfold set_dp_dst; by destruct (td_dst_present t)).
  { apply hncp_kind_ok; unfold set_dp_dst; by destruct (td_dst_present t). }
  pose proof (hi_wf _ (gd_inv _ (wi_good _ Hw)) _ _ Hd) as Hwd. rewrite (prefix_is_ipv4_spec _ Hwd), (prefix_is_ula_spec _ Hwd). cbn [mbind option_bind]. set (h1 := put_dp _ _ h) in *.
  destruct (is_v4 _); [destruct (v4_to_step h1 Hw1) as (h2 & -> & ? & ?); [by apply (fits_room h)|]; exists h2; split_and!; try done; congruence|].
  cbn [mbind option_bind]. destruct (is_ula _); [|by exists h1]. destruct (ula_to_step h1 (winv_almost _ Hw1)) as (h2 & -> & ? & ?); [by apply (fits_room h)|]. exists h2. split_and!; try done. congruence.
Qed.

(** A delegated prefix that another node announces for the first time. *)
Lemma remote_new (n : node) t h : winv h -> prefix_wf (td_prefix t) -> Z.of_nat (room h + 48 + length (td_dhcp t)) < 65536 ->
  let p := HeapDp (hp_calls h) in
  let d := set_dp_dst (set_hd_node_id (nid n) (set_hd_type HPA_DP_T_HNCP (set_hd_prefix (td_prefix t) dp_zero))) t in
  exists h', (h ← dps_add p (put_dp p d (hp_called h)); h ← hpa_dp_update p (td_preferred t) (td_valid t) (td_dhcp t) h; h ← hpa_dp_update_enabled h; h ← hpa_ula_to h; hpa_v4_to h) = Some h' /\
    winv h' /\ (room h' <= room h + 48 + length (td_dhcp t))%nat.
Proof.
  intros Hw Hx Hr p d. pose proof (wi_good _ Hw) as Hg.
  assert (Hd : hd_enabled d = false /\ hd_prefix d = td_prefix t /\ hd_dhcp d = [] /\ hd_type d = HPA_DP_T_HNCP /\ hd_local d = false /\ hd_excluded d = false) by (unfold d, set_dp_dst; by destruct (td_dst_present t)).
  destruct Hd as (D1 & D2 & D3 & D4 & D5 & D6).
  destruct (add_heap h d (gd_inv _ Hg)) as (h1 & Ea & Hi1 & E1 & Hsu1 & Hr1 & _); [done|by rewrite D2|done|by apply hncp_kind_ok|]. fold p in Ea, E1. rewrite Ea. cbn [mbind option_bind].
  assert (Hd1 : hp_dp_mem h1 !! p = Some d) by (rewrite E1; apply lookup_insert_eq).
  destruct (dp_update_spec p (td_preferred t) (td_valid t) (td_dhcp t) h1 d Hi1) as (h2 & z & -> & Hi2 & Hs2 & _ & Hm2 & Hr2); [lia|done|by intros ?%not_special|]. cbn [mbind option_bind].
  destruct (update_enabled_spec h2 Hi2) as (h3 & -> & Hi3 & Hs3 & Hsh3 & Hr3 & _ & Hset3); [unfold fits; lia|]. cbn [mbind option_bind].
  assert (Hm : hp_dp_mem h2 = <[p := updated_dp (td_preferred t) (td_valid t) z d]> (hp_dp_mem h)) by (rewrite Hm2, E1; cbn; by rewrite insert_insert_eq).
  assert (Hsu : same_setup h h3) by (etrans; [exact Hsu1|]; etrans; [by apply (setup_cells h1 h2)|]; by apply setup_cells).
  assert (Ha : almost h3).
  { apply (almost_step h); [by apply winv_almost| |by apply setup_timers|].
    - split; [done| |done]. apply (add_flags h _ p Hg); [by intros [?|?]|done|]. rewrite (sb_dps _ _ Hs3), (sb_dps _ _ Hs2), E1. done.
    - eapply heap_all_shape; [exact Hsh3|]. eapply heap_all_put; [exact Hm| |apply Hw]. unfold excl_ok, noen. cbn. by rewrite D6. }
  destruct (both_step h3 Ha) as (h4 & -> & Hw4 & Hr4); [unfold fits; lia|]. exists h4. split; [done|]. split; [done|lia].
Qed.

(** A delegated prefix of [n] that is in the list. *)
Definition known_dp h (n : node) (x : prefix) : Prop :=
  exists p d, p ∈ hp_dps h /\ hp_dp_mem h !! p = Some d /\ hd_type d = HPA_DP_T_HNCP /\ dp_bits d = pbits x /\ hd_node_id d = nid n.

Definition announced h (n : node) (a : attr) : Prop :=
  forall t0 t, hncp_tlv_dp a = Some t0 -> parse_dp_tlv (origination_time n) a t0 = Some t -> known_dp h n (td_prefix t).

Lemma dp_tlv_add n a h : winv h -> readable a -> Z.of_nat (room h + 48 + length a.2) < 65536 ->
  exists h', hpa_update_dp_tlv n a true h = Some h' /\ winv h' /\ (room h' <= room h + 48 + length a.2)%nat.
Proof.
  intros Hw Hread Hr. unfold hpa_update_dp_tlv. destruct (hncp_tlv_dp a) as [t0|] eqn:Ha; [|exists h; split_and!; try done; lia].
  destruct (parse_total (origination_time n) a t0 Hread Ha) as (t & -> & Hwt & _ & _ & Hlen & _). cbn [mbind option_bind]. pose proof (gd_inv _ (wi_good _ Hw)) as Hi.
  unfold hpa_dp_get_hncp. destruct (get_hncp_spec h (td_prefix t) (nid n) (hp_dps h) (hinv_well_formed _ Hi) Hwt) as (r & -> & Hres). cbn [mbind option_bind negb]. destruct r as [p|].
  - destruct Hres as (Hin & d & Hd & Ht & _). destruct (hncp_kind h p d Hi Hd Hin Ht) as (k & -> & Hl). rewrite Hd. cbn [mbind option_bind].
    destruct (delete_to_winv k d None h Hw Hd Ht Hl) as [Hw1 Hr1]. set (h1 := put_dp _ _ h) in *. assert (Hd1 : hp_dp_mem h1 !! HeapDp k = Some (set_hd_delete_to None d)) by apply lookup_insert_eq.
    destruct (dp_update_winv k (td_preferred t) (td_valid t) (td_dhcp t) h1 (set_hd_delete_to None d) Hw1) as (h2 & x & -> & Hw2 & Hs2 & Hm2 & Hr2); [lia|exact Hd1|]. cbn [mbind option_bind].
    destruct (update_destination_winv k t (updated_dp (td_preferred t) (td_valid t) x (set_hd_delete_to None d)) h2 Hw2) as (h3 & -> & Hw3 & Hr3); [unfold fits; lia|rewrite Hm2; apply lookup_insert_eq|done|done|].
    exists h3. split; [done|]. split; [done|lia].
  - destruct (hpa_calloc (hp_calls h)); cbn [negb]; [|exists (hp_called h); split; [done|]; split; [by apply called_winv|unfold hp_called, room, heap_room; cbn; lia]].
    destruct (remote_new n t h Hw Hwt) as (h' & E & Hw' & Hr'); [lia|]. exists h'. split; [exact E|]. split; [done|lia].
Qed.

Lemma known_dp_step h h' n x : known_dp h n x -> hp_dps h' = hp_dps h ->
  (forall p d, hp_dp_mem h !! p = Some d -> exists d', hp_dp_mem h' !! p = Some d' /\ dp_key d' = dp_key d /\ hd_node_id d' = hd_node_id d) -> known_dp h' n x.
Proof.
  intros (p & d & Hin & Hd & Ht & Hb & Hn) Ed Hc. destruct (Hc p d Hd) as (d' & Hd' & Ek & En). injection Ek as E1 E2. exists p, d'. rewrite Ed. unfold dp_bits in *. split_and!; try done; congruence.
Qed.

Lemma dp_tlv_remove n a h : winv h -> readable a -> announced h n a -> Z.of_nat (room h + 48 + length a.2) < 65536 ->
  exists h', hpa_update_dp_tlv n a false h = Some h' /\ winv h' /\ (room h' <= room h + 48 + length a.2)%nat /\ forall x, known_dp h n x <-> known_dp h' n x.
Proof.
  intros Hw Hread Hann Hr. unfold hpa_update_dp_tlv. destruct (hncp_tlv_dp a) as [t0|] eqn:Ha; [|exists h; split_and!; try done; lia].
  destruct (parse_total (origination_time n) a t0 Hread Ha) as (t & Ep & Hwt & _ & _ & Hlen & _). rewrite Ep. cbn [mbind option_bind]. pose proof (gd_inv _ (wi_good _ Hw)) as Hi.
  destruct (Hann t0 t Ha Ep) as (p0 & d0 & Hin0 & Hd0 & Ht0 & Hb0 & Hn0).
  unfold hpa_dp_get_hncp. destruct (get_hncp_spec h (td_prefix t) (nid n) (hp_dps h) (hinv_well_formed _ Hi) Hwt) as (r & -> & Hres). cbn [mbind option_bind negb].
  destruct r as [p|]; [|by destruct (Hres p0 d0 Hin0 Hd0 Ht0 Hb0)]. destruct Hres as (Hin & d & Hd & Ht & _). destruct (hncp_kind h p d Hi Hd Hin Ht) as (k & -> & Hl). cbn [mbind option_bind]. rewrite Hd. cbn [mbind option_bind].
  set (h1 := if decide (hd_delete_to d = None) then _ else h).
  assert (H1 : exists d1, winv h1 /\ room h1 = room h /\ hp_dp_mem h1 = <[HeapDp k := d1]> (hp_dp_mem h) /\ hp_dps h1 = hp_dps h /\ dp_key d1 = dp_key d /\ hd_node_id d1 = hd_node_id d).
  { unfold h1. case_decide; [|exists d; split_and!; try done; by rewrite insert_id]. destruct (delete_to_winv k d (Some (hp_time h + HNCP_PA_DP_DELAYED_DELETE_MS)) h Hw Hd Ht Hl) as [H1 H2]. eexists. by split_and!. }
  destruct H1 as (d1 & Hw1 & Hr1 & Hm1 & Ed1 & Ek1 & En1).
  destruct (dp_update_winv k (td_preferred t) (td_valid t) (td_dhcp t) h1 d1 Hw1) as (h2 & x & -> & Hw2 & Hs2 & Hm2 & Hr2); [lia|rewrite Hm1; apply lookup_insert_eq|].
  exists h2. split; [done|]. split; [done|]. split; [lia|]. rewrite Hm1, insert_insert_eq in Hm2. assert (Ed2 : hp_dps h2 = hp_dps h) by (by rewrite (sb_dps _ _ Hs2)).
  intros y. split; intros Hy; eapply known_dp_step; try exact Hy; try congruence; intros q e He; rewrite Hm2 in *; destruct (decide (q = HeapDp k)) as [->|Hq].
  - rewrite lookup_insert_eq. assert (e = d) as -> by congruence. eexists. split; [done|]. by split.
  - rewrite lookup_insert_ne by done. by exists e.
  - rewrite lookup_insert_eq in He. injection He as <-. exists d. by split.
  - rewrite lookup_insert_ne in He by done. by exists e.
Qed.

Definition tlv_weight (l : list attr) : nat := sum_list ((fun a : attr => 48 + length a.2)%nat <$> l).

Lemma dp_tlvs_add n l h : winv h -> Forall readable l -> Z.of_nat (room h + tlv_weight l) < 65536 ->
  exists h', update_dp_tlvs n l true h = Some h' /\ winv h' /\ (room h' <= room h + tlv_weight l)%nat.
Proof.
  revert h; induction l as [|a l IH]; intros h Hw Hread Hr; cbn [update_dp_tlvs]; [exists h; split_and!; try done; lia|]. apply Forall_cons in Hread as [Ha Hl].
  change (tlv_weight (a :: l)) with (48 + length a.2 + tlv_weight l)%nat in *.
  assert (H1 : exists h1, (if decide (a.1 = HNCP_T_DELEGATED_PREFIX) then hpa_update_dp_tlv n a true h else Some h) = Some h1 /\ winv h1 /\ (room h1 <= room h + 48 + length a.2)%nat).
  { case_decide; [apply dp_tlv_add; [done|done|lia]|exists h; split_and!; try done; lia]. }
  destruct H1 as (h1 & -> & Hw1 & Hr1). cbn [mbind option_bind]. destruct (IH h1 Hw1 Hl) as (h2 & -> & Hw2 & Hr2); [lia|]. exists h2. split_and!; try done. lia.
Qed.

Lemma dp_tlvs_remove n l h : winv h -> Forall readable l -> Forall (fun a => a.1 = HNCP_T_DELEGATED_PREFIX -> announced h n a) l -> Z.of_nat (room h + tlv_weight l) < 65536 ->
  exists h', update_dp_tlvs n l false h = Some h' /\ winv h' /\ (room h' <= room h + tlv_weight l)%nat.
Proof.
  revert h; induction l as [|a l IH]; intros h Hw Hread Hann Hr; cbn [update_dp_tlvs]; [exists h; split_and!; try done; lia|].
  apply Forall_cons in Hread as [Ha Hl]. apply Forall_cons in Hann as [Hk Hks]. change (tlv_weight (a :: l)) with (48 + length a.2 + tlv_weight l)%nat in *.
  assert (H1 : exists h1, (if decide (a.1 = HNCP_T_DELEGATED_PREFIX) then hpa_update_dp_tlv n a false h else Some h) = Some h1 /\ winv h1 /\ (room h1 <= room h + 48 + length a.2)%nat /\
    forall x, known_dp h n x <-> known_dp h1 n x).
  { case_decide as E; [apply dp_tlv_remove; [done|done|by apply Hk|lia]|exists h; split_and!; try done; lia]. }
  destruct H1 as (h1 & -> & Hw1 & Hr1 & Hkn). cbn [mbind option_bind]. destruct (IH h1 Hw1 Hl) as (h2 & -> & Hw2 & Hr2).
  - eapply Forall_impl; [exact Hks|]. intros b Hb Eb t0 t H0 Ht. apply Hkn. by apply (Hb Eb t0 t).
  - lia.
  - exists h2. split_and!; try done. lia.
Qed.

(** The TLVs inside an external connection. *)
Definition inner_tlvs (a : attr) : list attr := default [] (tlv_list a.2 0 (length a.2)).

Lemma inner_tlvs_spec (a : attr) : tlv_list a.2 0 (length a.2) = Some (inner_tlvs a).
Proof. unfold inner_tlvs. destruct (tlv_list_total a.2 0 (length a.2)) as [l Hl]; [lia|]. unfold attr in *. by rewrite Hl. Qed.

(** A delegated prefix TLV that goes wrong: an empty prefix without the byte that is read
    for it, or the removal of a prefix that is not known. *)
Definition tlv_faults h (n : node) (add : bool) (b : attr) : Prop :=
  exists t0, hncp_tlv_dp b = Some t0 /\
    (tdp_plen t0 = 0%nat /\ length b.2 = 9%nat \/
     add = false /\ exists t, parse_dp_tlv (origination_time n) b t0 = Some t /\ ~ known_dp h n (td_prefix t)).

Definition connection_faults h (n : node) (a : attr) (add : bool) : Prop :=
  is_own (hp_dncp h) n = false /\ a.1 = HNCP_T_EXTERNAL_CONNECTION /\ exists b, b ∈ inner_tlvs a /\ tlv_faults h n add b.

Lemma dp_tlv_id b t0 : hncp_tlv_dp b = Some t0 -> b.1 = HNCP_T_DELEGATED_PREFIX /\ (9 <= length b.2)%nat.
Proof. destruct b as [id x]. unfold hncp_tlv_dp. case_decide as C; [done|]. intros _. apply Decidable.not_or in C as [C1 C2]. cbn. split; [|lia]. destruct (decide (id = HNCP_T_DELEGATED_PREFIX)); done. Qed.

Lemma parse_faults base b t0 : hncp_tlv_dp b = Some t0 -> tdp_plen t0 = 0%nat -> length b.2 = 9%nat -> parse_dp_tlv base b t0 = None.
Proof.
  intros H Hp Hl. unfold parse_dp_tlv. destruct (if decide _ then _ else _) as [ts|]; [|done]. cbn [mbind option_bind].
  destruct (dp_policies ts [] None (replicate 16 0)) as [[? ?] ?]. destruct b as [id x]. unfold hncp_tlv_dp in H. case_decide; [done|]. case_decide; [done|].
  injection H as <-. cbn [tdp_plen dp_data snd] in *. rewrite Hp, (drop_ge x 9) by lia. done.
Qed.

Lemma known_dp_dec h n x : winv h -> prefix_wf x -> known_dp h n x \/ ~ known_dp h n x.
Proof.
  intros Hw Hx. destruct (get_hncp_spec h x (nid n) (hp_dps h) (hinv_well_formed _ (gd_inv _ (wi_good _ Hw))) Hx) as ([p|] & _ & H).
  - left. destruct H as (Hin & d & Hd & ? & ? & ?). by exists p, d.
  - right. intros (p & d & Hin & Hd & Ht & Hb & Hn). by apply (H p d).
Qed.

(** A TLV goes wrong, or it can be read and, for a removal, is known. *)
Lemma tlv_faults_dec h n add b : winv h -> bytes_ok b.2 ->
  tlv_faults h n add b \/ ~ tlv_faults h n add b /\ readable b /\ (add = false -> announced h n b).
Proof.
  intros Hw Hb. destruct (hncp_tlv_dp b) as [t0|] eqn:E.
  2:{ right. split; [intros (t0 & E' & _); congruence|]. split; [split; [done|]; intros t E'; congruence|]. intros _ t0 t E'; congruence. }
  destruct (decide (tdp_plen t0 = 0 /\ length b.2 = 9)%nat) as [Hr|Hr]; [left; exists t0; split; [done|by left]|].
  assert (Hread : readable b).
  { split; [done|]. intros t Et. assert (t = t0) as -> by congruence. destruct (dp_tlv_id _ _ E) as [_ Hl]. unfold attr in *. lia. }
  destruct (parse_total (origination_time n) b t0 Hread E) as (t & Ep & Hwt & _).
  destruct (known_dp_dec h n (td_prefix t) Hw Hwt) as [Hk|Hk].
  - right. split; [|split; [done|intros _ t1 t2 E1 E2; assert (t1 = t0) as -> by congruence; by assert (t2 = t) as -> by congruence]].
    intros (t1 & E1 & [?|(_ & t2 & E2 & Hn)]); [assert (t1 = t0) as -> by congruence; lia|]. assert (t1 = t0) as -> by congruence. by assert (t2 = t) as -> by congruence.
  - destruct add.
    + right. split; [|by split]. intros (t1 & E1 & [?|(? & _)]); [assert (t1 = t0) as -> by congruence; lia|done].
    + left. exists t0. split; [done|]. right. split; [done|]. by exists t.
Qed.

Lemma tlv_faults_none h n add b : winv h -> bytes_ok b.2 -> tlv_faults h n add b -> hpa_update_dp_tlv n b add h = None.
Proof.
  intros Hw Hb (t0 & E & H). unfold hpa_update_dp_tlv. rewrite E. destruct (decide (tdp_plen t0 = 0 /\ length b.2 = 9)%nat) as [[H1 H2]|Hr]; [by rewrite parse_faults|].
  destruct H as [?|(-> & t & Ep & Hk)]; [done|]. rewrite Ep. cbn [mbind option_bind].
  assert (Hread : readable b). { split; [done|]. intros t1 Et. assert (t1 = t0) as -> by congruence. destruct (dp_tlv_id _ _ E) as [_ Hl]. unfold attr in *. lia. }
  destruct (parse_total (origination_time n) b t0 Hread E) as (t' & Ep' & Hwt & _). assert (t' = t) as -> by congruence. unfold hpa_dp_get_hncp.
  destruct (get_hncp_spec h (td_prefix t) (nid n) (hp_dps h) (hinv_well_formed _ (gd_inv _ (wi_good _ Hw))) Hwt) as ([p|] & -> & H); [|done]. destruct Hk. destruct H as (Hin & d & Hd & ? & ? & ?). by exists p, d.
Qed.

Lemma dp_tlvs_fault n add l h b : winv h -> Forall (fun b => bytes_ok b.2) l -> Z.of_nat (room h + tlv_weight l) < 65536 -> b ∈ l -> tlv_faults h n add b -> update_dp_tlvs n l add h = None.
Proof.
  revert h; induction l as [|a l IH]; intros h Hw Hb Hr Hin Hf; [by apply not_elem_of_nil in Hin|]. cbn [update_dp_tlvs]. apply Forall_cons in Hb as [Ha Hl].
  change (tlv_weight (a :: l)) with (48 + length a.2 + tlv_weight l)%nat in *. destruct (tlv_faults_dec h n add a Hw Ha) as [Hfa|(Hna & Hread & Hann)].
  { pose proof Hfa as (t0 & E & _). rewrite decide_True by (by eapply dp_tlv_id). by rewrite tlv_faults_none. }
  apply elem_of_cons in Hin as [->|Hin]; [done|].
  assert (H1 : exists h1, (if decide (a.1 = HNCP_T_DELEGATED_PREFIX) then hpa_update_dp_tlv n a add h else Some h) = Some h1 /\ winv h1 /\ (room h1 <= room h + 48 + length a.2)%nat /\ tlv_faults h1 n add b).
  { case_decide; [|exists h; split_and!; try done; lia]. destruct add.
    - destruct (dp_tlv_add n a h Hw Hread) as (h1 & E & Hw1 & Hr1); [lia|]. exists h1. split; [done|]. split; [done|]. split; [done|].
      destruct Hf as (t0 & E0 & [Hx|(? & _)]); [|done]. exists t0. split; [done|by left].
    - destruct (dp_tlv_remove n a h Hw Hread (Hann eq_refl)) as (h1 & E & Hw1 & Hr1 & Hk); [lia|]. exists h1. split; [done|]. split; [done|]. split; [done|].
      destruct Hf as (t0 & E0 & [Hx|(_ & t & Et & Hn)]); exists t0; (split; [done|]); [by left|right]. split; [done|]. exists t. split; [done|]. by rewrite <- Hk. }
  destruct H1 as (h1 & -> & Hw1 & Hr1 & Hf1). cbn [mbind option_bind]. apply IH; try done. lia.
Qed.

Lemma connection_fault n a add h : winv h -> Forall (fun b => bytes_ok b.2) (inner_tlvs a) -> Z.of_nat (room h + tlv_weight (inner_tlvs a)) < 65536 ->
  connection_faults h n a add -> external_connection_changed n a add h = None.
Proof.
  intros Hw Hb Hr (Ho & Ht & b & Hin & Hf). unfold external_connection_changed. rewrite Ho, decide_True, inner_tlvs_spec by done. cbn [mbind option_bind]. by rewrite (dp_tlvs_fault n add _ h b).
Qed.

Lemma connection_step n a add h : winv h -> Forall (fun b => bytes_ok b.2) (inner_tlvs a) -> ~ connection_faults h n a add ->
  Z.of_nat (room h + tlv_weight (inner_tlvs a)) < 65536 -> exists h', external_connection_changed n a add h = Some h' /\ winv h'.
Proof.
  intros Hw Hb Hnf Hr. unfold external_connection_changed. destruct (is_own _ _) eqn:Eo; [by exists h|]. case_decide as Et; [|by exists h]. rewrite inner_tlvs_spec. cbn [mbind option_bind].
  assert (Hgood : forall b, b ∈ inner_tlvs a -> readable b /\ (add = false -> announced h n b)).
  { rewrite Forall_forall in Hb. intros b Hin. destruct (tlv_faults_dec h n add b Hw (Hb b Hin)) as [Hf|(_ & H)]; [|done]. destruct Hnf. split; [done|]. split; [done|]. by exists b. }
  assert (Hread : Forall readable (inner_tlvs a)) by (rewrite Forall_forall; intros b Hin; by apply Hgood).
  assert (H1 : exists h1, update_dp_tlvs n (inner_tlvs a) add h = Some h1 /\ winv h1 /\ (room h1 <= room h + tlv_weight (inner_tlvs a))%nat).
  { destruct add; [by apply dp_tlvs_add|]. apply dp_tlvs_remove; try done. rewrite Forall_forall. intros b Hin _. by apply Hgood. }
  destruct H1 as (h1 & -> & Hw1 & Hr1). cbn [mbind option_bind]. destruct (refresh_winv false h1 Hw1) as (h2 & -> & Hw2 & _); [unfold fits; lia|]. by exists h2.
Qed.

Lemma delete_to_step k h d : winv h -> fits h -> hp_dp_mem h !! HeapDp k = Some d -> exists h', hpa_dp_delete_to (HeapDp k) h = Some h' /\ winv h'.
Proof.
  intros Hw Hf Hd. unfold hpa_dp_delete_to. destruct (dp_remove_winv k h Hw Hf) as (h1 & -> & Hw1 & Hr1); [eapply heap_cell; [apply Hw|done]|]. cbn [mbind option_bind].
  destruct (both_step h1 (winv_almost _ Hw1)) as (h2 & E & Hw2 & _); [unfold fits in *; lia|]. by exists h2.
Qed.

(** ** Settings and the rest of the program *)

Lemma conf_winv c h : winv h -> prefix_wf (v4_prefix c) -> prefix_wf (ula_prefix c) -> winv (hncp_pa_ula_conf_set c h).
Proof.
  intros Hw H4 Hu. apply (winv_cells h); [done| |by split_and!|done]. pose proof (wi_good _ Hw) as [Hi Hf Hs]. split; [|done|by apply (settled_ext h)]. split; try apply Hi. by split.
Qed.

Lemma user_winv u h : winv h -> winv (hncp_pa_iface_user_register u h).
Proof. intros Hw. apply (winv_cells h); [done| |by split_and!|done]. apply (good_ext h); try done. apply Hw. Qed.

(** DNCP and the store as others leave them, at a later time. *)
Definition world (o : dncp) (st : pa_store) h : hpa := set_hp_store st (set_hp_dncp o h).

Lemma world_winv o st h : winv h -> dncp_ready o -> is_Some (own_node o) -> store_fine st -> hp_time h <= clock o -> winv (world o st h).
Proof.
  intros Hw Ho Hown Hst Ht. apply (winv_cells h); [done| |by split_and!|done]. pose proof (wi_good _ Hw) as [Hi Hf Hs]. split; [|done|by apply (settled_ext h)]. split; try apply Hi; [exact Hst|by split].
Qed.

Lemma storage_step path h : winv h -> exists h' r, hncp_pa_storage_set path h = Some (h', r) /\ winv h'.
Proof.
  intros Hw. pose proof (gd_inv _ (wi_good _ Hw)) as Hi. destruct (storage_set_fine path (hp_store h) (hi_store _ Hi)) as (st1 & r & E & Hf). unfold hncp_pa_storage_set. rewrite E. cbn [mbind option_bind].
  specialize (Hf (30 * HNETD_TIME_PER_SECOND) (HNETD_TIME_PER_SECOND * 60 * 60 * 6)). destruct (pa_store_set_file _ _ _ st1) as [st2 r2]. eexists _, _. split; [done|].
  replace (set_hp_store st2 h) with (world (hp_dncp h) st2 h) by (by destruct h). apply world_winv; [done|apply Hi|apply Hi|done|done].
Qed.

(** ** All of them *)

Inductive hpa_op :=
| HpV4Timer
| HpUlaTimer
| HpExtdata (name : list Z) (data : option (list Z))
| HpExt4data (name : list Z) (data : option (list Z))
| HpPrefix (name : list Z) (x : prefix) (excluded : option prefix) (valid_until preferred_until : Z) (dhcp : list Z)
| HpDeleteTo (p : dp_ptr)
| HpConnection (n : node) (a : attr) (add : bool)
| HpRepublish
| HpConf (c : ula_conf)
| HpUser (u : option bool)
| HpStorage (path : list Z)
| HpWorld (o : dncp) (st : pa_store).

Definition hpa_exec (op : hpa_op) h : option hpa :=
  match op with
  | HpV4Timer => v4_timer h
  | HpUlaTimer => ula_timer h
  | HpExtdata name data => hpa_iface_extdata_cb name data h
  | HpExt4data name data => hpa_iface_ext4data_cb name data h
  | HpPrefix name x excluded v pr dhcp => hpa_iface_prefix_cb name x excluded v pr dhcp h
  | HpDeleteTo p => hpa_dp_delete_to p h
  | HpConnection n a add => external_connection_changed n a add h
  | HpRepublish => hpa_dncp_republish_cb h
  | HpConf c => Some (hncp_pa_ula_conf_set c h)
  | HpUser u => Some (hncp_pa_iface_user_register u h)
  | HpStorage path => fst <$> hncp_pa_storage_set path h
  | HpWorld o st => Some (world o st h)
  end.

(** What an operation may add to the external connections. *)
Definition op_room (op : hpa_op) : nat :=
  match op with
  | HpExtdata _ data | HpExt4data _ data => 16 + length (default [] data)
  | HpPrefix _ _ _ _ _ dhcp => 64 + length dhcp
  | HpConnection _ a _ => tlv_weight (inner_tlvs a)
  | _ => 0
  end.

(** What callers guarantee: timers that have been set, bytes, prefixes with their bits, no
    lifetimes for the IPv4 prefix of the uplink, and a DNCP and a store that are sound. *)
Definition hpa_allowed h (op : hpa_op) : Prop :=
  Z.of_nat (room h + op_room op) < 65536 /\
  match op with
  | HpV4Timer => exists t, v4_to h = Some t /\ t <= hp_time h
  | HpUlaTimer => exists t, ula_to h = Some t /\ t <= hp_time h
  | HpPrefix _ x excluded v _ _ => prefix_wf x /\ (forall y, excluded = Some y -> prefix_wf y) /\ (hp_time h < v -> not_v4 h x)
  | HpDeleteTo p => exists k d t, p = HeapDp k /\ hp_dp_mem h !! p = Some d /\ hd_delete_to d = Some t /\ t <= hp_time h
  | HpConnection n a add => Forall (fun b => bytes_ok b.2) (inner_tlvs a)
  | HpConf c => prefix_wf (v4_prefix c) /\ prefix_wf (ula_prefix c)
  | HpWorld o st => dncp_ready o /\ is_Some (own_node o) /\ store_fine st /\ hp_time h <= clock o
  | _ => True
  end.

(** What then has no defined result. *)
Definition hpa_faults h (op : hpa_op) : Prop :=
  match op with
  | HpPrefix name x _ v _ _ => frees_uplink h name x v
  | HpConnection n a add => connection_faults h n a add
  | _ => False
  end.

Lemma hpa_fault h op : winv h -> hpa_allowed h op -> hpa_faults h op -> hpa_exec op h = None.
Proof. intros Hw [Hr Ha] Hf. destruct op; try done; cbn [hpa_exec op_room] in *; [by apply prefix_faults|by apply connection_fault]. Qed.

Lemma hpa_step h op : winv h -> hpa_allowed h op -> ~ hpa_faults h op -> exists h', hpa_exec op h = Some h' /\ winv h'.
Proof.
  intros Hw [Hr Ha] Hnf. assert (Hf : fits h) by (unfold fits; lia). destruct op as [| |name data|name data|name x excl v pr dhcp|p|n a add| |c|u|path|o st]; cbn [hpa_exec op_room hpa_faults] in *.
  - by apply timers_step.
  - by apply timers_step.
  - apply extdata_step; [done|lia].
  - apply ext4data_step; [done|lia].
  - destruct Ha as (Hx & Hy & Hv). apply prefix_step; try done. lia.
  - destruct Ha as (k & d & t & -> & Hd & _). by eapply delete_to_step.
  - by apply connection_step.
  - destruct (refresh_winv true h Hw Hf) as (h' & E & Hw' & _). by exists h'.
  - destruct Ha. eexists. split; [done|]. by apply conf_winv.
  - eexists. split; [done|]. by apply user_winv.
  - destruct (storage_step path h Hw) as (h' & r & -> & Hw'). by exists h'.
  - destruct Ha as (Ho & Hown & Hst & Ht). eexists. split; [done|]. by apply world_winv.
Qed.

(** A defined result was no fault. *)
Lemma hpa_some_step h op h' : winv h -> hpa_allowed h op -> hpa_exec op h = Some h' -> winv h'.
Proof.
  intros Hw Ha E. destruct (hpa_step h op Hw Ha) as (h0 & E0 & Hw'); [intros Hf; rewrite (hpa_fault h op Hw Ha Hf) in E; done|]. congruence.
Qed.

(** ** From the start *)

Lemma create_winv o domain st : dncp_ready o -> is_Some (own_node o) -> link_mem st = ∅ -> prefix_mem st = ∅ -> exists h, hncp_pa_create o domain st = Some h /\ winv h /\ room h = 96%nat.
Proof.
  intros Ho Hown El Ep. unfold hncp_pa_create. destruct (init_is 100 st El Ep) as [Hi _]; [lia|]. set (st0 := pa_store_init 100 st) in *.
  assert (Hfix : fixed_mem st0 = ∅) by (unfold fixed_mem; cbn; by rewrite El). assert (Hno : forall k', ~ has_name st0 (sl_name store_ula_link) k') by (intros k' (? & ? & H); by rewrite Hfix in H).
  assert (Hadd : addable st0 store_ula store_ula_link) by (split; [by intros []|]; split; [by intros ?%not_elem_of_nil|]; split; [done|]; split; [cbn; unfold PA_STORE_NAMELEN; lia|]; split; [done|]; rewrite Hfix; apply map_Forall_empty).
  destruct (link_add_new st0 [] store_ula store_ula_link Hi Hadd Hno) as (Hi1 & _ & Hf1 & _). set (st1 := set_st_links _ _) in Hi1, Hf1.
  assert (E : pa_store_link_add store_ula store_ula_link st0 = Some st1).
  { unfold pa_store_link_add. rewrite decide_False by (by intros ?%not_elem_of_nil). reflexivity. }
  rewrite E. cbn [mbind option_bind]. eexists. split; [done|]. split; [|done].
  assert (Hst : store_fine st1) by (exists [], (set_sl_n_prefixes 0 (set_sl_prefixes (Some []) store_ula_link)); split; [exact Hi1|split; [apply lookup_insert_eq|done]]).
  assert (Hz : prefix_wf prefix_zero) by decided. set (m := <[V4Dp := dp_zero]> (<[UlaDp := dp_zero]> (∅ : gmap dp_ptr hpa_dp))).
  assert (Hm : forall p d, m !! p = Some d -> special p /\ d = dp_zero).
  { intros p d. unfold m. rewrite !lookup_insert_Some, lookup_empty. intros [[<- <-]|[_ [[<- <-]|[_ ?]]]]; [by split; [left|]|by split; [right|]|done]. }
  assert (Hheap : forall k, ~ is_Some (m !! HeapDp k)) by (by intros k [d [[?|?] _]%Hm]).
  split; cbn [v4_alarm ula_alarm v4_enabled v4_backoff ula_enabled ula_backoff]; try done; try (intros k d Hd; by destruct (Hheap k); eexists); try (by intros _; eexists); try (by intros []).
  split; [|split; cbn; (split; [by intros ?%not_elem_of_nil|done])|by intros p d ?%not_elem_of_nil].
  split; cbn [hp_dps hp_dp_mem hp_calls hp_ifaces hp_conf hp_log hp_store hp_dncp]; try done; fold m.
  - apply NoDup_nil_2.
  - by intros p ?%not_elem_of_nil.
  - intros p Hp. exists dp_zero. split; [|done]. unfold m. by destruct Hp as [->| ->].
  - intros k Hk. by destruct (Hheap k).
  - intros p d [_ ->]%Hm. exact Hz.
  - by intros p d [_ ->]%Hm _.
  - by intros p d _ ?%not_elem_of_nil.
  - apply NoDup_nil_2.
  - split; [decided|exact Hz].
Qed.

Inductive hpa_reach : hpa -> Prop :=
| reach_create o domain st h : dncp_ready o -> is_Some (own_node o) -> link_mem st = ∅ -> prefix_mem st = ∅ -> hncp_pa_create o domain st = Some h -> hpa_reach h
| reach_op h op h' : hpa_reach h -> hpa_allowed h op -> hpa_exec op h = Some h' -> hpa_reach h'.

Lemma reach_winv h : hpa_reach h -> winv h.
Proof.
  induction 1 as [o domain st h Ho Hown El Ep E|h op h' _ Hw Ha E].
  - destruct (create_winv o domain st Ho Hown El Ep) as (h0 & E0 & Hw & _). congruence.
  - by eapply hpa_some_step.
Qed.
End ops.
