(* ===== verification/HncpPaRound.v ===== *)
(** What [hpa_refresh_ec] publishes is what [hpa_update_dp_tlv] reads on other nodes. *)
From S2P Require Import Prelude Bitops Prefix Tlv DnsUtil PaCore PaInv PaStore PaStoreInv PaStoreCache DncpNotify DncpIndex DncpState Dncp DncpFacts DncpPrune DncpInv DncpTrustFacts Hncp HncpRouting HncpPa HncpPaEc HncpPaInv HncpPaEnable HncpPaLocal HncpPaOps.

(** ** Lifetimes *)

(** A lifetime [v] at the time [now] became [w] on a node for which it began at [base]. *)
Definition lifetime_kept (now base v w : Z) : Prop :=
  (v = HNETD_TIME_MAX -> w = HNETD_TIME_MAX) /\
  (v ≠ HNETD_TIME_MAX -> v < now -> w = base) /\
  (v ≠ HNETD_TIME_MAX -> now <= v < now + UINT32_MAX * HNETD_TIME_PER_SECOND -> 0 <= (v - now) - (w - base) < HNETD_TIME_PER_SECOND).

Lemma remote_rel_range now v : 0 <= _local_abs_to_remote_rel now v < 2 ^ 32.
Proof.
  unfold _local_abs_to_remote_rel, UINT32_MAX, HNETD_TIME_PER_SECOND. case_decide; [lia|]. case_decide; [lia|]. case_decide; [lia|].
  rewrite Z.quot_div_nonneg in * by lia. pose proof (Z.div_pos (v - now) 1000). lia.
Qed.

Lemma lifetime_roundtrip now base v : lifetime_kept now base v (_remote_rel_to_local_abs base (_local_abs_to_remote_rel now v)).
Proof.
  unfold lifetime_kept, _local_abs_to_remote_rel, _remote_rel_to_local_abs, UINT32_MAX, HNETD_TIME_PER_SECOND. split; [|split].
  - intros ->. rewrite !decide_True by done. done.
  - intros Hv Hn. rewrite (decide_False (P := v = _)), (decide_True (P := v < now)), decide_False by (done || lia). lia.
  - intros Hv Hn. rewrite (decide_False (P := v = _)), (decide_False (P := v < now)) by (done || lia). rewrite Z.quot_div_nonneg by lia.
    pose proof (Z.div_mod (v - now) 1000 ltac:(lia)). pose proof (Z.mod_pos_bound (v - now) 1000 ltac:(lia)).
    rewrite (decide_False (P := _ <= (v - now) / 1000)) by lia. rewrite decide_False by lia. lia.
Qed.

Section round.
Context `{DX : !DncpExt, DC : !DncpCallbacks, SH : !StoreHost, HH : !HpaHost, DP : !Passive, EP : !EcPassive, QS : !QSort hpa_qsort, HOK : !StoreHostOk}.
Implicit Types (h : hpa) (p q : dp_ptr) (d : hpa_dp) (i : hpa_iface).

(** ** One delegated prefix *)

(** What another node makes of the delegated prefix [d]: IPv6 DHCP options get there, those
    for IPv4 do not. *)
Definition received (now base : Z) (policy : bool) d (t : dp_tlv) : Prop :=
  prefix_wf (td_prefix t) /\ pbits (td_prefix t) = dp_bits d /\ lifetime_kept now base (hd_valid d) (td_valid t) /\ lifetime_kept now base (hd_preferred d) (td_preferred t) /\
  td_dhcp t = (if is_v4 (hd_prefix d) then [] else hd_dhcp d) /\ td_dst_present t = policy /\ plen (td_dst t) = 0%nat.

Lemma byte_at_app (l1 l2 : list Z) x : byte_at (l1 ++ x :: l2) (length l1) = x.
Proof. unfold byte_at. by rewrite list_lookup_middle. Qed.

Lemma dp_body_fields now d (rest : list Z) : prefix_wf (hd_prefix d) ->
  let x := dp_body now d ++ rest in
  of_be32 (take 4 x) = _local_abs_to_remote_rel now (hd_valid d) /\ of_be32 (take 4 (drop 4 x)) = _local_abs_to_remote_rel now (hd_preferred d) /\
  Z.to_nat (byte_at x 8) = plen (hd_prefix d) /\ drop 9 x = take (ROUND_BITS_TO_BYTES (plen (hd_prefix d))) (pfx (hd_prefix d)) ++ rest.
Proof.
  intros Hw. cbv zeta. unfold dp_body. set (v := _local_abs_to_remote_rel now (hd_valid d)). set (w := _local_abs_to_remote_rel now (hd_preferred d)).
  set (pre := take _ (pfx _)). rewrite <- !app_assoc. cbn [app]. set (tl := Z.of_nat (plen (hd_prefix d)) :: pre ++ rest).
  assert (Hv : 0 <= v < 2 ^ 32) by apply remote_rel_range. assert (Hw' : 0 <= w < 2 ^ 32) by apply remote_rel_range.
  rewrite (take_app_length' (be32 v)), (drop_app_length' (be32 v)) by done. rewrite (take_app_length' (be32 w)) by done. rewrite !of_be32_be32 by lia. split; [done|]. split; [done|].
  rewrite app_assoc. split.
  - assert (8%nat = length (be32 v ++ be32 w)) as E by done. unfold tl. rewrite E, byte_at_app. lia.
  - change 9%nat with (length (be32 v ++ be32 w) + 1)%nat. by rewrite drop_app_add.
Qed.

Lemma hncp_tlv_dp_payload now type policy d rest : prefix_wf (hd_prefix d) -> dp_payload now type policy d = dp_body now d ++ rest ->
  hncp_tlv_dp (HNCP_T_DELEGATED_PREFIX, dp_payload now type policy d) =
    Some (mk_t_dp (_local_abs_to_remote_rel now (hd_valid d)) (_local_abs_to_remote_rel now (hd_preferred d)) (plen (hd_prefix d))
      (take (ROUND_BITS_TO_BYTES (plen (hd_prefix d))) (pfx (hd_prefix d)) ++ rest)).
Proof.
  intros Hw Hx. pose proof (length_dp_body now d Hw) as Hl. rewrite Hx. unfold hncp_tlv_dp. destruct (dp_body_fields now d rest Hw) as (E1 & E2 & E3 & E4). rewrite E1, E2, E3, E4.
  rewrite length_app, Hl. rewrite decide_False by (intros [?|?]; [done|lia]). rewrite decide_False; [done|]. destruct Hw as (_ & _ & Hp). lia.
Qed.

Lemma dp_subs_ok type policy d : type_ok type -> Z.of_nat (dp_room d) < 65536 -> tlvs_ok (dp_subs type policy d).
Proof.
  intros Ht Hr. unfold dp_subs, dp_room in *. apply Forall_app. split; [case_decide; [constructor|]; constructor; [|constructor]; split; cbn [fst snd]; [exact Ht|lia]|].
  destruct policy; [|constructor]. constructor; [|constructor]. by split.
Qed.

Lemma dp_policies_subs type policy d : type = HNCP_T_DHCPV6_OPTIONS \/ type = HNCP_T_DHCP_OPTIONS ->
  exists addr, dp_policies (dp_subs type policy d) [] None (replicate 16 0) =
    (if decide (type = HNCP_T_DHCPV6_OPTIONS) then hd_dhcp d else [], if policy then Some 0%nat else None, addr).
Proof.
  intros Ht. unfold dp_subs. destruct (decide (hd_dhcp d = [])) as [E|E].
  - rewrite E. exists (replicate 16 0). destruct Ht as [->| ->]; by destruct policy.
  - exists (replicate 16 0). destruct Ht as [->| ->]; destruct policy; done.
Qed.

Lemma round4 n : (ROUND_BYTES_TO_4BYTES n = n + padn n)%nat.
Proof. unfold ROUND_BYTES_TO_4BYTES, padn. lia. Qed.

Lemma enc_bytes ts : Forall (fun t : attr => bytes_ok t.2) ts -> bytes_ok (enc ts).
Proof.
  induction 1 as [|[id x] ts Hx _ IH]; [constructor|]. rewrite enc_cons. apply Forall_app. split; [|done]. unfold enc_attr, hdr, padding. repeat (apply Forall_app; split); [apply be32_bytes|exact Hx|].
  apply Forall_replicate. unfold byte_ok. lia.
Qed.

(** What follows the prefix. *)
Definition dp_rest now type policy d : list Z :=
  if decide (dp_subs type policy d = []) then [] else padding (length (dp_body now d)) ++ enc (dp_subs type policy d).

Lemma dp_rest_spec now type policy d : bytes_ok (hd_dhcp d) ->
  dp_payload now type policy d = dp_body now d ++ dp_rest now type policy d /\ bytes_ok (dp_rest now type policy d) /\ (policy = true -> (0 < length (dp_rest now type policy d))%nat).
Proof.
  intros Hb. unfold dp_payload, dp_rest. destruct (decide (dp_subs type policy d = [])) as [E|E].
  - rewrite app_nil_r. split; [done|]. split; [constructor|]. intros ->. unfold dp_subs in E. by destruct (decide (hd_dhcp d = [])).
  - split; [done|]. split.
    + apply Forall_app. split; [apply Forall_replicate; unfold byte_ok; lia|]. apply enc_bytes. unfold dp_subs. apply Forall_app. split; [case_decide; [constructor|by repeat constructor]|].
      destruct policy; [|constructor]. repeat constructor; cbn; lia.
    + intros _. destruct (dp_subs type policy d) as [|[id x] ts]; [done|]. rewrite length_app, enc_cons, length_app, length_enc_attr. lia.
Qed.

(** The options behind the prefix. *)
Lemma dp_payload_subs now type policy d : prefix_wf (hd_prefix d) -> type_ok type -> Z.of_nat (dp_room d) < 65536 ->
  let flen := ROUND_BYTES_TO_4BYTES (9 + ROUND_BITS_TO_BYTES (plen (hd_prefix d))) in
  (if decide (length (dp_payload now type policy d) < flen)%nat then Some [] else tlv_list (dp_payload now type policy d) flen (length (dp_payload now type policy d) - flen) : option (list attr)) =
    Some (dp_subs type policy d).
Proof.
  intros Hw Hto Hr. cbv zeta. rewrite round4, <- (length_dp_body now d Hw). unfold dp_payload. destruct (decide (dp_subs type policy d = [])) as [Es|Es].
  - rewrite Es. case_decide as Hc; [done|]. assert (padn (length (dp_body now d)) = 0%nat) as -> by lia. rewrite Nat.add_0_r, Nat.sub_diag. unfold tlv_list, tlv_for_each_in_buf. cbn [Nat.add tlv_iter].
    by rewrite decide_False by lia.
  - rewrite decide_False by (rewrite !length_app, length_padding; lia).
    pose proof (tlv_list_enc_at (dp_body now d ++ padding (length (dp_body now d))) (dp_subs type policy d) [] (dp_subs_ok type policy d Hto Hr)) as Hl2.
    rewrite app_nil_r, <- app_assoc, length_app, length_padding in Hl2. etrans; [|exact Hl2]. f_equal. rewrite !length_app, length_padding. lia.
Qed.

Lemma received_prefix (x : prefix) rest : prefix_wf x -> bytes_ok rest -> (0 < length rest \/ 0 < plen x)%nat ->
  exists y, pa_prefix_cpy (take (ROUND_BITS_TO_BYTES (plen x)) (pfx x) ++ rest) (plen x) (replicate 16 0) = Some y /\ prefix_wf (mk_prefix y (plen x)) /\ bits y 0 (plen x) = bits (pfx x) 0 (plen x).
Proof.
  intros (W1 & W2 & W3) Hrest Hne. pose proof (bytes_le_16 _ W3) as H16. set (k := ROUND_BITS_TO_BYTES (plen x)) in *. assert (Hk : (plen x <= 8 * k)%nat) by (unfold k, ROUND_BITS_TO_BYTES; lia).
  assert (Hb : bytes_ok (take k (pfx x) ++ rest)) by (apply Forall_app; split; [by apply Forall_take|done]).
  assert (Hlen : length (take k (pfx x) ++ rest) = (k + length rest)%nat) by (rewrite length_app, length_take; lia). unfold pa_prefix_cpy.
  destruct (bmemcpy_copied (replicate 16 0) 0 (take k (pfx x) ++ rest) 0 0 (plen x)) as (y & -> & Hyl & Hyb & Hy); [decided|done|rewrite length_replicate; lia|rewrite Hlen; lia|].
  exists y. split; [done|]. split; [by split_and!|]. apply bits_ext. intros j Hj. rewrite Hy, decide_True by lia. replace (8 * 0 + 0 + (0 + j - (8 * 0 + 0)))%nat with j by lia.
  unfold bit. rewrite lookup_app_l, lookup_take_lt by (rewrite ?length_take; lia). done.
Qed.

Lemma dp_payload_parses now base type policy d : prefix_wf (hd_prefix d) -> type = (if is_v4 (hd_prefix d) then HNCP_T_DHCP_OPTIONS else HNCP_T_DHCPV6_OPTIONS) ->
  Z.of_nat (dp_room d) < 65536 -> bytes_ok (hd_dhcp d) -> (policy = true \/ 0 < plen (hd_prefix d))%nat ->
  exists t0 t, hncp_tlv_dp (HNCP_T_DELEGATED_PREFIX, dp_payload now type policy d) = Some t0 /\
    parse_dp_tlv base (HNCP_T_DELEGATED_PREFIX, dp_payload now type policy d) t0 = Some t /\ received now base policy d t.
Proof.
  intros Hw Hty Hr Hby Hne. destruct (dp_rest_spec now type policy d Hby) as (Hx & Hrb & Hrl). pose proof (hncp_tlv_dp_payload now type policy d _ Hw Hx) as E. eexists _.
  assert (Ht : type = HNCP_T_DHCPV6_OPTIONS \/ type = HNCP_T_DHCP_OPTIONS) by (rewrite Hty; destruct (is_v4 _); auto). assert (Hto : type_ok type) by (by destruct Ht as [->| ->]).
  destruct (dp_policies_subs type policy d Ht) as (addr & Epol). destruct (received_prefix (hd_prefix d) (dp_rest now type policy d) Hw Hrb) as (y & Ey & Hwy & Eb).
  { destruct Hne as [->|?]; [left; by apply Hrl|by right]. }
  unfold parse_dp_tlv. rewrite E. eexists. split; [done|]. cbn [tdp_plen dp_data dp_valid dp_preferred snd]. pose proof (dp_payload_subs now type policy d Hw Hto Hr) as Hs. cbv zeta in Hs. rewrite Hs. cbn [mbind option_bind].
  rewrite Epol, Ey. cbn [mbind option_bind]. split; [done|]. split; [exact Hwy|]. split; [exact Eb|]. cbn [td_valid td_preferred td_dhcp td_dst_present td_dst].
  split; [apply lifetime_roundtrip|]. split; [apply lifetime_roundtrip|]. split; [rewrite Hty; by destruct (is_v4 _)|]. by destruct policy.
Qed.

(** ** External connections *)

Lemma tlv_list_raw t : attr_ok t.1 (length t.2) -> tlv_list (raw t) 0 (length (raw t)) = Some [t].
Proof.
  destruct t as [id q]. cbn [fst snd]. intros Hok. assert (E : raw (id, q) = [] ++ hdr id (length q) ++ q) by done. pose proof (length_raw (id, q)) as Hl. cbn [snd] in Hl.
  unfold tlv_list, tlv_for_each_in_buf. replace (length (raw (id, q)) + 1)%nat with (S (S (length q + 3))) by lia. cbn [tlv_iter]. rewrite decide_True by lia. rewrite E at 1.
  change 0%nat with (length (@nil Z)) at 1. rewrite tlv_raw_len_hdr by done. cbn [mbind option_bind]. rewrite !decide_True by lia. rewrite E at 1. change 0%nat with (length (@nil Z)) at 1.
  rewrite tlv_next_hdr by done. cbn [mbind option_bind length]. rewrite decide_False by lia. cbn [mbind option_bind mapM].
  assert (tlv_read (raw (id, q)) 0 = Some (id, q)) as ->; [|done]. rewrite E. change 0%nat with (length (@nil Z)). unfold tlv_read, tlv_payload. rewrite tlv_id_hdr, tlv_len_hdr by done. cbn [mbind option_bind].
  rewrite app_assoc. replace (length (@nil Z) + 4)%nat with (length ([] ++ hdr id (length q))) by done. pose proof (rdn_app ([] ++ hdr id (length q)) q [] (length q) eq_refl) as Hr. rewrite app_nil_r in Hr. by rewrite Hr.
Qed.

Lemma inner_local now type d : prefix_wf (hd_prefix d) -> Z.of_nat (dp_room d) < 65536 ->
  inner_tlvs (local_tlv now type d) = [(HNCP_T_DELEGATED_PREFIX, dp_payload now type false d)].
Proof.
  intros Hw Hr. unfold inner_tlvs, local_tlv. cbn [snd]. pose proof (length_dp_payload now type false d Hw). unfold dp_room in Hr. rewrite tlv_list_raw; [done|]. split; [done|]. cbn [snd]. lia.
Qed.

Lemma iface_options_ok i : Z.of_nat (iface_room i) < 65536 -> tlvs_ok (iface_options i).
Proof. intros Hr. unfold iface_options, iface_room in *. apply Forall_app. split; (case_decide; [constructor|]; constructor; [|constructor]; split; cbn [fst snd]; [done|lia]). Qed.

Lemma inner_ec now ds i a : Forall (fun d => prefix_wf (hd_prefix d)) ds -> Z.of_nat (sum_list (dp_room <$> ds) + iface_room i) < 65536 -> ec_tlv now ds i a ->
  forall b, b ∈ inner_tlvs a <-> (exists d, d ∈ ds /\ b = dp_attr now d) \/ b ∈ iface_options i.
Proof.
  intros Hds Hr (ts & -> & Hp) b. unfold inner_tlvs. cbn [snd].
  assert (Hok : tlvs_ok (ts ++ iface_options i)).
  { apply Forall_app. split; [|apply iface_options_ok; lia]. rewrite Hp. apply dp_attrs_ok; [done|lia]. }
  assert (Ein : default [] (tlv_list (enc (ts ++ iface_options i)) 0 (length (enc (ts ++ iface_options i)))) = ts ++ iface_options i).
  { pose proof (tlv_list_enc_at [] _ [] Hok) as E. cbn [app length] in E. rewrite app_nil_r in E. by rewrite E. }
  unfold attr in *. rewrite Ein, elem_of_app, Hp, list_elem_of_fmap.
  split; (intros [(d & H1 & H2)|?]; [left; by exists d|by right]).
Qed.

Lemma options_not_dp i b : b ∈ iface_options i -> b.1 ≠ HNCP_T_DELEGATED_PREFIX.
Proof. unfold iface_options. intros [H|H]%elem_of_app; case_decide; [by apply elem_of_nil in H|apply list_elem_of_singleton in H as ->; done|by apply elem_of_nil in H|apply list_elem_of_singleton in H as ->; done]. Qed.

(** The delegated prefixes that this node announces: enabled, and of its own. *)
Definition announces h p d : Prop := p ∈ hp_dps h /\ hp_dp_mem h !! p = Some d /\ hd_enabled d = true /\ hd_local d = true.

(** The TLV of the delegated prefix [d]. *)
Definition announcement h d : attr :=
  if decide (hd_type d = HPA_DP_T_IFACE) then dp_attr (hp_time h) d else (HNCP_T_DELEGATED_PREFIX, dp_payload (hp_time h) (dhcp_type d) false d).

Lemma cells_elem h dps d : d ∈ cells h dps <-> exists p, p ∈ dps /\ hp_dp_mem h !! p = Some d.
Proof. unfold cells. by rewrite list_elem_of_omap. Qed.

Lemma local_payload now type type' d : hd_dhcp d = [] -> dp_payload now type false d = dp_payload now type' false d.
Proof. intros E. unfold dp_payload, dp_subs. by rewrite E, !decide_True. Qed.

Lemma ec_room_iface h n i : ec_ready h -> get_iface h n = Some i ->
  Z.of_nat (sum_list (dp_room <$> filter (of_iface (Some n)) (cells h (hp_dps h))) + iface_room i) < 65536 /\ Forall (fun d => prefix_wf (hd_prefix d)) (filter (of_iface (Some n)) (cells h (hp_dps h))).
Proof.
  intros Hr Hi. pose proof (er_room _ Hr n i Hi) as Hroom. pose proof (sum_list_filter dp_room (of_iface (Some n)) (cells h (hp_dps h))). split; [lia|]. apply forall_filter, well_formed_cells, Hr.
Qed.

(** The TLVs of delegated prefixes in what is published are those of the announced ones. *)
Lemma published_inner h : hinv h -> fits h -> flags_ok h -> forall b, b.1 = HNCP_T_DELEGATED_PREFIX ->
  (exists a, published_ec h a /\ b ∈ inner_tlvs a) <-> (exists p d, announces h p d /\ b = announcement h d).
Proof.
  intros Hi Hf Hfl b Hb. pose proof (hinv_ready h Hi Hf) as Hr. assert (Hloc : forall p d, special p -> hp_dp_mem h !! p = Some d -> hd_dhcp d = [] /\ prefix_wf (hd_prefix d) /\ Z.of_nat (dp_room d) < 65536).
  { intros p d Hp Hd. destruct (hi_special _ Hi p Hp) as (d' & Hd' & E & _). assert (d' = d) as -> by congruence. split; [done|]. split; [by eapply hi_wf|]. unfold dp_room. rewrite E. cbn. lia. }
  assert (Hty : forall p d, special p -> p ∈ hp_dps h -> hp_dp_mem h !! p = Some d -> hd_type d ≠ HPA_DP_T_HNCP).
  { intros p d Hp Hin Hd Ht. destruct (hncp_kind h p d Hi Hd Hin Ht) as (k & -> & _). by destruct Hp. }
  split.
  - intros (a & [(p & d & n & Hp & Hd & Hof & Hat)|[(d & Hd & Hu & He & ->)|(d & Hd & Hv & He & Ht & ->)]] & Hin).
    + destruct (er_iface _ Hr p d Hp Hd (proj1 Hof)) as (n' & i & En & Hgi). assert (n' = n) as -> by (destruct Hof; congruence). destruct (ec_ready_spec h n Hr) as (a' & i' & Ea & Hgi' & Hec & _); [by exists i|].
      destruct Hat as (e6 & e4 & Ea'). assert (a' = a) as -> by congruence. assert (i' = i) as -> by congruence. destruct (ec_room_iface h n i Hr Hgi) as [R1 R2].
      destruct (proj1 (inner_ec _ _ _ _ R2 R1 Hec b) Hin) as [(d' & [Hof' (p' & Hp' & Hd')%cells_elem]%list_elem_of_filter & Eb)|Ho]; [|by apply options_not_dp in Ho].
      exists p', d'. destruct Hof' as [[He Ht%bool_decide_eq_true]%andb_true_iff _]. unfold announcement. rewrite decide_True by done. split; [|exact Eb]. split; [done|]. split; [done|]. split; [done|].
      destruct (hi_kind _ Hi p' d' Hd' Hp') as [(_ & ? & _)|[(_ & ? & _)|(E & _)]]; [done|done|rewrite E in Ht; discriminate].
    + destruct (Hloc UlaDp d (or_intror eq_refl) Hd) as (E & W & R). rewrite (inner_local _ _ _ W R) in Hin. apply list_elem_of_singleton in Hin as ->. apply (proj2 Hfl) in Hu.
      exists UlaDp, d. destruct (hi_kind _ Hi _ _ Hd Hu) as [(_ & _ & ? & _)|[(Ht & Hl & _)|(_ & _ & k & ?)]]; [done| |done]. unfold announcement. rewrite decide_False by (rewrite Ht; done).
      split; [by split_and!|]. f_equal. by apply local_payload.
    + destruct (Hloc V4Dp d (or_introl eq_refl) Hd) as (E & W & R). rewrite (inner_local _ _ _ W R) in Hin. apply list_elem_of_singleton in Hin as ->. apply (proj1 Hfl) in Hv.
      exists V4Dp, d. destruct (hi_kind _ Hi _ _ Hd Hv) as [(E2 & _)|[(_ & Hl & _)|(_ & _ & k & ?)]]; [rewrite E2 in Ht; discriminate| |done]. unfold announcement. rewrite decide_False by (rewrite Ht; done).
      split; [by split_and!|]. f_equal. by apply local_payload.
  - intros (p & d & (Hp & Hd & He & Hl) & ->). unfold announcement. destruct (hi_kind _ Hi p d Hd Hp) as [(Ht & _ & _ & _ & n & i & En & Hgi)|[(Ht & _ & Hsp & _)|(_ & E & _)]]; [| |congruence].
    + rewrite decide_True by done. destruct (ec_ready_spec h n Hr) as (a & i' & Ea & Hgi' & Hec & _); [by exists i|]. assert (i' = i) as -> by congruence. destruct (ec_room_iface h n i Hr Hgi) as [R1 R2].
      assert (Hof : of_iface (Some n) d) by (split; [apply andb_true_iff; split; [done|by apply bool_decide_eq_true]|done]).
      exists a. split; [left; exists p, d, n; split_and!; try done; by eexists _, _|]. apply (inner_ec _ _ _ _ R2 R1 Hec). left. exists d. split; [|done]. apply list_elem_of_filter. split; [done|]. apply cells_elem. by exists p.
    + rewrite decide_False by (rewrite Ht; done). destruct (Hloc p d Hsp Hd) as (E & W & R). destruct Hsp as [->| ->].
      * exists (local_tlv (hp_time h) HNCP_T_DHCP_OPTIONS d). apply (proj1 Hfl) in Hp. split; [right; right; by exists d|]. rewrite (inner_local _ _ _ W R). apply list_elem_of_singleton. f_equal. by apply local_payload.
      * exists (local_tlv (hp_time h) HNCP_T_DHCPV6_OPTIONS d). apply (proj2 Hfl) in Hp. split; [right; left; by exists d|]. rewrite (inner_local _ _ _ W R). apply list_elem_of_singleton. f_equal. by apply local_payload.
Qed.

(** A cell of the list is small enough. *)
Lemma cell_room h p d : hinv h -> fits h -> p ∈ hp_dps h -> hp_dp_mem h !! p = Some d -> Z.of_nat (dp_room d) < 65536.
Proof.
  intros Hi Hf Hp Hd. unfold fits, room in Hf. destruct p as [| |k].
  - destruct (hi_special _ Hi V4Dp (or_introl eq_refl)) as (d' & Hd' & E & _). assert (d' = d) as -> by congruence. unfold dp_room. rewrite E. cbn. lia.
  - destruct (hi_special _ Hi UlaDp (or_intror eq_refl)) as (d' & Hd' & E & _). assert (d' = d) as -> by congruence. unfold dp_room. rewrite E. cbn. lia.
  - pose proof (sum_list_elem (heap_room h) _ _ Hp) as Hs. assert (heap_room h (HeapDp k) = dp_room d) as E by (unfold heap_room; by rewrite Hd). lia.
Qed.

Lemma announcement_parses h base p d : hinv h -> fits h -> announces h p d -> bytes_ok (hd_dhcp d) -> (hd_type d = HPA_DP_T_IFACE \/ 0 < plen (hd_prefix d))%nat ->
  exists t0 t, hncp_tlv_dp (announcement h d) = Some t0 /\ parse_dp_tlv base (announcement h d) t0 = Some t /\ received (hp_time h) base (bool_decide (hd_type d = HPA_DP_T_IFACE)) d t.
Proof.
  intros Hi Hf (Hp & Hd & _ & _) Hb Hne. pose proof (hi_wf _ Hi p d Hd) as Hw. pose proof (cell_room h p d Hi Hf Hp Hd) as Hr. unfold announcement, dp_attr. case_decide as Ht.
  - rewrite bool_decide_true by done. apply dp_payload_parses; try done. by left.
  - rewrite bool_decide_false by done. apply dp_payload_parses; try done. right. by destruct Hne.
Qed.
End round.
