(* ===== verification/HncpPaProps.v ===== *)
(** The theorems on delegated prefixes, and an example in which they apply. *)
From S2P Require Import Prelude Bitops Prefix Tlv DnsUtil BtrieWf PaTrie PaCore PaFacts PaInv PaStore PaStoreInv PaStoreCache PaStoreLinks PaStoreText PaStoreFile PaStoreOps PaStoreProps DncpNotify DncpIndex DncpState Dncp DncpFacts DncpPrune DncpInv DncpExample DncpTrustFacts Hncp HncpRouting HncpPa HncpPaEc HncpPaInv HncpPaEnable HncpPaLocal HncpPaHeap HncpPaOps HncpPaRound.

Section props.
Context `{DX : !DncpExt, DC : !DncpCallbacks, SH : !StoreHost, HH : !HpaHost, DP : !Passive, EP : !EcPassive, QS : !QSort hpa_qsort, HOK : !StoreHostOk}.
Implicit Types (h : hpa) (p q : dp_ptr) (d : hpa_dp).

(** C4: Every timer, callback and setting that concerns delegated prefixes has a defined result
    in every reachable state (nothing is freed twice, used after it was freed or read out of
    bounds), except exactly for: an external connection of another node with a delegated
    prefix TLV of nine bytes for an empty prefix, or whose removal names a delegated prefix
    that is not known, and an interface that withdraws the IPv4 prefix of the uplink.
    Afterwards the core of the prefix assignment, to which nothing was added twice and from
    which nothing was removed that it did not have, has exactly the enabled delegated
    prefixes and the rules of their excluded prefixes, and the delegated prefixes in memory
    are exactly those in the list. Assumed are that the external connections stay below 64
    KiB, that the zone TLVs found in the data of the nodes have their header of 17 bytes
    (HncpPaProps.short_zone), that interfaces do not give the IPv4 prefix of the uplink
    lifetimes, that prefixes have at most 128 bits, and that the other subscribers of DNCP
    change only local TLVs, and not the external connections. *)
Theorem hpa_core_in_step h op : hpa_reach h -> hpa_allowed h op ->
  (hpa_faults h op -> hpa_exec op h = None) /\
  (~ hpa_faults h op -> exists h', hpa_exec op h = Some h' /\ hpa_reach h' /\ core_after (hp_log h') = Some (enabled_map (hp_dp_mem h'), rules_map (hp_dp_mem h')) /\
    (forall p d, hp_dp_mem h' !! p = Some d -> hd_enabled d = true -> p ∈ hp_dps h') /\ (forall k, is_Some (hp_dp_mem h' !! HeapDp k) <-> HeapDp k ∈ hp_dps h')).
Proof.
  intros Hr Ha. split; [by apply hpa_fault; [apply reach_winv|]|]. intros Hnf. destruct (hpa_step h op (reach_winv h Hr) Ha Hnf) as (h' & E & Hw). exists h'. split; [done|]. split; [by eapply reach_op|]. pose proof (gd_inv _ (wi_good _ Hw)) as Hi.
  split; [apply Hi|]. split; [|intros k; split; [by intros [? _]%(hi_heap _ Hi)|apply Hi]].
  intros p d Hd He. destruct (decide (p ∈ hp_dps h')) as [|Hn]; [done|]. pose proof (hi_off _ Hi p d Hd Hn). congruence.
Qed.

(** C6: In a reachable state no two enabled delegated prefixes overlap, apart from the local
    IPv4 and ULA prefix; and every delegated prefix in the list lies in one that is enabled,
    or in one that two other nodes announce. *)
Theorem hpa_enabled_disjoint h : hpa_reach h ->
  (forall p q d d2, p ∈ hp_dps h -> q ∈ hp_dps h -> p ≠ q -> hp_dp_mem h !! p = Some d -> hp_dp_mem h !! q = Some d2 -> hd_enabled d = true -> hd_enabled d2 = true ->
     dp_bits d2 `prefix_of` dp_bits d -> p = V4Dp \/ p = UlaDp \/ ((q = V4Dp \/ q = UlaDp) /\ dp_bits d2 = dp_bits d)) /\
  (forall p d, p ∈ hp_dps h -> hp_dp_mem h !! p = Some d ->
     exists q d2, q ∈ hp_dps h /\ hp_dp_mem h !! q = Some d2 /\ dp_bits d2 `prefix_of` dp_bits d /\
       (hd_enabled d2 = true \/ exists r d3, r ∈ hp_dps h /\ r ≠ q /\ hp_dp_mem h !! r = Some d3 /\ dp_bits d3 = dp_bits d2 /\ hd_type d2 = HPA_DP_T_HNCP /\ hd_type d3 = HPA_DP_T_HNCP)).
Proof.
  intros Hr. destruct (wi_good _ (reach_winv h Hr)) as [Hi [Hf1 Hf2] Hs]. split; [intros; by eapply settled_disjoint|]. intros p d Hp Hd. apply (settled_covers h p d); try done; [by apply Hf1|by apply Hf2].
Qed.

(** C38: In a reachable state a local ULA prefix exists only while no other node announces one;
    a timer is pending while there is a local ULA or IPv4 prefix or a backoff for one; and a
    backoff ends within 3010 ms. *)
Theorem hpa_ula_unique h : hpa_reach h ->
  (ula_enabled h = true -> forall p d, p ∈ hp_dps h -> hp_dp_mem h !! p = Some d -> hd_type d = HPA_DP_T_HNCP -> is_ula (hd_prefix d) = false) /\
  (ula_enabled h = true \/ ula_backoff h ≠ 0 -> is_Some (ula_to h)) /\ (v4_enabled h = true \/ v4_backoff h ≠ 0 -> is_Some (v4_to h)) /\
  (ula_backoff h ≠ 0 -> ula_backoff h < hp_time h + 10 + HPA_ULA_MAX_BACKOFF) /\ (v4_backoff h ≠ 0 -> v4_backoff h < hp_time h + 10 + HPA_ULA_MAX_BACKOFF).
Proof.
  intros Hr. destruct (reach_winv h Hr) as [Hg H1 H2 H3 H4 _ Hu]. split; [|by split_and!]. intros He p d Hp Hd Ht. destruct (hncp_kind h p d (gd_inv _ Hg) Hd Hp Ht) as (k & -> & _). exact (Hu He k d Hd Ht).
Qed.

(** ** Waiting for the local prefix *)

Lemma i32_small z : - 2 ^ 31 <= z < 2 ^ 31 -> i32 z = z.
Proof. intros Hz. unfold i32. rewrite Z.mod_small; lia. Qed.

(** The timer while the backoff has not passed. *)
Lemma ula_waits h : hinv h -> ~ no_ula h -> ula_enabled h = false -> 0 < hp_time h -> (forall k, 0 <= hpa_random k) -> ula_backoff h = 0 \/ hp_time h < ula_backoff h < hp_time h + 10 + HPA_ULA_MAX_BACKOFF ->
  exists b n, hpa_ula_to h = Some (set_ula_to (Some (b + 10)) (set_ula_backoff b (set_hp_calls n h))) /\ b ≠ 0 /\ b < hp_time h + 10 + HPA_ULA_MAX_BACKOFF.
Proof.
  intros Hi Hno He Ht Hrnd Hb. unfold hpa_ula_to. destruct (ula_destroy_spec h Hi) as ([] & -> & Hd); [by destruct Hno; apply Hd|]. cbn [mbind option_bind]. unfold ula_decide. rewrite He. cbv zeta.
  assert (Hsch : forall b n, b ≠ 0 -> hp_time h < b < hp_time h + 10 + HPA_ULA_MAX_BACKOFF ->
    ula_schedule (set_ula_backoff b (set_hp_calls n h)) = Some (set_ula_to (Some (b + 10)) (set_ula_backoff b (set_hp_calls n h)))).
  { intros b n Hb0 Hb1. unfold ula_schedule, timeout_set. cbn [set_ula_backoff set_hp_calls ula_enabled ula_backoff]. rewrite He, decide_True by done.
    change (hp_time (set_ula_backoff b (set_hp_calls n h))) with (hp_time h). rewrite i32_small by (unfold HPA_ULA_MAX_BACKOFF in Hb1; lia). do 3 f_equal. lia. }
  case_decide as E0.
  - cbn [mbind option_bind]. pose proof (rem_backoff (hpa_random (hp_calls h))). pose proof (Z.rem_nonneg (hpa_random (hp_calls h)) HPA_ULA_MAX_BACKOFF ltac:(done) (Hrnd _)).
    eexists _, _. unfold hp_called. rewrite Hsch by lia. split; [done|]. lia.
  - destruct Hb as [?|Hb]; [done|]. rewrite decide_False by lia. cbn [mbind option_bind]. exists (ula_backoff h), (hp_calls h). split; [|lia]. rewrite <- Hsch by lia. f_equal. by destruct h.
Qed.

(** C39: When the ULA timer expires and nothing speaks against a local ULA prefix, there is one
    afterwards, or the timer is set again within 3020 ms; when it expires the next time with
    nothing else changed there is one. *)
Theorem hpa_ula_comes_up h : hpa_reach h -> hpa_allowed h HpUlaTimer -> ~ no_ula h -> 0 < hp_time h -> (forall k, 0 <= hpa_random k) ->
  exists h1, hpa_exec HpUlaTimer h = Some h1 /\
    (ula_enabled h1 = true \/
     exists t, ula_to h1 = Some t /\ t < hp_time h + 20 + HPA_ULA_MAX_BACKOFF /\
       forall o, dncp_ready o -> is_Some (own_node o) -> hp_time h <= clock o -> t <= clock o ->
         hpa_allowed (world o (hp_store h1) h1) HpUlaTimer /\ exists h2, hpa_exec HpUlaTimer (world o (hp_store h1) h1) = Some h2 /\ ula_enabled h2 = true).
Proof.
  intros Hr Ha Hno Ht Hrnd. pose proof (reach_winv h Hr) as Hw. destruct (hpa_step h HpUlaTimer Hw Ha ltac:(by intros [])) as (h1 & E & Hw1). exists h1. split; [done|]. cbn [hpa_exec] in E. unfold ula_timer in E.
  pose proof (gd_inv _ (wi_good _ Hw)) as Hi. set (h0 := set_ula_to None h) in *. assert (Hg0 : good h0) by (by apply (good_timers h None None), Hw).
  assert (Hf : fits h0) by (destruct Ha as [Hroom _]; unfold fits; change (room h0) with (room h); cbn [op_room] in Hroom; lia). assert (Hno0 : ~ no_ula h0) by exact Hno.
  destruct (ula_to_spec h0 Hg0 Hf) as (h1' & b & E1 & Hb & _ & _ & Ho & _). assert (h1' = h1) as -> by congruence. assert (b = false) as -> by (destruct b; [by destruct Hno0; apply Hb|done]).
  unfold ula_outcome in Ho. case_bool_decide as Hc; [left; apply Ho|]. right. change (ula_enabled h0) with (ula_enabled h) in Hc. change (ula_backoff h0) with (ula_backoff h) in Hc. change (hp_time h0) with (hp_time h) in Hc.
  assert (He : ula_enabled h = false) by (destruct (ula_enabled h); [by destruct Hc; left|done]).
  assert (Hbk : ula_backoff h = 0 \/ hp_time h < ula_backoff h < hp_time h + 10 + HPA_ULA_MAX_BACKOFF).
  { destruct (decide (ula_backoff h = 0)) as [|Hn]; [by left|right]. split; [|by apply Hw]. destruct (decide (ula_backoff h <= hp_time h)); [|lia]. destruct Hc. by right. }
  destruct (ula_waits h0 (gd_inv _ Hg0) Hno0 He Ht Hrnd Hbk) as (b & n & E2 & Hb0 & Hb1). rewrite E2 in E. injection E as <-. change (hp_time h0) with (hp_time h) in Hb1. exists (b + 10). split; [done|]. split; [lia|].
  intros o Ho1 Ho2 Hc1 Hc2. set (h1 := set_ula_to (Some (b + 10)) _) in *. set (h2 := world o (hp_store h1) h1).
  assert (Hw2 : winv h2) by (apply world_winv; try done; apply Hw1). assert (Ha2 : hpa_allowed h2 HpUlaTimer).
  { split; [|by exists (b + 10)]. destruct Ha as [Hroom _]. change (room h2) with (room h). exact Hroom. }
  split; [exact Ha2|]. destruct (hpa_step h2 HpUlaTimer Hw2 Ha2 ltac:(by intros [])) as (h3 & E3 & _). exists h3. split; [done|]. cbn [hpa_exec] in E3. unfold ula_timer in E3.
  destruct (ula_to_spec (set_ula_to None h2)) as (h3' & c & E4 & Hc' & _ & _ & Ho3 & _); [by apply (good_timers h2 None None), Hw2|exact Hf|]. assert (h3' = h3) as -> by congruence.
  assert (c = false) as -> by (destruct c; [by destruct Hno0; apply Hc'|done]). unfold ula_outcome in Ho3. rewrite bool_decide_true in Ho3; [apply Ho3|]. right. split; [exact Hb0|]. change (b <= clock o). lia.
Qed.

(** C5: The delegated prefixes that another node reads from the external connections that a
    refresh publishes are exactly the enabled ones of this node, with the same prefix,
    lifetimes that are at most a second shorter (or infinite, or over), and the DHCPv6
    options; DHCP options of IPv4 prefixes are not read. *)
Theorem hpa_announced_received h base : hpa_reach h -> hpa_allowed h HpRepublish ->
  (forall p d, announces h p d -> bytes_ok (hd_dhcp d) /\ (hd_type d = HPA_DP_T_IFACE \/ 0 < plen (hd_prefix d))%nat) ->
  exists h', hpa_exec HpRepublish h = Some h' /\
    (forall p d, announces h p d -> exists a b t0 t, a ∈ ec_set (hp_dncp h') /\ b ∈ inner_tlvs a /\ hncp_tlv_dp b = Some t0 /\ parse_dp_tlv base b t0 = Some t /\
       received (hp_time h) base (bool_decide (hd_type d = HPA_DP_T_IFACE)) d t) /\
    (forall a b t0, a ∈ ec_set (hp_dncp h') -> b ∈ inner_tlvs a -> hncp_tlv_dp b = Some t0 ->
       exists p d t, announces h p d /\ parse_dp_tlv base b t0 = Some t /\ received (hp_time h) base (bool_decide (hd_type d = HPA_DP_T_IFACE)) d t).
Proof.
  intros Hr [Hroom _] Hb. pose proof (reach_winv h Hr) as Hw. destruct (wi_good _ Hw) as [Hi Hfl _]. assert (Hf : fits h) by (unfold fits; cbn [op_room] in Hroom; lia).
  destruct (refresh_spec true h (hinv_ready h Hi Hf)) as (o & v6 & v4 & E & _ & Hset). eexists. split; [exact E|]. cbn [hp_emit set_hp_log set_hp_dncp hp_dncp]. split.
  - intros p d Han. destruct (Hb p d Han) as [B1 B2]. destruct (announcement_parses h base p d Hi Hf Han B1 B2) as (t0 & t & E1 & E2 & E3).
    assert (Hty : (announcement h d).1 = HNCP_T_DELEGATED_PREFIX) by (unfold announcement; by case_decide).
    destruct (proj2 (published_inner h Hi Hf Hfl _ Hty)) as (a & Ha & Hin); [by exists p, d|]. exists a, (announcement h d), t0, t. split; [by apply Hset|]. by split_and!.
  - intros a b t0 Ha Hin H0. assert (Hty : b.1 = HNCP_T_DELEGATED_PREFIX) by (destruct b; cbn in H0 |- *; case_decide as C; [done|]; destruct (decide (z = HNCP_T_DELEGATED_PREFIX)); [done|]; destruct C; by left).
    destruct (proj1 (published_inner h Hi Hf Hfl b Hty)) as (p & d & Han & ->); [exists a; split; [by apply Hset|done]|]. destruct (Hb p d Han) as [B1 B2].
    destruct (announcement_parses h base p d Hi Hf Han B1 B2) as (t0' & t & E1 & E2 & E3). assert (t0' = t0) as -> by congruence. by exists p, d, t.
Qed.

(** ** Behaviours that differ from what is meant *)

(** The removal of a delegated prefix that is not known goes through a null pointer. *)
Lemma unknown_removed n a t0 t h : hncp_tlv_dp a = Some t0 -> parse_dp_tlv (origination_time n) a t0 = Some t -> hpa_dp_get_hncp (td_prefix t) (nid n) h = Some None -> hpa_update_dp_tlv n a false h = None.
Proof. intros E1 E2 E3. unfold hpa_update_dp_tlv. rewrite E1. by rewrite E2; cbn [mbind option_bind]; rewrite E3. Qed.

(** A delegated zone shorter than its header is read past its end. *)
Lemma short_zone id x l v6 v4 : (length x < 17)%nat -> zone_options ((id, x) :: l) v6 v4 = None.
Proof. intros H. cbn [zone_options]. by rewrite lookup_ge_None_2 by lia. Qed.

(** A destination that differs from the known one is not taken over. *)
Lemma destination_kept p d t h : hp_dp_mem h !! p = Some d -> hd_dst_present d = true -> td_dst_present t = true -> hd_dst d ≠ td_dst t -> update_destination p t h = Some h.
Proof. intros Hd H1 H2 Hne. unfold update_destination. rewrite Hd. cbn [mbind option_bind]. rewrite decide_False; [done|]. rewrite H1, H2. by intros [?|[_ ?]]. Qed.

(** A random prefix has 48 bits, whatever length is configured. *)
Lemma random_ula_length h : exists h' x, random_ula h = Some (h', x) /\ plen x = 48%nat.
Proof. destruct (random_ula_spec h) as (x & E & _ & _ & El). by eexists _, x. Qed.
End props.

(** ** An example *)

Section example.
#[local] Existing Instance toy_ext.
#[local] Existing Instance toy_cb.
#[local] Existing Instance toy_passive.
#[local] Existing Instances by_type_dec tlvs_ok_dec tlvs_sorted_dec data_ok_dec.
#[local] Existing Instance example_store_host.
#[local] Existing Instance example_store_host_ok.

#[local] Instance toy_ec : EcPassive.
Proof. by split. Qed.

#[local] Instance example_hpa_host : HpaHost := {| hpa_calloc := fun _ => true; hpa_random := fun _ => 7; hpa_qsort := qsort_merge; hpa_pairs := fun _ _ => [] |}.

#[local] Instance example_hpa_sort : QSort hpa_qsort := qsort_merge_ok.

#[local] Instance zone_ok_dec t : Decision (zone_ok t).
Proof. unfold zone_ok. apply _. Defined.

Definition long_zones (n : node) : Prop := Forall (fun t => t.1 = HNCP_T_DNS_DELEGATED_ZONE -> zone_ok t) (tlvs_of n).

#[local] Instance long_zones_dec n : Decision (long_zones n).
Proof. unfold long_zones. apply _. Defined.

Lemma example_dncp : dncp_ready joined_up /\ is_Some (own_node joined_up).
Proof.
  split; [|by eexists; vm_compute]. split.
  - split; [decided|]. assert (tix joined_up = dncp_add_tlv_index (dncp_add_tlv_index tindex_empty 8) 9) as -> by (vm_compute; reflexivity). do 2 apply dncp_add_tlv_index_wf. apply tindex_empty_wf.
  - assert (forall n, n ∈ nodes joined_up -> data_ok n) as H by each_node. assert (forall n, n ∈ nodes joined_up -> long_zones n) as Hz by each_node.
    intros n Hn. destruct (H n Hn) as (? & ? & ?). apply (ordered_zones_ok n (tlvs_of n)); [assumption|assumption|assumption|exact (Hz n Hn)].
Qed.

Definition hpa_blank : hpa := mk_hpa joined_up [] blank_store None (hncp_pa_ula_conf_default (mk_ula_conf false false false 0 prefix_zero false false false prefix_zero 0 0 0)) [] ∅ [] None false 0 None false 0 0 [].

Definition hpa_start : hpa := default hpa_blank (hncp_pa_create joined_up [] blank_store).

Lemma hpa_start_reach : hpa_reach hpa_start.
Proof.
  destruct example_dncp as [Ho Hown]. destruct (create_winv joined_up [] blank_store Ho Hown eq_refl eq_refl) as (h & E & _). apply (reach_create joined_up [] blank_store); [exact Ho|exact Hown|reflexivity|reflexivity|].
  unfold hpa_start. rewrite E. reflexivity.
Qed.

(** A step of a reachable state. *)
Lemma reach_next h op : hpa_reach h -> hpa_allowed h op -> hpa_reach (default h (hpa_exec op h)).
Proof. intros Hr Ha. destruct (hpa_exec op h) as [h'|] eqn:E; [exact (reach_op h op h' Hr Ha E)|exact Hr]. Qed.

(** An uplink gets a prefix. *)
Definition delegated : prefix := mk_prefix ([32; 1; 13; 184] ++ replicate 12 0) 48.
Definition uplink_prefix : hpa_op := HpPrefix [101] delegated None 4000000 3000000 [1; 2; 3].
Definition hpa_uplink : hpa := default hpa_start (hpa_exec uplink_prefix hpa_start).

Lemma hpa_uplink_reach : hpa_reach hpa_uplink.
Proof.
  apply reach_next; [exact hpa_start_reach|]. split; [vm_compute; reflexivity|]. split; [decided|]. split; [by intros y [=]|]. intros _ d Hin. exfalso.
  assert (hp_dps hpa_start = []) as E by (vm_compute; reflexivity). rewrite E in Hin. by apply elem_of_nil in Hin.
Qed.

(** A neighbour announces the prefix that contains it. *)
Definition remote_connection : attr :=
  (HNCP_T_EXTERNAL_CONNECTION, enc [(HNCP_T_DELEGATED_PREFIX, be32 600 ++ be32 300 ++ [32] ++ [32; 1; 13; 184] ++ [0; 0; 0] ++ enc [(HNCP_T_DHCPV6_OPTIONS, [4; 5]); (HNCP_T_PREFIX_POLICY, [0])])]).
Definition neighbour_connection : hpa_op := HpConnection peer_node remote_connection true.

Lemma neighbour_inner : inner_tlvs remote_connection = default [] (tlv_list remote_connection.2 0 (length remote_connection.2)).
Proof. reflexivity. Qed.

Lemma neighbour_allowed : hpa_allowed hpa_uplink neighbour_connection.
Proof. split; [vm_compute; reflexivity|]. cbn [neighbour_connection]. rewrite neighbour_inner. vm_compute. constructor; [decided|constructor]. Qed.

Lemma neighbour_no_fault : ~ hpa_faults hpa_uplink neighbour_connection.
Proof.
  intros (_ & _ & b & Hin & t0 & E & [[H _]|[H _]]); [|discriminate]. rewrite neighbour_inner in Hin. vm_compute in Hin. apply list_elem_of_singleton in Hin as ->. vm_compute in E. injection E as <-. discriminate.
Qed.

Lemma hpa_core_in_step_witness : exists h', hpa_exec neighbour_connection hpa_uplink = Some h' /\ hpa_reach h' /\ core_after (hp_log h') = Some (enabled_map (hp_dp_mem h'), rules_map (hp_dp_mem h')) /\
  (forall p d, hp_dp_mem h' !! p = Some d -> hd_enabled d = true -> p ∈ hp_dps h') /\ (forall k, is_Some (hp_dp_mem h' !! HeapDp k) <-> HeapDp k ∈ hp_dps h').
Proof. apply (hpa_core_in_step hpa_uplink neighbour_connection); [exact hpa_uplink_reach|exact neighbour_allowed|exact neighbour_no_fault]. Defined.

(** With the prefix of the neighbour ours is no longer used. *)
Definition hpa_both : hpa := default hpa_uplink (hpa_exec neighbour_connection hpa_uplink).

Lemma hpa_both_reach : hpa_reach hpa_both.
Proof. apply reach_next; [exact hpa_uplink_reach|exact neighbour_allowed]. Qed.

Lemma hpa_both_enabled : (fun p => (p, hd_enabled <$> hp_dp_mem hpa_both !! p)) <$> hp_dps hpa_both = [(HeapDp 3, Some true); (HeapDp 1, Some false)].
Proof. vm_compute. reflexivity. Qed.

(** Of the two prefixes in the list, one is enabled. *)
Lemma hpa_enabled_disjoint_witness :
  (forall p q d d2, p ∈ hp_dps hpa_both -> q ∈ hp_dps hpa_both -> p ≠ q -> hp_dp_mem hpa_both !! p = Some d -> hp_dp_mem hpa_both !! q = Some d2 -> hd_enabled d = true -> hd_enabled d2 = true ->
     dp_bits d2 `prefix_of` dp_bits d -> p = V4Dp \/ p = UlaDp \/ ((q = V4Dp \/ q = UlaDp) /\ dp_bits d2 = dp_bits d)) /\
  (forall p d, p ∈ hp_dps hpa_both -> hp_dp_mem hpa_both !! p = Some d ->
     exists q d2, q ∈ hp_dps hpa_both /\ hp_dp_mem hpa_both !! q = Some d2 /\ dp_bits d2 `prefix_of` dp_bits d /\
       (hd_enabled d2 = true \/ exists r d3, r ∈ hp_dps hpa_both /\ r ≠ q /\ hp_dp_mem hpa_both !! r = Some d3 /\ dp_bits d3 = dp_bits d2 /\ hd_type d2 = HPA_DP_T_HNCP /\ hd_type d3 = HPA_DP_T_HNCP)).
Proof. apply hpa_enabled_disjoint. exact hpa_both_reach. Defined.

(** Time passes, and the timers of the local prefix expire. *)
Definition later_on (t : Z) (h : hpa) : hpa_op := HpWorld (set_clock t (hp_dncp h)) (hp_store h).

Lemma later_allowed t h : hpa_reach h -> hp_time h <= t -> Z.of_nat (room h) < 65536 -> hpa_allowed h (later_on t h).
Proof.
  intros Hr Ht Hroom. pose proof (gd_inv _ (wi_good _ (reach_winv h Hr))) as Hi. split; [cbn [op_room later_on]; lia|]. cbn [later_on]. split; [exact (proj1 (hi_dncp _ Hi))|]. split; [exact (proj2 (hi_dncp _ Hi))|].
  split; [exact (hi_store _ Hi)|exact Ht].
Qed.

Definition hpa_due : hpa := default hpa_uplink (hpa_exec (later_on 3000 hpa_uplink) hpa_uplink).

Lemma hpa_due_reach : hpa_reach hpa_due.
Proof. apply reach_next; [exact hpa_uplink_reach|]. apply later_allowed; [exact hpa_uplink_reach|vm_compute; discriminate|vm_compute; reflexivity]. Qed.

Lemma ula_due (h : hpa) : (match ula_to h with Some t => bool_decide (t <= hp_time h) | None => false end) = true -> Z.of_nat (room h) < 65536 -> hpa_allowed h HpUlaTimer.
Proof. intros Ht Hr. split; [cbn [op_room]; lia|]. cbn. destruct (ula_to h) as [t|]; [|done]. apply bool_decide_eq_true in Ht. by exists t. Qed.

Lemma hpa_due_allowed : hpa_allowed hpa_due HpUlaTimer.
Proof. apply ula_due; vm_compute; reflexivity. Qed.

Lemma hpa_due_no_ula : ~ no_ula hpa_due.
Proof.
  destruct (ula_destroy_spec hpa_due (gd_inv _ (wi_good _ (reach_winv _ hpa_due_reach)))) as (b & E & Hb). intros Hn. apply Hb in Hn. rewrite Hn in E. revert E. vm_compute. discriminate.
Qed.

Lemma hpa_ula_comes_up_witness :
  exists h1, hpa_exec HpUlaTimer hpa_due = Some h1 /\
    (ula_enabled h1 = true \/
     exists t, ula_to h1 = Some t /\ t < hp_time hpa_due + 20 + HPA_ULA_MAX_BACKOFF /\
       forall o, dncp_ready o -> is_Some (own_node o) -> hp_time hpa_due <= clock o -> t <= clock o ->
         hpa_allowed (world o (hp_store h1) h1) HpUlaTimer /\ exists h2, hpa_exec HpUlaTimer (world o (hp_store h1) h1) = Some h2 /\ ula_enabled h2 = true).
Proof. apply hpa_ula_comes_up; [exact hpa_due_reach|exact hpa_due_allowed|exact hpa_due_no_ula|vm_compute; reflexivity|intros k; vm_compute; discriminate]. Defined.

(** The local prefix is there. *)
Definition hpa_waiting : hpa := default hpa_due (hpa_exec HpUlaTimer hpa_due).
Definition hpa_waited : hpa := default hpa_waiting (hpa_exec (later_on 9000 hpa_waiting) hpa_waiting).
Definition hpa_local : hpa := default hpa_waited (hpa_exec HpUlaTimer hpa_waited).

Lemma hpa_local_reach : hpa_reach hpa_local.
Proof.
  assert (H1 : hpa_reach hpa_waiting) by (apply reach_next; [exact hpa_due_reach|exact hpa_due_allowed]).
  assert (H2 : hpa_reach hpa_waited) by (apply reach_next; [exact H1|]; apply later_allowed; [exact H1|vm_compute; discriminate|vm_compute; reflexivity]).
  apply reach_next; [exact H2|]. apply ula_due; vm_compute; reflexivity.
Qed.

Lemma hpa_ula_unique_witness : ula_enabled hpa_local = true /\
  (ula_enabled hpa_local = true -> forall p d, p ∈ hp_dps hpa_local -> hp_dp_mem hpa_local !! p = Some d -> hd_type d = HPA_DP_T_HNCP -> is_ula (hd_prefix d) = false) /\
  (ula_enabled hpa_local = true \/ ula_backoff hpa_local ≠ 0 -> is_Some (ula_to hpa_local)) /\ (v4_enabled hpa_local = true \/ v4_backoff hpa_local ≠ 0 -> is_Some (v4_to hpa_local)) /\
  (ula_backoff hpa_local ≠ 0 -> ula_backoff hpa_local < hp_time hpa_local + 10 + HPA_ULA_MAX_BACKOFF) /\ (v4_backoff hpa_local ≠ 0 -> v4_backoff hpa_local < hp_time hpa_local + 10 + HPA_ULA_MAX_BACKOFF).
Proof. split; [vm_compute; reflexivity|]. apply hpa_ula_unique. exact hpa_local_reach. Defined.

(** Both prefixes of this node get to its neighbours. *)
Definition readable_dp (h : hpa) (p : dp_ptr) : bool :=
  match hp_dp_mem h !! p with Some d => bool_decide (Forall (fun b => 0 <= b < 256) (hd_dhcp d)) && bool_decide (0 < plen (hd_prefix d))%nat | None => false end.

Lemma all_readable h : forallb (readable_dp h) (hp_dps h) = true -> forall p d, announces h p d -> bytes_ok (hd_dhcp d) /\ (hd_type d = HPA_DP_T_IFACE \/ 0 < plen (hd_prefix d))%nat.
Proof.
  intros H p d (Hp & Hd & _). rewrite forallb_forall in H. apply list_elem_of_In, H in Hp. unfold readable_dp in Hp. rewrite Hd in Hp.
  apply andb_true_iff in Hp as [H1%bool_decide_eq_true H2%bool_decide_eq_true]. split; [exact H1|by right].
Qed.

Lemma hpa_local_readable : forallb (readable_dp hpa_local) (hp_dps hpa_local) = true.
Proof. vm_compute. reflexivity. Qed.

Lemma hpa_announced_received_witness :
  exists h', hpa_exec HpRepublish hpa_local = Some h' /\
    (forall p d, announces hpa_local p d -> exists a b t0 t, a ∈ ec_set (hp_dncp h') /\ b ∈ inner_tlvs a /\ hncp_tlv_dp b = Some t0 /\ parse_dp_tlv 50000 b t0 = Some t /\
       received (hp_time hpa_local) 50000 (bool_decide (hd_type d = HPA_DP_T_IFACE)) d t) /\
    (forall a b t0, a ∈ ec_set (hp_dncp h') -> b ∈ inner_tlvs a -> hncp_tlv_dp b = Some t0 ->
       exists p d t, announces hpa_local p d /\ parse_dp_tlv 50000 b t0 = Some t /\ received (hp_time hpa_local) 50000 (bool_decide (hd_type d = HPA_DP_T_IFACE)) d t).
Proof. apply hpa_announced_received; [exact hpa_local_reach|split; [vm_compute; reflexivity|exact I]|exact (all_readable hpa_local hpa_local_readable)]. Defined.

Lemma hpa_local_enabled : (fun p => (p, hd_enabled <$> hp_dp_mem hpa_local !! p)) <$> hp_dps hpa_local = [(UlaDp, Some true); (HeapDp 1, Some true)].
Proof. vm_compute. reflexivity. Qed.
End example.
